(* ===== verification/_CoqProject ===== *)
-Q . S2P
Prelude.v
Tenant.v
TenantDomain.v
TenantStore.v
Authz.v
AuthzStore.v
AuthzPermission.v
Bytes.v
World.v
Crypto.v
Secrets.v
IdpManager.v
IdpRegistry.v
Oidc.v
IdpCache.v
IdpSecrets.v
OidcClaims.v
StateCookie.v
Jwt.v
Identity.v
IdentityAuth.v
IdentityLogic.v
IdentityTotp.v
IdentityLinking.v
IdentitySessions.v
IdentityFederation.v
IdentityFactors.v
IdentityAcross.v
IdentityInvite.v
AuditEvent.v
AuditStore.v
AuditChain.v
AuditLog.v
AuditList.v
ScimFilter.v
ScimPath.v
ScimPatch.v
ScimNesting.v
SamlReplay.v
SamlProvider.v
SamlAssertion.v
Http.v
WebAuth.v
WebGates.v
WebAudit.v
WebAccess.v
WebPolicies.v
WebAuditRows.v
WebLogin.v
WebWire.v
WebAuthRoutes.v
WebPooled.v
OAuth2Social.v
WebFlows.v
WebFederation.v
WebSaml.v
ScimStore.v
ScimWire.v
WebScim.v
ScimMemStore.v
ScimMemLaws.v
WebScimLaws.v
WebScimPatch.v
SamlManager.v
HierStore.v
HierProvision.v
HierLaws.v
HierReconcile.v
HierMembership.v
HierSql.v
HierHttp.v
TamperAdmin.v
Throttle.v
TamperProvider.v
PooledStore.v
LeakSuite.v
AuthzLeak.v
AuditMigrations.v
ScimBulk.v
WebRoutes.v
