(* ===== verification/Prelude.v ===== *)
(** * Tamper: a verification development

    Tamper (src/) is a Go library of identity and access building blocks for
    multi-tenant applications: tenants and their hierarchy (src/tenant),
    authorization engines (src/authz), a tamper-evident audit log (src/audit),
    tokens and secrets (src/crypto), accounts (src/identity), SAML, OIDC and
    plain OAuth 2.0 sign-in (src/saml, src/oidc, src/oauth2social), SCIM
    provisioning (src/scim), the HTTP layer over all of them (src/espresso) and
    the root package that builds the engines. Every package talks to storage
    through a port the application implements and most ship an in-memory
    reference store; the examples (src/examples) are applications, and some of
    them carry logic of their own: a pooled account store, a tenant hierarchy, a
    SCIM directory with bulk requests.

    The packages meet in a few places. The tenant identifier and the parentage
    walk are used by every other package. [identity.Core] mints through the token
    service of crypto, and the gates of espresso check what it minted before the
    authorization engines or a handler see a request. The routes of espresso call
    the accounts, the provider managers and the SCIM ports through interfaces.
    Whoever mutates something appends a row to the audit log in the scope of a
    tenant, with the actor the gates put into the request context.

    ** How the code is modelled

    A Go call of type (A, error) is a value of [go A]: a result, an error value
    or a panic. Errors keep which sentinel they wrap ([errors_is] is
    [errors.Is]); texts are reduced to labels. Pure stateful code is explicit
    state passing; services run in the monad [M] of [World]: the application's
    state beside the trace of what the process did, of which the clock, random
    bytes, identifiers and every outside answer are functions. Handlers run in
    the same monad over a state that also holds the response ([Http]). Where
    several parties share a state its operations are the steps of a relation or a
    run over a list of calls; an operation the code performs in several store
    calls is several steps where an interleaving matters. A port is a record of
    functions; its contract is a class of laws, which a reference store
    discharges with an instance. Third-party code (bcrypt, AES-GCM, golang-jwt,
    go-oidc, crewjam/saml, the parsers, the HTTP framework, SQLite's statements)
    is a record of operations or a section variable, and what is assumed of it is
    a named hypothesis. Strings are byte strings. A loop over a Go slice is a
    [Fixpoint] on the list; a loop without a structural bound takes fuel, and a
    theorem states the fuel that is enough. The order in which a Go map is ranged
    over is a parameter wherever it can be observed.

    ** Files

    - [Prelude]: outcomes and errors, instants, sorting and orders, Go strings,
      lemmas on options, lists and integers, tactics and hints.
    - [Bytes]: big-endian words, SHA-1, SHA-256 and HMAC, hexadecimal, base32
      and base64, executable. [World]: the monad of the services.
    - [Tenant] (src/tenant id, tenant, store, hierarchy, inherited,
      entitlements): identifiers, the parentage walk, the inheritance rule,
      plans. [TenantDomain] (domain, domain_inherit, verify): domain ownership
      and its DNS proof. [TenantStore] (memstore, admin): the tenant table.
    - [Authz], [AuthzStore], [AuthzPermission] (src/authz): the rank engine and
      policies; the binding table; the set engine, the adapter from ranks to sets
      and the grant table. [AuthzLeak] (authz/tenanttest): the conformance
      suites.
    - [AuditEvent] (src/audit audit, canonical_v4, redaction): the event, its
      length-prefixed payload, commitments, ComputeHash. [AuditStore]
      (audit_sqlite, verify_boot, export, the queries): append, chain walks,
      retention, erasure, listing, export. [AuditChain], [AuditLog], [AuditList]:
      what they guarantee. [AuditMigrations] (internal/sqlitestore): opening the
      database and its migrations.
    - [Crypto] (src/crypto password, refresh, the minting of jwt), [Secrets]
      (keyset, secretbox, totp), [Jwt] (the verifying half of jwt, signer),
      [Throttle] (throttle, over an exact float64).
    - [Identity] (src/identity core, store, memstore): records, port, reference
      store and the core service. [IdentityTotp], [IdentityLinking],
      [IdentityAcross], [IdentityInvite] (totp, linking, membership and
      impersonation, invitation): its other methods, and what every history of
      them leaves in the sessions. [IdentityAuth], [IdentityLogic],
      [IdentitySessions], [IdentityFederation], [IdentityFactors]: the other
      theorems. [LeakSuite] (identity/tenanttest): the
      conformance suite.
    - [IdpManager], [IdpRegistry] (the managers and registries of src/oidc and
      src/saml), [IdpCache], [IdpSecrets]: the cache of live registries and the
      secrets at rest. [Oidc], [OidcClaims] (src/oidc provider, claims, mapper),
      [SamlProvider], [SamlAssertion], [SamlManager], [SamlReplay] (src/saml),
      [StateCookie] (the state cookies of both), [OAuth2Social]
      (src/oauth2social).
    - [ScimFilter], [ScimPath], [ScimPatch], [ScimNesting], [ScimStore]
      (src/scim): filters to SQL, PATCH with its redaction, the cycle check, the
      ports. [ScimWire], [WebScim], [WebScimLaws], [WebScimPatch] (src/espresso
      scim files): the transport. [ScimMemStore], [ScimMemLaws], [ScimBulk]
      (src/examples/scim): a directory in memory and bulk requests.
    - [Http] (requests, responses, cookies, contexts), [WebAuth] (auth, authws,
      sagate), [WebGates] (tenantgate, activetenant, decision, stepup, throttle,
      entitlements), [WebAudit] (audit) of src/espresso; [WebAccess],
      [WebPolicies], [WebAuditRows]: what the gates decide and the rows say.
    - [WebWire], [WebAuthRoutes], [WebLogin], [WebFlows], [WebFederation],
      [WebSaml] (wire, authroutes, startlogin, oidcflow and oauth2flow,
      federation, samlroutes of src/espresso): the mounted routes. [WebPooled]
      (src/examples/multitenant identity_adapter, enter, and the adapters of the
      federation and quickstart examples): the auth routes over the core, and
      entering a tenant. [PooledStore] (store): the example's own
      account store.
    - [HierStore], [HierProvision], [HierLaws], [HierReconcile],
      [HierMembership], [HierSql], [HierHttp] (src/examples/tenanthierarchy):
      bindings counted by origin, provisioning, drift and its repair, derived
      membership, the SQL adapter, the gates.
    - [TamperAdmin] (src/admin), [TamperProvider] (src/provider), [WebRoutes]
      (src/espresso/routes): suspension across three ports, building the
      engines, wiring the surfaces.

    ** What the theorems show

    - Tenancy: the ancestors of a tenant are exactly its recorded chain, and
      every corruption is an error; inheritance comes from the nearest ancestor
      and only if it allows it; inherited plans are a least upper bound; domains
      resolve only when verified; a slug resolves only to its holder.
    - Authorization: no store, however wrong, makes the rank engine over-grant;
      over a faithful store it decides exactly the policy, listings are the
      reverse of checks, and the set engine agrees with the rank engine.
    - Audit: the payload is injective; every interleaving of operations leaves a
      log that verifies; an edit, reordering, re-attribution or inner deletion
      shows or exhibits two rows whose hash inputs collide; erasure changes no
      verdict; pages are complete; exports hold one tenant's rows. However many
      processes open a file, each migration takes effect once and whole. No
      theorem assumes that SHA-256 is injective: where that matters the
      conclusion names the colliding inputs.
    - Tokens and accounts: a token is accepted exactly when a key of the service
      vouches for it, for that tenant, at the clock's reading of the call; a login
      that answers went through the password and every factor required, and a
      refused one did the same work whatever the reason; a second factor is
      accepted exactly when it was proved; a rotated or revoked token stays dead;
      a session is of its user's own tenant and keeps the time and the class of
      its authentication; invitations and recovery codes work once; one
      uninterrupted unlinking leaves a way in; entering and impersonating need
      the membership or the policy.
    - Federation: the registry a tenant is served is at most as old as the
      freshness rule says; secrets at rest survive a key rotation; an exchange
      that answers went through every check of the flow it belongs to; a flow
      that was started completes as it was started; a SAML assertion answers the
      flow of the browser that posts it, and over a history of the ledger it is
      accepted once.
    - HTTP: which requests reach a handler and with what in their context, down
      to a recorded binding; cookies are fenced to one tenant's path; a row of
      the audit log names whom and whose tenant.
    - SCIM: SQL text never depends on compared values; a patch touches only what
      its path names; a request sees one tenant's directory; the directory keeps
      its rows filed and its nesting acyclic; a bulk envelope sends each of its
      operations to the route a request of its own would reach.
    - Applications: provisioning converges on what intent and parentage call for,
      drift among the organizations a group has is reported and repaired, the SQL
      adapter refines the store in memory; the pooled store refines the reference
      store without a second factor; the conformance suites pass what behaves as the reference and fail each kind of leak.
    - Operation: suspending attempts the status, the sessions and the row, says
      which of them failed, and over the reference stores locks the tenant out;
      the limiter allows no more than its burst at an instant, a full table
      included; building the engines is all or nothing, and succeeds exactly
      when every part has what it needs; the surfaces are wired to the engines
      they were asked for.

    A theorem about one call is stated over any store wherever the code makes no
    assumption about the store. The examples (the modules named Toy... and
    Demo) evaluate the definitions at concrete inputs, and some of them show
    behaviour that contradicts a comment of the code or another part of it.

    ** Bounds

    Instants are nanoseconds as integers; [UnixNano] wraps to 64 bits as the
    code's int64 does, and length prefixes are truncated to 32 bits; a float64 is
    a binary64 number with rounding to nearest even. The parentage walk has the
    code's own depth of 32, so 33 turns are enough; the cycle check turns at most
    once per group, so the number of groups plus one is enough; the cache of
    registries holds 1024 tenants and the limiter 65536 keys, and both are proved
    to stay within. Instants of stored audit rows are assumed to be after year 1
    (the zero Time) where the watermark logic treats the zero Time as absent.

    ** Not modelled

    - The scanning code sqlc generates; the queries are modelled from their SQL.
    - Cancellation and deadlines of a [context.Context], and goroutines below the
      granularity of a store call or of a section under a mutex.
    - Log lines, the wording of errors, and the request context of src/tenant.
    - The mains of the examples with their fake identity providers: they listen
      on ports and talk to themselves. Test seams (SetClock and the like).
    - Randomness is an input: nothing is said of its quality, and minting a DNS
      token is no more than drawing it. *)

From Stdlib Require Import Sorted Permutation.
From stdpp Require Export base gmap strings list fin_maps sorting.
From Stdlib Require Export ZArith Lia Ascii.

Set Default Goal Selector "!".

(** ** Errors *)

(** The sentinel values ([errors.New]) of the packages, by package. *)
Inductive sentinel :=
  (* tenant *)
  | tenant_ErrNotFound | tenant_ErrSuspended | tenant_ErrDomainNotNormalised
  | tenant_ErrPublicEmailDomain | tenant_ErrHierarchyCycle
  | tenant_ErrHierarchyDangling | tenant_ErrHierarchyDepth
  | tenant_ErrConflict | tenant_ErrInvalidDescriptor | tenant_ErrSingleTenant
  | tenant_ErrVerificationFailed
  (* authz *)
  | authz_ErrTenantRequired
  (* scim *)
  | scim_ErrInvalidFilter | scim_ErrCyclicGroup | scim_ErrInvalidPath
  | scim_ErrInvalidValue | scim_ErrNotFound | scim_ErrConflict | scim_ErrInvalidInput
  (* audit *)
  | audit_ErrCommitmentMismatch | audit_errEmptyDBPath
  (* saml *)
  | saml_ErrAssertionInvalid | saml_ErrUncorrelated | saml_ErrIdPInitiatedDisabled
  | saml_ErrNoSubjectConfirmation | saml_ErrAssertionReplayed
  | saml_ErrReplayStoreUnavailable | saml_ErrNoKeySet | saml_ErrProviderExists
  | saml_ErrProviderNotFound | saml_ErrUnknownProvider | saml_ErrStateExpired
  | saml_ErrMetadataInvalid | saml_ErrMetadataFetchFailed
  (* oidc *)
  | oidc_ErrNoKeySet | oidc_ErrProviderExists | oidc_ErrProviderNotFound
  | oidc_ErrUnknownProvider | oidc_ErrDiscoveryFailed | oidc_ErrIDTokenInvalid
  | oidc_ErrNonceMismatch | oidc_ErrStateExpired
  (* crypto *)
  | crypto_ErrInvalidTOTPCode | crypto_ErrUnknownKeyID | crypto_ErrKeyIDZero | crypto_ErrSecretBoxOpen
  | crypto_ErrInvalidRefreshToken | crypto_ErrInvalidPassword | crypto_ErrInvalidToken
  | crypto_ErrTenantRequired | crypto_ErrEnteredTenants | crypto_ErrSelfImpersonation
  (* identity *)
  | identity_ErrInvalidCredentials | identity_ErrTOTPRequired | identity_ErrInvalidSession
  | identity_ErrUserInactive | identity_ErrEmailTaken | identity_ErrInvalidEmail
  | identity_ErrPasswordPolicy | identity_ErrNotFound | identity_ErrInvalidInput
  | identity_ErrNoTokenService | identity_ErrTenantRequired | identity_ErrThrottled
  | identity_ErrAuthContextRequired | identity_ErrLinkConflict | identity_ErrIdentityTaken
  | identity_ErrLastAuthMethod | identity_ErrInvitationInvalid | identity_ErrInvitationConsumed
  | identity_ErrNoInvitationStore | identity_ErrNoMembershipStore | identity_ErrNoImpersonationPolicy
  | identity_ErrNoKeySet | identity_ErrInvalidTOTP | identity_ErrTOTPAlreadyEnrolled
  | identity_ErrTOTPNotEnrolled
  (* espresso and oauth2social *)
  | espresso_ErrThrottled | espresso_ErrOIDCState | espresso_ErrOIDCExchange | espresso_ErrOIDCNoIDToken
  | espresso_ErrOAuth2State | espresso_ErrOAuth2Exchange
  | oauth2social_ErrConfig | oauth2social_ErrUserinfo | oauth2social_ErrNoSubject
  | oauth2social_ErrEmailRequired | oauth2social_ErrEmailUnverified
  (* examples/tenanthierarchy *)
  | hierarchy_ErrUnmappedRole | hierarchy_ErrSubjectNotInGroup | hierarchy_ErrTooManyRows
  | hierarchy_ErrBadMembership | hierarchy_ErrParentMismatch | hierarchy_ErrDrift.

#[export] Instance sentinel_eq_dec : EqDecision sentinel.
Proof. solve_decision. Defined.

(** A Go error value: a sentinel; the result of [fmt.Errorf] or [errors.New]
    in a function body, with the errors its [%w] verbs wrap (the formatted
    text is reduced to a label of the call site); or an error made by code
    outside the repository. *)
Inductive error :=
  | Sentinel (s : sentinel)
  | Errorf0 (label : string)
  | Errorf1 (label : string) (w : error)
  | Errorf2 (label : string) (w1 w2 : error)
  | AppError (name : string).

(** [errors.Is]: the error, or one it wraps, is the sentinel. *)
Fixpoint errors_is (e : error) (s : sentinel) : bool :=
  match e with
  | Sentinel s' => bool_decide (s' = s)
  | Errorf0 _ => false
  | Errorf1 _ w => errors_is w s
  | Errorf2 _ w1 w2 => errors_is w1 s || errors_is w2 s
  | AppError _ => false
  end.

(** ** Outcomes of a call *)

(** What a Go call of type [(A, error)] ends in. *)
Inductive go (A : Type) :=
  | Ret (a : A)
  | Fail (e : error)
  | Panic (why : string).
Arguments Ret {_} _.
Arguments Fail {_} _.
Arguments Panic {_} _.

#[export] Instance go_ret : MRet go := fun _ a => Ret a.
#[export] Instance go_bind : MBind go := fun _ _ k m =>
  match m with Ret a => k a | Fail e => Fail e | Panic w => Panic w end.

(** [if err != nil { return fmt.Errorf(label, ..., err) }] *)
Definition wrap_err {A} (wrap : error -> error) (m : go A) : go A :=
  match m with Ret a => Ret a | Fail e => Fail (wrap e) | Panic w => Panic w end.

(** The call ended in an error matching [s]. *)
Definition fails_with {A} (m : go A) (s : sentinel) : bool :=
  match m with Fail e => errors_is e s | _ => false end.

Definition is_ret {A} (m : go A) : bool :=
  match m with Ret _ => true | _ => false end.

Lemma go_bind_Ret_inv {A B} (m : go A) (k : A -> go B) (b : B) :
  (m ≫= k) = Ret b -> exists a, m = Ret a /\ k a = Ret b.
Proof. destruct m; cbn; naive_solver. Qed.

Lemma wrap_err_Ret_inv {A} w (m : go A) (a : A) :
  wrap_err w m = Ret a <-> m = Ret a.
Proof. destruct m; cbn; naive_solver. Qed.

Lemma wrap_err_Fail_inv {A} w (m : go A) e :
  wrap_err w m = Fail e <-> exists e', m = Fail e' /\ e = w e'.
Proof. destruct m; cbn; naive_solver. Qed.

Lemma go_bind_Fail_inv {A B} (m : go A) (k : A -> go B) e :
  (m ≫= k) = Fail e <-> m = Fail e \/ exists a, m = Ret a /\ k a = Fail e.
Proof. destruct m; cbn; naive_solver. Qed.

(** A loop whose body may return an error: [for i, x := range l { ... }]
    collecting one result per element. *)
Fixpoint go_map {A B} (f : A -> go B) (l : list A) : go (list B) :=
  match l with
  | [] => Ret []
  | x :: l => y ← f x; ys ← go_map f l; Ret (y :: ys)
  end.

Lemma go_map_Ret {A B} (f : A -> go B) l ys :
  go_map f l = Ret ys <-> Forall2 (fun x y => f x = Ret y) l ys.
Proof.
  revert ys. induction l as [|x l IH]; intros ys; cbn.
  - split; [intros [= <-]; constructor | by inversion 1].
  - split.
    + intros (y & Hy & (ys' & Hl & [= <-])%go_bind_Ret_inv)%go_bind_Ret_inv.
      constructor; [done | by apply IH].
    + inversion 1 as [|? y ? ys' Hy Hl]; subst. rewrite Hy; cbn.
      by rewrite (proj2 (IH _) Hl).
Qed.

(** ** Ordering: [sort.Slice] with a lexicographic string key *)

Fixpoint lex_leb (k1 k2 : list string) : bool :=
  match k1, k2 with
  | [], _ => true
  | _ :: _, [] => false
  | x :: k1, y :: k2 =>
      if String.eqb x y then lex_leb k1 k2 else String.leb x y
  end.

Definition lex_le (k1 k2 : list string) : Prop := lex_leb k1 k2 = true.

#[export] Instance lex_le_dec : RelDecision lex_le.
Proof. intros k1 k2. unfold lex_le. apply _. Defined.

Lemma leb_le_string x y : String.leb x y = true <-> String.le x y.
Proof. unfold String.le. by destruct (String.leb x y). Qed.

Lemma ltb_leb x y : String.ltb x y = true -> String.leb x y = true.
Proof. unfold String.ltb, String.leb. by destruct (String.compare x y). Qed.

Lemma not_ltb_leb x y : String.ltb x y = false -> String.leb y x = true.
Proof.
  unfold String.ltb, String.leb. rewrite (String.compare_antisym x y).
  by destruct (String.compare y x).
Qed.

#[export] Instance lex_le_total : Total lex_le.
Proof.
  intros k1. induction k1 as [|x k1 IH]; intros [|y k2]; unfold lex_le; cbn [lex_leb]; auto.
  destruct (String.eqb_spec x y) as [->|Hne].
  - rewrite String.eqb_refl. apply IH.
  - rewrite (proj2 (String.eqb_neq y x)) by congruence.
    apply String.leb_total.
Qed.

#[export] Instance lex_le_antisymm : AntiSymm eq lex_le.
Proof.
  intros k1. induction k1 as [|x k1 IH]; intros [|y k2]; unfold lex_le; cbn [lex_leb]; try done.
  destruct (String.eqb_spec x y) as [->|Hne].
  - rewrite String.eqb_refl. intros H1 H2. f_equal. by apply IH.
  - rewrite (proj2 (String.eqb_neq y x)) by congruence. rewrite !leb_le_string.
    intros H1 H2. destruct Hne. by apply (anti_symm String.le).
Qed.

#[export] Instance lex_le_trans : Transitive lex_le.
Proof.
  intros k1. induction k1 as [|x k1 IH]; intros [|y k2] [|z k3]; unfold lex_le; cbn [lex_leb]; try done.
  destruct (String.eqb_spec x y) as [->|Hxy], (String.eqb_spec y z) as [->|Hyz].
  - apply IH.
  - done.
  - by rewrite (proj2 (String.eqb_neq x z)).
  - rewrite !leb_le_string. destruct (String.eqb_spec x z) as [->|Hxz].
    + intros H1 H2. destruct Hxy. by apply (anti_symm String.le).
    + rewrite leb_le_string. intros H1 H2. by trans y.
Qed.

(** [sort.Slice(l, func(i, j) { return key(l[i]) < key(l[j]) })].
    [sort.Slice] is not stable; the lists sorted here have distinct keys, and
    [sort_by_unique] shows that then every sorting algorithm agrees. *)
Definition key_le {A} (key : A -> list string) : relation A :=
  fun x y => lex_le (key x) (key y).

#[export] Instance key_le_dec {A} (key : A -> list string) : RelDecision (key_le key).
Proof. intros x y. unfold key_le. apply _. Defined.

Definition sort_by {A} (key : A -> list string) : list A -> list A :=
  merge_sort (key_le key).

Section sort_by.
  Context {A : Type} (key : A -> list string).
Local Abbreviation R := (key_le key).

#[local] Instance R_total : Total R.
  Proof. intros x y. apply (total lex_le). Qed.
#[local] Instance R_trans : Transitive R.
  Proof. intros x y z. unfold key_le. apply transitivity. Qed.

Lemma sort_by_Permutation l : sort_by key l ≡ₚ l.
  Proof. apply merge_sort_Permutation. Qed.

Lemma sort_by_Sorted l : StronglySorted R (sort_by key l).
  Proof. apply Sorted_StronglySorted; [exact R_trans|]. apply Sorted_merge_sort, _. Qed.

Lemma elem_of_sort_by x l : x ∈ sort_by key l <-> x ∈ l.
  Proof. by rewrite sort_by_Permutation. Qed.

Lemma sort_by_unique l1 l2 :
    (forall x y, x ∈ l1 -> y ∈ l1 -> key x = key y -> x = y) ->
    StronglySorted R l2 -> l1 ≡ₚ l2 -> sort_by key l1 = l2.
  Proof.
    intros Hinj Hs Hp.
    apply (StronglySorted_unique_strong R); [|apply sort_by_Sorted|done|].
    - intros x y Hx Hy H1 H2. rewrite elem_of_sort_by in Hx. rewrite <- Hp in Hy.
      apply Hinj; [done..|]. by apply (anti_symm lex_le).
    - by rewrite sort_by_Permutation.
  Qed.

Lemma sort_by_perm l1 l2 :
    (forall x y, x ∈ l1 -> y ∈ l1 -> key x = key y -> x = y) ->
    l1 ≡ₚ l2 -> sort_by key l1 = sort_by key l2.
  Proof.
    intros Hinj Hp. apply sort_by_unique; [done|apply sort_by_Sorted|].
    by rewrite sort_by_Permutation.
  Qed.
End sort_by.

(** ** [ORDER BY]: sorting with a relation *)

Section merge_sort.
  Context {A : Type} (R : relation A) `{!RelDecision R, !Total R, !Transitive R}.

Lemma merge_sort_StronglySorted l : StronglySorted R (merge_sort R l).
  Proof. apply Sorted_StronglySorted; [done|]. apply Sorted_merge_sort, _. Qed.

(** Whatever the algorithm, rows that the order tells apart come out in one
    order. *)
Lemma merge_sort_unique l1 l2 :
    (forall x y, x ∈ l1 -> y ∈ l1 -> R x y -> R y x -> x = y) ->
    StronglySorted R l2 -> l1 ≡ₚ l2 -> merge_sort R l1 = l2.
  Proof.
    intros Hanti Hs Hp.
    apply (StronglySorted_unique_strong R); [|apply merge_sort_StronglySorted|done|].
    - intros x y Hx Hy. rewrite merge_sort_Permutation in Hx. rewrite <- Hp in Hy. by apply Hanti.
    - by rewrite merge_sort_Permutation.
  Qed.
End merge_sort.

Lemma flip_total {A} (R : relation A) `{!Total R} : Total (flip R).
Proof. intros x y. apply (total R). Qed.
Lemma flip_trans {A} (R : relation A) `{!Transitive R} : Transitive (flip R).
Proof. intros x y z H1 H2. by apply (transitivity (R := R)) with y. Qed.

Lemma StronglySorted_snoc {A} (R : relation A) l x :
  StronglySorted R l -> Forall (fun y => R y x) l -> StronglySorted R (l ++ [x]).
Proof.
  induction 1 as [|y l Hl IH Hy]; cbn; [by repeat constructor|].
  intros [Hx Hlx]%Forall_cons. constructor; [auto|]. apply Forall_app. auto.
Qed.

Lemma StronglySorted_rev {A} (R : relation A) l :
  StronglySorted R l -> StronglySorted (flip R) (rev l).
Proof.
  induction 1 as [|x l Hl IH Hx]; cbn; [constructor|].
  apply StronglySorted_snoc; [done|]. by rewrite <- Permutation_rev.
Qed.

Lemma StronglySorted_filter {A} (R : relation A) f l :
  StronglySorted R l -> StronglySorted R (List.filter f l).
Proof.
  induction 1 as [|x l Hl IH Hx]; cbn; [constructor|]. destruct (f x); [|done].
  constructor; [done|]. rewrite List.Forall_forall in *. intros y Hy.
  apply filter_In in Hy as [Hy _]. auto.
Qed.

Lemma Permutation_filter {A} f (l l' : list A) : l ≡ₚ l' -> List.filter f l ≡ₚ List.filter f l'.
Proof.
  induction 1; cbn; repeat case_match; try constructor; try done. by etrans.
Qed.

Create HintDb sorting.
#[export] Hint Resolve merge_sort_StronglySorted StronglySorted_filter StronglySorted_rev
  Permutation_filter merge_sort_Permutation : sorting.

(** A [WHERE] keeps the order of the [ORDER BY]. *)
Lemma merge_sort_filter {A} (R : relation A) `{!RelDecision R, !Total R, !Transitive R} f l :
  (forall x y, x ∈ l -> y ∈ l -> R x y -> R y x -> x = y) ->
  merge_sort R (List.filter f l) = List.filter f (merge_sort R l).
Proof.
  intros Hanti. apply merge_sort_unique; [done..| | |].
  - intros x y Hx Hy. apply Hanti.
    + apply list_elem_of_In, filter_In in Hx as [Hx _]. by apply list_elem_of_In.
    + apply list_elem_of_In, filter_In in Hy as [Hy _]. by apply list_elem_of_In.
  - eauto with sorting.
  - symmetry. auto with sorting.
Qed.

(** Lexicographic refinement by an integer key. *)
Definition lexZ {A} (f : A -> Z) (leb : A -> A -> bool) (a b : A) : bool :=
  if (f a =? f b)%Z then leb a b else (f a <? f b)%Z.

Lemma lexZ_total {A} (f : A -> Z) leb :
  (forall a b, leb a b = true \/ leb b a = true) ->
  forall a b, lexZ f leb a b = true \/ lexZ f leb b a = true.
Proof.
  intros H a b. unfold lexZ. rewrite (Z.eqb_sym (f b)).
  destruct (Z.eqb_spec (f a) (f b)); [apply H|]. rewrite !Z.ltb_lt. lia.
Qed.

Lemma lexZ_trans {A} (f : A -> Z) leb :
  (forall a b c, leb a b = true -> leb b c = true -> leb a c = true) ->
  forall a b c, lexZ f leb a b = true -> lexZ f leb b c = true -> lexZ f leb a c = true.
Proof.
  intros H a b c. unfold lexZ.
  destruct (Z.eqb_spec (f a) (f b)), (Z.eqb_spec (f b) (f c)), (Z.eqb_spec (f a) (f c));
    rewrite ?Z.ltb_lt; try lia. apply H.
Qed.

Lemma lexZ_antisym {A} (f : A -> Z) leb a b :
  lexZ f leb a b = true -> lexZ f leb b a = true -> f a = f b /\ leb a b = true /\ leb b a = true.
Proof.
  unfold lexZ. rewrite (Z.eqb_sym (f b)). destruct (Z.eqb_spec (f a) (f b)); [done|].
  rewrite !Z.ltb_lt. lia.
Qed.

(** ** Strings as Go has them (byte strings) *)

(** [strings.HasPrefix(s, p)] and [strings.HasSuffix(s, p)]. *)
Definition has_prefix (s p : string) : bool := String.prefix p s.
Definition has_suffix (s p : string) : bool :=
  (String.length p <=? String.length s)%nat &&
  String.eqb (String.substring (String.length s - String.length p) (String.length p) s) p.

Definition byte_of (c : ascii) : N := N_of_ascii c.
Definition is_upper (c : ascii) : bool := (65 <=? byte_of c)%N && (byte_of c <=? 90)%N.
Definition is_ascii (s : string) : bool :=
  forallb (fun c => (byte_of c <=? 127)%N) (String.list_ascii_of_string s).

(** [strings.ToLower] on an ASCII string. *)
Definition lower_char (c : ascii) : ascii :=
  if is_upper c then ascii_of_N (byte_of c + 32) else c.
Fixpoint to_lower (s : string) : string :=
  match s with
  | EmptyString => EmptyString
  | String c s => String (lower_char c) (to_lower s)
  end.

(** [strings.ContainsAny(s, chars)], for ASCII [chars]. *)
Definition contains_any (s chars : string) : bool :=
  existsb (fun c => existsb (Ascii.eqb c) (String.list_ascii_of_string chars))
    (String.list_ascii_of_string s).

(** [strings.TrimSpace]: drops leading and trailing Unicode white space, given
    by the UTF-8 encodings of its code points. *)
Definition bytes_string (l : list N) : string :=
  String.string_of_list_ascii (map ascii_of_N l).
Definition space_runes : list string :=
  map bytes_string
    ([[9]; [10]; [11]; [12]; [13]; [32]; [194; 133]; [194; 160]; [225; 154; 128];
      [226; 128; 168]; [226; 128; 169]; [226; 128; 175]; [226; 129; 159];
      [227; 128; 128]] ++
     map (fun n => [226; 128; 128 + n]) [0; 1; 2; 3; 4; 5; 6; 7; 8; 9; 10])%N.

Definition string_drop (n : nat) (s : string) : string :=
  String.substring n (String.length s - n) s.
Definition string_take (n : nat) (s : string) : string := String.substring 0 n s.

Fixpoint trim_left (fuel : nat) (seqs : list string) (s : string) : string :=
  match fuel with
  | O => s
  | S fuel =>
      match List.find (has_prefix s) seqs with
      | Some p => trim_left fuel seqs (string_drop (String.length p) s)
      | None => s
      end
  end.
Fixpoint trim_right (fuel : nat) (seqs : list string) (s : string) : string :=
  match fuel with
  | O => s
  | S fuel =>
      match List.find (has_suffix s) seqs with
      | Some p => trim_right fuel seqs (string_take (String.length s - String.length p) s)
      | None => s
      end
  end.
(** [strings.Trim] with a set of runes; each turn drops at least one byte, so
    the string's length is enough fuel. *)
Definition trim (seqs : list string) (s : string) : string :=
  trim_right (String.length s) seqs (trim_left (String.length s) seqs s).
Definition trim_space (s : string) : string := trim space_runes s.

#[global] Arguments Nat.ltb : simpl never.
#[global] Arguments String.append !_ _ / : simpl nomatch.

Lemma substring_all s : String.substring 0 (String.length s) s = s.
Proof. induction s as [|c s IH]; cbn; [done|by rewrite IH]. Qed.

Lemma append_substring_suffix s1 s2 :
  String.substring (String.length s1) (String.length s2) (s1 +:+ s2) = s2.
Proof. induction s1 as [|c s1 IH]; [apply substring_all|done]. Qed.

Lemma string_length_append s1 s2 :
  String.length (s1 +:+ s2) = (String.length s1 + String.length s2)%nat.
Proof. induction s1; cbn; congruence. Qed.

Lemma substring_split n s : (n <= String.length s)%nat ->
  String.substring 0 n s +:+ String.substring n (String.length s - n) s = s.
Proof.
  revert s. induction n as [|n IH]; intros [|c s] Hn; cbn in *; try lia; try done.
  - f_equal. apply substring_all.
  - f_equal. apply IH. lia.
Qed.

Lemma has_suffix_spec s p : has_suffix s p = true <-> exists t, s = t +:+ p.
Proof.
  unfold has_suffix. rewrite andb_true_iff, Nat.leb_le, String.eqb_eq. split.
  - intros [Hl Heq].
    exists (String.substring 0 (String.length s - String.length p) s).
    rewrite <- Heq at 2.
    replace (String.length p) with
      (String.length s - (String.length s - String.length p))%nat at 3 by lia.
    symmetry. apply substring_split. lia.
  - intros [t ->]. rewrite string_length_append. split; [lia|].
    replace (String.length t + String.length p - String.length p)%nat
      with (String.length t) by lia.
    apply append_substring_suffix.
Qed.

Lemma has_prefix_spec s p : has_prefix s p = true <-> exists t, s = p +:+ t.
Proof.
  unfold has_prefix. revert s. induction p as [|c p IH]; intros s; cbn.
  - split; [by exists s | by destruct s].
  - destruct s as [|d s]; cbn.
    + split; [done|]. intros [t Ht]. discriminate Ht.
    + destruct (ascii_dec c d) as [->|Hne].
      * rewrite IH. split; intros [t Ht]; exists t; cbn in *; congruence.
      * split; [done|]. intros [t Ht]. cbn in Ht. congruence.
Qed.

(** ** Tactics *)

(** Runs the binds whose first call has a known outcome. *)
Ltac go_simpl := cbn [wrap_err mbind go_bind mret go_ret] in *.

(** Splits a hypothesis [(x ← m; k) = Ret b] into the run of [m] and of [k]. *)
Ltac inv_go :=
  repeat match goal with
  | H : (_ ≫= _) = Ret _ |- _ =>
      let a := fresh "a" in let H1 := fresh "Hm" in let H2 := fresh "Hk" in
      apply go_bind_Ret_inv in H as (a & H1 & H2)
  | H : wrap_err _ _ = Ret _ |- _ => apply wrap_err_Ret_inv in H
  | H : Ret _ = Ret _ |- _ => injection H as H; try subst
  | H : Fail _ = Ret _ |- _ => discriminate H
  | H : Panic _ = Ret _ |- _ => discriminate H
  end.

(** Turns boolean connectives and comparisons into propositions. *)
Ltac bool_simpl :=
  repeat (rewrite ?andb_true_iff, ?orb_true_iff, ?negb_true_iff,
    ?andb_false_iff, ?orb_false_iff, ?negb_false_iff, ?bool_decide_eq_true,
    ?bool_decide_eq_false, ?String.eqb_eq, ?String.eqb_neq in *).

(** ** Instants

    What the packages use of Go's [time.Time]: nanoseconds since the Unix
    epoch as an integer (the wall clock only). The zero Time is January 1 of
    year 1. *)

#[local] Open Scope Z_scope.

Definition time := Z.
Definition time_zero : time := -62135596800 * 10 ^ 9.
Definition IsZero_time (t : time) : bool := t =? time_zero.
(** [t.After(u)], [t.Before(u)]. *)
Definition After (t u : time) : bool := u <? t.
Definition Before_time (t u : time) : bool := t <? u.
(** [t.UnixNano()]: an int64. *)
Definition UnixNano (t : time) : Z := (t + 2 ^ 63) mod 2 ^ 64 - 2 ^ 63.
(** [t.Unix()] and [time.Unix(sec, 0)]. *)
Definition Unix (t : time) : Z := t / 10 ^ 9.
Definition time_Unix (sec : Z) : time := sec * 10 ^ 9.

Lemma Unix_time_Unix sec : Unix (time_Unix sec) = sec.
Proof. unfold Unix, time_Unix. by rewrite Z.div_mul. Qed.
