(* ===== verification/Tenant.v ===== *)
(** The tenancy vocabulary of src/tenant: the identifier ([id.go]), the
    projection a [Store] returns ([tenant.go], [store.go]), the parentage walk
    ([hierarchy.go]), the inheritance rule shared by the provider managers
    ([inherited.go]) and the plan entitlements with their inherited form
    ([entitlements.go], [entitlement_inherit.go]). *)

From S2P Require Import Prelude.

Set Default Goal Selector "!".

(** ** Identifiers (id.go) *)

Record ID := MkID { id_v : string; id_set : bool }.

(** The zero value of the struct: a caller that never set the tenant. *)
Definition ID_zero : ID := MkID "" false.
Definition Single : ID := MkID "" true.
Definition New (s : string) : ID :=
  if String.eqb s "" then ID_zero else MkID s true.
Definition Valid (i : ID) : bool := id_set i.
Definition IsSingle (i : ID) : bool := id_set i && String.eqb (id_v i) "".
Definition ID_String (i : ID) : string := id_v i.
Definition FromStored (s : string) : ID :=
  if String.eqb s "" then Single else New s.

#[export] Instance ID_eq_dec : EqDecision ID.
Proof. solve_decision. Defined.
#[export] Instance ID_countable : Countable ID.
Proof.
  apply (inj_countable' (fun i => (id_v i, id_set i)) (fun p => MkID p.1 p.2)).
  by intros [].
Defined.

(** ** Descriptors and stores (tenant.go, store.go) *)

Definition Status := string.
Definition StatusActive : Status := "active".
Definition StatusSuspended : Status := "suspended".
Definition StatusPending : Status := "pending".

Record Descriptor := MkDescriptor {
  d_ID : string;
  d_Slug : string;
  d_ParentID : string;
  d_Status : Status
}.

#[export] Instance Descriptor_eq_dec : EqDecision Descriptor.
Proof. solve_decision. Defined.

(** The persistence port, at one moment: the application implements it. *)
Record Store := MkStore {
  ByID : string -> go Descriptor;
  BySlug : string -> go Descriptor
}.

(** What the port promises: an empty key never resolves, and a lookup does not
    panic. *)
Class StoreContract (s : Store) := {
  store_empty_id : fails_with (ByID s "") tenant_ErrNotFound = true;
  store_empty_slug : fails_with (BySlug s "") tenant_ErrNotFound = true;
  store_no_panic : forall id w, ByID s id <> Panic w
}.

(** ** Parentage (hierarchy.go) *)

Definition maxHierarchyDepth : nat := 32.

Definition Inheritance := ID -> go bool.

(** The [for] loop of [Ancestors]; each turn either returns or appends one
    ancestor to [chain], so [S maxHierarchyDepth] turns are enough
    ([Ancestors_no_panic]). *)
Fixpoint ancestors_loop (fuel : nat) (s : Store) (id : ID) (seen : gset ID)
    (chain : list ID) (desc : Descriptor) : go (list ID) :=
  match fuel with
  | O => Panic "ancestors_loop: out of fuel"
  | S fuel =>
      let parent := d_ParentID desc in
      if String.eqb parent "" then Ret chain
      else
        let pid := FromStored parent in
        if bool_decide (pid ∈ seen) then
          Fail (Errorf1 "is its own ancestor" (Sentinel tenant_ErrHierarchyCycle))
        else if (maxHierarchyDepth <=? length chain)%nat then
          Fail (Errorf1 "levels below a root" (Sentinel tenant_ErrHierarchyDepth))
        else
          desc' ← wrap_err
            (fun err => Errorf2 "ancestor of" (Sentinel tenant_ErrHierarchyDangling) err)
            (ByID s (ID_String pid));
          ancestors_loop fuel s id ({[pid]} ∪ seen) (chain ++ [pid]) desc'
  end.

Definition Ancestors (s : option Store) (id : ID) : go (list ID) :=
  match s with
  | None => Panic "tenant: Ancestors requires a Store"
  | Some s =>
      if negb (Valid id) || IsSingle id then Ret []
      else
        desc ← wrap_err (Errorf1 "tenant: ancestors of") (ByID s (ID_String id));
        ancestors_loop (S maxHierarchyDepth) s id {[id]} [] desc
  end.

(** ** The inheritance rule (inherited.go) *)

Fixpoint inherited_walk {T} (own : ID -> go (list T)) (allow : Inheritance)
    (chain : list ID) : go (list T) :=
  match chain with
  | [] => Ret []
  | ancestor :: chain =>
      lent ← own ancestor;
      match lent with
      | [] => inherited_walk own allow chain
      | _ => allowed ← allow ancestor; Ret (if (allowed : bool) then lent else [])
      end
  end.

Definition Inherited {T} (s : option Store) (allow : option Inheritance)
    (id : ID) (own : option (ID -> go (list T))) : go (list T) :=
  match own with
  | None => Panic "tenant: Inherited requires a lookup"
  | Some own =>
      items ← own id;
      match items, s, allow with
      | [], Some s, Some allow =>
          match Ancestors (Some s) id with
          | Fail err =>
              if errors_is err tenant_ErrHierarchyDangling then Fail err
              else if errors_is err tenant_ErrNotFound then Ret []
              else Fail err
          | Panic w => Panic w
          | Ret chain => inherited_walk own allow chain
          end
      | _, _, _ => Ret items
      end
  end.

(** ** Entitlements (entitlements.go, entitlement_inherit.go) *)

Record Entitlements := MkEntitlements {
  SSOEnabled : bool;
  SCIMEnabled : bool;
  MaxIdPConnections : Z
}.

#[export] Instance Entitlements_eq_dec : EqDecision Entitlements.
Proof. solve_decision. Defined.

Definition Entitlements_zero : Entitlements := MkEntitlements false false 0.

Definition IsZero (e : Entitlements) : bool :=
  negb (SSOEnabled e) && negb (SCIMEnabled e) && (MaxIdPConnections e =? 0)%Z.

Definition unionMaxIdPConnections (e other : Entitlements) : Z :=
  if IsZero e then MaxIdPConnections other
  else if IsZero other then MaxIdPConnections e
  else if (MaxIdPConnections e <=? 0)%Z || (MaxIdPConnections other <=? 0)%Z then 0%Z
  else if (MaxIdPConnections other <? MaxIdPConnections e)%Z then MaxIdPConnections e
  else MaxIdPConnections other.

Definition Union (e other : Entitlements) : Entitlements :=
  {| SSOEnabled := SSOEnabled e || SSOEnabled other;
     SCIMEnabled := SCIMEnabled e || SCIMEnabled other;
     MaxIdPConnections := unionMaxIdPConnections e other |}.

Definition AllowsAnotherIdP (e : Entitlements) (current : Z) : bool :=
  if (MaxIdPConnections e <=? 0)%Z then true else (current <? MaxIdPConnections e)%Z.

Definition EntitlementStore := ID -> go Entitlements.

Fixpoint union_ancestors (inner : EntitlementStore) (effective : Entitlements)
    (chain : list ID) : go Entitlements :=
  match chain with
  | [] => Ret effective
  | ancestor :: chain =>
      inherited ← inner ancestor;
      union_ancestors inner (Union effective inherited) chain
  end.

(** [inheriting.ForTenant] *)
Definition inheriting_ForTenant (inner : EntitlementStore) (store : Store)
    (tenantID : ID) : go Entitlements :=
  own ← inner tenantID;
  chain ← Ancestors (Some store) tenantID;
  union_ancestors inner own chain.

Definition InheritingEntitlements (inner : option EntitlementStore)
    (s : option Store) : go EntitlementStore :=
  match inner, s with
  | None, _ => Panic "tenant: InheritingEntitlements requires an inner EntitlementStore"
  | _, None => Panic "tenant: InheritingEntitlements requires a Store"
  | Some inner, Some s => Ret (inheriting_ForTenant inner s)
  end.

(** ** Identifiers: only [Single] and a non-empty [New] are valid *)

Lemma New_valid s : Valid (New s) = true <-> s <> "".
Proof. unfold New. destruct (String.eqb_spec s ""); naive_solver. Qed.

Lemma FromStored_valid s : Valid (FromStored s) = true.
Proof. unfold FromStored, New. by destruct (String.eqb s ""). Qed.

Lemma FromStored_String s : ID_String (FromStored s) = s.
Proof. unfold FromStored, New. by destruct (String.eqb_spec s ""). Qed.

Lemma FromStored_inj s1 s2 : FromStored s1 = FromStored s2 -> s1 = s2.
Proof. intros H. by rewrite <- (FromStored_String s1), H, FromStored_String. Qed.

Lemma FromStored_not_single s : s <> "" -> IsSingle (FromStored s) = false.
Proof.
  intros Hs. unfold FromStored, New. rewrite (proj2 (String.eqb_neq s "")) by done.
  unfold IsSingle; cbn. by apply String.eqb_neq.
Qed.

(** ** The chain of parents, as a relation *)

(** [chain_above s id l]: starting from [id], the rows of [s] name the parents
    [l], nearest first, and the last of them is a root. *)
Inductive chain_above (s : Store) : ID -> list ID -> Prop :=
  | above_root id d :
      ByID s (ID_String id) = Ret d -> d_ParentID d = "" -> chain_above s id []
  | above_step id d l :
      ByID s (ID_String id) = Ret d -> d_ParentID d <> "" ->
      chain_above s (FromStored (d_ParentID d)) l ->
      chain_above s id (FromStored (d_ParentID d) :: l).

Definition parent_of (s : Store) (id pid : ID) : Prop :=
  exists d, ByID s (ID_String id) = Ret d /\ d_ParentID d <> "" /\
    pid = FromStored (d_ParentID d).

Section chain.
  Context (s : Store).

Lemma chain_above_det id l1 l2 :
    chain_above s id l1 -> chain_above s id l2 -> l1 = l2.
  Proof.
    intros H1. revert l2. induction H1 as [id d Hd Hp | id d l Hd Hp H1 IH];
      intros l2 H2; inversion H2 as [? d' Hd' Hp' | ? d' l' Hd' Hp' H2' ]; subst;
      assert (d' = d) as -> by congruence; try done.
    f_equal. by apply IH.
  Qed.

Lemma above_root_inv id d l :
    ByID s (ID_String id) = Ret d -> d_ParentID d = "" -> chain_above s id l -> l = [].
  Proof. intros Hd Hp. inversion 1; subst; [done|congruence]. Qed.

Lemma above_step_inv id d l :
    ByID s (ID_String id) = Ret d -> d_ParentID d <> "" -> chain_above s id l ->
    exists l', l = FromStored (d_ParentID d) :: l' /\
      chain_above s (FromStored (d_ParentID d)) l'.
  Proof.
    intros Hd Hp. inversion 1 as [? d' Hd'|? d' l' Hd' Hp' Hl']; subst;
      assert (d' = d) as -> by congruence; [done|by exists l'].
  Qed.

Lemma above_resolved id l : chain_above s id l ->
    exists d, ByID s (ID_String id) = Ret d.
  Proof. inversion 1; by eexists. Qed.

Lemma chain_above_mem id l x : chain_above s id l -> x ∈ l ->
    exists l', chain_above s x l' /\ (length l' < length l)%nat.
  Proof.
    induction 1 as [id d Hd Hp | id d l Hd Hp H1 IH]; intros Hx.
    - by apply not_elem_of_nil in Hx.
    - apply elem_of_cons in Hx as [->|Hx].
      + exists l. split; [done|cbn; lia].
      + destruct (IH Hx) as (l' & ? & ?). exists l'. split; [done|cbn; lia].
  Qed.

Lemma chain_above_NoDup id l : chain_above s id l -> NoDup (id :: l).
  Proof.
    induction 1 as [id d Hd Hp | id d l Hd Hp H1 IH]; [apply NoDup_singleton|].
    apply NoDup_cons. split; [|done]. intros Hin.
    assert (chain_above s id (FromStored (d_ParentID d) :: l)) as Hid
      by (by econstructor).
    destruct (chain_above_mem _ _ _ Hid Hin) as (l' & Hl' & Hlen).
    rewrite (chain_above_det _ _ _ Hl' Hid) in Hlen. lia.
  Qed.

  (** The loop, entered with the row of [cur] read last. *)
Lemma ancestors_loop_Ret fuel id seen chain desc cur l :
    ByID s (ID_String cur) = Ret desc ->
    (length chain <= maxHierarchyDepth < fuel + length chain)%nat ->
    ancestors_loop fuel s id seen chain desc = Ret l <->
    exists l', l = chain ++ l' /\ chain_above s cur l' /\
      (forall x, x ∈ l' -> x ∉ seen) /\ NoDup l' /\
      (length l <= maxHierarchyDepth)%nat.
  Proof.
    revert seen chain desc cur. induction fuel as [|fuel IH];
      intros seen chain desc cur Hdesc Hfuel; cbn [ancestors_loop]; [lia|].
    destruct (String.eqb_spec (d_ParentID desc) "") as [Hp|Hp].
    { split.
      - intros [= <-]. exists []. rewrite app_nil_r. repeat split.
        + by eapply above_root.
        + set_solver.
        + constructor.
        + lia.
      - intros (l' & -> & Habove & _).
        by rewrite (above_root_inv _ _ _ Hdesc Hp Habove), app_nil_r. }
    case_bool_decide as Hseen.
    { split; [done|]. intros (l' & -> & Habove & Hnot & _).
      destruct (above_step_inv _ _ _ Hdesc Hp Habove) as (l'' & -> & _).
      exfalso. eapply Hnot; [|done]. by left. }
    destruct (Nat.leb_spec maxHierarchyDepth (length chain)) as [Hlen|Hlen].
    { split; [done|]. intros (l' & -> & Habove & _ & _ & Hl).
      destruct (above_step_inv _ _ _ Hdesc Hp Habove) as (l'' & -> & _).
      rewrite length_app in Hl. cbn in Hl. lia. }
    destruct (ByID s (ID_String (FromStored _))) as [desc'|e|w] eqn:Hnext; go_simpl.
    - rewrite (IH _ _ _ _ Hnext) by (rewrite length_app; cbn; lia). split.
      + intros (l' & -> & Habove & Hnot & Hnd & Hl).
        exists (FromStored (d_ParentID desc) :: l'). rewrite <- app_assoc in *.
        repeat split; [by econstructor | set_solver | | done].
        constructor; [set_solver|done].
      + intros (l' & -> & Habove & Hnot & Hnd & Hl).
        destruct (above_step_inv _ _ _ Hdesc Hp Habove) as (l'' & -> & Hab').
        exists l''.
        rewrite <- app_assoc. apply NoDup_cons in Hnd as [Hnin Hnd].
        repeat split; [done | | done | done].
        intros x Hx [->%elem_of_singleton|Hx']%elem_of_union; [done|].
        by apply (Hnot x); [right|].
    - split; [done|]. intros (l' & -> & Habove & _).
      destruct (above_step_inv _ _ _ Hdesc Hp Habove) as (l'' & -> & Hab').
      apply above_resolved in Hab' as [d Hd]. congruence.
    - split; [done|]. intros (l' & -> & Habove & _).
      destruct (above_step_inv _ _ _ Hdesc Hp Habove) as (l'' & -> & Hab').
      apply above_resolved in Hab' as [d Hd]. congruence.
  Qed.

Lemma Ancestors_Ret id l : Valid id = true -> IsSingle id = false ->
    Ancestors (Some s) id = Ret l <->
    chain_above s id l /\ (length l <= maxHierarchyDepth)%nat.
  Proof.
    intros Hv Hs. unfold Ancestors. rewrite Hv, Hs. cbn [negb orb].
    destruct (ByID s (ID_String id)) as [desc|e|w] eqn:Hd; go_simpl.
    - rewrite (ancestors_loop_Ret _ _ _ _ _ _ _ Hd)
        by (cbn [length]; unfold maxHierarchyDepth; lia).
      split; [naive_solver|]. intros [Habove Hlen]. exists l.
      pose proof (chain_above_NoDup _ _ Habove) as [Hnin Hnd]%NoDup_cons.
      repeat split; [done| |done|done]. set_solver.
    - split; [done|]. intros [Habove _]. inversion Habove; congruence.
    - split; [done|]. intros [Habove _]. inversion Habove; congruence.
  Qed.

Lemma Ancestors_off_chart id :
    Valid id = false \/ IsSingle id = true -> Ancestors (Some s) id = Ret [].
  Proof. intros [H|H]; unfold Ancestors; rewrite H; [done|by destruct (Valid id)]. Qed.

Lemma ancestors_loop_no_panic `{!StoreContract s} fuel id seen chain desc w :
    (length chain <= maxHierarchyDepth < fuel + length chain)%nat ->
    ancestors_loop fuel s id seen chain desc <> Panic w.
  Proof.
    revert seen chain desc. induction fuel as [|fuel IH];
      intros seen chain desc Hfuel; cbn [ancestors_loop]; [lia|].
    destruct (String.eqb _ _); [done|]. case_bool_decide; [done|].
    destruct (Nat.leb_spec maxHierarchyDepth (length chain)) as [Hl|Hl]; [done|].
    destruct (ByID s _) as [d|e|w'] eqn:Hb; go_simpl; [|done|].
    - apply IH. rewrite length_app; cbn; lia.
    - by apply store_no_panic in Hb.
  Qed.

  (** Which corruption each error of the walk reports, [cur] being the tenant
      whose row was read last. *)
Definition store_errors_foreign : Prop := forall k e, ByID s k = Fail e ->
    errors_is e tenant_ErrHierarchyCycle = false /\
    errors_is e tenant_ErrHierarchyDepth = false /\
    errors_is e tenant_ErrHierarchyDangling = false.

Lemma ancestors_loop_Fail fuel id seen chain desc cur e :
    store_errors_foreign -> ByID s (ID_String cur) = Ret desc ->
    (forall x, x ∈ seen -> rtc (parent_of s) x cur) ->
    ancestors_loop fuel s id seen chain desc = Fail e ->
    (errors_is e tenant_ErrHierarchyCycle = true ->
       exists x, rtc (parent_of s) cur x /\ tc (parent_of s) x x) /\
    (errors_is e tenant_ErrHierarchyDangling = true ->
       exists x e', tc (parent_of s) cur x /\ ByID s (ID_String x) = Fail e' /\
         forall sn, errors_is e' sn = true -> errors_is e sn = true) /\
    (errors_is e tenant_ErrHierarchyDepth = true ->
       exists n x, nsteps (parent_of s) n cur x /\
         (maxHierarchyDepth < n + length chain)%nat).
  Proof.
    intros Hforeign. revert seen chain desc cur. induction fuel as [|fuel IH];
      intros seen chain desc cur Hdesc Hseen; cbn [ancestors_loop]; [done|].
    destruct (String.eqb_spec (d_ParentID desc) "") as [Hp|Hp]; [done|].
    assert (parent_of s cur (FromStored (d_ParentID desc))) as Hpar by (by exists desc).
    case_bool_decide as Hin.
    { intros [= <-]. split; [intros _|by split].
      exists cur. split; [done|]. eapply tc_rtc_r; [by apply tc_once|]. by apply Hseen. }
    destruct (Nat.leb_spec maxHierarchyDepth (length chain)) as [Hl|Hl].
    { intros [= <-]. split; [done|]. split; [done|]. intros _.
      exists 1%nat, (FromStored (d_ParentID desc)). split; [by apply nsteps_once|lia]. }
    destruct (ByID s (ID_String (FromStored _))) as [d|e'|w] eqn:Hb; go_simpl; [| |done].
    - intros He. apply (IH _ _ _ _ Hb) in He.
      + destruct He as (Hc & Hd & Hn). split; [|split].
        * intros (x & Hx & Hcyc)%Hc. exists x. split; [by eapply rtc_l|done].
        * intros (x & e' & Hx & ?)%Hd. exists x, e'. split; [by eapply tc_l|done].
        * intros (n & x & Hx & Hlen)%Hn. exists (S n), x.
          rewrite length_app in Hlen; cbn in Hlen.
          split; [by eapply nsteps_l|lia].
      + intros x [->%elem_of_singleton|Hx%Hseen]%elem_of_union; [done|].
        by eapply rtc_r.
    - intros [= <-]. destruct (Hforeign _ _ Hb) as (H1 & H2 & H3).
      cbn. rewrite H1, H2. split; [done|]. split; [|done]. intros _.
      exists (FromStored (d_ParentID desc)), e'. split; [by apply tc_once|].
      split; [done|]. intros sn ->. by rewrite orb_true_r.
  Qed.

Lemma ancestors_loop_class fuel id seen chain desc e :
    ancestors_loop fuel s id seen chain desc = Fail e ->
    errors_is e tenant_ErrHierarchyCycle = true \/
    errors_is e tenant_ErrHierarchyDangling = true \/
    errors_is e tenant_ErrHierarchyDepth = true.
  Proof.
    revert seen chain desc. induction fuel as [|fuel IH];
      intros seen chain desc; cbn [ancestors_loop]; [done|].
    destruct (String.eqb _ _); [done|].
    case_bool_decide; [intros [= <-]; by left|].
    destruct (_ <=? _)%nat; [intros [= <-]; by right; right|].
    destruct (ByID s _) as [d|e'|w]; go_simpl; [apply IH| |done].
    intros [= <-]. by right; left.
  Qed.
End chain.

(** ** The inheritance walk *)

Section inherited.
  Context {T : Type} (own : ID -> go (list T)) (allow : Inheritance).

  (** The walk passes over the ancestors [nearer], which have nothing. *)
Lemma inherited_walk_skip nearer chain :
    Forall (fun b => own b = Ret []) nearer ->
    inherited_walk own allow (nearer ++ chain) = inherited_walk own allow chain.
  Proof. induction 1 as [|b nearer Hb _ IH]; cbn; [done|]. by rewrite Hb. Qed.

Lemma inherited_walk_stop a lent chain : own a = Ret lent -> lent <> [] ->
    inherited_walk own allow (a :: chain) =
      (allowed ← allow a; Ret (if (allowed : bool) then lent else [])).
  Proof. intros Ha Hl. cbn. rewrite Ha. go_simpl. by destruct lent. Qed.

  (** Either nobody in the chain has anything, or a first ancestor has
      something or fails to answer. *)
Lemma first_lender chain :
    Forall (fun b => own b = Ret []) chain \/
    exists nearer a farther, chain = nearer ++ a :: farther /\
      Forall (fun b => own b = Ret []) nearer /\ own a <> Ret [].
  Proof.
    induction chain as [|b chain IH]; [by left; constructor|].
    destruct (own b) as [[|x xs]|e|w] eqn:Hb.
    - destruct IH as [IH|(nearer & a & farther & -> & Hn & Ha)].
      + left. by constructor.
      + right. exists (b :: nearer), a, farther. split; [done|]. split; [by constructor|done].
    - right. exists [], b, chain. rewrite Hb. split; [done|]. split; [constructor|done].
    - right. exists [], b, chain. rewrite Hb. split; [done|]. split; [constructor|done].
    - right. exists [], b, chain. rewrite Hb. split; [done|]. split; [constructor|done].
  Qed.

Lemma inherited_walk_Ret chain items : items <> [] ->
    inherited_walk own allow chain = Ret items <->
    exists nearer a farther, chain = nearer ++ a :: farther /\
      Forall (fun b => own b = Ret []) nearer /\ own a = Ret items /\
      allow a = Ret true.
  Proof.
    intros Hne. split.
    - intros Hw. destruct (first_lender chain) as [Hall|(nearer & a & farther & -> & Hn & Ha)].
      + rewrite <- (app_nil_r chain), (inherited_walk_skip _ _ Hall) in Hw. by injection Hw.
      + rewrite (inherited_walk_skip _ _ Hn) in Hw. exists nearer, a, farther.
        destruct (own a) as [lent|e|w] eqn:Hlent; [|cbn in Hw; by rewrite Hlent in Hw..].
        rewrite (inherited_walk_stop _ lent) in Hw by naive_solver.
        destruct (allow a) as [[]|e|w]; go_simpl; naive_solver.
    - intros (nearer & a & farther & -> & Hn & Ha & Hallow).
      rewrite (inherited_walk_skip _ _ Hn), (inherited_walk_stop _ items) by done.
      by rewrite Hallow.
  Qed.
End inherited.

(** ** Entitlements: union is a join *)

(** [e1] grants nothing that [e2] does not. A record that bought nothing states
    no cap; a cap of zero or less on any other record is "unlimited". *)
Definition ent_le (e1 e2 : Entitlements) : Prop :=
  (SSOEnabled e1 = true -> SSOEnabled e2 = true) /\
  (SCIMEnabled e1 = true -> SCIMEnabled e2 = true) /\
  (IsZero e1 = true \/
   IsZero e2 = false /\ (MaxIdPConnections e2 <= 0)%Z \/
   (0 < MaxIdPConnections e1 <= MaxIdPConnections e2)%Z).

(** The caps a plan table holds: never negative. *)
Definition cap_ok (e : Entitlements) : Prop := (0 <= MaxIdPConnections e)%Z.

Lemma IsZero_true e : IsZero e = true <-> e = Entitlements_zero.
Proof.
  destruct e as [a b m]. unfold IsZero, Entitlements_zero; cbn.
  destruct a, b; cbn; try (split; [done|]; by intros [=]).
  rewrite Z.eqb_eq. split; [by intros ->|by intros [=]].
Qed.

Ltac ent_cases :=
  repeat match goal with e : Entitlements |- _ => destruct e as [[] [] ?] end;
  unfold Union, unionMaxIdPConnections, ent_le, cap_ok, IsZero, AllowsAnotherIdP,
    Entitlements_zero in *; cbn in *;
  repeat (match goal with
  | |- context [Z.eqb ?x ?y] => destruct (Z.eqb_spec x y)
  | H : context [Z.eqb ?x ?y] |- _ => destruct (Z.eqb_spec x y)
  | |- context [Z.leb ?x ?y] => destruct (Z.leb_spec x y)
  | H : context [Z.leb ?x ?y] |- _ => destruct (Z.leb_spec x y)
  | |- context [Z.ltb ?x ?y] => destruct (Z.ltb_spec x y)
  | H : context [Z.ltb ?x ?y] |- _ => destruct (Z.ltb_spec x y)
  end; cbn in * ); subst; try done; try lia; try (f_equal; lia).

Lemma Union_comm e1 e2 : Union e1 e2 = Union e2 e1.
Proof. ent_cases. Qed.

Lemma Union_zero_l e : Union Entitlements_zero e = e.
Proof. by destruct e. Qed.

Lemma Union_zero_r e : Union e Entitlements_zero = e.
Proof. rewrite Union_comm. apply Union_zero_l. Qed.

Lemma Union_cap_ok e1 e2 : cap_ok e1 -> cap_ok e2 -> cap_ok (Union e1 e2).
Proof. intros. ent_cases. Qed.

Lemma Union_idemp e : cap_ok e -> Union e e = e.
Proof. intros. ent_cases. Qed.

Lemma Union_ub_l e1 e2 : cap_ok e1 -> cap_ok e2 -> ent_le e1 (Union e1 e2).
Proof. intros. ent_cases; intuition (try done; try lia). Qed.

Lemma Union_ub_r e1 e2 : cap_ok e1 -> cap_ok e2 -> ent_le e2 (Union e1 e2).
Proof. intros. rewrite Union_comm. by apply Union_ub_l. Qed.

Lemma Union_least e1 e2 e3 : cap_ok e1 -> cap_ok e2 -> cap_ok e3 ->
  ent_le e1 e3 -> ent_le e2 e3 -> ent_le (Union e1 e2) e3.
Proof. intros ??? (H1 & H2 & H3) (H4 & H5 & H6). ent_cases; intuition (try done; try lia). Qed.

Lemma ent_le_refl e : cap_ok e -> ent_le e e.
Proof. intros. ent_cases; intuition (try done; try lia). Qed.

Lemma ent_le_trans e1 e2 e3 : cap_ok e1 -> cap_ok e2 -> cap_ok e3 ->
  ent_le e1 e2 -> ent_le e2 e3 -> ent_le e1 e3.
Proof. intros ??? (H1 & H2 & H3) (H4 & H5 & H6). ent_cases; intuition (try done; try lia). Qed.

Lemma ent_le_antisymm e1 e2 : cap_ok e1 -> cap_ok e2 ->
  ent_le e1 e2 -> ent_le e2 e1 -> e1 = e2.
Proof. intros ?? (H1 & H2 & H3) (H4 & H5 & H6). ent_cases; intuition (try done; try lia; try (f_equal; lia)). Qed.

(** [u] is the least record granting all that the records [es] grant. *)
Definition is_lub (es : list Entitlements) (u : Entitlements) : Prop :=
  cap_ok u /\ (forall e, e ∈ es -> ent_le e u) /\
  forall v, cap_ok v -> (forall e, e ∈ es -> ent_le e v) -> ent_le u v.

Lemma is_lub_unique es u v : is_lub es u -> is_lub es v -> u = v.
Proof.
  intros (Hcu & Hu & Hlu) (Hcv & Hv & Hlv).
  apply ent_le_antisymm; auto.
Qed.

Lemma foldl_Union_lub own es : cap_ok own -> Forall cap_ok es ->
  is_lub (own :: es) (foldl Union own es).
Proof.
  intros Hown Hes. revert own Hown. induction Hes as [|e es He Hes IH]; intros own Hown.
  - split; [done|]. split.
    + intros e ->%list_elem_of_singleton. by apply ent_le_refl.
    + intros v _ Hv. apply Hv. set_solver.
  - cbn. destruct (IH (Union own e)) as (Hc & Hub & Hleast); [by apply Union_cap_ok|].
    assert (ent_le (Union own e) (foldl Union (Union own e) es)) as Hu
      by (apply Hub; set_solver).
    split; [done|]. split.
    + intros x [->|[->|Hx]%elem_of_cons]%elem_of_cons.
      * eapply ent_le_trans; [..|exact Hu]; eauto using Union_cap_ok, Union_ub_l.
      * eapply ent_le_trans; [..|exact Hu]; eauto using Union_cap_ok, Union_ub_r.
      * apply Hub. set_solver.
    + intros v Hv Hall. apply Hleast; [done|].
      intros x [->|Hx]%elem_of_cons; [|apply Hall; set_solver].
      apply Union_least; try done; apply Hall; set_solver.
Qed.

Lemma union_ancestors_Ret inner own chain eff :
  union_ancestors inner own chain = Ret eff <->
  exists es, Forall2 (fun a e => inner a = Ret e) chain es /\ eff = foldl Union own es.
Proof.
  revert own. induction chain as [|a chain IH]; intros own; cbn.
  - split; [intros [= <-]; by exists [] |]. intros (es & Hes & ->).
    by apply Forall2_nil_inv_l in Hes as ->.
  - destruct (inner a) as [e|err|w] eqn:Ha; go_simpl.
    + rewrite IH. split.
      * intros (es & Hes & ->). exists (e :: es). split; [by constructor|done].
      * intros (es & Hes & ->). apply Forall2_cons_inv_l in Hes as (e' & es' & He & Hes & ->).
        exists es'. split; [done|]. by assert (e' = e) as -> by congruence.
    + split; [done|]. intros (es & Hes & _).
      apply Forall2_cons_inv_l in Hes as (e' & es' & He & _). congruence.
    + split; [done|]. intros (es & Hes & _).
      apply Forall2_cons_inv_l in Hes as (e' & es' & He & _). congruence.
Qed.

(** ** Properties *)

(** A two-level hierarchy the witnesses below run on: tenant "kid" under
    "group", plus "lost", whose parent does not exist. *)
Definition demo_row (id parent : string) : Descriptor :=
  MkDescriptor id id parent StatusActive.
Definition demo_lookup (rows : list Descriptor) (id : string) : go Descriptor :=
  match list_find (fun d => d_ID d = id) rows with
  | Some (_, d) => if String.eqb id "" then Fail (Sentinel tenant_ErrNotFound) else Ret d
  | None => Fail (Sentinel tenant_ErrNotFound)
  end.
Definition demo_store (rows : list Descriptor) : Store :=
  {| ByID := demo_lookup rows; BySlug := demo_lookup rows |}.

#[export] Instance demo_store_contract rows : StoreContract (demo_store rows).
Proof.
  assert (Hempty : fails_with (demo_lookup rows "") tenant_ErrNotFound = true).
  { unfold demo_lookup. by destruct (list_find _ _) as [[]|]. }
  split; [exact Hempty|exact Hempty|].
  intros id w. cbn. unfold demo_lookup.
  destruct (list_find _ _) as [[]|]; [|done]. by destruct (String.eqb id "").
Qed.

Definition demo_rows : list Descriptor :=
  [demo_row "kid" "group"; demo_row "group" ""; demo_row "lost" "nowhere";
   demo_row "loop" "loop2"; demo_row "loop2" "loop"].

(** [Ancestors] returns a list exactly when the tenant is off the chart (an
    unset id or the single tenant) and the list is empty, or the rows chain
    from the tenant up to a root through that list, nearest parent first, in
    at most 32 steps. *)
Theorem Ancestors_correct (s : Store) (id : ID) (l : list ID) :
  Ancestors (Some s) id = Ret l <->
  ((Valid id = false \/ IsSingle id = true) /\ l = []) \/
  (Valid id = true /\ IsSingle id = false /\ chain_above s id l /\
   (length l <= maxHierarchyDepth)%nat).
Proof.
  destruct (Valid id) eqn:Hv, (IsSingle id) eqn:Hs;
    try (rewrite Ancestors_off_chart by auto; naive_solver).
  rewrite Ancestors_Ret by done. naive_solver.
Qed.

(** The walk always answers (the loop's bound is enough), and it fails
    closed: a cycle error names a tenant above [id] that is its own ancestor, a
    dangling error an ancestor whose row does not resolve, a depth error a path
    of more than 32 parents, and any other error is the failed lookup of [id]
    itself. *)
Theorem Ancestors_fails_closed (s : Store) (id : ID) :
  StoreContract s -> store_errors_foreign s ->
  match Ancestors (Some s) id with
  | Ret _ => True
  | Panic _ => False
  | Fail e =>
      (exists e', ByID s (ID_String id) = Fail e' /\
         forall sn, errors_is e sn = errors_is e' sn) \/
      (exists x, errors_is e tenant_ErrHierarchyCycle = true /\
         rtc (parent_of s) id x /\ tc (parent_of s) x x) \/
      (exists x e', errors_is e tenant_ErrHierarchyDangling = true /\
         tc (parent_of s) id x /\ ByID s (ID_String x) = Fail e' /\
         forall sn, errors_is e' sn = true -> errors_is e sn = true) \/
      (exists n x, errors_is e tenant_ErrHierarchyDepth = true /\
         nsteps (parent_of s) n id x /\ (maxHierarchyDepth < n)%nat)
  end.
Proof.
  intros Hc Hforeign. unfold Ancestors. destruct (negb _ || _); [done|].
  destruct (ByID s (ID_String id)) as [desc|e|w] eqn:Hd; go_simpl.
  - destruct (ancestors_loop _ _ _ _ _ _) as [l|e|w] eqn:Hl; [done| |].
    + pose proof (ancestors_loop_class _ _ _ _ _ _ _ Hl) as Hcls.
      assert (forall x, x ∈ ({[id]} : gset ID) -> rtc (parent_of s) x id) as Hseen
        by (by intros x ->%elem_of_singleton).
      destruct (ancestors_loop_Fail _ _ _ _ _ _ _ _ Hforeign Hd Hseen Hl)
        as (H1 & H2 & H3).
      right. destruct Hcls as [Hx|[Hx|Hx]].
      * left. destruct (H1 Hx) as (x & ? & ?). by exists x.
      * right; left. destruct (H2 Hx) as (x & e' & ? & ? & ?). by exists x, e'.
      * right; right. destruct (H3 Hx) as (n & x & ? & Hn). exists n, x.
        cbn in Hn. split; [done|]. split; [done|lia].
    + eapply ancestors_loop_no_panic; [done| |exact Hl].
      cbn; unfold maxHierarchyDepth; lia.
  - left. by exists e.
  - by apply store_no_panic in Hd.
Qed.

(** C2's hypotheses hold of a table with a dangling parent and a cycle. *)
Lemma demo_store_foreign rows : store_errors_foreign (demo_store rows).
Proof.
  intros k e. cbn. unfold demo_lookup.
  destruct (list_find _ _) as [[]|]; [destruct (String.eqb _ _)|]; by intros [= <-].
Qed.

Lemma Ancestors_fails_closed_witness :
  fails_with (Ancestors (Some (demo_store demo_rows)) (New "lost"))
    tenant_ErrHierarchyDangling = true /\
  fails_with (Ancestors (Some (demo_store demo_rows)) (New "loop"))
    tenant_ErrHierarchyCycle = true /\
  exists P, P = Ancestors_fails_closed (demo_store demo_rows) (New "lost") _
    (demo_store_foreign demo_rows).
Proof. split; [reflexivity|]. split; [reflexivity|]. by eexists. Defined.

(** [Inherited] answers with a non-empty list exactly when it is the
    tenant's own, or the tenant has none and the nearest ancestor that has any
    owns it and its own switch allows it; a refusal is never overruled by an
    ancestor further up. *)
Theorem Inherited_correct {T} (s : Store) (allow : Inheritance)
    (own : ID -> go (list T)) (id : ID) (items : list T) : items <> [] ->
  Inherited (Some s) (Some allow) id (Some own) = Ret items <->
  own id = Ret items \/
  own id = Ret [] /\
  exists nearer a farther, Ancestors (Some s) id = Ret (nearer ++ a :: farther) /\
    Forall (fun b => own b = Ret []) nearer /\ own a = Ret items /\
    allow a = Ret true.
Proof.
  intros Hne. unfold Inherited. destruct (own id) as [[|x xs]|e|w] eqn:Hown; go_simpl.
  - destruct (Ancestors (Some s) id) as [chain|e|w].
    + rewrite inherited_walk_Ret by done. split.
      * intros (nearer & a & farther & -> & Hwalk). right. split; [done|].
        by exists nearer, a, farther.
      * intros [[= <-]|(_ & nearer & a & farther & [= ->] & Hwalk)]; [done|].
        by exists nearer, a, farther.
    + split; [|by intros [[= <-]|(_ & ? & ? & ? & ? & _)]].
      destruct (errors_is e tenant_ErrHierarchyDangling), (errors_is e tenant_ErrNotFound);
        congruence.
    + split; [done|]. by intros [[= <-]|(_ & ? & ? & ? & ? & _)].
  - split; [by left|]. by intros [?|[? _]].
  - split; [done|]. by intros [?|[? _]].
  - split; [done|]. by intros [?|[? _]].
Qed.

Definition demo_own (id : ID) : go (list nat) :=
  Ret (if bool_decide (id = New "group") then [7] else []).

Lemma Inherited_correct_witness :
  [7] <> [] /\
  Inherited (Some (demo_store demo_rows)) (Some (fun _ => Ret true)) (New "kid")
    (Some demo_own) = Ret [7].
Proof.
  split; [discriminate|].
  apply (Inherited_correct (demo_store demo_rows) (fun _ => Ret true) demo_own (New "kid") [7]).
  - discriminate.
  - right. split; [reflexivity|]. exists [], (New "group"), [].
    repeat split; constructor.
Defined.

(** The failures of [Inherited] keep apart a tenant that does not exist and
    parentage that is corrupt: with nothing of its own an unknown tenant gets
    nothing, every other failure of the walk (an ancestor that does not
    resolve, a cycle, a depth) is returned, and a policy error aborts whatever
    the ancestors above would have lent. *)
Theorem Inherited_errors {T} (s : Store) (allow : Inheritance)
    (own : ID -> go (list T)) (id : ID) : own id = Ret [] ->
  match Ancestors (Some s) id with
  | Panic w => Inherited (Some s) (Some allow) id (Some own) = Panic w
  | Fail e =>
      Inherited (Some s) (Some allow) id (Some own) =
        if errors_is e tenant_ErrNotFound && negb (errors_is e tenant_ErrHierarchyDangling)
        then Ret [] else Fail e
  | Ret chain =>
      forall nearer a farther lent, chain = nearer ++ a :: farther ->
      Forall (fun b => own b = Ret []) nearer -> own a = Ret lent -> lent <> [] ->
      Inherited (Some s) (Some allow) id (Some own) =
        match allow a with
        | Ret true => Ret lent | Ret false => Ret []
        | Fail e => Fail e | Panic w => Panic w
        end
  end.
Proof.
  intros Hown. unfold Inherited. rewrite Hown. go_simpl.
  destruct (Ancestors (Some s) id) as [chain|e|w]; [| |done].
  - intros nearer a farther lent -> Hn Ha Hl.
    rewrite (inherited_walk_skip _ _ _ _ Hn), (inherited_walk_stop _ _ _ lent) by done.
    by destruct (allow a) as [[]|e|w].
  - by destruct (errors_is e tenant_ErrHierarchyDangling), (errors_is e tenant_ErrNotFound).
Qed.

Lemma Inherited_errors_witness :
  demo_own (New "lost") = Ret [] /\
  fails_with (Inherited (Some (demo_store demo_rows)) (Some (fun _ => Ret true))
    (New "lost") (Some demo_own)) tenant_ErrHierarchyDangling = true /\
  exists P, P = Inherited_errors (demo_store demo_rows) (fun _ => Ret true) demo_own
    (New "lost") eq_refl.
Proof. split; [reflexivity|]. split; [reflexivity|]. by eexists. Defined.

(** [Union] is the least upper bound of two plans (caps being
    non-negative): it grants all that either grants and nothing more. *)
Theorem Union_join (e1 e2 : Entitlements) : cap_ok e1 -> cap_ok e2 ->
  ent_le e1 (Union e1 e2) /\ ent_le e2 (Union e1 e2) /\
  (forall e3, cap_ok e3 -> ent_le e1 e3 -> ent_le e2 e3 -> ent_le (Union e1 e2) e3) /\
  (forall n, IsZero e1 = false -> AllowsAnotherIdP e1 n = true ->
     AllowsAnotherIdP (Union e1 e2) n = true).
Proof.
  intros H1 H2. split; [by apply Union_ub_l|]. split; [by apply Union_ub_r|].
  split; [intros; by apply Union_least|].
  intros n. ent_cases.
Qed.

Lemma Union_join_witness :
  cap_ok (MkEntitlements true false 3) /\ cap_ok (MkEntitlements false true 5) /\
  ent_le (MkEntitlements true false 3)
    (Union (MkEntitlements true false 3) (MkEntitlements false true 5)).
Proof.
  split; [unfold cap_ok; cbn; lia|]. split; [unfold cap_ok; cbn; lia|].
  apply (Union_join (MkEntitlements true false 3) (MkEntitlements false true 5));
    unfold cap_ok; cbn; lia.
Defined.

(** C18: The inherited plan of a tenant is the least plan granting what its own
    record and each ancestor's record grant, so it only widens and does not
    depend on the order of the walk; any failed read fails the lookup. *)
Theorem inheriting_ForTenant_lub (inner : EntitlementStore) (s : Store) (id : ID)
    (eff : Entitlements) : (forall i e, inner i = Ret e -> cap_ok e) ->
  inheriting_ForTenant inner s id = Ret eff <->
  exists own chain es, inner id = Ret own /\ Ancestors (Some s) id = Ret chain /\
    Forall2 (fun a e => inner a = Ret e) chain es /\ is_lub (own :: es) eff.
Proof.
  intros Hcap. unfold inheriting_ForTenant.
  assert (forall chain es, Forall2 (fun a e => inner a = Ret e) chain es -> Forall cap_ok es)
    as Hcaps by (intros ??; induction 1; constructor; eauto).
  split.
  - intros (own & Hown & (chain & Hchain & Hu)%go_bind_Ret_inv)%go_bind_Ret_inv.
    apply union_ancestors_Ret in Hu as (es & Hes & ->). exists own, chain, es.
    do 3 (split; [done|]). apply foldl_Union_lub; eauto.
  - intros (own & chain & es & Hown & -> & Hes & Hlub). rewrite Hown. go_simpl.
    apply union_ancestors_Ret. exists es. split; [done|].
    eapply is_lub_unique; [exact Hlub|]. apply foldl_Union_lub; eauto.
Qed.

Definition demo_plans (id : ID) : go Entitlements :=
  Ret (if bool_decide (id = New "group") then MkEntitlements true false 3
       else Entitlements_zero).

Lemma inheriting_ForTenant_lub_witness :
  (forall i e, demo_plans i = Ret e -> cap_ok e) /\
  exists own chain es, demo_plans (New "kid") = Ret own /\
    Ancestors (Some (demo_store demo_rows)) (New "kid") = Ret chain /\
    Forall2 (fun a e => demo_plans a = Ret e) chain es /\
    is_lub (own :: es) (MkEntitlements true false 3).
Proof.
  assert (forall i e, demo_plans i = Ret e -> cap_ok e) as H.
  { intros i e. unfold demo_plans. case_bool_decide; intros [= <-]; unfold cap_ok; cbn; lia. }
  split; [exact H|].
  apply (inheriting_ForTenant_lub demo_plans (demo_store demo_rows) (New "kid")
    (MkEntitlements true false 3) H). reflexivity.
Defined.

(** The caps' sign matters: a negative cap is "unlimited" to
    [AllowsAnotherIdP], and joining two records that bought only caps, one of
    them negative, gives the record that bought nothing. A third record's cap
    then wins, so [Union] neither widens nor is associative outside [cap_ok]. *)
Lemma Union_negative_cap :
  let unlimited := MkEntitlements false false (-1) in
  let three := MkEntitlements false false 3 in
  let sso2 := MkEntitlements true false 2 in
  IsZero (Union unlimited three) = true /\
  AllowsAnotherIdP unlimited 2 = true /\
  AllowsAnotherIdP (Union (Union unlimited three) sso2) 2 = false /\
  Union unlimited unlimited <> unlimited.
Proof. vm_compute. repeat split; discriminate. Qed.
