(* ===== verification/TenantDomain.v ===== *)
(** Home-realm discovery: [domain.go] (normalisation, the public-domain list,
    [ResolveDomain]), [domain_inherit.go] (authority over a name under an
    ancestor's verified domain) and [verify.go] (the DNS TXT proof) of
    src/tenant. *)

From S2P Require Import Prelude Tenant.

Set Default Goal Selector "!".

(** ** Records and the port (domain.go) *)

Record DomainRecord := MkDomainRecord {
  dr_TenantID : string;
  dr_Domain : string;
  dr_Verified : bool;
  dr_ProviderID : string
}.

#[export] Instance DomainRecord_eq_dec : EqDecision DomainRecord.
Proof. solve_decision. Defined.

Definition DomainRecord_zero : DomainRecord := MkDomainRecord "" "" false "".

Definition BoundProviderID (d : DomainRecord) : string :=
  if negb (dr_Verified d) then "" else dr_ProviderID d.

(** The port, at one moment: the application implements it. *)
Record DomainStore := MkDomainStore {
  ByDomain : string -> go DomainRecord;
  ListForTenant : string -> go (list DomainRecord)
}.

Definition tab_cr_lf_space : string := bytes_string [32; 9; 13; 10]%N.

(** The cases of the [switch] and the rune loop. All report the one sentinel;
    on a domain with a byte above 127 [strings.ToLower] may or may not differ,
    and either way the answer is that sentinel. *)
Definition RequireNormalisedDomain (domain : string) : go unit :=
  let not_normalised := Fail (Errorf1 "domain" (Sentinel tenant_ErrDomainNotNormalised)) in
  if String.eqb domain "" then not_normalised
  else if has_prefix domain "@" then not_normalised
  else if contains_any domain tab_cr_lf_space then not_normalised
  else if negb (String.eqb domain (to_lower domain)) then not_normalised
  else if negb (is_ascii domain) then not_normalised
  else Ret tt.

Definition publicEmailDomains : list string :=
  ["gmail.com"; "googlemail.com";
   "outlook.com"; "hotmail.com"; "hotmail.co.uk"; "live.com"; "msn.com";
   "yahoo.com"; "yahoo.co.uk"; "ymail.com"; "rocketmail.com";
   "icloud.com"; "me.com"; "mac.com";
   "proton.me"; "protonmail.com"; "tutanota.com"; "fastmail.com"; "hushmail.com";
   "aol.com"; "gmx.com"; "gmx.net"; "mail.com"; "mail.ru"; "yandex.com";
   "yandex.ru"; "zoho.com"; "qq.com"; "163.com"; "126.com"; "naver.com";
   "mailinator.com"; "guerrillamail.com"; "10minutemail.com"; "yopmail.com";
   "trashmail.com"; "sharklasers.com"].

Definition IsPublicEmailDomain (domain : string) : bool :=
  existsb (String.eqb domain) publicEmailDomains.

(** [fmt.Errorf("%w: domain %s", ErrNotFound, domain)], one text for every
    reason. *)
Definition domain_not_found : error :=
  Errorf1 "domain" (Sentinel tenant_ErrNotFound).

Definition ResolveDomain (s : DomainStore) (emailDomain : string) : go DomainRecord :=
  _ ← RequireNormalisedDomain emailDomain;
  if IsPublicEmailDomain emailDomain then Fail domain_not_found
  else
    rec ← ByDomain s emailDomain;
    if negb (dr_Verified rec) then Fail domain_not_found else Ret rec.

(** ** Inherited authority (domain_inherit.go) *)

Record DomainAuthority := MkDomainAuthority {
  AncestorID : ID;
  da_Domain : string;
  da_ProviderID : string
}.

Definition IsProperSubdomain (child parent : string) : bool :=
  if String.eqb child "" || String.eqb parent "" then false
  else negb (String.eqb child parent) && has_suffix child ("." +:+ parent).

(** The [continue] condition of the inner loop, negated. *)
Definition claim_matches (domain : string) (claim : DomainRecord) : bool :=
  negb (negb (dr_Verified claim) || IsPublicEmailDomain (dr_Domain claim) ||
        negb (IsProperSubdomain domain (dr_Domain claim))).

(** The inner loop: the longest matching claim so far. *)
Fixpoint best_claim (domain : string) (best : DomainRecord)
    (claims : list DomainRecord) : DomainRecord :=
  match claims with
  | [] => best
  | claim :: claims =>
      if negb (claim_matches domain claim) then best_claim domain best claims
      else if (String.length (dr_Domain best) <? String.length (dr_Domain claim))%nat
      then best_claim domain claim claims
      else best_claim domain best claims
  end.

Fixpoint authority_walk (domains : DomainStore) (domain : string) (chain : list ID)
    : go DomainAuthority :=
  match chain with
  | [] => Fail domain_not_found
  | ancestor :: chain =>
      claims ← wrap_err (Errorf1 "tenant: domain authority for")
        (ListForTenant domains (ID_String ancestor));
      let best := best_claim domain DomainRecord_zero claims in
      if negb (String.eqb (dr_Domain best) "") then
        Ret {| AncestorID := ancestor; da_Domain := dr_Domain best;
               da_ProviderID := BoundProviderID best |}
      else authority_walk domains domain chain
  end.

Definition InheritedDomainAuthority (s : option Store) (domains : option DomainStore)
    (tenantID : ID) (domain : string) : go DomainAuthority :=
  match s, domains with
  | None, _ => Panic "tenant: InheritedDomainAuthority requires a Store"
  | _, None => Panic "tenant: InheritedDomainAuthority requires a DomainStore"
  | Some s, Some domains =>
      _ ← RequireNormalisedDomain domain;
      if IsPublicEmailDomain domain then Fail domain_not_found
      else
        chain ← Ancestors (Some s) tenantID;
        authority_walk domains domain chain
  end.

(** ** The DNS proof (verify.go) *)

Record dnsVerifier := MkDnsVerifier {
  lookupTXT : string -> go (list string);
  v_prefix : string
}.

Definition WithTXTRecordPrefix (prefix : string) (v : dnsVerifier) : dnsVerifier :=
  {| lookupTXT := lookupTXT v; v_prefix := trim ["."] prefix |}.

Definition WithTXTLookup (fn : option (string -> go (list string))) (v : dnsVerifier)
    : dnsVerifier :=
  match fn with
  | Some fn => {| lookupTXT := fn; v_prefix := v_prefix v |}
  | None => v
  end.

Definition NewDNSVerifier (default : string -> go (list string))
    (opts : list (dnsVerifier -> dnsVerifier)) : dnsVerifier :=
  fold_left (fun v o => o v) opts {| lookupTXT := default; v_prefix := "" |}.

Definition verification_failed : error :=
  Errorf1 "verification" (Sentinel tenant_ErrVerificationFailed).

(** [ConstantTimeCompare] is equality of the bytes; its timing is not modelled. *)
Definition VerifyTXT (v : dnsVerifier) (domain expectedToken : string) : go unit :=
  _ ← RequireNormalisedDomain domain;
  if String.eqb expectedToken "" then Fail verification_failed
  else
    let name := if negb (String.eqb (v_prefix v) "") then v_prefix v +:+ "." +:+ domain
                else domain in
    match lookupTXT v name with
    | Panic w => Panic w
    | Fail _ => Fail verification_failed
    | Ret records =>
        if existsb (fun got => String.eqb (trim_space got) expectedToken) records
        then Ret tt else Fail verification_failed
    end.

(** ** Lemmas *)

(** What "canonical" means (the comment of [RequireNormalisedDomain]). *)
Definition normalised (d : string) : Prop :=
  d <> "" /\ has_prefix d "@" = false /\ contains_any d tab_cr_lf_space = false /\
  to_lower d = d /\ is_ascii d = true.

Lemma RequireNormalisedDomain_Ret d :
  RequireNormalisedDomain d = Ret tt <-> normalised d.
Proof.
  unfold RequireNormalisedDomain, normalised.
  destruct (String.eqb_spec d ""), (has_prefix d "@"), (contains_any d _),
    (String.eqb_spec d (to_lower d)), (is_ascii d); cbn; split; naive_solver.
Qed.

Lemma RequireNormalisedDomain_cases d :
  RequireNormalisedDomain d = Ret tt /\ normalised d \/
  RequireNormalisedDomain d =
    Fail (Errorf1 "domain" (Sentinel tenant_ErrDomainNotNormalised)) /\ ~ normalised d.
Proof.
  rewrite <- RequireNormalisedDomain_Ret.
  unfold RequireNormalisedDomain. repeat case_match; auto.
Qed.

Lemma IsProperSubdomain_spec child parent :
  IsProperSubdomain child parent = true <->
  parent <> "" /\ exists t, child = t +:+ "." +:+ parent.
Proof.
  unfold IsProperSubdomain. split.
  - destruct (String.eqb_spec child ""), (String.eqb_spec parent ""); cbn; try done.
    intros [_ H%has_suffix_spec]%andb_true_iff. done.
  - intros [Hp [t ->]].
    assert (t +:+ "." +:+ parent <> parent) as Hne.
    { intros Heq%(f_equal String.length). rewrite !string_length_append in Heq.
      cbn in Heq. lia. }
    assert (t +:+ "." +:+ parent <> "") as Hne'.
    { intros Heq%(f_equal String.length). rewrite !string_length_append in Heq.
      cbn in Heq. lia. }
    rewrite (proj2 (String.eqb_neq _ _) Hp), (proj2 (String.eqb_neq _ _) Hne'),
      (proj2 (String.eqb_neq _ _) Hne). cbn. apply has_suffix_spec. by exists t.
Qed.

(** A claim that confers authority over [domain]. *)
Definition confers (domain : string) (c : DomainRecord) : Prop :=
  dr_Verified c = true /\ IsPublicEmailDomain (dr_Domain c) = false /\
  dr_Domain c <> "" /\ exists t, domain = t +:+ "." +:+ dr_Domain c.

Lemma claim_matches_spec domain c : claim_matches domain c = true <-> confers domain c.
Proof.
  unfold claim_matches, confers. rewrite negb_true_iff, !orb_false_iff, !negb_false_iff.
  rewrite IsProperSubdomain_spec. naive_solver.
Qed.

(** Among claims over the same name the length of the domain determines it. *)
Lemma confers_length_inj domain c1 c2 : confers domain c1 -> confers domain c2 ->
  String.length (dr_Domain c1) = String.length (dr_Domain c2) ->
  dr_Domain c1 = dr_Domain c2.
Proof.
  intros (_ & _ & _ & t1 & ->) (_ & _ & _ & t2 & Heq) Hlen.
  assert (String.length t1 = String.length t2) as Ht.
  { apply (f_equal String.length) in Heq. rewrite !string_length_append in Heq.
    cbn in Heq. lia. }
  clear Hlen. revert t2 Heq Ht.
  induction t1 as [|x t1 IH]; intros [|y t2] Heq Ht; cbn in *; try done.
  - by injection Heq.
  - injection Heq as -> Heq. by apply (IH t2); [|lia].
Qed.

(** The choice the inner loop makes: the first of the longest. *)
Definition longest_claim (domain : string) (claims : list DomainRecord)
    (c : DomainRecord) : Prop :=
  exists l1 l2, claims = l1 ++ c :: l2 /\ confers domain c /\
    (forall c', c' ∈ l1 -> confers domain c' ->
       (String.length (dr_Domain c') < String.length (dr_Domain c))%nat) /\
    (forall c', c' ∈ l2 -> confers domain c' ->
       (String.length (dr_Domain c') <= String.length (dr_Domain c))%nat).

Lemma best_claim_spec domain best claims :
  (best_claim domain best claims = best /\
   forall c, c ∈ claims -> confers domain c ->
     (String.length (dr_Domain c) <= String.length (dr_Domain best))%nat) \/
  (longest_claim domain claims (best_claim domain best claims) /\
   (String.length (dr_Domain best) <
      String.length (dr_Domain (best_claim domain best claims)))%nat).
Proof.
  revert best. induction claims as [|c claims IH]; intros best; cbn.
  { left. split; [done|]. intros c Hc. by apply not_elem_of_nil in Hc. }
  assert (Hkeep : ~ confers domain c \/
      (String.length (dr_Domain c) <= String.length (dr_Domain best))%nat ->
    (best_claim domain best claims = best /\ forall c', c' ∈ c :: claims ->
       confers domain c' ->
       (String.length (dr_Domain c') <= String.length (dr_Domain best))%nat) \/
    (longest_claim domain (c :: claims) (best_claim domain best claims) /\
     (String.length (dr_Domain best) <
        String.length (dr_Domain (best_claim domain best claims)))%nat)).
  { intros Hc. destruct (IH best) as [[Heq Hle]|[(l1 & l2 & Hcl & Hconf & Hl1 & Hl2) Hlt]].
    - left. split; [done|]. intros c' [->|Hin]%elem_of_cons Hc'; [naive_solver|auto].
    - right. split; [|done]. exists (c :: l1), l2. split; [cbn; by f_equal|]. split; [done|].
      split; [|done]. intros c' [->|Hin]%elem_of_cons Hc'; [|auto].
      destruct Hc as [Hc|Hc]; [done|lia]. }
  destruct (claim_matches domain c) eqn:Hm; cbn.
  - apply claim_matches_spec in Hm.
    destruct (Nat.ltb_spec (String.length (dr_Domain best)) (String.length (dr_Domain c)))
      as [Hlt|Hge]; [|apply Hkeep; by right].
    right. destruct (IH c) as [[-> Hle]|[(l1 & l2 & Hcl & Hconf & Hl1 & Hl2) Hlt']].
    + split; [|done]. exists [], claims. split; [done|]. split; [done|].
      split; [|done]. intros c' Hc'. by apply not_elem_of_nil in Hc'.
    + split; [|lia]. exists (c :: l1), l2. split; [cbn; by f_equal|]. split; [done|].
      split; [|done]. intros c' [->|Hin]%elem_of_cons Hc'; [lia|auto].
  - apply Hkeep. left. intros Hc%claim_matches_spec. congruence.
Qed.

Lemma longest_claim_unique domain claims c1 c2 :
  longest_claim domain claims c1 -> longest_claim domain claims c2 -> c1 = c2.
Proof.
  intros (l1 & l2 & -> & H1 & Hlt1 & Hle1) (m1 & m2 & Heq & H2 & Hlt2 & Hle2).
  destruct (decide (length l1 = length m1)) as [Hlen|Hlen].
  { apply app_inj_1 in Heq as [_ Heq]; [|done]. by simplify_eq. }
  destruct (decide (length l1 < length m1)%nat) as [Hlt|Hge].
  - (* c1 lies in m1: it is shorter than c2; c2 lies in l2: it is no longer *)
    assert (c1 ∈ m1) as Hin1.
    { apply (f_equal (fun l => l !! length l1)) in Heq.
      rewrite list_lookup_middle in Heq by done.
      rewrite lookup_app_l in Heq by done. eapply list_elem_of_lookup_2. by rewrite <- Heq. }
    assert (c2 ∈ l2) as Hin2.
    { apply (f_equal (fun l => l !! length m1)) in Heq.
      rewrite (list_lookup_middle m1) in Heq by done.
      rewrite lookup_app_r in Heq by lia.
      destruct (length m1 - length l1)%nat as [|n] eqn:En; [lia|].
      eapply list_elem_of_lookup_2. exact Heq. }
    specialize (Hlt2 _ Hin1 H1). specialize (Hle1 _ Hin2 H2). lia.
  - assert (c2 ∈ l1) as Hin1.
    { apply (f_equal (fun l => l !! length m1)) in Heq.
      rewrite (list_lookup_middle m1) in Heq by done.
      rewrite lookup_app_l in Heq by lia. eapply list_elem_of_lookup_2. exact Heq. }
    assert (c1 ∈ m2) as Hin2.
    { apply (f_equal (fun l => l !! length l1)) in Heq.
      rewrite list_lookup_middle in Heq by done.
      rewrite lookup_app_r in Heq by lia.
      destruct (length l1 - length m1)%nat as [|n] eqn:En; [lia|].
      eapply list_elem_of_lookup_2. symmetry. exact Heq. }
    specialize (Hlt1 _ Hin1 H2). specialize (Hle2 _ Hin2 H1). lia.
Qed.

(** What one ancestor's claims give. *)
Lemma best_claim_zero domain claims :
  (dr_Domain (best_claim domain DomainRecord_zero claims) = "" /\
   forall c, c ∈ claims -> ~ confers domain c) \/
  longest_claim domain claims (best_claim domain DomainRecord_zero claims).
Proof.
  destruct (best_claim_spec domain DomainRecord_zero claims) as [[-> Hle]|[Hl _]];
    [left|by right].
  split; [done|]. intros c Hin Hc. pose proof (Hle c Hin Hc) as Hlen.
  destruct Hc as (_ & _ & Hne & _). destruct (dr_Domain c); [done|cbn in Hlen; lia].
Qed.

(** Nothing an ancestor has claimed confers authority. *)
Definition no_authority (domains : DomainStore) (domain : string) (b : ID) : Prop :=
  exists claims, ListForTenant domains (ID_String b) = Ret claims /\
    forall c, c ∈ claims -> ~ confers domain c.

Lemma authority_walk_Ret domains domain chain auth :
  authority_walk domains domain chain = Ret auth <->
  exists nearer a farther claims c, chain = nearer ++ a :: farther /\
    Forall (no_authority domains domain) nearer /\
    ListForTenant domains (ID_String a) = Ret claims /\
    longest_claim domain claims c /\
    auth = MkDomainAuthority a (dr_Domain c) (dr_ProviderID c).
Proof.
  induction chain as [|a chain IH]; cbn.
  { split; [done|]. by intros ([] & ? & ? & ? & ? & ? & _). }
  destruct (ListForTenant domains (ID_String a)) as [claims|e|w] eqn:Ha; go_simpl.
  2-3: split; [done|]; intros (nearer & a' & farther & claims & c & Heq & Hn & Hl & _);
    destruct nearer as [|b nearer]; simplify_eq/=; [congruence|];
    apply Forall_cons in Hn as [(cl & Hcl & _) _]; congruence.
  destruct (best_claim_zero domain claims) as [[-> Hnone]|Hbest]; cbn.
  - rewrite IH. split.
    + intros (nearer & a' & farther & claims' & c & -> & Hn & Hrest).
      exists (a :: nearer), a', farther, claims', c. split; [done|].
      split; [|done]. constructor; [|done]. by exists claims.
    + intros (nearer & a' & farther & claims' & c & Heq & Hn & Hl & Hlong & Hauth).
      destruct nearer as [|b nearer]; simplify_eq/=.
      * destruct Hlong as (l1 & l2 & -> & Hc & _). assert (claims = l1 ++ c :: l2) as ->
          by congruence. exfalso. eapply Hnone; [|done]. set_solver.
      * apply Forall_cons in Hn as [_ Hn]. by exists nearer, a', farther, claims', c.
  - set (best := best_claim _ _ _) in *.
    pose proof Hbest as (l1 & l2 & Hcl & (Hv & Hpub & Hne & Hsuf) & _).
    rewrite (proj2 (String.eqb_neq _ _) Hne). cbn.
    unfold BoundProviderID. rewrite Hv; cbn. split.
    + intros [= <-]. exists [], a, chain, claims, best. by repeat split.
    + intros (nearer & a' & farther & claims' & c & Heq & Hn & Hl & Hlong & ->).
      destruct nearer as [|b nearer]; simplify_eq/=.
      * assert (claims' = claims) as -> by congruence.
        by rewrite (longest_claim_unique _ _ _ _ Hlong Hbest).
      * apply Forall_cons in Hn as [(cl & Hcl' & Hno) _].
        assert (cl = l1 ++ best :: l2) as -> by congruence.
        exfalso. eapply Hno; [|done]. set_solver.
Qed.

(** ** Properties *)

(** [ResolveDomain] believes a claim exactly when the domain is normalised,
    is no public provider and its row is verified; a public domain, a missing
    row and an unverified claim give errors with the same sentinel, and the
    first and the last the very same error. *)
Theorem ResolveDomain_correct (s : DomainStore) (d : string) :
  (forall rec, ResolveDomain s d = Ret rec <->
     normalised d /\ IsPublicEmailDomain d = false /\ ByDomain s d = Ret rec /\
     dr_Verified rec = true) /\
  (normalised d ->
     (IsPublicEmailDomain d = true \/
      (exists rec, ByDomain s d = Ret rec /\ dr_Verified rec = false) ->
      ResolveDomain s d = Fail domain_not_found) /\
     (IsPublicEmailDomain d = false -> fails_with (ByDomain s d) tenant_ErrNotFound = true ->
      fails_with (ResolveDomain s d) tenant_ErrNotFound = true)).
Proof.
  unfold ResolveDomain.
  destruct (RequireNormalisedDomain_cases d) as [[-> Hn]|[-> Hn]]; go_simpl;
    [|split; [intros rec; split; [done|by intros [? _]]|done]].
  destruct (IsPublicEmailDomain d); cbn.
  { split; [intros rec; split; [done|by intros (_ & ? & _)]|]. by split. }
  destruct (ByDomain s d) as [rec|e|w]; go_simpl.
  - destruct (dr_Verified rec) eqn:Hv; cbn.
    + split; [intros rec'; split; [intros [= <-]|intros (_ & _ & [= <-] & _)]; done|].
      intros _. split; [|done]. intros [|(rec' & [= <-] & ?)]; congruence.
    + split; [|by split].
      intros rec'; split; [done|]. intros (_ & _ & [= <-] & ?). congruence.
  - split; [intros rec; split; [done|by intros (_ & _ & ? & _)]|].
    intros _. split; [|done]. by intros [|(? & ? & _)].
  - split; [intros rec; split; [done|by intros (_ & _ & ? & _)]|].
    intros _. split; [|done]. by intros [|(? & ? & _)].
Qed.

(** [InheritedDomainAuthority] lends authority exactly from the nearest
    ancestor with a verified, non-public claim whose name is a proper parent of
    the domain at a label boundary, through the first of its longest such
    claims; every nearer ancestor was read and had none. *)
Theorem InheritedDomainAuthority_correct (s : Store) (domains : DomainStore)
    (id : ID) (domain : string) (auth : DomainAuthority) :
  InheritedDomainAuthority (Some s) (Some domains) id domain = Ret auth <->
  normalised domain /\ IsPublicEmailDomain domain = false /\
  exists nearer a farther claims c,
    Ancestors (Some s) id = Ret (nearer ++ a :: farther) /\
    Forall (no_authority domains domain) nearer /\
    ListForTenant domains (ID_String a) = Ret claims /\
    longest_claim domain claims c /\
    auth = MkDomainAuthority a (dr_Domain c) (dr_ProviderID c).
Proof.
  unfold InheritedDomainAuthority.
  destruct (RequireNormalisedDomain_cases domain) as [[-> Hn]|[-> Hn]]; go_simpl;
    [|split; [done|by intros [? _]]].
  destruct (IsPublicEmailDomain domain); [split; [done|by intros (_ & ? & _)]|].
  destruct (Ancestors (Some s) id) as [chain|e|w]; go_simpl.
  - rewrite authority_walk_Ret. split.
    + intros (nearer & a & farther & claims & c & -> & Hrest).
      split; [done|]. split; [done|]. by exists nearer, a, farther, claims, c.
    + intros (_ & _ & nearer & a & farther & claims & c & [= ->] & Hrest).
      by exists nearer, a, farther, claims, c.
  - split; [done|]. by intros (_ & _ & ? & ? & ? & ? & ? & ? & _).
  - split; [done|]. by intros (_ & _ & ? & ? & ? & ? & ? & ? & _).
Qed.

(** The name lent, hence the authority, does not depend on the order in which
    the store lists an ancestor's claims. *)
Lemma longest_claim_order domain claims1 claims2 c1 c2 :
  claims1 ≡ₚ claims2 -> longest_claim domain claims1 c1 ->
  longest_claim domain claims2 c2 -> dr_Domain c1 = dr_Domain c2.
Proof.
  intros Hp (l1 & l2 & -> & H1 & Hlt1 & Hle1) (m1 & m2 & -> & H2 & Hlt2 & Hle2).
  apply (confers_length_inj domain); [done..|].
  assert (forall c, c ∈ l1 ++ c1 :: l2 -> confers domain c ->
    (String.length (dr_Domain c) <= String.length (dr_Domain c1))%nat) as Hmax1.
  { intros c [Hin|[->|Hin]%elem_of_cons]%elem_of_app Hc; [|lia|by apply Hle1].
    specialize (Hlt1 _ Hin Hc). lia. }
  assert (forall c, c ∈ m1 ++ c2 :: m2 -> confers domain c ->
    (String.length (dr_Domain c) <= String.length (dr_Domain c2))%nat) as Hmax2.
  { intros c [Hin|[->|Hin]%elem_of_cons]%elem_of_app Hc; [|lia|by apply Hle2].
    specialize (Hlt2 _ Hin Hc). lia. }
  assert (c1 ∈ m1 ++ c2 :: m2) as Hin1 by (rewrite <- Hp; set_solver).
  assert (c2 ∈ l1 ++ c1 :: l2) as Hin2 by (rewrite Hp; set_solver).
  specialize (Hmax1 _ Hin2 H2). specialize (Hmax2 _ Hin1 H1). lia.
Qed.

(** The dot is what keeps "evilacme.com" out of "acme.com". *)
Example subdomain_dot :
  IsProperSubdomain "evilacme.com" "acme.com" = false /\
  IsProperSubdomain "sdn.acme.com" "acme.com" = true /\
  IsProperSubdomain "acme.com" "acme.com" = false.
Proof. repeat split. Qed.

(** A DNS proof succeeds exactly on a normalised domain, for a non-empty
    token that one of the published records equals up to surrounding white
    space, the records being those of the configured name; whatever went wrong
    otherwise, the caller of a normalised domain sees one and the same error. *)
Theorem VerifyTXT_correct (v : dnsVerifier) (domain token : string) :
  let name := if String.eqb (v_prefix v) "" then domain
              else v_prefix v +:+ "." +:+ domain in
  (VerifyTXT v domain token = Ret tt <->
     normalised domain /\ token <> "" /\
     exists records got, lookupTXT v name = Ret records /\ got ∈ records /\
       trim_space got = token) /\
  (forall e, normalised domain -> VerifyTXT v domain token = Fail e ->
     e = verification_failed).
Proof.
  intros name. unfold VerifyTXT.
  destruct (RequireNormalisedDomain_cases domain) as [[-> Hn]|[-> Hn]]; go_simpl;
    [|split; [split; [done|by intros [? _]]|done]].
  destruct (String.eqb_spec token "") as [->|Ht].
  { split; [split; [done|by intros (_ & ? & _)]|by intros e _ [= <-]]. }
  replace (if negb (v_prefix v =? "")%string then _ else domain) with name
    by (unfold name; by destruct (String.eqb _ _)).
  destruct (lookupTXT v name) as [records|e|w].
  2-3: split; [split; [done|by intros (_ & _ & ? & ? & ? & _)]|by intros ? _ [= <-]].
  destruct (existsb _ records) eqn:Hex.
  - apply existsb_exists in Hex as (got & Hin & Hgot%String.eqb_eq).
    split; [|done]. split; [|done]. intros _. do 2 (split; [done|]).
    exists records, got. by rewrite list_elem_of_In.
  - split; [|by intros e _ [= <-]]. split; [done|].
    intros (_ & _ & records' & got & [= <-] & Hin%list_elem_of_In & Hgot).
    assert (existsb (fun g => String.eqb (trim_space g) token) records = true); [|congruence].
    apply existsb_exists. exists got. by rewrite String.eqb_eq.
Qed.
