(* ===== verification/TenantStore.v ===== *)
(** The in-memory tenant table: [memstore.go] and the write port's checks
    ([admin.go]) of src/tenant. Each mutating method takes the state and
    returns its outcome with the new state; the mutex makes each call one step,
    which is what [table_step] interleaves. *)

From S2P Require Import Prelude Tenant.

Set Default Goal Selector "!".

(** ** Checks of the write port (admin.go) *)

Definition checkStatus (s : Status) : go unit :=
  if bool_decide (s = StatusActive) || bool_decide (s = StatusSuspended)
     || bool_decide (s = StatusPending)
  then Ret tt
  else Fail (Errorf1 "unknown status" (Sentinel tenant_ErrInvalidDescriptor)).

Definition checkWritableID (id : ID) : go unit :=
  if negb (Valid id) then
    Fail (Errorf1 "the tenant id is unset" (Sentinel tenant_ErrInvalidDescriptor))
  else if IsSingle id then
    Fail (Errorf1 "is the single tenant" (Sentinel tenant_ErrSingleTenant))
  else Ret tt.

(** ** The table (memstore.go) *)

Record MemStore := MkMemStore {
  byID : gmap string Descriptor;
  slugToID : gmap string string
}.

Definition NewMemStore : MemStore := MkMemStore ∅ ∅.

Definition Seed (d : Descriptor) (m : MemStore) : MemStore :=
  let slugs :=
    match byID m !! d_ID d with
    | Some prev =>
        if negb (String.eqb (d_Slug prev) (d_Slug d))
           && bool_decide (slugToID m !! d_Slug prev = Some (d_ID d))
        then delete (d_Slug prev) (slugToID m)
        else slugToID m
    | None => slugToID m
    end in
  {| byID := <[d_ID d := d]> (byID m); slugToID := <[d_Slug d := d_ID d]> slugs |}.

Definition MemStore_ByID (m : MemStore) (id : string) : go Descriptor :=
  if String.eqb id "" then Fail (Errorf1 "tenant" (Sentinel tenant_ErrNotFound))
  else match byID m !! id with
  | None => Fail (Errorf1 "tenant" (Sentinel tenant_ErrNotFound))
  | Some d => Ret d
  end.

Definition Descriptor_zero : Descriptor := MkDescriptor "" "" "" "".

(** [m.byID[id]] on the last line reads the zero value when the key is absent. *)
Definition MemStore_BySlug (m : MemStore) (slug : string) : go Descriptor :=
  if String.eqb slug "" then Fail (Errorf1 "tenant slug" (Sentinel tenant_ErrNotFound))
  else match slugToID m !! slug with
  | None => Fail (Errorf1 "tenant slug" (Sentinel tenant_ErrNotFound))
  | Some id => Ret (default Descriptor_zero (byID m !! id))
  end.

(** The read port as a client sees it. *)
Definition MemStore_Store (m : MemStore) : Store :=
  {| ByID := MemStore_ByID m; BySlug := MemStore_BySlug m |}.

Definition List (m : MemStore) : list Descriptor :=
  sort_by (fun d => [d_ID d]) (map snd (map_to_list (byID m))).

Definition Create (d : Descriptor) (m : MemStore) : go unit * MemStore :=
  if String.eqb (d_ID d) "" then
    (Fail (Errorf1 "is the single tenant" (Sentinel tenant_ErrSingleTenant)), m)
  else match checkStatus (d_Status d) with
  | Fail e => (Fail e, m)
  | Panic w => (Panic w, m)
  | Ret _ =>
      match byID m !! d_ID d with
      | Some _ => (Fail (Errorf1 "id" (Sentinel tenant_ErrConflict)), m)
      | None =>
          if negb (String.eqb (d_Slug d) "") then
            match slugToID m !! d_Slug d with
            | Some _ => (Fail (Errorf1 "slug" (Sentinel tenant_ErrConflict)), m)
            | None =>
                (Ret tt, {| byID := <[d_ID d := d]> (byID m);
                            slugToID := <[d_Slug d := d_ID d]> (slugToID m) |})
            end
          else (Ret tt, {| byID := <[d_ID d := d]> (byID m); slugToID := slugToID m |})
      end
  end.

Definition with_status (status : Status) (d : Descriptor) : Descriptor :=
  {| d_ID := d_ID d; d_Slug := d_Slug d; d_ParentID := d_ParentID d; d_Status := status |}.

Definition SetStatus (id : ID) (status : Status) (m : MemStore) : go unit * MemStore :=
  match checkWritableID id with
  | Fail e => (Fail e, m)
  | Panic w => (Panic w, m)
  | Ret _ =>
      match checkStatus status with
      | Fail e => (Fail e, m)
      | Panic w => (Panic w, m)
      | Ret _ =>
          match byID m !! ID_String id with
          | None => (Fail (Errorf1 "tenant" (Sentinel tenant_ErrNotFound)), m)
          | Some d =>
              (Ret tt, {| byID := <[ID_String id := with_status status d]> (byID m);
                          slugToID := slugToID m |})
          end
      end
  end.

(** ** Runs of the table *)

Inductive table_step : MemStore -> MemStore -> Prop :=
  | step_seed d m : table_step m (Seed d m)
  | step_create d m : table_step m (Create d m).2
  | step_set_status id st m : table_step m (SetStatus id st m).2.

Definition reachable (m : MemStore) : Prop := rtc table_step NewMemStore m.

(** Rows are filed under their own id, and a slug names a row that holds it. *)
Record table_ok (m : MemStore) : Prop := {
  ok_key : forall k d, byID m !! k = Some d -> d_ID d = k;
  ok_slug : forall s k, slugToID m !! s = Some k ->
    exists d, byID m !! k = Some d /\ d_Slug d = s
}.

Lemma table_ok_new : table_ok NewMemStore.
Proof. split; intros ?? H; cbn in H; by rewrite lookup_empty in H. Qed.

Lemma Seed_ok d m : table_ok m -> table_ok (Seed d m).
Proof.
  intros [Hkey Hslug]. split; cbn.
  - intros k d' [[<- <-]|[? H]]%lookup_insert_Some; [done|by apply Hkey].
  - intros s k [[<- <-]|[Hne Hs]]%lookup_insert_Some.
    { exists d. by rewrite lookup_insert_eq. }
    assert (slugToID m !! s = Some k /\
      (forall prev, byID m !! d_ID d = Some prev -> k = d_ID d -> s = d_Slug d)) as [Hs' Hown].
    { destruct (byID m !! d_ID d) as [prev|] eqn:Hprev; [|by split].
      destruct (String.eqb_spec (d_Slug prev) (d_Slug d)) as [Heq|Hneq]; cbn in Hs.
      - split; [done|]. intros ? [= <-] ->. destruct (Hslug _ _ Hs) as (? & ? & ?). congruence.
      - case_bool_decide as Hmine.
        + apply lookup_delete_Some in Hs as [Hd Hs]. split; [done|].
          intros ? [= <-] ->. destruct (Hslug _ _ Hs) as (? & ? & ?). congruence.
        + split; [done|]. intros ? [= <-] ->.
          destruct (Hslug _ _ Hs) as (d0 & ? & ?). assert (d0 = prev) as -> by congruence.
          subst s. done. }
    destruct (Hslug _ _ Hs') as (d' & Hd' & <-). exists d'. split; [|done].
    rewrite lookup_insert_ne; [done|]. intros <-. destruct Hne. symmetry. by eapply Hown.
Qed.

Lemma Create_ok d m : table_ok m -> table_ok (Create d m).2.
Proof.
  intros Hok. pose proof Hok as [Hkey Hslug]. unfold Create.
  destruct (String.eqb_spec (d_ID d) "") as [|Hid]; [done|].
  destruct (checkStatus _) as [[]|e|w]; try done.
  destruct (byID m !! d_ID d) eqn:Hfree; [done|].
  assert (forall k d', <[d_ID d := d]> (byID m) !! k = Some d' -> d_ID d' = k) as Hkey'.
  { intros k d' [[<- <-]|[? H]]%lookup_insert_Some; [done|by apply Hkey]. }
  assert (forall s k, slugToID m !! s = Some k ->
    exists d', <[d_ID d := d]> (byID m) !! k = Some d' /\ d_Slug d' = s) as Hslug'.
  { intros s k Hs. destruct (Hslug _ _ Hs) as (d' & Hd' & <-). exists d'. split; [|done].
    rewrite lookup_insert_ne; [done|]. congruence. }
  destruct (String.eqb_spec (d_Slug d) "") as [Hs|Hs]; cbn.
  - by split.
  - destruct (slugToID m !! d_Slug d) eqn:Hsl; [done|]. split; cbn; [done|].
    intros s k [[<- <-]|[_ H]]%lookup_insert_Some; [|by apply Hslug'].
    exists d. by rewrite lookup_insert_eq.
Qed.

Lemma SetStatus_ok id st m : table_ok m -> table_ok (SetStatus id st m).2.
Proof.
  intros Hok. pose proof Hok as [Hkey Hslug]. unfold SetStatus.
  destruct (checkWritableID id) as [[]|e|w]; try done.
  destruct (checkStatus st) as [[]|e|w]; try done.
  destruct (byID m !! ID_String id) as [d|] eqn:Hd; [|done]. split; cbn.
  - intros k d' [[<- <-]|[? H]]%lookup_insert_Some; [|by apply Hkey].
    cbn. by apply Hkey.
  - intros s k Hs. destruct (Hslug _ _ Hs) as (d' & Hd' & <-).
    destruct (decide (ID_String id = k)) as [<-|Hne].
    + exists (with_status st d). split; [by rewrite lookup_insert_eq|]. cbn. congruence.
    + exists d'. by rewrite lookup_insert_ne.
Qed.

Lemma reachable_ok m : reachable m -> table_ok m.
Proof.
  intros Hr. unfold reachable in Hr. revert m Hr.
  apply rtc_ind_r; [apply table_ok_new|].
  intros m1 m2 _ [d m|d m|id st m] IH; eauto using Seed_ok, Create_ok, SetStatus_ok.
Qed.

Lemma checkStatus_cases s :
  checkStatus s = Ret tt /\ (s = StatusActive \/ s = StatusSuspended \/ s = StatusPending) \/
  checkStatus s = Fail (Errorf1 "unknown status" (Sentinel tenant_ErrInvalidDescriptor)) /\
  s <> StatusActive /\ s <> StatusSuspended /\ s <> StatusPending.
Proof. unfold checkStatus. repeat case_bool_decide; cbn; auto. Qed.

Lemma checkWritableID_Ret id :
  checkWritableID id = Ret tt <-> Valid id = true /\ IsSingle id = false.
Proof. unfold checkWritableID. by destruct (Valid id), (IsSingle id); cbn; intuition. Qed.

(** The table fulfils the read port's contract. *)
#[export] Instance MemStore_contract m : StoreContract (MemStore_Store m).
Proof.
  split; [done|done|]. intros id w. cbn. unfold MemStore_ByID.
  destruct (String.eqb id ""), (byID m !! id); done.
Qed.

Lemma MemStore_foreign m : store_errors_foreign (MemStore_Store m).
Proof.
  intros k e. cbn. unfold MemStore_ByID.
  destruct (String.eqb k ""), (byID m !! k); by intros [= <-].
Qed.

(** ** Properties *)

(** Whatever sequence of writes built the table, a slug resolves only to
    the row that holds it now (never to a renamed tenant, never to a zero
    descriptor), the row is the one its id resolves to, and an empty slug
    resolves to nothing. *)
Theorem BySlug_resolves_holder (m : MemStore) (slug : string) (d : Descriptor) :
  reachable m -> MemStore_BySlug m slug = Ret d ->
  slug <> "" /\ d_Slug d = slug /\ byID m !! d_ID d = Some d /\
  (d_ID d <> "" -> MemStore_ByID m (d_ID d) = Ret d).
Proof.
  intros [Hkey Hslug]%reachable_ok. unfold MemStore_BySlug, MemStore_ByID.
  destruct (String.eqb_spec slug "") as [|Hs]; [done|].
  destruct (slugToID m !! slug) as [k|] eqn:Hk; [|done].
  destruct (Hslug _ _ Hk) as (d' & Hd' & Hsl). rewrite Hd'. intros [= <-].
  pose proof (Hkey _ _ Hd') as <-. rewrite Hd'.
  do 3 (split; [done|]). intros Hne. by rewrite (proj2 (String.eqb_neq _ _) Hne).
Qed.

Definition demo_table : MemStore :=
  Seed (MkDescriptor "t2" "acme" "" StatusActive)
    (Seed (MkDescriptor "t1" "beta" "" StatusActive)
      (Seed (MkDescriptor "t1" "acme" "" StatusActive) NewMemStore)).

Lemma demo_table_reachable : reachable demo_table.
Proof.
  eapply rtc_l; [apply step_seed|]. eapply rtc_l; [apply step_seed|].
  eapply rtc_l; [apply step_seed|]. apply rtc_refl.
Qed.

Lemma BySlug_resolves_holder_witness :
  reachable demo_table /\
  MemStore_BySlug demo_table "acme" = Ret (MkDescriptor "t2" "acme" "" StatusActive) /\
  MemStore_ByID demo_table "t2" = Ret (MkDescriptor "t2" "acme" "" StatusActive).
Proof.
  split; [exact demo_table_reachable|]. split; [reflexivity|].
  apply (BySlug_resolves_holder demo_table "acme" _ demo_table_reachable eq_refl).
  discriminate.
Defined.

(** [Create] succeeds exactly when the id is not the single tenant's, the
    status is known, the id is free and the slug is empty or free; it then adds
    that row, under its slug when it has one, and touches no other row or slug.
    Every refusal leaves the table as it was. *)
Theorem Create_correct (d : Descriptor) (m m' : MemStore) :
  (Create d m = (Ret tt, m') <->
     d_ID d <> "" /\
     (d_Status d = StatusActive \/ d_Status d = StatusSuspended \/
      d_Status d = StatusPending) /\
     byID m !! d_ID d = None /\ (d_Slug d = "" \/ slugToID m !! d_Slug d = None) /\
     byID m' = <[d_ID d := d]> (byID m) /\
     slugToID m' = (if String.eqb (d_Slug d) "" then slugToID m
                    else <[d_Slug d := d_ID d]> (slugToID m))) /\
  ((Create d m).1 <> Ret tt -> (Create d m).2 = m).
Proof.
  unfold Create. destruct (String.eqb_spec (d_ID d) "") as [|Hid].
  { split; [|done]. split; [done|]. by intros [? _]. }
  destruct (checkStatus_cases (d_Status d)) as [[-> Hst]|[-> (H1 & H2 & H3)]].
  2: { split; [|done]. split; [done|]. intros (_ & [?|[?|?]] & _); done. }
  destruct (byID m !! d_ID d) eqn:Hfree.
  { split; [|done]. split; [done|]. by intros (_ & _ & ? & _). }
  destruct (String.eqb_spec (d_Slug d) "") as [Hs|Hs]; cbn [negb].
  - split; [|done]. split; [intros [= <-]; cbn; auto 10|].
    intros (_ & _ & _ & _ & Hb & Hsl). destruct m' as [b sl]; cbn in *. by subst.
  - destruct (slugToID m !! d_Slug d) eqn:Hsl.
    { split; [|done]. split; [done|]. by intros (_ & _ & _ & [?|?] & _). }
    split; [|done]. split; [intros [= <-]; cbn; auto 10|].
    intros (_ & _ & _ & _ & Hb & Hsl'). destruct m' as [b sl]; cbn in *. by subst.
Qed.

(** [SetStatus] writes only the status of a stored, non-single tenant; it is
    idempotent, and a refusal leaves the table as it was. *)
Lemma SetStatus_correct (id : ID) (st : Status) (m : MemStore) :
  match SetStatus id st m with
  | (Ret _, m') =>
      Valid id = true /\ IsSingle id = false /\
      exists d, byID m !! ID_String id = Some d /\
        byID m' = <[ID_String id := with_status st d]> (byID m) /\
        slugToID m' = slugToID m /\ SetStatus id st m' = (Ret tt, m')
  | (_, m') => m' = m
  end.
Proof.
  unfold SetStatus at 1. destruct (checkWritableID id) as [[]|e|w] eqn:Hw; [|done..].
  apply checkWritableID_Ret in Hw as [Hv Hs].
  destruct (checkStatus st) as [[]|e|w] eqn:Hst; [|done..].
  destruct (byID m !! ID_String id) as [d|] eqn:Hd; [|done].
  split; [done|]. split; [done|]. exists d. do 3 (split; [done|]).
  unfold SetStatus. rewrite (proj2 (checkWritableID_Ret id)), Hst by done. cbn.
  rewrite lookup_insert_eq. f_equal. f_equal. by rewrite insert_insert_eq.
Qed.

(** [List] is every row once, ordered by id. *)
Lemma List_correct (m : MemStore) : table_ok m ->
  (forall d, d ∈ List m <-> byID m !! d_ID d = Some d) /\
  StronglySorted (key_le (fun d => [d_ID d])) (List m) /\ NoDup (List m).
Proof.
  intros [Hkey _]. unfold List. split; [|split].
  - intros d. rewrite elem_of_sort_by, list_elem_of_fmap. split.
    + intros ([k d'] & -> & H%elem_of_map_to_list). cbn. by rewrite (Hkey _ _ H).
    + intros H. exists (d_ID d, d). by rewrite elem_of_map_to_list.
  - apply sort_by_Sorted.
  - rewrite sort_by_Permutation. apply NoDup_fmap_2_strong; [|apply NoDup_map_to_list].
    intros [k1 d1] [k2 d2] H1%elem_of_map_to_list H2%elem_of_map_to_list; cbn. intros ->.
    f_equal. by rewrite <- (Hkey _ _ H1), <- (Hkey _ _ H2).
Qed.
