(* ===== verification/Authz.v ===== *)
(** The policy decision point of src/authz: subjects, resources and the gates
    ([authz.go]), role ladders and policies ([policy.go]), the binding port
    ([store.go]) and the rank engine ([rbac.go]). *)

From S2P Require Import Prelude Tenant.

Set Default Goal Selector "!".

(** ** Questions and answers (authz.go) *)

Record Subject := MkSubject { sub_Tenant : ID; sub_Type : string; sub_ID : string }.
Record Resource := MkResource { res_Type : string; res_ID : string }.
Definition Action := string.

#[export] Instance Subject_eq_dec : EqDecision Subject.
Proof. solve_decision. Defined.
#[export] Instance Subject_countable : Countable Subject.
Proof.
  apply (inj_countable' (fun s => (sub_Tenant s, sub_Type s, sub_ID s))
    (fun p => MkSubject p.1.1 p.1.2 p.2)). by intros [].
Defined.
#[export] Instance Resource_eq_dec : EqDecision Resource.
Proof. solve_decision. Defined.
#[export] Instance Resource_countable : Countable Resource.
Proof.
  apply (inj_countable' (fun r => (res_Type r, res_ID r)) (fun p => MkResource p.1 p.2)).
  by intros [].
Defined.

(** [Reason] is reduced to a label of the text that fills it. *)
Record Decision := MkDecision { Allowed : bool; Reason : string }.

Record CheckRequest := MkCheckRequest {
  cr_Subject : Subject; cr_Action : Action; cr_Resource : Resource
}.

Definition tenant_required (why : string) : error :=
  Errorf1 why (Sentinel authz_ErrTenantRequired).

Definition scopeGate (tenantID : ID) : go unit :=
  if negb (Valid tenantID) then Fail (tenant_required "the scope is unset") else Ret tt.

Definition gate (tenantID : ID) (sub : Subject) : go unit :=
  _ ← scopeGate tenantID;
  if negb (Valid (sub_Tenant sub)) then Fail (tenant_required "subject has no home tenant")
  else Ret tt.

(** ** Ladders and policies (policy.go) *)

Definition Role := string.
Abbreviation Hierarchy := (gmap string (list Role)).

Record Requirement := MkRequirement { req_Type : string; req_Min : Role }.
Abbreviation Policy := (gmap Action (list Requirement)).

#[export] Instance Requirement_eq_dec : EqDecision Requirement.
Proof. solve_decision. Defined.

(** The loop of [rank], [i] being the index of the head. *)
Fixpoint rank_from (i : nat) (ladder : list Role) (r : Role) : nat :=
  match ladder with
  | [] => 0
  | candidate :: ladder =>
      if String.eqb candidate r then S i else rank_from (S i) ladder r
  end.

Definition rank (h : Hierarchy) (resourceType : string) (r : Role) : nat :=
  rank_from 0 (default [] (h !! resourceType)) r.

Fixpoint validate_ladder (seen : gset Role) (ladder : list Role) : go unit :=
  match ladder with
  | [] => Ret tt
  | r :: ladder =>
      if String.eqb r "" then Fail (Errorf0 "hierarchy contains an empty role")
      else if bool_decide (r ∈ seen) then Fail (Errorf0 "hierarchy lists role twice")
      else validate_ladder ({[r]} ∪ seen) ladder
  end.

Fixpoint validate_hierarchy (entries : list (string * list Role)) : go unit :=
  match entries with
  | [] => Ret tt
  | (resourceType, ladder) :: entries =>
      if String.eqb resourceType "" then Fail (Errorf0 "empty resource type")
      else match ladder with
      | [] => Fail (Errorf0 "hierarchy has no roles")
      | _ => _ ← validate_ladder ∅ ladder; validate_hierarchy entries
      end
  end.

Fixpoint validate_reqs (h : Hierarchy) (reqs : list Requirement) : go unit :=
  match reqs with
  | [] => Ret tt
  | req :: reqs =>
      match h !! req_Type req with
      | None => Fail (Errorf0 "action requires unknown resource type")
      | Some _ =>
          if (rank h (req_Type req) (req_Min req) =? 0)%nat
          then Fail (Errorf0 "action requires role not in the ladder")
          else validate_reqs h reqs
      end
  end.

Fixpoint validate_policy (h : Hierarchy) (entries : list (Action * list Requirement))
    : go unit :=
  match entries with
  | [] => Ret tt
  | (action, reqs) :: entries =>
      if String.eqb action "" then Fail (Errorf0 "policy has an empty action")
      else match reqs with
      | [] => Fail (Errorf0 "action has no requirements")
      | _ => _ ← validate_reqs h reqs; validate_policy h entries
      end
  end.

(** [range] visits a map in an arbitrary order: which of several faults is
    reported is not determined, whether one is reported is
    ([validate_correct]). *)
Definition validate (h : Hierarchy) (p : Policy)
    (h_order : list (string * list Role)) (p_order : list (Action * list Requirement))
    : go unit :=
  _ ← validate_hierarchy h_order; validate_policy h p_order.

(** ** The binding port (store.go) *)

Record Binding := MkBinding {
  b_Tenant : ID; b_Subject : Subject; b_Resource : Resource; b_Role : Role
}.

#[export] Instance Binding_eq_dec : EqDecision Binding.
Proof. solve_decision. Defined.

Record BindingStore := MkBindingStore {
  BindingsFor : ID -> Subject -> Resource -> go (list Binding);
  BindingsForSubject : ID -> Subject -> string -> go (list Binding);
  BindingsOnResource : ID -> Resource -> go (list Binding)
}.

(** ** The rank engine (rbac.go) *)

Record RBAC := MkRBAC { rb_store : BindingStore; rb_h : Hierarchy; rb_p : Policy }.

Definition NewRBAC (store : option BindingStore) (h : Hierarchy) (p : Policy) : go RBAC :=
  match store with
  | None => Fail (Errorf0 "authz: NewRBAC requires a BindingStore")
  | Some store =>
      _ ← validate h p (map_to_list h) (map_to_list p);
      Ret {| rb_store := store; rb_h := h; rb_p := p |}
  end.

(** The loop of [effective]. *)
Fixpoint best_role (h : Hierarchy) (tenantID : ID) (sub : Subject) (res : Resource)
    (bs : list Binding) (best : Role * nat) : Role * nat :=
  match bs with
  | [] => best
  | b :: bs =>
      if negb (bool_decide (b_Tenant b = tenantID)) ||
         negb (bool_decide (b_Subject b = sub)) ||
         negb (bool_decide (b_Resource b = res))
      then best_role h tenantID sub res bs best
      else
        let r := rank h (res_Type res) (b_Role b) in
        if (best.2 <? r)%nat then best_role h tenantID sub res bs (b_Role b, r)
        else best_role h tenantID sub res bs best
  end.

Definition effective (e : RBAC) (tenantID : ID) (sub : Subject) (res : Resource)
    : go (Role * nat) :=
  bs ← BindingsFor (rb_store e) tenantID sub res;
  Ret (best_role (rb_h e) tenantID sub res bs (EmptyString, 0%nat)).

(** The resource a requirement is evaluated on: the asked one, or the global
    singleton of the requirement's type. *)
Definition target_of (req : Requirement) (res : Resource) : Resource :=
  if negb (String.eqb (req_Type req) (res_Type res)) then MkResource (req_Type req) ""
  else res.

Fixpoint check_reqs (e : RBAC) (tenantID : ID) (sub : Subject) (res : Resource)
    (reqs : list Requirement) : go Decision :=
  match reqs with
  | [] => Ret (MkDecision false "no requirement satisfied")
  | req :: reqs =>
      best ← wrap_err (Errorf1 "authz: check") (effective e tenantID sub (target_of req res));
      if (rank (rb_h e) (req_Type req) (req_Min req) <=? best.2)%nat
      then Ret (MkDecision true "role satisfies")
      else check_reqs e tenantID sub res reqs
  end.

Definition RBAC_Check (e : RBAC) (tenantID : ID) (sub : Subject) (act : Action)
    (res : Resource) : go Decision :=
  _ ← gate tenantID sub;
  match rb_p e !! act with
  | None => Ret (MkDecision false "unknown action")
  | Some reqs => check_reqs e tenantID sub res reqs
  end.

Definition RBAC_CheckBulk (e : RBAC) (tenantID : ID) (reqs : list CheckRequest)
    : go (list Decision) :=
  _ ← scopeGate tenantID;
  go_map (fun r => RBAC_Check e tenantID (cr_Subject r) (cr_Action r) (cr_Resource r)) reqs.

(** First loop of [ListResources]: [(unbounded, lowest)]. *)
Fixpoint scan_reqs (e : RBAC) (tenantID : ID) (sub : Subject) (resourceType : string)
    (reqs : list Requirement) (unbounded : bool) (lowest : nat) : go (bool * nat) :=
  match reqs with
  | [] => Ret (unbounded, lowest)
  | req :: reqs =>
      if String.eqb (req_Type req) resourceType then
        let r := rank (rb_h e) resourceType (req_Min req) in
        scan_reqs e tenantID sub resourceType reqs unbounded
          (if (lowest =? 0)%nat || (r <? lowest)%nat then r else lowest)
      else if unbounded then scan_reqs e tenantID sub resourceType reqs unbounded lowest
      else
        best ← wrap_err (Errorf1 "authz: list resources for")
          (effective e tenantID sub (MkResource (req_Type req) ""));
        scan_reqs e tenantID sub resourceType reqs
          (rank (rb_h e) (req_Type req) (req_Min req) <=? best.2)%nat lowest
  end.

(** Second loop of [ListResources]. *)
Fixpoint collect_resources (h : Hierarchy) (tenantID : ID) (sub : Subject)
    (resourceType : string) (lowest : nat) (bs : list Binding)
    (seen : gset Resource) (out : list Resource) : list Resource :=
  match bs with
  | [] => out
  | b :: bs =>
      if negb (bool_decide (b_Tenant b = tenantID)) ||
         negb (bool_decide (b_Subject b = sub)) ||
         negb (String.eqb (res_Type (b_Resource b)) resourceType) ||
         String.eqb (res_ID (b_Resource b)) ""
      then collect_resources h tenantID sub resourceType lowest bs seen out
      else if (lowest <=? rank h resourceType (b_Role b))%nat
              && negb (bool_decide (b_Resource b ∈ seen))
      then collect_resources h tenantID sub resourceType lowest bs
             ({[b_Resource b]} ∪ seen) (out ++ [b_Resource b])
      else collect_resources h tenantID sub resourceType lowest bs seen out
  end.

Definition RBAC_ListResources (e : RBAC) (tenantID : ID) (sub : Subject) (act : Action)
    (resourceType : string) : go (list Resource * bool) :=
  _ ← gate tenantID sub;
  match rb_p e !! act with
  | None => Fail (Errorf0 "authz: unknown action")
  | Some reqs =>
      scan ← scan_reqs e tenantID sub resourceType reqs false 0;
      if (scan.2 =? 0)%nat then Ret ([], scan.1)
      else
        bs ← wrap_err (Errorf1 "authz: list resources for")
          (BindingsForSubject (rb_store e) tenantID sub resourceType);
        Ret (sort_by (fun r => [res_ID r])
               (collect_resources (rb_h e) tenantID sub resourceType scan.2 bs ∅ []), scan.1)
  end.

(** The inner loop of [ListSubjects], threading [seen] and [out]. *)
Fixpoint collect_subjects (h : Hierarchy) (tenantID : ID) (target : Resource)
    (minRank : nat) (bs : list Binding) (seen : gset Subject) (out : list Subject)
    : go (gset Subject * list Subject) :=
  match bs with
  | [] => Ret (seen, out)
  | b :: bs =>
      if negb (bool_decide (b_Tenant b = tenantID)) ||
         negb (bool_decide (b_Resource b = target))
      then collect_subjects h tenantID target minRank bs seen out
      else if (rank h (res_Type target) (b_Role b) <? minRank)%nat
              || bool_decide (b_Subject b ∈ seen)
      then collect_subjects h tenantID target minRank bs seen out
      else if negb (Valid (sub_Tenant (b_Subject b)))
      then Fail (tenant_required "the store returned subject with no home tenant")
      else collect_subjects h tenantID target minRank bs
             ({[b_Subject b]} ∪ seen) (out ++ [b_Subject b])
  end.

Fixpoint subjects_reqs (e : RBAC) (tenantID : ID) (res : Resource)
    (reqs : list Requirement) (seen : gset Subject) (out : list Subject)
    : go (list Subject) :=
  match reqs with
  | [] => Ret out
  | req :: reqs =>
      let target := target_of req res in
      bs ← wrap_err (Errorf1 "authz: list subjects for")
        (BindingsOnResource (rb_store e) tenantID target);
      acc ← collect_subjects (rb_h e) tenantID target
        (rank (rb_h e) (req_Type req) (req_Min req)) bs seen out;
      subjects_reqs e tenantID res reqs acc.1 acc.2
  end.

Definition subject_key (s : Subject) : list string :=
  [sub_Type s; sub_ID s; ID_String (sub_Tenant s)].
Definition sortSubjects (out : list Subject) : list Subject := sort_by subject_key out.

Definition RBAC_ListSubjects (e : RBAC) (tenantID : ID) (act : Action) (res : Resource)
    : go (list Subject * bool) :=
  _ ← scopeGate tenantID;
  match rb_p e !! act with
  | None => Fail (Errorf0 "authz: unknown action")
  | Some reqs =>
      out ← subjects_reqs e tenantID res reqs ∅ [];
      Ret (sortSubjects out, false)
  end.

(** ** Gates, ranks and validation *)

Lemma scopeGate_Ret t : scopeGate t = Ret tt <-> Valid t = true.
Proof. unfold scopeGate. by destruct (Valid t). Qed.

Lemma gate_Ret t sub :
  gate t sub = Ret tt <-> Valid t = true /\ Valid (sub_Tenant sub) = true.
Proof. unfold gate, scopeGate. by destruct (Valid t), (Valid (sub_Tenant sub)); cbn; intuition. Qed.

(** A refused question names no tenant, and the error says so. *)
Lemma gate_cases t sub :
  gate t sub = Ret tt \/ exists e, gate t sub = Fail e /\ errors_is e authz_ErrTenantRequired = true.
Proof.
  unfold gate, scopeGate. destruct (Valid t), (Valid (sub_Tenant sub)); cbn; eauto.
Qed.

Lemma rank_from_le i ladder r : (rank_from i ladder r <= i + length ladder)%nat.
Proof.
  revert i. induction ladder as [|c ladder IH]; intros i; cbn; [lia|].
  destruct (String.eqb c r); [lia|]. specialize (IH (S i)). lia.
Qed.

Lemma rank_from_pos i ladder r : (0 < rank_from i ladder r)%nat <-> r ∈ ladder.
Proof.
  revert i. induction ladder as [|c ladder IH]; intros i; cbn.
  - split; [lia|]. intros H. by apply not_elem_of_nil in H.
  - rewrite elem_of_cons. destruct (String.eqb_spec c r) as [->|Hne]; [naive_solver lia|].
    rewrite IH. naive_solver.
Qed.

(** The rank is the 1-based position of the role's first occurrence. *)
Lemma rank_from_spec i ladder r n : r ∈ ladder ->
  rank_from i ladder r = (i + n)%nat <->
  (0 < n)%nat /\ ladder !! (n - 1)%nat = Some r /\
  forall j, (j < n - 1)%nat -> ladder !! j <> Some r.
Proof.
  revert i n. induction ladder as [|c ladder IH]; intros i n Hin.
  { by apply not_elem_of_nil in Hin. }
  cbn. destruct (String.eqb_spec c r) as [->|Hne].
  - split.
    + intros Hn. assert (n = 1%nat) as -> by lia. cbn. split; [lia|]. split; [done|lia].
    + intros (Hn & _ & Hfirst). destruct (decide (n = 1%nat)) as [->|]; [lia|].
      destruct (Hfirst 0%nat); [lia|done].
  - assert (r ∈ ladder) as Hin' by (by apply elem_of_cons in Hin as [<-|]).
    destruct n as [|[|n]].
    + split; [|lia].
      assert (forall j, (j < rank_from j ladder r)%nat) as Hgt.
      { intros j. clear -Hin'. revert j. induction ladder as [|d ladder IH']; intros j.
        - by apply not_elem_of_nil in Hin'.
        - cbn. destruct (String.eqb_spec d r); [lia|].
          assert (r ∈ ladder) by (by apply elem_of_cons in Hin' as [<-|]).
          specialize (IH' H (S j)). lia. }
      specialize (Hgt (S i)). lia.
    + split; [|intros (_ & [= ?] & _); done].
      intros Hr. exfalso. replace (i + 1)%nat with (S i + 0)%nat in Hr by lia.
      apply IH in Hr as [Hr _]; [lia|done].
    + replace (i + S (S n))%nat with (S i + S n)%nat by lia. rewrite IH by done.
      replace (S (S n) - 1)%nat with (S n) by lia.
      replace (S n - 1)%nat with n by lia. cbn. split.
      * intros (_ & Hl & Hf). split; [lia|]. split; [done|].
        intros [|j] Hj; cbn; [congruence|]. apply Hf. lia.
      * intros (_ & Hl & Hf). split; [lia|]. split; [done|].
        intros j Hj. apply (Hf (S j)). lia.
Qed.

(** Roles not on the ladder, or of an unknown type, rank 0. *)
Lemma rank_zero h ty r : rank h ty r = 0%nat <-> r ∉ default [] (h !! ty).
Proof.
  unfold rank. pose proof (rank_from_pos 0 (default [] (h !! ty)) r) as H.
  split; [intros Hr Hin; apply H in Hin; lia|].
  intros Hn. destruct (rank_from 0 _ r) eqn:E; [done|]. exfalso. apply Hn, H. lia.
Qed.

(** Well-formed policies: what [validate] accepts. *)
Definition ladder_ok (ladder : list Role) : Prop :=
  ladder <> [] /\ NoDup ladder /\ ("" ∉ ladder).

Definition policy_ok (h : Hierarchy) (p : Policy) : Prop :=
  (forall ty ladder, h !! ty = Some ladder -> ty <> "" /\ ladder_ok ladder) /\
  (forall act reqs, p !! act = Some reqs -> act <> "" /\ reqs <> [] /\
     forall req, req ∈ reqs -> is_Some (h !! req_Type req) /\
       (0 < rank h (req_Type req) (req_Min req))%nat).

Lemma validate_ladder_Ret seen ladder :
  validate_ladder seen ladder = Ret tt <->
  NoDup ladder /\ ("" ∉ ladder) /\ forall r, r ∈ ladder -> r ∉ seen.
Proof.
  revert seen. induction ladder as [|r ladder IH]; intros seen; cbn.
  { split; [|done]. intros _. split; [constructor|]. split; [set_solver|set_solver]. }
  rewrite NoDup_cons. destruct (String.eqb_spec r "") as [->|Hr]; [set_solver|].
  case_bool_decide as Hs; [set_solver|]. rewrite IH. set_solver.
Qed.

Lemma validate_hierarchy_Ret entries :
  validate_hierarchy entries = Ret tt <->
  forall ty ladder, (ty, ladder) ∈ entries -> ty <> "" /\ ladder_ok ladder.
Proof.
  induction entries as [|[ty ladder] entries IH]; cbn.
  { split; [|done]. intros _ ?? H. by apply not_elem_of_nil in H. }
  destruct (String.eqb_spec ty "") as [->|Hty].
  { split; [done|]. intros H. by destruct (H "" ladder) as [? _]; [left|]. }
  destruct ladder as [|r ladder].
  { split; [done|]. intros H. by destruct (H ty []) as [_ [? _]]; [left|]. }
  destruct (validate_ladder ∅ (r :: ladder)) as [[]|e|w] eqn:Hv; go_simpl.
  - apply validate_ladder_Ret in Hv as (Hnd & Hne & _). rewrite IH. split.
    + intros H ty' l [[= -> ->]|Hin]%elem_of_cons; [by repeat split|by apply H].
    + intros H ty' l Hin. apply H. by right.
  - split; [done|]. intros H. destruct (H ty (r :: ladder)) as (_ & _ & Hnd & Hne); [by left|].
    assert (validate_ladder ∅ (r :: ladder) = Ret tt); [|congruence].
    apply validate_ladder_Ret. split; [done|]. split; [done|]. set_solver.
  - split; [done|]. intros H. destruct (H ty (r :: ladder)) as (_ & _ & Hnd & Hne); [by left|].
    assert (validate_ladder ∅ (r :: ladder) = Ret tt); [|congruence].
    apply validate_ladder_Ret. split; [done|]. split; [done|]. set_solver.
Qed.

Lemma validate_reqs_Ret h reqs :
  validate_reqs h reqs = Ret tt <->
  forall req, req ∈ reqs -> is_Some (h !! req_Type req) /\
    (0 < rank h (req_Type req) (req_Min req))%nat.
Proof.
  induction reqs as [|req reqs IH]; cbn.
  { split; [|done]. intros _ ? H. by apply not_elem_of_nil in H. }
  destruct (h !! req_Type req) as [l|] eqn:Hl.
  2: { split; [done|]. intros H. destruct (H req) as [[? ?] _]; [by left|congruence]. }
  destruct (Nat.eqb_spec (rank h (req_Type req) (req_Min req)) 0) as [Hr|Hr].
  { split; [done|]. intros H. destruct (H req) as [_ ?]; [by left|lia]. }
  rewrite IH. split.
  - intros H req' [->|Hin]%elem_of_cons; [|by apply H]. split; [by eexists|lia].
  - intros H req' Hin. apply H. by right.
Qed.

Lemma validate_policy_Ret h entries :
  validate_policy h entries = Ret tt <->
  forall act reqs, (act, reqs) ∈ entries -> act <> "" /\ reqs <> [] /\
    forall req, req ∈ reqs -> is_Some (h !! req_Type req) /\
      (0 < rank h (req_Type req) (req_Min req))%nat.
Proof.
  induction entries as [|[act reqs] entries IH]; cbn.
  { split; [|done]. intros _ ?? H. by apply not_elem_of_nil in H. }
  destruct (String.eqb_spec act "") as [->|Ha].
  { split; [done|]. intros H. by destruct (H "" reqs) as [? _]; [left|]. }
  destruct reqs as [|r reqs].
  { split; [done|]. intros H. by destruct (H act []) as (_ & ? & _); [left|]. }
  pose proof (validate_reqs_Ret h (r :: reqs)) as Hr.
  destruct (validate_reqs h (r :: reqs)) as [[]|e|w] eqn:Hv; go_simpl.
  - rewrite IH. split.
    + intros H act' l [[= -> ->]|Hin]%elem_of_cons; [|by apply H].
      split; [done|]. split; [done|]. by apply Hr.
    + intros H act' l Hin. apply H. by right.
  - split; [done|]. intros H. destruct (H act (r :: reqs)) as (_ & _ & Hq); [by left|].
    apply Hr in Hq. congruence.
  - split; [done|]. intros H. destruct (H act (r :: reqs)) as (_ & _ & Hq); [by left|].
    apply Hr in Hq. congruence.
Qed.

(** ** Grants, abstractly *)

(** The binding table [B] grants [act] on [res] to [sub] in scope [t]: some
    requirement of the action is met by a binding of exactly this scope,
    subject (home tenant included) and target. *)
Definition meets (h : Hierarchy) (t : ID) (sub : Subject) (res : Resource)
    (req : Requirement) (b : Binding) : Prop :=
  b_Tenant b = t /\ b_Subject b = sub /\ b_Resource b = target_of req res /\
  (rank h (req_Type req) (req_Min req) <= rank h (req_Type req) (b_Role b))%nat.

Definition granted (h : Hierarchy) (p : Policy) (B : list Binding) (t : ID)
    (sub : Subject) (act : Action) (res : Resource) : Prop :=
  exists reqs req b, p !! act = Some reqs /\ req ∈ reqs /\ b ∈ B /\
    meets h t sub res req b.

(** What the engine relies on a store for: on well-formed questions it answers
    with exactly the bindings of the table [B] that the isolation contract
    names, and no binding of [B] has a subject without a home tenant. *)
Class Represents (B : list Binding) (st : BindingStore) := {
  rep_for : forall t sub res, gate t sub = Ret tt ->
    exists l, BindingsFor st t sub res = Ret l /\
      forall b, b ∈ l <-> b ∈ B /\ b_Tenant b = t /\ b_Subject b = sub /\ b_Resource b = res;
  rep_subject : forall t sub ty, gate t sub = Ret tt ->
    exists l, BindingsForSubject st t sub ty = Ret l /\
      forall b, b ∈ l <-> b ∈ B /\ b_Tenant b = t /\ b_Subject b = sub /\
        res_Type (b_Resource b) = ty /\ res_ID (b_Resource b) <> "";
  rep_resource : forall t res, scopeGate t = Ret tt ->
    exists l, BindingsOnResource st t res = Ret l /\
      forall b, b ∈ l <-> b ∈ B /\ b_Tenant b = t /\ b_Resource b = res;
  rep_home : forall b, b ∈ B -> Valid (sub_Tenant (b_Subject b)) = true
}.

Lemma target_of_type req res : res_Type (target_of req res) = req_Type req.
Proof. unfold target_of. by destruct (String.eqb_spec (req_Type req) (res_Type res)). Qed.

Lemma best_role_ge h t sub res bs best n :
  (n <= (best_role h t sub res bs best).2)%nat <->
  (n <= best.2)%nat \/
  exists b, b ∈ bs /\ b_Tenant b = t /\ b_Subject b = sub /\ b_Resource b = res /\
    (n <= rank h (res_Type res) (b_Role b))%nat.
Proof.
  revert best. induction bs as [|b bs IH]; intros best; cbn [best_role].
  { split; [by left|]. intros [?|(b & Hb & _)]; [done|]. by apply not_elem_of_nil in Hb. }
  assert (Hskip : (n <= (best_role h t sub res bs best).2)%nat <->
     (n <= best.2)%nat \/ exists b', b' ∈ bs /\ b_Tenant b' = t /\ b_Subject b' = sub /\
       b_Resource b' = res /\ (n <= rank h (res_Type res) (b_Role b'))%nat) by apply IH.
  destruct (decide (b_Tenant b = t /\ b_Subject b = sub /\ b_Resource b = res))
    as [(H1 & H2 & H3)|Hno].
  - rewrite !bool_decide_true by done. cbn [negb orb].
    destruct (Nat.ltb_spec best.2 (rank h (res_Type res) (b_Role b))) as [Hlt|Hge].
    + rewrite IH. cbn [snd]. split.
      * intros [Hn|(b' & Hb' & Hrest)].
        -- right. exists b. split; [by left|done].
        -- right. exists b'. split; [by right|done].
      * intros [Hn|(b' & [->|Hb']%elem_of_cons & Hrest)].
        -- left. lia.
        -- left. apply Hrest.
        -- right. by exists b'.
    + rewrite Hskip. split.
      * intros [Hn|(b' & Hb' & Hrest)]; [by left|right]. exists b'. split; [by right|done].
      * intros [Hn|(b' & [->|Hb']%elem_of_cons & Hrest)]; [by left| |].
        -- left. destruct Hrest as (_ & _ & _ & Hn). lia.
        -- right. by exists b'.
  - assert (negb (bool_decide (b_Tenant b = t)) || negb (bool_decide (b_Subject b = sub))
      || negb (bool_decide (b_Resource b = res)) = true) as ->.
    { repeat case_bool_decide; cbn; tauto. }
    rewrite Hskip. split.
    + intros [Hn|(b' & Hb' & Hrest)]; [by left|right]. exists b'. split; [by right|done].
    + intros [Hn|(b' & [->|Hb']%elem_of_cons & Hrest)]; [by left| |].
      * destruct Hno. tauto.
      * right. by exists b'.
Qed.

Section engine.
Context (e : RBAC).
Local Abbreviation h := (rb_h e).
Local Abbreviation p := (rb_p e).

(** A requirement of the policy is met through the store's answer exactly when
    a binding meets it; the engine's own filter makes this true of any store. *)
Lemma effective_meets t sub res req best :
  (0 < rank h (req_Type req) (req_Min req))%nat ->
  effective e t sub (target_of req res) = Ret best ->
  exists l, BindingsFor (rb_store e) t sub (target_of req res) = Ret l /\
  ((rank h (req_Type req) (req_Min req) <= best.2)%nat <->
   exists b, b ∈ l /\ meets h t sub res req b).
Proof.
  unfold effective. intros Hpos (l & Hl & Hb)%go_bind_Ret_inv. exists l. split; [done|].
  injection Hb as <-. rewrite best_role_ge, target_of_type. cbn. split.
  - intros [?|(b & Hin & Hb)]; [lia|]. by exists b.
  - intros (b & Hin & Hb). right. by exists b.
Qed.

Lemma check_reqs_Ret t sub res reqs d :
  (forall req, req ∈ reqs -> (0 < rank h (req_Type req) (req_Min req))%nat) ->
  check_reqs e t sub res reqs = Ret d ->
  (Allowed d = true ->
     exists req l b, req ∈ reqs /\
       BindingsFor (rb_store e) t sub (target_of req res) = Ret l /\
       b ∈ l /\ meets h t sub res req b) /\
  (Allowed d = false ->
     forall req, req ∈ reqs -> exists l,
       BindingsFor (rb_store e) t sub (target_of req res) = Ret l /\
       forall b, b ∈ l -> ~ meets h t sub res req b).
Proof.
  induction reqs as [|req reqs IH]; intros Hpos; cbn [check_reqs].
  { intros [= <-]. split; [done|]. intros _ req Hin. by apply not_elem_of_nil in Hin. }
  intros (best & Hbest%wrap_err_Ret_inv & Hk)%go_bind_Ret_inv.
  destruct (effective_meets t sub res req best) as (l & Hl & Hiff);
    [apply Hpos; by left|done|].
  destruct (Nat.leb_spec (rank h (req_Type req) (req_Min req)) best.2) as [Hle|Hgt].
  - injection Hk as <-. split; [|done]. intros _.
    apply Hiff in Hle as (b & Hb & Hm). exists req, l, b. split; [by left|done].
  - apply IH in Hk as [Ha Hd]; [|intros req' ?; apply Hpos; by right]. split.
    + intros (req' & l' & b & Hin & Hrest)%Ha. exists req', l', b. split; [by right|done].
    + intros Hf req' [->|Hin]%elem_of_cons; [|by apply Hd].
      exists l. split; [done|]. intros b Hb Hm.
      assert (rank h (req_Type req) (req_Min req) <= best.2)%nat; [|lia].
      apply Hiff. by exists b.
Qed.

Lemma check_reqs_total B `{!Represents B (rb_store e)} t sub res reqs :
  gate t sub = Ret tt -> exists d, check_reqs e t sub res reqs = Ret d.
Proof.
  intros Hg. induction reqs as [|req reqs [d IH]]; cbn [check_reqs]; [by eexists|].
  unfold effective. destruct (rep_for t sub (target_of req res) Hg) as (l & -> & _).
  go_simpl. destruct (_ <=? _)%nat; [by eexists|]. by exists d.
Qed.

(** Every requirement of a validated policy has a positive rank. *)
Lemma policy_rank_pos act reqs req :
  policy_ok h p -> p !! act = Some reqs -> req ∈ reqs ->
  (0 < rank h (req_Type req) (req_Min req))%nat.
Proof. intros [_ Hp] Ha Hr. destruct (Hp _ _ Ha) as (_ & _ & H). by apply H. Qed.

Lemma RBAC_Check_table B `{!Represents B (rb_store e)} t sub act res :
  policy_ok h p -> gate t sub = Ret tt ->
  exists d, RBAC_Check e t sub act res = Ret d /\
    (Allowed d = true <-> granted h p B t sub act res).
Proof.
  intros Hok Hg. unfold RBAC_Check. rewrite Hg. go_simpl.
  destruct (p !! act) as [reqs|] eqn:Ha.
  2: { eexists. split; [done|]. split; [done|]. intros (reqs & req & b & ? & _). congruence. }
  destruct (check_reqs_total B t sub res reqs Hg) as [d Hd]. rewrite Hd.
  exists d. split; [done|].
  apply check_reqs_Ret in Hd as [Hyes Hno]; [|by intros; eapply policy_rank_pos].
  split.
  - intros (req & l & b & Hin & Hl & Hb & Hm)%Hyes. exists reqs, req, b.
    do 2 (split; [done|]). split; [|done].
    destruct (rep_for t sub (target_of req res) Hg) as (l' & Hl' & Hiff).
    assert (l' = l) as -> by congruence. by apply Hiff in Hb as [? _].
  - intros (reqs' & req & b & Hreqs & Hin & HB & Hm). simplify_eq.
    destruct (Allowed d); [done|]. exfalso.
    destruct (Hno eq_refl req Hin) as (l & Hl & Hnone).
    destruct (rep_for t sub (target_of req res) Hg) as (l' & Hl' & Hiff).
    assert (l' = l) as -> by congruence. apply (Hnone b); [|done].
    apply Hiff. destruct Hm as (? & ? & ? & _). done.
Qed.

(** *** ListResources *)

Definition ratch (lowest r : nat) : nat :=
  if (lowest =? 0)%nat || (r <? lowest)%nat then r else lowest.

(** What the requirement scan computes. *)
Lemma scan_reqs_table B `{!Represents B (rb_store e)} t sub ty reqs ub low :
  gate t sub = Ret tt ->
  (forall req, req ∈ reqs -> (0 < rank h (req_Type req) (req_Min req))%nat) ->
  exists ub' low', scan_reqs e t sub ty reqs ub low = Ret (ub', low') /\
    (ub' = true <-> ub = true \/ exists req b, req ∈ reqs /\ req_Type req <> ty /\ b ∈ B /\
       b_Tenant b = t /\ b_Subject b = sub /\ b_Resource b = MkResource (req_Type req) "" /\
       (rank h (req_Type req) (req_Min req) <= rank h (req_Type req) (b_Role b))%nat) /\
    (forall n, (0 < n)%nat -> (0 < low' <= n)%nat <->
       (0 < low <= n)%nat \/ exists req, req ∈ reqs /\ req_Type req = ty /\
         (rank h ty (req_Min req) <= n)%nat).
Proof.
  intros Hg. revert ub low. induction reqs as [|req reqs IH]; intros ub low Hpos.
  { exists ub, low. split; [done|]. split.
    - split; [by left|]. intros [?|(req & b & Hin & _)]; [done|]. by apply not_elem_of_nil in Hin.
    - intros n Hn. split; [by left|]. intros [?|(req & Hin & _)]; [done|].
      by apply not_elem_of_nil in Hin. }
  cbn [scan_reqs].
  assert (0 < rank h (req_Type req) (req_Min req))%nat as Hr by (apply Hpos; by left).
  assert (forall req', req' ∈ reqs -> (0 < rank h (req_Type req') (req_Min req'))%nat) as Hpos'
    by (intros req' ?; apply Hpos; by right).
  destruct (String.eqb_spec (req_Type req) ty) as [Hty|Hty].
  - destruct (IH ub (ratch low (rank h ty (req_Min req))) Hpos') as (ub' & low' & Heq & Hub & Hlow).
    exists ub', low'. split; [exact Heq|]. split.
    + rewrite Hub. split; (intros [?|(q & b & Hin & Hrest)]; [by left|right; exists q, b]).
      * split; [by right|done].
      * apply elem_of_cons in Hin as [->|Hin]; [by destruct Hrest|by split].
    + intros n Hn. rewrite (Hlow n Hn). clear Hlow IH. rewrite Hty in Hr.
      assert ((0 < ratch low (rank h ty (req_Min req)) <= n)%nat <->
        (0 < low <= n)%nat \/ (rank h ty (req_Min req) <= n)%nat) as ->.
      { unfold ratch. destruct (Nat.eqb_spec low 0), (Nat.ltb_spec (rank h ty (req_Min req)) low);
          cbn; lia. }
      split.
      * intros [[?|?]|(q & Hin & Hrest)]; [by left|right; exists req|right; exists q].
        -- split; [by left|done].
        -- split; [by right|done].
      * intros [?|(q & [->|Hin]%elem_of_cons & Hqt & Hq)]; [by left; left|by left; right|].
        right. by exists q.
  - assert (Hskip : forall ub0, (ub0 = true <-> ub = true \/ exists b, b ∈ B /\
        b_Tenant b = t /\ b_Subject b = sub /\ b_Resource b = MkResource (req_Type req) "" /\
        (rank h (req_Type req) (req_Min req) <= rank h (req_Type req) (b_Role b))%nat) ->
      exists ub' low', scan_reqs e t sub ty reqs ub0 low = Ret (ub', low') /\
        (ub' = true <-> ub = true \/ exists q b, q ∈ req :: reqs /\ req_Type q <> ty /\ b ∈ B /\
          b_Tenant b = t /\ b_Subject b = sub /\ b_Resource b = MkResource (req_Type q) "" /\
          (rank h (req_Type q) (req_Min q) <= rank h (req_Type q) (b_Role b))%nat) /\
        (forall n, (0 < n)%nat -> (0 < low' <= n)%nat <->
          (0 < low <= n)%nat \/ exists q, q ∈ req :: reqs /\ req_Type q = ty /\
            (rank h ty (req_Min q) <= n)%nat)).
    { intros ub0 Hub0. destruct (IH ub0 low Hpos') as (ub' & low' & Heq & Hub & Hlow).
      exists ub', low'. split; [done|]. split.
      - rewrite Hub, Hub0. clear Hub Hub0 Hlow. split.
        + intros [[?|(b & Hb)]|(q & b & Hin & Hrest)]; [by left|right; exists req, b|right; exists q, b].
          * split; [by left|done].
          * split; [by right|done].
        + intros [?|(q & b & [->|Hin]%elem_of_cons & Hqt & Hq)]; [by left; left| |].
          * left; right. by exists b.
          * right. by exists q, b.
      - intros n Hn. rewrite (Hlow n Hn). split.
        + intros [?|(q & Hin & Hrest)]; [by left|right; exists q; split; [by right|done]].
        + intros [?|(q & [->|Hin]%elem_of_cons & Hrest)]; [by left|by destruct Hrest|].
          right. by exists q. }
    destruct ub.
    + apply Hskip. split; [by left|done].
    + unfold effective.
      destruct (rep_for t sub (MkResource (req_Type req) "") Hg) as (l & -> & Hl). go_simpl.
      apply Hskip. rewrite Nat.leb_le, best_role_ge. cbn. split.
      * intros [?|(b & Hb & Hrest)]; [lia|right]. exists b. apply Hl in Hb. tauto.
      * intros [?|(b & HB & Ht & Hs & Hres & Hrank)]; [done|right]. exists b.
        rewrite Hl. tauto.
Qed.

Lemma elem_of_collect_resources t sub ty low bs seen out r :
  (forall x, x ∈ out <-> x ∈ seen) ->
  r ∈ collect_resources h t sub ty low bs seen out <->
  r ∈ out \/ exists b, b ∈ bs /\ b_Tenant b = t /\ b_Subject b = sub /\
    b_Resource b = r /\ res_Type r = ty /\ res_ID r <> "" /\ (low <= rank h ty (b_Role b))%nat.
Proof.
  revert seen out. induction bs as [|b bs IH]; intros seen out Hinv; cbn [collect_resources].
  { split; [by left|]. intros [?|(b & Hb & _)]; [done|]. by apply not_elem_of_nil in Hb. }
  assert (Hskip : ~ (b_Tenant b = t /\ b_Subject b = sub /\ b_Resource b = r /\
      res_Type r = ty /\ res_ID r <> "" /\ (low <= rank h ty (b_Role b))%nat /\ r ∉ out) ->
    r ∈ collect_resources h t sub ty low bs seen out <->
    r ∈ out \/ exists b', b' ∈ b :: bs /\ b_Tenant b' = t /\ b_Subject b' = sub /\
      b_Resource b' = r /\ res_Type r = ty /\ res_ID r <> "" /\ (low <= rank h ty (b_Role b'))%nat).
  { intros Hno. rewrite (IH _ _ Hinv). split.
    - intros [?|(b' & Hb' & Hrest)]; [by left|right]. exists b'. split; [by right|done].
    - intros [?|(b' & [->|Hb']%elem_of_cons & Hrest)]; [by left| |].
      + left. destruct (decide (r ∈ out)); [done|]. destruct Hno. tauto.
      + right. by exists b'. }
  destruct (bool_decide_reflect (b_Tenant b = t)) as [Ht|Ht]; cbn [negb orb];
    [|apply Hskip; tauto].
  destruct (bool_decide_reflect (b_Subject b = sub)) as [Hs|Hs]; cbn [negb orb];
    [|apply Hskip; tauto].
  destruct (String.eqb_spec (res_Type (b_Resource b)) ty) as [Hty|Hty]; cbn [negb orb];
    [|apply Hskip; intros (_ & _ & <- & ? & _); done].
  destruct (String.eqb_spec (res_ID (b_Resource b)) "") as [Hid|Hid]; cbn [negb orb];
    [apply Hskip; intros (_ & _ & <- & _ & ? & _); done|].
  destruct (Nat.leb_spec low (rank h ty (b_Role b))) as [Hlow|Hlow]; cbn [andb];
    [|apply Hskip; lia].
  destruct (bool_decide_reflect (b_Resource b ∈ seen)) as [Hseen|Hseen]; cbn [negb].
  { apply Hskip. intros (_ & _ & <- & _ & _ & _ & Hn). by apply Hn, Hinv. }
  rewrite IH by set_solver. rewrite elem_of_app, list_elem_of_singleton. split.
  - intros [[?|Hr]|(b' & Hb' & Hrest)]; [by left|right; exists b|right; exists b'].
    + subst r. split; [by left|done].
    + split; [by right|done].
  - intros [?|(b' & [->|Hb']%elem_of_cons & Hrest)]; [by left; left| |].
    + left; right. destruct Hrest as (_ & _ & ? & _). done.
    + right. by exists b'.
Qed.

Lemma collect_resources_NoDup t sub ty low bs seen out :
  (forall x, x ∈ out -> x ∈ seen) -> NoDup out ->
  NoDup (collect_resources h t sub ty low bs seen out).
Proof.
  revert seen out. induction bs as [|b bs IH]; intros seen out Hinv Hnd;
    cbn [collect_resources]; [done|].
  destruct (_ || _); [by apply IH|].
  destruct (_ <=? _)%nat; cbn [andb]; [|by apply IH].
  case_bool_decide as Hseen; cbn [negb]; [by apply IH|].
  apply IH.
  - intros x [Hx| ->%list_elem_of_singleton]%elem_of_app; set_solver.
  - apply NoDup_app. split; [done|]. split; [set_solver|apply NoDup_singleton].
Qed.

Lemma RBAC_ListResources_table B `{!Represents B (rb_store e)} t sub act ty reqs :
  policy_ok h p -> gate t sub = Ret tt -> p !! act = Some reqs ->
  exists rs ub, RBAC_ListResources e t sub act ty = Ret (rs, ub) /\
    StronglySorted (key_le (fun r => [res_ID r])) rs /\ NoDup rs /\
    (forall r, r ∈ rs -> res_Type r = ty /\ res_ID r <> "") /\
    (forall id, id <> "" ->
       granted h p B t sub act (MkResource ty id) <-> ub = true \/ MkResource ty id ∈ rs).
Proof.
  intros Hok Hg Ha. unfold RBAC_ListResources. rewrite Hg, Ha. go_simpl.
  destruct (scan_reqs_table B t sub ty reqs false 0 Hg) as (ub & low & -> & Hub & Hlow);
    [by intros; eapply policy_rank_pos|].
  go_simpl. cbn [fst snd].
  assert (Hsplit : forall id, granted h p B t sub act (MkResource ty id) <->
    ub = true \/ exists b, b ∈ B /\ b_Tenant b = t /\ b_Subject b = sub /\
      b_Resource b = MkResource ty id /\ (0 < low <= rank h ty (b_Role b))%nat).
  { intros id. unfold granted, meets, target_of. cbn [res_Type]. split.
    - intros (reqs' & req & b & Hr' & Hin & HB & Ht & Hs & Hres & Hrank).
      assert (reqs' = reqs) as -> by congruence.
      destruct (String.eqb_spec (req_Type req) ty) as [Hty|Hty]; cbn [negb] in Hres.
      + right. exists b. do 4 (split; [done|]). rewrite Hty in Hrank.
        assert (0 < rank h (req_Type req) (req_Min req))%nat by (by eapply policy_rank_pos).
        rewrite Hty in *. apply Hlow; [lia|]. right. by exists req.
      + left. apply Hub. right. by exists req, b.
    - intros [[|(req & b & Hin & Hty & HB & Ht & Hs & Hres & Hrank)]%Hub|
        (b & HB & Ht & Hs & Hres & Hrank)]; [done| |].
      + exists reqs, req, b. rewrite (proj2 (String.eqb_neq _ _) Hty). by cbn.
      + apply Hlow in Hrank as [|(req & Hin & Hty & Hrank)]; [lia| |lia].
        exists reqs, req, b. rewrite (proj2 (String.eqb_eq _ _) Hty), Hty. by cbn. }
  destruct (Nat.eqb_spec low 0) as [->|Hlow0].
  { exists [], ub. split; [done|]. split; [constructor|]. split; [constructor|].
    split; [by intros r Hr%not_elem_of_nil|]. intros id Hid. rewrite Hsplit. split.
    - intros [?|(b & _ & _ & _ & _ & ? & _)]; [by left|lia].
    - intros [?|Hr%not_elem_of_nil]; [by left|done]. }
  destruct (rep_subject t sub ty Hg) as (bs & -> & Hbs). go_simpl.
  eexists _, ub. split; [done|]. split; [apply sort_by_Sorted|].
  split; [rewrite sort_by_Permutation; apply collect_resources_NoDup; [set_solver|constructor]|].
  assert (Hc : forall r, r ∈ collect_resources h t sub ty low bs ∅ [] <->
    exists b, b ∈ bs /\ b_Tenant b = t /\ b_Subject b = sub /\ b_Resource b = r /\
      res_Type r = ty /\ res_ID r <> "" /\ (low <= rank h ty (b_Role b))%nat).
  { intros r. rewrite elem_of_collect_resources by set_solver. set_solver. }
  split.
  - intros r. rewrite elem_of_sort_by, Hc. by intros (b & _ & _ & _ & _ & ? & ? & _).
  - intros id Hid. rewrite Hsplit, elem_of_sort_by, Hc. split.
    + intros [?|(b & HB & Ht & Hs & Hres & Hrank)]; [by left|right].
      exists b. rewrite Hbs, Hres. cbn. repeat split; try done. lia.
    + intros [?|(b & (HB & _)%Hbs & Ht & Hs & Hres & _ & _ & Hrank)]; [by left|right].
      exists b. repeat split; try done. lia.
Qed.

(** *** ListSubjects *)

Lemma collect_subjects_table t target n bs seen out :
  (forall b, b ∈ bs -> Valid (sub_Tenant (b_Subject b)) = true) ->
  (forall x, x ∈ out <-> x ∈ seen) -> NoDup out ->
  exists seen' out', collect_subjects h t target n bs seen out = Ret (seen', out') /\
    (forall x, x ∈ out' <-> x ∈ seen') /\ NoDup out' /\
    (forall s, s ∈ out' <-> s ∈ out \/ exists b, b ∈ bs /\ b_Tenant b = t /\
       b_Resource b = target /\ b_Subject b = s /\
       (n <= rank h (res_Type target) (b_Role b))%nat).
Proof.
  revert seen out. induction bs as [|b bs IH]; intros seen out Hv Hinv Hnd;
    cbn [collect_subjects].
  { exists seen, out. do 3 (split; [done|]). intros s. split; [by left|].
    intros [?|(b & Hb & _)]; [done|]. by apply not_elem_of_nil in Hb. }
  assert (Hv' : forall b', b' ∈ bs -> Valid (sub_Tenant (b_Subject b')) = true)
    by (intros b' ?; apply Hv; by right).
  assert (Hskip : ~ (b_Tenant b = t /\ b_Resource b = target /\
      (n <= rank h (res_Type target) (b_Role b))%nat /\ b_Subject b ∉ out) ->
    exists seen' out', collect_subjects h t target n bs seen out = Ret (seen', out') /\
    (forall x, x ∈ out' <-> x ∈ seen') /\ NoDup out' /\
    (forall s, s ∈ out' <-> s ∈ out \/ exists b', b' ∈ b :: bs /\ b_Tenant b' = t /\
       b_Resource b' = target /\ b_Subject b' = s /\
       (n <= rank h (res_Type target) (b_Role b'))%nat)).
  { intros Hno. destruct (IH seen out Hv' Hinv Hnd) as (seen' & out' & Heq & Hi & Hn & Hs).
    exists seen', out'. do 3 (split; [done|]). intros s. rewrite Hs. split.
    - intros [?|(b' & Hb' & Hrest)]; [by left|right]. exists b'. split; [by right|done].
    - intros [?|(b' & [->|Hb']%elem_of_cons & H1 & H2 & <- & H3)]; [by left| |].
      + left. destruct (decide (b_Subject b ∈ out)); [done|]. destruct Hno. tauto.
      + right. by exists b'. }
  destruct (bool_decide_reflect (b_Tenant b = t)) as [Ht|Ht]; cbn [negb orb];
    [|apply Hskip; tauto].
  destruct (bool_decide_reflect (b_Resource b = target)) as [Hr|Hr]; cbn [negb orb];
    [|apply Hskip; tauto].
  destruct (Nat.ltb_spec (rank h (res_Type target) (b_Role b)) n) as [Hlt|Hge]; cbn [orb];
    [apply Hskip; lia|].
  destruct (bool_decide_reflect (b_Subject b ∈ seen)) as [Hseen|Hseen].
  { apply Hskip. intros (_ & _ & _ & Hn). by apply Hn, Hinv. }
  rewrite (Hv b) by (by left). cbn [negb].
  destruct (IH ({[b_Subject b]} ∪ seen) (out ++ [b_Subject b]) Hv')
    as (seen' & out' & Heq & Hi & Hn & Hs).
  { set_solver. }
  { apply NoDup_app. split; [done|]. split; [set_solver|apply NoDup_singleton]. }
  exists seen', out'. do 3 (split; [done|]). intros s. rewrite Hs, elem_of_app,
    list_elem_of_singleton. split.
  - intros [[?| ->]|(b' & Hb' & Hrest)]; [by left|right; exists b|right; exists b'].
    + split; [by left|done].
    + split; [by right|done].
  - intros [?|(b' & [->|Hb']%elem_of_cons & Hrest)]; [by left; left| |].
    + left; right. by destruct Hrest as (_ & _ & ? & _).
    + right. by exists b'.
Qed.

Lemma subjects_reqs_table B `{!Represents B (rb_store e)} t res reqs seen out :
  scopeGate t = Ret tt ->
  (forall x, x ∈ out <-> x ∈ seen) -> NoDup out ->
  exists out', subjects_reqs e t res reqs seen out = Ret out' /\ NoDup out' /\
    (forall s, s ∈ out' <-> s ∈ out \/
       exists req b, req ∈ reqs /\ b ∈ B /\ meets h t s res req b).
Proof.
  intros Hg. revert seen out. induction reqs as [|req reqs IH]; intros seen out Hinv Hnd;
    cbn [subjects_reqs].
  { exists out. do 2 (split; [done|]). intros s. split; [by left|].
    intros [?|(req & b & Hin & _)]; [done|]. by apply not_elem_of_nil in Hin. }
  destruct (rep_resource t (target_of req res) Hg) as (bs & -> & Hbs). go_simpl.
  destruct (collect_subjects_table t (target_of req res)
    (rank h (req_Type req) (req_Min req)) bs seen out) as (seen' & out' & -> & Hi & Hn & Hs);
    [|done|done|].
  { intros b Hb. apply Hbs in Hb as [Hb _]. by eapply rep_home. }
  go_simpl. destruct (IH seen' out' Hi Hn) as (out'' & Heq & Hn' & Hs').
  exists out''. do 2 (split; [done|]). intros s. rewrite Hs', Hs, target_of_type.
  unfold meets. split.
  - intros [[?|(b & Hb & Hrest)]|(q & b & Hin & Hrest)]; [by left|right|right].
    + exists req, b. apply Hbs in Hb. split; [by left|]. tauto.
    + exists q, b. split; [by right|done].
  - intros [?|(q & b & [->|Hin]%elem_of_cons & HB & Hrest)]; [by left; left| |].
    + left; right. exists b. rewrite Hbs. tauto.
    + right. by exists q, b.
Qed.

Lemma RBAC_ListSubjects_table B `{!Represents B (rb_store e)} t act res reqs :
  scopeGate t = Ret tt -> p !! act = Some reqs ->
  exists subs, RBAC_ListSubjects e t act res = Ret (subs, false) /\
    StronglySorted (key_le subject_key) subs /\ NoDup subs /\
    forall s, s ∈ subs <-> granted h p B t s act res.
Proof.
  intros Hg Ha. unfold RBAC_ListSubjects. rewrite Hg, Ha. go_simpl.
  destruct (subjects_reqs_table B t res reqs ∅ [] Hg) as (out & -> & Hn & Hs);
    [set_solver|constructor|].
  go_simpl. eexists. split; [done|]. unfold sortSubjects. split; [apply sort_by_Sorted|].
  split; [by rewrite sort_by_Permutation|]. intros s. rewrite elem_of_sort_by, Hs.
  unfold granted. set_solver.
Qed.
End engine.

(** ** Property of construction *)

(** C20: Validation accepts exactly the well-formed policies (non-empty
    duplicate-free ladders of non-empty roles under non-empty types; non-empty
    actions with requirements whose minimum is on the ladder of a known type),
    in whatever order the two maps are ranged over. *)
Theorem validate_correct (h : Hierarchy) (p : Policy) h_order p_order :
  h_order ≡ₚ map_to_list h -> p_order ≡ₚ map_to_list p ->
  validate h p h_order p_order = Ret tt <-> policy_ok h p.
Proof.
  intros Hh Hp. unfold validate, policy_ok.
  assert (forall ty l, (ty, l) ∈ h_order <-> h !! ty = Some l) as Hhe
    by (intros; by rewrite Hh, elem_of_map_to_list).
  assert (forall a rs, (a, rs) ∈ p_order <-> p !! a = Some rs) as Hpe
    by (intros; by rewrite Hp, elem_of_map_to_list).
  setoid_rewrite <- Hhe. setoid_rewrite <- Hpe.
  rewrite <- validate_hierarchy_Ret, <- validate_policy_Ret.
  destruct (validate_hierarchy h_order) as [[]|e|w]; go_simpl; intuition congruence.
Qed.

Lemma NewRBAC_ok st h p e : NewRBAC (Some st) h p = Ret e ->
  e = MkRBAC st h p /\ policy_ok h p.
Proof.
  unfold NewRBAC. intros ([] & Hv & [= <-])%go_bind_Ret_inv. split; [done|].
  by apply (validate_correct h p (map_to_list h) (map_to_list p)).
Qed.

(** A small taxonomy the witnesses run on. *)
Definition demo_hierarchy : Hierarchy :=
  {[ "cluster" := ["viewer"; "editor"; "admin"]; "system" := ["root"] ]}.
Definition demo_policy : Policy :=
  {[ "cluster.deploy" := [MkRequirement "cluster" "editor"; MkRequirement "system" "root"] ]}.

Lemma validate_correct_witness :
  validate demo_hierarchy demo_policy (map_to_list demo_hierarchy)
    (map_to_list demo_policy) = Ret tt /\ policy_ok demo_hierarchy demo_policy.
Proof.
  split; [reflexivity|].
  apply (validate_correct demo_hierarchy demo_policy (map_to_list demo_hierarchy)
    (map_to_list demo_policy)); reflexivity.
Defined.

Lemma demo_policy_ok : policy_ok demo_hierarchy demo_policy.
Proof.
  pose (st := MkBindingStore (fun _ _ _ => Ret []) (fun _ _ _ => Ret []) (fun _ _ => Ret [])).
  by destruct (NewRBAC_ok st demo_hierarchy demo_policy _ eq_refl).
Qed.
