(* ===== verification/AuthzStore.v ===== *)
(** The reference binding table of src/authz ([memstore.go]) and what the rank
    engine of Authz.v decides over it, or over any store that represents a
    table. *)

From S2P Require Import Prelude Tenant Authz.

Set Default Goal Selector "!".

(** ** The table (memstore.go) *)

(** The [bindings] slice; the mutex makes each call one step. *)
Definition BindingTable := list Binding.

Definition Grant (b : Binding) (m : BindingTable) : go unit * BindingTable :=
  match gate (b_Tenant b) (b_Subject b) with
  | Fail e => (Fail e, m)
  | Panic w => (Panic w, m)
  | Ret _ =>
      if existsb (fun existing => bool_decide (existing = b)) m then (Ret tt, m)
      else (Ret tt, m ++ [b])
  end.

Definition Revoke (b : Binding) (m : BindingTable) : go unit * BindingTable :=
  match gate (b_Tenant b) (b_Subject b) with
  | Fail e => (Fail e, m)
  | Panic w => (Panic w, m)
  | Ret _ => (Ret tt, List.filter (fun existing => negb (bool_decide (existing = b))) m)
  end.

(** [NewMemStore] panics on a seed [Grant] refuses. *)
Fixpoint seed_bindings (bs : list Binding) (m : BindingTable) : go BindingTable :=
  match bs with
  | [] => Ret m
  | b :: bs =>
      match Grant b m with
      | (Ret _, m') => seed_bindings bs m'
      | (_, _) => Panic "seed binding refused"
      end
  end.
Definition NewBindingTable (bs : list Binding) : go BindingTable := seed_bindings bs [].

Definition Mem_BindingsFor (m : BindingTable) (t : ID) (sub : Subject) (res : Resource)
    : go (list Binding) :=
  _ ← gate t sub;
  Ret (List.filter (fun b => bool_decide (b_Tenant b = t) && bool_decide (b_Subject b = sub)
                             && bool_decide (b_Resource b = res)) m).

Definition Mem_BindingsForSubject (m : BindingTable) (t : ID) (sub : Subject) (ty : string)
    : go (list Binding) :=
  _ ← gate t sub;
  Ret (List.filter (fun b => bool_decide (b_Tenant b = t) && bool_decide (b_Subject b = sub)
                             && String.eqb (res_Type (b_Resource b)) ty
                             && negb (String.eqb (res_ID (b_Resource b)) "")) m).

Definition Mem_BindingsOnResource (m : BindingTable) (t : ID) (res : Resource)
    : go (list Binding) :=
  _ ← scopeGate t;
  Ret (List.filter (fun b => bool_decide (b_Tenant b = t)
                             && bool_decide (b_Resource b = res)) m).

Definition Mem_store (m : BindingTable) : BindingStore :=
  {| BindingsFor := Mem_BindingsFor m;
     BindingsForSubject := Mem_BindingsForSubject m;
     BindingsOnResource := Mem_BindingsOnResource m |}.

(** ** The table's invariant *)

Inductive binding_step : BindingTable -> BindingTable -> Prop :=
  | step_grant b m : binding_step m (Grant b m).2
  | step_revoke b m : binding_step m (Revoke b m).2.

Definition bindings_ok (m : BindingTable) : Prop :=
  NoDup m /\ forall b, b ∈ m -> gate (b_Tenant b) (b_Subject b) = Ret tt.

Lemma existsb_elem {A} `{EqDecision A} (x : A) l :
  existsb (fun y => bool_decide (y = x)) l = true <-> x ∈ l.
Proof.
  rewrite existsb_exists. split.
  - intros (y & Hin & ->%bool_decide_eq_true). by apply list_elem_of_In.
  - intros H. exists x. split; [by apply list_elem_of_In|by apply bool_decide_true].
Qed.

Lemma elem_of_filter_bool {A} (f : A -> bool) l x :
  x ∈ List.filter f l <-> x ∈ l /\ f x = true.
Proof. by rewrite !list_elem_of_In, filter_In. Qed.

Lemma Grant_elem b m b' : gate (b_Tenant b) (b_Subject b) = Ret tt ->
  (Grant b m).1 = Ret tt /\ (b' ∈ (Grant b m).2 <-> b' = b \/ b' ∈ m).
Proof.
  intros Hg. unfold Grant. rewrite Hg.
  destruct (existsb _ m) eqn:He; cbn; (split; [done|]).
  - apply existsb_elem in He. naive_solver.
  - rewrite elem_of_app, list_elem_of_singleton. tauto.
Qed.

Lemma Revoke_elem b m b' : gate (b_Tenant b) (b_Subject b) = Ret tt ->
  (Revoke b m).1 = Ret tt /\ (b' ∈ (Revoke b m).2 <-> b' <> b /\ b' ∈ m).
Proof.
  intros Hg. unfold Revoke. rewrite Hg. cbn. split; [done|].
  rewrite elem_of_filter_bool, negb_true_iff, bool_decide_eq_false. tauto.
Qed.

Lemma binding_step_ok m m' : binding_step m m' -> bindings_ok m -> bindings_ok m'.
Proof.
  intros [b m0|b m0] [Hnd Hg]; destruct (gate_cases (b_Tenant b) (b_Subject b))
    as [Hb|(e & Hb & _)].
  - split; [|intros b' [->|?]%(Grant_elem _ _ _ Hb); auto].
    unfold Grant. rewrite Hb. destruct (existsb _ m0) eqn:He; [done|]. cbn.
    apply NoDup_app. split; [done|]. split; [|apply NoDup_singleton].
    intros x Hx ->%list_elem_of_singleton. apply (existsb_elem b) in Hx. congruence.
  - unfold Grant. rewrite Hb. by split.
  - split; [|intros b' [_ ?]%(Revoke_elem _ _ _ Hb); auto].
    unfold Revoke. rewrite Hb. cbn. apply NoDup_ListNoDup, List.NoDup_filter.
    by apply NoDup_ListNoDup.
  - unfold Revoke. rewrite Hb. by split.
Qed.

Lemma bindings_reachable_ok m : rtc binding_step [] m -> bindings_ok m.
Proof.
  revert m. apply rtc_ind_r; [split; [constructor|intros b Hb%not_elem_of_nil; done]|].
  intros. by eapply binding_step_ok.
Qed.

(** A table built by [Grant] and [Revoke] fulfils what the engine relies on. *)
#[export] Instance Mem_represents m : bindings_ok m -> Represents m (Mem_store m).
Proof.
  intros [_ Hok]. split; cbn.
  - intros t sub res Hg. unfold Mem_BindingsFor. rewrite Hg. go_simpl. eexists.
    split; [done|]. intros b. rewrite elem_of_filter_bool. bool_simpl. tauto.
  - intros t sub ty Hg. unfold Mem_BindingsForSubject. rewrite Hg. go_simpl. eexists.
    split; [done|]. intros b. rewrite elem_of_filter_bool. bool_simpl. tauto.
  - intros t res Hg. unfold Mem_BindingsOnResource. rewrite Hg. go_simpl. eexists.
    split; [done|]. intros b. rewrite elem_of_filter_bool. bool_simpl. tauto.
  - intros b Hb. by apply Hok, gate_Ret in Hb as [_ ?].
Qed.

(** ** Properties of the rank engine *)

(** C1: No store can make the engine over-grant: whatever bindings it returns
    (another tenant's, another subject's, another resource's), an allow names a
    valid scope and home tenant and rests on a returned binding of exactly that
    scope, subject and target, of sufficient rank; a question without a tenant
    is refused with [ErrTenantRequired]. *)
Theorem RBAC_Check_sound (e : RBAC) (t : ID) (sub : Subject) (act : Action)
    (res : Resource) (d : Decision) : policy_ok (rb_h e) (rb_p e) ->
  (Valid t = false \/ Valid (sub_Tenant sub) = false ->
     fails_with (RBAC_Check e t sub act res) authz_ErrTenantRequired = true) /\
  (RBAC_Check e t sub act res = Ret d -> Allowed d = true ->
   Valid t = true /\ Valid (sub_Tenant sub) = true /\
   exists reqs req l b, rb_p e !! act = Some reqs /\ req ∈ reqs /\
     BindingsFor (rb_store e) t sub (target_of req res) = Ret l /\ b ∈ l /\
     meets (rb_h e) t sub res req b).
Proof.
  intros Hok. unfold RBAC_Check.
  destruct (gate_cases t sub) as [Hg|(err & Hg & Herr)]; rewrite Hg; go_simpl.
  - apply gate_Ret in Hg as [Ht Hs]. rewrite Ht, Hs. split; [by intros [|]|].
    destruct (rb_p e !! act) as [reqs|] eqn:Ha; [|by intros [= <-]].
    intros Hd Hallow. split; [done|]. split; [done|].
    apply check_reqs_Ret in Hd as [Hyes _]; [|by intros; eapply policy_rank_pos].
    destruct (Hyes Hallow) as (req & l & b & Hrest). by exists reqs, req, l, b.
  - by split.
Qed.

(** C15: Over a represented table the engine decides exactly [granted]: some
    requirement of the action is met by a binding in scope. Bulk checks answer
    each question as a single one does, in order, and bindings of other scopes
    or subjects change nothing. *)
Theorem RBAC_Check_decides (e : RBAC) (B : list Binding) (t : ID) (reqs : list CheckRequest) :
  policy_ok (rb_h e) (rb_p e) -> Represents B (rb_store e) -> Valid t = true ->
  (forall r, r ∈ reqs -> Valid (sub_Tenant (cr_Subject r)) = true) ->
  exists ds, RBAC_CheckBulk e t reqs = Ret ds /\
    Forall2 (fun r d =>
      RBAC_Check e t (cr_Subject r) (cr_Action r) (cr_Resource r) = Ret d /\
      (Allowed d = true <->
       granted (rb_h e) (rb_p e)
         (filter (fun b => b_Tenant b = t /\ b_Subject b = cr_Subject r) B)
         t (cr_Subject r) (cr_Action r) (cr_Resource r))) reqs ds.
Proof.
  intros Hok HB Ht Hsub. unfold RBAC_CheckBulk. rewrite (proj2 (scopeGate_Ret t) Ht). go_simpl.
  assert (Hfil : forall s a r, granted (rb_h e) (rb_p e) B t s a r <->
    granted (rb_h e) (rb_p e) (filter (fun b => b_Tenant b = t /\ b_Subject b = s) B) t s a r).
  { intros s a r. unfold granted, meets. setoid_rewrite list_elem_of_filter.
    split; intros (rs & rq & b & ?); exists rs, rq, b; tauto. }
  induction reqs as [|r reqs IH]; [by exists []|].
  destruct IH as (ds & Hds & HF); [intros r' ?; apply Hsub; by right|].
  destruct (RBAC_Check_table e B t (cr_Subject r) (cr_Action r) (cr_Resource r) Hok)
    as (d & Hd & Hiff); [apply gate_Ret; split; [done|apply Hsub; by left]|].
  exists (d :: ds). cbn [go_map]. rewrite Hd. go_simpl. rewrite Hds. go_simpl.
  split; [done|]. constructor; [|done]. split; [done|]. by rewrite <- Hfil.
Qed.

(** [ListResources] is the reverse of [Check]: on a known action it returns
    a duplicate-free listing sorted by id of concrete resources of the asked
    type, and a concrete resource is allowed by [Check] exactly when the
    listing is unbounded or contains it. *)
Theorem RBAC_ListResources_agrees (e : RBAC) (B : list Binding) (t : ID) (sub : Subject)
    (act : Action) (ty : string) :
  policy_ok (rb_h e) (rb_p e) -> Represents B (rb_store e) ->
  Valid t = true -> Valid (sub_Tenant sub) = true -> is_Some (rb_p e !! act) ->
  exists rs unbounded, RBAC_ListResources e t sub act ty = Ret (rs, unbounded) /\
    StronglySorted (key_le (fun r => [res_ID r])) rs /\ NoDup rs /\
    (forall r, r ∈ rs -> res_Type r = ty /\ res_ID r <> "") /\
    forall id, id <> "" ->
      (exists d, RBAC_Check e t sub act (MkResource ty id) = Ret d /\ Allowed d = true) <->
      unbounded = true \/ MkResource ty id ∈ rs.
Proof.
  intros Hok HB Ht Hs [reqs Ha].
  assert (gate t sub = Ret tt) as Hg by (by apply gate_Ret).
  destruct (RBAC_ListResources_table e B t sub act ty reqs Hok Hg Ha)
    as (rs & ub & Heq & Hsort & Hnd & Hty & Hiff).
  exists rs, ub. do 4 (split; [done|]). intros id Hid. rewrite <- (Hiff id Hid).
  destruct (RBAC_Check_table e B t sub act (MkResource ty id) Hok Hg) as (d & Hd & <-).
  rewrite Hd. split; [intros (d' & [= <-] & ?); done|intros ?; by exists d].
Qed.

(** [ListSubjects] enumerates exactly the subjects [Check] allows, sorted
    by (type, id, home tenant) without repetition, never unbounded; two stores
    holding the same bindings in different row orders list the same. *)
Theorem RBAC_ListSubjects_agrees (e : RBAC) (B : list Binding) (t : ID) (act : Action)
    (res : Resource) (st' : BindingStore) (B' : list Binding) :
  policy_ok (rb_h e) (rb_p e) -> Represents B (rb_store e) ->
  Represents B' st' -> (forall b, b ∈ B <-> b ∈ B') ->
  Valid t = true -> is_Some (rb_p e !! act) ->
  exists subs, RBAC_ListSubjects e t act res = Ret (subs, false) /\
    StronglySorted (key_le subject_key) subs /\ NoDup subs /\
    (forall s, s ∈ subs <-> Valid (sub_Tenant s) = true /\
       exists d, RBAC_Check e t s act res = Ret d /\ Allowed d = true) /\
    RBAC_ListSubjects (MkRBAC st' (rb_h e) (rb_p e)) t act res = Ret (subs, false).
Proof.
  intros Hok HB HB' Hsame Ht [reqs Ha].
  assert (scopeGate t = Ret tt) as Hg by (by apply scopeGate_Ret).
  destruct (RBAC_ListSubjects_table e B t act res reqs Hg Ha) as (subs & Heq & Hsort & Hnd & Hin).
  destruct (RBAC_ListSubjects_table (MkRBAC st' (rb_h e) (rb_p e)) B' t act res reqs Hg Ha)
    as (subs' & Heq' & Hsort' & Hnd' & Hin').
  assert (Hhome : forall s, granted (rb_h e) (rb_p e) B t s act res ->
    Valid (sub_Tenant s) = true).
  { intros s (? & ? & b & _ & _ & Hb & _ & <- & _). by apply (rep_home (Represents := HB)). }
  assert (subs' = subs) as Hsubs.
  { assert (subs' ≡ₚ subs) as Hp.
    { apply NoDup_Permutation; [done..|]. intros s. rewrite Hin, Hin'. cbn. unfold granted.
      by setoid_rewrite Hsame. }
    apply (StronglySorted_unique_strong (key_le subject_key)); [|done..].
    intros s1 s2 Hs1 Hs2 H1 H2. rewrite Hp in Hs1.
    apply Hin, Hhome in Hs1. apply Hin, Hhome in Hs2.
    assert (subject_key s1 = subject_key s2) as Hk by (by apply (anti_symm lex_le)).
    destruct s1 as [[v1 b1] ty1 id1], s2 as [[v2 b2] ty2 id2]. unfold Valid, subject_key in *; cbn in *. by simplify_eq. }
  exists subs. do 3 (split; [done|]). split; [|by rewrite Heq', Hsubs].
  intros s. rewrite Hin. split.
  - intros Hgr. pose proof (Hhome _ Hgr) as Hv. split; [done|].
    destruct (RBAC_Check_table e B t s act res Hok) as (d & Hd & Hiff); [by apply gate_Ret|].
    exists d. split; [done|by apply Hiff].
  - intros (Hv & d & Hd & Hallow).
    destruct (RBAC_Check_table e B t s act res Hok) as (d' & Hd' & Hiff); [by apply gate_Ret|].
    apply Hiff. congruence.
Qed.

(** ** Witnesses *)

Definition demo_alice : Subject := MkSubject (New "acme") "user" "alice".
Definition demo_bindings : BindingTable :=
  [MkBinding (New "acme") demo_alice (MkResource "cluster" "c1") "admin";
   MkBinding (New "globex") demo_alice (MkResource "cluster" "c2") "admin"].
Definition demo_rbac : RBAC := MkRBAC (Mem_store demo_bindings) demo_hierarchy demo_policy.

Lemma demo_bindings_ok : bindings_ok demo_bindings.
Proof.
  split; [by apply (bool_decide_unpack _); vm_compute|].
  intros b [->|[->|Hb%not_elem_of_nil]%elem_of_cons]%elem_of_cons; done.
Qed.

Lemma RBAC_Check_sound_witness :
  policy_ok (rb_h demo_rbac) (rb_p demo_rbac) /\
  fails_with (RBAC_Check demo_rbac ID_zero demo_alice "cluster.deploy"
    (MkResource "cluster" "c1")) authz_ErrTenantRequired = true.
Proof.
  split; [exact demo_policy_ok|].
  destruct (RBAC_Check_sound demo_rbac ID_zero demo_alice "cluster.deploy"
    (MkResource "cluster" "c1") (MkDecision false "") demo_policy_ok) as [H _].
  apply H. by left.
Defined.

Lemma RBAC_Check_decides_witness :
  policy_ok (rb_h demo_rbac) (rb_p demo_rbac) /\
  exists ds, RBAC_CheckBulk demo_rbac (New "acme")
    [MkCheckRequest demo_alice "cluster.deploy" (MkResource "cluster" "c1");
     MkCheckRequest demo_alice "cluster.deploy" (MkResource "cluster" "c2")] = Ret ds /\
    map Allowed ds = [true; false].
Proof.
  split; [exact demo_policy_ok|].
  destruct (RBAC_Check_decides demo_rbac demo_bindings (New "acme")
    [MkCheckRequest demo_alice "cluster.deploy" (MkResource "cluster" "c1");
     MkCheckRequest demo_alice "cluster.deploy" (MkResource "cluster" "c2")]
    demo_policy_ok (Mem_represents _ demo_bindings_ok) eq_refl) as (ds & Hds & _).
  { intros r [->|[->|Hr%not_elem_of_nil]%elem_of_cons]%elem_of_cons; done. }
  exists ds. split; [exact Hds|]. vm_compute in Hds. by injection Hds as <-.
Defined.

Lemma RBAC_ListResources_agrees_witness :
  is_Some (rb_p demo_rbac !! "cluster.deploy") /\
  exists rs unbounded,
    RBAC_ListResources demo_rbac (New "acme") demo_alice "cluster.deploy" "cluster"
      = Ret (rs, unbounded) /\ rs = [MkResource "cluster" "c1"].
Proof.
  assert (is_Some (rb_p demo_rbac !! "cluster.deploy")) as Hp by (by eexists).
  split; [exact Hp|].
  destruct (RBAC_ListResources_agrees demo_rbac demo_bindings (New "acme") demo_alice
    "cluster.deploy" "cluster" demo_policy_ok (Mem_represents _ demo_bindings_ok)
    eq_refl eq_refl Hp) as (rs & ub & Hrs & _).
  exists rs, ub. split; [exact Hrs|]. vm_compute in Hrs. by injection Hrs as <- <-.
Defined.

Lemma RBAC_ListSubjects_agrees_witness :
  is_Some (rb_p demo_rbac !! "cluster.deploy") /\
  exists subs,
    RBAC_ListSubjects demo_rbac (New "acme") "cluster.deploy" (MkResource "cluster" "c1")
      = Ret (subs, false) /\ subs = [demo_alice].
Proof.
  assert (is_Some (rb_p demo_rbac !! "cluster.deploy")) as Hp by (by eexists).
  split; [exact Hp|].
  destruct (RBAC_ListSubjects_agrees demo_rbac demo_bindings (New "acme") "cluster.deploy"
    (MkResource "cluster" "c1") (Mem_store demo_bindings) demo_bindings
    demo_policy_ok (Mem_represents _ demo_bindings_ok) (Mem_represents _ demo_bindings_ok)
    (fun b => iff_refl _) eq_refl Hp) as (subs & Hs & _).
  exists subs. split; [exact Hs|]. vm_compute in Hs. by injection Hs as <-.
Defined.
