(* ===== verification/AuthzPermission.v ===== *)
(** The set engine of src/authz: [permissionset.go], the adapter that turns a
    rank model into permission sets ([rbacpermissionstore.go]) and the
    reference grant store ([mempermissionstore.go]). *)

From S2P Require Import Prelude Tenant Authz AuthzStore.

Set Default Goal Selector "!".

(** ** Sets and the port (permissionset.go) *)

Definition SuperuserKey : string := "*".

Record PermissionSetResult := MkPSR { Keys : gset string; Superuser : bool }.

Definition allows (r : PermissionSetResult) (act : Action) : bool :=
  if Superuser r then true else bool_decide (act ∈ Keys r).

Record PermissionStore := MkPermissionStore {
  PermissionsFor : ID -> Subject -> Resource -> go PermissionSetResult;
  ResourcesWithPermission : ID -> Subject -> string -> string -> go (list Resource * bool);
  SubjectsWithPermission : ID -> string -> Resource -> go (list Subject)
}.

(** ** The engine (permissionset.go) *)

Definition NewPermissionSet (store : option PermissionStore) : go PermissionStore :=
  match store with
  | None => Fail (Errorf0 "authz: NewPermissionSet requires a PermissionStore")
  | Some store => Ret store
  end.

Definition PermissionSet_Check (e : PermissionStore) (t : ID) (sub : Subject)
    (act : Action) (res : Resource) : go Decision :=
  _ ← gate t sub;
  if String.eqb act "" then Ret (MkDecision false "empty action")
  else
    set ← wrap_err (Errorf1 "authz: check") (PermissionsFor e t sub res);
    if Superuser set then Ret (MkDecision true "superuser")
    else if allows set act then Ret (MkDecision true "permission held")
    else Ret (MkDecision false "permission not held").

Definition PermissionSet_CheckBulk (e : PermissionStore) (t : ID) (reqs : list CheckRequest)
    : go (list Decision) :=
  _ ← scopeGate t;
  go_map (fun r => PermissionSet_Check e t (cr_Subject r) (cr_Action r) (cr_Resource r)) reqs.

Fixpoint dedup_resources (ty : string) (rs : list Resource) (seen : gset Resource)
    (out : list Resource) : list Resource :=
  match rs with
  | [] => out
  | r :: rs =>
      if negb (String.eqb (res_Type r) ty) || String.eqb (res_ID r) ""
         || bool_decide (r ∈ seen)
      then dedup_resources ty rs seen out
      else dedup_resources ty rs ({[r]} ∪ seen) (out ++ [r])
  end.

Definition PermissionSet_ListResources (e : PermissionStore) (t : ID) (sub : Subject)
    (act : Action) (ty : string) : go (list Resource * bool) :=
  _ ← gate t sub;
  if String.eqb act "" then Ret ([], false)
  else
    rs ← wrap_err (Errorf1 "authz: list resources for") (ResourcesWithPermission e t sub act ty);
    Ret (sort_by (fun r => [res_ID r]) (dedup_resources ty rs.1 ∅ []), rs.2).

Fixpoint dedup_subjects (subs : list Subject) (seen : gset Subject) (out : list Subject)
    : go (list Subject) :=
  match subs with
  | [] => Ret out
  | s :: subs =>
      if negb (Valid (sub_Tenant s)) then
        Fail (tenant_required "the store returned subject with no home tenant")
      else if bool_decide (s ∈ seen) then dedup_subjects subs seen out
      else dedup_subjects subs ({[s]} ∪ seen) (out ++ [s])
  end.

Definition PermissionSet_ListSubjects (e : PermissionStore) (t : ID) (act : Action)
    (res : Resource) : go (list Subject * bool) :=
  _ ← scopeGate t;
  if String.eqb act "" then Ret ([], false)
  else
    subs ← wrap_err (Errorf1 "authz: list subjects for") (SubjectsWithPermission e t act res);
    out ← dedup_subjects subs ∅ [];
    Ret (sortSubjects out, false).

(** ** A rank model as a permission store (rbacpermissionstore.go) *)

(** [effRank]: the closure over the [ranks] cache, threaded. *)
Definition effRank (e : RBAC) (t : ID) (sub : Subject) (target : Resource)
    (ranks : gmap Resource nat) : go (nat * gmap Resource nat) :=
  match ranks !! target with
  | Some r => Ret (r, ranks)
  | None =>
      best ← effective e t sub target;
      Ret (best.2, <[target := best.2]> ranks)
  end.

(** The inner loop; [true] when it reached [break]. *)
Fixpoint perm_reqs (e : RBAC) (t : ID) (sub : Subject) (res : Resource)
    (reqs : list Requirement) (ranks : gmap Resource nat) : go (bool * gmap Resource nat) :=
  match reqs with
  | [] => Ret (false, ranks)
  | req :: reqs =>
      rr ← wrap_err (Errorf1 "authz: permissions for")
        (effRank e t sub (target_of req res) ranks);
      if (rank (rb_h e) (req_Type req) (req_Min req) <=? rr.1)%nat then Ret (true, rr.2)
      else perm_reqs e t sub res reqs rr.2
  end.

Fixpoint perm_actions (e : RBAC) (t : ID) (sub : Subject) (res : Resource)
    (entries : list (Action * list Requirement)) (keys : gset string)
    (ranks : gmap Resource nat) : go (gset string) :=
  match entries with
  | [] => Ret keys
  | (act, reqs) :: entries =>
      br ← perm_reqs e t sub res reqs ranks;
      perm_actions e t sub res entries
        (if (br.1 : bool) then {[act]} ∪ keys else keys) br.2
  end.

(** [order] is the order in which this call ranges over the policy map. *)
Definition rbac_PermissionsFor (e : RBAC) (order : list (Action * list Requirement))
    (t : ID) (sub : Subject) (res : Resource) : go PermissionSetResult :=
  _ ← gate t sub;
  keys ← perm_actions e t sub res order ∅ ∅;
  Ret {| Keys := keys; Superuser := false |}.

Definition rbac_SubjectsWithPermission (e : RBAC) (t : ID) (key : string) (res : Resource)
    : go (list Subject) :=
  subs ← RBAC_ListSubjects e t key res; Ret subs.1.

Definition rbacPermissionStore (e : RBAC) (order : list (Action * list Requirement))
    : PermissionStore :=
  {| PermissionsFor := rbac_PermissionsFor e order;
     ResourcesWithPermission := fun t sub key ty => RBAC_ListResources e t sub key ty;
     SubjectsWithPermission := rbac_SubjectsWithPermission e |}.

Definition NewRBACPermissionStore (store : option BindingStore) (h : Hierarchy) (p : Policy)
    (order : list (Action * list Requirement)) : go PermissionStore :=
  e ← NewRBAC store h p; Ret (rbacPermissionStore e order).

(** ** The reference grant store (mempermissionstore.go) *)

Record MemPermissionStore := MkMemPermissionStore {
  grants : gmap (ID * Subject * Resource) (gset string);
  superusers : gset (ID * Subject)
}.

Definition NewMemPermissionStore : MemPermissionStore := MkMemPermissionStore ∅ ∅.

Definition add_keys (keys : list string) (set : gset string) : gset string :=
  foldl (fun s key => if String.eqb key SuperuserKey then s else {[key]} ∪ s) set keys.

Definition PermGrant (t : ID) (sub : Subject) (res : Resource) (keys : list string)
    (m : MemPermissionStore) : go unit * MemPermissionStore :=
  match gate t sub with
  | Fail e => (Fail e, m)
  | Panic w => (Panic w, m)
  | Ret _ =>
      let set := default ∅ (grants m !! (t, sub, res)) in
      (Ret tt, {| grants := <[(t, sub, res) := add_keys keys set]> (grants m);
                  superusers := superusers m |})
  end.

Definition GrantSuperuser (t : ID) (sub : Subject) (m : MemPermissionStore)
    : go unit * MemPermissionStore :=
  match gate t sub with
  | Fail e => (Fail e, m)
  | Panic w => (Panic w, m)
  | Ret _ => (Ret tt, {| grants := grants m; superusers := {[(t, sub)]} ∪ superusers m |})
  end.

Definition MemPerm_PermissionsFor (m : MemPermissionStore) (t : ID) (sub : Subject)
    (res : Resource) : go PermissionSetResult :=
  _ ← gate t sub;
  if bool_decide ((t, sub) ∈ superusers m) then Ret (MkPSR ∅ true)
  else Ret (MkPSR (default ∅ (grants m !! (t, sub, res))) false).

(** The grants are ranged over in map order; the engine sorts what it lists. *)
Definition MemPerm_ResourcesWithPermission (m : MemPermissionStore) (t : ID) (sub : Subject)
    (key ty : string) : go (list Resource * bool) :=
  _ ← gate t sub;
  if bool_decide ((t, sub) ∈ superusers m) then Ret ([], true)
  else
    Ret (omap (fun '((gt, gs, gr), set) =>
                 if negb (bool_decide (gt = t)) || negb (bool_decide (gs = sub))
                    || negb (String.eqb (res_Type gr) ty) || String.eqb (res_ID gr) ""
                 then None
                 else if bool_decide (key ∈ (set : gset string)) then Some gr else None)
           (map_to_list (grants m)), false).

Fixpoint holders (t : ID) (key : string) (res : Resource)
    (entries : list ((ID * Subject * Resource) * gset string))
    (seen : gset Subject) (out : list Subject) : gset Subject * list Subject :=
  match entries with
  | [] => (seen, out)
  | ((gt, gs, gr), set) :: entries =>
      if negb (bool_decide (gt = t)) || negb (bool_decide (gr = res))
      then holders t key res entries seen out
      else if bool_decide (key ∈ set) && negb (bool_decide (gs ∈ seen))
      then holders t key res entries ({[gs]} ∪ seen) (out ++ [gs])
      else holders t key res entries seen out
  end.

Fixpoint add_superusers (t : ID) (supers : list (ID * Subject)) (seen : gset Subject)
    (out : list Subject) : list Subject :=
  match supers with
  | [] => out
  | (st, ss) :: supers =>
      if negb (bool_decide (st = t)) then add_superusers t supers seen out
      else if bool_decide (ss ∈ seen) then add_superusers t supers seen out
      else add_superusers t supers ({[ss]} ∪ seen) (out ++ [ss])
  end.

Definition MemPerm_SubjectsWithPermission (m : MemPermissionStore) (t : ID) (key : string)
    (res : Resource) : go (list Subject) :=
  _ ← scopeGate t;
  let acc := holders t key res (map_to_list (grants m)) ∅ [] in
  Ret (add_superusers t (elements (superusers m)) acc.1 acc.2).

Definition MemPerm_store (m : MemPermissionStore) : PermissionStore :=
  {| PermissionsFor := MemPerm_PermissionsFor m;
     ResourcesWithPermission := MemPerm_ResourcesWithPermission m;
     SubjectsWithPermission := MemPerm_SubjectsWithPermission m |}.

(** ** The adapter decides as the rank engine does *)

(** Every cached rank is the one a fresh read would give. *)
Definition cache_ok (e : RBAC) (t : ID) (sub : Subject) (ranks : gmap Resource nat) : Prop :=
  forall target r, ranks !! target = Some r ->
    exists role, effective e t sub target = Ret (role, r).

Lemma effRank_spec e t sub target ranks : cache_ok e t sub ranks ->
  match effRank e t sub target ranks with
  | Ret (r, ranks') =>
      cache_ok e t sub ranks' /\ exists role, effective e t sub target = Ret (role, r)
  | Fail err => effective e t sub target = Fail err
  | Panic w => effective e t sub target = Panic w
  end.
Proof.
  intros Hc. unfold effRank. destruct (ranks !! target) as [r|] eqn:Hr.
  { split; [done|]. by apply Hc. }
  destruct (effective e t sub target) as [[role r]|err|w] eqn:He; go_simpl; [|done..].
  cbn. split; [|by exists role]. intros target' r' [[<- <-]|[_ Hr']]%lookup_insert_Some;
    [by exists role|by apply Hc].
Qed.

Lemma perm_reqs_spec e t sub res reqs ranks : cache_ok e t sub ranks ->
  match perm_reqs e t sub res reqs ranks with
  | Ret (b, ranks') => cache_ok e t sub ranks' /\
      exists d, check_reqs e t sub res reqs = Ret d /\ Allowed d = b
  | _ => forall d, check_reqs e t sub res reqs <> Ret d
  end.
Proof.
  revert ranks. induction reqs as [|req reqs IH]; intros ranks Hc; cbn [perm_reqs check_reqs].
  { split; [done|]. by eexists. }
  pose proof (effRank_spec e t sub (target_of req res) ranks Hc) as Heff.
  destruct (effRank _ _ _ _ _) as [[r ranks']|err|w]; go_simpl; [|by rewrite Heff..].
  destruct Heff as (Hc' & role & ->). go_simpl. cbn [fst snd].
  destruct (_ <=? r)%nat; [|by apply IH]. split; [done|]. by eexists.
Qed.

Lemma perm_actions_spec e t sub res entries keys ranks : cache_ok e t sub ranks ->
  match perm_actions e t sub res entries keys ranks with
  | Ret keys' => forall act, act ∈ keys' <-> act ∈ keys \/
      exists reqs d, (act, reqs) ∈ entries /\ check_reqs e t sub res reqs = Ret d /\
        Allowed d = true
  | _ => exists act reqs, (act, reqs) ∈ entries /\
      forall d, check_reqs e t sub res reqs <> Ret d
  end /\
  ((exists keys', perm_actions e t sub res entries keys ranks = Ret keys') ->
   forall act reqs, (act, reqs) ∈ entries -> exists d, check_reqs e t sub res reqs = Ret d).
Proof.
  revert keys ranks. induction entries as [|[act reqs] entries IH]; intros keys ranks Hc;
    cbn [perm_actions].
  { split; [|intros _ ?? H; by apply not_elem_of_nil in H]. intros a.
    split; [by left|]. intros [?|(? & ? & H & _)]; [done|]. by apply not_elem_of_nil in H. }
  pose proof (perm_reqs_spec e t sub res reqs ranks Hc) as Hreqs.
  destruct (perm_reqs _ _ _ _ _ _) as [[b ranks']|err|w]; go_simpl.
  2-3: split; [exists act, reqs; split; [by left|done]|by intros [??]].
  destruct Hreqs as (Hc' & d & Hd & Hb). cbn [fst snd].
  destruct (IH (if b then {[act]} ∪ keys else keys) ranks' Hc') as [IH1 IH2].
  split.
  - destruct (perm_actions _ _ _ _ _ _ _) as [keys'|err|w].
    2-3: destruct IH1 as (a & rs & Hin & Hno); exists a, rs; split; [by right|done].
    intros a. rewrite IH1. split.
    + intros [Ha|(rs & d' & Hin & Hrest)].
      * destruct b; [|by left]. apply elem_of_union in Ha as [->%elem_of_singleton|Ha]; [|by left].
        right. exists reqs, d. split; [by left|done].
      * right. exists rs, d'. split; [by right|done].
    + intros [Ha|(rs & d' & [[= -> ->]|Hin]%elem_of_cons & Hd' & Hal)].
      * left. destruct b; set_solver.
      * left. assert (d' = d) as -> by congruence. rewrite <- Hb, Hal. set_solver.
      * right. by exists rs, d'.
  - intros Hret a rs [[= -> ->]|Hin]%elem_of_cons; [by exists d|]. by eapply IH2.
Qed.

(** Listings the engine's second filter leaves as they are. *)
Lemma dedup_resources_id ty rs seen out :
  NoDup rs -> (forall r, r ∈ rs -> res_Type r = ty /\ res_ID r <> "" /\ r ∉ seen) ->
  dedup_resources ty rs seen out = out ++ rs.
Proof.
  revert seen out. induction rs as [|r rs IH]; intros seen out Hnd Hrs; cbn [dedup_resources].
  { by rewrite app_nil_r. }
  apply NoDup_cons in Hnd as [Hr Hnd].
  destruct (Hrs r) as (Ht & Hid & Hs); [by left|].
  rewrite (proj2 (String.eqb_eq _ _) Ht), (proj2 (String.eqb_neq _ _) Hid).
  rewrite bool_decide_false by done. cbn [negb orb].
  rewrite IH; [by rewrite <- app_assoc|done|].
  intros r' Hr'. destruct (Hrs r') as (? & ? & ?); [by right|].
  do 2 (split; [done|]). set_solver.
Qed.

Lemma dedup_subjects_id subs seen out :
  NoDup subs -> (forall s, s ∈ subs -> Valid (sub_Tenant s) = true /\ s ∉ seen) ->
  dedup_subjects subs seen out = Ret (out ++ subs).
Proof.
  revert seen out. induction subs as [|s subs IH]; intros seen out Hnd Hs; cbn [dedup_subjects].
  { by rewrite app_nil_r. }
  apply NoDup_cons in Hnd as [Hn Hnd]. destruct (Hs s) as [Hv Hseen]; [by left|].
  rewrite Hv, bool_decide_false by done. cbn [negb].
  rewrite IH; [by rewrite <- app_assoc|done|].
  intros s' Hs'. destruct (Hs s') as [? ?]; [by right|]. split; [done|]. set_solver.
Qed.

Lemma collect_resources_typed h t sub ty low bs seen out :
  (forall r, r ∈ out -> res_Type r = ty /\ res_ID r <> "") ->
  forall r, r ∈ collect_resources h t sub ty low bs seen out -> res_Type r = ty /\ res_ID r <> "".
Proof.
  revert seen out. induction bs as [|b bs IH]; intros seen out Hout; cbn [collect_resources];
    [done|].
  destruct (negb (bool_decide (b_Tenant b = t)) || negb (bool_decide (b_Subject b = sub)));
    cbn [orb]; [by apply IH|].
  destruct (String.eqb_spec (res_Type (b_Resource b)) ty), (String.eqb_spec (res_ID (b_Resource b)) "");
    cbn [negb orb]; try by apply IH.
  destruct (_ && _); [|by apply IH]. apply IH.
  intros r [?| ->%list_elem_of_singleton]%elem_of_app; auto.
Qed.

Lemma collect_subjects_valid h t target n bs seen out seen' out' :
  collect_subjects h t target n bs seen out = Ret (seen', out') ->
  (forall s, s ∈ out <-> s ∈ seen) -> NoDup out ->
  (forall s, s ∈ out -> Valid (sub_Tenant s) = true) ->
  (forall s, s ∈ out' <-> s ∈ seen') /\ NoDup out' /\
  (forall s, s ∈ out' -> Valid (sub_Tenant s) = true).
Proof.
  revert seen out. induction bs as [|b bs IH]; intros seen out; cbn [collect_subjects].
  { by intros [= <- <-]. }
  destruct (negb _ || negb _); [apply IH|].
  destruct (_ <? n)%nat; cbn [orb]; [apply IH|].
  case_bool_decide as Hseen; [apply IH|].
  destruct (Valid _) eqn:Hv; cbn [negb]; [|done].
  intros Heq Hinv Hnd Hval. apply IH in Heq; [done|set_solver| |].
  - apply NoDup_app. split; [done|]. split; [set_solver|apply NoDup_singleton].
  - intros s [?| ->%list_elem_of_singleton]%elem_of_app; auto.
Qed.

Lemma subjects_reqs_valid e t res reqs seen out out' :
  subjects_reqs e t res reqs seen out = Ret out' ->
  (forall s, s ∈ out <-> s ∈ seen) -> NoDup out ->
  (forall s, s ∈ out -> Valid (sub_Tenant s) = true) ->
  NoDup out' /\ (forall s, s ∈ out' -> Valid (sub_Tenant s) = true).
Proof.
  revert seen out. induction reqs as [|req reqs IH]; intros seen out; cbn [subjects_reqs].
  { by intros [= <-]. }
  intros (bs & _ & ([seen1 out1] & Hc & Hrest)%go_bind_Ret_inv)%go_bind_Ret_inv Hinv Hnd Hval.
  apply collect_subjects_valid in Hc as (Hi & Hn & Hv); [|done..]. by eapply IH.
Qed.

Lemma subject_key_inj s1 s2 : Valid (sub_Tenant s1) = true -> Valid (sub_Tenant s2) = true ->
  subject_key s1 = subject_key s2 -> s1 = s2.
Proof.
  destruct s1 as [[v1 b1] ty1 id1], s2 as [[v2 b2] ty2 id2].
  unfold Valid, subject_key; cbn. intros -> -> Hk. by simplify_eq.
Qed.

Section parity.
Context (e : RBAC) (order : list (Action * list Requirement)) (t : ID).
Hypothesis Hord : order ≡ₚ map_to_list (rb_p e).

Lemma order_entry a rs : (a, rs) ∈ order <-> rb_p e !! a = Some rs.
Proof. by rewrite Hord, elem_of_map_to_list. Qed.

Lemma cache_ok_empty sub : cache_ok e t sub ∅.
Proof. intros ?? H. by rewrite lookup_empty in H. Qed.

(** The adapter's keys are the actions the rank engine allows. *)
Lemma rbac_PermissionsFor_keys sub res r :
  rbac_PermissionsFor e order t sub res = Ret r ->
  Superuser r = false /\ gate t sub = Ret tt /\
  forall act, exists d, RBAC_Check e t sub act res = Ret d /\
    (act ∈ Keys r <-> Allowed d = true).
Proof.
  unfold rbac_PermissionsFor, RBAC_Check.
  intros ([] & Hg & (keys & Hkeys & [= <-])%go_bind_Ret_inv)%go_bind_Ret_inv. rewrite Hg. go_simpl.
  do 2 (split; [done|]). intros act. cbn [Keys].
  destruct (perm_actions_spec e t sub res order ∅ ∅ (cache_ok_empty sub)) as [Hact Hall].
  rewrite Hkeys in Hact. specialize (Hall (ex_intro _ keys Hkeys)).
  destruct (rb_p e !! act) as [reqs|] eqn:He.
  - destruct (Hall act reqs) as [d Hd]; [by apply order_entry|].
    exists d. split; [done|]. rewrite Hact. split.
    + intros [?|(rs & d' & Hin%order_entry & Hd' & Hal)]; [set_solver|]. congruence.
    + intros Hal. right. exists reqs, d. by rewrite order_entry.
  - eexists. split; [done|]. cbn. rewrite Hact. split; [|done].
    intros [?|(rs & d' & Hin%order_entry & _)]; [set_solver|congruence].
Qed.

Lemma rbac_PermissionsFor_total sub res : gate t sub = Ret tt ->
  (forall a, exists d, RBAC_Check e t sub a res = Ret d) ->
  exists r, rbac_PermissionsFor e order t sub res = Ret r.
Proof.
  intros Hg Htot. unfold rbac_PermissionsFor. rewrite Hg. go_simpl.
  destruct (perm_actions_spec e t sub res order ∅ ∅ (cache_ok_empty sub)) as [Hact _].
  destruct (perm_actions _ _ _ _ _ _ _) as [keys|?|?]; go_simpl; [by eexists|..];
    destruct Hact as (a & rs & Hin%order_entry & Hno); destruct (Htot a) as [d Hd];
    unfold RBAC_Check in Hd; rewrite Hg, Hin in Hd; go_simpl; by destruct (Hno d).
Qed.

Lemma PermissionSet_ListResources_parity sub act ty rs ub : act <> "" ->
  RBAC_ListResources e t sub act ty = Ret (rs, ub) ->
  PermissionSet_ListResources (rbacPermissionStore e order) t sub act ty = Ret (rs, ub).
Proof.
  intros Ha Hrs. unfold PermissionSet_ListResources.
  assert (gate t sub = Ret tt) as ->.
  { unfold RBAC_ListResources in Hrs. by apply go_bind_Ret_inv in Hrs as ([] & -> & _). }
  go_simpl. rewrite (proj2 (String.eqb_neq _ _) Ha). cbn. rewrite Hrs. go_simpl. cbn [fst snd].
  f_equal. f_equal.
  assert (NoDup rs /\ (forall r, r ∈ rs -> res_Type r = ty /\ res_ID r <> "") /\
    StronglySorted (key_le (fun r => [res_ID r])) rs) as (Hnd & Hty & Hsort).
  { unfold RBAC_ListResources in Hrs. apply go_bind_Ret_inv in Hrs as ([] & _ & Hrs).
    case_match; [|done].
    apply go_bind_Ret_inv in Hrs as ([u low] & _ & Hrs). cbn [fst snd] in Hrs.
    case_match.
    { injection Hrs as <- <-. split; [constructor|]. split; [|constructor].
      by intros r ?%not_elem_of_nil. }
    apply go_bind_Ret_inv in Hrs as (bs & _ & [= <- <-]).
    split; [rewrite sort_by_Permutation; apply collect_resources_NoDup; [set_solver|constructor]|].
    split; [|apply sort_by_Sorted].
    intros r. rewrite elem_of_sort_by. apply collect_resources_typed.
    by intros ? ?%not_elem_of_nil. }
  rewrite dedup_resources_id by (done || (intros r Hr; destruct (Hty r Hr); set_solver)).
  apply sort_by_unique; [|done|done].
  intros [ty1 id1] [ty2 id2] Hx Hy. apply Hty in Hx as [Hx _]. apply Hty in Hy as [Hy _].
  cbn in *. congruence.
Qed.

Lemma PermissionSet_ListSubjects_parity act res subs ub : act <> "" ->
  RBAC_ListSubjects e t act res = Ret (subs, ub) ->
  PermissionSet_ListSubjects (rbacPermissionStore e order) t act res = Ret (subs, ub).
Proof.
  intros Ha Hs. unfold PermissionSet_ListSubjects.
  assert (scopeGate t = Ret tt) as ->.
  { unfold RBAC_ListSubjects in Hs. by apply go_bind_Ret_inv in Hs as ([] & -> & _). }
  go_simpl. rewrite (proj2 (String.eqb_neq _ _) Ha). cbn.
  unfold rbac_SubjectsWithPermission. rewrite Hs. go_simpl. cbn [fst].
  assert (NoDup subs /\ (forall s, s ∈ subs -> Valid (sub_Tenant s) = true) /\
    StronglySorted (key_le subject_key) subs /\ ub = false) as (Hnd & Hv & Hsort & ->).
  { unfold RBAC_ListSubjects in Hs. apply go_bind_Ret_inv in Hs as ([] & _ & Hs).
    case_match; [|done].
    apply go_bind_Ret_inv in Hs as (out & Hout & [= <- <-]). unfold sortSubjects.
    apply subjects_reqs_valid in Hout as [Hn Hv];
      [|set_solver|constructor|by intros ? ?%not_elem_of_nil].
    split; [by rewrite sort_by_Permutation|]. split; [|by split; [apply sort_by_Sorted|]].
    intros s. rewrite elem_of_sort_by. apply Hv. }
  rewrite dedup_subjects_id by (done || (intros s Hx; split; [by apply Hv|set_solver])).
  go_simpl. f_equal. f_equal. apply sort_by_unique; [|done|done].
  intros s1 s2 H1 H2. apply subject_key_inj; auto.
Qed.
End parity.

(** ** Properties *)

(** C17: Over one rank model and any binding store, failing ones included, the
    set engine never disagrees with the rank engine: a decision it reaches is
    the rank engine's, whatever the range order and despite the rank cache; it
    reaches one whenever the rank engine answers every action on that
    resource; and both reverse queries return the rank engine's listings. *)
Theorem PermissionSet_parity (e : RBAC) order (t : ID) (sub : Subject) (act : Action)
    (res : Resource) :
  policy_ok (rb_h e) (rb_p e) -> order ≡ₚ map_to_list (rb_p e) ->
  let ps := rbacPermissionStore e order in
  (forall d, PermissionSet_Check ps t sub act res = Ret d ->
     exists d', RBAC_Check e t sub act res = Ret d' /\ Allowed d' = Allowed d) /\
  ((forall a, exists d, RBAC_Check e t sub a res = Ret d) ->
     exists d, PermissionSet_Check ps t sub act res = Ret d) /\
  (forall rs ub ty, act <> "" -> RBAC_ListResources e t sub act ty = Ret (rs, ub) ->
     PermissionSet_ListResources ps t sub act ty = Ret (rs, ub)) /\
  (forall subs ub, act <> "" -> RBAC_ListSubjects e t act res = Ret (subs, ub) ->
     PermissionSet_ListSubjects ps t act res = Ret (subs, ub)).
Proof.
  intros Hok Hord ps. split; [|split; [|split]].
  - intros d. unfold PermissionSet_Check.
    intros ([] & Hg & Hd)%go_bind_Ret_inv.
    destruct (String.eqb_spec act "") as [->|Ha].
    { injection Hd as <-. unfold RBAC_Check. rewrite Hg. go_simpl.
      case_match eqn:He; [|by eexists].
      destruct Hok as [_ Hp]. by destruct (Hp _ _ He). }
    apply go_bind_Ret_inv in Hd as (r & Hr%wrap_err_Ret_inv & Hd).
    destruct (rbac_PermissionsFor_keys e order t Hord sub res r Hr) as (Hsu & _ & Hkeys).
    destruct (Hkeys act) as (d' & Hd' & Hiff). exists d'. split; [done|].
    unfold allows in Hd. rewrite Hsu in Hd.
    case_bool_decide as Hk; injection Hd as <-; cbn [Allowed]; [by apply Hiff|].
    destruct (Allowed d'); [|done]. by destruct Hk; apply Hiff.
  - intros Htot.
    assert (gate t sub = Ret tt) as Hg.
    { destruct (Htot act) as [d Hd]. unfold RBAC_Check in Hd.
      by apply go_bind_Ret_inv in Hd as ([] & ? & _). }
    unfold PermissionSet_Check. rewrite Hg. go_simpl.
    destruct (String.eqb act ""); [by eexists|].
    destruct (rbac_PermissionsFor_total e order t Hord sub res Hg Htot) as [r Hr].
    cbn [ps rbacPermissionStore PermissionsFor]. rewrite Hr. go_simpl.
    destruct (Superuser r); [by eexists|]. destruct (allows r act); by eexists.
  - intros rs ub ty. by apply PermissionSet_ListResources_parity.
  - intros subs ub. by apply PermissionSet_ListSubjects_parity.
Qed.

Lemma PermissionSet_parity_witness :
  policy_ok (rb_h demo_rbac) (rb_p demo_rbac) /\
  PermissionSet_ListSubjects (rbacPermissionStore demo_rbac (map_to_list demo_policy))
    (New "acme") "cluster.deploy" (MkResource "cluster" "c1") = Ret ([demo_alice], false).
Proof.
  split; [exact demo_policy_ok|].
  destruct (PermissionSet_parity demo_rbac (map_to_list demo_policy) (New "acme") demo_alice
    "cluster.deploy" (MkResource "cluster" "c1") demo_policy_ok (reflexivity _))
    as (_ & _ & _ & H).
  apply H; [discriminate|]. vm_compute. reflexivity.
Defined.

(** ** The grant store: invariant and meaning *)

Inductive perm_step : MemPermissionStore -> MemPermissionStore -> Prop :=
  | step_perm_grant t sub res keys m : perm_step m (PermGrant t sub res keys m).2
  | step_perm_super t sub m : perm_step m (GrantSuperuser t sub m).2.

Record perms_ok (m : MemPermissionStore) : Prop := {
  perms_star : forall k set, grants m !! k = Some set -> SuperuserKey ∉ set;
  perms_gated : forall t sub res set, grants m !! (t, sub, res) = Some set ->
    gate t sub = Ret tt;
  supers_gated : forall t sub, (t, sub) ∈ superusers m -> gate t sub = Ret tt
}.

Lemma add_keys_spec keys set key :
  key ∈ add_keys keys set <-> key ∈ set \/ (key ∈ keys /\ key <> SuperuserKey).
Proof.
  unfold add_keys. revert set. induction keys as [|k keys IH]; intros set; cbn [foldl].
  { set_solver. }
  rewrite IH. destruct (String.eqb_spec k SuperuserKey) as [->|Hk]; set_solver.
Qed.

Lemma perm_step_ok m m' : perm_step m m' -> perms_ok m -> perms_ok m'.
Proof.
  intros [t sub res keys m0|t sub m0] [Hstar Hgate Hsup].
  - unfold PermGrant. destruct (gate t sub) as [[]|?|?] eqn:Hg; cbn; [|by split..].
    split; cbn; [| |done].
    + intros k set [[<- <-]|[_ H]]%lookup_insert_Some; [|by eapply Hstar].
      rewrite add_keys_spec. intros [Hin|[_ ?]]; [|done].
      destruct (grants m0 !! (t, sub, res)) as [s|] eqn:Hs; cbn in Hin; [|set_solver].
      by eapply Hstar.
    + intros t' sub' res' set [[[= <- <- <-] _]|[_ H]]%lookup_insert_Some; [done|by eapply Hgate].
  - unfold GrantSuperuser. destruct (gate t sub) as [[]|?|?] eqn:Hg; cbn; [|by split..].
    split; cbn; [done|done|]. intros t' sub' [[= -> ->]%elem_of_singleton|H]%elem_of_union; auto.
Qed.

Lemma perms_reachable_ok m : rtc perm_step NewMemPermissionStore m -> perms_ok m.
Proof.
  revert m. apply rtc_ind_r.
  - split; cbn; [intros ?? H; by rewrite lookup_empty in H| |set_solver].
    intros ???? H; by rewrite lookup_empty in H.
  - intros. by eapply perm_step_ok.
Qed.

(** The grant the store records, which the engine is to decide. *)
Definition holds (m : MemPermissionStore) (t : ID) (sub : Subject) (act : Action)
    (res : Resource) : Prop :=
  act <> "" /\ ((t, sub) ∈ superusers m \/
    exists set, grants m !! (t, sub, res) = Some set /\ (act : string) ∈ set).

Lemma MemPerm_Check m t sub act res : gate t sub = Ret tt ->
  exists d, PermissionSet_Check (MemPerm_store m) t sub act res = Ret d /\
    (Allowed d = true <-> holds m t sub act res).
Proof.
  intros Hg. unfold PermissionSet_Check, holds. rewrite Hg. go_simpl.
  destruct (String.eqb_spec act "") as [->|Ha].
  { eexists. split; [done|]. cbn. split; [done|by intros [? _]]. }
  cbn [MemPerm_store PermissionsFor]. unfold MemPerm_PermissionsFor. rewrite Hg. go_simpl.
  destruct (bool_decide_reflect ((t, sub) ∈ superusers m)) as [Hs|Hs]; go_simpl.
  { eexists. split; [done|]. cbn. split; [auto|done]. }
  unfold allows. cbn. destruct (bool_decide_reflect (act ∈ default ∅ (grants m !! (t, sub, res))))
    as [Hk|Hk]; (eexists; split; [done|]); cbn.
  - split; [intros _|done]. split; [done|right].
    destruct (grants m !! (t, sub, res)) as [set|]; [by exists set|set_solver].
  - split; [done|]. intros [_ [?|(set & Hset & ?)]]; [done|]. by rewrite Hset in Hk.
Qed.

Lemma elem_of_holders t key res entries seen out s :
  (forall x, x ∈ out <-> x ∈ seen) ->
  (forall x, x ∈ (holders t key res entries seen out).2 <->
             x ∈ (holders t key res entries seen out).1) /\
  (s ∈ (holders t key res entries seen out).2 <->
   s ∈ out \/ exists set, ((t, s, res), set) ∈ entries /\ key ∈ set).
Proof.
  revert seen out. induction entries as [|[[[gt gs] gr] set] entries IH]; intros seen out Hinv;
    cbn [holders].
  { split; [done|]. cbn. split; [by left|]. intros [?|(? & ?%not_elem_of_nil & _)]; done. }
  destruct (bool_decide_reflect (gt = t)) as [->|Ht]; cbn [negb orb].
  2: { destruct (IH _ _ Hinv) as [H1 ->]. split; [done|]. set_solver. }
  destruct (bool_decide_reflect (gr = res)) as [->|Hr]; cbn [negb orb].
  2: { destruct (IH _ _ Hinv) as [H1 ->]. split; [done|]. set_solver. }
  destruct (bool_decide_reflect (key ∈ set)) as [Hk|Hk]; cbn [andb].
  2: { destruct (IH _ _ Hinv) as [H1 ->]. split; [done|]. set_solver. }
  destruct (bool_decide_reflect (gs ∈ seen)) as [Hs|Hs]; cbn [negb].
  - destruct (IH _ _ Hinv) as [H1 ->]. split; [done|]. apply Hinv in Hs. set_solver.
  - destruct (IH ({[gs]} ∪ seen) (out ++ [gs])) as [H1 ->]; [set_solver|]. split; [done|].
    rewrite elem_of_app, list_elem_of_singleton. split.
    + intros [[?| ->]|(set' & ? & ?)]; [by left|right; exists set|right; exists set'];
        (split; [|done]); [by left|by right].
    + intros [?|(set' & [[= -> ->]|?]%elem_of_cons & ?)]; [auto..|]. right. by exists set'.
Qed.

Lemma elem_of_add_superusers t supers seen out s : (forall x, x ∈ out <-> x ∈ seen) ->
  s ∈ add_superusers t supers seen out <-> s ∈ out \/ (t, s) ∈ supers.
Proof.
  revert seen out. induction supers as [|[st ss] supers IH]; intros seen out Hinv;
    cbn [add_superusers]; [set_solver|].
  destruct (bool_decide_reflect (st = t)) as [->|Ht]; cbn [negb].
  2: { rewrite IH by done. set_solver. }
  destruct (bool_decide_reflect (ss ∈ seen)) as [Hs|Hs].
  - rewrite IH by done. apply Hinv in Hs. set_solver.
  - rewrite IH by set_solver. set_solver.
Qed.

Lemma dedup_subjects_spec subs seen out :
  (forall s, s ∈ subs -> Valid (sub_Tenant s) = true) ->
  (forall x, x ∈ out <-> x ∈ seen) -> NoDup out ->
  exists out', dedup_subjects subs seen out = Ret out' /\ NoDup out' /\
    forall s, s ∈ out' <-> s ∈ out \/ s ∈ subs.
Proof.
  revert seen out. induction subs as [|s subs IH]; intros seen out Hv Hinv Hnd;
    cbn [dedup_subjects].
  { exists out. split; [done|]. split; [done|]. set_solver. }
  rewrite (Hv s) by (by left). cbn [negb].
  assert (Hv' : forall s, s ∈ subs -> Valid (sub_Tenant s) = true) by (intros; apply Hv; by right).
  destruct (bool_decide_reflect (s ∈ seen)) as [Hs|Hs].
  - destruct (IH seen out Hv' Hinv Hnd) as (out' & -> & Hn & Ho). exists out'.
    do 2 (split; [done|]). intros x. rewrite Ho. apply Hinv in Hs. set_solver.
  - destruct (IH ({[s]} ∪ seen) (out ++ [s]) Hv') as (out' & -> & Hn & Ho); [set_solver| |].
    { apply NoDup_app. split; [done|]. split; [set_solver|apply NoDup_singleton]. }
    exists out'. do 2 (split; [done|]). intros x. rewrite Ho. set_solver.
Qed.

(** Over the grant store the set engine decides exactly the recorded
    grants, and [ListSubjects] enumerates exactly the subjects it allows,
    sorted and without repetition; a stored "*" never exists, so asking for
    the action "*" is allowed to superusers of that scope only. *)
Theorem MemPermission_decides (m : MemPermissionStore) (t : ID) (act : Action)
    (res : Resource) : rtc perm_step NewMemPermissionStore m -> Valid t = true ->
  (forall sub, Valid (sub_Tenant sub) = true ->
     exists d, PermissionSet_Check (MemPerm_store m) t sub act res = Ret d /\
       (Allowed d = true <-> holds m t sub act res) /\
       (act = SuperuserKey -> Allowed d = true -> (t, sub) ∈ superusers m)) /\
  (act <> "" -> exists subs,
     PermissionSet_ListSubjects (MemPerm_store m) t act res = Ret (subs, false) /\
     StronglySorted (key_le subject_key) subs /\ NoDup subs /\
     forall s, s ∈ subs <-> holds m t s act res).
Proof.
  intros [Hstar Hgate Hsup]%perms_reachable_ok Ht. split.
  - intros sub Hs. destruct (MemPerm_Check m t sub act res) as (d & Hd & Hiff);
      [by apply gate_Ret|].
    exists d. do 2 (split; [done|]). intros -> [_ [?|(set & Hset & Hin)]]%Hiff; [done|].
    by destruct (Hstar _ _ Hset).
  - intros Ha. assert (scopeGate t = Ret tt) as Hg by (by apply scopeGate_Ret).
    unfold PermissionSet_ListSubjects. rewrite Hg, (proj2 (String.eqb_neq _ _) Ha). go_simpl.
    cbn [MemPerm_store SubjectsWithPermission]. unfold MemPerm_SubjectsWithPermission.
    rewrite Hg. go_simpl.
    assert (Hmem : forall s, s ∈ add_superusers t (elements (superusers m))
        (holders t act res (map_to_list (grants m)) ∅ []).1
        (holders t act res (map_to_list (grants m)) ∅ []).2 <-> holds m t s act res).
    { intros s.
      destruct (elem_of_holders t act res (map_to_list (grants m)) ∅ [] s) as [Hinv Hs];
        [set_solver|].
      rewrite elem_of_add_superusers, Hs, elem_of_elements by done. unfold holds.
      setoid_rewrite elem_of_map_to_list. set_solver. }
    destruct (dedup_subjects_spec _ ∅ [] (fun s Hin =>
        match proj1 (Hmem s) Hin with conj _ H => match H with
        | or_introl Hsu => proj2 (proj1 (gate_Ret t s) (Hsup _ _ Hsu))
        | or_intror (ex_intro _ set (conj Hset _)) =>
            proj2 (proj1 (gate_Ret t s) (Hgate _ _ _ _ Hset)) end end))
      as (out & -> & Hnd & Hout); [set_solver|constructor|].
    go_simpl. eexists. split; [done|]. unfold sortSubjects. split; [apply sort_by_Sorted|].
    split; [by rewrite sort_by_Permutation|].
    intros s. rewrite elem_of_sort_by, Hout, Hmem. set_solver.
Qed.

Definition demo_perms : MemPermissionStore :=
  (GrantSuperuser (New "acme") (MkSubject (New "platform") "user" "root")
    (PermGrant (New "acme") demo_alice (MkResource "cluster" "c1") ["cluster.view"; "*"]
      NewMemPermissionStore).2).2.

Lemma MemPermission_decides_witness :
  rtc perm_step NewMemPermissionStore demo_perms /\
  exists subs, PermissionSet_ListSubjects (MemPerm_store demo_perms) (New "acme")
    "cluster.view" (MkResource "cluster" "c1") = Ret (subs, false) /\
    subs = [demo_alice; MkSubject (New "platform") "user" "root"].
Proof.
  assert (rtc perm_step NewMemPermissionStore demo_perms) as Hr.
  { eapply rtc_l; [apply step_perm_grant|]. eapply rtc_l; [apply step_perm_super|].
    apply rtc_refl. }
  split; [exact Hr|].
  destruct (MemPermission_decides demo_perms (New "acme") "cluster.view"
    (MkResource "cluster" "c1") Hr eq_refl) as [_ H].
  destruct H as (subs & Hs & _); [discriminate|].
  exists subs. split; [exact Hs|]. vm_compute in Hs. by injection Hs as <-.
Defined.

(** A write in one scope for one subject leaves every other subject's and every
    other scope's decisions as they were. *)
Lemma perm_write_isolated (t t' : ID) (sub sub' : Subject) (keys : list string)
    (res res' : Resource) (act : Action) (m : MemPermissionStore) :
  (t, sub) <> (t', sub') -> gate t sub = Ret tt ->
  PermissionSet_Check (MemPerm_store (PermGrant t' sub' res' keys m).2) t sub act res =
    PermissionSet_Check (MemPerm_store m) t sub act res /\
  PermissionSet_Check (MemPerm_store (GrantSuperuser t' sub' m).2) t sub act res =
    PermissionSet_Check (MemPerm_store m) t sub act res.
Proof.
  intros Hne Hg. unfold PermissionSet_Check. rewrite Hg. go_simpl.
  cbn [MemPerm_store PermissionsFor]. unfold MemPerm_PermissionsFor. rewrite Hg. go_simpl.
  unfold PermGrant, GrantSuperuser. destruct (gate t' sub') as [[]|?|?]; cbn; [|done..].
  split; [rewrite lookup_insert_ne by congruence; done|].
  destruct (String.eqb act ""); [done|].
  by rewrite (bool_decide_ext ((t, sub) ∈ {[(t', sub')]} ∪ superusers m)
    ((t, sub) ∈ superusers m)) by set_solver.
Qed.
