(* ===== verification/Bytes.v ===== *)
(** * Byte strings, digests and encodings

    What the packages use of Go's [encoding/binary], [encoding/hex],
    [encoding/base64], [encoding/base32], [crypto/sha256], [crypto/sha1] and
    [crypto/hmac]: big-endian words, the text encodings, the two hash functions
    of FIPS 180-4, and HMAC (RFC 2104), all executable. Theorems never unfold a hash; they use its length only, and name the
    colliding inputs where an argument needs collision resistance. *)

From S2P Require Import Prelude.

Definition bytes := list ascii.
Definition to_bytes (s : string) : bytes := String.list_ascii_of_string s.

Lemma to_bytes_inj s t : to_bytes s = to_bytes t -> s = t.
Proof.
  intros H. rewrite <- (String.string_of_list_ascii_of_string s).
  unfold to_bytes in H. rewrite H. apply String.string_of_list_ascii_of_string.
Qed.

Lemma to_bytes_length s : length (to_bytes s) = String.length s.
Proof. unfold to_bytes. induction s; cbn; congruence. Qed.

Lemma to_bytes_app s t : to_bytes (s +:+ t) = to_bytes s ++ to_bytes t.
Proof. unfold to_bytes. induction s as [|c s IH]; cbn; congruence. Qed.

(** [strings.Split(s, sep)], for one ASCII character. *)
Fixpoint split_on (sep : ascii) (s : bytes) : list bytes :=
  match s with
  | [] => [[]]
  | c :: s =>
      if Ascii.eqb c sep then [] :: split_on sep s
      else match split_on sep s with
           | part :: parts => (c :: part) :: parts
           | [] => [[c]]
           end
  end.
Abbreviation split_dots := (split_on "."%char).

Lemma split_on_part sep (p : bytes) : Forall (fun c => c <> sep) p -> split_on sep p = [p].
Proof.
  induction p as [|c p IH]; cbn; [done|]. intros [Hc Hp]%Forall_cons.
  rewrite (proj2 (Ascii.eqb_neq _ _) Hc), IH; done.
Qed.

Lemma split_on_app sep (p rest : bytes) : Forall (fun c => c <> sep) p ->
  split_on sep (p ++ sep :: rest) = p :: split_on sep rest.
Proof.
  induction p as [|c p IH]; cbn; [by rewrite Ascii.eqb_refl|]. intros [Hc Hp]%Forall_cons.
  rewrite (proj2 (Ascii.eqb_neq _ _) Hc), IH; done.
Qed.

(** ** Comma-separated lists *)

(** [strings.TrimSpace], and nothing for what is then empty. *)
Definition trimmed (s : string) : option string :=
  let t := trim_space s in if String.eqb t "" then None else Some t.
(** [strings.Split(s, ",")] with the segments trimmed and the empty ones dropped. *)
Definition comma_segments (s : string) : list string :=
  omap trimmed (map String.string_of_list_ascii (split_on ","%char (to_bytes s))).

Definition no_comma (s : string) : Prop := Forall (fun c => c <> ","%char) (to_bytes s).

Lemma split_concat names : names <> [] -> Forall no_comma names ->
  map String.string_of_list_ascii (split_on ","%char (to_bytes (String.concat "," names))) = names.
Proof.
  induction names as [|s names IH]; [done|]. intros _ [Hs Hall]%Forall_cons. cbn [String.concat].
  destruct names as [|s' names].
  - rewrite split_on_part by done. cbn. unfold to_bytes. by rewrite String.string_of_list_ascii_of_string.
  - rewrite !to_bytes_app. change (to_bytes ",") with [","%char]. cbn [app].
    rewrite split_on_app by done. cbn [map]. unfold to_bytes at 1.
    rewrite String.string_of_list_ascii_of_string. f_equal. by apply IH.
Qed.

(** ** Big-endian words *)

(** [binary.BigEndian.PutUint32], [PutUint64]: the [k] low bytes of [n]. *)
Fixpoint be (k : nat) (n : N) : bytes :=
  match k with
  | O => []
  | S k => be k (N.shiftr n 8) ++ [ascii_of_N (N.land n 255)]
  end.

(** [binary.BigEndian.Uint32] and the like. *)
Fixpoint of_be_acc (acc : N) (l : bytes) : N :=
  match l with
  | [] => acc
  | c :: l => of_be_acc (acc * 256 + N_of_ascii c) l
  end.
Definition of_be (l : bytes) : N := of_be_acc 0 l.

Lemma be_length k n : length (be k n) = k.
Proof. revert n. induction k as [|k IH]; intros n; cbn; [done|]. rewrite length_app, IH. cbn. lia. Qed.

(** Lengths of encodings and digests. *)
Create Rewrite HintDb bytes_len.
#[export] Hint Rewrite be_length (@length_app ascii) : bytes_len.

Lemma of_be_acc_app acc l1 l2 : of_be_acc acc (l1 ++ l2) = of_be_acc (of_be_acc acc l1) l2.
Proof. revert acc. induction l1 as [|c l1 IH]; intros acc; cbn; auto. Qed.

Lemma of_be_be k n : of_be (be k n) = (n mod 2 ^ (8 * N.of_nat k))%N.
Proof.
  unfold of_be. revert n. induction k as [|k IH]; intros n; cbn [be].
  - cbn. by rewrite N.mod_1_r.
  - rewrite of_be_acc_app, IH. cbn [of_be_acc].
    change 255%N with (N.ones 8). rewrite N.land_ones, N.shiftr_div_pow2.
    rewrite N_ascii_embedding by (apply N.mod_lt; discriminate).
    replace (8 * N.of_nat (S k))%N with (8 + 8 * N.of_nat k)%N by lia.
    rewrite N.pow_add_r, N.Div0.mod_mul_r. change (2 ^ 8)%N with 256%N. lia.
Qed.

(** Decoding inverts encoding, so encodings of words in range differ. *)
Lemma be_inj k n m : (n < 2 ^ (8 * N.of_nat k))%N -> (m < 2 ^ (8 * N.of_nat k))%N ->
  be k n = be k m -> n = m.
Proof.
  intros Hn Hm H. apply (f_equal of_be) in H. rewrite !of_be_be in H.
  by rewrite !N.mod_small in H.
Qed.

(** ** SHA-256 *)

Module Sha256.
Definition w32 (n : N) : N := N.land n 0xFFFFFFFF.
Definition rotr (k n : N) : N :=
  w32 (N.lor (N.shiftr n k) (N.shiftl n (32 - k))).
Definition add (a b : N) : N := w32 (a + b).

(** The constants of the standard: the first 32 bits of the fractional parts of
    the cube roots (for the rounds) and square roots (for the initial state) of
    the first primes. *)
Definition primes (n : nat) : list N :=
  firstn n (List.filter
    (fun p => forallb (fun d => negb (N.modulo p (N.of_nat d) =? 0)%N) (seq 2 (N.to_nat p - 2)))
    (map N.of_nat (seq 2 310))).
Fixpoint cube_root (bits : nat) (acc n : N) : N :=
  match bits with
  | O => acc
  | S bits =>
      let c := (acc + 2 ^ N.of_nat bits)%N in
      cube_root bits (if (c * c * c <=? n)%N then c else acc) n
  end.
Definition K : list N :=
  Eval vm_compute in map (fun p => w32 (cube_root 36 0 (p * 2 ^ 96))) (primes 64).

Definition state := (N * N * N * N * N * N * N * N)%type.
Definition init : state :=
  Eval vm_compute in
  match map (fun p => w32 (N.sqrt (p * 2 ^ 64))) (primes 8) with
  | [a; b; c; d; e; f; g; h] => (a, b, c, d, e, f, g, h)
  | _ => (0, 0, 0, 0, 0, 0, 0, 0)%N
  end.

(** The padded message: a one bit, zeros, and the bit length, in 64-byte
    blocks. *)
Definition pad (m : bytes) : bytes :=
  m ++ [ascii_of_N 128] ++ replicate (Z.to_nat ((55 - Z.of_nat (length m)) mod 64)) (ascii_of_N 0)
    ++ be 8 (8 * N.of_nat (length m)).

Fixpoint words (fuel : nat) (l : bytes) : list N :=
  match fuel with
  | O => []
  | S fuel => of_be (firstn 4 l) :: words fuel (skipn 4 l)
  end.

(** The message schedule, newest word first. *)
Fixpoint schedule (fuel : nat) (ws : list N) : list N :=
  match fuel with
  | O => ws
  | S fuel =>
      let w15 := nth 14 ws 0%N in let w2 := nth 1 ws 0%N in
      let s0 := N.lxor (N.lxor (rotr 7 w15) (rotr 18 w15)) (N.shiftr w15 3) in
      let s1 := N.lxor (N.lxor (rotr 17 w2) (rotr 19 w2)) (N.shiftr w2 10) in
      schedule fuel (w32 (nth 15 ws 0 + s0 + nth 6 ws 0 + s1)%N :: ws)
  end.

Definition round (st : state) (kw : N * N) : state :=
  let '(a, b, c, d, e, f, g, h) := st in
  let S1 := N.lxor (N.lxor (rotr 6 e) (rotr 11 e)) (rotr 25 e) in
  let ch := N.lxor (N.land e f) (N.land (N.lxor e 0xFFFFFFFF) g) in
  let t1 := w32 (h + S1 + ch + kw.1 + kw.2)%N in
  let S0 := N.lxor (N.lxor (rotr 2 a) (rotr 13 a)) (rotr 22 a) in
  let maj := N.lxor (N.lxor (N.land a b) (N.land a c)) (N.land b c) in
  (w32 (t1 + S0 + maj)%N, a, b, c, add d t1, e, f, g).

Definition compress (st : state) (block : bytes) : state :=
  let w := rev (schedule 48 (rev (words 16 block))) in
  let '(a, b, c, d, e, f, g, h) := st in
  let '(a', b', c', d', e', f', g', h') := fold_left round (combine K w) st in
  (add a a', add b b', add c c', add d d', add e e', add f f', add g g', add h h').

Fixpoint blocks (fuel : nat) (st : state) (l : bytes) : state :=
  match fuel with
  | O => st
  | S fuel => blocks fuel (compress st (firstn 64 l)) (skipn 64 l)
  end.

Definition digest (st : state) : bytes :=
  let '(a, b, c, d, e, f, g, h) := st in
  be 4 a ++ be 4 b ++ be 4 c ++ be 4 d ++ be 4 e ++ be 4 f ++ be 4 g ++ be 4 h.
End Sha256.

(** [sha256.Sum256]; [sha256.New], [Write]s and [Sum(nil)] hash the
    concatenation of what was written. *)
Definition sha256 (m : bytes) : bytes :=
  let p := Sha256.pad m in
  Sha256.digest (Sha256.blocks (length p / 64)%nat Sha256.init p).

Lemma sha256_length m : length (sha256 m) = 32.
Proof.
  unfold sha256. destruct (Sha256.blocks _ _ _) as [[[[[[[a b] c] d] e] f] g] h].
  unfold Sha256.digest. by autorewrite with bytes_len.
Qed.

#[export] Hint Rewrite sha256_length : bytes_len.

(** ** Hexadecimal *)

Definition hex_digit (n : N) : ascii :=
  ascii_of_N (if (n <? 10)%N then 48 + n else 87 + n).
(** [hex.EncodeToString] *)
Definition hex (l : bytes) : string :=
  String.string_of_list_ascii
    (concat (map (fun c => [hex_digit (N.shiftr (N_of_ascii c) 4);
                            hex_digit (N.land (N_of_ascii c) 15)]) l)).

Example sha256_abc :
  hex (sha256 (to_bytes "abc")) =
  "ba7816bf8f01cfea414140de5dae2223b00361a396177a9cb410ff61f20015ad"%string.
Proof. vm_compute. reflexivity. Qed.

#[global] Opaque sha256.

(** ** Base64 and base32

    [encoding/base64] ([RawURLEncoding] and [StdEncoding], both directions) and
    [encoding/base32] ([StdEncoding] without padding, encoding), executable. *)

#[local] Open Scope N_scope.

(** The alphabet of RFC 4648, section 5. *)
Definition b64_char (n : N) : ascii :=
  if n <? 26 then ascii_of_N (65 + n)
  else if n <? 52 then ascii_of_N (71 + n)
  else if n <? 62 then ascii_of_N (n - 4)
  else if n =? 62 then "-"%char
  else "_"%char.

Definition b64_value (c : ascii) : option N :=
  let n := N_of_ascii c in
  if (65 <=? n) && (n <=? 90) then Some (n - 65)
  else if (97 <=? n) && (n <=? 122) then Some (n - 71)
  else if (48 <=? n) && (n <=? 57) then Some (n + 4)
  else if n =? 45 then Some 62
  else if n =? 95 then Some 63
  else None.

Fixpoint b64_encode (l : list N) : list N :=
  match l with
  | b0 :: b1 :: b2 :: l =>
      b0 / 4 :: b0 mod 4 * 16 + b1 / 16 :: b1 mod 16 * 4 + b2 / 64 :: b2 mod 64 :: b64_encode l
  | [b0; b1] => [b0 / 4; b0 mod 4 * 16 + b1 / 16; b1 mod 16 * 4]
  | [b0] => [b0 / 4; b0 mod 4 * 16]
  | [] => []
  end.

(** The decoder is not strict: the unused low bits of the last character are
    dropped. One character left over is an error. *)
Fixpoint b64_decode (l : list N) : option (list N) :=
  match l with
  | c0 :: c1 :: c2 :: c3 :: l =>
      rest ← b64_decode l;
      Some (c0 * 4 + c1 / 16 :: c1 mod 16 * 16 + c2 / 4 :: c2 mod 4 * 64 + c3 :: rest)
  | [c0; c1; c2] => Some [c0 * 4 + c1 / 16; c1 mod 16 * 16 + c2 / 4]
  | [c0; c1] => Some [c0 * 4 + c1 / 16]
  | [_] => None
  | [] => Some []
  end.

(** [base64.RawURLEncoding.EncodeToString]. *)
Definition base64url (b : bytes) : bytes := map b64_char (b64_encode (map N_of_ascii b)).

(** [base64.RawURLEncoding.DecodeString]: carriage returns and line feeds are
    skipped, any other character outside the alphabet is an error. *)
Definition is_newline (c : ascii) : bool := (N_of_ascii c =? 10) || (N_of_ascii c =? 13).
Definition base64url_decode (b : bytes) : option bytes :=
  vs ← mapM b64_value (List.filter (fun c => negb (is_newline c)) b);
  ns ← b64_decode vs;
  Some (map ascii_of_N ns).

Definition below (k : nat) : list N := map N.of_nat (seq 0 k).

Lemma elem_of_below k n : n < N.of_nat k -> In n (below k).
Proof.
  intros H. apply in_map_iff. exists (N.to_nat n). split; [lia|]. apply in_seq. lia.
Qed.

Lemma b64_char_ok n : n < 64 ->
  b64_value (b64_char n) = Some n /\ is_newline (b64_char n) = false.
Proof.
  intros Hn. pose proof (elem_of_below 64 n Hn) as Hin. clear Hn; revert n Hin.
  apply List.Forall_forall.
  assert (forallb (fun n => bool_decide (b64_value (b64_char n) = Some n) &&
    negb (is_newline (b64_char n))) (below 64) = true) as H by (vm_compute; reflexivity).
  rewrite forallb_forall in H. apply List.Forall_forall. intros n Hin.
  specialize (H n Hin). bool_simpl. done.
Qed.

(** Three bytes at a time. *)
Lemma triples_ind (P : list N -> Prop) :
  P [] -> (forall a, P [a]) -> (forall a b, P [a; b]) ->
  (forall a b c l, P l -> P (a :: b :: c :: l)) -> forall l, P l.
Proof.
  intros H0 H1 H2 H3. fix IH 1. intros [|a [|b [|c l]]]; [done..|]. apply H3, IH.
Qed.

(** Linear arithmetic with quotients and remainders. *)
Ltac div_mod_lia := zify; Z.to_euclidean_division_equations; lia.

Lemma b64_encode_bound l : Forall (fun b => b < 256) l -> Forall (fun c => c < 64) (b64_encode l).
Proof.
  induction l using triples_ind; cbn [b64_encode]; intros H; decompose_Forall_hyps;
    repeat (apply Forall_cons; split; [div_mod_lia|]); auto using Forall_nil.
Qed.

Lemma b64_decode_encode l : Forall (fun b => b < 256) l -> b64_decode (b64_encode l) = Some l.
Proof.
  induction l as [|a|a b|a b c l IH] using triples_ind; cbn [b64_encode b64_decode];
    intros H; decompose_Forall_hyps; [| | |rewrite IH by done; cbn]; repeat f_equal; div_mod_lia.
Qed.

Lemma base64url_values l : Forall (fun c => c < 64) l ->
  mapM b64_value (List.filter (fun c => negb (is_newline c)) (map b64_char l)) = Some l.
Proof.
  induction 1 as [|c l Hc Hl IH]; cbn; [done|].
  destruct (b64_char_ok c Hc) as [Hv Hnl]. rewrite Hnl. cbn. by rewrite Hv, IH.
Qed.

(** The encoding holds no dot. *)
Lemma b64_char_not_dot n : (n < 64)%N -> b64_char n <> "."%char.
Proof.
  intros Hn. assert (In n (below 64)) as Hin by (apply elem_of_below; lia).
  assert (forallb (fun m => negb (Ascii.eqb (b64_char m) "."%char)) (below 64) = true) as Hall
    by (vm_compute; reflexivity).
  rewrite forallb_forall in Hall. specialize (Hall n Hin). intros He. by rewrite He in Hall.
Qed.

Lemma base64url_no_dot b : Forall (fun c => c <> "."%char) (base64url b).
Proof.
  unfold base64url. apply Forall_map. eapply Forall_impl.
  - apply b64_encode_bound. apply Forall_map, Forall_true. intros c. apply N_ascii_bounded.
  - cbn. apply b64_char_not_dot.
Qed.

(** Decoding undoes encoding. *)
Lemma base64url_decode_encode b : base64url_decode (base64url b) = Some b.
Proof.
  unfold base64url_decode, base64url.
  assert (Forall (fun n => n < 256) (map N_of_ascii b)) as Hb.
  { apply List.Forall_forall. intros n (c & <- & _)%in_map_iff. apply N_ascii_bounded. }
  rewrite base64url_values by by apply b64_encode_bound. cbn.
  rewrite b64_decode_encode by done. cbn. f_equal. rewrite map_map.
  induction b as [|c b IH]; cbn; [done|]. rewrite ascii_N_embedding. f_equal. apply IH.
  cbn in Hb. by apply Forall_cons in Hb as [_ ?].
Qed.

Lemma base64url_nonempty b : b <> [] -> base64url b <> [].
Proof. unfold base64url. by destruct b as [|? [|? [|? ?]]]. Qed.

Example base64url_vector :
  base64url (to_bytes "Tamper?>") = to_bytes "VGFtcGVyPz4" /\
  base64url_decode (to_bytes "VGFtcGVyPz4") = Some (to_bytes "Tamper?>") /\
  base64url_decode (to_bytes "VGFtcGVyPz4=") = None /\ base64url_decode (to_bytes "A") = None.
Proof. by vm_compute. Qed.

(** ** [StdEncoding] *)

(** The standard alphabet differs from the URL one in two characters. *)
Definition std_char (c : ascii) : ascii :=
  if Ascii.eqb c "-" then "+"%char else if Ascii.eqb c "_" then "/"%char else c.
Definition url_char (c : ascii) : option ascii :=
  if Ascii.eqb c "+" then Some "-"%char
  else if Ascii.eqb c "/" then Some "_"%char
  else if Ascii.eqb c "-" || Ascii.eqb c "_" then None
  else Some c.

Definition base64std (b : bytes) : bytes :=
  let l := map std_char (base64url b) in
  (l ++ repeat "="%char ((4 - length l mod 4) mod 4))%nat.

(** One or two characters of padding at the end. *)
Definition strip_pad (l : bytes) : bytes :=
  match reverse l with
  | [] => l
  | c1 :: r =>
      if Ascii.eqb c1 "=" then
        match r with
        | [] => reverse r
        | c2 :: r' => if Ascii.eqb c2 "=" then reverse r' else reverse r
        end
      else l
  end.
Definition base64std_decode (b : bytes) : option bytes :=
  let l := List.filter (fun c => negb (is_newline c)) b in
  if (length l mod 4 =? 0)%nat then body ← mapM url_char (strip_pad l); base64url_decode body
  else None.

(** [base64.URLEncoding.DecodeString]: with padding. *)
Definition base64url_padded_decode (b : bytes) : option bytes :=
  let l := List.filter (fun c => negb (is_newline c)) b in
  if (length l mod 4 =? 0)%nat then base64url_decode (strip_pad l) else None.

(** What the encoder writes. *)
Lemma base64url_alphabet b :
  Forall (fun c => url_char (std_char c) = Some c /\ std_char c <> "="%char /\
    is_newline (std_char c) = false) (base64url b).
Proof.
  unfold base64url. apply Forall_map. eapply Forall_impl.
  { apply b64_encode_bound. apply Forall_map, Forall_true. intros c. apply N_ascii_bounded. }
  intros n Hn. assert (In n (below 64)) as Hin by by apply elem_of_below.
  set (good := fun c => bool_decide (url_char (std_char c) = Some c) &&
    negb (Ascii.eqb (std_char c) "=") && negb (is_newline (std_char c))).
  assert (forallb (fun m => good (b64_char m)) (below 64) = true) as Hall
    by (vm_compute; reflexivity).
  rewrite forallb_forall in Hall. specialize (Hall n Hin). unfold good in Hall.
  rewrite !andb_true_iff, !negb_true_iff, bool_decide_eq_true, Ascii.eqb_neq in Hall. tauto.
Qed.

Lemma base64url_length b : (length (base64url b) mod 4 <> 1)%nat.
Proof.
  unfold base64url. rewrite length_map. generalize (map N_of_ascii b). intros l.
  induction l as [|b0|b0 b1|b0 b1 b2 l IH] using triples_ind; cbn [b64_encode length]; try done.
  replace (Datatypes.S _)%nat with (4 + length (b64_encode l))%nat by lia.
  by rewrite Nat.Div0.add_mod, Nat.Div0.mod_same, Nat.add_0_l, Nat.Div0.mod_mod.
Qed.

Lemma strip_pad_app l n : Forall (fun c => c <> "="%char) l -> (n <= 2)%nat ->
  strip_pad (l ++ repeat "="%char n) = l.
Proof.
  intros Hl Hn. unfold strip_pad.
  assert (match reverse l with [] => True | c :: _ => Ascii.eqb c "=" = false end) as Hlast.
  { destruct (reverse l) as [|c r] eqn:Hr; [done|]. apply Ascii.eqb_neq.
    rewrite Forall_forall in Hl. apply Hl. rewrite <- (reverse_involutive l), Hr.
    apply elem_of_reverse. by left. }
  destruct n as [|[|[|]]]; [| | |lia]; cbn [repeat]; rewrite ?app_nil_r.
  - destruct (reverse l); [done|]. by rewrite Hlast.
  - rewrite reverse_snoc. cbn. destruct (reverse l) as [|c r] eqn:Hr.
    + by rewrite <- (reverse_involutive l), Hr.
    + by rewrite Hlast, <- Hr, reverse_involutive.
  - change ["="; "="]%char with (["="] ++ ["="])%char. rewrite app_assoc, !reverse_snoc. cbn.
    by rewrite reverse_involutive.
Qed.

Lemma base64std_decode_encode b : base64std_decode (base64std b) = Some b.
Proof.
  unfold base64std_decode, base64std. pose proof (base64url_alphabet b) as Ha.
  pose proof (base64url_length b) as Hlen. rewrite length_map.
  set (n := ((4 - length (base64url b) mod 4) mod 4)%nat).
  assert (List.filter (fun c => negb (is_newline c))
    (map std_char (base64url b) ++ repeat "="%char n) =
    map std_char (base64url b) ++ repeat "="%char n) as ->.
  { apply List.forallb_filter_id, forallb_forall. intros c [Hc|Hc]%in_app_iff.
    - apply in_map_iff in Hc as (u & <- & Hu). rewrite List.Forall_forall in Ha.
      destruct (Ha u Hu) as (_ & _ & ->). done.
    - by apply repeat_spec in Hc as ->. }
  rewrite length_app, length_map, repeat_length.
  pose proof (Nat.mod_upper_bound (length (base64url b)) 4) as Hb.
  assert (((length (base64url b) + n) mod 4)%nat = 0%nat) as ->.
  { unfold n. rewrite Nat.Div0.add_mod, !Nat.Div0.mod_mod.
    destruct (length (base64url b) mod 4)%nat as [|[|[|[|]]]]; try done; lia. }
  cbn [Nat.eqb]. rewrite strip_pad_app.
  - assert (mapM url_char (map std_char (base64url b)) = Some (base64url b)) as ->.
    { clear -Ha. induction Ha as [|c l (Hc & _) _ IH]; cbn; [done|]. by rewrite Hc, IH. }
    cbn. apply base64url_decode_encode.
  - apply Forall_map. eapply Forall_impl; [exact Ha|]. cbn. tauto.
  - unfold n. destruct (length (base64url b) mod 4)%nat as [|[|[|[|]]]]; cbn; try lia; done.
Qed.

(** ** Base32 without padding *)

Definition b32_char (n : N) : ascii :=
  if n <? 26 then ascii_of_N (65 + n) else ascii_of_N (24 + n).
Fixpoint b32_encode (l : list N) : list N :=
  match l with
  | b0 :: b1 :: b2 :: b3 :: b4 :: l =>
      [b0 / 8; b0 mod 8 * 4 + b1 / 64; b1 / 2 mod 32; b1 mod 2 * 16 + b2 / 16;
       b2 mod 16 * 2 + b3 / 128; b3 / 4 mod 32; b3 mod 4 * 8 + b4 / 32; b4 mod 32] ++ b32_encode l
  | [b0; b1; b2; b3] =>
      [b0 / 8; b0 mod 8 * 4 + b1 / 64; b1 / 2 mod 32; b1 mod 2 * 16 + b2 / 16;
       b2 mod 16 * 2 + b3 / 128; b3 / 4 mod 32; b3 mod 4 * 8]
  | [b0; b1; b2] =>
      [b0 / 8; b0 mod 8 * 4 + b1 / 64; b1 / 2 mod 32; b1 mod 2 * 16 + b2 / 16; b2 mod 16 * 2]
  | [b0; b1] => [b0 / 8; b0 mod 8 * 4 + b1 / 64; b1 / 2 mod 32; b1 mod 2 * 16]
  | [b0] => [b0 / 8; b0 mod 8 * 4]
  | [] => []
  end.
Definition base32 (b : bytes) : bytes := map b32_char (b32_encode (map N_of_ascii b)).

Example base32_vector :
  base32 (to_bytes "foobar") = to_bytes "MZXW6YTBOI" /\ base32 (to_bytes "fooba") = to_bytes "MZXW6YTB".
Proof. by vm_compute. Qed.

#[global] Opaque base64url base64url_decode base64std base64std_decode.
