(* ===== verification/World.v ===== *)
(** * The world of an identity service

    A small state, error and trace monad for [src/crypto] and [src/identity].
    A call runs in a world: the state [S] of the application's store and the
    trace of what the process did so far. What comes from outside the program
    (the clock, random bytes, identifiers, bcrypt) is a function of the trace,
    so two readings may differ; the trace is also what the theorems on timing
    and ordering speak about. *)

From S2P Require Import Prelude Bytes.

(** What a call does besides computing. [EvStore] names a method of the
    application's store, [EvBcrypt] is one bcrypt comparison. *)
Inductive event :=
  | EvNow
  | EvNewID
  | EvRand
  | EvBcrypt (hash plain : string)
  | EvGenerate (plain : string)
  | EvAllow (key : string)
  | EvPolicy
  | EvSleep (d : Z)
  | EvStore (method : string)
  | EvHook (hook : string).

#[export] Instance event_eq_dec : EqDecision event.
Proof. solve_decision. Defined.

Abbreviation trace := (list event).

(** Code outside the repository, and the inputs of the process:
    [env_now] the injected clocks, [env_newID] the identifier generator,
    [env_rand] [rand.Read] of that many bytes, [env_bcrypt_hash] and [env_bcrypt_ok]
    [bcrypt.GenerateFromPassword] and [CompareHashAndPassword],
    [env_stub] the hash [stubHashBytes] keeps after its first call,
    [env_totp] [totp.ValidateCustom] of a code and a secret at that time,
    [env_unicode_lower] [strings.ToLower] on a string with a byte above 127,
    [env_numeric_date] [jwt.NewNumericDate]. *)
Record Env := {
  env_now : trace -> time;
  env_newID : trace -> string;
  env_rand : trace -> nat -> go bytes;
  env_bcrypt_hash : trace -> string -> go string;
  env_bcrypt_ok : string -> string -> bool;
  env_stub : go string;
  env_totp : trace -> string -> string -> go bool;
  env_unicode_lower : string -> string;
  env_numeric_date : time -> Z
}.

Record world (S : Type) := World { w_store : S; w_trace : trace }.
Arguments World {_} _ _.
Arguments w_store {_} _.
Arguments w_trace {_} _.

Definition M (S A : Type) : Type := world S -> go A * world S.

#[export] Instance M_ret {S} : MRet (M S) := fun _ a w => (Ret a, w).
#[export] Instance M_bind {S} : MBind (M S) := fun _ _ k m w =>
  match m w with
  | (Ret a, w) => k a w
  | (Fail e, w) => (Fail e, w)
  | (Panic why, w) => (Panic why, w)
  end.

Definition fail {S A} (e : error) : M S A := fun w => (Fail e, w).
Definition lift {S A} (m : go A) : M S A := fun w => (m, w).

(** [a, err := m; if err != nil { on_err(err) }; k(a)]. *)
Definition try_catch {S A B} (m : M S A) (on_err : error -> M S B) (k : A -> M S B) : M S B :=
  fun w =>
  match m w with
  | (Ret a, w) => k a w
  | (Fail e, w) => on_err e w
  | (Panic why, w) => (Panic why, w)
  end.

(** [if err != nil { return fmt.Errorf(label, ..., err) }]. *)
Definition wrap {S A} (f : error -> error) (m : M S A) : M S A := fun w =>
  let '(r, w) := m w in (wrap_err f r, w).

(** [_ = m]: whatever error is dropped. *)
Definition ignore_err {S A} (m : M S A) : M S unit :=
  try_catch m (fun _ => mret tt) (fun _ => mret tt).

Definition emit {S} (ev : event) : M S unit := fun w =>
  (Ret tt, World (w_store w) (w_trace w ++ [ev])).

(** Reads something that may depend on all that happened, and records it. *)
Definition observe {S A} (ev : event) (f : trace -> A) : M S A := fun w =>
  (Ret (f (w_trace w)), World (w_store w) (w_trace w ++ [ev])).

(** A method of the application's store. *)
Definition store_call {S A} (method : string) (op : S -> go A * S) : M S A := fun w =>
  let '(r, s) := op (w_store w) in (r, World s (w_trace w ++ [EvStore method])).

Section Env.
Context (E : Env) {S : Type}.

Definition now : M S time := observe EvNow (env_now E).
Definition newID : M S string := observe EvNewID (env_newID E).
Definition rand_read (n : nat) : M S bytes :=
  r ← observe EvRand (fun tr => env_rand E tr n); lift r.
End Env.

(** ** Running *)

Section run.
Context {S : Type}.
Implicit Type w : world S.


Lemma bind_inv {A B} (m : M S A) (k : A -> M S B) w r w' :
  (m ≫= k) w = (r, w') ->
  (exists a w1, m w = (Ret a, w1) /\ k a w1 = (r, w')) \/
  (exists e, m w = (Fail e, w') /\ r = Fail e) \/
  (exists why, m w = (Panic why, w') /\ r = Panic why).
Proof.
  unfold mbind, M_bind. destruct (m w) as [[a|e|why] w1]; intros H.
  - left. eauto.
  - right; left. injection H as <- <-. eauto.
  - right; right. injection H as <- <-. eauto.
Qed.

Lemma bind_Ret_inv {A B} (m : M S A) (k : A -> M S B) w b w' :
  (m ≫= k) w = (Ret b, w') -> exists a w1, m w = (Ret a, w1) /\ k a w1 = (Ret b, w').
Proof.
  intros [H|[(e & _ & [=])|(why & _ & [=])]]%bind_inv. done.
Qed.

Lemma try_catch_inv {A B} (m : M S A) on_err (k : A -> M S B) w r w' :
  try_catch m on_err k w = (r, w') ->
  (exists a w1, m w = (Ret a, w1) /\ k a w1 = (r, w')) \/
  (exists e w1, m w = (Fail e, w1) /\ on_err e w1 = (r, w')) \/
  (exists why, m w = (Panic why, w') /\ r = Panic why).
Proof.
  unfold try_catch. destruct (m w) as [[a|e|why] w1]; intros H.
  - left. eauto.
  - right; left. eauto.
  - right; right. injection H as <- <-. eauto.
Qed.

Lemma wrap_inv {A} f (m : M S A) w r w' :
  wrap f m w = (r, w') -> exists r1, m w = (r1, w') /\ r = wrap_err f r1.
Proof. unfold wrap. destruct (m w) as [r1 w1]. intros [= <- <-]. eauto. Qed.

Lemma wrap_Ret_inv {A} f (m : M S A) w a w' :
  wrap f m w = (Ret a, w') <-> m w = (Ret a, w').
Proof.
  unfold wrap. destruct (m w) as [r1 w1]. destruct r1; cbn; split; congruence.
Qed.

Lemma store_call_inv {A} method (op : S -> go A * S) w r w' :
  store_call method op w = (r, w') ->
  op (w_store w) = (r, w_store w') /\ w_trace w' = w_trace w ++ [EvStore method].
Proof. unfold store_call. destruct (op (w_store w)) as [r1 s]. intros [= <- <-]. done. Qed.

Lemma observe_inv {A} ev (f : trace -> A) w r w' :
  observe ev f w = (r, w') ->
  r = Ret (f (w_trace w)) /\ w' = World (w_store w) (w_trace w ++ [ev]).
Proof. by intros [= <- <-]. Qed.

Lemma emit_inv ev w r w' :
  emit ev w = (r, w') -> r = Ret tt /\ w' = World (w_store w) (w_trace w ++ [ev]).
Proof. by intros [= <- <-]. Qed.

Lemma lift_inv {A} (m : go A) w r w' : lift m w = (r, w') -> r = m /\ w' = w.
Proof. by intros [= <- <-]. Qed.

Lemma fail_inv {A} e w (r : go A) w' : fail e w = (r, w') -> r = Fail e /\ w' = w.
Proof. by intros [= <- <-]. Qed.

Lemma mret_inv {A} (a : A) w r w' : (mret a : M S A) w = (r, w') -> r = Ret a /\ w' = w.
Proof. by intros [= <- <-]. Qed.
End run.

(** Uses an equation between outcomes. *)
Ltac go_inj H :=
  lazymatch type of H with
  | Ret _ = Ret _ => try (injection H as H); try subst
  | Fail _ = Fail _ => try (injection H as H); try subst
  | Panic _ = Panic _ => try (injection H as H); try subst
  | Ret _ = Fail _ => discriminate H
  | Ret _ = Panic _ => discriminate H
  | Fail _ = Ret _ => discriminate H
  | Fail _ = Panic _ => discriminate H
  | Panic _ = Ret _ => discriminate H
  | Panic _ = Fail _ => discriminate H
  | _ => try subst
  end.

(** Every way a run can go, with the runs of its calls as hypotheses. *)
Ltac run_step H :=
  lazymatch type of H with
  | (_ ≫= _) _ = (_, _) =>
      let a := fresh "a" in let w := fresh "w" in let H1 := fresh "Hm" in
      let e := fresh "e" in let Hr := fresh "Hr" in
      apply bind_inv in H as [(a & w & H1 & H)|[(e & H & Hr)|(e & H & Hr)]];
      [run_step H1; run_step H | go_inj Hr; run_step H | go_inj Hr; run_step H]
  | try_catch _ _ _ _ = (_, _) =>
      let a := fresh "a" in let w := fresh "w" in let H1 := fresh "Hm" in
      let e := fresh "e" in let Hr := fresh "Hr" in
      apply try_catch_inv in H as [(a & w & H1 & H)|[(e & w & H1 & H)|(e & H & Hr)]];
      [run_step H1; run_step H | run_step H1; run_step H | go_inj Hr; run_step H]
  | wrap _ _ _ = (_, _) =>
      let r := fresh "r" in let Hr := fresh "Hr" in apply wrap_inv in H as (r & H & Hr);
      destruct r; cbn [wrap_err] in Hr; go_inj Hr; run_step H
  | store_call _ _ _ = _ =>
      let Hw := fresh "Hw" in apply store_call_inv in H as [H Hw]; cbn [w_store w_trace] in H, Hw
  | _ = _ =>
      let Hr := fresh "Hr" in let Hw := fresh "Hw" in
      first
        [ first [apply observe_inv in H | apply emit_inv in H | apply lift_inv in H
                | apply fail_inv in H | apply mret_inv in H];
          destruct H as [Hr Hw]; cbn [w_store w_trace] in Hw; go_inj Hr; try subst
        | match type of H with
          | (if ?b then _ else _) _ = _ => let Hb := fresh "Hb" in destruct b eqn:Hb; run_step H
          | match ?x with _ => _ end _ = _ => let Hb := fresh "Hb" in destruct x eqn:Hb; run_step H
          end
        | idtac ]
  end.

(** Takes a run apart into the runs of its calls. *)
Ltac inv_run :=
  repeat match goal with
  | H : (_ ≫= _) _ = (Ret _, _) |- _ =>
      let a := fresh "a" in let w := fresh "w" in let H1 := fresh "Hm" in
      apply bind_Ret_inv in H as (a & w & H1 & H)
  | H : wrap _ _ _ = (Ret _, _) |- _ => apply wrap_Ret_inv in H
  | H : fail _ _ = (Ret _, _) |- _ => discriminate H
  | H : mret _ _ = (Ret _, _) |- _ => injection H as H; try subst
  | H : (Ret _, _) = (Ret _, _) |- _ => injection H as H; try subst
  | H : (Fail _, _) = (Ret _, _) |- _ => discriminate H
  | H : (Panic _, _) = (Ret _, _) |- _ => discriminate H
  end.

(** ** Computations that leave the store alone *)

Definition quiet {S A} (m : M S A) : Prop :=
  forall w r w', m w = (r, w') -> exists l, w' = World (w_store w) (w_trace w ++ l).

Section quiet.
Context {S : Type}.

Lemma quiet_nothing (w : world S) : exists l, w = World (w_store w) (w_trace w ++ l).
Proof. exists []. rewrite app_nil_r. by destruct w. Qed.
Lemma quiet_trans (w1 w2 w3 : world S) :
  (exists l, w2 = World (w_store w1) (w_trace w1 ++ l)) ->
  (exists l, w3 = World (w_store w2) (w_trace w2 ++ l)) ->
  exists l, w3 = World (w_store w1) (w_trace w1 ++ l).
Proof. intros [l1 ->] [l2 ->]. exists (l1 ++ l2). cbn. by rewrite app_assoc. Qed.

Lemma quiet_bind {A B} (m : M S A) (k : A -> M S B) :
  quiet m -> (forall a, quiet (k a)) -> quiet (m ≫= k).
Proof.
  intros H1 H2 w r w' [(a & w1 & Hm & Hk)|[(e & Hm & ->)|(e & Hm & ->)]]%bind_inv; [|by eauto..].
  by eapply quiet_trans; [eapply H1|eapply H2].
Qed.
Lemma quiet_try_catch {A B} (m : M S A) on_err (k : A -> M S B) :
  quiet m -> (forall e, quiet (on_err e)) -> (forall a, quiet (k a)) -> quiet (try_catch m on_err k).
Proof.
  intros H1 He H2 w r w' [(a & w1 & Hm & Hk)|[(e & w1 & Hm & Hk)|(e & Hm & ->)]]%try_catch_inv;
    [| |by eauto].
  - by eapply quiet_trans; [eapply H1|eapply H2].
  - by eapply quiet_trans; [eapply H1|eapply He].
Qed.
Lemma quiet_wrap {A} f (m : M S A) : quiet m -> quiet (wrap f m).
Proof. intros H w r w' (r1 & Hm & ->)%wrap_inv. eauto. Qed.
Lemma quiet_fail {A} e : quiet (fail e : M S A).
Proof. intros w r w' [-> ->]%fail_inv. apply quiet_nothing. Qed.
Lemma quiet_mret {A} (a : A) : quiet (mret a : M S A).
Proof. intros w r w' [-> ->]%mret_inv. apply quiet_nothing. Qed.
Lemma quiet_lift {A} (m : go A) : quiet (lift m : M S A).
Proof. intros w r w' [-> ->]%lift_inv. apply quiet_nothing. Qed.
Lemma quiet_observe {A} ev (f : trace -> A) : quiet (observe ev f : M S A).
Proof. intros w r w' [-> ->]%observe_inv. eauto. Qed.
Lemma quiet_emit ev : quiet (emit ev : M S unit).
Proof. intros w r w' [-> ->]%emit_inv. eauto. Qed.

Lemma quiet_read {A} method (op : S -> go A * S) :
  (forall m, (op m).2 = m) -> quiet (store_call method op).
Proof.
  intros Hread w r w' [Hop Ht]%store_call_inv. specialize (Hread (w_store w)).
  rewrite Hop in Hread. cbn in Hread. destruct w' as [m tr]. cbn in *. subst. eauto.
Qed.

Lemma quiet_run {A} (m : M S A) w r w' : quiet m -> m w = (r, w') ->
  w_store w' = w_store w /\ w_trace w `prefix_of` w_trace w'.
Proof. intros H [l ->]%H. split; [done|]. by apply prefix_app_r. Qed.
End quiet.

Ltac quiet_tac := repeat first
  [ apply quiet_bind; [|intros ?] | apply quiet_try_catch; [|intros ?|intros ?]
  | apply quiet_wrap | apply quiet_fail | apply quiet_mret | apply quiet_lift
  | apply quiet_observe | apply quiet_emit
  | case_match ].
