(* ===== verification/Crypto.v ===== *)
(** * Passwords, refresh tokens and access tokens

    [src/crypto/password.go], [refresh.go] and the minting half of [jwt.go].
    bcrypt and the signing of a JWT (golang-jwt) are parameters; SHA-256,
    hexadecimal and base64url are executable. *)

From S2P Require Import Prelude Tenant Bytes World.

#[local] Open Scope string_scope.
#[local] Open Scope list_scope.
#[local] Open Scope Z_scope.

(** ** Refresh tokens (refresh.go) *)

Definition RefreshTokenBytes : nat := 32.

Definition HashRefreshToken (token : string) : go string :=
  if String.eqb token "" then
    Fail (Errorf1 "empty token" (Sentinel crypto_ErrInvalidRefreshToken))
  else
    match base64url_decode (to_bytes token) with
    | None => Fail (Errorf1 "not base64url" (Sentinel crypto_ErrInvalidRefreshToken))
    | Some _ => Ret (hex (sha256 (to_bytes token)))
    end.

(** The claims of an access token (jwt.go, [AccessClaims] with its embedded
    [RegisteredClaims]), dates as numeric dates. *)
Record AccessClaims := MkAccessClaims {
  cl_AuthTime : Z;
  cl_ACR : string;
  cl_AMR : list string;
  cl_Purpose : string;
  cl_TenantID : string;
  cl_HomeTenantID : string;
  cl_ActorID : string;
  cl_Subject : string;
  cl_Issuer : string;
  cl_IssuedAt : Z;
  cl_ExpiresAt : Z
}.

Record totpPendingClaims := MkPending {
  tp_Purpose : string;
  tp_TenantID : string;
  tp_Subject : string;
  tp_Issuer : string;
  tp_IssuedAt : Z;
  tp_ExpiresAt : Z
}.

(** What [sign] is handed: a [jwt.Claims] of one of two types. *)
Inductive Claims :=
  | AccessToken (c : AccessClaims)
  | PendingToken (c : totpPendingClaims).

Definition purposeAccess : string := "access".
Definition purposeTOTPPending : string := "totp_pending".
Definition ACRLocalPassword : string := "urn:tamper:auth:local-password".

(** [JWTService] with the signing of the library: [sign] of either branch is
    [SignedString] with the service's key. *)
Record JWTService := {
  jwt_ttl : Z;
  jwt_issuer : string;
  jwt_SignedString : Claims -> go string
}.

Definition AccessTTL (j : JWTService) : Z := jwt_ttl j.

(** [c.ActorTenantID()], [c.Entered()], [c.Impersonated()], [c.ActorUserID()]. *)
Definition ActorTenantID (c : AccessClaims) : string :=
  if negb (String.eqb (cl_HomeTenantID c) "") then cl_HomeTenantID c else cl_TenantID c.
Definition Entered (c : AccessClaims) : bool :=
  negb (String.eqb (cl_HomeTenantID c) "") && String.eqb (cl_ActorID c) "".
Definition Impersonated (c : AccessClaims) : bool := negb (String.eqb (cl_ActorID c) "").
Definition ActorUserID (c : AccessClaims) : string :=
  if negb (String.eqb (cl_ActorID c) "") then cl_ActorID c else cl_Subject c.

Definition HasMethod (c : option AccessClaims) (method : string) : bool :=
  match c with
  | None => false
  | Some c => negb (String.eqb method "") && existsb (String.eqb method) (cl_AMR c)
  end.

Definition invalid_token (label : string) : error :=
  Errorf1 label (Sentinel crypto_ErrInvalidToken).

Section Crypto.
Context (E : Env) {S : Type}.
Local Abbreviation M := (M S).

(** [NewRefreshToken]. *)
Definition NewRefreshToken : M string :=
  buf ← wrap (Errorf1 "auth: read random") (rand_read E RefreshTokenBytes);
  mret (String.string_of_list_ascii (base64url buf)).

(** ** Passwords (password.go) *)

Definition HashPassword (plain : string) : M string :=
  if String.eqb plain "" then
    fail (Errorf1 "password is empty" (Sentinel crypto_ErrInvalidPassword))
  else
    wrap (Errorf1 "auth: bcrypt generate")
      (r ← observe (EvGenerate plain) (fun tr => env_bcrypt_hash E tr plain); lift r).

Definition VerifyPassword (hash plain : string) : M unit :=
  emit (EvBcrypt hash plain);;
  if env_bcrypt_ok E hash plain then mret tt
  else fail (Errorf1 "mismatch" (Sentinel crypto_ErrInvalidPassword)).

(** [VerifyStub] always fails; it is called for the comparison it runs. *)
Definition VerifyStub (plain : string) : M unit :=
  match env_stub E with
  | Ret dummy =>
      emit (EvBcrypt dummy plain);;
      fail (Errorf1 "user not found" (Sentinel crypto_ErrInvalidPassword))
  | _ => fail (Errorf1 "stub hash unavailable" (Sentinel crypto_ErrInvalidPassword))
  end.

(** ** Minting (jwt.go) *)

(** The methods are copied; an empty one is refused. *)
Fixpoint copy_amr (amr : list string) : go (list string) :=
  match amr with
  | [] => Ret []
  | m :: amr =>
      if String.eqb m "" then Fail (invalid_token "amr contains an empty method")
      else rest ← copy_amr amr; Ret (m :: rest)
  end.

Definition issueAccessWithActor (j : JWTService) (userID act tid htid : string)
    (authTime : Z) (acr : string) (ttl : Z) (amr : list string) : M string :=
  if String.eqb userID "" then fail (invalid_token "sub is empty")
  else if authTime <=? 0 then fail (invalid_token "auth_time must be positive")
  else if String.eqb acr "" then fail (invalid_token "acr must be non-empty")
  else
    n ← now E;
    methods ← lift (copy_amr amr);
    wrap (Errorf1 "auth: sign jwt") (lift (jwt_SignedString j (AccessToken {|
      cl_AuthTime := authTime;
      cl_ACR := acr;
      cl_AMR := methods;
      cl_Purpose := purposeAccess;
      cl_TenantID := tid;
      cl_HomeTenantID := htid;
      cl_ActorID := act;
      cl_Subject := userID;
      cl_Issuer := jwt_issuer j;
      cl_IssuedAt := env_numeric_date E n;
      cl_ExpiresAt := env_numeric_date E (n + ttl)
    |}))).

Definition issueAccess (j : JWTService) (userID tid htid : string) (authTime : Z)
    (acr : string) (ttl : Z) (amr : list string) : M string :=
  issueAccessWithActor j userID "" tid htid authTime acr ttl amr.

Definition IssueAccess (j : JWTService) (userID : string) (tenantID : ID) (authTime : Z)
    (acr : string) (amr : list string) : M string :=
  if negb (Valid tenantID) then fail (Sentinel crypto_ErrTenantRequired)
  else issueAccess j userID (ID_String tenantID) "" authTime acr (jwt_ttl j) amr.

(** [if ttl <= 0 || ttl > j.ttl { ttl = j.ttl }]. *)
Definition cut_ttl (j : JWTService) (ttl : Z) : Z :=
  if (ttl <=? 0) || (jwt_ttl j <? ttl) then jwt_ttl j else ttl.

Definition IssueAccessEntered (j : JWTService) (userID : string) (tenantID homeTenantID : ID)
    (authTime : Z) (acr : string) (ttl : Z) (amr : list string) : M string :=
  if negb (Valid tenantID) || negb (Valid homeTenantID) then
    fail (Sentinel crypto_ErrTenantRequired)
  else if IsSingle tenantID || IsSingle homeTenantID || bool_decide (tenantID = homeTenantID) then
    fail (Sentinel crypto_ErrEnteredTenants)
  else
    issueAccess j userID (ID_String tenantID) (ID_String homeTenantID) authTime acr
      (cut_ttl j ttl) amr.

Definition IssueAccessImpersonated (j : JWTService) (target actor : string)
    (tenantID actorHome : ID) (authTime : Z) (acr : string) (ttl : Z) (amr : list string)
    : M string :=
  if String.eqb target "" || String.eqb actor "" then
    fail (invalid_token "an impersonated token needs a target and an actor")
  else if String.eqb target actor then fail (Sentinel crypto_ErrSelfImpersonation)
  else if negb (Valid tenantID) || negb (Valid actorHome) then
    fail (Sentinel crypto_ErrTenantRequired)
  else if IsSingle tenantID || IsSingle actorHome || bool_decide (tenantID = actorHome) then
    fail (Sentinel crypto_ErrEnteredTenants)
  else
    issueAccessWithActor j target actor (ID_String tenantID) (ID_String actorHome) authTime acr
      (cut_ttl j ttl) amr.

Definition IssueTOTPPending (j : JWTService) (userID : string) (tenantID : ID) : M string :=
  if negb (Valid tenantID) then fail (Sentinel crypto_ErrTenantRequired)
  else if String.eqb userID "" then fail (invalid_token "sub is empty")
  else
    n ← now E;
    wrap (Errorf1 "auth: sign totp-pending jwt") (lift (jwt_SignedString j (PendingToken {|
      tp_Purpose := purposeTOTPPending;
      tp_TenantID := ID_String tenantID;
      tp_Subject := userID;
      tp_Issuer := jwt_issuer j;
      tp_IssuedAt := env_numeric_date E n;
      tp_ExpiresAt := env_numeric_date E (n + 5 * 60 * 10 ^ 9)
    |}))).
End Crypto.

(** ** What a mint signs *)

Lemma copy_amr_Ret amr l : copy_amr amr = Ret l -> l = amr.
Proof.
  revert l. induction amr as [|m amr IH]; cbn; intros l; [by intros [= <-]|].
  destruct (String.eqb m ""); [done|]. intros (l' & Hl & [= <-])%go_bind_Ret_inv.
  by rewrite (IH l').
Qed.

Lemma issueAccessWithActor_signs E {S} j u act tid htid authTime acr ttl amr (w : world S) tok w' :
  issueAccessWithActor E j u act tid htid authTime acr ttl amr w = (Ret tok, w') ->
  w' = World (w_store w) (w_trace w ++ [EvNow]) /\ u <> "" /\ 0 < authTime /\ acr <> "" /\
  jwt_SignedString j (AccessToken (MkAccessClaims authTime acr amr purposeAccess tid htid act u
    (jwt_issuer j) (env_numeric_date E (env_now E (w_trace w)))
    (env_numeric_date E (env_now E (w_trace w) + ttl)))) = Ret tok.
Proof.
  unfold issueAccessWithActor. intros H. run_step H. bool_simpl.
  symmetry in Hr. apply copy_amr_Ret in Hr as ->. rewrite Z.leb_gt in *. eauto 8.
Qed.
