(* ===== verification/Secrets.v ===== *)
(** * Secrets at rest and the second factor's codes

    [src/crypto/keyset.go] (the key envelope and its rotation) and
    [src/crypto/totp.go] (secrets, recovery codes). AES-GCM is the record
    [AEAD], the interface [cipher.AEAD]; the TOTP algorithm (pquerna/otp) is a
    parameter of the environment. *)

From S2P Require Import Prelude Bytes World Crypto.

#[local] Open Scope string_scope.
#[local] Open Scope list_scope.

(** ** The key envelope (keyset.go) *)

(** [cipher.AEAD], without additional data. *)
Record AEAD := {
  ae_NonceSize : nat;
  ae_Seal : bytes -> bytes -> bytes;
  ae_Open : bytes -> bytes -> go bytes
}.

Definition kekHexLen : nat := 64.

(** [hex.DecodeString]. *)
Definition hex_value (c : ascii) : option N :=
  let n := N_of_ascii c in
  if ((48 <=? n) && (n <=? 57))%N then Some (n - 48)%N
  else if ((97 <=? n) && (n <=? 102))%N then Some (n - 87)%N
  else if ((65 <=? n) && (n <=? 70))%N then Some (n - 55)%N
  else None.
Fixpoint hex_decode (b : bytes) : option bytes :=
  match b with
  | [] => Some []
  | [_] => None
  | h :: l :: b =>
      hv ← hex_value h; lv ← hex_value l; rest ← hex_decode b;
      Some (ascii_of_N (hv * 16 + lv) :: rest)
  end.

(** A key identifier is a uint8, here its byte. *)
Abbreviation uint8 := ascii.
Definition uint8_zero : uint8 := "000"%char.
Definition uint8_lt (a b : uint8) : bool := (N_of_ascii a <? N_of_ascii b)%N.

Record KEKEntry := MkKEK { kek_ID : uint8; kek_Key : string }.
Record KeySet := MkKeySet { ks_keys : gmap uint8 AEAD; ks_writeKeyID : uint8 }.

(** The loop of [NewKeySet]: the keys so far and the largest identifier.
    [newAEAD] is [aes.NewCipher] followed by [cipher.NewGCM]. *)
Fixpoint add_keys (newAEAD : bytes -> go AEAD) (entries : list KEKEntry)
    (keys : gmap uint8 AEAD) (maxID : uint8) : go (gmap uint8 AEAD * uint8) :=
  match entries with
  | [] => Ret (keys, maxID)
  | e :: entries =>
      if Ascii.eqb (kek_ID e) uint8_zero then Fail (Sentinel crypto_ErrKeyIDZero)
      else match keys !! kek_ID e with
      | Some _ => Fail (Errorf0 "auth: keyset duplicate keyId")
      | None =>
          if negb (String.length (kek_Key e) =? kekHexLen)%nat then
            Fail (Errorf0 "auth: keyset key must be 64 hex chars")
          else match hex_decode (to_bytes (kek_Key e)) with
          | None => Fail (Errorf0 "auth: keyset hex-decode")
          | Some raw =>
              aead ← newAEAD raw;
              add_keys newAEAD entries (<[kek_ID e := aead]> keys)
                (if uint8_lt maxID (kek_ID e) then kek_ID e else maxID)
          end
      end
  end.

(** [None] is the nil set of a deployment without keys. *)
Definition NewKeySet (newAEAD : bytes -> go AEAD) (entries : list KEKEntry) (writeKeyID : uint8)
    : go (option KeySet) :=
  match entries with
  | [] => Ret None
  | _ =>
      km ← add_keys newAEAD entries ∅ uint8_zero;
      let w := if Ascii.eqb writeKeyID uint8_zero then km.2 else writeKeyID in
      match km.1 !! w with
      | None => Fail (Errorf0 "auth: keyset writeKeyID not in keyset")
      | Some _ => Ret (Some (MkKeySet km.1 w))
      end
  end.

Definition WriteKeyID (s : KeySet) : uint8 := ks_writeKeyID s.
Definition HasKeyID (s : KeySet) (id : uint8) : bool := bool_decide (is_Some (ks_keys s !! id)).

Definition secretbox_open : error := Sentinel crypto_ErrSecretBoxOpen.

(** The slices are in range: the length was compared. *)
Definition Open (s : KeySet) (envelope : bytes) : go bytes :=
  match envelope with
  | [] => Fail secretbox_open
  | keyID :: rest =>
      match ks_keys s !! keyID with
      | None => Fail (Sentinel crypto_ErrUnknownKeyID)
      | Some aead =>
          if (length envelope <? 1 + ae_NonceSize aead)%nat then Fail secretbox_open
          else wrap_err (fun _ => secretbox_open)
            (ae_Open aead (take (ae_NonceSize aead) rest) (drop (ae_NonceSize aead) rest))
      end
  end.

Definition open_base64 (open : bytes -> go bytes) (b64 : string) : go string :=
  match base64std_decode (to_bytes b64) with
  | None => Fail secretbox_open
  | Some sealed => plaintext ← open sealed; Ret (String.string_of_list_ascii plaintext)
  end.
Definition OpenBase64 (s : KeySet) : string -> go string := open_base64 (Open s).

(** [NewSecretBox]; [None] is nil, of a deployment without a key. *)
Definition NewSecretBox (newAEAD : bytes -> go AEAD) (kekHex : string) : go (option AEAD) :=
  if String.eqb kekHex "" then Ret None
  else if negb (String.length kekHex =? kekHexLen)%nat then
    Fail (Errorf0 "auth: secretbox KEK must be 64 hex chars")
  else match hex_decode (to_bytes kekHex) with
  | None => Fail (Errorf0 "auth: secretbox KEK hex-decode")
  | Some key => aead ← newAEAD key; Ret (Some aead)
  end.
Definition SB_Open (aead : AEAD) (sealed : bytes) : go bytes :=
  if (length sealed <? ae_NonceSize aead)%nat then Fail secretbox_open
  else wrap_err (fun _ => secretbox_open)
    (ae_Open aead (take (ae_NonceSize aead) sealed) (drop (ae_NonceSize aead) sealed)).
Definition SB_OpenBase64 (aead : AEAD) : string -> go string := open_base64 (SB_Open aead).

Section Secrets.
Context (E : Env) {S : Type}.
Local Abbreviation M := (M S).

Definition Seal (s : KeySet) (plaintext : bytes) : M bytes :=
  match ks_keys s !! ks_writeKeyID s with
  | None => fail (Errorf0 "auth: keyset seal: writeKeyID not in keyset")
  | Some aead =>
      nonce ← wrap (Errorf1 "auth: keyset nonce") (rand_read E (ae_NonceSize aead));
      mret (ks_writeKeyID s :: nonce ++ ae_Seal aead nonce plaintext)
  end.

Definition SealBase64 (s : KeySet) (plaintext : string) : M string :=
  sealed ← Seal s (to_bytes plaintext);
  mret (String.string_of_list_ascii (base64std sealed)).

(** ** One key, no envelope (secretbox.go) *)

Definition SB_Seal (aead : AEAD) (plaintext : bytes) : M bytes :=
  nonce ← wrap (Errorf1 "auth: secretbox nonce") (rand_read E (ae_NonceSize aead));
  mret (nonce ++ ae_Seal aead nonce plaintext).

Definition SB_SealBase64 (aead : AEAD) (plaintext : string) : M string :=
  sealed ← SB_Seal aead (to_bytes plaintext);
  mret (String.string_of_list_ascii (base64std sealed)).

(** ** Codes (totp.go) *)

Definition TOTPSecretBytes : nat := 20.
Definition TOTPRecoveryCodeCount : nat := 10.
Definition TOTPRecoveryCodeBytes : nat := 6.
Definition TOTPIssuer : string := "Barista".

Definition GenerateTOTPSecret : M string :=
  raw ← wrap (Errorf1 "auth: totp secret rand") (rand_read E TOTPSecretBytes);
  mret (String.string_of_list_ascii (base32 raw)).

Definition OTPAuthURI (secretBase32 accountEmail : string) : string :=
  "otpauth://totp/" +:+ TOTPIssuer +:+ ":" +:+ accountEmail +:+ "?secret=" +:+ secretBase32 +:+
  "&issuer=" +:+ TOTPIssuer +:+ "&algorithm=SHA1&digits=6&period=30".

(** [VerifyTOTPCode]: the library is asked at the time of the call. *)
Definition VerifyTOTPCode (secretBase32 code : string) : M unit :=
  if negb (String.length code =? 6)%nat then
    fail (Errorf1 "code length" (Sentinel crypto_ErrInvalidTOTPCode))
  else
    r ← observe EvNow (fun tr => env_totp E tr code secretBase32);
    match r with
    | Fail _ => fail (Errorf1 "validate" (Sentinel crypto_ErrInvalidTOTPCode))
    | Panic why => lift (Panic why)
    | Ret ok => if (ok : bool) then mret tt else fail (Sentinel crypto_ErrInvalidTOTPCode)
    end.

(** [enc[:5] + "-" + enc[5:]], and the panic of a short slice. *)
Definition hyphenate (enc : bytes) : go string :=
  if (length enc <? 5)%nat then Panic "slice bounds out of range"
  else Ret (String.string_of_list_ascii (take 5 enc ++ "-"%char :: drop 5 enc)).

Fixpoint recovery_codes (n : nat) : M (list string) :=
  match n with
  | O => mret []
  | Datatypes.S n =>
      raw ← wrap (Errorf1 "auth: recovery code rand") (rand_read E TOTPRecoveryCodeBytes);
      code ← lift (hyphenate (base32 raw));
      rest ← recovery_codes n;
      mret (code :: rest)
  end.
Definition GenerateTOTPRecoveryCodes : M (list string) := recovery_codes TOTPRecoveryCodeCount.

Fixpoint HashRecoveryCodes (codes : list string) : M (list string) :=
  match codes with
  | [] => mret []
  | c :: codes =>
      h ← wrap (Errorf1 "auth: hash recovery code")
        (r ← observe (EvGenerate c) (fun tr => env_bcrypt_hash E tr c); lift r);
      rest ← HashRecoveryCodes codes;
      mret (h :: rest)
  end.

(** The switch over the runes of the input. A byte of a multi-byte rune, or of
    an invalid one, is none of the letters and digits. *)
Definition code_char (c : ascii) : option ascii :=
  let n := N_of_ascii c in
  if ((97 <=? n) && (n <=? 122))%N then Some (ascii_of_N (n - 32))
  else if (((65 <=? n) && (n <=? 90)) || ((48 <=? n) && (n <=? 57)))%N then Some c
  else None.
Definition strip (s : string) : bytes := omap code_char (to_bytes s).
Definition normaliseRecoveryCode (s : string) : string :=
  let raw := strip s in
  if (length raw =? 10)%nat then
    String.string_of_list_ascii (take 5 raw ++ "-"%char :: drop 5 raw)
  else String.string_of_list_ascii raw.

Fixpoint match_hashes (candidate : string) (hashes : list string) : M (option string) :=
  match hashes with
  | [] => mret None
  | h :: hashes =>
      emit (EvBcrypt h candidate);;
      if env_bcrypt_ok E h candidate then mret (Some h) else match_hashes candidate hashes
  end.
Definition MatchRecoveryCode (code : string) (hashes : list string) : M (option string) :=
  match_hashes (normaliseRecoveryCode code) hashes.
End Secrets.

(** ** The envelope survives rotation *)

Section Envelope.
Context (E : Env) {S : Type}.

(** [cipher.AEAD] opens what it sealed under the same nonce. *)
Definition aead_ok (a : AEAD) : Prop := forall nonce plaintext,
  length nonce = ae_NonceSize a -> ae_Open a nonce (ae_Seal a nonce plaintext) = Ret plaintext.

(** [rand.Read] fills the slice it is given. *)
Hypothesis rand_fills : forall tr n b, env_rand E tr n = Ret b -> length b = n.

Lemma rand_read_Ret n (w : world S) b w' : rand_read E n w = (Ret b, w') -> length b = n.
Proof. unfold rand_read. intros H. run_step H. symmetry in Hr. by eapply rand_fills. Qed.

Lemma Seal_Ret s plaintext (w : world S) env w' :
  Seal E s plaintext w = (Ret env, w') ->
  exists a nonce, ks_keys s !! ks_writeKeyID s = Some a /\ length nonce = ae_NonceSize a /\
    env = ks_writeKeyID s :: nonce ++ ae_Seal a nonce plaintext.
Proof.
  unfold Seal. destruct (ks_keys s !! ks_writeKeyID s) as [a|]; [|done].
  intros (nonce & w1 & Hn%wrap_Ret_inv%rand_read_Ret & [[= ->] _]%mret_inv)%bind_Ret_inv. eauto.
Qed.

(** What one key set sealed, every key set that still holds its write key
    opens to the same plaintext, whatever keys were added since and whichever is
    now written with; a set the key was retired from says that the key is
    unknown, and not that the secret was tampered with. The base64 form that
    goes into text columns behaves the same. *)
Theorem KeySet_rotation s s' plaintext (w : world S) env w' b64 w'' :
  (forall a, ks_keys s !! ks_writeKeyID s = Some a -> aead_ok a) ->
  Seal E s (to_bytes plaintext) w = (Ret env, w') ->
  SealBase64 E s plaintext w = (Ret b64, w'') ->
  (ks_keys s' !! WriteKeyID s = ks_keys s !! WriteKeyID s ->
     Open s' env = Ret (to_bytes plaintext) /\ OpenBase64 s' b64 = Ret plaintext) /\
  (HasKeyID s' (WriteKeyID s) = false ->
     Open s' env = Fail (Sentinel crypto_ErrUnknownKeyID) /\
     OpenBase64 s' b64 = Fail (Sentinel crypto_ErrUnknownKeyID)).
Proof.
  intros Hok Hs Hb. unfold SealBase64, mbind, M_bind in Hb. rewrite Hs in Hb. injection Hb as <- _.
  apply Seal_Ret in Hs as (a & nonce & Ha & Hn & ->). specialize (Hok a Ha).
  unfold OpenBase64, open_base64, to_bytes, HasKeyID, WriteKeyID.
  rewrite String.list_ascii_of_string_of_list_ascii, base64std_decode_encode. cbn.
  split.
  - rewrite Ha. intros ->. rewrite <- Hn, (proj2 (Nat.ltb_ge _ _)) by (rewrite length_app; lia).
    rewrite take_app_length, drop_app_length, Hok by done. cbn.
    by rewrite String.string_of_list_ascii_of_string.
  - intros Hk%bool_decide_eq_false. destruct (ks_keys s' !! ks_writeKeyID s); [|done].
    destruct Hk. eauto.
Qed.
End Envelope.

(** ** What a key set is *)

Section KeySets.
Context (newAEAD : bytes -> go AEAD).

Lemma add_keys_Ret entries keys m keys' m' :
  add_keys newAEAD entries keys m = Ret (keys', m') ->
  NoDup (map kek_ID entries) /\ Forall (fun id => id <> uint8_zero) (map kek_ID entries) /\
  (forall id, is_Some (keys' !! id) <-> is_Some (keys !! id) \/ id ∈ map kek_ID entries) /\
  (N_of_ascii m <= N_of_ascii m')%N /\ (m' = m \/ m' ∈ map kek_ID entries) /\
  (forall id, id ∈ map kek_ID entries -> keys !! id = None /\ (N_of_ascii id <= N_of_ascii m')%N).
Proof.
  revert keys m. induction entries as [|e entries IH]; intros keys m; cbn [add_keys map].
  { intros [= <- <-]. split_and!; [constructor|constructor|set_solver|lia|by left|set_solver]. }
  destruct (Ascii.eqb_spec (kek_ID e) uint8_zero) as [|Hz]; [done|].
  destruct (keys !! kek_ID e) eqn:Hk; [done|]. case_match; [done|].
  destruct (hex_decode _) as [raw|]; [|done].
  intros (aead & _ & (Hnd & Hnz & Hin & Hle & Hm & Hids)%IH)%go_bind_Ret_inv.
  assert (kek_ID e ∉ map kek_ID entries) as Hnew.
  { intros [Hi _]%Hids. by rewrite lookup_insert_eq in Hi. }
  assert (N_of_ascii m <= N_of_ascii m' /\ N_of_ascii (kek_ID e) <= N_of_ascii m')%N as [Hle1 Hle2].
  { unfold uint8_lt in Hle. destruct (N.ltb_spec (N_of_ascii m) (N_of_ascii (kek_ID e))); lia. }
  split_and!; [by constructor|by constructor| |done| |].
  - intros id. rewrite Hin, elem_of_cons. destruct (decide (id = kek_ID e)) as [->|Hne].
    + rewrite lookup_insert_eq. naive_solver.
    + rewrite lookup_insert_ne by done. naive_solver.
  - rewrite elem_of_cons. destruct (uint8_lt _ _); naive_solver.
  - intros id [->|Hid]%elem_of_cons; [done|]. destruct (Hids id Hid) as [Hl ?]. split; [|done].
    rewrite lookup_insert_ne in Hl; [done|]. by intros <-.
Qed.

(** A key set holds exactly the keys it was given, under distinct identifiers
    that are not 0, and it can write: with the key asked for, or with the
    largest identifier when none was. *)
Lemma NewKeySet_ok entries writeKeyID s :
  NewKeySet newAEAD entries writeKeyID = Ret (Some s) ->
  NoDup (map kek_ID entries) /\ HasKeyID s uint8_zero = false /\
  (forall id, HasKeyID s id = true <-> id ∈ map kek_ID entries) /\
  HasKeyID s (WriteKeyID s) = true /\
  (writeKeyID <> uint8_zero -> WriteKeyID s = writeKeyID) /\
  (writeKeyID = uint8_zero -> forall id, HasKeyID s id = true ->
     (N_of_ascii id <= N_of_ascii (WriteKeyID s))%N).
Proof.
  unfold NewKeySet, HasKeyID, WriteKeyID. destruct entries as [|e entries]; [done|].
  set (all := e :: entries). intros ([keys m] & (Hnd & Hnz & Hin & _ & _ & Hids)%add_keys_Ret & H)%go_bind_Ret_inv.
  cbn [fst snd] in H. set (w := if Ascii.eqb writeKeyID uint8_zero then m else writeKeyID) in *.
  destruct (keys !! w) eqn:Hw; [|done]. injection H as <-. cbn.
  assert (forall id, is_Some (keys !! id) <-> id ∈ map kek_ID all) as Hin'.
  { intros id. rewrite Hin, lookup_empty. split; [intros [[? [=]]|?]; done|by right]. }
  split_and!; [done| | | | |].
  - apply bool_decide_eq_false. rewrite Hin'. intros Hz. rewrite Forall_forall in Hnz. by apply (Hnz _ Hz).
  - intros id. by rewrite bool_decide_eq_true, Hin'.
  - apply bool_decide_eq_true. eauto.
  - intros Hne. unfold w. by rewrite (proj2 (Ascii.eqb_neq _ _) Hne).
  - intros -> id. rewrite bool_decide_eq_true, Hin'. intros Hid. unfold w. cbn. by apply Hids.
Qed.
End KeySets.

(** ** Recovery codes are typed as people type *)

Section Recovery.
Context (E : Env) {S : Type}.
Hypothesis rand_fills : forall tr n b, env_rand E tr n = Ret b -> length b = n.

Lemma normalise_strip s t : strip s = strip t -> normaliseRecoveryCode s = normaliseRecoveryCode t.
Proof. unfold normaliseRecoveryCode. by intros ->. Qed.

Lemma b32_char_code n : (n < 32)%N -> code_char (b32_char n) = Some (b32_char n).
Proof.
  intros Hn. assert (In n (below 32)) as Hin by by apply elem_of_below.
  assert (forallb (fun m => bool_decide (code_char (b32_char m) = Some (b32_char m))) (below 32) = true)
    as Hall by (vm_compute; reflexivity).
  rewrite forallb_forall in Hall. by apply (bool_decide_eq_true_1 _), Hall.
Qed.

Lemma six_bytes (raw : bytes) : length raw = 6%nat ->
  length (base32 raw) = 10%nat /\ omap code_char (base32 raw) = base32 raw.
Proof.
  destruct raw as [|c0 [|c1 [|c2 [|c3 [|c4 [|c5 [|]]]]]]]; try discriminate. intros _.
  unfold base32. cbn [map b32_encode app length]. split; [done|].
  pose proof (N_ascii_bounded c0). pose proof (N_ascii_bounded c1). pose proof (N_ascii_bounded c2).
  pose proof (N_ascii_bounded c3). pose proof (N_ascii_bounded c4). pose proof (N_ascii_bounded c5).
  cbn [omap list_omap]. by rewrite !b32_char_code by div_mod_lia.
Qed.

Lemma omap_app_code (l1 l2 : bytes) : omap code_char (l1 ++ l2) = omap code_char l1 ++ omap code_char l2.
Proof. induction l1 as [|c l1 IH]; cbn; [done|]. destruct (code_char c); cbn; by rewrite IH. Qed.

Lemma hyphenate_canonical raw code : length raw = 6%nat -> hyphenate (base32 raw) = Ret code ->
  strip code = base32 raw /\ normaliseRecoveryCode code = code.
Proof.
  intros [Hl Ho]%six_bytes. unfold hyphenate. rewrite Hl. intros [= <-].
  assert (strip (String.string_of_list_ascii (take 5 (base32 raw) ++ "-"%char :: drop 5 (base32 raw)))
    = base32 raw) as Hs.
  { unfold strip, to_bytes. rewrite String.list_ascii_of_string_of_list_ascii, omap_app_code.
    cbn [omap list_omap]. replace (code_char "-") with (@None ascii) by done.
    rewrite <- omap_app_code, take_drop. done. }
  split; [done|]. unfold normaliseRecoveryCode. by rewrite Hs, Hl.
Qed.

Lemma recovery_codes_canonical n (w : world S) codes w' :
  recovery_codes E n w = (Ret codes, w') ->
  length codes = n /\ Forall (fun c => normaliseRecoveryCode c = c /\ length (strip c) = 10%nat) codes.
Proof.
  revert w codes w'. induction n as [|n IH]; intros w codes w'; cbn.
  { intros [[= ->] ->]%mret_inv. by split; [|constructor]. }
  intros (raw & w1 & Hraw%wrap_Ret_inv%(rand_read_Ret E rand_fills) & H)%bind_Ret_inv.
  apply bind_Ret_inv in H as (code & w2 & [Hc _]%lift_inv & H). symmetry in Hc.
  apply bind_Ret_inv in H as (rest & w3 & (Hl & Hf)%IH & [[= ->] _]%mret_inv).
  destruct (hyphenate_canonical raw code Hraw Hc) as [Hs Hn]. destruct (six_bytes raw Hraw) as [H10 _].
  split; [cbn; by rewrite Hl|]. constructor; [|done]. by rewrite Hs.
Qed.

(** A recovery code is recognised however it is typed. Ten codes come out,
    each already in the form that is hashed; and a text that has the letters
    and digits of a code in any case, with or without the hyphen, amid spaces
    or punctuation, is matched exactly as the code itself is, against any list
    of hashes. *)
Theorem MatchRecoveryCode_forgives (w : world S) codes w' :
  GenerateTOTPRecoveryCodes E w = (Ret codes, w') ->
  length codes = TOTPRecoveryCodeCount /\
  forall code typed hashes w1, code ∈ codes -> strip typed = strip code ->
    MatchRecoveryCode E typed hashes w1 = MatchRecoveryCode E code hashes w1 /\
    MatchRecoveryCode E code hashes w1 = match_hashes (S := S) E code hashes w1.
Proof.
  intros [Hl Hf]%recovery_codes_canonical. split; [done|]. intros code typed hashes w1 Hc Hs.
  rewrite Forall_forall in Hf. destruct (Hf code Hc) as [Hn _].
  unfold MatchRecoveryCode. rewrite (normalise_strip _ _ Hs), Hn. done.
Qed.

(** What a match answers: the first hash bcrypt accepts. *)
Lemma match_hashes_run candidate hashes (w : world S) r w' :
  match_hashes E candidate hashes w = (r, w') ->
  w_store w' = w_store w /\
  r = Ret (List.find (fun h => env_bcrypt_ok E h candidate) hashes).
Proof.
  revert w. induction hashes as [|h hashes IH]; intros w; cbn.
  { by intros [-> ->]%mret_inv. }
  intros [(u & w1 & He & H)|[(e & He & _)|(why & He & _)]]%bind_inv;
    apply emit_inv in He as [He Hw]; [|done..].
  destruct (env_bcrypt_ok E h candidate).
  - apply mret_inv in H as [-> ->]. by rewrite Hw.
  - apply IH in H as [Hs ->]. by rewrite Hs, Hw.
Qed.
End Recovery.

(** ** At concrete inputs *)

(** A toy cipher: the plaintext between the key and the nonce. *)
Definition toy_aead (key : bytes) : AEAD := {|
  ae_NonceSize := 12;
  ae_Seal nonce p := key ++ p ++ nonce;
  ae_Open nonce c :=
    if decide (take (length key) c = key /\ drop (length c - 12) c = nonce) then
      Ret (take (length c - length key - 12) (drop (length key) c))
    else Fail (AppError "cipher: message authentication failed")
|}.

Lemma toy_aead_ok key : aead_ok (toy_aead key).
Proof.
  intros nonce p Hn. cbn in *. rewrite take_app_length, !length_app, Hn.
  replace (length key + (length p + 12) - 12)%nat with (length key + length p)%nat by lia.
  replace (length key + (length p + 12) - length key - 12)%nat with (length p) by lia.
  assert (drop (length key + length p) (key ++ p ++ nonce) = nonce) as ->.
  { rewrite app_assoc, <- length_app. by rewrite drop_app_length. }
  rewrite decide_True by done. by rewrite drop_app_length, take_app_length.
Qed.

Definition old_keys : KeySet := MkKeySet {["001"%char := toy_aead ["a"%char]]} "001"%char.
Definition new_keys : KeySet :=
  MkKeySet (<["002"%char := toy_aead ["b"%char]]> {["001"%char := toy_aead ["a"%char]]}) "002"%char.
Definition demo_rand : Env := {|
  env_now tr := 0%Z; env_newID _ := ""; env_rand _ n := Ret (repeat "r"%char n);
  env_bcrypt_hash _ p := Ret p; env_bcrypt_ok h p := String.eqb h p; env_stub := Ret "";
  env_totp _ _ _ := Ret false; env_unicode_lower s := s; env_numeric_date t := t
|}.
Lemma demo_rand_fills tr n b : env_rand demo_rand tr n = Ret b -> length b = n.
Proof. intros [= <-]. apply repeat_length. Qed.

Definition sealed_run := Seal demo_rand old_keys (to_bytes "s3cret") (World tt []).
Definition sealed64_run := SealBase64 demo_rand old_keys "s3cret" (World tt []).

Lemma KeySet_rotation_witness : exists env,
  Open new_keys env = Ret (to_bytes "s3cret") /\ Open old_keys env = Ret (to_bytes "s3cret").
Proof.
  assert (forall a, ks_keys old_keys !! ks_writeKeyID old_keys = Some a -> aead_ok a) as Hok.
  { intros a. cbn. rewrite lookup_singleton_eq. intros [= <-]. apply toy_aead_ok. }
  destruct sealed_run as [[env|e|why] w'] eqn:H1; [|vm_compute in H1; discriminate H1..].
  destruct sealed64_run as [[b64|e|why] w''] eqn:H2; [|vm_compute in H2; discriminate H2..].
  destruct (KeySet_rotation demo_rand demo_rand_fills old_keys new_keys "s3cret" (World tt []) env w' b64 w''
    Hok H1 H2) as [Hnew _].
  destruct (KeySet_rotation demo_rand demo_rand_fills old_keys old_keys "s3cret" (World tt []) env w' b64 w''
    Hok H1 H2) as [Hold _].
  exists env. exact (conj (proj1 (Hnew eq_refl)) (proj1 (Hold eq_refl))).
Defined.

Definition demo_codes := GenerateTOTPRecoveryCodes demo_rand (World tt []).

Lemma MatchRecoveryCode_forgives_witness :
  MatchRecoveryCode demo_rand " ojzhe4tsoi." ["OJZHE-4TSOI"] (World tt []) =
  MatchRecoveryCode demo_rand "OJZHE-4TSOI" ["OJZHE-4TSOI"] (World tt []).
Proof.
  destruct demo_codes as [[codes|e|why] w'] eqn:H; [|vm_compute in H; discriminate H..].
  destruct (MatchRecoveryCode_forgives demo_rand demo_rand_fills (World tt []) codes w' H) as [_ Hm].
  apply Hm; [|reflexivity]. vm_compute in H. injection H as <- _. left.
Defined.
