(* ===== verification/IdpManager.v ===== *)
(** * Identity-provider managers

    What [src/oidc/manager.go] and [src/saml/manager.go] share: the CRUD over a
    provider store with the secret sealed at rest, the re-sealing after a key
    rotation, and the per-tenant cache of live registries. The two packages have
    the same code over different record types; [Shape] is what differs.

    The manager's state is the application's store beside the cache. A section
    the code runs under the manager's mutex is one step; [GetRegistry] and
    [Reload] are composed of such steps, so that other calls can fall between. *)

From S2P Require Import Prelude Tenant Bytes World Secrets.

#[local] Open Scope string_scope.
#[local] Open Scope list_scope.
#[local] Open Scope Z_scope.

(** ** What the packages differ in *)

(** A stored record and the boundary definition of one package. *)
Class Shape (Rec Def : Type) := {
  rec_ID : Rec -> string;
  rec_sealed : Rec -> bytes;
  rec_DisplayName : Rec -> string;
  rec_Enabled : Rec -> bool;
  rec_CreatedAt : Rec -> time;
  set_sealed : bytes -> time -> Rec -> Rec;
  set_times : time -> time -> Rec -> Rec;
  rec_UpdatedAt : Rec -> time;
  def_ID : Def -> string;
  def_secret : Def -> string;
  def_set_times : time -> time -> Def -> Def;
  recordFromDefinition : Def -> bytes -> Rec;
  definition_of : Rec -> string -> Def;
  errNoKeySet : error;
  errProviderExists : error;
  errProviderNotFound : error
}.

(** Records and definitions are the same fields but for the secret. *)
Class ShapeLaws {Rec Def} (Sh : Shape Rec Def) := {
  sealed_of_record d s : rec_sealed (recordFromDefinition d s) = s;
  id_of_record d s : rec_ID (recordFromDefinition d s) = def_ID d;
  definition_of_record d s : definition_of (recordFromDefinition d s) (def_secret d) = d;
  definition_of_times c u r p : definition_of (set_times c u r) p = def_set_times c u (definition_of r p);
  set_sealed_sealed s t r : rec_sealed (set_sealed s t r) = s;
  set_sealed_id s t r : rec_ID (set_sealed s t r) = rec_ID r;
  set_times_sealed c u r : rec_sealed (set_times c u r) = rec_sealed r;
  set_times_id c u r : rec_ID (set_times c u r) = rec_ID r;
  set_times_times c u r : rec_CreatedAt (set_times c u r) = c /\ rec_UpdatedAt (set_times c u r) = u
}.

(** [ProviderStore], the application's port. *)
Record ProviderStore (S Rec : Type) := {
  InsertProvider : Rec -> S -> go unit * S;
  GetProvider : string -> S -> go Rec * S;
  ListProviders : S -> go (list Rec) * S;
  ListEnabledProviders : ID -> S -> go (list Rec) * S;
  UpdateProvider : Rec -> S -> go unit * S;
  UpdateProviderSealed : string -> bytes -> time -> S -> go unit * S;
  DeleteProvider : string -> S -> go unit * S
}.
Arguments InsertProvider {_ _} _.
Arguments GetProvider {_ _} _.
Arguments ListProviders {_ _} _.
Arguments ListEnabledProviders {_ _} _.
Arguments UpdateProvider {_ _} _.
Arguments UpdateProviderSealed {_ _} _.
Arguments DeleteProvider {_ _} _.

(** ** State *)

Record cachedRegistry (Reg : Type) := MkCached { cr_registry : option Reg; cr_cachedAt : time }.
Arguments MkCached {_} _ _.
Arguments cr_registry {_} _.
Arguments cr_cachedAt {_} _.

Record mstate (S Reg : Type) := MState {
  ms_app : S;
  ms_registries : gmap ID (cachedRegistry Reg)
}.
Arguments MState {_ _} _ _.
Arguments ms_app {_ _} _.
Arguments ms_registries {_ _} _.

Definition maxCachedTenants : nat := 1024.

(** The years 9999 in UTC, and the instant a pinned entry carries. *)
Definition year_9999 (t : time) : bool :=
  (253370764800 * 10 ^ 9 <=? t) && (t <? 253402300800 * 10 ^ 9).
Definition pinnedCacheTimestamp : time := 253402300799 * 10 ^ 9.

(** [t.Sub(u)] saturates at the ends of an int64. *)
Definition Sub (t u : time) : Z := Z.max (- 2 ^ 63) (Z.min (2 ^ 63 - 1) (t - u)).

Record RotateResult := MkRotate { Scanned : Z; Rotated : Z }.

(** Without a key set a secret stays closed, and reads as empty. *)
Definition definitionFromRecord {Rec Def} {Sh : Shape Rec Def} (keys : option KeySet) (rec : Rec) : go Def :=
  match keys with
  | Some ks =>
      if bool_decide (rec_sealed rec = []) then Ret (definition_of rec "")
      else
        plaintext ← wrap_err (Errorf1 "open secret") (Open ks (rec_sealed rec));
        Ret (definition_of rec (String.string_of_list_ascii plaintext))
  | None => Ret (definition_of rec "")
  end.

Section Manager.
Context (E : Env) {S Rec Def Reg : Type} {Sh : Shape Rec Def}.
Local Abbreviation M := (M (mstate S Reg)).

Record Manager := {
  mg_store : ProviderStore S Rec;
  mg_keys : option KeySet;
  mg_ttl : Z;
  mg_inherit : option (Store * Inheritance);
  (** the build of a registry from records, which differs; [None] is the
      sentinel "not configured" *)
  mg_build : ID -> list Rec -> M (option Reg);
  (** the order in which [range] visits the cache *)
  mg_range : gmap ID (cachedRegistry Reg) -> list (ID * cachedRegistry Reg)
}.

Context (m : Manager).

(** A call of the application's store. *)
Definition app_call {A} (method : string) (op : S -> go A * S) : M A :=
  store_call method (fun s => let '(r, app) := op (ms_app s) in (r, MState app (ms_registries s))).

Definition modify (f : gmap ID (cachedRegistry Reg) -> gmap ID (cachedRegistry Reg)) : M unit :=
  fun w => (Ret tt, World (MState (ms_app (w_store w)) (f (ms_registries (w_store w)))) (w_trace w)).
Definition registries : M (gmap ID (cachedRegistry Reg)) := fun w => (Ret (ms_registries (w_store w)), w).

(** ** The cache *)

Definition cacheFresh (cachedAt : time) : M bool :=
  if IsZero_time cachedAt then mret false
  else if year_9999 cachedAt then mret true
  else if mg_ttl m =? 0 then mret false
  else n ← now E; mret (Sub n cachedAt <? mg_ttl m).

(** The entry, if it is there and fresh. *)
Definition fresh_entry (t : ID) : M (option (cachedRegistry Reg)) :=
  regs ← registries;
  match regs !! t with
  | None => mret None
  | Some e => fresh ← cacheFresh (cr_cachedAt e); mret (if (fresh : bool) then Some e else None)
  end.

(** The scan for the entry that was rebuilt longest ago. *)
Definition oldest_key (entries : list (ID * cachedRegistry Reg)) : ID :=
  (fold_left (fun '(key, oldest) '(k, e) =>
    if IsZero_time oldest || Before_time (cr_cachedAt e) oldest then (k, cr_cachedAt e)
    else (key, oldest)) entries (ID_zero, time_zero)).1.

Definition make_room (t : ID) (regs : gmap ID (cachedRegistry Reg)) : gmap ID (cachedRegistry Reg) :=
  match regs !! t with
  | Some _ => regs
  | None =>
      if (maxCachedTenants <=? size regs)%nat then delete (oldest_key (mg_range m regs)) regs else regs
  end.

Definition storeLocked (t : ID) (reg : option Reg) : M unit :=
  modify (make_room t);;
  n ← now E;
  modify (<[t := MkCached reg n]>).

Definition InvalidateTenant (t : ID) : M unit :=
  modify (fun regs => match mg_inherit m with Some _ => ∅ | None => delete t regs end).

Definition invalidateCache : M unit := InvalidateTenant Single.

Definition PinRegistry (t : ID) (reg : option Reg) : M unit :=
  modify (fun regs =>
    match reg with
    | None => delete t regs
    | Some _ => <[t := MkCached reg pinnedCacheTimestamp]> regs
    end).

(** ** Reading the records a registry is built from *)

Definition listEnabled (t : ID) : M (list Rec) :=
  wrap (Errorf1 "list enabled providers")
    (app_call "ListEnabledProviders" (ListEnabledProviders (mg_store m) t)).

(** [tenant.Inherited] over lookups that are calls. *)
Fixpoint lend (own : ID -> M (list Rec)) (allow : Inheritance) (chain : list ID) : M (list Rec) :=
  match chain with
  | [] => mret []
  | ancestor :: chain =>
      lent ← own ancestor;
      match lent with
      | [] => lend own allow chain
      | _ => allowed ← lift (allow ancestor); mret (if (allowed : bool) then lent else [])
      end
  end.
Definition inherited (s : Store) (allow : Inheritance) (t : ID) (own : ID -> M (list Rec)) : M (list Rec) :=
  items ← own t;
  match items with
  | [] =>
      match Ancestors (Some s) t with
      | Fail err =>
          if errors_is err tenant_ErrHierarchyDangling then fail err
          else if errors_is err tenant_ErrNotFound then mret []
          else fail err
      | Panic why => lift (Panic why)
      | Ret chain => lend own allow chain
      end
  | _ => mret items
  end.

Definition recordsFor (t : ID) : M (list Rec) :=
  match mg_inherit m with
  | None => listEnabled t
  | Some (s, allow) =>
      inherited s allow t (fun id => wrap (Errorf1 "tenant") (listEnabled id))
  end.

Definition buildAndStoreLocked (t : ID) (recs : list Rec) : M (option Reg) :=
  reg ← mg_build m t recs;
  storeLocked t reg;;
  mret reg.

Definition rebuildLocked (t : ID) : M (option Reg) :=
  recs ← listEnabled t;
  buildAndStoreLocked t recs.

(** The two locked sections of the slow path: without inheritance the records
    are read under the lock, with it they were read before. *)
Definition get_locked (t : ID) : M (option Reg) :=
  hit ← fresh_entry t;
  match hit with Some e => mret (cr_registry e) | None => rebuildLocked t end.
Definition get_install (t : ID) (recs : list Rec) : M (option Reg) :=
  hit ← fresh_entry t;
  match hit with Some e => mret (cr_registry e) | None => buildAndStoreLocked t recs end.

Definition GetRegistry (t : ID) : M (option Reg) :=
  hit ← fresh_entry t;
  match hit with
  | Some e => mret (cr_registry e)
  | None =>
      match mg_inherit m with
      | None => get_locked t
      | Some _ => recs ← recordsFor t; get_install t recs
      end
  end.

Definition Reload (t : ID) : M unit :=
  match mg_inherit m with
  | None =>
      modify (delete t);;
      rebuildLocked t;;
      mret tt
  | Some _ =>
      modify (delete t);;
      recs ← recordsFor t;
      buildAndStoreLocked t recs;;
      mret tt
  end.

(** ** Providers at rest *)

Definition Create (def : Def) : M unit :=
  if String.eqb (def_ID def) "" then fail (Errorf0 "provider id is required")
  else match mg_keys m with
  | None => fail errNoKeySet
  | Some ks =>
      sealed ← wrap (Errorf1 "seal secret") (Seal E ks (to_bytes (def_secret def)));
      n ← now E;
      app_call "InsertProvider" (InsertProvider (mg_store m) (set_times n n (recordFromDefinition def sealed)));;
      invalidateCache
  end.

Definition Get (id : string) : M Def :=
  if String.eqb id "" then fail (Errorf0 "provider id is required")
  else
    rec ← app_call "GetProvider" (GetProvider (mg_store m) id);
    lift (definitionFromRecord (mg_keys m) rec).

Definition List : M (list Def) :=
  recs ← app_call "ListProviders" (ListProviders (mg_store m));
  lift (go_map (definitionFromRecord (mg_keys m)) recs).

Definition Update (def : Def) : M unit :=
  if String.eqb (def_ID def) "" then fail (Errorf0 "provider id is required")
  else match mg_keys m with
  | None => fail errNoKeySet
  | Some ks =>
      app_call "GetProvider" (GetProvider (mg_store m) (def_ID def));;
      sealed ← wrap (Errorf1 "seal secret") (Seal E ks (to_bytes (def_secret def)));
      n ← now E;
      let rec := recordFromDefinition def sealed in
      app_call "UpdateProvider" (UpdateProvider (mg_store m) (set_times (rec_CreatedAt rec) n rec));;
      invalidateCache
  end.

Definition Delete (id : string) : M unit :=
  if String.eqb id "" then fail (Errorf0 "provider id is required")
  else
    app_call "DeleteProvider" (DeleteProvider (mg_store m) id);;
    invalidateCache.

(** One record of the rotation: whether it was re-sealed. *)
Definition rotate_one (ks : KeySet) (rec : Rec) : M bool :=
  match rec_sealed rec with
  | [] => mret false
  | keyID :: _ =>
      if Ascii.eqb keyID (WriteKeyID ks) then mret false
      else
        plaintext ← wrap (Errorf1 "rotate: decrypt") (lift (Open ks (rec_sealed rec)));
        sealed ← wrap (Errorf1 "rotate: seal") (Seal E ks plaintext);
        n ← now E;
        wrap (Errorf1 "rotate: persist")
          (app_call "UpdateProviderSealed" (UpdateProviderSealed (mg_store m) (rec_ID rec) sealed n));;
        mret true
  end.

(** The loop; the summary comes back beside an error. *)
Fixpoint rotate_loop (ks : KeySet) (recs : list Rec) (result : RotateResult)
    : M (RotateResult * option error) :=
  match recs with
  | [] => mret (result, None)
  | rec :: recs =>
      let result := if bool_decide (rec_sealed rec = []) then result
                    else MkRotate (Scanned result + 1) (Rotated result) in
      try_catch (rotate_one ks rec) (fun e => mret (result, Some e))
        (fun rotated => rotate_loop ks recs
          (if (rotated : bool) then MkRotate (Scanned result) (Rotated result + 1) else result))
  end.

Definition RotateSealedSecrets : M (RotateResult * option error) :=
  match mg_keys m with
  | None => mret (MkRotate 0 0, Some errNoKeySet)
  | Some ks =>
      try_catch (app_call "ListProviders" (ListProviders (mg_store m)))
        (fun e => mret (MkRotate 0 0, Some (Errorf1 "rotate: scan providers" e)))
        (fun recs => rotate_loop ks recs (MkRotate 0 0))
  end.
End Manager.
