(* ===== verification/IdpRegistry.v ===== *)
(** * Provider registries

    What the registries of [src/oidc/provider.go] and of [src/saml/builder.go]
    and [provider.go] share: a registry is built from a list of configurations,
    one provider each, leaving out the ones that cannot be built when the caller
    allows it, and is looked up by identifier and listed in order. *)

From S2P Require Import Prelude World.

#[local] Open Scope string_scope.
#[local] Open Scope list_scope.

Record ProviderSummary := MkSummary { su_ID : string; su_DisplayName : string }.

Record ProviderRegistry (P : Type) := MkRegistry {
  reg_providers : gmap string P;
  reg_order : list string
}.
Arguments MkRegistry {_} _ _.
Arguments reg_providers {_} _.
Arguments reg_order {_} _.

(** Letters, digits, hyphen and underscore. The bytes of a multi-byte rune, or
    of an invalid one, are none of them. *)
Definition id_char (c : ascii) : bool :=
  let n := N_of_ascii c in
  ((97 <=? n) && (n <=? 122))%N || ((65 <=? n) && (n <=? 90))%N ||
  ((48 <=? n) && (n <=? 57))%N || (n =? 45)%N || (n =? 95)%N.
Definition validProviderID (id : string) : bool :=
  negb (String.eqb id "") && forallb id_char (String.list_ascii_of_string id).

Section Registry.
Context {Cfg P : Type} (cfg_ID : Cfg -> string) (displayName : P -> string) (unknown : sentinel).

Section Build.
Context {S : Type} (build : Cfg -> M S P).
Local Abbreviation M := (M S).

(** The loop of [BuildRegistryFromConfigs]. *)
Fixpoint build_loop (partialOK : bool) (cfgs : list Cfg) (reg : ProviderRegistry P)
    : M (ProviderRegistry P) :=
  match cfgs with
  | [] => mret reg
  | cfg :: cfgs =>
      match reg_providers reg !! cfg_ID cfg with
      | Some _ => fail (Errorf0 "duplicate provider id in provider list")
      | None =>
          try_catch (build cfg)
            (fun e => if partialOK then build_loop partialOK cfgs reg else fail e)
            (fun p => build_loop partialOK cfgs
              (MkRegistry (<[cfg_ID cfg := p]> (reg_providers reg)) (reg_order reg ++ [cfg_ID cfg])))
      end
  end.

(** [None] is the nil registry: nothing is configured. *)
Definition build_registry (cfgs : list Cfg) (partialOK : bool) : M (option (ProviderRegistry P)) :=
  match cfgs with
  | [] => mret None
  | _ => reg ← build_loop partialOK cfgs (MkRegistry ∅ []); mret (Some reg)
  end.
End Build.

Definition Registry_Get (r : option (ProviderRegistry P)) (id : string) : go P :=
  match r with
  | None => Fail (Sentinel unknown)
  | Some r =>
      match reg_providers r !! id with
      | None => Fail (Errorf1 "id" (Sentinel unknown))
      | Some p => Ret p
      end
  end.

(** An ordered id without a provider would be a nil dereference. *)
Definition Registry_List (r : option (ProviderRegistry P)) : go (list ProviderSummary) :=
  match r with
  | None => Ret []
  | Some r =>
      go_map (fun id =>
        match reg_providers r !! id with
        | None => Panic "nil pointer dereference"
        | Some p => Ret (MkSummary id (if String.eqb (displayName p) "" then id else displayName p))
        end) (reg_order r)
  end.
End Registry.

(** ** What a registry is *)

Section Theorems.
Context {Cfg P S : Type} (cfg_ID : Cfg -> string) (displayName : P -> string) (unknown : sentinel).
Context (build : Cfg -> M S P) (built_for : Cfg -> P -> Prop).
Hypothesis build_ok : forall cfg w p w', build cfg w = (Ret p, w') -> built_for cfg p.
Implicit Types (p : P) (w : world S).

(** A registry: the providers are the listed ones, each listed once. *)
Record registry_ok (reg : ProviderRegistry P) : Prop := {
  ro_nodup : NoDup (reg_order reg);
  ro_dom id : id ∈ reg_order reg <-> is_Some (reg_providers reg !! id)
}.

Lemma registry_ok_empty : registry_ok (MkRegistry ∅ []).
Proof.
  split; [constructor|]. intros id. cbn. rewrite lookup_empty. split; [by intros []%not_elem_of_nil|by intros []].
Qed.

Lemma registry_ok_add reg id p : registry_ok reg -> reg_providers reg !! id = None ->
  registry_ok (MkRegistry (<[id := p]> (reg_providers reg)) (reg_order reg ++ [id])).
Proof.
  intros [Hnd Hdom] Hnew. split; cbn.
  - apply NoDup_app. split_and!; [done| |apply NoDup_singleton].
    intros id' Hin ->%list_elem_of_singleton. apply Hdom in Hin as [? Hin]. congruence.
  - intros id'. rewrite elem_of_app, list_elem_of_singleton, Hdom. destruct (decide (id' = id)) as [->|Hne].
    + rewrite lookup_insert_eq. split; eauto.
    + rewrite lookup_insert_ne by done. split; [by intros [?|?]|by left].
Qed.

(** What the loop adds to the registry it starts from. *)
Record extends (partialOK : bool) (cfgs : list Cfg)
    (reg reg' : ProviderRegistry P) : Prop := {
  ex_ok : registry_ok reg';
  ex_order : exists added, reg_order reg' = reg_order reg ++ added /\
    added `sublist_of` map cfg_ID cfgs /\ (partialOK = false -> added = map cfg_ID cfgs);
  ex_providers id p : reg_providers reg' !! id = Some p ->
    reg_providers reg !! id = Some p \/ exists cfg, cfg ∈ cfgs /\ cfg_ID cfg = id /\ built_for cfg p
}.

Lemma extends_skip cfg cfgs reg reg' : extends true cfgs reg reg' -> extends true (cfg :: cfgs) reg reg'.
Proof.
  intros [Hok (added & Ho & Hs & _) Hp]. split; [done| |].
  - exists added. split_and!; [done|by apply sublist_cons|done].
  - intros id p Hid. destruct (Hp id p Hid) as [?|(cfg' & ? & ?)]; [by left|].
    right. exists cfg'. split; [by right|done].
Qed.

Lemma extends_add partialOK cfg cfgs reg p reg' : built_for cfg p ->
  extends partialOK cfgs (MkRegistry (<[cfg_ID cfg := p]> (reg_providers reg)) (reg_order reg ++ [cfg_ID cfg])) reg' ->
  extends partialOK (cfg :: cfgs) reg reg'.
Proof.
  intros Hb [Hok (added & Ho & Hs & Hall) Hp]. split; [done| |].
  - exists (cfg_ID cfg :: added). cbn in *. rewrite Ho, <- app_assoc. split_and!; [done|by apply sublist_skip|].
    intros Hf. by rewrite Hall.
  - intros id q Hid. destruct (Hp id q Hid) as [Hq|(cfg' & ? & ?)].
    + cbn in Hq. apply lookup_insert_Some in Hq as [[<- <-]|[_ Hq]]; [|by left].
      right. exists cfg. split; [left|done].
    + right. exists cfg'. split; [by right|done].
Qed.

Lemma build_loop_run partialOK cfgs reg w r w' : build_loop cfg_ID build partialOK cfgs reg w = (r, w') ->
  registry_ok reg ->
  (forall reg', r = Ret reg' -> extends partialOK cfgs reg reg') /\
  (forall e, partialOK = true -> r = Fail e ->
     ~ (NoDup (map cfg_ID cfgs) /\ forall id, id ∈ map cfg_ID cfgs -> reg_providers reg !! id = None)).
Proof.
  revert reg w. induction cfgs as [|cfg cfgs IH]; intros reg w; cbn [build_loop].
  { intros [-> ->]%mret_inv Hok. split; [|done]. intros reg' [= <-]. split; [done| |by left].
    exists []. by rewrite app_nil_r. }
  destruct (reg_providers reg !! cfg_ID cfg) as [q|] eqn:Hq.
  { intros [-> ->]%fail_inv Hok. split; [done|]. intros e _ _ [_ Hnone].
    rewrite Hnone in Hq by left. done. }
  intros [(p & w1 & Hb & H)|[(e & w1 & Hb & H)|(why & Hb & ->)]]%try_catch_inv Hok; [| |by split].
  - apply build_ok in Hb. apply IH in H as [Hret Hfail]; [|by apply registry_ok_add].
    split; [intros reg' Hr; eapply extends_add; eauto|].
    intros e He Hr [[Hnew Hnd]%NoDup_cons Hnone]. apply (Hfail e He Hr). split; [done|].
    intros id Hid. cbn. rewrite lookup_insert_ne by (by intros <-). apply Hnone. by right.
  - destruct partialOK; [|by apply fail_inv in H as [-> _]].
    apply IH in H as [Hret Hfail]; [|done]. split; [intros reg' Hr; apply extends_skip; auto|].
    intros e' He Hr [[Hnew Hnd]%NoDup_cons Hnone]. apply (Hfail e' He Hr). split; [done|].
    intros id Hid. apply Hnone. by right.
Qed.

Lemma Registry_List_ok reg : registry_ok reg ->
  exists names, Registry_List displayName (Some reg) = Ret names /\ map su_ID names = reg_order reg.
Proof.
  intros [_ Hdom]. unfold Registry_List.
  assert (forall id, id ∈ reg_order reg -> is_Some (reg_providers reg !! id)) as Hall by (intros id; apply Hdom).
  clear Hdom. induction (reg_order reg) as [|id order IH]; [by exists []|]. cbn [go_map].
  destruct (Hall id) as [p ->]; [left|].
  destruct IH as (names & -> & Hn); [intros id' Hin; apply Hall; by right|].
  cbn. eexists. split; [done|]. cbn. by rewrite Hn.
Qed.

(** The registry of a list of configurations, as the properties of both
    packages state it. *)
Record registry_of (cfgs : list Cfg) (partialOK : bool) (reg : option (ProviderRegistry P))
    (names : list ProviderSummary) : Prop := {
  rg_list : Registry_List displayName reg = Ret names;
  rg_nodup : NoDup (map su_ID names);
  rg_order : map su_ID names `sublist_of` map cfg_ID cfgs;
  rg_all : partialOK = false -> map su_ID names = map cfg_ID cfgs;
  rg_get id : is_ret (Registry_Get unknown reg id) = true <-> id ∈ map su_ID names;
  rg_built id p : Registry_Get unknown reg id = Ret p ->
    exists cfg, cfg ∈ cfgs /\ cfg_ID cfg = id /\ built_for cfg p
}.

Lemma build_registry_run cfgs partialOK w r w' : build_registry cfg_ID build cfgs partialOK w = (r, w') ->
  (forall reg, r = Ret reg -> exists names, registry_of cfgs partialOK reg names) /\
  (forall e, partialOK = true -> r = Fail e -> ~ NoDup (map cfg_ID cfgs)).
Proof.
  unfold build_registry. destruct cfgs as [|cfg cfgs].
  { intros [-> ->]%mret_inv. split; [|done]. intros reg [= <-]. exists [].
    split; try done; [constructor|]. intros id. split; [done|by intros []%not_elem_of_nil]. }
  set (all := cfg :: cfgs). intros [(reg & w1 & H & [-> ->]%mret_inv)|[(e & H & ->)|(why & H & ->)]]%bind_inv;
    apply build_loop_run in H as [Hret Hfail]; try apply registry_ok_empty; split; try done.
  - intros ? [= <-]. destruct (Hret reg eq_refl) as [Hok (added & Ho & Hs & Hall) Hp]. cbn in Ho. subst added.
    destruct (Registry_List_ok reg Hok) as (names & Hl & Hn). exists names.
    split; rewrite ?Hn; try done; [by apply ro_nodup| |].
    + intros id. rewrite ro_dom by done. unfold Registry_Get.
      destruct (reg_providers reg !! id); cbn; [split; eauto|]. split; [done|by intros []].
    + intros id p. unfold Registry_Get. destruct (reg_providers reg !! id) as [q|] eqn:Hq; [|done].
      intros [= ->]. destruct (Hp id p Hq) as [Hemp|?]; [by cbn in Hemp; rewrite lookup_empty in Hemp|done].
  - intros e' Ht [= <-] Hnd. apply (Hfail e Ht eq_refl). split; [done|]. intros id _. apply lookup_empty.
Qed.
End Theorems.
