(* ===== verification/Oidc.v ===== *)
(** * OpenID Connect providers

    [src/oidc/provider.go] (building providers and registries), [store.go] and
    [memstore.go] (records at rest) and what of [manager.go] is particular to
    OIDC: the mapping between definitions and records, the options, and the
    build of a tenant's registry. go-oidc is the record [GoOIDC]. *)

From S2P Require Import Prelude Tenant Bytes World Crypto Secrets IdpManager IdpRegistry.

#[local] Open Scope string_scope.
#[local] Open Scope list_scope.
#[local] Open Scope Z_scope.

(** ** Records and definitions (store.go, manager.go) *)

Record ProviderRecord := MkRecord {
  pr_ID : string;
  pr_IssuerURL : string;
  pr_ClientID : string;
  pr_SealedClientSecret : bytes;
  pr_DisplayName : string;
  pr_Scopes : list string;
  pr_GroupsClaim : string;
  pr_GroupClaimFormat : string;
  pr_Enabled : bool;
  pr_CreatedAt : time;
  pr_UpdatedAt : time
}.

Record ProviderDefinition := MkDefinition {
  pd_ID : string;
  pd_IssuerURL : string;
  pd_ClientID : string;
  pd_ClientSecret : string;
  pd_DisplayName : string;
  pd_Scopes : list string;
  pd_GroupsClaim : string;
  pd_GroupClaimFormat : string;
  pd_Enabled : bool;
  pd_CreatedAt : time;
  pd_UpdatedAt : time
}.

Definition record_of (d : ProviderDefinition) (sealed : bytes) : ProviderRecord :=
  MkRecord (pd_ID d) (pd_IssuerURL d) (pd_ClientID d) sealed (pd_DisplayName d) (pd_Scopes d)
    (pd_GroupsClaim d) (pd_GroupClaimFormat d) (pd_Enabled d) (pd_CreatedAt d) (pd_UpdatedAt d).
Definition opened (r : ProviderRecord) (secret : string) : ProviderDefinition :=
  MkDefinition (pr_ID r) (pr_IssuerURL r) (pr_ClientID r) secret (pr_DisplayName r) (pr_Scopes r)
    (pr_GroupsClaim r) (pr_GroupClaimFormat r) (pr_Enabled r) (pr_CreatedAt r) (pr_UpdatedAt r).
Definition with_times (c u : time) (r : ProviderRecord) : ProviderRecord :=
  MkRecord (pr_ID r) (pr_IssuerURL r) (pr_ClientID r) (pr_SealedClientSecret r) (pr_DisplayName r)
    (pr_Scopes r) (pr_GroupsClaim r) (pr_GroupClaimFormat r) (pr_Enabled r) c u.
Definition with_sealed (s : bytes) (u : time) (r : ProviderRecord) : ProviderRecord :=
  MkRecord (pr_ID r) (pr_IssuerURL r) (pr_ClientID r) s (pr_DisplayName r)
    (pr_Scopes r) (pr_GroupsClaim r) (pr_GroupClaimFormat r) (pr_Enabled r) (pr_CreatedAt r) u.

#[export] Instance oidc_shape : Shape ProviderRecord ProviderDefinition := {
  rec_ID := pr_ID; rec_sealed := pr_SealedClientSecret; rec_DisplayName := pr_DisplayName;
  rec_Enabled := pr_Enabled; rec_CreatedAt := pr_CreatedAt; rec_UpdatedAt := pr_UpdatedAt;
  set_sealed := with_sealed; set_times := with_times;
  def_ID := pd_ID; def_secret := pd_ClientSecret;
  def_set_times c u d := MkDefinition (pd_ID d) (pd_IssuerURL d) (pd_ClientID d) (pd_ClientSecret d)
    (pd_DisplayName d) (pd_Scopes d) (pd_GroupsClaim d) (pd_GroupClaimFormat d) (pd_Enabled d) c u;
  recordFromDefinition := record_of; definition_of := opened;
  errNoKeySet := Sentinel oidc_ErrNoKeySet; errProviderExists := Sentinel oidc_ErrProviderExists;
  errProviderNotFound := Sentinel oidc_ErrProviderNotFound
}.
#[export] Instance oidc_shape_laws : ShapeLaws oidc_shape.
Proof. split; try done; by intros []. Qed.

(** ** Providers (provider.go) *)

Record ProviderConfig := MkConfig {
  pc_ID : string;
  pc_IssuerURL : string;
  pc_ClientID : string;
  pc_ClientSecret : string;
  pc_RedirectURL : string;
  pc_DisplayName : string;
  pc_Scopes : list string;
  pc_GroupsClaim : string
}.

(** go-oidc and [net/url]: what discovery yields, which may differ from one
    moment to the next; its claims (the [jwks_uri] and the userinfo endpoint),
    its endpoints and a verifier for a client. *)
Record GoOIDC (D Endpoints Verifier : Type) := {
  NewProvider : trace -> string -> go D;
  discovery_claims : D -> go (string * string);
  Endpoint : D -> Endpoints;
  NewVerifier : D -> string -> Verifier;
  url_Parse : string -> go unit
}.
Arguments NewProvider {_ _ _} _.
Arguments discovery_claims {_ _ _} _.
Arguments Endpoint {_ _ _} _.
Arguments NewVerifier {_ _ _} _.
Arguments url_Parse {_ _ _} _.

Record oauth2_Config (Endpoints : Type) := MkOAuth2 {
  oa_ClientID : string;
  oa_ClientSecret : string;
  oa_Endpoint : Endpoints;
  oa_RedirectURL : string;
  oa_Scopes : list string
}.
Arguments MkOAuth2 {_} _ _ _ _ _.
Arguments oa_ClientID {_} _.
Arguments oa_ClientSecret {_} _.
Arguments oa_Endpoint {_} _.
Arguments oa_RedirectURL {_} _.
Arguments oa_Scopes {_} _.

Definition ScopeOpenID : string := "openid".
Definition normaliseScopes (scopes : list string) : list string :=
  match scopes with
  | [] => [ScopeOpenID; "profile"; "email"]
  | _ => if existsb (String.eqb ScopeOpenID) scopes then scopes else ScopeOpenID :: scopes
  end.
Definition with_scopes (cfg : ProviderConfig) (scopes : list string) : ProviderConfig :=
  MkConfig (pc_ID cfg) (pc_IssuerURL cfg) (pc_ClientID cfg) (pc_ClientSecret cfg)
    (pc_RedirectURL cfg) (pc_DisplayName cfg) scopes (pc_GroupsClaim cfg).

Section Providers.
Context {D Endpoints Verifier : Type} (lib : GoOIDC D Endpoints Verifier).

Record Provider := MkProvider {
  p_Config : ProviderConfig;
  p_OIDC : D;
  p_OAuth2 : oauth2_Config Endpoints;
  p_Verifier : Verifier;
  p_UserInfoURL : string;
  p_JWKSURL : string
}.

Section Build.
Context {S : Type}.
Local Abbreviation M := (M S).

Definition discovery_failed (e : error) : error :=
  Errorf1 "provider" (Sentinel oidc_ErrDiscoveryFailed).

(** The checks before the network is touched. *)
Definition check_config (cfg : ProviderConfig) : go unit :=
  if String.eqb (pc_ID cfg) "" then Fail (Errorf0 "provider id is required")
  else if String.eqb (pc_IssuerURL cfg) "" then Fail (Errorf0 "issuerURL is required")
  else if String.eqb (pc_ClientID cfg) "" then Fail (Errorf0 "clientID is required")
  else if negb (validProviderID (pc_ID cfg)) then
    Fail (Errorf0 "provider id is not a URL-safe path segment")
  else if String.eqb (pc_RedirectURL cfg) "" then Fail (Errorf0 "redirect URL is empty")
  else wrap_err (Errorf1 "redirect URL: parse") (url_Parse lib (pc_RedirectURL cfg)).

Definition BuildProvider (cfg : ProviderConfig) : M Provider :=
  lift (check_config cfg);;
  let scopes := normaliseScopes (pc_Scopes cfg) in
  found ← wrap discovery_failed
    (r ← observe (EvHook "discovery") (fun tr => NewProvider lib tr (pc_IssuerURL cfg)); lift r);
  endpoints ← wrap discovery_failed (lift (discovery_claims lib found));
  mret (MkProvider (with_scopes cfg scopes) found
    (MkOAuth2 (pc_ClientID cfg) (pc_ClientSecret cfg) (Endpoint lib found) (pc_RedirectURL cfg) scopes)
    (NewVerifier lib found (pc_ClientID cfg)) endpoints.2 endpoints.1).

Definition BuildRegistryFromConfigs : list ProviderConfig -> bool -> M (option (ProviderRegistry Provider)) :=
  build_registry pc_ID BuildProvider.
End Build.

Definition oidc_Get : option (ProviderRegistry Provider) -> string -> go Provider :=
  Registry_Get oidc_ErrUnknownProvider.
Definition oidc_List : option (ProviderRegistry Provider) -> go (list ProviderSummary) :=
  Registry_List (fun p => pc_DisplayName (p_Config p)).
End Providers.
Arguments Provider : clear implicits.

(** ** The reference store (memstore.go) *)

Module MemProviderStore.
Record store := MkStore { recs : gmap string ProviderRecord }.
Definition NewMemProviderStore : store := MkStore ∅.

Definition sort_key (r : ProviderRecord) : list string := [pr_DisplayName r; pr_ID r].
Definition sortedLocked (keep : ProviderRecord -> bool) (s : store) : list ProviderRecord :=
  sort_by sort_key (List.filter keep (map snd (map_to_list (recs s)))).

Definition InsertProvider (rec : ProviderRecord) (s : store) : go unit * store :=
  match recs s !! pr_ID rec with
  | Some _ => (Fail (Sentinel oidc_ErrProviderExists), s)
  | None => (Ret tt, MkStore (<[pr_ID rec := rec]> (recs s)))
  end.
Definition GetProvider (id : string) (s : store) : go ProviderRecord * store :=
  match recs s !! id with
  | None => (Fail (Sentinel oidc_ErrProviderNotFound), s)
  | Some rec => (Ret rec, s)
  end.
Definition ListProviders (s : store) : go (list ProviderRecord) * store :=
  (Ret (sortedLocked (fun _ => true) s), s).
(** The tenant is not looked at. *)
Definition ListEnabledProviders (tenantID : ID) (s : store) : go (list ProviderRecord) * store :=
  (Ret (sortedLocked pr_Enabled s), s).
Definition UpdateProvider (rec : ProviderRecord) (s : store) : go unit * store :=
  match recs s !! pr_ID rec with
  | None => (Fail (Sentinel oidc_ErrProviderNotFound), s)
  | Some existing =>
      (Ret tt, MkStore (<[pr_ID rec := with_times (pr_CreatedAt existing) (pr_UpdatedAt rec) rec]> (recs s)))
  end.
Definition UpdateProviderSealedSecret (id : string) (sealed : bytes) (updatedAt : time) (s : store)
    : go unit * store :=
  match recs s !! id with
  | None => (Fail (Sentinel oidc_ErrProviderNotFound), s)
  | Some rec => (Ret tt, MkStore (<[id := with_sealed sealed updatedAt rec]> (recs s)))
  end.
Definition DeleteProvider (id : string) (s : store) : go unit * store :=
  (Ret tt, MkStore (delete id (recs s))).

Definition port : ProviderStore store ProviderRecord := {|
  IdpManager.InsertProvider := InsertProvider; IdpManager.GetProvider := GetProvider;
  IdpManager.ListProviders := ListProviders; IdpManager.ListEnabledProviders := ListEnabledProviders;
  IdpManager.UpdateProvider := UpdateProvider;
  IdpManager.UpdateProviderSealed := UpdateProviderSealedSecret;
  IdpManager.DeleteProvider := DeleteProvider
|}.
End MemProviderStore.

(** ** The manager (manager.go) *)

Record options := MkOptions {
  o_redirectURL : option (string -> string);
  o_redirectURLForTenant : option (ID -> string -> string);
  o_ttl : Z;
  o_inherit : option (Store * Inheritance)
}.
Abbreviation ManagerOption := (options -> options).

Definition WithRedirectURLForTenant (fn : option (ID -> string -> string)) : ManagerOption := fun o =>
  match fn with
  | Some _ => MkOptions (o_redirectURL o) fn (o_ttl o) (o_inherit o)
  | None => o
  end.
Definition WithTTL (d : Z) : ManagerOption := fun o =>
  MkOptions (o_redirectURL o) (o_redirectURLForTenant o) d (o_inherit o).
Definition WithRedirectURL (fn : option (string -> string)) : ManagerOption := fun o =>
  match fn with
  | Some _ => MkOptions fn (o_redirectURLForTenant o) (o_ttl o) (o_inherit o)
  | None => o
  end.
Definition WithInheritance (s : option Store) (allow : option Inheritance) : ManagerOption := fun o =>
  match s, allow with
  | Some s, Some allow => MkOptions (o_redirectURL o) (o_redirectURLForTenant o) (o_ttl o) (Some (s, allow))
  | _, _ => o
  end.

Section Manager.
Context {D Endpoints Verifier S : Type} (lib : GoOIDC D Endpoints Verifier).
Local Abbreviation Registry := (ProviderRegistry (Provider D Endpoints Verifier)).

(** Neither mapping set was refused before. *)
Definition redirectFor (o : options) (tenantID : ID) (providerID : string) : go string :=
  match o_redirectURLForTenant o, o_redirectURL o with
  | Some fn, _ => Ret (fn tenantID providerID)
  | None, Some fn => Ret (fn providerID)
  | None, None => Panic "nil function call"
  end.

Definition config_of (o : options) (keys : option KeySet) (tenantID : ID) (rec : ProviderRecord)
    : go ProviderConfig :=
  d ← definitionFromRecord keys rec;
  redirect ← redirectFor o tenantID (pd_ID d);
  Ret (MkConfig (pd_ID d) (pd_IssuerURL d) (pd_ClientID d) (pd_ClientSecret d) redirect
    (pd_DisplayName d) (pd_Scopes d) (pd_GroupsClaim d)).

(** [buildAndStoreLocked] up to the store into the cache. *)
Definition oidc_build (o : options) (keys : option KeySet) (tenantID : ID)
    (recs : list ProviderRecord) : M (mstate S Registry) (option Registry) :=
  match recs with
  | [] => mret None
  | _ =>
      match o_redirectURL o, o_redirectURLForTenant o with
      | None, None => fail (Errorf0 "manager has no redirect-URL mapping")
      | _, _ =>
          configs ← lift (go_map (config_of o keys tenantID) recs);
          wrap (Errorf1 "build registry") (BuildRegistryFromConfigs lib configs true)
      end
  end.

(** [range_order] is the order in which [range] visits the map. *)
Definition NewManager
    (range_order : gmap ID (cachedRegistry Registry) -> list (ID * cachedRegistry Registry))
    (store : ProviderStore S ProviderRecord) (keys : option KeySet) (opts : list ManagerOption)
    : Manager (Rec := ProviderRecord) :=
  let o := fold_left (fun o opt => opt o) opts (MkOptions None None 0 None) in
  {| mg_store := store; mg_keys := keys; mg_ttl := o_ttl o; mg_inherit := o_inherit o;
     mg_build := oidc_build o keys; mg_range := range_order |}.
End Manager.

(** ** What a registry is *)

Lemma normaliseScopes_openid scopes : ScopeOpenID ∈ normaliseScopes scopes.
Proof.
  unfold normaliseScopes. destruct scopes as [|s scopes]; [left|].
  destruct (existsb _ (s :: scopes)) eqn:H; [|left].
  apply existsb_exists in H as (x & Hin & ->%String.eqb_eq). by apply list_elem_of_In.
Qed.

Lemma normaliseScopes_idem scopes : normaliseScopes (normaliseScopes scopes) = normaliseScopes scopes.
Proof.
  unfold normaliseScopes. destruct scopes as [|s scopes]; [reflexivity|].
  destruct (existsb (String.eqb ScopeOpenID) (s :: scopes)) eqn:H; [by rewrite H|reflexivity].
Qed.

Section Registries.
Context {D Endpoints Verifier S : Type} (lib : GoOIDC D Endpoints Verifier).
Local Abbreviation Provider := (Provider D Endpoints Verifier).
Implicit Types (p : Provider) (w : world S).

(** [p] was built for [cfg]: a valid configuration, with its scopes normalised,
    talking to what discovery of its issuer yielded, as its client. *)
Record built_for (cfg : ProviderConfig) (p : Provider) : Prop := {
  bf_valid : check_config lib cfg = Ret tt;
  bf_config : p_Config p = with_scopes cfg (normaliseScopes (pc_Scopes cfg));
  bf_discovered : exists tr, NewProvider lib tr (pc_IssuerURL cfg) = Ret (p_OIDC p);
  bf_oauth2 : p_OAuth2 p = MkOAuth2 (pc_ClientID cfg) (pc_ClientSecret cfg) (Endpoint lib (p_OIDC p))
    (pc_RedirectURL cfg) (normaliseScopes (pc_Scopes cfg));
  bf_verifier : p_Verifier p = NewVerifier lib (p_OIDC p) (pc_ClientID cfg)
}.

Lemma BuildProvider_Ret cfg w p w' : BuildProvider lib cfg w = (Ret p, w') -> built_for cfg p.
Proof.
  unfold BuildProvider. intros H. apply bind_Ret_inv in H as ([] & w1 & [Hc _]%lift_inv & H).
  apply bind_Ret_inv in H as (found & w2 & Hf & H). apply wrap_Ret_inv, bind_Ret_inv in Hf as (r & w3 & Ho & Hl).
  apply observe_inv in Ho as [[= ->] _]. apply lift_inv in Hl as [Hl _].
  apply bind_Ret_inv in H as (ends & w4 & _ & [[= ->] _]%mret_inv). split; cbn; eauto.
Qed.

(** What a registry is made of. Every provider of a registry was built for
    a valid configuration it was given, asks for the scope [openid], speaks to
    what discovery of that issuer yielded, and verifies tokens for that client.
    The list shows each of them once, in the order of the configurations, and
    [Get] finds exactly the listed ones. At boot all configurations are there or
    the build fails; a rebuild leaves out the ones that cannot be built, and
    fails for no configuration's sake, but only when an identifier occurs twice. *)
Theorem BuildRegistryFromConfigs_ok cfgs partialOK w r w' :
  BuildRegistryFromConfigs lib cfgs partialOK w = (r, w') ->
  (forall reg, r = Ret reg ->
    (exists names, registry_of pc_ID (fun p => pc_DisplayName (p_Config p)) oidc_ErrUnknownProvider
       built_for cfgs partialOK reg names) /\
    (forall id p, oidc_Get reg id = Ret p -> ScopeOpenID ∈ oa_Scopes (p_OAuth2 p))) /\
  (forall e, partialOK = true -> r = Fail e -> ~ NoDup (map pc_ID cfgs)).
Proof.
  intros H. apply (build_registry_run _ (fun p => pc_DisplayName (p_Config p)) oidc_ErrUnknownProvider
    _ built_for BuildProvider_Ret) in H as [Hret Hfail]. split; [|done].
  intros reg Hr. destruct (Hret reg Hr) as [names Hn]. split; [by exists names|].
  intros id p Hg. apply (rg_built _ _ _ _ _ _ _ _ Hn) in Hg as (cfg & _ & _ & Hb).
  rewrite (bf_oauth2 _ _ Hb). apply normaliseScopes_openid.
Qed.
End Registries.

(** ** At concrete inputs *)

(** One issuer is down. *)
Definition toy_oidc : GoOIDC string string string := {|
  NewProvider _ issuer := if String.eqb issuer "https://down" then Fail (AppError "dial tcp") else Ret issuer;
  discovery_claims d := Ret ("jwks of " +:+ d, "userinfo of " +:+ d);
  Endpoint d := d; NewVerifier d client := client; url_Parse _ := Ret tt
|}.
Definition toy_config (id issuer : string) : ProviderConfig :=
  MkConfig id issuer "app" "s3cret" ("https://app/callback/" +:+ id) "" ["groups"] "".
Definition toy_configs : list ProviderConfig :=
  [toy_config "google" "https://google"; toy_config "okta" "https://down"; toy_config "kc" "https://kc"].

(** The provider that is down is left out, and the others are served. *)
Lemma BuildRegistryFromConfigs_ok_witness : exists reg w' names,
  BuildRegistryFromConfigs toy_oidc toy_configs true (World tt []) = (Ret reg, w') /\
  oidc_List reg = Ret names /\ NoDup (map su_ID names) /\ map su_ID names = ["google"; "kc"].
Proof.
  destruct (BuildRegistryFromConfigs toy_oidc toy_configs true (World tt [])) as [[reg|e|why] w'] eqn:H;
    [|vm_compute in H; discriminate H..].
  destruct (BuildRegistryFromConfigs_ok toy_oidc toy_configs true (World tt []) (Ret reg) w' H) as [Hr _].
  destruct (Hr reg eq_refl) as [(names & [Hl Hnd _ _ _ _]) _].
  exists reg, w', names. split; [reflexivity|]. split; [exact Hl|]. split; [exact Hnd|].
  vm_compute in H. injection H as <- _. vm_compute in Hl. injection Hl as <-. reflexivity.
Defined.
