(* ===== verification/IdpCache.v ===== *)
(** * The cache of provider registries

    What [src/oidc/manager.go] (and [src/saml/manager.go]) promise of the
    per-tenant cache: its bound, what an eviction drops, and how old a registry
    may be that a tenant is served. Goroutines interleave between the sections
    the code runs under the manager's mutex; [step] is one of them. *)

From S2P Require Import Prelude Tenant Bytes World Crypto Secrets IdpManager IdpRegistry Oidc.

#[local] Open Scope string_scope.
#[local] Open Scope list_scope.

(** ** Interleavings *)

(** One locked section, or one write of the application to its own tables.
    [SGet] and [SReload] are the sections without inheritance, [SInstall],
    [SDrop] and [SLoad] those with it, which take records that were read before
    the lock. *)
Inductive section (S Rec Reg : Type) :=
  | SApp (f : S -> S)
  | SGet (t : ID)
  | SReload (t : ID)
  | SInvalidate (t : ID)
  | SPin (t : ID) (reg : option Reg)
  | SInstall (t : ID) (recs : list Rec)
  | SDrop (t : ID)
  | SLoad (t : ID) (recs : list Rec).
Arguments SApp {_ _ _} _.
Arguments SGet {_ _ _} _.
Arguments SReload {_ _ _} _.
Arguments SInvalidate {_ _ _} _.
Arguments SPin {_ _ _} _ _.
Arguments SInstall {_ _ _} _ _.
Arguments SDrop {_ _ _} _.
Arguments SLoad {_ _ _} _ _.

Section Cache.
Context (E : Env) {S Rec Def Reg : Type} {Sh : Shape Rec Def}.
Context (m : Manager (S := S) (Rec := Rec) (Reg := Reg)).
Local Abbreviation W := (world (mstate S Reg)).
Implicit Types (w : W) (t : ID) (l : list (section S Rec Reg)).

Definition regs (w : W) : gmap ID (cachedRegistry Reg) := ms_registries (w_store w).
Definition app (w : W) : S := ms_app (w_store w).

Definition step (s : section S Rec Reg) (w : W) : W :=
  match s with
  | SApp f => World (MState (f (app w)) (regs w)) (w_trace w)
  | SGet t => (get_locked E m t w).2
  | SReload t => (rebuildLocked E m t (modify (delete t) w).2).2
  | SInvalidate t => (InvalidateTenant m t w).2
  | SPin t reg => (PinRegistry t reg w).2
  | SInstall t recs => (get_install E m t recs w).2
  | SDrop t => (modify (delete t) w).2
  | SLoad t recs => (buildAndStoreLocked E m t recs w).2
  end.
Definition run l w : W := fold_left (fun w s => step s w) l w.

Definition is_pin (s : section S Rec Reg) : bool :=
  match s with SPin _ (Some _) => true | _ => false end.
Definition pins l : nat := length (List.filter is_pin l).

(** What the code relies on: [range] visits every entry once, and building a
    registry touches neither the store nor the cache. *)
Class ManagerLaws := {
  range_visits cache : mg_range m cache ≡ₚ map_to_list cache;
  build_quiet t recs : quiet (mg_build m t recs)
}.
Context {HL : ManagerLaws}.

(** ** Sections, in terms of what they do to the cache *)

Definition installed (t : ID) (reg : option Reg) (n : time) cache :=
  <[t := MkCached reg n]> (make_room m t cache).

Lemma storeLocked_run t reg w :
  storeLocked E m t reg w =
    (Ret tt, World (MState (app w) (installed t reg (env_now E (w_trace w)) (regs w)))
      (w_trace w ++ [EvNow])).
Proof. reflexivity. Qed.

(** An entry is served when it is pinned, or younger than [ttl] by the clock. *)
Definition young (c : time) (w : W) : Prop :=
  year_9999 c = true \/ (Sub (env_now E (w_trace w)) c < mg_ttl m)%Z.

Lemma cacheFresh_run c w : exists b tr,
  cacheFresh E m c w = (Ret b, World (w_store w) tr) /\ w_trace w `prefix_of` tr /\
  (b = true -> young c w).
Proof.
  unfold cacheFresh, young. destruct w as [s tr].
  destruct (IsZero_time c); [by exists false, tr|].
  destruct (year_9999 c); [exists true, tr; auto|].
  destruct (mg_ttl m =? 0)%Z; [by exists false, tr|].
  exists (Sub (env_now E tr) c <? mg_ttl m)%Z, (tr ++ [EvNow]).
  split_and!; [done|by apply prefix_app_r|]. intros H%Z.ltb_lt. by right.
Qed.

Lemma fresh_entry_run t w : exists o tr,
  fresh_entry E m t w = (Ret o, World (w_store w) tr) /\ w_trace w `prefix_of` tr /\
  (forall e, o = Some e -> regs w !! t = Some e /\ young (cr_cachedAt e) w).
Proof.
  unfold fresh_entry, registries, mbind at 1, M_bind. fold (regs w).
  destruct (regs w !! t) as [e|] eqn:He.
  2: { exists None, (w_trace w). by destruct w. }
  destruct (cacheFresh_run (cr_cachedAt e) w) as (b & tr & Hc & Hp & Hy).
  exists (if b then Some e else None), tr. unfold mbind, M_bind. rewrite Hc. split_and!; [done..|].
  intros e'. destruct b; [|done]. intros [= <-]. auto.
Qed.

(** [reg] is what the enabled providers of [t] in the store [s] were built into. *)
Definition built (t : ID) (s : S) (reg : option Reg) : Prop :=
  exists recs w1 w2, ListEnabledProviders (mg_store m) t s = (Ret recs, app w1) /\
    mg_build m t recs w1 = (Ret reg, w2).

Lemma listEnabled_run t w r w' : listEnabled m t w = (r, w') ->
  regs w' = regs w /\ w_trace w `prefix_of` w_trace w' /\
  (forall recs, r = Ret recs -> ListEnabledProviders (mg_store m) t (app w) = (Ret recs, app w')).
Proof.
  unfold listEnabled, app_call, store_call, wrap, regs, app.
  destruct (ListEnabledProviders (mg_store m) t (ms_app (w_store w))) as [r1 s1]. intros [= <- <-].
  split_and!; [done|by apply prefix_app_r|]. intros recs H%wrap_err_Ret_inv. by rewrite H.
Qed.

(** A build either installs what it built, at the clock after it, or leaves the
    cache alone. *)
Lemma buildAndStoreLocked_run t recs w r w' : buildAndStoreLocked E m t recs w = (r, w') ->
  app w' = app w /\ w_trace w `prefix_of` w_trace w' /\
  ((exists reg w1, r = Ret reg /\ mg_build m t recs w = (Ret reg, w1) /\
      w_trace w `prefix_of` w_trace w1 /\
      regs w' = installed t reg (env_now E (w_trace w1)) (regs w)) \/
   (is_ret r = false /\ regs w' = regs w)).
Proof.
  unfold buildAndStoreLocked, app, regs.
  intros [(reg & w1 & Hb & H)|[(e & Hb & ->)|(why & Hb & ->)]]%bind_inv;
    destruct (quiet_run _ _ _ _ (build_quiet _ _) Hb) as [Hs Hp]; [|rewrite Hs; auto..].
  unfold mbind, M_bind in H. rewrite storeLocked_run in H. injection H as <- <-.
  cbn. unfold app, regs. rewrite Hs. split_and!; [done|by apply prefix_app_r|]. left.
  exists reg, w1. by split_and!.
Qed.

Lemma rebuildLocked_run t w r w' : rebuildLocked E m t w = (r, w') ->
  w_trace w `prefix_of` w_trace w' /\
  ((exists reg tr, r = Ret reg /\ built t (app w) reg /\ w_trace w `prefix_of` tr /\
      regs w' = installed t reg (env_now E tr) (regs w)) \/
   (is_ret r = false /\ regs w' = regs w)).
Proof.
  unfold rebuildLocked.
  intros [(recs & w1 & Hl & H)|[(e & Hl & ->)|(why & Hl & ->)]]%bind_inv;
    destruct (listEnabled_run _ _ _ _ Hl) as (Hr & Hp & Ha); [|auto..].
  destruct (buildAndStoreLocked_run _ _ _ _ _ H) as (Ha' & Hp' & [(reg & w2 & -> & Hb & Hp2 & Hr')|[-> Hr']]).
  - split; [by etrans|]. left. exists reg, (w_trace w2). split_and!; [done| |by etrans|by rewrite Hr', Hr].
    exists recs, w1, w2. auto.
  - split; [by etrans|]. right. by rewrite Hr', Hr.
Qed.

Lemma hit_or_run t k w r w' :
  (hit ← fresh_entry E m t; match hit with Some e => mret (cr_registry e) | None => k end) w = (r, w') ->
  (exists e, r = Ret (cr_registry e) /\ regs w !! t = Some e /\ young (cr_cachedAt e) w /\
     w_store w' = w_store w /\ w_trace w `prefix_of` w_trace w') \/
  (exists tr, w_trace w `prefix_of` tr /\ k (World (w_store w) tr) = (r, w')).
Proof.
  destruct (fresh_entry_run t w) as (o & tr & Hf & Hp & He). unfold mbind, M_bind. rewrite Hf.
  destruct o as [e|].
  - intros [= <- <-]. left. exists e. by destruct (He e eq_refl).
  - right. eauto.
Qed.

(** ** Making room *)

Definition no_zero_time (cache : gmap ID (cachedRegistry Reg)) : Prop :=
  forall k e, cache !! k = Some e -> IsZero_time (cr_cachedAt e) = false.

(** The scan keeps the earliest time so far; the zero time marks its start. *)
Lemma oldest_key_scan (entries : list (ID * cachedRegistry Reg)) acc :
  let scan := fold_left (fun '(key, oldest) '(k, e) =>
    if IsZero_time oldest || Before_time (cr_cachedAt e) oldest then (k, cr_cachedAt e)
    else (key, oldest)) entries acc in
  scan = acc \/ exists e, (scan.1, e) ∈ entries /\ scan.2 = cr_cachedAt e.
Proof.
  cbn zeta. revert acc. induction entries as [|[k e] entries IH]; intros [key oldest]; [by left|].
  cbn [fold_left]. destruct (_ || _).
  - right. destruct (IH (k, cr_cachedAt e)) as [->|(e' & Hin & Ht)].
    + exists e. split; [left|done].
    + exists e'. split; [by right|done].
  - destruct (IH (key, oldest)) as [->|(e' & Hin & Ht)]; [by left|].
    right. exists e'. split; [by right|done].
Qed.

Lemma oldest_key_min (entries : list (ID * cachedRegistry Reg)) acc :
  (forall k e, (k, e) ∈ entries -> IsZero_time (cr_cachedAt e) = false) ->
  let scan := fold_left (fun '(key, oldest) '(k, e) =>
    if IsZero_time oldest || Before_time (cr_cachedAt e) oldest then (k, cr_cachedAt e)
    else (key, oldest)) entries acc in
  (IsZero_time acc.2 = false -> (scan.2 <= acc.2)%Z) /\
  (forall k e, (k, e) ∈ entries -> (scan.2 <= cr_cachedAt e)%Z).
Proof.
  cbn zeta. revert acc. induction entries as [|[k e] entries IH]; intros [key oldest] Hz.
  { split; [done|]. intros ? ? []%not_elem_of_nil. }
  cbn [fold_left]. assert (IsZero_time (cr_cachedAt e) = false) as He by (apply (Hz k); left).
  destruct (IH (if IsZero_time oldest || Before_time (cr_cachedAt e) oldest then (k, cr_cachedAt e)
    else (key, oldest))) as [Hacc Hall]; [intros ? ? ?; eapply Hz; by right|].
  unfold Before_time in *. cbn [snd].
  destruct (IsZero_time oldest) eqn:Ho; cbn [orb snd] in *;
    [|destruct (Z.ltb_spec (cr_cachedAt e) oldest); cbn [snd] in *].
  - split; [done|]. intros k' e' [[= -> ->]|Hin]%elem_of_cons; [auto|eauto].
  - specialize (Hacc He). split; [lia|]. intros k' e' [[= -> ->]|Hin]%elem_of_cons; [auto|eauto].
  - specialize (Hacc Ho). split; [auto|]. intros k' e' [[= -> ->]|Hin]%elem_of_cons; [lia|eauto].
Qed.

Lemma elem_of_range k e cache : (k, e) ∈ mg_range m cache <-> cache !! k = Some e.
Proof. by rewrite range_visits, elem_of_map_to_list. Qed.

Lemma oldest_key_spec cache : cache <> ∅ ->
  exists e, cache !! oldest_key (mg_range m cache) = Some e /\
    (no_zero_time cache -> forall k e', cache !! k = Some e' -> (cr_cachedAt e <= cr_cachedAt e')%Z).
Proof.
  intros Hne.
  assert (exists e, (oldest_key (mg_range m cache), e) ∈ mg_range m cache /\
    (fold_left (fun '(key, oldest) '(k, e) =>
      if IsZero_time oldest || Before_time (cr_cachedAt e) oldest then (k, cr_cachedAt e)
      else (key, oldest)) (mg_range m cache) (ID_zero, time_zero)).2 = cr_cachedAt e) as (e & Hin & Ht).
  { unfold oldest_key. destruct (mg_range m cache) as [|[k e] entries] eqn:Hr.
    - destruct Hne. apply map_to_list_empty_iff, Permutation_nil_r. by rewrite <- range_visits, Hr.
    - cbn [fold_left]. replace (IsZero_time time_zero) with true by done. cbn [orb].
      destruct (oldest_key_scan entries (k, cr_cachedAt e)) as [->|(e' & Hin & Ht)].
      + exists e. split; [left|done].
      + exists e'. split; [by right|done]. }
  exists e. apply elem_of_range in Hin. split; [done|]. intros Hz k e' Hk.
  rewrite <- Ht. apply (oldest_key_min _ (ID_zero, time_zero)) with k.
  - intros k' e'' Hk'%elem_of_range. by eapply Hz.
  - by apply elem_of_range.
Qed.

(** What an installation leaves of the other entries: all, or all but one. *)
Lemma make_room_spec t cache :
  make_room m t cache = cache /\ (is_Some (cache !! t) \/ (size cache < maxCachedTenants)%nat) \/
  exists k e, cache !! t = None /\ (maxCachedTenants <= size cache)%nat /\ cache !! k = Some e /\
    make_room m t cache = delete k cache /\
    (no_zero_time cache -> forall k' e', cache !! k' = Some e' -> (cr_cachedAt e <= cr_cachedAt e')%Z).
Proof.
  unfold make_room. destruct (cache !! t) as [e|] eqn:Ht; [left; eauto|].
  destruct (Nat.leb_spec maxCachedTenants (size cache)) as [Hl|Hl]; [|by left; auto].
  right. destruct (oldest_key_spec cache) as (e & He & Hmin).
  { intros ->. rewrite map_size_empty in Hl. inversion Hl. }
  eauto 10.
Qed.

Lemma make_room_lookup t cache k :
  make_room m t cache !! k = None \/ make_room m t cache !! k = cache !! k.
Proof.
  destruct (make_room_spec t cache) as [[-> _]|(k' & e & _ & _ & _ & -> & _)]; [by right|].
  destruct (decide (k' = k)) as [->|Hne].
  - left. apply lookup_delete_eq.
  - right. by apply lookup_delete_ne.
Qed.

Lemma installed_size t reg n cache :
  (size (installed t reg n cache) <= Nat.max (size cache) maxCachedTenants)%nat.
Proof.
  unfold installed.
  destruct (make_room_spec t cache) as [[-> [[e He]|Hl]]|(k & e & Ht & Hl & He & -> & _)].
  - rewrite map_size_insert_Some by eauto. lia.
  - rewrite map_size_insert. destruct (cache !! t); unfold id; lia.
  - rewrite map_size_insert_None.
    + rewrite map_size_delete_Some by eauto.
      assert (size cache <> 0)%nat; [|lia]. rewrite map_size_ne_0_lookup. eauto.
    + apply lookup_delete_None. auto.
Qed.

(** ** One section *)

(** The sections a manager runs without inheritance: each reads the store under
    the lock it installs under. *)
Definition unwired (s : section S Rec Reg) : bool :=
  match s with SInstall _ _ | SDrop _ | SLoad _ _ => false | _ => true end.
Definition pins_tenant (t : ID) (s : section S Rec Reg) : bool :=
  match s with SPin t' _ => bool_decide (t' = t) | _ => false end.

Lemma Reload_unwired t w : mg_inherit m = None -> (Reload E m t w).2 = step (SReload t) w.
Proof.
  intros Hi. cbn. unfold Reload. rewrite Hi. unfold mbind, M_bind. cbn.
  by destruct (rebuildLocked _ _ _ _) as [[|e|why] w'].
Qed.

Lemma GetRegistry_unwired t w : mg_inherit m = None ->
  GetRegistry E m t w = (hit ← fresh_entry E m t;
    match hit with Some e => mret (cr_registry e) | None => get_locked E m t end) w.
Proof. intros Hi. unfold GetRegistry. by rewrite Hi. Qed.

Inductive step_to (t : ID) (s : section S Rec Reg) (w : W) : option (cachedRegistry Reg) -> Prop :=
  | StepDropped : step_to t s w None
  | StepKept : step_to t s w (regs w !! t)
  | StepPinned reg : s = SPin t (Some reg) -> step_to t s w (Some (MkCached (Some reg) pinnedCacheTimestamp))
  | StepBuilt reg tr : w_trace w `prefix_of` tr ->
      (unwired s = true -> built t (app w) reg) ->
      step_to t s w (Some (MkCached reg (env_now E tr))).
#[local] Hint Constructors step_to : core.

Lemma installed_lookup t reg n cache k :
  installed t reg n cache !! k = None \/ installed t reg n cache !! k = cache !! k \/
  (k = t /\ installed t reg n cache !! k = Some (MkCached reg n)).
Proof.
  unfold installed. destruct (decide (t = k)) as [->|Hne].
  - right; right. by rewrite lookup_insert_eq.
  - rewrite lookup_insert_ne by done. destruct (make_room_lookup t cache k); auto.
Qed.

Lemma delete_lookup t (cache : gmap ID (cachedRegistry Reg)) k :
  delete t cache !! k = None \/ delete t cache !! k = cache !! k.
Proof.
  destruct (decide (t = k)) as [->|]; [left; apply lookup_delete_eq|right; by apply lookup_delete_ne].
Qed.

Lemma rebuild_step s w t t' w1 : app w1 = app w -> w_trace w `prefix_of` w_trace w1 ->
  (regs w1 !! t = None \/ regs w1 !! t = regs w !! t) ->
  step_to t s w (regs (rebuildLocked E m t' w1).2 !! t).
Proof.
  intros Ha Hp Hold. destruct (rebuildLocked E m t' w1) as [r w2] eqn:H. cbn [snd].
  assert (step_to t s w (regs w1 !! t)) by (destruct Hold as [-> | ->]; auto).
  apply rebuildLocked_run in H as [_ [(reg & tr & _ & Hb & Htr & ->)|[_ ->]]]; [|done].
  destruct (installed_lookup t' reg (env_now E tr) (regs w1) t) as [->|[->|[-> ->]]]; auto.
  constructor; [by etrans|]. by rewrite <- Ha.
Qed.

Lemma build_step s w t t' recs w1 : unwired s = false -> regs w1 = regs w ->
  w_trace w `prefix_of` w_trace w1 ->
  step_to t s w (regs (buildAndStoreLocked E m t' recs w1).2 !! t).
Proof.
  intros Hs Hr Hp. destruct (buildAndStoreLocked E m t' recs w1) as [r w2] eqn:H. cbn [snd].
  apply buildAndStoreLocked_run in H as (_ & _ & [(reg & w3 & _ & _ & Htr & ->)|[_ ->]]); rewrite Hr; [|auto].
  destruct (installed_lookup t' reg (env_now E (w_trace w3)) (regs w) t) as [->|[->|[-> ->]]]; auto.
  constructor; [by etrans|]. by rewrite Hs.
Qed.

Ltac kept := lazymatch goal with |- step_to ?t ?s ?w _ => change (step_to t s w (regs w !! t)); auto end.

(** What one section can do to the entry of a tenant. *)
Lemma step_lookup s w t : step_to t s w (regs (step s w) !! t).
Proof.
  assert (forall s t', step_to t s w (delete t' (regs w) !! t)) as Hdel.
  { intros s' t'. destruct (delete_lookup t' (regs w) t) as [-> | ->]; auto. }
  destruct s as [f|t'|t'|t'|t' reg|t' recs|t'|t' recs]; cbn [step].
  - kept.
  - destruct (get_locked E m t' w) as [r w'] eqn:H. cbn [snd].
    apply hit_or_run in H as [(e & _ & _ & _ & Hw & _)|(tr & Hp & H)].
    + unfold regs. rewrite Hw. kept.
    + replace w' with (rebuildLocked E m t' (World (w_store w) tr)).2 by by rewrite H.
      apply rebuild_step; auto.
  - apply rebuild_step; [done..|]. apply delete_lookup.
  - unfold InvalidateTenant, modify, regs. cbn. destruct (mg_inherit m) eqn:Hi; [|apply Hdel].
    rewrite lookup_empty. auto.
  - unfold PinRegistry, modify, regs. cbn. destruct reg as [reg|]; [|apply Hdel].
    destruct (decide (t' = t)) as [->|].
    + rewrite lookup_insert_eq. auto.
    + rewrite lookup_insert_ne by done. kept.
  - destruct (get_install E m t' recs w) as [r w'] eqn:H. cbn [snd].
    apply hit_or_run in H as [(e & _ & _ & _ & Hw & _)|(tr & Hp & H)].
    + unfold regs. rewrite Hw. kept.
    + replace w' with (buildAndStoreLocked E m t' recs (World (w_store w) tr)).2 by by rewrite H.
      apply build_step; auto.
  - apply Hdel.
  - by apply build_step.
Qed.

Lemma delete_size t (cache : gmap ID (cachedRegistry Reg)) : (size (delete t cache) <= size cache)%nat.
Proof. rewrite map_size_delete. destruct (cache !! t); unfold id; lia. Qed.

Lemma rebuild_size t w : (size (regs (rebuildLocked E m t w).2) <= Nat.max (size (regs w)) maxCachedTenants)%nat.
Proof.
  destruct (rebuildLocked E m t w) as [r w2] eqn:H. cbn [snd].
  apply rebuildLocked_run in H as [_ [(reg & tr & _ & _ & _ & ->)|[_ ->]]]; [apply installed_size|lia].
Qed.

Lemma build_size t recs w :
  (size (regs (buildAndStoreLocked E m t recs w).2) <= Nat.max (size (regs w)) maxCachedTenants)%nat.
Proof.
  destruct (buildAndStoreLocked E m t recs w) as [r w2] eqn:H. cbn [snd].
  apply buildAndStoreLocked_run in H as (_ & _ & [(reg & w3 & _ & _ & _ & ->)|[_ ->]]);
    [apply installed_size|lia].
Qed.

Lemma step_size s w :
  (size (regs (step s w)) <= Nat.max (size (regs w)) maxCachedTenants + (if is_pin s then 1 else 0))%nat.
Proof.
  destruct s as [f|t|t|t|t reg|t recs|t|t recs]; cbn [step is_pin]; rewrite ?Nat.add_0_r.
  - apply Nat.le_max_l.
  - destruct (get_locked E m t w) as [r w'] eqn:H. cbn [snd].
    apply hit_or_run in H as [(e & _ & _ & _ & Hw & _)|(tr & _ & H)]; [unfold regs; rewrite Hw; lia|].
    replace w' with (rebuildLocked E m t (World (w_store w) tr)).2 by by rewrite H.
    apply (rebuild_size t (World (w_store w) tr)).
  - etrans; [apply rebuild_size|]. pose proof (delete_size t (regs w)). apply Nat.max_le_compat_r. done.
  - unfold regs. cbn. destruct (mg_inherit m); [rewrite map_size_empty; lia|].
    pose proof (delete_size t (ms_registries (w_store w))). lia.
  - unfold regs. cbn. destruct reg as [reg|].
    + rewrite map_size_insert. destruct (_ !! t); unfold id; lia.
    + pose proof (delete_size t (ms_registries (w_store w))). lia.
  - destruct (get_install E m t recs w) as [r w'] eqn:H. cbn [snd].
    apply hit_or_run in H as [(e & _ & _ & _ & Hw & _)|(tr & _ & H)]; [unfold regs; rewrite Hw; lia|].
    replace w' with (buildAndStoreLocked E m t recs (World (w_store w) tr)).2 by by rewrite H.
    apply (build_size t recs (World (w_store w) tr)).
  - unfold regs. cbn. pose proof (delete_size t (ms_registries (w_store w))). lia.
  - apply build_size.
Qed.

(** The cache is bounded. Whatever tenants ask, in whatever interleaving of
    lookups, reloads, invalidations, late installations and writes of the
    application, the cache never grows beyond [maxCachedTenants], except by the
    registries that are pinned into it, one entry for each pin at most. *)
Theorem cache_bounded l w :
  (size (regs (run l w)) <= Nat.max (size (regs w)) maxCachedTenants + pins l)%nat.
Proof.
  revert w. induction l as [|s l IH]; intros w; [apply Nat.le_trans with (2 := Nat.le_add_r _ _), Nat.le_max_l|].
  change (run (s :: l) w) with (run l (step s w)). pose proof (IH (step s w)) as H1.
  pose proof (step_size s w) as H2. unfold pins in *. cbn [List.filter].
  destruct (is_pin s); cbn [length]; lia.
Qed.

(** What an installation evicts. The registry a tenant's build ends in
    replaces the tenant's entry and nothing else; only a tenant that is new to a
    full cache costs another its entry, exactly one, and none of the others was
    built, or pinned, for an earlier time. So a pinned entry goes only when
    every entry is pinned, or built after the year 9999. *)
Theorem storeLocked_evicts t reg w : no_zero_time (regs w) ->
  let w' := (storeLocked E m t reg w).2 in
  regs w' !! t = Some (MkCached reg (env_now E (w_trace w))) /\
  ((forall k, k <> t -> regs w' !! k = regs w !! k) \/
   exists k e, k <> t /\ regs w !! t = None /\ (maxCachedTenants <= size (regs w))%nat /\
     regs w !! k = Some e /\ regs w' !! k = None /\
     (forall k', k' <> t -> k' <> k -> regs w' !! k' = regs w !! k') /\
     (forall k' e', regs w !! k' = Some e' -> (cr_cachedAt e <= cr_cachedAt e')%Z)).
Proof.
  intros Hz. cbn zeta.
  change (regs (storeLocked E m t reg w).2) with (installed t reg (env_now E (w_trace w)) (regs w)).
  unfold installed. split; [apply lookup_insert_eq|].
  destruct (make_room_spec t (regs w)) as [[-> _]|(k & e & Ht & Hl & He & -> & Hmin)].
  - left. intros k Hk. by rewrite lookup_insert_ne.
  - right. assert (k <> t) by congruence. exists k, e. split_and!; [done..| | |by apply Hmin].
    + rewrite lookup_insert_ne by done. apply lookup_delete_eq.
    + intros k' Hk' Hne. by rewrite lookup_insert_ne, lookup_delete_ne.
Qed.

(** A clock that has left the year 1 keeps zero times out of the cache. *)
Lemma run_no_zero_time l w : (forall tr, IsZero_time (env_now E tr) = false) ->
  no_zero_time (regs w) -> no_zero_time (regs (run l w)).
Proof.
  intros Hc. revert w. induction l as [|s l IH]; intros w Hz; [done|]. apply IH.
  intros t e He. pose proof (step_lookup s w t) as Hs. rewrite He in Hs.
  inversion Hs as [|Hk|reg _ Hk|reg tr _ _ Hk]; [by apply (Hz t)|done|apply Hc].
Qed.

(** ** How old what a tenant is served may be *)

(** Sections that fall between while nothing is pinned for the tenant. *)
Definition ordinary (t : ID) (s : section S Rec Reg) : bool := unwired s && negb (pins_tenant t s).

Lemma run_app l1 l2 w : run (l1 ++ l2) w = run l2 (run l1 w).
Proof. apply fold_left_app. Qed.

Lemma entry_since t l w e : regs w !! t = None -> Forall (fun s => ordinary t s = true) l ->
  regs (run l w) !! t = Some e ->
  exists l1 s l2 tr, l = l1 ++ s :: l2 /\ cr_cachedAt e = env_now E tr /\
    built t (app (run l1 w)) (cr_registry e) /\ w_trace (run l1 w) `prefix_of` tr.
Proof.
  intros Hn. induction l as [|s l IH] using rev_ind; intros Hall He; [cbn in He; congruence|].
  apply Forall_app in Hall as [Hall [Hs _]%Forall_cons]. apply andb_true_iff in Hs as [Hu Hp].
  rewrite run_app in He. cbn [run fold_left] in He. pose proof (step_lookup s (run l w) t) as H.
  unfold run in *. cbn [fold_left] in He. rewrite He in H.
  inversion H as [|Hk|reg -> Hk|reg tr Htr Hb Hk].
  - destruct (IH Hall) as (l1 & s' & l2 & tr & -> & Hrest); [congruence|].
    exists l1, s', (l2 ++ [s]), tr. by rewrite <- app_assoc.
  - cbn in Hp. by rewrite bool_decide_eq_true_2 in Hp.
  - exists l, s, [], tr. split_and!; auto.
Qed.

(** [reg] was built for [t] at one moment of the run [l] from [w0], whose age is
    below [ttl] at a later reading of the clock. *)
Definition recent (t : ID) l (w0 : W) (reg : option Reg) : Prop :=
  exists l1 s l2 tr tr', l = l1 ++ s :: l2 /\ built t (app (run l1 w0)) reg /\
    w_trace (run l1 w0) `prefix_of` tr /\ w_trace (run l w0) `prefix_of` tr' /\
    (Sub (env_now E tr') (env_now E tr) < mg_ttl m)%Z.

Lemma hit_recent t l w0 w e : (forall tr, year_9999 (env_now E tr) = false) ->
  regs w0 !! t = None -> Forall (fun s => ordinary t s = true) l ->
  regs w = regs (run l w0) -> w_trace (run l w0) `prefix_of` w_trace w ->
  regs w !! t = Some e -> young (cr_cachedAt e) w -> recent t l w0 (cr_registry e).
Proof.
  intros Hc Hn Hall Hr Hp He Hy. rewrite Hr in He.
  destruct (entry_since t l w0 e Hn Hall He) as (l1 & s & l2 & tr & -> & Hat & Hb & Hp1).
  exists l1, s, l2, tr, (w_trace w). split_and!; [done..|]. rewrite <- Hat.
  destruct Hy as [Hy|Hy]; [by rewrite Hat, Hc in Hy|done].
Qed.

(** Without inheritance, no registry outlives an invalidation. After
    [InvalidateTenant] of a tenant, and whatever lookups, reloads and
    invalidations of any tenant, pins for others and writes of the application
    came since, in whatever order, the registry a tenant is served is one that
    was built from the tenant's enabled providers as the store had them at some
    moment after the invalidation: either now, or at a moment whose age, counted
    from a reading of the clock that came after it, is below [ttl]. *)
Theorem GetRegistry_fresh t l w reg w' :
  mg_inherit m = None -> (forall tr, year_9999 (env_now E tr) = false) ->
  Forall (fun s => ordinary t s = true) l ->
  let w0 := step (SInvalidate t) w in
  GetRegistry E m t (run l w0) = (Ret reg, w') ->
  built t (app (run l w0)) reg \/ recent t l w0 reg.
Proof.
  intros Hi Hc Hall w0. rewrite GetRegistry_unwired by done.
  assert (regs w0 !! t = None) as Hn.
  { unfold w0, step, InvalidateTenant, modify, regs. cbn. rewrite Hi. apply lookup_delete_eq. }
  intros [(e & [= ->] & He & Hy & _)|(tr & Hp & H)]%hit_or_run.
  { right. by apply (hit_recent t l w0 (run l w0)). }
  apply hit_or_run in H as [(e & [= ->] & He & Hy & _)|(tr' & _ & H)].
  { right. by apply (hit_recent t l w0 (World (w_store (run l w0)) tr)). }
  left. apply rebuildLocked_run in H as [_ [(reg' & tr'' & [= ->] & Hb & _)|[? _]]]; done.
Qed.

(** ** Borrowed providers *)

(** What a tenant has of its own, in the store [s]. *)
Definition own_records (s : S) (t : ID) : go (list Rec) :=
  wrap_err (Errorf1 "tenant") (wrap_err (Errorf1 "list enabled providers")
    (ListEnabledProviders (mg_store m) t s).1).

(** The read answers [r] and changes nothing but the trace. *)
Definition answers {A} (c : M (mstate S Reg) A) (s : S) (r : go A) : Prop :=
  forall w, app w = s -> exists tr, c w = (r, World (w_store w) (w_trace w ++ tr)).

Lemma answers_quiet {A} (r : go A) s : answers (lift r) s r.
Proof. intros [st tr] _. exists []. unfold lift. cbn. by rewrite app_nil_r. Qed.

Lemma answers_bind {A B} (c : M (mstate S Reg) A) (k : A -> M (mstate S Reg) B) s r (f : A -> go B) :
  answers c s r -> (forall a, r = Ret a -> answers (k a) s (f a)) -> answers (c ≫= k) s (r ≫= f).
Proof.
  intros Hc Hk w Hw. destruct (Hc w Hw) as [tr H]. unfold mbind at 1, M_bind. rewrite H.
  destruct r as [a|e|why]; cbn; [|by exists tr..].
  destruct (Hk a eq_refl (World (w_store w) (w_trace w ++ tr)) Hw) as [tr' ->].
  exists (tr ++ tr'). by rewrite app_assoc.
Qed.

Lemma answers_wrap {A} f (c : M (mstate S Reg) A) s r : answers c s r -> answers (wrap f c) s (wrap_err f r).
Proof. intros Hc w Hw. destruct (Hc w Hw) as [tr H]. exists tr. unfold wrap. by rewrite H. Qed.

Section Reads.
Hypothesis list_reads : forall t s, (ListEnabledProviders (mg_store m) t s).2 = s.

Lemma answers_listEnabled t s : answers (listEnabled m t) s
  (wrap_err (Errorf1 "list enabled providers") (ListEnabledProviders (mg_store m) t s).1).
Proof.
  apply answers_wrap. intros [[a c] tr] <-. exists [EvStore "ListEnabledProviders"].
  unfold app_call, store_call, app. cbn. specialize (list_reads t a).
  destruct (ListEnabledProviders (mg_store m) t a) as [r a']. cbn in *. by subst.
Qed.

Lemma answers_lend allow chain s :
  answers (lend (fun t => wrap (Errorf1 "tenant") (listEnabled m t)) allow chain) s
    (inherited_walk (own_records s) allow chain).
Proof.
  induction chain as [|a chain IH]; cbn [lend inherited_walk]; [apply (answers_quiet (Ret []))|].
  apply answers_bind; [apply answers_wrap, answers_listEnabled|]. intros [|r recs] _; [done|].
  apply answers_bind; [apply answers_quiet|]. intros allowed _.
  apply (answers_quiet (Ret (if allowed : bool then r :: recs else []))).
Qed.

(** Whose providers a tenant is served. The records a build works on are
    those [tenant.Inherited] yields over the tenants' own enabled providers, the
    parentage store and the groups' switch, when inheritance is wired, and the
    tenant's own otherwise, with every error of either store; and finding them
    out changes neither the store nor the cache. *)
Theorem recordsFor_inherits t w :
  exists tr, recordsFor m t w =
    (match mg_inherit m with
     | Some (st, allow) => Inherited (Some st) (Some allow) t (Some (own_records (app w)))
     | None => wrap_err (Errorf1 "list enabled providers") (ListEnabledProviders (mg_store m) t (app w)).1
     end, World (w_store w) (w_trace w ++ tr)).
Proof.
  unfold recordsFor. destruct (mg_inherit m) as [[st allow]|]; [|by apply answers_listEnabled].
  enough (answers (inherited st allow t (fun id => wrap (Errorf1 "tenant") (listEnabled m id))) (app w)
    (Inherited (Some st) (Some allow) t (Some (own_records (app w))))) as H by by apply H.
  unfold inherited, Inherited. apply answers_bind; [apply answers_wrap, answers_listEnabled|].
  intros [|r recs] _; [|apply (answers_quiet (Ret (r :: recs)))].
  destruct (Ancestors (Some st) t) as [chain|e|why]; [apply answers_lend| |apply answers_quiet].
  destruct (errors_is e tenant_ErrHierarchyDangling); [apply (answers_quiet (Fail e))|].
  destruct (errors_is e tenant_ErrNotFound); [apply (answers_quiet (Ret []))|apply (answers_quiet (Fail e))].
Qed.
End Reads.
End Cache.

(** ** The OIDC manager *)

Section Oidc.
Context (E : Env) {D Endpoints Verifier S : Type} (lib : GoOIDC D Endpoints Verifier).

Lemma quiet_BuildProvider {T} cfg : quiet (S := T) (BuildProvider lib cfg).
Proof. unfold BuildProvider. quiet_tac. Qed.

Lemma quiet_build_registry {Cfg P T} cfg_ID (build : Cfg -> M T P) cfgs partialOK :
  (forall cfg, quiet (build cfg)) -> quiet (build_registry cfg_ID build cfgs partialOK).
Proof.
  intros Hq. unfold build_registry. destruct cfgs as [|cfg cfgs]; [apply quiet_mret|].
  apply quiet_bind; [|intros; apply quiet_mret]. generalize (@MkRegistry P ∅ []).
  induction (cfg :: cfgs) as [|c l IH]; intros reg; cbn [build_loop]; [apply quiet_mret|].
  case_match; [apply quiet_fail|]. apply quiet_try_catch; [apply Hq|intros e|intros p; apply IH].
  destruct partialOK; [apply IH|apply quiet_fail].
Qed.

#[export] Instance oidc_manager_laws range_order (store : ProviderStore S ProviderRecord) keys opts :
  (forall cache, range_order cache ≡ₚ map_to_list cache) ->
  ManagerLaws (NewManager lib range_order store keys opts).
Proof.
  intros Hr. split; [exact Hr|]. intros t recs. unfold NewManager. cbn [mg_build].
  generalize (fold_left (fun o opt => opt o) opts (MkOptions None None 0 None)) as o. intros o.
  unfold oidc_build. destruct recs as [|r recs]; [apply quiet_mret|].
  destruct (o_redirectURL o), (o_redirectURLForTenant o);
    first [apply quiet_fail
          | apply quiet_bind; [apply quiet_lift|intros cfgs; apply quiet_wrap, quiet_build_registry, quiet_BuildProvider]].
Qed.
End Oidc.

(** ** At concrete inputs *)

Module Demo.
(** A clock that ticks a nanosecond with every event. *)
Definition env : Env := {|
  env_now tr := Z.min (Z.of_nat (length tr)) (10 ^ 9); env_newID _ := ""; env_rand _ n := Ret (repeat "r"%char n);
  env_bcrypt_hash _ p := Ret p; env_bcrypt_ok h p := String.eqb h p; env_stub := Ret "";
  env_totp _ _ _ := Ret false; env_unicode_lower s := s; env_numeric_date t := t
|}.
Definition parents : Store := {|
  ByID id :=
    if String.eqb id "child" then Ret (MkDescriptor "child" "child" "group" StatusActive)
    else if String.eqb id "group" then Ret (MkDescriptor "group" "group" "" StatusActive)
    else Fail (Sentinel tenant_ErrNotFound);
  BySlug _ := Fail (Sentinel tenant_ErrNotFound)
|}.
Definition opts : list ManagerOption :=
  [WithTTL 100; WithRedirectURL (Some (fun id => "https://app/callback/" +:+ id))].
Definition manager := NewManager toy_oidc map_to_list MemProviderStore.port None opts.
Definition wired := NewManager toy_oidc map_to_list MemProviderStore.port None
  (opts ++ [WithInheritance (Some parents) (Some (fun _ => Ret true))]).
Definition keycloak : ProviderRecord :=
  MkRecord "keycloak" "https://kc" "app" [] "Keycloak" [] "" "" true 0%Z 0%Z.
Definition child : ID := New "child".

Definition table : MemProviderStore.store := MemProviderStore.MkStore {["keycloak" := keycloak]}.
Definition start : world (mstate MemProviderStore.store (ProviderRegistry (Provider string string string))) :=
  World (MState table ∅) [].
Definition drop_keycloak (s : MemProviderStore.store) : MemProviderStore.store :=
  (MemProviderStore.DeleteProvider "keycloak" s).2.

Definition listed (r : go (option (ProviderRegistry (Provider string string string)))) : go (list ProviderSummary) :=
  reg ← r; oidc_List reg.
End Demo.

#[export] Instance demo_laws : ManagerLaws Demo.manager.
Proof. apply oidc_manager_laws. done. Qed.

Lemma cache_bounded_witness :
  (size (regs (run Demo.env Demo.manager [SGet Single; SGet Demo.child; SPin Single None] Demo.start)) <=
    maxCachedTenants)%nat.
Proof. exact (cache_bounded Demo.env Demo.manager [SGet Single; SGet Demo.child; SPin Single None] Demo.start). Defined.

Definition two_gets := [SGet Demo.child; SApp Demo.drop_keycloak; SGet Single
  : section MemProviderStore.store ProviderRecord (ProviderRegistry (Provider string string string))].

(** Within its [ttl] the tenant is still served the provider that is gone. *)
Lemma GetRegistry_fresh_witness : exists reg w',
  GetRegistry Demo.env Demo.manager Demo.child
    (run Demo.env Demo.manager two_gets (step Demo.env Demo.manager (SInvalidate Demo.child) Demo.start)) = (Ret reg, w') /\
  oidc_List reg = Ret [MkSummary "keycloak" "Keycloak"] /\
  (built Demo.manager Demo.child MemProviderStore.NewMemProviderStore reg \/
   recent Demo.env Demo.manager Demo.child two_gets
     (step Demo.env Demo.manager (SInvalidate Demo.child) Demo.start) reg).
Proof.
  destruct (GetRegistry Demo.env Demo.manager Demo.child
    (run Demo.env Demo.manager two_gets (step Demo.env Demo.manager (SInvalidate Demo.child) Demo.start)))
    as [[reg|e|why] w'] eqn:H; [|vm_compute in H; discriminate H..].
  exists reg, w'. split; [reflexivity|]. split.
  { vm_compute in H. injection H as <- _. reflexivity. }
  refine (GetRegistry_fresh Demo.env Demo.manager Demo.child two_gets Demo.start reg w' eq_refl _ _ H).
  - intros tr. apply andb_false_intro1, Z.leb_gt. cbn. lia.
  - repeat constructor.
Defined.

Lemma storeLocked_evicts_witness :
  let w := step Demo.env Demo.manager (SGet Demo.child) Demo.start in
  regs (storeLocked Demo.env Demo.manager Single None w).2 !! Single =
    Some (MkCached None (env_now Demo.env (w_trace w))).
Proof.
  refine (proj1 (storeLocked_evicts Demo.env Demo.manager Single None
    (step Demo.env Demo.manager (SGet Demo.child) Demo.start) _)).
  apply (run_no_zero_time Demo.env Demo.manager [SGet Demo.child] Demo.start).
  - intros tr. apply Z.eqb_neq. cbn. unfold time_zero. lia.
  - intros k e He. discriminate He.
Defined.

(** The child borrows what its group has. *)
Lemma recordsFor_inherits_witness : exists w',
  recordsFor Demo.wired Demo.child Demo.start = (Ret [Demo.keycloak], w').
Proof.
  destruct (recordsFor_inherits Demo.wired (fun _ _ => eq_refl) Demo.child Demo.start) as [tr H].
  eexists. rewrite H. vm_compute. reflexivity.
Defined.

(** With inheritance the records are read before the lock. An invalidation that
    falls between the read and the installation is lost: the provider was
    deleted, and the caches cleared after it, and still the child is then served
    it, until [ttl] has passed. *)
Example wired_serves_deleted :
  match recordsFor Demo.wired Demo.child Demo.start with
  | (Ret recs, w) =>
      Demo.listed (GetRegistry Demo.env Demo.wired Demo.child
        (run Demo.env Demo.wired
          [SApp Demo.drop_keycloak; SInvalidate Demo.child; SInstall Demo.child recs] w)).1
  | _ => Ret []
  end = Ret [MkSummary "keycloak" "Keycloak"].
Proof. vm_compute. reflexivity. Qed.

(** The same calls one after the other serve nothing. *)
Example wired_serves_nothing :
  Demo.listed (GetRegistry Demo.env Demo.wired Demo.child
    (run Demo.env Demo.wired [SApp Demo.drop_keycloak; SInvalidate Demo.child] Demo.start)).1 = Ret [].
Proof. vm_compute. reflexivity. Qed.
