(* ===== verification/IdpSecrets.v ===== *)
(** * Provider secrets at rest

    What the CRUD half of the provider managers and their re-sealing promise,
    over any store that keeps the port's contract ([ProviderStoreContract],
    discharged for [oidc.MemProviderStore] at the end). *)

From S2P Require Import Prelude Tenant Bytes World Crypto Secrets IdpManager IdpRegistry Oidc IdpCache.

#[local] Open Scope string_scope.
#[local] Open Scope list_scope.
#[local] Open Scope Z_scope.

(** ** The port's contract (store.go) *)

Definition rows_of {Rec} (view : gmap string Rec) : list Rec := map snd (map_to_list view).

(** [view] reads the provider table off a store's state. A call that fails, for
    a reason of the store's own too, changes nothing. *)
Class ProviderStoreContract {S Rec Def} {Sh : Shape Rec Def}
    (p : ProviderStore S Rec) (view : S -> gmap string Rec) := {
  insert_law rec s r s' : InsertProvider p rec s = (r, s') ->
    if is_ret r then view s !! rec_ID rec = None /\ view s' = <[rec_ID rec := rec]> (view s)
    else view s' = view s;
  insert_taken rec s : is_Some (view s !! rec_ID rec) -> is_ret (InsertProvider p rec s).1 = false;
  get_law id s r s' : GetProvider p id s = (r, s') ->
    view s' = view s /\ forall rec, r = Ret rec -> view s !! id = Some rec;
  list_law s r s' : ListProviders p s = (r, s') ->
    view s' = view s /\ forall recs, r = Ret recs -> recs ≡ₚ rows_of (view s);
  update_law rec s r s' : UpdateProvider p rec s = (r, s') ->
    if is_ret r then exists old, view s !! rec_ID rec = Some old /\
      view s' = <[rec_ID rec := set_times (rec_CreatedAt old) (rec_UpdatedAt rec) rec]> (view s)
    else view s' = view s;
  reseal_law id sealed t s r s' : UpdateProviderSealed p id sealed t s = (r, s') ->
    if is_ret r then exists old, view s !! id = Some old /\
      view s' = <[id := set_sealed sealed t old]> (view s)
    else view s' = view s;
  delete_law id s r s' : DeleteProvider p id s = (r, s') ->
    view s' = if is_ret r then delete id (view s) else view s
}.

(** Rows are kept under their own identifiers. *)
Definition well_keyed {Rec Def} {Sh : Shape Rec Def} (view : gmap string Rec) : Prop :=
  forall id rec, view !! id = Some rec -> rec_ID rec = id.

Section Secrets.
Context (E : Env) {S Rec Def Reg : Type} {Sh : Shape Rec Def} {ShL : ShapeLaws Sh}.
Context (m : Manager (S := S) (Rec := Rec) (Reg := Reg)) (view : S -> gmap string Rec).
Context {HC : ProviderStoreContract (mg_store m) view}.
Hypothesis rand_fills : forall tr n b, env_rand E tr n = Ret b -> length b = n.
Local Abbreviation W := (world (mstate S Reg)).
Implicit Type w : W.

Definition table (w : W) : gmap string Rec := view (app w).

Lemma app_call_run {A} method (op : S -> go A * S) w r w' :
  app_call method op w = (r, w') -> op (app w) = (r, app w').
Proof.
  unfold app_call, store_call, app. destruct (op (ms_app (w_store w))) as [r1 s1]. by intros [= <- <-].
Qed.

(** An envelope of [ks] that opens to [plaintext]. *)
Definition seals (ks : KeySet) (plaintext envelope : bytes) : Prop :=
  Open ks envelope = Ret plaintext /\ head envelope = Some (WriteKeyID ks).

Lemma Seal_seals ks plaintext w env w' :
  (forall a, ks_keys ks !! WriteKeyID ks = Some a -> aead_ok a) ->
  Seal E ks plaintext w = (Ret env, w') -> seals ks plaintext env.
Proof.
  intros Hok H. apply (Seal_Ret E rand_fills) in H as (a & nonce & Ha & Hn & ->).
  specialize (Hok a Ha). split; [|done]. unfold Open. rewrite Ha, <- Hn.
  rewrite (proj2 (Nat.ltb_ge _ _)) by (cbn; rewrite length_app; lia).
  by rewrite take_app_length, drop_app_length, Hok.
Qed.

Lemma quiet_Seal ks plaintext : quiet (S := mstate S Reg) (Seal E ks plaintext).
Proof. unfold Seal, rand_read. quiet_tac. Qed.

Lemma table_quiet {A} (c : M (mstate S Reg) A) w r w' : quiet c -> c w = (r, w') -> table w' = table w.
Proof. intros H Hc. unfold table, app. by destruct (quiet_run _ _ _ _ H Hc) as [-> _]. Qed.

(** A step that leaves the store alone, and what comes after it. *)
Lemma quiet_then {A B} (c : M (mstate S Reg) A) (k : A -> M (mstate S Reg) B) w r w' :
  quiet c -> (c ≫= k) w = (r, w') ->
  (exists a w1, c w = (Ret a, w1) /\ table w1 = table w /\ k a w1 = (r, w')) \/
  (is_ret r = false /\ table w' = table w).
Proof.
  intros Hq [(a & w1 & Hc & H)|[(e & Hc & ->)|(why & Hc & ->)]]%bind_inv; eauto 8 using table_quiet.
Qed.

(** ** Re-sealing *)

(** Whether a row's secret is sealed under another key than the one written with. *)
Definition stale (ks : KeySet) (rec : Rec) : bool :=
  match rec_sealed rec with [] => false | k :: _ => negb (Ascii.eqb k (WriteKeyID ks)) end.
Definition has_secret (rec : Rec) : bool := negb (bool_decide (rec_sealed rec = [])).

(** A row the rotation left: itself, or the same row with the same secret under
    the write key. *)
Inductive resealed (ks : KeySet) (rec : Rec) : Rec -> Prop :=
  | Untouched : resealed ks rec rec
  | Resealed p envelope t : Open ks (rec_sealed rec) = Ret p -> seals ks p envelope ->
      resealed ks rec (set_sealed envelope t rec).

Lemma stale_seals ks p envelope t rec : seals ks p envelope -> stale ks (set_sealed envelope t rec) = false.
Proof.
  intros [_ Hh]. unfold stale. rewrite set_sealed_sealed. destruct envelope; [done|].
  injection Hh as ->. by rewrite Ascii.eqb_refl.
Qed.

Section Rotate.
Context (ks : KeySet) (ks_ok : forall a, ks_keys ks !! WriteKeyID ks = Some a -> aead_ok a).

Lemma persist_run rec envelope t w r w' :
  wrap (Errorf1 "rotate: persist")
    (app_call "UpdateProviderSealed" (UpdateProviderSealed (mg_store m) (rec_ID rec) envelope t)) w = (r, w') ->
  table w !! rec_ID rec = Some rec ->
  (r = Ret tt /\ table w' = <[rec_ID rec := set_sealed envelope t rec]> (table w)) \/
  (is_ret r = false /\ table w' = table w).
Proof.
  intros (r1 & Hu & ->)%wrap_inv Hrow. apply app_call_run, reseal_law in Hu.
  destruct r1 as [[]| |]; cbn in Hu; [left|by right..].
  destruct Hu as (old & Hold & Hview). split; [done|]. unfold table in *. congruence.
Qed.

Lemma rotate_one_run rec w r w' : rotate_one E m ks rec w = (r, w') ->
  table w !! rec_ID rec = Some rec ->
  (r = Ret (stale ks rec) /\ exists rec', resealed ks rec rec' /\ stale ks rec' = false /\
     table w' = <[rec_ID rec := rec']> (table w)) \/
  (is_ret r = false /\ table w' = table w).
Proof.
  unfold rotate_one, stale at 1. intros H Hrow. destruct (rec_sealed rec) as [|k rest] eqn:Hs.
  { apply mret_inv in H as [-> ->]. left. split; [done|]. exists rec.
    split_and!; [constructor|by unfold stale; rewrite Hs|by rewrite insert_id]. }
  destruct (Ascii.eqb k (WriteKeyID ks)) eqn:Hk.
  { apply mret_inv in H as [-> ->]. left. split; [done|]. exists rec.
    split_and!; [constructor|by unfold stale; rewrite Hs, Hk|by rewrite insert_id]. }
  rewrite <- Hs in H.
  apply quiet_then in H as [(p & w1 & Hp & Ht1 & H)|]; [|by right|apply quiet_wrap, quiet_lift].
  apply wrap_Ret_inv, lift_inv in Hp as [Hp _].
  apply quiet_then in H as [(env & w2 & Hseal & Ht2 & H)|[? Ht2]];
    [|by right; rewrite Ht2|apply quiet_wrap, quiet_Seal].
  apply wrap_Ret_inv, Seal_seals in Hseal; [|done].
  apply quiet_then in H as [(n & w3 & _ & Ht3 & H)|[? Ht3]];
    [|by right; rewrite Ht3, Ht2|apply quiet_observe].
  assert (table w3 = table w) as Ht by congruence. rewrite <- Ht in *.
  apply bind_inv in H as [([] & w4 & Hu & H)|[(e & Hu & ->)|(why & Hu & ->)]];
    apply persist_run in Hu as [[[=] Hu]|[[=] Hu]]; try done; [|by right..].
  apply mret_inv in H as [-> ->]. left. split; [done|].
  exists (set_sealed env n rec). split_and!; [by eapply Resealed|by eapply stale_seals|done].
Qed.

Definition count (f : Rec -> bool) (recs : list Rec) : Z := Z.of_nat (length (List.filter f recs)).

Definition finished (r : go (RotateResult * option error)) : Prop := exists res, r = Ret (res, None).

Lemma count_cons f rec recs : count f (rec :: recs) = (if f rec then 1 else 0) + count f recs.
Proof. unfold count. cbn [List.filter]. destruct (f rec); cbn [length]; lia. Qed.

(** What a rotation over [recs] made of the table: other rows are untouched,
    each of these is resealed, and not stale when [fin]. *)
Record progress (recs : list Rec) (fin : Prop) (t t' : gmap string Rec) : Prop := {
  pg_others id : id ∉ map rec_ID recs -> t' !! id = t !! id;
  pg_rows rec : rec ∈ recs -> exists rec', t' !! rec_ID rec = Some rec' /\
    resealed ks rec rec' /\ (fin -> stale ks rec' = false)
}.

Definition rows_in (recs : list Rec) (t : gmap string Rec) : Prop :=
  forall rec, rec ∈ recs -> t !! rec_ID rec = Some rec.

Lemma progress_none recs (fin : Prop) t : rows_in recs t -> (fin -> recs = []) -> progress recs fin t t.
Proof.
  intros Hrows Hfin. split; [done|]. intros rec Hin. exists rec. split_and!; [auto|constructor|].
  intros ->%Hfin. by apply not_elem_of_nil in Hin.
Qed.

Lemma progress_cons rec rec' recs fin t t' : rec_ID rec ∉ map rec_ID recs ->
  resealed ks rec rec' -> stale ks rec' = false ->
  progress recs fin (<[rec_ID rec := rec']> t) t' -> progress (rec :: recs) fin t t'.
Proof.
  intros Hnew Hr Hst [Ho Hrows]. split.
  - intros id [Hne Hid]%not_elem_of_cons. rewrite Ho by done. by apply lookup_insert_ne.
  - intros rec0 [->|Hin]%elem_of_cons; [|by apply Hrows].
    exists rec'. rewrite Ho by done. by rewrite lookup_insert_eq.
Qed.

Lemma rows_in_insert rec rec' recs t : rec_ID rec ∉ map rec_ID recs -> rows_in (rec :: recs) t ->
  rows_in recs (<[rec_ID rec := rec']> t).
Proof.
  intros Hnew Hrows r Hin. rewrite lookup_insert_ne; [apply Hrows; by right|].
  intros Heq. apply Hnew. rewrite Heq. by apply list_elem_of_fmap_2.
Qed.

Lemma rotate_loop_run recs result w r w' : rotate_loop E m ks recs result w = (r, w') ->
  NoDup (map rec_ID recs) -> rows_in recs (table w) ->
  progress recs (finished r) (table w) (table w') /\
  (forall res, r = Ret (res, None) ->
     res = MkRotate (Scanned result + count has_secret recs) (Rotated result + count (stale ks) recs)).
Proof.
  revert result w. induction recs as [|rec recs IH]; intros result w; cbn [rotate_loop].
  { intros [-> ->]%mret_inv _ Hrows. split; [by apply progress_none|].
    intros res [= <-]. unfold count. cbn. rewrite !Z.add_0_r. by destruct result. }
  intros H Hnd Hrows. cbn [map] in Hnd. apply NoDup_cons in Hnd as [Hnew Hnd].
  assert (table w !! rec_ID rec = Some rec) as Hrow by (apply Hrows; left).
  apply try_catch_inv in H as [(b & w1 & H1 & H)|[(e & w1 & H1 & H)|(why & H1 & ->)]];
    apply rotate_one_run in H1 as [[[=] (rec' & Hre & Hst & Ht)]|[[=] Ht]]; try done.
  - subst b. assert (rows_in recs (table w1)) as Hrows1 by (rewrite Ht; by apply rows_in_insert).
    destruct (IH _ _ H Hnd Hrows1) as [Hp Hc]. rewrite Ht in Hp.
    split; [by eapply progress_cons|]. intros res Hres. rewrite (Hc res Hres), !count_cons.
    unfold has_secret. destruct (stale ks rec), (bool_decide (rec_sealed rec = [])); cbn; f_equal; lia.
  - apply mret_inv in H as [-> ->]. rewrite Ht. split; [|done]. apply progress_none; [done|]. by intros [? [=]].
  - rewrite Ht. split; [|done]. apply progress_none; [done|]. by intros [? [=]].
Qed.
End Rotate.

Lemma map_rec_ID_rows (t : gmap string Rec) : well_keyed t -> map rec_ID (rows_of t) = (map_to_list t).*1.
Proof.
  intros Hk. unfold rows_of. rewrite map_map. apply map_ext_in. intros [id rec] Hin.
  apply Hk. by apply elem_of_map_to_list, list_elem_of_In.
Qed.

Lemma elem_of_rows (t : gmap string Rec) rec : well_keyed t -> rec ∈ rows_of t <-> t !! rec_ID rec = Some rec.
Proof.
  intros Hk. unfold rows_of. rewrite list_elem_of_fmap. split.
  - intros ([id rec0] & -> & Hin%elem_of_map_to_list). cbn. by rewrite (Hk id).
  - intros H. exists (rec_ID rec, rec). split; [done|]. by apply elem_of_map_to_list.
Qed.

Lemma count_none f recs : (forall rec, rec ∈ recs -> f rec = false) -> count f recs = 0.
Proof.
  induction recs as [|rec recs IH]; intros H; [done|]. rewrite count_cons, H, IH; [done| |left].
  intros rec' Hin. apply H. by right.
Qed.

Lemma count_perm f recs recs' : recs ≡ₚ recs' -> count f recs = count f recs'.
Proof. intros Hp. unfold count. by rewrite (Permutation_length (Permutation_filter f _ _ Hp)). Qed.

Lemma progress_perm ks recs recs' fin t t' : recs ≡ₚ recs' ->
  progress ks recs fin t t' -> progress ks recs' fin t t'.
Proof.
  intros Hp [Ho Hr]. split.
  - intros id Hid. apply Ho. by rewrite Hp.
  - intros rec Hin. apply Hr. by rewrite Hp.
Qed.

Lemma rotate_progress ks w r w' :
  mg_keys m = Some ks -> (forall a, ks_keys ks !! WriteKeyID ks = Some a -> aead_ok a) ->
  well_keyed (table w) -> RotateSealedSecrets E m w = (r, w') ->
  progress ks (rows_of (table w)) (finished r) (table w) (table w') /\
  (forall res, r = Ret (res, None) ->
     res = MkRotate (count has_secret (rows_of (table w))) (count (stale ks) (rows_of (table w)))).
Proof.
  intros Hks Hok Hkeyed H. unfold RotateSealedSecrets in H. rewrite Hks in H.
  assert (rows_in (rows_of (table w)) (table w)) as Hrows by (intros rec; by apply elem_of_rows).
  apply try_catch_inv in H as [(recs & w1 & H1 & H)|[(e & w1 & H1 & H)|(why & H1 & ->)]];
    apply app_call_run, list_law in H1 as [Ht Hl].
  - specialize (Hl recs eq_refl). change (recs ≡ₚ rows_of (table w)) in Hl. change (table w1 = table w) in Ht.
    apply rotate_loop_run in H as [Hp Hc]; [|done| |].
    + rewrite Ht in Hp. split; [by eapply progress_perm|]. intros res Hres.
      rewrite (Hc res Hres). cbn. by rewrite !(count_perm _ _ _ Hl).
    + rewrite Hl, map_rec_ID_rows by done. apply NoDup_fst_map_to_list.
    + intros rec. rewrite Hl, Ht. apply Hrows.
  - apply mret_inv in H as [-> ->]. change (table w1 = table w) in Ht. rewrite Ht.
    split; [|done]. apply progress_none; [done|]. by intros [? [=]].
  - change (table w' = table w) in Ht. rewrite Ht. split; [|done].
    apply progress_none; [done|]. by intros [? [=]].
Qed.

(** Re-sealing loses nothing. Whatever the rotation ends in (a refusal of
    the store or of the cipher half-way through included), the table has the
    same rows as before, and each is the row it was, or that row with the same
    secret under the write key. When it ends without an error, no row is left
    under another key, and the summary counts the rows that have a secret and
    those that were under another key; so a second run rotates none. *)
Theorem RotateSealedSecrets_safe ks w r w' :
  mg_keys m = Some ks -> (forall a, ks_keys ks !! WriteKeyID ks = Some a -> aead_ok a) ->
  well_keyed (table w) ->
  RotateSealedSecrets E m w = (r, w') ->
  (forall id, table w' !! id = None <-> table w !! id = None) /\
  (forall id rec, table w !! id = Some rec -> exists rec', table w' !! id = Some rec' /\ resealed ks rec rec') /\
  (forall res, r = Ret (res, None) ->
     res = MkRotate (count has_secret (rows_of (table w))) (count (stale ks) (rows_of (table w))) /\
     (forall id rec', table w' !! id = Some rec' -> stale ks rec' = false) /\
     count (stale ks) (rows_of (table w')) = 0).
Proof.
  intros Hks Hok Hkeyed H. destruct (rotate_progress ks w r w' Hks Hok Hkeyed H) as [[Ho Hrows] Hc].
  assert (forall id rec, table w !! id = Some rec -> exists rec', table w' !! id = Some rec' /\
    resealed ks rec rec' /\ (finished r -> stale ks rec' = false)) as Hsome.
  { intros id rec Hid. rewrite <- (Hkeyed id rec Hid). apply Hrows, elem_of_rows; [done|].
    by rewrite (Hkeyed id rec Hid). }
  assert (forall id, table w !! id = None -> table w' !! id = None) as Hnone.
  { intros id Hid. rewrite Ho; [done|]. rewrite map_rec_ID_rows by done.
    intros ([id' rec] & -> & Hin%elem_of_map_to_list)%list_elem_of_fmap. cbn in Hid. congruence. }
  assert (finished r -> forall id rec', table w' !! id = Some rec' -> stale ks rec' = false) as Hst.
  { intros Hf id rec' Hid. destruct (table w !! id) as [rec|] eqn:Hold; [|by rewrite Hnone in Hid].
    destruct (Hsome id rec Hold) as (rec0 & Hid0 & _ & Hs). rewrite Hid in Hid0. injection Hid0 as <-. auto. }
  split_and!.
  - intros id. split; [|apply Hnone]. destruct (table w !! id) as [rec|] eqn:Hold; [|done].
    destruct (Hsome id rec Hold) as (rec' & -> & _). done.
  - intros id rec Hid. destruct (Hsome id rec Hid) as (rec' & ? & ? & _). eauto.
  - intros res Hres. split; [auto|]. assert (finished r) as Hf by (by exists res). split; [eauto|].
    apply count_none. intros rec ([id rec'] & -> & Hin%elem_of_map_to_list)%list_elem_of_fmap. eauto.
Qed.

(** ** Definitions come back *)

Lemma Open_key ks ks' envelope k : head envelope = Some k -> ks_keys ks' !! k = ks_keys ks !! k ->
  Open ks' envelope = Open ks envelope.
Proof. destruct envelope as [|k' rest]; [done|]. intros [= ->] Hk. unfold Open. by rewrite Hk. Qed.

Lemma definition_roundtrip ks ks' def envelope n :
  ks_keys ks' !! WriteKeyID ks = ks_keys ks !! WriteKeyID ks ->
  seals ks (to_bytes (def_secret def)) envelope ->
  definitionFromRecord (Some ks') (set_times n n (recordFromDefinition def envelope)) =
    Ret (def_set_times n n def).
Proof.
  intros Hk [Ho Hh]. unfold definitionFromRecord. rewrite set_times_sealed, sealed_of_record.
  rewrite bool_decide_eq_false_2 by (intros ->; discriminate Hh).
  rewrite (Open_key ks ks' envelope _ Hh Hk), Ho. cbn. unfold to_bytes.
  by rewrite String.string_of_list_ascii_of_string, definition_of_times, definition_of_record.
Qed.

Lemma Create_Ret ks def w w' : mg_keys m = Some ks ->
  (forall a, ks_keys ks !! WriteKeyID ks = Some a -> aead_ok a) ->
  Create E m def w = (Ret tt, w') ->
  def_ID def <> "" /\ exists envelope n, seals ks (to_bytes (def_secret def)) envelope /\
    table w !! def_ID def = None /\
    table w' = <[def_ID def := set_times n n (recordFromDefinition def envelope)]> (table w) /\
    regs w' !! Single = None.
Proof.
  intros Hks Hok. unfold Create. rewrite Hks. destruct (String.eqb_spec (def_ID def) "") as [|Hid]; [done|].
  intros H. split; [done|].
  apply quiet_then in H as [(env & w1 & Hs & Ht1 & H)|[[=] _]]; [|apply quiet_wrap, quiet_Seal].
  apply wrap_Ret_inv, Seal_seals in Hs; [|done].
  apply quiet_then in H as [(n & w2 & _ & Ht2 & H)|[[=] _]]; [|apply quiet_observe].
  apply bind_Ret_inv in H as ([] & w3 & Hi & [= <-]).
  apply app_call_run, insert_law in Hi as [Hnew Hview].
  rewrite set_times_id, id_of_record in *. exists env, n. unfold table in *.
  split_and!; [done|congruence|by rewrite <- Ht1, <- Ht2|].
  unfold invalidateCache, InvalidateTenant, modify, regs. cbn.
  destruct (mg_inherit m); [apply lookup_empty|apply lookup_delete_eq].
Qed.

(** A provider comes back as it was created. A definition that [Create]
    accepted had a new identifier, and [Get], of any manager over the same store
    whose key set still holds the key the secret was sealed with, answers that
    very definition, with the time of the creation as its two times, as long as
    the row is the one that was created; the manager's single-tenant registry is
    dropped from the cache. *)
Theorem Create_Get ks def w w' :
  mg_keys m = Some ks -> (forall a, ks_keys ks !! WriteKeyID ks = Some a -> aead_ok a) ->
  Create E m def w = (Ret tt, w') ->
  table w !! def_ID def = None /\ regs w' !! Single = None /\
  exists n, forall (m' : Manager (Reg := Reg)) ks' w1 w2 def',
    mg_store m' = mg_store m -> mg_keys m' = Some ks' ->
    ks_keys ks' !! WriteKeyID ks = ks_keys ks !! WriteKeyID ks ->
    table w1 !! def_ID def = table w' !! def_ID def ->
    Get m' (def_ID def) w1 = (Ret def', w2) -> def' = def_set_times n n def.
Proof.
  intros Hks Hok H. destruct (Create_Ret ks def w w' Hks Hok H) as (Hid & env & n & Hs & Hnew & Ht & Hr).
  split_and!; [done..|]. exists n. intros m' ks' w1 w2 def' Hst Hks' Hkey Hrow.
  unfold Get. rewrite (proj2 (String.eqb_neq _ _) Hid), Hst, Hks'.
  intros (rec & w3 & Hg & Hd)%bind_Ret_inv. apply lift_inv in Hd as [Hd _].
  apply app_call_run, get_law in Hg as [_ Hg]. specialize (Hg rec eq_refl).
  change (table w1 !! def_ID def = Some rec) in Hg.
  rewrite Hrow, Ht, lookup_insert_eq in Hg. injection Hg as <-.
  rewrite (definition_roundtrip ks ks') in Hd by done. by injection Hd.
Qed.
End Secrets.

(** ** The reference store keeps the contract *)

Lemma elem_of_sortedLocked f s :
  MemProviderStore.sortedLocked f s ≡ₚ List.filter f (rows_of (MemProviderStore.recs s)).
Proof. unfold MemProviderStore.sortedLocked. apply sort_by_Permutation. Qed.

#[export] Instance mem_contract : ProviderStoreContract MemProviderStore.port MemProviderStore.recs.
Proof.
  split; cbn.
  - intros rec s r s'. unfold MemProviderStore.InsertProvider.
    destruct (MemProviderStore.recs s !! pr_ID rec) eqn:H; intros [= <- <-]; cbn; auto.
  - intros rec s [old H]. unfold MemProviderStore.InsertProvider. by rewrite H.
  - intros id s r s'. unfold MemProviderStore.GetProvider.
    destruct (MemProviderStore.recs s !! id) eqn:H; intros [= <- <-]; (split; [done|]); [by intros ? [= <-]|done].
  - intros s r s' [= <- <-]. split; [done|]. intros recs [= <-]. rewrite elem_of_sortedLocked.
    by rewrite List.forallb_filter_id by (apply forallb_forall; done).
  - intros rec s r s'. unfold MemProviderStore.UpdateProvider.
    destruct (MemProviderStore.recs s !! pr_ID rec) eqn:H; intros [= <- <-]; cbn; eauto.
  - intros id sealed t s r s'. unfold MemProviderStore.UpdateProviderSealedSecret.
    destruct (MemProviderStore.recs s !! id) eqn:H; intros [= <- <-]; cbn; eauto.
  - intros id s r s' [= <- <-]. done.
Qed.

(** ** At concrete inputs *)

Module Keyed.
Definition manager (ks : KeySet) := NewManager toy_oidc map_to_list MemProviderStore.port (Some ks) Demo.opts.
Definition okta (secret : string) : ProviderDefinition :=
  MkDefinition "okta" "https://okta" "app" secret "Okta" ["groups"] "" "" true 0 0.
Local Abbreviation W := (world (mstate MemProviderStore.store (ProviderRegistry (Provider string string string)))).
Definition empty : W := World (MState MemProviderStore.NewMemProviderStore ∅) [].
(** The provider, created under the old key. *)
Definition created : go unit * W := Create Demo.env (manager old_keys) (okta "s3cret") empty.
Definition secret (r : go ProviderDefinition) : go string := d ← r; Ret (pd_ClientSecret d).
End Keyed.

Lemma demo_fills tr n b : env_rand Demo.env tr n = Ret b -> length b = n.
Proof. intros [= <-]. apply repeat_length. Qed.

Lemma old_keys_ok a : ks_keys old_keys !! WriteKeyID old_keys = Some a -> aead_ok a.
Proof. cbn. rewrite lookup_singleton_eq. intros [= <-]. apply toy_aead_ok. Qed.

Lemma new_keys_ok a : ks_keys new_keys !! WriteKeyID new_keys = Some a -> aead_ok a.
Proof. cbn. rewrite lookup_insert_eq. intros [= <-]. apply toy_aead_ok. Qed.

Lemma well_keyed_check (t : gmap string ProviderRecord) :
  forallb (fun '(id, rec) => String.eqb (pr_ID rec) id) (map_to_list t) = true -> well_keyed t.
Proof.
  rewrite forallb_forall. intros H id rec Hin%elem_of_map_to_list%list_elem_of_In.
  apply String.eqb_eq, (H (id, rec) Hin).
Qed.

Lemma created_keyed : well_keyed (table MemProviderStore.recs Keyed.created.2).
Proof. apply well_keyed_check. vm_compute. reflexivity. Qed.

(** The key was rotated: the row is re-sealed, and a second run has nothing to do. *)
Lemma RotateSealedSecrets_safe_witness : exists w',
  RotateSealedSecrets Demo.env (Keyed.manager new_keys) Keyed.created.2 = (Ret (MkRotate 1 1, None), w') /\
  count (stale new_keys) (rows_of (table MemProviderStore.recs w')) = 0.
Proof.
  assert ((RotateSealedSecrets Demo.env (Keyed.manager new_keys) Keyed.created.2).1 =
    Ret (MkRotate 1 1, None)) as Hr by (vm_compute; reflexivity).
  destruct (RotateSealedSecrets Demo.env (Keyed.manager new_keys) Keyed.created.2) as [r w'] eqn:H.
  cbn [fst] in Hr.
  exists w'. split; [by rewrite Hr|].
  destruct (RotateSealedSecrets_safe Demo.env (Keyed.manager new_keys) MemProviderStore.recs demo_fills
    new_keys Keyed.created.2 r w' eq_refl new_keys_ok created_keyed H) as (_ & _ & Hc).
  exact (proj2 (proj2 (Hc _ Hr))).
Defined.

Lemma old_key_kept : ks_keys new_keys !! WriteKeyID old_keys = ks_keys old_keys !! WriteKeyID old_keys.
Proof. reflexivity. Qed.

Lemma Create_Get_witness : exists n def' w',
  Get (Keyed.manager new_keys) "okta" Keyed.created.2 = (Ret def', w') /\
  def' = def_set_times n n (Keyed.okta "s3cret").
Proof.
  assert (Keyed.created.1 = Ret tt) as Hr by (vm_compute; reflexivity).
  assert (is_ret (Get (Keyed.manager new_keys) "okta" Keyed.created.2).1 = true) as Hg by (vm_compute; reflexivity).
  assert (Keyed.created = (Ret tt, Keyed.created.2)) as H by (rewrite <- Hr; apply surjective_pairing).
  destruct (Create_Get Demo.env (Keyed.manager old_keys) MemProviderStore.recs demo_fills old_keys
    (Keyed.okta "s3cret") Keyed.empty Keyed.created.2 eq_refl old_keys_ok H) as (_ & _ & n & Hn).
  destruct (Get (Keyed.manager new_keys) "okta" Keyed.created.2) as [[def'|e|why] w2] eqn:Hget;
    [|discriminate Hg..].
  exists n, def', w2. split; [reflexivity|].
  exact (Hn (Keyed.manager new_keys) new_keys Keyed.created.2 w2 def' eq_refl eq_refl old_key_kept eq_refl Hget).
Defined.

(** The rotation persists what it read. An [Update] that falls between its scan
    and its write of a row is undone for the secret: the administrator's new
    secret is gone, and the old one is back. *)
Example rotation_undoes_update :
  let m := Keyed.manager new_keys in
  match ListProviders (mg_store m) (ms_app (w_store Keyed.created.2)) with
  | (Ret [row], _) =>
      let updated := (Update Demo.env m (Keyed.okta "n3w") Keyed.created.2).2 in
      let rotated := (rotate_one Demo.env m new_keys row updated).2 in
      (Keyed.secret (Get m "okta" updated).1, Keyed.secret (Get m "okta" rotated).1)
  | _ => (Ret "", Ret "")
  end = (Ret "n3w", Ret "s3cret").
Proof. vm_compute. reflexivity. Qed.
