(* ===== verification/OidcClaims.v ===== *)
(** * Claims of an ID token

    [src/oidc/claims.go] and [mapper.go]: verifying an ID token, merging what
    the userinfo endpoint adds, and reading the authentication time, the
    assurance level and the groups off the claims. go-oidc's verifier is the
    record [IDTokens]; a decoded JSON value is [any]. *)

From S2P Require Import Prelude Bytes World Secrets Oidc.

Set Warnings "-register-all".
#[local] Open Scope string_scope.
#[local] Open Scope list_scope.
#[local] Open Scope Z_scope.

(** ** Decoded values *)

(** The dynamic types the code tells apart. A finite float64 is [m * 2^e]. *)
Inductive any :=
  | AString (s : string)
  | AFloat64 (m e : Z)
  | AInt64 (n : Z)
  | ANumber (text : string)
  | AStrings (l : list string)
  | AList (l : list any)
  | ANil
  | ABool (b : bool)
  | AOther.

(** [strconv.ParseInt(s, 10, 64)]; [None] is an error. *)
Definition digit (c : ascii) : option Z :=
  let n := Z.of_N (N_of_ascii c) in
  if (48 <=? n) && (n <=? 57) then Some (n - 48) else None.
Fixpoint parse_digits (acc : Z) (s : bytes) : option Z :=
  match s with
  | [] => Some acc
  | c :: s => d ← digit c; parse_digits (acc * 10 + d) s
  end.
Definition parse_unsigned (s : bytes) : option Z :=
  match s with [] => None | _ => parse_digits 0 s end.
Definition int64_range (n : Z) : bool := (- 2 ^ 63 <=? n) && (n <? 2 ^ 63).
Definition ParseInt (s : string) : option Z :=
  n ← match to_bytes s with
      | "-"%char :: s => n ← parse_unsigned s; Some (- n)
      | "+"%char :: s => parse_unsigned s
      | s => parse_unsigned s
      end;
  if int64_range n then Some n else None.

(** [int64(f)]: towards zero; what becomes of a value outside the type depends
    on the machine. *)
Definition float_trunc (m e : Z) : Z := if 0 <=? e then m * 2 ^ e else Z.quot m (2 ^ (- e)).

(** ** Claims (claims.go) *)

Record IDClaims := MkClaims {
  c_Sub : string;
  c_Email : string;
  c_EmailVerified : bool;
  c_Name : string;
  c_PreferredUsername : string;
  c_Raw : gmap string any
}.
Definition set_Raw (c : IDClaims) (raw : gmap string any) : IDClaims :=
  MkClaims (c_Sub c) (c_Email c) (c_EmailVerified c) (c_Name c) (c_PreferredUsername c) raw.
Definition set_Email (c : IDClaims) (s : string) : IDClaims :=
  MkClaims (c_Sub c) s (c_EmailVerified c) (c_Name c) (c_PreferredUsername c) (c_Raw c).
Definition set_Name (c : IDClaims) (s : string) : IDClaims :=
  MkClaims (c_Sub c) (c_Email c) (c_EmailVerified c) s (c_PreferredUsername c) (c_Raw c).

(** go-oidc: [Verify] fetches keys when it has to; [typed_claims] decodes into
    the fields beside [Raw]; [UserInfo] is the call of the endpoint. *)
Record IDTokens (D Verifier Token Info : Type) := {
  Verify : Verifier -> trace -> string -> go Token;
  tok_Nonce : Token -> string;
  typed_claims : Token -> go IDClaims;
  raw_claims : Token -> go (gmap string any);
  UserInfo : D -> trace -> string -> go Info;
  userinfo_claims : Info -> go (gmap string any);
  json_Marshal : gmap string any -> go bytes
}.
Arguments Verify {_ _ _ _} _.
Arguments tok_Nonce {_ _ _ _} _.
Arguments typed_claims {_ _ _ _} _.
Arguments raw_claims {_ _ _ _} _.
Arguments UserInfo {_ _ _ _} _.
Arguments userinfo_claims {_ _ _ _} _.
Arguments json_Marshal {_ _ _ _} _.

Definition id_token_invalid (e : error) : error := Errorf1 "id token" (Sentinel oidc_ErrIDTokenInvalid).

(** The keys the ID token wins. *)
Definition idTokenWins : list string := ["sub"; "aud"; "iss"; "exp"; "nonce"; "iat"; "at_hash"].

Definition overlay (raw userinfo : gmap string any) : gmap string any :=
  filter (fun kv => kv.1 ∉ idTokenWins) userinfo ∪ raw.
Definition nonempty_string (v : option any) : option string :=
  match v with Some (AString s) => if String.eqb s "" then None else Some s | _ => None end.

Definition MergeUserinfoIntoClaims (c : IDClaims) (userinfo : gmap string any) : IDClaims :=
  if bool_decide (userinfo = ∅) then c
  else
    let c := set_Raw c (overlay (c_Raw c) userinfo) in
    let c := match nonempty_string (userinfo !! "email") with Some s => set_Email c s | None => c end in
    match nonempty_string (userinfo !! "name") with Some s => set_Name c s | None => c end.

Section Claims.
Context {D Endpoints Verifier Token Info : Type} (lib : IDTokens D Verifier Token Info).
Context (E : Env) {S : Type}.
Local Abbreviation M := (M S).

Definition VerifyIDToken (p : option (Provider D Endpoints Verifier)) (rawIDToken expectedNonce : string)
    : M IDClaims :=
  match p with
  | None => fail (Errorf0 "provider is nil")
  | Some p =>
      tok ← wrap id_token_invalid
        (r ← observe (EvHook "jwks") (fun tr => Verify lib (p_Verifier p) tr rawIDToken); lift r);
      if negb (String.eqb expectedNonce "") && negb (String.eqb (tok_Nonce lib tok) expectedNonce) then
        fail (Errorf1 "got want" (Sentinel oidc_ErrNonceMismatch))
      else
        typed ← wrap id_token_invalid (lift (typed_claims lib tok));
        raw ← wrap id_token_invalid (lift (raw_claims lib tok));
        if String.eqb (c_Sub typed) "" then fail (id_token_invalid (Errorf0 "no sub claim"))
        else mret (set_Raw typed raw)
  end.

Definition FetchUserinfo (p : option (Provider D Endpoints Verifier)) (accessToken : string)
    : M (gmap string any) :=
  match p with
  | Some p =>
      if String.eqb (p_UserInfoURL p) "" then fail (id_token_invalid (Errorf0 "no userinfo endpoint"))
      else
        info ← wrap id_token_invalid
          (r ← observe (EvHook "userinfo") (fun tr => UserInfo lib (p_OIDC p) tr accessToken); lift r);
        wrap id_token_invalid (lift (userinfo_claims lib info))
  | None => fail (id_token_invalid (Errorf0 "no userinfo endpoint"))
  end.

(** [None] is nil. *)
Definition JSONRawFromClaims (c : option IDClaims) : option bytes :=
  match c with
  | None => None
  | Some c =>
      if bool_decide (c_Raw c = ∅) then None
      else match json_Marshal lib (c_Raw c) with Ret b => Some b | _ => None end
  end.

(** ** What the claims say (claims.go) *)

(** [float_overflow] is the machine's conversion of a value outside int64. *)
Context (float_overflow : Z -> Z -> Z).

Definition int64_of_float (m e : Z) : Z :=
  if int64_range (float_trunc m e) then float_trunc m e else float_overflow m e.

(** The branches of the type switch that return. *)
Definition claimed_time (v : option any) : option Z :=
  match v with
  | Some (AFloat64 m e) => if 0 <? m then Some (int64_of_float m e) else None
  | Some (AInt64 n) => if 0 <? n then Some n else None
  | Some (ANumber s) => n ← ParseInt s; if 0 <? n then Some n else None
  | _ => None
  end.

Definition AuthTime (c : option IDClaims) : M Z :=
  match c ≫= fun c => claimed_time (c_Raw c !! "auth_time") with
  | Some n => mret n
  | None => n ← now E; mret (Unix n)
  end.

Definition ACR (c : option IDClaims) (fallback : string) : string :=
  match c ≫= fun c => nonempty_string (c_Raw c !! "acr") with Some s => s | None => fallback end.
End Claims.

(** ** Groups (mapper.go) *)

Definition string_item (v : any) : option string :=
  match v with AString s => trimmed s | _ => None end.

(** Nil and the empty list both are []. *)
Definition ExtractGroups (claims : gmap string any) (claimName : string) : list string :=
  let key := if String.eqb claimName "" then "groups" else claimName in
  match claims !! key with
  | Some (AList l) => omap string_item l
  | Some (AStrings l) => omap trimmed l
  | Some (AString s) =>
      if String.eqb s "" then []
      else comma_segments s
  | _ => []
  end.

(** ** What verification establishes *)

Section Verified.
Context {D Endpoints Verifier Token Info : Type} (lib : IDTokens D Verifier Token Info).
Context {S : Type}.
Implicit Type w : world S.

Lemma id_token_invalid_is e : errors_is (id_token_invalid e) oidc_ErrIDTokenInvalid = true.
Proof. reflexivity. Qed.

(** Claims come out of [VerifyIDToken] only when the provider's verifier
    accepted the token, its nonce is the flow's (when the flow has one), and it
    names a subject; the raw claims are those of the same token. Every failure
    is one of the two sentinels, and a wrong nonce is not [ErrIDTokenInvalid].
    Nothing is stored. *)
Theorem VerifyIDToken_sound (p : Provider D Endpoints Verifier) rawIDToken nonce w r w' :
  VerifyIDToken lib (Some p) rawIDToken nonce w = (r, w') ->
  w_store w' = w_store w /\
  (forall c, r = Ret c -> exists tok typed,
     Verify lib (p_Verifier p) (w_trace w) rawIDToken = Ret tok /\
     (nonce <> "" -> tok_Nonce lib tok = nonce) /\
     typed_claims lib tok = Ret typed /\ raw_claims lib tok = Ret (c_Raw c) /\
     c = set_Raw typed (c_Raw c) /\ c_Sub c <> "") /\
  (forall e, r = Fail e -> errors_is e oidc_ErrIDTokenInvalid = negb (errors_is e oidc_ErrNonceMismatch)).
Proof.
  intros H. unfold VerifyIDToken in H. run_step H.
  all: try (split_and!; [done|by intros|by intros ? [= <-]]).
  split_and!; [done| |by intros]. intros c [= <-]. exists a0, a1.
  split_and!; [done| |done|by destruct a1|by destruct a1|by apply String.eqb_neq in Hb0; destruct a1].
  intros Hn. apply String.eqb_neq in Hn. rewrite Hn in Hb. cbn in Hb.
  by apply negb_false_iff, String.eqb_eq in Hb.
Qed.

(** The two errors. *)
Lemma VerifyIDToken_fails (p : Provider D Endpoints Verifier) rawIDToken nonce w e w' :
  VerifyIDToken lib (Some p) rawIDToken nonce w = (Fail e, w') ->
  exists label s, e = Errorf1 label (Sentinel s) /\ s ∈ [oidc_ErrIDTokenInvalid; oidc_ErrNonceMismatch].
Proof. intros H. unfold VerifyIDToken in H. run_step H; unfold id_token_invalid; do 2 eexists; (split; [done|set_solver]). Qed.
End Verified.

(** ** Merging *)

Lemma overlay_lookup raw userinfo k :
  overlay raw userinfo !! k =
    if decide (k ∈ idTokenWins) then raw !! k else
      match userinfo !! k with Some v => Some v | None => raw !! k end.
Proof.
  unfold overlay. rewrite lookup_union. case_decide as Hk.
  - replace (filter _ userinfo !! k) with (@None any); [by destruct (raw !! k)|]. symmetry.
    apply map_lookup_filter_None. right. by intros v _ [].
  - destruct (userinfo !! k) as [v|] eqn:Hv.
    + rewrite (proj2 (map_lookup_filter_Some (M := gmap string) _ _ k v) (conj Hv Hk)).
      by destruct (raw !! k).
    + replace (filter _ userinfo !! k) with (@None any); [by destruct (raw !! k)|]. symmetry.
      apply map_lookup_filter_None. by left.
Qed.

(** What the userinfo endpoint may change. Whatever it answers (for the
    subject of the token or for another), the subject and the protocol claims
    stay those of the ID token; every other raw claim is the userinfo's where it
    has one; the typed e-mail address and name are the userinfo's when they are
    non-empty strings there, and the token's otherwise. Merging the same answer
    again changes nothing. *)
Theorem MergeUserinfo_precedence c userinfo :
  let c' := MergeUserinfoIntoClaims c userinfo in
  c_Sub c' = c_Sub c /\ c_EmailVerified c' = c_EmailVerified c /\
  c_PreferredUsername c' = c_PreferredUsername c /\
  (forall k, c_Raw c' !! k =
     if decide (k ∈ idTokenWins) then c_Raw c !! k
     else match userinfo !! k with Some v => Some v | None => c_Raw c !! k end) /\
  c_Email c' = default (c_Email c) (nonempty_string (userinfo !! "email")) /\
  c_Name c' = default (c_Name c) (nonempty_string (userinfo !! "name")) /\
  MergeUserinfoIntoClaims c' userinfo = c'.
Proof.
  assert (forall raw, overlay (overlay raw userinfo) userinfo = overlay raw userinfo) as Hidem.
  { intros raw. apply map_eq. intros k. rewrite !overlay_lookup. by repeat case_match. }
  cbn zeta. unfold MergeUserinfoIntoClaims. case_bool_decide as Hemp.
  - subst userinfo. rewrite !lookup_empty. split_and!; try done. intros k. rewrite lookup_empty. by case_decide.
  - destruct (nonempty_string (userinfo !! "email")), (nonempty_string (userinfo !! "name"));
      cbn; rewrite ?Hidem; split_and!; try done; intros k; apply overlay_lookup.
Qed.

(** ** When the user authenticated *)

(** The number a decoder's value stands for, whichever mode it decodes in. *)
Inductive denotes : any -> Z -> Prop :=
  | DFloat m e n : (if 0 <=? e then m * 2 ^ e = n else m = n * 2 ^ (- e)) ->
      int64_range n = true -> denotes (AFloat64 m e) n
  | DInt64 n : denotes (AInt64 n) n
  | DNumber s n : ParseInt s = Some n -> denotes (ANumber s) n.

Lemma denotes_claimed overflow v n : denotes v n ->
  claimed_time overflow (Some v) = if 0 <? n then Some n else None.
Proof.
  intros [m e n' He Hr|n'|s n' Hp]; cbn [claimed_time]; [|done|by rewrite Hp].
  unfold int64_of_float, float_trunc. destruct (Z.leb_spec 0 e) as [Hle|Hlt].
  - subst n'. rewrite Hr. assert (0 < 2 ^ e) by (apply Z.pow_pos_nonneg; lia).
    destruct (Z.ltb_spec 0 m), (Z.ltb_spec 0 (m * 2 ^ e)); (done || nia).
  - assert (0 < 2 ^ (- e)) by (apply Z.pow_pos_nonneg; lia). subst m. rewrite Z.quot_mul by lia. rewrite Hr.
    destruct (Z.ltb_spec 0 (n' * 2 ^ (- e))), (Z.ltb_spec 0 n'); (done || nia).
Qed.

Definition is_number (v : any) : bool :=
  match v with AFloat64 _ _ | AInt64 _ | ANumber _ => true | _ => false end.

(** The authentication time is the identity provider's. Whether the JSON
    decoder made a float64, an int64 or a [json.Number] of it, a positive
    integral [auth_time] is answered exactly as it was sent, and no clock is
    read; only without the claim, or with one that is not a positive number, is
    it the present. *)
Theorem AuthTime_shapes overflow E {S : Type} c (w : world S) :
  (forall v n, c_Raw c !! "auth_time" = Some v -> denotes v n -> 0 < n ->
     AuthTime E overflow (Some c) w = (Ret n, w)) /\
  (c_Raw c !! "auth_time" = None \/
   (exists v n, c_Raw c !! "auth_time" = Some v /\ denotes v n /\ n <= 0) \/
   (exists v, c_Raw c !! "auth_time" = Some v /\ is_number v = false) ->
     (AuthTime E overflow (Some c) w).1 = Ret (Unix (env_now E (w_trace w)))).
Proof.
  unfold AuthTime. cbn [mbind option_bind]. split.
  - intros v n -> Hd Hn. rewrite (denotes_claimed overflow v n Hd). by rewrite (proj2 (Z.ltb_lt 0 n) Hn).
  - intros [-> |[(v & n & -> & Hd & Hn)|(v & -> & Hv)]]; [done| |by destruct v].
    rewrite (denotes_claimed overflow v n Hd). by rewrite (proj2 (Z.ltb_ge 0 n) Hn).
Qed.

(** ** Groups *)

Lemma omap_AString names : omap string_item (map AString names) = omap trimmed names.
Proof. induction names as [|s names IH]; cbn; [done|]. by rewrite IH. Qed.

(** The three shapes in which identity providers send groups are read
    alike: names without a comma come out the same from a list of JSON values,
    from a list of strings and from one comma-separated string, under the
    configured claim name, "groups" by default; each trimmed, in their order,
    the empty ones left out. *)
Theorem ExtractGroups_shapes claims claimName names v :
  Forall no_comma names ->
  claims !! (if String.eqb claimName "" then "groups" else claimName) = Some v ->
  v ∈ [AList (map AString names); AStrings names; AString (String.concat "," names)] ->
  ExtractGroups claims claimName = omap trimmed names.
Proof.
  intros Hn Hv Hin. unfold ExtractGroups. rewrite Hv.
  apply elem_of_cons in Hin as [-> |[-> |[-> |[]%not_elem_of_nil]%elem_of_cons]%elem_of_cons].
  - apply omap_AString.
  - done.
  - destruct (String.eqb_spec (String.concat "," names) "") as [He|Hne].
    + destruct names as [|s [|s' names]]; [done| |].
      * cbn in He. by subst s.
      * exfalso. cbn in He. by destruct s.
    + unfold comma_segments. rewrite split_concat; [done| |done]. by intros ->.
Qed.

(** ** At concrete inputs *)

Definition toy_tokens : IDTokens string string string unit := {|
  Verify client tr raw := if String.eqb client "app" then Ret raw else Fail (AppError "audience");
  tok_Nonce tok := "n0nce";
  typed_claims tok := Ret (MkClaims tok "a@example.com" true "Alice" "" ∅);
  raw_claims tok := Ret {["auth_time" := AFloat64 425 2]};
  UserInfo _ _ _ := Ret tt; userinfo_claims _ := Ret ∅; json_Marshal _ := Ret []
|}.
Definition toy_provider : Provider string string string :=
  MkProvider (toy_config "kc" "https://kc") "https://kc"
    (MkOAuth2 "app" "s3cret" "https://kc" "https://app/callback/kc" ["openid"]) "app" "" "".
Definition toy_claims : IDClaims :=
  MkClaims "alice" "a@example.com" true "Alice" "" {["auth_time" := AFloat64 425 2]}.

Lemma VerifyIDToken_sound_witness :
  (VerifyIDToken toy_tokens (Some toy_provider) "alice" "n0nce" (World tt [])).1 = Ret toy_claims /\
  c_Sub toy_claims <> "".
Proof.
  assert ((VerifyIDToken toy_tokens (Some toy_provider) "alice" "n0nce" (World tt [])).1 = Ret toy_claims)
    as Hr by (vm_compute; reflexivity).
  split; [exact Hr|].
  destruct (VerifyIDToken toy_tokens (Some toy_provider) "alice" "n0nce" (World tt [])) as [r w'] eqn:H.
  cbn [fst] in Hr.
  destruct (VerifyIDToken_sound toy_tokens toy_provider "alice" "n0nce" (World tt []) r w' H) as (_ & Hc & _).
  destruct (Hc toy_claims Hr) as (tok & typed & _ & _ & _ & _ & _ & Hsub). exact Hsub.
Defined.

(** 425 * 2^2 is the 1700 that was sent. *)
Lemma AuthTime_shapes_witness :
  AuthTime (demo_rand) (fun _ _ => 0) (Some toy_claims) (World tt []) = (Ret 1700, World tt []).
Proof.
  apply (proj1 (AuthTime_shapes (fun _ _ => 0) demo_rand toy_claims (World tt [])) (AFloat64 425 2) 1700).
  - vm_compute. reflexivity.
  - constructor; reflexivity.
  - reflexivity.
Defined.

Lemma ExtractGroups_shapes_witness :
  ExtractGroups {["roles" := AString " admin,ops "]} "roles" = ["admin"; "ops"].
Proof.
  refine (ExtractGroups_shapes {["roles" := AString " admin,ops "]} "roles" [" admin"; "ops "]
    (AString " admin,ops ") _ _ _).
  - repeat constructor; discriminate.
  - vm_compute. reflexivity.
  - right. right. left.
Defined.

(** A group that is sent twice is listed twice. *)
Example groups_keep_duplicates :
  ExtractGroups {["groups" := AList [AString "ops"; AString "ops"]]} "" = ["ops"; "ops"].
Proof. vm_compute. reflexivity. Qed.
