(* ===== verification/StateCookie.v ===== *)
(** * State cookies

    [src/oidc/state.go] and [src/saml/state.go]: the signed cookie that carries
    a sign-in across the round trip to the identity provider. Both packages
    sign with the application's HS256 secret and tell their cookies apart by a
    purpose. The JSON of the two claim structs, with its tags, [omitempty] and
    name matching, is executable; golang-jwt is the record [JWT]. *)

From S2P Require Import Prelude Bytes World Crypto.

#[local] Open Scope string_scope.
#[local] Open Scope list_scope.
#[local] Open Scope Z_scope.

(** ** Structs as JSON *)

Inductive jval := JStr (s : string) | JInt (n : Z) | JStrs (l : list string).
#[export] Instance jval_eq_dec : EqDecision jval.
Proof. solve_decision. Defined.

(** An object, in the order of its text; and a struct's fields by their tags,
    [None] where [omitempty] leaves the field out. *)
Abbreviation obj := (list (string * jval)).
Abbreviation fields := (list (string * option jval)).
Definition obj_of (fs : fields) : obj := omap (fun '(tag, v) => v ← v; Some (tag, v)) fs.

Definition str_field (s : string) : option jval := if String.eqb s "" then None else Some (JStr s).
Definition int_field (n : Z) : option jval := if n =? 0 then None else Some (JInt n).
Definition strs_field (l : list string) : option jval := match l with [] => None | _ => Some (JStrs l) end.
Definition date_field (n : option Z) : option jval := JInt <$> n.

(** golang-jwt: [SignHS256] is [NewWithClaims(HS256, claims).SignedString];
    [ParseWithClaims] is given the key function (on whether the token's method is
    an HMAC), the clock and the issuer, and answers the payload and [tok.Valid];
    [NewNumericDate] drops what a second is divided into. [fold_name] is how
    [encoding/json] compares a name that is no tag. *)
Record JWT := {
  SignHS256 : bytes -> obj -> go string;
  ParseWithClaims : (bool -> go bytes) -> time -> string -> string -> go (obj * bool);
  NewNumericDate : time -> Z;
  fold_name : string -> string
}.

Record RegisteredClaims := MkRegistered {
  rc_Issuer : string;
  rc_Subject : string;
  rc_Audience : list string;
  rc_ExpiresAt : option Z;
  rc_NotBefore : option Z;
  rc_IssuedAt : option Z;
  rc_ID : string
}.
Definition registered_fields (r : RegisteredClaims) : fields :=
  [("iss", str_field (rc_Issuer r)); ("sub", str_field (rc_Subject r)); ("aud", strs_field (rc_Audience r));
   ("exp", date_field (rc_ExpiresAt r)); ("nbf", date_field (rc_NotBefore r));
   ("iat", date_field (rc_IssuedAt r)); ("jti", str_field (rc_ID r))].
Definition registered_tags : list string := ["iss"; "sub"; "aud"; "exp"; "nbf"; "iat"; "jti"].

Section Decode.
Context (lib : JWT) (tags : list string).

(** The field a name is decoded into: its own, or one that differs in case. *)
Definition field_of (name : string) : option string :=
  if bool_decide (name ∈ tags) then Some name
  else List.find (fun tag => String.eqb (fold_name lib name) (fold_name lib tag)) tags.

(** The last value wins. *)
Definition get (o : obj) (tag : string) : option jval :=
  snd <$> List.find (fun '(name, _) => bool_decide (field_of name = Some tag)) (rev o).

(** A field of another JSON type is an error; one that is absent keeps its zero. *)
Definition get_str (o : obj) (tag : string) : option string :=
  match get o tag with None => Some "" | Some (JStr s) => Some s | _ => None end.
Definition get_int (o : obj) (tag : string) : option Z :=
  match get o tag with None => Some 0 | Some (JInt n) => Some n | _ => None end.
Definition get_strs (o : obj) (tag : string) : option (list string) :=
  match get o tag with None => Some [] | Some (JStrs l) => Some l | _ => None end.
(** [jwt.ClaimStrings] also takes one string. *)
Definition get_audience (o : obj) (tag : string) : option (list string) :=
  match get o tag with None => Some [] | Some (JStrs l) => Some l | Some (JStr s) => Some [s] | _ => None end.
Definition get_date (o : obj) (tag : string) : option (option Z) :=
  match get o tag with None => Some None | Some (JInt n) => Some (Some n) | _ => None end.

Definition get_registered (o : obj) : option RegisteredClaims :=
  iss ← get_str o "iss"; sub ← get_str o "sub"; aud ← get_audience o "aud";
  exp ← get_date o "exp"; nbf ← get_date o "nbf"; iat ← get_date o "iat"; jti ← get_str o "jti";
  Some (MkRegistered iss sub aud exp nbf iat jti).
End Decode.

(** ** Signing and verifying, for either struct *)

(** A claims struct: its JSON, and the fields the signer overwrites. *)
Record Codec (C : Type) := {
  cd_tags : list string;
  cd_fields : C -> fields;
  cd_decode : JWT -> obj -> option C;
  cd_purpose : C -> string;
  cd_registered : C -> RegisteredClaims;
  cd_stamp : string -> RegisteredClaims -> C -> C;
  stateCookiePurpose : string;
  ErrStateExpired : sentinel
}.
Arguments cd_tags {_} _.
Arguments cd_fields {_} _.
Arguments cd_decode {_} _.
Arguments cd_purpose {_} _.
Arguments cd_registered {_} _.
Arguments cd_stamp {_} _.
Arguments stateCookiePurpose {_} _.
Arguments ErrStateExpired {_} _.

Section Cookies.
Context (lib : JWT) {C : Type} (cd : Codec C).

Definition stamped (claims : C) (issuer : string) (now : time) (ttl : Z) : C :=
  let r := cd_registered cd claims in
  cd_stamp cd (stateCookiePurpose cd)
    (MkRegistered issuer (rc_Subject r) (rc_Audience r) (Some (NewNumericDate lib (now + ttl)))
      (rc_NotBefore r) (Some (NewNumericDate lib now)) (rc_ID r)) claims.

Definition sign_state (secret : bytes) (claims : C) (issuer : string) (now : time) (ttl : Z) : go string :=
  match secret with
  | [] => Fail (Errorf0 "state cookie secret is empty")
  | _ => wrap_err (Errorf1 "sign state cookie")
      (SignHS256 lib secret (obj_of (cd_fields cd (stamped claims issuer now ttl))))
  end.

Definition state_key (secret : bytes) (is_hmac : bool) : go bytes :=
  if is_hmac then Ret secret else Fail (Errorf0 "unexpected signing method").

Definition state_expired : error := Errorf1 "state cookie" (Sentinel (ErrStateExpired cd)).

Definition verify_state (secret : bytes) (token issuer : string) (now : time) : go C :=
  match secret with
  | [] => Fail (Errorf0 "state cookie secret is empty")
  | _ =>
      parsed ← wrap_err (fun _ => state_expired) (ParseWithClaims lib (state_key secret) now issuer token);
      match cd_decode cd lib parsed.1 with
      | None => Fail state_expired
      | Some claims =>
          if negb parsed.2 then Fail state_expired
          else if negb (String.eqb (cd_purpose cd claims) (stateCookiePurpose cd)) then Fail state_expired
          else Ret claims
      end
  end.
End Cookies.

(** ** The OIDC cookie (oidc/state.go) *)

Module Oidc.
Record StateCookieClaims := MkState {
  State : string;
  Nonce : string;
  CodeVerifier : string;
  ProviderID : string;
  RedirectAfterLogin : string;
  Mode : string;
  UserID : string;
  RequestedMaxAgeSeconds : Z;
  RequestedACRValues : list string;
  CallingUserID : string;
  Purpose : string;
  Registered : RegisteredClaims
}.

Definition tags : list string :=
  ["st"; "nc"; "cv"; "pid"; "red"; "mode"; "uid"; "rma"; "rav"; "cuid"; "purpose"] ++ registered_tags.
Definition to_fields (c : StateCookieClaims) : fields :=
  [("st", Some (JStr (State c))); ("nc", Some (JStr (Nonce c))); ("cv", Some (JStr (CodeVerifier c)));
   ("pid", Some (JStr (ProviderID c))); ("red", str_field (RedirectAfterLogin c));
   ("mode", str_field (Mode c)); ("uid", str_field (UserID c)); ("rma", int_field (RequestedMaxAgeSeconds c));
   ("rav", strs_field (RequestedACRValues c)); ("cuid", str_field (CallingUserID c));
   ("purpose", Some (JStr (Purpose c)))] ++ registered_fields (Registered c).
Definition decode (lib : JWT) (o : obj) : option StateCookieClaims :=
  let str := get_str lib tags o in
  st ← str "st"; nc ← str "nc"; cv ← str "cv"; pid ← str "pid"; red ← str "red"; mode ← str "mode";
  uid ← str "uid"; rma ← get_int lib tags o "rma"; rav ← get_strs lib tags o "rav"; cuid ← str "cuid";
  purpose ← str "purpose"; r ← get_registered lib tags o;
  Some (MkState st nc cv pid red mode uid rma rav cuid purpose r).
Definition stamp (purpose : string) (r : RegisteredClaims) (c : StateCookieClaims) : StateCookieClaims :=
  MkState (State c) (Nonce c) (CodeVerifier c) (ProviderID c) (RedirectAfterLogin c) (Mode c) (UserID c)
    (RequestedMaxAgeSeconds c) (RequestedACRValues c) (CallingUserID c) purpose r.
Definition codec : Codec StateCookieClaims := {|
  cd_tags := tags; cd_fields := to_fields; cd_decode := decode; cd_purpose := Purpose; cd_registered := Registered;
  cd_stamp := stamp; stateCookiePurpose := "oidc_state"; ErrStateExpired := oidc_ErrStateExpired
|}.

Definition StateTTL : Z := 10 * 60 * 10 ^ 9.
Definition SignOIDCStateWithSecret (lib : JWT) := sign_state lib codec.
Definition VerifyOIDCStateWithSecret (lib : JWT) := verify_state lib codec.

(** golang.org/x/oauth2's verifier and its challenge are parameters. *)
Record Flow := MkFlow { fl_State : string; fl_Nonce : string; fl_CodeVerifier : string; fl_CodeChallenge : string }.

Section Flow.
Context (E : Env) {S : Type} (GenerateVerifier : trace -> string) (S256Challenge : string -> string).
Local Abbreviation M := (M S).

Definition randomB64 (n : nat) : M string :=
  buf ← rand_read E n; mret (String.string_of_list_ascii (base64url buf)).

Definition NewFlow : M Flow :=
  state ← wrap (Errorf1 "state") (randomB64 32);
  nonce ← wrap (Errorf1 "nonce") (randomB64 32);
  verifier ← observe EvRand GenerateVerifier;
  mret (MkFlow state nonce verifier (S256Challenge verifier)).
End Flow.
End Oidc.

(** ** The SAML cookie (saml/state.go) *)

Module Saml.
Record StateCookieClaims := MkState {
  ProviderID : string;
  RedirectAfterLogin : string;
  RequestedMaxAgeSeconds : Z;
  RequestedACRValues : list string;
  CallingUserID : string;
  RequestID : string;
  Mode : string;
  UserID : string;
  Purpose : string;
  Registered : RegisteredClaims
}.

Definition tags : list string :=
  ["pid"; "red"; "rma"; "rav"; "cuid"; "rid"; "mode"; "uid"; "purpose"] ++ registered_tags.
Definition to_fields (c : StateCookieClaims) : fields :=
  [("pid", Some (JStr (ProviderID c))); ("red", str_field (RedirectAfterLogin c));
   ("rma", int_field (RequestedMaxAgeSeconds c)); ("rav", strs_field (RequestedACRValues c));
   ("cuid", str_field (CallingUserID c)); ("rid", str_field (RequestID c)); ("mode", str_field (Mode c));
   ("uid", str_field (UserID c)); ("purpose", Some (JStr (Purpose c)))] ++ registered_fields (Registered c).
Definition decode (lib : JWT) (o : obj) : option StateCookieClaims :=
  let str := get_str lib tags o in
  pid ← str "pid"; red ← str "red"; rma ← get_int lib tags o "rma"; rav ← get_strs lib tags o "rav";
  cuid ← str "cuid"; rid ← str "rid"; mode ← str "mode"; uid ← str "uid"; purpose ← str "purpose";
  r ← get_registered lib tags o;
  Some (MkState pid red rma rav cuid rid mode uid purpose r).
Definition stamp (purpose : string) (r : RegisteredClaims) (c : StateCookieClaims) : StateCookieClaims :=
  MkState (ProviderID c) (RedirectAfterLogin c) (RequestedMaxAgeSeconds c) (RequestedACRValues c)
    (CallingUserID c) (RequestID c) (Mode c) (UserID c) purpose r.
Definition codec : Codec StateCookieClaims := {|
  cd_tags := tags; cd_fields := to_fields; cd_decode := decode; cd_purpose := Purpose; cd_registered := Registered;
  cd_stamp := stamp; stateCookiePurpose := "saml_state"; ErrStateExpired := saml_ErrStateExpired
|}.

Definition StateTTL : Z := 10 * 60 * 10 ^ 9.
Definition SignStateCookieWithSecret (lib : JWT) := sign_state lib codec.
Definition VerifyStateCookieWithSecret (lib : JWT) := verify_state lib codec.
End Saml.

(** ** What the libraries promise, and what a codec is *)

Definition lowercase (s : string) : bool :=
  forallb (fun c => ((97 <=? N_of_ascii c) && (N_of_ascii c <=? 122))%N) (to_bytes s).

(** What golang-jwt asks of the claims it parses, as it is called here. *)
Definition current (o : obj) (now : time) (issuer : string) : Prop :=
  (issuer = "" \/ ("iss", JStr issuer) ∈ o) /\ (exists e, ("exp", JInt e) ∈ o /\ now < time_Unix e) /\
  "nbf" ∉ map fst o.

(** The payload of a signed token is the one that was signed; it is accepted
    under its own key while it is current; parsing does not panic unless the key
    function does; folding keeps lower-case ASCII names apart. *)
Class JWTLaws (lib : JWT) := {
  parse_signed k o tok kf now issuer o' valid :
    SignHS256 lib k o = Ret tok -> ParseWithClaims lib kf now issuer tok = Ret (o', valid) -> o' = o;
  parse_current k o tok kf now issuer : SignHS256 lib k o = Ret tok -> kf true = Ret k ->
    current o now issuer -> ParseWithClaims lib kf now issuer tok = Ret (o, true);
  parse_no_panic kf now issuer tok why : (forall b why, kf b <> Panic why) ->
    ParseWithClaims lib kf now issuer tok <> Panic why;
  fold_lower s t : lowercase s = true -> lowercase t = true -> fold_name lib s = fold_name lib t -> s = t
}.

Class CodecLaws (lib : JWT) {C} (cd : Codec C) := {
  decode_fields c : cd_decode cd lib (obj_of (cd_fields cd c)) = Some c;
  decode_purpose o c : cd_decode cd lib o = Some c -> get_str lib (cd_tags cd) o "purpose" = Some (cd_purpose cd c);
  tags_lower : forallb lowercase (cd_tags cd) = true;
  tags_purpose : "purpose" ∈ cd_tags cd;
  fields_nodup c : NoDup (map fst (cd_fields cd c));
  fields_lower c : forallb lowercase (map fst (cd_fields cd c)) = true;
  fields_purpose c : ("purpose", Some (JStr (cd_purpose cd c))) ∈ cd_fields cd c;
  fields_registered c f : f ∈ registered_fields (cd_registered cd c) -> f ∈ cd_fields cd c;
  stamp_purpose p r c : cd_purpose cd (cd_stamp cd p r c) = p;
  stamp_registered p r c : cd_registered cd (cd_stamp cd p r c) = r
}.

Lemma elem_of_obj (fs : fields) tag v : (tag, v) ∈ obj_of fs <-> (tag, Some v) ∈ fs.
Proof.
  unfold obj_of. rewrite list_elem_of_omap. split.
  - intros ([tag' [v'|]] & Hin & [=]); by simplify_eq.
  - intros Hin. by exists (tag, Some v).
Qed.

Lemma assoc_unique {A} (l : list (string * A)) k a b :
  NoDup (map fst l) -> (k, a) ∈ l -> (k, b) ∈ l -> a = b.
Proof.
  intros Hnd Ha Hb. apply (elem_of_list_to_map (M := gmap string) l k a Hnd) in Ha.
  apply (elem_of_list_to_map (M := gmap string) l k b Hnd) in Hb. congruence.
Qed.

Section Decoding.
Context (lib : JWT) {HL : JWTLaws lib} (tags : list string) (tags_ok : forallb lowercase tags = true).

Lemma field_of_lower name tag : lowercase name = true -> field_of lib tags name = Some tag -> name = tag.
Proof.
  intros Hn. unfold field_of. case_bool_decide; [by intros [= ->]|].
  intros [Hin Hf%String.eqb_eq]%List.find_some. rewrite forallb_forall in tags_ok.
  apply (fold_lower name tag); auto.
Qed.

(** Each field of an encoded struct, of any type, is read back under its tag. *)
Lemma get_fields fs tag v : NoDup (map fst fs) -> forallb lowercase (map fst fs) = true ->
  tag ∈ tags -> (tag, v) ∈ fs -> get lib tags (obj_of fs) tag = v.
Proof.
  intros Hnd Hlow Htag Hin. unfold get. rewrite forallb_forall in Hlow.
  assert (forall name x, (name, x) ∈ obj_of fs -> field_of lib tags name = Some tag -> v = Some x) as Honly.
  { intros name x Hx%elem_of_obj Hf. assert (lowercase name = true) as Hl.
    { apply Hlow, list_elem_of_In. apply list_elem_of_fmap. by exists (name, Some x). }
    apply field_of_lower in Hf as ->; [|done]. by apply (assoc_unique fs tag). }
  destruct (List.find _ (rev (obj_of fs))) as [[name x]|] eqn:Hf; cbn.
  - apply List.find_some in Hf as [Hx Hp%bool_decide_eq_true]. symmetry. apply (Honly name x); [|done].
    by apply list_elem_of_In, in_rev.
  - destruct v as [x|]; [exfalso|done]. apply (List.find_none _ _) with (x := (tag, x)) in Hf.
    + apply bool_decide_eq_false in Hf. apply Hf. unfold field_of. by rewrite bool_decide_eq_true_2.
    + rewrite <- in_rev. by apply list_elem_of_In, elem_of_obj.
Qed.

Section Reads.
Context (fs : fields) (fs_nodup : NoDup (map fst fs)) (fs_lower : forallb lowercase (map fst fs) = true).

Lemma read_str tag s : tag ∈ tags -> (tag, Some (JStr s)) ∈ fs -> get_str lib tags (obj_of fs) tag = Some s.
Proof. intros Ht Hin. unfold get_str. by rewrite (get_fields fs tag _ fs_nodup fs_lower Ht Hin). Qed.
Lemma read_str_omitted tag s : tag ∈ tags -> (tag, str_field s) ∈ fs ->
  get_str lib tags (obj_of fs) tag = Some s.
Proof.
  intros Ht Hin. unfold get_str. rewrite (get_fields fs tag _ fs_nodup fs_lower Ht Hin).
  unfold str_field. by destruct (String.eqb_spec s "") as [->|].
Qed.
Lemma read_int tag n : tag ∈ tags -> (tag, int_field n) ∈ fs -> get_int lib tags (obj_of fs) tag = Some n.
Proof.
  intros Ht Hin. unfold get_int. rewrite (get_fields fs tag _ fs_nodup fs_lower Ht Hin).
  unfold int_field. by destruct (Z.eqb_spec n 0) as [->|].
Qed.
Lemma read_strs tag l : tag ∈ tags -> (tag, strs_field l) ∈ fs -> get_strs lib tags (obj_of fs) tag = Some l.
Proof.
  intros Ht Hin. unfold get_strs. rewrite (get_fields fs tag _ fs_nodup fs_lower Ht Hin). by destruct l.
Qed.
Lemma read_audience tag l : tag ∈ tags -> (tag, strs_field l) ∈ fs ->
  get_audience lib tags (obj_of fs) tag = Some l.
Proof.
  intros Ht Hin. unfold get_audience. rewrite (get_fields fs tag _ fs_nodup fs_lower Ht Hin). by destruct l.
Qed.
Lemma read_date tag n : tag ∈ tags -> (tag, date_field n) ∈ fs -> get_date lib tags (obj_of fs) tag = Some n.
Proof.
  intros Ht Hin. unfold get_date. rewrite (get_fields fs tag _ fs_nodup fs_lower Ht Hin). by destruct n.
Qed.
End Reads.
End Decoding.

Lemma bind_read {A B} (o : option A) (a : A) (k : A -> option B) (r : option B) :
  o = Some a -> k a = r -> (o ≫= k) = r.
Proof. by intros -> <-. Qed.

(** Finds a field, or a tag, in a list that is written out. *)
Ltac member :=
  cbv [Oidc.tags Oidc.to_fields Saml.tags Saml.to_fields registered_tags registered_fields app];
  repeat first [apply list_elem_of_here | apply list_elem_of_further].

(** Reads the fields of a struct back, one after the other. *)
Ltac read_field read :=
  eapply read; [eassumption|reflexivity|eassumption|reflexivity|solve [member]|solve [member]].
Ltac read_fields :=
  repeat (eapply bind_read;
    [first [read_field read_str | read_field read_str_omitted | read_field read_int
           | read_field read_strs | read_field read_audience | read_field read_date]|]).

(** Takes a decoder's run apart. *)
Ltac inv_decode :=
  repeat match goal with
  | H : _ ≫= _ = Some _ |- _ => apply bind_Some in H as (? & ? & H)
  end.

Section Instances.
Context (lib : JWT) {HL : JWTLaws lib}.

#[export] Instance oidc_codec_laws : CodecLaws lib Oidc.codec.
Proof.
  assert (forall c, NoDup (map fst (Oidc.to_fields c))) as Hnd by (intros c; by apply (bool_decide_unpack _)).
  split; try done; cbn [cd_decode Oidc.codec cd_fields cd_tags cd_purpose].
  - intros c. specialize (Hnd c). assert (forallb lowercase (map fst (Oidc.to_fields c)) = true) as Hlow by done.
    unfold Oidc.decode. cbn zeta. read_fields.
    eapply bind_read; [unfold get_registered; read_fields; reflexivity|]. by destruct c as [??????????? []].
  - intros o c H. unfold Oidc.decode in H. inv_decode. injection H as <-. assumption.
  - member.
  - intros c. member.
  - intros c f Hf. apply elem_of_app. by right.
Qed.

#[export] Instance saml_codec_laws : CodecLaws lib Saml.codec.
Proof.
  assert (forall c, NoDup (map fst (Saml.to_fields c))) as Hnd by (intros c; by apply (bool_decide_unpack _)).
  split; try done; cbn [cd_decode Saml.codec cd_fields cd_tags cd_purpose].
  - intros c. specialize (Hnd c). assert (forallb lowercase (map fst (Saml.to_fields c)) = true) as Hlow by done.
    unfold Saml.decode. cbn zeta. read_fields.
    eapply bind_read; [unfold get_registered; read_fields; reflexivity|]. by destruct c as [????????? []].
  - intros o c H. unfold Saml.decode in H. inv_decode. injection H as <-. assumption.
  - member.
  - intros c. member.
  - intros c f Hf. apply elem_of_app. by right.
Qed.
End Instances.

(** ** The round trip, and nothing across *)

Section Cookies.
Context (lib : JWT) {HL : JWTLaws lib} {C : Type} (cd : Codec C) {HC : CodecLaws lib cd}.

Lemma sign_state_Ret secret c issuer n ttl tok : sign_state lib cd secret c issuer n ttl = Ret tok ->
  secret <> [] /\ SignHS256 lib secret (obj_of (cd_fields cd (stamped lib cd c issuer n ttl))) = Ret tok.
Proof. unfold sign_state. destruct secret; [done|]. by intros H%wrap_err_Ret_inv. Qed.

Lemma stamped_registered c issuer n ttl f :
  f ∈ registered_fields (cd_registered cd (stamped lib cd c issuer n ttl)) ->
  f ∈ cd_fields cd (stamped lib cd c issuer n ttl).
Proof. apply fields_registered. Qed.

Lemma stamped_current c issuer n ttl n' : rc_NotBefore (cd_registered cd c) = None ->
  n' < time_Unix (NewNumericDate lib (n + ttl)) ->
  current (obj_of (cd_fields cd (stamped lib cd c issuer n ttl))) n' issuer.
Proof.
  intros Hnb Hexp. split_and!.
  - destruct (String.eqb_spec issuer "") as [|Hne]; [by left|right].
    apply elem_of_obj, stamped_registered. unfold stamped. rewrite stamp_registered.
    replace (Some (JStr issuer)) with (str_field issuer); [left|]. unfold str_field.
    by rewrite (proj2 (String.eqb_neq _ _) Hne).
  - exists (NewNumericDate lib (n + ttl)). split; [|done].
    apply elem_of_obj, stamped_registered. unfold stamped. rewrite stamp_registered. do 3 right. left.
  - intros ([tag v] & Ht & Hin%elem_of_obj)%list_elem_of_fmap. cbn in Ht. subst tag.
    assert (("nbf", None) ∈ cd_fields cd (stamped lib cd c issuer n ttl)) as Hin'.
    { apply stamped_registered. unfold stamped. rewrite stamp_registered. cbn. rewrite Hnb. do 4 right. left. }
    pose proof (fields_nodup (CodecLaws := HC) (stamped lib cd c issuer n ttl)) as Hnd.
    discriminate (assoc_unique _ _ _ _ Hnd Hin Hin').
Qed.

(** A cookie comes back as it was signed. Under the secret it was signed
    with, and for the issuer, every cookie verifies until it expires, to the
    claims it was given with the purpose, the issuer and the two times set. *)
Theorem state_cookie_roundtrip secret c issuer n ttl tok n' :
  sign_state lib cd secret c issuer n ttl = Ret tok ->
  rc_NotBefore (cd_registered cd c) = None -> n' < time_Unix (NewNumericDate lib (n + ttl)) ->
  verify_state lib cd secret tok issuer n' = Ret (stamped lib cd c issuer n ttl).
Proof.
  intros [Hs Hsign]%sign_state_Ret Hnb Hexp. unfold verify_state.
  rewrite (parse_current secret _ tok (state_key secret) n' issuer Hsign eq_refl)
    by by apply stamped_current.
  destruct secret; [done|]. cbn [wrap_err mbind go_bind fst snd]. rewrite decode_fields.
  cbn [negb]. unfold stamped at 1. by rewrite stamp_purpose, String.eqb_refl.
Qed.

(** What a verification that succeeds establishes. *)
Lemma verify_state_Ret secret tok issuer n c : verify_state lib cd secret tok issuer n = Ret c ->
  secret <> [] /\ cd_purpose cd c = stateCookiePurpose cd /\
  exists o, ParseWithClaims lib (state_key secret) n issuer tok = Ret (o, true) /\ cd_decode cd lib o = Some c.
Proof.
  unfold verify_state. destruct secret as [|k secret]; [done|].
  intros ([o valid] & Hp%wrap_err_Ret_inv & H)%go_bind_Ret_inv. cbn [fst snd] in H.
  destruct (cd_decode cd lib o) as [c'|] eqn:Hd; [|done]. destruct valid; [|done]. cbn [negb] in H.
  destruct (String.eqb_spec (cd_purpose cd c') (stateCookiePurpose cd)); [|done]. injection H as <-. eauto.
Qed.

(** A signed cookie verifies to nothing but what was signed. *)
Lemma verify_signed secret c issuer n ttl tok secret' issuer' n' c' :
  sign_state lib cd secret c issuer n ttl = Ret tok -> verify_state lib cd secret' tok issuer' n' = Ret c' ->
  c' = stamped lib cd c issuer n ttl.
Proof.
  intros [_ Hsign]%sign_state_Ret (_ & _ & o & Hparse & Hdec)%verify_state_Ret.
  apply (parse_signed secret _ tok _ _ _ _ _ Hsign) in Hparse. subst o. rewrite decode_fields in Hdec. by injection Hdec.
Qed.

Lemma verify_state_fails secret tok issuer n : secret <> [] ->
  (forall c, verify_state lib cd secret tok issuer n <> Ret c) ->
  verify_state lib cd secret tok issuer n = Fail (state_expired cd).
Proof.
  intros Hs Hn. destruct (verify_state lib cd secret tok issuer n) as [c|e|why] eqn:H; [by destruct (Hn c)| |];
    unfold verify_state in H; destruct secret as [|k secret]; try done;
    destruct (ParseWithClaims lib (state_key (k :: secret)) n issuer tok) as [[o valid]|e'|why'] eqn:Hp;
    cbn [wrap_err mbind go_bind fst snd] in H; try congruence.
  - repeat case_match; congruence.
  - repeat case_match; congruence.
  - exfalso. revert Hp. apply parse_no_panic. by intros [] ?.
Qed.
End Cookies.

(** Cookies do not cross. What one package signed, under any secret (the
    same one included), for any issuer and at any time, the other refuses as
    [ErrStateExpired]: an OIDC round trip cannot be finished with a SAML cookie,
    nor the reverse. *)
Theorem state_cookies_do_not_cross (lib : JWT) {HL : JWTLaws lib}
    {C1 C2} (cd1 : Codec C1) (cd2 : Codec C2) {HC1 : CodecLaws lib cd1} {HC2 : CodecLaws lib cd2}
    secret c issuer n ttl tok secret' issuer' n' :
  stateCookiePurpose cd1 <> stateCookiePurpose cd2 ->
  sign_state lib cd1 secret c issuer n ttl = Ret tok -> secret' <> [] ->
  verify_state lib cd2 secret' tok issuer' n' = Fail (state_expired cd2).
Proof.
  intros Hne [_ Hsign]%sign_state_Ret Hs'. apply verify_state_fails; [done..|].
  intros c' (_ & Hp & o & Hparse & Hdec)%verify_state_Ret.
  apply (parse_signed secret _ tok _ _ _ _ _ Hsign) in Hparse. subst o.
  apply decode_purpose in Hdec. set (st := stamped lib cd1 c issuer n ttl) in *.
  unfold get_str in Hdec.
  rewrite (get_fields lib (cd_tags cd2) tags_lower (cd_fields cd1 st) "purpose" _
    (fields_nodup st) (fields_lower st) tags_purpose (fields_purpose st)) in Hdec.
  injection Hdec as Hdec. apply Hne. rewrite <- Hp, <- Hdec. unfold st, stamped. by rewrite stamp_purpose.
Qed.

(** ** At concrete inputs *)

Module Toy.
Definition key : bytes := to_bytes "hs256 secret".
Definition claims : Oidc.StateCookieClaims :=
  Oidc.MkState "st4te" "n0nce" "ver1fier" "keycloak" "" "link" "alice" 300 ["urn:mfa"] "" ""
    (MkRegistered "" "" [] None None None "").
End Toy.

(** A library that signs one object. *)
Definition one_token (o : obj) : JWT := {|
  SignHS256 k o' := if decide (k = Toy.key /\ o' = o) then Ret "token" else Fail (AppError "sign");
  ParseWithClaims kf n iss tok :=
    k ← kf true;
    if decide (k = Toy.key /\ tok = "token") then Ret (o, true) else Fail (AppError "signature is invalid");
  NewNumericDate := Unix;
  fold_name s := s
|}.

Lemma one_token_laws o : JWTLaws (one_token o).
Proof.
  split; cbn.
  - intros k o1 tok kf n iss o' valid. case_decide as Hk; [|done]. intros [= <-].
    intros (k' & _ & H)%go_bind_Ret_inv. case_decide; [|done]. destruct Hk as [_ ->]. by injection H.
  - intros k o1 tok kf n iss. case_decide as Hk; [|done]. destruct Hk as [-> ->]. intros [= <-] -> _. cbn.
    by rewrite decide_True.
  - intros kf n iss tok why Hk. destruct (kf true) eqn:He; cbn; [by case_decide|done|].
    intros [= ->]. by apply (Hk true why).
  - intros s t _ _. done.
Qed.

Module ToyCookie.
Definition stamped_obj : obj :=
  obj_of (cd_fields Oidc.codec (stamped (one_token []) Oidc.codec Toy.claims "tamper" 0 Oidc.StateTTL)).
Definition lib : JWT := one_token stamped_obj.
End ToyCookie.

Lemma toy_signed :
  sign_state ToyCookie.lib Oidc.codec Toy.key Toy.claims "tamper" 0 Oidc.StateTTL = Ret "token".
Proof. vm_compute. reflexivity. Qed.

Lemma state_cookie_roundtrip_witness :
  verify_state ToyCookie.lib Oidc.codec Toy.key "token" "tamper" 0 =
    Ret (stamped ToyCookie.lib Oidc.codec Toy.claims "tamper" 0 Oidc.StateTTL).
Proof.
  pose proof (one_token_laws ToyCookie.stamped_obj) as HL.
  exact (state_cookie_roundtrip ToyCookie.lib (HL := HL) Oidc.codec (HC := oidc_codec_laws _ (HL := HL)) Toy.key Toy.claims
    "tamper" 0 Oidc.StateTTL "token" 0 toy_signed eq_refl eq_refl).
Defined.

Lemma state_cookies_do_not_cross_witness :
  verify_state ToyCookie.lib Saml.codec Toy.key "token" "tamper" 0 = Fail (state_expired Saml.codec).
Proof.
  pose proof (one_token_laws ToyCookie.stamped_obj) as HL.
  refine (state_cookies_do_not_cross ToyCookie.lib (HL := HL) Oidc.codec Saml.codec
    (HC1 := oidc_codec_laws _ (HL := HL)) (HC2 := saml_codec_laws _ (HL := HL))
    Toy.key Toy.claims "tamper" 0 Oidc.StateTTL "token" Toy.key "tamper" 0 _ toy_signed _); discriminate.
Defined.
