(* ===== verification/Jwt.v ===== *)
(** * Verifying access tokens

    The verifying half of [src/crypto/jwt.go] with its [Signer] seam
    ([signer.go]). golang-jwt is a parameter, the record [JWTLibrary]: its
    HS256 mint and parse, its validator, and the JSON of headers and claims;
    the delegated branch's own steps (splitting, base64url, the key and
    algorithm checks) are executable. *)

From S2P Require Import Prelude Tenant Bytes World Crypto.

#[local] Open Scope string_scope.
#[local] Open Scope list_scope.
#[local] Open Scope Z_scope.

(** [ErrInvalidToken] with a cause that [Error()] never shows. *)
Definition invalidToken (cause : error) : error :=
  Errorf2 "token not valid" (Sentinel crypto_ErrInvalidToken) cause.

Definition errUnknownKeyID : error := Errorf0 "no verification key for the token's kid".
Definition errMalformedToken : error := Errorf0 "token is malformed".
Definition errWrongAlgorithm : error :=
  Errorf0 "token alg does not match the verification key".
Definition errBadSignature : error := Errorf0 "signature does not verify".
Definition errWrongPurpose : error :=
  Errorf0 "token purpose is not the one this entry point accepts".
Definition errMissingSubject : error := Errorf0 "token has no subject".
Definition errMissingAuthContext : error := Errorf0 "token has no auth_time or no acr".
Definition errWrongTenant : error :=
  Errorf0 "token tid does not match the tenant it was verified for".
Definition errBadHomeTenant : error := Errorf0 "htid without a different tid".
Definition errBadImpersonator : error := Errorf0 "act without an htid, or acting as itself".

(** The two struct types a token is decoded into. *)
Inductive kind := KAccess | KPending.
Definition claims_of (k : kind) : Type :=
  match k with KAccess => AccessClaims | KPending => totpPendingClaims end.

(** [Signer] (signer.go). *)
Record Signer := {
  sg_Alg : string;
  sg_KeyID : string;
  sg_Sign : string -> go bytes;
  sg_Verify : string -> bytes -> go unit
}.

(** golang-jwt: [SignHS256] is [NewWithClaims(HS256, claims).SignedString],
    [ParseWithClaims] is given the key function (on whether the token's method
    is an HMAC), the clock and the issuer and answers the claims and
    [tok.Valid]; [Validate] is the validator's with the same options.
    [Marshal] and [Unmarshal] are the JSON of claims, [MarshalHeader] and
    [UnmarshalHeader] of [alg] and [kid]. *)
Record JWTLibrary := {
  SignHS256 : bytes -> Claims -> go string;
  ParseWithClaims : forall k, (bool -> go bytes) -> time -> string -> string ->
    go (claims_of k * bool);
  Validate : forall k, time -> string -> claims_of k -> go unit;
  Marshal : Claims -> go bytes;
  MarshalHeader : string -> string -> bytes;
  Unmarshal : forall k, bytes -> option (claims_of k);
  UnmarshalHeader : bytes -> option (string * string)
}.

(** What a [JWTService] verifies with, beside the fields of [Crypto]'s record. *)
Record Keys := {
  k_secret : bytes;
  k_signer : option Signer;
  k_verifiers : gmap string Signer
}.

Record JWTConfig := { cfg_Secret : string; cfg_TTL : Z; cfg_Issuer : string }.

Section Jwt.
Context (lib : JWTLibrary).

(** [sign]. *)
Definition sign (ks : Keys) (claims : Claims) : go string :=
  match k_signer ks with
  | None => SignHS256 lib (k_secret ks) claims
  | Some s =>
      payload ← Marshal lib claims;
      let signing := base64url (MarshalHeader lib (sg_Alg s) (sg_KeyID s)) ++
        "."%char :: base64url payload in
      sig ← sg_Sign s (String.string_of_list_ascii signing);
      Ret (String.string_of_list_ascii (signing ++ "."%char :: base64url sig))
  end.

(** [NewJWTService]: the service and its keys, or the panic of a missing
    secret. [WithVerifiers] replaces the table. *)
Definition NewJWTService (cfg : JWTConfig) (signer : option Signer)
    (verifiers : gmap string Signer) : go (JWTService * Keys) :=
  let ks := Build_Keys (to_bytes (cfg_Secret cfg)) signer verifiers in
  match signer with
  | None =>
      if String.eqb (cfg_Secret cfg) "" then Panic "auth: jwt secret is empty"
      else Ret (Build_JWTService (cfg_TTL cfg) (cfg_Issuer cfg) (sign ks), ks)
  | Some _ => Ret (Build_JWTService (cfg_TTL cfg) (cfg_Issuer cfg) (sign ks), ks)
  end.

Context (E : Env) {S : Type} (j : JWTService) (ks : Keys).
Local Abbreviation M := (M S).

Definition keyFunc (is_hmac : bool) : go bytes :=
  if is_hmac then Ret (k_secret ks) else Fail errWrongAlgorithm.

Definition resolveVerifier (kid : string) : go Signer :=
  if negb (bool_decide (k_verifiers ks = ∅)) then
    match k_verifiers ks !! kid with
    | Some s => Ret s
    | None => Fail (invalidToken errUnknownKeyID)
    end
  else
    match k_signer ks with
    | None => Fail (invalidToken errUnknownKeyID)
    | Some s => Ret s
    end.

(** [if err != nil { return invalidToken(cause) }]. *)
Definition or_invalid {A} (o : option A) (cause : error) : go A :=
  match o with Some a => Ret a | None => Fail (invalidToken cause) end.

(** The delegated branch of [parseClaims]. *)
Definition parse_delegated (k : kind) (tokenStr : string) : M (claims_of k) :=
  match split_dots (to_bytes tokenStr) with
  | [p0; p1; p2] =>
      headerRaw ← lift (or_invalid (base64url_decode p0) errMalformedToken);
      hdr ← lift (or_invalid (UnmarshalHeader lib headerRaw) errMalformedToken);
      verifier ← lift (resolveVerifier hdr.2);
      if negb (String.eqb hdr.1 (sg_Alg verifier)) then fail (invalidToken errWrongAlgorithm)
      else
        sig ← lift (or_invalid (base64url_decode p2) errMalformedToken);
        wrap (fun _ => invalidToken errBadSignature)
          (lift (sg_Verify verifier (String.string_of_list_ascii (p0 ++ "."%char :: p1)) sig));;
        claimsRaw ← lift (or_invalid (base64url_decode p1) errMalformedToken);
        claims ← lift (or_invalid (Unmarshal lib k claimsRaw) errMalformedToken);
        n ← now E;
        wrap invalidToken (lift (Validate lib k n (jwt_issuer j) claims));;
        mret claims
  | _ => fail (invalidToken errMalformedToken)
  end.

Definition parseClaims (k : kind) (tokenStr : string) : M (claims_of k) :=
  match k_signer ks with
  | None =>
      if bool_decide (k_verifiers ks = ∅) then
        n ← now E;
        tok ← wrap invalidToken (lift (ParseWithClaims lib k keyFunc n (jwt_issuer j) tokenStr));
        if negb tok.2 then fail (invalidToken errMalformedToken) else mret tok.1
      else parse_delegated k tokenStr
  | Some _ => parse_delegated k tokenStr
  end.

(** [ParseAccess]'s checks on the decoded claims. *)
Definition check_access (c : AccessClaims) : go unit :=
  if negb (String.eqb (cl_Purpose c) purposeAccess) then Fail (invalidToken errWrongPurpose)
  else if String.eqb (cl_Subject c) "" then Fail (invalidToken errMissingSubject)
  else if (cl_AuthTime c <=? 0) || String.eqb (cl_ACR c) "" then
    Fail (invalidToken errMissingAuthContext)
  else if negb (String.eqb (cl_HomeTenantID c) "") &&
          (String.eqb (cl_TenantID c) "" || String.eqb (cl_HomeTenantID c) (cl_TenantID c))
  then Fail (invalidToken errBadHomeTenant)
  else if negb (String.eqb (cl_ActorID c) "") &&
          (String.eqb (cl_HomeTenantID c) "" || String.eqb (cl_ActorID c) (cl_Subject c))
  then Fail (invalidToken errBadImpersonator)
  else Ret tt.

Definition ParseAccess (tokenStr : string) : M AccessClaims :=
  claims ← parseClaims KAccess tokenStr;
  lift (check_access claims);;
  mret claims.

Definition VerifyAccess (tokenStr : string) (tenantID : ID) : M AccessClaims :=
  if negb (Valid tenantID) then fail (Sentinel crypto_ErrTenantRequired)
  else
    claims ← ParseAccess tokenStr;
    if negb (String.eqb (cl_TenantID claims) (ID_String tenantID)) then
      fail (invalidToken errWrongTenant)
    else mret claims.

Definition VerifyTOTPPending (tokenStr : string) (tenantID : ID) : M string :=
  if negb (Valid tenantID) then fail (Sentinel crypto_ErrTenantRequired)
  else
    claims ← parseClaims KPending tokenStr;
    if negb (String.eqb (tp_Purpose claims) purposeTOTPPending) then
      fail (invalidToken errWrongPurpose)
    else if String.eqb (tp_Subject claims) "" then fail (invalidToken errMissingSubject)
    else if negb (String.eqb (tp_TenantID claims) (ID_String tenantID)) then
      fail (invalidToken errWrongTenant)
    else mret (tp_Subject claims).
End Jwt.

(** ** What a verified token is *)

(** What every token the service mints for access looks like. *)
Definition access_shape (c : AccessClaims) : Prop :=
  cl_Purpose c = purposeAccess /\ cl_Subject c <> "" /\ 0 < cl_AuthTime c /\ cl_ACR c <> "" /\
  (cl_HomeTenantID c = "" \/ (cl_TenantID c <> "" /\ cl_HomeTenantID c <> cl_TenantID c)) /\
  (cl_ActorID c = "" \/ (cl_HomeTenantID c <> "" /\ cl_ActorID c <> cl_Subject c)).

(** [if a != "" && (b == "" || c == d)] does not happen. *)
Lemma guard_false (a b c d : string) :
  negb (String.eqb a "") && (String.eqb b "" || String.eqb c d) = false <->
  a = "" \/ (b <> "" /\ c <> d).
Proof.
  destruct (String.eqb_spec a ""), (String.eqb_spec b ""), (String.eqb_spec c d); cbn; intuition done.
Qed.

Lemma check_access_Ret c : check_access c = Ret tt <-> access_shape c.
Proof.
  unfold check_access, access_shape. rewrite <- !guard_false, <- (Z.leb_gt (cl_AuthTime c) 0).
  split.
  - repeat (case_match; [discriminate|]). intros _. bool_simpl. tauto.
  - intros (-> & Hs & Ht & Ha & Hh & Hact).
    by rewrite String.eqb_refl, (proj2 (String.eqb_neq _ _) Hs), Ht,
      (proj2 (String.eqb_neq _ _) Ha), Hh, Hact.
Qed.

Lemma check_access_Fail c e : check_access c = Fail e -> exists cause, e = invalidToken cause.
Proof. unfold check_access. repeat case_match; intros [= <-]; eauto. Qed.

Lemma check_access_no_panic c why : check_access c <> Panic why.
Proof. unfold check_access. by repeat case_match. Qed.

Section Verified.
Context (lib : JWTLibrary) (E : Env) {S : Type} (j : JWTService) (ks : Keys).

(** The token's text was checked with a key of the service: by the library
    under the HMAC secret when that is the only key; otherwise by the very
    signer the table has for the header's [kid] (the service's own signer when
    there is no table), whose algorithm the header names, over the exact bytes
    before the last dot; and the claims of that text are valid now. *)
Inductive authentic (k : kind) (tokenStr : string) (n : time) (claims : claims_of k) : Prop :=
  | AuthHS256 :
      k_signer ks = None -> k_verifiers ks = ∅ ->
      ParseWithClaims lib k (keyFunc ks) n (jwt_issuer j) tokenStr = Ret (claims, true) ->
      authentic k tokenStr n claims
  | AuthSigner p0 p1 p2 header kid v sig payload :
      split_dots (to_bytes tokenStr) = [p0; p1; p2] ->
      base64url_decode p0 = Some header -> UnmarshalHeader lib header = Some (sg_Alg v, kid) ->
      (if decide (k_verifiers ks = ∅) then k_signer ks else k_verifiers ks !! kid) = Some v ->
      base64url_decode p2 = Some sig ->
      sg_Verify v (String.string_of_list_ascii (p0 ++ "."%char :: p1)) sig = Ret tt ->
      base64url_decode p1 = Some payload -> Unmarshal lib k payload = Some claims ->
      Validate lib k n (jwt_issuer j) claims = Ret tt ->
      authentic k tokenStr n claims.

Lemma or_invalid_inv {A} (o : option A) cause r :
  r = or_invalid o cause -> (exists a, o = Some a /\ r = Ret a) \/ r = Fail (invalidToken cause).
Proof. unfold or_invalid. destruct o; eauto. Qed.

Lemma resolveVerifier_inv kid r : r = resolveVerifier ks kid ->
  (exists v, (if decide (k_verifiers ks = ∅) then k_signer ks else k_verifiers ks !! kid) = Some v /\
    r = Ret v) \/ r = Fail (invalidToken errUnknownKeyID).
Proof.
  unfold resolveVerifier. intros ->. case_bool_decide; case_decide; try done; cbn;
    case_match; eauto.
Qed.

(** What a verification may end in. *)
Definition verdict {A} (good : A -> Prop) (w : world S) (r : go A) (w' : world S) : Prop :=
  w_store w' = w_store w /\ (forall a, r = Ret a -> good a) /\
  (forall e, r = Fail e -> exists cause, e = invalidToken cause).

Lemma verdict_invalid {A} (good : A -> Prop) w w' cause :
  w_store w' = w_store w -> verdict good w (Fail (invalidToken cause)) w'.
Proof. intros H. split_and!; [done..|]. intros e [= <-]. eauto. Qed.

Lemma parse_delegated_run k tokenStr w r w' :
  k_signer ks <> None \/ k_verifiers ks <> ∅ ->
  parse_delegated lib E j ks k tokenStr w = (r, w') ->
  verdict (authentic k tokenStr (env_now E (w_trace w))) w r w'.
Proof.
  intros Hks. unfold parse_delegated. intros H.
  destruct (split_dots (to_bytes tokenStr)) as [|p0 [|p1 [|p2 [|]]]] eqn:Hsplit;
    try (apply fail_inv in H as [-> ->]; by apply verdict_invalid).
  run_step H; repeat match goal with
  | Hr : _ = or_invalid _ _ |- _ => apply or_invalid_inv in Hr as [(? & ? & Hr)|Hr]; go_inj Hr
  | Hr : _ = resolveVerifier _ _ |- _ => apply resolveVerifier_inv in Hr as [(? & ? & Hr)|Hr]; go_inj Hr
  end; try (by apply verdict_invalid).
  all: try (split_and!; [done..|intros ? [=]]; fail).
  apply negb_false_iff, String.eqb_eq in Hb.
  match goal with a : unit, Hr : Ret ?a = sg_Verify _ _ _ |- _ => destruct a end.
  match goal with a : unit, Hr : Ret ?a = Validate _ _ _ _ _ |- _ => destruct a end.
  match goal with Hu : UnmarshalHeader _ _ = Some ?h |- _ =>
    destruct h as [alg kid]; cbn in Hb; subst alg end.
  split_and!; [done| |by intros]. intros c [= <-]. by eapply AuthSigner.
Qed.

Lemma parseClaims_run k tokenStr w r w' :
  parseClaims lib E j ks k tokenStr w = (r, w') ->
  verdict (authentic k tokenStr (env_now E (w_trace w))) w r w'.
Proof.
  unfold parseClaims. destruct (k_signer ks) as [s|] eqn:Hs.
  { apply parse_delegated_run. rewrite Hs. by left. }
  case_bool_decide as Hv; [|apply parse_delegated_run; by right].
  intros H. run_step H; try (by apply verdict_invalid); [|by split_and!].
  bool_simpl. split_and!; [done| |by intros]. intros c [= <-].
  apply AuthHS256; [done..|]. rewrite <- Hr. by rewrite (surjective_pairing a0), Hb at 1.
Qed.

(** Verifying is parsing and then checks that keep the verdict. *)
Lemma verdict_bind {A B} (good : A -> Prop) (good' : B -> Prop) (m : M S A) (k : A -> M S B) w r w' :
  (forall r w1, m w = (r, w1) -> verdict good w r w1) ->
  (forall a w1 r w', good a -> k a w1 = (r, w') -> verdict good' w1 r w') ->
  (m ≫= k) w = (r, w') -> verdict good' w r w'.
Proof.
  intros Hm Hk [(a & w1 & H1 & H)|[(e & H1 & ->)|(why & H1 & ->)]]%bind_inv;
    destruct (Hm _ _ H1) as (Hw & Hg & He).
  - destruct (Hk a w1 r w' (Hg a eq_refl) H) as (Hw' & Hg' & He'). split_and!; [congruence|done..].
  - split_and!; [done|by intros|]. intros e' [= <-]. eauto.
  - split_and!; [done|by intros..].
Qed.

Lemma ParseAccess_run tokenStr w r w' :
  ParseAccess lib E j ks tokenStr w = (r, w') ->
  verdict (fun c => access_shape c /\ authentic KAccess tokenStr (env_now E (w_trace w)) c) w r w'.
Proof.
  apply verdict_bind with (1 := parseClaims_run KAccess tokenStr w). intros c w1 r1 w2 Hc H.
  run_step H.
  - split_and!; [done| |by intros]. intros c' [= <-]. split; [|done].
    apply check_access_Ret. by destruct a.
  - symmetry in Hr. apply check_access_Fail in Hr as [cause ->]. by apply verdict_invalid.
  - symmetry in Hr. by apply check_access_no_panic in Hr.
Qed.

(** And such a text does parse, at the instant the clock is read. *)
Lemma parse_delegated_authentic k tokenStr (w : world S) claims :
  k_signer ks <> None \/ k_verifiers ks <> ∅ ->
  authentic k tokenStr (env_now E (w_trace w)) claims ->
  exists w', parse_delegated lib E j ks k tokenStr w = (Ret claims, w').
Proof.
  intros Hks [Hn Hv _|p0 p1 p2 header kid v sig payload Hs H0 Hh Hv H2 Hsig H1 Hu Hval]; [by destruct Hks|].
  assert (resolveVerifier ks kid = Ret v) as Hr.
  { unfold resolveVerifier. destruct (decide (k_verifiers ks = ∅)) as [He|He].
    - rewrite bool_decide_true by done. cbn [negb]. by rewrite Hv.
    - rewrite bool_decide_false by done. cbn [negb]. by rewrite Hv. }
  eexists. unfold parse_delegated. rewrite Hs, H0, H1. cbn [or_invalid].
  unfold mbind, M_bind, lift. cbn [w_trace w_store].
  rewrite Hh. cbn [or_invalid fst snd]. rewrite Hr, String.eqb_refl, H2. cbn [negb or_invalid wrap wrap_err].
  unfold wrap. rewrite Hsig. cbn [wrap_err]. rewrite Hu. cbn [or_invalid]. unfold now, observe.
  cbn [w_trace w_store]. rewrite Hval. cbn [wrap_err]. reflexivity.
Qed.

Lemma parseClaims_authentic k tokenStr (w : world S) claims :
  authentic k tokenStr (env_now E (w_trace w)) claims ->
  exists w', parseClaims lib E j ks k tokenStr w = (Ret claims, w').
Proof.
  intros Ha. unfold parseClaims. destruct (k_signer ks) as [s|] eqn:Hs.
  { apply parse_delegated_authentic; [left; by rewrite Hs|done]. }
  case_bool_decide as Hv; [|apply parse_delegated_authentic; [by right|done]].
  destruct Ha as [_ _ Hp|p0 p1 p2 header kid v sig payload _ _ _ Hbad _ _ _ _ _].
  - eexists. unfold mbind, M_bind, now, observe, wrap, lift. cbn [w_trace w_store]. rewrite Hp. done.
  - rewrite decide_True in Hbad by done. congruence.
Qed.

(** C2: [VerifyAccess] accepts exactly the tokens of the tenant asked about
    that a key of the service vouches for, at the instant the service reads
    its clock. Claims come out if and only if the caller resolved a tenant,
    the tenant of the claims is that one, they have the shape of a token
    minted for access, and the token's text is [authentic] at the clock's
    reading of this very call. The store is never touched; a caller that
    resolved no tenant is told so before the token is looked at; and every
    other error is the one error for an invalid token, with the reason hidden
    inside. *)
Theorem VerifyAccess_correct tokenStr tenantID (w : world S) r (w' : world S) :
  VerifyAccess lib E j ks tokenStr tenantID w = (r, w') ->
  w_store w' = w_store w /\
  (Valid tenantID = false -> r = Fail (Sentinel crypto_ErrTenantRequired) /\ w' = w) /\
  (forall c : AccessClaims, r = Ret c <->
     Valid tenantID = true /\ cl_TenantID c = ID_String tenantID /\ access_shape c /\
     authentic KAccess tokenStr (env_now E (w_trace w)) c) /\
  (forall e, r = Fail e -> Valid tenantID = true -> exists cause, e = invalidToken cause).
Proof.
  intros H. pose proof H as H0. revert H.
  unfold VerifyAccess. destruct (Valid tenantID) eqn:Hv; cbn [negb].
  2: { intros [-> ->]%fail_inv. split_and!; [done..| |done]. intros c. by split; [|intros []]. }
  intros H. apply verdict_bind with (good' := fun c : AccessClaims => cl_TenantID c = ID_String tenantID /\
    access_shape c /\ authentic KAccess tokenStr (env_now E (w_trace w)) c) (1 := ParseAccess_run tokenStr w) in H
    as (Hw & Hg & He).
  - split_and!; [done|done| |by eauto]. intros c. split; [intros Hc; by destruct (Hg c Hc)|].
    intros (_ & Ht & Hs & [w1 Hp]%parseClaims_authentic). revert H0.
    unfold VerifyAccess, ParseAccess. rewrite Hv. cbn [negb].
    unfold mbind, M_bind. rewrite Hp. unfold lift. rewrite (proj2 (check_access_Ret c) Hs). cbn.
    rewrite Ht, String.eqb_refl. by intros [= <- _].
  - intros c w1 r1 w2 Hc Hr. run_step Hr; [by apply verdict_invalid|]. bool_simpl.
    split_and!; [done| |by intros]. by intros c' [= <-].
Qed.
End Verified.

(** ** Round trips *)

(** Decoding by the tags of the struct, whichever struct was encoded: the two
    types share [purpose], [tid] and the registered claims. *)
Definition decode_as (k : kind) (cl : Claims) : claims_of k :=
  match k, cl with
  | KAccess, AccessToken c => c
  | KAccess, PendingToken p =>
      MkAccessClaims 0 "" [] (tp_Purpose p) (tp_TenantID p) "" "" (tp_Subject p) (tp_Issuer p)
        (tp_IssuedAt p) (tp_ExpiresAt p)
  | KPending, AccessToken c =>
      MkPending (cl_Purpose c) (cl_TenantID c) (cl_Subject c) (cl_Issuer c) (cl_IssuedAt c)
        (cl_ExpiresAt c)
  | KPending, PendingToken p => p
  end.

Definition claims_issuer (cl : Claims) : string :=
  match cl with AccessToken c => cl_Issuer c | PendingToken p => tp_Issuer p end.
Definition claims_exp (cl : Claims) : Z :=
  match cl with AccessToken c => cl_ExpiresAt c | PendingToken p => tp_ExpiresAt p end.

Section RoundTrip.
Context (lib : JWTLibrary) (E : Env) {S : Type} (j : JWTService) (ks : Keys).

(** Issued here and not expired, as the validator compares them. *)
Definition current (cl : Claims) (n : time) : Prop :=
  claims_issuer cl = jwt_issuer j /\ n < claims_exp cl * 10 ^ 9.

(** What the library documents: the parser accepts what the mint made under
    the same key while it is current, decoding inverts encoding, and the
    validator accepts current claims. *)
Record library_laws : Prop := {
  law_parse : forall cl tok k n, SignHS256 lib (k_secret ks) cl = Ret tok -> current cl n ->
    ParseWithClaims lib k (keyFunc ks) n (jwt_issuer j) tok = Ret (decode_as k cl, true);
  law_json : forall cl raw k, Marshal lib cl = Ret raw -> Unmarshal lib k raw = Some (decode_as k cl);
  law_header : forall alg kid, UnmarshalHeader lib (MarshalHeader lib alg kid) = Some (alg, kid);
  law_valid : forall cl k n, current cl n ->
    Validate lib k n (jwt_issuer j) (decode_as k cl) = Ret tt
}.

(** The service can check what it signs: a signer verifies its own signatures,
    and a table of verifiers holds it under its own [kid]. *)
Definition keys_ok : Prop :=
  match k_signer ks with
  | None => k_verifiers ks = ∅
  | Some s =>
      (forall text sig, sg_Sign s text = Ret sig -> sg_Verify s text sig = Ret tt) /\
      (k_verifiers ks = ∅ \/ k_verifiers ks !! sg_KeyID s = Some s)
  end.

Hypothesis laws : library_laws.
Hypothesis keys : keys_ok.
Hypothesis signs : jwt_SignedString j = sign lib ks.

Lemma resolveVerifier_own s : k_signer ks = Some s -> resolveVerifier ks (sg_KeyID s) = Ret s.
Proof.
  intros Hs. unfold keys_ok in keys. rewrite Hs in keys. destruct keys as [_ Hv].
  unfold resolveVerifier. rewrite Hs. case_bool_decide as He; cbn; [done|].
  destruct Hv as [|Hv]; [done|]. by rewrite Hv.
Qed.

Lemma parse_signed k cl tok (w : world S) :
  sign lib ks cl = Ret tok -> current cl (env_now E (w_trace w)) ->
  parseClaims lib E j ks k tok w =
    (Ret (decode_as k cl), World (w_store w) (w_trace w ++ [EvNow])).
Proof.
  unfold sign, parseClaims. intros Hsign Hcur. destruct (k_signer ks) as [s|] eqn:Hs.
  - apply go_bind_Ret_inv in Hsign as (raw & Hraw & Hsign).
    apply go_bind_Ret_inv in Hsign as (sig & Hsig & Hsign). injection Hsign as <-.
    pose proof keys as Hk. unfold keys_ok in Hk. rewrite Hs in Hk. destruct Hk as [Hver _].
    unfold parse_delegated, to_bytes. rewrite String.list_ascii_of_string_of_list_ascii, <- app_assoc.
    cbn [app]. rewrite split_on_app by apply base64url_no_dot. cbn [app].
    rewrite split_on_app by apply base64url_no_dot.
    rewrite split_on_part by apply base64url_no_dot.
    rewrite !base64url_decode_encode.
    unfold mbind, M_bind, wrap, lift, now, observe. cbn. rewrite (law_header laws). cbn.
    rewrite (resolveVerifier_own s Hs). cbn. rewrite String.eqb_refl. cbn.
    rewrite (Hver _ _ Hsig). cbn.
    rewrite (law_json laws _ _ k Hraw). cbn. by rewrite (law_valid laws _ _ _ Hcur).
  - pose proof keys as Hk. unfold keys_ok in Hk. rewrite Hs in Hk. rewrite bool_decide_eq_true_2 by done.
    unfold now, observe, mbind, M_bind, wrap, lift. by rewrite (law_parse laws _ _ k _ Hsign Hcur).
Qed.

(** *** Minted access tokens *)

(** The three mints, and the claims each signs when the clock reads [n]. *)
Inductive mint :=
  | MAccess (userID : string) (tenantID : ID)
  | MEntered (userID : string) (tenantID home : ID) (ttl : Z)
  | MImpersonated (target actor : string) (tenantID actorHome : ID) (ttl : Z).

Definition run_mint (m : mint) (authTime : Z) (acr : string) (amr : list string) : M S string :=
  match m with
  | MAccess u t => IssueAccess E j u t authTime acr amr
  | MEntered u t home ttl => IssueAccessEntered E j u t home authTime acr ttl amr
  | MImpersonated u a t home ttl => IssueAccessImpersonated E j u a t home authTime acr ttl amr
  end.

Definition minted (m : mint) (authTime : Z) (acr : string) (amr : list string) (n : time)
    : AccessClaims :=
  let '(sub, act, tid, htid, ttl) :=
    match m with
    | MAccess u t => (u, "", t, "", jwt_ttl j)
    | MEntered u t home ttl => (u, "", t, ID_String home, cut_ttl j ttl)
    | MImpersonated u a t home ttl => (u, a, t, ID_String home, cut_ttl j ttl)
    end in
  MkAccessClaims authTime acr amr purposeAccess (ID_String tid) htid act sub (jwt_issuer j)
    (env_numeric_date E n) (env_numeric_date E (n + ttl)).

Lemma named_tenants t home : Valid t = true -> Valid home = true -> IsSingle t = false ->
  t <> home -> ID_String t <> "" /\ ID_String home <> ID_String t.
Proof.
  destruct t as [v b], home as [v' b']. cbn. intros -> ->. cbn. intros Hs Hne.
  apply String.eqb_neq in Hs. split; [done|]. intros ->. by apply Hne.
Qed.

Lemma run_mint_signs m authTime acr amr (w : world S) tok w' :
  run_mint m authTime acr amr w = (Ret tok, w') ->
  let c := minted m authTime acr amr (env_now E (w_trace w)) in
  access_shape c /\ sign lib ks (AccessToken c) = Ret tok.
Proof.
  destruct m; cbn [run_mint minted];
    unfold IssueAccess, IssueAccessEntered, IssueAccessImpersonated, issueAccess;
    intros H; repeat (case_match; [done|]); bool_simpl;
    apply issueAccessWithActor_signs in H as (_ & ? & ? & ? & Hsign); rewrite signs in Hsign;
    (split; [unfold access_shape; cbn|exact Hsign]).
  - tauto.
  - destruct (named_tenants tenantID home); tauto.
  - destruct (named_tenants tenantID actorHome); try tauto.
    split_and!; try tauto. right. split; [|congruence]. destruct actorHome as [v b]; cbn in *.
    destruct_and?. subst b. by apply String.eqb_neq.
Qed.

(** Every token minted for access verifies for its tenant and for no other,
    and never stands in for the second factor. Whichever of the three mints made
    it, under the library's documented behaviour and keys that can check what
    they sign, [VerifyAccess] gives back exactly the claims that were minted
    (subject, actor, home tenant, authentication time, ACR and methods) for the
    token's own tenant, refuses every other tenant, and the endpoint of the
    pending token refuses it, as long as it has not expired. *)
Theorem minted_verifies m authTime acr amr (w : world S) tok w1 t (w2 : world S) :
  run_mint m authTime acr amr w = (Ret tok, w1) ->
  let c := minted m authTime acr amr (env_now E (w_trace w)) in
  env_now E (w_trace w2) < cl_ExpiresAt c * 10 ^ 9 -> Valid t = true ->
  (VerifyAccess lib E j ks tok t w2).1 =
    (if String.eqb (cl_TenantID c) (ID_String t) then Ret c else Fail (invalidToken errWrongTenant)) /\
  (VerifyTOTPPending lib E j ks tok t w2).1 = Fail (invalidToken errWrongPurpose).
Proof.
  intros [Hshape Hsign]%run_mint_signs c Hexp Ht. fold c in Hshape, Hsign.
  assert (current (AccessToken c) (env_now E (w_trace w2))) as Hcur.
  { split; [|exact Hexp]. by destruct m. }
  unfold VerifyAccess, VerifyTOTPPending, ParseAccess. rewrite Ht. cbn [negb].
  unfold mbind, M_bind. rewrite !(parse_signed _ _ _ w2 Hsign Hcur).
  cbn [decode_as tp_Purpose]. rewrite (proj2 (check_access_Ret c) Hshape). cbn.
  rewrite (proj1 Hshape). split; [|done]. by destruct (String.eqb _ _).
Qed.

(** The pending token between password and second factor does nothing but
    name its user at its own tenant's second leg: [VerifyTOTPPending] answers the
    subject for the token's tenant and refuses every other, and no reader of
    access tokens accepts it, as long as it has not expired. *)
Theorem pending_verifies userID t (w : world S) tok w1 t' (w2 : world S) :
  IssueTOTPPending E j userID t w = (Ret tok, w1) ->
  env_now E (w_trace w2) <
    env_numeric_date E (env_now E (w_trace w) + 5 * 60 * 10 ^ 9) * 10 ^ 9 ->
  Valid t' = true ->
  (VerifyTOTPPending lib E j ks tok t' w2).1 =
    (if String.eqb (ID_String t) (ID_String t') then Ret userID
     else Fail (invalidToken errWrongTenant)) /\
  (ParseAccess lib E j ks tok w2).1 = Fail (invalidToken errWrongPurpose).
Proof.
  unfold IssueTOTPPending. rewrite signs. intros H Hexp Ht.
  repeat (case_match; [done|]). run_step H. bool_simpl. symmetry in Hr.
  unfold VerifyTOTPPending, ParseAccess. rewrite Ht. cbn [negb].
  unfold mbind, M_bind. rewrite !(parse_signed _ _ _ w2 Hr) by (split; [done|exact Hexp]).
  cbn. rewrite (proj2 (String.eqb_neq _ _)) by done. split; [|done]. by destruct (String.eqb _ _).
Qed.

End RoundTrip.

(** ** At a concrete library *)

(** A library that satisfies the laws: claims and headers are numbered, a
    number is written in bits, and a signature is the text under the key. *)
Module Toy.
Fixpoint bits (p : positive) : bytes :=
  match p with xH => [] | xO p => "0"%char :: bits p | xI p => "1"%char :: bits p end.
Fixpoint unbits (b : bytes) : positive :=
  match b with
  | [] => xH
  | c :: b => if Ascii.eqb c "0" then xO (unbits b) else xI (unbits b)
  end.
Lemma unbits_bits p : unbits (bits p) = p.
Proof. induction p; cbn; by f_equal. Qed.

Definition num (z : Z) : string := String.string_of_list_ascii (bits (encode z)).
Definition unnum (s : string) : Z := default 0 (decode (unbits (to_bytes s))).
Lemma unnum_num z : unnum (num z) = z.
Proof.
  unfold unnum, num, to_bytes.
  by rewrite String.list_ascii_of_string_of_list_ascii, unbits_bits, decode_encode.
Qed.

Definition fields (cl : Claims) : list (list string) :=
  match cl with
  | AccessToken c =>
      [[num (cl_AuthTime c); cl_ACR c; cl_Purpose c; cl_TenantID c; cl_HomeTenantID c;
        cl_ActorID c; cl_Subject c; cl_Issuer c; num (cl_IssuedAt c); num (cl_ExpiresAt c)];
       cl_AMR c]
  | PendingToken p =>
      [[tp_Purpose p; tp_TenantID p; tp_Subject p; tp_Issuer p; num (tp_IssuedAt p);
        num (tp_ExpiresAt p)]]
  end.
Definition of_fields (l : list (list string)) : option Claims :=
  match l with
  | [[at_; acr; pu; tid; htid; act; sub; iss; iat; exp]; amr] =>
      Some (AccessToken (MkAccessClaims (unnum at_) acr amr pu tid htid act sub iss (unnum iat)
        (unnum exp)))
  | [[pu; tid; sub; iss; iat; exp]] =>
      Some (PendingToken (MkPending pu tid sub iss (unnum iat) (unnum exp)))
  | _ => None
  end.

Lemma of_fields_fields cl : of_fields (fields cl) = Some cl.
Proof. by destruct cl as [[]|[]]; cbn; rewrite !unnum_num. Qed.

Definition to_bits {A} `{Countable A} (a : A) : bytes := bits (encode a).
Definition of_bits {A} `{Countable A} (b : bytes) : option A := decode (unbits b).
Lemma read_write {A} `{Countable A} (a : A) : of_bits (to_bits a) = Some a.
Proof. unfold of_bits, to_bits. by rewrite unbits_bits, decode_encode. Qed.

Definition lookup_claims (b : bytes) : option Claims := l ← of_bits b; of_fields l.
Definition issuer_exp (k : kind) : claims_of k -> string * Z :=
  match k with
  | KAccess => fun c => (cl_Issuer c, cl_ExpiresAt c)
  | KPending => fun p => (tp_Issuer p, tp_ExpiresAt p)
  end.
Definition validates k (n : time) (issuer : string) (c : claims_of k) : go unit :=
  let '(iss, exp) := issuer_exp k c in
  if String.eqb iss issuer && (n <? exp * 10 ^ 9) then Ret tt else Fail (AppError "jwt").

Definition lib : JWTLibrary := {|
  SignHS256 key cl := Ret (String.string_of_list_ascii (to_bits (fields cl)));
  ParseWithClaims k kf n issuer tok :=
    match kf true, lookup_claims (to_bytes tok) with
    | Ret _, Some cl => validates k n issuer (decode_as k cl);; Ret (decode_as k cl, true)
    | _, _ => Fail (AppError "jwt")
    end;
  Validate := validates;
  Marshal cl := Ret (to_bits (fields cl));
  MarshalHeader alg kid := to_bits [alg; kid];
  Unmarshal k raw := decode_as k <$> lookup_claims raw;
  UnmarshalHeader raw :=
    match of_bits raw with Some [alg; kid] => Some (alg, kid) | _ => None end
|}.

Definition signer (alg kid key : string) : Signer := {|
  sg_Alg := alg;
  sg_KeyID := kid;
  sg_Sign text := Ret (to_bytes (key +:+ text));
  sg_Verify text sig := if decide (sig = to_bytes (key +:+ text)) then Ret tt else Fail (AppError "sig")
|}.

(** A service that signs with one key and still verifies an older one. *)
Definition current_key := signer "EdDSA" "2026" "k2".
Definition keys : Keys := {|
  k_secret := [];
  k_signer := Some current_key;
  k_verifiers := <["2026" := current_key]> (<["2025" := signer "EdDSA" "2025" "k1"]> ∅)
|}.
Definition service : JWTService := Build_JWTService (900 * 10 ^ 9) "tamper" (sign lib keys).

Lemma issuer_exp_decode k cl : issuer_exp k (decode_as k cl) = (claims_issuer cl, claims_exp cl).
Proof. by destruct k, cl. Qed.

Lemma validate_current k cl n : current service cl n ->
  validates k n (jwt_issuer service) (decode_as k cl) = Ret tt.
Proof.
  intros [Hi He]. unfold validates. rewrite issuer_exp_decode, Hi, String.eqb_refl.
  by rewrite (proj2 (Z.ltb_lt _ _) He).
Qed.

Lemma lookup_written cl : lookup_claims (to_bits (fields cl)) = Some cl.
Proof. unfold lookup_claims. rewrite read_write. cbn [mbind option_bind]. apply of_fields_fields. Qed.

Lemma laws : library_laws lib service keys.
Proof.
  split.
  - intros cl tok k n [= <-] Hcur. cbn [ParseWithClaims lib keyFunc]. unfold to_bytes.
    rewrite String.list_ascii_of_string_of_list_ascii, lookup_written.
    by rewrite (validate_current k cl n Hcur).
  - intros cl raw k [= <-]. cbn. by rewrite lookup_written.
  - intros alg kid. cbn. by rewrite read_write.
  - intros cl k n Hcur. by apply validate_current.
Qed.

Lemma keys_can_check : keys_ok keys.
Proof.
  split; [|by right]. intros text sig [= <-]. cbn. by rewrite decide_True.
Qed.
End Toy.

(** The clock of the examples: one second per effect. *)
Definition toy_env : Env := {|
  env_now tr := (1000 + Z.of_nat (length tr)) * 10 ^ 9;
  env_newID _ := "";
  env_rand _ _ := Ret [];
  env_bcrypt_hash _ _ := Ret "";
  env_bcrypt_ok _ _ := false;
  env_stub := Ret "";
  env_totp _ _ _ := Ret false;
  env_unicode_lower s := s;
  env_numeric_date t := t / 10 ^ 9
|}.

Definition bob_mint : mint := MEntered "bob" (New "globex") (New "acme") (60 * 10 ^ 9).
Definition bob_minted :=
  run_mint toy_env Toy.service bob_mint 900 ACRLocalPassword ["pwd"] (World tt []).
Definition minted_token (r : go string * world unit) : string :=
  match r.1 with Ret tok => tok | _ => "" end.

Lemma bob_mint_run : bob_minted = (Ret (minted_token bob_minted), bob_minted.2).
Proof.
  assert (is_ret bob_minted.1 = true) as H by (vm_compute; reflexivity).
  unfold minted_token. destruct bob_minted as [[tok| |] w]; [done|discriminate H..].
Qed.

Lemma minted_verifies_witness :
  (VerifyAccess Toy.lib toy_env Toy.service Toy.keys (minted_token bob_minted) (New "globex")
     (World tt [EvNow])).1 = Ret (minted toy_env Toy.service bob_mint 900 ACRLocalPassword ["pwd"]
     (1000 * 10 ^ 9)).
Proof.
  destruct (minted_verifies Toy.lib toy_env Toy.service Toy.keys Toy.laws Toy.keys_can_check eq_refl
    bob_mint 900 ACRLocalPassword ["pwd"] (World tt []) (minted_token bob_minted) bob_minted.2
    (New "globex") (World tt [EvNow]) bob_mint_run) as [H _].
  - vm_compute. reflexivity.
  - reflexivity.
  - exact H.
Defined.

Lemma VerifyAccess_correct_witness :
  (exists cause, (VerifyAccess Toy.lib toy_env Toy.service Toy.keys (minted_token bob_minted)
     (New "acme") (World tt [])).1 = Fail (invalidToken cause)).
Proof.
  pose proof (VerifyAccess_correct Toy.lib toy_env Toy.service Toy.keys (minted_token bob_minted)
    (New "acme") (World tt []) _ _ (surjective_pairing _)) as (_ & _ & _ & He).
  assert (is_ret (VerifyAccess Toy.lib toy_env Toy.service Toy.keys (minted_token bob_minted)
    (New "acme") (World tt [])).1 = false) as Hr by (vm_compute; reflexivity).
  destruct (VerifyAccess _ _ _ _ _ _ _).1 as [c|e|why] eqn:Hv; [discriminate Hr| |].
  - destruct (He e eq_refl eq_refl) as [cause ->]. exact (ex_intro _ cause eq_refl).
  - exfalso. clear He Hr. revert Hv. vm_compute. discriminate.
Defined.

Definition bob_pending := IssueTOTPPending toy_env Toy.service "bob" (New "acme") (World tt []).

Lemma bob_pending_run : bob_pending = (Ret (minted_token bob_pending), bob_pending.2).
Proof.
  assert (is_ret bob_pending.1 = true) as H by (vm_compute; reflexivity).
  unfold minted_token. destruct bob_pending as [[tok| |] w]; [done|discriminate H..].
Qed.

Lemma pending_verifies_witness :
  (ParseAccess Toy.lib toy_env Toy.service Toy.keys (minted_token bob_pending)
     (World tt [EvNow])).1 = Fail (invalidToken errWrongPurpose).
Proof.
  destruct (pending_verifies Toy.lib toy_env Toy.service Toy.keys Toy.laws Toy.keys_can_check eq_refl
    "bob" (New "acme") (World tt []) (minted_token bob_pending) bob_pending.2
    (New "acme") (World tt [EvNow]) bob_pending_run) as [_ H].
  - vm_compute. reflexivity.
  - reflexivity.
  - exact H.
Defined.
