(* ===== verification/Identity.v ===== *)
(** * Accounts and refresh sessions

    [src/identity]: the records ([identity.go]), the persistence port
    ([store.go]) with its reference implementation ([memstore.go]), and the
    [Core] service ([core.go], [tenantcheck.go], [secondfactor.go],
    [throttle.go]). A method of [Core] is a computation in the world of
    [World]; the store is any record of operations on a state. *)

From S2P Require Import Prelude Tenant Bytes World Crypto Secrets.

#[local] Open Scope string_scope.
#[local] Open Scope list_scope.
#[local] Open Scope Z_scope.

(** ** Records (identity.go) *)

Record User := MkUser {
  us_ID : string;
  us_TenantID : string;
  us_Email : string;
  us_PasswordHash : string;
  us_Active : bool;
  us_TOTPEnrolled : bool;
  us_CreatedAt : time
}.

Definition User_zero : User := MkUser "" "" "" "" false false time_zero.

Record NewUser := MkNewUser {
  nu_ID : string;
  nu_TenantID : string;
  nu_Email : string;
  nu_PasswordHash : string;
  nu_CreatedAt : time
}.

Record RefreshSession := MkSession {
  se_ID : string;
  se_UserID : string;
  se_TenantID : string;
  se_TokenHash : string;
  se_IssuedAt : time;
  se_ExpiresAt : time;
  se_RevokedAt : time;
  se_AuthTime : time;
  se_ACR : string
}.

Definition RefreshSession_zero : RefreshSession :=
  MkSession "" "" "" "" time_zero time_zero time_zero time_zero "".

Definition Revoked (s : RefreshSession) : bool := negb (IsZero_time (se_RevokedAt s)).

(** [s.RevokedAt = at]. *)
Definition set_RevokedAt (s : RefreshSession) (at_ : time) : RefreshSession :=
  {| se_ID := se_ID s; se_UserID := se_UserID s; se_TenantID := se_TenantID s;
     se_TokenHash := se_TokenHash s; se_IssuedAt := se_IssuedAt s;
     se_ExpiresAt := se_ExpiresAt s; se_RevokedAt := at_; se_AuthTime := se_AuthTime s;
     se_ACR := se_ACR s |}.

Record Tokens := MkTokens {
  tk_Access : string;
  tk_Refresh : string;
  tk_RefreshExpiresAt : time
}.

(** A federated identity of a user; a nil [LastLoginAt] is [None]. *)
Record Identity := MkIdentity {
  id_ID : string;
  id_UserID : string;
  id_TenantID : string;
  id_Provider : string;
  id_Subject : string;
  id_LinkedAt : time;
  id_LastLoginAt : option time
}.

Definition Identity_zero : Identity := MkIdentity "" "" "" "" "" time_zero None.

(** [ident.LastLoginAt = &at]. *)
Definition set_LastLoginAt (i : Identity) (at_ : time) : Identity :=
  MkIdentity (id_ID i) (id_UserID i) (id_TenantID i) (id_Provider i) (id_Subject i)
    (id_LinkedAt i) (Some at_).

(** The command to insert an identity; its fields are the row's. *)
Definition NewIdentity : Type := Identity.

(** The second factor's state (store.go). *)
Record TOTPState := MkTOTPState {
  ts_Enrolled : bool;
  ts_Envelope : bytes;
  ts_RecoveryCodeHashes : list string
}.

Definition TOTPState_zero : TOTPState := MkTOTPState false [] [].

(** An invitation (invitation.go); a zero [AcceptedAt] is pending. *)
Record Invitation := MkInvitation {
  in_ID : string;
  in_TenantID : string;
  in_Email : string;
  in_TokenHash : string;
  in_ExpiresAt : time;
  in_AcceptedAt : time;
  in_InvitedBy : string;
  in_CreatedAt : time
}.

Definition Pending (i : Invitation) : bool := IsZero_time (in_AcceptedAt i).
Definition Expired (i : Invitation) (now : time) : bool := negb (After (in_ExpiresAt i) now).
Definition Usable (i : Invitation) (now : time) : bool := Pending i && negb (Expired i now).

(** [inv.AcceptedAt = at]. *)
Definition set_AcceptedAt (i : Invitation) (at_ : time) : Invitation :=
  MkInvitation (in_ID i) (in_TenantID i) (in_Email i) (in_TokenHash i) (in_ExpiresAt i) at_
    (in_InvitedBy i) (in_CreatedAt i).

(** ** The ports (store.go, invitation.go, membership.go) *)

Record Store (S : Type) := {
  CreateUser : NewUser -> bool -> S -> go unit * S;
  UserByID : string -> S -> go User * S;
  UserByEmail : ID -> string -> S -> go User * S;
  CountUsers : ID -> S -> go Z * S;
  CreateRefreshSession : RefreshSession -> S -> go unit * S;
  RefreshSessionByHash : string -> S -> go RefreshSession * S;
  RevokeRefreshSession : string -> time -> S -> go unit * S;
  RevokeAllRefreshSessionsForUser : string -> time -> S -> go unit * S;
  RevokeAllRefreshSessionsForTenant : ID -> time -> S -> go unit * S;
  GetTOTPState : string -> S -> go TOTPState * S;
  SetTOTPPending : string -> bytes -> list string -> S -> go unit * S;
  EnableTOTP : string -> bytes -> list string -> time -> S -> go unit * S;
  SetRecoveryCodeHashes : string -> list string -> S -> go unit * S;
  ClearTOTP : string -> S -> go unit * S;
  IdentityByProviderSubject : ID -> string -> string -> S -> go Identity * S;
  IdentityByID : string -> S -> go Identity * S;
  IdentitiesByUserID : string -> S -> go (list Identity) * S;
  InsertIdentity : NewIdentity -> S -> go unit * S;
  TouchIdentityLastLogin : string -> time -> S -> go unit * S;
  DeleteIdentity : string -> S -> go unit * S;
  CountIdentitiesByUserID : string -> S -> go Z * S;
  ProvisionUser : NewUser -> NewIdentity -> bool -> S -> go (User * Identity) * S
}.
Arguments CreateUser {_} _ _ _ _.
Arguments UserByID {_} _ _ _.
Arguments UserByEmail {_} _ _ _ _.
Arguments CountUsers {_} _ _ _.
Arguments CreateRefreshSession {_} _ _ _.
Arguments RefreshSessionByHash {_} _ _ _.
Arguments RevokeRefreshSession {_} _ _ _ _.
Arguments RevokeAllRefreshSessionsForUser {_} _ _ _ _.
Arguments RevokeAllRefreshSessionsForTenant {_} _ _ _ _.
Arguments GetTOTPState {_} _ _ _.
Arguments SetTOTPPending {_} _ _ _ _ _.
Arguments EnableTOTP {_} _ _ _ _ _ _.
Arguments SetRecoveryCodeHashes {_} _ _ _ _.
Arguments ClearTOTP {_} _ _ _.
Arguments IdentityByProviderSubject {_} _ _ _ _ _.
Arguments IdentityByID {_} _ _ _.
Arguments IdentitiesByUserID {_} _ _ _.
Arguments InsertIdentity {_} _ _ _.
Arguments TouchIdentityLastLogin {_} _ _ _ _.
Arguments DeleteIdentity {_} _ _ _.
Arguments CountIdentitiesByUserID {_} _ _ _.
Arguments ProvisionUser {_} _ _ _ _ _.

Record InvitationStore (S : Type) := {
  CreateInvitation : Invitation -> S -> go unit * S;
  InvitationByHash : string -> S -> go Invitation * S;
  MarkAccepted : string -> time -> S -> go unit * S
}.
Arguments CreateInvitation {_} _ _ _.
Arguments InvitationByHash {_} _ _ _.
Arguments MarkAccepted {_} _ _ _ _.

Record MembershipStore (S : Type) := {
  IsMember : string -> ID -> S -> go bool * S;
  MembershipsFor : string -> S -> go (list ID) * S
}.
Arguments IsMember {_} _ _ _ _.
Arguments MembershipsFor {_} _ _ _.

(** ** The reference store (memstore.go) *)

(** The maps of [MemStore]. *)
Record MemStore := MkMemStore {
  usersByID : gmap string User;
  emailToID : gmap string string;
  sessions : gmap string RefreshSession;
  hashToID : gmap string string;
  invitations : gmap string Invitation;
  invHashToID : gmap string string;
  memberships : gmap string (gset ID);
  totp : gmap string TOTPState;
  identities : gmap string Identity
}.

Definition NewMemStore : MemStore := MkMemStore ∅ ∅ ∅ ∅ ∅ ∅ ∅ ∅ ∅.

Definition NUL : string := String "000"%char "".
Definition tenantKey (tenantID value : string) : string := tenantID +:+ NUL +:+ value.

Definition not_found (label : string) : error := Errorf1 label (Sentinel identity_ErrNotFound).

(** [m.usersByID[id]], the zero value when there is none. *)
Definition user_at (m : MemStore) (id : string) : User :=
  match usersByID m !! id with Some u => u | None => User_zero end.
Definition session_at (m : MemStore) (id : string) : RefreshSession :=
  match sessions m !! id with Some s => s | None => RefreshSession_zero end.

Definition with_users (m : MemStore) us em : MemStore :=
  MkMemStore us em (sessions m) (hashToID m) (invitations m) (invHashToID m) (memberships m)
    (totp m) (identities m).
Definition with_sessions (m : MemStore) ss hs : MemStore :=
  MkMemStore (usersByID m) (emailToID m) ss hs (invitations m) (invHashToID m) (memberships m)
    (totp m) (identities m).
Definition with_invitations (m : MemStore) ivs hs : MemStore :=
  MkMemStore (usersByID m) (emailToID m) (sessions m) (hashToID m) ivs hs (memberships m)
    (totp m) (identities m).
Definition with_memberships (m : MemStore) ms : MemStore :=
  MkMemStore (usersByID m) (emailToID m) (sessions m) (hashToID m) (invitations m)
    (invHashToID m) ms (totp m) (identities m).
Definition with_totp (m : MemStore) ts : MemStore :=
  MkMemStore (usersByID m) (emailToID m) (sessions m) (hashToID m) (invitations m)
    (invHashToID m) (memberships m) ts (identities m).
Definition with_identities (m : MemStore) ids : MemStore :=
  MkMemStore (usersByID m) (emailToID m) (sessions m) (hashToID m) (invitations m)
    (invHashToID m) (memberships m) (totp m) ids.

Definition Mem_CreateUser (u : NewUser) (firstUser : bool) (m : MemStore) : go unit * MemStore :=
  match emailToID m !! tenantKey (nu_TenantID u) (nu_Email u) with
  | Some _ => (Fail (Errorf1 (nu_Email u) (Sentinel identity_ErrEmailTaken)), m)
  | None =>
      (Ret tt, with_users m
        (<[nu_ID u := MkUser (nu_ID u) (nu_TenantID u) (nu_Email u) (nu_PasswordHash u) true
             false (nu_CreatedAt u)]> (usersByID m))
        (<[tenantKey (nu_TenantID u) (nu_Email u) := nu_ID u]> (emailToID m)))
  end.

Definition Seed (u : User) (m : MemStore) : MemStore :=
  with_users m (<[us_ID u := u]> (usersByID m))
    (<[tenantKey (us_TenantID u) (us_Email u) := us_ID u]> (emailToID m)).

Definition SetActive (id : string) (active : bool) (m : MemStore) : MemStore :=
  match usersByID m !! id with
  | Some u =>
      with_users m (<[id := MkUser (us_ID u) (us_TenantID u) (us_Email u) (us_PasswordHash u)
        active (us_TOTPEnrolled u) (us_CreatedAt u)]> (usersByID m)) (emailToID m)
  | None => m
  end.

Definition Mem_UserByID (id : string) (m : MemStore) : go User * MemStore :=
  (match usersByID m !! id with
   | Some u => Ret u
   | None => Fail (not_found "user")
   end, m).

Definition Mem_UserByEmail (tenantID : ID) (email : string) (m : MemStore) : go User * MemStore :=
  (match emailToID m !! tenantKey (ID_String tenantID) email with
   | None => Fail (not_found "email")
   | Some id => Ret (user_at m id)
   end, m).

Definition Mem_CountUsers (tenantID : ID) (m : MemStore) : go Z * MemStore :=
  (Ret (Z.of_nat (length (List.filter
     (fun kv => String.eqb (us_TenantID kv.2) (ID_String tenantID))
     (map_to_list (usersByID m))))), m).

Definition Mem_CreateRefreshSession (s : RefreshSession) (m : MemStore) : go unit * MemStore :=
  (Ret tt, with_sessions m (<[se_ID s := s]> (sessions m)) (<[se_TokenHash s := se_ID s]> (hashToID m))).

Definition Mem_RefreshSessionByHash (tokenHash : string) (m : MemStore)
    : go RefreshSession * MemStore :=
  (match hashToID m !! tokenHash with
   | None => Fail (not_found "session")
   | Some id => Ret (session_at m id)
   end, m).

Definition Mem_RevokeRefreshSession (id : string) (at_ : time) (m : MemStore)
    : go unit * MemStore :=
  match sessions m !! id with
  | None => (Ret tt, m)
  | Some s =>
      if Revoked s then (Ret tt, m)
      else (Ret tt, with_sessions m (<[id := set_RevokedAt s at_]> (sessions m)) (hashToID m))
  end.

(** The loops over [m.sessions]: every live session that [sel] picks is
    revoked. *)
Definition revoke_all (sel : RefreshSession -> bool) (at_ : time) (m : MemStore) : MemStore :=
  with_sessions m
    ((fun s => if sel s && negb (Revoked s) then set_RevokedAt s at_ else s) <$> sessions m)
    (hashToID m).

Definition Mem_RevokeAllRefreshSessionsForUser (userID : string) (at_ : time) (m : MemStore)
    : go unit * MemStore :=
  (Ret tt, revoke_all (fun s => String.eqb (se_UserID s) userID) at_ m).

Definition Mem_RevokeAllRefreshSessionsForTenant (tenantID : ID) (at_ : time) (m : MemStore)
    : go unit * MemStore :=
  (Ret tt, revoke_all (fun s => String.eqb (se_TenantID s) (ID_String tenantID)) at_ m).

(** *** The second factor *)

(** [u.TOTPEnrolled = enrolled], when there is such a user. *)
Definition set_enrolled (id : string) (enrolled : bool) (m : MemStore) : MemStore :=
  match usersByID m !! id with
  | Some u =>
      with_users m (<[id := MkUser (us_ID u) (us_TenantID u) (us_Email u) (us_PasswordHash u)
        (us_Active u) enrolled (us_CreatedAt u)]> (usersByID m)) (emailToID m)
  | None => m
  end.

Definition totp_at (m : MemStore) (id : string) : TOTPState :=
  match totp m !! id with Some s => s | None => TOTPState_zero end.

Definition Mem_TOTPState (userID : string) (m : MemStore) : go TOTPState * MemStore :=
  (match usersByID m !! userID with
   | None => Fail (not_found "user")
   | Some _ => Ret (totp_at m userID)
   end, m).

Definition Mem_SetTOTPPending (userID : string) (envelope : bytes) (hashes : list string)
    (m : MemStore) : go unit * MemStore :=
  (Ret tt, with_totp m (<[userID := MkTOTPState false envelope hashes]> (totp m))).

Definition Mem_EnableTOTP (userID : string) (envelope : bytes) (hashes : list string) (at_ : time)
    (m : MemStore) : go unit * MemStore :=
  (Ret tt, set_enrolled userID true
    (with_totp m (<[userID := MkTOTPState true envelope hashes]> (totp m)))).

Definition Mem_SetRecoveryCodeHashes (userID : string) (hashes : list string) (m : MemStore)
    : go unit * MemStore :=
  let s := totp_at m userID in
  (Ret tt, with_totp m
    (<[userID := MkTOTPState (ts_Enrolled s) (ts_Envelope s) hashes]> (totp m))).

Definition Mem_ClearTOTP (userID : string) (m : MemStore) : go unit * MemStore :=
  (Ret tt, set_enrolled userID false (with_totp m (delete userID (totp m)))).

(** *** Federated identities *)

(** The rows a range over [m.identities] visits; Go leaves their order open. *)
Definition identity_rows (m : MemStore) : list Identity := (map_to_list (identities m)).*2.

(** [id.TenantID == t && id.Provider == p && id.Subject == s]. *)
Definition same_subject (t p s : string) (i : Identity) : bool :=
  String.eqb (id_TenantID i) t && String.eqb (id_Provider i) p && String.eqb (id_Subject i) s.

Definition Mem_IdentityByProviderSubject (tenantID : ID) (provider subject : string)
    (m : MemStore) : go Identity * MemStore :=
  (match List.find (same_subject (ID_String tenantID) provider subject) (identity_rows m) with
   | Some i => Ret i
   | None => Fail (not_found "identity")
   end, m).

Definition Mem_IdentityByID (id : string) (m : MemStore) : go Identity * MemStore :=
  (match identities m !! id with
   | Some i => Ret i
   | None => Fail (not_found "identity")
   end, m).

Definition owned_by (userID : string) (m : MemStore) : list Identity :=
  List.filter (fun i => String.eqb (id_UserID i) userID) (identity_rows m).

(** Oldest first; [sort.Slice] leaves the order of equal instants open. *)
Definition linked_le (i j : Identity) : Prop := id_LinkedAt i <= id_LinkedAt j.
#[export] Instance linked_le_dec : RelDecision linked_le.
Proof. intros i j. apply Z.le_dec. Defined.

Definition Mem_IdentitiesByUserID (userID : string) (m : MemStore)
    : go (list Identity) * MemStore :=
  (Ret (merge_sort linked_le (owned_by userID m)), m).

Definition identity_taken : error := Errorf1 "identity" (Sentinel identity_ErrIdentityTaken).

(** Uniqueness is per tenant, provider and subject. *)
Definition Mem_InsertIdentity (ni : NewIdentity) (m : MemStore) : go unit * MemStore :=
  if existsb (same_subject (id_TenantID ni) (id_Provider ni) (id_Subject ni)) (identity_rows m)
  then (Fail identity_taken, m)
  else (Ret tt, with_identities m (<[id_ID ni := ni]> (identities m))).

Definition Mem_TouchIdentityLastLogin (id : string) (at_ : time) (m : MemStore)
    : go unit * MemStore :=
  match identities m !! id with
  | None => (Fail (not_found "identity"), m)
  | Some i => (Ret tt, with_identities m (<[id := set_LastLoginAt i at_]> (identities m)))
  end.

Definition Mem_DeleteIdentity (id : string) (m : MemStore) : go unit * MemStore :=
  (Ret tt, with_identities m (delete id (identities m))).

Definition Mem_CountIdentitiesByUserID (userID : string) (m : MemStore) : go Z * MemStore :=
  (Ret (Z.of_nat (length (owned_by userID m))), m).

(** Both rows or neither, under the store's lock. *)
Definition Mem_ProvisionUserWithIdentity (u : NewUser) (ni : NewIdentity) (firstUser : bool)
    (m : MemStore) : go (User * Identity) * MemStore :=
  match emailToID m !! tenantKey (nu_TenantID u) (nu_Email u) with
  | Some _ => (Fail (Errorf1 (nu_Email u) (Sentinel identity_ErrEmailTaken)), m)
  | None =>
      if existsb (same_subject (id_TenantID ni) (id_Provider ni) (id_Subject ni)) (identity_rows m)
      then (Fail identity_taken, m)
      else
        let user := MkUser (nu_ID u) (nu_TenantID u) (nu_Email u) (nu_PasswordHash u) true false
          (nu_CreatedAt u) in
        (Ret (user, ni), with_identities
          (with_users m (<[nu_ID u := user]> (usersByID m))
             (<[tenantKey (nu_TenantID u) (nu_Email u) := nu_ID u]> (emailToID m)))
          (<[id_ID ni := ni]> (identities m)))
  end.

Definition Mem_store : Store MemStore := {|
  CreateUser := Mem_CreateUser;
  UserByID := Mem_UserByID;
  UserByEmail := Mem_UserByEmail;
  CountUsers := Mem_CountUsers;
  CreateRefreshSession := Mem_CreateRefreshSession;
  RefreshSessionByHash := Mem_RefreshSessionByHash;
  RevokeRefreshSession := Mem_RevokeRefreshSession;
  RevokeAllRefreshSessionsForUser := Mem_RevokeAllRefreshSessionsForUser;
  RevokeAllRefreshSessionsForTenant := Mem_RevokeAllRefreshSessionsForTenant;
  GetTOTPState := Mem_TOTPState;
  SetTOTPPending := Mem_SetTOTPPending;
  EnableTOTP := Mem_EnableTOTP;
  SetRecoveryCodeHashes := Mem_SetRecoveryCodeHashes;
  ClearTOTP := Mem_ClearTOTP;
  IdentityByProviderSubject := Mem_IdentityByProviderSubject;
  IdentityByID := Mem_IdentityByID;
  IdentitiesByUserID := Mem_IdentitiesByUserID;
  InsertIdentity := Mem_InsertIdentity;
  TouchIdentityLastLogin := Mem_TouchIdentityLastLogin;
  DeleteIdentity := Mem_DeleteIdentity;
  CountIdentitiesByUserID := Mem_CountIdentitiesByUserID;
  ProvisionUser := Mem_ProvisionUserWithIdentity
|}.

Definition Mem_CreateInvitation (inv : Invitation) (m : MemStore) : go unit * MemStore :=
  match invHashToID m !! in_TokenHash inv with
  | Some _ => (Fail (Errorf1 "invitation token hash" (Sentinel identity_ErrInvitationConsumed)), m)
  | None =>
      (Ret tt, with_invitations m (<[in_ID inv := inv]> (invitations m))
                 (<[in_TokenHash inv := in_ID inv]> (invHashToID m)))
  end.

Definition Mem_InvitationByHash (hash : string) (m : MemStore) : go Invitation * MemStore :=
  (match invHashToID m !! hash with
   | None => Fail (not_found "invitation")
   | Some id =>
       match invitations m !! id with
       | None => Fail (not_found "invitation")
       | Some inv => Ret inv
       end
   end, m).

(** The compare-and-set, under the store's lock. *)
Definition Mem_MarkAccepted (id : string) (at_ : time) (m : MemStore) : go unit * MemStore :=
  match invitations m !! id with
  | None => (Fail (not_found "invitation"), m)
  | Some inv =>
      if negb (IsZero_time (in_AcceptedAt inv)) then
        (Fail (Errorf1 "invitation" (Sentinel identity_ErrInvitationConsumed)), m)
      else
        (Ret tt, with_invitations m (<[id := set_AcceptedAt inv at_]> (invitations m))
                   (invHashToID m))
  end.

Definition Mem_invitations : InvitationStore MemStore := {|
  CreateInvitation := Mem_CreateInvitation;
  InvitationByHash := Mem_InvitationByHash;
  MarkAccepted := Mem_MarkAccepted
|}.

Definition member_set (m : MemStore) (userID : string) : gset ID :=
  default ∅ (memberships m !! userID).

Definition AddMembership (userID : string) (tenantID : ID) (m : MemStore) : MemStore :=
  with_memberships m (<[userID := {[tenantID]} ∪ member_set m userID]> (memberships m)).

(** Deleting from a nil map does nothing. *)
Definition RemoveMembership (userID : string) (tenantID : ID) (m : MemStore) : MemStore :=
  with_memberships m (alter (fun ts => ts ∖ {[tenantID]}) userID (memberships m)).

Definition Mem_IsMember (userID : string) (tenantID : ID) (m : MemStore) : go bool * MemStore :=
  (Ret (bool_decide (tenantID ∈ member_set m userID)), m).

(** The order of the list is the map's, which Go leaves open. *)
Definition Mem_MembershipsFor (userID : string) (m : MemStore) : go (list ID) * MemStore :=
  (Ret (elements (member_set m userID)), m).

Definition Mem_memberships : MembershipStore MemStore := {|
  IsMember := Mem_IsMember;
  MembershipsFor := Mem_MembershipsFor
|}.

(** ** Configuration (core.go, throttle.go, secondfactor.go) *)

Record SecondFactorRequirement := {
  AtLogin : bool;
  ForActions : bool;
  GraceUntil : time
}.

(** The limiter and its keys; its answer may depend on all that happened. *)
Record Throttling := {
  Allow : trace -> string -> bool * Z;
  LoginKey : string -> string -> string;
  SecondFactorKey : string -> string -> string
}.

(** [Core]: [None] is nil. A hook is recorded when it runs. *)
Record Core (S : Type) := {
  c_store : Store S;
  c_jwt : option JWTService;
  c_refreshTTL : Z;
  c_totpRequired : bool;
  c_defaultACR : string;
  c_OnRegistered : bool;
  c_throttling : option Throttling;
  c_secondFactor : option (trace -> ID -> string -> go SecondFactorRequirement);
  c_invitations : option (InvitationStore S);
  c_memberships : option (MembershipStore S);
  c_enterTTL : Z;
  c_OnTenantEntered : bool;
  c_impersonation : option (trace -> string -> ID -> string -> go bool);
  c_impersonationTTL : Z;
  c_keys : option KeySet;
  c_OnProvisioned : bool
}.
Arguments c_store {_} _.
Arguments c_jwt {_} _.
Arguments c_refreshTTL {_} _.
Arguments c_totpRequired {_} _.
Arguments c_defaultACR {_} _.
Arguments c_OnRegistered {_} _.
Arguments c_throttling {_} _.
Arguments c_secondFactor {_} _.
Arguments c_invitations {_} _.
Arguments c_memberships {_} _.
Arguments c_enterTTL {_} _.
Arguments c_OnTenantEntered {_} _.
Arguments c_impersonation {_} _.
Arguments c_impersonationTTL {_} _.
Arguments c_keys {_} _.
Arguments c_OnProvisioned {_} _.

(** [New], after the options ran: what it refuses to build. *)
Definition NewCore {S} (c : Core S) : go (Core S) :=
  if String.eqb (c_defaultACR c) "" then Fail (Errorf0 "identity: default ACR must not be empty")
  else
    match c_jwt c with
    | None => Ret c
    | Some j =>
        if AccessTTL j <? c_enterTTL c then
          Fail (Errorf0 "identity: WithEnterTenantTTL is longer than the access token TTL")
        else if AccessTTL j <? c_impersonationTTL c then
          Fail (Errorf0 "identity: WithImpersonation ttl is longer than the access token TTL")
        else Ret c
    end.

Definition MinPasswordLen : nat := 8.
Definition MaxPasswordLen : nat := 72.

Definition validatePassword (p : string) : go unit :=
  if (String.length p <? MinPasswordLen)%nat || (MaxPasswordLen <? String.length p)%nat then
    Fail (Errorf1 "must be between 8 and 72 characters" (Sentinel identity_ErrPasswordPolicy))
  else Ret tt.

(** [strings.Index(s, "@")] and [strings.Contains(s, c)] for one byte. *)
Definition index_at (s : string) : option nat := String.index 0 "@" s.
Definition contains_byte (s c : string) : bool :=
  match String.index 0 c s with Some _ => true | None => false end.

Section Core.
Context (E : Env) {S : Type} (c : Core S).
Local Abbreviation M := (M S).

(** [strings.ToLower]. *)
Definition ToLower (s : string) : string :=
  if is_ascii s then to_lower s else env_unicode_lower E s.

Definition NormaliseEmail (raw : string) : go string :=
  let e := ToLower (trim_space raw) in
  if String.eqb e "" then Fail (Errorf1 "email is required" (Sentinel identity_ErrInvalidEmail))
  else
    match index_at e with
    | None => Fail (Sentinel identity_ErrInvalidEmail)
    | Some at_ =>
        let domain := string_drop (at_ + 1) e in
        if (at_ =? 0)%nat || (at_ =? String.length e - 1)%nat || contains_byte domain "@" ||
           negb (contains_byte domain ".")
        then Fail (Sentinel identity_ErrInvalidEmail)
        else Ret e
    end.

Definition tenantGate (tenantID : ID) : go unit :=
  if negb (Valid tenantID) then Fail (Sentinel identity_ErrTenantRequired) else Ret tt.

Definition userByEmail (tenantID : ID) (email : string) : M User :=
  lift (tenantGate tenantID);;
  store_call "UserByEmail" (UserByEmail (c_store c) tenantID email).

Definition countUsers (tenantID : ID) : M Z :=
  lift (tenantGate tenantID);;
  store_call "CountUsers" (CountUsers (c_store c) tenantID).

(** *** Tenant-keyed lookups (tenantcheck.go) *)

Definition userInTenant (userID : string) (tenantID : ID) : M User :=
  try_catch (store_call "UserByID" (UserByID (c_store c) userID))
    (fun e =>
       if errors_is e identity_ErrNotFound then fail (not_found "user")
       else fail (Errorf1 "identity: lookup user" e))
    (fun user =>
       if negb (bool_decide (FromStored (us_TenantID user) = tenantID)) then
         fail (not_found "user")
       else mret user).

Definition sessionInTenant (hash : string) (tenantID : ID) : M RefreshSession :=
  try_catch (store_call "RefreshSessionByHash" (RefreshSessionByHash (c_store c) hash))
    (fun e =>
       if errors_is e identity_ErrNotFound then fail (Sentinel identity_ErrNotFound)
       else fail (Errorf1 "identity: lookup session" e))
    (fun session =>
       if negb (bool_decide (FromStored (se_TenantID session) = tenantID)) then
         fail (Sentinel identity_ErrInvalidSession)
       else mret session).

(** *** Minting (core.go) *)

(** Everything a mint refuses before it reads or writes; the service it will
    use. *)
Definition mintGate (tenantID : ID) (authTime : Z) (acr : string) : go JWTService :=
  match c_jwt c with
  | None => Fail (Sentinel identity_ErrNoTokenService)
  | Some j =>
      tenantGate tenantID;;
      if (authTime <=? 0) || String.eqb acr "" then
        Fail (Sentinel identity_ErrAuthContextRequired)
      else Ret j
  end.

Definition issueTokens (userID : string) (tenantID : ID) (authTime : Z) (acr : string)
    (amr : list string) : M Tokens :=
  j ← lift (mintGate tenantID authTime acr);
  access ← wrap (Errorf1 "identity: issue access token")
    (IssueAccess E j userID tenantID authTime acr amr);
  if c_refreshTTL c <=? 0 then mret (MkTokens access "" time_zero)
  else
    refresh ← wrap (Errorf1 "identity: mint refresh token") (NewRefreshToken E);
    hash ← wrap (Errorf1 "identity: hash refresh token") (lift (HashRefreshToken refresh));
    n ← now E;
    let exp := n + c_refreshTTL c in
    id ← newID E;
    wrap (Errorf1 "identity: persist refresh session")
      (store_call "CreateRefreshSession" (CreateRefreshSession (c_store c) {|
         se_ID := id;
         se_UserID := userID;
         se_TenantID := ID_String tenantID;
         se_TokenHash := hash;
         se_IssuedAt := n;
         se_ExpiresAt := exp;
         se_RevokedAt := time_zero;
         se_AuthTime := time_Unix authTime;
         se_ACR := acr
       |}));;
    mret (MkTokens access refresh exp).

Definition IssueTokensForUser (userID : string) (tenantID : ID) (authTime : Z) (acr : string)
    (amr : list string) : M Tokens :=
  lift (mintGate tenantID authTime acr);;
  try_catch (store_call "UserByID" (UserByID (c_store c) userID))
    (fun e =>
       if errors_is e identity_ErrNotFound then fail (not_found "user")
       else fail (Errorf1 "identity: lookup user for mint" e))
    (fun user =>
       if negb (bool_decide (FromStored (us_TenantID user) = tenantID)) then
         fail (not_found "user")
       else if negb (us_Active user) then fail (Sentinel identity_ErrUserInactive)
       else issueTokens userID tenantID authTime acr amr).

(** *** Registration and login *)

Definition Register (tenantID : ID) (email password : string) : M (User * Tokens) :=
  normalised ← lift (NormaliseEmail email);
  lift (validatePassword password);;
  hash ← wrap (Errorf1 "identity: hash password") (HashPassword E password);
  count ← wrap (Errorf1 "identity: count users") (countUsers tenantID);
  let first := count =? 0 in
  id ← newID E;
  created ← now E;
  let u := MkNewUser id (ID_String tenantID) normalised hash created in
  wrap (fun e => if errors_is e identity_ErrEmailTaken then Sentinel identity_ErrEmailTaken
                 else Errorf1 "identity: create user" e)
    (store_call "CreateUser" (CreateUser (c_store c) u first));;
  let user := MkUser (nu_ID u) (nu_TenantID u) (nu_Email u) (nu_PasswordHash u) true false
    (nu_CreatedAt u) in
  (if c_OnRegistered c then emit (EvHook "OnRegistered") else mret tt);;
  t ← now E;
  tokens ← issueTokens (us_ID user) (FromStored (us_TenantID user)) (Unix t) (c_defaultACR c) [];
  mret (user, tokens).

(** [allowLogin]: the wait, or that the attempt may proceed. *)
Definition allowLogin (tenantID : ID) (email : string) : M (option Z) :=
  match c_throttling c with
  | None => mret None
  | Some t =>
      let key := LoginKey t (ID_String tenantID) email in
      r ← observe (EvAllow key) (fun tr => Allow t tr key);
      mret (if (r.1 : bool) then None else Some r.2)
  end.

(** The error carries the wait; its text and what it wraps are fixed. *)
Definition ThrottledError : error := Errorf1 "ThrottledError" (Sentinel identity_ErrThrottled).

Definition secondFactorRequiredAtLogin (tenantID : ID) (userID : string) : M bool :=
  match c_secondFactor c with
  | None => mret (c_totpRequired c)
  | Some policy =>
      if c_totpRequired c then mret true
      else
        try_catch (r ← observe EvPolicy (fun tr => policy tr tenantID userID); lift r)
          (fun _ => mret true)
          (fun req =>
             if negb (AtLogin req) then mret false
             else if IsZero_time (GraceUntil req) then mret true
             else n ← now E; mret (negb (Before_time n (GraceUntil req))))
  end.

Definition amrForLogin : list string := ["pwd"].
Definition amrForSecondFactor : list string := ["pwd"; "otp"].

Definition invalid_credentials {A} (password : string) : M A :=
  ignore_err (VerifyStub E password);;
  fail (Sentinel identity_ErrInvalidCredentials).

(** The user comes back with the tokens, or with [ErrTOTPRequired]. *)
Definition Login (tenantID : ID) (email password : string) : M (User * go Tokens) :=
  match NormaliseEmail email with
  | Fail _ => invalid_credentials password
  | Panic why => lift (Panic why)
  | Ret normalised =>
      wait ← allowLogin tenantID normalised;
      match wait with
      | Some _ => fail ThrottledError
      | None =>
          try_catch (userByEmail tenantID normalised)
            (fun e =>
               if errors_is e identity_ErrTenantRequired then fail e
               else if errors_is e identity_ErrNotFound then invalid_credentials password
               else fail (Errorf1 "identity: lookup user" e))
            (fun user =>
               if String.eqb (us_PasswordHash user) "" || negb (us_Active user) then
                 invalid_credentials password
               else
                 try_catch (VerifyPassword E (us_PasswordHash user) password)
                   (fun _ => fail (Sentinel identity_ErrInvalidCredentials))
                   (fun _ =>
                      required ← (if us_TOTPEnrolled user then mret true
                                  else secondFactorRequiredAtLogin
                                         (FromStored (us_TenantID user)) (us_ID user));
                      if (required : bool) then
                        mret (user, Fail (Sentinel identity_ErrTOTPRequired))
                      else
                        t ← now E;
                        tokens ← issueTokens (us_ID user) (FromStored (us_TenantID user)) (Unix t)
                          (c_defaultACR c) amrForLogin;
                        mret (user, Ret tokens)))
      end
  end.

(** *** Sessions *)

(** [Refresh] up to and including its last check: what the call read. *)
Definition Refresh_check (tenantID : ID) (refreshToken : string)
    : M (RefreshSession * User * time) :=
  if c_refreshTTL c <=? 0 then fail (Sentinel identity_ErrInvalidSession)
  else
    match HashRefreshToken refreshToken with
    | Fail _ => fail (Sentinel identity_ErrInvalidSession)
    | Panic why => lift (Panic why)
    | Ret hash =>
        session ← wrap (fun e => if errors_is e identity_ErrNotFound
                                 then Sentinel identity_ErrInvalidSession else e)
          (sessionInTenant hash tenantID);
        n ← now E;
        if Revoked session || negb (After (se_ExpiresAt session) n) then
          fail (Sentinel identity_ErrInvalidSession)
        else
          user ← wrap (fun e => if errors_is e identity_ErrNotFound
                                then Sentinel identity_ErrInvalidSession
                                else Errorf1 "identity: lookup user for session" e)
            (store_call "UserByID" (UserByID (c_store c) (se_UserID session)));
          let revoke := store_call "RevokeRefreshSession"
            (RevokeRefreshSession (c_store c) (se_ID session) n) in
          if negb (bool_decide (FromStored (se_TenantID session) = FromStored (us_TenantID user)))
          then ignore_err revoke;; fail (Sentinel identity_ErrInvalidSession)
          else if (Unix (se_AuthTime session) <=? 0) || String.eqb (se_ACR session) ""
          then ignore_err revoke;; fail (Sentinel identity_ErrInvalidSession)
          else if negb (us_Active user)
          then ignore_err revoke;; fail (Sentinel identity_ErrUserInactive)
          else mret (session, user, n)
    end.

(** The rest of [Refresh]: revoke the old row, mint its successor. *)
Definition Refresh_rotate (st : RefreshSession * User * time) : M (User * Tokens) :=
  let '(session, user, n) := st in
  wrap (Errorf1 "identity: revoke session")
    (store_call "RevokeRefreshSession" (RevokeRefreshSession (c_store c) (se_ID session) n));;
  tokens ← issueTokens (se_UserID session) (FromStored (se_TenantID session))
    (Unix (se_AuthTime session)) (se_ACR session) [];
  mret (user, tokens).

Definition Refresh (tenantID : ID) (refreshToken : string) : M (User * Tokens) :=
  st ← Refresh_check tenantID refreshToken; Refresh_rotate st.

Definition Logout (tenantID : ID) (refreshToken : string) : M unit :=
  if (c_refreshTTL c <=? 0) || String.eqb refreshToken "" then mret tt
  else
    match HashRefreshToken refreshToken with
    | Fail _ => mret tt
    | Panic why => lift (Panic why)
    | Ret hash =>
        try_catch (sessionInTenant hash tenantID)
          (fun e => if errors_is e identity_ErrNotFound then mret tt else fail e)
          (fun session =>
             if Revoked session then mret tt
             else
               n ← now E;
               wrap (Errorf1 "identity: revoke session")
                 (store_call "RevokeRefreshSession"
                    (RevokeRefreshSession (c_store c) (se_ID session) n)))
    end.

Definition RevokeAllSessions (tenantID : ID) (userID : string) : M unit :=
  if String.eqb userID "" then fail (Errorf0 "identity: user id is required")
  else
    userInTenant userID tenantID;;
    n ← now E;
    wrap (Errorf1 "identity: revoke all sessions")
      (store_call "RevokeAllRefreshSessionsForUser"
         (RevokeAllRefreshSessionsForUser (c_store c) userID n)).

Definition RevokeAllSessionsForTenant (tenantID : ID) : M unit :=
  lift (tenantGate tenantID);;
  n ← now E;
  wrap (Errorf1 "identity: revoke all sessions for tenant")
    (store_call "RevokeAllRefreshSessionsForTenant"
       (RevokeAllRefreshSessionsForTenant (c_store c) tenantID n)).
End Core.

(** ** A concrete deployment, for the examples *)

Module Demo.
Fixpoint text (c : ascii) (n : nat) : string :=
  match n with O => "" | Datatypes.S n => String c (text c n) end.

(** One second per effect, identifiers by position, a toy bcrypt. *)
Definition env : Env := {|
  env_now tr := (1000 + Z.of_nat (length tr)) * 10 ^ 9;
  env_newID tr := text "i" (length tr);
  env_rand tr n := Ret (repeat (ascii_of_nat (length tr)) n);
  env_bcrypt_hash _ p := Ret ("h:" +:+ p);
  env_bcrypt_ok h p := String.eqb h ("h:" +:+ p);
  env_stub := Ret "h:stub password";
  env_totp _ code secret := Ret (String.eqb code "123456");
  env_unicode_lower s := s;
  env_numeric_date t := t / 10 ^ 9
|}.

Definition jwt : JWTService := {|
  jwt_ttl := 900 * 10 ^ 9;
  jwt_issuer := "tamper";
  jwt_SignedString cl :=
    Ret (match cl with
         | AccessToken c => cl_Subject c +:+ "@" +:+ cl_TenantID c
         | PendingToken c => "pending " +:+ tp_Subject c
         end)
|}.

Definition core : Core MemStore := {|
  c_store := Mem_store;
  c_jwt := Some jwt;
  c_refreshTTL := 3600 * 10 ^ 9;
  c_totpRequired := false;
  c_defaultACR := ACRLocalPassword;
  c_OnRegistered := true;
  c_throttling := Some {|
    Allow tr _ := ((length tr <? 100)%nat, 60);
    LoginKey t e := t +:+ "/" +:+ e;
    SecondFactorKey u s := u +:+ "/" +:+ s
  |};
  c_secondFactor := None;
  c_invitations := Some Mem_invitations;
  c_memberships := Some Mem_memberships;
  c_enterTTL := 60 * 10 ^ 9;
  c_OnTenantEntered := true;
  c_impersonation := Some (fun _ actor _ _ => Ret (String.eqb actor "admin"));
  c_impersonationTTL := 60 * 10 ^ 9;
  c_keys := Some old_keys;
  c_OnProvisioned := false
|}.

Definition acme : ID := New "acme".
Definition start : world MemStore := World NewMemStore [].
Definition step {A} (m : M MemStore A) (w : world MemStore) : world MemStore := (m w).2.

(** Bob has registered. *)
Definition registered : world MemStore :=
  step (Register env core acme "Bob@Acme.com " "correct horse") start.
End Demo.

Example Register_first :
  match (Register Demo.env Demo.core Demo.acme " Bob@Acme.com " "correct horse" Demo.start).1 with
  | Ret (user, tok) =>
      user = MkUser "ii" "acme" "bob@acme.com" "h:correct horse" true false (1003 * 10 ^ 9) /\
      tk_Access tok = "ii@acme"
  | _ => False
  end.
Proof. by vm_compute. Qed.
