(* ===== verification/IdentityAuth.v ===== *)
(** * Signing in, over any store

    What [Login] and [IssueTokensForUser] promise whatever the application's
    store answers: the order of their effects, which is what a remote party
    can time, and what must hold when a session comes out. *)

From S2P Require Import Prelude Tenant Bytes World Crypto Identity.

#[local] Open Scope string_scope.
#[local] Open Scope list_scope.
#[local] Open Scope Z_scope.

Section Auth.
Context (E : Env) {S : Type} (c : Core S).

(** The errors of a mint are its gate's, or wrapped. *)
Definition mint_error (e : error) : bool :=
  match e with
  | Sentinel identity_ErrNoTokenService | Sentinel identity_ErrTenantRequired
  | Sentinel identity_ErrAuthContextRequired => true
  | Errorf1 label _ => negb (String.eqb label "ThrottledError")
  | _ => false
  end.

Lemma mintGate_error tenantID authTime acr e :
  mintGate c tenantID authTime acr = Fail e -> mint_error e = true.
Proof.
  unfold mintGate, tenantGate. destruct (c_jwt c); [|by intros [= <-]].
  destruct (negb (Valid tenantID)); cbn; [by intros [= <-]|].
  destruct (_ || _); [by intros [= <-]|done].
Qed.

Lemma issueTokens_error userID tenantID authTime acr amr w e w' :
  issueTokens E c userID tenantID authTime acr amr w = (Fail e, w') -> mint_error e = true.
Proof.
  unfold issueTokens. intros H.
  run_step H; try done. by eapply mintGate_error.
Qed.

(** The service signed an access token for [userID]: acting in [tid], from
    [htid] and on behalf of [act] when those are not empty. *)
Definition signed_access (j : JWTService) (tok userID act tid htid : string) (authTime : Z)
    (acr : string) (amr : list string) (ttl : Z) : Prop :=
  exists n,
    jwt_SignedString j (AccessToken (MkAccessClaims authTime acr amr purposeAccess tid htid act
      userID (jwt_issuer j) (env_numeric_date E n) (env_numeric_date E (n + ttl)))) = Ret tok.

Lemma issueAccessWithActor_Ret j userID act tid htid authTime acr ttl amr (w : world S) tok w' :
  issueAccessWithActor E j userID act tid htid authTime acr ttl amr w = (Ret tok, w') ->
  w' = World (w_store w) (w_trace w ++ [EvNow]) /\
  userID <> "" /\ 0 < authTime /\ acr <> "" /\
  signed_access j tok userID act tid htid authTime acr amr ttl.
Proof.
  intros (? & ? & ? & ? & Hs)%issueAccessWithActor_signs. split_and!; [done..|].
  unfold signed_access. eauto.
Qed.

Lemma issueTokens_Ret userID tenantID authTime acr amr w tok w' :
  issueTokens E c userID tenantID authTime acr amr w = (Ret tok, w') ->
  exists j, c_jwt c = Some j /\ Valid tenantID = true /\ 0 < authTime /\ acr <> "" /\
    signed_access j (tk_Access tok) userID "" (ID_String tenantID) "" authTime acr amr (jwt_ttl j).
Proof.
  unfold issueTokens. intros H. run_step H.
  all: rename Hm into Hacc; unfold mintGate, IssueAccess, issueAccess, tenantGate in *.
  all: destruct (c_jwt c); [|done]; destruct (Valid tenantID); [|done].
  all: apply issueAccessWithActor_Ret in Hacc as (_ & _ & Ht & Ha & Hs).
  all: cbn [negb mbind go_bind] in Hr; case_match; [done|]; injection Hr as ->; eauto 8.
Qed.

(** What the limiter is asked, before anything is read. *)
Definition allow_events (tenantID : ID) (email : string) : trace :=
  match c_throttling c with
  | None => []
  | Some t => [EvAllow (LoginKey t (ID_String tenantID) email)]
  end.

Lemma allowLogin_run tenantID email w r w' :
  allowLogin c tenantID email w = (r, w') ->
  w' = World (w_store w) (w_trace w ++ allow_events tenantID email) /\
  r = Ret (match c_throttling c with
           | None => None
           | Some t =>
               let a := Allow t (w_trace w) (LoginKey t (ID_String tenantID) email) in
               if a.1 then None else Some a.2
           end).
Proof.
  unfold allowLogin, allow_events. destruct (c_throttling c); intros H; run_step H.
  - done.
  - destruct w. by rewrite app_nil_r.
Qed.

Lemma invalid_credentials_run {A} password (w : world S) (r : go A) w' dummy :
  env_stub E = Ret dummy -> invalid_credentials E password w = (r, w') ->
  r = Fail (Sentinel identity_ErrInvalidCredentials) /\
  w' = World (w_store w) (w_trace w ++ [EvBcrypt dummy password]).
Proof.
  unfold invalid_credentials, ignore_err, VerifyStub. intros -> H. run_step H; done.
Qed.

Lemma invalid_credentials_not_Ret {A} password (w : world S) (a : A) w' :
  invalid_credentials E password w <> (Ret a, w').
Proof. unfold invalid_credentials, ignore_err, VerifyStub. intros H. run_step H; done. Qed.

Lemma VerifyPassword_run hash password (w : world S) r w' :
  VerifyPassword E hash password w = (r, w') ->
  w' = World (w_store w) (w_trace w ++ [EvBcrypt hash password]) /\
  is_ret r = env_bcrypt_ok E hash password.
Proof. unfold VerifyPassword. intros H. run_step H; done. Qed.

Lemma userByEmail_run tenantID email w r w' :
  userByEmail c tenantID email w = (r, w') ->
  (Valid tenantID = false /\ r = Fail (Sentinel identity_ErrTenantRequired) /\ w' = w) \/
  (Valid tenantID = true /\
   UserByEmail (c_store c) tenantID email (w_store w) = (r, w_store w') /\
   w_trace w' = w_trace w ++ [EvStore "UserByEmail"]).
Proof.
  unfold userByEmail, tenantGate. intros H. destruct (Valid tenantID); cbn [negb] in H.
  - right. run_step H; done.
  - left. run_step H; done.
Qed.

(** The effects of a refused login: one limiter call, one lookup, one bcrypt
    comparison; or, for a malformed address, the comparison alone. *)
Definition refusal_events (tenantID : ID) (email password hash : string) : trace :=
  match NormaliseEmail E email with
  | Ret e => allow_events tenantID e ++ [EvStore "UserByEmail"]
  | _ => []
  end ++ [EvBcrypt hash password].

(** The policy does not ask this user for a second factor at the instant [tr]:
    the process-wide switch is off and no policy is set, or the policy, asked
    then, answers that there is no need, or grants a grace that has not run out
    on the clock. An error of the policy excuses nobody. [tr'] is the trace
    after the question. *)
Definition excused (tenantID : ID) (userID : string) (tr tr' : trace) : Prop :=
  c_totpRequired c = false /\
  match c_secondFactor c with
  | None => tr' = tr
  | Some policy => exists req, policy tr tenantID userID = Ret req /\
      ((AtLogin req = false /\ tr' = tr ++ [EvPolicy]) \/
       (AtLogin req = true /\ GraceUntil req <> time_zero /\
        env_now E (tr ++ [EvPolicy]) < GraceUntil req /\ tr' = tr ++ [EvPolicy; EvNow]))
  end.

Lemma secondFactor_run tenantID userID w r w' :
  secondFactorRequiredAtLogin E c tenantID userID w = (r, w') ->
  w_store w' = w_store w /\
  ((r = Ret false -> excused tenantID userID (w_trace w) (w_trace w')) /\
   (r = Ret true -> forall tr', ~ excused tenantID userID (w_trace w) tr')) /\
  (forall e, r <> Fail e).
Proof.
  unfold secondFactorRequiredAtLogin, excused, IsZero_time, Before_time. intros H.
  destruct (c_secondFactor c) as [policy|] eqn:Hp.
  2: { apply mret_inv in H as [-> ->]. split_and!; [done| | |done]; destruct (c_totpRequired c); try done.
       by intros _ tr' [? _]. }
  destruct (c_totpRequired c) eqn:Ht.
  { apply mret_inv in H as [-> ->]. split_and!; try done. by intros _ tr' [? _]. }
  run_step H; split_and!; try done.
  all: try rewrite <- app_assoc; cbn [app].
  all: intros Hr'; try discriminate Hr'; injection Hr' as ? || clear Hr'; bool_simpl; rewrite ?Z.eqb_eq, ?Z.eqb_neq, ?Z.ltb_lt, ?Z.ltb_ge in *.
  all: try (intros tr' (_ & req & Hreq & Hno); rewrite <- Hr in Hreq; first [discriminate Hreq|injection Hreq as <-];
    destruct Hno as [[? _]|(? & ? & ? & _)]; congruence || lia).
  all: split; [done|]; exists a; split; [done|]; cbn [w_trace]; auto.
Qed.

(** The effects of the parts of [Login], read off their runs. *)
Ltac auth_runs :=
  repeat match goal with
  | H : allowLogin _ _ _ _ = (_, _) |- _ => apply allowLogin_run in H as [-> H]
  | H : userByEmail _ _ _ _ = (_, _) |- _ =>
      let Hv := fresh "Hv" in let Ht := fresh "Ht" in
      apply userByEmail_run in H as [(Hv & H & Ht)|(Hv & H & Ht)]; [go_inj H|]
  | H : VerifyPassword _ _ _ _ = (_, _) |- _ =>
      let Hw := fresh "Hw" in apply VerifyPassword_run in H as [Hw H]
  | H : invalid_credentials _ _ _ = (_, _), Hs : env_stub _ = Ret _ |- _ =>
      let Hr := fresh "Hr" in let Hw := fresh "Hw" in
      destruct (invalid_credentials_run _ _ _ _ _ Hs H) as [Hr Hw]; clear H; go_inj Hr
  | H : secondFactorRequiredAtLogin _ _ _ _ _ = (_, _) |- _ =>
      let Hw := fresh "Hw" in apply secondFactor_run in H as (Hw & H)
  end; subst; cbn [w_store w_trace] in *.

(** [ErrInvalidCredentials] does not come out of a mint, and neither does a
    throttling. *)
Ltac mint_errors :=
  match goal with
  | H : issueTokens _ _ _ _ _ _ _ _ = (Fail _, _) |- _ =>
      by apply issueTokens_error in H
  | H : _ /\ (forall e, Fail _ <> Fail e) |- _ => destruct H as [_ H]; by destruct (H _ eq_refl)
  end.

(** The limiter lets the attempt through, at the instant it is asked. *)
Definition let_in (tenantID : ID) (e : string) (tr : trace) : Prop :=
  match c_throttling c with
  | None => True
  | Some t => (Allow t tr (LoginKey t (ID_String tenantID) e)).1 = true
  end.

(** The reasons to refuse a let-in attempt: no such user in the tenant, no
    password, a deactivated account, a wrong password. *)
Definition refusable (tenantID : ID) (e password : string) (s : S) : Prop :=
  match (UserByEmail (c_store c) tenantID e s).1 with
  | Ret u => us_PasswordHash u = "" \/ us_Active u = false \/ env_bcrypt_ok E (us_PasswordHash u) password = false
  | Fail err => errors_is err identity_ErrTenantRequired = false /\ errors_is err identity_ErrNotFound = true
  | Panic _ => False
  end.

(** The hash a refusal compares with: the dummy's, or the one of an active
    account with a password, which does not accept the one presented. *)
Definition compared (tenantID : ID) (email password dummy hash : string) (s : S) : Prop :=
  hash = dummy \/
  exists e u s', NormaliseEmail E email = Ret e /\ UserByEmail (c_store c) tenantID e s = (Ret u, s') /\
    us_Active u = true /\ us_PasswordHash u = hash /\ hash <> "" /\ env_bcrypt_ok E hash password = false.

Lemma Login_refuses tenantID email password (w : world S) r w' :
  Login E c tenantID email password w = (r, w') -> is_ret (env_stub E) = true ->
  is_ret (NormaliseEmail E email) = false \/
  (exists e, NormaliseEmail E email = Ret e /\ Valid tenantID = true /\ let_in tenantID e (w_trace w) /\
     refusable tenantID e password (w_store w)) ->
  (exists why, NormaliseEmail E email = Panic why) \/ r = Fail (Sentinel identity_ErrInvalidCredentials).
Proof.
  intros H Hstub. destruct (env_stub E) as [dummy|?|?] eqn:Hd; [|done..].
  assert (forall w1 (r : go (User * go Tokens)) w2, invalid_credentials E password w1 = (r, w2) ->
    r = Fail (Sentinel identity_ErrInvalidCredentials)) as Hinv
    by (intros w1 r1 w2 Hi; by apply (invalid_credentials_run _ _ _ _ _ Hd) in Hi as [-> _]).
  unfold Login in H. intros [Hn|(e & Hn & Hv & Hl & Href)].
  { destruct (NormaliseEmail E email); [done| |by eauto]. right. by eapply Hinv. }
  right. rewrite Hn in H. unfold mbind, M_bind in H.
  destruct (allowLogin c tenantID e w) as [ra wa] eqn:Ha. apply allowLogin_run in Ha as [-> ->].
  unfold let_in in Hl. replace (match c_throttling c with Some t => _ | None => _ end) with (@None Z) in H
    by (destruct (c_throttling c); [cbn; by rewrite Hl|done]).
  unfold try_catch in H at 1. unfold userByEmail, tenantGate, store_call, mbind, M_bind, lift in H.
  rewrite Hv in H. cbn in H. unfold refusable in Href.
  destruct (UserByEmail _ _ _ _) as [[u|err|why] s1]; cbn in *; [|destruct Href as [He1 He2]; rewrite He1, He2 in H; by eapply Hinv|done].
  destruct (String.eqb_spec (us_PasswordHash u) ""); [by eapply Hinv|].
  destruct (us_Active u); cbn in H; [|by eapply Hinv].
  destruct Href as [?|[?|Hb]]; [done..|].
  apply try_catch_inv in H as [([] & wv & [_ Hp]%VerifyPassword_run & _)|[(err & wv & _ & H)|(why & H & _)]].
  - by rewrite Hb in Hp.
  - by apply fail_inv in H as [-> _].
  - unfold VerifyPassword in H. by run_step H.
Qed.

(** C11: A refused login does the same things whatever the reason. On an
    address that normalises, an unknown user, a federated-only or deactivated
    account and a wrong password are all answered with the one error, at the
    cost of the same limiter call, one lookup and exactly one bcrypt comparison
    on the presented password: with the dummy hash, or with the hash of an
    active account that does not accept it. A malformed address, which is no
    account's, is refused before the limiter with the same error, at the cost
    of the comparison alone. And a throttled login has asked the limiter a key
    made of the arguments only, and has neither read the store nor compared
    anything. This holds for every store. *)
Theorem Login_timing tenantID email password w r w' dummy :
  env_stub E = Ret dummy ->
  Login E c tenantID email password w = (r, w') ->
  (r = Fail (Sentinel identity_ErrInvalidCredentials) ->
     exists hash, compared tenantID email password dummy hash (w_store w) /\
       w_trace w' = w_trace w ++ refusal_events tenantID email password hash) /\
  (forall e, NormaliseEmail E email = Ret e -> Valid tenantID = true -> let_in tenantID e (w_trace w) ->
     refusable tenantID e password (w_store w) -> r = Fail (Sentinel identity_ErrInvalidCredentials)) /\
  (forall e, NormaliseEmail E email = Fail e -> r = Fail (Sentinel identity_ErrInvalidCredentials)) /\
  (r = Fail ThrottledError ->
     exists e, NormaliseEmail E email = Ret e /\
       w' = World (w_store w) (w_trace w ++ allow_events tenantID e)).
Proof.
  intros Hstub H. assert (is_ret (env_stub E) = true) as Hs by (by rewrite Hstub).
  pose proof (Login_refuses _ _ _ _ _ _ H Hs) as Href. split_and!.
  2: { intros e He Hv Hl Hr. destruct Href as [[why Hp]|?]; [by eauto 6|congruence|done]. }
  2: { intros e He. destruct Href as [[why Hp]|?]; [left; by rewrite He|congruence|done]. }
  all: clear Href; intros ->; revert H; unfold Login, refusal_events, compared; intros H.
  all: run_step H; auth_runs; try done; try mint_errors; eauto.
  all: eexists; (split; [|rewrite ?Ht, ?app_nil_l, <- ?app_assoc; reflexivity]); auto.
  right. bool_simpl. destruct Hb1 as [Hh Ha]. exists a, a1, (w_store w1). by split_and!.
Qed.

(** C12: Whatever the store answers, a login that hands out a user has read that
    user from it under the tenant and the normalised address, the user is
    active and has a password, and bcrypt accepted the presented password
    against it. An enrolled user, anyone while the process-wide switch is on,
    and anyone the tenant's policy asks for a second factor at that instant
    (no grace running; an error of the policy asks) gets no tokens but the
    demand for the second factor, and nobody else does. The token of the others
    is signed for that user in the tenant of their row, with the default ACR,
    the password as its only method and, as the time of the authentication, the
    clock's reading after all of this. *)
Theorem Login_sound tenantID email password w user r w' :
  Login E c tenantID email password w = (Ret (user, r), w') ->
  exists e s, NormaliseEmail E email = Ret e /\ Valid tenantID = true /\
    UserByEmail (c_store c) tenantID e (w_store w) = (Ret user, s) /\
    us_Active user = true /\ us_PasswordHash user <> "" /\
    env_bcrypt_ok E (us_PasswordHash user) password = true /\
    let tr := w_trace w ++ refusal_events tenantID email password (us_PasswordHash user) in
    match r with
    | Ret tok =>
        us_TOTPEnrolled user = false /\
        exists tr' j, excused (FromStored (us_TenantID user)) (us_ID user) tr tr' /\
          let authTime := Unix (env_now E tr') in
          c_jwt c = Some j /\ 0 < authTime /\
          signed_access j (tk_Access tok) (us_ID user) "" (us_TenantID user) "" authTime
            (c_defaultACR c) ["pwd"] (jwt_ttl j)
    | Fail err =>
        err = Sentinel identity_ErrTOTPRequired /\
        (us_TOTPEnrolled user = true \/
         forall tr', ~ excused (FromStored (us_TenantID user)) (us_ID user) tr tr')
    | Panic _ => False
    end.
Proof.
  unfold Login, refusal_events. intros H.
  run_step H; auth_runs; try done; try by apply invalid_credentials_not_Ret in H.
  all: bool_simpl; destruct Hb1 as [Hh Ha]; exists a; eexists.
  all: do 6 (split; [done|]); cbv zeta.
  all: replace (w_trace w ++ _) with (w_trace w1 ++ [EvBcrypt (us_PasswordHash a1) password])
    by (by rewrite Ht, <- !app_assoc).
  - by split; [|left].
  - destruct Hm2 as [[_ Hno] _]. by split; [|right; apply Hno].
  - destruct Hm2 as [[Hyes _] _]. specialize (Hyes eq_refl). 
    apply issueTokens_Ret in Hm3 as (j & Hj & _ & Ht' & _ & Hs). rewrite FromStored_String in Hs.
    split; [done|]. eexists _, j. by split_and!.
Qed.

Lemma mintGate_Ret tenantID authTime acr j :
  mintGate c tenantID authTime acr = Ret j ->
  c_jwt c = Some j /\ Valid tenantID = true /\ 0 < authTime /\ acr <> "".
Proof.
  unfold mintGate, tenantGate. destruct (c_jwt c); [|done]. destruct (Valid tenantID); [|done].
  cbn. case_match eqn:Hb; [done|]. intros [= <-]. bool_simpl. rewrite Z.leb_gt in Hb. tauto.
Qed.

(** The gate passes: the call depends on what the store answers for the user. *)
Lemma IssueTokensForUser_unfold userID tenantID authTime acr amr w j :
  mintGate c tenantID authTime acr = Ret j ->
  IssueTokensForUser E c userID tenantID authTime acr amr w =
  let '(r, s) := UserByID (c_store c) userID (w_store w) in
  let w1 := World s (w_trace w ++ [EvStore "UserByID"]) in
  match r with
  | Ret u =>
      if negb (bool_decide (FromStored (us_TenantID u) = tenantID)) then
        (Fail (not_found "user"), w1)
      else if negb (us_Active u) then (Fail (Sentinel identity_ErrUserInactive), w1)
      else issueTokens E c userID tenantID authTime acr amr w1
  | Fail e =>
      (Fail (if errors_is e identity_ErrNotFound then not_found "user"
             else Errorf1 "identity: lookup user for mint" e), w1)
  | Panic why => (Panic why, w1)
  end.
Proof.
  intros Hg. unfold IssueTokensForUser, lift, try_catch, mbind, M_bind, store_call.
  rewrite Hg. destruct (UserByID _ _ _) as [[u|e|why] s]; cbn; [|by destruct (errors_is e _)|done].
  repeat (case_match; [done|]). done.
Qed.

(** A mint by user id is bound to the tenant the user is stored in. Tokens
    come out only for an active user whose stored tenant is the one asked for,
    signed for exactly that user, tenant, time, ACR and methods. A user of
    another tenant, active or not, is answered as a user that does not exist:
    the same error and the same trace. A deactivated user of the tenant is
    answered as such. *)
Theorem IssueTokensForUser_correct userID tenantID authTime acr amr w :
  (forall tok w', IssueTokensForUser E c userID tenantID authTime acr amr w = (Ret tok, w') ->
     exists u s j, UserByID (c_store c) userID (w_store w) = (Ret u, s) /\
       FromStored (us_TenantID u) = tenantID /\ us_Active u = true /\ c_jwt c = Some j /\
       0 < authTime /\ acr <> "" /\
       signed_access j (tk_Access tok) userID "" (us_TenantID u) "" authTime acr amr (jwt_ttl j)) /\
  (is_ret (mintGate c tenantID authTime acr) = true ->
   (forall e s, UserByID (c_store c) userID (w_store w) = (Fail e, s) ->
      errors_is e identity_ErrNotFound = true ->
      IssueTokensForUser E c userID tenantID authTime acr amr w =
      (Fail (not_found "user"), World s (w_trace w ++ [EvStore "UserByID"]))) /\
   (forall u s, UserByID (c_store c) userID (w_store w) = (Ret u, s) ->
      FromStored (us_TenantID u) <> tenantID ->
      IssueTokensForUser E c userID tenantID authTime acr amr w =
      (Fail (not_found "user"), World s (w_trace w ++ [EvStore "UserByID"]))) /\
   (forall u s, UserByID (c_store c) userID (w_store w) = (Ret u, s) ->
      FromStored (us_TenantID u) = tenantID -> us_Active u = false ->
      IssueTokensForUser E c userID tenantID authTime acr amr w =
      (Fail (Sentinel identity_ErrUserInactive), World s (w_trace w ++ [EvStore "UserByID"])))).
Proof.
  destruct (mintGate c tenantID authTime acr) as [j|e|why] eqn:Hg.
  2,3: split; [|done]; intros tok w'; unfold IssueTokensForUser, lift, mbind, M_bind;
    rewrite Hg; by intros [=].
  rewrite (IssueTokensForUser_unfold _ _ _ _ _ _ _ Hg). split.
  - intros tok w'. destruct (UserByID _ _ _) as [[u|e|why] s]; cbn; [|by intros [=]..].
    case_bool_decide as Ht; cbn; [|by intros [=]]. destruct (us_Active u) eqn:Ha; [|by intros [=]].
    cbn. intros (j' & Hj & _ & Hat & Hacr & Hs)%issueTokens_Ret.
    exists u, s, j'. rewrite <- Ht, FromStored_String in Hs. done.
  - intros _. split_and!.
    + intros e s -> ->. done.
    + intros u s -> Ht. by rewrite bool_decide_eq_false_2.
    + intros u s -> Ht ->. by rewrite bool_decide_eq_true_2.
Qed.
End Auth.

(** ** At concrete inputs *)

(** A wrong password and an unknown address. *)
Lemma Login_timing_witness :
  let login email := Login Demo.env Demo.core Demo.acme email "wrong horse" Demo.registered in
  (exists hash, compared Demo.env Demo.core Demo.acme "BOB@acme.com" "wrong horse" "h:stub password" hash (w_store Demo.registered) /\
     w_trace (login "BOB@acme.com").2 = w_trace Demo.registered ++
     refusal_events Demo.env Demo.core Demo.acme "BOB@acme.com" "wrong horse" hash) /\
  (exists hash, compared Demo.env Demo.core Demo.acme "eve@acme.com" "wrong horse" "h:stub password" hash (w_store Demo.registered) /\
     w_trace (login "eve@acme.com").2 = w_trace Demo.registered ++
     refusal_events Demo.env Demo.core Demo.acme "eve@acme.com" "wrong horse" hash).
Proof.
  split.
  - apply (proj1 (Login_timing Demo.env Demo.core Demo.acme "BOB@acme.com" "wrong horse"
      Demo.registered _ _ _ eq_refl (surjective_pairing _))). by vm_compute.
  - apply (proj1 (Login_timing Demo.env Demo.core Demo.acme "eve@acme.com" "wrong horse"
      Demo.registered _ _ _ eq_refl (surjective_pairing _))). by vm_compute.
Defined.

Definition demo_login :=
  Login Demo.env Demo.core Demo.acme "BOB@acme.com" "correct horse" Demo.registered.
Definition demo_user : User :=
  match demo_login.1 with Ret (user, _) => user | _ => User_zero end.
Definition demo_tokens : go Tokens :=
  match demo_login.1 with Ret (_, tok) => tok | _ => Fail (AppError "") end.

Lemma demo_login_ok : demo_login = (Ret (demo_user, demo_tokens), demo_login.2).
Proof.
  assert (is_ret demo_login.1 = true) as H by (vm_compute; reflexivity).
  unfold demo_user, demo_tokens. by destruct demo_login as [[[u tok]| |] w].
Qed.

Lemma Login_sound_witness :
  us_ID demo_user = "ii" /\ us_Active demo_user = true /\ us_PasswordHash demo_user <> "".
Proof.
  destruct (Login_sound Demo.env Demo.core Demo.acme "BOB@acme.com" "correct horse"
    Demo.registered demo_user demo_tokens demo_login.2 demo_login_ok)
    as (e & s & _ & _ & _ & Ha & Hh & _).
  split; [vm_compute; reflexivity|exact (conj Ha Hh)].
Defined.

(** Bob, asked for in another tenant. *)
Lemma IssueTokensForUser_correct_witness :
  (IssueTokensForUser Demo.env Demo.core "ii" (New "globex") 1 "acr" ["otp"] Demo.registered).1 =
  Fail (not_found "user").
Proof.
  destruct (IssueTokensForUser_correct Demo.env Demo.core "ii" (New "globex") 1 "acr" ["otp"]
    Demo.registered) as [_ H].
  destruct (H eq_refl) as (_ & Hmiss & _).
  rewrite (Hmiss (user_at (w_store Demo.registered) "ii") (w_store Demo.registered));
    [reflexivity|vm_compute; reflexivity|vm_compute; discriminate].
Defined.
