(* ===== verification/IdentityLogic.v ===== *)
(** * A program logic for the accounts service

    [hoare pre m post]: run from a world where the store's invariant and [pre]
    hold, [m] keeps the invariant whatever it ends in, changes the store only
    as [evolves] allows, and establishes [post] when it returns. Proved for
    every operation of [Core] over the reference store; [IdentitySessions]
    states what follows. *)

From S2P Require Import Prelude Tenant Bytes World Crypto Identity IdentityAuth.

#[local] Open Scope string_scope.
#[local] Open Scope list_scope.
#[local] Open Scope Z_scope.

(** ** Computations that leave the store alone *)

Lemma quiet_IssueAccess E j userID tenantID authTime acr amr :
  quiet (S := MemStore) (IssueAccess E j userID tenantID authTime acr amr).
Proof. unfold IssueAccess, issueAccess, issueAccessWithActor, now. quiet_tac. Qed.

Lemma quiet_NewRefreshToken E : quiet (S := MemStore) (NewRefreshToken E).
Proof. unfold NewRefreshToken, rand_read. quiet_tac. Qed.

(** ** The invariant *)

(** The store holds a user [id] of the tenant [t]. *)
Definition row (id t : string) (m : MemStore) : Prop :=
  exists u, usersByID m !! id = Some u /\ us_TenantID u = t.

(** Every session belongs to a user stored in the session's tenant, and says
    when and how that user authenticated. *)
Definition session_ok (m : MemStore) (s : RefreshSession) : Prop :=
  row (se_UserID s) (se_TenantID s) m /\ 0 < Unix (se_AuthTime s) /\ se_ACR s <> "".

Section Logic.
Context (E : Env).

(** [id] was drawn by one of the first [n] effects. *)
Definition drawn (n : nat) (id : string) : Prop :=
  exists tr, (length tr < n)%nat /\ id = env_newID E tr.

Record store_ok (n : nat) (m : MemStore) : Prop := {
  ok_user : forall id u, usersByID m !! id = Some u -> us_ID u = id /\ drawn n id;
  ok_email : forall k id, emailToID m !! k = Some id ->
    exists u, usersByID m !! id = Some u /\ k = tenantKey (us_TenantID u) (us_Email u);
  ok_session : forall id s, sessions m !! id = Some s ->
    se_ID s = id /\ drawn n id /\ session_ok m s;
  ok_hash : forall h id, hashToID m !! h = Some id ->
    exists s, sessions m !! id = Some s /\ se_TokenHash s = h;
  ok_invitation : forall id i, invitations m !! id = Some i -> in_ID i = id /\ drawn n id;
  ok_identity : forall id i, identities m !! id = Some i ->
    id_ID i = id /\ drawn n id /\ row (id_UserID i) (id_TenantID i) m;
  ok_subject : forall id1 id2 i1 i2,
    identities m !! id1 = Some i1 -> identities m !! id2 = Some i2 ->
    same_subject (id_TenantID i2) (id_Provider i2) (id_Subject i2) i1 = true -> id1 = id2
}.

Definition ok (w : world MemStore) : Prop := store_ok (length (w_trace w)) (w_store w).

(** What a session row may become: itself, or itself revoked. *)
Definition session_evolves (s s' : RefreshSession) : Prop :=
  s' = s \/ (Revoked s = false /\ Revoked s' = true /\ exists t, s' = set_RevokedAt s t).

(** An accepted invitation is not written again. *)
Definition accepted_kept (m m' : MemStore) : Prop :=
  forall id i, invitations m !! id = Some i -> Pending i = false -> invitations m' !! id = Some i.

(** No session is lost and each is itself or revoked. *)
Definition sessions_kept (m m' : MemStore) : Prop :=
  forall id s, sessions m !! id = Some s ->
  exists s', sessions m' !! id = Some s' /\ session_evolves s s'.

Record evolves (w w' : world MemStore) : Prop := {
  ev_trace : (length (w_trace w) <= length (w_trace w'))%nat;
  ev_row : forall id t, row id t (w_store w) -> row id t (w_store w');
  ev_session : sessions_kept (w_store w) (w_store w');
  ev_invitation : accepted_kept (w_store w) (w_store w')
}.

Lemma sessions_same (m m' : MemStore) : sessions m' = sessions m -> sessions_kept m m'.
Proof. intros Hm id s Hs. exists s. rewrite Hm. split; [done|by left]. Qed.

Lemma invitations_same (m m' : MemStore) : invitations m' = invitations m -> accepted_kept m m'.
Proof. intros Hm id i Hi _. by rewrite Hm. Qed.

#[global] Instance evolves_refl : Reflexive evolves.
Proof. intros w. split; [done..|by apply sessions_same|by apply invitations_same]. Qed.

Lemma session_evolves_trans s1 s2 s3 :
  session_evolves s1 s2 -> session_evolves s2 s3 -> session_evolves s1 s3.
Proof.
  intros [->|(H1 & H2 & t & ->)] [->|(H3 & H4 & t' & ->)];
    [by left|right; eauto..|congruence].
Qed.

#[global] Instance evolves_trans : Transitive evolves.
Proof.
  intros w1 w2 w3 [T1 R1 S1 I1] [T2 R2 S2 I2]. split; [lia|auto| |by intros ? ? ? ?; auto].
  intros id s Hs. destruct (S1 id s Hs) as (s2 & H2 & E2), (S2 id s2 H2) as (s3 & H3 & E3).
  eauto using session_evolves_trans.
Qed.

(** ** The triples *)

Local Abbreviation assert := (world MemStore -> Prop).

Definition hoare {A} (pre : assert) (m : M MemStore A) (post : A -> assert) : Prop :=
  forall w r w', ok w -> pre w -> m w = (r, w') ->
    ok w' /\ evolves w w' /\ (forall a, r = Ret a -> post a w').

(** What an evolution cannot falsify. *)
Definition stable (F : assert) : Prop := forall w w', evolves w w' -> F w -> F w'.

Lemma stable_row id t : stable (fun w => row id t (w_store w)).
Proof. intros w w' H. apply (ev_row _ _ H). Qed.
Lemma stable_pure (P : Prop) : stable (fun _ => P).
Proof. by intros w w' _. Qed.

Lemma hoare_snd {A} (m : M MemStore A) post w :
  hoare (fun _ => True) m post -> ok w -> ok (m w).2 /\ evolves w (m w).2.
Proof.
  intros Hm Hok. destruct (m w) as [r w'] eqn:Hrun.
  by destruct (Hm w r w' Hok I Hrun) as (? & ? & _).
Qed.

Lemma hoare_conseq {A} (pre pre' : assert) (m : M MemStore A) (post post' : A -> assert) :
  hoare pre' m post' -> (forall w, ok w -> pre w -> pre' w) ->
  (forall a w, ok w -> post' a w -> post a w) -> hoare pre m post.
Proof.
  intros H Hpre Hpost w r w' Hok Hp Hm. destruct (H w r w') as (Hok' & Hev & Hr); auto.
Qed.

Lemma hoare_bind {A B} pre (m : M MemStore A) mid (k : A -> M MemStore B) post :
  hoare pre m mid -> (forall a, hoare (mid a) (k a) post) -> hoare pre (m ≫= k) post.
Proof.
  intros H1 H2 w r w' Hok Hp [(a & w1 & Hm & Hk)|[(e & Hm & ->)|(e & Hm & ->)]]%bind_inv.
  - destruct (H1 _ _ _ Hok Hp Hm) as (Hok1 & Hev1 & Hr1).
    destruct (H2 a _ _ _ Hok1 (Hr1 _ eq_refl) Hk) as (? & ? & ?). split_and!; [done|by etrans|done].
  - destruct (H1 _ _ _ Hok Hp Hm) as (? & ? & _). done.
  - destruct (H1 _ _ _ Hok Hp Hm) as (? & ? & _). done.
Qed.

Lemma hoare_try_catch {A B} pre (m : M MemStore A) mid on_err (k : A -> M MemStore B) post :
  hoare pre m mid -> (forall e, hoare (fun _ => True) (on_err e) post) ->
  (forall a, hoare (mid a) (k a) post) -> hoare pre (try_catch m on_err k) post.
Proof.
  intros H1 He H2 w r w' Hok Hp [(a & w1 & Hm & Hk)|[(e & w1 & Hm & Hk)|(e & Hm & ->)]]%try_catch_inv;
    destruct (H1 _ _ _ Hok Hp Hm) as (Hok1 & Hev1 & Hr1).
  - destruct (H2 a _ _ _ Hok1 (Hr1 _ eq_refl) Hk) as (? & ? & ?). split_and!; [done|by etrans|done].
  - destruct (He e _ _ _ Hok1 I Hk) as (? & ? & ?). split_and!; [done|by etrans|done].
  - done.
Qed.

(** The same when the handler needs what held before. *)
Lemma hoare_try_catch_stable {A B} pre (m : M MemStore A) mid on_err (k : A -> M MemStore B) post :
  stable pre -> hoare pre m mid -> (forall e, hoare pre (on_err e) post) ->
  (forall a, hoare (mid a) (k a) post) -> hoare pre (try_catch m on_err k) post.
Proof.
  intros Hst H1 He H2 w r w' Hok Hp [(a & w1 & Hm & Hk)|[(e & w1 & Hm & Hk)|(e & Hm & ->)]]%try_catch_inv;
    destruct (H1 _ _ _ Hok Hp Hm) as (Hok1 & Hev1 & Hr1).
  - destruct (H2 a _ _ _ Hok1 (Hr1 _ eq_refl) Hk) as (? & ? & ?). split_and!; [done|by etrans|done].
  - destruct (He e _ _ _ Hok1 (Hst _ _ Hev1 Hp) Hk) as (? & ? & ?). split_and!; [done|by etrans|done].
  - done.
Qed.

Lemma hoare_wrap {A} pre f (m : M MemStore A) post :
  hoare pre m post -> hoare pre (wrap f m) post.
Proof.
  intros H w r w' Hok Hp (r1 & Hm & ->)%wrap_inv.
  destruct (H _ _ _ Hok Hp Hm) as (? & ? & Hr). split_and!; [done..|].
  intros a Ha. apply wrap_err_Ret_inv in Ha. auto.
Qed.

Lemma hoare_fail {A} pre e (post : A -> assert) : hoare pre (fail e) post.
Proof. by intros w r w' Hok Hp [-> ->]%fail_inv. Qed.

Lemma hoare_mret {A} pre (a : A) (post : A -> assert) :
  (forall w, pre w -> post a w) -> hoare pre (mret a) post.
Proof. intros H w r w' Hok Hp [-> ->]%mret_inv. split_and!; [done..|]. intros ? [= <-]. auto. Qed.

Lemma hoare_lift {A} pre (m : go A) :
  hoare pre (lift m) (fun a w => pre w /\ m = Ret a).
Proof. intros w r w' Hok Hp [-> ->]%lift_inv. done. Qed.

(** An effect outside the store. *)
Lemma drawn_grow n n' id : (n <= n')%nat -> drawn n id -> drawn n' id.
Proof. intros Hn (tr & Hl & He). exists tr. split; [lia|done]. Qed.

Lemma store_ok_mono n n' m : (n <= n')%nat -> store_ok n m -> store_ok n' m.
Proof.
  intros Hn [H1 H2 H3 H4 H5 H6 H7]. split; [|done| |done| | |done].
  - intros id u Hu. destruct (H1 id u Hu). eauto using drawn_grow.
  - intros id s Hs. destruct (H3 id s Hs) as (? & ? & ?). eauto using drawn_grow.
  - intros id s Hs. destruct (H5 id s Hs). eauto using drawn_grow.
  - intros id s Hs. destruct (H6 id s Hs) as (? & ? & ?). eauto using drawn_grow.
Qed.

Lemma grow_trace (w : world MemStore) l :
  ok w -> ok (World (w_store w) (w_trace w ++ l)) /\ evolves w (World (w_store w) (w_trace w ++ l)).
Proof.
  intros Hok. split.
  - eapply store_ok_mono; [|exact Hok]. cbn. rewrite length_app. lia.
  - split; cbn; [rewrite length_app; lia|done|by apply sessions_same|by apply invitations_same].
Qed.

(** A call of the store, from what the operation does to it. *)
Lemma hoare_store_call {A} pre method (op : MemStore -> go A * MemStore) post :
  (forall w r m, ok w -> pre w -> op (w_store w) = (r, m) ->
     let w' := World m (w_trace w ++ [EvStore method]) in
     ok w' /\ evolves w w' /\ forall a, r = Ret a -> post a w') ->
  hoare pre (store_call method op) post.
Proof.
  intros H w r w' Hok Hp [Hop Ht]%store_call_inv. specialize (H w r (w_store w') Hok Hp Hop).
  destruct w' as [m tr]. cbn in *. by subst tr.
Qed.

Lemma hoare_quiet {A} pre (m : M MemStore A) : stable pre -> quiet m -> hoare pre m (fun _ => pre).
Proof.
  intros Hst Hq w r w' Hok Hp Hm. destruct (Hq w r w' Hm) as [l ->].
  destruct (grow_trace w l Hok) as [? Hev]. split_and!; [done..|]. intros a _. eauto.
Qed.

(** ** The writes of the reference store *)

(** An identifier that names nothing in the store yet. *)
Definition fresh (id : string) (w : world MemStore) : Prop :=
  drawn (length (w_trace w)) id /\
  usersByID (w_store w) !! id = None /\ sessions (w_store w) !! id = None /\
  invitations (w_store w) !! id = None /\ identities (w_store w) !! id = None.

(** Identifiers do not repeat. *)
Hypothesis newID_unique :
  forall tr1 tr2, length tr1 <> length tr2 -> env_newID E tr1 <> env_newID E tr2.

Lemma not_drawn_yet tr : ~ drawn (length tr) (env_newID E tr).
Proof. intros (tr' & Hl & He). apply (newID_unique tr tr'); [lia|done]. Qed.

Lemma hoare_newID pre : stable pre -> hoare pre (newID E) (fun id w => pre w /\ fresh id w).
Proof.
  intros Hst w r w' Hok Hp [-> ->]%observe_inv.
  destruct (grow_trace w [EvNewID] Hok) as [Hok' Hev]. split_and!; [done..|].
  intros a [= <-]. split; [eauto|]. destruct Hok as [Hu _ Hs _ Hi Hid _]. split_and!; cbn [w_store w_trace].
  - exists (w_trace w). rewrite length_app. cbn. split; [lia|done].
  - destruct (usersByID _ !! _) as [u|] eqn:He; [|done].
    destruct (Hu _ _ He) as [_ Hd]. by apply not_drawn_yet in Hd.
  - destruct (sessions _ !! _) as [u|] eqn:He; [|done].
    destruct (Hs _ _ He) as (_ & Hd & _). by apply not_drawn_yet in Hd.
  - destruct (invitations _ !! _) as [u|] eqn:He; [|done].
    destruct (Hi _ _ He) as [_ Hd]. by apply not_drawn_yet in Hd.
  - destruct (identities _ !! _) as [u|] eqn:He; [|done].
    destruct (Hid _ _ He) as (_ & Hd & _). by apply not_drawn_yet in Hd.
Qed.

Lemma fresh_grow id (w : world MemStore) ev :
  fresh id w -> fresh id (World (w_store w) (w_trace w ++ [ev])).
Proof.
  intros ((tr & Hl & He) & Hf). split; [|done].
  exists tr. cbn. rewrite length_app. split; [lia|done].
Qed.

Lemma ok_later w : ok w -> store_ok (Datatypes.S (length (w_trace w))) (w_store w).
Proof. apply store_ok_mono. lia. Qed.

(** A write that keeps the rows and evolves the sessions. *)
Lemma hoare_write {A} pre method (op : MemStore -> go A * MemStore) post :
  (forall w r m, ok w -> pre w -> op (w_store w) = (r, m) ->
     store_ok (Datatypes.S (length (w_trace w))) m /\
     (forall id t, row id t (w_store w) -> row id t m) /\
     sessions_kept (w_store w) m /\ accepted_kept (w_store w) m /\
     (forall a, r = Ret a -> post m)) ->
  hoare pre (store_call method op) (fun _ w => post (w_store w)).
Proof.
  intros H. apply hoare_store_call. intros w r m Hok Hp Hop.
  destruct (H w r m Hok Hp Hop) as (Hok' & Hrow & Hses & Hinv & Hpost). cbn. split_and!; [| |done].
  - eapply store_ok_mono; [|exact Hok']. cbn. rewrite length_app. cbn. lia.
  - split; [cbn; rewrite length_app; lia|done..].
Qed.

(** The identities stay as they are and no user loses their row. *)
Lemma identities_kept n (m m' : MemStore) :
  identities m' = identities m -> (forall id t, row id t m -> row id t m') -> store_ok n m ->
  forall id i, identities m' !! id = Some i ->
    id_ID i = id /\ drawn n id /\ row (id_UserID i) (id_TenantID i) m'.
Proof. intros Hi Hr H id i. rewrite Hi. intros (? & ? & ?)%(ok_identity _ _ H). auto. Qed.

Lemma session_ok_mono (m m' : MemStore) s :
  (forall id t, row id t m -> row id t m') -> session_ok m s -> session_ok m' s.
Proof. intros H (Hr & ? & ?). split; auto. Qed.

(** A row rewritten under its id, tenant and address. *)
Lemma update_user_ok n m id u u' :
  usersByID m !! id = Some u -> us_ID u' = us_ID u -> us_TenantID u' = us_TenantID u ->
  us_Email u' = us_Email u -> store_ok n m ->
  let m' := with_users m (<[id := u']> (usersByID m)) (emailToID m) in
  store_ok n m' /\ (forall id' t, row id' t m -> row id' t m').
Proof.
  intros Hu Hid Hten Hem Hok m'. pose proof Hok as [H1 H2 H3 H4 H5 H6 H7].
  assert (forall id' t, row id' t m -> row id' t m') as Hrow.
  { intros id' t (v & Hv & Ht). destruct (decide (id = id')) as [<-|Hne].
    - exists u'. split; [apply lookup_insert_eq|]. assert (v = u) as -> by congruence. congruence.
    - exists v. split; [|done]. cbn. by rewrite lookup_insert_ne. }
  split; [|done]. split; [cbn|cbn|cbn|done|done|exact (identities_kept n m m' eq_refl Hrow Hok)|done].
  - intros id' v [[<- <-]|[Hne Hv]]%lookup_insert_Some; [|eauto]. rewrite Hid. exact (H1 id u Hu).
  - intros k id' Hk. destruct (H2 k id' Hk) as (v & Hv & ->).
    destruct (decide (id = id')) as [<-|Hne].
    + exists u'. rewrite lookup_insert_eq. assert (v = u) as -> by congruence. by rewrite Hten, Hem.
    + exists v. by rewrite lookup_insert_ne.
  - intros id' s Hs. destruct (H3 id' s Hs) as (? & ? & ?). eauto using session_ok_mono.
Qed.

(** The account both ways of creating one write. *)
Definition insert_user (u : NewUser) (m : MemStore) : MemStore :=
  with_users m
    (<[nu_ID u := MkUser (nu_ID u) (nu_TenantID u) (nu_Email u) (nu_PasswordHash u) true false
         (nu_CreatedAt u)]> (usersByID m))
    (<[tenantKey (nu_TenantID u) (nu_Email u) := nu_ID u]> (emailToID m)).

Lemma insert_user_ok n m u :
  usersByID m !! nu_ID u = None -> drawn n (nu_ID u) -> store_ok n m ->
  store_ok n (insert_user u m) /\ row (nu_ID u) (nu_TenantID u) (insert_user u m) /\
  (forall id t, row id t m -> row id t (insert_user u m)).
Proof.
  intros Hnone Hd Hok. pose proof Hok as [H1 H2 H3 H4 H5 H6 H7].
  assert (forall id t, row id t m -> row id t (insert_user u m)) as Hrows.
  { intros id t (v & Hv & Ht). exists v. split; [|done]. cbn.
    rewrite lookup_insert_ne; [done|]. intros <-. congruence. }
  split_and!; [|by eexists; split; [apply lookup_insert_eq|]|done].
  split; [cbn|cbn| |done|done|exact (identities_kept _ m (insert_user u m) eq_refl Hrows Hok)|done].
  - by intros id v [[<- <-]|[Hne Hv]]%lookup_insert_Some; [|eauto].
  - intros k id [[<- <-]|[Hne Hv]]%lookup_insert_Some.
    + eexists. split; [apply lookup_insert_eq|done].
    + destruct (H2 k id Hv) as (v & Hl & Hk). exists v. split; [|done].
      rewrite lookup_insert_ne; [done|]. intros <-. congruence.
  - intros id s Hs. destruct (H3 id s Hs) as (? & ? & ?). eauto using session_ok_mono.
Qed.

Lemma hoare_CreateUser u first :
  hoare (fresh (nu_ID u)) (store_call "CreateUser" (Mem_CreateUser u first))
    (fun _ w => row (nu_ID u) (nu_TenantID u) (w_store w)).
Proof.
  apply hoare_write. intros w r m Hok (Hd & Hfu & _) Hop. unfold Mem_CreateUser in Hop.
  pose proof (ok_later w Hok) as Hok'.
  destruct (emailToID (w_store w) !! _) eqn:Hem; injection Hop as <- <-.
  { split_and!; [done..|by apply sessions_same|by apply invitations_same|done]. }
  destruct (insert_user_ok (Datatypes.S (length (w_trace w))) (w_store w) u Hfu
    ltac:(eapply drawn_grow, Hd; lia) Hok') as (? & ? & ?).
  split_and!; [done|done|by apply sessions_same|by apply invitations_same|done].
Qed.

Lemma hoare_CreateRefreshSession s :
  hoare (fun w => fresh (se_ID s) w /\ session_ok (w_store w) s)
    (store_call "CreateRefreshSession" (Mem_CreateRefreshSession s)) (fun _ _ => True).
Proof.
  apply (hoare_write _ _ _ (fun _ => True)). intros w r m Hok ((Hd & Hfu & Hfs & _) & Hs) [= <- <-].
  pose proof (ok_later w Hok) as [H1 H2 H3 H4 H5 H6 H7].
  split_and!; [split; [done|done| | |done|done|done]|done| |by apply invitations_same|done]; cbn.
  - intros id s' [[<- <-]|[Hne Hv]]%lookup_insert_Some; [|eauto].
    split_and!; [done|eapply drawn_grow, Hd; lia|exact Hs].
  - intros h id [[<- <-]|[Hne Hv]]%lookup_insert_Some.
    + exists s. split; [apply lookup_insert_eq|done].
    + destruct (H4 h id Hv) as (s' & Hl & Hk). exists s'. split; [|done].
      rewrite lookup_insert_ne; [done|]. intros <-. congruence.
  - intros id s' Hl. exists s'. split; [|by left].
    cbn. rewrite lookup_insert_ne; [done|]. intros <-. congruence.
Qed.

(** Revoking never touches anything but [RevokedAt]. *)
Lemma revoke_session_ok m s t : session_ok m s -> session_ok m (set_RevokedAt s t).
Proof. by intros (? & ? & ?). Qed.

Lemma revoke_evolves s t : t <> time_zero -> Revoked s = false ->
  session_evolves s (set_RevokedAt s t).
Proof.
  intros Ht Hr. right. split_and!; [done| |eauto]. unfold Revoked, IsZero_time. cbn.
  by apply negb_true_iff, Z.eqb_neq.
Qed.

Lemma revoke_all_ok n m sel t : t <> time_zero -> store_ok n m ->
  store_ok n (revoke_all sel t m) /\
  sessions_kept m (revoke_all sel t m).
Proof.
  intros Ht [H1 H2 H3 H4 H5 H6 H7]. split; [split; [done|done| | |done|done|done]|]; cbn.
  - intros id s (s0 & <- & Hl)%lookup_fmap_Some. destruct (H3 id s0 Hl) as (? & ? & ?).
    case_match; [|done]. split_and!; [done..|]. by apply revoke_session_ok.
  - intros h id Hl. destruct (H4 h id Hl) as (s & Hs & Hh). rewrite lookup_fmap, Hs. cbn.
    eexists. split; [done|]. by case_match.
  - intros id s Hs. cbn. rewrite lookup_fmap, Hs. cbn. eexists. split; [done|].
    destruct (sel s); cbn; [|by left]. destruct (Revoked s) eqn:Hr; cbn; [by left|].
    by apply revoke_evolves.
Qed.

Lemma hoare_revoke id t : t <> time_zero ->
  hoare (fun _ => True) (store_call "RevokeRefreshSession" (Mem_RevokeRefreshSession id t))
    (fun _ _ => True).
Proof.
  intros Ht. apply (hoare_write _ _ _ (fun _ => True)). intros w r m Hok _ Hop.
  unfold Mem_RevokeRefreshSession in Hop. pose proof (ok_later w Hok) as Hok'.
  destruct (sessions (w_store w) !! id) as [s|] eqn:Hs; [destruct (Revoked s) eqn:Hr|];
    injection Hop as <- <-;
    [by split_and!; auto using sessions_same, invitations_same| |
     by split_and!; auto using sessions_same, invitations_same].
  destruct Hok' as [H1 H2 H3 H4 H5 H6 H7].
  split_and!; [split; [done|done|cbn|cbn|done|done|done]|done|cbn|by apply invitations_same|done].
  - intros id' s' [[<- <-]|[Hne Hl]]%lookup_insert_Some; [|eauto].
    destruct (H3 id s Hs) as (? & ? & ?). split_and!; [done..|]. by apply revoke_session_ok.
  - intros h id' Hl. destruct (H4 h id' Hl) as (s' & Hs' & Hh).
    destruct (decide (id = id')) as [<-|Hne].
    + eexists. rewrite lookup_insert_eq. split; [done|]. by assert (s' = s) as -> by congruence.
    + exists s'. by rewrite lookup_insert_ne.
  - intros id' s' Hl. cbn. destruct (decide (id = id')) as [<-|Hne].
    + eexists. rewrite lookup_insert_eq. split; [done|].
      assert (s' = s) as -> by congruence. by apply revoke_evolves.
    + exists s'. rewrite lookup_insert_ne by done. split; [done|by left].
Qed.

Lemma hoare_revoke_all method sel t : t <> time_zero ->
  hoare (fun _ => True) (store_call method (fun m => (Ret tt, revoke_all sel t m)))
    (fun _ _ => True).
Proof.
  intros Ht. apply (hoare_write _ _ _ (fun _ => True)). intros w r m Hok _ [= <- <-].
  destruct (revoke_all_ok _ _ sel t Ht (ok_later w Hok)) as [? ?].
  split_and!; [done..|by apply invitations_same|done].
Qed.

(** An invitation that has been accepted is not pending. *)
Lemma set_AcceptedAt_done i t : t <> time_zero -> Pending (set_AcceptedAt i t) = false.
Proof. intros Ht. unfold Pending, IsZero_time. cbn. by apply Z.eqb_neq. Qed.

Lemma hoare_CreateInvitation i :
  hoare (fresh (in_ID i)) (store_call "CreateInvitation" (Mem_CreateInvitation i))
    (fun _ _ => True).
Proof.
  apply (hoare_write _ _ _ (fun _ => True)). intros w r m Hok (Hd & _ & _ & Hf & _) Hop.
  unfold Mem_CreateInvitation in Hop. pose proof (ok_later w Hok) as Hok'.
  destruct (invHashToID _ !! _); injection Hop as <- <-;
    [by split_and!; auto using sessions_same, invitations_same|].
  destruct Hok' as [H1 H2 H3 H4 H5 H6 H7].
  split_and!; [split; [done|done|done|done|cbn|done|done]|done|by apply sessions_same| |done].
  - intros id i' [[<- <-]|[Hne Hv]]%lookup_insert_Some; [|eauto].
    split; [done|]. eapply drawn_grow, Hd. lia.
  - intros id i' Hi _. cbn. rewrite lookup_insert_ne; [done|]. intros <-. congruence.
Qed.

Lemma hoare_MarkAccepted id t : t <> time_zero ->
  hoare (fun _ => True) (store_call "MarkAccepted" (Mem_MarkAccepted id t))
    (fun _ w => exists i, invitations (w_store w) !! id = Some i /\ Pending i = false).
Proof.
  intros Ht. apply (hoare_write _ _ _
    (fun m => exists i, invitations m !! id = Some i /\ Pending i = false)).
  intros w r m Hok _ Hop.
  unfold Mem_MarkAccepted in Hop. pose proof (ok_later w Hok) as Hok'.
  destruct (invitations (w_store w) !! id) as [i|] eqn:Hi;
    [destruct (IsZero_time (in_AcceptedAt i)) eqn:Hz|]; injection Hop as <- <-;
    [| by split_and!; auto using sessions_same, invitations_same..].
  destruct Hok' as [H1 H2 H3 H4 H5 H6 H7].
  split_and!; [split; [done|done|done|done|cbn|done|done]|done|by apply sessions_same| |].
  - intros id' i' [[<- <-]|[Hne Hv]]%lookup_insert_Some; [|eauto].
    destruct (H5 id i Hi). done.
  - intros id' i' Hl Hp. cbn. destruct (decide (id = id')) as [<-|Hne].
    + unfold Pending in Hp. congruence.
    + by rewrite lookup_insert_ne.
  - intros _ _. eexists. split; [apply lookup_insert_eq|by apply set_AcceptedAt_done].
Qed.

(** ** The operations of Core *)

Hypothesis clock_after_year_1 : forall tr, env_now E tr <> time_zero.
Context (c : Core MemStore).
Hypothesis c_mem : c_store c = Mem_store.

Lemma hoare_now_nonzero pre : stable pre ->
  hoare pre (now E) (fun n w => pre w /\ n <> time_zero).
Proof.
  intros Hst w r w' Hok Hp [-> ->]%observe_inv. destruct (grow_trace w [EvNow] Hok) as [? Hev].
  split_and!; [done..|]. intros a [= <-]. split; [eauto|done].
Qed.

Lemma hoare_issueTokens userID tenantID authTime acr amr :
  hoare (fun w => row userID (ID_String tenantID) (w_store w))
    (issueTokens E c userID tenantID authTime acr amr) (fun _ _ => True).
Proof.
  set (P := fun w : world MemStore =>
    row userID (ID_String tenantID) (w_store w) /\ 0 < authTime /\ acr <> "").
  assert (stable P) as HP by (intros w w' Hev [? ?]; split; [by eapply ev_row|done]).
  unfold issueTokens. rewrite c_mem.
  eapply hoare_bind with (mid := fun _ => P).
  { eapply hoare_conseq; [apply (hoare_lift (fun w => row userID (ID_String tenantID) (w_store w)))|done|].
    intros j w _ [? (_ & _ & ? & ?)%mintGate_Ret]. done. }
  intros j. eapply hoare_bind.
  { apply (hoare_quiet P _ HP). apply quiet_wrap, quiet_IssueAccess. }
  intros access. case_match eqn:Httl; [by apply hoare_mret|].
  eapply hoare_bind; [apply (hoare_quiet P _ HP), quiet_wrap, quiet_NewRefreshToken|].
  intros refresh. eapply hoare_bind; [apply (hoare_quiet P _ HP); quiet_tac|].
  intros hash. eapply hoare_bind; [apply (hoare_quiet P _ HP); unfold now; quiet_tac|].
  intros n. eapply hoare_bind; [by apply hoare_newID|].
  intros id. eapply hoare_bind.
  - apply hoare_wrap. eapply hoare_conseq; [apply hoare_CreateRefreshSession| |done].
    intros w _ [(Hrow & Ht & Ha) Hf]. split; [done|]. split_and!; [done| |done].
    cbn. by rewrite Unix_time_Unix.
  - intros u. by apply hoare_mret.
Qed.

Local Abbreviation keeps m := (hoare (fun _ => True) m (fun _ _ => True)).

Lemma stable_True : stable (fun _ => True).
Proof. done. Qed.

Lemma keeps_quiet {A} (m : M MemStore A) : quiet m -> keeps m.
Proof. apply hoare_quiet, stable_True. Qed.

Lemma hoare_True {A} pre (m : M MemStore A) : keeps m -> hoare pre m (fun _ _ => True).
Proof. intros H. eapply hoare_conseq; [exact H|done..]. Qed.

(** A user read by id is stored under its tenant. *)
Lemma hoare_UserByID userID :
  hoare (fun _ => True) (store_call "UserByID" (Mem_UserByID userID))
    (fun u w => row userID (us_TenantID u) (w_store w)).
Proof.
  apply hoare_store_call. intros w r m Hok _ Hop. unfold Mem_UserByID in Hop.
  injection Hop as <- <-. destruct (grow_trace w [EvStore "UserByID"] Hok). split_and!; [done..|].
  intros u Hu. destruct (usersByID (w_store w) !! userID) as [v|] eqn:Hv; [|done].
  injection Hu as ->. by exists u.
Qed.

(** A user found by address is stored under its own id. *)
Lemma hoare_UserByEmail tenantID email :
  hoare (fun _ => True) (store_call "UserByEmail" (Mem_UserByEmail tenantID email))
    (fun u w => row (us_ID u) (us_TenantID u) (w_store w)).
Proof.
  apply hoare_store_call. intros w r m Hok _ Hop. unfold Mem_UserByEmail in Hop.
  injection Hop as <- <-. destruct (grow_trace w [EvStore "UserByEmail"] Hok). split_and!; [done..|].
  intros u Hu. destruct (emailToID (w_store w) !! _) as [id|] eqn:He; [|done]. injection Hu as <-.
  destruct (ok_email _ _ Hok _ _ He) as (v & Hv & _). unfold user_at. rewrite Hv.
  destruct (ok_user _ _ Hok _ _ Hv) as [<- _]. by exists v.
Qed.

Lemma keeps_Register tenantID email password : keeps (Register E c tenantID email password).
Proof.
  unfold Register.
  eapply hoare_bind; [apply keeps_quiet; quiet_tac|]. intros normalised.
  eapply hoare_bind; [apply keeps_quiet; quiet_tac|]. intros u.
  eapply hoare_bind; [apply keeps_quiet; unfold HashPassword; quiet_tac|]. intros hash.
  eapply hoare_bind.
  { apply keeps_quiet, quiet_wrap. unfold countUsers. rewrite c_mem. apply quiet_bind; [quiet_tac|].
    intros u'. by apply quiet_read. }
  intros count. eapply hoare_bind; [by apply hoare_newID|]. intros id.
  eapply hoare_bind with (mid := fun _ w => fresh id w).
  { intros w r w' Hok [_ Hf] [-> ->]%observe_inv. destruct (grow_trace w [EvNow] Hok).
    split_and!; [done..|]. intros a _. by apply fresh_grow. }
  intros created. eapply hoare_bind.
  { apply hoare_wrap. rewrite c_mem. apply (hoare_CreateUser (MkNewUser _ _ _ _ _)). }
  intros v. eapply hoare_bind; [apply hoare_quiet; [apply stable_row|destruct (c_OnRegistered c); quiet_tac]|].
  intros v'. eapply hoare_bind; [apply hoare_quiet; [apply stable_row|unfold now; quiet_tac]|].
  intros t. eapply hoare_bind; [|by intros; apply hoare_mret].
  eapply hoare_conseq; [apply hoare_issueTokens| |done]. intros w _ Hr. by rewrite FromStored_String.
Qed.

Lemma quiet_VerifyPassword hash password : quiet (S := MemStore) (VerifyPassword E hash password).
Proof. unfold VerifyPassword. quiet_tac. Qed.

Lemma quiet_invalid_credentials {A} password : quiet (S := MemStore) (invalid_credentials (A := A) E password).
Proof. unfold invalid_credentials, ignore_err, VerifyStub. quiet_tac. Qed.

Lemma keeps_Login tenantID email password : keeps (Login E c tenantID email password).
Proof.
  unfold Login. destruct (NormaliseEmail E email) as [e| |].
  2: apply keeps_quiet, quiet_invalid_credentials. 2: apply keeps_quiet; quiet_tac.
  eapply hoare_bind; [apply keeps_quiet; unfold allowLogin; quiet_tac|].
  intros [wait|]; [apply hoare_fail|].
  eapply hoare_try_catch.
  - unfold userByEmail. rewrite c_mem.
    eapply hoare_bind; [apply keeps_quiet; quiet_tac|]. intros v. apply hoare_UserByEmail.
  - intros err. apply keeps_quiet. case_match; [quiet_tac|].
    case_match; [apply quiet_invalid_credentials|quiet_tac].
  - intros user. case_match; [apply hoare_True, keeps_quiet, quiet_invalid_credentials|].
    eapply hoare_try_catch; [apply hoare_quiet; [apply stable_row|apply quiet_VerifyPassword]| |].
    { intros err. apply hoare_fail. }
    intros v. eapply hoare_bind.
    { apply hoare_quiet; [apply stable_row|]. case_match; [quiet_tac|].
      unfold secondFactorRequiredAtLogin, now. quiet_tac. }
    intros [|]; [by apply hoare_mret|].
    eapply hoare_bind; [apply hoare_quiet; [apply stable_row|unfold now; quiet_tac]|].
    intros t. eapply hoare_bind; [|by intros; apply hoare_mret].
    eapply hoare_conseq; [apply hoare_issueTokens| |done]. intros w _ Hr. by rewrite FromStored_String.
Qed.

Lemma keeps_IssueTokensForUser userID tenantID authTime acr amr :
  keeps (IssueTokensForUser E c userID tenantID authTime acr amr).
Proof.
  unfold IssueTokensForUser. rewrite c_mem.
  eapply hoare_bind; [apply keeps_quiet; quiet_tac|]. intros j.
  eapply hoare_try_catch; [apply hoare_UserByID|intros; apply keeps_quiet; quiet_tac|].
  intros u. case_bool_decide as Ht; [|apply hoare_fail]. cbn.
  destruct (us_Active u); [|apply hoare_fail].
  eapply hoare_conseq; [apply hoare_issueTokens| |done]. intros w _ Hr.
  by rewrite <- Ht, FromStored_String.
Qed.

Lemma quiet_sessionInTenant hash tenantID : quiet (sessionInTenant c hash tenantID).
Proof.
  unfold sessionInTenant. rewrite c_mem. apply quiet_try_catch; [by apply quiet_read|intros ?; quiet_tac..].
Qed.

(** [userInTenant] answers a stored user of the tenant. *)
Lemma hoare_userInTenant userID tenantID :
  hoare (fun _ => True) (userInTenant c userID tenantID)
    (fun u w => row userID (us_TenantID u) (w_store w) /\ FromStored (us_TenantID u) = tenantID).
Proof.
  unfold userInTenant. rewrite c_mem.
  eapply hoare_try_catch; [apply hoare_UserByID|intros e; case_match; apply hoare_fail|].
  intros u. case_bool_decide; [by apply hoare_mret|apply hoare_fail].
Qed.

Lemma quiet_userInTenant userID tenantID : quiet (userInTenant c userID tenantID).
Proof.
  unfold userInTenant. rewrite c_mem. apply quiet_try_catch; [by apply quiet_read|intros ?; quiet_tac..].
Qed.

Lemma keeps_ignore {A} (m : M MemStore A) : keeps m -> keeps (ignore_err m).
Proof.
  intros H. unfold ignore_err.
  eapply hoare_try_catch; [exact H|intros; by apply hoare_mret..].
Qed.

Lemma hoare_revoke_and_fail {A} pre id t e (post : A -> assert) : t <> time_zero ->
  hoare pre (ignore_err (store_call "RevokeRefreshSession" (Mem_RevokeRefreshSession id t));;
             fail e) post.
Proof.
  intros Ht. eapply hoare_bind; [by apply hoare_True, keeps_ignore, hoare_revoke|].
  intros u. apply hoare_fail.
Qed.

Lemma hoare_pure {A} (P : Prop) pre (m : M MemStore A) post :
  (P -> hoare pre m post) -> hoare (fun w => pre w /\ P) m post.
Proof. intros H w r w' Hok [Hp HP]. by apply (H HP). Qed.

(** What a [Refresh] that goes on knows of the session it presents. *)
Definition rotatable (session : RefreshSession) : Prop :=
  0 < Unix (se_AuthTime session) /\ se_ACR session <> "".

Lemma hoare_Refresh_check tenantID token :
  hoare (fun _ => True) (Refresh_check E c tenantID token)
    (fun st w => row (se_UserID st.1.1) (se_TenantID st.1.1) (w_store w) /\
       rotatable st.1.1 /\ st.2 <> time_zero).
Proof.
  unfold Refresh_check. rewrite c_mem. case_match; [apply hoare_fail|].
  destruct (HashRefreshToken token) as [hash| |]; [|apply hoare_fail|].
  2: { intros w r w' Hok _ [-> ->]%lift_inv. done. }
  eapply hoare_bind; [apply keeps_quiet, quiet_wrap, quiet_sessionInTenant|].
  intros session. eapply hoare_bind; [apply hoare_now_nonzero, stable_True|].
  intros n. cbn beta. apply hoare_pure. intros Hn. case_match; [apply hoare_fail|].
  eapply hoare_bind; [apply hoare_wrap, hoare_UserByID|].
  intros user. cbn beta.
  case_bool_decide as Ht; cbn [negb]; [|by apply hoare_revoke_and_fail].
  case_match eqn:Hauth; [by apply hoare_revoke_and_fail|].
  destruct (us_Active user); [|by apply hoare_revoke_and_fail].
  apply hoare_mret. intros w Hr. apply FromStored_inj in Ht. bool_simpl. rewrite Z.leb_gt in Hauth.
  cbn. rewrite Ht. done.
Qed.

Lemma hoare_stable {A} pre (m : M MemStore A) :
  stable pre -> keeps m -> hoare pre m (fun _ => pre).
Proof.
  intros Hst H w r w' Hok Hp Hm. destruct (H _ _ _ Hok I Hm) as (? & Hev & _).
  split_and!; [done..|]. eauto.
Qed.

Lemma keeps_Refresh tenantID token : keeps (Refresh E c tenantID token).
Proof.
  unfold Refresh. eapply hoare_bind; [apply hoare_Refresh_check|].
  intros [[session user] n]. cbn. unfold Refresh_rotate. rewrite c_mem.
  eapply hoare_conseq with
    (pre' := fun w => row (se_UserID session) (se_TenantID session) (w_store w) /\ n <> time_zero)
    (post' := fun _ _ => True); [apply hoare_pure; intros Hn|by intros w _ (? & _ & ?)|done].
  eapply hoare_bind; [by apply hoare_stable; [apply stable_row|apply hoare_wrap, hoare_revoke]|].
  intros u. eapply hoare_bind; [|by intros; apply hoare_mret].
  eapply hoare_conseq; [apply hoare_issueTokens| |done]. intros w _ Hr. by rewrite FromStored_String.
Qed.

Lemma keeps_Logout tenantID token : keeps (Logout E c tenantID token).
Proof.
  unfold Logout. case_match; [by apply hoare_mret|].
  destruct (HashRefreshToken token) as [hash| |]; [|by apply hoare_mret|apply keeps_quiet; quiet_tac].
  eapply hoare_try_catch; [apply keeps_quiet, quiet_sessionInTenant|intros; apply keeps_quiet; quiet_tac|].
  intros session. case_match; [by apply hoare_mret|].
  eapply hoare_bind; [apply hoare_now_nonzero, stable_True|]. intros n. cbn beta.
  apply hoare_pure. intros Hn. rewrite c_mem. by apply hoare_wrap, hoare_revoke.
Qed.

Lemma keeps_RevokeAllSessions tenantID userID : keeps (RevokeAllSessions E c tenantID userID).
Proof.
  unfold RevokeAllSessions. case_match; [apply hoare_fail|].
  eapply hoare_bind; [apply keeps_quiet, quiet_userInTenant|]. intros u.
  eapply hoare_bind; [apply hoare_now_nonzero, stable_True|]. intros n. cbn beta.
  apply hoare_pure. intros Hn. rewrite c_mem. by apply hoare_wrap, hoare_revoke_all.
Qed.

Lemma keeps_RevokeAllSessionsForTenant tenantID : keeps (RevokeAllSessionsForTenant E c tenantID).
Proof.
  unfold RevokeAllSessionsForTenant. eapply hoare_bind; [apply keeps_quiet; quiet_tac|]. intros u.
  eapply hoare_bind; [apply hoare_now_nonzero, stable_True|]. intros n. cbn beta.
  apply hoare_pure. intros Hn. rewrite c_mem. by apply hoare_wrap, hoare_revoke_all.
Qed.

End Logic.
