(* ===== verification/IdentityTotp.v ===== *)
(** * The second factor

    [src/identity/totp.go]: enrollment in two phases, the code and the
    recovery-code legs, and disabling. A recovery code is checked and then
    consumed, in two store calls; histories may interleave between them. *)

From S2P Require Import Prelude Tenant Bytes World Crypto Secrets Identity IdentityAuth IdentityLogic.

#[local] Open Scope string_scope.
#[local] Open Scope list_scope.
#[local] Open Scope Z_scope.

Record TOTPEnrollment := MkEnrollment {
  te_Secret : string;
  te_OTPAuthURI : string;
  te_RecoveryCodes : list string
}.

Definition ThrottleStepTOTP : string := "totp".
Definition ThrottleStepRecovery : string := "recovery".

Section Totp.
Context (E : Env) {S : Type} (c : Core S).
Local Abbreviation M := (M S).

(** [allowSecondFactor] (throttle.go): the wait, or that the attempt may
    proceed. *)
Definition allowSecondFactor (userID step : string) : M (option Z) :=
  match c_throttling c with
  | None => mret None
  | Some t =>
      let key := SecondFactorKey t userID step in
      r ← observe (EvAllow key) (fun tr => Allow t tr key);
      mret (if (r.1 : bool) then None else Some r.2)
  end.

Definition StartTOTPEnrollment (tenantID : ID) (userID : string) : M TOTPEnrollment :=
  match c_keys c with
  | None => fail (Sentinel identity_ErrNoKeySet)
  | Some keys =>
      user ← userInTenant c userID tenantID;
      if us_TOTPEnrolled user then fail (Errorf1 "user" (Sentinel identity_ErrTOTPAlreadyEnrolled))
      else
        secret ← wrap (Errorf1 "identity: generate totp secret") (GenerateTOTPSecret E);
        envelope ← wrap (Errorf1 "identity: seal totp secret") (Seal E keys (to_bytes secret));
        codes ← wrap (Errorf1 "identity: generate recovery codes") (GenerateTOTPRecoveryCodes E);
        hashes ← wrap (Errorf1 "identity: hash recovery codes") (HashRecoveryCodes E codes);
        wrap (Errorf1 "identity: stage totp enrollment")
          (store_call "SetTOTPPending" (SetTOTPPending (c_store c) userID envelope hashes));;
        mret (MkEnrollment secret (OTPAuthURI secret (us_Email user)) codes)
  end.

Definition invalid_totp : error := Errorf1 "code" (Sentinel identity_ErrInvalidTOTP).

Definition verifyAgainstEnvelope (keys : KeySet) (envelope : bytes) (code : string) : M unit :=
  plaintext ← wrap (Errorf1 "identity: open totp secret") (lift (Open keys envelope));
  wrap (fun _ => invalid_totp) (VerifyTOTPCode E (String.string_of_list_ascii plaintext) code).

Definition CompleteTOTPEnrollment (tenantID : ID) (userID code : string) : M (User * Tokens) :=
  match c_keys c with
  | None => fail (Sentinel identity_ErrNoKeySet)
  | Some keys =>
      user ← userInTenant c userID tenantID;
      if us_TOTPEnrolled user then fail (Errorf1 "user" (Sentinel identity_ErrTOTPAlreadyEnrolled))
      else
        state ← store_call "TOTPState" (GetTOTPState (c_store c) userID);
        if bool_decide (ts_Envelope state = []) then
          fail (Errorf1 "no pending enrollment" (Sentinel identity_ErrInvalidTOTP))
        else
          verifyAgainstEnvelope keys (ts_Envelope state) code;;
          enrolledAt ← now E;
          wrap (Errorf1 "identity: promote totp enrollment")
            (store_call "EnableTOTP" (EnableTOTP (c_store c) userID (ts_Envelope state)
               (ts_RecoveryCodeHashes state) enrolledAt));;
          tokens ← issueTokens E c userID tenantID (Unix enrolledAt) (c_defaultACR c)
            amrForSecondFactor;
          mret (MkUser (us_ID user) (us_TenantID user) (us_Email user) (us_PasswordHash user)
                  (us_Active user) true (us_CreatedAt user), tokens)
  end.

Definition not_enrolled : error := Errorf1 "user" (Sentinel identity_ErrTOTPNotEnrolled).

Definition VerifyTOTP (tenantID : ID) (userID code : string) : M unit :=
  match c_keys c with
  | None => fail (Sentinel identity_ErrNoKeySet)
  | Some keys =>
      wait ← allowSecondFactor userID ThrottleStepTOTP;
      match wait with
      | Some _ => fail ThrottledError
      | None =>
          userInTenant c userID tenantID;;
          state ← store_call "TOTPState" (GetTOTPState (c_store c) userID);
          if negb (ts_Enrolled state) || bool_decide (ts_Envelope state = []) then
            fail not_enrolled
          else verifyAgainstEnvelope keys (ts_Envelope state) code
      end
  end.

(** [VerifyRecoveryCode] up to the match: the hashes that remain. *)
Definition VerifyRecoveryCode_check (tenantID : ID) (userID code : string) : M (list string) :=
  wait ← allowSecondFactor userID ThrottleStepRecovery;
  match wait with
  | Some _ => fail ThrottledError
  | None =>
      userInTenant c userID tenantID;;
      state ← store_call "TOTPState" (GetTOTPState (c_store c) userID);
      if negb (ts_Enrolled state) then fail not_enrolled
      else
        matched ← MatchRecoveryCode E code (ts_RecoveryCodeHashes state);
        match matched with
        | None => fail invalid_totp
        | Some matched =>
            mret (List.filter (fun h => negb (String.eqb h matched)) (ts_RecoveryCodeHashes state))
        end
  end.

Definition VerifyRecoveryCode_consume (userID : string) (remaining : list string) : M unit :=
  wrap (Errorf1 "identity: consume recovery code")
    (store_call "SetRecoveryCodeHashes" (SetRecoveryCodeHashes (c_store c) userID remaining)).

Definition VerifyRecoveryCode (tenantID : ID) (userID code : string) : M unit :=
  remaining ← VerifyRecoveryCode_check tenantID userID code;
  VerifyRecoveryCode_consume userID remaining.

Definition DisableTOTP (tenantID : ID) (userID currentCode : string) : M unit :=
  VerifyTOTP tenantID userID currentCode;;
  wrap (Errorf1 "identity: clear totp")
    (store_call "ClearTOTP" (ClearTOTP (c_store c) userID)).
End Totp.

(** ** The invariant is kept *)

Section Keeps.
Context (E : Env).
Hypothesis newID_unique :
  forall tr1 tr2, length tr1 <> length tr2 -> env_newID E tr1 <> env_newID E tr2.
Context (c : Core MemStore).
Hypothesis c_mem : c_store c = Mem_store.

Local Abbreviation keeps m := (hoare E (fun _ => True) m (fun _ _ => True)).

(** Writing the second factor's map touches no other. *)
Lemma with_totp_ok n m ts : store_ok E n m -> store_ok E n (with_totp m ts).
Proof. by intros [H1 H2 H3 H4 H5 H6 H7]. Qed.

Lemma hoare_totp_write pre method (ts : MemStore -> gmap string TOTPState) :
  hoare E pre (store_call method (fun m => (Ret tt, with_totp m (ts m)))) (fun _ _ => True).
Proof.
  apply (hoare_write E _ _ _ (fun _ => True)). intros w r m Hok _ [= <- <-].
  split_and!; [by apply with_totp_ok, ok_later|done|by apply sessions_same|
    by apply invitations_same|done].
Qed.

Lemma set_enrolled_ok n m id b : store_ok E n m ->
  store_ok E n (set_enrolled id b m) /\ (forall id' t, row id' t m -> row id' t (set_enrolled id b m)) /\
  sessions (set_enrolled id b m) = sessions m /\ invitations (set_enrolled id b m) = invitations m.
Proof.
  intros Hok. unfold set_enrolled. destruct (usersByID m !! id) as [u|] eqn:Hu; [|done].
  destruct (update_user_ok E n m id u (MkUser (us_ID u) (us_TenantID u) (us_Email u)
    (us_PasswordHash u) (us_Active u) b (us_CreatedAt u)) Hu eq_refl eq_refl eq_refl Hok).
  done.
Qed.

Lemma hoare_enroll_write pre method id b (ts : MemStore -> gmap string TOTPState) :
  hoare E pre (store_call method (fun m => (Ret tt, set_enrolled id b (with_totp m (ts m)))))
    (fun _ _ => True).
Proof.
  apply (hoare_write E _ _ _ (fun _ => True)). intros w r m Hok _ [= <- <-].
  destruct (set_enrolled_ok _ (with_totp (w_store w) (ts (w_store w))) id b
    (with_totp_ok _ _ _ (ok_later E w Hok))) as (? & ? & ? & ?).
  split_and!; [done|done|by apply sessions_same|by apply invitations_same|done].
Qed.

Lemma quiet_recovery_codes n : quiet (S := MemStore) (recovery_codes E n).
Proof.
  induction n as [|n IH]; cbn; quiet_tac. apply IH.
Qed.

Lemma quiet_hash_codes codes : quiet (S := MemStore) (HashRecoveryCodes E codes).
Proof. induction codes as [|code codes IH]; cbn; quiet_tac. apply IH. Qed.

Lemma quiet_match_hashes candidate hashes : quiet (S := MemStore) (match_hashes E candidate hashes).
Proof. induction hashes as [|h hashes IH]; cbn; quiet_tac. apply IH. Qed.

Lemma quiet_allowSecondFactor userID step : quiet (allowSecondFactor c userID step).
Proof. unfold allowSecondFactor. quiet_tac. Qed.

Lemma quiet_VerifyTOTPCode secret code : quiet (S := MemStore) (VerifyTOTPCode E secret code).
Proof. unfold VerifyTOTPCode. quiet_tac. Qed.

Lemma keeps_StartTOTPEnrollment tenantID userID : keeps (StartTOTPEnrollment E c tenantID userID).
Proof.
  unfold StartTOTPEnrollment. rewrite c_mem. destruct (c_keys c) as [keys|]; [|apply hoare_fail].
  eapply hoare_bind; [apply keeps_quiet, quiet_userInTenant; done|]. intros user.
  destruct (us_TOTPEnrolled user); [apply hoare_fail|].
  eapply hoare_bind; [apply keeps_quiet; unfold GenerateTOTPSecret; quiet_tac|].
  intros secret. eapply hoare_bind; [apply keeps_quiet; unfold Seal; quiet_tac|].
  intros envelope. eapply hoare_bind; [apply keeps_quiet, quiet_wrap, quiet_recovery_codes|].
  intros codes. eapply hoare_bind; [apply keeps_quiet, quiet_wrap, quiet_hash_codes|].
  intros hashes. eapply hoare_bind; [|by intros; apply hoare_mret].
  apply hoare_wrap, (hoare_totp_write _ _ (fun m => <[userID := _]> (totp m))).
Qed.

Lemma quiet_VerifyTOTP tenantID userID code : quiet (VerifyTOTP E c tenantID userID code).
Proof.
  unfold VerifyTOTP. rewrite c_mem. quiet_tac; rewrite ?c_mem;
    first [apply quiet_allowSecondFactor|by apply quiet_read|apply quiet_VerifyTOTPCode].
Qed.

Lemma quiet_recovery_check tenantID userID code :
  quiet (VerifyRecoveryCode_check E c tenantID userID code).
Proof.
  unfold VerifyRecoveryCode_check, MatchRecoveryCode. rewrite c_mem. quiet_tac; rewrite ?c_mem;
    first [apply quiet_allowSecondFactor|by apply quiet_read|apply quiet_match_hashes].
Qed.

Lemma keeps_consume userID remaining : keeps (VerifyRecoveryCode_consume c userID remaining).
Proof.
  unfold VerifyRecoveryCode_consume. rewrite c_mem.
  apply hoare_wrap, (hoare_totp_write _ _ (fun m => <[userID := _]> (totp m))).
Qed.

Lemma keeps_VerifyRecoveryCode tenantID userID code :
  keeps (VerifyRecoveryCode E c tenantID userID code).
Proof.
  eapply hoare_bind; [apply keeps_quiet, quiet_recovery_check|]. intros. apply keeps_consume.
Qed.

Lemma keeps_DisableTOTP tenantID userID code : keeps (DisableTOTP E c tenantID userID code).
Proof.
  unfold DisableTOTP. eapply hoare_bind; [apply keeps_quiet, quiet_VerifyTOTP|]. intros u.
  rewrite c_mem. apply hoare_wrap, (hoare_enroll_write _ _ _ _ (fun m => delete userID (totp m))).
Qed.

Lemma keeps_CompleteTOTPEnrollment tenantID userID code :
  keeps (CompleteTOTPEnrollment E c tenantID userID code).
Proof.
  unfold CompleteTOTPEnrollment. destruct (c_keys c) as [keys|]; [|apply hoare_fail].
  eapply hoare_bind; [by apply hoare_userInTenant|]. intros user. cbn beta. rewrite c_mem.
  destruct (us_TOTPEnrolled user); [apply hoare_fail|].
  set (P := fun w : world MemStore => row userID (us_TenantID user) (w_store w) /\
    FromStored (us_TenantID user) = tenantID).
  assert (stable P) as HP by (intros w w' Hev [? ?]; split; [by eapply ev_row|done]).
  eapply hoare_bind; [apply hoare_quiet; [exact HP|by apply quiet_read]|]. intros state.
  case_match; [apply hoare_fail|].
  eapply hoare_bind; [apply hoare_quiet; [exact HP|]|].
  { unfold verifyAgainstEnvelope. quiet_tac. apply quiet_VerifyTOTPCode. }
  intros u. eapply hoare_bind; [apply hoare_quiet; [exact HP|unfold now; quiet_tac]|].
  intros n. eapply hoare_bind.
  { apply hoare_stable; [exact HP|]. apply hoare_wrap,
      (hoare_enroll_write _ _ _ _ (fun m => <[userID := _]> (totp m))). }
  intros v. eapply hoare_bind; [|by intros; apply hoare_mret].
  eapply hoare_conseq; [by apply hoare_issueTokens| |done].
  intros w _ [Hr <-]. by rewrite FromStored_String.
Qed.
End Keeps.
