(* ===== verification/IdentityLinking.v ===== *)
(** * Federated identities

    [src/identity/linking.go]: resolving, provisioning, linking and unlinking
    the identities an external provider vouches for. [Unlink] checks and then
    deletes, in separate store calls; histories may interleave between them. *)

From S2P Require Import Prelude Tenant Bytes World Crypto Secrets Identity IdentityAuth IdentityLogic.

#[local] Open Scope string_scope.
#[local] Open Scope list_scope.
#[local] Open Scope Z_scope.

Section Linking.
Context (E : Env) {S : Type} (c : Core S).
Local Abbreviation M := (M S).

Definition identityByProviderSubject (tenantID : ID) (provider subject : string) : M Identity :=
  lift (tenantGate tenantID);;
  store_call "IdentityByProviderSubject"
    (IdentityByProviderSubject (c_store c) tenantID provider subject).

(** [None] is the miss, [(User{}, Identity{}, false, nil)]. *)
Definition ResolveByIdentity (tenantID : ID) (provider subject : string)
    : M (option (User * Identity)) :=
  try_catch (identityByProviderSubject tenantID provider subject)
    (fun e =>
       if errors_is e identity_ErrTenantRequired then fail e
       else if errors_is e identity_ErrNotFound then mret None
       else fail (Errorf1 "identity: resolve by identity" e))
    (fun ident =>
       user ← wrap (Errorf1 "identity: load user for identity")
         (store_call "UserByID" (UserByID (c_store c) (id_UserID ident)));
       if negb (us_Active user) then fail (Sentinel identity_ErrUserInactive)
       else
         n ← now E;
         wrap (Errorf1 "identity: touch last login")
           (store_call "TouchIdentityLastLogin" (TouchIdentityLastLogin (c_store c) (id_ID ident) n));;
         mret (Some (user, set_LastLoginAt ident n))).

Definition ProvisionUserWithIdentity (tenantID : ID) (email provider subject : string)
    : M (User * Identity) :=
  count ← wrap (Errorf1 "identity: count users") (countUsers c tenantID);
  let first := count =? 0 in
  n ← now E;
  userID ← newID E;
  let nu := MkNewUser userID (ID_String tenantID) email "" n in
  id ← newID E;
  let ni := MkIdentity id userID (nu_TenantID nu) provider subject n (Some n) in
  ui ← wrap (fun e =>
         if errors_is e identity_ErrEmailTaken || errors_is e identity_ErrIdentityTaken then e
         else Errorf1 "identity: provision user with identity" e)
    (store_call "ProvisionUserWithIdentity" (ProvisionUser (c_store c) nu ni first));
  (if c_OnProvisioned c then emit (EvHook "OnProvisioned") else mret tt);;
  mret ui.

Definition link_conflict : error := Sentinel identity_ErrLinkConflict.

Definition Link (tenantID : ID) (userID provider subject : string) : M Identity :=
  target ← userInTenant c userID tenantID;
  let lookup := store_call "IdentityByProviderSubject"
    (IdentityByProviderSubject (c_store c) (FromStored (us_TenantID target)) provider subject) in
  try_catch lookup
    (fun e =>
       if negb (errors_is e identity_ErrNotFound) then fail (Errorf1 "identity: link lookup" e)
       else
         id ← newID E;
         n ← now E;
         let ni := MkIdentity id userID (us_TenantID target) provider subject n None in
         try_catch (store_call "InsertIdentity" (InsertIdentity (c_store c) ni))
           (fun e =>
              if negb (errors_is e identity_ErrIdentityTaken) then
                fail (Errorf1 "identity: link insert" e)
              else
                try_catch lookup
                  (fun e =>
                     if errors_is e identity_ErrNotFound then fail link_conflict
                     else fail (Errorf1 "identity: link race refetch" e))
                  (fun raced =>
                     if String.eqb (id_UserID raced) userID then mret raced
                     else fail link_conflict))
           (fun _ => mret ni))
    (fun existing =>
       if String.eqb (id_UserID existing) userID then mret existing else fail link_conflict).

(** [Unlink] up to the deletion. *)
Definition Unlink_check (tenantID : ID) (userID identityID : string) : M unit :=
  ident ← wrap (fun e => if errors_is e identity_ErrNotFound then Sentinel identity_ErrNotFound
                         else Errorf1 "identity: unlink lookup" e)
    (store_call "IdentityByID" (IdentityByID (c_store c) identityID));
  if negb (String.eqb (id_UserID ident) userID) then fail (Sentinel identity_ErrNotFound)
  else
    user ← userInTenant c userID tenantID;
    if String.eqb (us_PasswordHash user) "" then
      count ← wrap (Errorf1 "identity: unlink count")
        (store_call "CountIdentitiesByUserID" (CountIdentitiesByUserID (c_store c) userID));
      if count <=? 1 then fail (Sentinel identity_ErrLastAuthMethod) else mret tt
    else mret tt.

Definition Unlink_delete (identityID : string) : M unit :=
  wrap (Errorf1 "identity: unlink delete")
    (store_call "DeleteIdentity" (DeleteIdentity (c_store c) identityID)).

Definition Unlink (tenantID : ID) (userID identityID : string) : M unit :=
  Unlink_check tenantID userID identityID;; Unlink_delete identityID.

Definition ListIdentities (tenantID : ID) (userID : string) : M (list Identity) :=
  userInTenant c userID tenantID;;
  wrap (Errorf1 "identity: list identities")
    (store_call "IdentitiesByUserID" (IdentitiesByUserID (c_store c) userID)).
End Linking.

(** ** The invariant is kept *)

Section Keeps.
Context (E : Env).
Hypothesis newID_unique :
  forall tr1 tr2, length tr1 <> length tr2 -> env_newID E tr1 <> env_newID E tr2.
Context (c : Core MemStore).
Hypothesis c_mem : c_store c = Mem_store.

Local Abbreviation keeps m := (hoare E (fun _ => True) m (fun _ _ => True)).

Lemma same_subject_spec t p s i :
  same_subject t p s i = true <-> id_TenantID i = t /\ id_Provider i = p /\ id_Subject i = s.
Proof. unfold same_subject. rewrite !andb_true_iff, !String.eqb_eq. tauto. Qed.

Lemma elem_of_identity_rows i m :
  List.In i (identity_rows m) <-> exists id, identities m !! id = Some i.
Proof.
  unfold identity_rows. rewrite <- list_elem_of_In, list_elem_of_fmap. split.
  - intros ([id i'] & -> & H%elem_of_map_to_list). eauto.
  - intros [id H]. exists (id, i). split; [done|]. by apply elem_of_map_to_list.
Qed.

Lemma subject_free t p s m :
  existsb (same_subject t p s) (identity_rows m) = false <->
  forall id i, identities m !! id = Some i -> same_subject t p s i = false.
Proof.
  rewrite <- not_true_iff_false, existsb_exists. split.
  - intros H id i Hi. apply not_true_iff_false. intros Hs. apply H. exists i. split; [|done].
    apply elem_of_identity_rows. eauto.
  - intros H (i & [id Hi]%elem_of_identity_rows & Hs). specialize (H id i Hi). congruence.
Qed.

(** A row under a new identifier whose subject nobody has. *)
Lemma insert_identity_ok n m ni :
  store_ok E n m -> drawn E n (id_ID ni) -> identities m !! id_ID ni = None ->
  row (id_UserID ni) (id_TenantID ni) m ->
  existsb (same_subject (id_TenantID ni) (id_Provider ni) (id_Subject ni)) (identity_rows m) = false ->
  store_ok E n (with_identities m (<[id_ID ni := ni]> (identities m))).
Proof.
  intros [H1 H2 H3 H4 H5 H6 H7] Hd Hnone Hrow Hfree. pose proof (proj1 (subject_free _ _ _ _) Hfree) as Hf.
  split; [done..|cbn|cbn].
  - intros id i [[<- <-]|[Hne Hv]]%lookup_insert_Some; [by split_and!|]. exact (H6 id i Hv).
  - intros id1 id2 i1 i2 [[<- <-]|[Hne1 Hv1]]%lookup_insert_Some
      [[<- <-]|[Hne2 Hv2]]%lookup_insert_Some Hs; [done| | |by eapply H7].
    + apply same_subject_spec in Hs as (Ht & Hp & Hsub). specialize (Hf id2 i2 Hv2).
      apply not_true_iff_false in Hf. destruct Hf. by apply same_subject_spec.
    + by rewrite (Hf id1 i1 Hv1) in Hs.
Qed.

Lemma hoare_InsertIdentity ni :
  hoare E (fun w => fresh E (id_ID ni) w /\ row (id_UserID ni) (id_TenantID ni) (w_store w))
    (store_call "InsertIdentity" (Mem_InsertIdentity ni)) (fun _ _ => True).
Proof.
  apply (hoare_write E _ _ _ (fun _ => True)).
  intros w r m Hok ((Hd & _ & _ & _ & Hf) & Hrow) Hop. unfold Mem_InsertIdentity in Hop.
  pose proof (ok_later E w Hok) as Hok'. destruct (existsb _ _) eqn:Hfree; injection Hop as <- <-;
    [by split_and!; auto using sessions_same, invitations_same|].
  split_and!; [apply insert_identity_ok; try done; eapply drawn_grow, Hd; lia|done|
    by apply sessions_same|by apply invitations_same|done].
Qed.

Lemma hoare_Touch id at_ :
  hoare E (fun _ => True) (store_call "TouchIdentityLastLogin" (Mem_TouchIdentityLastLogin id at_))
    (fun _ _ => True).
Proof.
  apply (hoare_write E _ _ _ (fun _ => True)). intros w r m Hok _ Hop.
  unfold Mem_TouchIdentityLastLogin in Hop. pose proof (ok_later E w Hok) as Hok'.
  destruct (identities (w_store w) !! id) as [i|] eqn:Hi; injection Hop as <- <-;
    [|by split_and!; auto using sessions_same, invitations_same].
  destruct Hok' as [H1 H2 H3 H4 H5 H6 H7].
  split_and!; [split; [done..|cbn|cbn]|done|by apply sessions_same|by apply invitations_same|done].
  - intros id' i' [[<- <-]|[Hne Hv]]%lookup_insert_Some; [|exact (H6 id' i' Hv)]. exact (H6 id i Hi).
  - intros id1 id2 i1 i2 [[<- <-]|[Hne1 Hv1]]%lookup_insert_Some
      [[<- <-]|[Hne2 Hv2]]%lookup_insert_Some Hs; [done| | |by eapply H7].
    + by eapply (H7 id id2 i i2).
    + by eapply (H7 id1 id i1 i).
Qed.

Lemma hoare_DeleteIdentity id :
  hoare E (fun _ => True) (store_call "DeleteIdentity" (Mem_DeleteIdentity id)) (fun _ _ => True).
Proof.
  apply (hoare_write E _ _ _ (fun _ => True)). intros w r m Hok _ [= <- <-].
  destruct (ok_later E w Hok) as [H1 H2 H3 H4 H5 H6 H7].
  split_and!; [split; [done..|cbn|cbn]|done|by apply sessions_same|by apply invitations_same|done].
  - intros id' i' [_ Hv]%lookup_delete_Some. exact (H6 id' i' Hv).
  - intros id1 id2 i1 i2 [_ Hv1]%lookup_delete_Some [_ Hv2]%lookup_delete_Some Hs. by eapply H7.
Qed.

Lemma hoare_ProvisionUser u ni first : id_UserID ni = nu_ID u -> id_TenantID ni = nu_TenantID u ->
  hoare E (fun w => fresh E (nu_ID u) w /\ fresh E (id_ID ni) w)
    (store_call "ProvisionUserWithIdentity" (Mem_ProvisionUserWithIdentity u ni first))
    (fun _ _ => True).
Proof.
  intros Hu Ht. apply (hoare_write E _ _ _ (fun _ => True)).
  intros w r m Hok [(Hd & Hfu & _) (Hdi & _ & _ & _ & Hfi)] Hop.
  unfold Mem_ProvisionUserWithIdentity in Hop. pose proof (ok_later E w Hok) as Hok'.
  destruct (emailToID (w_store w) !! _); [injection Hop as <- <-;
    by split_and!; auto using sessions_same, invitations_same|].
  destruct (existsb _ _) eqn:Hfree; injection Hop as <- <-;
    [by split_and!; auto using sessions_same, invitations_same|].
  destruct (insert_user_ok E (Datatypes.S (length (w_trace w))) (w_store w) u Hfu
    ltac:(eapply drawn_grow, Hd; lia) Hok') as (Hok2 & Hrow & Hrows).
  split_and!; [apply (insert_identity_ok _ (insert_user u (w_store w)) ni); try done|
    exact Hrows|by apply sessions_same|by apply invitations_same|done].
  - eapply drawn_grow, Hdi. lia.
  - by rewrite Hu, Ht.
Qed.

Lemma hoare_now pre : stable pre -> hoare E pre (now E) (fun _ => pre).
Proof. intros Hst. apply hoare_quiet; [done|]. unfold now. quiet_tac. Qed.

(** A second identifier leaves the first one unused. *)
Lemma hoare_newID_again id1 :
  hoare E (fresh E id1) (newID E) (fun id2 w => fresh E id1 w /\ fresh E id2 w).
Proof.
  intros w r w' Hok Hf Hrun.
  destruct (hoare_newID E newID_unique (fun _ => True) stable_True w r w' Hok I Hrun)
    as (Hok' & Hev & Hpost). split_and!; [done..|]. intros id2 Hr. destruct (Hpost id2 Hr) as [_ Hf2].
  split; [|done]. apply observe_inv in Hrun as [_ ->]. by apply fresh_grow.
Qed.

Lemma keeps_ResolveByIdentity tenantID provider subject :
  keeps (ResolveByIdentity E c tenantID provider subject).
Proof.
  unfold ResolveByIdentity, identityByProviderSubject. rewrite c_mem.
  eapply hoare_try_catch; [apply keeps_quiet; quiet_tac; by apply quiet_read|
    intros e; apply keeps_quiet; quiet_tac|].
  intros ident. eapply hoare_bind; [apply keeps_quiet, quiet_wrap; by apply quiet_read|].
  intros user. case_match; [apply hoare_fail|].
  eapply hoare_bind; [apply hoare_now, stable_True|]. intros n.
  eapply hoare_bind; [apply hoare_wrap, hoare_Touch|]. intros u. by apply hoare_mret.
Qed.

Lemma keeps_Provision tenantID email provider subject :
  keeps (ProvisionUserWithIdentity E c tenantID email provider subject).
Proof.
  unfold ProvisionUserWithIdentity, countUsers. rewrite c_mem.
  eapply hoare_bind; [apply keeps_quiet, quiet_wrap; quiet_tac; by apply quiet_read|].
  intros count. eapply hoare_bind; [apply hoare_now, stable_True|]. intros n.
  eapply hoare_bind; [apply hoare_newID; [done|apply stable_True]|]. intros userID.
  eapply hoare_bind.
  { eapply hoare_conseq; [apply (hoare_newID_again userID)|by intros w _ [_ ?]|]. done. }
  intros id. eapply hoare_bind; [by apply hoare_wrap,
    (hoare_ProvisionUser (MkNewUser _ _ _ _ _) (MkIdentity _ _ _ _ _ _ _))|].
  intros ui. apply keeps_quiet. quiet_tac.
Qed.

Lemma quiet_lookup tenantID provider subject :
  quiet (store_call "IdentityByProviderSubject" (Mem_IdentityByProviderSubject tenantID provider subject)).
Proof. by apply quiet_read. Qed.

Lemma keeps_Link tenantID userID provider subject : keeps (Link E c tenantID userID provider subject).
Proof.
  unfold Link. eapply hoare_bind; [by apply hoare_userInTenant|]. intros target. cbn zeta. rewrite c_mem.
  eapply hoare_conseq with (pre' := fun w => row userID (us_TenantID target) (w_store w))
    (post' := fun _ _ => True); [|by intros w _ [? _]|done].
  assert (stable (fun w => row userID (us_TenantID target) (w_store w))) as Hst by apply stable_row.
  eapply hoare_try_catch_stable; [exact Hst|by apply hoare_quiet, quiet_lookup| |].
  2: { intros i. case_match; [by apply hoare_mret|apply hoare_fail]. }
  intros e. case_match; [apply hoare_fail|].
  eapply hoare_bind; [by apply hoare_newID|]. intros id. cbn beta.
  eapply hoare_bind with (mid := fun n w => row userID (us_TenantID target) (w_store w) /\ fresh E id w).
  { intros w r w' Hok [Hr Hf] [-> ->]%observe_inv. destruct (grow_trace E w [EvNow] Hok).
    split_and!; [done..|]. intros a _. split; [done|by apply fresh_grow]. }
  intros n. eapply hoare_try_catch with (mid := fun _ _ => True).
  - eapply hoare_conseq; [apply hoare_InsertIdentity|by intros w _ [? ?]|done].
  - intros e'. apply keeps_quiet. quiet_tac; apply quiet_lookup.
  - intros u. by apply hoare_mret.
Qed.

Lemma keeps_Unlink_check tenantID userID identityID :
  quiet (Unlink_check c tenantID userID identityID).
Proof.
  unfold Unlink_check, userInTenant. rewrite c_mem. quiet_tac; by apply quiet_read.
Qed.

Lemma keeps_Unlink_delete identityID : keeps (Unlink_delete c identityID).
Proof. unfold Unlink_delete. rewrite c_mem. apply hoare_wrap, hoare_DeleteIdentity. Qed.

Lemma keeps_Unlink tenantID userID identityID : keeps (Unlink c tenantID userID identityID).
Proof.
  eapply hoare_bind; [apply keeps_quiet, keeps_Unlink_check|]. intros u. apply keeps_Unlink_delete.
Qed.
End Keeps.
