(* ===== verification/IdentitySessions.v ===== *)
(** * Refresh sessions over the reference store

    What rotation does, how a refused refresh leaves the store,
    and that a token that was rotated or logged out stays dead. *)

From S2P Require Import Prelude Tenant Bytes World Crypto Secrets Identity IdentityAuth IdentityLogic IdentityTotp IdentityLinking.

#[local] Open Scope string_scope.
#[local] Open Scope list_scope.
#[local] Open Scope Z_scope.

Section Sessions.
Context (E : Env) (c : Core MemStore).
Hypothesis c_mem : c_store c = Mem_store.

(** ** One rotation *)

(** The session a token opens, if its digest is in the index. *)
Definition presented (m : MemStore) (token : string) : option RefreshSession :=
  match HashRefreshToken token with
  | Ret h => id ← hashToID m !! h; Some (session_at m id)
  | _ => None
  end.

(** The row a mint writes. *)
Definition successor (m m' : MemStore) (userID tid : string) (authTime : Z) (acr : string)
    (tok : Tokens) : Prop :=
  exists s, m' = (Mem_CreateRefreshSession s m).2 /\
    HashRefreshToken (tk_Refresh tok) = Ret (se_TokenHash s) /\
    se_UserID s = userID /\ se_TenantID s = tid /\ se_AuthTime s = time_Unix authTime /\
    se_ACR s = acr /\ Revoked s = false /\
    se_ExpiresAt s = se_IssuedAt s + c_refreshTTL c /\ tk_RefreshExpiresAt tok = se_ExpiresAt s.

Lemma issueTokens_Mem userID tenantID authTime acr amr w tok w' :
  issueTokens E c userID tenantID authTime acr amr w = (Ret tok, w') ->
  0 < c_refreshTTL c ->
  successor (w_store w) (w_store w') userID (ID_String tenantID) authTime acr tok.
Proof.
  unfold issueTokens. rewrite c_mem. intros H Httl.
  run_step H; [rewrite Z.leb_le in Hb; lia|].
  assert (w_store w1 = w_store w) as Hsame.
  { apply quiet_IssueAccess in Hm as [? ->]. by apply quiet_NewRefreshToken in Hm0 as [? ->]. }
  rewrite Hsame in Hm1.
  lazymatch type of Hm1 with CreateRefreshSession _ ?s _ = _ => exists s end.
  split_and!; [exact (eq_sym (f_equal snd Hm1))|cbn; congruence|reflexivity..].
Qed.

Lemma UserByID_inv id m u m' :
  UserByID Mem_store id m = (Ret u, m') -> m' = m /\ usersByID m !! id = Some u.
Proof. cbn. unfold Mem_UserByID. destruct (usersByID m !! id); [|done]. by intros [= <- <-]. Qed.

Lemma SessionByHash_inv h m s m' :
  RefreshSessionByHash Mem_store h m = (Ret s, m') ->
  m' = m /\ exists id, hashToID m !! h = Some id /\ s = session_at m id.
Proof.
  cbn. unfold Mem_RefreshSessionByHash. destruct (hashToID m !! h) as [id|]; [|done].
  intros [= <- <-]. eauto.
Qed.

Lemma Refresh_check_Ret tenantID token w s user n w1 :
  Refresh_check E c tenantID token w = (Ret (s, user, n), w1) ->
  0 < c_refreshTTL c /\ presented (w_store w) token = Some s /\
  FromStored (se_TenantID s) = tenantID /\ Revoked s = false /\ n < se_ExpiresAt s /\
  usersByID (w_store w) !! se_UserID s = Some user /\ us_TenantID user = se_TenantID s /\
  us_Active user = true /\ 0 < Unix (se_AuthTime s) /\ se_ACR s <> "" /\
  w_store w1 = w_store w /\ n = env_now E (w_trace w ++ [EvStore "RefreshSessionByHash"]).
Proof.
  unfold Refresh_check, sessionInTenant, now, presented. rewrite c_mem. intros H. run_step H.
  apply UserByID_inv in Hm as [Hst Hu]. apply SessionByHash_inv in Hm0 as [Hst' (id & Hid & ->)].
  rewrite Hst' in *. rewrite Hid. unfold After in Hb2. bool_simpl.
  rewrite Z.leb_gt in *. rewrite Z.ltb_lt in Hb2. destruct Hb2, Hb4.
  apply FromStored_inj in Hb3. rewrite Hw in *. by split_and!.
Qed.

(** A refresh that succeeds was presented a live, unexpired session of the
    routed tenant whose user is active and stored in that very tenant. It
    revokes that row and writes one successor row, which carries the user, the
    tenant, the authentication time and the ACR over unchanged and is indexed
    by the digest of the token handed out; nothing else in the store changes.
    The access token is signed for the same user, tenant, time and ACR. *)
Theorem Refresh_rotates tenantID token w user tok w' :
  Refresh E c tenantID token w = (Ret (user, tok), w') ->
  exists s n j, presented (w_store w) token = Some s /\
    FromStored (se_TenantID s) = tenantID /\ Revoked s = false /\ n < se_ExpiresAt s /\
    usersByID (w_store w) !! se_UserID s = Some user /\ us_TenantID user = se_TenantID s /\
    us_Active user = true /\
    successor (Mem_RevokeRefreshSession (se_ID s) n (w_store w)).2 (w_store w')
      (se_UserID s) (se_TenantID s) (Unix (se_AuthTime s)) (se_ACR s) tok /\
    c_jwt c = Some j /\
    signed_access E j (tk_Access tok) (se_UserID s) "" (se_TenantID s) ""
      (Unix (se_AuthTime s)) (se_ACR s) [] (jwt_ttl j).
Proof.
  unfold Refresh, Refresh_rotate. intros H.
  apply bind_Ret_inv in H as ([[s u] n] & w1 & Hcheck & H).
  apply Refresh_check_Ret in Hcheck as
    (Httl & Hp & Ht & Hr & Hexp & Hu & Htu & Ha & Hat & Hacr & Hw1 & _).
  rewrite c_mem in H. run_step H. rename Hm0 into Hissue, Hm into Hrev.
  apply (f_equal snd) in Hrev. cbn [snd] in Hrev. rewrite Hw1 in Hrev.
  pose proof (issueTokens_Ret E c _ _ _ _ _ _ _ _ Hissue) as (j & Hj & _ & _ & _ & Hs).
  apply issueTokens_Mem in Hissue; [|done]. rewrite FromStored_String in *.
  rewrite <- Hrev in Hissue. exists s, n, j. by split_and!.
Qed.

(** ** Refused refreshes *)

Lemma HashRefreshToken_total token why : HashRefreshToken token <> Panic why.
Proof. unfold HashRefreshToken. repeat case_match; done. Qed.

(** Why a refresh is refused, and what becomes of the store: a session that
    exists in the routed tenant and is live is revoked, every other failure
    changes nothing. *)
Inductive refused (tenantID : ID) (token : string) (m : MemStore) : error -> MemStore -> Prop :=
  | RefDisabled :
      c_refreshTTL c <= 0 -> refused tenantID token m (Sentinel identity_ErrInvalidSession) m
  | RefUnknown :
      presented m token = None ->
      refused tenantID token m (Sentinel identity_ErrInvalidSession) m
  | RefForeign s :
      presented m token = Some s -> FromStored (se_TenantID s) <> tenantID ->
      refused tenantID token m (Sentinel identity_ErrInvalidSession) m
  | RefDead s n :
      presented m token = Some s -> Revoked s = true \/ se_ExpiresAt s <= n ->
      refused tenantID token m (Sentinel identity_ErrInvalidSession) m
  | RefOrphan s :
      presented m token = Some s -> usersByID m !! se_UserID s = None ->
      refused tenantID token m (Sentinel identity_ErrInvalidSession) m
  | RefCorrupt s u n :
      presented m token = Some s -> FromStored (se_TenantID s) = tenantID -> Revoked s = false ->
      usersByID m !! se_UserID s = Some u ->
      us_TenantID u <> se_TenantID s \/ ~ rotatable s ->
      refused tenantID token m (Sentinel identity_ErrInvalidSession)
        (Mem_RevokeRefreshSession (se_ID s) n m).2
  | RefInactive s u n :
      presented m token = Some s -> FromStored (se_TenantID s) = tenantID -> Revoked s = false ->
      usersByID m !! se_UserID s = Some u -> us_TenantID u = se_TenantID s ->
      us_Active u = false ->
      refused tenantID token m (Sentinel identity_ErrUserInactive)
        (Mem_RevokeRefreshSession (se_ID s) n m).2
  | RefMint s n e :
      presented m token = Some s -> FromStored (se_TenantID s) = tenantID -> Revoked s = false ->
      mint_error e = true ->
      refused tenantID token m e (Mem_RevokeRefreshSession (se_ID s) n m).2.

Lemma ByHash_errors h m r m' :
  RefreshSessionByHash Mem_store h m = (r, m') -> m' = m /\
  match r with
  | Ret s => exists id, hashToID m !! h = Some id /\ s = session_at m id
  | Fail e => hashToID m !! h = None /\ errors_is e identity_ErrNotFound = true
  | Panic _ => False
  end.
Proof.
  cbn. unfold Mem_RefreshSessionByHash. destruct (hashToID m !! h) as [id|]; intros [= <- <-]; eauto.
Qed.

Lemma UserByID_errors id m r m' :
  UserByID Mem_store id m = (r, m') -> m' = m /\
  match r with
  | Ret u => usersByID m !! id = Some u
  | Fail e => usersByID m !! id = None /\ errors_is e identity_ErrNotFound = true
  | Panic _ => False
  end.
Proof. cbn. unfold Mem_UserByID. destruct (usersByID m !! id); intros [= <- <-]; done. Qed.

Lemma revoke_run id n m r m' :
  RevokeRefreshSession Mem_store id n m = (r, m') ->
  r = Ret tt /\ m' = (Mem_RevokeRefreshSession id n m).2.
Proof.
  intros H. pose proof (f_equal snd H) as H2. cbn [snd] in H2. split; [|by rewrite <- H2].
  revert H. cbn. unfold Mem_RevokeRefreshSession. repeat case_match; by intros [= <- _].
Qed.

Lemma ignore_revoke_run {A} id n e (w : world MemStore) (r : go A) w' :
  (ignore_err (store_call "RevokeRefreshSession" (RevokeRefreshSession Mem_store id n));;
   fail e) w = (r, w') ->
  r = Fail e /\ w_store w' = (Mem_RevokeRefreshSession id n (w_store w)).2.
Proof.
  unfold ignore_err. intros H. run_step H.
  all: match goal with Hm : RevokeRefreshSession _ _ _ _ = _ |- _ =>
         apply revoke_run in Hm as [Hr Hm]; by inversion Hr end.
Qed.

Lemma sessionInTenant_Mem h tenantID w :
  sessionInTenant c h tenantID w =
  (match hashToID (w_store w) !! h with
   | None => Fail (Sentinel identity_ErrNotFound)
   | Some id =>
       let s := session_at (w_store w) id in
       if bool_decide (FromStored (se_TenantID s) = tenantID) then Ret s
       else Fail (Sentinel identity_ErrInvalidSession)
   end, World (w_store w) (w_trace w ++ [EvStore "RefreshSessionByHash"])).
Proof.
  unfold sessionInTenant, try_catch, store_call. rewrite c_mem. cbn.
  unfold Mem_RefreshSessionByHash. destruct (hashToID (w_store w) !! h) as [id|]; [|done].
  cbn. by case_bool_decide.
Qed.

(** A [Refresh] that does not rotate, in closed form. *)
Lemma Refresh_check_refused tenantID token w r w' :
  Refresh_check E c tenantID token w = (r, w') -> is_ret r = false ->
  exists e, r = Fail e /\ refused tenantID token (w_store w) e (w_store w').
Proof.
  unfold Refresh_check. case_match eqn:Httl.
  { intros [= <- <-] _. eexists. split; [done|]. apply RefDisabled. by apply Z.leb_le. }
  clear Httl. destruct (HashRefreshToken token) as [h|e|why] eqn:Hh.
  3: { by apply HashRefreshToken_total in Hh. }
  2: { intros [= <- <-] _. eexists. split; [done|]. apply RefUnknown. unfold presented. by rewrite Hh. }
  unfold mbind at 1, M_bind, wrap. rewrite sessionInTenant_Mem.
  assert (presented (w_store w) token = id ← hashToID (w_store w) !! h; Some (session_at (w_store w) id))
    as Hp by (unfold presented; by rewrite Hh).
  destruct (hashToID (w_store w) !! h) as [id|]; cbn [mbind option_bind] in Hp.
  2: { intros [= <- <-] _. eexists. split; [done|]. by apply RefUnknown. }
  set (s := session_at (w_store w) id) in *. cbn zeta.
  case_bool_decide as Ht; cbn [wrap_err].
  2: { intros [= <- <-] _. eexists. split; [done|]. by eapply RefForeign. }
  rewrite c_mem. intros H Hr.
  apply bind_inv in H as [(n & w1 & Hn & H)|[(e & Hn & ->)|(e & Hn & ->)]];
    apply observe_inv in Hn as [Hn ->]; [clear Hn|done..].
  case_match eqn:Hdead.
  { apply fail_inv in H as [-> ->]. eexists. split; [done|]. apply (RefDead _ _ _ s n Hp).
    unfold After in Hdead. bool_simpl. rewrite Z.ltb_ge in Hdead. tauto. }
  bool_simpl. destruct Hdead as [Hlive _].
  apply bind_inv in H as [(u & w2 & Hu & H)|[(e & Hu & ->)|(e & Hu & ->)]];
    apply wrap_inv in Hu as (r1 & Hu & Hr1); apply store_call_inv in Hu as [Hu Htr];
    apply UserByID_errors in Hu as [Hst Hu]; cbn [w_store] in *; destruct r1; cbn in Hr1; try done.
  2: { injection Hr1 as ->. destruct Hu as [Hu ->]. eexists. split; [done|]. rewrite Hst.
       by eapply RefOrphan. }
  injection Hr1 as <-. cbn zeta in H.
  case_bool_decide as Htu; cbn [negb] in H.
  2: { apply ignore_revoke_run in H as [-> ->]. eexists. split; [done|]. rewrite Hst.
       eapply RefCorrupt; eauto. left. congruence. }
  apply FromStored_inj in Htu. case_match eqn:Hauth.
  { apply ignore_revoke_run in H as [-> ->]. eexists. split; [done|]. rewrite Hst.
    eapply RefCorrupt; eauto. right. intros [Hat Hacr]. bool_simpl. rewrite Z.leb_le in Hauth.
    destruct Hauth; [lia|done]. }
  destruct (us_Active u) eqn:Hact; cbn [negb] in H.
  - apply mret_inv in H as [-> ->]. done.
  - apply ignore_revoke_run in H as [-> ->]. eexists. split; [done|]. rewrite Hst.
    eapply RefInactive; eauto.
Qed.

Lemma issueTokens_Fail userID tenantID authTime acr amr w r w' :
  issueTokens E c userID tenantID authTime acr amr w = (r, w') -> is_ret r = false ->
  w_store w' = w_store w.
Proof.
  unfold issueTokens. rewrite c_mem. intros H Hr. run_step H; try done.
  all: repeat match goal with
  | H : IssueAccess _ _ _ _ _ _ _ _ = (_, _) |- _ => apply quiet_IssueAccess in H as [? ->]
  | H : NewRefreshToken _ _ = (_, _) |- _ => apply quiet_NewRefreshToken in H as [? ->]
  end; done.
Qed.


(** A dead session is refused, whatever else holds. *)
Lemma Refresh_dead tenantID token w r w' :
  (forall s, presented (w_store w) token = Some s -> Revoked s = true) ->
  Refresh E c tenantID token w = (r, w') ->
  r = Fail (Sentinel identity_ErrInvalidSession) /\ w_store w' = w_store w.
Proof.
  unfold Refresh. intros Hdead [(st & w1 & Hc & H)|[(e & Hc & ->)|(why & Hc & ->)]]%bind_inv.
  - destruct st as [[s u] n]. apply Refresh_check_Ret in Hc as (_ & Hp & _ & Hr & _).
    apply Hdead in Hp. congruence.
  - apply Refresh_check_refused in Hc as (e' & [= <-] & Href); [|done].
    inversion Href; subst; try done.
    all: match goal with Hp : presented _ _ = Some ?s |- _ => apply Hdead in Hp; congruence end.
  - by apply Refresh_check_refused in Hc as (e' & [=] & _).
Qed.

(** ** Every history *)

(** A call of the service, or the application's switch that deactivates a
    user. *)
Inductive op :=
  | ORegister (tenantID : ID) (email password : string)
  | OLogin (tenantID : ID) (email password : string)
  | OMint (userID : string) (tenantID : ID) (authTime : Z) (acr : string) (amr : list string)
  | ORefresh (tenantID : ID) (token : string)
  | OLogout (tenantID : ID) (token : string)
  | ORevokeAll (tenantID : ID) (userID : string)
  | ORevokeTenant (tenantID : ID)
  | OSetActive (userID : string) (active : bool)
  | OStartTOTP (tenantID : ID) (userID : string)
  | OCompleteTOTP (tenantID : ID) (userID code : string)
  | OVerifyTOTP (tenantID : ID) (userID code : string)
  | ORecoveryCode (tenantID : ID) (userID code : string)
  | ODisableTOTP (tenantID : ID) (userID code : string)
  | OResolve (tenantID : ID) (provider subject : string)
  | OProvision (tenantID : ID) (email provider subject : string)
  | OLink (tenantID : ID) (userID provider subject : string)
  | OUnlink (tenantID : ID) (userID identityID : string).

Definition exec (w : world MemStore) (o : op) : world MemStore :=
  match o with
  | ORegister t e p => (Register E c t e p w).2
  | OLogin t e p => (Login E c t e p w).2
  | OMint u t a acr amr => (IssueTokensForUser E c u t a acr amr w).2
  | ORefresh t tok => (Refresh E c t tok w).2
  | OLogout t tok => (Logout E c t tok w).2
  | ORevokeAll t u => (RevokeAllSessions E c t u w).2
  | ORevokeTenant t => (RevokeAllSessionsForTenant E c t w).2
  | OSetActive u b => World (SetActive u b (w_store w)) (w_trace w)
  | OStartTOTP t u => (StartTOTPEnrollment E c t u w).2
  | OCompleteTOTP t u code => (CompleteTOTPEnrollment E c t u code w).2
  | OVerifyTOTP t u code => (VerifyTOTP E c t u code w).2
  | ORecoveryCode t u code => (VerifyRecoveryCode E c t u code w).2
  | ODisableTOTP t u code => (DisableTOTP E c t u code w).2
  | OResolve t p s => (ResolveByIdentity E c t p s w).2
  | OProvision t e p s => (ProvisionUserWithIdentity E c t e p s w).2
  | OLink t u p s => (Link E c t u p s w).2
  | OUnlink t u id => (Unlink c t u id w).2
  end.
Definition run (ops : list op) (w : world MemStore) : world MemStore := foldl exec w ops.

Hypothesis newID_unique :
  forall tr1 tr2, length tr1 <> length tr2 -> env_newID E tr1 <> env_newID E tr2.
Hypothesis clock_after_year_1 : forall tr, env_now E tr <> time_zero.

Lemma SetActive_ok id b w :
  ok E w -> let w' := World (SetActive id b (w_store w)) (w_trace w) in
  ok E w' /\ evolves w w'.
Proof.
  intros Hok. unfold SetActive.
  destruct (usersByID (w_store w) !! id) as [u|] eqn:Hu; [|by destruct w].
  destruct (update_user_ok E _ _ id u (MkUser (us_ID u) (us_TenantID u) (us_Email u)
    (us_PasswordHash u) b (us_TOTPEnrolled u) (us_CreatedAt u)) Hu eq_refl eq_refl eq_refl Hok)
    as [Hok' Hrow].
  split; [exact Hok'|]. split; [done|exact Hrow|by apply sessions_same|by apply invitations_same].
Qed.

Lemma exec_ok o w : ok E w -> ok E (exec w o) /\ evolves w (exec w o).
Proof.
  intros Hok.
  destruct o; cbn [exec];
    lazymatch goal with
    | |- context [SetActive] => by apply SetActive_ok
    | _ => eapply hoare_snd; [|done]
    end;
    eauto using keeps_Register, keeps_Login, keeps_IssueTokensForUser, keeps_Refresh, keeps_Logout,
      keeps_RevokeAllSessions, keeps_RevokeAllSessionsForTenant, keeps_StartTOTPEnrollment,
      keeps_CompleteTOTPEnrollment, keeps_quiet, quiet_VerifyTOTP, keeps_VerifyRecoveryCode,
      keeps_DisableTOTP, keeps_ResolveByIdentity, keeps_Provision, keeps_Link, keeps_Unlink.
Qed.

Lemma run_ok ops w : ok E w -> ok E (run ops w) /\ evolves w (run ops w).
Proof.
  revert w. induction ops as [|o ops IH]; intros w Hok; [done|].
  destruct (exec_ok o w Hok) as [Hok' Hev], (IH _ Hok') as [? ?]. split; [done|by etrans].
Qed.

Lemma start_ok tr : ok E (World NewMemStore tr).
Proof. split; cbn; intros *; by rewrite lookup_empty. Qed.

(** A row once revoked stays in the store, revoked. *)
Lemma revoked_stays ops w id s :
  ok E w -> sessions (w_store w) !! id = Some s -> Revoked s = true ->
  exists s', sessions (w_store (run ops w)) !! id = Some s' /\ Revoked s' = true.
Proof.
  intros Hok Hs Hr. destruct (run_ok ops w Hok) as [_ Hev].
  destruct (ev_session _ _ Hev id s Hs) as (s' & Hs' & [->|(Hl & _)]); [eauto|congruence].
Qed.

(** No live session answers to the digest [h]. *)
Definition dead (h : string) (w : world MemStore) : Prop :=
  forall id, hashToID (w_store w) !! h = Some id ->
  exists s, sessions (w_store w) !! id = Some s /\ Revoked s = true.

Lemma revoke_kills m id s t : t <> time_zero ->
  sessions m !! id = Some s ->
  exists s', sessions (Mem_RevokeRefreshSession id t m).2 !! id = Some s' /\ Revoked s' = true.
Proof.
  intros Ht Hs. unfold Mem_RevokeRefreshSession. rewrite Hs. destruct (Revoked s) eqn:Hr; cbn.
  - eauto.
  - eexists. rewrite lookup_insert_eq. split; [done|]. unfold Revoked, IsZero_time. cbn.
    by apply negb_true_iff, Z.eqb_neq.
Qed.

Lemma indexed_session w h id :
  ok E w -> hashToID (w_store w) !! h = Some id ->
  sessions (w_store w) !! id = Some (session_at (w_store w) id) /\
  se_ID (session_at (w_store w) id) = id.
Proof.
  intros Hok Hid. destruct (ok_hash _ _ _ Hok _ _ Hid) as (s & Hs & _).
  unfold session_at. rewrite Hs. by destruct (ok_session _ _ _ Hok _ _ Hs) as (? & _).
Qed.

Lemma Refresh_kills tenantID token h w x w1 :
  ok E w -> HashRefreshToken token = Ret h -> Refresh E c tenantID token w = (Ret x, w1) ->
  forall id, hashToID (w_store w) !! h = Some id ->
  exists s, sessions (w_store w1) !! id = Some s /\ Revoked s = true.
Proof.
  intros Hok Hh H id Hid. unfold Refresh in H.
  apply bind_Ret_inv in H as ([[s u] n] & wc & Hc & H).
  destruct (hoare_Refresh_check E clock_after_year_1 c c_mem tenantID token _ _ _ Hok I Hc)
    as (Hokc & _ & Hpost). destruct (Hpost _ eq_refl) as (Hrow & _ & Hn).
  apply Refresh_check_Ret in Hc as (_ & Hp & _ & _ & _ & _ & _ & _ & _ & _ & Hwc & _).
  unfold presented in Hp. rewrite Hh in Hp. cbn in Hp. rewrite Hid in Hp. injection Hp as Hp.
  destruct (indexed_session _ _ _ Hok Hid) as [Hs Hsid]. rewrite Hp in *. cbn in Hn, Hrow.
  unfold Refresh_rotate in H. rewrite c_mem in H.
  apply bind_Ret_inv in H as (y & wr & Hrev & H). apply wrap_Ret_inv in Hrev.
  destruct (hoare_revoke E (se_ID s) n Hn _ _ _ Hokc I Hrev) as (Hokr & Hevr & _).
  apply store_call_inv in Hrev as [Hrev _]. apply revoke_run in Hrev as [_ Hrev].
  rewrite Hwc, Hsid in Hrev. destruct (revoke_kills _ _ _ _ Hn Hs) as (s' & Hs' & Hr').
  rewrite <- Hrev in Hs'. apply bind_Ret_inv in H as (tok & w2 & Hi & [_ ->]%mret_inv).
  assert (row (se_UserID s) (ID_String (FromStored (se_TenantID s))) (w_store wr)) as Hrow'.
  { rewrite FromStored_String. by apply (ev_row _ _ Hevr). }
  destruct (hoare_issueTokens E newID_unique c c_mem _ _ _ _ _ _ _ _ Hokr Hrow' Hi) as (_ & Hev & _).
  destruct (ev_session _ _ Hev _ _ Hs') as (s2 & Hs2 & [->|(Hl & _)]); [eauto|congruence].
Qed.

Lemma Logout_kills tenantID token h w w1 :
  ok E w -> 0 < c_refreshTTL c -> HashRefreshToken token = Ret h ->
  Logout E c tenantID token w = (Ret tt, w1) ->
  forall id, hashToID (w_store w) !! h = Some id ->
  exists s, sessions (w_store w1) !! id = Some s /\ Revoked s = true.
Proof.
  intros Hok Httl Hh H id Hid. unfold Logout in H. rewrite Hh in H.
  destruct (indexed_session _ _ _ Hok Hid) as [Hs Hsid].
  rewrite (proj2 (Z.leb_gt _ _) Httl) in H. destruct (String.eqb_spec token "") as [->|Hne]; [done|].
  cbn [orb] in H. unfold try_catch in H. rewrite sessionInTenant_Mem, Hid in H.
  set (s := session_at (w_store w) id) in *. cbn zeta in H.
  case_bool_decide as Ht; [|discriminate H].
  destruct (Revoked s) eqn:Hr.
  - apply mret_inv in H as [_ ->]. eauto.
  - apply bind_Ret_inv in H as (n & w2 & Hn & H). apply observe_inv in Hn as [[= ->] ->].
    rewrite c_mem in H. apply wrap_Ret_inv, store_call_inv in H as [H _].
    apply revoke_run in H as [_ ->]. rewrite Hsid. by apply (revoke_kills _ _ s).
Qed.

(** C9: A token that was refreshed or logged out is dead for good. Whatever is
    called afterwards, by whom and for which tenant, a refresh with it answers
    the generic error and changes nothing, as long as no later mint drew a
    token with the same digest. *)
Theorem token_dies tr ops tenantID token h w1 later tenantID' :
  let w := run ops (World NewMemStore tr) in
  HashRefreshToken token = Ret h ->
  (exists x, Refresh E c tenantID token w = (Ret x, w1)) \/
  (0 < c_refreshTTL c /\ Logout E c tenantID token w = (Ret tt, w1)) ->
  let w2 := run later w1 in
  hashToID (w_store w2) !! h = hashToID (w_store w) !! h ->
  exists w3, Refresh E c tenantID' token w2 = (Fail (Sentinel identity_ErrInvalidSession), w3) /\
    w_store w3 = w_store w2.
Proof.
  intros w Hh Hdone w2 Hidx. destruct (run_ok ops _ (start_ok tr)) as [Hok _]. fold w in Hok.
  assert (ok E w1 /\ forall id, hashToID (w_store w) !! h = Some id ->
    exists s, sessions (w_store w1) !! id = Some s /\ Revoked s = true) as [Hok1 Hdead].
  { destruct Hdone as [[x H]|[Httl H]].
    - pose proof (exec_ok (ORefresh tenantID token) w Hok) as [Hok1 _]. cbn in Hok1. rewrite H in Hok1.
      split; [done|]. by eapply Refresh_kills.
    - pose proof (exec_ok (OLogout tenantID token) w Hok) as [Hok1 _]. cbn in Hok1. rewrite H in Hok1.
      split; [done|]. by eapply Logout_kills. }
  destruct (Refresh E c tenantID' token w2) as [r w3] eqn:Hr. exists w3.
  assert (forall s, presented (w_store w2) token = Some s -> Revoked s = true) as Hd.
  { intros s. unfold presented. rewrite Hh. cbn. rewrite Hidx.
    destruct (hashToID (w_store w) !! h) as [id|] eqn:Hid; [|done]. intros [= <-].
    destruct (Hdead id eq_refl) as (s1 & Hs1 & Hr1).
    destruct (revoked_stays later w1 id s1 Hok1 Hs1 Hr1) as (s2 & Hs2 & Hr2).
    unfold session_at. by fold w2 in Hs2; rewrite Hs2. }
  by destruct (Refresh_dead _ _ _ _ _ Hd Hr) as [-> ?].
Qed.
End Sessions.

(** ** At concrete inputs *)

Lemma demo_ids_unique tr1 tr2 :
  length tr1 <> length tr2 -> env_newID Demo.env tr1 <> env_newID Demo.env tr2.
Proof.
  intros Hne Heq. apply Hne. cbn in Heq.
  assert (forall ch k, String.length (Demo.text ch k) = k) as Hl by (intros ch k; induction k; cbn; auto).
  rewrite <- (Hl "i"%char (length tr1)), Heq. apply Hl.
Qed.

Lemma demo_clock tr : env_now Demo.env tr <> time_zero.
Proof. cbn. unfold time_zero. lia. Qed.

(** Bob's refresh token, as [Register] handed it out. *)
Definition bob_token : string :=
  match (Register Demo.env Demo.core Demo.acme "Bob@Acme.com " "correct horse" Demo.start).1 with
  | Ret (_, tok) => tk_Refresh tok
  | _ => ""
  end.
Definition bob_digest : string :=
  match HashRefreshToken bob_token with Ret h => h | _ => "" end.
Definition bob_registers : list op := [ORegister Demo.acme "Bob@Acme.com " "correct horse"].
Definition bob_refresh := Refresh Demo.env Demo.core Demo.acme bob_token Demo.registered.

Lemma bob_refreshed : exists user tok, bob_refresh = (Ret (user, tok), bob_refresh.2).
Proof.
  assert (is_ret bob_refresh.1 = true) as H by (vm_compute; reflexivity).
  destruct bob_refresh as [[[user tok]| |] w]; [eauto|discriminate H..].
Qed.

Lemma Refresh_rotates_witness : exists s,
  presented (w_store Demo.registered) bob_token = Some s /\ FromStored (se_TenantID s) = Demo.acme.
Proof.
  destruct bob_refreshed as (user & tok & H).
  destruct (Refresh_rotates Demo.env Demo.core eq_refl Demo.acme bob_token Demo.registered user tok
    bob_refresh.2 H) as (s & n & j & Hp & Ht & _).
  exact (ex_intro _ s (conj Hp Ht)).
Defined.

(** Bob's token at another tenant's route. *)
Definition foreign_refresh := Refresh Demo.env Demo.core (New "globex") bob_token Demo.registered.

(** Bob refreshes, logs in again and refreshes the old token once more. *)
Lemma token_dies_witness :
  let w2 := run Demo.env Demo.core [OLogin Demo.acme "bob@acme.com" "correct horse"]
    bob_refresh.2 in
  exists w3, Refresh Demo.env Demo.core Demo.acme bob_token w2 =
    (Fail (Sentinel identity_ErrInvalidSession), w3) /\ w_store w3 = w_store w2.
Proof.
  apply (token_dies Demo.env Demo.core eq_refl demo_ids_unique demo_clock [] bob_registers
    Demo.acme bob_token bob_digest bob_refresh.2
    [OLogin Demo.acme "bob@acme.com" "correct horse"] Demo.acme).
  - vm_compute. reflexivity.
  - left. destruct bob_refreshed as (user & tok & H). exists (user, tok). exact H.
  - vm_compute. reflexivity.
Defined.

(** Rotation is not single-use under concurrency: when two refreshes with one
    token both pass the checks before either revokes the row, both rotate and
    two live successors of one session exist. *)
Definition two_refreshes :=
  let check := Refresh_check Demo.env Demo.core Demo.acme bob_token in
  match check Demo.registered with
  | (Ret st1, w1) =>
      match check w1 with
      | (Ret st2, w2) =>
          let '(r1, w3) := Refresh_rotate Demo.env Demo.core st1 w2 in
          let '(r2, w4) := Refresh_rotate Demo.env Demo.core st2 w3 in
          Some (r1, r2, w4)
      | _ => None
      end
  | _ => None
  end.

Example Refresh_race :
  match two_refreshes with
  | Some (Ret (_, tok1), Ret (_, tok2), w) =>
      (option_map Revoked (presented (w_store w) (tk_Refresh tok1)) = Some false) /\
      (option_map Revoked (presented (w_store w) (tk_Refresh tok2)) = Some false) /\
      tk_Refresh tok1 <> tk_Refresh tok2
  | _ => False
  end.
Proof. vm_compute. split_and!; [reflexivity..|discriminate]. Qed.
