(* ===== verification/IdentityFederation.v ===== *)
(** * What federated sign-in promises

    Over the reference store and every history of calls: whom an external
    identity resolves to, when a link is made or refused, and that unlinking
    leaves a way in. *)

From S2P Require Import Prelude Tenant Bytes World Crypto Secrets Identity IdentityAuth IdentityLogic IdentityTotp IdentityLinking IdentitySessions.

#[local] Open Scope string_scope.
#[local] Open Scope list_scope.
#[local] Open Scope Z_scope.

Section Federation.
Context (E : Env) (c : Core MemStore).
Hypothesis c_mem : c_store c = Mem_store.
Hypothesis newID_unique :
  forall tr1 tr2, length tr1 <> length tr2 -> env_newID E tr1 <> env_newID E tr2.
Hypothesis clock_after_year_1 : forall tr, env_now E tr <> time_zero.

(** The store links the provider's subject, in the tenant, to the row. *)
Definition linked (m : MemStore) (t : ID) (provider subject : string) (i : Identity) : Prop :=
  identities m !! id_ID i = Some i /\ id_TenantID i = ID_String t /\ id_Provider i = provider /\
  id_Subject i = subject.

Lemma linked_unique n m t p s i1 i2 :
  store_ok E n m -> linked m t p s i1 -> linked m t p s i2 -> i1 = i2.
Proof.
  intros Hok (H1 & Ht1 & Hp1 & Hs1) (H2 & Ht2 & Hp2 & Hs2).
  assert (id_ID i1 = id_ID i2) as He.
  { apply (ok_subject _ _ _ Hok _ _ i1 i2 H1 H2). apply same_subject_spec. split_and!; congruence. }
  rewrite He in H1. congruence.
Qed.

(** The lookup answers the one row there is. *)
Lemma lookup_linked n m t p s :
  store_ok E n m ->
  match (Mem_IdentityByProviderSubject t p s m).1 with
  | Ret i => linked m t p s i
  | Fail e => errors_is e identity_ErrNotFound = true /\ errors_is e identity_ErrTenantRequired = false /\
      forall i, ~ linked m t p s i
  | Panic _ => False
  end.
Proof.
  intros Hok. unfold Mem_IdentityByProviderSubject. cbn. destruct (List.find _ _) as [i|] eqn:Hf.
  - apply List.find_some in Hf as [[id Hi]%elem_of_identity_rows (Ht & Hp & Hs)%same_subject_spec].
    destruct (ok_identity _ _ _ Hok id i Hi) as (<- & _). done.
  - split_and!; [done|done|]. intros i (Hi & Ht & Hp & Hs).
    apply (List.find_none _ _) with (x := i) in Hf; [|apply elem_of_identity_rows; eauto].
    apply not_true_iff_false in Hf. apply Hf. by apply same_subject_spec.
Qed.

Lemma ResolveByIdentity_run t p s w r w' :
  ok E w -> Valid t = true -> ResolveByIdentity E c t p s w = (r, w') ->
  (r = Ret None /\ forall i, ~ linked (w_store w) t p s i) \/
  exists i u, linked (w_store w) t p s i /\ usersByID (w_store w) !! id_UserID i = Some u /\
    us_TenantID u = ID_String t /\
    r = (if us_Active u then Ret (Some (u, set_LastLoginAt i
           (env_now E (w_trace w ++ [EvStore "IdentityByProviderSubject"; EvStore "UserByID"]))))
         else Fail (Sentinel identity_ErrUserInactive)).
Proof.
  intros Hok Hv. unfold ResolveByIdentity, identityByProviderSubject, tenantGate.
  rewrite c_mem, Hv. cbn [negb].
  unfold try_catch, lift, mbind, M_bind, store_call. cbn [IdentityByProviderSubject Mem_store].
  pose proof (lookup_linked _ _ t p s Hok) as Hl.
  assert ((Mem_IdentityByProviderSubject t p s (w_store w)).2 = w_store w) as Hst by done.
  destruct (Mem_IdentityByProviderSubject t p s (w_store w)) as [[i|e|why] m]; cbn in Hl, Hst; subst m;
    [|destruct Hl as (Hn & Htr & Hno); rewrite Htr, Hn; intros [= <- _]; by left|done].
  pose proof Hl as (Hi & Ht & _ & _). destruct (ok_identity _ _ _ Hok _ _ Hi) as (_ & _ & u & Hu & Hut).
  unfold wrap. cbn. unfold Mem_UserByID. rewrite Hu. cbn. rewrite <- app_assoc. cbn [app].
  intros H. right. exists i, u. split_and!; [done|done|congruence|].
  destruct (us_Active u); cbn in H; [|by injection H as <- _].
  unfold Mem_TouchIdentityLastLogin in H. rewrite Hi in H. cbn in H. by injection H as <- _.
Qed.

(** After any history, an identity of an external provider stands for at
    most one user per tenant, and signing in with it is signing in as that user:
    [ResolveByIdentity] answers the active user of that very tenant the one
    matching row belongs to, reports a miss exactly when there is no row, and
    refuses a deactivated user. The order in which the store visits its rows
    makes no difference. *)
Theorem ResolveByIdentity_correct tr ops tenantID provider subject r w' :
  let w := run E c ops (World NewMemStore tr) in
  Valid tenantID = true -> ResolveByIdentity E c tenantID provider subject w = (r, w') ->
  (forall i1 i2, linked (w_store w) tenantID provider subject i1 ->
     linked (w_store w) tenantID provider subject i2 -> i1 = i2) /\
  (r = Ret None <-> forall i, ~ linked (w_store w) tenantID provider subject i) /\
  (forall i u, linked (w_store w) tenantID provider subject i ->
     usersByID (w_store w) !! id_UserID i = Some u ->
     us_TenantID u = ID_String tenantID /\
     (us_Active u = false -> r = Fail (Sentinel identity_ErrUserInactive)) /\
     (us_Active u = true -> exists n, r = Ret (Some (u, set_LastLoginAt i n)))).
Proof.
  intros w Hv H. destruct (run_ok E c c_mem newID_unique clock_after_year_1 ops _ (start_ok E tr)) as [Hok _].
  fold w in Hok. split_and!; [intros; by eapply linked_unique| |].
  - destruct (ResolveByIdentity_run _ _ _ _ _ _ Hok Hv H) as [[-> Hno]|(i & u & Hl & _ & _ & ->)].
    + done.
    + split; [by destruct (us_Active u)|]. intros Hno. by destruct (Hno i).
  - intros i u Hl Hu.
    destruct (ResolveByIdentity_run _ _ _ _ _ _ Hok Hv H) as [[_ Hno]|(i' & u' & Hl' & Hu' & Ht & ->)].
    { by destruct (Hno i). }
    rewrite (linked_unique _ _ _ _ _ _ _ Hok Hl Hl') in *.
    assert (u' = u) as -> by congruence. split_and!; [done|by intros ->|]. intros ->. eauto.
Qed.

(** A stored user of the tenant. *)
Definition user_of (m : MemStore) (t : ID) (userID : string) (u : User) : Prop :=
  usersByID m !! userID = Some u /\ FromStored (us_TenantID u) = t.

Lemma userInTenant_Mem userID t w :
  userInTenant c userID t w =
  (match usersByID (w_store w) !! userID with
   | Some u => if bool_decide (FromStored (us_TenantID u) = t) then Ret u else Fail (not_found "user")
   | None => Fail (not_found "user")
   end, World (w_store w) (w_trace w ++ [EvStore "UserByID"])).
Proof.
  unfold userInTenant, try_catch, store_call. rewrite c_mem. cbn. unfold Mem_UserByID.
  destruct (usersByID (w_store w) !! userID) as [u|]; [|done]. cbn. by case_bool_decide.
Qed.

(** [Link], in closed form. *)
Lemma Link_run t userID p s w r w' :
  ok E w -> Link E c t userID p s w = (r, w') ->
  (r = Fail (not_found "user") /\ w_store w' = w_store w /\ forall u, ~ user_of (w_store w) t userID u) \/
  exists u, user_of (w_store w) t userID u /\
    ((exists i, linked (w_store w) t p s i /\ w_store w' = w_store w /\
        r = if String.eqb (id_UserID i) userID then Ret i else Fail link_conflict) \/
     ((forall i, ~ linked (w_store w) t p s i) /\ exists ni, r = Ret ni /\ id_UserID ni = userID /\
        id_TenantID ni = ID_String t /\ id_Provider ni = p /\ id_Subject ni = s /\
        identities (w_store w) !! id_ID ni = None /\
        w_store w' = with_identities (w_store w) (<[id_ID ni := ni]> (identities (w_store w))))).
Proof.
  intros Hok H. unfold Link, mbind, M_bind in H. rewrite userInTenant_Mem in H.
  destruct (usersByID (w_store w) !! userID) as [u|] eqn:Hu.
  2: { injection H as <- <-. left. split_and!; [done..|]. intros u [Hu' _]. congruence. }
  case_bool_decide as Ht.
  2: { injection H as <- <-. left. split_and!; [done..|]. intros u' [Hu' Ht']. congruence. }
  right. exists u. split; [done|].
  cbv zeta beta in H. rewrite c_mem, Ht in H. unfold try_catch, store_call in H. cbn [w_store] in H.
  cbn [IdentityByProviderSubject Mem_store] in H.
  pose proof (lookup_linked _ _ t p s Hok) as Hl.
  assert ((Mem_IdentityByProviderSubject t p s (w_store w)).2 = w_store w) as Hst by done.
  destruct (Mem_IdentityByProviderSubject t p s (w_store w)) as [[i|e|why] m]; cbn in Hl, Hst;
    subst m; [left; exists i|right|done].
  { destruct (String.eqb (id_UserID i) userID); injection H as <- <-; done. }
  destruct Hl as (Hnf & _ & Hno). rewrite Hnf in H. split; [done|]. cbn [negb] in H.
  unfold newID, now, observe, mbind, M_bind in H. cbn in H. set (ni := MkIdentity _ _ _ _ _ _ _) in H.
  assert (id_TenantID ni = ID_String t) as Hni by (cbn; by rewrite <- Ht, FromStored_String).
  unfold Mem_InsertIdentity in H. rewrite (proj2 (subject_free _ _ _ (w_store w))) in H.
  2: { intros id i Hi. apply not_true_iff_false. intros (Hti & Hpi & Hsi)%same_subject_spec.
       destruct (ok_identity _ _ _ Hok id i Hi) as (<- & _). apply (Hno i).
       rewrite Hni in Hti. done. }
  injection H as <- <-. exists ni. split_and!; try done.
  destruct (identities (w_store w) !! id_ID ni) as [i|] eqn:Hi; [|done].
  destruct (ok_identity _ _ _ Hok _ _ Hi) as (_ & Hd & _). exfalso.
  refine (not_drawn_yet E newID_unique _ (drawn_grow E _ _ _ _ Hd)). rewrite !length_app. lia.
Qed.

(** After any history, [Link] gives the user the subject or leaves the store
    alone. It answers the row that links the provider's subject to the user in
    the user's tenant, the existing one when there is one (nothing is written)
    and otherwise one new row beside the others; it reports a conflict exactly
    when another user of the tenant has the subject; and the one other refusal is
    for a user who is not in the tenant. *)
Theorem Link_correct tr ops t userID provider subject r w' :
  let w := run E c ops (World NewMemStore tr) in
  Link E c t userID provider subject w = (r, w') ->
  let taken j := linked (w_store w) t provider subject j in
  match r with
  | Ret i =>
      linked (w_store w') t provider subject i /\ id_UserID i = userID /\
      (forall j, taken j -> j = i /\ w_store w' = w_store w) /\
      (forall id j, identities (w_store w) !! id = Some j -> identities (w_store w') !! id = Some j)
  | Fail e => w_store w' = w_store w /\
      (e = link_conflict <->
         exists u j, user_of (w_store w) t userID u /\ taken j /\ id_UserID j <> userID) /\
      (e = not_found "user" <-> forall u, ~ user_of (w_store w) t userID u)
  | Panic _ => False
  end.
Proof.
  intros w H taken. destruct (run_ok E c c_mem newID_unique clock_after_year_1 ops _ (start_ok E tr)) as [Hok _].
  fold w in Hok. destruct (Link_run _ _ _ _ _ _ _ Hok H)
    as [(-> & Hst & Hno)|(u & Hu & [(i & Hi & Hst & ->)|(Hno & ni & -> & Hid & Ht & Hp & Hs & Hnone & Hst)])].
  - split_and!; [done|split; [done|]|done]. intros (u & j & Hu & _). by destruct (Hno u).
  - destruct (String.eqb_spec (id_UserID i) userID) as [Hid|Hid].
    + rewrite Hst. split_and!; [done..| |done]. intros j Hj. split; [by eapply linked_unique|done].
    + split_and!; [done|split; [eauto|done]|]. split; [done|]. intros Hn. by destruct (Hn u).
  - rewrite Hst. split_and!; [|done| |].
    + split_and!; [cbn; apply lookup_insert_eq|done..].
    + intros j Hj. by destruct (Hno j).
    + intros id j Hj. cbn. rewrite lookup_insert_ne; [done|]. intros <-. congruence.
Qed.

(** The identities of a user. *)
Definition has_identity (m : MemStore) (userID : string) : Prop :=
  exists id i, identities m !! id = Some i /\ id_UserID i = userID.

Lemma owned_by_spec userID m i :
  List.In i (owned_by userID m) <-> (exists id, identities m !! id = Some i) /\ id_UserID i = userID.
Proof.
  unfold owned_by. rewrite List.filter_In, elem_of_identity_rows, String.eqb_eq. done.
Qed.

(** The store without an identity. *)
Definition without (identityID : string) (m : MemStore) : MemStore :=
  with_identities m (delete identityID (identities m)).

(** An identity of the user's own counts for one. *)
Lemma owned_by_without userID identityID m i :
  identities m !! identityID = Some i -> id_UserID i = userID ->
  length (owned_by userID m) = S (length (owned_by userID (without identityID m))).
Proof.
  intros Hi Hu. unfold owned_by, identity_rows, without. cbn [identities with_identities].
  rewrite <- (insert_delete_id (identities m) identityID i Hi) at 1.
  assert (map_to_list (<[identityID := i]> (delete identityID (identities m))) ≡ₚ
    (identityID, i) :: map_to_list (delete identityID (identities m))) as Hp
    by (apply map_to_list_insert, lookup_delete_eq).
  apply (fmap_Permutation snd), (Permutation_filter (fun i => String.eqb (id_UserID i) userID)), Permutation_length in Hp.
  rewrite Hp. cbn. by rewrite Hu, String.eqb_refl.
Qed.

Lemma owned_by_nil userID m : length (owned_by userID m) = 0%nat <-> ~ has_identity m userID.
Proof.
  rewrite length_zero_iff_nil. split.
  - intros Hn (id & i & Hi & Hu). apply (List.in_nil (a := i)). rewrite <- Hn. apply owned_by_spec. eauto.
  - intros Hno. destruct (owned_by userID m) as [|i l] eqn:Ho; [done|]. exfalso. apply Hno.
    destruct (proj1 (owned_by_spec userID m i)) as [[id Hi] Hu]; [rewrite Ho; by left|]. by exists id, i.
Qed.

(** What [Unlink] asks for: the identity is the user's own, the user is of the
    tenant, and a password or another identity is left. *)
Definition may_unlink t userID identityID (m : MemStore) : Prop :=
  exists u i, user_of m t userID u /\ identities m !! identityID = Some i /\ id_UserID i = userID /\
    (us_PasswordHash u <> "" \/ has_identity (without identityID m) userID).

(** C6: One uninterrupted [Unlink], over the reference store, removes exactly
    the identity named and never the last way in. It succeeds if and only if
    the identity is the user's own, the user is of the tenant, and the user
    still has a password or another identity once it is gone; the store is then
    the old one without that row. A refused call leaves the store as it was, and
    the only identity of a user without a password is refused as the last
    authentication method. (Two calls whose reads and writes interleave are not
    covered: see [Unlink_race].) *)
Theorem Unlink_keeps_a_way_in t userID identityID w r w' :
  Unlink c t userID identityID w = (r, w') ->
  (r = Ret tt <-> may_unlink t userID identityID (w_store w)) /\
  (r = Ret tt -> w_store w' = without identityID (w_store w)) /\
  (r <> Ret tt -> w_store w' = w_store w) /\
  (forall u i, user_of (w_store w) t userID u -> us_PasswordHash u = "" ->
     identities (w_store w) !! identityID = Some i -> id_UserID i = userID ->
     ~ has_identity (without identityID (w_store w)) userID ->
     r = Fail (Sentinel identity_ErrLastAuthMethod)).
Proof.
  unfold Unlink, Unlink_delete, Unlink_check, may_unlink, wrap, store_call, mbind, M_bind. rewrite c_mem. cbn.
  unfold Mem_IdentityByID. destruct (identities (w_store w) !! identityID) as [i|] eqn:Hi.
  2: { cbn. intros [= <- <-]. split_and!; [split; [done|intros (? & ? & ? & [=] & _)]|done|done|done]. }
  cbn. destruct (String.eqb_spec (id_UserID i) userID) as [Hown|Hown].
  2: { cbn. intros [= <- <-]. split_and!; [split; [done|]|done|done|congruence].
       intros (? & ? & _ & [= <-] & ? & _). done. }
  cbn. rewrite userInTenant_Mem. cbn [w_store].
  unfold user_of.
  destruct (usersByID (w_store w) !! userID) as [u|] eqn:Hu.
  2: { intros [= <- <-]. split_and!; [split; [done|]|done|done|].
       - by intros (u & ? & [[=] _] & _).
       - by intros u ? [[=] _]. }
  case_bool_decide as Ht.
  2: { intros [= <- <-]. split_and!; [split; [done|]|done|done|].
       - by intros (? & ? & [[= <-] ?] & _).
       - by intros ? ? [[= <-] ?]. }
  destruct (String.eqb_spec (us_PasswordHash u) "") as [Hpw|Hpw]; cbn.
  - rewrite (owned_by_without _ _ _ _ Hi Hown). destruct (Z.leb_spec (Z.of_nat (S (length
      (owned_by userID (without identityID (w_store w)))))) 1) as [Hle|Hgt]; cbn; intros [= <- <-].
    + assert (~ has_identity (without identityID (w_store w)) userID) as Hno by (apply owned_by_nil; lia).
      split_and!; [split; [done|]|done|done|done].
      intros (? & ? & [[= <-] _] & _ & _ & [?|?]); done.
    + assert (has_identity (without identityID (w_store w)) userID) as Hyes.
      { destruct (decide (length (owned_by userID (without identityID (w_store w))) = 0%nat)) as [H0|H0]; [lia|].
        rewrite owned_by_nil in H0. destruct (owned_by userID (without identityID (w_store w))) as [|j l] eqn:Ho.
        { cbn in Hgt. lia. }
        destruct (proj1 (owned_by_spec userID (without identityID (w_store w)) j)) as [[id Hj] Hj']; [rewrite Ho; by left|].
        by exists id, j. }
      split_and!; [split; [|done]|done|done|done]. intros _. exists u, i. auto.
  - intros [= <- <-]. split_and!; [split; [|done]|done|done|].
    + intros _. exists u, i. auto.
    + by intros ? ? [[= <-] _].
Qed.
End Federation.

(** ** At concrete inputs *)

(** Ann signs up through one provider and links a second. *)
Definition ann_id : string := Demo.text "i" 2.
Definition ann_signs_up : list op :=
  [OProvision Demo.acme "ann@acme.com" "google" "g-1"; OLink Demo.acme ann_id "okta" "o-1"].
Definition ann_world : world MemStore := run Demo.env Demo.core ann_signs_up (World NewMemStore []).

Definition google_id : string := Demo.text "i" 3.
Definition ann_google : Identity :=
  match identities (w_store ann_world) !! google_id with Some i => i | None => Identity_zero end.
Definition ann_user : User := user_at (w_store ann_world) ann_id.
Definition ann_resolves :=
  ResolveByIdentity Demo.env Demo.core Demo.acme "google" "g-1" ann_world.

Lemma ann_google_linked : linked (w_store ann_world) Demo.acme "google" "g-1" ann_google.
Proof. unfold linked. split_and!; vm_compute; reflexivity. Qed.

Lemma ann_user_stored : usersByID (w_store ann_world) !! id_UserID ann_google = Some ann_user.
Proof. vm_compute. reflexivity. Qed.

Lemma ResolveByIdentity_correct_witness : exists n,
  ann_resolves.1 = Ret (Some (ann_user, set_LastLoginAt ann_google n)).
Proof.
  destruct (ResolveByIdentity_correct Demo.env Demo.core eq_refl demo_ids_unique demo_clock [] ann_signs_up
    Demo.acme "google" "g-1" ann_resolves.1 ann_resolves.2 eq_refl (surjective_pairing ann_resolves))
    as (_ & _ & H).
  destruct (H ann_google ann_user ann_google_linked ann_user_stored) as (_ & _ & Hok).
  apply Hok. vm_compute. reflexivity.
Defined.

Definition ann_links_again := Link Demo.env Demo.core Demo.acme ann_id "okta" "o-1" ann_world.

Lemma Link_correct_witness : exists i,
  linked (w_store ann_links_again.2) Demo.acme "okta" "o-1" i /\ id_UserID i = ann_id.
Proof.
  pose proof (Link_correct Demo.env Demo.core eq_refl demo_ids_unique demo_clock [] ann_signs_up
    Demo.acme ann_id "okta" "o-1" ann_links_again.1 ann_links_again.2 (surjective_pairing _)) as H.
  assert (is_ret ann_links_again.1 = true) as Hr by (vm_compute; reflexivity).
  destruct ann_links_again.1 as [i| |]; [|discriminate Hr..].
  destruct H as (Hl & Hu & _). exists i. exact (conj Hl Hu).
Defined.

Definition ann_unlinks := Unlink Demo.core Demo.acme ann_id google_id ann_world.

Lemma Unlink_keeps_a_way_in_witness :
  w_store ann_unlinks.2 = without google_id (w_store ann_world) /\
  has_identity (without google_id (w_store ann_world)) ann_id /\
  (Unlink Demo.core Demo.acme ann_id (Demo.text "i" 7) ann_unlinks.2).1 = Fail (Sentinel identity_ErrLastAuthMethod).
Proof.
  destruct (Unlink_keeps_a_way_in Demo.core eq_refl Demo.acme ann_id google_id ann_world ann_unlinks.1 ann_unlinks.2
    (surjective_pairing _)) as (Hr & Hs & _).
  assert (ann_unlinks.1 = Ret tt) as Hok by (vm_compute; reflexivity).
  split; [exact (Hs Hok)|]. split.
  - destruct (proj1 Hr Hok) as (u & i & [Hu _] & _ & _ & [Hpw|Hway]); [|exact Hway].
    exfalso. apply Hpw. clear -Hu. vm_compute in Hu. injection Hu as <-. reflexivity.
  - vm_compute. reflexivity.
Defined.

(** The last way in is not kept under concurrency: Ann unlinks both providers
    at once, each check counts two, and no identity remains for an account
    without a password. *)
Definition okta_id : string := Demo.text "i" 7.
Definition ann_unlinks_both : go unit * world MemStore :=
  let check id := Unlink_check Demo.core Demo.acme ann_id id in
  (check google_id;; check okta_id;; Unlink_delete Demo.core google_id;; Unlink_delete Demo.core okta_id)
    ann_world.

Example Unlink_race :
  ann_unlinks_both.1 = Ret tt /\
  option_map us_PasswordHash (usersByID (w_store ann_unlinks_both.2) !! ann_id) = Some "" /\
  owned_by ann_id (w_store ann_unlinks_both.2) = [].
Proof. vm_compute. split_and!; reflexivity. Qed.
