(* ===== verification/IdentityFactors.v ===== *)
(** * What the second factor promises

    Over any store: what a code that is accepted proves, and that a throttled
    attempt reads nothing. Over the reference store: recovery codes work as
    typed and once, and what a completed enrollment mints. *)

From S2P Require Import Prelude Tenant Bytes World Crypto Secrets Identity IdentityAuth IdentityLogic IdentityTotp IdentityLinking IdentitySessions IdentityFederation.

#[local] Open Scope string_scope.
#[local] Open Scope list_scope.
#[local] Open Scope Z_scope.

Section AnyStore.
Context (E : Env) {S : Type} (c : Core S).

(** The envelope holds a secret for which the library accepts the code, at the
    clock read after [tr]. *)
Definition code_proves (keys : KeySet) (envelope : bytes) (code : string) (tr : trace) : Prop :=
  exists secret, Open keys envelope = Ret secret /\ String.length code = 6%nat /\
    env_totp E tr code (String.string_of_list_ascii secret) = Ret true.

Lemma verifyAgainstEnvelope_run keys envelope code (w : world S) r w' :
  verifyAgainstEnvelope E keys envelope code w = (r, w') ->
  w_store w' = w_store w /\ r <> Fail ThrottledError /\
  (r = Ret tt <-> code_proves keys envelope code (w_trace w)) /\
  (r = Ret tt -> w_trace w' = w_trace w ++ [EvNow]).
Proof.
  unfold verifyAgainstEnvelope, VerifyTOTPCode, code_proves. intros H.
  run_step H; bool_simpl; rewrite ?Nat.eqb_eq, ?Nat.eqb_neq in *; split_and!; try done.
  all: try (split; [done|intros (secret & Ho & Hl & Ht)]; congruence).
  split; [eauto|done].
Qed.

(** A user the store has in the tenant. *)
Definition read_in_tenant (userID : string) (t : ID) (s s' : S) (u : User) : Prop :=
  UserByID (c_store c) userID s = (Ret u, s') /\ FromStored (us_TenantID u) = t.

Lemma userInTenant_run userID t (w : world S) r w' :
  userInTenant c userID t w = (r, w') ->
  r <> Fail ThrottledError /\ forall u, r = Ret u -> read_in_tenant userID t (w_store w) (w_store w') u.
Proof.
  unfold userInTenant, read_in_tenant. intros H. run_step H; split; try done.
  bool_simpl. by intros u [= <-].
Qed.

(** The limiter lets the attempt through. *)
Definition admitted (userID step : string) (w : world S) : Prop :=
  match c_throttling c with
  | None => True
  | Some th => (Allow th (w_trace w) (SecondFactorKey th userID step)).1 = true
  end.
Definition limiter_events (userID step : string) : trace :=
  match c_throttling c with None => [] | Some th => [EvAllow (SecondFactorKey th userID step)] end.

(** The limiter refuses the step's key, which is made of the arguments. *)
Definition throttled (userID step : string) (w : world S) : Prop :=
  exists th, c_throttling c = Some th /\
    (Allow th (w_trace w) (SecondFactorKey th userID step)).1 = false.

(** All an attempt does then. *)
Definition asked (userID step : string) (w w' : world S) : Prop :=
  exists th, c_throttling c = Some th /\
    w' = World (w_store w) (w_trace w ++ [EvAllow (SecondFactorKey th userID step)]).

Lemma allowSecondFactor_throttled userID step (w : world S) : throttled userID step w ->
  exists wait w', allowSecondFactor c userID step w = (Ret (Some wait), w') /\ asked userID step w w'.
Proof.
  intros (th & Hth & Ha). unfold allowSecondFactor, asked. rewrite Hth. unfold observe, mbind, M_bind.
  cbn. destruct (Allow th _ _) as [ok wait]. cbn in Ha. subst ok. eauto 6.
Qed.

Lemma allowSecondFactor_store userID step (w : world S) r w' :
  allowSecondFactor c userID step w = (r, w') -> w_store w' = w_store w.
Proof. unfold allowSecondFactor. intros H. by run_step H. Qed.

Lemma allowSecondFactor_run userID step (w : world S) r w' :
  allowSecondFactor c userID step w = (r, w') ->
  w' = World (w_store w) (w_trace w ++ limiter_events userID step) /\
  (r = Ret None <-> admitted userID step w) /\ exists wait, r = Ret wait.
Proof.
  unfold allowSecondFactor, admitted, limiter_events. destruct (c_throttling c) as [th|]; intros H; run_step H.
  - destruct (Allow th _ _) as [[] wait]; cbn; split_and!; eauto; split; congruence.
  - destruct w as [s tr]. rewrite app_nil_r. split_and!; eauto; done.
Qed.

(** What both legs read, and the trace that leaves. *)
Definition reads_state (t : ID) (userID step : string) (w : world S) (state : TOTPState) (w' : world S) : Prop :=
  admitted userID step w /\
  (exists u s1, read_in_tenant userID t (w_store w) s1 u /\
    GetTOTPState (c_store c) userID s1 = (Ret state, w_store w')) /\
  w_trace w' = w_trace w ++ limiter_events userID step ++ [EvStore "UserByID"; EvStore "TOTPState"] /\
  ts_Enrolled state = true.

(** The prefix of both legs, with what they do with the state. *)
Definition leg (t : ID) (userID step : string) {B} (k : TOTPState -> M S B) : M S B :=
  wait ← allowSecondFactor c userID step;
  match wait with
  | Some _ => fail ThrottledError
  | None =>
      userInTenant c userID t;;
      state ← store_call "TOTPState" (GetTOTPState (c_store c) userID); k state
  end.

Lemma leg_Ret t userID step {B} (k : TOTPState -> M S B) (w : world S) b w' :
  (forall state w2, k state w2 = (Ret b, w') -> ts_Enrolled state = true) ->
  leg t userID step k w = (Ret b, w') <->
  exists state w2, reads_state t userID step w state w2 /\ k state w2 = (Ret b, w').
Proof.
  intros Hk. unfold leg, reads_state, read_in_tenant. split.
  - intros (wait & w1 & (-> & Ha & _)%allowSecondFactor_run & H)%bind_Ret_inv.
    destruct wait; [done|]. apply bind_Ret_inv in H as (u & w2 & Hu & H).
    apply bind_Ret_inv in H as (state & w3 & Hst & H).
    apply store_call_inv in Hst as [Hst Htr]. unfold userInTenant in Hu. run_step Hu. bool_simpl.
    exists state, w3. split; [|done]. split_and!; [by apply Ha|by eexists _, _| |by eapply Hk].
    rewrite Htr. match goal with Hw : w_trace w0 = _ |- _ => rewrite Hw end. by rewrite <- !app_assoc.
  - intros (state & w2 & (Ha & (u & s1 & (Hu & Ht) & Hst) & Htr & He) & H).
    destruct (allowSecondFactor c userID step w) as [r w1] eqn:Hal.
    apply allowSecondFactor_run in Hal as Hal'. destruct Hal' as (-> & Hr & _). apply Hr in Ha. subst r.
    unfold mbind, M_bind. rewrite Hal. unfold userInTenant, try_catch, store_call. cbn [w_store w_trace].
    rewrite Hu, bool_decide_eq_true_2 by done. cbn [negb w_store w_trace mret M_ret]. unfold mret, M_ret. cbn.
    rewrite Hst. rewrite <- H. f_equal. destruct w2 as [s2 tr2]. cbn in *. rewrite Htr. by rewrite <- !app_assoc.
Qed.

Lemma VerifyTOTP_leg t userID code keys (w : world S) : c_keys c = Some keys ->
  VerifyTOTP E c t userID code w = leg t userID ThrottleStepTOTP (fun state =>
    if negb (ts_Enrolled state) || bool_decide (ts_Envelope state = []) then fail not_enrolled
    else verifyAgainstEnvelope E keys (ts_Envelope state) code) w.
Proof. intros Hk. unfold VerifyTOTP. by rewrite Hk. Qed.

(** What a leg does with the state may go on. *)
Lemma leg_bind t userID step {B D} (k : TOTPState -> M S B) (k' : B -> M S D) (w : world S) :
  (leg t userID step k ≫= k') w = leg t userID step (fun state => k state ≫= k') w.
Proof.
  unfold leg, mbind, M_bind. destruct (allowSecondFactor c userID step w) as [[[]|e|why] w1]; [done| |done..].
  destruct (userInTenant c userID t w1) as [[]  w2]; [|done..].
  by destruct (store_call "TOTPState" _ w2) as [[] w3].
Qed.

Definition after_match userID code (state : TOTPState) : M S unit :=
  (if negb (ts_Enrolled state) then fail not_enrolled
   else
     matched ← MatchRecoveryCode E code (ts_RecoveryCodeHashes state);
     match matched with
     | None => fail invalid_totp
     | Some matched =>
         mret (List.filter (fun h => negb (String.eqb h matched)) (ts_RecoveryCodeHashes state))
     end) ≫= VerifyRecoveryCode_consume c userID.

Lemma VerifyRecoveryCode_leg t userID code (w : world S) :
  VerifyRecoveryCode E c t userID code w = leg t userID ThrottleStepRecovery (after_match userID code) w.
Proof. apply leg_bind. Qed.

(** The match, and the write of what remains. *)
Lemma after_match_Ret userID code state (w : world S) s' :
  (exists w', after_match userID code state w = (Ret tt, w') /\ w_store w' = s') <->
  ts_Enrolled state = true /\ exists h,
    List.find (fun h => env_bcrypt_ok E h (normaliseRecoveryCode code)) (ts_RecoveryCodeHashes state) = Some h /\
    SetRecoveryCodeHashes (c_store c) userID
      (List.filter (fun h' => negb (String.eqb h' h)) (ts_RecoveryCodeHashes state)) (w_store w) = (Ret tt, s').
Proof.
  unfold after_match. destruct (ts_Enrolled state); cbn [negb].
  2: { split; [intros (w' & [=] & _)|by intros [? _]]. }
  unfold MatchRecoveryCode.
  destruct (match_hashes E (normaliseRecoveryCode code) (ts_RecoveryCodeHashes state) w) as [r w1] eqn:Hm.
  apply match_hashes_run in Hm as Hm'. destruct Hm' as [Hw ->].
  unfold mbind, M_bind. rewrite Hm. destruct (List.find _ _) as [h|].
  2: { split; [intros (w' & [=] & _)|by intros (_ & h & [=] & _)]. }
  unfold VerifyRecoveryCode_consume, wrap, store_call. cbn [mret M_ret]. unfold mret, M_ret.
  rewrite Hw. destruct (SetRecoveryCodeHashes _ _ _ _) as [r s2] eqn:Hset. split.
  - intros (w' & H & <-). split; [done|]. exists h. split; [done|]. rewrite Hset. 
    destruct r as [[]|e|why]; cbn in H; [|done..]. injection H as <-. done.
  - intros (_ & h' & [= <-] & H). rewrite Hset in H. injection H as -> ->. eexists. done.
Qed.

(** C4: A second factor is accepted exactly when it was proved, whatever the
    store answers. [VerifyTOTP] succeeds if and only if the limiter lets the
    attempt through, the user is stored in the tenant, and its enrolled state
    holds an envelope that the key set opens to a secret for which the library
    accepts the six-digit code at the clock's reading of this very call; it
    writes nothing. [VerifyRecoveryCode] succeeds if and only if the attempt is
    let through, the user is stored in the tenant and enrolled, bcrypt accepts
    one of its stored hashes for the normalised code, and the store took the
    list without that hash: the code is spent. And a throttled attempt, on
    either leg, asks the limiter about a key made of the arguments and does not
    touch the store. *)
Theorem VerifyTOTP_sound t userID code keys (w : world S) :
  c_keys c = Some keys ->
  (forall w', VerifyTOTP E c t userID code w = (Ret tt, w') <->
     exists state w2, reads_state t userID ThrottleStepTOTP w state w2 /\ ts_Envelope state <> [] /\
       code_proves keys (ts_Envelope state) code (w_trace w2) /\
       w' = World (w_store w2) (w_trace w2 ++ [EvNow])) /\
  (forall s', (exists w', VerifyRecoveryCode E c t userID code w = (Ret tt, w') /\ w_store w' = s') <->
     exists state w2 h, reads_state t userID ThrottleStepRecovery w state w2 /\
       List.find (fun h => env_bcrypt_ok E h (normaliseRecoveryCode code)) (ts_RecoveryCodeHashes state) = Some h /\
       SetRecoveryCodeHashes (c_store c) userID
         (List.filter (fun h' => negb (String.eqb h' h)) (ts_RecoveryCodeHashes state)) (w_store w2) = (Ret tt, s')) /\
  (throttled userID ThrottleStepTOTP w -> exists w',
     VerifyTOTP E c t userID code w = (Fail ThrottledError, w') /\ asked userID ThrottleStepTOTP w w') /\
  (throttled userID ThrottleStepRecovery w -> exists w',
     VerifyRecoveryCode E c t userID code w = (Fail ThrottledError, w') /\
     asked userID ThrottleStepRecovery w w').
Proof.
  intros Hk. split_and!.
  - intros w'. rewrite (VerifyTOTP_leg _ _ _ _ _ Hk), leg_Ret.
    2: { intros state w2. destruct (ts_Enrolled state); [done|]. by intros [=]. }
    split; intros (state & w2 & Hs & H).
    + exists state, w2. split; [done|]. destruct Hs as (_ & _ & _ & He). rewrite He in H. cbn [negb orb] in H.
      case_bool_decide; [done|]. split; [done|]. destruct (verifyAgainstEnvelope E _ _ _ w2) as [r w3] eqn:Hv.
      apply verifyAgainstEnvelope_run in Hv as (Hw & _ & Hp & Htr). injection H as -> ->.
      split; [by apply Hp|]. destruct w'. cbn in *. by rewrite Hw, <- Htr.
    + destruct H as (Hne & Hp & ->). exists state, w2. split; [done|]. destruct Hs as (_ & _ & _ & ->).
      cbn [negb orb]. rewrite bool_decide_false by done.
      destruct (verifyAgainstEnvelope E _ _ _ w2) as [r w3] eqn:Hv.
      apply verifyAgainstEnvelope_run in Hv as (Hw & _ & Hp' & Htr). apply Hp' in Hp as ->.
      destruct w3. cbn in *. by rewrite Hw, <- Htr.
  - intros s'. setoid_rewrite VerifyRecoveryCode_leg.
    assert (forall state w2 w', after_match userID code state w2 = (Ret tt, w') -> ts_Enrolled state = true) as He.
    { intros state w2 w' H. by apply (after_match_Ret userID code state w2 (w_store w')); exists w'. }
    split.
    + intros (w' & H & Hs'). apply leg_Ret in H as (state & w2 & Hs & H); [|by eauto].
      destruct (proj1 (after_match_Ret userID code state w2 s')) as (_ & h & Hh); [by exists w'|].
      by exists state, w2, h.
    + intros (state & w2 & h & Hs & Hh). pose proof Hs as (_ & _ & _ & Hen).
      destruct (proj2 (after_match_Ret userID code state w2 s')) as (w' & H & Hs'); [by eauto|].
      exists w'. split; [|done]. apply leg_Ret; [by eauto|]. by exists state, w2.
  - intros (wait & w' & Hrun & Hask)%allowSecondFactor_throttled. exists w'. split; [|done].
    unfold VerifyTOTP, mbind, M_bind. by rewrite Hk, Hrun.
  - intros (wait & w' & Hrun & Hask)%allowSecondFactor_throttled. exists w'. split; [|done].
    unfold VerifyRecoveryCode, VerifyRecoveryCode_check, mbind, M_bind. by rewrite Hrun.
Qed.
End AnyStore.

(** ** Over the reference store *)

Section Mem.
Context (E : Env) (c : Core MemStore).
Hypothesis c_mem : c_store c = Mem_store.

(** The first stored hash bcrypt accepts for a code as typed. *)
Definition matching (m : MemStore) (userID typed : string) : option string :=
  List.find (fun h => env_bcrypt_ok E h (normaliseRecoveryCode typed))
    (ts_RecoveryCodeHashes (totp_at m userID)).

Lemma matching_accepts m userID typed h : matching m userID typed = Some h ->
  env_bcrypt_ok E h (normaliseRecoveryCode typed) = true.
Proof. unfold matching. by intros [_ ?]%List.find_some. Qed.

Local Abbreviation admitted := (admitted c).

Lemma allowSecondFactor_admitted userID step w : admitted userID step w ->
  exists w', allowSecondFactor c userID step w = (Ret None, w') /\ w_store w' = w_store w.
Proof.
  unfold admitted, allowSecondFactor. destruct (c_throttling c) as [th|]; [|eauto].
  unfold observe, mbind, M_bind. cbn. intros ->. eauto.
Qed.

(** [VerifyRecoveryCode] of an admitted attempt, in closed form. *)
Lemma VerifyRecoveryCode_run t userID typed w u :
  admitted userID ThrottleStepRecovery w -> user_of (w_store w) t userID u ->
  exists w', VerifyRecoveryCode E c t userID typed w =
    (if ts_Enrolled (totp_at (w_store w) userID) then
       match matching (w_store w) userID typed with Some _ => Ret tt | None => Fail invalid_totp end
     else Fail not_enrolled, w') /\
    w_store w' =
      if ts_Enrolled (totp_at (w_store w) userID) then
        match matching (w_store w) userID typed with
        | Some h => (Mem_SetRecoveryCodeHashes userID (List.filter (fun h' => negb (String.eqb h' h))
            (ts_RecoveryCodeHashes (totp_at (w_store w) userID))) (w_store w)).2
        | None => w_store w
        end
      else w_store w.
Proof.
  intros (w1 & Ha & Hw1)%allowSecondFactor_admitted [Hu Ht].
  unfold VerifyRecoveryCode, VerifyRecoveryCode_check, mbind, M_bind. rewrite Ha.
  rewrite (userInTenant_Mem c c_mem), Hw1, Hu, bool_decide_eq_true_2 by done.
  unfold store_call. rewrite c_mem. cbn [GetTOTPState Mem_store w_store]. unfold Mem_TOTPState.
  rewrite Hu. set (st := totp_at (w_store w) userID).
  set (w2 := World (w_store w) _). assert (w_store w2 = w_store w) as Hw2 by done. clearbody w2.
  destruct (ts_Enrolled st) eqn:He; cbn [negb].
  2: { eexists. split; [done|]. done. }
  match goal with |- context [MatchRecoveryCode E typed ?l ?x] =>
    destruct (MatchRecoveryCode E typed l x) as [r w3] eqn:Hm end.
  apply match_hashes_run in Hm as [Hw3 ->]. unfold matching. fold st.
  destruct (List.find _ _) as [h|]; [|by eexists; split; [done|rewrite Hw3]].
  unfold VerifyRecoveryCode_consume, wrap, store_call. rewrite c_mem. cbn. eexists. split; [done|].
  cbn. by rewrite Hw3, Hw2.
Qed.

(** An attempt that succeeds was let through, for a user of the tenant. *)
Lemma VerifyRecoveryCode_admitted t userID typed w w' :
  VerifyRecoveryCode E c t userID typed w = (Ret tt, w') ->
  admitted userID ThrottleStepRecovery w /\ exists u, user_of (w_store w) t userID u.
Proof.
  unfold VerifyRecoveryCode, VerifyRecoveryCode_check. intros H. inv_run.
  pose proof (allowSecondFactor_store c _ _ _ _ _ Hm0) as Hw. destruct a0; [done|]. inv_run.
  split.
  - unfold admitted. unfold allowSecondFactor in Hm0. destruct (c_throttling c) as [th|]; [|done].
    unfold observe, mbind, M_bind in Hm0. cbn in Hm0. by destruct (Allow th _ _) as [[] ?].
  - rewrite (userInTenant_Mem c c_mem), Hw in Hm1. unfold user_of.
    destruct (usersByID (w_store w) !! userID) as [u|]; [|done]. case_bool_decide; [|done]. eauto.
Qed.

Lemma totp_at_SetRecoveryCodeHashes userID hashes m :
  totp_at (Mem_SetRecoveryCodeHashes userID hashes m).2 userID =
  MkTOTPState (ts_Enrolled (totp_at m userID)) (ts_Envelope (totp_at m userID)) hashes.
Proof. unfold totp_at at 1. cbn. by rewrite lookup_insert_eq. Qed.

Lemma find_none_filter (p : string -> bool) h (l : list string) :
  (forall h', In h' l -> p h' = true -> h' = h) ->
  List.find p (List.filter (fun h' => negb (String.eqb h' h)) l) = None.
Proof.
  induction l as [|x l IH]; cbn; [done|]. intros Hl.
  destruct (String.eqb_spec x h) as [->|Hne]; cbn; [apply IH; auto|].
  destruct (p x) eqn:Hp; [destruct Hne; auto|]. apply IH; auto.
Qed.

(** A recovery code is spent by the use that succeeds. An attempt that is let
    through answers success exactly when the user is enrolled and bcrypt accepts
    one of the stored hashes for the code; it then stores the hashes without the
    first one accepted, and nothing else changes. When no other stored hash
    accepts the code, no later attempt with it, in any spelling, is let in on
    what that write left behind. *)
Theorem VerifyRecoveryCode_once t userID typed w u :
  admitted userID ThrottleStepRecovery w -> user_of (w_store w) t userID u ->
  exists r w1, VerifyRecoveryCode E c t userID typed w = (r, w1) /\
    let before := totp_at (w_store w) userID in
    (r = Ret tt <-> ts_Enrolled before = true /\ exists h, In h (ts_RecoveryCodeHashes before) /\
       env_bcrypt_ok E h (normaliseRecoveryCode typed) = true) /\
    (r <> Ret tt -> w_store w1 = w_store w) /\
    (r = Ret tt -> exists h, matching (w_store w) userID typed = Some h /\
       w_store w1 = with_totp (w_store w) (<[userID := MkTOTPState true (ts_Envelope before)
         (List.filter (fun h' => negb (String.eqb h' h)) (ts_RecoveryCodeHashes before))]>
         (totp (w_store w))) /\
       forall typed' (w2 w3 : world MemStore), w_store w2 = w_store w1 -> strip typed' = strip typed ->
         (forall h', In h' (ts_RecoveryCodeHashes before) ->
            env_bcrypt_ok E h' (normaliseRecoveryCode typed) = true -> h' = h) ->
         VerifyRecoveryCode E c t userID typed' w2 <> (Ret tt, w3)).
Proof.
  intros Ha Hu. destruct (VerifyRecoveryCode_run t userID typed w u Ha Hu) as (w1 & Hrun & Hs).
  eexists _, w1. split; [exact Hrun|]. cbv zeta.
  set (before := totp_at (w_store w) userID) in *. unfold matching in *. fold before in Hs |- *.
  destruct (ts_Enrolled before) eqn:He; [|split_and!; [split; [done|by intros [? _]]|done|done]].
  destruct (List.find _ _) as [h|] eqn:Hf.
  2: { split_and!; [split; [done|]|done|done]. intros [_ (h & Hin & Hok)].
       by rewrite (List.find_none _ _ Hf h Hin) in Hok. }
  apply List.find_some in Hf as [Hin Hok]. split_and!; [split; eauto|done|]. intros _. exists h.
  split; [done|]. split; [by rewrite Hs; cbn; fold before; rewrite He|].
  intros typed' w2 w3 Hw2 Hstrip Honly Hagain.
  destruct (VerifyRecoveryCode_admitted t userID typed' w2 w3 Hagain) as (Ha2 & u2 & Hu2).
  destruct (VerifyRecoveryCode_run t userID typed' w2 u2 Ha2 Hu2) as (w4 & Hrun2 & _).
  rewrite Hagain in Hrun2. unfold matching in Hrun2.
  rewrite Hw2, Hs, totp_at_SetRecoveryCodeHashes, (normalise_strip _ _ Hstrip) in Hrun2.
  fold before in Hrun2. rewrite He in Hrun2. cbn [ts_Enrolled ts_RecoveryCodeHashes] in Hrun2.
  by rewrite find_none_filter in Hrun2.
Qed.
End Mem.

(** ** From enrollment to use *)

Section Enrollment.
Context (E : Env) (c : Core MemStore).
Hypothesis c_mem : c_store c = Mem_store.
(** [rand.Read] fills the slice it is given. *)
Hypothesis rand_fills : forall tr n b, env_rand E tr n = Ret b -> length b = n.
(** [CompareHashAndPassword] accepts what [GenerateFromPassword] made. *)
Hypothesis bcrypt_accepts : forall tr p h, env_bcrypt_hash E tr p = Ret h -> env_bcrypt_ok E h p = true.

Lemma HashRecoveryCodes_Ret codes (w : world MemStore) hs w' :
  HashRecoveryCodes E codes w = (Ret hs, w') ->
  forall code, code ∈ codes -> exists h, In h hs /\ env_bcrypt_ok E h code = true.
Proof.
  revert w hs w'. induction codes as [|c0 codes IH]; intros w hs w'; cbn.
  { intros _ code Hin. by apply elem_of_nil in Hin. }
  intros (h & w1 & Hh%wrap_Ret_inv & H)%bind_Ret_inv.
  apply bind_Ret_inv in Hh as (r & w2 & [[= ->] _]%observe_inv & [Hr _]%lift_inv).
  apply bind_Ret_inv in H as (rest & w3 & Hrest & [[= ->] _]%mret_inv).
  intros code [->|Hin]%elem_of_cons.
  - exists h. split; [by left|]. eapply bcrypt_accepts. by rewrite <- Hr.
  - destruct (IH _ _ _ Hrest code Hin) as (h' & ? & ?). exists h'. split; [by right|done].
Qed.

(** What a mint leaves alone. *)
Lemma issueTokens_keeps userID t authTime acr amr (w : world MemStore) r w' :
  issueTokens E c userID t authTime acr amr w = (r, w') ->
  totp (w_store w') = totp (w_store w) /\ usersByID (w_store w') = usersByID (w_store w).
Proof.
  unfold issueTokens. rewrite c_mem. intros H. run_step H;
    repeat match goal with
    | Hi : IssueAccess _ _ _ _ _ _ _ _ = _ |- _ => apply quiet_IssueAccess in Hi as [? ->]
    | Hi : NewRefreshToken _ _ = _ |- _ => apply quiet_NewRefreshToken in Hi as [? ->]
    | Hi : CreateRefreshSession Mem_store _ _ = _ |- _ => apply (f_equal snd) in Hi; cbn in Hi
    end.
  all: repeat match goal with Hi : _ = w_store _ |- _ => rewrite <- Hi end; done.
Qed.

Lemma StartTOTPEnrollment_Ret t userID (w : world MemStore) en w' :
  StartTOTPEnrollment E c t userID w = (Ret en, w') ->
  exists envelope hashes, totp_at (w_store w') userID = MkTOTPState false envelope hashes /\
    length (te_RecoveryCodes en) = TOTPRecoveryCodeCount /\
    forall code, code ∈ te_RecoveryCodes en -> normaliseRecoveryCode code = code /\
      exists h, In h hashes /\ env_bcrypt_ok E h code = true.
Proof.
  unfold StartTOTPEnrollment. rewrite c_mem. destruct (c_keys c) as [keys|]; [|done]. intros H.
  apply bind_Ret_inv in H as (user & w1 & _ & H). destruct (us_TOTPEnrolled user); [done|].
  apply bind_Ret_inv in H as (secret & w2 & _ & H). apply bind_Ret_inv in H as (envelope & w3 & _ & H).
  apply bind_Ret_inv in H as (codes & w4 & Hc%wrap_Ret_inv & H).
  apply bind_Ret_inv in H as (hashes & w5 & Hh%wrap_Ret_inv & H).
  apply bind_Ret_inv in H as ([] & w6 & [Hs _]%wrap_Ret_inv%store_call_inv & [[= ->] ->]%mret_inv).
  apply (recovery_codes_canonical E rand_fills) in Hc as [Hl Hcanon]. rewrite Forall_forall in Hcanon.
  exists envelope, hashes. cbn in Hs. injection Hs as <-. split_and!; [|done|].
  - unfold totp_at. cbn. by rewrite lookup_insert_eq.
  - cbn [te_RecoveryCodes]. intros code Hin. split; [by apply Hcanon|].
    by eapply HashRecoveryCodes_Ret.
Qed.

Lemma CompleteTOTPEnrollment_Ret t userID code (w : world MemStore) out w' :
  CompleteTOTPEnrollment E c t userID code w = (Ret out, w') ->
  totp_at (w_store w') userID = MkTOTPState true (ts_Envelope (totp_at (w_store w) userID))
    (ts_RecoveryCodeHashes (totp_at (w_store w) userID)) /\
  exists u, user_of (w_store w') t userID u /\ us_TOTPEnrolled u = true.
Proof.
  unfold CompleteTOTPEnrollment. destruct (c_keys c) as [keys|]; [|done]. intros H.
  apply bind_Ret_inv in H as (user & w1 & Hu & H). rewrite (userInTenant_Mem c c_mem) in Hu.
  destruct (usersByID (w_store w) !! userID) as [u|] eqn:Hl; [|done]. case_bool_decide as Ht; [|done].
  injection Hu as <- <-. destruct (us_TOTPEnrolled u); [done|]. rewrite c_mem in H.
  apply bind_Ret_inv in H as (state & w2 & [Hst _]%store_call_inv & H).
  cbn in Hst. unfold Mem_TOTPState in Hst. rewrite Hl in Hst. injection Hst as <- Hw2.
  case_match; [done|]. apply bind_Ret_inv in H as ([] & w3 & [Hw3 _]%verifyAgainstEnvelope_run & H).
  apply bind_Ret_inv in H as (n & w4 & [_ ->]%observe_inv & H).
  apply bind_Ret_inv in H as ([] & w5 & [Hs _]%wrap_Ret_inv%store_call_inv & H).
  apply bind_Ret_inv in H as (tok & w6 & [Hkt Hku]%issueTokens_keeps & [_ ->]%mret_inv).
  cbn in Hs. injection Hs as Hs. unfold totp_at, user_of. rewrite Hkt, Hku, <- Hs.
  unfold set_enrolled. cbn. rewrite Hw3, <- Hw2, Hl. cbn. rewrite !lookup_insert_eq.
  split; [done|]. eexists. split; [split; [done|]|done]. done.
Qed.

(** C22: The codes an enrollment shows open the account. A user completes the
    enrollment that was started, and nothing touches the second factor or the
    user's tenant in between or since: then each of the ten codes, typed in any
    case and with or without the hyphen, is accepted by an attempt the limiter
    lets through. *)
Theorem recovery_codes_work t userID (w : world MemStore) en w1 w1' code out w2 w2' u shown typed :
  StartTOTPEnrollment E c t userID w = (Ret en, w1) ->
  totp_at (w_store w1') userID = totp_at (w_store w1) userID ->
  CompleteTOTPEnrollment E c t userID code w1' = (Ret out, w2) ->
  totp_at (w_store w2') userID = totp_at (w_store w2) userID -> user_of (w_store w2') t userID u ->
  length (te_RecoveryCodes en) = TOTPRecoveryCodeCount /\
  (shown ∈ te_RecoveryCodes en -> strip typed = strip shown ->
   admitted c userID ThrottleStepRecovery w2' ->
   exists w3, VerifyRecoveryCode E c t userID typed w2' = (Ret tt, w3)).
Proof.
  intros (envelope & hashes & Hp & Hlen & Hcodes)%StartTOTPEnrollment_Ret Hsame
    [Hd _]%CompleteTOTPEnrollment_Ret Hsame2 Hu.
  split; [done|]. intros Hin Hstrip Hadm.
  destruct (VerifyRecoveryCode_run E c c_mem t userID typed w2' u Hadm Hu) as (w3 & Hrun & _).
  exists w3. rewrite Hrun. unfold matching. rewrite Hsame2, Hd, Hsame, Hp. cbn.
  destruct (Hcodes shown Hin) as (Hn & h & Hh & Hok).
  destruct (List.find _ _) eqn:Hf; [done|]. apply (List.find_none _ _ Hf) in Hh.
  rewrite (normalise_strip _ _ Hstrip), Hn in Hh. congruence.
Qed.
End Enrollment.

(** ** At concrete inputs *)

Definition bob_id : string := Demo.text "i" 2.
Definition bob_starts := StartTOTPEnrollment Demo.env Demo.core Demo.acme bob_id Demo.registered.
Definition bob_completes :=
  CompleteTOTPEnrollment Demo.env Demo.core Demo.acme bob_id "123456" bob_starts.2.

Definition bob_types := VerifyRecoveryCode Demo.env Demo.core Demo.acme bob_id "cijbe eqsci" bob_completes.2.
Lemma bob_types_run : bob_types = (Ret tt, bob_types.2).
Proof.
  assert (bob_types.1 = Ret tt) as H by (vm_compute; reflexivity).
  by rewrite <- H, <- surjective_pairing.
Qed.

(** A time-based code of Bob's is proved when he uses it, a code of his sheet is
    spent, and one nobody showed is refused. *)
Lemma VerifyTOTP_sound_witness :
  (exists state tr, code_proves Demo.env old_keys (ts_Envelope state) "123456" tr) /\
  (exists state w2 h, reads_state Demo.core Demo.acme bob_id ThrottleStepRecovery bob_completes.2 state w2 /\
     List.find (fun h => env_bcrypt_ok Demo.env h (normaliseRecoveryCode "cijbe eqsci"))
       (ts_RecoveryCodeHashes state) = Some h).
Proof.
  pose (run := VerifyTOTP Demo.env Demo.core Demo.acme bob_id "123456" bob_completes.2).
  destruct (VerifyTOTP_sound Demo.env Demo.core Demo.acme bob_id "123456" old_keys bob_completes.2 eq_refl)
    as [H _].
  destruct (VerifyTOTP_sound Demo.env Demo.core Demo.acme bob_id "cijbe eqsci" old_keys bob_completes.2 eq_refl)
    as (_ & H' & _). split.
  - destruct (proj1 (H run.2)) as (state & w2 & _ & _ & Hp & _).
    + vm_compute. reflexivity.
    + exists state, (w_trace w2). exact Hp.
  - destruct (proj1 (H' (w_store bob_types.2))) as (state & w2 & h & Hs & Hf & _).
    + exists bob_types.2. split; [exact bob_types_run|reflexivity].
    + exists state, w2, h. split; [exact Hs|exact Hf].
Defined.

Definition bob_row : User := user_at (w_store bob_completes.2) bob_id.

Lemma bob_enrolled : user_of (w_store bob_completes.2) Demo.acme bob_id bob_row.
Proof. split; vm_compute; reflexivity. Qed.

(** Bob's fourth code, as he types it. *)
Definition bob_recovers :=
  VerifyRecoveryCode Demo.env Demo.core Demo.acme bob_id "cijbe eqsci" bob_completes.2.

Lemma demo_bcrypt_inj h p : env_bcrypt_ok Demo.env h p = true -> h = "h:" +:+ p.
Proof. cbn. apply String.eqb_eq. Qed.

Lemma VerifyRecoveryCode_once_witness : exists w1 : world MemStore,
  VerifyRecoveryCode Demo.env Demo.core Demo.acme bob_id "cijbe eqsci" bob_completes.2 = (Ret tt, w1) /\
  forall w3, VerifyRecoveryCode Demo.env Demo.core Demo.acme bob_id "CIJBE-EQSCI" w1 <> (Ret tt, w3).
Proof.
  assert (admitted Demo.core bob_id ThrottleStepRecovery bob_completes.2) as Ha by (vm_compute; reflexivity).
  destruct (VerifyRecoveryCode_once Demo.env Demo.core eq_refl Demo.acme bob_id "cijbe eqsci"
    bob_completes.2 bob_row Ha bob_enrolled) as (r & w1 & Hrun & _ & _ & Hr).
  assert (bob_recovers.1 = Ret tt) as Ht by (vm_compute; reflexivity).
  unfold bob_recovers in Ht. rewrite Hrun in Ht. cbn [fst] in Ht. subst r.
  destruct (Hr eq_refl) as (h & Hm & _ & Hno). exists w1. split; [exact Hrun|].
  intros w3. apply (Hno "CIJBE-EQSCI" w1 w3 eq_refl); [vm_compute; reflexivity|].
  intros h' _ Hok. pose proof (demo_bcrypt_inj _ _ (matching_accepts _ _ _ _ _ Hm)) as Hh.
  pose proof (demo_bcrypt_inj _ _ Hok) as Hh'. rewrite Hh'. symmetry. exact Hh.
Defined.

Lemma demo_rand_full tr n b : env_rand Demo.env tr n = Ret b -> length b = n.
Proof. intros [= <-]. apply repeat_length. Qed.

Lemma demo_bcrypt tr p h : env_bcrypt_hash Demo.env tr p = Ret h -> env_bcrypt_ok Demo.env h p = true.
Proof. intros [= <-]. cbn. apply String.eqb_refl. Qed.

Lemma recovery_codes_work_witness : exists w3,
  VerifyRecoveryCode Demo.env Demo.core Demo.acme bob_id "dambq gayda" bob_completes.2 = (Ret tt, w3).
Proof.
  destruct bob_starts as [[en|e|why] w1] eqn:H1; [|vm_compute in H1; discriminate H1..].
  destruct bob_completes as [[out|e|why] w2] eqn:H2; [|vm_compute in H2; discriminate H2..].
  pose proof bob_enrolled as Hu. rewrite H2 in Hu.
  assert (admitted Demo.core bob_id ThrottleStepRecovery bob_completes.2) as Ha by (vm_compute; reflexivity).
  rewrite H2 in Ha. unfold bob_completes in H2. rewrite H1 in H2.
  destruct (recovery_codes_work Demo.env Demo.core eq_refl demo_rand_full demo_bcrypt Demo.acme bob_id
    Demo.registered en w1 w1 "123456" out w2 w2 bob_row "DAMBQ-GAYDA" "dambq gayda"
    H1 eq_refl H2 eq_refl Hu) as [_ Hwork].
  apply Hwork; [|vm_compute; reflexivity|exact Ha].
  vm_compute in H1. injection H1 as <- _. cbn. rewrite !elem_of_cons. tauto.
Defined.

(** Reading the hashes and writing what remains are two calls. Two codes used
    at once are both accepted, and the second write brings the first code back:
    it is accepted again. *)
Definition bob_uses_two : go (list string * list string) * world MemStore :=
  let check code := VerifyRecoveryCode_check Demo.env Demo.core Demo.acme bob_id code in
  (r1 ← check "B4HQ6-DYPB4"; r2 ← check "CAIBA-EAQCA"; mret (r1, r2)) bob_completes.2.

Definition bob_reuses : go unit * world MemStore :=
  (r ← (fun _ => bob_uses_two);
   VerifyRecoveryCode_consume Demo.core bob_id r.1;;
   VerifyRecoveryCode_consume Demo.core bob_id r.2;;
   VerifyRecoveryCode Demo.env Demo.core Demo.acme bob_id "B4HQ6-DYPB4") bob_completes.2.

Example recovery_code_race : bob_reuses.1 = Ret tt.
Proof. vm_compute. reflexivity. Qed.

(** Completing an enrollment mints a session for a user [Login] refuses. *)
Definition bob_deactivated : world MemStore :=
  World (SetActive bob_id false (w_store bob_starts.2)) (w_trace bob_starts.2).

Example deactivated_user_enrolls :
  is_ret (Login Demo.env Demo.core Demo.acme "bob@acme.com" "correct horse" bob_deactivated).1 = false /\
  exists out w', CompleteTOTPEnrollment Demo.env Demo.core Demo.acme bob_id "123456" bob_deactivated =
    (Ret out, w') /\ us_Active out.1 = false /\ tk_Access out.2 = "ii@acme".
Proof. split; [vm_compute; reflexivity|]. eexists _, _. vm_compute. split_and!; reflexivity. Qed.
