(* ===== verification/IdentityAcross.v ===== *)
(** * Entering and impersonating

    [src/identity/membership.go] and [impersonation.go]: the tokens that carry
    two tenants or two users, over any store. *)

From S2P Require Import Prelude Tenant Bytes World Crypto Identity IdentityAuth IdentityLogic IdentitySessions.

#[local] Open Scope string_scope.
#[local] Open Scope list_scope.
#[local] Open Scope Z_scope.

Section Across.
Context (E : Env) {S : Type} (c : Core S).
Local Abbreviation M := (M S).

(** ** Entering another tenant (membership.go) *)

Definition auth_context_required : error :=
  Errorf1 "the claims of the current session" (Sentinel identity_ErrAuthContextRequired).

Definition EnterTenant (session : option AccessClaims) (target : ID) : M Tokens :=
  match c_memberships c, c_jwt c with
  | None, _ => fail (Sentinel identity_ErrNoMembershipStore)
  | _, None => fail (Sentinel identity_ErrNoTokenService)
  | Some ms, Some j =>
      lift (tenantGate target);;
      match session with
      | None => fail auth_context_required
      | Some session =>
          if String.eqb (cl_Subject session) "" || (cl_AuthTime session <=? 0) ||
             String.eqb (cl_ACR session) ""
          then fail auth_context_required
          else
            let userID := cl_Subject session in
            if Entered session then fail (not_found "user")
            else
              try_catch (store_call "UserByID" (UserByID (c_store c) userID))
                (fun e =>
                   if negb (errors_is e identity_ErrNotFound) then
                     fail (Errorf1 "identity: lookup user to enter tenant" e)
                   else fail (not_found "user"))
                (fun user =>
                   let home := FromStored (us_TenantID user) in
                   if negb (String.eqb (cl_TenantID session) (ID_String home)) ||
                      IsSingle home || IsSingle target || bool_decide (home = target)
                   then fail (not_found "user")
                   else
                     member ← wrap (Errorf1 "identity: check membership")
                       (store_call "IsMember" (IsMember ms userID target));
                     if negb member then fail (not_found "user")
                     else if negb (us_Active user) then fail (Sentinel identity_ErrUserInactive)
                     else
                       access ← wrap (Errorf1 "identity: issue entered access token")
                         (IssueAccessEntered E j userID target home (cl_AuthTime session)
                            (cl_ACR session) (c_enterTTL c) []);
                       (if c_OnTenantEntered c then emit (EvHook "OnTenantEntered") else mret tt);;
                       mret (MkTokens access "" time_zero))
      end
  end.

(** The ids kept, first occurrences in the store's order. *)
Fixpoint enterable (home : ID) (seen : gset ID) (all : list ID) : list ID :=
  match all with
  | [] => []
  | id :: all =>
      if negb (Valid id) || IsSingle id || bool_decide (id = home) then enterable home seen all
      else if bool_decide (id ∈ seen) then enterable home seen all
      else id :: enterable home ({[id]} ∪ seen) all
  end.

Definition EnterableTenants (userID : string) : M (list ID) :=
  match c_memberships c with
  | None => fail (Sentinel identity_ErrNoMembershipStore)
  | Some ms =>
      user ← wrap (fun e => if errors_is e identity_ErrNotFound then not_found "user"
                            else Errorf1 "identity: lookup user to list tenants" e)
        (store_call "UserByID" (UserByID (c_store c) userID));
      let home := FromStored (us_TenantID user) in
      if IsSingle home then mret []
      else
        all ← wrap (Errorf1 "identity: list memberships")
          (store_call "MembershipsFor" (MembershipsFor ms userID));
        let out := enterable home ∅ all in
        if negb (us_Active user) && (0 <? length out)%nat then
          fail (Sentinel identity_ErrUserInactive)
        else mret (sort_by (fun id => [ID_String id]) out)
  end.

(** ** Impersonation (impersonation.go) *)

Definition Impersonate (session : option AccessClaims) (targetUserID : string) : M Tokens :=
  match c_impersonation c, c_jwt c with
  | None, _ => fail (Sentinel identity_ErrNoImpersonationPolicy)
  | _, None => fail (Sentinel identity_ErrNoTokenService)
  | Some policy, Some j =>
      match session with
      | None => fail auth_context_required
      | Some session =>
          if String.eqb (cl_Subject session) "" || (cl_AuthTime session <=? 0) ||
             String.eqb (cl_ACR session) ""
          then fail auth_context_required
          else
            let actorID := cl_Subject session in
            if Impersonated session then fail (not_found "user")
            else
              let tenantID := New (cl_TenantID session) in
              let actorHome := New (ActorTenantID session) in
              if negb (Valid tenantID) || IsSingle tenantID || negb (Valid actorHome) ||
                 IsSingle actorHome || bool_decide (actorHome = tenantID)
              then fail (not_found "user")
              else
                try_catch (store_call "UserByID" (UserByID (c_store c) targetUserID))
                  (fun e =>
                     if negb (errors_is e identity_ErrNotFound) then
                       fail (Errorf1 "identity: lookup user to impersonate" e)
                     else fail (not_found "user"))
                  (fun user =>
                     let targetHome := FromStored (us_TenantID user) in
                     if negb (Valid targetHome) || IsSingle targetHome ||
                        negb (bool_decide (targetHome = tenantID))
                     then fail (not_found "user")
                     else
                       allowed ← wrap (Errorf1 "identity: check impersonation policy")
                         (r ← observe EvPolicy (fun tr => policy tr actorID tenantID targetUserID);
                          lift r);
                       if negb allowed then fail (not_found "user")
                       else if negb (us_Active user) then fail (Sentinel identity_ErrUserInactive)
                       else
                         access ← wrap (Errorf1 "identity: issue impersonated access token")
                           (IssueAccessImpersonated E j targetUserID actorID tenantID actorHome
                              (cl_AuthTime session) (cl_ACR session) (c_impersonationTTL c) []);
                         mret (MkTokens access "" time_zero))
      end
  end.

End Across.

(** ** What the tokens say *)

Section Tokens.
Context (E : Env) {S : Type} (c : Core S).

Lemma cut_ttl_bound j ttl : cut_ttl j ttl <= jwt_ttl j.
Proof. unfold cut_ttl. case_match eqn:H; [lia|]. bool_simpl. rewrite Z.ltb_ge in H. lia. Qed.

Lemma IssueAccessEntered_Ret j userID t home authTime acr ttl amr (w : world S) tok w' :
  IssueAccessEntered E j userID t home authTime acr ttl amr w = (Ret tok, w') ->
  signed_access E j tok userID "" (ID_String t) (ID_String home) authTime acr amr (cut_ttl j ttl).
Proof.
  unfold IssueAccessEntered, issueAccess. do 2 (case_match; [done|]).
  by intros (_ & _ & _ & _ & ?)%issueAccessWithActor_Ret.
Qed.

Lemma IssueAccessImpersonated_Ret j target actor t home authTime acr ttl amr (w : world S) tok w' :
  IssueAccessImpersonated E j target actor t home authTime acr ttl amr w = (Ret tok, w') ->
  target <> actor /\ actor <> "" /\
  signed_access E j tok target actor (ID_String t) (ID_String home) authTime acr amr
    (cut_ttl j ttl).
Proof.
  unfold IssueAccessImpersonated. do 4 (case_match; [done|]). bool_simpl.
  intros (_ & _ & _ & _ & ?)%issueAccessWithActor_Ret. naive_solver.
Qed.

(** The call [EnterTenant] made to decide membership. *)
Definition entered_member (session : AccessClaims) (target : ID) (w : world S) (u : User) : Prop :=
  exists ms s1 s2, c_memberships c = Some ms /\
    UserByID (c_store c) (cl_Subject session) (w_store w) = (Ret u, s1) /\
    IsMember ms (cl_Subject session) target s1 = (Ret true, s2) /\
    us_TenantID u = cl_TenantID session /\ us_TenantID u <> "" /\ Entered session = false /\
    Valid target = true /\ IsSingle target = false /\ FromStored (us_TenantID u) <> target.

Lemma entered_member_intro session target (w : world S) ms u s1 s2 :
  c_memberships c = Some ms -> Valid target = true -> Entered session = false ->
  UserByID (c_store c) (cl_Subject session) (w_store w) = (Ret u, s1) ->
  ((cl_TenantID session = ID_String (FromStored (us_TenantID u)) /\
    IsSingle (FromStored (us_TenantID u)) = false) /\ IsSingle target = false) /\
    FromStored (us_TenantID u) <> target ->
  IsMember ms (cl_Subject session) target s1 = (Ret true, s2) ->
  entered_member session target w u.
Proof.
  rewrite FromStored_String. intros ? ? ? ? [[[Ht Hs] ?] ?] ?.
  exists ms, s1, s2. split_and!; try done. intros Hz. rewrite Hz in Hs. discriminate Hs.
Qed.

(** Whatever the stores answer, entering a tenant succeeds only for an
    active user whose session is the one of their own, named tenant, who was
    just confirmed a member of the other, named tenant. The token is signed for
    that user in the entered tenant, with the home tenant beside it, the
    session's authentication time and ACR, and a lifetime no longer than an
    ordinary token's; no refresh token comes with it. And a user is told to be
    inactive only in a tenant they are a member of. *)
Theorem EnterTenant_correct session target w r w' :
  EnterTenant E c (Some session) target w = (r, w') ->
  (forall tok, r = Ret tok -> exists u j ttl, entered_member session target w u /\
     us_Active u = true /\ c_jwt c = Some j /\ ttl <= jwt_ttl j /\ tk_Refresh tok = "" /\
     signed_access E j (tk_Access tok) (cl_Subject session) "" (ID_String target)
       (us_TenantID u) (cl_AuthTime session) (cl_ACR session) [] ttl) /\
  (r = Fail (Sentinel identity_ErrUserInactive) ->
     exists u, entered_member session target w u /\ us_Active u = false).
Proof.
  unfold EnterTenant. destruct (c_memberships c) as [ms|] eqn:Hms.
  2: { intros [= <- <-]. done. }
  destruct (c_jwt c) as [j|] eqn:Hj; [|by intros [= <- <-]].
  unfold tenantGate. destruct (Valid target) eqn:Hv; cbn [negb].
  2: { intros [= <- <-]. done. }
  intros H. split; intros *; intros ->; run_step H; try done; bool_simpl; subst.
  all: match goal with Hu : UserByID _ _ _ = (Ret ?u, _) |- _ => exists u end.
  3: { split; [by eapply entered_member_intro|done]. }
  all: match goal with Hi : IssueAccessEntered _ _ _ _ _ _ _ _ _ _ = _ |- _ =>
         apply IssueAccessEntered_Ret in Hi as Hs; rewrite FromStored_String in Hs end.
  all: exists j, (cut_ttl j (c_enterTTL c)); split_and!; try done;
         [by eapply entered_member_intro|apply cut_ttl_bound].
Qed.

(** The session with the human behind it forgotten. *)
Definition without_actor (s : AccessClaims) : AccessClaims :=
  MkAccessClaims (cl_AuthTime s) (cl_ACR s) (cl_AMR s) (cl_Purpose s) (cl_TenantID s) "" ""
    (cl_Subject s) (cl_Issuer s) (cl_IssuedAt s) (cl_ExpiresAt s).

(** An impersonated session is taken for a home session. [EnterTenant]
    refuses it no more than the impersonated user's own one: both runs are the
    same, and the token of a successful one is signed for the impersonated
    user with no actor, so the human behind the request is lost. *)
Theorem EnterTenant_forgets_impersonation session target w :
  Impersonated session = true ->
  EnterTenant E c (Some session) target w = EnterTenant E c (Some (without_actor session)) target w /\
  forall tok w', EnterTenant E c (Some session) target w = (Ret tok, w') ->
    exists j home ttl, signed_access E j (tk_Access tok) (cl_Subject session) ""
      (ID_String target) home (cl_AuthTime session) (cl_ACR session) [] ttl.
Proof.
  intros Hi. split.
  - unfold EnterTenant, Entered, Impersonated in *. cbn [cl_Subject cl_AuthTime cl_ACR without_actor
      cl_HomeTenantID cl_ActorID cl_TenantID].
    destruct (String.eqb (cl_ActorID session) ""); [discriminate Hi|].
    by rewrite andb_false_r.
  - unfold EnterTenant, tenantGate. destruct (c_memberships c); [|done]. destruct (c_jwt c) as [j|]; [|done].
    intros tok w' H. run_step H; try done.
    all: match goal with Hs : IssueAccessEntered _ _ _ _ _ _ _ _ _ _ = _ |- _ =>
           apply IssueAccessEntered_Ret in Hs end; eauto.
Qed.

(** What [Impersonate] checked before it told anything about the user. *)
Definition impersonable (session : AccessClaims) (targetUserID : string) (w : world S) (u : User)
    : Prop :=
  exists policy s1 tr, c_impersonation c = Some policy /\
    UserByID (c_store c) targetUserID (w_store w) = (Ret u, s1) /\
    policy tr (cl_Subject session) (New (cl_TenantID session)) targetUserID = Ret true /\
    us_TenantID u = cl_TenantID session /\ us_TenantID u <> "" /\
    Impersonated session = false /\ ActorTenantID session <> cl_TenantID session /\
    ActorTenantID session <> "".

Lemma New_inj_ne s1 s2 : New s1 <> New s2 -> s1 <> s2.
Proof. congruence. Qed.

Lemma New_String s : ID_String (New s) = s.
Proof. unfold New. by destruct (String.eqb_spec s "") as [->|]. Qed.

Lemma FromStored_single_false s : IsSingle (FromStored s) = false -> s <> "".
Proof. by intros Hs ->. Qed.

Lemma FromStored_New s1 s2 : FromStored s1 = New s2 -> s1 = s2.
Proof. intros H. by rewrite <- (FromStored_String s1), H, New_String. Qed.

(** C14: Whatever the store and the policy answer, impersonation succeeds only
    for a session that is not itself impersonated and acts outside the human's
    own tenant, for an active user stored in the tenant the session acts in,
    after the policy said yes for exactly this human, tenant and user. The
    token names the user, the human and the human's home tenant, keeps the
    human's authentication time and ACR, lives no longer than an ordinary
    token and cannot be refreshed; and whether the user is active is told only
    to a human the policy allows. *)
Theorem Impersonate_correct session targetUserID w r w' :
  Impersonate E c (Some session) targetUserID w = (r, w') ->
  (forall tok, r = Ret tok -> exists u j ttl, impersonable session targetUserID w u /\
     us_Active u = true /\ c_jwt c = Some j /\ ttl <= jwt_ttl j /\ tk_Refresh tok = "" /\
     targetUserID <> cl_Subject session /\ cl_Subject session <> "" /\
     signed_access E j (tk_Access tok) targetUserID (cl_Subject session) (us_TenantID u)
       (ActorTenantID session) (cl_AuthTime session) (cl_ACR session) [] ttl) /\
  (r = Fail (Sentinel identity_ErrUserInactive) ->
     exists u, impersonable session targetUserID w u /\ us_Active u = false).
Proof.
  unfold Impersonate. destruct (c_impersonation c) as [policy|] eqn:Hp.
  2: { intros [= <- <-]. done. }
  destruct (c_jwt c) as [j|] eqn:Hj; [|by intros [= <- <-]].
  intros H. split; intros *; intros ->; run_step H; try done; bool_simpl; subst.
  all: repeat match goal with H : _ /\ _ |- _ => destruct H end.
  all: match goal with Hu : UserByID _ _ _ = (Ret ?u, _), Ht : FromStored _ = New _,
         Hs : IsSingle (FromStored _) = false, Ha : New (ActorTenantID _) <> _,
         Hv : Valid (New (ActorTenantID _)) = true |- _ =>
         exists u; apply FromStored_New in Ht; apply New_inj_ne in Ha;
         apply New_valid in Hv; apply FromStored_single_false in Hs end.
  all: assert (impersonable session targetUserID w a) as Himp by
    (unfold impersonable; eauto 12).
  2: done.
  match goal with Hs : IssueAccessImpersonated _ _ _ _ _ _ _ _ _ _ _ = _ |- _ =>
    apply IssueAccessImpersonated_Ret in Hs as (? & ? & Hs); rewrite !New_String in Hs end.
  exists j, (cut_ttl j (c_impersonationTTL c)). split_and!; try done; [apply cut_ttl_bound|].
  match goal with Ht : us_TenantID _ = cl_TenantID _ |- _ => by rewrite Ht end.
Qed.
End Tokens.

(** ** What can be entered *)

Section Enterable.
Context (E : Env) (c : Core MemStore).
Hypothesis c_mem : c_store c = Mem_store.
Hypothesis c_members : c_memberships c = Some Mem_memberships.

Lemma enterable_spec home seen all :
  NoDup (enterable home seen all) /\
  forall t, t ∈ enterable home seen all <->
    t ∈ all /\ Valid t = true /\ IsSingle t = false /\ t <> home /\ t ∉ seen.
Proof.
  revert seen. induction all as [|id all IH]; intros seen; cbn [enterable].
  { split; [constructor|set_solver]. }
  destruct (negb (Valid id) || IsSingle id || bool_decide (id = home)) eqn:Hskip.
  - destruct (IH seen) as [Hnd Hin]. split; [done|]. intros t. rewrite Hin, elem_of_cons.
    split; [tauto|]. intros ([->|?] & Hv & Hs & Hne & Hseen); [|done].
    rewrite Hv, Hs, bool_decide_eq_false_2 in Hskip by done. discriminate Hskip.
  - bool_simpl. destruct Hskip as [[Hv Hs] Hne]. case_bool_decide as Hseen.
    + destruct (IH seen) as [Hnd Hin]. split; [done|]. intros t. rewrite Hin. set_solver.
    + destruct (IH ({[id]} ∪ seen)) as [Hnd Hin]. split.
      * constructor; [|done]. rewrite Hin. set_solver.
      * intros t. rewrite elem_of_cons, Hin. destruct (decide (t = id)) as [->|]; set_solver.
Qed.

(** The tenants a user of [home] may enter. *)
Definition may_enter (m : MemStore) (userID : string) (home t : ID) : Prop :=
  IsSingle home = false /\ t ∈ member_set m userID /\
  Valid t = true /\ IsSingle t = false /\ t <> home.

Lemma EnterTenant_not_found session target u w :
  is_Some (c_jwt c) -> Valid target = true ->
  usersByID (w_store w) !! cl_Subject session = Some u ->
  cl_Subject session <> "" -> 0 < cl_AuthTime session ->
  cl_ACR session <> "" -> Entered session = false -> cl_TenantID session = us_TenantID u ->
  (EnterTenant E c (Some session) target w).1 = Fail (not_found "user") <->
  ~ may_enter (w_store w) (cl_Subject session) (FromStored (us_TenantID u)) target.
Proof.
  intros [j Hj] Hv Hu Hsub Hat Hacr Hent Hten.
  unfold EnterTenant, tenantGate, may_enter. rewrite c_members, Hj, Hv, c_mem, Hent, Hten.
  cbn [negb]. rewrite (proj2 (String.eqb_neq _ _) Hsub), (proj2 (String.eqb_neq _ _) Hacr),
    (proj2 (Z.leb_gt _ _) Hat). cbn [orb negb].
  unfold lift, try_catch, wrap, store_call, mbind, M_bind. cbn. unfold Mem_UserByID. rewrite Hu. cbn.
  rewrite FromStored_String, String.eqb_refl. cbn.
  destruct (IsSingle (FromStored (us_TenantID u))); [cbn; naive_solver congruence|].
  destruct (IsSingle target); [cbn; naive_solver congruence|].
  case_bool_decide as Hh; [cbn; naive_solver congruence|].
  cbn. case_bool_decide as Hm; [|cbn; naive_solver congruence]. cbn.
  split; [|intros []; by split_and!]. intros Hr. exfalso. revert Hr.
  destruct (us_Active u); [|done]. cbn.
  destruct (IssueAccessEntered _ _ _ _ _ _ _ _ _ _) as [[a|e|why] w1]; [|done..]. cbn.
  by destruct (c_OnTenantEntered c).
Qed.

(** [EnterableTenants] lists exactly the tenants [EnterTenant] lets the user
    into, each once and in order. For the user's own session a target is
    answered with the "not found" of a refused entry exactly when it is not in
    the list, and a list that is not empty is told only to an active user. *)
Theorem EnterableTenants_exact userID w l w' :
  EnterableTenants c userID w = (Ret l, w') ->
  exists u, usersByID (w_store w) !! userID = Some u /\
    (forall t : ID, t ∈ l <-> may_enter (w_store w) userID (FromStored (us_TenantID u)) t) /\
    NoDup l /\ StronglySorted (key_le (fun id => [ID_String id])) l /\
    (l <> [] -> us_Active u = true) /\
    forall session target, is_Some (c_jwt c) -> Valid target = true ->
      cl_Subject session = userID -> userID <> "" -> 0 < cl_AuthTime session ->
      cl_ACR session <> "" -> Entered session = false -> cl_TenantID session = us_TenantID u ->
      (EnterTenant E c (Some session) target w).1 = Fail (not_found "user") <-> target ∉ l.
Proof.
  unfold EnterableTenants. rewrite c_members, c_mem. cbv beta zeta iota.
  intros (u & w1 & Hu & H)%bind_Ret_inv. apply wrap_Ret_inv, store_call_inv in Hu as [Hu _].
  apply UserByID_errors in Hu as [Hw1 Hu]. exists u. split; [done|].
  assert (forall x : list ID, (forall t : ID, t ∈ x <-> may_enter (w_store w) userID (FromStored (us_TenantID u)) t) ->
    forall session target, is_Some (c_jwt c) -> Valid target = true ->
      cl_Subject session = userID -> userID <> "" -> 0 < cl_AuthTime session ->
      cl_ACR session <> "" -> Entered session = false -> cl_TenantID session = us_TenantID u ->
      (EnterTenant E c (Some session) target w).1 = Fail (not_found "user") <-> target ∉ x) as Hent.
  { intros x Hx session target ? ? <- ? ? ? ? ?. rewrite Hx. by apply EnterTenant_not_found. }
  destruct (IsSingle (FromStored (us_TenantID u))) eqn:Hs.
  { apply mret_inv in H as [[= ->] ->].
    assert (forall t : ID, t ∈ [] <-> may_enter (w_store w) userID (FromStored (us_TenantID u)) t) as Hx.
    { intros t. split; [by intros ?%elem_of_nil|]. intros (Hs' & _). congruence. }
    split_and!; [exact Hx|constructor|constructor|done|by apply Hent]. }
  apply bind_Ret_inv in H as (all & w2 & Ha & H). apply wrap_Ret_inv, store_call_inv in Ha as [Ha _].
  cbn in Ha. unfold Mem_MembershipsFor in Ha. injection Ha as <- _.
  destruct (enterable_spec (FromStored (us_TenantID u)) ∅
    (elements (member_set (w_store w1) userID))) as [Hnd Hin].
  set (out := enterable _ _ _) in *. case_match eqn:Hact; [done|].
  apply mret_inv in H as [[= ->] ->].
  assert (forall t : ID, t ∈ sort_by (fun id => [ID_String id]) out <->
    may_enter (w_store w) userID (FromStored (us_TenantID u)) t) as Hx.
  { intros t. rewrite elem_of_sort_by, Hin, elem_of_elements, Hw1. unfold may_enter. set_solver. }
  split_and!; [exact Hx|by rewrite sort_by_Permutation|apply sort_by_Sorted| |by apply Hent].
  intros Hne. destruct (us_Active u); [done|]. destruct out; [|done]. by destruct Hne.
Qed.
End Enterable.

(** ** At concrete inputs *)

(** Bob of acme is also a member of globex. *)
Definition bob_member : world MemStore :=
  World (AddMembership "ii" (New "globex") (w_store Demo.registered)) (w_trace Demo.registered).
Definition claims (sub tid htid act : string) : AccessClaims :=
  MkAccessClaims 1000 ACRLocalPassword [] purposeAccess tid htid act sub "tamper" 1000 1900.
Definition bob_claims : AccessClaims := claims "ii" "acme" "" "".
Definition bob_enters := EnterTenant Demo.env Demo.core (Some bob_claims) (New "globex") bob_member.

Lemma EnterTenant_correct_witness : exists u, us_Active u = true /\
  entered_member Demo.core bob_claims (New "globex") bob_member u.
Proof.
  assert (is_ret bob_enters.1 = true) as H by (vm_compute; reflexivity).
  destruct (EnterTenant_correct Demo.env Demo.core bob_claims (New "globex") bob_member
    bob_enters.1 bob_enters.2 (surjective_pairing bob_enters)) as [Hok _].
  destruct bob_enters.1 as [tok| |]; [|discriminate H..].
  destruct (Hok tok eq_refl) as (u & j & ttl & Hm & Ha & _). exists u. exact (conj Ha Hm).
Defined.

(** The admin of hq, who has entered acme, acts as Bob... *)
Definition admin_claims : AccessClaims := claims "admin" "acme" "hq" "".
Definition admin_impersonates :=
  Impersonate Demo.env Demo.core (Some admin_claims) "ii" bob_member.

Lemma Impersonate_correct_witness : exists u, us_Active u = true /\
  impersonable Demo.core admin_claims "ii" bob_member u.
Proof.
  assert (is_ret admin_impersonates.1 = true) as H by (vm_compute; reflexivity).
  destruct (Impersonate_correct Demo.env Demo.core admin_claims "ii" bob_member
    admin_impersonates.1 admin_impersonates.2 (surjective_pairing admin_impersonates)) as [Hok _].
  destruct admin_impersonates.1 as [tok| |]; [|discriminate H..].
  destruct (Hok tok eq_refl) as (u & j & ttl & Hm & Ha & _). exists u. exact (conj Ha Hm).
Defined.

(** ... and enters Bob's other tenant as Bob himself. *)
Definition as_bob : AccessClaims := claims "ii" "acme" "hq" "admin".
Definition as_bob_enters := EnterTenant Demo.env Demo.core (Some as_bob) (New "globex") bob_member.

Lemma EnterTenant_forgets_impersonation_witness : exists tok w' j home ttl,
  as_bob_enters = (Ret tok, w') /\
  signed_access Demo.env j (tk_Access tok) "ii" "" "globex" home 1000 ACRLocalPassword [] ttl.
Proof.
  assert (is_ret as_bob_enters.1 = true) as H by (vm_compute; reflexivity).
  destruct (EnterTenant_forgets_impersonation Demo.env Demo.core as_bob (New "globex") bob_member
    eq_refl) as [_ Hs].
  fold as_bob_enters in Hs. destruct as_bob_enters as [[tok| |] w']; [|discriminate H..].
  destruct (Hs tok w' eq_refl) as (j & home & ttl & Hsig).
  exists tok, w', j, home, ttl. exact (conj eq_refl Hsig).
Defined.

Definition bob_tenants := EnterableTenants Demo.core "ii" bob_member.
Lemma EnterableTenants_exact_witness : exists u,
  usersByID (w_store bob_member) !! "ii" = Some u /\
  (forall t : ID, t ∈ [New "globex"] <->
     may_enter (w_store bob_member) "ii" (FromStored (us_TenantID u)) t).
Proof.
  destruct (EnterableTenants_exact Demo.env Demo.core eq_refl eq_refl "ii" bob_member [New "globex"]
    bob_tenants.2) as (u & Hu & Hl & _).
  - vm_compute. reflexivity.
  - exists u. exact (conj Hu Hl).
Defined.
