(* ===== verification/IdentityInvite.v ===== *)
(** * Invitations

    [src/identity/invitation.go]: the one-time invitation, with the accept in
    its two halves, so that histories can interleave them. Also, over those
    histories, where every refresh session comes from. *)

From S2P Require Import Prelude Tenant Bytes World Crypto Secrets Identity IdentityAuth IdentityLogic IdentityTotp IdentityLinking IdentitySessions.

#[local] Open Scope string_scope.
#[local] Open Scope list_scope.
#[local] Open Scope Z_scope.

Section Invite.
Context (E : Env) {S : Type} (c : Core S).
Local Abbreviation M := (M S).

Definition DefaultInvitationTTL : Z := 7 * 24 * 3600 * 10 ^ 9.

Definition Invite (tenantID : ID) (email invitedBy : string) (ttl : Z)
    : M (Invitation * string) :=
  match c_invitations c with
  | None => fail (Sentinel identity_ErrNoInvitationStore)
  | Some is_ =>
      lift (tenantGate tenantID);;
      normalised ← lift (NormaliseEmail E email);
      let ttl := if ttl <=? 0 then DefaultInvitationTTL else ttl in
      token ← wrap (Errorf1 "identity: generate invitation token") (NewRefreshToken E);
      hash ← wrap (Errorf1 "identity: hash invitation token") (lift (HashRefreshToken token));
      n ← now E;
      id ← newID E;
      let inv := MkInvitation id (ID_String tenantID) normalised hash (n + ttl) time_zero
        invitedBy n in
      wrap (Errorf1 "identity: create invitation")
        (store_call "CreateInvitation" (CreateInvitation is_ inv));;
      mret (inv, token)
  end.

Definition invitation_invalid : error := Sentinel identity_ErrInvitationInvalid.

(** [AcceptInvitation] up to the usability check. *)
Definition AcceptInvitation_check (is_ : InvitationStore S) (tenantID : ID)
    (token password : string) : M Invitation :=
  lift (tenantGate tenantID);;
  lift (validatePassword password);;
  match HashRefreshToken token with
  | Fail _ => fail invitation_invalid
  | Panic why => lift (Panic why)
  | Ret hash =>
      inv ← wrap (fun e => if errors_is e identity_ErrNotFound then invitation_invalid
                           else Errorf1 "identity: lookup invitation" e)
        (store_call "InvitationByHash" (InvitationByHash is_ hash));
      if negb (String.eqb (in_TenantID inv) (ID_String tenantID)) then fail invitation_invalid
      else
        n ← now E;
        if negb (Usable inv n) then fail invitation_invalid else mret inv
  end.

(** The rest: consume, then create the account. *)
Definition AcceptInvitation_commit (is_ : InvitationStore S) (password : string)
    (inv : Invitation) : M (User * Tokens) :=
  n ← now E;
  wrap (fun e => if errors_is e identity_ErrInvitationConsumed || errors_is e identity_ErrNotFound
                 then invitation_invalid else Errorf1 "identity: consume invitation" e)
    (store_call "MarkAccepted" (MarkAccepted is_ (in_ID inv) n));;
  Register E c (FromStored (in_TenantID inv)) (in_Email inv) password.

Definition AcceptInvitation (tenantID : ID) (token password : string) : M (User * Tokens) :=
  match c_invitations c with
  | None => fail (Sentinel identity_ErrNoInvitationStore)
  | Some is_ =>
      inv ← AcceptInvitation_check is_ tenantID token password;
      AcceptInvitation_commit is_ password inv
  end.
End Invite.

(** ** Over any store *)

Section Accept.
Context (E : Env) {S : Type} (c : Core S).

Lemma Register_Ret tenantID email password (w : world S) u tok w' :
  Register E c tenantID email password w = (Ret (u, tok), w') ->
  exists j now ttl, c_jwt c = Some j /\ NormaliseEmail E email = Ret (us_Email u) /\
    us_TenantID u = ID_String tenantID /\ us_Active u = true /\
    signed_access E j (tk_Access tok) (us_ID u) "" (us_TenantID u) "" (Unix now)
      (c_defaultACR c) [] ttl.
Proof.
  unfold Register. intros H. run_step H.
  all: match goal with Hi : issueTokens _ _ _ _ _ _ _ _ = _ |- _ =>
         apply issueTokens_Ret in Hi as (j & Hj & _ & _ & _ & Hs) end.
  all: rewrite FromStored_String in Hs; cbn in Hs |- *; eauto 10.
Qed.

(** An accepted invitation makes the account it was issued for. Whatever
    the store answers, an accept that returns a user has found an invitation
    under the digest of the presented token, issued for the routed tenant,
    pending and unexpired when it was checked, and the store has agreed to
    consume it; the account is created, active, under the invited address and
    the invited tenant, neither of them the caller's choice, and the token is
    signed for it there. *)
Theorem AcceptInvitation_bound tenantID token password w u tok w' :
  AcceptInvitation E c tenantID token password w = (Ret (u, tok), w') ->
  exists is_ h inv s1 s2 n t j at_ ttl,
    c_invitations c = Some is_ /\ HashRefreshToken token = Ret h /\
    InvitationByHash is_ h (w_store w) = (Ret inv, s1) /\ Usable inv n = true /\
    MarkAccepted is_ (in_ID inv) t s1 = (Ret tt, s2) /\
    in_TenantID inv = ID_String tenantID /\ us_TenantID u = in_TenantID inv /\
    NormaliseEmail E (in_Email inv) = Ret (us_Email u) /\ us_Active u = true /\
    c_jwt c = Some j /\
    signed_access E j (tk_Access tok) (us_ID u) "" (ID_String tenantID) "" at_ (c_defaultACR c)
      [] ttl.
Proof.
  unfold AcceptInvitation. destruct (c_invitations c) as [is_|] eqn:His; [|done].
  intros (inv & w1 & Hc & H)%bind_Ret_inv. unfold AcceptInvitation_check in Hc.
  unfold AcceptInvitation_commit in H. run_step Hc. run_step H. bool_simpl.
  match goal with x : unit, Hm : MarkAccepted _ _ _ _ = (Ret ?x, _) |- _ => destruct x end.
  apply Register_Ret in H as (j & at_ & ttl & Hj & He & Ht & Ha & Hs).
  rewrite FromStored_String in Ht. rewrite Ht in Hs. 
  match goal with Hten : in_TenantID ?inv = _ |- _ => rewrite Hten in Hs; exists is_, a1, inv end.
  do 4 eexists. exists j, (Unix at_), ttl. split_and!; eauto.
Qed.
End Accept.

(** ** Over the reference store: once, under any interleaving *)

Section Once.
Context (E : Env) (c : Core MemStore).
Hypothesis c_mem : c_store c = Mem_store.

(** What the process may do between the two halves of an accept: a call of the
    service, an invite, the checks of another accept, or its other half, for
    any invitation at all. *)
Inductive step :=
  | SOp (o : op)
  | SInvite (tenantID : ID) (email invitedBy : string) (ttl : Z)
  | SCheck (tenantID : ID) (token password : string)
  | SCommit (password : string) (inv : Invitation).

Definition step_exec (w : world MemStore) (s : step) : world MemStore :=
  match s with
  | SOp o => exec E c w o
  | SInvite t e by_ ttl => (Invite E c t e by_ ttl w).2
  | SCheck t tok p => (AcceptInvitation_check E Mem_invitations t tok p w).2
  | SCommit p inv => (AcceptInvitation_commit E c Mem_invitations p inv w).2
  end.
Definition steps (l : list step) (w : world MemStore) : world MemStore := foldl step_exec w l.

Hypothesis c_inv : c_invitations c = Some Mem_invitations.
Hypothesis newID_unique :
  forall tr1 tr2, length tr1 <> length tr2 -> env_newID E tr1 <> env_newID E tr2.
Hypothesis clock_after_year_1 : forall tr, env_now E tr <> time_zero.

Local Abbreviation keeps m := (hoare E (fun _ => True) m (fun _ _ => True)).

Lemma keeps_Invite tenantID email by_ ttl : keeps (Invite E c tenantID email by_ ttl).
Proof.
  unfold Invite. rewrite c_inv.
  eapply hoare_bind; [apply keeps_quiet; quiet_tac|]. intros u1.
  eapply hoare_bind; [apply keeps_quiet; quiet_tac|]. intros normalised.
  eapply hoare_bind; [apply keeps_quiet, quiet_wrap, quiet_NewRefreshToken|]. intros token.
  eapply hoare_bind; [apply keeps_quiet; quiet_tac|]. intros hash.
  eapply hoare_bind; [apply keeps_quiet; unfold now; quiet_tac|]. intros n.
  eapply hoare_bind; [apply hoare_newID; [done|apply stable_True]|]. intros id.
  eapply hoare_bind; [|by intros; apply hoare_mret].
  apply hoare_wrap. eapply hoare_conseq; [apply hoare_CreateInvitation|by intros w _ [_ Hf]|done].
Qed.

Lemma quiet_AcceptInvitation_check tenantID token password :
  quiet (AcceptInvitation_check E Mem_invitations tenantID token password).
Proof.
  unfold AcceptInvitation_check, now. quiet_tac. by apply quiet_read.
Qed.

Lemma keeps_commit password inv : keeps (AcceptInvitation_commit E c Mem_invitations password inv).
Proof.
  unfold AcceptInvitation_commit.
  eapply hoare_bind; [apply hoare_now_nonzero; [done|apply stable_True]|]. intros n. cbn beta.
  apply hoare_pure. intros Hn.
  eapply hoare_bind.
  { apply hoare_wrap. by apply hoare_MarkAccepted. }
  intros u. eapply hoare_conseq; [by apply keeps_Register|done..].
Qed.

Lemma step_ok s w : ok E w -> ok E (step_exec w s) /\ evolves w (step_exec w s).
Proof.
  intros Hok. destruct s; cbn [step_exec]; [by apply exec_ok|eapply hoare_snd; [|done]..];
    eauto using keeps_Invite, keeps_commit, keeps_quiet, quiet_AcceptInvitation_check.
Qed.

Lemma steps_ok l w : ok E w -> ok E (steps l w) /\ evolves w (steps l w).
Proof.
  revert w. induction l as [|s l IH]; intros w Hok; [done|].
  destruct (step_ok s w Hok) as [Hok' Hev], (IH _ Hok') as [? ?]. split; [done|by etrans].
Qed.

(** The second half of an accept on an invitation that is spent. *)
Lemma commit_spent password inv i w :
  invitations (w_store w) !! in_ID inv = Some i -> Pending i = false ->
  exists w', AcceptInvitation_commit E c Mem_invitations password inv w =
    (Fail invitation_invalid, w') /\ w_store w' = w_store w.
Proof.
  intros Hi Hp. unfold AcceptInvitation_commit, now, observe, mbind, M_bind, wrap, store_call.
  cbn. unfold Mem_MarkAccepted. rewrite Hi. unfold Pending in Hp. rewrite Hp. cbn. eauto.
Qed.

(** A commit that gets past the store's compare-and-set spends it. *)
Lemma commit_spends password inv w r w' :
  ok E w -> AcceptInvitation_commit E c Mem_invitations password inv w = (r, w') ->
  r <> Fail invitation_invalid ->
  exists i, invitations (w_store w') !! in_ID inv = Some i /\ Pending i = false.
Proof.
  intros Hok H Hr. unfold AcceptInvitation_commit in H.
  apply bind_inv in H as [(n & w1 & Hn & H)|[(e & Hn & _)|(e & Hn & _)]];
    apply observe_inv in Hn as [Hn Hw1]; [|discriminate Hn..].
  injection Hn as ->. destruct (grow_trace E w [EvNow] Hok) as [Hok1 _]. rewrite <- Hw1 in Hok1.
  apply bind_inv in H as [(u & w2 & Hm & H)|[(e & Hm & ->)|(e & Hm & ->)]].
  - apply wrap_Ret_inv in Hm. destruct (hoare_MarkAccepted E _ _ (clock_after_year_1 _) _ _ _ Hok1 I Hm)
      as (Hok2 & _ & Hpost). destruct (Hpost u eq_refl) as (i & Hi & Hp).
    destruct (keeps_Register E newID_unique c c_mem _ _ _ _ _ _ Hok2 I H) as (_ & Hev & _).
    exists i. split; [|done]. by apply (ev_invitation _ _ Hev).
  - exfalso. apply wrap_inv in Hm as (r1 & Hm & Hr1). apply store_call_inv in Hm as [Hm _].
    cbn in Hm. unfold Mem_MarkAccepted in Hm. repeat case_match; injection Hm as <- _; cbn in Hr1;
      [by injection Hr1 as ->|done|by injection Hr1 as ->].
  - apply wrap_inv in Hm as (r1 & Hm & Hr1). apply store_call_inv in Hm as [Hm _].
    cbn in Hm. unfold Mem_MarkAccepted in Hm. repeat case_match; injection Hm as <- _; done.
Qed.

(** C10: An invitation makes at most one account. However accepts, invites and
    the calls of the service interleave, once the second half of one accept has
    got past the store (so that it created an account, or failed at it), the
    second half of any other accept of the same invitation, even one whose
    checks all passed before, answers the one collapsed error and changes
    nothing. *)
Theorem accepted_once tr before inv1 password1 r1 w1 between inv2 password2 :
  let w := steps before (World NewMemStore tr) in
  AcceptInvitation_commit E c Mem_invitations password1 inv1 w = (r1, w1) ->
  r1 <> Fail invitation_invalid -> in_ID inv2 = in_ID inv1 ->
  let w2 := steps between w1 in
  exists w3, AcceptInvitation_commit E c Mem_invitations password2 inv2 w2 =
    (Fail invitation_invalid, w3) /\ w_store w3 = w_store w2.
Proof.
  intros w H Hr Hid w2. destruct (steps_ok before _ (start_ok E tr)) as [Hok _]. fold w in Hok.
  destruct (commit_spends _ _ _ _ _ Hok H Hr) as (i & Hi & Hp).
  destruct (keeps_commit password1 inv1 _ _ _ Hok I H) as (Hok1 & _).
  destruct (steps_ok between w1 Hok1) as [_ Hev].
  apply (commit_spent _ _ i); [|done]. rewrite Hid. by apply (ev_invitation _ _ Hev).
Qed.
End Once.

(** ** Where a session comes from *)

Section Origin.
Context (E : Env) (c : Core MemStore).
Hypothesis c_mem : c_store c = Mem_store.
Hypothesis c_inv : c_invitations c = Some Mem_invitations.

(** What a session says of its authentication: the user, the tenant, the time
    and the ACR. *)
Definition stamp (s : RefreshSession) : string * string * Z * string :=
  (se_UserID s, se_TenantID s, Unix (se_AuthTime s), se_ACR s).
Definition holds_stamp (m : MemStore) st : Prop := exists id s, sessions m !! id = Some s /\ stamp s = st.

(** A run that makes no session: every one there is afterwards says what one
    said before. *)
Definition no_mint {A} (m : M MemStore A) : Prop := forall w r w', m w = (r, w') ->
  w_trace w `prefix_of` w_trace w' /\ forall st, holds_stamp (w_store w') st -> holds_stamp (w_store w) st.

Lemma no_mint_bind {A B} (m : M MemStore A) (k : A -> M MemStore B) :
  no_mint m -> (forall a, no_mint (k a)) -> no_mint (m ≫= k).
Proof.
  intros H1 H2 w r w' [(a & w1 & Hm & Hk)|[(e & Hm & ->)|(e & Hm & ->)]]%bind_inv; [|by eauto..].
  apply H1 in Hm as [? ?]. apply H2 in Hk as [? ?]. split; [by etrans|auto].
Qed.
Lemma no_mint_try {A B} (m : M MemStore A) on_err (k : A -> M MemStore B) :
  no_mint m -> (forall e, no_mint (on_err e)) -> (forall a, no_mint (k a)) -> no_mint (try_catch m on_err k).
Proof.
  intros H1 He H2 w r w' [(a & w1 & Hm & Hk)|[(e & w1 & Hm & Hk)|(e & Hm & ->)]]%try_catch_inv; [| |by eauto].
  - apply H1 in Hm as [? ?]. apply H2 in Hk as [? ?]. split; [by etrans|auto].
  - apply H1 in Hm as [? ?]. apply He in Hk as [? ?]. split; [by etrans|auto].
Qed.
Lemma no_mint_wrap {A} f (m : M MemStore A) : no_mint m -> no_mint (wrap f m).
Proof. intros H w r w' (r1 & Hm & ->)%wrap_inv. eauto. Qed.
Lemma no_mint_quiet {A} (m : M MemStore A) : quiet m -> no_mint m.
Proof. intros H w r w' [Hw Htr]%(quiet_run _ _ _ _ H). by rewrite Hw. Qed.
Lemma no_mint_store {A} method (op : MemStore -> go A * MemStore) :
  (forall m st, holds_stamp (op m).2 st -> holds_stamp m st) -> no_mint (store_call method op).
Proof.
  intros H w r w' [Hop Htr]%store_call_inv. rewrite Htr. split; [by apply prefix_app_r|].
  intros st Hst. apply H. by rewrite Hop.
Qed.
(** A write that leaves the sessions alone. *)
Lemma no_mint_write {A} method (op : MemStore -> go A * MemStore) :
  (forall m, sessions (op m).2 = sessions m) -> no_mint (store_call method op).
Proof. intros H. apply no_mint_store. intros m st (id & s & Hs & <-). exists id, s. by rewrite <- H. Qed.

Lemma holds_stamp_revoke id t m st : holds_stamp (Mem_RevokeRefreshSession id t m).2 st -> holds_stamp m st.
Proof.
  unfold Mem_RevokeRefreshSession. destruct (sessions m !! id) as [s|] eqn:Hs; [|done].
  destruct (Revoked s); [done|]. cbn. intros (id' & s' & Hs' & <-). cbn in Hs'.
  apply lookup_insert_Some in Hs' as [[<- <-]|[_ Hs']]; [by exists id, s|by exists id', s'].
Qed.
Lemma holds_stamp_revoke_all sel t m st : holds_stamp (revoke_all sel t m) st -> holds_stamp m st.
Proof.
  unfold revoke_all. intros (id & s & Hs & <-). cbn in Hs. apply lookup_fmap_Some in Hs as (s0 & <- & Hs).
  exists id, s0. split; [done|]. by destruct (_ && _).
Qed.

Lemma sessions_set_enrolled id b m : sessions (set_enrolled id b m) = sessions m.
Proof. unfold set_enrolled. by destruct (usersByID m !! id). Qed.

Ltac quiet_call := apply no_mint_quiet; lazymatch goal with
  | |- quiet (sessionInTenant _ _ _) => by apply quiet_sessionInTenant
  | |- quiet (userInTenant _ _ _) => by apply quiet_userInTenant
  | |- quiet (VerifyTOTP _ _ _ _ _) => by apply quiet_VerifyTOTP
  | |- quiet (VerifyRecoveryCode_check _ _ _ _ _) => by apply quiet_recovery_check
  | |- quiet (NewRefreshToken _) => apply quiet_NewRefreshToken
  | |- quiet (Unlink_check _ _ _ _) => by apply keeps_Unlink_check
  | |- quiet (GenerateTOTPRecoveryCodes _) => apply quiet_recovery_codes
  | |- quiet (HashRecoveryCodes _ _) => apply quiet_hash_codes
  | |- quiet (Seal _ _ _) => unfold Seal, rand_read; quiet_tac
  | |- quiet (GenerateTOTPSecret _) => unfold GenerateTOTPSecret, rand_read; quiet_tac
  | |- quiet (HashPassword _ _) => unfold HashPassword; quiet_tac
  | |- quiet (VerifyPassword _ _ _) => apply quiet_VerifyPassword
  | |- quiet (invalid_credentials _ _) => apply quiet_invalid_credentials
  end.
Ltac no_mint_tac := repeat first
  [ quiet_call | apply no_mint_bind; [|intros ?] | apply no_mint_try; [|intros ?|intros ?] | apply no_mint_wrap
  | solve [by apply no_mint_quiet, quiet_read]
  | solve [apply no_mint_quiet; quiet_tac]
  | solve [apply no_mint_store; intros ? ?; apply holds_stamp_revoke]
  | solve [apply no_mint_store; intros ? ?; apply holds_stamp_revoke_all]
  | solve [apply no_mint_write; intros ?; cbn; rewrite ?sessions_set_enrolled;
           unfold Mem_CreateUser, Mem_TouchIdentityLastLogin, Mem_ProvisionUserWithIdentity,
             Mem_InsertIdentity, Mem_CreateInvitation, Mem_MarkAccepted; repeat case_match; done]
  | case_match ].

Lemma no_mint_Logout tenantID token : no_mint (Logout E c tenantID token).
Proof.
  unfold Logout, now. rewrite c_mem. no_mint_tac.
Qed.
Lemma no_mint_RevokeAll tenantID userID : no_mint (RevokeAllSessions E c tenantID userID).
Proof.
  unfold RevokeAllSessions, now. rewrite c_mem. no_mint_tac.
Qed.
Lemma no_mint_RevokeTenant tenantID : no_mint (RevokeAllSessionsForTenant E c tenantID).
Proof. unfold RevokeAllSessionsForTenant, now. rewrite c_mem. no_mint_tac. Qed.
Lemma no_mint_StartTOTP tenantID userID : no_mint (StartTOTPEnrollment E c tenantID userID).
Proof.
  unfold StartTOTPEnrollment. rewrite c_mem. no_mint_tac.
Qed.
Lemma no_mint_Recovery tenantID userID code : no_mint (VerifyRecoveryCode E c tenantID userID code).
Proof.
  unfold VerifyRecoveryCode, VerifyRecoveryCode_consume. rewrite c_mem. no_mint_tac.
Qed.
Lemma no_mint_Disable tenantID userID code : no_mint (DisableTOTP E c tenantID userID code).
Proof.
  unfold DisableTOTP. rewrite c_mem. no_mint_tac.
Qed.
Lemma no_mint_Resolve tenantID provider subject : no_mint (ResolveByIdentity E c tenantID provider subject).
Proof.
  unfold ResolveByIdentity, identityByProviderSubject, now. rewrite c_mem. no_mint_tac.
Qed.
Lemma no_mint_Provision tenantID email provider subject : no_mint (ProvisionUserWithIdentity E c tenantID email provider subject).
Proof.
  unfold ProvisionUserWithIdentity, countUsers, now, newID. rewrite c_mem. no_mint_tac.
Qed.
Lemma no_mint_Link tenantID userID provider subject : no_mint (Link E c tenantID userID provider subject).
Proof.
  unfold Link, now, newID. rewrite c_mem. no_mint_tac.
Qed.
Lemma no_mint_Unlink tenantID userID identityID : no_mint (Unlink c tenantID userID identityID).
Proof.
  unfold Unlink, Unlink_delete. rewrite c_mem. no_mint_tac.
Qed.
Lemma no_mint_Invite tenantID email by_ ttl : no_mint (Invite E c tenantID email by_ ttl).
Proof.
  unfold Invite, now, newID. rewrite c_inv. no_mint_tac.
Qed.
Lemma no_mint_Refresh_check tenantID token : no_mint (Refresh_check E c tenantID token).
Proof. unfold Refresh_check, ignore_err, now. rewrite c_mem. no_mint_tac. Qed.

(** A run from [w] that makes at most sessions that say what [Q] allows of the
    trace it ends with. *)
Definition mints (Q : trace -> string * string * Z * string -> Prop) (w : world MemStore) {A}
    (m : M MemStore A) : Prop := forall r w', m w = (r, w') ->
  w_trace w `prefix_of` w_trace w' /\
  forall st, holds_stamp (w_store w') st -> holds_stamp (w_store w) st \/ Q (w_trace w') st.

Section Mints.
Context (Q : trace -> string * string * Z * string -> Prop).

Lemma mints_none {A} (m : M MemStore A) w : no_mint m -> mints Q w m.
Proof. intros H r w' [? ?]%H. eauto. Qed.
(** What comes before the mint, and what it learnt. *)
Lemma mints_bind {A B} (m : M MemStore A) (k : A -> M MemStore B) w : no_mint m ->
  (forall a w1, m w = (Ret a, w1) -> w_trace w `prefix_of` w_trace w1 -> mints Q w1 (k a)) ->
  mints Q w (m ≫= k).
Proof.
  intros H1 H2 r w' [(a & w1 & Hm & Hk)|[(e & Hm & ->)|(e & Hm & ->)]]%bind_inv;
    [|by eapply (mints_none _ _ H1)..].
  destruct (H1 _ _ _ Hm) as [Htr Hs]. destruct (H2 _ _ Hm Htr _ _ Hk) as [? Hq].
  split; [by etrans|]. intros st [?|?]%Hq; auto.
Qed.
Lemma mints_try {A B} (m : M MemStore A) on_err (k : A -> M MemStore B) w : no_mint m ->
  (forall e, no_mint (on_err e)) ->
  (forall a w1, m w = (Ret a, w1) -> w_trace w `prefix_of` w_trace w1 -> mints Q w1 (k a)) ->
  mints Q w (try_catch m on_err k).
Proof.
  intros H1 He H2 r w' [(a & w1 & Hm & Hk)|[(e & w1 & Hm & Hk)|(e & Hm & ->)]]%try_catch_inv;
    destruct (H1 _ _ _ Hm) as [Htr Hs]; [| |by eauto].
  - destruct (H2 _ _ Hm Htr _ _ Hk) as [? Hq]. split; [by etrans|]. intros st [?|?]%Hq; auto.
  - destruct (He _ _ _ _ Hk) as [? ?]. split; [by etrans|auto].
Qed.
Lemma mints_wrap {A} f (m : M MemStore A) w : mints Q w m -> mints Q w (wrap f m).
Proof. intros H r w' (r1 & Hm & ->)%wrap_inv. eauto. Qed.
Lemma mints_last {A B} (m : M MemStore A) (f : A -> B) w : mints Q w m -> mints Q w (a ← m; mret (f a)).
Proof.
  intros H r w' [(a & w1 & Hm & [_ ->]%mret_inv)|[(e & Hm & _)|(e & Hm & _)]]%bind_inv; by eapply H.
Qed.

(** The one row a mint writes. *)
Lemma mints_issueTokens userID tenantID authTime acr amr w :
  (forall tr', w_trace w `prefix_of` tr' -> Q tr' (userID, ID_String tenantID, authTime, acr)) ->
  mints Q w (issueTokens E c userID tenantID authTime acr amr).
Proof.
  intros HQ. unfold issueTokens. rewrite c_mem.
  apply mints_bind; [no_mint_tac|]. intros j w1 _ H1.
  apply mints_bind; [apply no_mint_wrap, no_mint_quiet, quiet_IssueAccess|]. intros access w2 _ H2.
  case_match; [apply mints_none; no_mint_tac|].
  apply mints_bind; [no_mint_tac|]. intros refresh w3 _ H3.
  apply mints_bind; [no_mint_tac|]. intros hash w4 _ H4.
  apply mints_bind; [unfold now; no_mint_tac|]. intros n w5 _ H5.
  apply mints_bind; [unfold newID; no_mint_tac|]. intros id w6 _ H6.
  apply mints_last, mints_wrap. intros r w' [Hop Htr]%store_call_inv. rewrite Htr.
  split; [by apply prefix_app_r|]. cbn in Hop. injection Hop as <- <-.
  intros st (id' & s & Hs & <-). cbn in Hs.
  apply lookup_insert_Some in Hs as [[_ <-]|[_ Hs]]; [right|left; by exists id', s].
  unfold stamp. cbn [se_UserID se_TenantID se_AuthTime se_ACR]. rewrite Unix_time_Unix.
  apply HQ. do 6 (etrans; [eassumption|]). by apply prefix_app_r.
Qed.
End Mints.

(** The clock was read by the call that went from [w] to the trace [tr'], after
    the effects [tr]. *)
Definition read_at (w : world MemStore) (tr' tr : trace) : Prop :=
  w_trace w `prefix_of` tr /\ (tr ++ [EvNow]) `prefix_of` tr'.

Local Abbreviation stamp_t := (string * string * Z * string)%type.

(** What a call may say of the authentication behind a session it makes. *)
Inductive authenticated (w : world MemStore) (tr' : trace) : step -> stamp_t -> Prop :=
  | ByRegister t e p u tr : read_at w tr' tr ->
      authenticated w tr' (SOp (ORegister t e p)) (u, ID_String t, Unix (env_now E tr), c_defaultACR c)
  | ByPassword t e p e' u m tr : read_at w tr' tr ->
      NormaliseEmail E e = Ret e' -> Mem_UserByEmail t e' (w_store w) = (Ret u, m) ->
      env_bcrypt_ok E (us_PasswordHash u) p = true ->
      authenticated w tr' (SOp (OLogin t e p)) (us_ID u, us_TenantID u, Unix (env_now E tr), c_defaultACR c)
  | BySecondFactor t u code tr : read_at w tr' tr ->
      authenticated w tr' (SOp (OCompleteTOTP t u code)) (u, ID_String t, Unix (env_now E tr), c_defaultACR c)
  | ByInvitation p inv u tr : read_at w tr' tr ->
      authenticated w tr' (SCommit p inv) (u, in_TenantID inv, Unix (env_now E tr), c_defaultACR c)
  | ByCaller u t authTime acr amr :
      authenticated w tr' (SOp (OMint u t authTime acr amr)) (u, ID_String t, authTime, acr).

(** [tr'] only grows. *)
Lemma mints_now (Q : trace -> stamp_t -> Prop) w0 w userID tenantID acr amr {A} (f : Tokens -> A) :
  w_trace w0 `prefix_of` w_trace w ->
  (forall tr tr', read_at w0 tr' tr -> Q tr' (userID, ID_String tenantID, Unix (env_now E tr), acr)) ->
  mints Q w (n ← now E; tokens ← issueTokens E c userID tenantID (Unix n) acr amr; mret (f tokens)).
Proof.
  intros H0 HQ. apply mints_bind; [unfold now; no_mint_tac|]. intros n w1 [[= ->] ->]%observe_inv _.
  apply mints_last, mints_issueTokens. intros tr' Htr. cbn in Htr. by apply HQ.
Qed.

Lemma mints_Register (Q : trace -> stamp_t -> Prop) w0 t e p w : w_trace w0 `prefix_of` w_trace w ->
  (forall tr tr' u, read_at w0 tr' tr -> Q tr' (u, ID_String t, Unix (env_now E tr), c_defaultACR c)) ->
  mints Q w (Register E c t e p).
Proof.
  intros H0 HQ. unfold Register, countUsers. rewrite c_mem.
  apply mints_bind; [no_mint_tac|]. intros e' w1 _ H1.
  apply mints_bind; [no_mint_tac|]. intros u1 w2 _ H2.
  apply mints_bind; [no_mint_tac|]. intros h w3 _ H3.
  apply mints_bind; [no_mint_tac|]. intros n w4 _ H4.
  apply mints_bind; [unfold newID; no_mint_tac|]. intros id w5 _ H5.
  apply mints_bind; [unfold now; no_mint_tac|]. intros cr w6 _ H6.
  apply mints_bind; [no_mint_tac|]. intros u2 w7 _ H7.
  apply mints_bind; [no_mint_tac|]. intros u3 w8 _ H8.
  apply (mints_now _ w0).
  - do 8 (etrans; [eassumption|]). done.
  - intros tr tr' Hr. cbn. rewrite FromStored_String. by apply HQ.
Qed.

Lemma mints_Login t e p w :
  mints (fun tr' => authenticated w tr' (SOp (OLogin t e p))) w (Login E c t e p).
Proof.
  unfold Login. destruct (NormaliseEmail E e) as [e'| |] eqn:He; [|apply mints_none; no_mint_tac..].
  apply mints_bind; [apply no_mint_quiet; unfold allowLogin; quiet_tac|].
  intros wait w1 [-> _]%allowLogin_run H1. destruct wait; [apply mints_none; no_mint_tac|].
  apply mints_try; [unfold userByEmail; rewrite c_mem; no_mint_tac|intros err; no_mint_tac|].
  intros u w2 [(_ & [=] & _)|(_ & Hu & Htr)]%userByEmail_run H2. rewrite c_mem in Hu. cbn [w_store] in Hu.
  case_match; [apply mints_none; no_mint_tac|].
  apply mints_try; [no_mint_tac|intros err; no_mint_tac|].
  intros [] w3 [_ Hb]%VerifyPassword_run H3.
  apply mints_bind.
  { apply no_mint_quiet. case_match; [quiet_tac|]. unfold secondFactorRequiredAtLogin, now. quiet_tac. }
  intros [] w4 _ H4; [apply mints_none; no_mint_tac|].
  apply (mints_now _ w).
  - do 3 (etrans; [eassumption|]). done.
  - intros tr tr' Hr. rewrite FromStored_String. by eapply ByPassword.
Qed.

Lemma mints_IssueTokensForUser u t authTime acr amr w :
  mints (fun tr' => authenticated w tr' (SOp (OMint u t authTime acr amr))) w
    (IssueTokensForUser E c u t authTime acr amr).
Proof.
  unfold IssueTokensForUser. rewrite c_mem.
  apply mints_bind; [no_mint_tac|]. intros j w1 _ _.
  apply mints_try; [no_mint_tac|intros err; no_mint_tac|]. intros x w2 _ _.
  repeat (case_match; [apply mints_none; no_mint_tac|]).
  apply mints_issueTokens. intros tr' _. constructor.
Qed.

Lemma mints_CompleteTOTP t u code w :
  mints (fun tr' => authenticated w tr' (SOp (OCompleteTOTP t u code))) w (CompleteTOTPEnrollment E c t u code).
Proof.
  unfold CompleteTOTPEnrollment. rewrite c_mem. destruct (c_keys c) as [keys|]; [|apply mints_none; no_mint_tac].
  apply mints_bind; [no_mint_tac|]. intros user w1 _ H1. case_match; [apply mints_none; no_mint_tac|].
  apply mints_bind; [no_mint_tac|]. intros state w2 _ H2. case_match; [apply mints_none; no_mint_tac|].
  apply mints_bind.
  { apply no_mint_quiet. unfold verifyAgainstEnvelope. quiet_tac. apply quiet_VerifyTOTPCode. }
  intros u1 w3 _ H3. apply mints_bind; [unfold now; no_mint_tac|]. intros n w4 [[= ->] ->]%observe_inv H4.
  apply mints_bind; [no_mint_tac|]. intros u2 w5 _ H5.
  apply mints_last, mints_issueTokens. intros tr' H6. apply BySecondFactor. split.
  - do 2 (etrans; [eassumption|]). done.
  - by etrans; [exact H5|].
Qed.

Lemma mints_commit p inv w :
  mints (fun tr' => authenticated w tr' (SCommit p inv)) w (AcceptInvitation_commit E c Mem_invitations p inv).
Proof.
  unfold AcceptInvitation_commit. apply mints_bind; [unfold now; no_mint_tac|]. intros n w1 _ H1.
  apply mints_bind; [no_mint_tac|]. intros u w2 _ H2. apply (mints_Register _ w); [by etrans|].
  intros tr tr' x Hr. rewrite FromStored_String. by constructor.
Qed.

(** A rotation hands the stamp of the session it revokes on. *)
Lemma mints_Refresh t token w : ok E w -> mints (fun _ _ => False) w (Refresh E c t token).
Proof.
  intros Hok. unfold Refresh. apply mints_bind; [apply no_mint_Refresh_check|].
  intros [[s u] n] w1 Hc _. apply (Refresh_check_Ret E c c_mem) in Hc as (_ & Hp & _ & _ & _ & _ & _ & _ & _ & _ & Hw1 & _).
  assert (holds_stamp (w_store w1) (stamp s)) as Hs.
  { unfold presented in Hp. destruct (HashRefreshToken token) as [h| |]; [|done..]. cbn in Hp.
    destruct (hashToID (w_store w) !! h) as [id|] eqn:Hid; [|done]. injection Hp as <-.
    rewrite Hw1. exists id, (session_at (w_store w) id). split; [|done]. by apply (indexed_session E w h). }
  intros r w' H. 
  enough (mints (fun _ st => st = stamp s) w1 (Refresh_rotate E c (s, u, n))) as Hm.
  { destruct (Hm r w' H) as [? Hq]. split; [done|]. intros st [?| ->]%Hq; by left. }
  unfold Refresh_rotate. rewrite c_mem. apply mints_bind; [no_mint_tac|]. intros x w2 _ _.
  apply mints_last, mints_issueTokens. intros tr' _. unfold stamp. by rewrite FromStored_String.
Qed.

Lemma stamped_SetActive u b m st : holds_stamp (SetActive u b m) st -> holds_stamp m st.
Proof. unfold SetActive. by destruct (usersByID m !! u). Qed.

Lemma mints_step o w : ok E w -> forall st, holds_stamp (w_store (step_exec E c w o)) st ->
  holds_stamp (w_store w) st \/ authenticated w (w_trace (step_exec E c w o)) o st.
Proof.
  intros Hok.
  assert (forall A (m : M MemStore A), mints (fun tr' => authenticated w tr' o) w m ->
    forall st, holds_stamp (w_store (m w).2) st -> holds_stamp (w_store w) st \/ authenticated w (w_trace (m w).2) o st) as Hm.
  { intros A m H. destruct (m w) as [r w'] eqn:Hr. by destruct (H _ _ Hr). }
  destruct o as [[]| | |]; cbn [step_exec exec]; try (apply Hm, mints_none;
    first [apply no_mint_Logout|apply no_mint_RevokeAll|apply no_mint_RevokeTenant|apply no_mint_StartTOTP
      |apply no_mint_Recovery|apply no_mint_Disable|apply no_mint_Resolve|apply no_mint_Provision
      |apply no_mint_Link|apply no_mint_Unlink|apply no_mint_Invite
      |by apply no_mint_quiet, quiet_VerifyTOTP|apply no_mint_quiet, quiet_AcceptInvitation_check]).
  - apply Hm. apply (mints_Register _ w); [done|]. by constructor.
  - apply Hm, mints_Login.
  - apply Hm, mints_IssueTokensForUser.
  - destruct (Refresh E c tenantID token w) as [r w'] eqn:Hr. intros st Hst.
    by destruct (proj2 (mints_Refresh _ _ _ Hok _ _ Hr) st Hst) as [?|?]; [left|].
  - intros st Hst. left. by eapply stamped_SetActive.
  - apply Hm, mints_CompleteTOTP.
  - apply Hm, mints_commit.
Qed.

Hypothesis newID_unique :
  forall tr1 tr2, length tr1 <> length tr2 -> env_newID E tr1 <> env_newID E tr2.
Hypothesis clock_after_year_1 : forall tr, env_now E tr <> time_zero.

(** Every stamp goes back to the call that authenticated it. *)
Lemma stamped_from tr l st : holds_stamp (w_store (steps E c l (World NewMemStore tr))) st ->
  exists before o after, l = before ++ o :: after /\
    let w := steps E c before (World NewMemStore tr) in
    authenticated w (w_trace (step_exec E c w o)) o st.
Proof.
  induction l as [|o l IH] using rev_ind; [intros (id & s & Hs & _); cbn in Hs; by rewrite lookup_empty in Hs|].
  unfold steps. rewrite foldl_app. cbn [foldl]. fold (steps E c l (World NewMemStore tr)). intros Hst.
  destruct (steps_ok E c c_mem c_inv newID_unique clock_after_year_1 l _ (start_ok E tr)) as [Hok _].
  apply mints_step in Hst as [(before & o' & after & -> & Ha)%IH|Ha]; [| |done].
  - exists before, o', (after ++ [o]). by rewrite <- app_assoc.
  - by exists l, o, [].
Qed.

(** C13: However registrations, logins, second factors, mints, refreshes,
    logouts, revocations, deactivations, invitations and their accepts
    interleave, every session in the store belongs to a user who is stored in
    the very tenant of the session, has a positive authentication time and an
    ACR, and says of its user, tenant, authentication time and ACR exactly what
    the call said that authenticated it: a registration, a login whose password
    was accepted, a completed second factor or an accepted invitation, at the
    clock's reading during that call and with the default ACR, or a mint, with
    the values its caller gave. So no history makes a session for a tenant its
    user does not belong to, and no chain of refreshes moves the authentication
    time or the ACR. *)
Theorem sessions_bound tr l id s :
  let m := w_store (steps E c l (World NewMemStore tr)) in
  sessions m !! id = Some s ->
  (exists u, usersByID m !! se_UserID s = Some u /\ us_ID u = se_UserID s /\ us_TenantID u = se_TenantID s) /\
  0 < Unix (se_AuthTime s) /\ se_ACR s <> "" /\
  exists before o after, l = before ++ o :: after /\
    let w := steps E c before (World NewMemStore tr) in
    authenticated w (w_trace (step_exec E c w o)) o (stamp s).
Proof.
  intros m Hs. destruct (steps_ok E c c_mem c_inv newID_unique clock_after_year_1 l _ (start_ok E tr)) as [Hok _].
  destruct (ok_session _ _ _ Hok _ _ Hs) as (_ & _ & (u & Hu & Ht) & ? & ?).
  destruct (ok_user _ _ _ Hok _ _ Hu) as [? _]. split_and!; [by exists u|done|done|].
  apply stamped_from. by exists id, s.
Qed.
End Origin.

(** ** At concrete inputs *)

(** Ann is invited to acme; the token goes out by mail. *)
Definition ann_invited := Invite Demo.env Demo.core Demo.acme "Ann@Acme.com" "admin" 0 Demo.start.
Definition ann_token : string :=
  match ann_invited.1 with Ret (_, token) => token | _ => "" end.
Definition ann_invitation : Invitation :=
  match ann_invited.1 with
  | Ret (inv, _) => inv
  | _ => MkInvitation "" "" "" "" time_zero time_zero "" time_zero
  end.
Definition ann_accepts :=
  AcceptInvitation Demo.env Demo.core Demo.acme ann_token "correct horse" ann_invited.2.

Lemma ann_accepted : exists u tok, ann_accepts = (Ret (u, tok), ann_accepts.2).
Proof.
  assert (is_ret ann_accepts.1 = true) as H by (vm_compute; reflexivity).
  destruct ann_accepts as [[[u tok]| |] w]; [eauto|discriminate H..].
Qed.

Lemma AcceptInvitation_bound_witness : exists u inv, in_TenantID inv = "acme" /\
  us_TenantID u = in_TenantID inv /\ NormaliseEmail Demo.env (in_Email inv) = Ret (us_Email u).
Proof.
  destruct ann_accepted as (u & tok & H).
  destruct (AcceptInvitation_bound Demo.env Demo.core Demo.acme ann_token "correct horse"
    ann_invited.2 u tok ann_accepts.2 H)
    as (is_ & h & inv & s1 & s2 & n & t & j & at_ & ttl & _ & _ & _ & _ & _ & Ht & Hu & He & _).
  exists u, inv. exact (conj Ht (conj Hu He)).
Defined.

(** Two accepts of Ann's invitation check before either consumes it. *)
Definition ann_race : list step :=
  [SInvite Demo.acme "Ann@Acme.com" "admin" 0; SCheck Demo.acme ann_token "correct horse";
   SCheck Demo.acme ann_token "battery staple"].
Definition ann_checked := steps Demo.env Demo.core ann_race Demo.start.
Definition ann_first :=
  AcceptInvitation_commit Demo.env Demo.core Mem_invitations "correct horse" ann_invitation
    ann_checked.

Lemma accepted_once_witness : is_ret ann_first.1 = true /\
  exists w3, AcceptInvitation_commit Demo.env Demo.core Mem_invitations "battery staple"
    ann_invitation ann_first.2 = (Fail invitation_invalid, w3) /\ w_store w3 = w_store ann_first.2.
Proof.
  assert (is_ret ann_first.1 = true) as H by (vm_compute; reflexivity). split; [exact H|].
  apply (accepted_once Demo.env Demo.core eq_refl eq_refl demo_ids_unique demo_clock [] ann_race
    ann_invitation "correct horse" ann_first.1 ann_first.2 [] ann_invitation "battery staple").
  - exact (surjective_pairing ann_first).
  - intros Hf. rewrite Hf in H. discriminate H.
  - reflexivity.
Defined.

(** Bob registers and refreshes; Ann is invited. *)
Definition bob_and_ann : list step :=
  [SOp (ORegister Demo.acme "Bob@Acme.com " "correct horse"); SOp (ORefresh Demo.acme bob_token);
   SInvite Demo.acme "Ann@Acme.com" "admin" 0].
Definition bob_rotated : RefreshSession :=
  match filter (fun kv => Revoked kv.2 = false)
    (map_to_list (sessions (w_store (steps Demo.env Demo.core bob_and_ann (World NewMemStore []))))) with
  | (_, s) :: _ => s
  | [] => session_at NewMemStore ""
  end.

(** Bob's live session is the successor of the one his registration made: its
    stamp is the registration's. *)
Lemma sessions_bound_witness : exists before o after,
  bob_and_ann = before ++ o :: after /\
  let w := steps Demo.env Demo.core before (World NewMemStore []) in
  authenticated Demo.env Demo.core w (w_trace (step_exec Demo.env Demo.core w o)) o (stamp bob_rotated).
Proof.
  destruct (sessions_bound Demo.env Demo.core eq_refl eq_refl demo_ids_unique demo_clock [] bob_and_ann
    (se_ID bob_rotated) bob_rotated) as (_ & _ & _ & H).
  - vm_compute. reflexivity.
  - exact H.
Defined.
