(* ===== verification/AuditEvent.v ===== *)
(** * The audit event, its canonical payload and its redaction

    [src/audit/audit.go], [canonical_v4.go], [redaction.go]: the event
    record, the length-prefixed payload that is hashed into the chain, the
    salted commitments to the personal fields, and the in-memory half of an
    erasure. The store and the chain are in [AuditStore]. *)

From S2P Require Import Prelude Bytes Tenant.

#[local] Open Scope string_scope.
#[local] Open Scope list_scope.
#[local] Open Scope Z_scope.

(** ** Data *)

Definition HashSize : nat := 32.
Definition RowSaltSize : nat := 32.
Definition ActorTypeUser : string := "user".
Definition ActorTypeServiceAccount : string := "service_account".
Definition ActorTypeSystem : string := "system".
Definition CanonicalVersion4 : Z := 4.

Record Actor := {
  a_Type : string;
  a_UserID : string;
  a_Email : string;
  a_Name : string;
  a_IP : string;
  a_TenantID : string
}.

Definition ActorService (saID saName : string) (tenantID : Tenant.ID) : Actor :=
  {| a_Type := ActorTypeServiceAccount; a_UserID := saID; a_Email := "";
     a_Name := saName; a_IP := ""; a_TenantID := ID_String tenantID |}.

Definition ActorSystem (name : string) : Actor :=
  {| a_Type := ActorTypeSystem; a_UserID := "system"; a_Email := "";
     a_Name := name; a_IP := ""; a_TenantID := "" |}.

Record Commitments := {
  c_ActorEmail : bytes;
  c_ActorName : bytes;
  c_ActorIP : bytes;
  c_Before : bytes;
  c_After : bytes
}.

(** [ev_Before] and [After] are raw JSON text; a nil one and an empty one are
    never told apart by the code, so both are the empty list. *)
Record Event := {
  ev_ID : string;
  ev_At : time;
  ev_Actor : Actor;
  ev_Action : string;
  ev_ResourceType : string;
  ev_ResourceID : string;
  ev_RequestID : string;
  ev_ClusterID : string;
  ev_Before : bytes;
  ev_After : bytes;
  ev_PrevHash : bytes;
  ev_Hash : bytes;
  ev_CanonicalVersion : Z;
  ev_TenantID : string;
  ev_RowSalt : bytes;
  ev_Commitments : Commitments
}.

#[export] Instance Actor_eq_dec : EqDecision Actor.
Proof. solve_decision. Defined.
#[export] Instance Commitments_eq_dec : EqDecision Commitments.
Proof. solve_decision. Defined.
#[export] Instance Event_eq_dec : EqDecision Event.
Proof. solve_decision. Defined.

(** ** Length-prefixed encoding *)

(** [appendLP]: the length is truncated to 32 bits, as [uint32(len(value))]
    truncates it. *)
Definition appendLP (dst value : bytes) : bytes :=
  dst ++ be 4 (N.modulo (N.of_nat (length value)) (2 ^ 32)) ++ value.

Definition appendStringField (dst : bytes) (name value : string) : bytes :=
  appendLP (appendLP dst (to_bytes name)) (to_bytes value).

Definition appendBytesField (dst : bytes) (name : string) (value : bytes) : bytes :=
  appendLP (appendLP dst (to_bytes name)) value.

(** [uint64(value)] reinterprets the int64's bits. *)
Definition appendInt64Field (dst : bytes) (name : string) (value : Z) : bytes :=
  appendLP (appendLP dst (to_bytes name)) (be 8 (Z.to_N (value mod 2 ^ 64))).

Definition canonicalPayloadV4 (e : Event) (prevHash : bytes) : bytes :=
  let buf := [] in
  let buf := appendStringField buf "id" (ev_ID e) in
  let buf := appendInt64Field buf "at" (UnixNano (ev_At e)) in
  let buf := appendStringField buf "actor.user_id" (a_UserID (ev_Actor e)) in
  let buf := appendBytesField buf "actor.email" (c_ActorEmail (ev_Commitments e)) in
  let buf := appendBytesField buf "actor.name" (c_ActorName (ev_Commitments e)) in
  let buf := appendBytesField buf "actor.ip" (c_ActorIP (ev_Commitments e)) in
  let t := a_Type (ev_Actor e) in
  let t := if String.eqb t "" then ActorTypeUser else t in
  let buf := appendStringField buf "actor.type" t in
  let buf := appendStringField buf "action" (ev_Action e) in
  let buf := appendStringField buf "resource_type" (ev_ResourceType e) in
  let buf := appendStringField buf "resource_id" (ev_ResourceID e) in
  let buf := appendStringField buf "request_id" (ev_RequestID e) in
  let buf := appendStringField buf "tenant_id" (ev_TenantID e) in
  let buf := appendStringField buf "actor.tenant_id" (a_TenantID (ev_Actor e)) in
  let buf := appendBytesField buf "before" (c_Before (ev_Commitments e)) in
  let buf := appendBytesField buf "after" (c_After (ev_Commitments e)) in
  appendBytesField buf "prev_hash" prevHash.

Definition canonicalPayloadForVersion (e : Event) (prevHash : bytes) (version : Z) : go bytes :=
  if negb (version =? CanonicalVersion4) then Fail (Errorf0 "audit: unknown canonical_version")
  else Ret (canonicalPayloadV4 e prevHash).

(** [hashChainLink] writes the previous hash and the payload to one SHA-256. *)
Definition hashChainLink (prevHash payload : bytes) : bytes := sha256 (prevHash ++ payload).

Fixpoint bytesEqual_from (a b : bytes) : bool :=
  match a, b with
  | [], _ => true
  | x :: a, y :: b => Ascii.eqb x y && bytesEqual_from a b
  | _ :: _, [] => false
  end.
Definition bytesEqual (a b : bytes) : bool :=
  (length a =? length b)%nat && bytesEqual_from a b.

Definition HashHex (h : bytes) : string :=
  if (length h =? 0)%nat then "" else hex h.

(** ** Commitments *)

Definition fieldActorEmail : string := "actor.email".
Definition fieldActorName : string := "actor.name".
Definition fieldActorIP : string := "actor.ip".
Definition fieldBefore : string := "before".
Definition fieldAfter : string := "after".

(** What [commit] hashes. *)
Definition commit_input (salt : bytes) (field : string) (value : bytes) : bytes :=
  salt ++ appendLP (appendLP [] (to_bytes field)) value.
Definition commit (salt : bytes) (field : string) (value : bytes) : bytes :=
  sha256 (commit_input salt field value).

Definition ComputeCommitments (salt : bytes) (e : Event) : Commitments :=
  {| c_ActorEmail := commit salt fieldActorEmail (to_bytes (a_Email (ev_Actor e)));
     c_ActorName := commit salt fieldActorName (to_bytes (a_Name (ev_Actor e)));
     c_ActorIP := commit salt fieldActorIP (to_bytes (a_IP (ev_Actor e)));
     c_Before := commit salt fieldBefore (ev_Before e);
     c_After := commit salt fieldAfter (ev_After e) |}.

Definition IsRedacted (salt : bytes) : bool :=
  forallb (fun b => Ascii.eqb b (ascii_of_N 0)) salt.

(** The table of the loop in [VerifyCommitments]. *)
Definition commitment_table (e : Event) (want : Commitments) : list (string * bytes * bytes) :=
  let c := ev_Commitments e in
  [(fieldActorEmail, c_ActorEmail c, c_ActorEmail want);
   (fieldActorName, c_ActorName c, c_ActorName want);
   (fieldActorIP, c_ActorIP c, c_ActorIP want);
   (fieldBefore, c_Before c, c_Before want);
   (fieldAfter, c_After c, c_After want)].

Fixpoint verify_fields (t : list (string * bytes * bytes)) : option error :=
  match t with
  | [] => None
  | (field, stored, got) :: t =>
      if negb (bytesEqual stored got)
      then Some (Errorf1 ("event field " +:+ field) (Sentinel audit_ErrCommitmentMismatch))
      else verify_fields t
  end.

(** The pair [(checked, err)]. *)
Definition VerifyCommitments (e : Event) : bool * option error :=
  if negb (ev_CanonicalVersion e =? CanonicalVersion4) then (false, None)
  else if IsRedacted (ev_RowSalt e) then (false, None)
  else (true, verify_fields (commitment_table e (ComputeCommitments (ev_RowSalt e) e))).

(** [Redact], on the event its argument points to. *)
Definition Redact (e : Event) : Event :=
  {| ev_ID := ev_ID e; ev_At := ev_At e;
     ev_Actor := {| a_Type := a_Type (ev_Actor e); a_UserID := a_UserID (ev_Actor e);
                  a_Email := ""; a_Name := ""; a_IP := "";
                  a_TenantID := a_TenantID (ev_Actor e) |};
     ev_Action := ev_Action e; ev_ResourceType := ev_ResourceType e; ev_ResourceID := ev_ResourceID e;
     ev_RequestID := ev_RequestID e; ev_ClusterID := ev_ClusterID e;
     ev_Before := []; ev_After := [];
     ev_PrevHash := ev_PrevHash e; ev_Hash := ev_Hash e; ev_CanonicalVersion := ev_CanonicalVersion e;
     ev_TenantID := ev_TenantID e;
     ev_RowSalt := map (fun _ => ascii_of_N 0) (ev_RowSalt e);
     ev_Commitments := ev_Commitments e |}.

(** ** ComputeHash *)

Definition validateRequiredFields (e : Event) : go unit :=
  if String.eqb (ev_ID e) "" then Fail (Errorf0 "audit: event id is required")
  else if IsZero_time (ev_At e) then Fail (Errorf0 "audit: event at is required")
  else if String.eqb (ev_Action e) "" then Fail (Errorf0 "audit: event action is required")
  else Ret tt.

Definition commitments_match (c want : Commitments) : bool :=
  bytesEqual (c_ActorEmail c) (c_ActorEmail want) &&
  bytesEqual (c_ActorName c) (c_ActorName want) &&
  bytesEqual (c_ActorIP c) (c_ActorIP want) &&
  bytesEqual (c_Before c) (c_Before want) &&
  bytesEqual (c_After c) (c_After want).

Definition ComputeHash (e : Event) (prevHash : bytes) : go bytes :=
  _ ← validateRequiredFields e;
  if negb (length prevHash =? HashSize)%nat then Fail (Errorf0 "audit: prevHash must be exactly 32 bytes")
  else if negb (ev_CanonicalVersion e =? CanonicalVersion4)
  then Fail (Errorf0 "audit: ComputeHash requires CanonicalVersion4")
  else if negb (length (ev_RowSalt e) =? RowSaltSize)%nat || IsRedacted (ev_RowSalt e)
  then Fail (Errorf0 "audit: ComputeHash requires a fresh 32-byte RowSalt")
  else
    let want := ComputeCommitments (ev_RowSalt e) e in
    if negb (commitments_match (ev_Commitments e) want)
    then Fail (Errorf0 "audit: ComputeHash: event Commitments do not match")
    else Ret (hashChainLink prevHash (canonicalPayloadV4 e prevHash)).

(** ** Byte equality *)

Lemma bytesEqual_spec a b : bytesEqual a b = true <-> a = b.
Proof.
  unfold bytesEqual. rewrite andb_true_iff, Nat.eqb_eq. revert b.
  induction a as [|x a IH]; intros [|y b]; cbn; [done|by split; [intros []|]..|].
  rewrite andb_true_iff, Ascii.eqb_eq. split.
  - intros [[= Hl] [-> Hab]]. f_equal. by apply IH.
  - intros [= -> ->]. destruct (proj2 (IH b) eq_refl). auto.
Qed.

Lemma bytesEqual_refl a : bytesEqual a a = true.
Proof. by apply bytesEqual_spec. Qed.

Lemma bytesEqual_false a b : bytesEqual a b = false <-> a <> b.
Proof. rewrite <- not_true_iff_false. by rewrite bytesEqual_spec. Qed.

(** ** The encoding is injective *)

(** One length-prefixed field. *)
Definition lp (v : bytes) : bytes := appendLP [] v.

(** A length the 32-bit prefix can carry. *)
Definition fits (v : bytes) : Prop := (N.of_nat (length v) < 2 ^ 32)%N.

Lemma appendLP_lp dst v : appendLP dst v = dst ++ lp v.
Proof. done. Qed.

Lemma lp_app_inj v w r s : fits v -> fits w -> lp v ++ r = lp w ++ s -> v = w /\ r = s.
Proof.
  unfold fits, lp, appendLP. intros Hv Hw. rewrite !N.mod_small by done.
  cbn [app]. rewrite <- !app_assoc. intros H.
  apply app_inj_1 in H as [Hn H]; [|by rewrite !be_length].
  apply be_inj in Hn; [|done..]. apply app_inj_1 in H; [done|]. lia.
Qed.

(** A sequence of length-prefixed fields can be read back in one way only. *)
Lemma lp_concat_inj vs ws : Forall fits vs -> Forall fits ws ->
  concat (map lp vs) = concat (map lp ws) -> vs = ws.
Proof.
  assert (Hne : forall v r, lp v ++ r <> []).
  { intros v r H. apply (f_equal length) in H. unfold lp, appendLP in H.
    rewrite !length_app, be_length in H. cbn in H. lia. }
  intros Hv. revert ws. induction Hv as [|v vs Hfv Hv IH]; intros ws Hw; cbn.
  - destruct Hw as [|w ws Hfw Hw]; [done|]. cbn. intros H. by destruct (Hne w (concat (map lp ws))).
  - destruct Hw as [|w ws Hfw Hw]; cbn; intros H; [by destruct (Hne v (concat (map lp vs)))|].
    apply lp_app_inj in H as [-> H]; [|done..]. f_equal. by apply IH.
Qed.

(** The default the payload applies to an empty actor type. *)
Definition type_or_user (t : string) : string := if String.eqb t "" then ActorTypeUser else t.

(** The names and values of the payload, in order. *)
Definition payload_fields (e : Event) (prevHash : bytes) : list bytes :=
  [to_bytes "id"; to_bytes (ev_ID e);
   to_bytes "at"; be 8 (Z.to_N (UnixNano (ev_At e) mod 2 ^ 64));
   to_bytes "actor.user_id"; to_bytes (a_UserID (ev_Actor e));
   to_bytes "actor.email"; c_ActorEmail (ev_Commitments e);
   to_bytes "actor.name"; c_ActorName (ev_Commitments e);
   to_bytes "actor.ip"; c_ActorIP (ev_Commitments e);
   to_bytes "actor.type"; to_bytes (type_or_user (a_Type (ev_Actor e)));
   to_bytes "action"; to_bytes (ev_Action e);
   to_bytes "resource_type"; to_bytes (ev_ResourceType e);
   to_bytes "resource_id"; to_bytes (ev_ResourceID e);
   to_bytes "request_id"; to_bytes (ev_RequestID e);
   to_bytes "tenant_id"; to_bytes (ev_TenantID e);
   to_bytes "actor.tenant_id"; to_bytes (a_TenantID (ev_Actor e));
   to_bytes "before"; c_Before (ev_Commitments e);
   to_bytes "after"; c_After (ev_Commitments e);
   to_bytes "prev_hash"; prevHash].

Lemma payload_concat e prev :
  canonicalPayloadV4 e prev = concat (map lp (payload_fields e prev)).
Proof.
  unfold canonicalPayloadV4, appendStringField, appendInt64Field, appendBytesField.
  rewrite !appendLP_lp. unfold payload_fields, type_or_user. cbn [map concat app].
  rewrite app_nil_r, <- !app_assoc. reflexivity.
Qed.

(** Every string of the payload has a length the prefix can carry. *)
Definition well_sized (e : Event) (prev : bytes) : Prop := Forall fits (payload_fields e prev).

(** What the hash of a row depends on besides the previous hash. *)
Record HashedContent := {
  h_ID : string; h_At : Z; h_UserID : string; h_Type : string; h_Action : string;
  h_ResourceType : string; h_ResourceID : string; h_RequestID : string;
  h_TenantID : string; h_ActorTenantID : string; h_Commitments : Commitments
}.
Definition hashed_content (e : Event) : HashedContent :=
  {| h_ID := ev_ID e; h_At := UnixNano (ev_At e); h_UserID := a_UserID (ev_Actor e);
     h_Type := type_or_user (a_Type (ev_Actor e)); h_Action := ev_Action e;
     h_ResourceType := ev_ResourceType e; h_ResourceID := ev_ResourceID e;
     h_RequestID := ev_RequestID e; h_TenantID := ev_TenantID e;
     h_ActorTenantID := a_TenantID (ev_Actor e); h_Commitments := ev_Commitments e |}.

Lemma wrap_mod_inj (M h t u : Z) : 0 < M ->
  ((t + h) mod M - h) mod M = ((u + h) mod M - h) mod M -> (t + h) mod M = (u + h) mod M.
Proof.
  intros HM. rewrite !Zminus_mod_idemp_l.
  replace (t + h - h) with t by lia. replace (u + h - h) with u by lia. intros H.
  by rewrite <- Zplus_mod_idemp_l, H, Zplus_mod_idemp_l.
Qed.

Lemma UnixNano_bits_inj t u :
  be 8 (Z.to_N (UnixNano t mod 2 ^ 64)) = be 8 (Z.to_N (UnixNano u mod 2 ^ 64)) ->
  UnixNano t = UnixNano u.
Proof.
  assert (Hb : forall x, (Z.to_N (x mod 2 ^ 64) < 2 ^ (8 * N.of_nat 8))%N).
  { intros x. apply N2Z.inj_lt. rewrite Z2N.id by (apply Z.mod_pos_bound; lia).
    apply (Z.mod_pos_bound x). lia. }
  intros H. apply be_inj in H; [|apply Hb..].
  apply Z2N.inj in H; [|apply Z.mod_pos_bound; lia..].
  unfold UnixNano in *. apply wrap_mod_inj in H; [by rewrite H|lia].
Qed.

Lemma payload_fields_content e e' p p' :
  payload_fields e p = payload_fields e' p' <->
  hashed_content e = hashed_content e' /\ p = p'.
Proof.
  unfold payload_fields, hashed_content. split.
  - intros H.
    repeat match goal with H : _ :: _ = _ :: _ |- _ => apply cons_eq_inj in H as [? H] end.
    repeat match goal with H : to_bytes _ = to_bytes _ |- _ => apply to_bytes_inj in H end.
    match goal with H : be 8 _ = be 8 _ |- _ => apply UnixNano_bits_inj in H end. split; [|done].
    destruct (ev_Commitments e), (ev_Commitments e'); cbn in *. congruence.
  - intros [H ->]. injection H as -> -> -> -> -> -> -> -> -> -> ->. done.
Qed.

(** two events whose fields fit the 32-bit length prefixes have the same
    canonical payload exactly when every hashed field is the same: the
    identity, the instant as int64 nanoseconds, the actor with its type
    defaulted, the action, the resource, both tenants, the five commitments
    and the previous hash. No value can be read as a field boundary. *)
Theorem payload_injective e e' p p' : well_sized e p -> well_sized e' p' ->
  canonicalPayloadV4 e p = canonicalPayloadV4 e' p' <->
  hashed_content e = hashed_content e' /\ p = p'.
Proof.
  intros H H'. rewrite !payload_concat, <- payload_fields_content. split.
  - by apply lp_concat_inj.
  - by intros ->.
Qed.

(** ** Commitments bind the plaintext *)

(** Two distinct inputs with the same SHA-256. *)
Definition sha_collision (x y : bytes) : Prop := x <> y /\ sha256 x = sha256 y.

(** Equal hashes come from equal inputs, or exhibit a collision. *)
Lemma sha256_eq_cases x y : sha256 x = sha256 y -> x = y \/ sha_collision x y.
Proof. intros H. destruct (decide (x = y)) as [|Hne]; [by left|by right]. Qed.

(** The erasable fields of an event with the names their commitments carry. *)
Definition pii (e : Event) : list (string * bytes) :=
  [(fieldActorEmail, to_bytes (a_Email (ev_Actor e)));
   (fieldActorName, to_bytes (a_Name (ev_Actor e)));
   (fieldActorIP, to_bytes (a_IP (ev_Actor e)));
   (fieldBefore, ev_Before e);
   (fieldAfter, ev_After e)].

Lemma commit_input_inj salt salt' f f' v v' : length salt = length salt' ->
  fits (to_bytes f) -> fits (to_bytes f') -> fits v -> fits v' ->
  commit_input salt f v = commit_input salt' f' v' -> salt = salt' /\ f = f' /\ v = v'.
Proof.
  unfold commit_input. intros Hl Hf Hf' Hv Hv' H.
  apply app_inj_1 in H as [-> H]; [|done].
  rewrite !appendLP_lp, !app_nil_l in H.
  apply lp_app_inj in H as [Hff H]; [|done..].
  rewrite <- (app_nil_r (lp v)), <- (app_nil_r (lp v')) in H.
  apply lp_app_inj in H as [-> _]; [|done..]. by rewrite (to_bytes_inj _ _ Hff).
Qed.

Lemma commitments_match_spec c want : commitments_match c want = true <-> c = want.
Proof.
  unfold commitments_match. rewrite !andb_true_iff, !bytesEqual_spec.
  destruct c, want; cbn. split; [intuition congruence|intros [= -> -> -> -> ->]; auto].
Qed.

Lemma verify_fields_None t :
  verify_fields t = None <-> Forall (fun '(_, stored, got) => stored = got) t.
Proof.
  induction t as [|[[f s] g] t IH]; cbn; [done|]. rewrite Forall_cons.
  destruct (bytesEqual s g) eqn:E; cbn.
  - apply bytesEqual_spec in E. rewrite IH. naive_solver.
  - apply bytesEqual_false in E. split; [done|]. by intros [? _].
Qed.

Lemma verify_fields_is_mismatch t e :
  verify_fields t = Some e -> errors_is e audit_ErrCommitmentMismatch = true.
Proof.
  induction t as [|[[f s] g] t IH]; cbn; [done|].
  destruct (bytesEqual s g); cbn; [done|]. by intros [= <-].
Qed.

Lemma commitment_table_match e want :
  verify_fields (commitment_table e want) = None <-> ev_Commitments e = want.
Proof.
  rewrite verify_fields_None. unfold commitment_table. rewrite !Forall_cons, Forall_nil.
  destruct (ev_Commitments e), want; cbn. split; [intros (-> & -> & -> & -> & -> & _); done|].
  by intros [= -> -> -> -> ->].
Qed.

(** [VerifyCommitments] is decided by the version, the salt and the
    commitments the salt reproduces. *)
Lemma VerifyCommitments_cases e :
  VerifyCommitments e = (true, None) <->
  ev_CanonicalVersion e = CanonicalVersion4 /\ IsRedacted (ev_RowSalt e) = false /\
  ev_Commitments e = ComputeCommitments (ev_RowSalt e) e.
Proof.
  unfold VerifyCommitments. destruct (Z.eqb_spec (ev_CanonicalVersion e) CanonicalVersion4);
    cbn [negb]; [|intuition congruence].
  destruct (IsRedacted (ev_RowSalt e)); [intuition congruence|].
  rewrite <- commitment_table_match.
  destruct (verify_fields _); intuition congruence.
Qed.

(** a row whose personal data checks out against its commitments and an
    edited copy of it, with the same salt, commitments and version, that checks
    out too carry the same personal data, field by field, or the edit exhibits
    a SHA-256 collision between the inputs of one field's commitment. *)
Theorem VerifyCommitments_binds e e' :
  VerifyCommitments e = (true, None) -> VerifyCommitments e' = (true, None) ->
  ev_RowSalt e' = ev_RowSalt e -> ev_Commitments e' = ev_Commitments e ->
  Forall (fun p => fits p.2) (pii e ++ pii e') ->
  pii e' = pii e \/
  exists f v v', (f, v) ∈ pii e /\ (f, v') ∈ pii e' /\
    sha_collision (commit_input (ev_RowSalt e) f v) (commit_input (ev_RowSalt e) f v').
Proof.
  intros (_ & _ & H)%VerifyCommitments_cases (_ & _ & H')%VerifyCommitments_cases Hs Hc Hfit.
  rewrite Hc, H, Hs in H'. apply Forall_app in Hfit as [Hfit Hfit'].
  set (salt := ev_RowSalt e) in *.
  assert (Hall : Forall2 (fun p p' => p.1 = p'.1 /\ commit salt p.1 p.2 = commit salt p'.1 p'.2)
                   (pii e) (pii e')).
  { injection H' as H1 H2 H3 H4 H5. by repeat constructor. }
  clear H H' Hc Hs. revert Hfit Hfit'. induction Hall as [|[f v] [f' v'] l l' [Hf Hh] Hl IH]; [by left|].
  cbn in Hf, Hh. subst f'. intros [Hv Hfit]%Forall_cons [Hv' Hfit']%Forall_cons.
  apply sha256_eq_cases in Hh as [Hi|Hcol].
  - unfold commit_input in Hi. apply app_inv_head in Hi. rewrite !(appendLP_lp _ v), !(appendLP_lp _ v') in Hi.
    apply app_inv_head in Hi.
    rewrite <- (app_nil_r (lp v)), <- (app_nil_r (lp v')) in Hi.
    apply lp_app_inj in Hi as [-> _]; [|done..].
    destruct (IH Hfit Hfit') as [->|(g & w & w' & ? & ? & ?)]; [by left|right].
    exists g, w, w'. rewrite !elem_of_cons. auto.
  - right. exists f, v, v'. rewrite !elem_of_cons. auto.
Qed.

Lemma IsRedacted_zeros l : IsRedacted (map (fun _ => ascii_of_N 0) (l : bytes)) = true.
Proof. by induction l. Qed.

(** erasing an event in memory clears its personal data and leaves
    everything that is hashed as it was, so its payload is unchanged and its
    commitments can no longer be checked rather than fail; erasing twice is
    erasing once. *)
Theorem Redact_correct e :
  (forall p, canonicalPayloadV4 (Redact e) p = canonicalPayloadV4 e p) /\
  hashed_content (Redact e) = hashed_content e /\
  Forall (fun p => p.2 = []) (pii (Redact e)) /\
  VerifyCommitments (Redact e) = (false, None) /\
  Redact (Redact e) = Redact e.
Proof.
  split_and!; [done|done|by repeat constructor| |].
  - unfold VerifyCommitments. cbn [Redact ev_RowSalt ev_CanonicalVersion].
    rewrite IsRedacted_zeros. by destruct (negb _).
  - unfold Redact at 1 3. cbn. by rewrite map_map.
Qed.

(** [ComputeHash] answers exactly for a complete event at version 4 with a
    32-byte previous hash, a live 32-byte salt and the commitments that salt
    gives its own personal data; the answer is the chain link over the payload,
    and such an event passes [VerifyCommitments]. *)
Theorem ComputeHash_correct e prev h :
  ComputeHash e prev = Ret h <->
  ev_ID e <> "" /\ ev_At e <> time_zero /\ ev_Action e <> "" /\
  length prev = HashSize /\ length (ev_RowSalt e) = RowSaltSize /\
  VerifyCommitments e = (true, None) /\ h = sha256 (prev ++ canonicalPayloadV4 e prev).
Proof.
  rewrite VerifyCommitments_cases. unfold ComputeHash, validateRequiredFields, IsZero_time, hashChainLink.
  cbn [mbind go_bind].
  destruct (String.eqb_spec (ev_ID e) "") as [|HID]; cbn [negb orb mbind go_bind]; [intuition congruence|].
  destruct (Z.eqb_spec (ev_At e) time_zero) as [|HAt]; cbn [negb orb mbind go_bind]; [intuition congruence|].
  destruct (String.eqb_spec (ev_Action e) "") as [|HA]; cbn [negb orb mbind go_bind]; [intuition congruence|].
  destruct (Nat.eqb_spec (length prev) HashSize) as [|Hp]; cbn [negb orb mbind go_bind]; [|intuition congruence].
  destruct (Z.eqb_spec (ev_CanonicalVersion e) CanonicalVersion4); cbn [negb orb mbind go_bind]; [|intuition congruence].
  destruct (Nat.eqb_spec (length (ev_RowSalt e)) RowSaltSize); cbn [negb orb mbind go_bind]; [|intuition congruence].
  destruct (IsRedacted _); cbn [negb orb mbind go_bind]; [intuition congruence|].
  destruct (commitments_match _ _) eqn:Hm; cbn.
  - apply commitments_match_spec in Hm. intuition congruence.
  - apply not_true_iff_false in Hm. rewrite commitments_match_spec in Hm. intuition congruence.
Qed.

(** ** A concrete event *)

Definition demo_salt : bytes := replicate RowSaltSize (ascii_of_N 7).
Definition demo_commit (e : Event) : Event :=
  {| ev_ID := ev_ID e; ev_At := ev_At e; ev_Actor := ev_Actor e; ev_Action := ev_Action e;
     ev_ResourceType := ev_ResourceType e; ev_ResourceID := ev_ResourceID e;
     ev_RequestID := ev_RequestID e; ev_ClusterID := ev_ClusterID e;
     ev_Before := ev_Before e; ev_After := ev_After e;
     ev_PrevHash := ev_PrevHash e; ev_Hash := ev_Hash e;
     ev_CanonicalVersion := CanonicalVersion4; ev_TenantID := ev_TenantID e;
     ev_RowSalt := demo_salt; ev_Commitments := ComputeCommitments demo_salt e |}.
Definition demo_raw (id : string) (at_ : time) : Event :=
  {| ev_ID := id; ev_At := at_;
     ev_Actor := {| a_Type := "user"; a_UserID := "u1"; a_Email := "a@acme.test";
                    a_Name := ""; a_IP := "10.0.0.1"; a_TenantID := "platform" |};
     ev_Action := "project.create"; ev_ResourceType := "project"; ev_ResourceID := "p1";
     ev_RequestID := "r1"; ev_ClusterID := ""; ev_Before := []; ev_After := to_bytes "{}";
     ev_PrevHash := []; ev_Hash := []; ev_CanonicalVersion := 0;
     ev_TenantID := "acme"; ev_RowSalt := [];
     ev_Commitments := Build_Commitments [] [] [] [] [] |}.

Lemma demo_well_sized id at_ prev : fits (to_bytes id) -> fits prev ->
  well_sized (demo_commit (demo_raw id at_)) prev.
Proof.
  intros Hid Hp.
  assert (Hc : forall f v, fits (commit demo_salt f v)).
  { intros f v. unfold fits, commit. by rewrite sha256_length. }
  assert (Hn : fits (be 8 (Z.to_N (UnixNano at_ mod 2 ^ 64)))).
  { unfold fits. by rewrite be_length. }
  unfold well_sized, payload_fields. cbn [demo_commit demo_raw ev_ID ev_At ev_Actor ev_Action
    ev_ResourceType ev_ResourceID ev_RequestID ev_TenantID ev_Commitments ComputeCommitments
    a_UserID a_Type a_TenantID c_ActorEmail c_ActorName c_ActorIP c_Before c_After].
  repeat first [apply Forall_cons; split | apply Forall_nil; exact I];
    first [done | by apply Hc | by apply Hn].
Qed.

Lemma payload_injective_witness :
  let e := demo_commit (demo_raw "e1" 5) in let e' := demo_commit (demo_raw "e2" 5) in
  well_sized e [] /\ well_sized e' [] /\ canonicalPayloadV4 e [] <> canonicalPayloadV4 e' [].
Proof.
  assert (H1 : well_sized (demo_commit (demo_raw "e1" 5)) []) by (by apply demo_well_sized).
  assert (H2 : well_sized (demo_commit (demo_raw "e2" 5)) []) by (by apply demo_well_sized).
  split_and!; [done..|]. intros H.
  apply (payload_injective _ _ _ _ H1 H2) in H as [H _]. discriminate H.
Defined.

Lemma VerifyCommitments_binds_witness :
  let e := demo_commit (demo_raw "e1" 5) in
  VerifyCommitments e = (true, None) /\
  (pii e = pii e \/
   exists f v v', (f, v) ∈ pii e /\ (f, v') ∈ pii e /\
     sha_collision (commit_input (ev_RowSalt e) f v) (commit_input (ev_RowSalt e) f v')).
Proof.
  assert (H : VerifyCommitments (demo_commit (demo_raw "e1" 5)) = (true, None)).
  { apply VerifyCommitments_cases. done. }
  split; [exact H|].
  apply (VerifyCommitments_binds _ _ H H eq_refl eq_refl).
  repeat constructor.
Defined.
