(* ===== verification/AuditStore.v ===== *)
(** * The audit log over SQLite

    [src/audit/audit_sqlite.go], [verify_boot.go], [export.go], the erasure of
    [redaction.go] and the queries of [internal/sqlitestore]: one table of
    events, the append of [Log], the two chain walks, pruning, erasure,
    listing and export.

    The table is a list of rows with the [id] column as its primary key; a
    query is the function of the table its SQL text denotes. The [at] column
    keeps the instant, so [ORDER BY at] compares instants. A statement that
    fails in the driver is an input of the operations that run it. *)

From S2P Require Import Prelude Bytes Tenant AuditEvent.

#[local] Open Scope string_scope.
#[local] Open Scope list_scope.
#[local] Open Scope Z_scope.

(** ** Rows and queries (internal/sqlitestore) *)

Record Row := {
  r_ID : string; r_At : time;
  r_ActorUserID : string; r_ActorEmail : string; r_ActorIp : string;
  r_ActorType : string; r_ActorName : string;
  r_Action : string; r_ResourceType : string; r_ResourceID : string;
  r_ClusterID : string; r_RequestID : string;
  r_BeforeJson : string; r_AfterJson : string;
  r_PrevHash : bytes; r_Hash : bytes; r_CanonicalVersion : Z;
  r_TenantID : string; r_ActorTenantID : string; r_RowSalt : bytes;
  r_CActorEmail : bytes; r_CActorName : bytes; r_CActorIp : bytes;
  r_CBefore : bytes; r_CAfter : bytes
}.

Definition Table := list Row.

(** [ORDER BY at ASC, canonical_version ASC, id ASC] *)
Definition verify_leb : Row -> Row -> bool :=
  lexZ r_At (lexZ r_CanonicalVersion (fun a b => String.leb (r_ID a) (r_ID b))).
Definition verify_le (a b : Row) : Prop := verify_leb a b = true.
(** [ORDER BY at DESC, id DESC] reversed *)
Definition list_leb : Row -> Row -> bool :=
  lexZ r_At (fun a b => String.leb (r_ID a) (r_ID b)).
Definition list_le (a b : Row) : Prop := list_leb a b = true.

#[export] Instance verify_le_dec : RelDecision verify_le.
Proof. intros a b. unfold verify_le. apply _. Defined.
#[export] Instance list_le_dec : RelDecision list_le.
Proof. intros a b. unfold list_le. apply _. Defined.
#[export] Instance verify_ge_dec : RelDecision (flip verify_le).
Proof. intros a b. unfold flip. apply _. Defined.
#[export] Instance list_ge_dec : RelDecision (flip list_le).
Proof. intros a b. unfold flip. apply _. Defined.

Definition ListEventsForVerify (t : Table) : list Row := merge_sort verify_le t.
Definition latest_row (t : Table) : option Row := head (merge_sort (flip verify_le) t).
Definition GetLatestAt (t : Table) : option time := r_At <$> latest_row t.
Definition GetLatestHash (t : Table) : option bytes := r_Hash <$> latest_row t.
Definition GetEventByID (t : Table) (id : string) : option Row :=
  List.find (fun r => String.eqb (r_ID r) id) t.
Definition InsertEvent (t : Table) (r : Row) : option Table :=
  match GetEventByID t (r_ID r) with Some _ => None | None => Some (t ++ [r]) end.
Definition DeleteEventByID (t : Table) (id : string) : Table :=
  List.filter (fun r => negb (String.eqb (r_ID r) id)) t.
Definition Queries_PruneOlderThan (t : Table) (cutoff : time) : Table :=
  List.filter (fun r => negb (r_At r <? cutoff)) t.
Definition ListEventsByTenant (t : Table) (tenantID : string) : list Row :=
  merge_sort verify_le (List.filter (fun r => String.eqb (r_TenantID r) tenantID) t).
Definition CountEventsNotAtV4 (t : Table) : list Row :=
  List.filter (fun r => negb (r_CanonicalVersion r =? 4)) t.

(** [RedactEventPII]: the SQL writes the empty blob to [row_salt]. *)
Definition redact_row (r : Row) : Row :=
  {| r_ID := r_ID r; r_At := r_At r; r_ActorUserID := r_ActorUserID r;
     r_ActorEmail := ""; r_ActorIp := ""; r_ActorType := r_ActorType r; r_ActorName := "";
     r_Action := r_Action r; r_ResourceType := r_ResourceType r; r_ResourceID := r_ResourceID r;
     r_ClusterID := r_ClusterID r; r_RequestID := r_RequestID r;
     r_BeforeJson := ""; r_AfterJson := "";
     r_PrevHash := r_PrevHash r; r_Hash := r_Hash r; r_CanonicalVersion := r_CanonicalVersion r;
     r_TenantID := r_TenantID r; r_ActorTenantID := r_ActorTenantID r; r_RowSalt := [];
     r_CActorEmail := r_CActorEmail r; r_CActorName := r_CActorName r; r_CActorIp := r_CActorIp r;
     r_CBefore := r_CBefore r; r_CAfter := r_CAfter r |}.
Definition RedactEventPII (t : Table) (id : string) : Table :=
  map (fun r => if String.eqb (r_ID r) id && (r_CanonicalVersion r =? 4)
                then redact_row r else r) t.

(** ** Rows and events *)

Definition fromRow (r : Row) : Event :=
  let t := if String.eqb (r_ActorType r) "" then ActorTypeUser else r_ActorType r in
  {| ev_ID := r_ID r; ev_At := r_At r;
     ev_Actor := {| a_Type := t; a_UserID := r_ActorUserID r; a_Email := r_ActorEmail r;
                    a_Name := r_ActorName r; a_IP := r_ActorIp r;
                    a_TenantID := r_ActorTenantID r |};
     ev_Action := r_Action r; ev_ResourceType := r_ResourceType r;
     ev_ResourceID := r_ResourceID r; ev_RequestID := r_RequestID r;
     ev_ClusterID := r_ClusterID r;
     ev_Before := to_bytes (r_BeforeJson r); ev_After := to_bytes (r_AfterJson r);
     ev_PrevHash := r_PrevHash r; ev_Hash := r_Hash r;
     ev_CanonicalVersion := r_CanonicalVersion r;
     ev_TenantID := r_TenantID r; ev_RowSalt := r_RowSalt r;
     ev_Commitments := {| c_ActorEmail := r_CActorEmail r; c_ActorName := r_CActorName r;
                          c_ActorIP := r_CActorIp r; c_Before := r_CBefore r;
                          c_After := r_CAfter r |} |}.

(** The [InsertEventParams] of [Log] and of [insertEventDirect]. *)
Definition insert_params (e : Event) : Row :=
  {| r_ID := ev_ID e; r_At := ev_At e; r_ActorUserID := a_UserID (ev_Actor e);
     r_ActorEmail := a_Email (ev_Actor e); r_ActorIp := a_IP (ev_Actor e);
     r_ActorType := a_Type (ev_Actor e); r_ActorName := a_Name (ev_Actor e);
     r_Action := ev_Action e; r_ResourceType := ev_ResourceType e;
     r_ResourceID := ev_ResourceID e; r_ClusterID := ev_ClusterID e;
     r_RequestID := ev_RequestID e;
     r_BeforeJson := String.string_of_list_ascii (ev_Before e);
     r_AfterJson := String.string_of_list_ascii (ev_After e);
     r_PrevHash := ev_PrevHash e; r_Hash := ev_Hash e;
     r_CanonicalVersion := ev_CanonicalVersion e;
     r_TenantID := ev_TenantID e; r_ActorTenantID := a_TenantID (ev_Actor e);
     r_RowSalt := ev_RowSalt e;
     r_CActorEmail := c_ActorEmail (ev_Commitments e);
     r_CActorName := c_ActorName (ev_Commitments e);
     r_CActorIp := c_ActorIP (ev_Commitments e);
     r_CBefore := c_Before (ev_Commitments e);
     r_CAfter := c_After (ev_Commitments e) |}.

(** ** The chain walks *)

Record VerifyResult := { v_Total : Z; v_Tamper : bool; v_FirstBadIndex : Z }.
#[export] Instance VerifyResult_eq_dec : EqDecision VerifyResult.
Proof. solve_decision. Defined.

(** The loop of [walkChain]; [Some i] is the index it returns at. *)
Fixpoint walk_loop (i : Z) (prev : bytes) (rows : list Row) : option Z :=
  match rows with
  | [] => None
  | r :: rows =>
      let e := fromRow r in
      let prev := if i =? 0 then ev_PrevHash e else prev in
      if negb (i =? 0) && negb (bytesEqual (ev_PrevHash e) prev) then Some i
      else
        match canonicalPayloadForVersion e prev (ev_CanonicalVersion e) with
        | Ret payload =>
            if negb (bytesEqual (ev_Hash e) (hashChainLink prev payload)) then Some i
            else walk_loop (i + 1) (ev_Hash e) rows
        | _ => Some i
        end
  end.

Definition walkChain (rows : list Row) : VerifyResult :=
  let total := Z.of_nat (length rows) in
  if total =? 0 then {| v_Total := 0; v_Tamper := false; v_FirstBadIndex := 0 |}
  else match walk_loop 0 [] rows with
       | Some i => {| v_Total := total; v_Tamper := true; v_FirstBadIndex := i |}
       | None => {| v_Total := total; v_Tamper := false; v_FirstBadIndex := 0 |}
       end.

Definition Verify (t : Table) : VerifyResult := walkChain (ListEventsForVerify t).

Record ChainMismatchError := {
  cm_Index : Z; cm_RowID : string; cm_RowAt : time; cm_CanonicalVersion : Z;
  cm_StoredHashHex : string; cm_RecomputedHashHex : string;
  cm_PrevHashHex : string; cm_StoredPrevHashHex : string; cm_Reason : string
}.

(** [RowAt] keeps the instant that the code formats. *)
Definition newChainMismatchError (index : Z) (e : Event) (prev : bytes)
    (recomputed : option bytes) (reason : string) : ChainMismatchError :=
  {| cm_Index := index; cm_RowID := ev_ID e; cm_RowAt := ev_At e;
     cm_CanonicalVersion := ev_CanonicalVersion e;
     cm_StoredHashHex := hex (ev_Hash e);
     cm_RecomputedHashHex := match recomputed with Some h => hex h | None => "" end;
     cm_PrevHashHex := hex prev; cm_StoredPrevHashHex := hex (ev_PrevHash e);
     cm_Reason := reason |}.

(** The error of the boot walk: the context's, or a mismatch. *)
Inductive boot_error := BootCtx (e : error) | BootMismatch (m : ChainMismatchError).

(** The loop of [verifyChainPostMigrationStore]. [ctxErr k] is what the [k]th
    call of [ctx.Err()] answers. *)
Fixpoint boot_loop (ctxErr : nat -> option error) (i : nat) (prev : bytes) (rows : list Row)
    : Z * option boot_error :=
  match rows with
  | [] => (Z.of_nat i, None)
  | r :: rows =>
      match ctxErr (S i) with
      | Some err => (0, Some (BootCtx err))
      | None =>
          let e := fromRow r in
          let prev := if (i =? 0)%nat then ev_PrevHash e else prev in
          if negb (i =? 0)%nat && negb (bytesEqual (ev_PrevHash e) prev)
          then (Z.of_nat i, Some (BootMismatch (newChainMismatchError (Z.of_nat i) e prev None
                  "prev_hash does not match prior row's hash")))
          else
            match canonicalPayloadForVersion e prev (ev_CanonicalVersion e) with
            | Ret payload =>
                let recomputed := hashChainLink prev payload in
                if negb (bytesEqual recomputed (ev_Hash e))
                then (Z.of_nat i, Some (BootMismatch (newChainMismatchError (Z.of_nat i) e prev
                        (Some recomputed) "stored hash does not match recomputed hash")))
                else boot_loop ctxErr (S i) recomputed rows
            | _ => (Z.of_nat i, Some (BootMismatch (newChainMismatchError (Z.of_nat i) e prev None
                      "unknown canonical_version")))
            end
      end
  end.

Definition verifyChainPostMigrationStore (ctxErr : nat -> option error) (t : option Table)
    : Z * option boot_error :=
  match t with
  | None => (0, None)
  | Some t =>
      match ctxErr 0%nat with
      | Some err => (0, Some (BootCtx err))
      | None => boot_loop ctxErr 0 [] (ListEventsForVerify t)
      end
  end.

(** ** Logging *)

(** [EmailLookup] is the caller's function; [None] is a nil one. *)
Record SQLiteLogger := {
  EmailLookup : option (string -> option string);
  lastAt : time
}.

(** The statements of an append, in the order they run. *)
Inductive log_stage :=
  | AtConn | AtBegin | AtLatestAt | AtSalt | AtLatestHash | AtInsert | AtCommit.
#[export] Instance log_stage_eq_dec : EqDecision log_stage.
Proof. solve_decision. Defined.

(** Which statement the driver fails, if any. *)
Definition fault := option (log_stage * error).
Definition fails_at (f : fault) (s : log_stage) : option error :=
  match f with
  | Some (s', err) => if decide (s' = s) then Some err else None
  | None => None
  end.

Definition with_actor (e : Event) (type email : string) : Event :=
  {| ev_ID := ev_ID e; ev_At := ev_At e;
     ev_Actor := {| a_Type := type; a_UserID := a_UserID (ev_Actor e); a_Email := email;
                    a_Name := a_Name (ev_Actor e); a_IP := a_IP (ev_Actor e);
                    a_TenantID := a_TenantID (ev_Actor e) |};
     ev_Action := ev_Action e; ev_ResourceType := ev_ResourceType e;
     ev_ResourceID := ev_ResourceID e; ev_RequestID := ev_RequestID e;
     ev_ClusterID := ev_ClusterID e; ev_Before := ev_Before e; ev_After := ev_After e;
     ev_PrevHash := ev_PrevHash e; ev_Hash := ev_Hash e;
     ev_CanonicalVersion := ev_CanonicalVersion e; ev_TenantID := ev_TenantID e;
     ev_RowSalt := ev_RowSalt e; ev_Commitments := ev_Commitments e |}.

Definition with_chain (e : Event) (version : Z) (at_ : time) (salt : bytes) (c : Commitments)
    (prev hash : bytes) : Event :=
  {| ev_ID := ev_ID e; ev_At := at_; ev_Actor := ev_Actor e;
     ev_Action := ev_Action e; ev_ResourceType := ev_ResourceType e;
     ev_ResourceID := ev_ResourceID e; ev_RequestID := ev_RequestID e;
     ev_ClusterID := ev_ClusterID e; ev_Before := ev_Before e; ev_After := ev_After e;
     ev_PrevHash := prev; ev_Hash := hash;
     ev_CanonicalVersion := version; ev_TenantID := ev_TenantID e;
     ev_RowSalt := salt; ev_Commitments := c |}.

(** [Log] up to the lock: the required fields, the actor type, the version and
    the email. *)
Definition prepare (l : SQLiteLogger) (e : Event) : go Event :=
  _ ← validateRequiredFields e;
  let ty := if String.eqb (a_Type (ev_Actor e)) "" then ActorTypeUser else a_Type (ev_Actor e) in
  if negb ((ev_CanonicalVersion e =? 0) || (ev_CanonicalVersion e =? CanonicalVersion4))
  then Fail (Errorf0 "audit: event requests canonical_version")
  else
    let email := a_Email (ev_Actor e) in
    let email :=
      match EmailLookup l with
      | Some lookup =>
          if String.eqb ty ActorTypeUser && String.eqb email "" &&
             negb (String.eqb (a_UserID (ev_Actor e)) "")
          then default email (lookup (a_UserID (ev_Actor e)))
          else email
      | None => email
      end in
    let e := with_actor e ty email in
    Ret (with_chain e CanonicalVersion4 (ev_At e) (ev_RowSalt e) (ev_Commitments e)
           (ev_PrevHash e) (ev_Hash e)).

(** The later of the in-process watermark and the table's. *)
Definition watermark (l : SQLiteLogger) (t : Table) : time :=
  match GetLatestAt t with
  | Some dbAt => if After dbAt (lastAt l) then dbAt else lastAt l
  | None => lastAt l
  end.

Definition bump (w : time) (at_ : time) : time :=
  if negb (IsZero_time w) && negb (After at_ w) then w + 1 else at_.

Definition zeros : bytes := replicate HashSize (ascii_of_N 0).

Definition latestHashFrom (t : Table) : bytes :=
  match GetLatestHash t with
  | None => zeros
  | Some row => if (length row =? 0)%nat then zeros else row
  end.

(** The chain fields of the new row: the commitments are computed on the
    event with its bumped instant and new salt. *)
Definition chain_event (l : SQLiteLogger) (t : Table) (salt : bytes) (e : Event) : Event :=
  let at_ := bump (watermark l t) (ev_At e) in
  let c := ComputeCommitments salt e in
  let prev := latestHashFrom t in
  let e := with_chain e (ev_CanonicalVersion e) at_ salt c prev (ev_Hash e) in
  with_chain e (ev_CanonicalVersion e) at_ salt c prev (hashChainLink prev (canonicalPayloadV4 e prev)).

(** [Log]: the answer, the logger and the table afterwards. An append that
    does not commit is rolled back. [salt] is what [rand.Read] gives. *)
Definition Log (f : fault) (salt : bytes) (l : SQLiteLogger) (t : Table) (e : Event)
    : go Event * SQLiteLogger * Table :=
  match prepare l e with
  | Fail err => (Fail err, l, t)
  | Panic why => (Panic why, l, t)
  | Ret e =>
      match fails_at f AtConn with Some err => (Fail (Errorf1 "acquire connection" err), l, t) | None =>
      match fails_at f AtBegin with Some err => (Fail (Errorf1 "begin" err), l, t) | None =>
      match fails_at f AtLatestAt with Some err => (Fail (Errorf1 "read at watermark" err), l, t) | None =>
      match fails_at f AtSalt with Some err => (Fail (Errorf1 "read random salt" err), l, t) | None =>
      match fails_at f AtLatestHash with Some err => (Fail (Errorf1 "latest hash" err), l, t) | None =>
      let e := chain_event l t salt e in
      let l := {| EmailLookup := EmailLookup l; lastAt := ev_At e |} in
      match fails_at f AtInsert with Some err => (Fail (Errorf1 "insert" err), l, t) | None =>
      match InsertEvent t (insert_params e) with
      | None => (Fail (Errorf1 "insert" (AppError "UNIQUE constraint failed: events.id")), l, t)
      | Some t' =>
          match fails_at f AtCommit with
          | Some err => (Fail (Errorf1 "commit chain append" err), l, t)
          | None => (Ret e, l, t')
          end
      end end end end end end end
  end.

(** [NewSQLiteLogger], from the point where the file is open. *)
Definition NewSQLiteLogger (dbPath : string) (lookup : option (string -> option string)) (t : Table)
    : go SQLiteLogger :=
  if String.eqb dbPath "" then Fail (Sentinel audit_errEmptyDBPath)
  else
    let others := CountEventsNotAtV4 t in
    if (0 <? length others)%nat then Fail (Errorf0 "holds rows this version cannot verify")
    else Ret {| EmailLookup := lookup; lastAt := default time_zero (GetLatestAt t) |}.

(** ** Retention, deletion and erasure

    [dbErr] is the error the statement ends in, if the driver fails it. *)

Definition PruneOlderThan (dbErr : option error) (cutoff : time) (t : Table) : go Z * Table :=
  match dbErr with
  | Some err => (Fail (Errorf1 "audit: prune" err), t)
  | None =>
      let t' := Queries_PruneOlderThan t cutoff in
      (Ret (Z.of_nat (length t) - Z.of_nat (length t')), t')
  end.

Definition Logger_DeleteEventByID (dbErr : option error) (id : string) (t : Table) : go unit * Table :=
  match dbErr with
  | Some err => (Fail (Errorf1 "audit: delete event by id" err), t)
  | None => (Ret tt, DeleteEventByID t id)
  end.

Definition RedactEvent (lookupErr dbErr : option error) (id : string) (t : Table) : go bool * Table :=
  match lookupErr with
  | Some err => (Fail (Errorf1 "look up row" err), t)
  | None =>
      match GetEventByID t id with
      | None => (Ret false, t)
      | Some _ =>
          match dbErr with
          | Some err => (Fail (Errorf1 "audit: redact event" err), t)
          | None => (Ret true, RedactEventPII t id)
          end
      end
  end.

Definition insertEventDirect (t : Table) (e : Event) : option Table := InsertEvent t (insert_params e).

(** [CountByActionSince]: grouped by action, [ORDER BY count DESC, action ASC]. *)
Definition count_leb : string * Z -> string * Z -> bool :=
  lexZ (fun p => - p.2) (fun p q => String.leb p.1 q.1).
Definition count_le (p q : string * Z) : Prop := count_leb p q = true.
#[export] Instance count_le_dec : RelDecision count_le.
Proof. intros p q. unfold count_le. apply _. Defined.

Definition CountByActionSince (since : time) (t : Table) : list (string * Z) :=
  let rows := List.filter (fun r => since <? r_At r) t in
  merge_sort count_le
    (map (fun a => (a, Z.of_nat (length (List.filter (fun r => String.eqb (r_Action r) a) rows))))
      (remove_dups (map r_Action rows))).

(** ** Export *)

Record TenantExport := {
  te_TenantID : string; te_Events : list Event; te_IsChain : bool; te_Completeness : string
}.
Definition CompletenessIssuerAttested : string := "issuer-attested".

Fixpoint export_loop (tenantID : string) (rows : list Row) : go (list Event) :=
  match rows with
  | [] => Ret []
  | r :: rows =>
      let e := fromRow r in
      if negb (String.eqb (ev_TenantID e) tenantID)
      then Fail (Errorf0 "audit: export for tenant returned a row scoped to another")
      else es ← export_loop tenantID rows; Ret (e :: es)
  end.

(** [None] is a logger without a store. *)
Definition ExportForTenant (t : option Table) (dbErr : option error) (tenantID : Tenant.ID)
    : go TenantExport :=
  if negb (Valid tenantID) then Fail (Errorf0 "audit: export: tenant is required")
  else
    let out es := {| te_TenantID := ID_String tenantID; te_Events := es; te_IsChain := false;
                     te_Completeness := CompletenessIssuerAttested |} in
    match t with
    | None => Ret (out [])
    | Some t =>
        match dbErr with
        | Some err => Fail (Errorf1 "audit: export for tenant" err)
        | None =>
            es ← export_loop (ID_String tenantID) (ListEventsByTenant t (ID_String tenantID));
            Ret (out es)
        end
    end.

(** ** Listing *)

Record Filter := {
  f_Since : time; f_Until : time;
  f_ActorUserID : string; f_ActorEmail : string; f_Action : string;
  f_ResourceType : string; f_ResourceID : string; f_RequestID : string;
  f_TenantID : Tenant.ID; f_ActorTenantID : Tenant.ID;
  f_Limit : Z; f_Cursor : string
}.
Record Page := { Events : list Event; NextCursor : string }.

(** The conditions the code concatenates with [AND], with their bound
    arguments, and what each says of a row. *)
Inductive cond :=
  | AtFrom (t : time) | AtBefore (t : time)
  | ColEq (col : Row -> string) (v : string)
  | ColEmpty (col : Row -> string)
  | ColEqNonEmpty (col : Row -> string) (v : string)
  | CursorBefore (t : time) (id : string)
  | ClusterScope (ids : list string).

Definition cond_holds (c : cond) (r : Row) : bool :=
  match c with
  | AtFrom t => t <=? r_At r
  | AtBefore t => r_At r <? t
  | ColEq col v => String.eqb (col r) v
  | ColEmpty col => String.eqb (col r) ""
  | ColEqNonEmpty col v => String.eqb (col r) v && negb (String.eqb (col r) "")
  | CursorBefore t id => (r_At r <? t) || ((r_At r =? t) && String.ltb (r_ID r) id)
  | ClusterScope ids =>
      String.eqb (r_ClusterID r) "" || existsb (String.eqb (r_ClusterID r)) ids
  end.

(** [time.Time]'s RFC3339Nano text form. *)
Record TimeCodec := {
  format_time : time -> string;
  parse_time : string -> go time
}.

Section list.
  Context (codec : TimeCodec).

Fixpoint parse_cursor_from (s : string) (i : nat) : go (time * string) :=
  match i with
  | O => Fail (Errorf0 "cursor missing | separator")
  | S i =>
      if decide (String.get i s = Some "|"%char)
      then
        ts ← wrap_err (Errorf1 "invalid timestamp") (parse_time codec (string_take i s));
        Ret (ts, string_drop (S i) s)
      else parse_cursor_from s i
  end.
Definition parseCursor (s : string) : go (time * string) := parse_cursor_from s (String.length s).

Definition formatCursor (at_ : time) (id : string) : string :=
  format_time codec at_ +:+ "|" +:+ id.

Definition str_cond (v : string) (col : Row -> string) : list cond :=
  if String.eqb v "" then [] else [ColEq col v].
Definition tenant_cond (i : Tenant.ID) (col : Row -> string) : list cond :=
  if Valid i then
    if IsSingle i then [ColEmpty col] else [ColEqNonEmpty col (ID_String i)]
  else [].

Definition filterWhere (f : Filter) : go (list cond) :=
  let where_ :=
    (if IsZero_time (f_Since f) then [] else [AtFrom (f_Since f)]) ++
    (if IsZero_time (f_Until f) then [] else [AtBefore (f_Until f)]) ++
    str_cond (f_ActorUserID f) r_ActorUserID ++
    str_cond (f_ActorEmail f) r_ActorEmail ++
    str_cond (f_Action f) r_Action ++
    str_cond (f_ResourceType f) r_ResourceType ++
    str_cond (f_ResourceID f) r_ResourceID ++
    str_cond (f_RequestID f) r_RequestID ++
    tenant_cond (f_TenantID f) r_TenantID ++
    tenant_cond (f_ActorTenantID f) r_ActorTenantID in
  if String.eqb (f_Cursor f) "" then Ret where_
  else
    p ← wrap_err (Errorf1 "audit: parse cursor") (parseCursor (f_Cursor f));
    Ret (where_ ++ [CursorBefore p.1 p.2]).

Definition pageFromRows (rows : list Row) (limit : Z) : Page :=
  {| Events := map fromRow rows;
     NextCursor :=
       if (Z.of_nat (length rows) =? limit) && (0 <? length rows)%nat then
         match last rows with Some r => formatCursor (r_At r) (r_ID r) | None => "" end
       else "" |}.

Definition list_events (t : Table) (f : Filter) (where_ : list cond) : go Page :=
  let limit := if f_Limit f <=? 0 then 50 else f_Limit f in
  conds ← filterWhere f;
  let all := where_ ++ conds in
  let matching := List.filter (fun r => forallb (fun c => cond_holds c r) all) t in
  let rows := take (Z.to_nat limit) (merge_sort (flip list_le) matching) in
  Ret (pageFromRows rows limit).

Definition List_ (t : Table) (f : Filter) : go Page := list_events t f [].
Definition ListScoped (t : Table) (clusterIDs : list string) (f : Filter) : go Page :=
  list_events t f [ClusterScope clusterIDs].
End list.
