(* ===== verification/AuditChain.v ===== *)
(** * The hash chain of the audit log

    What the chain walks establish, that every append, prune and erasure by
    any number of loggers keeps the chain intact, and what an edit or a
    deletion behind the log's back cannot hide without a SHA-256 collision
    among the rows' own hash inputs. *)

From S2P Require Import Prelude Bytes Tenant AuditEvent AuditStore.

#[local] Open Scope string_scope.
#[local] Open Scope list_scope.
#[local] Open Scope Z_scope.

(** ** The order of the walk *)

#[export] Instance verify_le_total : Total verify_le.
Proof. intros a b. apply lexZ_total. intros ??. apply lexZ_total. intros ??. apply String.leb_total. Qed.

Lemma leb_id_trans (a b c : Row) :
  String.leb (r_ID a) (r_ID b) = true -> String.leb (r_ID b) (r_ID c) = true ->
  String.leb (r_ID a) (r_ID c) = true.
Proof. rewrite !leb_le_string. intros H1 H2. by trans (r_ID b). Qed.

#[export] Instance verify_le_trans : Transitive verify_le.
Proof. intros a b c. apply lexZ_trans. intros ???. apply lexZ_trans. apply leb_id_trans. Qed.

#[export] Instance verify_ge_total : Total (flip verify_le) := flip_total verify_le.
#[export] Instance verify_ge_trans : Transitive (flip verify_le) := flip_trans verify_le.

Lemma verify_le_antisym a b : verify_le a b -> verify_le b a -> r_ID a = r_ID b.
Proof.
  intros H1 H2. destruct (lexZ_antisym _ _ _ _ H1 H2) as (_ & H3 & H4).
  destruct (lexZ_antisym _ _ _ _ H3 H4) as (_ & H5 & H6).
  rewrite leb_le_string in H5, H6. by apply (anti_symm String.le).
Qed.

Lemma verify_le_at a b : verify_le a b -> r_At a <= r_At b.
Proof.
  unfold verify_le, verify_leb, lexZ at 1. destruct (Z.eqb_spec (r_At a) (r_At b)); [lia|].
  rewrite Z.ltb_lt. lia.
Qed.

Lemma at_lt_verify_le a b : r_At a < r_At b -> verify_le a b.
Proof.
  intros H. unfold verify_le, verify_leb, lexZ at 1.
  rewrite (proj2 (Z.eqb_neq _ _)) by lia. by apply Z.ltb_lt.
Qed.

(** The primary key. *)
Definition ids_unique (t : Table) : Prop := NoDup (map r_ID t).

Lemma ids_unique_inj t x y : ids_unique t -> x ∈ t -> y ∈ t -> r_ID x = r_ID y -> x = y.
Proof.
  unfold ids_unique. induction t as [|z t IH]; cbn; [by rewrite elem_of_nil|].
  rewrite NoDup_cons, !elem_of_cons, list_elem_of_fmap. intros [Hz Ht] [->|Hx] [->|Hy] Heq; [done| | |by auto].
  - destruct Hz. by exists y.
  - destruct Hz. by exists x.
Qed.

Lemma order_unique t l : ids_unique t -> StronglySorted verify_le l -> t ≡ₚ l ->
  ListEventsForVerify t = l.
Proof.
  intros Hu Hs Hp. apply merge_sort_unique; [apply _..| |done|done]. intros x y Hx Hy H1 H2.
  apply (ids_unique_inj t); [done..|]. by apply verify_le_antisym.
Qed.

Lemma order_sorted t : StronglySorted verify_le (ListEventsForVerify t).
Proof. apply merge_sort_StronglySorted; apply _. Qed.

Lemma order_perm t : ListEventsForVerify t ≡ₚ t.
Proof. apply merge_sort_Permutation. Qed.

Lemma order_length t : length (ListEventsForVerify t) = length t.
Proof. apply Permutation_length, order_perm. Qed.

Lemma elem_of_order r t : r ∈ ListEventsForVerify t <-> r ∈ t.
Proof. by rewrite order_perm. Qed.

Lemma ids_unique_filter f t : ids_unique t -> ids_unique (List.filter f t).
Proof.
  unfold ids_unique. induction t as [|r t IH]; cbn; [done|]. rewrite NoDup_cons.
  intros [Hr Ht]. destruct (f r); cbn; [|auto]. apply NoDup_cons. split; [|auto].
  contradict Hr. apply list_elem_of_fmap in Hr as (x & -> & Hx). apply list_elem_of_fmap.
  exists x. split; [done|]. apply list_elem_of_In, filter_In in Hx as [Hx _]. by apply list_elem_of_In.
Qed.

(** A query's [WHERE] keeps the order of its [ORDER BY]. *)
Lemma order_filter f t : ids_unique t ->
  ListEventsForVerify (List.filter f t) = List.filter f (ListEventsForVerify t).
Proof.
  intros Hu. apply order_unique.
  - by apply ids_unique_filter.
  - apply StronglySorted_filter, order_sorted.
  - apply Permutation_filter. symmetry. apply order_perm.
Qed.

(** A row later than every other one is walked last. *)
Lemma order_snoc t r : ids_unique (t ++ [r]) -> (forall x, x ∈ t -> r_At x < r_At r) ->
  ListEventsForVerify (t ++ [r]) = ListEventsForVerify t ++ [r].
Proof.
  intros Hu Hlt. apply order_unique; [done| |by rewrite order_perm].
  assert (Hall : forall x, x ∈ ListEventsForVerify t -> verify_le x r).
  { intros x Hx. rewrite elem_of_order in Hx. by apply at_lt_verify_le, Hlt. }
  apply StronglySorted_snoc; [apply order_sorted|]. by apply Forall_forall.
Qed.

(** The newest row of [ORDER BY ... DESC LIMIT 1] is the last of the walk. *)
Lemma latest_row_last t : ids_unique t -> latest_row t = last (ListEventsForVerify t).
Proof.
  intros Hu. unfold latest_row.
  rewrite (merge_sort_unique (flip verify_le) t (rev (ListEventsForVerify t))).
  - generalize (ListEventsForVerify t). intros l. induction l as [|x l IH] using rev_ind; [done|].
    by rewrite rev_app_distr, last_snoc.
  - intros x y Hx Hy H1 H2. apply (ids_unique_inj t); [done..|]. by apply verify_le_antisym.
  - apply StronglySorted_rev, order_sorted.
  - rewrite <- (order_perm t) at 1. apply Permutation_rev.
Qed.

(** ** What a chain is *)

(** What the hash of a row is taken of. *)
Definition hash_input (r : Row) : bytes :=
  r_PrevHash r ++ canonicalPayloadV4 (fromRow r) (r_PrevHash r).

(** The row links to [prev] and carries its own hash. *)
Definition row_ok (prev : bytes) (r : Row) : Prop :=
  r_PrevHash r = prev /\ r_CanonicalVersion r = 4 /\ r_Hash r = sha256 (hash_input r).

#[export] Instance row_ok_dec prev r : Decision (row_ok prev r).
Proof. unfold row_ok. apply _. Defined.

Fixpoint chain_from (prev : bytes) (rows : list Row) : Prop :=
  match rows with
  | [] => True
  | r :: rows => row_ok prev r /\ chain_from (r_Hash r) rows
  end.

(** A log whose oldest row links to whatever came before it. *)
Definition intact (rows : list Row) : Prop :=
  match rows with [] => True | r :: _ => chain_from (r_PrevHash r) rows end.

(** The hash the next row links to. *)
Definition tip (prev : bytes) (rows : list Row) : bytes :=
  match last rows with Some r => r_Hash r | None => prev end.

Lemma chain_from_app prev l1 l2 :
  chain_from prev (l1 ++ l2) <-> chain_from prev l1 /\ chain_from (tip prev l1) l2.
Proof.
  revert prev. induction l1 as [|r l1 IH]; intros prev; cbn [app chain_from]; [tauto|].
  rewrite IH. unfold tip. rewrite last_cons. destruct (last l1); cbn; tauto.
Qed.

Lemma chain_from_intact prev rows : chain_from prev rows -> intact rows.
Proof. destruct rows as [|r rows]; cbn; [done|]. intros [Hr Hrows]. by destruct Hr as [<- ?]. Qed.

Lemma intact_app l1 l2 : intact (l1 ++ l2) -> intact l1 /\ intact l2.
Proof.
  destruct l1 as [|r l1]; [done|]. intros [Hr Hl]. cbn [intact chain_from].
  apply chain_from_app in Hl as [H1 H2]. split; [done|]. by apply chain_from_intact in H2.
Qed.

Lemma intact_snoc l r :
  intact (l ++ [r]) <-> intact l /\ row_ok (tip (r_PrevHash r) l) r.
Proof.
  destruct l as [|x l]; cbn [app intact].
  - cbn. tauto.
  - rewrite app_comm_cons, chain_from_app. unfold tip. rewrite last_cons. cbn [chain_from].
    destruct (last l); tauto.
Qed.

Lemma intact_link l1 x y l2 : intact (l1 ++ x :: y :: l2) -> r_PrevHash y = r_Hash x.
Proof. intros [_ H]%intact_app. cbn in H. destruct H as (_ & H & _). by destruct H. Qed.

Lemma intact_elem rows r : intact rows -> r ∈ rows -> r_Hash r = sha256 (hash_input r).
Proof.
  intros H (l1 & l2 & ->)%list_elem_of_split. apply intact_app in H as [_ H].
  cbn in H. destruct H as (H & _). apply H.
Qed.

(** ** The walks decide it *)

(** One turn of the loop of [walkChain]. *)
Lemma walk_loop_cons i prev r rows :
  let p := if i =? 0 then r_PrevHash r else prev in
  walk_loop i prev (r :: rows) =
    if decide (row_ok p r) then walk_loop (i + 1) (r_Hash r) rows else Some i.
Proof.
  cbn [walk_loop].
  change (ev_PrevHash (fromRow r)) with (r_PrevHash r).
  change (ev_Hash (fromRow r)) with (r_Hash r).
  change (ev_CanonicalVersion (fromRow r)) with (r_CanonicalVersion r).
  cbv zeta. set (p := if i =? 0 then r_PrevHash r else prev).
  destruct (decide (r_PrevHash r = p)) as [Hp|Hp].
  - assert (negb (i =? 0) && negb (bytesEqual (r_PrevHash r) p) = false) as ->
      by (rewrite Hp, bytesEqual_refl; apply andb_false_r).
    unfold canonicalPayloadForVersion, CanonicalVersion4.
    destruct (Z.eqb_spec (r_CanonicalVersion r) 4) as [Hv|Hv]; cbn [negb];
      [|by rewrite decide_False by (intros (_ & ? & _); done)].
    unfold hashChainLink. rewrite <- Hp. fold (hash_input r).
    destruct (bytesEqual (r_Hash r) _) eqn:Hh; cbn [negb].
    + apply bytesEqual_spec in Hh. by rewrite decide_True.
    + apply bytesEqual_false in Hh. by rewrite decide_False by (intros (_ & _ & ?); done).
  - destruct (Z.eqb_spec i 0) as [->|Hi]; [by destruct Hp|]. cbn [negb andb].
    rewrite (proj2 (bytesEqual_false _ _) Hp). cbn [negb].
    by rewrite decide_False by (intros (? & _ & _); done).
Qed.

(** From the second row on, the loop answers the end of the longest chained
    prefix. *)
Lemma walk_loop_spec rows : forall i prev, 0 < i ->
  (walk_loop i prev rows = None /\ chain_from prev rows) \/
  exists k, (k < length rows)%nat /\ walk_loop i prev rows = Some (i + Z.of_nat k) /\
    chain_from prev (take k rows) /\ ~ chain_from prev (take (S k) rows).
Proof.
  induction rows as [|r rows IH]; intros i prev Hi; [by left|].
  rewrite walk_loop_cons. rewrite (proj2 (Z.eqb_neq i 0)) by lia.
  destruct (decide (row_ok prev r)) as [Hr|Hr].
  - destruct (IH (i + 1) (r_Hash r) ltac:(lia)) as [[-> Hc]|(k & Hk & -> & Ht & Hn)]; [by left|].
    right. exists (S k). cbn [length take chain_from]. split_and!; [lia|f_equal; lia|done|done|tauto].
  - right. exists 0%nat. cbn [length take chain_from]. split_and!; [lia|f_equal; lia|done|tauto].
Qed.

(** the walk reports an intact chain exactly when every row is at version
    4, carries the hash of its previous hash and payload, and links to the row
    before it; otherwise it reports the first row at which that ends. *)
Theorem walkChain_correct rows :
  let total := Z.of_nat (length rows) in
  (intact rows /\ walkChain rows = {| v_Total := total; v_Tamper := false; v_FirstBadIndex := 0 |}) \/
  exists k, (k < length rows)%nat /\ intact (take k rows) /\ ~ intact (take (S k) rows) /\
    walkChain rows = {| v_Total := total; v_Tamper := true; v_FirstBadIndex := Z.of_nat k |}.
Proof.
  unfold walkChain. destruct rows as [|r rows]; [by left|].
  rewrite (proj2 (Z.eqb_neq _ _)) by (cbn; lia). rewrite walk_loop_cons. cbn [Z.eqb].
  destruct (decide (row_ok (r_PrevHash r) r)) as [Hr|Hr].
  - destruct (walk_loop_spec rows (0 + 1) (r_Hash r) ltac:(lia)) as [[-> Hc]|(k & Hk & -> & Ht & Hn)];
      [by left|].
    right. exists (S k). cbn [length take intact chain_from]. split_and!; [lia|done|done|tauto|].
    do 2 f_equal. lia.
  - right. exists 0%nat. cbn [length take intact chain_from]. split_and!; [lia|done|tauto|done].
Qed.

Lemma walkChain_clean rows : v_Tamper (walkChain rows) = false <-> intact rows.
Proof.
  destruct (walkChain_correct rows) as [[H ->]|(k & Hk & Ht & Hn & ->)]; cbn; [done|].
  split; [done|]. intros H. destruct Hn. rewrite <- (take_drop (S k) rows) in H.
  by apply intact_app in H as [H _].
Qed.

(** One turn of the loop of the boot walk, with a live context. *)
Lemma boot_loop_cons ctx i prev r rows : ctx (S i) = None ->
  let p := if (i =? 0)%nat then r_PrevHash r else prev in
  (row_ok p r /\ boot_loop ctx i prev (r :: rows) = boot_loop ctx (S i) (r_Hash r) rows) \/
  (~ row_ok p r /\ exists recomputed why, boot_loop ctx i prev (r :: rows) =
     (Z.of_nat i, Some (BootMismatch (newChainMismatchError (Z.of_nat i) (fromRow r) p recomputed why)))).
Proof.
  intros Hctx. cbn [boot_loop]. rewrite Hctx.
  change (ev_PrevHash (fromRow r)) with (r_PrevHash r).
  change (ev_Hash (fromRow r)) with (r_Hash r).
  change (ev_CanonicalVersion (fromRow r)) with (r_CanonicalVersion r).
  cbv zeta. set (p := if (i =? 0)%nat then r_PrevHash r else prev).
  destruct (decide (r_PrevHash r = p)) as [Hp|Hp].
  - assert (negb (i =? 0)%nat && negb (bytesEqual (r_PrevHash r) p) = false) as ->
      by (rewrite Hp, bytesEqual_refl; apply andb_false_r).
    unfold canonicalPayloadForVersion, CanonicalVersion4.
    destruct (Z.eqb_spec (r_CanonicalVersion r) 4) as [Hv|Hv]; cbn [negb].
    2: { right. split; [by intros (_ & ? & _)|by eexists _, _]. }
    unfold hashChainLink. rewrite <- Hp. fold (hash_input r).
    destruct (bytesEqual _ (r_Hash r)) eqn:Hh; cbn [negb].
    + apply bytesEqual_spec in Hh. left. by rewrite Hh.
    + apply bytesEqual_false in Hh. right. split; [by intros (_ & _ & ?)|by eexists _, _].
  - right. split; [by intros (? & _)|].
    assert (i <> 0%nat) by (intros ->; by destruct Hp).
    rewrite (proj2 (Nat.eqb_neq i 0)), (proj2 (bytesEqual_false _ _) Hp) by done. by eexists _, _.
Qed.

(** The boot walk and the verify walk take the same turns. *)
Lemma boot_loop_walk ctx rows : (forall k, ctx k = None) -> forall i prev,
  match walk_loop (Z.of_nat i) prev rows with
  | None => boot_loop ctx i prev rows = (Z.of_nat (i + length rows), None)
  | Some j => exists r m, (Z.of_nat i <= j) /\ rows !! Z.to_nat (j - Z.of_nat i) = Some r /\
      boot_loop ctx i prev rows = (j, Some (BootMismatch m)) /\
      cm_Index m = j /\ cm_RowID m = r_ID r /\ cm_StoredHashHex m = hex (r_Hash r)
  end.
Proof.
  intros Hctx. induction rows as [|r rows IH]; intros i prev.
  { cbn. by rewrite Nat.add_0_r. }
  rewrite walk_loop_cons.
  set (p := if Z.of_nat i =? 0 then r_PrevHash r else prev).
  assert (Hp : p = if (i =? 0)%nat then r_PrevHash r else prev) by (unfold p; by destruct i).
  destruct (boot_loop_cons ctx i prev r rows (Hctx _)) as [[Hr Heq]|(Hr & rec & why & Heq)];
    cbn zeta in Hr, Heq; rewrite <- ?Hp in Hr; rewrite <- ?Hp in Heq; rewrite Heq.
  - rewrite decide_True by done. specialize (IH (S i) (r_Hash r)).
    replace (Z.of_nat i + 1) with (Z.of_nat (S i)) by lia.
    destruct (walk_loop _ _ _) as [j|].
    + destruct IH as (x & m & Hj & Hx & H). exists x, m. split_and!; [lia| |apply H..].
      replace (Z.to_nat (j - Z.of_nat i)) with (S (Z.to_nat (j - Z.of_nat (S i)))) by lia. done.
    + rewrite IH. do 2 f_equal. cbn. lia.
  - rewrite decide_False by done. exists r, (newChainMismatchError (Z.of_nat i) (fromRow r) p rec why).
    rewrite Z.sub_diag. split_and!; try done; lia.
Qed.

(** A cancelled context can only make the boot walk stop early. *)
Lemma boot_loop_ctx ctx rows i prev n :
  boot_loop ctx i prev rows = (n, None) -> boot_loop (fun _ => None) i prev rows = (n, None).
Proof.
  revert i prev. induction rows as [|r rows IH]; intros i prev; cbn [boot_loop]; [done|].
  destruct (ctx (S i)); [done|]. repeat case_match; try done; apply IH.
Qed.

(** the boot check and [Verify] agree. Under a live context the boot check
    passes with the number of rows exactly when [Verify] finds no tampering,
    and otherwise it names the row at the index [Verify] reports, with its
    stored hash; and however the context behaves, a boot check that passes
    means the log verifies. *)
Theorem boot_agrees_Verify t :
  (if v_Tamper (Verify t) then
     exists r m, ListEventsForVerify t !! Z.to_nat (v_FirstBadIndex (Verify t)) = Some r /\
       verifyChainPostMigrationStore (fun _ => None) (Some t) =
         (v_FirstBadIndex (Verify t), Some (BootMismatch m)) /\
       cm_Index m = v_FirstBadIndex (Verify t) /\ cm_RowID m = r_ID r /\
       cm_StoredHashHex m = hex (r_Hash r)
   else verifyChainPostMigrationStore (fun _ => None) (Some t) = (v_Total (Verify t), None)) /\
  (forall ctx n, verifyChainPostMigrationStore ctx (Some t) = (n, None) ->
     v_Tamper (Verify t) = false).
Proof.
  set (rows := ListEventsForVerify t).
  assert (Hlive : forall ctx, (forall k, ctx k = None) ->
    verifyChainPostMigrationStore ctx (Some t) = boot_loop ctx 0 [] rows).
  { intros ctx H. unfold verifyChainPostMigrationStore. by rewrite H. }
  pose proof (boot_loop_walk (fun _ => None) rows ltac:(done) 0 []) as Hb.
  assert (HV : Verify t = walkChain rows) by done. rewrite HV. unfold walkChain.
  change (Z.of_nat 0) with 0 in Hb.
  destruct (Z.eqb_spec (Z.of_nat (length rows)) 0) as [H0|H0].
  { split; [|done]. rewrite Hlive by done. destruct rows; [done|]. cbn in H0. lia. }
  destruct (walk_loop 0 [] rows) as [j|]; cbn [v_Tamper v_FirstBadIndex v_Total].
  - destruct Hb as (r & m & Hj & Hr & Heq & Hm). rewrite Z.sub_0_r in Hr. split.
    + exists r, m. rewrite Hlive by done. auto.
    + intros ctx n. unfold verifyChainPostMigrationStore. destruct (ctx 0%nat); [done|].
      intros H%boot_loop_ctx. fold rows in H. congruence.
  - split; [by rewrite Hlive|done].
Qed.

(** ** Tamper evidence *)

(** The parts of two rows that the chain covers are the same. *)
Definition same_record (r r' : Row) : Prop :=
  hashed_content (fromRow r) = hashed_content (fromRow r') /\
  r_PrevHash r = r_PrevHash r' /\ r_Hash r = r_Hash r'.

(** Two rows, one of each log, whose distinct hash inputs collide. *)
Definition collision_between (l l' : list Row) : Prop :=
  exists r r', r ∈ l /\ r' ∈ l' /\ sha_collision (hash_input r) (hash_input r').

(** The widths of a row the code could have written. *)
Definition row_sized (r : Row) : Prop :=
  length (r_PrevHash r) = HashSize /\ well_sized (fromRow r) (r_PrevHash r).

Lemma hash_input_inj r r' : row_sized r -> row_sized r' -> hash_input r = hash_input r' ->
  hashed_content (fromRow r) = hashed_content (fromRow r') /\ r_PrevHash r = r_PrevHash r'.
Proof.
  intros [Hl Hw] [Hl' Hw'] H. unfold hash_input in H.
  apply app_inj_1 in H as [Hp H]; [|congruence].
  rewrite !payload_concat in H. apply lp_concat_inj in H; [|done..].
  by apply payload_fields_content.
Qed.

(** Rows with the same hash record the same event, or their inputs collide. *)
Lemma same_hash l l' r r' : intact l -> intact l' -> Forall row_sized l -> Forall row_sized l' ->
  r ∈ l -> r' ∈ l' -> r_Hash r = r_Hash r' -> same_record r r' \/ collision_between l l'.
Proof.
  intros Hi Hi' Hs Hs' Hr Hr' Hh.
  destruct (sha256_eq_cases (hash_input r) (hash_input r')) as [Heq|Hc].
  - by rewrite <- (intact_elem l r), <- (intact_elem l' r').
  - left. rewrite Forall_forall in Hs, Hs'.
    destruct (hash_input_inj r r' (Hs _ Hr) (Hs' _ Hr') Heq). done.
  - right. by exists r, r'.
Qed.


(** ** Deletion *)

Lemma order_delete t a r b : ids_unique t -> ListEventsForVerify t = a ++ r :: b ->
  ListEventsForVerify (DeleteEventByID t (r_ID r)) = a ++ b.
Proof.
  intros Hu Ho. unfold DeleteEventByID. rewrite order_filter, Ho by done.
  assert (Hne : forall x, x ∈ a ++ b -> String.eqb (r_ID x) (r_ID r) = false).
  { intros x Hx. apply String.eqb_neq. intros Heq.
    assert (Hn : NoDup (map r_ID (a ++ r :: b))).
    { unfold ids_unique in Hu. rewrite <- Ho, (Permutation_map r_ID (order_perm t)). done. }
    rewrite map_app in Hn. cbn in Hn. rewrite <- Permutation_middle in Hn.
    apply NoDup_cons in Hn as [Hn _]. rewrite <- map_app in Hn. destruct Hn.
    apply list_elem_of_fmap. by exists x. }
  rewrite List.filter_app. cbn. rewrite String.eqb_refl. cbn.
  rewrite <- List.filter_app. generalize (a ++ b), Hne. clear. intros l.
  induction l as [|x l IH]; intros H; cbn; [done|]. rewrite H by by left. cbn.
  f_equal. apply IH. intros y Hy. apply H. by right.
Qed.

(** deleting a row with rows on both sides of it makes a verified log
    report tampering, unless two rows of the log collide; deleting the oldest
    or the newest row does not show. *)
Theorem DeleteEventByID_detected t a r b :
  ids_unique t -> Forall row_sized t -> v_Tamper (Verify t) = false ->
  ListEventsForVerify t = a ++ r :: b ->
  (a = [] \/ b = [] -> v_Tamper (Verify (DeleteEventByID t (r_ID r))) = false) /\
  (a <> [] -> b <> [] ->
    v_Tamper (Verify (DeleteEventByID t (r_ID r))) = true \/ collision_between t t).
Proof.
  intros Hu Hs HV Ho. unfold Verify in *. rewrite (order_delete t a r b) by done.
  rewrite walkChain_clean, Ho in HV. split.
  - intros Hab. apply walkChain_clean. apply intact_app in HV as [Ha Hb].
    destruct Hab as [-> | ->]; [|by rewrite app_nil_r].
    by apply (intact_app [r] b) in Hb as [_ Hb].
  - intros Hna Hnb. destruct (v_Tamper (walkChain (a ++ b))) eqn:HT; [by left|right].
    rewrite walkChain_clean in HT. destruct b as [|y b]; [done|].
    destruct a as [|x a _] using rev_ind; [done|].
    rewrite <- app_assoc in HT. cbn in HT. pose proof (intact_link _ _ _ _ HT) as H1.
    assert (H2 : r_PrevHash y = r_Hash r).
    { by apply (intact_link (a ++ [x]) r y b). }
    rewrite <- app_assoc in HV. cbn in HV.
    set (l := ListEventsForVerify t) in *.
    assert (Hl : l = a ++ x :: r :: y :: b) by (by rewrite Ho, <- app_assoc).
    assert (Hsl : Forall row_sized l) by (by unfold l; rewrite order_perm).
    assert (Hil : intact l) by (by rewrite Hl).
    destruct (same_hash l l x r) as [(Hc & _)|(z & z' & Hz & Hz' & H)];
      [done..|rewrite Hl; set_solver|rewrite Hl; set_solver|congruence| |].
    + injection Hc as Hid _. exfalso.
      assert (Hxr : x = r).
      { apply (ids_unique_inj t); [done| | |done]; rewrite <- elem_of_order; fold l; rewrite Hl; set_solver. }
      subst x. unfold ids_unique in Hu. rewrite <- (order_perm t) in Hu. fold l in Hu.
      rewrite Hl, map_app in Hu. cbn in Hu. apply NoDup_app in Hu as (_ & _ & Hu).
      apply NoDup_cons in Hu as [Hu _]. destruct Hu. by left.
    + unfold l in Hz, Hz'. rewrite elem_of_order in Hz, Hz'. by exists z, z'.
Qed.

(** ** A concrete log *)

(** Reading the stored row back gives the event it stores. *)
Lemma fromRow_insert_params e : a_Type (ev_Actor e) <> "" -> fromRow (insert_params e) = e.
Proof.
  intros Ht. unfold fromRow. cbn. rewrite (proj2 (String.eqb_neq _ _) Ht).
  unfold to_bytes. rewrite !String.list_ascii_of_string_of_list_ascii.
  by destruct e as [? ? [] ? ? ? ? ? ? ? ? ? ? ? ? []].
Qed.

(** The row an append writes for an event after [prev]. *)
Definition seal (e : Event) (prev : bytes) : Event :=
  let e1 := with_chain e 4 (ev_At e) (ev_RowSalt e) (ev_Commitments e) prev [] in
  with_chain e 4 (ev_At e) (ev_RowSalt e) (ev_Commitments e) prev
    (hashChainLink prev (canonicalPayloadV4 e1 prev)).

Lemma seal_ok e prev : a_Type (ev_Actor e) <> "" -> row_ok prev (insert_params (seal e prev)).
Proof.
  intros Ht. split_and!; [done|done|]. unfold hash_input. by rewrite fromRow_insert_params.
Qed.

Lemma seal_fields e prev p : payload_fields (seal e prev) p = payload_fields e p.
Proof. reflexivity. Qed.

Definition demo_row (prev : bytes) (id : string) (at_ : time) : Row :=
  insert_params (seal (demo_commit (demo_raw id at_)) prev).

Definition demo_1 : Row := demo_row zeros "e1" 5.
Definition demo_2 : Row := demo_row (r_Hash demo_1) "e2" 6.
Definition demo_3 : Row := demo_row (r_Hash demo_2) "e0" 7.
(** Stored in another order than chained. *)
Definition demo_table : Table := [demo_2; demo_1; demo_3].

Lemma demo_order : ListEventsForVerify demo_table = [demo_1; demo_2; demo_3].
Proof. reflexivity. Qed.

Lemma demo_row_ok prev id at_ : row_ok prev (demo_row prev id at_).
Proof. by apply seal_ok. Qed.

Lemma demo_intact : v_Tamper (Verify demo_table) = false.
Proof.
  unfold Verify. rewrite demo_order. apply walkChain_clean.
  exact (conj (demo_row_ok zeros _ _) (conj (demo_row_ok (r_Hash demo_1) _ _)
    (conj (demo_row_ok (r_Hash demo_2) _ _) I))).
Qed.

Lemma demo_row_sized prev id at_ : length prev = HashSize -> fits (to_bytes id) ->
  row_sized (demo_row prev id at_).
Proof.
  intros Hp Hid. split; [done|]. unfold demo_row. rewrite fromRow_insert_params by done.
  unfold well_sized. rewrite seal_fields. cbn [insert_params seal with_chain r_PrevHash ev_PrevHash].
  apply demo_well_sized; [done|]. unfold fits. by rewrite Hp.
Qed.

Lemma demo_sized : Forall row_sized demo_table.
Proof. repeat constructor; apply demo_row_sized; (done || apply sha256_length). Qed.

Lemma demo_ids : ids_unique demo_table.
Proof. unfold ids_unique. cbn. apply (bool_decide_unpack _). reflexivity. Qed.


Lemma DeleteEventByID_detected_witness :
  v_Tamper (Verify (DeleteEventByID demo_table "e2")) = true \/ collision_between demo_table demo_table.
Proof.
  apply (DeleteEventByID_detected demo_table [demo_1] demo_2 [demo_3]
           demo_ids demo_sized demo_intact demo_order); discriminate.
Defined.
