(* ===== verification/AuditLog.v ===== *)
(** * Appending, pruning and erasing keep the chain

    The append of [SQLiteLogger.Log], retention and erasure, first one call at
    a time and then as the steps of any number of loggers (processes or
    goroutines) over one database file. Each [Log] is one [BEGIN IMMEDIATE]
    transaction, so the steps interleave whole. *)

From S2P Require Import Prelude Bytes Tenant AuditEvent AuditStore AuditChain.
From stdpp Require Import relations.

#[local] Open Scope string_scope.
#[local] Open Scope list_scope.
#[local] Open Scope Z_scope.

(** ** The state of the database *)

(** What every reachable table satisfies: the primary key, instants of the
    calendar that increase strictly along the chain, and the chain. *)
Record db_ok (t : Table) : Prop := {
  db_ids : ids_unique t;
  db_at : Forall (fun r => time_zero < r_At r) t;
  db_mono : StronglySorted (fun a b => r_At a < r_At b) (ListEventsForVerify t);
  db_intact : intact (ListEventsForVerify t)
}.

(** Loggers (by some identity) over one file. *)
Record World := { w_table : Table; w_loggers : gmap nat SQLiteLogger }.
Definition with_table (w : World) (t : Table) : World :=
  {| w_table := t; w_loggers := w_loggers w |}.
Definition with_logger (w : World) (n : nat) (l : SQLiteLogger) : World :=
  {| w_table := w_table w; w_loggers := <[n := l]> (w_loggers w) |}.

Inductive step (w : World) : World -> Prop :=
  | step_open n path lookup l :
      NewSQLiteLogger path lookup (w_table w) = Ret l -> step w (with_logger w n l)
  | step_log n l f salt e out l' t' :
      w_loggers w !! n = Some l -> time_zero < ev_At e ->
      Log f salt l (w_table w) e = (out, l', t') ->
      step w (with_logger (with_table w t') n l')
  | step_prune dbErr cutoff :
      step w (with_table w (PruneOlderThan dbErr cutoff (w_table w)).2)
  | step_redact lookupErr dbErr id :
      step w (with_table w (RedactEvent lookupErr dbErr id (w_table w)).2).

Definition reachable (w : World) : Prop := rtc step {| w_table := []; w_loggers := ∅ |} w.

(** ** One append *)

Lemma db_ok_nil : db_ok [].
Proof. constructor; [apply NoDup_nil_2|done|constructor|done]. Qed.

Lemma prepare_Ret l e e' : prepare l e = Ret e' ->
  ev_ID e' = ev_ID e /\ ev_ID e <> "" /\ ev_At e' = ev_At e /\ ev_At e <> time_zero /\
  ev_Action e' = ev_Action e /\ ev_Action e <> "" /\
  ev_CanonicalVersion e' = 4 /\ a_Type (ev_Actor e') <> "" /\
  (ev_CanonicalVersion e = 0 \/ ev_CanonicalVersion e = 4).
Proof.
  unfold prepare, validateRequiredFields, IsZero_time. cbn [mbind go_bind].
  destruct (String.eqb_spec (ev_ID e) ""); [done|].
  destruct (Z.eqb_spec (ev_At e) time_zero); [done|].
  destruct (String.eqb_spec (ev_Action e) ""); [done|]. cbn [mbind go_bind].
  unfold CanonicalVersion4.
  destruct ((ev_CanonicalVersion e =? 0) || (ev_CanonicalVersion e =? 4)) eqn:Hv; [|done].
  cbn [negb]. intros [= <-]. cbn. apply orb_true_iff in Hv. rewrite !Z.eqb_eq in Hv.
  split_and!; try done. by destruct (String.eqb_spec (a_Type (ev_Actor e)) "").
Qed.

(** Every outcome of [Log]: one row appended, or the table as it was. *)
Lemma Log_outcomes f salt l t e out l' t' : Log f salt l t e = (out, l', t') ->
  (exists e1, prepare l e = Ret e1 /\ out = Ret (chain_event l t salt e1) /\
     InsertEvent t (insert_params (chain_event l t salt e1)) = Some t' /\
     l' = {| EmailLookup := EmailLookup l; lastAt := ev_At (chain_event l t salt e1) |}) \/
  (is_ret out = false /\ t' = t /\
   (l' = l \/ exists e1, prepare l e = Ret e1 /\
     l' = {| EmailLookup := EmailLookup l; lastAt := ev_At (chain_event l t salt e1) |})).
Proof.
  unfold Log. destruct (prepare l e) as [e1| |]; cycle 1.
  { intros [= <- <- <-]. auto. }
  { intros [= <- <- <-]. auto. }
  do 5 (case_match; [intros [= <- <- <-]; by auto|]).
  case_match; [intros [= <- <- <-]; right; by eauto 6|].
  destruct (InsertEvent _ _) as [t1|] eqn:Hins; [|intros [= <- <- <-]; right; by eauto 6].
  case_match; intros [= <- <- <-]; [right; by eauto 6|]. left. by exists e1.
Qed.

Lemma InsertEvent_Some t r t' : InsertEvent t r = Some t' <->
  t' = t ++ [r] /\ r_ID r ∉ map r_ID t.
Proof.
  unfold InsertEvent, GetEventByID. destruct (List.find _ t) as [x|] eqn:Hf.
  - apply List.find_some in Hf as [Hx Hid]. apply String.eqb_eq in Hid. split; [done|].
    intros [_ H]. destruct H. apply list_elem_of_fmap. exists x. by rewrite list_elem_of_In.
  - split; [|by intros [-> _]]. intros [= <-]. split; [done|].
    intros (x & Hid & Hx)%list_elem_of_fmap. apply list_elem_of_In in Hx.
    pose proof (List.find_none _ _ Hf _ Hx) as H. cbn in H. rewrite <- Hid, String.eqb_refl in H. done.
Qed.

Lemma ids_unique_snoc t r : ids_unique (t ++ [r]) <-> ids_unique t /\ r_ID r ∉ map r_ID t.
Proof.
  unfold ids_unique. rewrite map_app, NoDup_app. cbn. split.
  - intros (? & H & _). split; [done|]. intros Hr. apply (H _ Hr). by left.
  - intros [? H]. split_and!; [done|set_solver|apply NoDup_singleton].
Qed.

(** The watermark is not below any stored instant, so the bumped one is
    above all of them. *)
Lemma bump_above l t at_ r : db_ok t -> time_zero < at_ -> r ∈ t ->
  r_At r < bump (watermark l t) at_.
Proof.
  intros Hdb Hat Hr.
  assert (Hw : r_At r <= watermark l t).
  { unfold watermark, GetLatestAt. rewrite (latest_row_last _ (db_ids _ Hdb)).
    rewrite <- elem_of_order in Hr. pose proof (order_sorted t) as Hs.
    destruct (ListEventsForVerify t) as [|x rows _] using rev_ind; [by apply elem_of_nil in Hr|].
    rewrite last_snoc. cbn [fmap option_fmap option_map].
    assert (r_At r <= r_At x).
    { apply elem_of_app in Hr as [Hr|Hr%list_elem_of_singleton]; [|by subst].
      apply verify_le_at. clear -Hs Hr. induction rows as [|y rows IH]; [by apply elem_of_nil in Hr|].
      inversion Hs as [|? ? Hs' Hy]; subst. apply elem_of_cons in Hr as [->|Hr]; [|auto].
      rewrite List.Forall_forall in Hy. apply Hy, in_or_app. right. by left. }
    unfold After. destruct (Z.ltb_spec (lastAt l) (r_At x)); lia. }
  pose proof (db_at _ Hdb) as Hz. rewrite Forall_forall in Hz. specialize (Hz _ Hr). cbn in Hz.
  unfold bump, IsZero_time, After. destruct (Z.eqb_spec (watermark l t) time_zero); [lia|]. cbn.
  destruct (Z.ltb_spec (watermark l t) at_); cbn; lia.
Qed.

Lemma bump_ge w at_ : at_ <= bump w at_.
Proof. unfold bump, After. destruct (Z.ltb_spec w at_); destruct (negb _); cbn; lia. Qed.

Lemma bump_id w at_ : w < at_ -> bump w at_ = at_.
Proof. intros H. unfold bump, After. by rewrite (proj2 (Z.ltb_lt _ _) H), andb_false_r. Qed.

Lemma latestHashFrom_tip t : db_ok t -> latestHashFrom t = tip zeros (ListEventsForVerify t).
Proof.
  intros Hdb. unfold latestHashFrom, GetLatestHash, tip.
  rewrite (latest_row_last _ (db_ids _ Hdb)). destruct (last _) as [r|] eqn:Hl; [|done]. cbn.
  rewrite (intact_elem _ r (db_intact _ Hdb)) by (by apply last_Some_elem_of).
  by rewrite sha256_length.
Qed.

Lemma chain_event_ok l t salt e : a_Type (ev_Actor e) <> "" -> ev_CanonicalVersion e = 4 ->
  row_ok (latestHashFrom t) (insert_params (chain_event l t salt e)).
Proof.
  intros Ht Hv. split_and!; [done|done|]. unfold hash_input.
  by rewrite fromRow_insert_params.
Qed.

Lemma append_db_ok l t salt e t' : db_ok t -> time_zero < ev_At e ->
  a_Type (ev_Actor e) <> "" -> ev_CanonicalVersion e = 4 ->
  InsertEvent t (insert_params (chain_event l t salt e)) = Some t' -> db_ok t'.
Proof.
  intros Hdb Hat Hty Hv [-> Hid]%InsertEvent_Some.
  set (r := insert_params (chain_event l t salt e)) in *.
  assert (Hlt : forall x, x ∈ t -> r_At x < r_At r) by (intros x Hx; by apply bump_above).
  assert (Hu : ids_unique (t ++ [r])) by (apply ids_unique_snoc; split; [apply Hdb|done]).
  assert (Ho : ListEventsForVerify (t ++ [r]) = ListEventsForVerify t ++ [r]) by (by apply order_snoc).
  constructor; [done| |rewrite Ho|rewrite Ho].
  - apply Forall_app. split; [apply Hdb|]. constructor; [|constructor].
    pose proof (bump_ge (watermark l t) (ev_At e)). cbn. lia.
  - apply StronglySorted_snoc; [apply Hdb|]. apply Forall_forall. intros x Hx.
    apply Hlt. by rewrite <- elem_of_order.
  - apply intact_snoc. split; [apply Hdb|].
    assert (Hok : row_ok (latestHashFrom t) r) by (by apply chain_event_ok).
    rewrite (latestHashFrom_tip t Hdb) in Hok.
    unfold tip in *. destruct (last (ListEventsForVerify t)); [done|].
    destruct Hok as (_ & ? & ?). done.
Qed.

(** a [Log] that answers an event has appended exactly that event, as the
    last row of the chain: the id was free, the instant is the caller's or one
    nanosecond past every stored one, the row links to the newest hash, its
    commitments check out under the fresh salt, and its hash is the one
    [ComputeHash] gives. The table stays well-formed. *)
Theorem Log_appends f salt l t e e' l' t' :
  db_ok t -> time_zero < ev_At e -> Log f salt l t e = (Ret e', l', t') ->
  length salt = RowSaltSize -> IsRedacted salt = false ->
  db_ok t' /\
  t' = t ++ [insert_params e'] /\
  ListEventsForVerify t' = ListEventsForVerify t ++ [insert_params e'] /\
  fromRow (insert_params e') = e' /\
  ev_ID e' = ev_ID e /\ (ev_ID e ∉ map r_ID t) /\
  (forall r, r ∈ t -> r_At r < ev_At e') /\ lastAt l' = ev_At e' /\
  (watermark l t < ev_At e -> ev_At e' = ev_At e) /\
  ev_PrevHash e' = tip zeros (ListEventsForVerify t) /\
  VerifyCommitments e' = (true, None) /\
  ComputeHash e' (ev_PrevHash e') = Ret (ev_Hash e').
Proof.
  intros Hdb Hat HLog Hlen Hsalt.
  apply Log_outcomes in HLog as [(e1 & Hp & [= ->] & Hins & ->)|[[=] _]].
  destruct (prepare_Ret _ _ _ Hp) as (Hid & HidN & HatE & HatN & Hact & HactN & Hv & Hty & _).
  rewrite <- HatE in Hat.
  pose proof (append_db_ok _ _ _ _ _ Hdb Hat Hty Hv Hins) as Hdb'.
  apply InsertEvent_Some in Hins as [-> Hfree].
  set (e' := chain_event l t salt e1) in *.
  assert (Habove : forall r, r ∈ t -> r_At r < ev_At e') by (intros r Hr; by apply bump_above).
  assert (HVC : VerifyCommitments e' = (true, None)) by (by apply VerifyCommitments_cases).
  split_and!; try done.
  - apply order_snoc; [apply Hdb'|done].
  - by apply fromRow_insert_params.
  - by rewrite <- Hid.
  - rewrite <- HatE. apply bump_id.
  - by apply (latestHashFrom_tip t Hdb).
  - apply ComputeHash_correct. split_and!; try done.
    + cbn. by rewrite Hid.
    + pose proof (bump_ge (watermark l t) (ev_At e1)). cbn. lia.
    + cbn. by rewrite Hact.
    + cbn. rewrite (latestHashFrom_tip t Hdb). unfold tip.
      destruct (last _) as [r|] eqn:Hl; [|done].
      rewrite (intact_elem _ r (db_intact _ Hdb)) by (by apply last_Some_elem_of).
      apply sha256_length.
Qed.

(** whichever statement the driver fails, a [Log] that answers no event
    leaves the table as it was, and in every case the watermark never moves
    back. It refuses an event without id, instant or action, an event asking
    for another version, and an id already stored. *)
Theorem Log_fails_clean f salt l t e out l' t' :
  Log f salt l t e = (out, l', t') ->
  (is_ret out = false -> t' = t) /\
  (time_zero < ev_At e -> time_zero <= lastAt l -> lastAt l <= lastAt l') /\
  ((ev_ID e = "" \/ ev_At e = time_zero \/ ev_Action e = "" \/
    (ev_CanonicalVersion e <> 0 /\ ev_CanonicalVersion e <> 4)) \/ ev_ID e ∈ map r_ID t ->
   is_ret out = false /\ t' = t).
Proof.
  intros HLog. pose proof (Log_outcomes _ _ _ _ _ _ _ _ HLog) as Ho. split_and!.
  - intros Hr. destruct Ho as [(e1 & _ & -> & _)|(_ & -> & _)]; done.
  - intros Hat Hl.
    assert (Hb : forall e1, prepare l e = Ret e1 -> lastAt l <= ev_At (chain_event l t salt e1)).
    { intros e1 (_ & _ & HatE & _)%prepare_Ret. cbn. rewrite HatE. unfold bump, watermark, After, IsZero_time.
      destruct (GetLatestAt t) as [a|]; [destruct (Z.ltb_spec (lastAt l) a)|]; cbn;
        repeat case_match; bool_simpl; lia. }
    destruct Ho as [(e1 & He1 & _ & _ & ->)|(_ & _ & [->|(e1 & He1 & ->)])]; cbn [lastAt]; [by auto|lia|by auto].
  - intros Hbad. destruct Ho as [(e1 & He1 & _ & Hins & _)|(? & -> & _)]; [exfalso|done].
    destruct (prepare_Ret _ _ _ He1) as (Hid & HidN & HatE & HatN & Hact & HactN & Hv & Hty & Hver).
    apply InsertEvent_Some in Hins as [_ Hins]. cbn in Hins. rewrite Hid in Hins. naive_solver.
Qed.

(** ** Retention and erasure *)

Lemma order_map f t : ids_unique t -> (forall r, r_ID (f r) = r_ID r) ->
  (forall r, r_At (f r) = r_At r) -> (forall r, r_CanonicalVersion (f r) = r_CanonicalVersion r) ->
  ListEventsForVerify (map f t) = map f (ListEventsForVerify t).
Proof.
  intros Hu Hid Hat Hv. apply order_unique.
  - unfold ids_unique. rewrite map_map. by rewrite (map_ext _ r_ID).
  - induction (order_sorted t) as [|x l Hl IH Hx]; cbn; constructor; [done|].
    rewrite List.Forall_forall in *. intros y (z & <- & Hz)%in_map_iff.
    specialize (Hx z Hz). unfold verify_le, verify_leb, lexZ in *. by rewrite !Hat, !Hv, !Hid.
  - by rewrite (Permutation_map f (order_perm t)).
Qed.

Definition redact_id (id : string) (r : Row) : Row :=
  if String.eqb (r_ID r) id && (r_CanonicalVersion r =? 4) then redact_row r else r.

Lemma redact_id_keeps id r : r_ID (redact_id id r) = r_ID r /\ r_At (redact_id id r) = r_At r /\
  r_CanonicalVersion (redact_id id r) = r_CanonicalVersion r /\
  r_PrevHash (redact_id id r) = r_PrevHash r /\ r_Hash (redact_id id r) = r_Hash r /\
  hash_input (redact_id id r) = hash_input r.
Proof. unfold redact_id. by destruct (_ && _). Qed.

Lemma chain_from_redact id prev rows :
  chain_from prev (map (redact_id id) rows) <-> chain_from prev rows.
Proof.
  revert prev. induction rows as [|r rows IH]; intros prev; cbn [map chain_from]; [done|].
  destruct (redact_id_keeps id r) as (_ & _ & Hv & Hp & Hh & Hi).
  unfold row_ok. by rewrite Hv, Hp, Hh, Hi, IH.
Qed.

Lemma redact_order id t : ids_unique t ->
  ListEventsForVerify (RedactEventPII t id) = map (redact_id id) (ListEventsForVerify t).
Proof. intros Hu. apply order_map; [done|intros r; apply (redact_id_keeps id r)..]. Qed.

Lemma intact_redact id rows : intact (map (redact_id id) rows) <-> intact rows.
Proof.
  destruct rows as [|r rows]; [done|]. destruct (redact_id_keeps id r) as (_ & _ & _ & Hp & _).
  cbn [map intact]. rewrite Hp. apply (chain_from_redact id (r_PrevHash r) (r :: rows)).
Qed.

Lemma Verify_redact id t : ids_unique t -> Verify (RedactEventPII t id) = Verify t.
Proof.
  intros Hu. unfold Verify. rewrite redact_order by done.
  assert (Hi : forall k, intact (take k (map (redact_id id) (ListEventsForVerify t))) <->
                 intact (take k (ListEventsForVerify t))).
  { intros k. rewrite firstn_map. apply intact_redact. }
  generalize (ListEventsForVerify t), Hi. clear. intros rows Hi.
  destruct (walkChain_correct rows) as [[H ->]|(k & Hk & Ht & Hn & ->)],
    (walkChain_correct (map (redact_id id) rows)) as [[H' ->]|(k' & Hk' & Ht' & Hn' & ->)];
    rewrite ?length_map in *.
  - done.
  - destruct Hn'. apply Hi. rewrite <- (take_drop (S k') rows) in H. by apply intact_app in H as [H _].
  - destruct Hn. rewrite intact_redact in H'. rewrite <- (take_drop (S k) rows) in H'.
    by apply intact_app in H' as [H' _].
  - do 2 f_equal. rewrite Hi in Ht', Hn'.
    assert (Hmono : forall i j, (i <= j)%nat -> intact (take j rows) -> intact (take i rows)).
    { intros i j Hij Hj. rewrite <- (Nat.min_l i j), <- take_take in * by done.
      rewrite <- (take_drop i (take j rows)) in Hj. by apply intact_app in Hj as [Hj _]. }
    destruct (Nat.lt_trichotomy k k') as [Hlt|[->|Hlt]]; [|done|].
    + destruct Hn. by apply (Hmono _ k').
    + destruct Hn'. by apply (Hmono _ k).
Qed.

(** erasing a row leaves the result of [Verify] as it was and every other
    row untouched. A row at version 4 loses its personal data, keeps all its
    hashed content, and from then on is reported as not checkable rather than
    tampered; an unknown id changes nothing and answers false. *)
Theorem RedactEvent_correct id t b t' :
  ids_unique t -> RedactEvent None None id t = (Ret b, t') ->
  Verify t' = Verify t /\
  (b = true <-> id ∈ map r_ID t) /\ (b = false -> t' = t) /\
  (forall r, r ∈ t -> r_ID r <> id -> r ∈ t') /\
  (forall r, r ∈ t -> r_ID r = id -> r_CanonicalVersion r = 4 ->
     exists r', r' ∈ t' /\ r_ID r' = id /\
       Forall (fun p => p.2 = []) (pii (fromRow r')) /\
       hashed_content (fromRow r') = hashed_content (fromRow r) /\
       VerifyCommitments (fromRow r') = (false, None)).
Proof.
  intros Hu. unfold RedactEvent. destruct (GetEventByID t id) as [x|] eqn:Hg; unfold GetEventByID in Hg.
  - intros [= <- <-]. apply List.find_some in Hg as [Hx Hid]. apply String.eqb_eq in Hid. split_and!.
    + by apply Verify_redact.
    + split; [|done]. intros _. apply list_elem_of_fmap. exists x. by rewrite list_elem_of_In.
    + done.
    + intros r Hr Hne. apply list_elem_of_fmap. exists r. split; [|done].
      by rewrite (proj2 (String.eqb_neq _ _) Hne).
    + intros r Hr Hid' Hv. exists (redact_row r). split_and!; [|done|by repeat constructor|done|].
      * apply list_elem_of_fmap. exists r. split; [|done].
        by rewrite Hid', String.eqb_refl, Hv.
      * unfold VerifyCommitments. cbn. by destruct (negb _).
  - intros [= <- <-].
    assert (Hno : id ∉ map r_ID t).
    { intros (r & -> & Hr)%list_elem_of_fmap. apply list_elem_of_In in Hr.
      pose proof (List.find_none _ _ Hg _ Hr) as H. cbn in H. by rewrite String.eqb_refl in H. }
    split_and!; [done|by split|done|done|].
    intros r Hr Hid. destruct Hno. apply list_elem_of_fmap. by exists r.
Qed.

Lemma prune_suffix cutoff rows : StronglySorted verify_le rows ->
  exists a, rows = a ++ List.filter (fun r => negb (r_At r <? cutoff)) rows /\
    Forall (fun r => r_At r < cutoff) a.
Proof.
  induction 1 as [|r rows Hr IH Hle]; [by exists []|]. cbn.
  destruct (Z.ltb_spec (r_At r) cutoff) as [Hlt|Hge]; cbn.
  - destruct IH as (a & Ha & Hc). exists (r :: a). cbn. rewrite <- Ha. auto.
  - exists []. split; [|done]. cbn. f_equal. clear IH Hr. induction Hle as [|y rows Hy Hle IH]; [done|]. cbn.
    apply verify_le_at in Hy. rewrite (proj2 (Z.ltb_ge _ _)) by lia. cbn. by f_equal.
Qed.

Lemma StronglySorted_app_inv {A} (R : relation A) l1 l2 :
  StronglySorted R (l1 ++ l2) -> StronglySorted R l2.
Proof. induction l1 as [|x l1 IH]; cbn; [done|]. inversion 1; auto. Qed.

(** Pruning removes a prefix of the chain, exactly the rows before the cutoff. *)
Lemma prune_db_ok cutoff t : db_ok t ->
  db_ok (Queries_PruneOlderThan t cutoff) /\
  exists a, ListEventsForVerify t = a ++ ListEventsForVerify (Queries_PruneOlderThan t cutoff) /\
    Forall (fun r => r_At r < cutoff) a.
Proof.
  intros Hdb. unfold Queries_PruneOlderThan.
  destruct (prune_suffix cutoff _ (order_sorted t)) as (a & Ha & Hc).
  rewrite <- (order_filter _ t (db_ids _ Hdb)) in Ha. split; [|by exists a].
  destruct Hdb as [Hids Hat Hmono Hint]. rewrite Ha in Hmono, Hint. constructor.
  - by apply ids_unique_filter.
  - rewrite Forall_forall in *. intros r Hr. apply list_elem_of_In, filter_In in Hr as [Hr _].
    apply Hat. by apply list_elem_of_In.
  - by apply StronglySorted_app_inv in Hmono.
  - by apply intact_app in Hint as [_ Hint].
Qed.

(** pruning removes exactly the rows before the cutoff, counts them, and
    what is left still verifies: it is the rest of the same chain. *)
Theorem PruneOlderThan_correct cutoff t n t' :
  db_ok t -> PruneOlderThan None cutoff t = (Ret n, t') ->
  (forall r, r ∈ t' <-> r ∈ t /\ cutoff <= r_At r) /\
  n = Z.of_nat (length t) - Z.of_nat (length t') /\
  (exists a, ListEventsForVerify t = a ++ ListEventsForVerify t' /\ Z.of_nat (length a) = n) /\
  v_Tamper (Verify t') = false.
Proof.
  intros Hdb [= <- <-]. destruct (prune_db_ok cutoff t Hdb) as (Hdb' & a & Ha & Hc). split_and!.
  - intros r. unfold Queries_PruneOlderThan. rewrite list_elem_of_In, filter_In, <- list_elem_of_In, negb_true_iff, Z.ltb_ge. tauto.
  - done.
  - exists a. split; [done|]. apply (f_equal length) in Ha. rewrite length_app, !order_length in Ha. rewrite Ha. lia.
  - unfold Verify. by apply walkChain_clean, db_intact.
Qed.

Lemma redact_db_ok id t : db_ok t -> db_ok (RedactEventPII t id).
Proof.
  intros [Hids Hat Hmono Hint]. constructor.
  - unfold ids_unique, RedactEventPII. rewrite map_map. rewrite (map_ext _ r_ID); [done|].
    intros r. apply (redact_id_keeps id r).
  - unfold RedactEventPII. apply Forall_fmap. eapply Forall_impl; [exact Hat|].
    intros r Hr. change (time_zero < r_At (redact_id id r)).
    by rewrite (proj1 (proj2 (redact_id_keeps id r))).
  - rewrite redact_order by done. induction Hmono as [|x l Hl IH Hx]; cbn; constructor.
    + apply IH. by apply (intact_app [x] l) in Hint as [_ Hint].
    + rewrite List.Forall_forall in *. intros y (z & <- & Hz)%in_map_iff.
      rewrite (proj1 (proj2 (redact_id_keeps id x))), (proj1 (proj2 (redact_id_keeps id z))). by apply Hx.
  - rewrite redact_order by done. by apply intact_redact.
Qed.

(** ** Any number of loggers *)

Lemma step_db_ok w w' : step w w' -> db_ok (w_table w) -> db_ok (w_table w').
Proof.
  intros Hst Hdb. destruct Hst as [|n l f salt e out l' t' Hl Hat HLog|err cutoff|e1 e2 id]; cbn.
  - done.
  - apply Log_outcomes in HLog as [(e1 & Hp & _ & Hins & _)|(_ & -> & _)]; [|done].
    destruct (prepare_Ret _ _ _ Hp) as (_ & _ & HatE & _ & _ & _ & Hv & Hty & _).
    rewrite <- HatE in Hat. eapply append_db_ok; eauto.
  - destruct err; [done|]. by apply prune_db_ok.
  - unfold RedactEvent. repeat case_match; cbn; try done. by apply redact_db_ok.
Qed.

Lemma reachable_db_ok w : reachable w -> db_ok (w_table w).
Proof.
  intros H. apply (rtc_ind_r (fun w => db_ok (w_table w)) _) in H; [done|apply db_ok_nil|].
  intros x y _ Hxy Hx. by eapply step_db_ok.
Qed.

Lemma intact_v4 rows : intact rows -> Forall (fun r => r_CanonicalVersion r = 4) rows.
Proof.
  intros H. apply Forall_forall. intros r (a & b & ->)%list_elem_of_split.
  apply intact_app in H as [_ H]. destruct H as (H & _). apply H.
Qed.

(** C3: however opens, appends (failed ones included), prunes and erasures by
    any number of loggers over one file interleave, the log verifies over all
    its rows, the boot check passes, instants increase strictly along the
    chain, and the file opens again with its watermark at the newest row. *)
Theorem reachable_verifies w : reachable w ->
  let t := w_table w in
  Verify t = {| v_Total := Z.of_nat (length t); v_Tamper := false; v_FirstBadIndex := 0 |} /\
  verifyChainPostMigrationStore (fun _ => None) (Some t) = (Z.of_nat (length t), None) /\
  StronglySorted (fun a b => r_At a < r_At b) (ListEventsForVerify t) /\
  (forall lookup, exists l, NewSQLiteLogger "audit.db" lookup t = Ret l /\
     forall r, r ∈ t -> r_At r <= lastAt l).
Proof.
  intros Hw t. pose proof (reachable_db_ok w Hw) as Hdb. fold t in Hdb.
  assert (HV : Verify t = {| v_Total := Z.of_nat (length t); v_Tamper := false; v_FirstBadIndex := 0 |}).
  { unfold Verify. rewrite <- (order_length t).
    destruct (walkChain_correct (ListEventsForVerify t)) as [[_ ->]|(k & _ & _ & Hn & _)]; [done|].
    destruct Hn. pose proof (db_intact _ Hdb) as H.
    rewrite <- (take_drop (S k) (ListEventsForVerify t)) in H. by apply intact_app in H as [H _]. }
  split_and!; [done| |apply Hdb|].
  - destruct (ListEventsForVerify t) as [|r rows] eqn:Ho.
    + unfold verifyChainPostMigrationStore. rewrite Ho. cbn.
      apply (f_equal length) in Ho. rewrite order_length in Ho. by rewrite Ho.
    + unfold verifyChainPostMigrationStore.
      pose proof (boot_loop_walk (fun _ => None) (ListEventsForVerify t) ltac:(done) 0 []) as Hb.
      unfold Verify, walkChain in HV. rewrite Ho in HV, Hb |- *.
      rewrite (proj2 (Z.eqb_neq _ _)) in HV by (cbn; lia). change (Z.of_nat 0) with 0 in Hb.
      destruct (walk_loop 0 [] (r :: rows)); [done|]. rewrite Hb.
      injection HV as HV. by rewrite <- HV.
  - intros lookup. unfold NewSQLiteLogger. cbn [String.eqb].
    assert (CountEventsNotAtV4 t = []) as ->.
    { unfold CountEventsNotAtV4. pose proof (intact_v4 _ (db_intact _ Hdb)) as H4.
      rewrite (order_perm t) in H4. clearbody t. clear -H4.
      induction H4 as [|r rows Hr _ IH]; [done|]. cbn. rewrite Hr. apply IH. }
    cbn. eexists. split; [done|]. intros r Hr. cbn. unfold GetLatestAt.
    rewrite (latest_row_last _ (db_ids _ Hdb)). rewrite <- elem_of_order in Hr.
    pose proof (db_mono _ Hdb) as Hs.
    destruct (ListEventsForVerify t) as [|x rows _] using rev_ind; [by apply elem_of_nil in Hr|].
    rewrite last_snoc. cbn. apply elem_of_app in Hr as [Hr|Hr%list_elem_of_singleton]; [|by subst].
    clear -Hs Hr. induction rows as [|y rows IH]; [by apply elem_of_nil in Hr|].
    inversion Hs as [|? ? Hs' Hy]; subst. apply elem_of_cons in Hr as [->|Hr]; [|auto].
    rewrite List.Forall_forall in Hy. specialize (Hy x ltac:(apply in_or_app; right; by left)). lia.
Qed.

(** ** Witnesses *)

Definition demo_logger : SQLiteLogger := {| EmailLookup := None; lastAt := time_zero |}.
Definition demo_logged : Event :=
  match prepare demo_logger (demo_raw "e1" 5) with
  | Ret e => chain_event demo_logger [] demo_salt e
  | _ => demo_raw "e1" 5
  end.

Lemma demo_log_run : Log None demo_salt demo_logger [] (demo_raw "e1" 5) =
  (Ret demo_logged, {| EmailLookup := None; lastAt := 5 |}, [insert_params demo_logged]).
Proof. reflexivity. Qed.

Lemma demo_db_ok : db_ok [insert_params demo_logged].
Proof.
  destruct (prepare demo_logger (demo_raw "e1" 5)) as [e| |] eqn:Hp; [|discriminate Hp..].
  destruct (prepare_Ret _ _ _ Hp) as (_ & _ & Hat & _ & _ & _ & Hv & Hty & _).
  unfold demo_logged. rewrite Hp.
  apply (append_db_ok demo_logger [] demo_salt e); [exact db_ok_nil|by rewrite Hat|done|done|reflexivity].
Qed.

Lemma Log_appends_witness : VerifyCommitments demo_logged = (true, None).
Proof.
  refine (proj1 (proj2 (proj2 (proj2 (proj2 (proj2 (proj2 (proj2 (proj2 (proj2 (proj2
    (Log_appends None demo_salt demo_logger [] (demo_raw "e1" 5) demo_logged _ _
       db_ok_nil eq_refl demo_log_run eq_refl eq_refl)))))))))))).
Defined.

Lemma Log_fails_clean_witness :
  let '(out, l', t') :=
    Log (Some (AtInsert, AppError "disk I/O error")) demo_salt demo_logger [insert_params demo_logged]
      (demo_raw "e2" 5) in
  is_ret out = false /\ t' = [insert_params demo_logged].
Proof.
  destruct (Log _ _ _ _ _) as [[out l'] t'] eqn:H.
  assert (Hr : is_ret out = false) by (injection H as <- _ _; reflexivity).
  split; [exact Hr|]. exact (proj1 (Log_fails_clean _ _ _ _ _ _ _ _ H) Hr).
Defined.

Lemma RedactEvent_correct_witness :
  Verify (RedactEventPII [insert_params demo_logged] "e1") = Verify [insert_params demo_logged].
Proof.
  exact (proj1 (RedactEvent_correct "e1" [insert_params demo_logged] true _
    (db_ids _ demo_db_ok) eq_refl)).
Defined.

Lemma PruneOlderThan_correct_witness :
  v_Tamper (Verify (Queries_PruneOlderThan [insert_params demo_logged] 9)) = false.
Proof.
  exact (proj2 (proj2 (proj2 (PruneOlderThan_correct 9 [insert_params demo_logged] 1 _
    demo_db_ok eq_refl)))).
Defined.

Lemma reachable_verifies_witness : exists w, reachable w /\ length (w_table w) = 1%nat /\
  v_Tamper (Verify (w_table w)) = false.
Proof.
  set (w0 := {| w_table := []; w_loggers := ∅ |}).
  set (w1 := with_logger w0 0 demo_logger).
  set (w2 := with_logger (with_table w1 [insert_params demo_logged]) 0
               {| EmailLookup := None; lastAt := 5 |}).
  assert (H : reachable w2).
  { eapply rtc_l; [exact (step_open w0 0 "audit.db" None demo_logger eq_refl)|].
    eapply rtc_l; [|apply rtc_refl].
    eapply (step_log w1 0 demo_logger None demo_salt (demo_raw "e1" 5));
      [apply lookup_insert_eq|done|exact demo_log_run]. }
  exists w2. split; [exact H|]. split; [reflexivity|].
  by rewrite (proj1 (reachable_verifies w2 H)).
Defined.
