(* ===== verification/AuditList.v ===== *)
(** * Reading the audit log: filters, pages and tenant exports

    [List], [ListScoped], the cursor and [ExportForTenant] against what a
    reader is promised: following the cursors yields every matching row once,
    newest first, and an export is one tenant's rows of the chain. *)

From S2P Require Import Prelude Bytes Tenant AuditEvent AuditStore AuditChain.

#[local] Open Scope string_scope.
#[local] Open Scope list_scope.
#[local] Open Scope Z_scope.

(** ** The order of a listing *)

#[export] Instance list_le_total : Total list_le.
Proof. intros a b. apply lexZ_total. intros ??. apply String.leb_total. Qed.
#[export] Instance list_le_trans : Transitive list_le.
Proof. intros a b c. apply lexZ_trans. apply leb_id_trans. Qed.
#[export] Instance list_ge_total : Total (flip list_le) := flip_total list_le.
#[export] Instance list_ge_trans : Transitive (flip list_le) := flip_trans list_le.

Lemma list_le_antisym a b : list_le a b -> list_le b a -> r_ID a = r_ID b.
Proof.
  intros H1 H2. destruct (lexZ_antisym _ _ _ _ H1 H2) as (_ & H5 & H6).
  rewrite leb_le_string in H5, H6. by apply (anti_symm String.le).
Qed.

Lemma ltb_leb_string x y : String.ltb x y = true <-> String.leb x y = true /\ x <> y.
Proof.
  unfold String.ltb, String.leb. destruct (String.compare x y) eqn:E; split; try done.
  - intros [_ H]. by apply String.compare_eq_iff in E.
  - intros _. split; [done|]. intros ->. pose proof (String.compare_antisym y y) as H.
    by rewrite E in H.
  - by intros [? _].
Qed.

(** The cursor's condition: strictly older than the row it was taken at. *)
Lemma cursor_before c r :
  cond_holds (CursorBefore (r_At c) (r_ID c)) r = true <-> list_le r c /\ r_ID r <> r_ID c \/ r_At r < r_At c.
Proof.
  cbn. rewrite orb_true_iff, andb_true_iff, Z.ltb_lt, Z.eqb_eq, ltb_leb_string.
  unfold list_le, list_leb, lexZ. destruct (Z.eqb_spec (r_At r) (r_At c)).
  - intuition lia.
  - rewrite Z.ltb_lt. intuition lia.
Qed.

Lemma list_le_at a b : list_le a b -> r_At a <= r_At b.
Proof. unfold list_le, list_leb, lexZ. destruct (Z.eqb_spec (r_At a) (r_At b)); rewrite ?Z.ltb_lt; lia. Qed.

(** The rows of a listing: those that satisfy [p], newest first. *)
Definition listing (p : Row -> bool) (t : Table) : list Row :=
  merge_sort (flip list_le) (List.filter p t).

Lemma listing_filter p q t : ids_unique t ->
  listing (fun r => p r && q r) t = List.filter q (listing p t).
Proof.
  intros Hu. unfold listing. rewrite <- merge_sort_filter; [|apply _..|].
  - f_equal. induction t as [|r t IH]; [done|]. unfold ids_unique in Hu. cbn in Hu.
    apply NoDup_cons in Hu as [_ Hu]. cbn. rewrite (IH Hu).
    destruct (p r); cbn; [|done]. by destruct (q r).
  - intros x y Hx Hy H1 H2. apply (ids_unique_inj (List.filter p t)); [by apply ids_unique_filter|done..|].
    by apply list_le_antisym.
Qed.

Lemma listing_sorted p t : StronglySorted (flip list_le) (listing p t).
Proof. apply merge_sort_StronglySorted; apply _. Qed.

Lemma listing_perm p t : listing p t ≡ₚ List.filter p t.
Proof. apply merge_sort_Permutation. Qed.

Lemma elem_of_listing p t r : r ∈ listing p t <-> r ∈ t /\ p r = true.
Proof. by rewrite listing_perm, list_elem_of_In, filter_In, <- list_elem_of_In. Qed.

(** What the condition of a cursor keeps of a listing is what follows the row
    the cursor was taken at. *)
Lemma cursor_rest a c b : StronglySorted (flip list_le) (a ++ c :: b) ->
  NoDup (map r_ID (a ++ c :: b)) ->
  List.filter (cond_holds (CursorBefore (r_At c) (r_ID c))) (a ++ c :: b) = b.
Proof.
  intros Hs Hn. induction a as [|x a IH].
  - cbn [app] in *. inversion Hs as [|? ? Hs' Hc]; subst. cbn [map] in Hn.
    apply NoDup_cons in Hn as [Hn _]. cbn [List.filter].
    destruct (cond_holds _ c) eqn:E; [apply cursor_before in E as [[_ []]|]; [done|lia]|].
    clear E Hs Hs'. induction Hc as [|y b Hy Hc IHb]; [done|]. cbn [List.filter].
    cbn [map] in Hn. rewrite not_elem_of_cons in Hn. destruct Hn as [Hne Hn].
    rewrite (proj2 (cursor_before c y)) by (left; auto). f_equal. by apply IHb.
  - cbn [app] in *. inversion Hs as [|? ? Hs' Hx]; subst. cbn [map] in Hn.
    apply NoDup_cons in Hn as [Hnx Hn]. cbn [List.filter].
    destruct (cond_holds _ x) eqn:E; [exfalso|by apply IH].
    rewrite List.Forall_forall in Hx. specialize (Hx c ltac:(apply in_or_app; right; by left)).
    unfold flip in Hx. apply cursor_before in E as [[E Hne]|E].
    + by destruct Hne, (list_le_antisym _ _ E Hx).
    + apply list_le_at in Hx. lia.
Qed.

(** ** The conditions of a filter *)

Definition unset_or (v : string) (x : string) : bool := String.eqb v "" || String.eqb x v.
Definition tenant_or (i : Tenant.ID) (x : string) : bool := negb (Valid i) || String.eqb x (ID_String i).

(** What a [Filter] asks of a row, its cursor aside. *)
Definition matches (f : Filter) (r : Row) : bool :=
  (IsZero_time (f_Since f) || (f_Since f <=? r_At r)) &&
  (IsZero_time (f_Until f) || (r_At r <? f_Until f)) &&
  unset_or (f_ActorUserID f) (r_ActorUserID r) && unset_or (f_ActorEmail f) (r_ActorEmail r) &&
  unset_or (f_Action f) (r_Action r) && unset_or (f_ResourceType f) (r_ResourceType r) &&
  unset_or (f_ResourceID f) (r_ResourceID r) && unset_or (f_RequestID f) (r_RequestID r) &&
  tenant_or (f_TenantID f) (r_TenantID r) && tenant_or (f_ActorTenantID f) (r_ActorTenantID r).

Definition holds_all (cs : list cond) (r : Row) : bool := forallb (fun c => cond_holds c r) cs.

Lemma holds_all_app cs ds r : holds_all (cs ++ ds) r = holds_all cs r && holds_all ds r.
Proof. apply forallb_app. Qed.

Lemma str_cond_holds v col r : holds_all (str_cond v col) r = unset_or v (col r).
Proof. unfold str_cond, unset_or. destruct (String.eqb v ""); cbn; [done|]. by rewrite andb_true_r. Qed.

Lemma tenant_cond_holds i col r : holds_all (tenant_cond i col) r = tenant_or i (col r).
Proof.
  unfold tenant_cond, tenant_or, IsSingle, Valid, ID_String. destruct i as [v []]; cbn; [|done].
  destruct (String.eqb_spec v "") as [->|Hv]; cbn; rewrite andb_true_r; [done|].
  destruct (String.eqb_spec (col r) v) as [->|]; cbn; [|done]. by rewrite (proj2 (String.eqb_neq _ _) Hv).
Qed.

Section list_codec.
  Context (codec : TimeCodec).

(** The conditions of a filter say of a row what the filter asks of it. *)
Lemma filterWhere_matches f : exists cs, (forall r, holds_all cs r = matches f r) /\
  filterWhere codec f =
    if String.eqb (f_Cursor f) "" then Ret cs
    else p ← wrap_err (Errorf1 "audit: parse cursor") (parseCursor codec (f_Cursor f));
         Ret (cs ++ [CursorBefore p.1 p.2]).
Proof.
  eexists. split; [|reflexivity]. intros r.
  rewrite !holds_all_app, !str_cond_holds, !tenant_cond_holds. unfold matches.
  rewrite <- !andb_assoc. f_equal; [|f_equal].
  - destruct (IsZero_time (f_Since f)); cbn; [done|]. by rewrite andb_true_r.
  - destruct (IsZero_time (f_Until f)); cbn; [done|]. by rewrite andb_true_r.
Qed.

(** ** Cursors *)

(** The calendar RFC 3339 can write: years 1 to 9999. *)
Definition in_calendar (t : time) : Prop := time_zero <= t < 253402300800 * 10 ^ 9.
(** [time.Parse(RFC3339Nano, t.Format(RFC3339Nano))] is [t]. *)
Context (codec_law : forall t, in_calendar t -> parse_time codec (format_time codec t) = Ret t).

Definition no_bar (s : string) : Prop := forall i, String.get i s <> Some "|"%char.

Lemma take_append s1 s2 : string_take (String.length s1) (s1 +:+ s2) = s1.
Proof. unfold string_take. induction s1 as [|c s1 IH]; cbn; [by destruct s2|]. by f_equal. Qed.

Lemma drop_bar s1 s2 : string_drop (S (String.length s1)) (s1 +:+ "|" +:+ s2) = s2.
Proof.
  unfold string_drop. rewrite string_length_append. cbn [String.length String.append].
  replace (String.length s1 + S (String.length s2) - S (String.length s1))%nat with (String.length s2) by lia.
  induction s1 as [|c s1 IH]; cbn; [apply substring_all|done].
Qed.

Lemma parse_cursor_skip s1 id k : no_bar id -> (k <= String.length id)%nat ->
  parse_cursor_from codec (s1 +:+ "|" +:+ id) (S (String.length s1) + k) =
  parse_cursor_from codec (s1 +:+ "|" +:+ id) (S (String.length s1)).
Proof.
  intros Hid. induction k as [|k IH]; intros Hk; [by rewrite Nat.add_0_r|].
  rewrite Nat.add_succ_r. cbn [parse_cursor_from].
  assert (Hget : String.get (S (String.length s1) + k) (s1 +:+ "|" +:+ id) = String.get k id).
  { replace (S (String.length s1) + k)%nat with (S k + String.length s1)%nat by lia.
    rewrite <- String.append_correct2. done. }
  rewrite Hget, decide_False by apply Hid. apply IH. lia.
Qed.

(** A cursor reads back as the row it was taken at. *)
Lemma parse_formatCursor t id : in_calendar t -> no_bar id ->
  parseCursor codec (formatCursor codec t id) = Ret (t, id).
Proof.
  intros Ht Hid. unfold parseCursor, formatCursor. set (s1 := format_time codec t).
  replace (String.length (s1 +:+ "|" +:+ id)) with (S (String.length s1) + String.length id)%nat
    by (rewrite string_length_append; cbn; lia).
  rewrite parse_cursor_skip by done. cbn [parse_cursor_from].
  rewrite decide_True by (symmetry; exact (String.append_correct2 s1 ("|" +:+ id) 0)).
  rewrite take_append, drop_bar. unfold s1. rewrite codec_law by done. done.
Qed.

(** ** Following the cursors *)

Definition with_cursor (f : Filter) (c : string) : Filter :=
  {| f_Since := f_Since f; f_Until := f_Until f; f_ActorUserID := f_ActorUserID f;
     f_ActorEmail := f_ActorEmail f; f_Action := f_Action f; f_ResourceType := f_ResourceType f;
     f_ResourceID := f_ResourceID f; f_RequestID := f_RequestID f; f_TenantID := f_TenantID f;
     f_ActorTenantID := f_ActorTenantID f; f_Limit := f_Limit f; f_Cursor := c |}.

(** A caller that passes [NextCursor] back until there is none. *)
Fixpoint pages (fuel : nat) (t : Table) (scope : list cond) (f : Filter) : go (list Event) :=
  match fuel with
  | O => Panic "out of fuel"
  | S fuel =>
      page ← list_events codec t f scope;
      if String.eqb (NextCursor page) "" then Ret (Events page)
      else rest ← pages fuel t scope (with_cursor f (NextCursor page)); Ret (Events page ++ rest)
  end.

Definition limit_of (f : Filter) : Z := if f_Limit f <=? 0 then 50 else f_Limit f.

(** One page, from the start or from the cursor of a row of the listing. *)
Lemma page_from t scope f p a b : ids_unique t ->
  Forall (fun r => in_calendar (r_At r) /\ no_bar (r_ID r)) t ->
  (forall r, p r = holds_all scope r && matches f r) -> listing p t = a ++ b ->
  f_Cursor f = match last a with Some c => formatCursor codec (r_At c) (r_ID c) | None => "" end ->
  list_events codec t f scope = Ret (pageFromRows codec (take (Z.to_nat (limit_of f)) b) (limit_of f)).
Proof.
  intros Hu Hcal Hp Hl Hc. unfold list_events. fold (limit_of f).
  destruct (filterWhere_matches f) as (cs & Hcs & ->). rewrite Hc.
  assert (Hext : forall q, (forall r, q r = p r) -> List.filter q t = List.filter p t)
    by (intros q Hq; apply List.filter_ext; done).
  destruct a as [|c a _] using rev_ind.
  - cbn [last String.eqb mbind go_bind]. do 2 f_equal. cbn [app] in Hl. rewrite <- Hl. f_equal.
    unfold listing. f_equal. apply Hext. intros r. fold (holds_all (scope ++ cs) r).
    by rewrite holds_all_app, Hcs, Hp.
  - rewrite last_snoc.
    assert (Hmem : c ∈ t) by (apply (elem_of_listing p); rewrite Hl; set_solver).
    rewrite Forall_forall in Hcal. destruct (Hcal _ Hmem) as [Hat Hid].
    assert (String.eqb (formatCursor codec (r_At c) (r_ID c)) "" = false) as ->.
    { unfold formatCursor. destruct (format_time codec (r_At c)); done. }
    rewrite parse_formatCursor by done. cbn [wrap_err mbind go_bind fst snd]. do 2 f_equal. f_equal.
    assert (Hrest : listing (fun r => p r && cond_holds (CursorBefore (r_At c) (r_ID c)) r) t = b).
    { rewrite listing_filter, Hl by done. rewrite <- app_assoc. cbn [app]. apply cursor_rest.
      - pose proof (listing_sorted p t) as Hs. rewrite Hl, <- app_assoc in Hs. exact Hs.
      - change (c :: b) with ([c] ++ b). rewrite app_assoc, <- Hl, listing_perm.
        by apply ids_unique_filter. }
    rewrite <- Hrest. unfold listing. f_equal. apply List.filter_ext. intros r.
    change (holds_all (scope ++ cs ++ [CursorBefore (r_At c) (r_ID c)]) r = p r && cond_holds (CursorBefore (r_At c) (r_ID c)) r).
    rewrite !holds_all_app, Hcs, Hp. unfold holds_all at 2. cbn [forallb].
    by rewrite andb_true_r, andb_assoc.
Qed.

Lemma limit_of_pos f : 0 < limit_of f.
Proof. unfold limit_of. destruct (Z.leb_spec (f_Limit f) 0); lia. Qed.

Lemma pages_rest t scope p fuel : forall f a b, ids_unique t ->
  Forall (fun r => in_calendar (r_At r) /\ no_bar (r_ID r)) t ->
  (forall r, p r = holds_all scope r && matches f r) -> listing p t = a ++ b ->
  f_Cursor f = match last a with Some c => formatCursor codec (r_At c) (r_ID c) | None => "" end ->
  (length b < fuel)%nat -> pages fuel t scope f = Ret (map fromRow b).
Proof.
  induction fuel as [|fuel IH]; intros f a b Hu Hcal Hp Hl Hc Hf; [lia|]. cbn [pages].
  rewrite (page_from t scope f p a b) by done. cbn [mbind go_bind].
  pose proof (limit_of_pos f) as Hpos. set (n := Z.to_nat (limit_of f)).
  unfold pageFromRows. cbn [NextCursor Events].
  destruct (Z.eqb_spec (Z.of_nat (length (take n b))) (limit_of f)) as [Hfull|Hfull]; cbn [andb].
  - rewrite (proj2 (Nat.ltb_lt _ _)) by lia.
    destruct (last (take n b)) as [c|] eqn:Hlast; [|apply last_None in Hlast; rewrite Hlast in Hfull; cbn in Hfull; lia].
    assert (String.eqb (formatCursor codec (r_At c) (r_ID c)) "" = false) as ->.
    { unfold formatCursor. by destruct (format_time codec (r_At c)). }
    rewrite (IH _ (a ++ take n b) (drop n b)); [|done..| | |].
    + cbn [mbind go_bind]. by rewrite <- map_app, take_drop.
    + by rewrite <- app_assoc, take_drop.
    + by rewrite last_app, Hlast.
    + rewrite length_drop. rewrite length_take in Hfull. lia.
  - cbn [String.eqb]. do 2 f_equal. apply take_ge. rewrite length_take in Hfull. lia.
Qed.

(** a reader that follows the cursors from the first page gets every row
    the filter matches (within the caller's clusters, for [ListScoped]),
    exactly once, newest first, whatever the page size; each field of the
    filter that is unset asks for nothing, and one that is set asks for
    equality, or bounds the instant by [Since] inclusively and [Until]
    exclusively. Ids must not contain the cursor's separator. *)
Theorem List_pages_complete t scope f :
  ids_unique t -> Forall (fun r => in_calendar (r_At r) /\ no_bar (r_ID r)) t ->
  f_Cursor f = "" ->
  exists rows, pages (S (length t)) t scope f = Ret (map fromRow rows) /\
    NoDup (map r_ID rows) /\ StronglySorted (flip list_le) rows /\
    (forall r, r ∈ rows <-> r ∈ t /\ holds_all scope r = true /\ matches f r = true).
Proof.
  intros Hu Hcal Hc. set (p r := holds_all scope r && matches f r).
  exists (listing p t). split_and!.
  - rewrite (pages_rest t scope p _ f [] (listing p t)); try done.
    rewrite (Permutation_length (listing_perm p t)).
    pose proof (List.filter_length_le p t). lia.
  - rewrite listing_perm. by apply ids_unique_filter.
  - apply listing_sorted.
  - intros r. rewrite elem_of_listing. unfold p. by rewrite andb_true_iff.
Qed.
End list_codec.

(** ** Exports *)

Lemma export_loop_all tenantID rows : Forall (fun r => r_TenantID r = tenantID) rows ->
  export_loop tenantID rows = Ret (map fromRow rows).
Proof.
  induction 1 as [|r rows Hr _ IH]; cbn; [done|]. by rewrite Hr, String.eqb_refl, IH.
Qed.

(** an export for a tenant is refused for an unset id and otherwise holds
    exactly the rows of the chain scoped to that tenant, in chain order and as
    stored, whoever the actors were; it never claims to be a chain, and each
    of its rows still carries the hash of its own previous hash and payload. *)
Theorem ExportForTenant_correct t id : ids_unique t ->
  (Valid id = false -> exists err, ExportForTenant (Some t) None id = Fail err) /\
  (Valid id = true -> exists out, ExportForTenant (Some t) None id = Ret out /\
     te_Events out = map fromRow (List.filter (fun r => String.eqb (r_TenantID r) (ID_String id))
                                    (ListEventsForVerify t)) /\
     te_IsChain out = false /\ te_TenantID out = ID_String id /\
     (forall e, e ∈ te_Events out <-> exists r, r ∈ t /\ r_TenantID r = ID_String id /\ e = fromRow r) /\
     (v_Tamper (Verify t) = false -> forall e, e ∈ te_Events out ->
        ev_Hash e = sha256 (ev_PrevHash e ++ canonicalPayloadV4 e (ev_PrevHash e)))).
Proof.
  intros Hu. unfold ExportForTenant. split; intros ->; cbn [negb]; [by eexists|].
  set (p r := String.eqb (r_TenantID r) (ID_String id)).
  assert (Hrows : ListEventsByTenant t (ID_String id) = List.filter p (ListEventsForVerify t))
    by (by apply order_filter).
  rewrite Hrows, export_loop_all; cycle 1.
  { apply Forall_forall. intros r Hr. apply list_elem_of_In, filter_In in Hr as [_ Hr].
    by apply String.eqb_eq. }
  cbn [mbind go_bind]. eexists. split; [done|]. cbn [te_Events te_IsChain te_TenantID].
  assert (Hin : forall e, e ∈ map fromRow (List.filter p (ListEventsForVerify t)) <->
    exists r, r ∈ t /\ r_TenantID r = ID_String id /\ e = fromRow r).
  { intros e. rewrite list_elem_of_fmap. setoid_rewrite list_elem_of_In.
    setoid_rewrite filter_In. setoid_rewrite <- list_elem_of_In. setoid_rewrite elem_of_order.
    unfold p. setoid_rewrite String.eqb_eq. naive_solver. }
  split_and!; [done|done|done|done|].
  intros HV e (r & Hr & _ & ->)%Hin. unfold Verify in HV. apply walkChain_clean in HV.
  apply (intact_elem _ r HV). by rewrite elem_of_order.
Qed.

(** ** Witnesses *)

(** A text form that obeys the law: the binary digits of the distance from
    the zero instant. *)
Fixpoint pos_text (p : positive) : string :=
  match p with
  | xH => ""
  | xO p => String "0" (pos_text p)
  | xI p => String "1" (pos_text p)
  end.
Fixpoint text_pos (s : string) : positive :=
  match s with
  | EmptyString => xH
  | String c s => if Ascii.eqb c "1" then xI (text_pos s) else xO (text_pos s)
  end.
Definition demo_codec : TimeCodec :=
  {| format_time := fun t => pos_text (Z.to_pos (t - time_zero + 1));
     parse_time := fun s => Ret (Z.pos (text_pos s) + time_zero - 1) |}.

Lemma demo_codec_law t : in_calendar t -> parse_time demo_codec (format_time demo_codec t) = Ret t.
Proof.
  intros [Hl _]. cbn [parse_time format_time demo_codec].
  assert (H : forall p, text_pos (pos_text p) = p) by (induction p; cbn; congruence).
  rewrite H, Z2Pos.id by lia. f_equal. lia.
Qed.

Definition demo_filter (limit : Z) : Filter :=
  {| f_Since := time_zero; f_Until := 7; f_ActorUserID := "u1"; f_ActorEmail := "";
     f_Action := ""; f_ResourceType := ""; f_ResourceID := ""; f_RequestID := "";
     f_TenantID := New "acme"; f_ActorTenantID := ID_zero; f_Limit := limit; f_Cursor := "" |}.

Lemma demo_calendar : Forall (fun r => in_calendar (r_At r) /\ no_bar (r_ID r)) demo_table.
Proof.
  assert (H : forall s, (String.length s <= 2)%nat -> String.get 0 s <> Some "|"%char ->
    String.get 1 s <> Some "|"%char -> no_bar s).
  { intros [|c [|d [|]]] Hs H0 H1 [|[|i]]; cbn in *; try done; lia. }
  repeat constructor; try done; apply H; cbn; (lia || discriminate).
Qed.

Lemma List_pages_complete_witness :
  exists rows, pages demo_codec 4 demo_table [ClusterScope ["c1"]] (demo_filter 1) =
      Ret (map fromRow rows) /\ demo_1 ∈ rows.
Proof.
  destruct (List_pages_complete demo_codec demo_codec_law demo_table [ClusterScope ["c1"]]
    (demo_filter 1) demo_ids demo_calendar eq_refl) as (rows & H & _ & _ & Hin).
  exists rows. split; [exact H|]. apply Hin. split; [right; left|by split].
Defined.

Lemma ExportForTenant_correct_witness :
  exists out, ExportForTenant (Some demo_table) None (New "acme") = Ret out /\
    te_Events out = map fromRow [demo_1; demo_2; demo_3].
Proof.
  destruct (proj2 (ExportForTenant_correct demo_table (New "acme") demo_ids) eq_refl)
    as (out & H & Hev & _).
  exists out. split; [exact H|]. rewrite Hev, demo_order. reflexivity.
Defined.
