(* ===== verification/ScimFilter.v ===== *)
(** * SCIM list filters to SQL

    [src/scim/filter.go]: the walk of a parsed filter that writes a [WHERE]
    fragment with positional placeholders. The parser is the library
    github.com/scim2/filter-parser/v2, a parameter of [Parse]; its syntax
    tree is the data type below. *)

From S2P Require Import Prelude.

#[local] Open Scope string_scope.
#[local] Open Scope list_scope.

(** ** The parser's syntax tree *)

Record AttributePath := {
  URIPrefix : option string;
  AttributeName : string;
  SubAttribute : option string
}.

(** A compared literal: the parser gives strings, booleans, null and numbers, an
    int for an integer and a float64 for another; a number is kept as the text
    [fmt.Sprint] gives it. *)
Inductive value := VString (s : string) | VBool (b : bool) | VNull | VNumber (text : string) | VInteger (text : string).

Inductive compare_op := EQ | NE | CO | SW | EW | GT | GE | LT | LE | PR | OtherCompare (s : string).
Inductive logical_op := AND | OR | OtherLogical (s : string).

Inductive expr :=
  | AttributeExpression (path : AttributePath) (op : compare_op) (v : value)
  | LogicalExpression (left_ : expr) (op : logical_op) (right_ : expr)
  | NotExpression (e : expr)
  | ValuePath (path : AttributePath) (e : expr)
  | UnknownNode.

(** ** The translator *)

Record ColumnMapping := {
  cm_Name : string;
  Attrs : gmap string string;
  Special : gmap string string
}.

(** [newFilterError]: every [*FilterError] is [ErrInvalidFilter]. *)
Definition newFilterError (msg : string) : error := Errorf1 msg (Sentinel scim_ErrInvalidFilter).

Definition canonicalAttrName (p : AttributePath) : string :=
  match SubAttribute p with
  | Some sub => AttributeName p +:+ "." +:+ sub
  | None => AttributeName p
  end.

Definition stringValue (v : value) : string :=
  match v with
  | VString s => s
  | VBool true => "true"
  | VBool false => "false"
  | VNull => "<nil>"
  | VNumber t | VInteger t => t
  end.

(** The builder and the arguments collected so far. *)
Definition tr_state := (string * list value)%type.
Definition write (s : string) (st : tr_state) : tr_state := (st.1 +:+ s, st.2).
Definition bind_arg (v : value) (st : tr_state) : tr_state := (st.1, st.2 ++ [v]).

Definition emitSpecial (op : compare_op) (v : value) (sql : string) (st : tr_state) : go tr_state :=
  match op with
  | EQ => Ret (bind_arg v (write sql st))
  | _ => Fail (newFilterError "supports only the eq operator")
  end.

Definition emitAttribute (m : ColumnMapping) (path : AttributePath) (op : compare_op) (v : value)
    (st : tr_state) : go tr_state :=
  let attrName := canonicalAttrName path in
  match Special m !! attrName with
  | Some sql => emitSpecial op v sql st
  | None =>
      match Attrs m !! attrName with
      | None => Fail (newFilterError "attribute is not filterable")
      | Some col =>
          match op with
          | EQ => Ret (bind_arg v (write (col +:+ " = ?") st))
          | NE => Ret (bind_arg v (write (col +:+ " <> ?") st))
          | CO => Ret (bind_arg (VString ("%" +:+ stringValue v +:+ "%")) (write (col +:+ " LIKE ?") st))
          | SW => Ret (bind_arg (VString (stringValue v +:+ "%")) (write (col +:+ " LIKE ?") st))
          | EW => Ret (bind_arg (VString ("%" +:+ stringValue v)) (write (col +:+ " LIKE ?") st))
          | GT => Ret (bind_arg v (write (col +:+ " > ?") st))
          | GE => Ret (bind_arg v (write (col +:+ " >= ?") st))
          | LT => Ret (bind_arg v (write (col +:+ " < ?") st))
          | LE => Ret (bind_arg v (write (col +:+ " <= ?") st))
          | PR => Ret (write ("(" +:+ col +:+ " IS NOT NULL AND " +:+ col +:+ " <> '')") st)
          | OtherCompare _ => Fail (newFilterError "unsupported operator")
          end
      end
  end.

(** [walk], with [emitLogical] and [emitNot] as its cases. *)
Fixpoint walk (m : ColumnMapping) (e : expr) (st : tr_state) : go tr_state :=
  match e with
  | AttributeExpression path op v => emitAttribute m path op v st
  | LogicalExpression l op r =>
      st ← walk m l (write "(" st);
      st ← match op with
           | AND => Ret (write " AND " st)
           | OR => Ret (write " OR " st)
           | OtherLogical _ => Fail (newFilterError "unsupported logical operator")
           end;
      st ← walk m r st;
      Ret (write ")" st)
  | NotExpression e =>
      st ← walk m e (write "NOT (" st);
      Ret (write ")" st)
  | ValuePath _ _ => Fail (newFilterError "value-path filters not supported at list level")
  | UnknownNode => Fail (newFilterError "unknown expression node")
  end.

Definition Translate (e : option expr) (m : ColumnMapping) : go tr_state :=
  match e with
  | None => Ret ("", [])
  | Some e => walk m e ("", [])
  end.

(** [ParseFilter] is the library's parser. *)
Definition Parse (ParseFilter : string -> go expr) (query : string) : go (option expr) :=
  if String.eqb (trim_space query) "" then Ret None
  else
    e ← wrap_err (fun cause => Errorf2 "parse" (Sentinel scim_ErrInvalidFilter) cause) (ParseFilter query);
    Ret (Some e).

(** ** The fragment as a tree

    What a fragment says: a comparison of a whitelisted column with one bound
    argument, a presence test, a caller's fragment with its argument, and the
    connectives, each with its own parentheses. *)

Inductive sql :=
  | SCompare (col op : string) (arg : value)
  | SPresent (col : string)
  | SSpecial (frag : string) (arg : value)
  | SLogic (op : string) (l r : sql)
  | SNot (s : sql).

Fixpoint render (s : sql) : string :=
  match s with
  | SCompare col op _ => col +:+ " " +:+ op +:+ " ?"
  | SPresent col => "(" +:+ col +:+ " IS NOT NULL AND " +:+ col +:+ " <> '')"
  | SSpecial frag _ => frag
  | SLogic op l r => "(" +:+ render l +:+ " " +:+ op +:+ " " +:+ render r +:+ ")"
  | SNot s => "NOT (" +:+ render s +:+ ")"
  end.

Fixpoint binds (s : sql) : list value :=
  match s with
  | SCompare _ _ v | SSpecial _ v => [v]
  | SPresent _ => []
  | SLogic _ l r => binds l ++ binds r
  | SNot s => binds s
  end.

(** The operator of a comparison and the argument it binds. *)
Definition comparison (op : compare_op) (v : value) : option (string * value) :=
  match op with
  | EQ => Some ("=", v) | NE => Some ("<>", v)
  | GT => Some (">", v) | GE => Some (">=", v) | LT => Some ("<", v) | LE => Some ("<=", v)
  | CO => Some ("LIKE", VString ("%" +:+ stringValue v +:+ "%"))
  | SW => Some ("LIKE", VString (stringValue v +:+ "%"))
  | EW => Some ("LIKE", VString ("%" +:+ stringValue v))
  | PR | OtherCompare _ => None
  end.

Inductive means (m : ColumnMapping) : expr -> sql -> Prop :=
  | means_special path v frag :
      Special m !! canonicalAttrName path = Some frag ->
      means m (AttributeExpression path EQ v) (SSpecial frag v)
  | means_compare path op v col o arg :
      Special m !! canonicalAttrName path = None ->
      Attrs m !! canonicalAttrName path = Some col -> comparison op v = Some (o, arg) ->
      means m (AttributeExpression path op v) (SCompare col o arg)
  | means_present path v col :
      Special m !! canonicalAttrName path = None ->
      Attrs m !! canonicalAttrName path = Some col ->
      means m (AttributeExpression path PR v) (SPresent col)
  | means_and l r sl sr : means m l sl -> means m r sr ->
      means m (LogicalExpression l AND r) (SLogic "AND" sl sr)
  | means_or l r sl sr : means m l sl -> means m r sr ->
      means m (LogicalExpression l OR r) (SLogic "OR" sl sr)
  | means_not e s : means m e s -> means m (NotExpression e) (SNot s).

Lemma string_append_assoc s1 s2 s3 : (s1 +:+ s2) +:+ s3 = s1 +:+ s2 +:+ s3.
Proof. induction s1 as [|c s1 IH]; cbn; [done|]. by f_equal. Qed.

Lemma string_append_nil s : s +:+ "" = s.
Proof. induction s as [|c s IH]; cbn; [done|]. by f_equal. Qed.

(** [walk] appends the rendering of the tree the expression means, or fails
    with an invalid-filter error when it means none. *)
Lemma walk_cases m e st :
  (exists s, means m e s /\ walk m e st = Ret (st.1 +:+ render s, st.2 ++ binds s)) \/
  ((forall s, ~ means m e s) /\ fails_with (walk m e st) scim_ErrInvalidFilter = true).
Proof.
  revert st. induction e as [path op v|l IHl op r IHr|e IH|path e _|]; intros st; cbn [walk].
  - unfold emitAttribute. destruct (Special m !! canonicalAttrName path) as [frag|] eqn:HS.
    + destruct op; cbn [emitSpecial];
        try (right; split; [intros q H; inversion H; congruence|done]).
      left. eexists. split; [by constructor|done].
    + destruct (Attrs m !! canonicalAttrName path) as [col|] eqn:HA; cycle 1.
      { right. split; [|done]. intros q H. inversion H; congruence. }
      destruct op; try (left; eexists; split; [by econstructor|done]); cycle 1.
      * right. split; [|done]. intros s' H. inversion H; subst; try congruence. done.
      * left. exists (SPresent col). split; [by constructor|]. cbn. by rewrite app_nil_r.
  - destruct (IHl (write "(" st)) as [(sl & Hl & ->)|[Hl Hf]]; cycle 1.
    { right. split; [intros q H; inversion H; subst; by eapply Hl|].
      destruct (walk m l _); [done|done|done]. }
    cbn [mbind go_bind]. destruct op as [| |o]; cbn [mbind go_bind]; cycle 2.
    { right. split; [|done]. intros q H. inversion H. }
    all: match goal with |- context [walk _ _ ?st'] =>
           edestruct (IHr st') as [(sr & Hr & Heq)|[Hr Hf]]; [rewrite Heq|] end;
      [left; eexists; split; [by constructor|]|right; split; [intros q H; inversion H; subst; by eapply Hr|]].
    all: try (match goal with |- context [walk ?m ?r ?s] => destruct (walk m r s) end; done).
    all: unfold write; cbn [mbind go_bind fst snd render binds].
    all: by rewrite !string_append_assoc, <- !app_assoc.
  - destruct (IH (write "NOT (" st)) as [(s & Hs & ->)|[Hs Hf]].
    + left. exists (SNot s). split; [by constructor|]. unfold write. cbn [mbind go_bind fst snd render binds].
      by rewrite !string_append_assoc.
    + right. split; [intros q H; inversion H; subst; by eapply Hs|]. by destruct (walk m e _).
  - right. split; [|done]. intros q H. inversion H.
  - right. split; [|done]. intros q H. inversion H.
Qed.

(** ** Values never reach the SQL text *)

(** How many positional arguments a fragment takes. *)
Fixpoint placeholders (s : string) : nat :=
  match s with
  | EmptyString => 0
  | String c s => (if Ascii.eqb c "?" then 1 else 0) + placeholders s
  end.

Lemma placeholders_app s t : placeholders (s +:+ t) = (placeholders s + placeholders t)%nat.
Proof. induction s as [|c s IH]; cbn; [done|]. rewrite IH. lia. Qed.

(** What the caller promises of its mapping: a column has no placeholder, a
    special fragment exactly one. *)
Definition mapping_ok (m : ColumnMapping) : Prop :=
  (forall a col, Attrs m !! a = Some col -> placeholders col = 0%nat) /\
  (forall a frag, Special m !! a = Some frag -> placeholders frag = 1%nat).

Lemma comparison_op op v o arg : comparison op v = Some (o, arg) -> placeholders o = 0%nat.
Proof. destruct op; intros [= <- <-]; reflexivity. Qed.

Lemma means_placeholders m e s : mapping_ok m -> means m e s -> placeholders (render s) = length (binds s).
Proof.
  intros [HA HS]. induction 1; cbn [render binds];
    rewrite ?placeholders_app, ?length_app; cbn [placeholders Ascii.eqb Bool.eqb length].
  - by eapply HS.
  - rewrite (HA _ _ H0), (comparison_op _ _ _ _ H1). done.
  - by rewrite (HA _ _ H0).
  - cbn. lia.
  - cbn. lia.
  - cbn. lia.
Qed.

(** The expression with every compared value blanked. *)
Fixpoint shape (e : expr) : expr :=
  match e with
  | AttributeExpression path op _ => AttributeExpression path op VNull
  | LogicalExpression l op r => LogicalExpression (shape l) op (shape r)
  | NotExpression e => NotExpression (shape e)
  | ValuePath path e => ValuePath path (shape e)
  | UnknownNode => UnknownNode
  end.

Lemma means_shape m e s : means m e s -> forall e', shape e' = shape e ->
  exists s', means m e' s' /\ render s' = render s.
Proof.
  induction 1; intros e' He; destruct e' as [path' op' v'|l' op' r'|e'|path' e'|]; try discriminate He;
    injection He as; subst.
  - eexists. split; [by constructor|done].
  - assert (Hc : exists arg', comparison op v' = Some (o, arg'))
      by (destruct op; try discriminate H1; injection H1 as <- _; by eexists).
    destruct Hc as [arg' Hc]. eexists. split; [by econstructor|done].
  - eexists. split; [by econstructor|done].
  - destruct (IHmeans1 l' ltac:(done)) as (a & Ha & Hra), (IHmeans2 r' ltac:(done)) as (b & Hb & Hrb).
    eexists. split; [by constructor|]. cbn. by rewrite Hra, Hrb.
  - destruct (IHmeans1 l' ltac:(done)) as (a & Ha & Hra), (IHmeans2 r' ltac:(done)) as (b & Hb & Hrb).
    eexists. split; [by constructor|]. cbn. by rewrite Hra, Hrb.
  - destruct (IHmeans e' ltac:(done)) as (a & Ha & Hra). eexists. split; [by constructor|]. cbn. by rewrite Hra.
Qed.

Lemma means_unique m e s1 s2 : means m e s1 -> means m e s2 -> s1 = s2.
Proof.
  intros H. revert s2. induction H; intros s2 Hs2; inversion Hs2; subst; try congruence;
    repeat match goal with
    | IH : forall s, means _ ?e s -> _ = s, H : means _ ?e ?s |- _ => apply IH in H; subst
    end; done.
Qed.

(** C16: the translator answers exactly the fragment and the arguments of the
    tree a supported filter means, over whitelisted attributes only, and
    refuses every other filter as invalid; the fragment has one placeholder
    per argument; and it depends on the filter's shape alone: filters that
    differ only in compared values get the same SQL text, so no value is ever
    part of it. *)
Theorem Translate_correct m e : mapping_ok m ->
  ((exists s, means m e s /\ Translate (Some e) m = Ret (render s, binds s)) \/
   ((forall s, ~ means m e s) /\ fails_with (Translate (Some e) m) scim_ErrInvalidFilter = true)) /\
  (forall w args, Translate (Some e) m = Ret (w, args) ->
     placeholders w = length args /\
     forall e', shape e' = shape e -> exists args', Translate (Some e') m = Ret (w, args')).
Proof.
  intros Hm.
  assert (Hall : forall e, (exists s, means m e s /\ Translate (Some e) m = Ret (render s, binds s)) \/
    ((forall s, ~ means m e s) /\ fails_with (Translate (Some e) m) scim_ErrInvalidFilter = true))
    by (intros e0; apply (walk_cases m e0 ("", []))).
  split; [apply Hall|]. intros w args Hw.
  destruct (Hall e) as [(s & Hs & Heq)|[_ Hf]]; [|by rewrite Hw in Hf].
  rewrite Hw in Heq. injection Heq as -> ->. split; [by eapply means_placeholders|].
  intros e' He. destruct (means_shape m e s Hs e' He) as (s' & Hs' & Hr).
  destruct (Hall e') as [(s2 & Hs2 & ->)|[Hn _]]; [|by destruct (Hn s')].
  exists (binds s2). do 2 f_equal. rewrite <- Hr.
  by rewrite (means_unique m e' s2 s').
Qed.

Definition demo_mapping : ColumnMapping :=
  {| cm_Name := "User"; Attrs := {[ "userName" := "users.email" ]};
     Special := {[ "members.value" := "EXISTS (SELECT 1 FROM m WHERE m.uid = ?)" ]} |}.
Definition demo_expr (v : string) : expr :=
  LogicalExpression
    (AttributeExpression {| URIPrefix := None; AttributeName := "userName"; SubAttribute := None |} CO (VString v))
    OR
    (NotExpression (AttributeExpression
       {| URIPrefix := None; AttributeName := "members"; SubAttribute := Some "value" |} EQ (VString "u1"))).

Example demo_translate : Translate (Some (demo_expr "a' OR 1=1")) demo_mapping =
  Ret ("(users.email LIKE ? OR NOT (EXISTS (SELECT 1 FROM m WHERE m.uid = ?)))",
       [VString "%a' OR 1=1%"; VString "u1"]).
Proof. vm_compute. reflexivity. Qed.

Lemma demo_mapping_ok : mapping_ok demo_mapping.
Proof.
  split; intros a x H; cbn in H; apply lookup_singleton_Some in H as [_ <-]; reflexivity.
Qed.

Lemma Translate_correct_witness :
  mapping_ok demo_mapping /\
  exists args', Translate (Some (demo_expr "x")) demo_mapping =
    Ret ("(users.email LIKE ? OR NOT (EXISTS (SELECT 1 FROM m WHERE m.uid = ?)))", args').
Proof.
  split; [exact demo_mapping_ok|].
  exact (proj2 (proj2 (Translate_correct demo_mapping (demo_expr "a' OR 1=1") demo_mapping_ok)
    _ _ demo_translate) (demo_expr "x") eq_refl).
Defined.
