(* ===== verification/ScimPath.v ===== *)
(** * SCIM PATCH paths over a JSON resource

    [src/scim/patch_path.go]: parsing a path, finding an attribute whatever the
    case of its name, writing and deleting through a path, and the bracketed
    filters. A resource is a tree of Go maps and slices; an operation changes
    it in place, so that every function answers the resource it leaves behind,
    also when it fails. *)

From S2P Require Import Prelude Bytes ScimFilter.

Set Warnings "-register-all".
#[local] Open Scope string_scope.
#[local] Open Scope list_scope.

(** ** JSON as [encoding/json] decodes it into [any] *)

(** A number is the text [fmt.Sprint] gives the [float64]. What is decoded holds
    no int; an element made from a filter may. *)
Inductive json :=
  | JNull
  | JBool (b : bool)
  | JNumber (text : string)
  | JInteger (text : string)
  | JString (s : string)
  | JArray (l : list json)
  | JObject (m : gmap string json).
Abbreviation object := (gmap string json).

(** [==] on float64: the two zeros are equal. *)
Definition is_zero (t : string) : bool := String.eqb t "0" || String.eqb t "-0".
Definition float_eqb (a b : string) : bool := String.eqb a b || (is_zero a && is_zero b).

(** The library's parsed path: an attribute, a bracketed filter, a
    sub-attribute. *)
Record lib_path := {
  lp_AttributePath : AttributePath;
  lp_ValueExpression : option expr;
  lp_SubAttribute : option string
}.

(** What the code calls: [strings.EqualFold] and [strings.ToLower] on text with
    a byte above 127, the order in which [range] visits a map, [fmt.Sprint] of
    a slice or map, [json.Unmarshal] into [any], [json.Marshal], and the
    filter library's [ParsePath]. *)
Record Lib := {
  lib_fold : string -> string -> bool;
  lib_lower : string -> string;
  lib_range : object -> list (string * json);
  lib_Sprint : json -> string;
  lib_Unmarshal : string -> option json;
  lib_Marshal : json -> option string;
  lib_ParsePath : string -> option lib_path
}.

(** [strings.Compare], [strings.LastIndex] of one byte, [strings.Contains]. *)
Definition contains (s sub : string) : bool :=
  existsb (fun n => has_prefix (string_drop n s) sub) (seq 0 (S (String.length s))).
Fixpoint last_index (c : ascii) (s : string) : option nat :=
  match s with
  | EmptyString => None
  | String d s =>
      match last_index c s with
      | Some i => Some (S i)
      | None => if Ascii.eqb c d then Some 0 else None
      end
  end.

Definition newPathError (msg : string) : error := Errorf1 msg (Sentinel scim_ErrInvalidPath).
Definition newPathError_cause (msg : string) : error :=
  Errorf2 msg (Sentinel scim_ErrInvalidPath) (AppError "filter-parser").
Definition newValueError (msg : string) : error := Errorf1 msg (Sentinel scim_ErrInvalidValue).
Definition newValueError_cause (msg : string) : error :=
  Errorf2 msg (Sentinel scim_ErrInvalidValue) (AppError "encoding/json").

Inductive Op := OpAdd | OpRemove | OpReplace | OtherOp (s : string).
#[export] Instance Op_eq_dec : EqDecision Op.
Proof. solve_decision. Defined.

Record Path := {
  pt_SchemaURN : string;
  Segments : list string;
  FilterIndex : Z;
  Filter : option expr
}.

Definition stripSchemaURN (s : string) : string * string :=
  if negb (has_prefix s "urn:ietf:params:scim:schemas:") then ("", s)
  else match last_index ":" s with
       | None => ("", s)
       | Some i => (string_take i s, string_drop (i + 1) s)
       end.

Section Scim.
Context (L : Lib).

Definition EqualFold (s t : string) : bool :=
  if is_ascii s && is_ascii t then String.eqb (to_lower s) (to_lower t) else lib_fold L s t.
Definition ToLower (s : string) : string := if is_ascii s then to_lower s else lib_lower L s.

Definition ParsePath (s : string) : go Path :=
  let s := trim_space s in
  if String.eqb s "" then Fail (newPathError "path is empty")
  else
    let '(schemaURN, rest) := stripSchemaURN s in
    match lib_ParsePath L rest with
    | None => Fail (newPathError_cause "parse")
    | Some libPath =>
        let a := lp_AttributePath libPath in
        Ret {|
          pt_SchemaURN := schemaURN;
          Segments := [AttributeName a] ++ option_list (SubAttribute a) ++
            option_list (lp_SubAttribute libPath);
          FilterIndex := match lp_ValueExpression libPath with Some _ => 0 | None => -1 end;
          Filter := lp_ValueExpression libPath
        |}
    end.

(** ** Attribute names are case-insensitive *)

(** The scan of [resolveKey]: the least key that folds to the name. *)
Definition resolve_scan (name : string) (keys : list string) : string :=
  fold_left (fun best k =>
    if EqualFold k name && (String.eqb best "" || String.ltb k best) then k else best) keys "".

Definition resolveKey (m : object) (name : string) : string :=
  match m !! name with
  | Some _ => name
  | None =>
      let best := resolve_scan name (map fst (lib_range L m)) in
      if String.eqb best "" then name else best
  end.

(** ** Writing through a path *)

Definition decode (value : string) (msg : string) : go json :=
  match lib_Unmarshal L value with
  | Some v => Ret v
  | None => Fail (newValueError_cause msg)
  end.

Definition applyLeaf (parent : object) (leaf : string) (value : string) (op : Op) : go unit * object :=
  let leaf := resolveKey parent leaf in
  if decide (op = OpRemove) then (Ret tt, delete leaf parent)
  else match decode value "value is not valid JSON" with
  | Ret decoded =>
      let stored :=
        match op, parent !! leaf with
        | OpAdd, Some (JArray existing) =>
            match decoded with
            | JArray incoming => JArray (existing ++ incoming)
            | _ => JArray (existing ++ [decoded])
            end
        | _, _ => decoded
        end in
      (Ret tt, <[leaf := stored]> parent)
  | Fail e => (Fail e, parent)
  | Panic why => (Panic why, parent)
  end.

(** [navigateOrCreate] and what its caller does with the map it answers:
    [k] goes on in the parent, [missing] is the answer when a remove finds no
    parent. The maps on the way are changed in place. *)
Fixpoint navigateOrCreate (current : object) (segments : list string) (op : Op)
    (k : object -> go unit * object) (missing : go unit) : go unit * object :=
  match segments with
  | [] => k current
  | seg :: segments =>
      let seg := resolveKey current seg in
      match current !! seg with
      | None =>
          if decide (op = OpRemove) then (missing, current)
          else
            let '(r, created) := navigateOrCreate ∅ segments op k missing in
            (r, <[seg := JObject created]> current)
      | Some (JObject next) =>
          let '(r, next) := navigateOrCreate next segments op k missing in
          (r, <[seg := JObject next]> current)
      | Some _ => (Fail (newPathError "intermediate segment is not an object"), current)
      end
  end.

(** [applySimple] of [Segments = init ++ [leaf]]. *)
Definition applySimple (target : object) (init : list string) (leaf value : string) (op : Op)
    : go unit * object :=
  navigateOrCreate target init op (fun parent => applyLeaf parent leaf value op)
    (if decide (op = OpRemove) then Ret tt
     else Fail (newPathError "parent path does not resolve to a map")).

(** ** Bracketed filters *)

Definition asString (v : json) : string :=
  match v with
  | JString s => s
  | JNull => ""
  | JBool b => if b then "true" else "false"
  | JNumber t | JInteger t => t
  | JArray _ | JObject _ => lib_Sprint L v
  end.
Definition compareString (v : value) : string :=
  match v with
  | VString s => s
  | VNull => ""
  | VBool b => if b then "true" else "false"
  | VNumber t | VInteger t => t
  end.

Definition equalValues (a : json) (b : value) : bool :=
  match a, b with
  | JString s, VString t => String.eqb s t
  | JString s, _ => String.eqb s (compareString b)
  | JBool x, VBool y => Bool.eqb x y
  | JNumber x, VNumber y => float_eqb x y
  | _, _ => String.eqb (asString a) (compareString b)
  end.

(** The walk of [evalAttribute] down the dotted name. *)
Fixpoint attribute_at (raw : json) (parts : list string) : json :=
  match parts with
  | [] => raw
  | p :: parts =>
      match raw with
      | JObject m =>
          match m !! resolveKey m p with
          | Some v => attribute_at v parts
          | None => JNull
          end
      | _ => JNull
      end
  end.
Definition name_parts (name : string) : list string :=
  map String.string_of_list_ascii (split_dots (to_bytes name)).

Definition evalAttribute (path : AttributePath) (op : compare_op) (v : value) (elem : object) : go bool :=
  let raw := attribute_at (JObject elem) (name_parts (canonicalAttrName path)) in
  match raw with
  | JNull => Ret (match op with NE => true | _ => false end)
  | _ =>
      let text := asString raw in
      let want := compareString v in
      match op with
      | EQ => Ret (equalValues raw v)
      | NE => Ret (negb (equalValues raw v))
      | CO => Ret (contains text want)
      | SW => Ret (has_prefix text want)
      | EW => Ret (has_suffix text want)
      | GT => Ret (String.ltb want text)
      | GE => Ret (String.leb want text)
      | LT => Ret (String.ltb text want)
      | LE => Ret (String.leb text want)
      | PR => Ret (negb (String.eqb text ""))
      | OtherCompare _ => Fail (newPathError "unsupported operator in filter")
      end
  end.

Fixpoint evalFilter (e : expr) (elem : object) : go bool :=
  match e with
  | AttributeExpression path op v => evalAttribute path op v elem
  | LogicalExpression l op r =>
      left ← evalFilter l elem;
      right ← evalFilter r elem;
      match op with
      | AND => Ret (andb left right)
      | OR => Ret (orb left right)
      | OtherLogical _ => Fail (newPathError "unsupported logical operator in filter")
      end
  | NotExpression e => inner ← evalFilter e elem; Ret (negb inner)
  | ValuePath _ _ => Fail (newPathError "nested value-path filters are not supported")
  | UnknownNode => Fail (newPathError "unknown expression node in filter")
  end.

Fixpoint deletePath (m : object) (segs : list string) : object :=
  match segs with
  | [] => m
  | [seg] => delete (resolveKey m seg) m
  | seg :: segs =>
      let seg := resolveKey m seg in
      match m !! seg with
      | Some (JObject next) => <[seg := JObject (deletePath next segs)]> m
      | _ => m
      end
  end.

(** [for k, v := range value { elem[resolveKey(elem, k)] = v }]. *)
Definition overlay (elem : object) (value : list (string * json)) : object :=
  fold_left (fun elem kv => <[resolveKey elem kv.1 := kv.2]> elem) value elem.

Definition assignFiltered (elem : object) (postFilter : list string) (value : string) (op : Op)
    : go unit * object :=
  match rev postFilter with
  | [] =>
      match decode value "value for filtered element is not valid JSON" with
      | Ret (JObject decodedMap) => (Ret tt, overlay elem (lib_range L decodedMap))
      | Ret _ => (Fail (newValueError "value for filtered element must be a JSON object"), elem)
      | Fail e => (Fail e, elem)
      | Panic why => (Panic why, elem)
      end
  | leaf :: init =>
      navigateOrCreate elem (rev init) op (fun parent => applyLeaf parent leaf value op)
        (Fail (newPathError "sub-attribute parent missing"))
  end.

Definition json_of_value (v : value) : json :=
  match v with
  | VString s => JString s
  | VBool b => JBool b
  | VNull => JNull
  | VNumber t => JNumber t
  | VInteger t => JInteger t
  end.

(** [cur[seg] = map[string]any{}; cur = next], down to [cur[leaf] = v]. *)
Fixpoint nest (cur : object) (segs : list string) (v : json) : object :=
  match segs with
  | [] => cur
  | [leaf] => <[leaf := v]> cur
  | seg :: segs => <[seg := JObject (nest ∅ segs v)]> cur
  end.

(** [None] is the nil element: nothing is appended. *)
Definition buildFilteredAppend (e : expr) (postFilter : list string) (value : string)
    : go (option object) :=
  match e with
  | AttributeExpression path EQ v =>
      let seed : object := {[canonicalAttrName path := json_of_value v]} in
      if String.eqb value "" then Ret (Some seed)
      else
        decoded ← decode value "value for filtered append is not valid JSON";
        match postFilter with
        | [] =>
            match decoded with
            | JObject m => Ret (Some (m ∪ seed))
            | _ => Ret (Some seed)
            end
        | _ => Ret (Some (nest seed postFilter decoded))
        end
  | _ => Ret None
  end.

(** The loop over the elements. It answers the new array and how many elements
    matched, and the old array as the loop leaves it: elements are changed in
    place, also when a later one fails. *)
Fixpoint filter_loop (e : expr) (postFilter : list string) (value : string) (op : Op) (arr : list json)
    : go (list json * nat) * list json :=
  match arr with
  | [] => (Ret ([], 0), [])
  | elem :: arr =>
      let go_on (kept : list json) (n : nat) (elem : json) :=
        let '(r, arr) := filter_loop e postFilter value op arr in
        (x ← r; Ret (kept ++ x.1, n + x.2), elem :: arr) in
      match elem with
      | JObject elemMap =>
          match evalFilter e elemMap with
          | Ret false => go_on [elem] 0 elem
          | Ret true =>
              match op with
              | OpRemove =>
                  match postFilter with
                  | [] => go_on [] 1 elem
                  | _ =>
                      let elem := JObject (deletePath elemMap postFilter) in
                      go_on [elem] 1 elem
                  end
              | OpReplace | OpAdd =>
                  let '(r, elemMap) := assignFiltered elemMap postFilter value op in
                  match r with
                  | Ret tt => go_on [JObject elemMap] 1 (JObject elemMap)
                  | Fail e => (Fail e, JObject elemMap :: arr)
                  | Panic why => (Panic why, JObject elemMap :: arr)
                  end
              | OtherOp _ => go_on [] 1 elem
              end
          | Fail e => (Fail e, elem :: arr)
          | Panic why => (Panic why, elem :: arr)
          end
      | _ => go_on [elem] 0 elem
      end
  end.

(** The array the parent still holds, with its elements as they are now. *)
Definition in_place (parent : object) (arrayKey : string) (arr : list json) : object :=
  match parent !! arrayKey with
  | Some _ => <[arrayKey := JArray arr]> parent
  | None => parent
  end.

(** [applyFiltered] once the parent is found. An absent attribute is an empty
    array. *)
Definition filtered_at (e : expr) (arrayKey : string) (postFilter : list string) (value : string) (op : Op)
    (parent : object) : go unit * object :=
  let arrayKey := resolveKey parent arrayKey in
  match (match parent !! arrayKey with
         | None => Some []
         | Some (JArray arr) => Some arr
         | Some _ => None
         end) with
  | None => (Fail (newPathError "filtered attribute is not a multi-valued list"), parent)
  | Some arr =>
      let '(r, arr) := filter_loop e postFilter value op arr in
      match r with
      | Ret (newArr, matched) =>
          let parent := <[arrayKey := JArray newArr]> parent in
          if (matched =? 0)%nat && (bool_decide (op = OpAdd) || bool_decide (op = OpReplace)) then
            match buildFilteredAppend e postFilter value with
            | Ret (Some newElem) =>
                (Ret tt, <[arrayKey := JArray (newArr ++ [JObject newElem])]> parent)
            | Ret None => (Ret tt, parent)
            | Fail e => (Fail e, parent)
            | Panic why => (Panic why, parent)
            end
          else (Ret tt, parent)
      | Fail e => (Fail e, in_place parent arrayKey arr)
      | Panic why => (Panic why, in_place parent arrayKey arr)
      end
  end.

Definition applyFiltered (target : object) (p : Path) (e : expr) (value : string) (op : Op)
    : go unit * object :=
  if (FilterIndex p <? 0)%Z || (Z.of_nat (length (Segments p)) <=? FilterIndex p)%Z then
    (Fail (newPathError "filter index out of range"), target)
  else
    let i := Z.to_nat (FilterIndex p) in
    match drop i (Segments p) with
    | [] => (Fail (newPathError "filter index out of range"), target)
    | arrayKey :: postFilter =>
        navigateOrCreate target (take i (Segments p)) op (filtered_at e arrayKey postFilter value op)
          (if decide (op = OpRemove) then Ret tt
           else Fail (newPathError "filter parent path does not resolve"))
    end.

(** [Path.apply]. *)
Definition path_apply (p : Path) (target : object) (value : string) (op : Op) : go unit * object :=
  match rev (Segments p) with
  | [] => (Fail (newPathError "path has no attribute name"), target)
  | leaf :: init =>
      match Filter p with
      | None => applySimple target (rev init) leaf value op
      | Some e => applyFiltered target p e value op
      end
  end.
End Scim.

(** ** What the theorems ask of the library

    [EqualFold] is an equivalence that relates the empty string only to
    itself, and [range] visits every entry of a map once, in any order. *)
Record lib_laws (L : Lib) : Prop := {
  fold_refl s : EqualFold L s s = true;
  fold_sym s t : EqualFold L s t = EqualFold L t s;
  fold_trans s t u : EqualFold L s t = true -> EqualFold L t u = true -> EqualFold L s u = true;
  fold_empty s : EqualFold L "" s = true -> s = "";
  range_perm m : lib_range L m ≡ₚ map_to_list m
}.

(** The value a path leads to. *)
Fixpoint lookup_path (L : Lib) (v : json) (segs : list string) : option json :=
  match segs with
  | [] => Some v
  | seg :: segs =>
      match v with
      | JObject m =>
          match m !! resolveKey L m seg with
          | Some v => lookup_path L v segs
          | None => None
          end
      | _ => None
      end
  end.

(** Two paths part at some segment. *)
Fixpoint diverges (L : Lib) (p q : list string) : bool :=
  match p, q with
  | a :: p, b :: q => if EqualFold L a b then diverges L p q else true
  | _, _ => false
  end.

(** No two attributes of the object have the same name. *)
Definition tidy (L : Lib) (m : object) : Prop :=
  forall k k', is_Some (m !! k) -> is_Some (m !! k') -> EqualFold L k k' = true -> k = k'.

(** And so on, all the way down. *)
Inductive well_named (L : Lib) : json -> Prop :=
  | wn_null : well_named L JNull
  | wn_bool b : well_named L (JBool b)
  | wn_number t : well_named L (JNumber t)
  | wn_integer t : well_named L (JInteger t)
  | wn_string s : well_named L (JString s)
  | wn_array l : (forall v, v ∈ l -> well_named L v) -> well_named L (JArray l)
  | wn_object m : tidy L m -> (forall k v, m !! k = Some v -> well_named L v) ->
      well_named L (JObject m).

(** What an add or a replace stores where [old] was. *)
Definition stored (op : Op) (old : option json) (v : json) : json :=
  match op, old with
  | OpAdd, Some (JArray existing) =>
      match v with
      | JArray incoming => JArray (existing ++ incoming)
      | _ => JArray (existing ++ [v])
      end
  | _, _ => v
  end.

(** The path down to what an operation rewrites: for a bracketed path the
    array. *)
Definition anchor (p : Path) : list string :=
  match Filter p with
  | None => Segments p
  | Some _ => take (S (Z.to_nat (FilterIndex p))) (Segments p)
  end.

Section Lemmas.
Context (L : Lib) (HL : lib_laws L).
Implicit Type m : object.

(** *** Resolving a name *)

Lemma resolve_scan_spec name keys :
  (forall k, k ∈ keys -> EqualFold L k name = true -> k <> "") ->
  let r := resolve_scan L name keys in
  (r = "" /\ forall k, k ∈ keys -> EqualFold L k name = false) \/
  (r <> "" /\ r ∈ keys /\ EqualFold L r name = true /\
   forall k, k ∈ keys -> EqualFold L k name = true -> String.le r k).
Proof.
  intros Hname. cbv zeta. unfold resolve_scan. induction keys as [|k keys IH] using rev_ind.
  { left. split; [done|]. intros k Hk. by apply elem_of_nil in Hk. }
  rewrite fold_left_app. cbn [fold_left]. set (best := fold_left _ keys "") in *.
  assert (EqualFold L k name = true -> k <> "") as Hk.
  { apply Hname, elem_of_app. right. left. }
  specialize (IH (fun k' Hk' => Hname k' (proj2 (elem_of_app keys [k] k') (or_introl Hk')))).
  destruct (EqualFold L k name) eqn:Hf; cbn [andb].
  2: { destruct IH as [[Hb Hn]|(Hb & Hin & Hfb & Hmin)]; [left|right].
       - split; [done|]. intros k' [?| ->%list_elem_of_singleton]%elem_of_app; auto.
       - split_and!; [done|by apply elem_of_app; left|done|].
         intros k' [?| ->%list_elem_of_singleton]%elem_of_app Hf'; [auto|congruence]. }
  right. destruct IH as [[Hb Hn]|(Hb & Hin & Hfb & Hmin)].
  - rewrite Hb. cbn [String.eqb orb]. split_and!; [auto|by apply elem_of_app; right; left|done|].
    intros k' [Hk'| ->%list_elem_of_singleton]%elem_of_app Hf'; [by rewrite Hn in Hf'|done].
  - rewrite (proj2 (String.eqb_neq best "")) by done. cbn [orb].
    destruct (String.ltb k best) eqn:Hlt.
    + assert (String.le k best) as Hle by by apply leb_le_string, ltb_leb.
      split_and!; [auto|by apply elem_of_app; right; left|done|].
      intros k' [Hk'| ->%list_elem_of_singleton]%elem_of_app Hf'; [|done].
      trans best; auto.
    + assert (String.le best k) as Hle by by apply leb_le_string, not_ltb_leb.
      split_and!; [done|by apply elem_of_app; left|done|].
      intros k' [Hk'| ->%list_elem_of_singleton]%elem_of_app Hf'; auto.
Qed.

(** The key a name stands for: itself when it is a key, else the least key
    that folds to it, else itself. *)
Definition resolves m (name k : string) : Prop :=
  (is_Some (m !! name) /\ k = name) \/
  (m !! name = None /\ is_Some (m !! k) /\ EqualFold L k name = true /\
    forall k', is_Some (m !! k') -> EqualFold L k' name = true -> String.le k k') \/
  (m !! name = None /\ (forall k', is_Some (m !! k') -> EqualFold L k' name = false) /\ k = name).

Lemma resolves_unique m name k k' : resolves m name k -> resolves m name k' -> k = k'.
Proof.
  intros [([? ?] & ->)|[(Hn & Hk & Hf & Hmin)|(Hn & Hno & ->)]]
    [([? ?] & ->)|[(Hn' & Hk' & Hf' & Hmin')|(Hn' & Hno' & ->)]]; try done; try congruence.
  - by apply (anti_symm String.le); auto.
  - by rewrite Hno' in Hf.
  - by rewrite Hno in Hf'.
Qed.

Lemma elem_of_range_keys m k : k ∈ map fst (lib_range L m) <-> is_Some (m !! k).
Proof.
  rewrite (range_perm L HL m). rewrite list_elem_of_fmap. split.
  - intros ([k' v] & -> & Hin%elem_of_map_to_list). eauto.
  - intros [v Hv]. exists (k, v). split; [done|]. by apply elem_of_map_to_list.
Qed.

Lemma resolveKey_resolves m name : resolves m name (resolveKey L m name).
Proof.
  unfold resolveKey. destruct (m !! name) as [v|] eqn:Hm; [left; eauto|right].
  destruct (resolve_scan_spec name (map fst (lib_range L m))) as [[-> Hn]|(Hb & Hin & Hf & Hmin)].
  - intros k Hk%elem_of_range_keys Hf ->. apply (fold_empty L HL) in Hf as ->.
    rewrite Hm in Hk. by destruct Hk.
  - right. split_and!; [done| |done]. intros k' Hk'%elem_of_range_keys. auto.
  - left. rewrite (proj2 (String.eqb_neq _ _) Hb). split_and!; [done|by apply elem_of_range_keys|done|].
    intros k' Hk'%elem_of_range_keys. auto.
Qed.

Lemma resolveKey_eq m name k : resolves m name k -> resolveKey L m name = k.
Proof. intros H. eapply resolves_unique; [apply resolveKey_resolves|done]. Qed.

Lemma resolveKey_fold m name : EqualFold L (resolveKey L m name) name = true.
Proof.
  destruct (resolveKey_resolves m name) as [(? & ->)|[(? & ? & ? & ?)|(? & ? & ->)]];
    auto using fold_refl.
Qed.

(** An absent attribute is written under the name it was asked for. *)
Lemma resolveKey_None m name : m !! resolveKey L m name = None ->
  resolveKey L m name = name /\ forall k, is_Some (m !! k) -> EqualFold L k name = false.
Proof.
  intros Hn. destruct (resolveKey_resolves m name) as [([? ?] & He)|[(? & [? ?] & ? & ?)|(? & ? & ?)]];
    [congruence|congruence|done].
Qed.

(** Only the keys that fold to the name matter. *)
Lemma resolves_ext m m' name k :
  (forall k', EqualFold L k' name = true -> is_Some (m !! k') <-> is_Some (m' !! k')) ->
  resolves m name k -> resolves m' name k.
Proof.
  intros Hext. pose proof (Hext name (fold_refl L HL name)) as Hn.
  assert (m !! name = None <-> m' !! name = None) as Hnone by by rewrite !eq_None_not_Some, Hn.
  intros [(? & ->)|[(? & ? & Hf & Hmin)|(? & Hno & ->)]].
  - left. tauto.
  - right; left. split_and!; [tauto|by apply Hext|done|]. intros k' Hk' Hf'. apply Hmin; [|done]. by apply Hext.
  - right; right. split_and!; [tauto| |done]. intros k' Hk'.
    destruct (EqualFold L k' name) eqn:Hf'; [|done]. apply Hext in Hk'; [|done]. by rewrite Hno in Hf'.
Qed.

Lemma resolveKey_ext m m' name :
  (forall k', EqualFold L k' name = true -> is_Some (m !! k') <-> is_Some (m' !! k')) ->
  resolveKey L m' name = resolveKey L m name.
Proof. intros Hext. apply resolveKey_eq. eapply resolves_ext; [done|apply resolveKey_resolves]. Qed.

(** Writing an attribute does not change where its name leads, nor another's. *)
Lemma resolveKey_insert m name v :
  resolveKey L (<[resolveKey L m name := v]> m) name = resolveKey L m name.
Proof.
  set (key := resolveKey L m name). destruct (m !! key) as [old|] eqn:Hk.
  - apply resolveKey_ext. intros k' _. destruct (decide (k' = key)) as [->|].
    + rewrite lookup_insert_eq, Hk. by split; eauto.
    + by rewrite lookup_insert_ne.
  - apply resolveKey_None in Hk as [Hk _]. fold key in Hk. apply resolveKey_eq. left.
    rewrite Hk, lookup_insert_eq. eauto.
Qed.

Lemma resolveKey_insert_other m a b v : EqualFold L a b = false ->
  resolveKey L m a <> resolveKey L m b /\
  resolveKey L (<[resolveKey L m a := v]> m) b = resolveKey L m b.
Proof.
  intros Hne. assert (EqualFold L (resolveKey L m a) b = false) as Hab.
  { destruct (EqualFold L (resolveKey L m a) b) eqn:H; [|done]. rewrite <- Hne. symmetry.
    eapply (fold_trans L HL); [|exact H]. rewrite (fold_sym L HL). apply resolveKey_fold. }
  split.
  - intros He. rewrite He, resolveKey_fold in Hab. done.
  - apply resolveKey_ext. intros k' Hk'. rewrite lookup_insert_ne; [done|]. intros <-. congruence.
Qed.

Lemma resolveKey_delete_other m a b : EqualFold L a b = false ->
  resolveKey L (delete (resolveKey L m a) m) b = resolveKey L m b.
Proof.
  intros Hne. apply resolveKey_ext. intros k' Hk'. rewrite lookup_delete_ne; [done|]. intros <-.
  assert (EqualFold L a b = true); [|congruence].
  eapply (fold_trans L HL); [|exact Hk']. rewrite (fold_sym L HL). apply resolveKey_fold.
Qed.

(** *** Paths *)

Lemma lookup_other m a v b q : EqualFold L b a = false ->
  lookup_path L (JObject (<[resolveKey L m a := v]> m)) (b :: q) = lookup_path L (JObject m) (b :: q).
Proof.
  rewrite (fold_sym L HL). intros Hne. destruct (resolveKey_insert_other m a b v Hne) as [Hk Hr].
  cbn [lookup_path]. by rewrite Hr, lookup_insert_ne by done.
Qed.

Lemma lookup_deleted m a b q : EqualFold L b a = false ->
  lookup_path L (JObject (delete (resolveKey L m a) m)) (b :: q) = lookup_path L (JObject m) (b :: q).
Proof.
  rewrite (fold_sym L HL). intros Hne. destruct (resolveKey_insert_other m a b JNull Hne) as [Hk Hr].
  cbn [lookup_path]. by rewrite resolveKey_delete_other, lookup_delete_ne by done.
Qed.

(** Writing [v] under a name of the same class: a path that enters it goes on
    in [v]; one that enters a sibling of that class stays. *)
Lemma lookup_same m a v b q : EqualFold L b a = true ->
  (lookup_path L (JObject (<[resolveKey L m a := v]> m)) (b :: q) = lookup_path L v q /\
   lookup_path L (JObject m) (b :: q) =
     match m !! resolveKey L m a with Some old => lookup_path L old q | None => None end) \/
  lookup_path L (JObject (<[resolveKey L m a := v]> m)) (b :: q) = lookup_path L (JObject m) (b :: q).
Proof.
  intros Hf. set (key := resolveKey L m a). cbn [lookup_path].
  destruct (m !! key) as [old|] eqn:Hk.
  - assert (resolveKey L (<[key := v]> m) b = resolveKey L m b) as ->.
    { apply resolveKey_ext. intros k' _. destruct (decide (k' = key)) as [->|].
      - rewrite lookup_insert_eq, Hk. by split; eauto.
      - by rewrite lookup_insert_ne. }
    destruct (decide (resolveKey L m b = key)) as [->|Hne].
    + left. by rewrite lookup_insert_eq, Hk.
    + right. by rewrite lookup_insert_ne.
  - left. apply resolveKey_None in Hk as [Hka Hno]. fold key in Hka.
    assert (forall k, is_Some (m !! k) -> EqualFold L k b = false) as Hnob.
    { intros k Hk. destruct (EqualFold L k b) eqn:Hkb; [|done]. rewrite <- (Hno k Hk).
      symmetry. by eapply (fold_trans L HL). }
    assert (m !! b = None) as Hb.
    { apply eq_None_not_Some. intros Hb%Hnob. by rewrite (fold_refl L HL) in Hb. }
    assert (resolveKey L m b = b) as ->.
    { apply resolveKey_eq. right; right. done. }
    rewrite Hb. split; [|done].
    assert (resolveKey L (<[key := v]> m) b = key) as ->; [|by rewrite lookup_insert_eq].
    apply resolveKey_eq. destruct (decide (b = key)) as [->|Hne].
    + left. rewrite lookup_insert_eq. eauto.
    + right; left. rewrite lookup_insert_ne, Hb, lookup_insert_eq by done.
      split_and!; [done|eauto|by rewrite Hka, (fold_sym L HL)|].
      intros k' Hk' Hf'. destruct (decide (k' = key)) as [->|Hne']; [done|].
      rewrite lookup_insert_ne in Hk' by done. by rewrite Hnob in Hf'.
Qed.

Lemma lookup_nothing q v : q <> [] -> (forall m, v = JObject m -> m = ∅) -> lookup_path L v q = None.
Proof.
  destruct q as [|b q]; [done|]. intros _ Hv. destruct v; try done. cbn [lookup_path].
  by rewrite (Hv m eq_refl), lookup_empty.
Qed.

(** A walk changes nothing off its path, when what is done at its end does not. *)
Lemma navigate_frame segs rest op k missing :
  (forall o r o' q, k o = (r, o') -> diverges L q rest = true ->
     lookup_path L (JObject o') q = lookup_path L (JObject o) q) ->
  forall m r m' q, navigateOrCreate L m segs op k missing = (r, m') ->
    diverges L q (segs ++ rest) = true ->
    lookup_path L (JObject m') q = lookup_path L (JObject m) q.
Proof.
  intros Hk. induction segs as [|a segs IH]; intros m r m' q H Hq; [by eapply Hk|].
  destruct q as [|b q]; [done|]. cbn [diverges app] in Hq. cbn [navigateOrCreate] in H.
  assert (forall v, (EqualFold L b a = true ->
      lookup_path L v q = match m !! resolveKey L m a with Some old => lookup_path L old q | None => None end) ->
    lookup_path L (JObject (<[resolveKey L m a := v]> m)) (b :: q) =
      lookup_path L (JObject m) (b :: q)) as Hins.
  { intros v Hv. destruct (EqualFold L b a) eqn:Hf; [|by apply lookup_other].
    destruct (lookup_same m a v b q Hf) as [[-> ->]| ->]; auto. }
  assert (EqualFold L b a = true -> diverges L q (segs ++ rest) = true) as Hq' by by intros Hf; rewrite Hf in Hq.
  destruct (m !! resolveKey L m a) as [[| | | | | |next]|] eqn:Hm; try by injection H as <- <-.
  - destruct (navigateOrCreate L next segs op k missing) as [r1 next'] eqn:Hn. injection H as <- <-.
    apply Hins. intros Hf. eapply IH; eauto.
  - destruct (decide (op = OpRemove)); [by injection H as <- <-|].
    destruct (navigateOrCreate L ∅ segs op k missing) as [r1 created] eqn:Hn. injection H as <- <-.
    apply Hins. intros Hf. erewrite IH by eauto. apply lookup_nothing; [|by intros ? [= <-]].
    intros ->. by specialize (Hq' Hf).
Qed.

(** What a successful walk does at the end of its path. *)
Lemma navigate_put (Q : object -> Prop) (P : option json -> option json -> Prop) segs rest op k missing :
  rest <> [] -> Q ∅ -> (forall m key o, Q m -> m !! key = Some (JObject o) -> Q o) ->
  (op = OpRemove -> P None None) ->
  (forall o o', Q o -> k o = (Ret tt, o') ->
     P (lookup_path L (JObject o) rest) (lookup_path L (JObject o') rest)) ->
  forall m m', Q m -> navigateOrCreate L m segs op k missing = (Ret tt, m') ->
    P (lookup_path L (JObject m) (segs ++ rest)) (lookup_path L (JObject m') (segs ++ rest)).
Proof.
  intros Hrest HQ0 HQ HP Hk. induction segs as [|a segs IH]; intros m m' Hm H; [by apply Hk|].
  cbn [app navigateOrCreate] in *.
  assert (forall v, lookup_path L (JObject (<[resolveKey L m a := v]> m)) (a :: segs ++ rest) =
    lookup_path L v (segs ++ rest)) as Hins.
  { intros v. cbn [lookup_path]. by rewrite resolveKey_insert, lookup_insert_eq. }
  cbn [lookup_path] in Hins |- *.
  destruct (m !! resolveKey L m a) as [[| | | | | |next]|] eqn:Hl; try done.
  - destruct (navigateOrCreate L next segs op k missing) as [r1 next'] eqn:Hn. injection H as -> <-.
    rewrite Hins. apply IH; [by eapply HQ|done].
  - destruct (decide (op = OpRemove)) as [Hop|].
    { injection H as _ <-. rewrite Hl. auto. }
    destruct (navigateOrCreate L ∅ segs op k missing) as [r1 created] eqn:Hn. injection H as -> <-.
    rewrite Hins. replace None with (lookup_path L (JObject ∅) (segs ++ rest)).
    { by apply IH. }
    apply lookup_nothing; [by destruct segs|by intros ? [= <-]].
Qed.

Lemma well_named_empty : well_named L (JObject ∅).
Proof.
  constructor; [intros k k' [v Hv]|intros k v Hv]; by rewrite lookup_empty in Hv.
Qed.

Lemma well_named_tidy m : well_named L (JObject m) -> tidy L m.
Proof. by inversion 1. Qed.

Lemma well_named_lookup m k v : well_named L (JObject m) -> m !! k = Some v -> well_named L v.
Proof. inversion 1. eauto. Qed.

(** How a walk can end. *)
Lemma navigate_result (R : go unit -> Prop) segs op k missing :
  (forall o, R (k o).1) -> (op = OpRemove -> R missing) ->
  R (Fail (newPathError "intermediate segment is not an object")) ->
  forall m, R (navigateOrCreate L m segs op k missing).1.
Proof.
  intros Hk Hmiss Herr. induction segs as [|a segs IH]; intros m; cbn [navigateOrCreate]; [done|].
  destruct (m !! resolveKey L m a) as [[| | | | | |next]|]; try done.
  - specialize (IH next). by destruct (navigateOrCreate L next segs op k missing).
  - destruct (decide (op = OpRemove)); [auto|].
    specialize (IH ∅). by destruct (navigateOrCreate L ∅ segs op k missing).
Qed.

(** A walk that meets only objects reaches its end. *)
Lemma navigate_reaches segs op k missing :
  (forall o, (k o).1 = Ret tt) -> (op = OpRemove -> missing = Ret tt) ->
  forall m, (forall n v, (0 < n <= length segs)%nat ->
      lookup_path L (JObject m) (take n segs) = Some v -> exists o, v = JObject o) ->
    (navigateOrCreate L m segs op k missing).1 = Ret tt.
Proof.
  intros Hk Hmiss. induction segs as [|a segs IH]; intros m Hp; cbn [navigateOrCreate]; [done|].
  assert (forall v n, m !! resolveKey L m a = Some v ->
    lookup_path L (JObject m) (take (S n) (a :: segs)) = lookup_path L v (take n segs)) as Hstep.
  { intros v n Hv. cbn. by rewrite Hv. }
  destruct (m !! resolveKey L m a) as [v|] eqn:Hm.
  - destruct (Hp 1 v) as [next ->]; [cbn; lia|rewrite (Hstep v 0) by done; by destruct segs|].
    assert ((navigateOrCreate L next segs op k missing).1 = Ret tt) as Hr.
    { apply IH. intros n v Hn Hv. apply (Hp (S n)); [cbn; lia|]. by rewrite (Hstep (JObject next)). }
    by destruct (navigateOrCreate L next segs op k missing).
  - destruct (decide (op = OpRemove)) as [Hop|Hop]; [auto|].
    assert ((navigateOrCreate L ∅ segs op k missing).1 = Ret tt) as Hr.
    { apply IH. intros n v Hn Hv. rewrite lookup_nothing in Hv; [done| |by intros ? [= <-]].
      destruct n, segs; cbn in *; try lia; done. }
    by destruct (navigateOrCreate L ∅ segs op k missing).
Qed.
End Lemmas.
