(* ===== verification/ScimPatch.v ===== *)
(** * SCIM PATCH

    [src/scim/patch.go]: applying a list of operations to a resource in place,
    and the redaction of what is written to the audit log. *)

From S2P Require Import Prelude Bytes ScimFilter ScimPath.

#[local] Open Scope string_scope.
#[local] Open Scope list_scope.

Record Operation := MkOperation { op_Op : Op; op_Path : string; op_Value : string }.

Inductive mergeMode := mergeModeAdd | mergeModeReplace.

Definition sensitiveAttrs : list string := ["password"].
Definition sensitiveAttrSuffix : string := ":secret".
(** [json.RawMessage(`"***"`)] *)
Definition redacted_value : string :=
  String.string_of_list_ascii ([ascii_of_nat 34] ++ to_bytes "***" ++ [ascii_of_nat 34]).

Section Patch.
Context (L : Lib).

(** The lower-casing of [Operation.UnmarshalJSON]. *)
Definition UnmarshalOp (raw : string) : Op :=
  let s := ToLower L raw in
  if String.eqb s "add" then OpAdd
  else if String.eqb s "remove" then OpRemove
  else if String.eqb s "replace" then OpReplace
  else OtherOp s.

(** One turn of [mergePartialResource]. *)
Definition merge_one (mode : mergeMode) (target : object) (kv : string * json) : object :=
  let tk := resolveKey L target kv.1 in
  match target !! tk, mode, kv.2 with
  | Some (JArray existing), mergeModeAdd, JArray incoming =>
      <[tk := JArray (existing ++ incoming)]> target
  | _, _, _ => <[tk := kv.2]> target
  end.

Definition mergePartialResource (target : object) (raw : string) (mode : mergeMode) : go unit * object :=
  if String.eqb raw "" then (Fail (newValueError "value is required for path-less op"), target)
  else match lib_Unmarshal L raw with
  | Some (JObject m) => (Ret tt, fold_left (merge_one mode) (lib_range L m) target)
  | Some JNull => (Ret tt, target)
  | _ => (Fail (newValueError_cause "value is not a JSON object"), target)
  end.

(** [p, err := ParsePath(op.Path)] and [p.apply(target, value, op)]. *)
Definition apply_path (target : object) (path value : string) (op : Op) : go unit * object :=
  match ParsePath L path with
  | Ret p => path_apply L p target value op
  | Fail e => (Fail e, target)
  | Panic why => (Panic why, target)
  end.

Definition applyAdd (target : object) (op : Operation) : go unit * object :=
  if String.eqb (op_Path op) "" then mergePartialResource target (op_Value op) mergeModeAdd
  else apply_path target (op_Path op) (op_Value op) OpAdd.

Definition applyRemove (target : object) (op : Operation) : go unit * object :=
  if String.eqb (op_Path op) "" then (Fail (newPathError "path is required for op=remove"), target)
  else apply_path target (op_Path op) "" OpRemove.

Definition applyReplace (target : object) (op : Operation) : go unit * object :=
  if String.eqb (op_Path op) "" then mergePartialResource target (op_Value op) mergeModeReplace
  else apply_path target (op_Path op) (op_Value op) OpReplace.

Definition applyOne (target : object) (op : Operation) : go unit * object :=
  match op_Op op with
  | OpAdd => applyAdd target op
  | OpRemove => applyRemove target op
  | OpReplace => applyReplace target op
  | OtherOp _ => (Fail (newValueError "unknown or missing op"), target)
  end.

(** The loop of [Apply], stopping at the first error. *)
Fixpoint apply_ops (target : object) (ops : list Operation) : go unit * object :=
  match ops with
  | [] => (Ret tt, target)
  | op :: ops =>
      let '(r, target) := applyOne target op in
      match r with
      | Ret tt => apply_ops target ops
      | Fail e => (Fail (Errorf1 "operation" e), target)
      | Panic why => (Panic why, target)
      end
  end.

(** [None] is the nil map. *)
Definition Apply (target : option object) (ops : list Operation) : go unit * option object :=
  match target with
  | None => (Fail (newValueError "target resource is nil"), None)
  | Some target => let '(r, target) := apply_ops target ops in (r, Some target)
  end.

(** ** What is written to the audit log *)

Definition isSensitivePath (path : string) : bool :=
  if String.eqb path "" then false
  else
    let lower := ToLower L path in
    let leaf :=
      match last_index ":" lower with
      | Some i => if has_prefix lower "urn:" then string_drop (i + 1) lower else lower
      | None => lower
      end in
    existsb (String.eqb leaf) sensitiveAttrs || has_suffix lower sensitiveAttrSuffix.

Definition redact_key (k : string) (v : json) : json :=
  if isSensitivePath k then JString "***" else v.

Definition redact_object (v : object) : object := map_imap (fun k x => Some (redact_key k x)) v.

Definition redactOp (op : Operation) : Operation :=
  if isSensitivePath (op_Path op) then MkOperation (op_Op op) (op_Path op) redacted_value
  else if String.eqb (op_Path op) "" && negb (String.eqb (op_Value op) "") then
    match lib_Unmarshal L (op_Value op) with
    | Some (JObject v) =>
        if existsb isSensitivePath (map fst (lib_range L v)) then
          match lib_Marshal L (JObject (redact_object v)) with
          | Some redacted => MkOperation (op_Op op) (op_Path op) redacted
          | None => op
          end
        else op
    | _ => op
    end
  else op.

Definition RedactedOps (ops : list Operation) : list Operation := map redactOp ops.
End Patch.

(** ** Reading back what was written *)

Section Paths.
Context (L : Lib) (HL : lib_laws L).
Implicit Type m : object.

Lemma decode_inv value msg :
  (exists v, lib_Unmarshal L value = Some v /\ decode L value msg = Ret v) \/
  (lib_Unmarshal L value = None /\ decode L value msg = Fail (newValueError_cause msg)).
Proof. unfold decode. destruct (lib_Unmarshal L value); eauto. Qed.

(** [applyLeaf] on every branch. *)
Lemma applyLeaf_run m leaf value op :
  let key := resolveKey L m leaf in
  (op = OpRemove /\ applyLeaf L m leaf value op = (Ret tt, delete key m)) \/
  (op <> OpRemove /\ exists v, lib_Unmarshal L value = Some v /\
     applyLeaf L m leaf value op = (Ret tt, <[key := stored op (m !! key) v]> m)) \/
  (op <> OpRemove /\ lib_Unmarshal L value = None /\ exists e, errors_is e scim_ErrInvalidValue = true /\
     applyLeaf L m leaf value op = (Fail e, m)).
Proof.
  cbv zeta. unfold applyLeaf. destruct (decide (op = OpRemove)) as [->|Hop]; [by left|right].
  destruct (decode_inv value "value is not valid JSON") as [(v & Hv & ->)|(Hv & ->)]; [left|right].
  - split; [done|]. exists v. split; [done|]. unfold stored. by destruct op.
  - split; [done|]. split; [done|]. eexists. split; [|reflexivity]. done.
Qed.

Lemma lookup_leaf m leaf : lookup_path L (JObject m) [leaf] = m !! resolveKey L m leaf.
Proof. cbn. by destruct (m !! resolveKey L m leaf). Qed.

Lemma applyLeaf_frame leaf value op m r m' q :
  applyLeaf L m leaf value op = (r, m') -> diverges L q [leaf] = true ->
  lookup_path L (JObject m') q = lookup_path L (JObject m) q.
Proof.
  destruct q as [|b q]; [done|]. cbn [diverges]. intros H Hq.
  destruct (EqualFold L b leaf) eqn:Hf; [by destruct q|].
  destruct (applyLeaf_run m leaf value op) as [[_ Hr]|[(_ & v & _ & Hr)|(_ & _ & e & _ & Hr)]];
    rewrite Hr in H; injection H as _ <-; [by apply lookup_deleted|by apply lookup_other|done].
Qed.

Lemma tidy_delete m leaf : tidy L m -> delete (resolveKey L m leaf) m !! resolveKey L (delete (resolveKey L m leaf) m) leaf = None.
Proof.
  intros Ht. set (key := resolveKey L m leaf). set (m' := delete key m).
  destruct (m' !! resolveKey L m' leaf) as [v|] eqn:Hv; [|done]. exfalso.
  apply lookup_delete_Some in Hv as [Hne Hv].
  destruct (m !! key) as [old|] eqn:Hk.
  - apply Hne, Ht; [eauto..|]. eapply (fold_trans L HL); [apply (resolveKey_fold L HL)|].
    rewrite (fold_sym L HL). apply (resolveKey_fold L HL).
  - apply (resolveKey_None L HL) in Hk as [_ Hno].
    pose proof (resolveKey_fold L HL m' leaf) as Hf. rewrite Hno in Hf; [done|eauto].
Qed.

Lemma filtered_at_shape e arrayKey post value op m :
  (filtered_at L e arrayKey post value op m).2 = m \/
  exists v, (filtered_at L e arrayKey post value op m).2 = <[resolveKey L m arrayKey := v]> m.
Proof.
  unfold filtered_at, in_place. set (key := resolveKey L m arrayKey).
  destruct (m !! key) as [[| | | | | |]|]; cbn [snd]; auto;
    destruct (filter_loop _ _ _ _ _ _) as [[[newArr n]|?|?] arr']; cbn [snd]; eauto;
    destruct ((n =? 0)%nat && _); cbn [snd]; eauto;
    destruct (buildFilteredAppend _ _ _ _) as [[|]|?|?]; cbn [snd]; eauto;
    rewrite insert_insert_eq; eauto.
Qed.

Lemma filtered_at_frame e arrayKey post value op m r m' q :
  filtered_at L e arrayKey post value op m = (r, m') -> diverges L q [arrayKey] = true ->
  lookup_path L (JObject m') q = lookup_path L (JObject m) q.
Proof.
  destruct q as [|b q]; [done|]. cbn [diverges]. intros H Hq.
  destruct (EqualFold L b arrayKey) eqn:Hf; [by destruct q|].
  destruct (filtered_at_shape e arrayKey post value op m) as [Hs|[v Hs]]; rewrite H in Hs; cbn in Hs; subst m';
    [done|by apply lookup_other].
Qed.

Lemma rev_inv {A} (l : list A) x y : rev l = x :: y -> l = rev y ++ [x].
Proof. intros H. rewrite <- (rev_involutive l), H. done. Qed.

(** C5: A patch touches only what its path names. Whether it succeeds or fails
    half way, an operation on a path leaves every attribute as it was that parts
    from the path (for a bracketed path, from the path of the array), however
    their names are cased. *)
Theorem path_apply_touches_only p m value op r m' :
  path_apply L p m value op = (r, m') -> forall q, diverges L q (anchor p) = true ->
  lookup_path L (JObject m') q = lookup_path L (JObject m) q.
Proof.
  unfold path_apply, anchor. intros H q Hq.
  destruct (rev (Segments p)) as [|leaf init] eqn:Hr; [by injection H as <- <-|].
  apply rev_inv in Hr. destruct (Filter p) as [e|].
  - unfold applyFiltered in H. destruct (_ || _) eqn:Hi; [by injection H as <- <-|].
    set (i := Z.to_nat (FilterIndex p)) in *.
    destruct (drop i (Segments p)) as [|arrayKey post] eqn:Hd; [by injection H as <- <-|].
    assert (Segments p !! i = Some arrayKey) as Hl.
    { rewrite <- (Nat.add_0_r i), <- lookup_drop, Hd. done. }
    eapply (navigate_frame L HL); [intros; by eapply filtered_at_frame|exact H|].
    by rewrite <- (take_S_r _ _ _ Hl).
  - unfold applySimple in H. rewrite Hr in Hq.
    eapply (navigate_frame L HL); [|exact H|exact Hq].
    intros o r0 o' q0 Ho Hd. exact (applyLeaf_frame _ _ _ _ _ _ _ Ho Hd).
Qed.

(** What is written through a path is read back through it. An add or a
    replace on a path without a filter that succeeds has stored the decoded
    value there (an add to a list has appended to it), a remove that succeeds
    has left nothing there. It fails only on a value that is not JSON or on a
    path through something that is not an object, and then with the error of
    that cause; a value that decodes reaches every path that meets only
    objects. *)
Theorem path_apply_stores p m value op r m' :
  Filter p = None -> Segments p <> [] -> path_apply L p m value op = (r, m') ->
  (r = Ret tt -> op <> OpRemove -> exists v, lib_Unmarshal L value = Some v /\
     lookup_path L (JObject m') (Segments p) =
       Some (stored op (lookup_path L (JObject m) (Segments p)) v)) /\
  (r = Ret tt -> op = OpRemove -> well_named L (JObject m) ->
     lookup_path L (JObject m') (Segments p) = None) /\
  (r = Ret tt \/ fails_with r scim_ErrInvalidPath = true \/
   (op <> OpRemove /\ lib_Unmarshal L value = None /\ fails_with r scim_ErrInvalidValue = true)) /\
  ((op = OpRemove \/ is_Some (lib_Unmarshal L value)) ->
   (forall n v, (0 < n < length (Segments p))%nat ->
      lookup_path L (JObject m) (take n (Segments p)) = Some v -> exists o, v = JObject o) ->
   r = Ret tt).
Proof.
  intros Hf Hne H. unfold path_apply in H. destruct (rev (Segments p)) as [|leaf init] eqn:Hr.
  { apply (f_equal (@rev _)) in Hr. by rewrite rev_involutive in Hr. }
  apply rev_inv in Hr. rewrite Hf in H. rewrite Hr. clear Hne Hf Hr. revert H.
  generalize (rev init) as segs. intros segs H. unfold applySimple in H. split_and!.
  - intros -> Hop.
    apply (navigate_put L HL (fun _ => True) (fun a b => exists v, lib_Unmarshal L value = Some v /\
      b = Some (stored op a v))) with (rest := [leaf]) in H; try done.
    intros o o' _ Ho. rewrite !lookup_leaf.
    destruct (applyLeaf_run o leaf value op) as [[? _]|[(_ & v & Hv & Ho')|(_ & _ & e & _ & Ho')]];
      [done| |by rewrite Ho' in Ho].
    rewrite Ho' in Ho. injection Ho as <-. exists v. split; [done|].
    by rewrite (resolveKey_insert L HL), lookup_insert_eq.
  - intros -> -> Hw.
    apply (navigate_put L HL (fun o => well_named L (JObject o)) (fun _ b => b = None))
      with (rest := [leaf]) in H; try done.
    + apply well_named_empty.
    + intros o key o' Ho. by apply well_named_lookup.
    + intros o o' Ho%well_named_tidy Hd. rewrite lookup_leaf.
      destruct (applyLeaf_run o leaf value OpRemove) as [[_ Ho']|[[? _]|[? _]]]; [|done..].
      rewrite Ho' in Hd. injection Hd as <-. by apply tidy_delete.
  - replace r with (navigateOrCreate L m segs op (fun parent => applyLeaf L parent leaf value op)
      (if decide (op = OpRemove) then Ret tt
       else Fail (newPathError "parent path does not resolve to a map"))).1 by by rewrite H.
    apply navigate_result; [|intros ->; by left|by right; left].
    intros o. destruct (applyLeaf_run o leaf value op) as [[_ ->]|[(_ & v & _ & ->)|(? & ? & e & He & ->)]];
      [by left..|right; right; done].
  - intros Hv Hp. apply (f_equal fst) in H. cbn in H. rewrite <- H. apply navigate_reaches.
    + intros o. destruct (applyLeaf_run o leaf value op) as [[_ ->]|[(_ & v & _ & ->)|(? & Hn & _)]];
        [done..|]. rewrite Hn in Hv. by destruct Hv as [?|[? ?]].
    + intros ->. done.
    + intros n v Hn Hl. apply (Hp n v); [rewrite length_app; cbn; lia|].
      by rewrite take_app_le by lia.
Qed.
End Paths.

(** ** Bracketed filters *)

Section Filtered.
Context (L : Lib).

(** What becomes of one element. *)
Definition matches (e : expr) (elem : json) : bool :=
  match elem with
  | JObject m => match evalFilter L e m with Ret b => b | _ => false end
  | _ => false
  end.
Definition rewritten (e : expr) (post : list string) (value : string) (op : Op) (elem : json) : list json :=
  match elem with
  | JObject m =>
      if matches e elem then
        match op, post with
        | OpRemove, [] => []
        | OpRemove, _ => [JObject (deletePath L m post)]
        | OtherOp _, _ => []
        | _, _ => [JObject (assignFiltered L m post value op).2]
        end
      else [elem]
  | _ => [elem]
  end.

Lemma filter_loop_Ret e post value op arr newArr n :
  (filter_loop L e post value op arr).1 = Ret (newArr, n) ->
  newArr = concat (map (rewritten e post value op) arr) /\
  n = length (List.filter (matches e) arr) /\
  Forall (fun elem => match elem with JObject m => is_ret (evalFilter L e m) = true | _ => True end) arr.
Proof.
  revert newArr n. induction arr as [|elem arr IH]; intros newArr n; cbn [filter_loop map concat List.filter].
  { by intros [= <- <-]. }
  assert (forall kept k elem', (let '(r, arr') := filter_loop L e post value op arr in
      ((x ← r; Ret (kept ++ x.1, k + x.2)%nat) : go (list json * nat), elem' :: arr')).1 = Ret (newArr, n) ->
    exists l k', (filter_loop L e post value op arr).1 = Ret (l, k') /\ newArr = kept ++ l /\ n = (k + k')%nat) as Hgo.
  { intros kept k elem'. destruct (filter_loop L e post value op arr) as [[[l k']|?|?] arr']; cbn; [|done..].
    intros [= <- <-]. eauto. }
  intros H. unfold rewritten, matches in *.
  destruct elem as [| | | | | |m].
  1-6: apply Hgo in H as (rest & k' & (-> & -> & Hf)%IH & -> & ->); split_and!; [done|done|by constructor].
  destruct (evalFilter L e m) as [[]|?|?] eqn:He; [| |done..].
  2: { apply Hgo in H as (rest & k' & (-> & -> & Hf)%IH & -> & ->). split_and!; [done|done|].
       constructor; [by rewrite He|done]. }
  destruct op as [| | |s]; cbn [app].
  1,3: destruct (assignFiltered L m post value _) as [[[]|?|?] m']; [|done..].
  3: destruct post as [|s post].
  all: apply Hgo in H as (rest & k' & (-> & -> & Hf)%IH & -> & ->); split_and!; [done|done|].
  all: constructor; [by rewrite He|done].
Qed.

(** What is appended when no element matches. *)
Definition appended (e : expr) (post : list string) (value : string) (op : Op) (arr : list json)
    : list json :=
  if existsb (matches e) arr then []
  else match op, buildFilteredAppend L e post value with
       | (OpAdd | OpReplace), Ret (Some o) => [JObject o]
       | _, _ => []
       end.

Lemma existsb_filter {A} (f : A -> bool) l : existsb f l = negb (length (List.filter f l) =? 0)%nat.
Proof. induction l as [|x l IH]; cbn; [done|]. by destruct (f x). Qed.

(** A bracketed path rewrites exactly the elements its filter selects. When
    an operation on [attr[filter]...] succeeds the attribute was a list, or
    absent, the filter could be evaluated on every object in it, and the list is
    now the old one, in order, with the selected objects removed, or changed as
    the rest of the path says, and every other element as it was; where nothing
    was selected an add or a replace has appended the element the filter
    describes. *)
Theorem path_apply_filtered (HL : lib_laws L) p e attr post m value op m' :
  Filter p = Some e -> FilterIndex p = 0%Z -> Segments p = attr :: post ->
  path_apply L p m value op = (Ret tt, m') ->
  exists arr,
    (m !! resolveKey L m attr = Some (JArray arr) \/ (m !! resolveKey L m attr = None /\ arr = [])) /\
    Forall (fun elem => match elem with JObject o => is_ret (evalFilter L e o) = true | _ => True end) arr /\
    lookup_path L (JObject m') [attr] =
      Some (JArray (concat (map (rewritten e post value op) arr) ++ appended e post value op arr)).
Proof.
  intros Hf Hi Hs. unfold path_apply. destruct (rev (Segments p)) as [|leaf init] eqn:Hr; [done|].
  rewrite Hf. unfold applyFiltered. rewrite Hi, Hs. cbn [Z.ltb Z.compare orb].
  rewrite (proj2 (Z.leb_gt _ _)) by (cbn [length]; lia). change (Z.to_nat 0) with 0%nat.
  cbn [drop take navigateOrCreate]. unfold filtered_at. set (key := resolveKey L m attr). intros H.
  assert (exists arr, (match m !! key with None => Some [] | Some (JArray arr) => Some arr | Some _ => None end)
      = Some arr /\ (m !! key = Some (JArray arr) \/ (m !! key = None /\ arr = []))) as (arr & Harr & Hm).
  { clear -H. destruct (m !! key) as [[| | | | |l|]|]; try done; eexists; (split; [reflexivity|]); auto. }
  rewrite Harr in H. exists arr. split; [done|].
  destruct (filter_loop L e post value op arr) as [r arr'] eqn:Hl.
  apply (f_equal fst) in Hl. cbn in Hl.
  destruct r as [[newArr n]|?|?]; [|done..]. apply filter_loop_Ret in Hl as (-> & -> & Hall).
  split; [done|]. rewrite lookup_leaf. unfold appended. rewrite existsb_filter.
  destruct (length (List.filter (matches e) arr) =? 0)%nat; cbn [negb andb] in H |- *.
  2: { injection H as <-. unfold key. by rewrite (resolveKey_insert L HL), lookup_insert_eq, app_nil_r. }
  destruct op; cbn in H |- *; try destruct (buildFilteredAppend L e post value) as [[o|]|?|?];
    try done; injection H as <-; rewrite ?insert_insert_eq;
    unfold key; by rewrite (resolveKey_insert L HL), lookup_insert_eq, ?app_nil_r.
Qed.
End Filtered.

(** ** No attribute is stored twice under two spellings *)

Section Names.
Context (L : Lib) (HL : lib_laws L).
(** Decoded text has no object with two spellings of one name. *)
Hypothesis decoded_well_named : forall text v, lib_Unmarshal L text = Some v -> well_named L v.
Implicit Type m : object.

Local Abbreviation good m := (well_named L (JObject m)).

Lemma wn_insert m a v : good m -> well_named L v -> good (<[resolveKey L m a := v]> m).
Proof.
  intros Hm Hv. pose proof (well_named_tidy L m Hm) as Ht. set (key := resolveKey L m a).
  assert (forall k, is_Some (m !! k) -> EqualFold L key k = true -> k = key) as Hkey.
  { intros k Hk Hf. destruct (m !! key) as [old|] eqn:Ho.
    - symmetry. apply Ht; [by rewrite Ho; eauto|done..].
    - apply (resolveKey_None L HL) in Ho as [Ha Hno]. fold key in Ha.
      rewrite <- Ha in Hno. rewrite (fold_sym L HL), Hno in Hf; done. }
  constructor.
  - intros k k' Hk Hk' Hf.
    destruct (decide (k = key)) as [->|Hne], (decide (k' = key)) as [->|Hne']; try done.
    + rewrite lookup_insert_ne in Hk' by done. symmetry. by apply Hkey.
    + rewrite lookup_insert_ne in Hk by done. rewrite (fold_sym L HL) in Hf. by apply Hkey.
    + rewrite lookup_insert_ne in Hk, Hk' by done. by apply Ht.
  - intros k x [[_ <-]|[_ Hx]]%lookup_insert_Some; [done|]. by eapply well_named_lookup.
Qed.

Lemma wn_delete m key : good m -> good (delete key m).
Proof.
  intros Hm. pose proof (well_named_tidy L m Hm) as Ht. constructor.
  - intros k k' [v [_ Hv]%lookup_delete_Some] [v' [_ Hv']%lookup_delete_Some]. apply Ht; eauto.
  - intros k x [_ Hx]%lookup_delete_Some. by eapply well_named_lookup.
Qed.

Lemma wn_navigate segs op k missing : (forall o, good o -> good (k o).2) ->
  forall m, good m -> good (navigateOrCreate L m segs op k missing).2.
Proof.
  intros Hk. induction segs as [|a segs IH]; intros m Hm; cbn [navigateOrCreate]; [auto|].
  destruct (m !! resolveKey L m a) as [[| | | | | |next]|] eqn:Hl; try done.
  - assert (good next) as Hn by by eapply well_named_lookup.
    specialize (IH next Hn). destruct (navigateOrCreate L next segs op k missing). by apply wn_insert.
  - destruct (decide (op = OpRemove)); [done|]. specialize (IH ∅ (well_named_empty L)).
    destruct (navigateOrCreate L ∅ segs op k missing). by apply wn_insert.
Qed.

Lemma wn_app l l' : well_named L (JArray l) -> (forall v, v ∈ l' -> well_named L v) ->
  well_named L (JArray (l ++ l')).
Proof. inversion 1; subst. intros Hl'. constructor. intros v [?|?]%elem_of_app; auto. Qed.

Lemma wn_stored op old v : (forall o, old = Some o -> well_named L o) -> well_named L v ->
  well_named L (stored op old v).
Proof.
  intros Ho Hv. unfold stored. destruct op; try done. destruct old as [o|]; [|done].
  specialize (Ho o eq_refl). destruct o; try done. destruct v; try (apply wn_app; [done|]; intros x Hx).
  all: try (apply list_elem_of_singleton in Hx; by subst x). inversion Hv; auto.
Qed.

Lemma wn_applyLeaf m leaf value op : good m -> good (applyLeaf L m leaf value op).2.
Proof.
  intros Hm. destruct (applyLeaf_run L m leaf value op) as [[_ ->]|[(_ & v & Hv & ->)|(_ & _ & e & _ & ->)]].
  - by apply wn_delete.
  - apply wn_insert; [done|]. apply wn_stored; [|by eapply decoded_well_named].
    intros o Ho. by eapply well_named_lookup.
  - done.
Qed.

Lemma wn_overlay l : (forall kv, kv ∈ l -> well_named L kv.2) -> forall m, good m -> good (overlay L m l).
Proof.
  unfold overlay. induction l as [|kv l IH]; intros Hl m Hm; cbn; [done|].
  apply IH; [intros; apply Hl; by right|]. apply wn_insert; [done|]. apply Hl. by left.
Qed.

Lemma range_well_named m : good m -> forall kv, kv ∈ lib_range L m -> well_named L kv.2.
Proof.
  intros Hm [k v]. rewrite (range_perm L HL m). intros Hin%elem_of_map_to_list.
  by eapply well_named_lookup.
Qed.

Lemma wn_assignFiltered m post value op : good m -> good (assignFiltered L m post value op).2.
Proof.
  intros Hm. unfold assignFiltered. destruct (rev post) as [|leaf init].
  - destruct (decode_inv L value "value for filtered element is not valid JSON") as [(v & Hv & ->)|(_ & ->)];
      [|done]. apply decoded_well_named in Hv.
    destruct v as [| | | | | |o]; try done. apply wn_overlay; [by apply range_well_named|done].
  - apply wn_navigate; [|done]. intros o. apply wn_applyLeaf.
Qed.

Lemma wn_deletePath segs : forall m, good m -> good (deletePath L m segs).
Proof.
  induction segs as [|a segs IH]; intros m Hm; cbn [deletePath]; [done|].
  destruct segs as [|b segs]; [by apply wn_delete|].
  destruct (m !! resolveKey L m a) as [[| | | | | |next]|] eqn:Hl; try done.
  apply wn_insert; [done|]. apply IH. by eapply well_named_lookup.
Qed.

Definition all_good (l : list json) : Prop := forall v, v ∈ l -> well_named L v.

Lemma wn_filter_loop e post value op arr : all_good arr ->
  (forall newArr n, (filter_loop L e post value op arr).1 = Ret (newArr, n) -> all_good newArr) /\
  all_good (filter_loop L e post value op arr).2.
Proof.
  induction arr as [|elem arr IH]; intros Harr; cbn [filter_loop].
  { split; [by intros ? ? [= <- <-]|done]. }
  assert (well_named L elem) as He by (apply Harr; left).
  destruct IH as [IH1 IH2]; [intros v Hv; apply Harr; by right|].
  assert (forall kept n elem', all_good kept -> well_named L elem' ->
    let x := (let '(r, arr') := filter_loop L e post value op arr in
              ((x ← r; Ret (kept ++ x.1, n + x.2)%nat) : go (list json * nat), elem' :: arr')) in
    (forall newArr n', x.1 = Ret (newArr, n') -> all_good newArr) /\ all_good x.2) as Hgo.
  { intros kept n elem' Hk He'. destruct (filter_loop L e post value op arr) as [r arr']. cbn in *. split.
    - intros newArr n'. destruct r as [[l k]|?|?]; cbn; [|done..]. intros [= <- _].
      specialize (IH1 _ _ eq_refl). intros v [?|?]%elem_of_app; auto.
    - intros v [->|?]%elem_of_cons; auto. }
  assert (forall v, well_named L v -> all_good [v]) as H1 by by intros v Hv x ->%list_elem_of_singleton.
  assert (forall v, well_named L v -> all_good (v :: arr)) as Hcons.
  { intros v Hv x [->|Hx]%elem_of_cons; [done|]. apply Harr. by right. }
  destruct elem as [| | | | | |elemMap]; try (apply Hgo; auto).
  destruct (evalFilter L e elemMap) as [[]|?|?]; [|by apply Hgo; auto|by split; [|apply Hcons]..].
  destruct op as [| | |s].
  - pose proof (wn_assignFiltered elemMap post value OpAdd He) as Ha.
    destruct (assignFiltered L elemMap post value OpAdd) as [[[]|?|?] m']; cbn in Ha;
      [by apply Hgo; auto|by split; [|apply Hcons]..].
  - destruct post as [|s0 post]; [apply Hgo; [by intros v ?%elem_of_nil|done]|].
    pose proof (wn_deletePath (s0 :: post) elemMap He). apply Hgo; auto.
  - pose proof (wn_assignFiltered elemMap post value OpReplace He) as Ha.
    destruct (assignFiltered L elemMap post value OpReplace) as [[[]|?|?] m']; cbn in Ha;
      [by apply Hgo; auto|by split; [|apply Hcons]..].
  - apply Hgo; [by intros v ?%elem_of_nil|done].
Qed.

Lemma wn_array_at m key arr : good m -> m !! key = Some (JArray arr) -> all_good arr.
Proof. intros Hm Hk. eapply well_named_lookup in Hk; [|done]. by inversion Hk. Qed.

Lemma wn_filtered_at e arrayKey post value op m : good m ->
  (op <> OpRemove -> forall o, buildFilteredAppend L e post value = Ret (Some o) -> good o) ->
  good (filtered_at L e arrayKey post value op m).2.
Proof.
  intros Hm Happ. unfold filtered_at, in_place. set (key := resolveKey L m arrayKey).
  assert (forall arr, (match m !! key with None => Some [] | Some (JArray arr) => Some arr | Some _ => None end)
    = Some arr -> all_good arr) as Harr.
  { intros arr. destruct (m !! key) as [[| | | | | |]|] eqn:Hk; try done.
    - intros [= <-]. by eapply wn_array_at.
    - intros [= <-] v Hv. by apply elem_of_nil in Hv. }
  destruct (match m !! key with None => Some [] | Some (JArray arr) => Some arr | Some _ => None end)
    as [arr|]; [|done].
  destruct (wn_filter_loop e post value op arr (Harr arr eq_refl)) as [Hnew Hold].
  destruct (filter_loop L e post value op arr) as [[[newArr n]|?|?] arr']; cbn in Hnew, Hold |- *.
  2,3: destruct (m !! key) eqn:Hk; [apply wn_insert; [done|by constructor]|done].
  specialize (Hnew newArr n eq_refl).
  assert (good (<[key := JArray newArr]> m)) as Hg by (apply wn_insert; [done|by constructor]).
  destruct ((n =? 0)%nat && _) eqn:Hb; [|done].
  assert (op <> OpRemove) as Hop by (intros ->; by rewrite andb_false_r in Hb).
  specialize (Happ Hop). destruct (buildFilteredAppend L e post value) as [[o|]|?|?]; try done. cbn.
  rewrite insert_insert_eq. apply wn_insert; [done|]. constructor.
  intros v [Hv|Hv]%elem_of_app; [auto|]. apply list_elem_of_singleton in Hv as ->. auto.
Qed.

(** What the operation would append when nothing matches has no attribute in
    two spellings. *)
Definition append_ok (p : Path) (value : string) (op : Op) : Prop :=
  match Filter p with
  | None => True
  | Some e => op <> OpRemove -> forall o,
      buildFilteredAppend L e (drop (S (Z.to_nat (FilterIndex p))) (Segments p)) value = Ret (Some o) ->
      good o
  end.

Lemma wn_path_apply p m value op : good m -> append_ok p value op ->
  good (path_apply L p m value op).2.
Proof.
  unfold path_apply, append_ok. intros Hm Happ.
  destruct (rev (Segments p)) as [|leaf init]; [done|]. destruct (Filter p) as [e|].
  - unfold applyFiltered. destruct (_ || _); [done|].
    destruct (drop (Z.to_nat (FilterIndex p)) (Segments p)) as [|arrayKey post] eqn:Hd; [done|].
    apply wn_navigate; [|done]. intros o Ho. apply wn_filtered_at; [done|].
    replace post with (drop (S (Z.to_nat (FilterIndex p))) (Segments p)); [done|].
    by rewrite <- Nat.add_1_r, <- drop_drop, Hd.
  - apply wn_navigate; [|done]. intros o. apply wn_applyLeaf.
Qed.

Lemma wn_merge mode l : (forall kv, kv ∈ l -> well_named L kv.2) ->
  forall m, good m -> good (fold_left (merge_one L mode) l m).
Proof.
  induction l as [|[k v] l IH]; intros Hl m Hm; cbn [fold_left]; [done|].
  apply IH; [intros; apply Hl; by right|].
  assert (well_named L v) as Hv by (apply (Hl (k, v)); left).
  assert (merge_one L mode m (k, v) = <[resolveKey L m k :=
    stored (match mode with mergeModeAdd => match v with JArray _ => OpAdd | _ => OpReplace end
                          | mergeModeReplace => OpReplace end) (m !! resolveKey L m k) v]> m) as ->.
  { unfold merge_one, stored. cbn. destruct (m !! resolveKey L m k) as [[| | | | | |]|], mode, v; done. }
  apply wn_insert; [done|]. apply wn_stored; [|done]. intros o Ho. by eapply well_named_lookup.
Qed.

Lemma wn_mergePartialResource m raw mode : good m -> good (mergePartialResource L m raw mode).2.
Proof.
  intros Hm. unfold mergePartialResource. destruct (String.eqb raw ""); [done|].
  destruct (lib_Unmarshal L raw) as [v|] eqn:Hv; [|done]. apply decoded_well_named in Hv.
  destruct v; try done. apply wn_merge; [by apply range_well_named|done].
Qed.

Definition operation_ok (op : Operation) : Prop := forall p,
  ParsePath L (op_Path op) = Ret p -> append_ok p (op_Value op) (op_Op op).

(** A patch never makes a phantom attribute. From a resource in which no
    object has one attribute under two spellings, a list of operations, also one
    that fails half way, leaves such a resource, provided the element a filtered
    add would append has none itself. *)
Theorem Apply_keeps_names ops m : good m -> Forall operation_ok ops ->
  exists m', (Apply L (Some m) ops).2 = Some m' /\ good m'.
Proof.
  unfold Apply. intros Hm Hops. revert m Hm. induction Hops as [|op ops Hop Hops IH]; intros m Hm; cbn; [eauto|].
  assert (good (applyOne L m op).2) as Hone.
  { assert (forall value o, (o <> OpRemove -> o = op_Op op /\ value = op_Value op) ->
      good (apply_path L m (op_Path op) value o).2) as Hpath.
    { intros value o Ho. unfold apply_path. destruct (ParsePath L (op_Path op)) as [p|?|?] eqn:Hp; [|done..].
      apply wn_path_apply; [done|]. specialize (Hop p Hp). unfold append_ok in *.
      destruct (Filter p); [|done]. intros Hne. destruct (Ho Hne) as [-> ->]. by apply Hop. }
    unfold applyOne, applyAdd, applyRemove, applyReplace.
    destruct (op_Op op) eqn:Ho; try destruct (String.eqb (op_Path op) "");
      try done; try (by apply wn_mergePartialResource); by apply Hpath. }
  destruct (applyOne L m op) as [[[]|?|?] m']; cbn in Hone; [|eauto..].
  specialize (IH m' Hone). destruct (apply_ops L m' ops). done.
Qed.
End Names.

(** ** Merging without a path *)

(** The same library, visiting maps in another order. *)
Definition with_range (L : Lib) (range : object -> list (string * json)) : Lib :=
  Build_Lib (lib_fold L) (lib_lower L) range (lib_Sprint L) (lib_Unmarshal L) (lib_Marshal L)
    (lib_ParsePath L).

Definition merge_op (mode : mergeMode) (v : json) : Op :=
  match mode, v with mergeModeAdd, JArray _ => OpAdd | _, _ => OpReplace end.

Section Merge.
Context (L : Lib) (HL : lib_laws L).
Implicit Type m : object.

Lemma merge_one_stored mode m kv : merge_one L mode m kv =
  <[resolveKey L m kv.1 := stored (merge_op mode kv.2) (m !! resolveKey L m kv.1) kv.2]> m.
Proof.
  unfold merge_one, stored, merge_op. by destruct (m !! resolveKey L m kv.1) as [[| | | | | |]|], mode, kv.2.
Qed.

Lemma merge_commute mode m a b : EqualFold L a.1 b.1 = false ->
  merge_one L mode (merge_one L mode m a) b = merge_one L mode (merge_one L mode m b) a.
Proof.
  intros Hne. assert (EqualFold L b.1 a.1 = false) as Hne' by by rewrite (fold_sym L HL).
  rewrite !merge_one_stored.
  set (va := stored (merge_op mode a.2) _ _). set (vb := stored (merge_op mode b.2) (m !! _) _).
  destruct (resolveKey_insert_other L HL m a.1 b.1 va Hne) as [Hk Hb].
  destruct (resolveKey_insert_other L HL m b.1 a.1 vb Hne') as [_ Ha].
  rewrite Ha, Hb, !lookup_insert_ne by congruence. by apply insert_insert_ne.
Qed.

(** The entries name different attributes. *)
Definition distinct_names (l : list (string * json)) : Prop :=
  NoDup (map fst l) /\
  forall a b, a ∈ l -> b ∈ l -> EqualFold L a.1 b.1 = true -> a.1 = b.1.

Lemma distinct_names_perm l l' : l ≡ₚ l' -> distinct_names l -> distinct_names l'.
Proof.
  intros Hp [Hnd Hd]. split; [by rewrite <- Hp|]. intros a b. rewrite <- !Hp. apply Hd.
Qed.

Lemma distinct_names_cons kv l : distinct_names (kv :: l) ->
  distinct_names l /\ forall b, b ∈ l -> EqualFold L kv.1 b.1 = false.
Proof.
  intros [[Hnin Hnd]%NoDup_cons Hd]. split.
  - split; [done|]. intros a b Ha Hb. apply Hd; by right.
  - intros b Hb. destruct (EqualFold L kv.1 b.1) eqn:Hf; [|done]. exfalso. apply Hnin.
    rewrite (Hd kv b) by (done || by left || by right). apply list_elem_of_fmap. eauto.
Qed.

Lemma merge_perm mode l l' : l ≡ₚ l' -> distinct_names l -> forall m,
  fold_left (merge_one L mode) l m = fold_left (merge_one L mode) l' m.
Proof.
  induction 1 as [|kv l l' Hp IH|a b l|l1 l2 l3 H1 IH1 H2 IH2]; intros Hd m; cbn [fold_left]; [done| | |].
  - apply IH. by apply distinct_names_cons in Hd as [? _].
  - f_equal. apply merge_commute. apply distinct_names_cons in Hd as [_ Hd]. apply Hd. by left.
  - rewrite IH1 by done. apply IH2. by eapply distinct_names_perm.
Qed.

Lemma range_distinct m : tidy L m -> distinct_names (lib_range L m).
Proof.
  intros Ht. eapply distinct_names_perm; [symmetry; apply (range_perm L HL)|]. split.
  - apply NoDup_fst_map_to_list.
  - intros [k v] [k' v'] Hk%elem_of_map_to_list Hk'%elem_of_map_to_list. apply Ht; eauto.
Qed.

Lemma merge_frame mode l b q : (forall kv, kv ∈ l -> EqualFold L b kv.1 = false) -> forall m,
  lookup_path L (JObject (fold_left (merge_one L mode) l m)) (b :: q) = lookup_path L (JObject m) (b :: q).
Proof.
  induction l as [|kv l IH]; intros Hl m; cbn [fold_left]; [done|].
  rewrite IH by (intros; apply Hl; by right). rewrite merge_one_stored.
  apply (lookup_other L HL). apply Hl. by left.
Qed.

Lemma merge_stores mode l k v : (k, v) ∈ l -> distinct_names l -> forall m,
  lookup_path L (JObject (fold_left (merge_one L mode) l m)) [k] =
  Some (stored (merge_op mode v) (lookup_path L (JObject m) [k]) v).
Proof.
  intros Hin Hd m. apply elem_of_Permutation in Hin as [l' Hl].
  rewrite (merge_perm mode _ _ Hl Hd). apply (distinct_names_perm _ _ Hl) in Hd.
  apply distinct_names_cons in Hd as [_ Hd]. cbn [fold_left].
  rewrite merge_frame by auto. rewrite merge_one_stored, !lookup_leaf. cbn.
  by rewrite (resolveKey_insert L HL), lookup_insert_eq.
Qed.

Lemma with_range_laws range : (forall m, range m ≡ₚ map_to_list m) -> lib_laws (with_range L range).
Proof. destruct HL. by constructor. Qed.

Lemma resolveKey_with_range range m name : (forall m, range m ≡ₚ map_to_list m) ->
  resolveKey (with_range L range) m name = resolveKey L m name.
Proof.
  intros Hr. symmetry. apply (resolveKey_eq L HL).
  exact (resolveKey_resolves (with_range L range) (with_range_laws range Hr) m name).
Qed.

Lemma fold_merge_with_range range mode l : (forall m, range m ≡ₚ map_to_list m) -> forall m,
  fold_left (merge_one (with_range L range) mode) l m = fold_left (merge_one L mode) l m.
Proof.
  intros Hr. induction l as [|kv l IH]; intros m; cbn [fold_left]; [done|].
  rewrite IH. unfold merge_one. by rewrite resolveKey_with_range.
Qed.

(** An operation without a path merges the same way whatever the order in
    which Go visits the map. A JSON object without two spellings of one name is
    laid over the resource: each of its attributes is then stored, in any
    spelling of its name, as a replace (or an add to a list) would store it,
    every other attribute is as it was, and the result does not depend on the
    iteration order. A value that is no object changes nothing; only [null]
    is then accepted. *)
Theorem merge_deterministic m raw mode :
  raw <> "" ->
  match lib_Unmarshal L raw with
  | Some (JObject o) => tidy L o ->
      exists m', mergePartialResource L m raw mode = (Ret tt, m') /\
        (forall range, (forall x, range x ≡ₚ map_to_list x) ->
           mergePartialResource (with_range L range) m raw mode = (Ret tt, m')) /\
        (forall k v, o !! k = Some v ->
           lookup_path L (JObject m') [k] =
             Some (stored (merge_op mode v) (lookup_path L (JObject m) [k]) v)) /\
        (forall b q, (forall k, is_Some (o !! k) -> EqualFold L b k = false) ->
           lookup_path L (JObject m') (b :: q) = lookup_path L (JObject m) (b :: q))
  | Some JNull => mergePartialResource L m raw mode = (Ret tt, m)
  | _ => exists e, errors_is e scim_ErrInvalidValue = true /\
      mergePartialResource L m raw mode = (Fail e, m)
  end.
Proof.
  intros Hraw. unfold mergePartialResource. cbn [lib_Unmarshal with_range].
  rewrite (proj2 (String.eqb_neq _ _) Hraw).
  destruct (lib_Unmarshal L raw) as [[| | | | | |o]|]; try (eexists; split; [|reflexivity]; done); [done|].
  intros Ht. pose proof (range_distinct o Ht) as Hd. eexists. split; [reflexivity|]. split_and!.
  - intros range Hr. f_equal. rewrite fold_merge_with_range by done. apply merge_perm.
    + cbn. by rewrite Hr, (range_perm L HL).
    + eapply distinct_names_perm; [|exact Hd]. cbn. by rewrite Hr, (range_perm L HL).
  - intros k v Hk. apply merge_stores; [|done]. rewrite (range_perm L HL). by apply elem_of_map_to_list.
  - intros b q Hb. apply merge_frame. intros [k v]. rewrite (range_perm L HL).
    intros Hin%elem_of_map_to_list. apply Hb. eauto.
Qed.
End Merge.

(** ** At concrete inputs *)

Module Toy.
Definition plain (name : string) : AttributePath :=
  {| URIPrefix := None; AttributeName := name; SubAttribute := None |}.
Definition at_path (a : AttributePath) (e : option expr) (sub : option string) : lib_path :=
  {| lp_AttributePath := a; lp_ValueExpression := e; lp_SubAttribute := sub |}.

(** Some texts and what they decode to. *)
Definition texts : list (string * json) :=
  [("false", JBool false); ("null", JNull); ("x@acme", JString "x@acme");
   ("***", JString "***");
   ("{active:false}", JObject {["Active" := JBool false]});
   ("{both}", JObject (<["Active" := JBool false]> {["active" := JBool true]}));
   ("{VALUE:x}", JObject {["VALUE" := JString "x"]});
   ("{Password:p}", JObject (<["Password" := JString "p"]> {["title" := JString "t"]}));
   ("{Password:***}", JObject (<["Password" := JString "***"]> {["title" := JString "t"]}))].
Definition paths : list (string * lib_path) :=
  [("ACTIVE", at_path (plain "ACTIVE") None None); ("password", at_path (plain "password") None None);
   ("name.familyName", at_path {| URIPrefix := None; AttributeName := "name";
      SubAttribute := Some "familyName" |} None None);
   ("members[value eq 2]", at_path (plain "members")
      (Some (AttributeExpression (plain "value") EQ (VString "2"))) None)].

Definition find {A} (l : list (string * A)) (s : string) : option A :=
  snd <$> List.find (fun kv => String.eqb kv.1 s) l.

(** Only the scalars and the one redacted object are ever marshalled. *)
Definition lib_of (texts : list (string * json)) : Lib := {|
  lib_fold := String.eqb;
  lib_lower s := s;
  lib_range := map_to_list;
  lib_Sprint _ := "[...]";
  lib_Unmarshal := find texts;
  lib_Marshal v :=
    match v with
    | JObject m => if decide (is_Some (m !! "Password")) then Some "{Password:***}" else None
    | _ => None
    end;
  lib_ParsePath := find paths
|}.
Definition lib : Lib := lib_of texts.

Lemma laws_of known : lib_laws (lib_of known).
Proof.
  constructor; unfold EqualFold; cbn.
  - intros s. destruct (is_ascii s); apply String.eqb_refl.
  - intros s t. destruct (is_ascii s), (is_ascii t); cbn; apply String.eqb_sym.
  - intros s t u. destruct (is_ascii s) eqn:Hs, (is_ascii t) eqn:Ht, (is_ascii u) eqn:Hu; cbn;
      rewrite !String.eqb_eq; congruence.
  - intros [|c s]; [done|]. by destruct (is_ascii (String c s)).
  - done.
Qed.

Definition laws : lib_laws lib := laws_of texts.

Definition member (v : string) : json := JObject {["value" := JString v]}.
Definition bob : object :=
  <["active" := JBool true]> (<["name" := JObject {["givenName" := JString "Bob"]}]>
    {["members" := JArray [member "1"; member "2"; member "3"]]}).

Definition replace_active : Operation := MkOperation OpReplace "ACTIVE" "false".
Definition parsed (path : string) : Path :=
  match ParsePath lib path with Ret p => p | _ => Build_Path "" [] (-1) None end.

(** The patch of a deprovisioning, however the name is cased. *)
Example deprovisioned :
  (m ← (Apply lib (Some bob) [replace_active]).2; m !! "active") = Some (JBool false).
Proof. vm_compute. reflexivity. Qed.

Definition after {A} (x : A * object) : object := x.2.
Definition family_written :=
  path_apply lib (parsed "name.familyName") bob "x@acme" OpAdd.
Definition member_removed :=
  path_apply lib (parsed "members[value eq 2]") bob "" OpRemove.

Lemma path_apply_touches_only_witness :
  lookup_path lib (JObject (after member_removed)) ["Active"] = Some (JBool true) /\
  lookup_path lib (JObject (after member_removed)) ["members"] = Some (JArray [member "1"; member "3"]).
Proof.
  split; [|vm_compute; reflexivity].
  rewrite (path_apply_touches_only lib laws (parsed "members[value eq 2]") bob "" OpRemove
    member_removed.1 (after member_removed) (surjective_pairing member_removed) ["Active"]);
    vm_compute; reflexivity.
Defined.

Lemma path_apply_filtered_witness : exists arr,
  (bob !! "members" = Some (JArray arr) \/ (bob !! "members" = None /\ arr = [])) /\
  length arr = 3%nat.
Proof.
  assert (member_removed = (Ret tt, after member_removed)) as Hr by (vm_compute; reflexivity).
  destruct (path_apply_filtered lib laws (parsed "members[value eq 2]")
    (AttributeExpression (plain "value") EQ (VString "2")) "members" [] bob "" OpRemove
    (after member_removed) eq_refl eq_refl eq_refl Hr) as (arr & Hm & _ & _).
  exists arr. split; [exact Hm|]. destruct Hm as [Hm|[Hm _]]; vm_compute in Hm; [|discriminate].
  injection Hm as <-. reflexivity.
Defined.

Lemma path_apply_stores_witness :
  lookup_path lib (JObject (after family_written)) ["name"; "familyName"] = Some (JString "x@acme").
Proof.
  destruct (path_apply_stores lib laws (parsed "name.familyName") bob "x@acme" OpAdd family_written.1
    (after family_written) eq_refl ltac:(vm_compute; discriminate) (surjective_pairing family_written))
    as [H _].
  destruct H as (v & Hv & Hl); [vm_compute; reflexivity|discriminate|].
  vm_compute in Hv. injection Hv as <-. exact Hl.
Defined.

Definition plain_lib : Lib := lib_of [("false", JBool false)].

Lemma plain_decoded text v : lib_Unmarshal plain_lib text = Some v -> well_named plain_lib v.
Proof.
  change (lib_Unmarshal plain_lib text) with (find [("false", JBool false)] text).
  unfold find. cbn [List.find fst]. destruct (String.eqb "false" text); [|done].
  intros [= <-]. constructor.
Qed.

Definition carol : object := {["active" := JBool true]}.

Lemma carol_well_named : well_named plain_lib (JObject carol).
Proof.
  unfold carol. constructor.
  - intros k k' [v [<- _]%lookup_singleton_Some] [v' [<- _]%lookup_singleton_Some] _. reflexivity.
  - intros k v [_ <-]%lookup_singleton_Some. constructor.
Qed.

Lemma Apply_keeps_names_witness : exists m',
  (Apply plain_lib (Some carol) [replace_active]).2 = Some m' /\ tidy plain_lib m'.
Proof.
  destruct (Apply_keeps_names plain_lib (laws_of _) plain_decoded [replace_active] carol carol_well_named)
    as (m' & Hm & Hg).
  - constructor; [|constructor]. intros p Hp. vm_compute in Hp. injection Hp as <-. exact I.
  - exists m'. exact (conj Hm (well_named_tidy _ _ Hg)).
Defined.

Lemma merge_deterministic_witness : exists m',
  mergePartialResource lib bob "{active:false}" mergeModeReplace = (Ret tt, m') /\
  lookup_path lib (JObject m') ["active"] = Some (JBool false).
Proof.
  destruct (merge_deterministic lib laws bob "{active:false}" mergeModeReplace) as (m' & Hr & _ & _ & _).
  - discriminate.
  - intros k k' [v [<- _]%lookup_singleton_Some] [v' [<- _]%lookup_singleton_Some] _. reflexivity.
  - exists m'. split; [exact Hr|]. vm_compute in Hr. injection Hr as <-. vm_compute. reflexivity.
Defined.

(** Two spellings of one name in one value: which one lands depends on the
    order of iteration. *)
Definition backwards : Lib := with_range lib (fun m => rev (map_to_list m)).

Example merge_order_matters :
  let value_of l := after (mergePartialResource l bob "{both}" mergeModeReplace) !! "active" in
  value_of lib <> value_of backwards.
Proof. vm_compute. discriminate. Qed.

(** What a filtered add appends when nothing matches is not resolved by name:
    a value that spells the filtered attribute otherwise makes it twice. *)
Example append_phantom :
  buildFilteredAppend lib (AttributeExpression (plain "value") EQ (VString "x")) [] "{VALUE:x}" =
  Ret (Some (<["VALUE" := JString "x"]> {["value" := JString "x"]})).
Proof. vm_compute. reflexivity. Qed.
End Toy.

(** ** What a PATCH writes to the audit log

    [RedactedOps]: which values it hides, and that it changes nothing else. *)

Section Redact.
Context (L : Lib).

(** [json.Unmarshal] refuses the empty text, and [json.Marshal] of a decoded
    object with some values overwritten by a string succeeds and is read back. *)
Hypothesis empty_text : lib_Unmarshal L "" = None.
Hypothesis marshal_reads_back : forall text v, lib_Unmarshal L text = Some (JObject v) ->
  exists t, lib_Marshal L (JObject (redact_object L v)) = Some t /\
    lib_Unmarshal L t = Some (JObject (redact_object L v)).
Hypothesis range_visits : forall m, lib_range L m ≡ₚ map_to_list m.

Lemma redact_object_lookup v k :
  redact_object L v !! k = redact_key L k <$> v !! k.
Proof. unfold redact_object. rewrite map_lookup_imap. by destruct (v !! k). Qed.

Lemma redact_object_nothing v : existsb (isSensitivePath L) (map fst (lib_range L v)) = false ->
  redact_object L v = v.
Proof.
  intros Hn. apply map_eq. intros k. rewrite redact_object_lookup.
  destruct (v !! k) as [x|] eqn:Hk; [|done]. cbn. unfold redact_key.
  destruct (isSensitivePath L k) eqn:Hs; [|done]. exfalso.
  assert (existsb (isSensitivePath L) (map fst (lib_range L v)) = true); [|congruence].
  apply existsb_exists. exists k. split; [|done]. apply list_elem_of_In.
  rewrite (range_visits v). apply list_elem_of_fmap. exists (k, x).
  split; [done|]. by apply elem_of_map_to_list.
Qed.

Lemma isSensitivePath_case p q : is_ascii p = true -> is_ascii q = true ->
  to_lower p = to_lower q -> isSensitivePath L p = isSensitivePath L q.
Proof.
  intros Hp Hq He. unfold isSensitivePath, ToLower. rewrite Hp, Hq, He.
  destruct p, q; try discriminate He; reflexivity.
Qed.

(** The audit log never sees a secret by name, and sees everything else.
    Each logged operation has the op and the path of the one applied. Where the
    path names a sensitive attribute the value is replaced; where there is no
    path and the value is an object, the logged object has the same attributes,
    the sensitive ones overwritten and the others unchanged; any other operation
    is logged as it is. What is sensitive does not depend on the case of ASCII
    letters. *)
Theorem RedactedOps_hides ops i op :
  ops !! i = Some op ->
  exists op', RedactedOps L ops !! i = Some op' /\ length (RedactedOps L ops) = length ops /\
    op_Op op' = op_Op op /\ op_Path op' = op_Path op /\
    (isSensitivePath L (op_Path op) = true -> op_Value op' = redacted_value) /\
    (forall v, op_Path op = "" -> lib_Unmarshal L (op_Value op) = Some (JObject v) ->
       exists v', lib_Unmarshal L (op_Value op') = Some (JObject v') /\
         forall k, v' !! k = (if isSensitivePath L k then (fun _ => JString "***") <$> v !! k else v !! k)) /\
    (isSensitivePath L (op_Path op) = false ->
       op_Path op <> "" \/ (forall v, lib_Unmarshal L (op_Value op) <> Some (JObject v)) -> op' = op) /\
    (forall q, is_ascii (op_Path op) = true -> is_ascii q = true ->
       to_lower q = to_lower (op_Path op) -> isSensitivePath L q = isSensitivePath L (op_Path op)).
Proof.
  intros Hop. exists (redactOp L op). unfold RedactedOps. rewrite list_lookup_fmap, Hop, length_map.
  split; [done|]. split; [done|].
  assert (op_Op (redactOp L op) = op_Op op /\ op_Path (redactOp L op) = op_Path op) as [H1 H2].
  { unfold redactOp. repeat case_match; done. }
  split_and!; [done|done| | | |by intros q ? ? ?; apply isSensitivePath_case].
  - unfold redactOp. by intros ->.
  - intros v Hp Hv. unfold redactOp. rewrite Hp. cbn [isSensitivePath String.eqb andb].
    change (isSensitivePath L "") with false. cbv iota.
    destruct (String.eqb_spec (op_Value op) "") as [He|He]; [by rewrite He, empty_text in Hv|].
    cbn [negb]. rewrite Hv. exists (redact_object L v). split.
    + destruct (existsb _ _) eqn:Hs.
      * destruct (marshal_reads_back _ _ Hv) as (t & -> & Ht). done.
      * by rewrite redact_object_nothing.
    + intros k. rewrite redact_object_lookup. unfold redact_key.
      destruct (v !! k); cbn; by destruct (isSensitivePath L k).
  - unfold redactOp. intros -> Hor. destruct (String.eqb_spec (op_Path op) "") as [He|He]; [|done].
    destruct Hor as [?|Hno]; [done|]. cbn [andb].
    destruct (negb _); [|done]. destruct (lib_Unmarshal L (op_Value op)) as [[| | | | | |v]|]; try done.
    by destruct (Hno v).
Qed.
End Redact.

(** ** At concrete inputs *)

Definition log_lib : Lib := Toy.lib_of
  [("{Password:p}", JObject (<["Password" := JString "p"]> {["title" := JString "t"]}));
   ("{Password:***}", JObject (<["Password" := JString "***"]> {["title" := JString "t"]}))].

Lemma log_lib_reads_back text v : lib_Unmarshal log_lib text = Some (JObject v) ->
  exists t, lib_Marshal log_lib (JObject (redact_object log_lib v)) = Some t /\
    lib_Unmarshal log_lib t = Some (JObject (redact_object log_lib v)).
Proof.
  unfold log_lib, Toy.lib_of. cbn [lib_Unmarshal]. unfold Toy.find. cbn [List.find fst].
  destruct (String.eqb "{Password:p}" text); [|destruct (String.eqb "{Password:***}" text); [|done]];
    intros [= <-]; exists "{Password:***}"; vm_compute; split; reflexivity.
Qed.

Definition merge_password : Operation := MkOperation OpReplace "" "{Password:p}".

Lemma RedactedOps_hides_witness : exists op' v',
  RedactedOps log_lib [merge_password] !! 0 = Some op' /\
  lib_Unmarshal log_lib (op_Value op') = Some (JObject v') /\
  v' !! "Password" = Some (JString "***") /\ v' !! "title" = Some (JString "t").
Proof.
  destruct (RedactedOps_hides log_lib eq_refl log_lib_reads_back (fun m => reflexivity _)
    [merge_password] 0 merge_password eq_refl) as (op' & Hop & _ & _ & _ & _ & Hv & _ & _).
  destruct (Hv (<["Password" := JString "p"]> {["title" := JString "t"]}) eq_refl eq_refl)
    as (v' & Hv' & Hk).
  exists op', v'. split; [exact Hop|]. split; [exact Hv'|].
  rewrite !Hk. split; vm_compute; reflexivity.
Defined.

(** [ParsePath] drops white space around a path, the redaction does not: a
    padded path writes the password and logs it. *)
Definition padded : Operation := MkOperation OpReplace " password" "x@acme".

Example padded_path_is_logged :
  RedactedOps Toy.lib [padded] = [padded] /\
  (m ← (Apply Toy.lib (Some Toy.bob) [padded]).2; m !! "password") = Some (JString "x@acme").
Proof. vm_compute. split; reflexivity. Qed.

(** A filter literal may hold a colon, and the URN is cut inside it. *)
Example urn_cut_in_filter :
  stripSchemaURN "urn:ietf:params:scim:schemas:core:2.0:Group:members[value eq urn:x]" =
  ("urn:ietf:params:scim:schemas:core:2.0:Group:members[value eq urn", "x]").
Proof. vm_compute. reflexivity. Qed.
