(* ===== verification/ScimNesting.v ===== *)
(** * Group nesting

    [src/scim/nesting.go]: the upward breadth-first walk that refuses a group
    membership which would close a cycle. *)

From S2P Require Import Prelude.
From stdpp Require Import gmap sets relations.

#[local] Open Scope string_scope.
#[local] Open Scope list_scope.

(** [ListParentGroupsOf], by member group. *)
Definition GroupMemberQueries := string -> go (list string).

Definition NestingError (message : string) : error := Errorf1 message (Sentinel scim_ErrCyclicGroup).

(** The inner loop over [parents]: [None] when the candidate is among them,
    and otherwise the visited set and queue afterwards. *)
Fixpoint visit_parents (candidate : string) (visited : gset string) (queue parents : list string)
    : option (gset string * list string) :=
  match parents with
  | [] => Some (visited, queue)
  | p :: parents =>
      if String.eqb p candidate then None
      else if negb (bool_decide (p ∈ visited))
      then visit_parents candidate ({[p]} ∪ visited) (queue ++ [p]) parents
      else visit_parents candidate visited queue parents
  end.

(** The outer loop, with a bound on its turns. *)
Fixpoint bfs (fuel : nat) (q : GroupMemberQueries) (candidate : string)
    (visited : gset string) (queue : list string) : go unit :=
  match queue with
  | [] => Ret tt
  | next :: queue =>
      match fuel with
      | O => Panic "out of fuel"
      | S fuel =>
          parents ← wrap_err (Errorf1 "scim nesting: list parents") (q next);
          match visit_parents candidate visited queue parents with
          | None => Fail (NestingError "adding member would close a cycle")
          | Some (visited, queue) => bfs fuel q candidate visited queue
          end
      end
  end.

Definition DetectCycle (fuel : nat) (q : option GroupMemberQueries) (parent candidate : string) : go unit :=
  match q with
  | None => Fail (Errorf0 "scim nesting: nil GroupMemberQueries")
  | Some q =>
      if String.eqb parent "" || String.eqb candidate ""
      then Fail (Errorf0 "scim nesting: parent and candidate are required")
      else if String.eqb parent candidate then Fail (NestingError "self-reference")
      else bfs fuel q candidate {[parent]} [parent]
  end.

(** ** The membership graph *)

Section graph.
  Context (q : GroupMemberQueries) (groups : gset string).

(** [p] contains [c] as a member. *)
Definition contains_ (p c : string) : Prop := exists ps, q c = Ret ps /\ p ∈ ps.

(** The table is readable, and it names finitely many groups. *)
Definition table_ok : Prop :=
  (forall c, exists ps, q c = Ret ps) /\ (forall p c, contains_ p c -> p ∈ groups).

(** [a] is above [c]: it contains it through one or more memberships. *)
Definition above (a c : string) : Prop := tc contains_ a c.

(** No group contains itself, however indirectly. *)
Definition acyclic : Prop := forall g, ~ above g g.

Context (Hq : table_ok).

Lemma visit_parents_Some c parents : forall visited queue visited' queue',
  visit_parents c visited queue parents = Some (visited', queue') ->
  (c ∉ parents) /\ exists new, queue' = queue ++ new /\ NoDup new /\
    (forall x, x ∈ new -> (x ∉ visited) /\ x ∈ parents) /\
    (forall x, x ∈ visited' <-> x ∈ visited \/ x ∈ parents) /\
    visited' = list_to_set new ∪ visited.
Proof.
  induction parents as [|p parents IH]; intros visited queue visited' queue'; cbn [visit_parents].
  { intros [= <- <-]. split; [set_solver|]. exists []. rewrite app_nil_r.
    split_and!; [done|constructor|set_solver|set_solver|set_solver]. }
  destruct (String.eqb_spec p c) as [|Hpc]; [done|].
  destruct (bool_decide_reflect (p ∈ visited)) as [Hin|Hin]; cbn [negb]; intros H.
  - apply IH in H as (Hc & new & -> & Hn & H1 & H2 & H3). split; [set_solver|].
    exists new. split_and!; [done|done|set_solver|set_solver|done].
  - apply IH in H as (Hc & new & -> & Hn & H1 & H2 & H3). split; [set_solver|].
    exists (p :: new). rewrite <- app_assoc.
    split_and!; [done|constructor; set_solver|set_solver|set_solver|set_solver].
Qed.

Lemma visit_parents_None c visited queue parents :
  visit_parents c visited queue parents = None <-> c ∈ parents.
Proof.
  revert visited queue. induction parents as [|p parents IH]; intros visited queue; cbn [visit_parents].
  - split; [done|]. by rewrite elem_of_nil.
  - rewrite elem_of_cons. destruct (String.eqb_spec p c) as [->|Hpc]; [naive_solver|].
    destruct (negb _); rewrite IH; naive_solver.
Qed.

(** What the loop keeps: everything visited is the start or above it, the
    queue is unexplored, and explored groups have their parents visited and
    lack the candidate. *)
Record bfs_inv (parent c : string) (visited : gset string) (queue : list string) : Prop := {
  inv_up : forall x, x ∈ visited -> x = parent \/ above x parent;
  inv_queue : forall x, x ∈ queue -> x ∈ visited;
  inv_done : forall x, x ∈ visited -> x ∉ queue -> forall p, contains_ p x -> p ∈ visited;
  inv_start : parent ∈ visited;
  inv_candidate : c ∉ visited;
  inv_nodup : NoDup queue
}.

Lemma bfs_spec parent c : forall fuel visited queue, bfs_inv parent c visited queue ->
  (length queue + size (groups ∖ visited) <= fuel)%nat ->
  (bfs fuel q c visited queue = Ret tt /\ ~ above c parent) \/
  (above c parent /\ fails_with (bfs fuel q c visited queue) scim_ErrCyclicGroup = true).
Proof.
  induction fuel as [|fuel IH]; intros visited queue Hi Hf.
  all: destruct queue as [|x queue]; cbn [bfs].
  1, 3: left; split; [done|]; intros Ha; apply (inv_candidate _ _ _ _ Hi);
    clear -Ha Hi; apply tc_rtc in Ha; revert Ha;
    enough (forall a b, rtc contains_ a b -> b ∈ visited -> a ∈ visited) as H
      by (intros Ha; eapply H; [exact Ha|apply (inv_start _ _ _ _ Hi)]);
    intros a b; induction 1 as [|a b b' Hab _ IHr]; [done|]; intros Hb;
    eapply (inv_done _ _ _ _ Hi); [by apply IHr|apply not_elem_of_nil|done].
  - cbn in Hf. lia.
  - destruct (proj1 Hq x) as [ps Hps]. rewrite Hps. cbn [wrap_err mbind go_bind].
    assert (Hx : x = parent \/ above x parent) by (apply Hi, Hi; by left).
    assert (Hup : forall p, p ∈ ps -> above p parent).
    { intros p Hp. assert (contains_ p x) as Hc by (by exists ps).
      destruct Hx as [->|Hx]; [by apply tc_once|]. by eapply tc_l. }
    destruct (visit_parents c visited queue ps) as [[visited' queue']|] eqn:Hv; cycle 1.
    { apply visit_parents_None in Hv. right. split; [by apply Hup|done]. }
    apply visit_parents_Some in Hv as (Hc & new & -> & Hn & Hnew & Hvis & Heq).
    apply IH.
    + destruct Hi as [I1 I2 I3 I4 I5 I6]. apply NoDup_cons in I6 as [I6 I7]. constructor.
      * intros y [Hy|Hy]%Hvis; [auto|]. right. by apply Hup.
      * intros y [Hy|Hy]%elem_of_app; apply Hvis; [left; set_solver|right; set_solver].
      * intros y Hy Hnq p Hp. apply Hvis. rewrite elem_of_app in Hnq.
        apply Hvis in Hy. destruct (decide (y = x)) as [->|Hne].
        { right. destruct Hp as (ps' & Hps' & Hp). congruence. }
        destruct (decide (y ∈ visited)) as [Hyv|Hyv].
        { left. eapply I3; [exact Hyv|set_solver|done]. }
        exfalso. apply Hnq. right. subst visited'. clear -Hvis Hyv Hy.
        destruct Hy as [|Hy]; [done|]. specialize (proj2 (Hvis y) (or_intror Hy)). set_solver.
      * apply Hvis. by left.
      * rewrite Hvis. by intros [?|?].
      * apply NoDup_app. split_and!; [done| |done]. intros y Hy Hy'. apply Hnew in Hy' as [Hy' _]. set_solver.
    + assert (Hg : forall y, y ∈ new -> y ∈ groups ∖ visited).
      { intros y Hy. apply Hnew in Hy as [Hy1 Hy2]. apply elem_of_difference. split; [|done].
        eapply (proj2 Hq). by exists ps. }
      assert (Hsz : (length new + size (groups ∖ visited') = size (groups ∖ visited))%nat).
      { subst visited'. rewrite <- (size_list_to_set (C := gset string) new) by done.
        rewrite <- size_union by set_solver. f_equal. apply leibniz_equiv.
        intros y. rewrite elem_of_union, !elem_of_difference, elem_of_union, elem_of_list_to_set.
        specialize (Hg y). rewrite elem_of_difference in Hg.
        destruct (decide (y ∈ new)); naive_solver. }
      rewrite length_app. cbn in Hf. lia.
Qed.

(** C19: with as many turns as there are groups, the check answers: it refuses
    a membership, with the cyclic-group error, exactly when the two groups are
    one or the candidate already contains the parent, directly or not. *)
Theorem DetectCycle_correct fuel parent candidate :
  parent <> "" -> candidate <> "" -> (S (size groups) <= fuel)%nat ->
  (DetectCycle fuel (Some q) parent candidate = Ret tt <->
     candidate <> parent /\ ~ above candidate parent) /\
  (candidate = parent \/ above candidate parent <->
     fails_with (DetectCycle fuel (Some q) parent candidate) scim_ErrCyclicGroup = true).
Proof.
  intros Hp Hc Hf. unfold DetectCycle.
  rewrite (proj2 (String.eqb_neq _ _) Hp), (proj2 (String.eqb_neq _ _) Hc). cbn [orb].
  destruct (String.eqb_spec parent candidate) as [->|Hne]; [split; [naive_solver|]; naive_solver|].
  assert (Hi : bfs_inv parent candidate {[parent]} [parent]).
  { constructor; try set_solver. apply NoDup_singleton. }
  assert (Hsz : (size (groups ∖ {[parent]}) <= size groups)%nat) by (apply subseteq_size; set_solver).
  destruct (bfs_spec parent candidate fuel {[parent]} [parent] Hi ltac:(cbn; lia)) as [[-> Hn]|[Ha Hfail]].
  - cbn. naive_solver.
  - destruct (bfs _ _ _ _ _) as [[]| |]; try done. naive_solver.
Qed.
End graph.

(** The graph with one more membership. *)
Definition add_member (q : GroupMemberQueries) (parent candidate : string) : GroupMemberQueries :=
  fun c => if String.eqb c candidate then ps ← q c; Ret (parent :: ps) else q c.

Lemma add_member_contains q p0 c0 p c : (forall c, exists ps, q c = Ret ps) ->
  contains_ (add_member q p0 c0) p c <-> contains_ q p c \/ (p = p0 /\ c = c0).
Proof.
  intros Hq. unfold contains_, add_member. destruct (Hq c) as [ps Hps].
  destruct (String.eqb_spec c c0) as [->|Hne]; rewrite Hps; cbn [mbind go_bind].
  - split.
    + intros (x & [= <-] & [->|Hp]%elem_of_cons); [by right|]. left. by exists ps.
    + intros [(x & [= <-] & Hp)|[-> _]]; eexists; (split; [done|]); by constructor.
  - naive_solver.
Qed.

(** in a table without cycles, a membership the check accepts can be
    inserted and the table still has none. *)
Theorem DetectCycle_keeps_acyclic q groups fuel parent candidate :
  table_ok q groups -> (S (size groups) <= fuel)%nat -> acyclic q ->
  DetectCycle fuel (Some q) parent candidate = Ret tt ->
  acyclic (add_member q parent candidate).
Proof.
  intros Hq Hf Hacy HD.
  assert (Hne : parent <> "" /\ candidate <> "").
  { unfold DetectCycle in HD. destruct (String.eqb_spec parent ""), (String.eqb_spec candidate ""); done. }
  destruct Hne as [Hpn Hcn].
  apply (DetectCycle_correct q groups Hq fuel parent candidate Hpn Hcn Hf) in HD as [Hne Hn].
  assert (Hsplit : forall a b, above (add_member q parent candidate) a b ->
    above q a b \/ (rtc (contains_ q) a parent /\ rtc (contains_ q) candidate b)).
  { intros a b. induction 1 as [a b Hab|a b c Hab _ IH].
    - apply add_member_contains in Hab as [Hab|[-> ->]]; [left; by apply tc_once|right; by split|apply Hq].
    - apply add_member_contains in Hab as [Hab|[-> ->]]; [| |apply Hq].
      + destruct IH as [IH|[IH1 IH2]]; [left; by eapply tc_l|right; split; [by eapply rtc_l|done]].
      + right. split; [done|]. destruct IH as [IH|[_ IH]]; [by apply tc_rtc|done]. }
  intros g [Hg|[Hg1 Hg2]]%Hsplit; [by apply (Hacy g)|].
  assert (Hcp : rtc (contains_ q) candidate parent) by (by etrans).
  apply rtc_tc in Hcp as [->|Hcp]; done.
Qed.

(** ** Witnesses *)

(** "all" contains "eng", which contains "sre". *)
Definition demo_groups : GroupMemberQueries := fun c =>
  if String.eqb c "eng" then Ret ["all"] else if String.eqb c "sre" then Ret ["eng"] else Ret [].

Lemma demo_table_ok : table_ok demo_groups {["all"; "eng"]}.
Proof.
  unfold table_ok, contains_, demo_groups. split; intros; repeat case_match; [by eexists..| | |].
  all: destruct H as (ps & [= <-] & Hp); set_solver.
Qed.

Lemma DetectCycle_correct_witness :
  above demo_groups "all" "sre" /\
  fails_with (DetectCycle 3 (Some demo_groups) "sre" "all") scim_ErrCyclicGroup = true.
Proof.
  assert (Hf : fails_with (DetectCycle 3 (Some demo_groups) "sre" "all") scim_ErrCyclicGroup = true)
    by (vm_compute; reflexivity).
  split; [|exact Hf].
  destruct (proj2 (proj2 (DetectCycle_correct demo_groups {["all"; "eng"]} demo_table_ok 3 "sre" "all"
    ltac:(discriminate) ltac:(discriminate) ltac:(vm_compute; lia))) Hf) as [H|H]; [discriminate H|exact H].
Defined.

Lemma DetectCycle_keeps_acyclic_witness :
  acyclic (add_member (fun _ => Ret []) "all" "eng").
Proof.
  assert (Hno : forall a b, ~ contains_ (fun _ => Ret []) a b)
    by (intros a b (ps & [= <-] & Hp); by apply elem_of_nil in Hp).
  apply (DetectCycle_keeps_acyclic (fun _ => Ret []) ∅ 1).
  - split; [by eexists|]. intros p c H. by destruct (Hno p c).
  - vm_compute. lia.
  - intros g H. inversion H; by eapply Hno.
  - vm_compute. reflexivity.
Defined.
