(* ===== verification/SamlReplay.v ===== *)
(** * SAML assertion replay defence

    [src/saml/replay.go], the ledger of [memstore.go] and [ParseAssertion] of
    [parse.go]: correlation of an assertion with the flow that asked for it,
    and the single-use ledger. The library that parses and verifies a response
    (crewjam/saml) is a parameter; of its [Assertion] the model keeps what the
    code reads. *)

From S2P Require Import Prelude Bytes.

#[local] Open Scope string_scope.
#[local] Open Scope list_scope.
#[local] Open Scope Z_scope.

(** Instants in nanoseconds. *)
Definition instant := Z.

(** [Subject] is nil, or its confirmations, each with the [InResponseTo] of
    its data when it has any. *)
Record Assertion := {
  as_ID : string;
  as_Issuer : string;
  as_IssueInstant : instant;
  as_Subject : option (list (option string))
}.

Record Provider := {
  pr_ID : string;
  pr_AllowIDPInitiated : bool;
  pr_maxResponseBytes : Z;
  pr_acsAbsolute : bool
}.

Definition DefaultMaxSAMLResponseBytes : Z := Z.shiftl 1 20.
(** [responseLimit]: zero means unbounded. *)
Definition pr_responseLimit (p : Provider) : Z :=
  if pr_maxResponseBytes p <? 0 then 0
  else if pr_maxResponseBytes p =? 0 then DefaultMaxSAMLResponseBytes
  else pr_maxResponseBytes p.

(** ** Correlation *)

Definition invalid (label : string) : error := Errorf1 label (Sentinel saml_ErrAssertionInvalid).
Definition uncorrelated (label : string) : error := Errorf1 label (Sentinel saml_ErrUncorrelated).

Definition confirmation_value (c : option string) : string := default "" c.

(** The loop over the confirmations after the first. *)
Fixpoint confirmations_agree (seen : string) (cs : list (option string)) : go string :=
  match cs with
  | [] => Ret seen
  | c :: cs =>
      if negb (String.eqb (confirmation_value c) seen)
      then Fail (uncorrelated "subject confirmations disagree")
      else confirmations_agree seen cs
  end.

Definition signedInResponseTo (a : Assertion) : go string :=
  match as_Subject a with
  | None | Some [] => Fail (Sentinel saml_ErrNoSubjectConfirmation)
  | Some (c :: cs) => confirmations_agree (confirmation_value c) cs
  end.

Definition correlate (a : Assertion) (expectedRequestID : string) (allowIDPInitiated : bool) : go unit :=
  got ← signedInResponseTo a;
  if negb (String.eqb expectedRequestID "") && String.eqb got expectedRequestID then Ret tt
  else if negb (String.eqb expectedRequestID "") then Fail (uncorrelated "this flow issued another request")
  else if negb (String.eqb got "") then Fail (uncorrelated "this flow issued no AuthnRequest")
  else if allowIDPInitiated then Ret tt
  else Fail (Sentinel saml_ErrIdPInitiatedDisabled).

(** ** The ledger *)

Definition nul : ascii := ascii_of_N 0.

Definition assertionReplayKey (providerID : string) (a : Assertion) : go string :=
  let id := trim_space (as_ID a) in
  if String.eqb id "" then Fail (invalid "assertion carries no ID")
  else Ret (hex (sha256 (to_bytes providerID ++ [nul] ++ to_bytes (trim_space (as_Issuer a)) ++ [nul] ++ to_bytes id))).

(** The library's timing globals. *)
Record Timing := { MaxIssueDelay : Z; MaxClockSkew : Z }.

Definition replayExpiry (tm : Timing) (a : Assertion) (now : instant) : instant :=
  let base := if now <? as_IssueInstant a then as_IssueInstant a else now in
  let exp := base + MaxIssueDelay tm + MaxClockSkew tm in
  let floor := now + MaxClockSkew tm in
  if exp <? floor then floor else exp.

(** Until the library would no longer accept the assertion, and never less than
    the skew allowance from now. *)
Lemma replayExpiry_window tm a now : replayExpiry tm a now =
  Z.max (Z.max now (as_IssueInstant a) + MaxIssueDelay tm + MaxClockSkew tm) (now + MaxClockSkew tm).
Proof. unfold replayExpiry. repeat case_match; rewrite ?Z.ltb_lt, ?Z.ltb_ge in *; lia. Qed.

(** A store that consumes keys: the port [AssertionReplayStore] with the state
    behind it. *)
Class AssertionReplayStore (S : Type) := {
  ConsumeAssertion : instant -> string -> instant -> S -> go bool * S
}.

Inductive NoReplayDefence := MkNoReplayDefence.
#[export] Instance NoReplayDefence_store : AssertionReplayStore NoReplayDefence :=
  { ConsumeAssertion := fun _ _ _ s => (Ret true, s) }.

(** [MemAssertionReplayStore]: key to expiry. *)
Record MemAssertionReplayStore := { seen : gmap string instant }.

Definition Mem_ConsumeAssertion (now : instant) (key : string) (expiresAt : instant)
    (s : MemAssertionReplayStore) : go bool * MemAssertionReplayStore :=
  let swept := filter (fun '(_, exp) => now < exp) (seen s) in
  match swept !! key with
  | Some exp =>
      if now <? exp then (Ret false, {| seen := swept |})
      else (Ret true, {| seen := <[key := expiresAt]> swept |})
  | None => (Ret true, {| seen := <[key := expiresAt]> swept |})
  end.

#[export] Instance MemAssertionReplayStore_store : AssertionReplayStore MemAssertionReplayStore :=
  { ConsumeAssertion := Mem_ConsumeAssertion }.

(** ** ParseAssertion *)

(** A panic of the library becomes an invalid assertion. *)
Definition withParseRecover {A} (m : go A) : go A :=
  match m with
  | Panic _ => Fail (invalid "parse panicked")
  | m => m
  end.

(** The clock readings of one call, in the order they are taken: by the
    library, for the expiry, and by the store. *)
Record Clock := { at_parse : instant; at_expiry : instant; at_store : instant }.

Section parse.
  Context {S : Type} `{!AssertionReplayStore S}.
  (** crewjam's [ParseResponse], at an instant, of a response and the request
      ids it may answer; and the scan for a foreign NameID (XML decoding). *)
  Context (ParseResponse : Provider -> instant -> string -> list string -> go Assertion).
  Context (rejectForeignNameID : string -> go unit).
  Context (tm : Timing).

Definition safeParseResponse (p : Provider) (now : instant) (resp : string) (possible : list string) : go Assertion :=
  withParseRecover (ParseResponse p now resp possible).

(** [st] is [None] for a provider without a replay store. *)
Definition ParseAssertion (p : option Provider) (st : option S) (clk : Clock)
    (samlResponse expectedRequestID : string) : go Assertion * option S :=
  match p with
  | None => (Fail (invalid "provider service provider is nil"), st)
  | Some p =>
      if (0 <? pr_responseLimit p) && (pr_responseLimit p <? Z.of_nat (String.length samlResponse))
      then (Fail (invalid "response too large"), st)
      else
        match rejectForeignNameID samlResponse with
        | Fail e => (Fail e, st)
        | Panic w => (Panic w, st)
        | Ret _ =>
            match st with
            | None => (Fail (Errorf1 "no assertion replay store" (Sentinel saml_ErrReplayStoreUnavailable)), st)
            | Some s =>
                let possible := if negb (String.eqb expectedRequestID "") then [expectedRequestID] else [] in
                if negb (pr_acsAbsolute p) then (Fail (invalid "acs url is not absolute"), st)
                else
                  match safeParseResponse p (at_parse clk) samlResponse possible with
                  | Fail _ => (Fail (invalid "parse"), st)
                  | Panic w => (Panic w, st)
                  | Ret a =>
                      match correlate a expectedRequestID (pr_AllowIDPInitiated p) with
                      | Fail e => (Fail e, st)
                      | Panic w => (Panic w, st)
                      | Ret _ =>
                          match assertionReplayKey (pr_ID p) a with
                          | Fail e => (Fail e, st)
                          | Panic w => (Panic w, st)
                          | Ret key =>
                              let '(fresh, s) := ConsumeAssertion (at_store clk) key
                                                   (replayExpiry tm a (at_expiry clk)) s in
                              match fresh with
                              | Fail _ => (Fail (Errorf1 "consume" (Sentinel saml_ErrReplayStoreUnavailable)), Some s)
                              | Panic w => (Panic w, Some s)
                              | Ret true => (Ret a, Some s)
                              | Ret false => (Fail (Errorf1 "replayed" (Sentinel saml_ErrAssertionReplayed)), Some s)
                              end
                          end
                      end
                  end
            end
        end
  end.
End parse.

(** ** Correlation decides the truth table *)

Lemma confirmations_agree_Ret v cs w :
  confirmations_agree v cs = Ret w <-> w = v /\ Forall (fun c => confirmation_value c = v) cs.
Proof.
  induction cs as [|c cs IH]; cbn [confirmations_agree].
  - split; [intros [= <-]; by split|by intros [-> _]].
  - rewrite Forall_cons. destruct (String.eqb_spec (confirmation_value c) v) as [Hc|Hc]; cbn [negb].
    + rewrite IH. naive_solver.
    + split; [done|]. naive_solver.
Qed.

Lemma signedInResponseTo_Ret a v :
  signedInResponseTo a = Ret v <-> exists cs, as_Subject a = Some cs /\ cs <> [] /\
    Forall (fun c => confirmation_value c = v) cs.
Proof.
  unfold signedInResponseTo. destruct (as_Subject a) as [[|c cs]|].
  - split; [done|]. naive_solver.
  - rewrite confirmations_agree_Ret. split.
    + intros [-> H]. exists (c :: cs). split_and!; [done|done|by constructor].
    + intros (? & [= <-] & _ & [Hc H]%Forall_cons). rewrite Hc. by split.
  - split; [done|]. naive_solver.
Qed.

(** an assertion is accepted for a flow exactly when its confirmations,
    of which there is at least one, all answer one request, and that is the
    request the flow issued, or none where the flow issued none and the
    provider allows IdP-initiated sign-in. In particular an assertion that
    answers a request is never accepted by a flow that issued none. *)
Theorem correlate_correct a expected allow :
  (correlate a expected allow = Ret tt <->
   exists cs v, as_Subject a = Some cs /\ cs <> [] /\
     Forall (fun c => confirmation_value c = v) cs /\ v = expected /\ (v = "" -> allow = true)) /\
  (forall cs v, as_Subject a = Some cs -> cs <> [] -> Forall (fun c => confirmation_value c = v) cs ->
     (v <> expected -> fails_with (correlate a expected allow) saml_ErrUncorrelated = true) /\
     (v = "" -> expected = "" -> allow = false ->
        fails_with (correlate a expected allow) saml_ErrIdPInitiatedDisabled = true)) /\
  (as_Subject a = None \/ as_Subject a = Some [] ->
     fails_with (correlate a expected allow) saml_ErrNoSubjectConfirmation = true).
Proof.
  unfold correlate. split_and!.
  - destruct (signedInResponseTo a) as [v|e|w] eqn:Hs; cbn [mbind go_bind].
    + pose proof Hs as Hs'. apply signedInResponseTo_Ret in Hs as (cs & Ha & Hn & Hall).
      assert (Huniq : forall v', Forall (fun c => confirmation_value c = v') cs -> v' = v).
      { intros v' H'. destruct cs as [|c cs]; [done|]. inversion Hall; inversion H'; congruence. }
      destruct (String.eqb_spec expected ""), (String.eqb_spec v expected), (String.eqb_spec v "");
        cbn [negb andb]; subst; try done.
      all: split; [intros H; try discriminate H; destruct allow; try discriminate H; by eauto 10|].
      all: intros (cs' & v' & Ha' & _ & Hall' & Hv & Hallow); rewrite Ha in Ha'; injection Ha' as <-.
      all: apply Huniq in Hall'; subst; try done. by rewrite Hallow.
    + split; [done|]. intros (cs & v & Ha & Hn & Hall & _).
      assert (signedInResponseTo a = Ret v) by (apply signedInResponseTo_Ret; eauto). congruence.
    + split; [done|]. intros (cs & v & Ha & Hn & Hall & _).
      assert (signedInResponseTo a = Ret v) by (apply signedInResponseTo_Ret; eauto). congruence.
  - intros cs v Ha Hn Hall. assert (signedInResponseTo a = Ret v) as -> by (apply signedInResponseTo_Ret; eauto).
    cbn [mbind go_bind].
    destruct (String.eqb_spec expected ""), (String.eqb_spec v expected), (String.eqb_spec v "");
      cbn [negb andb]; subst; split; intros; subst; done.
  - unfold signedInResponseTo. by intros [-> | ->].
Qed.

(** ** What ParseAssertion does on every branch *)

Section parse_facts.
  Context {S : Type} `{!AssertionReplayStore S}.
  Context (ParseResponse : Provider -> instant -> string -> list string -> go Assertion).
  Context (rejectForeignNameID : string -> go unit) (tm : Timing).

(** An accepted assertion went through every check, and its key was fresh. *)
Lemma ParseAssertion_Ret p st clk resp expected a st' :
  ParseAssertion ParseResponse rejectForeignNameID tm p st clk resp expected = (Ret a, st') ->
  exists pr s s' key, p = Some pr /\ st = Some s /\ st' = Some s' /\
    ParseResponse pr (at_parse clk) resp (if String.eqb expected "" then [] else [expected]) = Ret a /\
    correlate a expected (pr_AllowIDPInitiated pr) = Ret tt /\
    assertionReplayKey (pr_ID pr) a = Ret key /\
    ConsumeAssertion (at_store clk) key (replayExpiry tm a (at_expiry clk)) s = (Ret true, s').
Proof.
  unfold ParseAssertion. destruct p as [pr|]; [|done].
  destruct (_ && _); [done|]. destruct (rejectForeignNameID resp) as [u| |]; [|done..].
  destruct st as [s|]; [|done]. destruct (negb (pr_acsAbsolute pr)); [done|].
  unfold safeParseResponse.
  destruct (ParseResponse pr (at_parse clk) resp _) as [a0| |] eqn:Hpr; cbn [withParseRecover]; [|done..].
  destruct (correlate a0 expected (pr_AllowIDPInitiated pr)) as [[]| |] eqn:Hc; [|done..].
  destruct (assertionReplayKey (pr_ID pr) a0) as [key| |] eqn:Hk; [|done..].
  destruct (ConsumeAssertion _ _ _ _) as [[[]| |] s'] eqn:Hcons; try done.
  intros [= <- <-]. exists pr, s, s', key. split_and!; try done. by destruct (String.eqb expected "").
Qed.

(** The ledger is only reached by an assertion that correlates. *)
Lemma ParseAssertion_ledger p st clk resp expected out st' :
  ParseAssertion ParseResponse rejectForeignNameID tm p st clk resp expected = (out, st') ->
  st' = st \/ exists pr s s' a key r, p = Some pr /\ st = Some s /\ st' = Some s' /\
    (exists possible, ParseResponse pr (at_parse clk) resp possible = Ret a) /\
    correlate a expected (pr_AllowIDPInitiated pr) = Ret tt /\
    assertionReplayKey (pr_ID pr) a = Ret key /\
    ConsumeAssertion (at_store clk) key (replayExpiry tm a (at_expiry clk)) s = (r, s') /\
    (is_ret out = true -> r = Ret true).
Proof.
  unfold ParseAssertion. destruct p as [pr|]; [|by intros [= _ <-]; left].
  destruct (_ && _); [by intros [= _ <-]; left|].
  destruct (rejectForeignNameID resp) as [u| |]; [|by intros [= _ <-]; left..].
  destruct st as [s|]; [|by intros [= _ <-]; left].
  destruct (negb (pr_acsAbsolute pr)); [by intros [= _ <-]; left|].
  unfold safeParseResponse.
  destruct (ParseResponse pr (at_parse clk) resp _) as [a0| |] eqn:Hpr; cbn [withParseRecover];
    [|by intros [= _ <-]; left..].
  destruct (correlate a0 expected (pr_AllowIDPInitiated pr)) as [[]| |] eqn:Hc; [|by intros [= _ <-]; left..].
  destruct (assertionReplayKey (pr_ID pr) a0) as [key| |] eqn:Hk; [|by intros [= _ <-]; left..].
  destruct (ConsumeAssertion _ _ _ _) as [r s'] eqn:Hcons.
  intros H. right. exists pr, s, s', a0, key, r.
  destruct r as [[]| |]; injection H as <- <-; split_and!; try done; by eexists.
Qed.
End parse_facts.

(** ** Single use *)

Record Call := { cl_provider : option Provider; cl_clock : Clock; cl_response : string; cl_expected : string }.

Section single_use.
  Context (ParseResponse : Provider -> instant -> string -> list string -> go Assertion).
  Context (rejectForeignNameID : string -> go unit) (tm : Timing).
  (** crewjam rejects an assertion whose issue instant is more than
      [MaxIssueDelay] in the past. *)
  Context (library_window : forall p now resp possible a,
    ParseResponse p now resp possible = Ret a -> now <= as_IssueInstant a + MaxIssueDelay tm).

Local Abbreviation parse := (ParseAssertion ParseResponse rejectForeignNameID tm).

(** Calls against one ledger, in the order they reach it. *)
Fixpoint run (st : option MemAssertionReplayStore) (calls : list Call) : list (go Assertion) :=
  match calls with
  | [] => []
  | c :: calls =>
      let '(out, st) := parse (cl_provider c) st (cl_clock c) (cl_response c) (cl_expected c) in
      out :: run st calls
  end.

(** No call stalls between the library's check and the ledger for as long as
    the clock skew allowance, and the store's clock does not run backwards. *)
Definition prompt (c : Call) : Prop :=
  at_parse (cl_clock c) <= at_expiry (cl_clock c) <= at_store (cl_clock c) /\
  at_store (cl_clock c) < at_parse (cl_clock c) + MaxClockSkew tm.

Lemma Mem_Consume_keeps now k exp s r s' key e :
  Mem_ConsumeAssertion now k exp s = (r, s') -> seen s !! key = Some e -> now < e ->
  seen s' !! key = Some e /\ (k = key -> r = Ret false).
Proof.
  unfold Mem_ConsumeAssertion. intros H Hk He.
  assert (Hsw : filter (fun '(_, exp) => now < exp) (seen s) !! key = Some e)
    by (apply map_lookup_filter_Some; done).
  destruct (decide (k = key)) as [->|Hne].
  - rewrite Hsw in H. rewrite (proj2 (Z.ltb_lt _ _) He) in H. by injection H as <- <-.
  - repeat case_match; injection H as <- <-; cbn [seen]; rewrite ?lookup_insert_ne by done; done.
Qed.

Lemma Mem_Consume_fresh now k exp s s' :
  Mem_ConsumeAssertion now k exp s = (Ret true, s') -> seen s' !! k = Some exp.
Proof.
  unfold Mem_ConsumeAssertion. repeat case_match; intros [= <-]; cbn [seen]; by rewrite lookup_insert_eq.
Qed.

(** While a key is live in the ledger, no call is accepted under it. *)
Lemma live_key_blocks key e : forall calls s,
  seen s !! key = Some e ->
  StronglySorted (fun c d => at_store (cl_clock c) <= at_store (cl_clock d)) calls ->
  forall j c a p, calls !! j = Some c -> at_store (cl_clock c) < e ->
    cl_provider c = Some p -> assertionReplayKey (pr_ID p) a = Ret key ->
    run (Some s) calls !! j <> Some (Ret a).
Proof.
  induction calls as [|d calls IH]; intros s Hs Hsort j c a p Hj Hlt Hp Hkey; [done|].
  inversion Hsort as [|? ? Hsort' Hall]; subst. cbn [run].
  assert (Hd : at_store (cl_clock d) < e).
  { destruct j as [|j]; [by injection Hj as ->|]. rewrite List.Forall_forall in Hall.
    assert (In c calls) by (apply list_elem_of_In; by eapply list_elem_of_lookup_2).
    specialize (Hall c ltac:(done)). cbn in Hall. lia. }
  destruct (parse _ _ _ _ _) as [out st'] eqn:Hrun.
  pose proof (ParseAssertion_ledger _ _ _ _ _ _ _ _ _ _ Hrun) as Hled.
  assert (Hst : exists s', st' = Some s' /\ seen s' !! key = Some e).
  { destruct Hled as [->|(pr & s0 & s' & a' & k & r & _ & [= <-] & -> & _ & _ & _ & Hc & _)]; [by exists s|].
    exists s'. split; [done|]. by eapply Mem_Consume_keeps. }
  destruct Hst as (s' & -> & Hs').
  destruct j as [|j]; cbn; [|by eapply IH].
  injection Hj as ->. intros [= ->].
  apply ParseAssertion_Ret in Hrun as (pr & s0 & s1 & k & Hp' & [= <-] & _ & _ & _ & Hk & Hc).
  rewrite Hp in Hp'. injection Hp' as <-. rewrite Hkey in Hk. injection Hk as <-.
  destruct (Mem_Consume_keeps _ _ _ _ _ _ key e Hc Hs Hd) as [_ Hr]. specialize (Hr eq_refl). congruence.
Qed.

(** C8: over any sequence of calls that share one in-memory ledger, no
    assertion is accepted twice by a provider, whatever response carried it
    and whichever flow it answered, as long as no call stalls for the skew
    allowance between the library's timing check and the ledger. *)
Theorem assertion_accepted_once calls i j c d p a s :
  StronglySorted (fun c d => at_store (cl_clock c) <= at_store (cl_clock d)) calls ->
  Forall prompt calls -> (i < j)%nat ->
  calls !! i = Some c -> calls !! j = Some d -> cl_provider c = Some p -> cl_provider d = Some p ->
  run (Some s) calls !! i = Some (Ret a) -> run (Some s) calls !! j <> Some (Ret a).
Proof.
  revert i j s. induction calls as [|x calls IH]; intros i j s Hsort Hprompt Hij Hi Hj Hc Hd Hri; [done|].
  destruct j as [|j]; [lia|]. cbn [run] in *.
  inversion Hsort as [|? ? Hsort' Hall]; subst. apply Forall_cons in Hprompt as [Hx Hprompt].
  destruct (parse _ _ _ _ _) as [out st'] eqn:Hrun.
  pose proof (ParseAssertion_ledger _ _ _ _ _ _ _ _ _ _ Hrun) as Hled.
  assert (Hst : exists s', st' = Some s').
  { destruct Hled as [->|(? & ? & s' & ? & ? & ? & _ & _ & -> & _)]; by eexists. }
  destruct Hst as [s' ->]. destruct i as [|i]; cbn in Hri |- *.
  - injection Hi as ->. injection Hri as ->.
    apply ParseAssertion_Ret in Hrun as (pr & s0 & s1 & key & Hp & [= <-] & [= <-] & Hlib & _ & Hk & Hcons).
    rewrite Hc in Hp. injection Hp as <-. cbn in Hj. intros Hrj.
    assert (Hdj : d ∈ calls) by (by eapply list_elem_of_lookup_2).
    assert (Hlate : as_IssueInstant a + MaxIssueDelay tm + MaxClockSkew tm <= at_store (cl_clock d)).
    { destruct (Z.le_gt_cases (replayExpiry tm a (at_expiry (cl_clock c))) (at_store (cl_clock d))) as [Hle|Hgt].
      - unfold replayExpiry in Hle. repeat case_match; bool_simpl; rewrite ?Z.ltb_lt, ?Z.ltb_ge in *; lia.
      - exfalso. refine (live_key_blocks key _ calls s' (Mem_Consume_fresh _ _ _ _ _ Hcons) Hsort' j d a p Hj _ Hd Hk Hrj).
        lia. }
    rewrite Forall_forall in Hprompt. destruct (Hprompt d Hdj) as [_ Hstall].
    assert (Hparse : at_parse (cl_clock d) <= as_IssueInstant a + MaxIssueDelay tm).
    { clear -Hrj Hj library_window. revert s' j Hj Hrj.
      induction calls as [|y calls IH]; intros s' j Hj Hrj; [done|]. cbn [run] in Hrj.
      destruct (parse _ _ _ _ _) as [out st'] eqn:Hrun. destruct j as [|j]; cbn in *.
      - injection Hj as ->. injection Hrj as ->.
        apply ParseAssertion_Ret in Hrun as (? & ? & ? & ? & _ & _ & _ & Hlib & _).
        by eapply library_window.
      - destruct (ParseAssertion_ledger _ _ _ _ _ _ _ _ _ _ Hrun) as [->|(? & ? & s2 & ? & ? & ? & _ & _ & -> & _)];
          by eapply IH. }
    lia.
  - by eapply (IH i j s'); eauto with lia.
Qed.
End single_use.

(** ** Witnesses *)

Definition demo_assertion : Assertion :=
  {| as_ID := "_a1"; as_Issuer := "https://idp.test"; as_IssueInstant := 100; as_Subject := Some [None] |}.
Definition demo_provider : Provider :=
  {| pr_ID := "okta"; pr_AllowIDPInitiated := true; pr_maxResponseBytes := 0; pr_acsAbsolute := true |}.
Definition demo_timing : Timing := {| MaxIssueDelay := 90; MaxClockSkew := 180 |}.
Definition demo_library (p : Provider) (now : instant) (resp : string) (possible : list string) : go Assertion :=
  if now <=? 190 then Ret demo_assertion else Fail (AppError "expired").
Definition demo_call (t : instant) : Call :=
  {| cl_provider := Some demo_provider;
     cl_clock := {| at_parse := t; at_expiry := t; at_store := t |};
     cl_response := "<Response/>"; cl_expected := "" |}.

Lemma demo_library_window p now resp possible a :
  demo_library p now resp possible = Ret a -> now <= as_IssueInstant a + MaxIssueDelay demo_timing.
Proof. unfold demo_library. destruct (Z.leb_spec now 190); [|done]. intros [= <-]. cbn. lia. Qed.

Lemma demo_first_accepted :
  run demo_library (fun _ => Ret tt) demo_timing (Some {| seen := ∅ |}) [demo_call 110; demo_call 120] !! 0%nat =
  Some (Ret demo_assertion).
Proof. reflexivity. Qed.

Lemma assertion_accepted_once_witness :
  run demo_library (fun _ => Ret tt) demo_timing (Some {| seen := ∅ |}) [demo_call 110; demo_call 120] !! 1%nat
    <> Some (Ret demo_assertion).
Proof.
  refine (assertion_accepted_once demo_library (fun _ => Ret tt) demo_timing demo_library_window
    [demo_call 110; demo_call 120] 0 1 (demo_call 110) (demo_call 120) demo_provider demo_assertion {| seen := ∅ |} _ _ _
    eq_refl eq_refl eq_refl eq_refl demo_first_accepted).
  - repeat constructor; cbn; lia.
  - repeat constructor; cbn; lia.
  - lia.
Defined.
