(* ===== verification/SamlProvider.v ===== *)
(** * SAML providers

    [src/saml/provider.go] and [builder.go] (building providers and
    registries), [pem.go], [authn_request.go], the provider table of
    [memstore.go], the options and the build of [manager.go], and the readers
    of a verified assertion ([assertion.go], the end of [parse.go]).
    crewjam/saml, [net/url], [encoding/pem] and [crypto/x509] are the record
    [Crewjam]. *)

From S2P Require Import Prelude Tenant Bytes World Crypto Secrets IdpManager IdpRegistry IdpCache IdpSecrets.

#[local] Open Scope string_scope.
#[local] Open Scope list_scope.
#[local] Open Scope Z_scope.

(** ** Records and definitions (store.go, manager.go) *)

Record ProviderRecord := MkRecord {
  pr_ID : string;
  pr_IdPMetadataURL : string;
  pr_EntityID : string;
  pr_ACSURL : string;
  pr_SPSigningCertPEM : string;
  pr_SealedSigningKey : bytes;
  pr_AttributeMappingGroups : string;
  pr_AttributeMappingEmail : string;
  pr_AttributeMappingName : string;
  pr_DisplayName : string;
  pr_Enabled : bool;
  pr_CreatedAt : time;
  pr_UpdatedAt : time
}.

Record ProviderDefinition := MkDefinition {
  pd_ID : string;
  pd_IdPMetadataURL : string;
  pd_EntityID : string;
  pd_ACSURL : string;
  pd_SPSigningCertPEM : string;
  pd_SPSigningKey : string;
  pd_AttributeMappingGroups : string;
  pd_AttributeMappingEmail : string;
  pd_AttributeMappingName : string;
  pd_DisplayName : string;
  pd_Enabled : bool;
  pd_CreatedAt : time;
  pd_UpdatedAt : time
}.

Definition record_of (d : ProviderDefinition) (sealed : bytes) : ProviderRecord :=
  MkRecord (pd_ID d) (pd_IdPMetadataURL d) (pd_EntityID d) (pd_ACSURL d) (pd_SPSigningCertPEM d) sealed
    (pd_AttributeMappingGroups d) (pd_AttributeMappingEmail d) (pd_AttributeMappingName d)
    (pd_DisplayName d) (pd_Enabled d) (pd_CreatedAt d) (pd_UpdatedAt d).
Definition opened (r : ProviderRecord) (key : string) : ProviderDefinition :=
  MkDefinition (pr_ID r) (pr_IdPMetadataURL r) (pr_EntityID r) (pr_ACSURL r) (pr_SPSigningCertPEM r) key
    (pr_AttributeMappingGroups r) (pr_AttributeMappingEmail r) (pr_AttributeMappingName r)
    (pr_DisplayName r) (pr_Enabled r) (pr_CreatedAt r) (pr_UpdatedAt r).
Definition with_times (c u : time) (r : ProviderRecord) : ProviderRecord :=
  MkRecord (pr_ID r) (pr_IdPMetadataURL r) (pr_EntityID r) (pr_ACSURL r) (pr_SPSigningCertPEM r)
    (pr_SealedSigningKey r) (pr_AttributeMappingGroups r) (pr_AttributeMappingEmail r)
    (pr_AttributeMappingName r) (pr_DisplayName r) (pr_Enabled r) c u.
Definition with_sealed (s : bytes) (u : time) (r : ProviderRecord) : ProviderRecord :=
  MkRecord (pr_ID r) (pr_IdPMetadataURL r) (pr_EntityID r) (pr_ACSURL r) (pr_SPSigningCertPEM r)
    s (pr_AttributeMappingGroups r) (pr_AttributeMappingEmail r)
    (pr_AttributeMappingName r) (pr_DisplayName r) (pr_Enabled r) (pr_CreatedAt r) u.

#[export] Instance saml_shape : Shape ProviderRecord ProviderDefinition := {
  rec_ID := pr_ID; rec_sealed := pr_SealedSigningKey; rec_DisplayName := pr_DisplayName;
  rec_Enabled := pr_Enabled; rec_CreatedAt := pr_CreatedAt; rec_UpdatedAt := pr_UpdatedAt;
  set_sealed := with_sealed; set_times := with_times;
  def_ID := pd_ID; def_secret := pd_SPSigningKey;
  def_set_times c u d := MkDefinition (pd_ID d) (pd_IdPMetadataURL d) (pd_EntityID d) (pd_ACSURL d)
    (pd_SPSigningCertPEM d) (pd_SPSigningKey d) (pd_AttributeMappingGroups d)
    (pd_AttributeMappingEmail d) (pd_AttributeMappingName d) (pd_DisplayName d) (pd_Enabled d) c u;
  recordFromDefinition := record_of; definition_of := opened;
  errNoKeySet := Sentinel saml_ErrNoKeySet; errProviderExists := Sentinel saml_ErrProviderExists;
  errProviderNotFound := Sentinel saml_ErrProviderNotFound
}.
#[export] Instance saml_shape_laws : ShapeLaws saml_shape.
Proof. split; try done; by intros []. Qed.

(** ** The reference store (memstore.go) *)

Module MemProviderStore.
Record store := MkStore { recs : gmap string ProviderRecord }.
Definition NewMemProviderStore : store := MkStore ∅.

Definition sort_key (r : ProviderRecord) : list string := [pr_DisplayName r; pr_ID r].
Definition sortedLocked (keep : ProviderRecord -> bool) (s : store) : list ProviderRecord :=
  sort_by sort_key (List.filter keep (map snd (map_to_list (recs s)))).

Definition InsertProvider (rec : ProviderRecord) (s : store) : go unit * store :=
  match recs s !! pr_ID rec with
  | Some _ => (Fail (Sentinel saml_ErrProviderExists), s)
  | None => (Ret tt, MkStore (<[pr_ID rec := rec]> (recs s)))
  end.
Definition GetProvider (id : string) (s : store) : go ProviderRecord * store :=
  match recs s !! id with
  | None => (Fail (Sentinel saml_ErrProviderNotFound), s)
  | Some rec => (Ret rec, s)
  end.
Definition ListProviders (s : store) : go (list ProviderRecord) * store :=
  (Ret (sortedLocked (fun _ => true) s), s).
(** The tenant is not looked at. *)
Definition ListEnabledProviders (tenantID : ID) (s : store) : go (list ProviderRecord) * store :=
  (Ret (sortedLocked pr_Enabled s), s).
Definition UpdateProvider (rec : ProviderRecord) (s : store) : go unit * store :=
  match recs s !! pr_ID rec with
  | None => (Fail (Sentinel saml_ErrProviderNotFound), s)
  | Some existing =>
      (Ret tt, MkStore (<[pr_ID rec := with_times (pr_CreatedAt existing) (pr_UpdatedAt rec) rec]> (recs s)))
  end.
Definition UpdateProviderSealedKey (id : string) (sealed : bytes) (updatedAt : time) (s : store)
    : go unit * store :=
  match recs s !! id with
  | None => (Fail (Sentinel saml_ErrProviderNotFound), s)
  | Some rec => (Ret tt, MkStore (<[id := with_sealed sealed updatedAt rec]> (recs s)))
  end.
Definition DeleteProvider (id : string) (s : store) : go unit * store :=
  (Ret tt, MkStore (delete id (recs s))).

Definition port : ProviderStore store ProviderRecord := {|
  IdpManager.InsertProvider := InsertProvider; IdpManager.GetProvider := GetProvider;
  IdpManager.ListProviders := ListProviders; IdpManager.ListEnabledProviders := ListEnabledProviders;
  IdpManager.UpdateProvider := UpdateProvider;
  IdpManager.UpdateProviderSealed := UpdateProviderSealedKey;
  IdpManager.DeleteProvider := DeleteProvider
|}.
End MemProviderStore.

(** ** Providers (provider.go, builder.go) *)

(** The library. [EntityDescriptor] is an identity provider's metadata, [URL] a
    parsed address, [AuthnRequest] a request with its ID. [x509_key] is the
    parser of a PEM block of that type, and [as_Signer] the type assertion on
    what it parsed. *)
Record Crewjam (Entity URL Cert AnyKey Signer : Type) := {
  url_Parse : string -> go URL;
  url_IsAbs : URL -> bool;
  url_Host : URL -> string;
  pem_Decode : bytes -> option (string * bytes);
  x509_ParseCertificate : bytes -> go Cert;
  ParsePKCS1PrivateKey : bytes -> go AnyKey;
  ParseECPrivateKey : bytes -> go AnyKey;
  ParsePKCS8PrivateKey : bytes -> go AnyKey;
  as_Signer : AnyKey -> option Signer
}.
Arguments url_Parse {_ _ _ _ _} _.
Arguments url_IsAbs {_ _ _ _ _} _.
Arguments url_Host {_ _ _ _ _} _.
Arguments pem_Decode {_ _ _ _ _} _.
Arguments x509_ParseCertificate {_ _ _ _ _} _.
Arguments ParsePKCS1PrivateKey {_ _ _ _ _} _.
Arguments ParseECPrivateKey {_ _ _ _ _} _.
Arguments ParsePKCS8PrivateKey {_ _ _ _ _} _.
Arguments as_Signer {_ _ _ _ _} _.

(** The loop of [ValidateRequestID], on the unsigned [InResponseTo]. *)
Definition ValidateRequestID (inResponseTo : string) (possibleRequestIDs : list string) : go unit :=
  match possibleRequestIDs with
  | [] => Ret tt
  | _ =>
      if existsb (fun id => negb (String.eqb id "") && String.eqb inResponseTo id) possibleRequestIDs then Ret tt
      else Fail (Errorf0 "InResponseTo does not answer this flow's AuthnRequest")
  end.

Definition EmailAddressNameIDFormat : string := "urn:oasis:names:tc:SAML:1.1:nameid-format:emailAddress".

Section Providers.
Context {Entity URL Cert AnyKey Signer Replay : Type}.
Context (lib : Crewjam Entity URL Cert AnyKey Signer).

Record ProviderConfig := MkConfig {
  pc_ID : string;
  pc_IdPMetadataURL : string;
  pc_EntityID : string;
  pc_ACSURL : string;
  pc_MetadataURL : string;
  pc_SPCert : option Cert;
  pc_SPKey : option Signer;
  pc_DisplayName : string;
  pc_AttributeMappingGroups : string;
  pc_AttributeMappingEmail : string;
  pc_AttributeMappingName : string;
  pc_AllowIDPInitiated : bool;
  pc_SkewTolerance : Z
}.

(** crewjam's [ServiceProvider], the fields the code sets. *)
Record ServiceProvider := MkSP {
  sp_EntityID : string;
  sp_Key : Signer;
  sp_Certificate : Cert;
  sp_MetadataURL : URL;
  sp_AcsURL : URL;
  sp_IDPMetadata : Entity;
  sp_AllowIDPInitiated : bool;
  sp_ValidateRequestID : string -> list string -> go unit;
  sp_AuthnNameIDFormat : string
}.

Record Provider := MkProvider {
  p_Config : ProviderConfig;
  p_SP : ServiceProvider;
  p_maxResponseBytes : Z;
  p_replay : Replay
}.
Abbreviation ProviderOption := (Provider -> Provider).

(** [replay] is nil when [None]. *)
Definition BuildProvider (cfg : ProviderConfig) (idpMetadata : Entity) (replay : option Replay)
    (opts : list ProviderOption) : go Provider :=
  if String.eqb (pc_ID cfg) "" then Fail (Errorf0 "provider id is required")
  else match replay with
  | None => Fail (Errorf0 "an AssertionReplayStore is required")
  | Some replay =>
      if negb (validProviderID (pc_ID cfg)) then Fail (Errorf0 "provider id is not a URL-safe path segment")
      else match pc_SPCert cfg, pc_SPKey cfg with
      | None, _ => Fail (Errorf0 "sp_cert is required")
      | _, None => Fail (Errorf0 "sp_key is required")
      | Some cert, Some key =>
          if String.eqb (pc_ACSURL cfg) "" then Fail (Errorf0 "acs_url is required")
          else
            acs ← wrap_err (Errorf1 "parse acs_url") (url_Parse lib (pc_ACSURL cfg));
            if negb (url_IsAbs lib acs) || String.eqb (url_Host lib acs) "" then
              Fail (Errorf0 "acs_url must be an absolute URL with a host")
            else if String.eqb (pc_MetadataURL cfg) "" then Fail (Errorf0 "metadata_url is required")
            else
              metadataURL ← wrap_err (Errorf1 "parse metadata_url") (url_Parse lib (pc_MetadataURL cfg));
              Ret (fold_left (fun p opt => opt p) opts
                (MkProvider cfg
                  (MkSP (pc_EntityID cfg) key cert metadataURL acs idpMetadata true ValidateRequestID
                    EmailAddressNameIDFormat) 0 replay))
      end
  end.

Definition ParseCertPEM (pemStr : string) : go Cert :=
  match pem_Decode lib (to_bytes pemStr) with
  | None => Fail (Errorf0 "no PEM block found")
  | Some (block, content) =>
      if negb (String.eqb block "CERTIFICATE") then Fail (Errorf0 "expected CERTIFICATE PEM block")
      else x509_ParseCertificate lib content
  end.

Definition ParsePrivateKeyPEM (pemStr : string) : go AnyKey :=
  match pem_Decode lib (to_bytes pemStr) with
  | None => Fail (Errorf0 "no PEM block found")
  | Some (block, content) =>
      if String.eqb block "RSA PRIVATE KEY" then ParsePKCS1PrivateKey lib content
      else if String.eqb block "EC PRIVATE KEY" then ParseECPrivateKey lib content
      else if String.eqb block "PRIVATE KEY" then ParsePKCS8PrivateKey lib content
      else Fail (Errorf0 "unsupported PEM block type")
  end.

(** A fetch goes over the network: its answer may differ from time to time. *)
Abbreviation MetadataFetcher := (trace -> string -> go Entity).

Section Build.
Context {S : Type} (default_fetcher : MetadataFetcher).
Local Abbreviation M := (M S).

(** One turn of the loop of [BuildRegistryFromConfigs]. *)
Definition fetch_and_build (fetcher : MetadataFetcher) (replay : option Replay) (cfg : ProviderConfig)
    : M Provider :=
  entity ← wrap (Errorf1 "provider")
    (r ← observe (EvHook "metadata") (fun tr => fetcher tr (pc_IdPMetadataURL cfg)); lift r);
  lift (BuildProvider cfg entity replay []).

Definition BuildRegistryFromConfigs (configs : list ProviderConfig) (fetcher : option MetadataFetcher)
    (partialOK : bool) (replay : option Replay) : M (option (ProviderRegistry Provider)) :=
  build_registry pc_ID (fetch_and_build (default default_fetcher fetcher) replay) configs partialOK.
End Build.

Definition saml_Get : option (ProviderRegistry Provider) -> string -> go Provider :=
  Registry_Get saml_ErrUnknownProvider.
Definition saml_List : option (ProviderRegistry Provider) -> go (list ProviderSummary) :=
  Registry_List (fun p => pc_DisplayName (p_Config p)).

(** ** The manager (manager.go) *)

Record options := MkOptions {
  o_fetcher : option MetadataFetcher;
  o_spMetadataURL : option (string -> string -> string);
  o_spMetadataURLForTenant : option (ID -> string -> string -> string);
  o_allowIDPInitiated : bool;
  o_skewTolerance : Z;
  o_replay : option Replay;
  o_ttl : Z;
  o_inherit : option (Store * Inheritance)
}.
Abbreviation ManagerOption := (options -> options).

Definition WithTTL (d : Z) : ManagerOption := fun o =>
  MkOptions (o_fetcher o) (o_spMetadataURL o) (o_spMetadataURLForTenant o) (o_allowIDPInitiated o)
    (o_skewTolerance o) (o_replay o) d (o_inherit o).
Definition WithMetadataFetcher (fn : option MetadataFetcher) : ManagerOption := fun o =>
  match fn with
  | Some _ => MkOptions fn (o_spMetadataURL o) (o_spMetadataURLForTenant o) (o_allowIDPInitiated o)
      (o_skewTolerance o) (o_replay o) (o_ttl o) (o_inherit o)
  | None => o
  end.
Definition WithSPMetadataURL (fn : option (string -> string -> string)) : ManagerOption := fun o =>
  match fn with
  | Some _ => MkOptions (o_fetcher o) fn (o_spMetadataURLForTenant o) (o_allowIDPInitiated o)
      (o_skewTolerance o) (o_replay o) (o_ttl o) (o_inherit o)
  | None => o
  end.
Definition WithSPMetadataURLForTenant (fn : option (ID -> string -> string -> string)) : ManagerOption := fun o =>
  match fn with
  | Some _ => MkOptions (o_fetcher o) (o_spMetadataURL o) fn (o_allowIDPInitiated o)
      (o_skewTolerance o) (o_replay o) (o_ttl o) (o_inherit o)
  | None => o
  end.
Definition WithAllowIDPInitiated (v : bool) : ManagerOption := fun o =>
  MkOptions (o_fetcher o) (o_spMetadataURL o) (o_spMetadataURLForTenant o) v
    (o_skewTolerance o) (o_replay o) (o_ttl o) (o_inherit o).
Definition WithSkewTolerance (d : Z) : ManagerOption := fun o =>
  MkOptions (o_fetcher o) (o_spMetadataURL o) (o_spMetadataURLForTenant o) (o_allowIDPInitiated o)
    d (o_replay o) (o_ttl o) (o_inherit o).
Definition WithAssertionReplayStore (s : option Replay) : ManagerOption := fun o =>
  MkOptions (o_fetcher o) (o_spMetadataURL o) (o_spMetadataURLForTenant o) (o_allowIDPInitiated o)
    (o_skewTolerance o) s (o_ttl o) (o_inherit o).
Definition WithInheritance (s : option Store) (allow : option Inheritance) : ManagerOption := fun o =>
  match s, allow with
  | Some s, Some allow => MkOptions (o_fetcher o) (o_spMetadataURL o) (o_spMetadataURLForTenant o)
      (o_allowIDPInitiated o) (o_skewTolerance o) (o_replay o) (o_ttl o) (Some (s, allow))
  | _, _ => o
  end.

(** Neither mapping set was refused before. *)
Definition spMetadataFor (o : options) (tenantID : ID) (providerID acsURL : string) : go string :=
  match o_spMetadataURLForTenant o, o_spMetadataURL o with
  | Some fn, _ => Ret (fn tenantID providerID acsURL)
  | None, Some fn => Ret (fn providerID acsURL)
  | None, None => Panic "nil function call"
  end.

(** The configurations of the records; a record whose certificate or key does
    not parse is left out. *)
Fixpoint configs_of (o : options) (keys : option KeySet) (tenantID : ID) (recs : list ProviderRecord)
    : go (list ProviderConfig) :=
  match recs with
  | [] => Ret []
  | rec :: recs =>
      d ← definitionFromRecord keys rec;
      match ParseCertPEM (pd_SPSigningCertPEM d), ParsePrivateKeyPEM (pd_SPSigningKey d) with
      | Panic why, _ => Panic why
      | Fail _, _ => configs_of o keys tenantID recs
      | Ret _, Panic why => Panic why
      | Ret _, Fail _ => configs_of o keys tenantID recs
      | Ret cert, Ret key =>
          match as_Signer lib key with
          | None => configs_of o keys tenantID recs
          | Some signer =>
              metadata ← spMetadataFor o tenantID (pd_ID d) (pd_ACSURL d);
              rest ← configs_of o keys tenantID recs;
              Ret (MkConfig (pd_ID d) (pd_IdPMetadataURL d) (pd_EntityID d) (pd_ACSURL d) metadata
                (Some cert) (Some signer) (pd_DisplayName d) (pd_AttributeMappingGroups d)
                (pd_AttributeMappingEmail d) (pd_AttributeMappingName d) (o_allowIDPInitiated o)
                (o_skewTolerance o) :: rest)
          end
      end
  end.

Section Manager.
Context {S : Type} (default_fetcher : MetadataFetcher).
Local Abbreviation Registry := (ProviderRegistry Provider).

(** [buildAndStoreLocked] up to the store into the cache. *)
Definition saml_build (o : options) (keys : option KeySet) (tenantID : ID) (recs : list ProviderRecord)
    : M (mstate S Registry) (option Registry) :=
  match recs with
  | [] => mret None
  | _ =>
      match o_spMetadataURL o, o_spMetadataURLForTenant o with
      | None, None => fail (Errorf0 "manager has no SP-metadata-URL mapping")
      | _, _ =>
          match o_replay o with
          | None => fail (Errorf0 "manager has no assertion replay store")
          | Some replay =>
              configs ← lift (configs_of o keys tenantID recs);
              match configs with
              | [] => mret None
              | _ => wrap (Errorf1 "build registry")
                  (BuildRegistryFromConfigs default_fetcher configs (o_fetcher o) true (Some replay))
              end
          end
      end
  end.

(** [range_order] is the order in which [range] visits the map. *)
Definition NewManager
    (range_order : gmap ID (cachedRegistry Registry) -> list (ID * cachedRegistry Registry))
    (store : ProviderStore S ProviderRecord) (keys : option KeySet) (opts : list ManagerOption)
    : Manager (Rec := ProviderRecord) :=
  let o := fold_left (fun o opt => opt o) opts (MkOptions None None None false 0 None 0 None) in
  {| mg_store := store; mg_keys := keys; mg_ttl := o_ttl o; mg_inherit := o_inherit o;
     mg_build := saml_build o keys; mg_range := range_order |}.
End Manager.
End Providers.

(** ** What a provider and a registry are *)

Section Built.
Context {Entity URL Cert AnyKey Signer Replay S : Type} (lib : Crewjam Entity URL Cert AnyKey Signer).
Local Abbreviation Provider := (Provider (Entity := Entity) (URL := URL) (Cert := Cert) (Signer := Signer) (Replay := Replay)).
Local Abbreviation ProviderConfig := (ProviderConfig (Cert := Cert) (Signer := Signer)).
Implicit Types (p : Provider) (cfg : ProviderConfig) (w : world S).

(** [p] was built for [cfg] with the ledger [replay]: it speaks for the
    configured entity with its own key, under an absolute assertion consumer
    address, leaves the request check to the code, asks for a stable NameID, and
    bounds responses by the default. *)
Record built_for (fetcher : trace -> string -> go Entity) (replay : Replay) cfg p : Prop := {
  bf_config : p_Config p = cfg;
  bf_id : validProviderID (pc_ID cfg) = true;
  bf_replay : p_replay p = replay;
  bf_limit : p_maxResponseBytes p = 0;
  bf_key : pc_SPKey cfg = Some (sp_Key (p_SP p)) /\ pc_SPCert cfg = Some (sp_Certificate (p_SP p)) /\
    sp_EntityID (p_SP p) = pc_EntityID cfg;
  bf_acs : url_Parse lib (pc_ACSURL cfg) = Ret (sp_AcsURL (p_SP p)) /\
    url_IsAbs lib (sp_AcsURL (p_SP p)) = true /\ url_Host lib (sp_AcsURL (p_SP p)) <> "";
  bf_metadata : exists tr, fetcher tr (pc_IdPMetadataURL cfg) = Ret (sp_IDPMetadata (p_SP p));
  bf_format : sp_AuthnNameIDFormat (p_SP p) = EmailAddressNameIDFormat
}.

Lemma built_provider_Ret fetcher tr cfg entity replay p :
  fetcher tr (pc_IdPMetadataURL cfg) = Ret entity ->
  BuildProvider lib cfg entity (Some replay) [] = Ret p -> built_for fetcher replay cfg p.
Proof.
  intros Hf. unfold BuildProvider. repeat (case_match; [done|]).
  destruct (negb (validProviderID (pc_ID cfg))) eqn:Hid; [done|]. apply negb_false_iff in Hid.
  destruct (pc_SPCert cfg) as [cert|] eqn:Hcert; [|done]. destruct (pc_SPKey cfg) as [key|] eqn:Hkey; [|done].
  case_match; [done|]. intros (acs & Hacs%wrap_err_Ret_inv & H2)%go_bind_Ret_inv.
  destruct (url_IsAbs lib acs) eqn:Habs; [|done]. cbn [negb orb] in H2.
  destruct (String.eqb_spec (url_Host lib acs) ""); [done|].
  case_match; [done|]. apply go_bind_Ret_inv in H2 as (metadata & _ & [= <-]).
  split; cbn; eauto.
Qed.

Lemma fetch_and_build_Ret fetcher replay cfg w p w' :
  fetch_and_build lib fetcher (Some replay) cfg w = (Ret p, w') -> built_for fetcher replay cfg p.
Proof.
  unfold fetch_and_build. intros (entity & w1 & Hf & Hb)%bind_Ret_inv. apply lift_inv in Hb as [Hb _].
  apply wrap_Ret_inv, bind_Ret_inv in Hf as (r & w2 & Ho & Hl). apply observe_inv in Ho as [[= ->] _].
  apply lift_inv in Hl as [Hl _]. by eapply built_provider_Ret.
Qed.

(** What a SAML registry is made of. Every provider of it was built for a
    configuration it was given: under a URL-safe identifier, with the one
    replay ledger the caller supplied, the default bound on responses, its own
    key pair, the metadata that was fetched for it, and an absolute consumer
    address. The list shows each once, in the order of the configurations, and
    [Get] finds exactly the listed ones; a rebuild leaves out the ones that
    cannot be built and fails only when an identifier occurs twice. Without a
    ledger nothing is built. *)
Theorem saml_BuildRegistry_ok default_fetcher fetcher configs partialOK (replay : option Replay) w r w' :
  BuildRegistryFromConfigs lib default_fetcher configs fetcher partialOK replay w = (r, w') ->
  (forall reg, r = Ret reg -> exists names,
     registry_of pc_ID (fun p => pc_DisplayName (p_Config p)) saml_ErrUnknownProvider
       (fun cfg p => exists ledger, replay = Some ledger /\
          built_for (default default_fetcher fetcher) ledger cfg p) configs partialOK reg names) /\
  (forall e, partialOK = true -> r = Fail e -> ~ NoDup (map pc_ID configs)) /\
  (forall reg id p, replay = None -> r = Ret reg -> saml_Get reg id <> Ret p).
Proof.
  intros H. apply (build_registry_run pc_ID (fun p => pc_DisplayName (p_Config p)) saml_ErrUnknownProvider
    _ (fun cfg p => exists ledger, replay = Some ledger /\
          built_for (default default_fetcher fetcher) ledger cfg p)) in H as [Hret Hfail].
  - split_and!; [done..|]. intros reg id p -> Hr Hg. destruct (Hret reg Hr) as [names Hn].
    apply (rg_built _ _ _ _ _ _ _ _ Hn) in Hg as (cfg & _ & _ & ledger & [=] & _).
  - intros cfg w1 p w2 Hb. destruct replay as [ledger|].
    + exists ledger. split; [done|]. by eapply fetch_and_build_Ret.
    + exfalso. unfold fetch_and_build in Hb. apply bind_Ret_inv in Hb as (entity & w3 & _ & Hl).
      apply lift_inv in Hl as [Hl _]. unfold BuildProvider in Hl. by case_match.
Qed.
End Built.

(** ** The manager keeps the shared contracts *)

#[export] Instance saml_mem_contract : ProviderStoreContract MemProviderStore.port MemProviderStore.recs.
Proof.
  split; cbn.
  - intros rec s r s'. unfold MemProviderStore.InsertProvider.
    destruct (MemProviderStore.recs s !! pr_ID rec) eqn:H; intros [= <- <-]; cbn; auto.
  - intros rec s [old H]. unfold MemProviderStore.InsertProvider. by rewrite H.
  - intros id s r s'. unfold MemProviderStore.GetProvider.
    destruct (MemProviderStore.recs s !! id) eqn:H; intros [= <- <-]; (split; [done|]); [by intros ? [= <-]|done].
  - intros s r s' [= <- <-]. split; [done|]. intros recs [= <-]. unfold MemProviderStore.sortedLocked.
    by rewrite sort_by_Permutation, List.forallb_filter_id by (apply forallb_forall; done).
  - intros rec s r s'. unfold MemProviderStore.UpdateProvider.
    destruct (MemProviderStore.recs s !! pr_ID rec) eqn:H; intros [= <- <-]; cbn; eauto.
  - intros id sealed t s r s'. unfold MemProviderStore.UpdateProviderSealedKey.
    destruct (MemProviderStore.recs s !! id) eqn:H; intros [= <- <-]; cbn; eauto.
  - intros id s r s' [= <- <-]. done.
Qed.

Section Laws.
Context {Entity URL Cert AnyKey Signer Replay S : Type} (lib : Crewjam Entity URL Cert AnyKey Signer).

(** What [IdpCache] shows of a manager it shows of this one. *)
#[export] Instance saml_manager_laws default_fetcher range_order (store : ProviderStore S ProviderRecord) keys
    (opts : list (options (Entity := Entity) (Replay := Replay) -> options)) :
  (forall cache, range_order cache ≡ₚ map_to_list cache) ->
  ManagerLaws (NewManager lib default_fetcher range_order store keys opts).
Proof.
  intros Hr. split; [exact Hr|]. intros t recs. unfold NewManager. cbn [mg_build].
  generalize (fold_left (fun o opt => opt o) opts (MkOptions (Entity := Entity) (Replay := Replay)
    None None None false 0 None 0 None)) as o. intros o.
  unfold saml_build. destruct recs as [|r recs]; [apply quiet_mret|].
  destruct (o_spMetadataURL o), (o_spMetadataURLForTenant o), (o_replay o); try apply quiet_fail;
    (apply quiet_bind; [apply quiet_lift|intros [|cfg cfgs]; [apply quiet_mret|]]);
    apply quiet_wrap, quiet_build_registry; intros c; unfold fetch_and_build; quiet_tac.
Qed.
End Laws.

(** ** At concrete inputs *)

Definition toy_crewjam : Crewjam string string string string string := {|
  url_Parse s := Ret s; url_IsAbs s := has_prefix s "https://"; url_Host s := string_drop 8 s;
  pem_Decode b := Some ("CERTIFICATE", b);
  x509_ParseCertificate b := Ret (String.string_of_list_ascii b);
  ParsePKCS1PrivateKey b := Ret (String.string_of_list_ascii b);
  ParseECPrivateKey b := Ret (String.string_of_list_ascii b);
  ParsePKCS8PrivateKey b := Ret (String.string_of_list_ascii b);
  as_Signer k := Some k
|}.
Definition toy_saml_config (id acs : string) : ProviderConfig (Cert := string) (Signer := string) :=
  MkConfig id ("https://" +:+ id) "sp" acs "https://app/metadata" (Some "cert") (Some "key") "" "" "" "" false 0.

(** A relative consumer address is refused at the build, and costs no other
    provider its place. *)
Lemma saml_BuildRegistry_ok_witness : exists reg w' names,
  BuildRegistryFromConfigs toy_crewjam (fun _ url => Ret url)
    [toy_saml_config "adfs" "/acs"; toy_saml_config "okta" "https://app/acs"] None true (Some tt)
    (World tt []) = (Ret reg, w') /\
  saml_List reg = Ret names /\ map su_ID names = ["okta"].
Proof.
  destruct (BuildRegistryFromConfigs toy_crewjam (fun _ url => Ret url)
    [toy_saml_config "adfs" "/acs"; toy_saml_config "okta" "https://app/acs"] None true (Some tt)
    (World tt [])) as [[reg|e|why] w'] eqn:H; [|vm_compute in H; discriminate H..].
  destruct (saml_BuildRegistry_ok toy_crewjam (fun _ url => Ret url) None
    [toy_saml_config "adfs" "/acs"; toy_saml_config "okta" "https://app/acs"] true (Some tt)
    (World tt []) (Ret reg) w' H) as [Hr _].
  destruct (Hr reg eq_refl) as (names & [Hl _ _ _ _ _]).
  exists reg, w', names. split; [reflexivity|]. split; [exact Hl|].
  vm_compute in H. injection H as <- _. vm_compute in Hl. injection Hl as <-. reflexivity.
Defined.
