(* ===== verification/SamlAssertion.v ===== *)
(** * What an application reads off an assertion

    [src/saml/assertion.go], the accessors at the end of [parse.go],
    [nameid_ns.go], [authn_request.go] and [SetMaxClockSkew] of [metadata.go].
    [SamlReplay] decides whether an assertion is accepted; this file is what an
    accepted one says. The XML decoder is a parameter, the tokens of a
    document. *)

From S2P Require Import Prelude Bytes World.

#[local] Open Scope string_scope.
#[local] Open Scope list_scope.
#[local] Open Scope Z_scope.

(** ** The assertion (crewjam's, what the code reads) *)

Record Attribute := MkAttribute { at_Name : string; at_FriendlyName : string; at_Values : list string }.

(** Nil pointers are [None]: the subject, its NameID, the class reference. *)
Record AuthnStatement := MkAuthn { an_AuthnInstant : time; an_ClassRef : option string }.
Record Assertion := MkAssertion {
  as_AttributeStatements : list (list Attribute);
  as_Subject : option (option string);
  as_AuthnStatements : list AuthnStatement;
  as_IssueInstant : time
}.

(** ** Attributes (assertion.go) *)

Definition splitCommaSeparated (s : string) : list string :=
  let out := comma_segments s in
  if (length out <=? 1)%nat then [s] else out.

Definition matching (name : string) (a : Attribute) : bool :=
  String.eqb (at_Name a) name || String.eqb (at_FriendlyName a) name.
Definition collected (a : Assertion) (name : string) : list string :=
  omap trimmed (concat (map at_Values (List.filter (matching name) (concat (as_AttributeStatements a))))).

Definition AttributeValues (a : option Assertion) (name : string) : list string :=
  match a with
  | None => []
  | Some a =>
      if String.eqb name "" then []
      else match collected a name with
      | [v] =>
          if contains_any v "," then
            let parts := splitCommaSeparated v in
            if (1 <? length parts)%nat then parts else [v]
          else [v]
      | out => out
      end
  end.

Definition AttributeValue (a : option Assertion) (name : string) : string :=
  match AttributeValues a name with [] => "" | v :: _ => v end.

Definition SubjectNameID (a : option Assertion) : string :=
  match a ≫= as_Subject with Some (Some v) => trim_space v | _ => "" end.

(** ** When and how (parse.go) *)

Definition first_instant (a : Assertion) : option time :=
  match as_AuthnStatements a with
  | s :: _ => if IsZero_time (an_AuthnInstant s) then None else Some (an_AuthnInstant s)
  | [] => None
  end.

Section Reads.
Context (E : Env) {S : Type}.

Definition AuthnTime (a : option Assertion) : M S Z :=
  match a ≫= first_instant with
  | Some t => mret (Unix t)
  | None =>
      match a with
      | Some a =>
          if negb (IsZero_time (as_IssueInstant a)) then mret (Unix (as_IssueInstant a))
          else n ← now E; mret (Unix n)
      | None => n ← now E; mret (Unix n)
      end
  end.
End Reads.

Definition ACR (a : option Assertion) (fallback : string) : string :=
  match a with
  | Some a =>
      match as_AuthnStatements a with
      | s :: _ => default fallback (an_ClassRef s ≫= trimmed)
      | [] => fallback
      end
  | None => fallback
  end.

(** ** The NameID's namespace (nameid_ns.go) *)

Definition assertionNS : string := "urn:oasis:names:tc:SAML:2.0:assertion".

(** A start element by its resolved name, or any other token. *)
Inductive xml_token := StartElement (space local : string) | OtherToken.

(** [xml_tokens] are the tokens the decoder yields before its first error, the
    end of the document included. *)
Fixpoint scan_tokens (tokens : list xml_token) : go unit :=
  match tokens with
  | [] => Ret tt
  | StartElement space local :: tokens =>
      if negb (String.eqb local "NameID") then scan_tokens tokens
      else if negb (String.eqb space assertionNS) then
        Fail (Errorf1 "NameID element is not the subject's NameID" (Sentinel saml_ErrAssertionInvalid))
      else scan_tokens tokens
  | OtherToken :: tokens => scan_tokens tokens
  end.
Definition rejectForeignNameID (xml_tokens : bytes -> list xml_token) (samlResponse : string) : go unit :=
  match base64std_decode (to_bytes (trim_space samlResponse)) with
  | None => Ret tt
  | Some raw => scan_tokens (xml_tokens raw)
  end.

(** ** The request (authn_request.go) *)

Record AuthnRequestOptions := MkRequestOptions {
  ForceAuthn : bool;
  RequestedACRClass : string;
  Comparison : string
}.
(** crewjam's request, the fields the code sets: nil is [None]. *)
Record AuthnRequest := MkRequest {
  rq_ID : string;
  rq_ForceAuthn : option bool;
  rq_RequestedAuthnContext : option (string * string)
}.

Section Request.
(** [make] is [MakeAuthenticationRequest] for the redirect binding, [redirect]
    the signed URL of a request with a relay state. *)
Context {URL : Type} (make : go AuthnRequest) (redirect : AuthnRequest -> string -> go URL).

Definition step_up (opts : AuthnRequestOptions) (req : AuthnRequest) : AuthnRequest :=
  MkRequest (rq_ID req)
    (if ForceAuthn opts then Some true else rq_ForceAuthn req)
    (if String.eqb (RequestedACRClass opts) "" then rq_RequestedAuthnContext req
     else Some (if String.eqb (Comparison opts) "" then "minimum" else Comparison opts, RequestedACRClass opts)).

(** [have_provider] is that neither the provider nor its service provider is nil. *)
Definition BuildAuthnRequestURL (have_provider : bool) (relayState : string) (opts : AuthnRequestOptions)
    : go (URL * string) :=
  if negb have_provider then Fail (Errorf0 "provider service provider is nil")
  else
    req ← wrap_err (Errorf1 "build authn request") make;
    u ← wrap_err (Errorf1 "build authn request redirect") (redirect (step_up opts req) relayState);
    Ret (u, rq_ID req).
End Request.

(** ** The clock skew (metadata.go) *)

(** [skew] is crewjam's [MaxClockSkew]; [time.Hour] in nanoseconds. *)
Definition SetMaxClockSkew (d : Z) (skew : Z) : Z :=
  if d <=? 0 then skew else Z.min d (3600 * 10 ^ 9).

(** ** What the scan and the readers establish *)

Lemma scan_tokens_Ret tokens : scan_tokens tokens = Ret tt <->
  Forall (fun t => match t with StartElement space local => local = "NameID" -> space = assertionNS
                   | OtherToken => True end) tokens.
Proof.
  induction tokens as [|[space local|] tokens IH]; cbn [scan_tokens].
  - split; [constructor|done].
  - rewrite Forall_cons. destruct (String.eqb_spec local "NameID") as [->|Hl]; cbn [negb].
    + destruct (String.eqb_spec space assertionNS) as [->|Hs]; cbn [negb]; [|by split; [|intros [[]%Hs _]; auto]].
      rewrite IH. tauto.
    + rewrite IH. tauto.
  - rewrite Forall_cons, IH. tauto.
Qed.

(** What the scan lets through. A response passes exactly when it is no
    base64 text (the library's to refuse), or every NameID element the decoder
    meets in it is in the namespace of assertions; and the error of the others
    is [ErrAssertionInvalid]. *)
Theorem rejectForeignNameID_exact xml_tokens samlResponse :
  let r := rejectForeignNameID xml_tokens samlResponse in
  (r = Ret tt <->
     forall raw, base64std_decode (to_bytes (trim_space samlResponse)) = Some raw ->
       forall space, StartElement space "NameID" ∈ xml_tokens raw -> space = assertionNS) /\
  (r <> Ret tt -> fails_with r saml_ErrAssertionInvalid = true).
Proof.
  cbn zeta. unfold rejectForeignNameID. destruct (base64std_decode _) as [raw|]; [|by split; [split|]].
  split.
  - rewrite scan_tokens_Ret, Forall_forall. split.
    + intros H raw' [= <-] space Hin. by apply (H _ Hin).
    + intros H [space local|] Hin; [|done]. intros ->. by apply (H raw).
  - induction (xml_tokens raw) as [|[space local|] tokens IH]; cbn [scan_tokens]; auto.
    destruct (String.eqb local "NameID"), (String.eqb space assertionNS); cbn [negb]; auto.
Qed.

(** ** Attributes *)

Lemma contains_comma s : contains_any s "," = false -> no_comma s.
Proof.
  unfold contains_any, no_comma, to_bytes. intros H. apply Forall_forall. intros c Hin ->.
  apply list_elem_of_In in Hin. apply not_true_iff_false in H. apply H, existsb_exists.
  exists ","%char. split; [done|reflexivity].
Qed.

Lemma no_comma_segments s : no_comma s -> (length (comma_segments s) <= 1)%nat.
Proof.
  intros H. unfold comma_segments. rewrite split_on_part by done. cbn.
  destruct (trimmed _); cbn; lia.
Qed.

Lemma trimmed_nonempty s t : trimmed s = Some t -> t <> "".
Proof. unfold trimmed. destruct (String.eqb_spec (trim_space s) ""); [done|]. by intros [= <-]. Qed.

Lemma omap_trimmed_nonempty l : Forall (fun s => s <> "") (omap trimmed l).
Proof.
  apply Forall_forall. intros t (s & _ & H)%list_elem_of_omap. by eapply trimmed_nonempty.
Qed.

(** What the values of an attribute are. No value is empty. Several values,
    collected over all statements from the attributes of that name or friendly
    name, are answered as they came, commas included; a single one is split at
    its commas exactly when that yields two or more non-empty segments. *)
Theorem AttributeValues_exact st name : name <> "" ->
  let values := AttributeValues (Some st) name in
  Forall (fun s => s <> "") values /\
  (length (collected st name) <> 1%nat -> values = collected st name) /\
  (forall v, collected st name = [v] ->
     values = if (2 <=? length (comma_segments v))%nat then comma_segments v else [v]) /\
  AttributeValue (Some st) name = default "" (head values).
Proof.
  intros Hn. cbn zeta.
  assert (forall v, collected st name = [v] -> AttributeValues (Some st) name =
    if (2 <=? length (comma_segments v))%nat then comma_segments v else [v]) as Hone.
  { intros v Hv. unfold AttributeValues. rewrite (proj2 (String.eqb_neq _ _) Hn), Hv.
    destruct (contains_any v ",") eqn:Hc.
    - unfold splitCommaSeparated. destruct (Nat.leb_spec (length (comma_segments v)) 1) as [Hl|Hl].
      + by rewrite (proj2 (Nat.leb_gt _ _) (ltac:(lia) : (length (comma_segments v) < 2)%nat)).
      + rewrite (proj2 (Nat.ltb_lt _ _) Hl). by rewrite (proj2 (Nat.leb_le _ _) Hl).
    - apply contains_comma, no_comma_segments in Hc.
      by rewrite (proj2 (Nat.leb_gt _ _) (ltac:(lia) : (length (comma_segments v) < 2)%nat)). }
  assert (length (collected st name) <> 1%nat -> AttributeValues (Some st) name = collected st name) as Hmany.
  { intros Hl. unfold AttributeValues. rewrite (proj2 (String.eqb_neq _ _) Hn).
    by destruct (collected st name) as [|v [|v' l]]. }
  split_and!; [|done..|].
  - assert (Forall (fun s => s <> "") (collected st name)) as Hc by apply omap_trimmed_nonempty.
    destruct (collected st name) as [|v [|v' l]] eqn:Hv; [rewrite Hmany; done| |by rewrite Hmany].
    rewrite (Hone v eq_refl). case_match; [apply omap_trimmed_nonempty|done].
  - unfold AttributeValue. by destruct (AttributeValues (Some st) name).
Qed.

(** ** At concrete inputs *)

Definition toy_assertion (values : list string) : Assertion :=
  MkAssertion [[MkAttribute "urn:groups" "groups" values]] None [] 0.

Lemma AttributeValues_exact_witness :
  AttributeValues (Some (toy_assertion ["ops, admin"])) "groups" = ["ops"; "admin"].
Proof.
  destruct (AttributeValues_exact (toy_assertion ["ops, admin"]) "groups" ltac:(discriminate)) as (_ & _ & H & _).
  rewrite (H "ops, admin" ltac:(vm_compute; reflexivity)). vm_compute. reflexivity.
Defined.

(** The name the comment says stays whole. *)
Example display_name_is_split :
  AttributeValues (Some (toy_assertion ["Smith, John"])) "groups" = ["Smith"; "John"] /\
  AttributeValue (Some (toy_assertion ["Acme, Inc., Ltd."])) "groups" = "Acme".
Proof. vm_compute. by split. Qed.
