(* ===== verification/Http.v ===== *)
(** * Requests, responses and middleware

    What [src/espresso] works with: the part of net/http it uses (header maps,
    the response writer with its one status line), the request context as the
    record of what the package's unexported keys can hold, and the small files
    [cookies.go], [remoteip.go], [response.go], [statecookie.go], [etag.go],
    [scimerror.go] and the bearer header of [auth.go]. The espresso framework
    is a parameter, [Framework]: how it writes an error value. *)

From stdpp Require Import pretty.
From S2P Require Import Prelude Tenant Bytes World Crypto AuditEvent.

Set Warnings "-register-all".

#[local] Open Scope string_scope.
#[local] Open Scope list_scope.
#[local] Open Scope Z_scope.

(** ** Header maps (net/http) *)

Abbreviation Header := (gmap string (list string)).

(** [textproto.CanonicalMIMEHeaderKey]: a name of token bytes has its first
    letter and every letter after a hyphen in upper case and the rest in lower
    case; any other name is itself. *)
Definition is_lower (c : ascii) : bool := (97 <=? byte_of c)%N && (byte_of c <=? 122)%N.
Definition upper_char (c : ascii) : ascii :=
  if is_lower c then ascii_of_N (byte_of c - 32) else c.
Definition token_char (c : ascii) : bool :=
  is_lower c || is_upper c || ((48 <=? byte_of c)%N && (byte_of c <=? 57)%N) ||
  existsb (Ascii.eqb c) (to_bytes "!#$%&'*+-.^_`|~").
Fixpoint canonical_bytes (upper : bool) (s : bytes) : bytes :=
  match s with
  | [] => []
  | c :: s => (if upper then upper_char c else lower_char c) :: canonical_bytes (Ascii.eqb c "-"%char) s
  end.
Definition CanonicalHeaderKey (s : string) : string :=
  if forallb token_char (to_bytes s) then String.string_of_list_ascii (canonical_bytes true (to_bytes s)) else s.

Definition Header_Values (h : Header) (k : string) : list string := default [] (h !! CanonicalHeaderKey k).
Definition Header_Get (h : Header) (k : string) : string := default "" (head (Header_Values h k)).
Definition Header_Del (h : Header) (k : string) : Header := delete (CanonicalHeaderKey k) h.
Definition Header_Set (h : Header) (k v : string) : Header := <[CanonicalHeaderKey k := [v]]> h.
Definition Header_Add (h : Header) (k v : string) : Header :=
  <[CanonicalHeaderKey k := Header_Values h k ++ [v]]> h.

(** ** The request context *)

(** [Principal] (sagate.go). *)
Record Principal := MkPrincipal {
  pp_ID : string;
  pp_TenantID : string;
  pp_Name : string;
  pp_Description : string;
  pp_CreatedAt : time
}.

(** What the package's context keys hold. A key that was never set is [None];
    a typed nil claims pointer is [Some None]. The two capture slots are
    pointers: an index into the process's list of slots. *)
Record Context := MkContext {
  cx_userID : option string;
  cx_accessClaims : option (option AccessClaims);
  cx_tenant : option ID;
  cx_principal : option Principal;
  cx_actor : option Actor;
  cx_actorCapture : option nat;
  cx_clusterCapture : option nat;
  cx_remoteIP : option string;
  cx_namedCookies : gmap string string;
  cx_requestID : string
}.
Definition Background : Context := MkContext None None None None None None None None ∅ "".

Definition with_tenant (t : ID) (x : Context) : Context :=
  MkContext (cx_userID x) (cx_accessClaims x) (Some t) (cx_principal x) (cx_actor x)
    (cx_actorCapture x) (cx_clusterCapture x) (cx_remoteIP x) (cx_namedCookies x) (cx_requestID x).
Definition with_principal (p : Principal) (x : Context) : Context :=
  MkContext (cx_userID x) (cx_accessClaims x) (cx_tenant x) (Some p) (cx_actor x)
    (cx_actorCapture x) (cx_clusterCapture x) (cx_remoteIP x) (cx_namedCookies x) (cx_requestID x).
(** [audit.WithActor]. *)
Definition WithActor (a : Actor) (x : Context) : Context :=
  MkContext (cx_userID x) (cx_accessClaims x) (cx_tenant x) (cx_principal x) (Some a)
    (cx_actorCapture x) (cx_clusterCapture x) (cx_remoteIP x) (cx_namedCookies x) (cx_requestID x).
Definition with_user (id : string) (x : Context) : Context :=
  MkContext (Some id) (cx_accessClaims x) (cx_tenant x) (cx_principal x) (cx_actor x)
    (cx_actorCapture x) (cx_clusterCapture x) (cx_remoteIP x) (cx_namedCookies x) (cx_requestID x).
Definition ContextWithAccessClaims (c : option AccessClaims) (x : Context) : Context :=
  MkContext (cx_userID x) (Some c) (cx_tenant x) (cx_principal x) (cx_actor x)
    (cx_actorCapture x) (cx_clusterCapture x) (cx_remoteIP x) (cx_namedCookies x) (cx_requestID x).
Definition with_captures (actor cluster : nat) (x : Context) : Context :=
  MkContext (cx_userID x) (cx_accessClaims x) (cx_tenant x) (cx_principal x) (cx_actor x)
    (Some actor) (Some cluster) (cx_remoteIP x) (cx_namedCookies x) (cx_requestID x).
Definition with_remoteIP (ip : string) (x : Context) : Context :=
  MkContext (cx_userID x) (cx_accessClaims x) (cx_tenant x) (cx_principal x) (cx_actor x)
    (cx_actorCapture x) (cx_clusterCapture x) (Some ip) (cx_namedCookies x) (cx_requestID x).
Definition with_cookie (slot v : string) (x : Context) : Context :=
  MkContext (cx_userID x) (cx_accessClaims x) (cx_tenant x) (cx_principal x) (cx_actor x)
    (cx_actorCapture x) (cx_clusterCapture x) (cx_remoteIP x) (<[slot := v]> (cx_namedCookies x)) (cx_requestID x).

Definition GetUserID (x : Context) : option string :=
  match cx_userID x with
  | Some id => if String.eqb id "" then None else Some id
  | None => None
  end.
Definition AccessClaimsFromContext (x : Context) : option AccessClaims := mjoin (cx_accessClaims x).
Definition TenantFromContext (x : Context) : option ID := cx_tenant x.
Definition GetPrincipal (x : Context) : option Principal :=
  match cx_principal x with
  | Some p => if String.eqb (pp_ID p) "" then None else Some p
  | None => None
  end.
(** [audit.ActorFromContext]. *)
Definition Actor_zero : Actor :=
  {| a_Type := ""; a_UserID := ""; a_Email := ""; a_Name := ""; a_IP := ""; a_TenantID := "" |}.
Definition set_Type (t : string) (a : Actor) : Actor :=
  {| a_Type := t; a_UserID := a_UserID a; a_Email := a_Email a; a_Name := a_Name a; a_IP := a_IP a;
     a_TenantID := a_TenantID a |}.
Definition ActorFromContext (x : Context) : Actor :=
  match cx_actor x with
  | Some a => if String.eqb (a_Type a) "" then set_Type ActorTypeUser a else a
  | None => set_Type ActorTypeUser Actor_zero
  end.

(** ** Requests *)

(** [r_Cookie] is [r.Cookie], [r_PathValue] the router's [r.PathValue],
    [r_PathParams] the framework's [extractor.GetPathParams], [r_Query] the
    parsed query. *)
Record Request := MkRequest {
  r_Method : string;
  r_Path : string;
  r_Header : Header;
  r_RemoteAddr : string;
  r_Host : string;
  r_TLS : bool;
  r_Cookie : string -> option string;
  r_PathValue : string -> string;
  r_PathParams : gmap string string;
  r_Query : gmap string (list string);
  r_ctx : Context
}.
Definition WithContext (x : Context) (r : Request) : Request :=
  MkRequest (r_Method r) (r_Path r) (r_Header r) (r_RemoteAddr r) (r_Host r) (r_TLS r) (r_Cookie r)
    (r_PathValue r) (r_PathParams r) (r_Query r) x.
Definition with_header (h : Header) (r : Request) : Request :=
  MkRequest (r_Method r) (r_Path r) h (r_RemoteAddr r) (r_Host r) (r_TLS r) (r_Cookie r)
    (r_PathValue r) (r_PathParams r) (r_Query r) (r_ctx r).

(** ** Bodies *)

(** What is handed to [encoding/json], structs as the list of their fields in
    declaration order, without the omitted ones; [VRaw] is a [json.RawMessage]. *)
Inductive jv :=
  | VNull
  | VBool (b : bool)
  | VInt (n : Z)
  | VStr (s : string)
  | VList (l : list jv)
  | VObj (fields : list (string * jv))
  | VRaw (raw : bytes).
Inductive chunk := Encoded (v : jv) | Written (b : bytes).

(** A field, and a field with [omitempty]. *)
Definition fld (tag : string) (v : jv) : list (string * jv) := [(tag, v)].
Definition omit_str (tag s : string) : list (string * jv) :=
  if String.eqb s "" then [] else [(tag, VStr s)].

(** ** Error values of the framework *)

Inductive fw_kind :=
  | ErrBadRequest | ErrUnauthorized | ErrForbidden | ErrNotFound | ErrConflict
  | ErrTooManyRequests | ErrInternal | ErrServiceUnavailable | NewError (status : Z).

(** [ErrX(msg)], with [WithCode] and [Wrap] when they were called. *)
Record fw_error := FwError {
  fe_kind : fw_kind;
  fe_msg : string;
  fe_code : option string;
  fe_wrapped : option error
}.
(** What a typed handler may return as its error. *)
Inductive http_error := Fw (e : fw_error) | Raw (e : error).

(** [WriteResponse] of an error value: its status, header and body. *)
Record Framework := {
  fw_status : fw_error -> Z;
  fw_header : fw_error -> Header -> Header;
  fw_body : fw_error -> list chunk
}.

(** ** The response writer *)

Record Cookie := MkCookie {
  ck_Name : string;
  ck_Value : string;
  ck_Path : string;
  ck_HttpOnly : bool;
  ck_Secure : bool;
  ck_SameSite : Z;
  ck_MaxAge : Z
}.
Definition SameSiteLaxMode : Z := 2.
Definition SameSiteNoneMode : Z := 4.

(** [statusCapturingWriter] (audit.go): its two fields; the writer it wraps is
    the rest of the stack. *)
Record Capture := MkCapture { sw_status : Z; sw_wroteHeader : bool }.

(** net/http's writer under a stack of capturing writers, the one nearest to
    the handler first. [wr_sent] is the status line that went out with the
    header and the cookies of that moment; [wr_info] the informational ones.
    [wr_cookies] are the [Set-Cookie] lines. *)
Record Writer := MkWriter {
  wr_captures : list Capture;
  wr_header : Header;
  wr_cookies : list Cookie;
  wr_info : list Z;
  wr_sent : option (Z * Header * list Cookie);
  wr_body : list chunk
}.
Definition fresh_writer : Writer := MkWriter [] ∅ [] [] None [].

(** [http.response.WriteHeader]: informational codes other than 101 go out at
    once and do not count, a second status is dropped. *)
Definition base_WriteHeader (status : Z) (wr : Writer) : Writer :=
  match wr_sent wr with
  | Some _ => wr
  | None =>
      if (100 <=? status) && (status <=? 199) && negb (status =? 101) then
        MkWriter (wr_captures wr) (wr_header wr) (wr_cookies wr) (wr_info wr ++ [status]) None (wr_body wr)
      else
        MkWriter (wr_captures wr) (wr_header wr) (wr_cookies wr) (wr_info wr)
          (Some (status, wr_header wr, wr_cookies wr)) (wr_body wr)
  end.

(** [statusCapturingWriter.WriteHeader], through the stack: what each capture
    becomes and whether the call reaches net/http. *)
Fixpoint capture_status (status : Z) (cs : list Capture) : list Capture * bool :=
  match cs with
  | [] => ([], true)
  | c :: cs =>
      if sw_wroteHeader c then (c :: cs, false)
      else let '(cs, through) := capture_status status cs in (MkCapture status true :: cs, through)
  end.
Definition with_wr_captures (cs : list Capture) (wr : Writer) : Writer :=
  MkWriter cs (wr_header wr) (wr_cookies wr) (wr_info wr) (wr_sent wr) (wr_body wr).
Definition wr_WriteHeader (status : Z) (wr : Writer) : Writer :=
  let '(cs, through) := capture_status status (wr_captures wr) in
  let wr := with_wr_captures cs wr in
  if through then base_WriteHeader status wr else wr.

(** [statusCapturingWriter.Write] records 200 in every capture that has no
    status yet and passes the bytes on; net/http writes the status line 200
    before the first byte. *)
Definition wr_Write (b : chunk) (wr : Writer) : Writer :=
  let cs := map (fun c => if sw_wroteHeader c then c else MkCapture 200 true) (wr_captures wr) in
  let wr := with_wr_captures cs wr in
  let wr := match wr_sent wr with Some _ => wr | None => base_WriteHeader 200 wr end in
  MkWriter (wr_captures wr) (wr_header wr) (wr_cookies wr) (wr_info wr) (wr_sent wr) (wr_body wr ++ [b]).
Definition wr_set_header (f : Header -> Header) (wr : Writer) : Writer :=
  MkWriter (wr_captures wr) (f (wr_header wr)) (wr_cookies wr) (wr_info wr) (wr_sent wr) (wr_body wr).
Definition wr_add_cookie (c : Cookie) (wr : Writer) : Writer :=
  MkWriter (wr_captures wr) (wr_header wr) (wr_cookies wr ++ [c]) (wr_info wr) (wr_sent wr) (wr_body wr).

(** ** The process of one request *)

(** The application's state, the capture slots installed so far and the
    response. *)
Record Web (S : Type) := MkWeb {
  web_app : S;
  web_actors : list Actor;
  web_clusters : list string;
  web_writer : Writer
}.
Arguments MkWeb {_} _ _ _ _.
Arguments web_app {_} _.
Arguments web_actors {_} _.
Arguments web_clusters {_} _.
Arguments web_writer {_} _.

Definition Handler (S : Type) : Type := Request -> M (Web S) unit.
Definition Middleware (S : Type) : Type := Handler S -> Handler S.

Section Http.
Context {S : Type}.
Local Abbreviation MW := (M (Web S)).

(** A call of the application, which sees its own state only. *)
Definition call_app {A} (m : M S A) : MW A := fun w =>
  let '(r, w') := m (World (web_app (w_store w)) (w_trace w)) in
  (r, World (MkWeb (w_store w') (web_actors (w_store w)) (web_clusters (w_store w)) (web_writer (w_store w)))
        (w_trace w')).

Definition on_writer (f : Writer -> Writer) : MW unit := fun w =>
  let v := w_store w in
  (Ret tt, World (MkWeb (web_app v) (web_actors v) (web_clusters v) (f (web_writer v))) (w_trace w)).
Definition WriteHeader (status : Z) : MW unit := on_writer (wr_WriteHeader status).
Definition Write (b : chunk) : MW unit := on_writer (wr_Write b).
Definition header_Set (k v : string) : MW unit := on_writer (wr_set_header (fun h => Header_Set h k v)).
Definition SetCookie (c : Cookie) : MW unit := on_writer (wr_add_cookie c).
Definition encode_body (v : jv) : MW unit := Write (Encoded v).

(** [err.WriteResponse(w)]. *)
Definition write_fw (fw : Framework) (e : fw_error) : MW unit :=
  on_writer (fun wr => foldl (fun wr b => wr_Write b wr)
    (wr_WriteHeader (fw_status fw e) (wr_set_header (fw_header fw e) wr)) (fw_body fw e)).

(** A new slot, and reading and writing one. *)
Definition new_slots (w : Web S) : nat * nat := (length (web_actors w), length (web_clusters w)).
Definition alloc_slots : MW (nat * nat) := fun w =>
  let v := w_store w in
  (Ret (new_slots v), World (MkWeb (web_app v) (web_actors v ++ [Actor_zero]) (web_clusters v ++ [""]) (web_writer v))
     (w_trace w)).
Definition get_web {A} (f : Web S -> A) : MW A := fun w => (Ret (f (w_store w)), w).
Definition set_actor (n : nat) (a : Actor) : MW unit := fun w =>
  let v := w_store w in
  (Ret tt, World (MkWeb (web_app v) (<[n := a]> (web_actors v)) (web_clusters v) (web_writer v)) (w_trace w)).
Definition set_cluster (n : nat) (id : string) : MW unit := fun w =>
  let v := w_store w in
  (Ret tt, World (MkWeb (web_app v) (web_actors v) (<[n := id]> (web_clusters v)) (web_writer v)) (w_trace w)).

(** ** cookies.go and remoteip.go *)

Definition ReadNamedCookie (slot cookieName : string) : Middleware S := fun next r =>
  let val := match r_Cookie r cookieName with Some v => v | None => "" end in
  next (WithContext (with_cookie slot val (r_ctx r)) r).
Definition NamedCookieValue (x : Context) (slot : string) : option string :=
  match cx_namedCookies x !! slot with
  | Some v => if String.eqb v "" then None else Some v
  | None => None
  end.

(** [strings.IndexByte(s, c)] and [strings.LastIndexByte]. *)
Definition index_byte (c : ascii) (s : string) : option nat :=
  fst <$> list_find (fun d => d = c) (to_bytes s).
Definition last_index_byte (c : ascii) (s : string) : option nat :=
  (fun i => length (to_bytes s) - 1 - i)%nat <$> (fst <$> list_find (fun d => d = c) (reverse (to_bytes s))).

Definition IPFromRequest (r : Request) : string :=
  let xff := Header_Get (r_Header r) "X-Forwarded-For" in
  if negb (String.eqb xff "") then
    match index_byte ","%char xff with
    | Some i => if (0 <? i)%nat then trim_space (string_take i xff) else trim_space xff
    | None => trim_space xff
    end
  else
    match last_index_byte ":"%char (r_RemoteAddr r) with
    | Some i => if (0 <? i)%nat then string_take i (r_RemoteAddr r) else r_RemoteAddr r
    | None => r_RemoteAddr r
    end.
Definition RemoteIP (extract : option (Request -> string)) : Middleware S :=
  let extract := default IPFromRequest extract in
  fun next r => next (WithContext (with_remoteIP (extract r) (r_ctx r)) r).
Definition GetRemoteIP (x : Context) : string := default "" (cx_remoteIP x).

(** ** response.go *)

Record Redirect := MkRedirect { rd_URL : string; rd_Cookies : list (option Cookie) }.
Fixpoint set_cookies (cs : list (option Cookie)) : MW unit :=
  match cs with
  | [] => mret tt
  | None :: cs => set_cookies cs
  | Some c :: cs => SetCookie c;; set_cookies cs
  end.
Definition Redirect_WriteResponse (rd : Redirect) : MW unit :=
  set_cookies (rd_Cookies rd);;
  header_Set "Location" (rd_URL rd);;
  WriteHeader 302.

Record XML := MkXML { xm_Body : bytes; xm_ContentType : string }.
Definition XML_WriteResponse (x : XML) : MW unit :=
  let ct := if String.eqb (xm_ContentType x) "" then "application/samlmetadata+xml" else xm_ContentType x in
  header_Set "Content-Type" ct;;
  WriteHeader 200;;
  Write (Written (xm_Body x)).

(** ** The bearer header and the canonical refusal (auth.go) *)

Definition errMissingAuthHeader : string := "missing Authorization header".
Definition errMalformedAuthHeader : string := "Authorization header must be 'Bearer <token>'".
Definition errEmptyBearerToken : string := "bearer token is empty".

(** [strings.EqualFold(s, "Bearer ")]: no letter of the prefix folds to
    anything but its two ASCII cases. *)
Definition is_bearer (s : string) : bool := String.eqb (to_lower s) "bearer ".
Definition bearerToken (header : string) : string + string :=
  if String.eqb header "" then inr errMissingAuthHeader
  else if (String.length header <? 7)%nat || negb (is_bearer (string_take 7 header)) then
    inr errMalformedAuthHeader
  else
    let tok := trim_space (string_drop 7 header) in
    if String.eqb tok "" then inr errEmptyBearerToken else inl tok.

Definition unauthenticated (msg : string) : fw_error :=
  FwError ErrUnauthorized msg (Some "UNAUTHENTICATED") None.
Definition writeUnauthenticated (fw : Framework) (msg : string) : MW unit :=
  write_fw fw (unauthenticated msg).

(** ** The SCIM error envelope (scimerror.go, sagate.go) *)

Definition ContentTypeSCIM : string := "application/scim+json".
Definition SchemaError : string := "urn:ietf:params:scim:api:messages:2.0:Error".
Definition SCIMError (status : Z) (detail scimType : string) : jv :=
  VObj (fld "schemas" (VList [VStr SchemaError]) ++ fld "status" (VStr (pretty status)) ++
        omit_str "scimType" scimType ++ fld "detail" (VStr detail)).
Definition WriteSCIMErrorTyped (status : Z) (detail scimType : string) : MW unit :=
  header_Set "Content-Type" ContentTypeSCIM;;
  WriteHeader status;;
  encode_body (SCIMError status detail scimType).
Definition WriteSCIMError (status : Z) (detail : string) : MW unit :=
  WriteSCIMErrorTyped status detail "".

(** ** etag.go *)

Definition ResourceETag (t : time) : string :=
  if IsZero_time t then ""
  else "W/" +:+ String "034"%char (pretty (UnixNano t) +:+ String "034"%char "").
Definition WriteETagHeader (value : string) : MW unit :=
  if String.eqb value "" then mret tt else header_Set "ETag" value.

(** [strings.TrimPrefix]. *)
Definition trim_prefix (s p : string) : string :=
  if has_prefix s p then string_drop (String.length p) s else s.
Definition NormalizeETag (s : string) : string :=
  trim_prefix (trim_prefix (trim_space s) "W/") "w/".
Definition CheckIfMatch (r : Request) (currentETag : string) : bool :=
  let ifMatch := trim_space (Header_Get (r_Header r) "If-Match") in
  if String.eqb ifMatch "" then true
  else if String.eqb ifMatch "*" then true
  else
    let want := NormalizeETag currentETag in
    existsb (fun part => String.eqb (NormalizeETag (String.string_of_list_ascii part)) want)
      (split_on ","%char (to_bytes ifMatch)).
End Http.

(** ** statecookie.go *)

Record StateCookieConfig := MkStateCookieConfig {
  sc_BaseName : string;
  sc_Secure : bool;
  sc_Path : string;
  sc_TTL : Z;
  sc_SameSite : Z
}.
Definition sameSite (c : StateCookieConfig) : Z :=
  if sc_SameSite c =? 0 then SameSiteLaxMode else sc_SameSite c.
Definition StateCookie_Name (c : StateCookieConfig) : string :=
  if sc_Secure c then "__Host-" +:+ sc_BaseName c else sc_BaseName c.
(** [int64(d.Seconds())] of a duration in nanoseconds: truncates toward zero
    (exact while the float64 has room for the nanoseconds, up to 2^23 seconds). *)
Definition whole_seconds (d : Z) : Z := Z.quot d (10 ^ 9).
Definition StateCookie_Set (c : StateCookieConfig) (value : string) : Cookie :=
  MkCookie (StateCookie_Name c) value (sc_Path c) true (sc_Secure c) (sameSite c) (whole_seconds (sc_TTL c)).
Definition StateCookie_Clear (c : StateCookieConfig) : Cookie :=
  MkCookie (StateCookie_Name c) "" (sc_Path c) true (sc_Secure c) (sameSite c) (-1).

(** ** Admitting and refusing

    A middleware admits a request when, whatever handler it is put in front
    of, it runs that handler on some request in some world and adds nothing;
    it refuses one when the outcome does not depend on the handler. *)

Definition admits {S} (mw : Middleware S) (r : Request) (w : world (Web S)) (r' : Request)
    (w' : world (Web S)) : Prop := forall next, mw next r w = next r' w'.
Definition refuses {S} (mw : Middleware S) (r : Request) (w : world (Web S))
    (out : go unit * world (Web S)) : Prop := forall next, mw next r w = out.

Section Admits.
Context {S : Type}.
Implicit Type mw : Middleware S.

(** Two handlers that tell apart everything. *)
Definition stop (why : string) : Handler S := fun _ w => (Panic why, w).

Lemma not_both mw r w r' w' out : admits mw r w r' w' -> refuses mw r w out -> False.
Proof.
  intros Ha Hr. pose proof (Ha (stop "a")) as H1. pose proof (Ha (stop "b")) as H2.
  rewrite Hr in H1. rewrite Hr in H2. rewrite H1 in H2. by injection H2.
Qed.

Lemma admits_world mw r w r1 w1 r2 w2 : admits mw r w r1 w1 -> admits mw r w r2 w2 -> w1 = w2.
Proof.
  intros H1 H2. pose proof (H1 (stop "a")) as Ha. pose proof (H2 (stop "a")) as Hb.
  rewrite Ha in Hb. unfold stop in Hb. by injection Hb.
Qed.

(** Composition: what the outer middleware admits is the inner one's affair. *)
Definition compose (outer inner : Middleware S) : Middleware S := fun next => outer (inner next).
Lemma compose_admits outer inner r w r1 w1 : admits outer r w r1 w1 ->
  (forall next, compose outer inner next r w = inner next r1 w1).
Proof. intros H next. apply H. Qed.
Lemma compose_admits_admits outer inner r w r1 w1 r2 w2 : admits outer r w r1 w1 ->
  admits inner r1 w1 r2 w2 -> admits (compose outer inner) r w r2 w2.
Proof. intros H1 H2 next. unfold compose. by rewrite H1, H2. Qed.
Lemma compose_admits_refuses outer inner r w r1 w1 out : admits outer r w r1 w1 ->
  refuses inner r1 w1 out -> refuses (compose outer inner) r w out.
Proof. intros H1 H2 next. unfold compose. by rewrite H1, H2. Qed.
Lemma compose_refuses outer inner r w out : refuses outer r w out ->
  refuses (compose outer inner) r w out.
Proof. intros H next. apply H. Qed.
End Admits.
