(* ===== verification/WebAuth.v ===== *)
(** * Authenticating a request

    [RequireAuth] ([src/espresso/auth.go]), [RequireAuthWS] ([authws.go]) and
    [RequireServiceAccount] ([sagate.go]) as middleware over [Http], with the
    context values they leave. Tokens are checked by [Jwt]. *)

From S2P Require Import Prelude Tenant Bytes World Crypto Jwt AuditEvent Http.

#[local] Open Scope string_scope.
#[local] Open Scope list_scope.
#[local] Open Scope Z_scope.

(** ** auth.go *)

(** The actor [RequireAuth] stashes. *)
Definition token_actor (claims : AccessClaims) : Actor :=
  {| a_Type := ActorTypeUser; a_UserID := ActorUserID claims; a_Email := ""; a_Name := "";
     a_IP := ""; a_TenantID := ActorTenantID claims |}.
Definition decorateAuthed (x : Context) (claims : AccessClaims) : Context :=
  WithActor (token_actor claims)
    (ContextWithAccessClaims (Some claims) (with_user (cl_Subject claims) x)).

(** ** authws.go *)

Definition subprotocol_header : string := "Sec-WebSocket-Protocol".

Definition decodeBearerSubprotocol (entry prefix : string) : option string :=
  let suffix := trim_prefix entry prefix in
  if String.eqb suffix "" then None
  else
    dec ← match base64url_decode (to_bytes suffix) with
          | Some dec => Some dec
          | None => base64url_padded_decode (to_bytes suffix)
          end;
    trimmed (String.string_of_list_ascii dec).

(** One value's entries, with the token found so far. *)
Fixpoint strip_parts (prefix : string) (token : option string) (entries : list string)
    : option string * list string :=
  match entries with
  | [] => (token, [])
  | entry :: entries =>
      match token with
      | None =>
          if has_prefix entry prefix then strip_parts prefix (decodeBearerSubprotocol entry prefix) entries
          else let '(token, kept) := strip_parts prefix None entries in (token, entry :: kept)
      | Some t => let '(token, kept) := strip_parts prefix (Some t) entries in (token, entry :: kept)
      end
  end.
Fixpoint strip_values (prefix : string) (token : option string) (values : list string)
    : option string * list (list string) :=
  match values with
  | [] => (token, [])
  | raw :: values =>
      let '(token, kept) := strip_parts prefix token (comma_segments raw) in
      let '(token, rest) := strip_values prefix token values in
      (token, match kept with [] => rest | _ => kept :: rest end)
  end.
Definition stripBearerSubprotocol (h : Header) (prefix : string) : option string * Header :=
  match Header_Values h subprotocol_header with
  | [] => (None, h)
  | values =>
      let '(token, rewritten) := strip_values prefix None values in
      (token, foldl (fun h kept => Header_Add h subprotocol_header (String.concat ", " kept))
                (Header_Del h subprotocol_header) rewritten)
  end.

(** [tokenFromRequest]: the token or the message of the refusal, and the
    request with its rewritten header. *)
Definition tokenFromRequest (r : Request) (prefix : string) : (string + string) * Request :=
  let hdr := Header_Get (r_Header r) "Authorization" in
  if negb (String.eqb hdr "") then (bearerToken hdr, r)
  else
    let '(token, h) := stripBearerSubprotocol (r_Header r) prefix in
    (match token with Some t => inl t | None => inr errMissingAuthHeader end, with_header h r).

(** ** sagate.go *)

(** A [ServiceAccountValidator]: the principal, [ErrInvalidCredential] or
    another error. *)
Inductive credential := Vouched (p : Principal) | InvalidCredential | ValidatorError (e : error).

Section Auth.
Context (fw : Framework) {S : Type}.
Local Abbreviation MW := (M (Web S)).
Context (lib : JWTLibrary) (E : Env) (j : JWTService) (ks : Keys).

(** What follows the token in both middlewares. *)
Definition authenticate (tok : string + string) (next : Handler S) (r : Request) : MW unit :=
  match tok with
  | inr msg => writeUnauthenticated fw msg
  | inl tok =>
      try_catch (ParseAccess lib E j ks tok)
        (fun _ => writeUnauthenticated fw "invalid token")
        (fun claims => next (WithContext (decorateAuthed (r_ctx r) claims) r))
  end.
Definition RequireAuth : Middleware S := fun next r =>
  authenticate (bearerToken (Header_Get (r_Header r) "Authorization")) next r.

Definition RequireAuthWS (subprotocolPrefix : string) : go (Middleware S) :=
  if String.eqb subprotocolPrefix "" then Panic "RequireAuthWS requires a non-empty subprotocol prefix"
  else Ret (fun next r => let '(tok, r) := tokenFromRequest r subprotocolPrefix in authenticate tok next r).

Definition RequireServiceAccount (validate : string -> M S credential) : Middleware S := fun next r =>
  match bearerToken (Header_Get (r_Header r) "Authorization") with
  | inr msg => WriteSCIMError 401 msg
  | inl tok =>
      principal ← call_app (validate tok);
      match principal with
      | InvalidCredential => WriteSCIMError 401 "invalid bearer token"
      | ValidatorError _ => WriteSCIMError 500 "service-account validation failed"
      | Vouched p =>
          next (WithContext (WithActor (ActorService (pp_ID p) (pp_Name p) (FromStored (pp_TenantID p)))
                               (with_principal p (r_ctx r))) r)
      end
  end.
End Auth.

(** [MustGetUserID] and [MustGetPrincipal]. *)
Definition MustGetUserID (x : Context) : go string :=
  match GetUserID x with Some id => Ret id | None => Panic "user id not in context" end.
Definition MustGetPrincipal (x : Context) : go Principal :=
  match GetPrincipal x with Some p => Ret p | None => Panic "principal not in context" end.

(** ** What a gate does with a request *)

Section Outcome.
Context (fw : Framework) {S : Type} (lib : JWTLibrary) (E : Env) (j : JWTService) (ks : Keys).
Local Abbreviation RequireAuth := (RequireAuth fw lib E j ks (S:=S)).

(** The header decides the message; after that only the token does. *)
Lemma RequireAuth_outcome r w :
  (exists msg, bearerToken (Header_Get (r_Header r) "Authorization") = inr msg /\
     refuses RequireAuth r w (writeUnauthenticated fw msg w)) \/
  (exists tok res w1, bearerToken (Header_Get (r_Header r) "Authorization") = inl tok /\
     ParseAccess lib E j ks tok w = (res, w1) /\
     match res with
     | Ret c => admits RequireAuth r w (WithContext (decorateAuthed (r_ctx r) c) r) w1
     | Fail _ => refuses RequireAuth r w (writeUnauthenticated fw "invalid token" w1)
     | Panic why => refuses RequireAuth r w (Panic why, w1)
     end).
Proof.
  destruct (bearerToken _) as [tok|msg] eqn:Hb.
  - right. destruct (ParseAccess lib E j ks tok w) as [res w1] eqn:Hp. exists tok, res, w1.
    split_and!; [done..|]. unfold admits, refuses, WebAuth.RequireAuth, authenticate.
    rewrite Hb. unfold try_catch. rewrite Hp. by destruct res.
  - left. exists msg. split; [done|]. intros next. unfold WebAuth.RequireAuth, authenticate. by rewrite Hb.
Qed.

Lemma GetUserID_decorated x c : cl_Subject c <> "" -> GetUserID (decorateAuthed x c) = Some (cl_Subject c).
Proof. intros H. cbn. by rewrite (proj2 (String.eqb_neq _ _) H). Qed.
End Outcome.

(** ** The bearer subprotocol *)

(** An entry that carries a token, and one that only looks like it. *)
Definition carries (prefix : string) (token : string) (entry : string) : Prop :=
  has_prefix entry prefix = true /\ decodeBearerSubprotocol entry prefix = Some token.
Definition no_token (prefix : string) (entry : string) : Prop :=
  has_prefix entry prefix = true -> decodeBearerSubprotocol entry prefix = None.
Definition content (prefix : string) : list string -> list string :=
  List.filter (fun e => negb (has_prefix e prefix)).

Lemma strip_parts_done prefix t l : strip_parts prefix (Some t) l = (Some t, l).
Proof. induction l as [|e l IH]; cbn; [done|]. by rewrite IH. Qed.

Lemma strip_parts_app prefix token l1 l2 : strip_parts prefix token (l1 ++ l2) =
  let '(t1, k1) := strip_parts prefix token l1 in
  let '(t2, k2) := strip_parts prefix t1 l2 in (t2, k1 ++ k2).
Proof.
  revert token. induction l1 as [|e l1 IH]; intros token; cbn; [by destruct (strip_parts _ _ _)|].
  destruct token as [t|]; [|destruct (has_prefix e prefix); [by rewrite IH|]];
    rewrite IH; destruct (strip_parts _ _ l1) as [t1 k1]; by destruct (strip_parts _ t1 l2).
Qed.

Lemma strip_values_flat prefix token vs :
  let '(t, rest) := strip_values prefix token vs in
  (t, concat rest) = strip_parts prefix token (concat (map comma_segments vs)) /\ Forall (fun k => k <> []) rest.
Proof.
  revert token. induction vs as [|raw vs IH]; intros token; cbn; [done|].
  rewrite strip_parts_app. destruct (strip_parts prefix token (comma_segments raw)) as [t1 k1].
  specialize (IH t1). destruct (strip_values prefix t1 vs) as [t2 rest]. destruct IH as [<- Hne].
  destruct k1; [done|]. by split; [|constructor].
Qed.

Lemma strip_parts_none prefix l : Forall (no_token prefix) l ->
  strip_parts prefix None l = (None, content prefix l).
Proof.
  induction 1 as [|e l He Hl IH]; cbn; [done|]. destruct (has_prefix e prefix) eqn:Hp; cbn.
  - by rewrite (He Hp).
  - by rewrite IH.
Qed.

(** Either nothing carries a token, or there is a first entry that does. *)
Lemma first_token prefix l : Forall (no_token prefix) l \/
  exists l1 e l2 t, l = l1 ++ e :: l2 /\ Forall (no_token prefix) l1 /\ carries prefix t e.
Proof.
  induction l as [|e l [IH|(l1 & e' & l2 & t & -> & H1 & He)]]; [by left|..].
  - destruct (has_prefix e prefix) eqn:Hp; [|left; constructor; [|done]; by unfold no_token; rewrite Hp].
    destruct (decodeBearerSubprotocol e prefix) as [t|] eqn:Hd.
    + right. exists [], e, l, t. unfold carries. by rewrite Hp, Hd.
    + left. constructor; [by intros _|done].
  - destruct (has_prefix e prefix) eqn:Hp.
    + destruct (decodeBearerSubprotocol e prefix) as [t'|] eqn:Hd.
      * right. exists [], e, (l1 ++ e' :: l2), t'. unfold carries. by rewrite Hp, Hd.
      * right. exists (e :: l1), e', l2, t. split_and!; [done| |done]. constructor; [by intros _|done].
    + right. exists (e :: l1), e', l2, t. split_and!; [done| |done]. constructor; [by unfold no_token; rewrite Hp|done].
Qed.

Lemma Header_Values_Add h k v : Header_Values (Header_Add h k v) k = Header_Values h k ++ [v].
Proof. unfold Header_Values at 1, Header_Add. by rewrite lookup_insert_eq. Qed.
Lemma Header_Values_foldl h k f (l : list (list string)) :
  Header_Values (foldl (fun h x => Header_Add h k (f x)) h l) k = Header_Values h k ++ map f l.
Proof.
  revert h. induction l as [|x l IH]; intros h; cbn; [by rewrite app_nil_r|].
  rewrite IH, Header_Values_Add, <- app_assoc. done.
Qed.
Lemma Header_foldl_other h k f (l : list (list string)) k' : k' <> CanonicalHeaderKey k ->
  foldl (fun h x => Header_Add h k (f x)) h l !! k' = h !! k'.
Proof.
  intros Hk. revert h. induction l as [|x l IH]; intros h; cbn; [done|]. rewrite IH.
  unfold Header_Add. by rewrite lookup_insert_ne by done.
Qed.

(** a WebSocket upgrade without an [Authorization] header is authenticated
    by the first subprotocol entry under the app's prefix that decodes to a
    token, wherever it stands and however the entries are spread over header
    values; undecodable entries before it are dropped with it, every other
    entry is kept in its order, no other header changes; and without such an
    entry the request has no token and no entry under the prefix is left for
    the upgrade. *)
Theorem subprotocol_token_exact (r : Request) (prefix : string) :
  Header_Get (r_Header r) "Authorization" = "" ->
  let entries := concat (map comma_segments (Header_Values (r_Header r) subprotocol_header)) in
  let '(tok, r') := tokenFromRequest r prefix in
  (forall k, k <> CanonicalHeaderKey subprotocol_header -> r_Header r' !! k = r_Header r !! k) /\
  exists kept, Header_Values (r_Header r') subprotocol_header = map (String.concat ", ") kept /\
  Forall (fun k => k <> []) kept /\
  match tok with
  | inl t => exists l1 e l2, entries = l1 ++ e :: l2 /\ Forall (no_token prefix) l1 /\
      carries prefix t e /\ concat kept = content prefix l1 ++ l2
  | inr msg => msg = errMissingAuthHeader /\ Forall (no_token prefix) entries /\
      concat kept = content prefix entries
  end.
Proof.
  intros Hauth entries. unfold tokenFromRequest. rewrite Hauth. cbn [negb String.eqb].
  unfold stripBearerSubprotocol. subst entries.
  destruct (Header_Values (r_Header r) subprotocol_header) as [|v vs] eqn:Hv.
  { split; [done|]. exists []. cbn. rewrite Hv. by split_and!. }
  pose proof (strip_values_flat prefix None (v :: vs)) as Hflat.
  destruct (strip_values prefix None (v :: vs)) as [token rest]. destruct Hflat as [Hflat Hne].
  split.
  { intros k Hk. cbn [r_Header with_header]. rewrite Header_foldl_other by done.
    unfold Header_Del. by rewrite lookup_delete_ne. }
  exists rest. split; [|split; [done|]].
  { cbn [r_Header with_header]. rewrite Header_Values_foldl. unfold Header_Values, Header_Del.
    by rewrite lookup_delete_eq. }
  destruct (first_token prefix (concat (map comma_segments (v :: vs)))) as [Hno|(l1 & e & l2 & t & Hl & H1 & He)].
  - rewrite strip_parts_none in Hflat by done. injection Hflat as -> ->. done.
  - rewrite Hl, strip_parts_app, strip_parts_none in Hflat by done. cbn in Hflat.
    destruct He as [Hp Hd]. rewrite Hp, Hd, strip_parts_done in Hflat. injection Hflat as -> ->.
    by exists l1, e, l2.
Qed.

(** What the browser's side builds is what the gate reads. *)
Lemma trim_prefix_app p s : trim_prefix (p +:+ s) p = s.
Proof.
  unfold trim_prefix. rewrite (proj2 (has_prefix_spec (p +:+ s) p)) by eauto.
  unfold string_drop. rewrite string_length_append.
  replace (String.length p + String.length s - String.length p)%nat with (String.length s) by lia.
  apply append_substring_suffix.
Qed.

Lemma entry_carries prefix tok : trim_space tok = tok -> tok <> "" ->
  carries prefix tok (prefix +:+ String.string_of_list_ascii (base64url (to_bytes tok))).
Proof.
  intros Htrim Hne. split; [apply has_prefix_spec; eauto|].
  unfold decodeBearerSubprotocol. rewrite trim_prefix_app.
  assert (to_bytes (String.string_of_list_ascii (base64url (to_bytes tok))) = base64url (to_bytes tok)) as Hb
    by (unfold to_bytes; by rewrite String.list_ascii_of_string_of_list_ascii).
  destruct (String.eqb_spec (String.string_of_list_ascii (base64url (to_bytes tok))) "") as [He|_].
  - exfalso. rewrite He in Hb. cbn in Hb. symmetry in Hb. revert Hb. apply base64url_nonempty.
    by destruct tok.
  - rewrite Hb, base64url_decode_encode. cbn. unfold to_bytes, trimmed.
    rewrite String.string_of_list_ascii_of_string, Htrim. by rewrite (proj2 (String.eqb_neq _ _) Hne).
Qed.

(** ** Witnesses *)

Module ToyRequest.
Definition get (h : Header) : Request :=
  MkRequest "GET" "/" h "192.0.2.1:4242" "app.example" true (fun _ => None) (fun _ => "") ∅ ∅ Background.
Definition prefix : string := "base64url.bearer.tamper.".
Definition entry (tok : string) : string :=
  prefix +:+ String.string_of_list_ascii (base64url (to_bytes tok)).
Definition upgrade : Request :=
  get (Header_Add (Header_Add ∅ subprotocol_header ("graphql-ws, " +:+ prefix +:+ "!"))
         subprotocol_header (entry "a.b.c" +:+ " , chat")).
End ToyRequest.

Lemma subprotocol_token_exact_witness :
  Header_Get (r_Header ToyRequest.upgrade) "Authorization" = "" /\
  exists kept, Header_Values (r_Header (tokenFromRequest ToyRequest.upgrade ToyRequest.prefix).2)
    subprotocol_header = map (String.concat ", ") kept.
Proof.
  pose proof (subprotocol_token_exact ToyRequest.upgrade ToyRequest.prefix eq_refl) as H.
  split; [vm_compute; reflexivity|].
  revert H. destruct (tokenFromRequest _ _) as [tok r']. intros (_ & kept & Hk & _).
  exists kept. exact Hk.
Defined.

Example upgrade_token :
  (tokenFromRequest ToyRequest.upgrade ToyRequest.prefix).1 = inl "a.b.c" /\
  Header_Values (r_Header (tokenFromRequest ToyRequest.upgrade ToyRequest.prefix).2) subprotocol_header
    = ["graphql-ws"; "chat"].
Proof. by vm_compute. Qed.

(** With an [Authorization] header the subprotocol entry is not stripped: the
    upgrade still sees, and may echo, the token in it. *)
Example authorization_leaves_subprotocol :
  let r := with_header (Header_Set (r_Header ToyRequest.upgrade) "Authorization" "Bearer x.y.z")
             ToyRequest.upgrade in
  (tokenFromRequest r ToyRequest.prefix).1 = inl "x.y.z" /\
  Header_Values (r_Header (tokenFromRequest r ToyRequest.prefix).2) subprotocol_header
    = Header_Values (r_Header ToyRequest.upgrade) subprotocol_header.
Proof. by vm_compute. Qed.
