(* ===== verification/WebGates.v ===== *)
(** * The gates in front of a handler

    [tenantgate.go], [activetenant.go], [decision.go], the entitlement gate of
    [routes.go], [stepup.go] (without its audit row) and [throttle.go] of
    [src/espresso]. A gate is a [Middleware]; a constructor that panics on a
    misconfiguration is a [go Middleware]. A resolver's [(id, ok)] is an
    option, a nil function is [None]. *)

From stdpp Require Import pretty.
From S2P Require Import Prelude Tenant Authz Bytes World Crypto AuditEvent Http.

#[local] Open Scope string_scope.
#[local] Open Scope list_scope.
#[local] Open Scope Z_scope.

(** A 64-bit signed integer. *)
Definition int64 (z : Z) : Z := (z + 2 ^ 63) mod 2 ^ 64 - 2 ^ 63.

Definition Resolver := Request -> option ID.

(** ** tenantgate.go *)

Definition tokenFitsTenant (claims : option AccessClaims) (routed : string)
    (guests impersonators : bool) : bool :=
  match claims with
  | None => false
  | Some c =>
      if negb (String.eqb (cl_TenantID c) routed) then false
      else if Impersonated c then impersonators
      else if Entered c then guests
      else true
  end.

Definition ImpersonatedFromContext (x : Context) : option (ID * string) :=
  match AccessClaimsFromContext x with
  | Some c => if Impersonated c then Some (New (cl_HomeTenantID c), cl_ActorID c) else None
  | None => None
  end.
Definition EnteredFromContext (x : Context) : option ID :=
  match AccessClaimsFromContext x with
  | Some c => if Entered c then Some (New (cl_HomeTenantID c)) else None
  | None => None
  end.

Definition FixedRequestTenant (id : ID) : go Resolver :=
  if Valid id then Ret (fun _ => Some id) else Panic "FixedRequestTenant requires a set tenant.ID".

(** ** stepup.go: the decision *)

Inductive StepUpDenialReason :=
  StepUpDenyStaleAuth | StepUpDenyWeakACR | StepUpDenyMissingMethod | StepUpDenyMissingClaims.
Definition reason_string (r : StepUpDenialReason) : string :=
  match r with
  | StepUpDenyStaleAuth => "stale_auth_time"
  | StepUpDenyWeakACR => "weak_acr"
  | StepUpDenyMissingMethod => "missing_amr_method"
  | StepUpDenyMissingClaims => "missing_claims"
  end.
#[export] Instance reason_eq_dec : EqDecision StepUpDenialReason.
Proof. solve_decision. Defined.

Fixpoint any_method (c : AccessClaims) (methods : list string) : bool :=
  match methods with
  | [] => false
  | m :: methods => if HasMethod (Some c) m then true else any_method c methods
  end.

(** The reason of a refusal, and the token's [auth_time]. *)
Definition evaluateStepUpGate (claims : option AccessClaims) (maxAge : Z) (acrSet : gset string)
    (now : Z) (requireMethods : list string) : option StepUpDenialReason * Z :=
  match claims with
  | None => (Some StepUpDenyMissingClaims, 0)
  | Some c =>
      if whole_seconds maxAge <? int64 (now - cl_AuthTime c) then (Some StepUpDenyStaleAuth, cl_AuthTime c)
      else if bool_decide (cl_ACR c ∈ acrSet) then
        if negb (bool_decide (requireMethods = [])) && negb (any_method c requireMethods)
        then (Some StepUpDenyMissingMethod, cl_AuthTime c)
        else (None, cl_AuthTime c)
      else (Some StepUpDenyWeakACR, cl_AuthTime c)
  end.

Definition StepUpSatisfied (requestedMaxAge : Z) (requestedACRValues : list string)
    (deliveredAuthTime : Z) (deliveredACR : string) (now : Z) : bool :=
  if (requestedMaxAge <=? 0) && bool_decide (requestedACRValues = []) then false
  else if (0 <? requestedMaxAge) &&
          ((deliveredAuthTime <=? 0) || (requestedMaxAge <? int64 (now - deliveredAuthTime))) then false
  else if negb (bool_decide (requestedACRValues = [])) &&
          negb (existsb (String.eqb deliveredACR) requestedACRValues) then false
  else true.

(** [stepUpConfig]; an option may be a nil function. *)
Record stepUpConfig := MkStepUp { su_now : trace -> time; su_requireMethods : list string }.
Abbreviation StepUpOption := (option (stepUpConfig -> stepUpConfig)).
Definition StepUpRequireMethods (methods : list string) : StepUpOption :=
  Some (fun c => MkStepUp (su_now c) methods).
Definition WithStepUpClock (now : option (trace -> time)) : StepUpOption :=
  Some (fun c => match now with Some now => MkStepUp now (su_requireMethods c) | None => c end).

(** The two walks over the options: only the second one skips a nil. *)
Fixpoint stepUpClock (c : stepUpConfig) (opts : list StepUpOption) : go (trace -> time) :=
  match opts with
  | [] => Ret (su_now c)
  | None :: _ => Panic "nil option"
  | Some o :: opts => stepUpClock (o c) opts
  end.
Fixpoint stepUpMethods (c : stepUpConfig) (opts : list StepUpOption) : list string :=
  match opts with
  | [] => su_requireMethods c
  | None :: opts => stepUpMethods c opts
  | Some o :: opts => stepUpMethods (o c) opts
  end.

Definition prepareStepUpConfig (maxAge : Z) (acrValues : list string) : go (list string * gset string) :=
  if maxAge <=? 0 then Panic "RequireFreshAuth: maxAge must be positive"
  else if bool_decide (acrValues = []) then Panic "RequireFreshAuth: acrValues must be non-empty"
  else Ret (acrValues, list_to_set acrValues).

(** ** throttle.go: keys and the header *)

Definition ThrottledCode : string := "TOO_MANY_REQUESTS".

Definition ThrottleKeyByServiceAccount (r : Request) : string :=
  match GetPrincipal (r_ctx r) with
  | None => "scim:unauthenticated"
  | Some p =>
      if String.eqb (pp_TenantID p) "" then "scim:sa:" +:+ pp_ID p else "scim:tenant:" +:+ pp_TenantID p
  end.
Definition ThrottleKeyByRoutedTenant (r : Request) : string :=
  match TenantFromContext (r_ctx r) with
  | Some t => if Valid t then "tenant:" +:+ ID_String t else "tenant:unresolved"
  | None => "tenant:unresolved"
  end.
Definition ThrottleKeyByRemoteAddr (r : Request) : string := "addr:" +:+ r_RemoteAddr r.

(** [int64(math.Ceil(d.Seconds()))], exact as [whole_seconds] is. *)
Definition ceil_seconds (d : Z) : Z := - ((- d) / 10 ^ 9).
Definition retry_after_seconds (retryAfter : Z) : Z :=
  if 10 ^ 9 <? retryAfter then ceil_seconds retryAfter else 1.

(** ** routes.go: capabilities *)

Definition EntitlementDeniedCode : string := "FEATURE_NOT_ENABLED".
Definition Capability := string.
Definition CapabilitySSO : Capability := "sso".
Definition CapabilitySCIM : Capability := "scim".
Definition capability_allowed (c : Capability) (e : Entitlements) : bool :=
  if String.eqb c CapabilitySSO then SSOEnabled e
  else if String.eqb c CapabilitySCIM then SCIMEnabled e
  else false.

Definition TenantFromRoutedContext : Resolver := fun r => TenantFromContext (r_ctx r).
Definition tenantOfPrincipal (x : Context) : option ID :=
  p ← GetPrincipal x; Some (FromStored (pp_TenantID p)).
Definition TenantFromServiceAccount : Resolver := fun r => tenantOfPrincipal (r_ctx r).

(** ** decision.go: the configuration *)

Record DecisionGate (S : Type) := {
  dg_Authorizer : option (ID -> Subject -> Action -> Resource -> M S Decision);
  dg_Label : string;
  dg_Tenant : option Resolver;
  dg_AllowEntered : bool;
  dg_AllowImpersonated : bool;
  dg_SubjectType : string;
  dg_ResourceType : string;
  dg_ResourceIDFrom : string;
  dg_Action : Action;
  dg_VisibilityAction : Action;
  dg_WriteNotVisible : option (M (Web S) unit);
  dg_WriteDenied : option (M (Web S) unit);
  dg_WriteProbeError : option (M (Web S) unit);
  dg_UserExists : option (ID -> string -> M S bool);
  dg_WriteGhost : option (M (Web S) unit)
}.
Arguments dg_Authorizer {_} _.
Arguments dg_Label {_} _.
Arguments dg_Tenant {_} _.
Arguments dg_AllowEntered {_} _.
Arguments dg_AllowImpersonated {_} _.
Arguments dg_SubjectType {_} _.
Arguments dg_ResourceType {_} _.
Arguments dg_ResourceIDFrom {_} _.
Arguments dg_Action {_} _.
Arguments dg_VisibilityAction {_} _.
Arguments dg_WriteNotVisible {_} _.
Arguments dg_WriteDenied {_} _.
Arguments dg_WriteProbeError {_} _.
Arguments dg_UserExists {_} _.
Arguments dg_WriteGhost {_} _.

Record ActiveTenantGate (S : Type) := {
  ag_Store : option (string -> M S Descriptor);
  ag_Label : string;
  ag_WriteNotActive : option (M (Web S) unit);
  ag_WriteError : option (M (Web S) unit)
}.
Arguments ag_Store {_} _.
Arguments ag_Label {_} _.
Arguments ag_WriteNotActive {_} _.
Arguments ag_WriteError {_} _.

Section Gates.
Context (fw : Framework) {S : Type}.
Local Abbreviation MW := (M (Web S)).
Implicit Type next : Handler S.

Definition pin (t : ID) (r : Request) : Request := WithContext (with_tenant t (r_ctx r)) r.

Definition requireTenant (resolve : option Resolver) (allowEntered allowImpersonated : bool)
    : go (Middleware S) :=
  match resolve with
  | None => Panic "RequireTenant requires a resolve function"
  | Some resolve => Ret (fun next r =>
      let claims := AccessClaimsFromContext (r_ctx r) in
      match resolve r with
      | Some routed =>
          if negb (Valid routed) ||
             negb (tokenFitsTenant claims (ID_String routed) allowEntered allowImpersonated)
          then writeUnauthenticated fw "invalid token"
          else next (pin routed r)
      | None => writeUnauthenticated fw "invalid token"
      end)
  end.
Definition RequireTenant resolve := requireTenant resolve false false.
Definition RequireTenantAllowEntered resolve := requireTenant resolve true false.
Definition RequireTenantAllowImpersonated resolve := requireTenant resolve false true.
Definition RequireTenantAllowEnteredOrImpersonated resolve := requireTenant resolve true true.

Definition PinTenant (resolve : option Resolver) : go (Middleware S) :=
  match resolve with
  | None => Panic "PinTenant requires a resolve function"
  | Some resolve => Ret (fun next r =>
      match resolve r with
      | Some routed =>
          if negb (Valid routed) then write_fw fw (FwError ErrNotFound "not found" (Some "NOT_FOUND") None)
          else next (pin routed r)
      | None => write_fw fw (FwError ErrNotFound "not found" (Some "NOT_FOUND") None)
      end)
  end.

Definition config_error (msg : string) : fw_error := FwError ErrInternal msg (Some "CONFIG_ERROR") None.

Definition RequireActiveTenant (g : ActiveTenantGate S) : go (Middleware S) :=
  match ag_Store g, ag_WriteNotActive g, ag_WriteError g with
  | None, _, _ => Panic "RequireActiveTenant requires a tenant.Store"
  | _, None, _ => Panic "RequireActiveTenant requires WriteNotActive"
  | _, _, None => Panic "RequireActiveTenant requires WriteError"
  | Some byID, Some writeNotActive, Some writeError =>
      if String.eqb (ag_Label g) "" then Panic "RequireActiveTenant requires a Label"
      else Ret (fun next r =>
        match TenantFromContext (r_ctx r) with
        | None => write_fw fw (config_error ("middleware: " +:+ ag_Label g +:+ " gate ran without a pinned tenant"))
        | Some id =>
            if IsSingle id then next r
            else
              try_catch (call_app (byID (ID_String id)))
                (fun err => if errors_is err tenant_ErrNotFound then writeNotActive else writeError)
                (fun desc => if negb (String.eqb (d_Status desc) StatusActive) then writeNotActive else next r)
        end)
  end.

(** *** decision.go *)

Definition gate_configured (g : DecisionGate S) : bool :=
  bool_decide (is_Some (dg_Authorizer g)) && negb (String.eqb (dg_Action g) "") &&
  bool_decide (is_Some (dg_WriteDenied g)) &&
  (String.eqb (dg_VisibilityAction g) "" || bool_decide (is_Some (dg_WriteNotVisible g))) &&
  (negb (bool_decide (is_Some (dg_UserExists g))) || bool_decide (is_Some (dg_WriteGhost g))).

(** Calling a nil function panics; the gate's configuration check rules it out. *)
Definition writer_of (w : option (M (Web S) unit)) : MW unit :=
  match w with Some w => w | None => lift (Panic "nil writer") end.

Definition check_failed (g : DecisionGate S) (err : error) : fw_error :=
  FwError ErrInternal ("middleware: " +:+ dg_Label g +:+ " check failed") None (Some err).

(** The deny path of the requested tier, with the ghost probe. *)
Definition deny_tier (g : DecisionGate S) (home : ID) (userID : string) : MW unit :=
  match dg_UserExists g with
  | None => writer_of (dg_WriteDenied g)
  | Some userExists =>
      try_catch (call_app (userExists home userID))
        (fun _ => match dg_WriteProbeError g with Some w => w | None => writer_of (dg_WriteDenied g) end)
        (fun exists_ => if negb exists_ then writer_of (dg_WriteGhost g) else writer_of (dg_WriteDenied g))
  end.

(** The check of the requested tier. *)
Definition decide_tier (g : DecisionGate S) (authorize : ID -> Subject -> Action -> Resource -> M S Decision)
    (scope home : ID) (userID resourceID : string) next (r : Request) : MW unit :=
  try_catch (call_app (authorize scope (MkSubject home (dg_SubjectType g) userID) (dg_Action g)
                         (MkResource (dg_ResourceType g) resourceID)))
    (fun err => write_fw fw (check_failed g err))
    (fun decision => if negb (Allowed decision) then deny_tier g home userID else next r).

(** From the subject and the resource on: the visibility check, when there is
    one, then the tier, unless the first check already answered it. *)
Definition decide_tiers (g : DecisionGate S) (authorize : ID -> Subject -> Action -> Resource -> M S Decision)
    (scope home : ID) (userID resourceID : string) next (r : Request) : MW unit :=
  if String.eqb (dg_VisibilityAction g) "" then decide_tier g authorize scope home userID resourceID next r
  else
    try_catch (call_app (authorize scope (MkSubject home (dg_SubjectType g) userID) (dg_VisibilityAction g)
                           (MkResource (dg_ResourceType g) resourceID)))
      (fun err => write_fw fw (check_failed g err))
      (fun visible =>
         if negb (Allowed visible) then writer_of (dg_WriteNotVisible g)
         else if String.eqb (dg_VisibilityAction g) (dg_Action g) then next r
         else decide_tier g authorize scope home userID resourceID next r).

Definition RequireDecision (g : DecisionGate S) : go (Middleware S) :=
  match dg_Tenant g with
  | None => Panic "RequireDecision requires DecisionGate.Tenant"
  | Some resolve => Ret (fun next r =>
      match GetUserID (r_ctx r) with
      | None => writeUnauthenticated fw "missing authentication"
      | Some userID =>
          match dg_Authorizer g, gate_configured g with
          | Some authorize, true =>
              let claims := AccessClaimsFromContext (r_ctx r) in
              match resolve r with
              | Some scope =>
                  if negb (Valid scope) ||
                     negb (tokenFitsTenant claims (ID_String scope) (dg_AllowEntered g) (dg_AllowImpersonated g))
                  then writeUnauthenticated fw "invalid token"
                  else
                    let home := default scope (EnteredFromContext (r_ctx r)) in
                    let r := pin scope r in
                    if String.eqb (dg_ResourceIDFrom g) "" then
                      decide_tiers g authorize scope home userID "" next r
                    else
                      let resourceID := r_PathValue r (dg_ResourceIDFrom g) in
                      if String.eqb resourceID "" then
                        write_fw fw (config_error ("middleware: " +:+ dg_ResourceType g +:+ " id path param missing"))
                      else decide_tiers g authorize scope home userID resourceID next r
              | None => writeUnauthenticated fw "invalid token"
              end
          | _, _ => write_fw fw (config_error ("middleware: " +:+ dg_Label g +:+
              " gate misconfigured (nil authorizer or unmapped min role)"))
          end
      end)
  end.

(** *** routes.go *)

Definition writeEntitlementDenied (_ : Request) (c : Capability) : MW unit :=
  write_fw fw (FwError ErrForbidden (c +:+ " is not enabled for this tenant") (Some EntitlementDeniedCode) None).
Definition WriteSCIMEntitlementDenied (_ : Request) (c : Capability) : MW unit :=
  WriteSCIMErrorTyped 403 (c +:+ " is not enabled for this tenant") "".

(** [opts] are the functions given to [WithEntitlementDenyWriter], in order. *)
Definition RequireEntitlement (store : option (ID -> M S Entitlements)) (capability : Capability)
    (resolve : option Resolver) (opts : list (option (Request -> Capability -> MW unit))) : go (Middleware S) :=
  match store, resolve with
  | None, _ => Panic "RequireEntitlement requires an EntitlementStore"
  | _, None => Panic "RequireEntitlement requires a tenant resolver"
  | Some forTenant, Some resolve =>
      let deny := foldl (fun cur fn => default cur fn) writeEntitlementDenied opts in
      Ret (fun next r =>
        match resolve r with
        | None => deny r capability
        | Some tenantID =>
            try_catch (call_app (forTenant tenantID))
              (fun _ => deny r capability)
              (fun ent => if negb (capability_allowed capability ent) then deny r capability else next r)
        end)
  end.

(** *** throttle.go *)

Definition setRetryAfter (retryAfter : Z) : MW unit :=
  header_Set "Retry-After" (pretty (retry_after_seconds retryAfter)).
Definition writeThrottled (_ : Request) (retryAfter : Z) : MW unit :=
  setRetryAfter retryAfter;;
  write_fw fw (FwError ErrTooManyRequests "too many requests" (Some ThrottledCode) None).
Definition WriteSCIMThrottled (_ : Request) (retryAfter : Z) : MW unit :=
  setRetryAfter retryAfter;;
  WriteSCIMErrorTyped 429 "too many requests" "".

Definition Throttled (throttle : option (trace -> string -> bool * Z)) (key : option (Request -> string))
    (opts : list (option (Request -> Z -> MW unit))) : go (Middleware S) :=
  match throttle, key with
  | None, _ => Panic "Throttled requires a crypto.Throttle"
  | _, None => Panic "Throttled requires a key function"
  | Some allow, Some key =>
      let deny := foldl (fun cur fn => default cur fn) writeThrottled opts in
      Ret (fun next r =>
        ok ← observe (EvAllow (key r)) (fun tr => allow tr (key r));
        if negb ok.1 then deny r ok.2 else next r)
  end.

(** *** stepup.go *)

Definition StepUpErrorCode : string := "STEP_UP_REQUIRED".
(** A Go map is encoded with its keys in order. *)
Definition writeStepUpError (maxAge : Z) (acrValues : list string) (authTime now : Z) : MW unit :=
  header_Set "Content-Type" "application/json";;
  WriteHeader 401;;
  encode_body (VObj (fld "error" (VObj (fld "code" (VStr StepUpErrorCode) ++
    fld "details" (VObj (fld "acr_values" (VList (map VStr acrValues)) ++
      fld "current_auth_time" (VInt authTime) ++
      fld "max_age_seconds" (VInt (whole_seconds maxAge)) ++ fld "now" (VInt now))) ++
    fld "message" (VStr "this operation requires fresh authentication"))))).

Definition RequireFreshAuth (E : Env) (maxAge : Z) (acrValues : list string) (opts : list StepUpOption)
    : go (Middleware S) :=
  '(frozenACR, acrSet) ← prepareStepUpConfig maxAge acrValues;
  clock ← stepUpClock (MkStepUp (env_now E) []) opts;
  let methods := stepUpMethods (MkStepUp (env_now E) []) opts in
  Ret (fun next r =>
    t ← observe EvNow clock;
    match evaluateStepUpGate (AccessClaimsFromContext (r_ctx r)) maxAge acrSet (Unix t) methods with
    | (Some _, authTime) => writeStepUpError maxAge frozenACR authTime (Unix t)
    | (None, _) => next r
    end).
End Gates.
