(* ===== verification/WebAudit.v ===== *)
(** * The audit rows of the HTTP layer

    [src/espresso/audit.go]: the middleware that appends an audit row after a
    mutation succeeded, the actor and the scope it records, the capture slots
    of [auth.go], and the row a refused step-up leaves ([stepup.go]). *)

From S2P Require Import Prelude Tenant Bytes World Crypto AuditEvent Http WebGates.

#[local] Open Scope string_scope.
#[local] Open Scope list_scope.
#[local] Open Scope Z_scope.

Record MutationContext := MkMutation {
  mc_Action : string;
  mc_ResourceType : string;
  mc_ResourceIDFrom : string
}.

(** [Logger.Log]. *)
Definition Logger (S : Type) : Type := Event -> M S Event.

Record Auditor (S : Type) := MkAuditor {
  au_Logger : Logger S;
  au_Email : option (string -> M S (option string));
  au_IP : option (Request -> string)
}.
Arguments MkAuditor {_} _ _ _.
Arguments au_Logger {_} _.
Arguments au_Email {_} _.
Arguments au_IP {_} _.

(** [audit.NewNoopLogger().Log]. *)
Definition NoopLogger {S} : Logger S := fun ev => mret ev.
Definition NewAuditor {S} (logger : option (Logger S)) (email : option (string -> M S (option string)))
    : Auditor S := MkAuditor (default NoopLogger logger) email None.

Definition set_IP (ip : string) (a : Actor) : Actor :=
  {| a_Type := a_Type a; a_UserID := a_UserID a; a_Email := a_Email a; a_Name := a_Name a; a_IP := ip;
     a_TenantID := a_TenantID a |}.

(** [eventScope]. *)
Definition eventScope (x : Context) (actor : Actor) : string :=
  match TenantFromContext x with
  | Some routed => ID_String routed
  | None => if String.eqb (a_Type actor) ActorTypeServiceAccount then a_TenantID actor else ""
  end.

(** What the Auditor and the step-up gate leave at zero. *)
Definition no_commitments : Commitments :=
  {| c_ActorEmail := []; c_ActorName := []; c_ActorIP := []; c_Before := []; c_After := [] |}.
Definition new_event (id : string) (at_ : time) (actor : Actor)
    (action resourceType resourceID cluster request scope : string) (after : bytes) : Event :=
  {| ev_ID := id; ev_At := at_; ev_Actor := actor; ev_Action := action; ev_ResourceType := resourceType;
     ev_ResourceID := resourceID; ev_RequestID := request; ev_ClusterID := cluster; ev_Before := [];
     ev_After := after; ev_PrevHash := []; ev_Hash := []; ev_CanonicalVersion := 0; ev_TenantID := scope;
     ev_RowSalt := []; ev_Commitments := no_commitments |}.

Definition ResourceAuth : string := "auth".

Section Audit.
Context {S : Type} (E : Env).
Local Abbreviation MW := (M (Web S)).

(** *** auth.go: the slot for an actor known only after the handler *)

Definition SetAuditActor (x : Context) (actor : Actor) : MW unit :=
  match cx_actorCapture x with
  | None => mret tt
  | Some slot => set_actor slot (set_Type ActorTypeUser actor)
  end.
(** [audit.SetClusterID]. *)
Definition SetClusterID (x : Context) (id : string) : MW unit :=
  match cx_clusterCapture x with None => mret tt | Some slot => set_cluster slot id end.
Definition AuditActorFromContext (x : Context) : MW (option Actor) :=
  match cx_actorCapture x with
  | None => mret None
  | Some slot =>
      actor ← get_web (fun w => default Actor_zero (web_actors w !! slot));
      mret (if bool_decide (actor = Actor_zero) then None else Some actor)
  end.

(** *** audit.go *)

Definition user_row (userID email ip tenantID : string) : Actor :=
  {| a_Type := ActorTypeUser; a_UserID := userID; a_Email := email; a_Name := ""; a_IP := ip;
     a_TenantID := tenantID |}.

Definition lookup_email (a : Auditor S) (userID : string) : MW string :=
  match au_Email a with
  | None => mret ""
  | Some lookup => if String.eqb userID "" then mret "" else e ← call_app (lookup userID); mret (default "" e)
  end.

Definition captureActor (a : Auditor S) (x : Context) (r : Request) : MW Actor :=
  let ip := default IPFromRequest (au_IP a) r in
  let ctxActor := ActorFromContext x in
  if negb (String.eqb (a_Type ctxActor) "") && negb (String.eqb (a_Type ctxActor) ActorTypeUser)
  then mret (set_IP ip ctxActor)
  else
    let userID := default "" (GetUserID x) in
    let tenantID := a_TenantID ctxActor in
    '(userID, tenantID) ←
      (if negb (String.eqb userID "") then mret (userID, tenantID)
       else
         stashed ← AuditActorFromContext x;
         mret match stashed with
         | Some s => (a_UserID s, if String.eqb (a_TenantID s) "" then tenantID else a_TenantID s)
         | None => (userID, tenantID)
         end);
    email ← lookup_email a userID;
    mret (user_row userID email ip tenantID).

Definition push_capture : MW unit := on_writer (fun wr => with_wr_captures (MkCapture 200 false :: wr_captures wr) wr).
(** The writer the middleware wrapped is no longer used: its captured status. *)
Definition pop_capture : MW Z := fun w =>
  let v := w_store w in
  match wr_captures (web_writer v) with
  | c :: cs => (Ret (sw_status c), World (MkWeb (web_app v) (web_actors v) (web_clusters v)
                                    (with_wr_captures cs (web_writer v))) (w_trace w))
  | [] => (Ret 200, w)
  end.

(** What follows a handler that answered 2xx. *)
Definition emit_row (a : Auditor S) (mc : MutationContext) (x : Context) (r : Request) (cluster : nat) : MW unit :=
  actor ← captureActor a x r;
  let resourceID :=
    if String.eqb (mc_ResourceIDFrom mc) "" then "" else default "" (r_PathParams r !! mc_ResourceIDFrom mc) in
  clusterID ← get_web (fun w => default "" (web_clusters w !! cluster));
  id ← newID E;
  at_ ← now E;
  ignore_err (call_app (au_Logger a (new_event id at_ actor (mc_Action mc) (mc_ResourceType mc) resourceID
    clusterID (cx_requestID x) (eventScope x actor) []))).

(** [For] on a non-nil Auditor; on a nil one it is the identity. *)
Definition For (a : option (Auditor S)) (mc : MutationContext) : Middleware S :=
  match a with
  | None => fun next => next
  | Some a => fun next r =>
      slots ← alloc_slots;
      let x := with_captures slots.1 slots.2 (r_ctx r) in
      let r := WithContext x r in
      push_capture;;
      next r;;
      status ← pop_capture;
      if (status <? 200) || (300 <=? status) then mret tt else emit_row a mc x r slots.2
  end.
Definition Mutation (a : option (Auditor S)) (action rt idFrom : string) : Middleware S :=
  For a (MkMutation action rt idFrom).

(** *** stepup.go: the audited gate *)

(** [json.Marshal] of a tree. *)
Context (marshal : jv -> bytes) (fw : Framework).

Definition stepUpDeniedAfter (endpoint method path : string) (reason : StepUpDenialReason) (maxAge : Z)
    (acrValues : list string) (currentACR : string) (authTime now : Z) : jv :=
  VObj (fld "endpoint" (VStr endpoint) ++ fld "method" (VStr method) ++ fld "path" (VStr path) ++
    fld "denial_reason" (VStr (reason_string reason)) ++
    fld "requested_max_age_seconds" (VInt (whole_seconds maxAge)) ++
    fld "requested_acr_values" (VList (map VStr acrValues)) ++
    fld "current_acr" (VStr currentACR) ++ fld "current_auth_time" (VInt authTime) ++ fld "now" (VInt now)).

Definition stepup_actor (claims : option AccessClaims) (r : Request) : Actor :=
  user_row (match claims with Some c => cl_Subject c | None => "" end) "" (IPFromRequest r)
    (match claims with Some c => ActorTenantID c | None => "" end).

Definition emitStepUpDenied (auditLog : option (Logger S)) (claims : option AccessClaims) (r : Request)
    (deniedAction endpoint : string) (reason : StepUpDenialReason) (maxAge : Z) (acrValues : list string)
    (authTime nowSec : Z) : MW unit :=
  match auditLog with
  | None => mret tt
  | Some log =>
      let actor := stepup_actor claims r in
      let currentACR := match claims with Some c => cl_ACR c | None => "" end in
      let after := marshal (stepUpDeniedAfter endpoint (r_Method r) (r_Path r) reason maxAge acrValues
                              currentACR authTime nowSec) in
      id ← newID E;
      at_ ← now E;
      ignore_err (call_app (log (new_event id at_ actor deniedAction ResourceAuth "" "" ""
        (eventScope (r_ctx r) actor) after)))
  end.

Definition RequireFreshAuthWithAudit (maxAge : Z) (acrValues : list string) (auditLog : option (Logger S))
    (deniedAction endpoint : string) (opts : list StepUpOption) : go (Middleware S) :=
  '(frozenACR, acrSet) ← prepareStepUpConfig maxAge acrValues;
  clock ← stepUpClock (MkStepUp (env_now E) []) opts;
  let methods := stepUpMethods (MkStepUp (env_now E) []) opts in
  Ret (fun next r =>
    t ← observe EvNow clock;
    let claims := AccessClaimsFromContext (r_ctx r) in
    match evaluateStepUpGate claims maxAge acrSet (Unix t) methods with
    | (Some reason, authTime) =>
        emitStepUpDenied auditLog claims r deniedAction endpoint reason maxAge frozenACR authTime (Unix t);;
        writeStepUpError maxAge frozenACR authTime (Unix t)
    | (None, _) => next r
    end).
End Audit.
