(* ===== verification/WebAccess.v ===== *)
(** * Who reaches a handler

    The gates of [WebGates] behind [RequireAuth]: which requests reach the
    handler, with what in their context, and what every other request gets.
    The decision gate is composed with the rank engine of [Authz], so that
    reaching a handler comes down to a recorded binding. *)

From S2P Require Import Prelude Tenant Authz AuthzStore Bytes World Crypto Jwt AuditEvent Http WebAuth WebGates.

#[local] Open Scope string_scope.
#[local] Open Scope list_scope.
#[local] Open Scope Z_scope.

(** What a route asks of a token beside its signature: it is for exactly the
    routed tenant, and of a shape the route invites. *)
Definition invited (guests impersonators : bool) (c : AccessClaims) (routed : ID) : Prop :=
  cl_TenantID c = ID_String routed /\ (Impersonated c = true -> impersonators = true) /\
  (Entered c = true -> guests = true).

Lemma Entered_not_Impersonated c : Entered c = true -> Impersonated c = false.
Proof. unfold Entered, Impersonated. destruct (String.eqb (cl_ActorID c) ""); [done|]. by rewrite andb_false_r. Qed.

Lemma tokenFitsTenant_spec c routed g i :
  tokenFitsTenant (Some c) (ID_String routed) g i = true <-> invited g i c routed.
Proof.
  unfold tokenFitsTenant, invited. destruct (String.eqb_spec (cl_TenantID c) (ID_String routed)) as [->|Hne]; cbn.
  - destruct (Impersonated c) eqn:Hi; [|destruct (Entered c); naive_solver].
    destruct (Entered c) eqn:He; [|naive_solver]. apply Entered_not_Impersonated in He. congruence.
  - split; [done|]. by intros [].
Qed.

(** The home tenant the subject of a question gets. *)
Definition home_of (c : AccessClaims) (scope : ID) : ID :=
  if Entered c then New (cl_HomeTenantID c) else scope.

Lemma home_of_valid c scope : Valid scope = true -> Valid (home_of c scope) = true.
Proof.
  unfold home_of, Entered, New. intros Hv. destruct (String.eqb_spec (cl_HomeTenantID c) ""); cbn; [done|].
  by destruct (String.eqb (cl_ActorID c) "").
Qed.

Lemma call_app_lift {S A} (m : go A) (w : world (Web S)) : call_app (lift m : M S A) w = (m, w).
Proof. destruct w as [[app actors clusters writer] tr]. done. Qed.

Section Access.
Context (fw : Framework) {S : Type} (lib : JWTLibrary) (E : Env) (j : JWTService) (ks : Keys).
Local Abbreviation auth := (RequireAuth fw lib E j ks (S:=S)).
Implicit Types (r : Request) (w : world (Web S)).

(** The request behind [RequireAuth]. *)
Definition authed r (c : AccessClaims) : Request := WithContext (decorateAuthed (r_ctx r) c) r.

(** The bearer token of the request parses to [c]. *)
Definition presents r w (c : AccessClaims) w1 : Prop :=
  exists tok, bearerToken (Header_Get (r_Header r) "Authorization") = inl tok /\
    ParseAccess lib E j ks tok w = (Ret c, w1).

(** The one refusal of a request whose header holds a token. *)
Definition refused401 (mw : Middleware S) r w : Prop :=
  exists msg w1, refuses mw r w (writeUnauthenticated fw msg w1) /\ w_store w1 = w_store w /\
    (msg = "invalid token" \/ bearerToken (Header_Get (r_Header r) "Authorization") = inr msg).
(** golang-jwt or a signer of the application panicked. *)
Definition panicked (mw : Middleware S) r w : Prop := exists why w1, refuses mw r w (Panic why, w1).

Lemma presents_facts r w c w1 : presents r w c w1 ->
  w_store w1 = w_store w /\ access_shape c /\
  exists tok, bearerToken (Header_Get (r_Header r) "Authorization") = inl tok /\
    authentic lib j ks KAccess tok (env_now E (w_trace w)) c.
Proof.
  intros (tok & Hb & Hp). destruct (ParseAccess_run lib E j ks tok w _ _ Hp) as (Hw & Hg & _).
  destruct (Hg c eq_refl) as [Hs Hn]. split_and!; [done..|]. by exists tok.
Qed.

Lemma presents_det r w c1 w1 c2 w2 : presents r w c1 w1 -> presents r w c2 w2 -> c1 = c2 /\ w1 = w2.
Proof. intros (t1 & H1 & Hp1) (t2 & H2 & Hp2). rewrite H1 in H2. injection H2 as <-. rewrite Hp1 in Hp2. by injection Hp2. Qed.

Lemma auth_outcome r w :
  (exists c w1, presents r w c w1 /\ admits auth r w (authed r c) w1) \/
  ((forall c w1, ~ presents r w c w1) /\ (refused401 auth r w \/ panicked auth r w)).
Proof.
  destruct (RequireAuth_outcome fw lib E j ks r w) as [(msg & Hb & Hr)|(tok & res & w1 & Hb & Hp & H)].
  - right. split; [intros c w1 (tok & Hb' & _); congruence|]. left. exists msg, w. by split_and!; [| |right].
  - destruct res as [c|e|why].
    + left. exists c, w1. split; [by exists tok|done].
    + right. split; [intros c w2 (tok' & Hb' & Hp'); congruence|]. left. exists "invalid token", w1.
      split_and!; [done| |by left]. by destruct (ParseAccess_run lib E j ks tok w _ _ Hp).
    + right. split; [intros c w2 (tok' & Hb' & Hp'); congruence|]. right. by exists why, w1.
Qed.

Lemma refused_compose inner r w : refused401 auth r w -> refused401 (compose auth inner) r w.
Proof. intros (msg & w1 & Hr & Hrest). exists msg, w1. split; [by apply compose_refuses|done]. Qed.
Lemma panicked_compose inner r w : panicked auth r w -> panicked (compose auth inner) r w.
Proof. intros (why & w1 & Hr). exists why, w1. by apply compose_refuses. Qed.
Lemma refused_behind inner r w c w1 : presents r w c w1 -> admits auth r w (authed r c) w1 ->
  refuses inner (authed r c) w1 (writeUnauthenticated fw "invalid token" w1) ->
  refused401 (compose auth inner) r w.
Proof.
  intros Hp Ha Hr. exists "invalid token", w1. split_and!; [|by apply presents_facts in Hp as []|by left].
  by eapply compose_admits_refuses.
Qed.

(** ** The tenant gate *)

Section TenantGate.
Context (resolve : Resolver) (guests impersonators : bool).

Definition tenant_route r w (c : AccessClaims) (routed : ID) w1 : Prop :=
  presents r w c w1 /\ resolve (authed r c) = Some routed /\ Valid routed = true /\
  invited guests impersonators c routed.

Lemma requireTenant_outcome gate r w c w1 : requireTenant fw (Some resolve) guests impersonators = Ret gate ->
  AccessClaimsFromContext (r_ctx r) = Some c ->
  (exists routed, resolve r = Some routed /\ Valid routed = true /\ invited guests impersonators c routed /\
     admits gate r w1 (pin routed r) w1) \/
  ((forall routed, resolve r = Some routed -> Valid routed = true -> ~ invited guests impersonators c routed) /\
   refuses gate r w1 (writeUnauthenticated fw "invalid token" w1)).
Proof.
  intros [= <-] Hc. unfold admits, refuses. rewrite Hc. destruct (resolve r) as [routed|] eqn:Hres; [|by right].
  destruct (Valid routed) eqn:Hv; cbn [negb orb].
  - destruct (tokenFitsTenant (Some c) (ID_String routed) guests impersonators) eqn:Hf; cbn [negb].
    + left. exists routed. by rewrite <- tokenFitsTenant_spec.
    + right. split; [|done]. intros routed' [= <-] _ Hi. apply tokenFitsTenant_spec in Hi. congruence.
  - right. split; [|done]. intros routed' [= <-]. congruence.
Qed.

(** Behind [RequireAuth] and a tenant gate a handler runs exactly when the
    bearer token is authentic at the clock's reading and of the access shape, the route resolves to a
    tenant that is set, the token is for exactly that tenant, and its shape
    (entered, impersonated) is one the gate was built to accept; it then sees
    that tenant, the token's subject and its claims, and nothing has been
    written or stored. Every other request is refused with the same 401 bytes
    as a bad token, without touching any state, unless a library panics. *)
Theorem tenant_gate_exact gate r w : requireTenant fw (Some resolve) guests impersonators = Ret gate ->
  ((exists r' w', admits (compose auth gate) r w r' w') <-> exists c routed w1, tenant_route r w c routed w1) /\
  (forall c routed w1, tenant_route r w c routed w1 ->
     let r' := pin routed (authed r c) in
     admits (compose auth gate) r w r' w1 /\ w_store w1 = w_store w /\ access_shape c /\
     (exists tok, bearerToken (Header_Get (r_Header r) "Authorization") = inl tok /\
        authentic lib j ks KAccess tok (env_now E (w_trace w)) c) /\
     TenantFromContext (r_ctx r') = Some routed /\ GetUserID (r_ctx r') = Some (cl_Subject c) /\
     AccessClaimsFromContext (r_ctx r') = Some c) /\
  ((forall c routed w1, ~ tenant_route r w c routed w1) ->
     refused401 (compose auth gate) r w \/ panicked (compose auth gate) r w).
Proof.
  intros Hgate.
  assert (forall c routed w1, tenant_route r w c routed w1 ->
    admits (compose auth gate) r w (pin routed (authed r c)) w1) as Hyes.
  { intros c routed w1 (Hp & Hres & Hv & Hi).
    destruct (auth_outcome r w) as [(c' & w1' & Hp' & Ha)|(Hno & _)]; [|by destruct (Hno c w1)].
    destruct (presents_det _ _ _ _ _ _ Hp Hp') as [<- <-].
    destruct (requireTenant_outcome gate (authed r c) w c w1 Hgate eq_refl)
      as [(routed' & Hres' & _ & _ & Hadm)|(Hno & _)]; [|by destruct (Hno routed Hres Hv)].
    assert (routed' = routed) as -> by congruence. by eapply compose_admits_admits. }
  assert ((exists c routed w1, tenant_route r w c routed w1) \/
    ((forall c routed w1, ~ tenant_route r w c routed w1) /\
     (refused401 (compose auth gate) r w \/ panicked (compose auth gate) r w))) as Hcases.
  { destruct (auth_outcome r w) as [(c & w1 & Hp & Ha)|(Hno & Hr)].
    - destruct (requireTenant_outcome gate (authed r c) w c w1 Hgate eq_refl)
        as [(routed & Hres & Hv & Hi & _)|(Hno & Hr)]; [left; by exists c, routed, w1|right].
      split; [|left; by eapply refused_behind].
      intros c' routed w1' (Hp' & Hres & Hv & Hi). destruct (presents_det _ _ _ _ _ _ Hp Hp') as [<- <-].
      by destruct (Hno routed Hres Hv).
    - right. split; [by intros c routed w1 (Hp & _); destruct (Hno c w1)|].
      destruct Hr; [left; by apply refused_compose|right; by apply panicked_compose]. }
  split_and!.
  - split; [|intros (c & routed & w1 & H); eexists _, _; by apply Hyes].
    intros (r' & w' & Ha). destruct Hcases as [H|(_ & [(msg & w1 & Hr & _)|(why & w1 & Hr)])]; [done|..];
      destruct (not_both _ _ _ _ _ _ Ha Hr).
  - intros c routed w1 H. pose proof (Hyes _ _ _ H) as Ha. destruct H as (Hp & _).
    apply presents_facts in Hp as (Hw & Hs & Hn). split_and!; try done.
    destruct Hs as (_ & Hsub & _). cbn. by rewrite (proj2 (String.eqb_neq _ _) Hsub).
  - intros Hno. destruct Hcases as [(c & routed & w1 & H)|(_ & H)]; [by destruct (Hno c routed w1)|done].
Qed.
End TenantGate.

(** ** The decision gate over the rank engine *)

Section DecisionGate.
Context (g : DecisionGate S) (resolve : Resolver) (e : RBAC) (B : list Binding).
Context (Htenant : dg_Tenant g = Some resolve) (Hconf : gate_configured g = true).
Context (Hauth : dg_Authorizer g = Some (fun t sub act res => lift (RBAC_Check e t sub act res))).
Context (Hpolicy : policy_ok (rb_h e) (rb_p e)) {HB : Represents B (rb_store e)}.

Definition resource_id r : string :=
  if String.eqb (dg_ResourceIDFrom g) "" then "" else r_PathValue r (dg_ResourceIDFrom g).
Definition names_resource r : Prop := dg_ResourceIDFrom g = "" \/ resource_id r <> "".

(** The question of an action: whose resources these are is the scope, where
    the subject is from is the token's home tenant. *)
Definition grants r (c : AccessClaims) (scope : ID) (act : Action) : Prop :=
  granted (rb_h e) (rb_p e) B scope (MkSubject (home_of c scope) (dg_SubjectType g) (cl_Subject c)) act
    (MkResource (dg_ResourceType g) (resource_id r)).
Definition visible r c scope : Prop := dg_VisibilityAction g = "" \/ grants r c scope (dg_VisibilityAction g).

Lemma check_table r c scope act : Valid scope = true ->
  exists d, RBAC_Check e scope (MkSubject (home_of c scope) (dg_SubjectType g) (cl_Subject c)) act
      (MkResource (dg_ResourceType g) (resource_id r)) = Ret d /\
    (Allowed d = true <-> grants r c scope act).
Proof. intros Hv. apply RBAC_Check_table; [done..|]. apply gate_Ret. split; [done|]. by apply home_of_valid. Qed.

Local Abbreviation engine := (fun t sub act res => lift (RBAC_Check e t sub act res) : M S Decision).
Definition tier r c scope : Middleware S := fun next =>
  decide_tier fw g engine scope (home_of c scope) (cl_Subject c) (resource_id r) next.
Definition tiers r c scope : Middleware S := fun next =>
  decide_tiers fw g engine scope (home_of c scope) (cl_Subject c) (resource_id r) next.

Lemma tier_outcome r c scope r1 w : Valid scope = true ->
  (grants r c scope (dg_Action g) /\ admits (tier r c scope) r1 w r1 w) \/
  (~ grants r c scope (dg_Action g) /\
     refuses (tier r c scope) r1 w (deny_tier g (home_of c scope) (cl_Subject c) w)).
Proof.
  intros Hv. destruct (check_table r c scope (dg_Action g) Hv) as (d & Hd & Hiff).
  assert (forall next, tier r c scope next r1 w = if negb (Allowed d)
    then deny_tier g (home_of c scope) (cl_Subject c) w else next r1 w) as Hrun.
  { intros next. unfold tier, decide_tier, try_catch. rewrite call_app_lift, Hd. by destruct (Allowed d). }
  destruct (Allowed d); cbn [negb] in Hrun; [left|right]; (split; [|done]); [by apply Hiff|].
  intros Hg. by apply Hiff in Hg.
Qed.

Lemma tiers_outcome r c scope r1 w : Valid scope = true ->
  (visible r c scope /\ grants r c scope (dg_Action g) /\ admits (tiers r c scope) r1 w r1 w) \/
  (~ visible r c scope /\ refuses (tiers r c scope) r1 w (writer_of (dg_WriteNotVisible g) w)) \/
  (visible r c scope /\ ~ grants r c scope (dg_Action g) /\
     refuses (tiers r c scope) r1 w (deny_tier g (home_of c scope) (cl_Subject c) w)).
Proof.
  intros Hv. pose proof (tier_outcome r c scope r1 w Hv) as Htier.
  destruct (check_table r c scope (dg_VisibilityAction g) Hv) as (d & Hd & Hiff).
  assert (forall next, tiers r c scope next r1 w =
    if String.eqb (dg_VisibilityAction g) "" then tier r c scope next r1 w
    else if negb (Allowed d) then writer_of (dg_WriteNotVisible g) w
    else if String.eqb (dg_VisibilityAction g) (dg_Action g) then next r1 w
    else tier r c scope next r1 w) as Hrun.
  { intros next. unfold tiers, decide_tiers. destruct (String.eqb (dg_VisibilityAction g) ""); [done|].
    unfold try_catch at 1. rewrite call_app_lift, Hd. destruct (Allowed d); cbn [negb]; [|done].
    by destruct (String.eqb (dg_VisibilityAction g) (dg_Action g)). }
  unfold admits, refuses, visible in *. setoid_rewrite Hrun.
  destruct (String.eqb_spec (dg_VisibilityAction g) "") as [Hvis|Hvis]; [naive_solver|].
  destruct (Allowed d); cbn [negb].
  - assert (grants r c scope (dg_VisibilityAction g)) as Hsee by by apply Hiff.
    destruct (String.eqb_spec (dg_VisibilityAction g) (dg_Action g)) as [Heq|_]; [|naive_solver].
    rewrite Heq in Hsee. left. split_and!; [right; by rewrite Heq|done..].
  - right; left. split; [|done]. intros [Hc|Hc]; [done|]. by apply Hiff in Hc.
Qed.

(** The request gets as far as the checks. *)
Definition decision_route r w c scope w1 : Prop :=
  tenant_route resolve (dg_AllowEntered g) (dg_AllowImpersonated g) r w c scope w1 /\ names_resource r.

Lemma RequireDecision_behind gate r w c w1 : RequireDecision fw g = Ret gate -> presents r w c w1 ->
  (exists scope, resolve (authed r c) = Some scope /\ Valid scope = true /\
     invited (dg_AllowEntered g) (dg_AllowImpersonated g) c scope /\
     forall next, gate next (authed r c) w1 =
       if bool_decide (names_resource r) then tiers r c scope next (pin scope (authed r c)) w1
       else write_fw fw (config_error ("middleware: " +:+ dg_ResourceType g +:+ " id path param missing")) w1) \/
  ((forall scope, resolve (authed r c) = Some scope -> Valid scope = true ->
      ~ invited (dg_AllowEntered g) (dg_AllowImpersonated g) c scope) /\
   refuses gate (authed r c) w1 (writeUnauthenticated fw "invalid token" w1)).
Proof.
  intros Hgate Hp. apply presents_facts in Hp as (_ & (_ & Hsub & _) & _).
  assert (GetUserID (r_ctx (authed r c)) = Some (cl_Subject c)) as Huser by by apply GetUserID_decorated.
  unfold RequireDecision in Hgate. rewrite Htenant in Hgate. injection Hgate as <-. unfold refuses.
  rewrite Huser, Hauth, Hconf. destruct (resolve (authed r c)) as [scope|] eqn:Hres; [|by right].
  destruct (Valid scope) eqn:Hv; cbn [negb orb]; [|by right; split; [intros ? [= <-]; congruence|]].
  change (AccessClaimsFromContext (r_ctx (authed r c))) with (Some c).
  destruct (tokenFitsTenant (Some c) (ID_String scope) (dg_AllowEntered g) (dg_AllowImpersonated g)) eqn:Hf;
    cbn [negb].
  - left. exists scope. rewrite <- tokenFitsTenant_spec. split_and!; [done..|]. intros next.
    replace (default scope (EnteredFromContext (r_ctx (authed r c)))) with (home_of c scope)
      by (unfold EnteredFromContext, home_of; cbn; by destruct (Entered c)).
    unfold tiers, names_resource, resource_id. destruct (String.eqb_spec (dg_ResourceIDFrom g) "") as [Hf0|Hf0].
    + by rewrite bool_decide_eq_true_2 by by left.
    + cbn [r_PathValue pin WithContext authed].
      destruct (String.eqb_spec (r_PathValue r (dg_ResourceIDFrom g)) "") as [He|He].
      * rewrite bool_decide_eq_false_2; [done|]. by intros [|].
      * by rewrite bool_decide_eq_true_2 by by right.
  - right. split; [|done]. intros scope' [= <-] _ Hi. apply tokenFitsTenant_spec in Hi. congruence.
Qed.

(** C23: A handler behind [RequireAuth] and a decision gate over the rank
    engine runs exactly when the bearer token is authentic and fits the tenant
    the gate itself resolves, the route names a resource if it has to, and the
    binding table grants the gate's action (and its visibility action) on that
    resource, in the scope of that tenant, to the token's subject with the
    token's home tenant: an entered admin is judged by what the entered tenant
    granted to a subject of the admin's own tenant, an impersonating one as
    the user. A request that fits but may not see the resource gets the
    not-visible answer, one that may see it but not act gets the deny path,
    and any other gets the 401 of a bad token. *)
Theorem decision_gate_exact gate r w : RequireDecision fw g = Ret gate ->
  let chain := compose auth gate in
  ((exists r' w', admits chain r w r' w') <-> exists c scope w1, decision_route r w c scope w1 /\
     visible r c scope /\ grants r c scope (dg_Action g)) /\
  (forall c scope w1, decision_route r w c scope w1 ->
     w_store w1 = w_store w /\
     (visible r c scope -> grants r c scope (dg_Action g) -> admits chain r w (pin scope (authed r c)) w1) /\
     (~ visible r c scope -> refuses chain r w (writer_of (dg_WriteNotVisible g) w1)) /\
     (visible r c scope -> ~ grants r c scope (dg_Action g) ->
        refuses chain r w (deny_tier g (home_of c scope) (cl_Subject c) w1))) /\
  ((forall c scope w1, ~ tenant_route resolve (dg_AllowEntered g) (dg_AllowImpersonated g) r w c scope w1) ->
     refused401 chain r w \/ panicked chain r w).
Proof.
  intros Hgate chain.
  assert (forall c scope w1, decision_route r w c scope w1 -> forall next, chain next r w =
    tiers r c scope next (pin scope (authed r c)) w1) as Hroute.
  { intros c scope w1 [(Hp & Hres & Hv & Hi) Hname] next.
    destruct (auth_outcome r w) as [(c' & w1' & Hp' & Ha)|(Hno & _)]; [|by destruct (Hno c w1)].
    destruct (presents_det _ _ _ _ _ _ Hp Hp') as [<- <-]. unfold chain, compose. rewrite Ha.
    destruct (RequireDecision_behind gate r w c w1 Hgate Hp) as [(s & Hs & _ & _ & Hn)|(Hno & _)];
      [|by destruct (Hno scope Hres Hv)].
    assert (s = scope) as -> by congruence. by rewrite Hn, bool_decide_eq_true_2. }
  split_and!.
  - split.
    + intros (r' & w' & Ha).
      destruct (auth_outcome r w) as [(c & w1 & Hp & Hadm)|(_ & Hr)].
      2: { exfalso. destruct Hr as [Hr|Hr]; [apply (refused_compose gate) in Hr as (msg & w1 & Hr & _)
             |apply (panicked_compose gate) in Hr as (why & w1 & Hr)]; by eapply not_both. }
      destruct (RequireDecision_behind gate r w c w1 Hgate Hp) as [(scope & Hs & Hv & Hi & Hn)|(_ & Hr)].
      2: { exfalso. eapply not_both; [exact Ha|]. by eapply compose_admits_refuses. }
      destruct (bool_decide (names_resource r)) eqn:Hname.
      2: { exfalso. eapply not_both; [exact Ha|]. intros next. unfold chain, compose. by rewrite Hadm, Hn. }
      apply bool_decide_eq_true in Hname. exists c, scope, w1.
      assert (decision_route r w c scope w1) as Hd by done. split; [done|].
      destruct (tiers_outcome r c scope (pin scope (authed r c)) w1 Hv) as [(?&?&_)|[(_&Hr)|(_&_&Hr)]];
        [done|exfalso..]; eapply not_both; try exact Ha; intros next; rewrite (Hroute _ _ _ Hd); apply Hr.
    + intros (c & scope & w1 & Hd & Hsee & Hg). exists (pin scope (authed r c)), w1. intros next.
      rewrite (Hroute _ _ _ Hd). destruct Hd as [(_ & _ & Hv & _) _].
      destruct (tiers_outcome r c scope (pin scope (authed r c)) w1 Hv) as [(_&_&H)|[(?&_)|(_&?&_)]]; [apply H|done..].
  - intros c scope w1 Hd. pose proof (Hroute _ _ _ Hd) as Hrun. destruct Hd as [(Hp & _ & Hv & _) _].
    split; [by apply presents_facts in Hp as []|]. unfold admits, refuses. setoid_rewrite Hrun.
    destruct (tiers_outcome r c scope (pin scope (authed r c)) w1 Hv) as [(?&?&H)|[(?&H)|(?&?&H)]];
      (split_and!; [intros ??|intros ?|intros ??]; try (exfalso; tauto); exact H).
  - intros Hno. destruct (auth_outcome r w) as [(c & w1 & Hp & Ha)|(_ & Hr)].
    + destruct (RequireDecision_behind gate r w c w1 Hgate Hp) as [(scope & Hs & Hv & Hi & _)|(_ & Hr)].
      * by destruct (Hno c scope w1).
      * left. by eapply refused_behind.
    + destruct Hr; [left; by apply refused_compose|right; by apply panicked_compose].
Qed.
End DecisionGate.
End Access.

(** ** Witnesses *)

Module ToyWeb.
Definition fw : Framework := {|
  fw_status e := match fe_kind e with
    | ErrBadRequest => 400 | ErrUnauthorized => 401 | ErrForbidden => 403 | ErrNotFound => 404
    | ErrConflict => 409 | ErrTooManyRequests => 429 | ErrInternal => 500 | ErrServiceUnavailable => 503
    | NewError s => s end;
  fw_header _ h := h;
  fw_body e := [Encoded (VObj [("code", VStr (default "" (fe_code e))); ("message", VStr (fe_msg e))])]
|}.
Definition world : world (Web unit) := World (MkWeb tt [] [] fresh_writer) [EvNow].
Definition bearer (tok : string) : Request :=
  with_header (Header_Set ∅ "authorization" ("Bearer " +:+ tok)) (ToyRequest.get ∅).

(** Bob of acme, who entered globex. *)
Definition guest_request : Request :=
  let r := bearer (minted_token bob_minted) in
  MkRequest (r_Method r) (r_Path r) (r_Header r) (r_RemoteAddr r) (r_Host r) (r_TLS r) (r_Cookie r)
    (fun k => if String.eqb k "id" then "c1" else "") (r_PathParams r) (r_Query r) (r_ctx r).
Definition parsed := ParseAccess (S:=Web unit) Toy.lib toy_env Toy.service Toy.keys (minted_token bob_minted) world.
Definition guest : AccessClaims :=
  match parsed.1 with Ret c => c | _ => MkAccessClaims 0 "" [] "" "" "" "" "" "" 0 0 end.

Lemma parsed_run : parsed = (Ret guest, parsed.2).
Proof.
  assert (is_ret parsed.1 = true) as H by (vm_compute; reflexivity).
  unfold guest. destruct parsed as [[c| |] w]; [done|discriminate H..].
Qed.
Lemma guest_presents : presents Toy.lib toy_env Toy.service Toy.keys guest_request world guest parsed.2.
Proof.
  exists (minted_token bob_minted). split; [vm_compute; reflexivity|]. exact parsed_run.
Qed.
Lemma guest_tid : cl_TenantID guest = "globex".
Proof. by vm_compute. Qed.
Lemma guest_home : cl_HomeTenantID guest = "acme".
Proof. by vm_compute. Qed.
Lemma guest_act : cl_ActorID guest = "".
Proof. by vm_compute. Qed.
Lemma guest_sub : cl_Subject guest = "bob".
Proof. by vm_compute. Qed.

Definition route : Resolver := fun _ => Some (New "globex").
Definition bindings : BindingTable :=
  [MkBinding (New "globex") (MkSubject (New "acme") "user" "bob") (MkResource "cluster" "c1") "admin"].
Definition engine : RBAC := MkRBAC (Mem_store bindings) demo_hierarchy demo_policy.
Lemma bindings_represented : Represents bindings (rb_store engine).
Proof.
  apply Mem_represents. split; [by apply (bool_decide_unpack _); vm_compute|].
  intros b [->|Hb%not_elem_of_nil]%elem_of_cons; done.
Qed.
Definition gate : DecisionGate unit := {|
  dg_Authorizer := Some (fun t sub act res => lift (RBAC_Check engine t sub act res));
  dg_Label := "cluster role"; dg_Tenant := Some route; dg_AllowEntered := true; dg_AllowImpersonated := false;
  dg_SubjectType := "user"; dg_ResourceType := "cluster"; dg_ResourceIDFrom := "id";
  dg_Action := "cluster.deploy"; dg_VisibilityAction := ""; dg_WriteNotVisible := None;
  dg_WriteDenied := Some (write_fw fw (FwError ErrForbidden "denied" None None));
  dg_WriteProbeError := None; dg_UserExists := None; dg_WriteGhost := None
|}.
Definition handler_of {A} (m : go (Middleware A)) : Middleware A :=
  match m with Ret h => h | _ => fun next => next end.
Lemma guest_invited : invited true false guest (New "globex").
Proof.
  unfold invited, Impersonated. rewrite guest_tid, guest_act. split; [reflexivity|]. by split.
Qed.
End ToyWeb.

Lemma tenant_gate_exact_witness :
  exists r' w', admits (compose (RequireAuth ToyWeb.fw Toy.lib toy_env Toy.service Toy.keys)
    (ToyWeb.handler_of (requireTenant ToyWeb.fw (Some ToyWeb.route) true false)))
    ToyWeb.guest_request ToyWeb.world r' w'.
Proof.
  destruct (tenant_gate_exact ToyWeb.fw Toy.lib toy_env Toy.service Toy.keys ToyWeb.route true false _
    ToyWeb.guest_request ToyWeb.world eq_refl) as [Hiff _].
  apply Hiff. exists ToyWeb.guest, (New "globex"), ToyWeb.parsed.2.
  split; [exact ToyWeb.guest_presents|]. split; [reflexivity|]. split; [reflexivity|]. exact ToyWeb.guest_invited.
Defined.

Lemma decision_gate_exact_witness :
  exists r' w', admits (compose (RequireAuth ToyWeb.fw Toy.lib toy_env Toy.service Toy.keys)
    (ToyWeb.handler_of (RequireDecision ToyWeb.fw ToyWeb.gate))) ToyWeb.guest_request ToyWeb.world r' w'.
Proof.
  destruct (decision_gate_exact ToyWeb.fw Toy.lib toy_env Toy.service Toy.keys ToyWeb.gate ToyWeb.route
    ToyWeb.engine ToyWeb.bindings eq_refl eq_refl eq_refl demo_policy_ok (HB := ToyWeb.bindings_represented) _
    ToyWeb.guest_request ToyWeb.world eq_refl) as [Hiff _].
  apply Hiff. exists ToyWeb.guest, (New "globex"), ToyWeb.parsed.2. split.
  { split; [|by right]. split; [exact ToyWeb.guest_presents|]. split; [reflexivity|]. split; [reflexivity|].
    exact ToyWeb.guest_invited. }
  split; [by left|]. unfold grants, granted.
  unfold home_of, Entered. rewrite ToyWeb.guest_home, ToyWeb.guest_act, ToyWeb.guest_sub.
  eexists _, _, _. split; [vm_compute; reflexivity|]. split; [by left|]. split; [by left|].
  split_and!; [reflexivity|reflexivity|reflexivity|vm_compute; lia].
Defined.
