(* ===== verification/WebPolicies.v ===== *)
(** * Status, freshness and rate

    What the tenant-status gate, the entitlement gate, the fresh-auth gate and
    the throttle of [WebGates] decide. *)

From S2P Require Import Prelude Tenant Authz Bytes World Crypto Jwt AuditEvent Http WebAuth WebGates WebAccess.

#[local] Open Scope string_scope.
#[local] Open Scope list_scope.
#[local] Open Scope Z_scope.

Section Policies.
Context (fw : Framework) {S : Type}.
Implicit Types (r : Request) (w : world (Web S)).

(** ** Active tenants *)

(** The tenant a route is served for may be served. *)
Definition serves (s : Store) (t : ID) : Prop :=
  IsSingle t = true \/ exists d, ByID s (ID_String t) = Ret d /\ d_Status d = StatusActive.
(** It is known not to be active: no such tenant, or another status. *)
Definition not_active (s : Store) (t : ID) : Prop :=
  IsSingle t = false /\
  ((exists e, ByID s (ID_String t) = Fail e /\ errors_is e tenant_ErrNotFound = true) \/
   (exists d, ByID s (ID_String t) = Ret d /\ d_Status d <> StatusActive)).

(** Behind [PinTenant] and the status gate a handler runs exactly for the
    tenants the route resolves that are the single tenant or have the status
    active in the store; an unknown tenant and one that is suspended, pending
    or of any other status get the very same answer, whatever the request; and
    a store that fails is neither: it gets the error writer. *)
Theorem active_gate_exact (g : ActiveTenantGate S) (s : Store) (resolve : Resolver) notActive onError pinned gate r w :
  ag_Store g = Some (fun id => lift (ByID s id)) ->
  ag_WriteNotActive g = Some notActive -> ag_WriteError g = Some onError ->
  PinTenant fw (Some resolve) = Ret pinned -> RequireActiveTenant fw g = Ret gate ->
  let chain := compose pinned gate in
  ((exists r' w', admits chain r w r' w') <->
     exists t, resolve r = Some t /\ Valid t = true /\ serves s t) /\
  (forall t, resolve r = Some t -> Valid t = true ->
     (serves s t -> admits chain r w (pin t r) w) /\
     (not_active s t -> refuses chain r w (notActive w)) /\
     (forall e, IsSingle t = false -> ByID s (ID_String t) = Fail e -> errors_is e tenant_ErrNotFound = false ->
        refuses chain r w (onError w))).
Proof.
  intros Hs Hna Herr [= <-] Hgate chain. unfold RequireActiveTenant in Hgate. rewrite Hs, Hna, Herr in Hgate.
  destruct (String.eqb (ag_Label g) ""); [discriminate|]. injection Hgate as <-.
  assert (forall t next, resolve r = Some t -> Valid t = true -> chain next r w =
    if IsSingle t then next (pin t r) w
    else match ByID s (ID_String t) with
         | Ret d => if negb (String.eqb (d_Status d) StatusActive) then notActive w else next (pin t r) w
         | Fail e => if errors_is e tenant_ErrNotFound then notActive w else onError w
         | Panic why => (Panic why, w)
         end) as Hrun.
  { intros t next Hres Hv. unfold chain, compose. rewrite Hres, Hv. cbn [negb].
    cbn [TenantFromContext r_ctx pin WithContext cx_tenant with_tenant]. destruct (IsSingle t); [done|].
    unfold try_catch. rewrite call_app_lift. destruct (ByID s (ID_String t)) as [d|e|why]; [|by destruct (errors_is e _)|done].
    by destruct (String.eqb (d_Status d) StatusActive). }
  assert (forall t, resolve r = Some t -> Valid t = true -> serves s t -> admits chain r w (pin t r) w) as Hyes.
  { intros t Hres Hv Hok next. rewrite (Hrun t next Hres Hv). destruct Hok as [->|(d & -> & ->)]; [done|].
    by destruct (IsSingle t). }
  split; [split|].
  - intros (r' & w' & Ha). destruct (resolve r) as [t|] eqn:Hres.
    2: { exfalso. eapply not_both; [exact Ha|]. intros next. unfold chain, compose. by rewrite Hres. }
    destruct (Valid t) eqn:Hv.
    2: { exfalso. eapply not_both; [exact Ha|]. intros next. unfold chain, compose. rewrite Hres, Hv. cbn [negb]. done. }
    exists t. split_and!; [done..|]. unfold serves. destruct (IsSingle t) eqn:Hsg; [by left|right].
    destruct (ByID s (ID_String t)) as [d|e|why] eqn:Hd.
    2,3: exfalso; eapply not_both; [exact Ha|intros next; rewrite (Hrun t next eq_refl Hv), Hsg, Hd; done].
    destruct (String.eqb_spec (d_Status d) StatusActive); [by exists d|].
    exfalso. eapply not_both; [exact Ha|]. intros next. rewrite (Hrun t next eq_refl Hv), Hsg, Hd.
    rewrite (proj2 (String.eqb_neq _ _)) by done. cbn [negb]. done.
  - intros (t & Hres & Hv & Hok). eexists _, _. by apply Hyes.
  - intros t Hres Hv. split_and!; [by apply Hyes|..].
    + intros [Hsg Hcase] next. rewrite (Hrun t next Hres Hv), Hsg.
      destruct Hcase as [(e & -> & ->)|(d & -> & Hne)]; [done|]. by rewrite (proj2 (String.eqb_neq _ _) Hne).
    + intros e Hsg He Hnf next. by rewrite (Hrun t next Hres Hv), Hsg, He, Hnf.
Qed.

(** ** Fresh authentication *)

Lemma int64_id z : - 2 ^ 63 <= z < 2 ^ 63 -> int64 z = z.
Proof. intros H. unfold int64. rewrite Z.mod_small; lia. Qed.

Lemma any_method_spec c methods : any_method c methods = true <-> exists m, m ∈ methods /\ m <> "" /\ m ∈ cl_AMR c.
Proof.
  assert (forall m, HasMethod (Some c) m = true <-> m <> "" /\ m ∈ cl_AMR c) as Hm.
  { intros m. unfold HasMethod. rewrite andb_true_iff, negb_true_iff, String.eqb_neq, existsb_exists.
    setoid_rewrite String.eqb_eq. setoid_rewrite <- list_elem_of_In. naive_solver. }
  induction methods as [|m methods IH]; cbn [any_method].
  - split; [done|]. by intros (m & Hin%not_elem_of_nil & _).
  - destruct (HasMethod (Some c) m) eqn:Hh.
    + split; [|done]. intros _. apply Hm in Hh. exists m. split; [by left|done].
    + rewrite IH. split; intros (m' & Hin & Hrest); exists m'; [by split; [right|]|].
      apply elem_of_cons in Hin as [->|Hin]; [|done]. apply Hm in Hrest. congruence.
Qed.

(** A token that satisfies a fresh-auth gate at second [n]. *)
Definition fresh (maxAge : Z) (acrValues methods : list string) (n : Z) (c : AccessClaims) : Prop :=
  n - cl_AuthTime c <= whole_seconds maxAge /\ cl_ACR c ∈ acrValues /\
  (methods = [] \/ exists m, m ∈ methods /\ m <> "" /\ m ∈ cl_AMR c).

Lemma evaluate_fresh maxAge acrValues methods n c :
  0 < cl_AuthTime c < 2 ^ 63 -> 0 <= n < 2 ^ 63 ->
  (evaluateStepUpGate (Some c) maxAge (list_to_set acrValues) n methods).1 = None <->
  fresh maxAge acrValues methods n c.
Proof.
  intros Ha Hn. unfold evaluateStepUpGate, fresh. rewrite int64_id by lia.
  destruct (Z.ltb_spec (whole_seconds maxAge) (n - cl_AuthTime c)) as [Hold|Hold]; cbn [fst].
  { split; [done|]. intros [? _]. lia. }
  case_bool_decide as Hacr; [|split; [done|]; intros (_ & Hin & _); destruct Hacr; by apply elem_of_list_to_set].
  apply elem_of_list_to_set in Hacr. rewrite <- any_method_spec. case_bool_decide as Hm; cbn [negb andb].
  - split; [|done]. intros _. split_and!; [done..|by left].
  - destruct (any_method c methods); cbn [negb fst]; split; try done.
    + intros _. split_and!; [done..|by right].
    + intros (_ & _ & [?|?]); done.
Qed.

Lemma stepup_options (c : stepUpConfig) opts clock : stepUpClock c opts = Ret clock ->
  exists c', clock = su_now c' /\ stepUpMethods c opts = su_requireMethods c'.
Proof.
  revert c. induction opts as [|[o|] opts IH]; intros c H; cbn in *; [|by apply IH|done].
  injection H as <-. by exists c.
Qed.

(** Behind the fresh-auth gate a handler runs exactly when the claims in
    the context are fresh: authenticated at most the configured seconds before
    the gate's clock, at one of the configured assurance classes, and, where
    methods are required, with one of them named by the token. Without claims
    it never runs. The clock readings and dates are 64-bit seconds. *)
Theorem fresh_auth_exact (E : Env) maxAge acrValues opts clock gate r w :
  stepUpClock (MkStepUp (env_now E) []) opts = Ret clock ->
  RequireFreshAuth E maxAge acrValues opts = Ret gate ->
  (forall c, AccessClaimsFromContext (r_ctx r) = Some c -> 0 < cl_AuthTime c < 2 ^ 63) ->
  0 <= Unix (clock (w_trace w)) < 2 ^ 63 ->
  ((exists r' w', admits gate r w r' w') <-> exists c, AccessClaimsFromContext (r_ctx r) = Some c /\
     fresh maxAge acrValues (stepUpMethods (MkStepUp (env_now E) []) opts) (Unix (clock (w_trace w))) c) /\
  0 < maxAge /\ acrValues <> [].
Proof.
  intros Hclock Hgate Hauth Hn. unfold RequireFreshAuth, prepareStepUpConfig in Hgate.
  destruct (Z.leb_spec maxAge 0) as [|Hpos]; [discriminate|].
  destruct (bool_decide (acrValues = [])) eqn:Hne; [discriminate|].
  apply bool_decide_eq_false in Hne. cbn in Hgate. rewrite Hclock in Hgate. cbn in Hgate. injection Hgate as <-.
  split; [|done]. set (methods := stepUpMethods _ opts). set (n := Unix (clock (w_trace w))).
  set (w1 := World (w_store w) (w_trace w ++ [EvNow])).
  assert (forall (next : Handler S), (t ← observe EvNow clock;
      match evaluateStepUpGate (AccessClaimsFromContext (r_ctx r)) maxAge (list_to_set acrValues) (Unix t) methods with
      | (Some _, authTime) => writeStepUpError maxAge acrValues authTime (Unix t)
      | (None, _) => next r
      end) w =
    match evaluateStepUpGate (AccessClaimsFromContext (r_ctx r)) maxAge (list_to_set acrValues) n methods with
    | (Some _, authTime) => writeStepUpError maxAge acrValues authTime n w1
    | (None, _) => next r w1 end) as Hrun.
  { intros next. unfold n, mbind, M_bind, observe. by repeat case_match. }
  unfold admits. setoid_rewrite Hrun. destruct (AccessClaimsFromContext (r_ctx r)) as [c|] eqn:Hc.
  - pose proof (evaluate_fresh maxAge acrValues methods n c (Hauth c eq_refl) Hn) as Hiff.
    destruct (evaluateStepUpGate (Some c) maxAge (list_to_set acrValues) n methods) as [[reason|] authTime]; cbn in Hiff.
    + split; [|by intros (c' & [= <-] & Hf); apply Hiff in Hf].
      intros (r' & w' & Ha). pose proof (Ha (stop "a")) as H1. pose proof (Ha (stop "b")) as H2.
      rewrite H1 in H2. by injection H2.
    + split; [|by intros _; exists r, w1]. intros _. exists c. split; [done|]. by apply Hiff.
  - split; [|by intros (c & [=] & _)]. intros (r' & w' & Ha). pose proof (Ha (stop "a")) as H1.
    pose proof (Ha (stop "b")) as H2. cbn [evaluateStepUpGate] in *. rewrite H1 in H2. by injection H2.
Qed.
End Policies.

(** ** Witnesses *)

Module ToyPolicies.
Import ToyWeb.
Definition answer (status : Z) : option (M (Web unit) unit) :=
  Some (write_fw fw (FwError (NewError status) "denied" None None)).
Definition kid_route : Resolver := fun _ => Some (New "kid").
Definition tenants : Store := demo_store demo_rows.
Definition kid_gate : ActiveTenantGate unit := {|
  ag_Store := Some (fun id => lift (ByID tenants id)); ag_Label := "clusters";
  ag_WriteNotActive := answer 404; ag_WriteError := answer 503
|}.

(** A request whose context holds claims dated [at_]. *)
Definition claimed (at_ : Z) : Request :=
  WithContext (ContextWithAccessClaims (Some (MkAccessClaims at_ "urn:acr:1" ["pwd"; "otp"] "access" "kid" "" "" "bob" "" 0 0))
    (r_ctx guest_request)) guest_request.
Definition clock_at (sec : Z) : Env := {|
  env_now _ := sec * 10 ^ 9; env_newID _ := ""; env_rand _ _ := Ret []; env_bcrypt_hash _ _ := Ret "";
  env_bcrypt_ok _ _ := false; env_stub := Ret ""; env_totp _ _ _ := Ret false;
  env_unicode_lower s := s; env_numeric_date t := t / 10 ^ 9
|}.
Definition otp_gate : Middleware unit :=
  handler_of (RequireFreshAuth (clock_at 1200) (300 * 10 ^ 9) ["urn:acr:1"] [StepUpRequireMethods ["otp"]]).
End ToyPolicies.

Lemma active_gate_exact_witness :
  exists r' w', admits (compose (ToyWeb.handler_of (PinTenant ToyWeb.fw (Some ToyPolicies.kid_route)))
    (ToyWeb.handler_of (RequireActiveTenant ToyWeb.fw ToyPolicies.kid_gate)))
    ToyWeb.guest_request ToyWeb.world r' w'.
Proof.
  destruct (active_gate_exact ToyWeb.fw ToyPolicies.kid_gate ToyPolicies.tenants ToyPolicies.kid_route _ _ _ _
    ToyWeb.guest_request ToyWeb.world eq_refl eq_refl eq_refl eq_refl eq_refl) as [Hiff _].
  apply Hiff. exists (New "kid"). split; [reflexivity|]. split; [reflexivity|].
  right. eexists. split; [vm_compute; reflexivity|reflexivity].
Defined.

Lemma fresh_auth_exact_witness :
  exists r' w', admits ToyPolicies.otp_gate (ToyPolicies.claimed 1000) ToyWeb.world r' w'.
Proof.
  destruct (fresh_auth_exact (ToyPolicies.clock_at 1200) (300 * 10 ^ 9) ["urn:acr:1"]
    [StepUpRequireMethods ["otp"]] _ ToyPolicies.otp_gate (ToyPolicies.claimed 1000) ToyWeb.world
    eq_refl eq_refl) as [Hiff _].
  - intros c [= <-]. vm_compute. split; reflexivity.
  - vm_compute. split; [discriminate|reflexivity].
  - apply Hiff. eexists. split; [reflexivity|]. split_and!.
    + vm_compute. discriminate.
    + by left.
    + right. exists "otp". split_and!; [by left|discriminate|by right; left].
Defined.
