(* ===== verification/WebAuditRows.v ===== *)
(** * What the audit rows of the HTTP layer say

    The middleware of [WebAudit] behind the gates of [WebAccess]: when a row
    is written, whose log it lands in and whom it names. *)

From S2P Require Import Prelude Tenant Bytes World Crypto Jwt AuditEvent Http WebAuth WebGates WebAudit WebAccess.

#[local] Open Scope string_scope.
#[local] Open Scope list_scope.
#[local] Open Scope Z_scope.

Definition succeeded (status : Z) : bool := (200 <=? status) && (status <? 300).

Lemma succeeded_not status : (status <? 200) || (300 <=? status) = negb (succeeded status).
Proof. unfold succeeded. destruct (Z.ltb_spec status 200), (Z.leb_spec 200 status), (Z.ltb_spec status 300), (Z.leb_spec 300 status); try done; lia. Qed.

Section Rows.
Context {S : Type} (E : Env) (au : Auditor S) (mc : MutationContext).
Implicit Types (r : Request) (w : world (Web S)).

(** The request and the world the audited handler sees. *)
Definition audited_request r w : Request :=
  let slots := new_slots (w_store w) in WithContext (with_captures slots.1 slots.2 (r_ctx r)) r.
Definition audited_world w : world (Web S) :=
  let v := w_store w in
  World (MkWeb (web_app v) (web_actors v ++ [Actor_zero]) (web_clusters v ++ [""])
    (with_wr_captures (MkCapture 200 false :: wr_captures (web_writer v)) (web_writer v))) (w_trace w).
(** The world after the handler, without the writer the middleware had put in. *)
Definition popped (cs : list Capture) w : world (Web S) :=
  let v := w_store w in
  World (MkWeb (web_app v) (web_actors v) (web_clusters v) (with_wr_captures cs (web_writer v))) (w_trace w).

Definition row_resource r : string :=
  if String.eqb (mc_ResourceIDFrom mc) "" then "" else default "" (r_PathParams r !! mc_ResourceIDFrom mc).
Definition row_ip r : string := default IPFromRequest (au_IP au) r.

(** The middleware around a handler that came back. *)
Lemma For_run next r w w3 cap cs :
  next (audited_request r w) (audited_world w) = (Ret tt, w3) ->
  wr_captures (web_writer (w_store w3)) = cap :: cs ->
  For E (Some au) mc next r w =
    if succeeded (sw_status cap)
    then emit_row E au mc (r_ctx (audited_request r w)) (audited_request r w) (new_slots (w_store w)).2 (popped cs w3)
    else (Ret tt, popped cs w3).
Proof.
  intros Hnext Hcap. unfold For, mbind, M_bind, alloc_slots, push_capture, on_writer.
  cbn [w_store web_app web_actors web_clusters web_writer w_trace].
  change (next _ _) with (next (audited_request r w) (audited_world w)). rewrite Hnext.
  unfold pop_capture. rewrite Hcap. rewrite succeeded_not. by destruct (succeeded (sw_status cap)).
Qed.

(** The actor of a row on an authenticated request. *)
Lemma captureActor_authed x c r1 w : cx_userID x = Some (cl_Subject c) -> cl_Subject c <> "" ->
  cx_actor x = Some (token_actor c) -> au_Email au = None ->
  captureActor au x r1 w = (Ret (user_row (cl_Subject c) "" (row_ip r1) (ActorTenantID c)), w).
Proof.
  intros Hu Hne Ha He.
  assert (GetUserID x = Some (cl_Subject c)) as Hid
    by (unfold GetUserID; by rewrite Hu, (proj2 (String.eqb_neq _ _) Hne)).
  assert (ActorFromContext x = token_actor c) as Hact by (unfold ActorFromContext; by rewrite Ha).
  unfold captureActor. rewrite Hact, Hid. cbn [a_Type a_TenantID token_actor default from_option id].
  change (negb (String.eqb ActorTypeUser "") && negb (String.eqb ActorTypeUser ActorTypeUser)) with false.
  rewrite (proj2 (String.eqb_neq _ _) Hne). cbn [negb].
  unfold mbind, M_bind, mret, M_ret, lookup_email. by rewrite He.
Qed.

Definition next_id w : string := env_newID E (w_trace w).
Definition next_time w : time := env_now E (w_trace w ++ [EvNewID]).

(** The row of an authenticated mutation. *)
Definition mutation_row (x : Context) r w (cluster : nat) (actor : Actor) : Event :=
  new_event (next_id w) (next_time w) actor (mc_Action mc) (mc_ResourceType mc) (row_resource r)
    (default "" (web_clusters (w_store w) !! cluster)) (cx_requestID x) (eventScope x actor) [].

Lemma emit_row_run x r w cluster actor : captureActor au x r w = (Ret actor, w) ->
  emit_row E au mc x r cluster w =
  ignore_err (call_app (au_Logger au (mutation_row x r w cluster actor)))
    (World (w_store w) (w_trace w ++ [EvNewID] ++ [EvNow])).
Proof.
  intros Ha. unfold emit_row, mbind, M_bind. rewrite Ha. unfold get_web, newID, now, observe.
  cbn [w_store w_trace]. by rewrite <- app_assoc.
Qed.

(** Behind [RequireAuth], a tenant gate and the audit middleware, a
    handler that comes back leaves one call of the logger when the status it
    was seen to write is 2xx, and none otherwise. The row is scoped to the
    routed tenant; its actor is the token's subject with the home tenant of
    the human behind the token. So it names the human exactly when the token
    is not an impersonated one: on an impersonated request it names the
    customer's user, under the tenant of the human. *)
Theorem audited_mutation_row fw lib j ks resolve guests imps gate next r w c routed w1 w3 cap cs :
  requireTenant fw (Some resolve) guests imps = Ret gate ->
  tenant_route lib E j ks resolve guests imps r w c routed w1 -> au_Email au = None ->
  let r1 := pin routed (authed r c) in
  next (audited_request r1 w1) (audited_world w1) = (Ret tt, w3) ->
  wr_captures (web_writer (w_store w3)) = cap :: cs ->
  let actor := user_row (cl_Subject c) "" (row_ip (audited_request r1 w1)) (ActorTenantID c) in
  let row := new_event (next_id w3) (next_time w3) actor (mc_Action mc) (mc_ResourceType mc) (row_resource r)
    (default "" (web_clusters (w_store w3) !! (new_slots (w_store w1)).2)) (cx_requestID (r_ctx r))
    (ID_String routed) [] in
  compose (compose (RequireAuth fw lib E j ks) gate) (For E (Some au) mc) next r w =
    (if succeeded (sw_status cap)
     then ignore_err (call_app (au_Logger au row))
            (World (w_store (popped cs w3)) (w_trace w3 ++ [EvNewID] ++ [EvNow]))
     else (Ret tt, popped cs w3)) /\
  (a_UserID actor = ActorUserID c <-> Impersonated c = false).
Proof.
  intros Hgate Hroute Hemail r1 Hnext Hcap actor row. split.
  - destruct (tenant_gate_exact fw lib E j ks resolve guests imps gate r w Hgate) as (_ & Hyes & _).
    destruct (Hyes c routed w1 Hroute) as (Hadm & _ & (_ & Hsub & _) & _).
    unfold compose at 1. rewrite Hadm. fold r1. rewrite (For_run next r1 w1 w3 cap cs Hnext Hcap).
    destruct (succeeded (sw_status cap)); [|done].
    rewrite (emit_row_run _ _ _ _ actor); [done|]. by apply captureActor_authed.
  - destruct Hroute as (Hp & _). apply presents_facts in Hp as (_ & (_ & _ & _ & _ & _ & Hact) & _).
    unfold Impersonated, ActorUserID. cbn. destruct (String.eqb_spec (cl_ActorID c) "") as [He|He]; cbn; [done|].
    split; [|done]. intros Heq. destruct Hact as [|[_ Hact]]; [done|]. congruence.
Qed.

(** The scope of a row never comes from a user's token. *)
Lemma eventScope_user x userID email ip tenantID :
  eventScope x (user_row userID email ip tenantID) = match TenantFromContext x with Some t => ID_String t | None => "" end.
Proof. unfold eventScope. by destruct (TenantFromContext x). Qed.
End Rows.

(** ** Witnesses and what the rows of an impersonation say *)

Module ToyRows.
Definition log : Logger (list Event) := fun ev w => (Ret ev, World (w_store w ++ [ev]) (w_trace w)).
Definition auditor : Auditor (list Event) := NewAuditor (Some log) None.
Definition mutation : MutationContext := MkMutation "cluster.create" "cluster" "".
Definition world : world (Web (list Event)) := World (MkWeb [] [] [] fresh_writer) [EvNow].
Definition answers (statuses : list Z) : Handler (list Event) := fun _ =>
  foldr (fun s m => WriteHeader s;; m) (Write (Written [])) statuses.
Definition serve (resolve : Resolver) (tok : string) (statuses : list Z) :=
  compose (compose (RequireAuth ToyWeb.fw Toy.lib toy_env Toy.service Toy.keys)
    (ToyWeb.handler_of (requireTenant ToyWeb.fw (Some resolve) true true)))
    (For toy_env (Some auditor) mutation) (answers statuses) (ToyWeb.bearer tok) world.
Definition rows (out : go unit * World.world (Web (list Event))) : list (string * string * string) :=
  (fun e => (a_UserID (ev_Actor e), a_TenantID (ev_Actor e), ev_TenantID e)) <$> web_app (w_store out.2).
Definition sent (out : go unit * World.world (Web (list Event))) : option Z :=
  (fun x => x.1.1) <$> wr_sent (web_writer (w_store out.2)).

(** ops of platform, acting as carol of globex. *)
Definition carol_mint : mint := MImpersonated "carol" "ops" (New "globex") (New "platform") (60 * 10 ^ 9).
Definition carol_token : string :=
  minted_token (run_mint toy_env Toy.service carol_mint 900 ACRLocalPassword ["pwd"] (World tt [])).
End ToyRows.

(** A 2xx answer leaves a row, another status none. *)
Example rows_of_a_guest :
  ToyRows.rows (ToyRows.serve ToyWeb.route (minted_token bob_minted) [201]) = [("bob", "acme", "globex")] /\
  ToyRows.rows (ToyRows.serve ToyWeb.route (minted_token bob_minted) [409]) = [].
Proof. by vm_compute. Qed.

(** The row of an impersonated mutation names the customer's user; the actor
    [RequireAuth] put in the context for such rows names the human. *)
Example impersonated_row_blames_the_user :
  ToyRows.rows (ToyRows.serve ToyWeb.route ToyRows.carol_token [201]) = [("carol", "platform", "globex")].
Proof. by vm_compute. Qed.

(** An informational status before the final one: the capturing writer keeps
    the first code and drops the second, so the mutation leaves no row and the
    client is told 200 instead of 201. *)
Example early_hints_escape_the_audit :
  ToyRows.rows (ToyRows.serve ToyWeb.route (minted_token bob_minted) [103; 201]) = [] /\
  ToyRows.sent (ToyRows.serve ToyWeb.route (minted_token bob_minted) [103; 201]) = Some 200.
Proof. by vm_compute. Qed.

(** The row of a refused step-up names the subject as well. *)
Example stepup_denial_blames_the_user (c : AccessClaims) (r : Request) :
  cl_ActorID c = "ops" -> cl_Subject c = "carol" ->
  a_UserID (stepup_actor (Some c) r) = "carol" /\ a_UserID (token_actor c) = "ops".
Proof. intros Ha Hs. unfold stepup_actor, token_actor, ActorUserID. cbn [a_UserID user_row]. by rewrite Ha, Hs. Qed.

Module ToyAudited.
Definition parsed := ParseAccess (S:=Web (list Event)) Toy.lib toy_env Toy.service Toy.keys
  (minted_token bob_minted) ToyRows.world.
Definition guest : AccessClaims :=
  match parsed.1 with Ret c => c | _ => MkAccessClaims 0 "" [] "" "" "" "" "" "" 0 0 end.
Lemma guest_parsed : parsed = (Ret guest, parsed.2).
Proof.
  assert (is_ret parsed.1 = true) as H by (vm_compute; reflexivity).
  unfold guest. destruct parsed as [[c| |] w]; [done|discriminate H..].
Qed.
Lemma guest_tenant : cl_TenantID guest = "globex".
Proof. by vm_compute. Qed.
Lemma guest_actor : cl_ActorID guest = "".
Proof. by vm_compute. Qed.
Lemma guest_route : tenant_route Toy.lib toy_env Toy.service Toy.keys ToyWeb.route true false
  (ToyWeb.bearer (minted_token bob_minted)) ToyRows.world guest (New "globex") parsed.2.
Proof.
  split; [exists (minted_token bob_minted); split; [vm_compute; reflexivity|exact guest_parsed]|].
  split; [reflexivity|]. split; [reflexivity|]. unfold invited, Impersonated. rewrite guest_tenant, guest_actor.
  split; [reflexivity|]. by split.
Qed.
(** The writer is still fresh when the handler runs. *)
Lemma parsed_store : w_store parsed.2 = w_store ToyRows.world.
Proof. by apply (presents_facts _ _ _ _ _ _ _ _ (proj1 guest_route)). Qed.
Lemma handler_run r : exists w3, ToyRows.answers [201] r (audited_world parsed.2) = (Ret tt, w3) /\
  wr_captures (web_writer (w_store w3)) = [MkCapture 201 true].
Proof. unfold audited_world. rewrite parsed_store. eexists. by split. Qed.
End ToyAudited.

Lemma audited_mutation_row_witness :
  exists out, compose (compose (RequireAuth ToyWeb.fw Toy.lib toy_env Toy.service Toy.keys)
    (ToyWeb.handler_of (requireTenant ToyWeb.fw (Some ToyWeb.route) true false)))
    (For toy_env (Some ToyRows.auditor) ToyRows.mutation) (ToyRows.answers [201])
    (ToyWeb.bearer (minted_token bob_minted)) ToyRows.world = out /\ out.1 = Ret tt.
Proof.
  destruct (ToyAudited.handler_run (audited_request (pin (New "globex")
    (authed (ToyWeb.bearer (minted_token bob_minted)) ToyAudited.guest)) ToyAudited.parsed.2)) as (w3 & Hrun & Hcap).
  destruct (audited_mutation_row toy_env ToyRows.auditor ToyRows.mutation ToyWeb.fw Toy.lib Toy.service Toy.keys
    ToyWeb.route true false _ (ToyRows.answers [201]) (ToyWeb.bearer (minted_token bob_minted)) ToyRows.world
    ToyAudited.guest (New "globex") ToyAudited.parsed.2 w3 _ _ eq_refl ToyAudited.guest_route eq_refl Hrun Hcap)
    as [Hout _].
  eexists. split; [exact Hout|]. reflexivity.
Defined.
