(* ===== verification/WebLogin.v ===== *)
(** * Home-realm routing

    [src/espresso/startlogin.go]: which identity provider an email address
    signs in with, asked by callers who have proven nothing. What the theorems
    show: the answer is positive exactly for a verified, bound domain of an
    active tenant, every other address gets the one zero answer, a failing
    store gets neither, and no way out of the call beats the timing floor. *)

From S2P Require Import Prelude Tenant TenantDomain Bytes World Identity Http.

#[local] Open Scope string_scope.
#[local] Open Scope list_scope.
#[local] Open Scope Z_scope.

Record StartLoginResult := MkStart {
  sr_TenantID : string;
  sr_ProviderID : string;
  sr_EnforceSSO : bool;
  sr_RetryAfter : Z
}.
Definition StartLoginResult_zero : StartLoginResult := MkStart "" "" false 0.

(** [defer d()] in front of [m]: [d] runs however [m] ends, a panic included. *)
Definition deferred {S A} (m : M S A) (d : M S unit) : M S A := fun w =>
  match d (m w).2 with
  | (Ret _, w2) => ((m w).1, w2)
  | (Fail e, w2) => (Fail e, w2)
  | (Panic why, w2) => (Panic why, w2)
  end.

(** [strings.LastIndex(s, "@")] and the rest of the string after it. *)
Definition last_at (s : string) : option nat := last_index_byte "@"%char s.

Definition defaultThrottleKey (E : Env) (email : string) : string :=
  let lowered := ToLower E (trim_space email) in
  match last_at lowered with
  | Some at_ => "startlogin:" +:+ string_drop (at_ + 1) lowered
  | None => "startlogin:" +:+ lowered
  end.

Section StartLogin.
Context (E : Env) {S : Type}.

(** The stores are read at a moment of the process; [sl_sleep] is
    [time.Sleep] or the seam of a test. *)
Record startLoginConfig := MkStartConfig {
  sl_tenants : option (trace -> Tenant.Store);
  sl_throttle : option (trace -> string -> bool * Z);
  sl_floor : Z;
  sl_now : trace -> time;
  sl_sleep : Z -> M S unit;
  sl_key : string -> string
}.
Definition StartLoginOption := startLoginConfig -> startLoginConfig.

Definition WithStartLoginTenants (s : option (trace -> Tenant.Store)) : StartLoginOption := fun c =>
  MkStartConfig s (sl_throttle c) (sl_floor c) (sl_now c) (sl_sleep c) (sl_key c).
Definition WithStartLoginThrottle (t : option (trace -> string -> bool * Z)) : StartLoginOption := fun c =>
  MkStartConfig (sl_tenants c) t (sl_floor c) (sl_now c) (sl_sleep c) (sl_key c).
Definition WithStartLoginFloor (d : Z) : StartLoginOption := fun c =>
  MkStartConfig (sl_tenants c) (sl_throttle c) d (sl_now c) (sl_sleep c) (sl_key c).
Definition WithStartLoginThrottleKey (fn : option (string -> string)) : StartLoginOption := fun c =>
  MkStartConfig (sl_tenants c) (sl_throttle c) (sl_floor c) (sl_now c) (sl_sleep c) (default (sl_key c) fn).
Definition WithStartLoginClock (now : option (trace -> time)) (sleep : option (Z -> M S unit))
    : StartLoginOption := fun c =>
  MkStartConfig (sl_tenants c) (sl_throttle c) (sl_floor c) (default (sl_now c) now)
    (default (sl_sleep c) sleep) (sl_key c).

Definition defaultStartLoginFloor : Z := 50 * 10 ^ 6.
Definition start_config (opts : list StartLoginOption) : startLoginConfig :=
  foldl (fun c o => o c)
    (MkStartConfig None None defaultStartLoginFloor (env_now E) (fun d => emit (EvSleep d))
       (defaultThrottleKey E)) opts.

(** The deferred pad. *)
Definition pad (cfg : startLoginConfig) (start : time) : M S unit :=
  if sl_floor cfg <=? 0 then mret tt
  else
    t ← observe EvNow (sl_now cfg);
    let elapsed := t - start in
    if elapsed <? sl_floor cfg then sl_sleep cfg (sl_floor cfg - elapsed) else mret tt.

Definition Outcome : Type := StartLoginResult * option error.
Definition miss : M S Outcome := mret (StartLoginResult_zero, None).
Definition failed (e : error) : M S Outcome := mret (StartLoginResult_zero, Some e).

(** From the resolved record on. *)
Definition route (cfg : startLoginConfig) (rec : DomainRecord) : M S Outcome :=
  let bound :=
    let provider := BoundProviderID rec in
    if String.eqb provider "" then miss
    else mret (MkStart (dr_TenantID rec) provider true 0, None) in
  match sl_tenants cfg with
  | None => bound
  | Some s =>
      try_catch (r ← observe (EvStore "ByID") (fun tr => ByID (s tr) (dr_TenantID rec)); lift r)
        (fun terr => if errors_is terr tenant_ErrNotFound then miss else failed terr)
        (fun desc => if negb (String.eqb (d_Status desc) StatusActive) then miss else bound)
  end.

(** From the normalisation on. *)
Definition resolve_email (cfg : startLoginConfig) (r : trace -> DomainStore) (email : string) : M S Outcome :=
  match NormaliseEmail E email with
  | Panic why => lift (Panic why)
  | Fail e => failed e
  | Ret normalised =>
      match last_at normalised with
      | None => failed (Sentinel identity_ErrInvalidEmail)
      | Some at_ =>
          if (at_ =? String.length normalised - 1)%nat then failed (Sentinel identity_ErrInvalidEmail)
          else
            let domain := string_drop (at_ + 1) normalised in
            try_catch (res ← observe (EvHook "ResolveDomain") (fun tr => ResolveDomain (r tr) domain); lift res)
              (fun err => if errors_is err tenant_ErrNotFound || errors_is err tenant_ErrDomainNotNormalised
                          then miss else failed err)
              (route cfg)
      end
  end.

Definition StartLogin (r : trace -> DomainStore) (email : string) (opts : list StartLoginOption) : M S Outcome :=
  let cfg := start_config opts in
  start ← observe EvNow (sl_now cfg);
  deferred
    (match sl_throttle cfg with
     | None => resolve_email cfg r email
     | Some allow =>
         ok ← observe (EvAllow (sl_key cfg email)) (fun tr => allow tr (sl_key cfg email));
         if negb ok.1 then mret (MkStart "" "" false ok.2, Some (Sentinel espresso_ErrThrottled))
         else resolve_email cfg r email
     end)
    (pad cfg start).
End StartLogin.

(** ** The domain of an address *)

Lemma index_one c s i : String.index 0 (String c "") s = Some i ->
  exists l r, s = l +:+ String c r /\ String.length l = i.
Proof.
  revert i. induction s as [|d s IH]; intros i H; cbn in H; [done|].
  destruct (ascii_dec c d) as [<-|Hne].
  - replace (String.prefix "" s) with true in H by (by destruct s). injection H as <-. by exists "", s.
  - destruct (String.index 0 (String c "") s) as [n|]; [|done]. injection H as <-.
    destruct (IH n eq_refl) as (l & r & -> & <-). by exists (String d l), r.
Qed.

Lemma index_none c s : String.index 0 (String c "") s = None -> c ∉ to_bytes s.
Proof.
  unfold to_bytes. induction s as [|d s IH]; cbn; [intros _; apply not_elem_of_nil|].
  destruct (ascii_dec c d) as [<-|Hne]; [by destruct s|].
  destruct (String.index 0 (String c "") s) as [n|]; [done|].
  intros _ [->|Hin]%elem_of_cons; [done|]. by apply IH.
Qed.

Lemma string_drop_app l c r : string_drop (String.length l + 1) (l +:+ String c r) = r.
Proof.
  unfold string_drop. rewrite string_length_append. cbn [String.length].
  replace (String.length l + S (String.length r) - (String.length l + 1))%nat with (String.length r) by lia.
  induction l as [|d l IH]; [apply substring_all|exact IH].
Qed.

Lemma last_at_app l r : "@"%char ∉ to_bytes r -> last_at (l +:+ String "@"%char r) = Some (String.length l).
Proof.
  intros Hr. unfold last_at, last_index_byte. rewrite to_bytes_app. cbn [to_bytes String.list_ascii_of_string].
  change (String.list_ascii_of_string r) with (to_bytes r). rewrite reverse_app, reverse_cons.
  assert (list_find (fun d => d = "@"%char) ((reverse (to_bytes r) ++ ["@"%char]) ++ reverse (to_bytes l)) =
    Some (length (to_bytes r), "@"%char)) as ->.
  { rewrite <- app_assoc. rewrite list_find_app_r.
    - cbn. by rewrite length_reverse.
    - apply list_find_None. apply Forall_forall. intros x Hx ->. apply Hr. by apply elem_of_reverse. }
  cbn. f_equal. rewrite length_app, length_cons, !to_bytes_length. lia.
Qed.

(** The domain a sign-in is routed by. *)
Definition domain_of (E : Env) (email domain : string) : Prop :=
  exists local, NormaliseEmail E email = Ret (local +:+ "@" +:+ domain) /\ ("@"%char ∉ to_bytes domain) /\
    domain <> "".

Lemma NormaliseEmail_domain E email n : NormaliseEmail E email = Ret n ->
  exists local domain, n = local +:+ "@" +:+ domain /\ domain_of E email domain.
Proof.
  intros H. pose proof H as Hn. unfold NormaliseEmail in H. set (e := ToLower E (trim_space email)) in *.
  destruct (String.eqb e ""); [done|]. unfold index_at in H.
  destruct (String.index 0 "@" e) as [i|] eqn:Hi; [|done].
  destruct (index_one _ _ _ Hi) as (l & r & He & Hl).
  destruct (_ || _) eqn:Hbad; [done|]. injection H as H. rewrite !orb_false_iff in Hbad.
  destruct Hbad as [[[_ Hlast] Hat] _]. apply Nat.eqb_neq in Hlast. subst n. exists l, r.
  split; [done|]. exists l. split; [by rewrite Hn, He|].
  rewrite He, <- Hl in Hat. rewrite string_drop_app in Hat. unfold contains_byte in Hat.
  destruct (String.index 0 "@" r) eqn:Hr; [done|]. split; [by apply index_none|].
  intros ->. apply Hlast. rewrite He, string_length_append. cbn. lia.
Qed.

Lemma domain_of_unique E email d1 d2 : domain_of E email d1 -> domain_of E email d2 -> d1 = d2.
Proof.
  intros (l1 & H1 & Hd1 & _) (l2 & H2 & Hd2 & _). rewrite H1 in H2. injection H2 as H2.
  pose proof (last_at_app l1 d1 Hd1) as E1. pose proof (last_at_app l2 d2 Hd2) as E2.
  change (l1 +:+ "@" +:+ d1) with (l1 +:+ String "@"%char d1) in H2.
  change (l2 +:+ "@" +:+ d2) with (l2 +:+ String "@"%char d2) in H2.
  rewrite H2, E2 in E1. injection E1 as E1.
  pose proof (string_drop_app l1 "@"%char d1) as F1. pose proof (string_drop_app l2 "@"%char d2) as F2.
  rewrite H2, <- E1, F2 in F1. done.
Qed.

(** ** What a caller learns *)

Section Exact.
Context (E : Env) {S : Type}.
Implicit Types (cfg : @startLoginConfig S) (w : world S).

Lemma quiet_resolve cfg r email : quiet (resolve_email E cfg r email).
Proof. unfold resolve_email, route, miss, failed. quiet_tac. Qed.

(** The domain is a verified one, bound to the provider [p] of an active
    tenant [t]. *)
Definition directed (ds : DomainStore) (ts : option Tenant.Store) (domain t p : string) : Prop :=
  exists rec, ResolveDomain ds domain = Ret rec /\ dr_TenantID rec = t /\ dr_ProviderID rec = p /\ p <> "" /\
    match ts with None => True | Some s => exists d, ByID s t = Ret d /\ d_Status d = StatusActive end.
(** It leads nowhere: not a customer's, unverified, public, malformed, of a
    tenant that is gone or not active, or bound to no provider. *)
Definition undirected (ds : DomainStore) (ts : option Tenant.Store) (domain : string) : Prop :=
  (exists e, ResolveDomain ds domain = Fail e /\
     (errors_is e tenant_ErrNotFound = true \/ errors_is e tenant_ErrDomainNotNormalised = true)) \/
  (exists rec, ResolveDomain ds domain = Ret rec /\
     match ts with
     | None => dr_ProviderID rec = ""
     | Some s =>
         (exists e, ByID s (dr_TenantID rec) = Fail e /\ errors_is e tenant_ErrNotFound = true) \/
         (exists d, ByID s (dr_TenantID rec) = Ret d /\ (d_Status d <> StatusActive \/ dr_ProviderID rec = ""))
     end).
(** A store could not answer. *)
Definition degraded (ds : DomainStore) (ts : option Tenant.Store) (domain : string) (e : error) : Prop :=
  (ResolveDomain ds domain = Fail e /\
     errors_is e tenant_ErrNotFound = false /\ errors_is e tenant_ErrDomainNotNormalised = false) \/
  (exists rec s, ResolveDomain ds domain = Ret rec /\ ts = Some s /\ ByID s (dr_TenantID rec) = Fail e /\
     errors_is e tenant_ErrNotFound = false).

Lemma ResolveDomain_verified ds domain rec : ResolveDomain ds domain = Ret rec -> dr_Verified rec = true.
Proof.
  unfold ResolveDomain. intros (u & _ & H)%go_bind_Ret_inv.
  destruct (IsPublicEmailDomain domain); [done|]. apply go_bind_Ret_inv in H as (rec' & _ & H).
  destruct (dr_Verified rec') eqn:Hv; [|done]. by injection H as <-.
Qed.

(** Decides which of the three answers an outcome is. *)
Ltac open_answer :=
  repeat match goal with
  | H : ex _ |- _ => destruct H
  | H : _ /\ _ |- _ => destruct H
  | H : _ \/ _ |- _ => destruct H
  end.
Ltac which_answer :=
  unfold StartLoginResult_zero in *; split_and!; intros; split; intros ?; open_answer; try congruence;
  simplify_eq; first [left; solve [eauto 6] | right; solve [eauto 10] | solve [eauto 10]].

Lemma bound_answer cfg rec w : dr_Verified rec = true ->
  ((if String.eqb (BoundProviderID rec) "" then miss (S:=S)
    else mret (MkStart (dr_TenantID rec) (BoundProviderID rec) true 0, None)) w).1 =
  Ret (if String.eqb (dr_ProviderID rec) "" then StartLoginResult_zero
       else MkStart (dr_TenantID rec) (dr_ProviderID rec) true 0, None).
Proof. intros Hv. unfold BoundProviderID. rewrite Hv. cbn. by destruct (String.eqb (dr_ProviderID rec) ""). Qed.

Lemma route_answers cfg ds ts domain rec w :
  sl_tenants cfg = (fun s _ => s) <$> ts -> ResolveDomain ds domain = Ret rec ->
  let out := (route cfg rec w).1 in
  (forall t p, out = Ret (MkStart t p true 0, None) <-> directed ds ts domain t p) /\
  (out = Ret (StartLoginResult_zero, None) <-> undirected ds ts domain) /\
  (forall e, out = Ret (StartLoginResult_zero, Some e) <-> degraded ds ts domain e).
Proof.
  intros Hts Hrec out. subst out. pose proof (ResolveDomain_verified _ _ _ Hrec) as Hver.
  unfold route, directed, undirected, degraded. rewrite Hts. destruct ts as [s|]; cbn [fmap option_fmap option_map].
  - unfold try_catch, mbind, M_bind, observe, lift. destruct (ByID s (dr_TenantID rec)) as [d|terr|why] eqn:Hd.
    + destruct (String.eqb_spec (d_Status d) StatusActive) as [Hst|Hst]; cbn [negb].
      * rewrite bound_answer by done. destruct (String.eqb_spec (dr_ProviderID rec) ""); which_answer.
      * cbn. which_answer.
    + destruct (errors_is terr tenant_ErrNotFound) eqn:H1; cbn; which_answer.
    + cbn. which_answer.
  - rewrite bound_answer by done. destruct (String.eqb_spec (dr_ProviderID rec) ""); which_answer.
Qed.

(** The three answers for a domain, before the pad. *)
Lemma resolve_email_answers cfg ds ts email domain w :
  sl_tenants cfg = (fun s _ => s) <$> ts -> domain_of E email domain ->
  let out := (resolve_email E cfg (fun _ => ds) email w).1 in
  (forall t p, out = Ret (MkStart t p true 0, None) <-> directed ds ts domain t p) /\
  (out = Ret (StartLoginResult_zero, None) <-> undirected ds ts domain) /\
  (forall e, out = Ret (StartLoginResult_zero, Some e) <-> degraded ds ts domain e).
Proof.
  intros Hts (local & Hn & Hat & Hne) out. subst out.
  change (local +:+ "@" +:+ domain) with (local +:+ String "@"%char domain) in Hn.
  unfold resolve_email. rewrite Hn, last_at_app by done.
  rewrite string_length_append. cbn [String.length].
  destruct (Nat.eqb_spec (String.length local) (String.length local + Datatypes.S (String.length domain) - 1)) as [Hl|_].
  { destruct domain; [done|cbn in Hl; lia]. }
  rewrite string_drop_app. unfold try_catch, mbind, M_bind, observe, lift.
  destruct (ResolveDomain ds domain) as [rec|err|why] eqn:Hrec; [by apply route_answers|..];
    unfold directed, undirected, degraded.
  - destruct (errors_is err tenant_ErrNotFound) eqn:H1, (errors_is err tenant_ErrDomainNotNormalised) eqn:H2;
      cbn [orb]; unfold miss, failed, mret, M_ret; cbn [fst]; which_answer.
  - cbn [fst]; which_answer.
Qed.

(** The limiter, when there is one, lets the call through. *)
Definition let_through cfg w email : Prop :=
  forall allow, sl_throttle cfg = Some allow -> (allow (w_trace w ++ [EvNow]) (sl_key cfg email)).1 = true.

Lemma deferred_result {A} (m : M S A) (d : M S unit) w : (d (m w).2).1 = Ret tt -> (deferred m d w).1 = (m w).1.
Proof. unfold deferred. by destruct (d (m w).2) as [[| |] ?]. Qed.

Lemma pad_returns cfg start w : (forall d w, (sl_sleep cfg d w).1 = Ret tt) -> (pad cfg start w).1 = Ret tt.
Proof.
  intros Hs. unfold pad. destruct (sl_floor cfg <=? 0); [done|].
  unfold mbind, M_bind, observe. destruct (_ <? _); [apply Hs|done].
Qed.

(** What the login form is told about a well-formed address. It is sent to
    a provider exactly when the address's domain resolves to a verified claim
    bound to that provider and the tenant is active; a domain of no customer,
    an unverified or public one, one of a suspended or missing tenant and one
    bound to no provider all get the one zero answer without an error, so none
    of them can be told from another; and a store that cannot answer is an
    error, never that fallback. *)
Theorem StartLogin_exact opts ds ts email domain w :
  sl_tenants (start_config E opts) = (fun s _ => s) <$> ts ->
  (forall d w, (sl_sleep (start_config E opts) d w).1 = Ret tt) ->
  let_through (start_config E opts) w email -> domain_of E email domain ->
  let out := (StartLogin E (fun _ => ds) email opts w).1 in
  (forall t p, out = Ret (MkStart t p true 0, None) <-> directed ds ts domain t p) /\
  (out = Ret (StartLoginResult_zero, None) <-> undirected ds ts domain) /\
  (forall e, out = Ret (StartLoginResult_zero, Some e) <-> degraded ds ts domain e).
Proof.
  intros Hts Hsleep Hlet Hdom. cbn zeta.
  assert (exists w1, (StartLogin E (fun _ => ds) email opts w).1 =
    (resolve_email E (start_config E opts) (fun _ => ds) email w1).1) as [w1 ->].
  2: { by apply resolve_email_answers. }
  unfold StartLogin. unfold mbind at 1, M_bind at 1, observe at 1. rewrite deferred_result by by apply pad_returns.
  destruct (sl_throttle (start_config E opts)) as [allow|] eqn:Ha; [|by eexists].
  unfold mbind, M_bind, observe. cbn [w_trace]. rewrite (Hlet allow Ha). cbn. by eexists.
Qed.

(** No way out of the call is quicker than the floor: whether the caller is
    throttled, the address is malformed, the domain unknown, the tenant
    suspended, a store fails or panics, between the call and its return the
    clock has moved by at least the configured floor, provided that the clock
    never goes back and moves by what is slept. *)
Theorem StartLogin_floor opts r email w :
  let cfg := start_config E opts in
  (forall tr tr', sl_now cfg tr <= sl_now cfg (tr ++ tr')) ->
  (forall tr d, 0 <= d -> sl_now cfg tr + d <= sl_now cfg (tr ++ [EvSleep d])) ->
  sl_sleep cfg = (fun d => emit (EvSleep d)) ->
  sl_now cfg (w_trace w) + sl_floor cfg <= sl_now cfg (w_trace (StartLogin E r email opts w).2).
Proof.
  intros cfg Hmono Hsl Hs. unfold StartLogin. fold cfg. unfold mbind at 1, M_bind at 1, observe at 1.
  set (w1 := World (w_store w) (w_trace w ++ [EvNow])). set (start := sl_now cfg (w_trace w)).
  match goal with |- context [deferred ?m _] => set (body := m) end.
  assert (quiet body) as Hq.
  { subst body. destruct (sl_throttle cfg) as [allow|]; [|apply quiet_resolve].
    apply quiet_bind; [apply quiet_observe|]. intros [[|] wait]; cbn [negb fst]; [apply quiet_resolve|apply quiet_mret]. }
  destruct (body w1) as [res w2] eqn:Hb. destruct (Hq _ _ _ Hb) as [l ->].
  unfold deferred. rewrite Hb. cbn [fst snd w_store w_trace w1]. rewrite <- app_assoc.
  set (tr := w_trace w ++ [EvNow] ++ l). assert (start <= sl_now cfg tr) as Hstart by apply Hmono.
  unfold pad. destruct (Z.leb_spec (sl_floor cfg) 0) as [H0|H0]; [cbn; lia|].
  unfold mbind, M_bind, observe. cbn [w_trace w_store].
  pose proof (Hmono tr [EvNow]) as Hnow.
  destruct (Z.ltb_spec (sl_now cfg tr - start) (sl_floor cfg)) as [Hlt|Hge]; [|cbn; lia].
  rewrite Hs. cbn. pose proof (Hsl (tr ++ [EvNow]) (sl_floor cfg - (sl_now cfg tr - start))). lia.
Qed.
End Exact.

(** ** Witnesses *)

Module ToyLogin.
(** A clock that moves by what is slept and by nothing else. *)
Definition slept (tr : trace) : Z :=
  foldr (fun ev n => match ev with EvSleep d => Z.max 0 d + n | _ => n end) 0 tr.
Definition env : Env := {|
  env_now := slept; env_newID _ := ""; env_rand _ _ := Ret []; env_bcrypt_hash _ _ := Ret "";
  env_bcrypt_ok _ _ := false; env_stub := Ret ""; env_totp _ _ _ := Ret false;
  env_unicode_lower s := s; env_numeric_date t := t / 10 ^ 9
|}.
Definition row (domain : string) (verified : bool) : DomainRecord := MkDomainRecord "kid" domain verified "okta".
Definition domains : DomainStore := {|
  ByDomain d := if String.eqb d "acme.example" then Ret (row d true)
                else if String.eqb d "pending.example" then Ret (row d false)
                else Fail (Sentinel tenant_ErrNotFound);
  ListForTenant _ := Ret []
|}.
Definition tenants : Tenant.Store := demo_store demo_rows.
Definition opts : list (@StartLoginOption unit) := [WithStartLoginTenants (Some (fun _ => tenants))].
Definition ask (email : string) := StartLogin env (fun _ => domains) email opts (World tt []).

Lemma slept_app tr tr' : slept (tr ++ tr') = slept tr + slept tr'.
Proof. unfold slept. induction tr as [|ev tr IH]; [done|]. cbn [app foldr]. rewrite IH. destruct ev; lia. Qed.
Lemma slept_nonneg tr : 0 <= slept tr.
Proof. unfold slept. induction tr as [|ev tr IH]; [done|]. cbn [foldr]. destruct ev; lia. Qed.
End ToyLogin.

(** An unknown domain and an unverified one cannot be told apart, nor can the
    time they take. *)
Example one_answer_for_all_misses :
  (ToyLogin.ask "bob@nobody.example").1 = (ToyLogin.ask "bob@pending.example").1 /\
  (ToyLogin.ask "bob@nobody.example").2 = (ToyLogin.ask "bob@pending.example").2 /\
  (ToyLogin.ask " Bob@ACME.example").1 = Ret (MkStart "kid" "okta" true 0, None).
Proof. by vm_compute. Qed.

Lemma StartLogin_exact_witness :
  (StartLogin ToyLogin.env (fun _ => ToyLogin.domains) "Bob@acme.example" ToyLogin.opts (World tt [])).1 =
    Ret (MkStart "kid" "okta" true 0, None).
Proof.
  destruct (StartLogin_exact ToyLogin.env ToyLogin.opts ToyLogin.domains (Some ToyLogin.tenants)
    "Bob@acme.example" "acme.example" (World tt []) eq_refl) as [Hiff _].
  - intros d w. reflexivity.
  - intros allow [=].
  - exists "bob". split; [reflexivity|]. split; [|discriminate]. by apply (bool_decide_unpack _); vm_compute.
  - apply Hiff. exists (ToyLogin.row "acme.example" true). split_and!; [reflexivity..|discriminate|].
    eexists. split; [reflexivity|reflexivity].
Defined.

Lemma StartLogin_floor_witness :
  0 + 50000000 <= ToyLogin.slept (w_trace (StartLogin ToyLogin.env (fun _ => ToyLogin.domains)
    "bob@nobody.example" ToyLogin.opts (World tt [])).2).
Proof.
  apply (StartLogin_floor ToyLogin.env ToyLogin.opts (fun _ => ToyLogin.domains) "bob@nobody.example" (World tt [])).
  - intros tr tr'. change (ToyLogin.slept tr <= ToyLogin.slept (tr ++ tr')).
    rewrite ToyLogin.slept_app. pose proof (ToyLogin.slept_nonneg tr'). lia.
  - intros tr d Hd. change (ToyLogin.slept tr + d <= ToyLogin.slept (tr ++ [EvSleep d])).
    rewrite ToyLogin.slept_app. cbn. lia.
  - reflexivity.
Defined.
