(* ===== verification/WebWire.v ===== *)
(** * The wire contract of the mounted routes

    [src/espresso/wire.go] and what the route handlers share: what a handler
    answers, the WireV1 bodies, the tables from errors to codes, and the
    refresh cookie with the path it is fenced to ([authroutes.go],
    [authPrefixFor]). *)

From S2P Require Import Prelude Tenant Bytes World Identity Http.

#[local] Open Scope string_scope.
#[local] Open Scope list_scope.
#[local] Open Scope Z_scope.

(** [espresso.JSON[A]]. *)
Record JSON (A : Type) := MkJSON { js_StatusCode : Z; js_Data : A; js_Cookies : list Cookie }.
Arguments MkJSON {_} _ _ _.
Arguments js_StatusCode {_} _.
Arguments js_Data {_} _.
Arguments js_Cookies {_} _.

(** A handler's result [(A, error)]: the error is one the framework renders. *)
Abbreviation reply S A := (M (Web S) (http_error + A)).

Section Reply.
Context {S : Type}.
Definition answer {A} (a : A) : reply S A := mret (inr a).
Definition refuse {A} (e : fw_error) : reply S A := mret (inl (Fw e)).
(** [a, err := m; if err != nil { return zero, err }; k(a)]. *)
Definition reply_bind {A B} (m : reply S A) (k : A -> reply S B) : reply S B :=
  r ← m; match r with inl e => mret (inl e) | inr a => k a end.
(** A call of a port, its error handled by [on_err]. *)
Definition calling {A B} (m : M S A) (on_err : error -> reply S B) (k : A -> reply S B) : reply S B :=
  try_catch (call_app m) on_err k.
End Reply.
Notation "x ⇐ m ; k" := (reply_bind m (fun x => k)) (at level 20, m at level 100, k at level 200, right associativity).

(** ** Bodies *)

(** [User] is the application's payload, opaque to the framework. *)
Record AuthRes := MkAuthRes {
  ax_Token : string;
  ax_User : jv;
  ax_TOTPRequired : bool;
  ax_SessionToken : string
}.
Record RegisterReq := { rq_Email : string; rq_Password : string }.
Definition LoginReq : Type := RegisterReq.
Record TOTPVerifyReq := { vq_SessionToken : string; vq_Code : string }.
Record TOTPEnrollRes := MkEnrollRes { en_OTPAuthURI : string; en_RecoveryCodes : list string }.
Record TOTPEnrollSessionReq := { sq_SessionToken : string; sq_CurrentCode : string }.
Record TOTPEnrollSessionRes := MkEnrollSessionRes {
  es_OTPAuthURI : string;
  es_RecoveryCodes : list string;
  es_Token : string;
  es_User : jv
}.
Record ExchangeReq := MkExchangeReq { xq_ProviderID : string; xq_Code : string; xq_State : string }.
Record ExchangeRes := MkExchangeRes { xr_Token : string; xr_User : jv; xr_Redirect : string }.

(** ** Errors to codes *)

Definition coded (k : fw_kind) (msg code : string) : fw_error := FwError k msg (Some code) None.
Definition internal (err : error) : fw_error := FwError ErrInternal "internal error" None (Some err).

Definition mapFederationVerifyError (err : error) : fw_error :=
  if errors_is err espresso_ErrOIDCState then coded ErrUnauthorized "oidc state invalid" "INVALID_STATE"
  else if errors_is err espresso_ErrOIDCExchange then coded (NewError 502) "idp token exchange failed" "IDP_ERROR"
  else if errors_is err espresso_ErrOIDCNoIDToken then coded ErrUnauthorized "idp returned no id token" "INVALID_IDTOKEN"
  else if errors_is err oidc_ErrNonceMismatch then coded ErrUnauthorized "nonce mismatch" "INVALID_NONCE"
  else coded ErrUnauthorized "id token invalid" "INVALID_IDTOKEN".

Definition mapAuthWireError (err : error) (validationMsg : error -> string) : fw_error :=
  if errors_is err identity_ErrEmailTaken then coded ErrConflict "email is already registered" "EMAIL_TAKEN"
  else if errors_is err identity_ErrUserInactive then coded ErrUnauthorized "account is deactivated" "USER_INACTIVE"
  else if errors_is err identity_ErrInvalidCredentials || errors_is err identity_ErrInvalidSession then
    coded ErrUnauthorized "invalid credentials" "INVALID_CREDENTIALS"
  else if errors_is err identity_ErrInvalidEmail || errors_is err identity_ErrPasswordPolicy ||
          errors_is err identity_ErrInvalidInput then
    coded ErrBadRequest (validationMsg err) "VALIDATION_ERROR"
  else internal err.

Definition mapTOTPWireError (err : error) (validationMsg : error -> string) : fw_error :=
  if errors_is err identity_ErrInvalidTOTP then coded ErrUnauthorized "invalid totp code" "INVALID_TOTP"
  else if errors_is err identity_ErrTOTPNotEnrolled then coded ErrBadRequest (validationMsg err) "VALIDATION_ERROR"
  else mapAuthWireError err validationMsg.

Definition defaultValidationMessage (_ : error) : string := "validation error".

(** ** The refresh cookie *)

Record CookieConfig := { cc_Name : string; cc_Secure : bool; cc_MaxAgeSeconds : Z }.

(** [strings.Contains(s, sub)]; [strings.ReplaceAll(s, old, new)] for a
    non-empty [old]: [skip] counts the bytes of a match still to drop. *)
Definition contains (s sub : string) : bool :=
  match String.index 0 sub s with Some _ => true | None => false end.
Fixpoint replace_from (skip : nat) (old new s : string) : string :=
  match s with
  | "" => ""
  | String c s' =>
      match skip with
      | Datatypes.S k => replace_from k old new s'
      | O => if has_prefix s old then new +:+ replace_from (String.length old - 1) old new s'
             else String c (replace_from 0 old new s')
      end
  end.
Definition ReplaceAll (s old new : string) : string := replace_from 0 old new s.

Definition TenantPathSegment : string := "{tenant}".

Definition authPrefixFor (mount : string) (tenantID : ID) : option string :=
  if negb (contains mount TenantPathSegment) then Some mount
  else if negb (Valid tenantID) || IsSingle tenantID then None
  else Some (ReplaceAll mount TenantPathSegment (ID_String tenantID)).

Definition refresh_cookie (cfg : CookieConfig) (value path : string) (maxAge : Z) : Cookie :=
  MkCookie (cc_Name cfg) value path true (cc_Secure cfg) SameSiteLaxMode maxAge.

(** [strings.HasPrefix(p, "/") && !strings.HasSuffix(p, "/")]. *)
Definition valid_mount (p : string) : bool := has_prefix p "/" && negb (has_suffix p "/").

(** ** What a handler answers, whatever its ports do *)

Section Yields.
Context {S : Type}.

(** Every answer of [m] that is not a refusal satisfies [P]. *)
Definition yields {A} (P : A -> Prop) (m : reply S A) : Prop :=
  forall w a w', m w = (Ret (inr a), w') -> P a.

Lemma yields_answer {A} (P : A -> Prop) a : P a -> yields P (answer (S:=S) a).
Proof. by intros Ha w b w' [= <- <-]. Qed.
Lemma yields_refuse {A} (P : A -> Prop) e : yields P (refuse (S:=S) e).
Proof. by intros w b w' [=]. Qed.
Lemma yields_bind {A B} (P : A -> Prop) (m : M (Web S) B) (k : B -> reply S A) :
  (forall b, yields P (k b)) -> yields P (m ≫= k).
Proof. intros Hk w a w' (b & w1 & _ & H)%bind_Ret_inv. by eapply Hk. Qed.
Lemma yields_calling {A B} (P : A -> Prop) (m : M S B) on_err (k : B -> reply S A) :
  (forall e, yields P (on_err e)) -> (forall b, yields P (k b)) -> yields P (calling m on_err k).
Proof.
  intros He Hk w a w' [(b & w1 & _ & H)|[(e & w1 & _ & H)|(why & _ & [=])]]%try_catch_inv;
    [by eapply Hk|by eapply He].
Qed.
Lemma yields_panic {A} (P : A -> Prop) why : yields P (lift (Panic why) : reply S A).
Proof. by intros w a w' [=]. Qed.
End Yields.

(** The application's part of the world. *)
Definition app_world {S} (w : world (Web S)) : world S := World (web_app (w_store w)) (w_trace w).

Lemma call_app_inv {S A} (m : M S A) w r w' : call_app m w = (r, w') -> m (app_world w) = (r, app_world w').
Proof. unfold call_app, app_world. destruct (m _) as [r1 [s tr]]. by intros [= <- <-]. Qed.

(** A call that led to an answer, when its errors only lead to refusals. *)
Lemma calling_answer {S A B} (m : M S B) on_err (k : B -> reply S A) w a w' :
  (forall e, yields (fun _ => False) (on_err e)) -> calling m on_err k w = (Ret (inr a), w') ->
  exists b w1, m (app_world w) = (Ret b, app_world w1) /\ k b w1 = (Ret (inr a), w').
Proof.
  intros He [(b & w1 & Hm & Hk)|[(e & w1 & _ & H)|(why & _ & [=])]]%try_catch_inv.
  - exists b, w1. split; [by apply call_app_inv|done].
  - by destruct (He e w1 a w' H).
Qed.

Lemma reply_bind_answer {S A B} (m : reply S A) (k : A -> reply S B) w a w1 : m w = (Ret (inr a), w1) ->
  reply_bind m k w = k a w1.
Proof. unfold reply_bind, mbind, M_bind. by intros ->. Qed.
Lemma reply_bind_inv {S A B} (m : reply S A) (k : A -> reply S B) w r w' : reply_bind m k w = (r, w') ->
  (exists a w1, m w = (Ret (inr a), w1) /\ k a w1 = (r, w')) \/
  (exists r0, m w = (r0, w') /\ (forall a, r0 <> Ret (inr a)) /\ forall b, r <> Ret (inr b)).
Proof.
  unfold reply_bind. intros [([e|a] & w1 & Hm & H)|[(e & Hm & ->)|(why & Hm & ->)]]%bind_inv.
  - injection H as <- <-. right. eexists. by split_and!.
  - left. eauto.
  - right. eexists. by split_and!.
  - right. eexists. by split_and!.
Qed.

(** The answer of a run, when it is one. *)
Definition is_answer {A} (r : go (http_error + A)) : bool := match r with Ret (inr _) => true | _ => false end.
Definition answer_of {A W} (d : A) (run : go (http_error + A) * W) : A :=
  match run.1 with Ret (inr a) => a | _ => d end.
Lemma answer_run {A W} (d : A) (run : go (http_error + A) * W) : is_answer run.1 = true ->
  run = (Ret (inr (answer_of d run)), run.2).
Proof. unfold answer_of. by destruct run as [[[e|a]| |] w]. Qed.
(** The code of a refusal. *)
Definition refusal {A} (r : go (http_error + A)) : option (fw_kind * option string) :=
  match r with Ret (inl (Fw e)) => Some (fe_kind e, fe_code e) | _ => None end.

Ltac yields_tac := repeat first
  [ apply yields_refuse | apply yields_panic | apply yields_answer
  | apply yields_bind; intros ? | apply yields_calling; intros ?
  | progress case_match ].

(** ** The path of a tenant's cookie is no other tenant's *)

(** How long a replacement is, by how long what it puts in is. *)
Lemma replace_length old s : forall skip, exists kept n, forall new,
  String.length (replace_from skip old new s) = (kept + n * String.length new)%nat.
Proof.
  induction s as [|c s IH]; intros skip; cbn [replace_from]; [by exists 0%nat, 0%nat|].
  destruct skip as [|skip]; [|apply IH]. destruct (has_prefix (String c s) old).
  - destruct (IH (String.length old - 1)%nat) as (kept & n & H). exists kept, (Datatypes.S n). intros new.
    rewrite string_length_append, H. lia.
  - destruct (IH 0%nat) as (kept & n & H). exists (Datatypes.S kept), n. intros new. cbn. by rewrite H.
Qed.

Lemma append_inj s1 s2 t1 t2 : String.length s1 = String.length s2 -> s1 +:+ t1 = s2 +:+ t2 -> s1 = s2.
Proof.
  revert s2. induction s1 as [|c s1 IH]; intros [|d s2]; cbn; [done..|].
  intros [= Hl] [= -> H]. f_equal. by apply IH.
Qed.

Lemma contains_cons c s old : old <> "" -> contains (String c s) old = true ->
  has_prefix (String c s) old = false -> contains s old = true.
Proof.
  unfold contains, has_prefix. destruct old as [|d old]; [done|]. intros _. cbn.
  destruct (ascii_dec d c) as [->|]; [destruct (String.prefix old s); [done|]|];
    by destruct (String.index 0 (String _ old) s).
Qed.

Lemma replace_longer s old n1 n2 : old <> "" -> contains s old = true ->
  (String.length n1 < String.length n2)%nat ->
  (String.length (ReplaceAll s old n1) < String.length (ReplaceAll s old n2))%nat.
Proof.
  unfold ReplaceAll. intros Hold Hin Hl. induction s as [|c s IH]; [by destruct old|]. cbn [replace_from].
  destruct (has_prefix (String c s) old) eqn:Hp.
  - rewrite !string_length_append. destruct (replace_length old s (String.length old - 1)) as (kept & n & H).
    rewrite !H. nia.
  - cbn [String.length]. apply -> Nat.succ_lt_mono. apply IH. by apply contains_cons in Hin.
Qed.

Lemma ReplaceAll_inj s old n1 n2 : old <> "" -> contains s old = true ->
  ReplaceAll s old n1 = ReplaceAll s old n2 -> n1 = n2.
Proof.
  intros Hold Hin Heq.
  assert (String.length n1 = String.length n2) as Hl.
  { destruct (Nat.lt_total (String.length n1) (String.length n2)) as [H|[H|H]]; [|done|];
      pose proof (replace_longer s old _ _ Hold Hin H); rewrite Heq in *; lia. }
  revert Heq. unfold ReplaceAll. induction s as [|c s IH]; [by destruct old|]. cbn [replace_from].
  destruct (has_prefix (String c s) old) eqn:Hp; [intros H; by eapply append_inj|].
  intros [= H]. apply IH; [by apply contains_cons in Hin|done].
Qed.

Lemma authPrefixFor_inj mount t1 t2 p : contains mount TenantPathSegment = true ->
  authPrefixFor mount t1 = Some p -> authPrefixFor mount t2 = Some p -> t1 = t2.
Proof.
  unfold authPrefixFor. intros Hin. rewrite Hin. cbn [negb].
  destruct (Valid t1) eqn:Hv1, (IsSingle t1) eqn:Hs1; cbn; try done.
  destruct (Valid t2) eqn:Hv2, (IsSingle t2) eqn:Hs2; cbn; try done.
  intros [= <-] [= H]. apply ReplaceAll_inj in H; [|done..].
  destruct t1 as [v1 b1], t2 as [v2 b2]. cbn in *. destruct b1, b2; cbn in *; congruence.
Qed.
