(* ===== verification/WebAuthRoutes.v ===== *)
(** * The mounted auth routes

    [src/espresso/authroutes.go]: registration, login in one or two legs, the
    refresh cookie and the second-factor ceremonies, over the application's
    [IdentityService]. *)

From S2P Require Import Prelude Tenant Bytes World Identity AuditEvent Http WebAuth WebAudit WebWire.

#[local] Open Scope string_scope.
#[local] Open Scope list_scope.
#[local] Open Scope Z_scope.

(** ** The port *)

(** [User] is a pointer. *)
Record AuthResult := MkAuthResult { ru_User : option User; ru_Tokens : Tokens }.
Definition Tokens_zero : Tokens := MkTokens "" "" time_zero.
Record TOTPEnrollment := MkTOTPEnrollment { tn_OTPAuthURI : string; tn_RecoveryCodes : list string }.

(** [svc_Login] may answer a result together with an error. *)
Record IdentityService (S : Type) := {
  svc_Register : ID -> string -> string -> M S AuthResult;
  svc_Login : ID -> string -> string -> M S (AuthResult * option error);
  svc_Me : ID -> string -> M S (option User);
  svc_Refresh : ID -> string -> M S AuthResult;
  svc_Logout : ID -> string -> M S unit;
  svc_IssueTOTPPending : ID -> string -> M S string;
  svc_VerifyTOTPPending : ID -> string -> M S string;
  svc_VerifyTOTP : ID -> string -> string -> M S unit;
  svc_VerifyRecoveryCode : ID -> string -> string -> M S unit;
  svc_IssueTokensForUser : ID -> string -> M S AuthResult;
  svc_EnrollTOTP : ID -> string -> M S TOTPEnrollment;
  svc_DisableTOTP : ID -> string -> string -> M S unit;
  svc_EnrollTOTPViaSession : ID -> string -> string -> M S (option TOTPEnrollment * option AuthResult)
}.
Arguments svc_Register {_} _ _ _ _.
Arguments svc_Login {_} _ _ _ _.
Arguments svc_Me {_} _ _ _.
Arguments svc_Refresh {_} _ _ _.
Arguments svc_Logout {_} _ _ _.
Arguments svc_IssueTOTPPending {_} _ _ _.
Arguments svc_VerifyTOTPPending {_} _ _ _.
Arguments svc_VerifyTOTP {_} _ _ _ _.
Arguments svc_VerifyRecoveryCode {_} _ _ _ _.
Arguments svc_IssueTokensForUser {_} _ _ _.
Arguments svc_EnrollTOTP {_} _ _ _.
Arguments svc_DisableTOTP {_} _ _ _ _.
Arguments svc_EnrollTOTPViaSession {_} _ _ _ _.

Record AuthRoutesConfig (S : Type) := {
  ar_MountPrefix : string;
  ar_Tenant : option (Context -> option ID);
  ar_Cookies : CookieConfig;
  ar_ProjectUser : option (Context -> option User -> jv);
  ar_ValidationMessage : option (error -> string);
  ar_OnAuthenticated : option (Context -> Actor -> M (Web S) unit);
  ar_OnTOTPEnrolledViaSession : option (Context -> string -> M (Web S) unit)
}.
Arguments ar_MountPrefix {_} _.
Arguments ar_Tenant {_} _.
Arguments ar_Cookies {_} _.
Arguments ar_ProjectUser {_} _.
Arguments ar_ValidationMessage {_} _.
Arguments ar_OnAuthenticated {_} _.
Arguments ar_OnTOTPEnrolledViaSession {_} _.

(** The constructed surface: the configuration with its defaults filled in. *)
Record AuthRoutes (S : Type) := MkAuthRoutes {
  rt_svc : IdentityService S;
  rt_MountPrefix : string;
  rt_Tenant : Context -> option ID;
  rt_Cookies : CookieConfig;
  rt_ProjectUser : Context -> option User -> jv;
  rt_ValidationMessage : error -> string;
  rt_OnAuthenticated : Context -> Actor -> M (Web S) unit;
  rt_OnTOTPEnrolledViaSession : option (Context -> string -> M (Web S) unit)
}.
Arguments MkAuthRoutes {_} _ _ _ _ _ _ _ _.
Arguments rt_svc {_} _.
Arguments rt_MountPrefix {_} _.
Arguments rt_Tenant {_} _.
Arguments rt_Cookies {_} _.
Arguments rt_ProjectUser {_} _.
Arguments rt_ValidationMessage {_} _.
Arguments rt_OnAuthenticated {_} _.
Arguments rt_OnTOTPEnrolledViaSession {_} _.

Definition NewAuthRoutes {S} (svc : option (IdentityService S)) (cfg : AuthRoutesConfig S) : go (AuthRoutes S) :=
  match svc with
  | None => Fail (Errorf0 "auth routes require an IdentityService")
  | Some svc =>
      if negb (valid_mount (ar_MountPrefix cfg)) then Fail (Errorf0 "MountPrefix")
      else if String.eqb (cc_Name (ar_Cookies cfg)) "" then Fail (Errorf0 "refresh cookie name is required")
      else
        match ar_ProjectUser cfg, ar_Tenant cfg with
        | None, _ => Fail (Errorf0 "ProjectUser hook is required")
        | _, None => Fail (Errorf0 "AuthRoutesConfig.Tenant is required")
        | Some project, Some resolve => Ret {|
            rt_svc := svc;
            rt_MountPrefix := ar_MountPrefix cfg;
            rt_Tenant := resolve;
            rt_Cookies := ar_Cookies cfg;
            rt_ProjectUser := project;
            rt_ValidationMessage := default defaultValidationMessage (ar_ValidationMessage cfg);
            rt_OnAuthenticated := default SetAuditActor (ar_OnAuthenticated cfg);
            rt_OnTOTPEnrolledViaSession := ar_OnTOTPEnrolledViaSession cfg
          |}
        end
  end.

Definition FixedTenant (id : ID) : go (Context -> option ID) :=
  if negb (Valid id) then Panic "FixedTenant requires a set tenant.ID" else Ret (fun _ => Some id).

Definition errNoTenant : fw_error := coded ErrUnauthorized "invalid token" "UNAUTHENTICATED".
Definition session_expired : fw_error := coded ErrUnauthorized "session expired" "UNAUTHENTICATED".
Definition refreshCookieSlotName : string := "tamper_refresh".

Section Routes.
Context {S : Type} (a : AuthRoutes S).
Local Abbreviation reply A := (M (Web S) (http_error + A)).
Implicit Types x : Context.

Definition ReadRefreshCookie : Middleware S := ReadNamedCookie refreshCookieSlotName (cc_Name (rt_Cookies a)).

(** The method [tenant]. *)
Definition tenant_of x : option ID :=
  match rt_Tenant a x with
  | Some id => if Valid id then Some id else None
  | None => None
  end.
Definition with_routed {A} x (k : ID -> reply A) : reply A :=
  match tenant_of x with Some tid => k tid | None => refuse errNoTenant end.

(** [None] is the nil slice. *)
Definition refreshCookies (tokens : Tokens) (tenantID : ID) : option (list Cookie) :=
  if String.eqb (tk_Refresh tokens) "" then None
  else
    prefix ← authPrefixFor (rt_MountPrefix a) tenantID;
    Some [refresh_cookie (rt_Cookies a) (tk_Refresh tokens) prefix (cc_MaxAgeSeconds (rt_Cookies a))].
Definition clearRefreshCookie (tenantID : ID) : option Cookie :=
  prefix ← authPrefixFor (rt_MountPrefix a) tenantID;
  Some (refresh_cookie (rt_Cookies a) "" prefix (-1)).
Definition onlySetCookies (cs : list (option Cookie)) : list Cookie := omap id cs.

Definition authRes x (status : Z) (res : AuthResult) (tenantID : ID) : reply (JSON AuthRes) :=
  let cookies := refreshCookies (ru_Tokens res) tenantID in
  if negb (String.eqb (tk_Refresh (ru_Tokens res)) "") && bool_decide (cookies = None)
  then refuse (coded ErrNotFound "not found" "NOT_FOUND")
  else answer (MkJSON status
    (MkAuthRes (tk_Access (ru_Tokens res)) (rt_ProjectUser a x (ru_User res)) false "") (default [] cookies)).

(** [u.ID] of a pointer. *)
Definition user_id (u : option User) : M (Web S) string :=
  match u with Some u => mret (us_ID u) | None => lift (Panic "nil pointer dereference") end.

Definition authenticated x (u : option User) (tid : ID) : M (Web S) unit :=
  id ← user_id u;
  rt_OnAuthenticated a x (user_row id "" "" (ID_String tid)).

Definition map_auth (err : error) : fw_error := mapAuthWireError err (rt_ValidationMessage a).
Definition map_totp (err : error) : fw_error := mapTOTPWireError err (rt_ValidationMessage a).

Definition Register x (req : RegisterReq) : reply (JSON AuthRes) :=
  with_routed x (fun tid =>
    calling (svc_Register (rt_svc a) tid (rq_Email req) (rq_Password req))
      (fun err => refuse (map_auth err))
      (fun res => authRes x 201 res tid)).

(** The first leg that needs a second one. *)
Definition totp_required x (tid : ID) (u : User) : reply (JSON AuthRes) :=
  calling (svc_IssueTOTPPending (rt_svc a) tid (us_ID u))
    (fun mintErr => refuse (internal mintErr))
    (fun tok => answer (MkJSON 200 (MkAuthRes "" (rt_ProjectUser a x (Some u)) true tok) [])).

Definition Login x (req : LoginReq) : reply (JSON AuthRes) :=
  with_routed x (fun tid =>
    calling (svc_Login (rt_svc a) tid (rq_Email req) (rq_Password req))
      (fun err => refuse (map_auth err))
      (fun '(res, err) =>
         match err with
         | Some err =>
             match errors_is err identity_ErrTOTPRequired, ru_User res with
             | true, Some u => totp_required x tid u
             | _, _ => refuse (map_auth err)
             end
         | None => authenticated x (ru_User res) tid;; authRes x 200 res tid
         end)).

Definition Me x : reply (JSON jv) :=
  with_routed x (fun tid =>
    userID ← lift (MustGetUserID x);
    calling (svc_Me (rt_svc a) tid userID)
      (fun err => if errors_is err identity_ErrNotFound then refuse errNoTenant else refuse (internal err))
      (fun user => answer (MkJSON 200 (rt_ProjectUser a x user) []))).

(** [notHere]. *)
Definition notHere (err : error) : fw_error :=
  if errors_is err identity_ErrNotFound then session_expired else map_totp err.

Definition VerifyTOTP x (req : TOTPVerifyReq) : reply (JSON AuthRes) :=
  with_routed x (fun tid =>
    calling (svc_VerifyTOTPPending (rt_svc a) tid (vq_SessionToken req)) (fun _ => refuse session_expired)
      (fun userID =>
         calling (if (String.length (vq_Code req) =? 6)%nat then svc_VerifyTOTP (rt_svc a) tid userID (vq_Code req)
                  else svc_VerifyRecoveryCode (rt_svc a) tid userID (vq_Code req))
           (fun err => refuse (notHere err))
           (fun _ =>
              calling (svc_IssueTokensForUser (rt_svc a) tid userID)
                (fun err => if errors_is err identity_ErrNotFound then refuse session_expired
                            else refuse (map_auth err))
                (fun res => authenticated x (ru_User res) tid;; authRes x 200 res tid)))).

Definition EnrollTOTP x : reply (JSON TOTPEnrollRes) :=
  with_routed x (fun tid =>
    userID ← lift (MustGetUserID x);
    calling (svc_EnrollTOTP (rt_svc a) tid userID)
      (fun err => if errors_is err identity_ErrNotFound then refuse errNoTenant else refuse (map_auth err))
      (fun enr => answer (MkJSON 200 (MkEnrollRes (tn_OTPAuthURI enr) (tn_RecoveryCodes enr)) []))).

(** [espresso.Status]. *)
Definition DisableTOTP x (code : string) : reply Z :=
  with_routed x (fun tid =>
    userID ← lift (MustGetUserID x);
    calling (svc_DisableTOTP (rt_svc a) tid userID code)
      (fun err => if errors_is err identity_ErrNotFound then refuse errNoTenant else refuse (map_totp err))
      (fun _ => answer 204)).

Definition enroll_error (err : error) : fw_error :=
  if errors_is err identity_ErrTOTPAlreadyEnrolled then
    coded ErrConflict "user already has TOTP enrolled" "TOTP_ALREADY_ENROLLED"
  else if errors_is err identity_ErrInvalidSession then session_expired
  else map_totp err.

Definition EnrollSession x (req : TOTPEnrollSessionReq) : reply (JSON TOTPEnrollSessionRes) :=
  with_routed x (fun tid =>
    calling (svc_EnrollTOTPViaSession (rt_svc a) tid (sq_SessionToken req) (sq_CurrentCode req))
      (fun err => refuse (enroll_error err))
      (fun '(phase1, phase2) =>
         match phase2 with
         | Some done =>
             authenticated x (ru_User done) tid;;
             id ← user_id (ru_User done);
             match rt_OnTOTPEnrolledViaSession a with Some hook => hook x id | None => mret tt end;;
             answer (MkJSON 200
               (MkEnrollSessionRes "" [] (tk_Access (ru_Tokens done)) (rt_ProjectUser a x (ru_User done)))
               (default [] (refreshCookies (ru_Tokens done) tid)))
         | None =>
             match phase1 with
             | None => lift (Panic "nil pointer dereference")
             | Some enr => answer (MkJSON 200
                 (MkEnrollSessionRes (tn_OTPAuthURI enr) (tn_RecoveryCodes enr) "" (rt_ProjectUser a x None)) [])
             end
         end)).

(** The cookies-on-error shape: a 401 body with a clearing cookie. *)
Definition cleared_401 x (tid : ID) : reply (JSON AuthRes) :=
  answer (MkJSON 401 (MkAuthRes "" (rt_ProjectUser a x None) false "") (onlySetCookies [clearRefreshCookie tid])).

Definition Refresh x : reply (JSON AuthRes) :=
  match tenant_of x with
  | None => cleared_401 x ID_zero
  | Some tid =>
      match NamedCookieValue x refreshCookieSlotName with
      | None => refuse (coded ErrUnauthorized "refresh token missing" "UNAUTHENTICATED")
      | Some tok =>
          calling (svc_Refresh (rt_svc a) tid tok)
            (fun err =>
               if errors_is err identity_ErrUserInactive then cleared_401 x tid
               else if errors_is err identity_ErrInvalidSession || errors_is err identity_ErrNotFound ||
                       errors_is err identity_ErrInvalidCredentials
               then refuse (coded ErrUnauthorized "refresh failed" "UNAUTHENTICATED")
               else refuse (internal err))
            (fun res => authRes x 200 res tid)
      end
  end.

Definition Logout x : reply (JSON unit) :=
  let tid := default ID_zero (tenant_of x) in
  match tenant_of x, NamedCookieValue x refreshCookieSlotName with
  | Some tid, Some tok => ignore_err (call_app (svc_Logout (rt_svc a) tid tok))
  | _, _ => mret tt
  end;;
  answer (MkJSON 204 tt (onlySetCookies [clearRefreshCookie tid])).
End Routes.

(** ** The fence around the refresh cookie *)

Section Fence.
Context {S : Type} (a : AuthRoutes S).
Implicit Types (x : Context) (w : world (Web S)).

(** The routes that may set a cookie, on the context of a request. *)
Inductive endpoint x : forall {A}, M (Web S) (http_error + JSON A) -> Prop :=
  | EpRegister req : endpoint x (Register a x req)
  | EpLogin req : endpoint x (Login a x req)
  | EpMe : endpoint x (Me a x)
  | EpVerifyTOTP req : endpoint x (VerifyTOTP a x req)
  | EpEnrollTOTP : endpoint x (EnrollTOTP a x)
  | EpEnrollSession req : endpoint x (EnrollSession a x req)
  | EpRefresh : endpoint x (Refresh a x)
  | EpLogout : endpoint x (Logout a x).

(** What a browser keeps: a cookie is identified by its name and path, and one
    with a negative age is dropped. *)
Abbreviation Jar := (gmap (string * string) string).
Definition receive (jar : Jar) (c : Cookie) : Jar :=
  if ck_MaxAge c <? 0 then delete (ck_Name c, ck_Path c) jar
  else <[(ck_Name c, ck_Path c) := ck_Value c]> jar.
Definition received (jar : Jar) (cs : list Cookie) : Jar := foldl receive jar cs.

(** The tenant a request's cookie belongs to. *)
Definition routed x : ID := default ID_zero (tenant_of a x).

Definition fenced (tid : ID) (c : Cookie) : Prop :=
  exists path, authPrefixFor (rt_MountPrefix a) tid = Some path /\
    ((exists v, v <> "" /\ c = refresh_cookie (rt_Cookies a) v path (cc_MaxAgeSeconds (rt_Cookies a))) \/
     c = refresh_cookie (rt_Cookies a) "" path (-1)).

Lemma fenced_sets tokens tid : Forall (fenced tid) (default [] (refreshCookies a tokens tid)).
Proof.
  unfold refreshCookies, fenced. destruct (String.eqb_spec (tk_Refresh tokens) "") as [|Hne]; [constructor|].
  destruct (authPrefixFor (rt_MountPrefix a) tid) as [path|]; [|constructor].
  apply Forall_singleton. exists path. split; [done|]. left. by eexists.
Qed.
Lemma fenced_clear tid : Forall (fenced tid) (onlySetCookies [clearRefreshCookie a tid]).
Proof.
  unfold onlySetCookies, clearRefreshCookie, fenced.
  destruct (authPrefixFor (rt_MountPrefix a) tid) as [path|]; [|constructor].
  apply Forall_singleton. exists path. split; [done|]. by right.
Qed.
Lemma fenced_authRes x status res tid :
  yields (fun j => Forall (fenced tid) (js_Cookies j)) (authRes a x status res tid).
Proof. unfold authRes. yields_tac. apply fenced_sets. Qed.

Lemma endpoint_fenced x A (m : M (Web S) (http_error + JSON A)) : endpoint x m ->
  yields (fun j => Forall (fenced (routed x)) (js_Cookies j)) m.
Proof.
  unfold routed. intros [req|req| |req| |req| |];
    unfold Register, Login, Me, VerifyTOTP, EnrollTOTP, EnrollSession, Refresh, Logout, with_routed,
      totp_required, authenticated, cleared_401;
    destruct (tenant_of a x) as [tid|]; cbn [default]; yields_tac;
    first [apply fenced_authRes | apply fenced_sets | apply fenced_clear | by constructor].
Qed.

Lemma received_other (tid : ID) (cs : list Cookie) (jar : Jar) (key : string * string) : Forall (fenced tid) cs ->
  (forall path, authPrefixFor (rt_MountPrefix a) tid = Some path -> key <> (cc_Name (rt_Cookies a), path)) ->
  received jar cs !! key = jar !! key.
Proof.
  intros Hf Hkey. unfold received. revert jar. induction Hf as [|c cs (path & Hp & Hc) _ IH]; intros jar; [done|].
  cbn. rewrite IH. assert ((ck_Name c, ck_Path c) = (cc_Name (rt_Cookies a), path)) as Hk
    by (by destruct Hc as [(v & _ & ->)| ->]).
  unfold receive. rewrite Hk. specialize (Hkey path Hp).
  destruct (_ <? _); [by rewrite lookup_delete_ne|by rewrite lookup_insert_ne].
Qed.

Lemma Logout_answer x w r w' : Logout a x w = (Ret r, w') ->
  r = inr (MkJSON 204 tt (onlySetCookies [clearRefreshCookie a (routed x)])).
Proof.
  unfold Logout, routed. intros (u & w1 & _ & H)%bind_Ret_inv. by injection H as <- _.
Qed.

Lemma unrouted_nothing x A (m : M (Web S) (http_error + JSON A)) :
  endpoint x m -> tenant_of a x = None -> forall w, (m w).2 = w.
Proof.
  by intros [req|req| |req| |req| |] Hx w;
    unfold Register, Login, Me, VerifyTOTP, EnrollTOTP, EnrollSession, Refresh, Logout, with_routed; rewrite Hx.
Qed.

(** Whatever the application's service does, a route answers with no cookie
    but the refresh cookie of the tenant it was routed to, which scripts cannot
    read and which keeps SameSite=Lax; a browser that receives the answer keeps
    every other cookie it had, in particular the refresh cookies of all other
    tenants of a templated mount, and after a logout it has none left for the
    tenant. A request that resolves no tenant reaches nothing. *)
Theorem refresh_cookie_fence x A (m : M (Web S) (http_error + JSON A)) w j w' :
  endpoint x m -> m w = (Ret (inr j), w') ->
  (forall c, c ∈ js_Cookies j -> ck_HttpOnly c = true /\ ck_SameSite c = SameSiteLaxMode /\
     ck_Secure c = cc_Secure (rt_Cookies a)) /\
  (forall (jar : Jar) (key : string * string), received jar (js_Cookies j) !! key <> jar !! key ->
     exists path, authPrefixFor (rt_MountPrefix a) (routed x) = Some path /\ key = (cc_Name (rt_Cookies a), path)) /\
  (forall (jar : Jar) x2 (path2 : string), contains (rt_MountPrefix a) TenantPathSegment = true -> routed x2 <> routed x ->
     authPrefixFor (rt_MountPrefix a) (routed x2) = Some path2 ->
     received jar (js_Cookies j) !! (cc_Name (rt_Cookies a), path2) = jar !! (cc_Name (rt_Cookies a), path2)) /\
  (forall w1 r w2, Logout a x w1 = (Ret r, w2) -> exists j', r = inr j' /\ js_StatusCode j' = 204 /\
     forall (jar : Jar) path, authPrefixFor (rt_MountPrefix a) (routed x) = Some path ->
       received jar (js_Cookies j') !! (cc_Name (rt_Cookies a), path) = None) /\
  (tenant_of a x = None -> w' = w).
Proof.
  intros Hep H. pose proof (endpoint_fenced x A m Hep w j w' H) as Hf. cbn beta in Hf. split_and!.
  - intros c Hc. rewrite Forall_forall in Hf. destruct (Hf c Hc) as (path & _ & [(v & _ & ->)| ->]); done.
  - intros jar key Hne. destruct (authPrefixFor (rt_MountPrefix a) (routed x)) as [path|] eqn:Hp.
    + destruct (decide (key = (cc_Name (rt_Cookies a), path))) as [->|Hk]; [by exists path|].
      destruct Hne. eapply received_other; [done|]. intros path' Hp'. congruence.
    + destruct Hne. eapply received_other; [done|]. intros path' Hp'. congruence.
  - intros jar x2 path2 Hin Hx2 Hp2. eapply received_other; [done|]. intros path Hp [=->].
    by destruct Hx2; eapply authPrefixFor_inj.
  - intros w1 r w2 Hl. apply Logout_answer in Hl as ->. eexists. split; [done|]. split; [done|].
    intros jar path Hp. unfold onlySetCookies, clearRefreshCookie. rewrite Hp. cbn.
    unfold receive. cbn. apply lookup_delete_eq.
  - intros Hx. pose proof (unrouted_nothing x A m Hep Hx w) as Hw. by rewrite H in Hw.
Qed.
End Fence.
