(* ===== verification/WebPooled.v ===== *)
(** * The auth routes over the identity core

    [src/examples/multitenant]: [identity_adapter.go], the adapter that serves
    every tenant of a pooled deployment from one [identity.Core], and what the
    two legs of a login are worth when the routes of [WebAuthRoutes] run over
    it; [enter.go], the routes by which a member of several tenants enters one.
    Last, the adapters of [examples/federation] and [examples/quickstart]. *)

From S2P Require Import Prelude Tenant Bytes World Crypto Secrets Jwt Identity IdentityAuth IdentityLogic IdentityTotp IdentitySessions IdentityFactors IdentityAcross AuditEvent Http WebAuth WebGates WebAudit WebAccess WebWire WebAuthRoutes.

#[local] Open Scope string_scope.
#[local] Open Scope list_scope.
#[local] Open Scope Z_scope.

Section Pooled.
Context (lib : JWTLibrary) (E : Env) {S : Type} (c : Core S) (j : JWTService) (ks : Keys).
Local Abbreviation MS := (M S).

Definition userIn (tenantID : ID) (userID : string) : MS User :=
  u ← store_call "UserByID" (UserByID (c_store c) userID);
  if negb (bool_decide (FromStored (us_TenantID u) = tenantID)) then
    fail (Errorf1 "user" (Sentinel identity_ErrNotFound))
  else mret u.

Definition pooled_Register (tenantID : ID) (email password : string) : MS AuthResult :=
  '(u, tok) ← Identity.Register E c tenantID email password;
  mret (MkAuthResult (Some u) tok).

Definition AuthResult_zero : AuthResult := MkAuthResult None Tokens_zero.

Definition pooled_Login (tenantID : ID) (email password : string) : MS (AuthResult * option error) :=
  try_catch (Identity.Login E c tenantID email password)
    (fun err => mret (AuthResult_zero, Some err))
    (fun '(u, tok) =>
       match tok with
       | Ret tok => mret (MkAuthResult (Some u) tok, None)
       | Fail err => if errors_is err identity_ErrTOTPRequired then mret (MkAuthResult (Some u) Tokens_zero, Some err)
                     else mret (AuthResult_zero, Some err)
       | Panic why => lift (Panic why)
       end).

Definition pooled_Me (tenantID : ID) (userID : string) : MS (option User) :=
  u ← userIn tenantID userID; mret (Some u).

Definition pooled_Refresh (tenantID : ID) (refreshToken : string) : MS AuthResult :=
  '(u, tok) ← Identity.Refresh E c tenantID refreshToken;
  mret (MkAuthResult (Some u) tok).

(** No authentication methods are named. *)
Definition pooled_IssueTokensForUser (tenantID : ID) (userID : string) : MS AuthResult :=
  u ← userIn tenantID userID;
  n ← now E;
  tok ← IssueTokensForUser E c userID tenantID (Unix n) (c_defaultACR c) [];
  mret (MkAuthResult (Some u) tok).

Definition pooled_VerifyTOTP (tenantID : ID) (userID code : string) : MS unit :=
  userIn tenantID userID;; IdentityTotp.VerifyTOTP E c tenantID userID code.
Definition pooled_VerifyRecoveryCode (tenantID : ID) (userID code : string) : MS unit :=
  userIn tenantID userID;; VerifyRecoveryCode E c tenantID userID code.
Definition pooled_EnrollTOTP (tenantID : ID) (userID : string) : MS TOTPEnrollment :=
  userIn tenantID userID;;
  e ← StartTOTPEnrollment E c tenantID userID;
  mret (MkTOTPEnrollment (te_OTPAuthURI e) (te_RecoveryCodes e)).
Definition pooled_DisableTOTP (tenantID : ID) (userID code : string) : MS unit :=
  userIn tenantID userID;; IdentityTotp.DisableTOTP E c tenantID userID code.

Definition errNoSessionTOTP : error := Errorf0 "session-token TOTP enrollment is app policy".

Definition pooledIdentity : IdentityService S := {|
  svc_Register := pooled_Register;
  svc_Login := pooled_Login;
  svc_Me := pooled_Me;
  svc_Refresh := pooled_Refresh;
  svc_Logout := Identity.Logout E c;
  svc_IssueTOTPPending tenantID userID := IssueTOTPPending E j userID tenantID;
  svc_VerifyTOTPPending tenantID tok := VerifyTOTPPending lib E j ks tok tenantID;
  svc_VerifyTOTP := pooled_VerifyTOTP;
  svc_VerifyRecoveryCode := pooled_VerifyRecoveryCode;
  svc_IssueTokensForUser := pooled_IssueTokensForUser;
  svc_EnrollTOTP := pooled_EnrollTOTP;
  svc_DisableTOTP := pooled_DisableTOTP;
  svc_EnrollTOTPViaSession _ _ _ := fail errNoSessionTOTP
|}.
End Pooled.

(** ** What the second leg proves *)

Section SecondLeg.
Context (lib : JWTLibrary) (E : Env) {S : Type} (c : Core S) (j : JWTService) (ks : Keys).

Lemma userIn_Ret t userID w u w' : userIn c t userID w = (Ret u, w') ->
  UserByID (c_store c) userID (w_store w) = (Ret u, w_store w') /\ FromStored (us_TenantID u) = t.
Proof.
  unfold userIn. intros (u' & w1 & [Hu _]%store_call_inv & H)%bind_Ret_inv.
  destruct (negb _) eqn:Hb; [discriminate|]. injection H as <- <-. apply negb_false_iff, bool_decide_eq_true in Hb. done.
Qed.

Lemma VerifyTOTPPending_Ret tok t (w : world S) userID w' : VerifyTOTPPending lib E j ks tok t w = (Ret userID, w') ->
  exists pending, authentic lib j ks KPending tok (env_now E (w_trace w)) pending /\ tp_Purpose pending = purposeTOTPPending /\
    tp_TenantID pending = ID_String t /\ tp_Subject pending = userID /\ userID <> "".
Proof.
  unfold VerifyTOTPPending. destruct (Valid t); [|done]. cbn [negb].
  intros (p & w1 & Hp & H)%bind_Ret_inv. destruct (parseClaims_run lib E j ks KPending tok w (Ret p) w1 Hp) as (_ & Hg & _).
  pose proof (Hg p eq_refl) as Hn. exists p.
  destruct (String.eqb_spec (tp_Purpose p) purposeTOTPPending); [|done]. cbn [negb] in H.
  destruct (String.eqb_spec (tp_Subject p) ""); [done|].
  destruct (String.eqb_spec (tp_TenantID p) (ID_String t)); [|done]. by injection H as <- <-.
Qed.

Lemma pooled_issue_Ret t userID w res w' : pooled_IssueTokensForUser E c t userID w = (Ret res, w') ->
  exists u s1 s2 j' authTime, ru_User res = Some u /\ UserByID (c_store c) userID s1 = (Ret u, s2) /\
    FromStored (us_TenantID u) = t /\ c_jwt c = Some j' /\
    signed_access E j' (tk_Access (ru_Tokens res)) userID "" (ID_String t) "" authTime (c_defaultACR c) [] (jwt_ttl j') /\
    exists u' s1' s2', UserByID (c_store c) userID s1' = (Ret u', s2') /\ FromStored (us_TenantID u') = t /\
      us_Active u' = true.
Proof.
  unfold pooled_IssueTokensForUser. intros (u & w1 & [Hu Ht]%userIn_Ret & H)%bind_Ret_inv.
  apply bind_Ret_inv in H as (n & w2 & _ & H). apply bind_Ret_inv in H as (tok & w3 & H & [= <- <-]).
  apply IssueTokensForUser_correct in H as (u' & s & j' & Hu' & Ht' & Ha & Hj & _ & _ & Hs).
  assert (us_TenantID u' = ID_String t) as Htid by (by rewrite <- Ht', FromStored_String).
  rewrite Htid in Hs. exists u, (w_store w), (w_store w1), j', (Unix n). split_and!; [done..|].
  by exists u', (w_store w2), s.
Qed.

(** What the answer of the second leg stands for: the pending token of the
    request was vouched for by a key of the service, at the clock's reading, for
    the tenant the request is routed to; the code was accepted, as a one-time code or as a recovery
    code by its length, for the very user that token names, in that tenant; and
    the access token was signed for that user and tenant, whose stored row is
    active. *)
Definition second_leg (a : AuthRoutes S) x (req : TOTPVerifyReq) (tr : trace) (res : JSON AuthRes) : Prop :=
  exists tid userID pending u tokens,
    tenant_of a x = Some tid /\
    (authentic lib j ks KPending (vq_SessionToken req) (env_now E tr) pending /\ tp_Purpose pending = purposeTOTPPending /\
     tp_TenantID pending = ID_String tid /\ tp_Subject pending = userID) /\
    (exists w1 w2, (if (String.length (vq_Code req) =? 6)%nat
       then IdentityTotp.VerifyTOTP E c tid userID (vq_Code req)
       else VerifyRecoveryCode E c tid userID (vq_Code req)) w1 = (Ret tt, w2)) /\
    (exists s1 s2, UserByID (c_store c) userID s1 = (Ret u, s2) /\ FromStored (us_TenantID u) = tid /\
       us_Active u = true) /\
    (exists j' authTime, c_jwt c = Some j' /\ signed_access E j' (tk_Access tokens) userID "" (ID_String tid) ""
       authTime (c_defaultACR c) [] (jwt_ttl j')) /\
    js_StatusCode res = 200 /\ ax_Token (js_Data res) = tk_Access tokens /\
    js_Cookies res = default [] (refreshCookies a tokens tid).

Lemma authRes_Ret (a : AuthRoutes S) x status res tid w jres w' :
  authRes a x status res tid w = (Ret (inr jres), w') ->
  js_StatusCode jres = status /\ ax_Token (js_Data jres) = tk_Access (ru_Tokens res) /\
  js_Cookies jres = default [] (refreshCookies a (ru_Tokens res) tid).
Proof. unfold authRes. destruct (negb _ && _); [by intros [=]|]. by intros [= <- _]. Qed.

(** C24: The second leg of a login, run by the mounted routes over the pooled
    adapter and the identity core, answers with a session only as [second_leg]
    says, whatever the stores, the clock and the application's hooks do. *)
Theorem second_leg_sound (a : AuthRoutes S) x req w res w' :
  rt_svc a = pooledIdentity lib E c j ks -> WebAuthRoutes.VerifyTOTP a x req w = (Ret (inr res), w') ->
  second_leg a x req (w_trace w) res.
Proof.
  intros Hsvc. unfold WebAuthRoutes.VerifyTOTP, with_routed. rewrite Hsvc.
  destruct (tenant_of a x) as [tid|] eqn:Ht; [|by intros [=]].
  intros (userID & w1 & Hp & H)%calling_answer; [|intros e; yields_tac].
  apply calling_answer in H as ([] & w2 & Hf & H); [|intros e; yields_tac].
  apply calling_answer in H as (r & w3 & Hi & H); [|intros e; yields_tac].
  apply bind_Ret_inv in H as (? & w4 & _ & H). apply authRes_Ret in H as (Hst & Htok & Hc).
  cbn [svc_VerifyTOTPPending pooledIdentity] in Hp. apply VerifyTOTPPending_Ret in Hp as (pending & Hauth & Hpu & Hti & Hsu & _).
  cbn [svc_IssueTokensForUser pooledIdentity] in Hi.
  apply pooled_issue_Ret in Hi as (_ & _ & _ & j' & authTime & _ & _ & _ & Hj & Hs & u & s1 & s2 & Hu & Htu & Ha).
  exists tid, userID, pending, u, (ru_Tokens r). split_and!; [done|done|done|done|done| | |by exists j', authTime|done|done|done].
  - cbn [svc_VerifyTOTP svc_VerifyRecoveryCode pooledIdentity] in Hf. destruct (_ =? 6)%nat;
      apply bind_Ret_inv in Hf as (? & w5 & _ & Hf); by eexists _, _.
  - by exists s1, s2.
Qed.
End SecondLeg.

(** ** At concrete inputs *)

Module ToyPooled.
Definition cookies : CookieConfig := {| cc_Name := "tamper_refresh"; cc_Secure := true; cc_MaxAgeSeconds := 3600 |}.
Definition routes : AuthRoutes MemStore := {|
  rt_svc := pooledIdentity Toy.lib Demo.env Demo.core Toy.service Toy.keys;
  rt_MountPrefix := "/t/{tenant}/auth";
  rt_Tenant := TenantFromContext;
  rt_Cookies := cookies;
  rt_ProjectUser _ u := VStr (match u with Some u => us_ID u | None => "" end);
  rt_ValidationMessage := defaultValidationMessage;
  rt_OnAuthenticated := SetAuditActor;
  rt_OnTOTPEnrolledViaSession := None
|}.
Definition at_tenant (t : ID) : Context := with_tenant t Background.
Definition web (w : world MemStore) : world (Web MemStore) :=
  World (MkWeb (w_store w) [] [] fresh_writer) (w_trace w).
Definition login : LoginReq := {| rq_Email := "bob@acme.com"; rq_Password := "correct horse" |}.

(** Bob, enrolled, signs in: a password, then a code. *)
Definition first_leg := Login routes (at_tenant Demo.acme) login (web bob_completes.2).
Definition no_body {A} (b : A) : JSON A := MkJSON 0 b [].
Definition no_auth : JSON AuthRes := no_body (MkAuthRes "" VNull false "").
Definition pending_token : string := ax_SessionToken (js_Data (answer_of no_auth first_leg)).
Definition code : TOTPVerifyReq := {| vq_SessionToken := pending_token; vq_Code := "123456" |}.
Definition leg_two := WebAuthRoutes.VerifyTOTP routes (at_tenant Demo.acme) code first_leg.2.
Definition session : JSON AuthRes := answer_of no_auth leg_two.

Lemma leg_two_answers : is_answer leg_two.1 = true.
Proof. vm_compute. reflexivity. Qed.
Lemma leg_two_run : WebAuthRoutes.VerifyTOTP routes (at_tenant Demo.acme) code first_leg.2 =
  (Ret (inr session), leg_two.2).
Proof. exact (answer_run no_auth leg_two leg_two_answers). Qed.
End ToyPooled.

(** No cookie before the second factor, one for the tenant's path after it,
    and the pending token is worth nothing under another tenant's routes. *)
Example two_legs :
  match ToyPooled.first_leg.1 with Ret (inr j) => js_Cookies j = [] /\ ax_Token (js_Data j) = "" | _ => False end /\
  map ck_Path (js_Cookies ToyPooled.session) = ["/t/acme/auth"] /\
  refusal (WebAuthRoutes.VerifyTOTP ToyPooled.routes (ToyPooled.at_tenant (New "globex")) ToyPooled.code
    ToyPooled.first_leg.2).1 = Some (ErrUnauthorized, Some "UNAUTHENTICATED").
Proof. by vm_compute. Qed.

(** A throttled login is a server error on the wire: the tables of wire.go
    have no line for [identity.ErrThrottled]. *)
Example throttled_login_is_a_500 :
  refusal (Login ToyPooled.routes (ToyPooled.at_tenant Demo.acme) ToyPooled.login
    (ToyPooled.web (World (w_store bob_completes.2) (repeat EvNow 100)))).1 = Some (ErrInternal, None).
Proof. by vm_compute. Qed.

Lemma second_leg_sound_witness : exists res : JSON AuthRes,
  second_leg Toy.lib Demo.env Demo.core Toy.service Toy.keys ToyPooled.routes
    (ToyPooled.at_tenant Demo.acme) ToyPooled.code (w_trace ToyPooled.first_leg.2) res.
Proof.
  exists ToyPooled.session.
  exact (second_leg_sound Toy.lib Demo.env Demo.core Toy.service Toy.keys ToyPooled.routes
    (ToyPooled.at_tenant Demo.acme) ToyPooled.code ToyPooled.first_leg.2 ToyPooled.session
    ToyPooled.leg_two.2 eq_refl ToyPooled.leg_two_run).
Defined.

Lemma refresh_cookie_fence_witness : exists path : string,
  authPrefixFor "/t/{tenant}/auth" (routed ToyPooled.routes (ToyPooled.at_tenant Demo.acme)) = Some path /\
  ("tamper_refresh", "/t/acme/auth") = ("tamper_refresh", path).
Proof.
  destruct (refresh_cookie_fence ToyPooled.routes (ToyPooled.at_tenant Demo.acme) _
    (WebAuthRoutes.VerifyTOTP ToyPooled.routes (ToyPooled.at_tenant Demo.acme) ToyPooled.code)
    ToyPooled.first_leg.2 ToyPooled.session ToyPooled.leg_two.2) as (_ & H & _).
  - apply EpVerifyTOTP.
  - exact ToyPooled.leg_two_run.
  - apply (H ∅). vm_compute. discriminate.
Defined.

(** ** Entering another tenant (enter.go) *)

Definition errorBody (msg : string) : jv := VObj (fld "error" (VStr msg)).
Definition enterResponse (token target : string) : jv := VObj (fld "token" (VStr token) ++ fld "tenant" (VStr target)).
Definition whoamiResponse (claims : AccessClaims) : jv :=
  VObj (fld "user_id" (VStr (cl_Subject claims)) ++ fld "tenant" (VStr (cl_TenantID claims)) ++
        fld "home_tenant" (VStr (ActorTenantID claims)) ++
        fld "entered" (VBool (negb (String.eqb (cl_HomeTenantID claims) "")))).

Section Enter.
Context (E : Env) {S : Type} (c : Core S).
Local Abbreviation MW := (M (Web S)).

Definition writeJSON (status : Z) (v : jv) : MW unit :=
  header_Set "Content-Type" "application/json";; WriteHeader status;; encode_body v.
Definition enterTenant (target : string) : Handler S := fun r =>
  match AccessClaimsFromContext (r_ctx r) with
  | None => writeJSON 401 (errorBody "unauthenticated")
  | Some claims =>
      try_catch (call_app (EnterTenant E c (Some claims) (New target)))
        (fun err =>
           if errors_is err identity_ErrNotFound then writeJSON 404 (errorBody "not found")
           else if errors_is err identity_ErrUserInactive then writeJSON 401 (errorBody "user is inactive")
           else writeJSON 500 (errorBody "internal error"))
        (fun tok => writeJSON 200 (enterResponse (tk_Access tok) target))
  end.
Definition enterTenantFromPath : Handler S := fun r => enterTenant (r_PathValue r "target") r.
Definition whoami : Handler S := fun r =>
  match AccessClaimsFromContext (r_ctx r) with
  | None => writeJSON 401 (errorBody "unauthenticated")
  | Some claims => writeJSON 200 (whoamiResponse claims)
  end.

(** The status a client sees. *)
Definition status_of (w : world (Web S)) : option Z := (fun sent => sent.1.1) <$> wr_sent (web_writer (w_store w)).
Implicit Types w : world (Web S).

Lemma writeJSON_status status v w res w' : web_writer (w_store w) = fresh_writer -> (400 <=? status) || (status =? 200) = true ->
  writeJSON status v w = (res, w') -> status_of w' = Some status /\ wr_body (web_writer (w_store w')) = [Encoded v].
Proof.
  intros Hw Hs [= <- <-]. unfold status_of. cbn. rewrite Hw. cbn. unfold base_WriteHeader. cbn.
  destruct (Z.leb_spec status 199); [exfalso; bool_simpl; lia|]. by rewrite andb_false_r.
Qed.
Lemma write_fw_status fw e w : web_writer (w_store w) = fresh_writer -> fw_status fw e = 401 ->
  status_of (write_fw fw e w).2 = Some 401.
Proof.
  intros Hw Hs. unfold status_of, write_fw, on_writer. cbn [snd w_store web_writer]. rewrite Hw, Hs.
  assert (forall bs wr, (fun sent : Z * _ * _ => sent.1.1) <$> wr_sent wr = Some 401 ->
    (fun sent : Z * _ * _ => sent.1.1) <$> wr_sent (foldl (fun wr b => wr_Write b wr) wr bs) = Some 401) as H.
  { induction bs as [|b bs IH]; intros wr Hwr; [done|]. apply IH. unfold wr_Write. cbn.
    destruct (wr_sent wr) as [sent|] eqn:Hsent; [|done]. cbn. by rewrite Hsent. }
  by apply H.
Qed.
Lemma call_app_writer {A} (m : M S A) w res w' : call_app m w = (res, w') -> web_writer (w_store w') = web_writer (w_store w).
Proof. unfold call_app. destruct (m _). by intros [= _ <-]. Qed.

(** Behind [RequireAuth] and [RequireTenant] of the pinned tenant, the enter
    route hands out a token only to the bearer of an authentic token of that
    tenant, neither entered nor impersonated, whose user is at home in it, active
    and a member of the tenant of the path; the token is for that user in that
    tenant, with their home beside it. *)
Theorem enter_route_sound fw lib j ks gate r w w' : (forall msg, fw_status fw (unauthenticated msg) = 401) ->
  requireTenant fw (Some TenantFromRoutedContext) false false = Ret gate -> web_writer (w_store w) = fresh_writer ->
  compose (RequireAuth fw lib E j ks) gate enterTenantFromPath r w = (Ret tt, w') -> status_of w' = Some 200 ->
  let target := r_PathValue r "target" in
  exists claims routed v u j' ttl tok,
    (exists bearer, bearerToken (Header_Get (r_Header r) "Authorization") = inl bearer /\ authentic lib j ks KAccess bearer (env_now E (w_trace w)) claims) /\
    TenantFromContext (r_ctx r) = Some routed /\ cl_TenantID claims = ID_String routed /\
    v = web_app (w_store w) /\ (exists tr, entered_member c claims (New target) (World v tr) u) /\ us_Active u = true /\
    wr_body (web_writer (w_store w')) = [Encoded (enterResponse (tk_Access tok) target)] /\
    c_jwt c = Some j' /\ ttl <= jwt_ttl j' /\
    signed_access E j' (tk_Access tok) (cl_Subject claims) "" (ID_String (New target)) (us_TenantID u)
      (cl_AuthTime claims) (cl_ACR claims) [] ttl.
Proof.
  intros Hfw Hgate Hw Hrun H200 target.
  destruct (auth_outcome fw lib E j ks r w) as [(claims & w1 & Hp & Ha)|(_ & [(msg & w1 & Hr & Hs & _)|(why & w1 & Hr)])].
  2: { unfold compose in Hrun. rewrite Hr in Hrun. pose proof (write_fw_status fw (unauthenticated msg) w1 ltac:(by rewrite Hs) (Hfw msg)) as H.
       unfold writeUnauthenticated in Hrun. rewrite Hrun in H. cbn [snd] in H. congruence. }
  2: { unfold compose in Hrun. by rewrite Hr in Hrun. }
  apply presents_facts in Hp as Hfacts. destruct Hfacts as (Hs & _ & tok & Hb & Hn).
  unfold compose in Hrun. rewrite Ha in Hrun.
  destruct (requireTenant_outcome fw TenantFromRoutedContext false false gate (authed r claims) w claims w1 Hgate eq_refl)
    as [(routed & Hres & Hv & (Ht & _ & _) & Hadm)|(_ & Hr)].
  2: { rewrite Hr in Hrun. pose proof (write_fw_status fw (unauthenticated "invalid token") w1 ltac:(by rewrite Hs) (Hfw _)) as H.
       unfold writeUnauthenticated in Hrun. rewrite Hrun in H. cbn [snd] in H. congruence. }
  rewrite Hadm in Hrun. unfold enterTenantFromPath, enterTenant in Hrun.
  change (AccessClaimsFromContext (r_ctx (pin routed (authed r claims)))) with (Some claims) in Hrun.
  change (r_PathValue (pin routed (authed r claims)) "target") with target in Hrun. cbn iota in Hrun.
  apply try_catch_inv in Hrun as [(entered & w2 & He & Hrun)|[(e & w2 & He & Hrun)|(why & _ & [=])]];
    apply call_app_writer in He as Hwr; rewrite Hs, Hw in Hwr.
  2: { repeat case_match; (apply writeJSON_status in Hrun as [Hst _]; [congruence|exact Hwr|done]). }
  apply writeJSON_status in Hrun as [_ Hbody]; [|done|done]. apply call_app_inv in He.
  destruct (proj1 (EnterTenant_correct E c claims (New target) _ _ _ He) entered eq_refl) as (u & j' & ttl & Hm & Hact & Hj & Httl & _ & Hsig).
  exists claims, routed, (web_app (w_store w)), u, j', ttl, entered. split_and!; [by exists tok|done|done|done| |done|done|done|done|done].
  exists (w_trace w1). unfold app_world in Hm. by rewrite <- Hs.
Qed.
End Enter.

(** Bob, whose account is a member of globex too, enters it with a token of
    acme. *)
Module ToyEnter.
Import ToyPooled.
Definition home_token : string :=
  minted_token (run_mint Demo.env Toy.service (MAccess bob_id Demo.acme) 900 ACRLocalPassword ["pwd"] (World tt [])).
Definition request : Request :=
  let r := ToyWeb.bearer home_token in
  MkRequest (r_Method r) (r_Path r) (r_Header r) (r_RemoteAddr r) (r_Host r) (r_TLS r) (r_Cookie r)
    (fun k => if String.eqb k "target" then "globex" else "") (r_PathParams r) (r_Query r) (at_tenant Demo.acme).
Definition start (member : bool) : world (Web MemStore) :=
  let m := web_app (w_store leg_two.2) in
  World (MkWeb (if member then AddMembership bob_id (New "globex") m else m) [] [] fresh_writer) (w_trace leg_two.2).
Definition gate : Middleware MemStore :=
  match requireTenant ToyWeb.fw (Some TenantFromRoutedContext) false false with Ret g => g | _ => fun h => h end.
Abbreviation enters member :=
  (compose (RequireAuth ToyWeb.fw Toy.lib Demo.env Toy.service Toy.keys) gate (enterTenantFromPath Demo.env Demo.core) request (start member)).

Example members_only : status_of (enters true).2 = Some 200 /\ status_of (enters false).2 = Some 404.
Proof. vm_compute. by split. Qed.
Lemma enters_run : enters true = (Ret tt, (enters true).2) /\ status_of (enters true).2 = Some 200.
Proof.
  assert (is_ret (enters true).1 = true) as Hr by (vm_compute; reflexivity). split; [|vm_compute; reflexivity].
  destruct (enters true) as [[[]|e|why] w]; [done|discriminate Hr..].
Qed.
End ToyEnter.

Lemma enter_route_sound_witness : exists claims routed u tok ttl,
  TenantFromContext (r_ctx ToyEnter.request) = Some routed /\ cl_TenantID claims = ID_String routed /\ us_Active u = true /\
  signed_access Demo.env Demo.jwt (tk_Access tok) (cl_Subject claims) "" "globex" (us_TenantID u) (cl_AuthTime claims) (cl_ACR claims) [] ttl.
Proof.
  destruct ToyEnter.enters_run as [Hrun H200].
  assert (requireTenant ToyWeb.fw (Some TenantFromRoutedContext) false false = Ret ToyEnter.gate) as Hgate by reflexivity.
  pose proof (enter_route_sound Demo.env Demo.core ToyWeb.fw Toy.lib Toy.service Toy.keys ToyEnter.gate ToyEnter.request
    (ToyEnter.start true) _ (fun _ => eq_refl) Hgate eq_refl Hrun H200) as H. cbv zeta in H.
  destruct H as (claims & routed & v & u & j' & ttl & tok & _ & Hr & Ht & _ & _ & Ha & _ & [= <-] & _ & Hs).
  exists claims, routed, u, tok, ttl. split_and!; [exact Hr|exact Ht|exact Ha|exact Hs].
Defined.

(** ** The adapters of the single-tenant examples *)

Section SingleTenant.
Context (E : Env) {S : Type} (c : Core S).
Local Abbreviation MS := (M S).

(** The ceremony of the second factor is left to the application. *)
Definition no_ceremony {A} : MS A := fail errNoSessionTOTP.
(** [examples/federation/identity_adapter.go]: the methods of the pooled adapter
    but for the ceremony. *)
Definition coreIdentity : IdentityService S := {|
  svc_Register := pooled_Register E c;
  svc_Login := pooled_Login E c;
  svc_Me := pooled_Me c;
  svc_Refresh := pooled_Refresh E c;
  svc_Logout := Identity.Logout E c;
  svc_IssueTOTPPending _ _ := no_ceremony;
  svc_VerifyTOTPPending _ _ := no_ceremony;
  svc_VerifyTOTP := pooled_VerifyTOTP E c;
  svc_VerifyRecoveryCode := pooled_VerifyRecoveryCode E c;
  svc_IssueTokensForUser := pooled_IssueTokensForUser E c;
  svc_EnrollTOTP := pooled_EnrollTOTP E c;
  svc_DisableTOTP := pooled_DisableTOTP E c;
  svc_EnrollTOTPViaSession _ _ _ := no_ceremony
|}.

(** [examples/quickstart/main.go]: the tenant is checked in the adapter, and the
    core is asked for the single tenant. *)
Definition sessionIn (tenantID : ID) (refreshToken : string) : MS unit :=
  match HashRefreshToken refreshToken with
  | Fail _ => fail (Sentinel identity_ErrInvalidSession)
  | Panic why => lift (Panic why)
  | Ret hash =>
      s ← wrap (fun e => if errors_is e identity_ErrNotFound then Sentinel identity_ErrInvalidSession else e)
        (store_call "RefreshSessionByHash" (RefreshSessionByHash (c_store c) hash));
      if negb (bool_decide (FromStored (se_TenantID s) = tenantID))
      then fail (Sentinel identity_ErrInvalidSession) else mret tt
  end.
Definition quick_Refresh (tenantID : ID) (refreshToken : string) : MS AuthResult :=
  sessionIn tenantID refreshToken;;
  '(u, tok) ← Identity.Refresh E c Single refreshToken;
  mret (MkAuthResult (Some u) tok).
Definition quick_Logout (tenantID : ID) (refreshToken : string) : MS unit :=
  try_catch (sessionIn tenantID refreshToken)
    (fun err => if errors_is err identity_ErrInvalidSession then mret tt else fail err)
    (fun _ => Identity.Logout E c Single refreshToken).
Definition quick_EnrollTOTP (tenantID : ID) (userID : string) : MS TOTPEnrollment :=
  userIn c tenantID userID;;
  e ← StartTOTPEnrollment E c Single userID;
  mret (MkTOTPEnrollment (te_OTPAuthURI e) (te_RecoveryCodes e)).
Definition quickIdentity : IdentityService S := {|
  svc_Register := pooled_Register E c;
  svc_Login := pooled_Login E c;
  svc_Me := pooled_Me c;
  svc_Refresh := quick_Refresh;
  svc_Logout := quick_Logout;
  svc_IssueTOTPPending _ _ := no_ceremony;
  svc_VerifyTOTPPending _ _ := no_ceremony;
  svc_VerifyTOTP t userID code := userIn c t userID;; IdentityTotp.VerifyTOTP E c Single userID code;
  svc_VerifyRecoveryCode t userID code := userIn c t userID;; VerifyRecoveryCode E c Single userID code;
  svc_IssueTokensForUser := pooled_IssueTokensForUser E c;
  svc_EnrollTOTP := quick_EnrollTOTP;
  svc_DisableTOTP t userID code := userIn c t userID;; IdentityTotp.DisableTOTP E c Single userID code;
  svc_EnrollTOTPViaSession _ _ _ := no_ceremony
|}.

(** Over an adapter without the ceremony, a login that answers is a session:
    nobody is told to come back with a code, and no second leg ever answers. *)
Theorem no_second_leg (a : AuthRoutes S) x : rt_svc a = coreIdentity \/ rt_svc a = quickIdentity ->
  (forall req w res w', Login a x req w = (Ret (inr res), w') ->
     ax_TOTPRequired (js_Data res) = false /\ ax_SessionToken (js_Data res) = "") /\
  (forall req w res w', WebAuthRoutes.VerifyTOTP a x req w <> (Ret (inr res), w')).
Proof.
  intros Hsvc.
  assert ((forall t u, svc_IssueTOTPPending (rt_svc a) t u = no_ceremony) /\ (forall t k, svc_VerifyTOTPPending (rt_svc a) t k = no_ceremony))
    as [Hi Hv] by (destruct Hsvc as [-> | ->]; by split).
  split.
  - intros req w res w'. unfold Login, with_routed. destruct (tenant_of a x) as [tid|]; [|by intros [=]].
    intros ([r err] & w1 & _ & H)%calling_answer; [|intros e; yields_tac]. destruct err as [err|].
    + exfalso. revert H. destruct (errors_is err _), (ru_User r) as [u|]; [|by intros [=]..].
      unfold totp_required. rewrite Hi. intros (tok & w2 & [=] & _)%calling_answer. intros e; yields_tac.
    + apply bind_Ret_inv in H as (? & w2 & _ & H). revert H. unfold authRes. destruct (negb _ && _); [by intros [=]|]. by intros [= <- _].
  - intros req w res w'. unfold WebAuthRoutes.VerifyTOTP, with_routed. destruct (tenant_of a x) as [tid|]; [|by intros [=]].
    rewrite Hv. intros (u & w1 & [=] & _)%calling_answer. intros e; yields_tac.
Qed.
End SingleTenant.

Section QuickSessions.
Context (E : Env) (c : Core MemStore) (c_mem : c_store c = Mem_store).

Lemma sessionIn_inv t token w r w' : sessionIn c t token w = (r, w') ->
  w_store w' = w_store w /\
  (r = Ret tt -> exists s, presented (w_store w) token = Some s /\ FromStored (se_TenantID s) = t).
Proof.
  unfold sessionIn, presented. destruct (HashRefreshToken token) as [h|e|why]; [|by intros [= <- <-]..].
  rewrite c_mem. unfold wrap, store_call. cbn [RefreshSessionByHash Mem_store]. unfold Mem_RefreshSessionByHash, mbind, M_bind.
  destruct (hashToID (w_store w) !! h) as [id|]; cbn; [|by intros [= <- <-]].
  destruct (bool_decide _) eqn:Hb; intros [= <- <-]; [|done]. split; [done|]. intros _. eexists. split; [done|].
  by apply bool_decide_eq_true in Hb.
Qed.

(** The quickstart's adapter serves the single tenant and no other: a session of
    another tenant is never refreshed and never logged out, also for the tenant
    it belongs to. *)
Theorem quickstart_is_single t token : t <> Single ->
  (forall w res w', quick_Refresh E c t token w <> (Ret res, w')) /\
  (forall w r w', quick_Logout E c t token w = (r, w') -> w_store w' = w_store w).
Proof.
  intros Ht. split.
  - intros w res w' H. unfold quick_Refresh in H. apply bind_Ret_inv in H as ([] & w1 & Hs & H).
    apply sessionIn_inv in Hs as [Hst Hs]. destruct (Hs eq_refl) as (s & Hp & Hts).
    apply bind_Ret_inv in H as ([u tok] & w2 & H & _). apply bind_Ret_inv in H as ([[s' u'] n] & w3 & H & _).
    apply Refresh_check_Ret in H as (_ & Hp' & Hts' & _); [|done]. rewrite Hst, Hp in Hp'. injection Hp' as <-. congruence.
  - intros w r w' [([] & w1 & Hs & H)|[(e & w1 & Hs & H)|(why & Hs & ->)]]%try_catch_inv; apply sessionIn_inv in Hs as [Hst Hs]; [| |done].
    2: { destruct (errors_is e _); injection H as _ <-; done. }
    destruct (Hs eq_refl) as (s & Hp & Hts). rewrite <- Hst in Hp |- *. clear Hst Hs w. unfold presented in Hp. unfold Identity.Logout in H.
    destruct (_ || _); [by injection H as _ <-|]. destruct (HashRefreshToken token) as [h|e|why]; [|done..].
    destruct (hashToID (w_store w1) !! h) as [id|] eqn:Hid; [|done]. injection Hp as <-.
    unfold sessionInTenant, try_catch, store_call in H. rewrite c_mem in H. cbn [RefreshSessionByHash Mem_store] in H.
    unfold Mem_RefreshSessionByHash in H. rewrite Hid, bool_decide_eq_false_2 in H by congruence. cbn in H. by injection H as _ <-.
Qed.
End QuickSessions.

(** Bob's refresh token at the quickstart's adapter, in his own tenant. *)
Example bob_stays_signed_in :
  let token := default "" (ck_Value <$> head (js_Cookies ToyPooled.session)) in
  (quick_Logout Demo.env Demo.core Demo.acme token (app_world ToyPooled.leg_two.2)).1 = Fail (Sentinel identity_ErrInvalidSession).
Proof. by vm_compute. Qed.
