(* ===== verification/OAuth2Social.v ===== *)
(** * Plain OAuth 2.0 sign-in

    [src/oauth2social]: providers without an ID token, whose userinfo document
    is the assertion. [provider.go] (validation of a configuration), [claims.go]
    (spending the access token and mapping the document onto the claims of the
    OIDC path) and the preset of [discord.go]. golang.org/x/oauth2, net/url,
    the HTTP client and the JSON decoder are parameters. *)

From S2P Require Import Prelude Bytes World Oidc OidcClaims.

#[local] Open Scope string_scope.
#[local] Open Scope list_scope.
#[local] Open Scope Z_scope.

Module Social.

(** ** Configuration (provider.go) *)

Record ClaimMap := MkClaimMap {
  cm_Subject : string;
  cm_Email : string;
  cm_EmailVerified : string;
  cm_Name : string;
  cm_Username : string;
  cm_RequireEmail : bool;
  cm_RejectUnverifiedEmail : bool
}.
Record Config := MkConfig {
  cf_ID : string;
  cf_DisplayName : string;
  cf_ClientID : string;
  cf_ClientSecret : string;
  cf_RedirectURL : string;
  cf_AuthURL : string;
  cf_TokenURL : string;
  cf_UserinfoURL : string;
  cf_Scopes : list string;
  cf_ClaimMap : ClaimMap
}.

(** [oauth2.Endpoint]; [AuthStyleInParams] is 1. *)
Record oauth2_Endpoint := MkEndpoint { en_AuthURL : string; en_TokenURL : string; en_AuthStyle : Z }.
Definition AuthStyleInParams : Z := 1.

Record Provider := MkProvider { p_Config : Config; p_OAuth2 : oauth2_Config oauth2_Endpoint }.

(** net/url: parsing, and the scheme and host of what was parsed. *)
Record URLs (URL : Type) := {
  url_Parse : string -> go URL;
  url_Scheme : URL -> string;
  url_Host : URL -> string
}.
Arguments url_Parse {_} _.
Arguments url_Scheme {_} _.
Arguments url_Host {_} _.

(** [strings.TrimSpace(s) == ""]. *)
Definition blank (s : string) : bool := String.eqb (trim_space s) "".

Section New.
Context {URL : Type} (lib : URLs URL).

Definition requireHTTPSURL (raw : string) : go unit :=
  if blank raw then Fail (Errorf0 "is required")
  else
    u ← wrap_err (Errorf1 "is not a valid url") (url_Parse lib raw);
    if negb (String.eqb (url_Scheme lib u) "https") then Fail (Errorf0 "must be https")
    else if String.eqb (url_Host lib u) "" then Fail (Errorf0 "has no host")
    else Ret tt.

Definition config_error (label : string) : error := Errorf1 label (Sentinel oauth2social_ErrConfig).

(** The loop over the three addresses. *)
Fixpoint require_all (urls : list (string * string)) : go unit :=
  match urls with
  | [] => Ret tt
  | (name, raw) :: urls =>
      match requireHTTPSURL raw with
      | Ret _ => require_all urls
      | Fail _ => Fail (config_error name)
      | Panic why => Panic why
      end
  end.

Definition New (cfg : Config) : go Provider :=
  if blank (cf_ID cfg) then Fail (config_error "id is required")
  else if blank (cf_ClientID cfg) then Fail (config_error "client id is required")
  else if blank (cf_ClientSecret cfg) then Fail (config_error "client secret is required")
  else
    require_all [("auth url", cf_AuthURL cfg); ("token url", cf_TokenURL cfg); ("userinfo url", cf_UserinfoURL cfg)];;
    let cm := cf_ClaimMap cfg in
    if blank (cm_Subject cm) then Fail (config_error "claim map needs a subject field")
    else if cm_RejectUnverifiedEmail cm && blank (cm_EmailVerified cm) then
      Fail (config_error "RejectUnverifiedEmail is set but EmailVerified names no field")
    else Ret (MkProvider cfg
      (MkOAuth2 (cf_ClientID cfg) (cf_ClientSecret cfg)
        (MkEndpoint (cf_AuthURL cfg) (cf_TokenURL cfg) AuthStyleInParams) (cf_RedirectURL cfg) (cf_Scopes cfg))).
End New.

(** ** Discord (discord.go) *)

Definition Discord (clientID clientSecret redirectURL : string) : Config := {|
  cf_ID := "discord"; cf_DisplayName := "Discord"; cf_ClientID := clientID; cf_ClientSecret := clientSecret;
  cf_RedirectURL := redirectURL;
  cf_AuthURL := "https://discord.com/oauth2/authorize";
  cf_TokenURL := "https://discord.com/api/oauth2/token";
  cf_UserinfoURL := "https://discord.com/api/users/@me";
  cf_Scopes := ["identify"; "email"];
  cf_ClaimMap := {|
    cm_Subject := "id"; cm_Email := "email"; cm_EmailVerified := "verified"; cm_Name := "global_name";
    cm_Username := "username"; cm_RequireEmail := true; cm_RejectUnverifiedEmail := true |}
|}.

(** ** The userinfo document (claims.go) *)

(** [strconv.ParseBool]; an error is [None]. *)
Definition ParseBool (s : string) : option bool :=
  if bool_decide (s ∈ ["1"; "t"; "T"; "TRUE"; "true"; "True"]) then Some true
  else if bool_decide (s ∈ ["0"; "f"; "F"; "FALSE"; "false"; "False"]) then Some false
  else None.

(** A missing field is the nil value. *)
Definition boolField (raw : gmap string any) (field : string) : bool :=
  if String.eqb field "" then false
  else match raw !! field with
  | Some (ABool b) => b
  | Some (AString s) => match ParseBool (trim_space s) with Some b => b | None => false end
  | _ => false
  end.

(** The library of the round trip: [Do] is [Client(ctx, token).Do(req)] of a GET
    of the address with the access token, the status and the body; [Decode] the
    decoder with [UseNumber]; [FormatFloat] is [strconv.FormatFloat(f, 'f', -1, 64)]. *)
Record Userinfo (Tok : Type) := {
  AccessToken : Tok -> string;
  NewRequest : string -> go unit;
  Do : oauth2_Config oauth2_Endpoint -> Tok -> trace -> string -> go (Z * bytes);
  Decode : bytes -> go (gmap string any);
  FormatFloat : Z -> Z -> string
}.
Arguments AccessToken {_} _ _.
Arguments NewRequest {_} _ _.
Arguments Do {_} _ _ _ _ _.
Arguments Decode {_} _ _.
Arguments FormatFloat {_} _ _ _.

Definition maxUserinfoBytes : Z := Z.shiftl 1 20.
(** What [io.LimitReader] lets through. *)
Definition limited (n : Z) (b : bytes) : bytes :=
  if Z.of_nat (length b) <=? n then b else take (Z.to_nat n) b.

Section Claims.
Context {Tok : Type} (lib : Userinfo Tok) {S : Type}.

Definition stringField (raw : gmap string any) (field : string) : string :=
  if String.eqb field "" then ""
  else match raw !! field with
  | Some (AString s) => s
  | Some (ANumber text) => text
  | Some (AFloat64 m e) => FormatFloat lib m e
  | Some (ABool b) => if b then "true" else "false"
  | _ => ""
  end.

Definition claimsFromUserinfo (p : Provider) (raw : gmap string any) : go IDClaims :=
  let cm := cf_ClaimMap (p_Config p) in
  let sub := stringField raw (cm_Subject cm) in
  if String.eqb sub "" then Fail (Errorf1 "provider field" (Sentinel oauth2social_ErrNoSubject))
  else
    let email := trim_space (stringField raw (cm_Email cm)) in
    if String.eqb email "" && cm_RequireEmail cm then
      Fail (Errorf1 "provider" (Sentinel oauth2social_ErrEmailRequired))
    else
      let verified := boolField raw (cm_EmailVerified cm) in
      if negb (String.eqb email "") && cm_RejectUnverifiedEmail cm && negb verified then
        Fail (Errorf1 "provider" (Sentinel oauth2social_ErrEmailUnverified))
      else Ret (MkClaims sub email verified (stringField raw (cm_Name cm)) (stringField raw (cm_Username cm)) raw).

Definition userinfo_failed (_ : error) : error := Errorf1 "userinfo" (Sentinel oauth2social_ErrUserinfo).
Definition decodeUserinfo (r : bytes) : go (gmap string any) := wrap_err userinfo_failed (Decode lib r).

Definition FetchIdentity (p : option Provider) (token : option Tok) : M S IDClaims :=
  match p with
  | None => fail (Errorf1 "nil provider" (Sentinel oauth2social_ErrConfig))
  | Some p =>
      match token with
      | None => fail (userinfo_failed (Errorf0 "no access token to present"))
      | Some token =>
          if String.eqb (AccessToken lib token) "" then fail (userinfo_failed (Errorf0 "no access token to present"))
          else
            wrap userinfo_failed (lift (NewRequest lib (cf_UserinfoURL (p_Config p))));;
            res ← wrap userinfo_failed
              (r ← observe (EvHook "userinfo")
                 (fun tr => Do lib (p_OAuth2 p) token tr (cf_UserinfoURL (p_Config p))); lift r);
            if negb (res.1 =? 200) then fail (userinfo_failed (Errorf0 "userinfo returned"))
            else
              raw ← lift (decodeUserinfo (limited maxUserinfoBytes res.2));
              lift (claimsFromUserinfo p raw)
      end
  end.
End Claims.

(** ** What an identity is *)

Section Theorems.
Context {URL Tok : Type} (urls : URLs URL) (lib : Userinfo Tok) {S : Type}.
Implicit Types (p : Provider) (w : world S).

Lemma requireHTTPSURL_Ret raw : requireHTTPSURL urls raw = Ret tt ->
  exists u, url_Parse urls raw = Ret u /\ url_Scheme urls u = "https" /\ url_Host urls u <> "".
Proof.
  unfold requireHTTPSURL. destruct (blank raw); [done|].
  intros (u & Hu%wrap_err_Ret_inv & H)%go_bind_Ret_inv. exists u.
  destruct (String.eqb_spec (url_Scheme urls u) "https"); [|done].
  by destruct (String.eqb_spec (url_Host urls u) "").
Qed.

Lemma require_all_Ret l : require_all urls l = Ret tt -> Forall (fun '(_, raw) => requireHTTPSURL urls raw = Ret tt) l.
Proof.
  induction l as [|[name raw] l IH]; cbn [require_all]; [constructor|].
  destruct (requireHTTPSURL urls raw) as [[]| |] eqn:H; [|done..]. intros Hl. constructor; auto.
Qed.

(** A provider that could be built: it talks to three absolute https addresses
    only, keeps its secret in the body of the exchange, has a field for the
    subject, and one for the verification flag when it rejects addresses
    without it; any other configuration is [ErrConfig]. *)
Theorem New_sound cfg : (forall raw why, url_Parse urls raw <> Panic why) ->
  (forall p, New urls cfg = Ret p ->
     p_Config p = cfg /\
     oa_ClientID (p_OAuth2 p) = cf_ClientID cfg /\ oa_ClientSecret (p_OAuth2 p) = cf_ClientSecret cfg /\
     en_AuthStyle (oa_Endpoint (p_OAuth2 p)) = AuthStyleInParams /\
     Forall (fun raw => exists u, url_Parse urls raw = Ret u /\ url_Scheme urls u = "https" /\ url_Host urls u <> "")
       [en_AuthURL (oa_Endpoint (p_OAuth2 p)); en_TokenURL (oa_Endpoint (p_OAuth2 p)); cf_UserinfoURL cfg] /\
     cm_Subject (cf_ClaimMap cfg) <> "" /\
     (cm_RejectUnverifiedEmail (cf_ClaimMap cfg) = true -> cm_EmailVerified (cf_ClaimMap cfg) <> "")) /\
  ((forall p, New urls cfg <> Ret p) -> fails_with (New urls cfg) oauth2social_ErrConfig = true).
Proof.
  intros Hparse. unfold New.
  assert (forall l why, require_all urls l <> Panic why) as Hnp.
  { induction l as [|[name raw] l IH]; intros why; cbn [require_all]; [done|].
    destruct (requireHTTPSURL urls raw) eqn:Hr; [apply IH|done|]. exfalso. revert Hr. unfold requireHTTPSURL.
    destruct (blank raw); [done|]. pose proof (Hparse raw) as Hraw.
    destruct (url_Parse urls raw); cbn; [|done|by destruct (Hraw why1)]. by repeat case_match. }
  assert (forall l e, require_all urls l = Fail e -> errors_is e oauth2social_ErrConfig = true) as Hfail.
  { induction l as [|[name raw] l IH]; intros e; cbn [require_all]; [done|].
    by destruct (requireHTTPSURL urls raw); [apply IH|intros [= <-]|]. }
  set (l := [_; _; _]). destruct (blank (cf_ID cfg)); [by split|].
  destruct (blank (cf_ClientID cfg)); [by split|]. destruct (blank (cf_ClientSecret cfg)); [by split|].
  pose proof (require_all_Ret l) as Hl. specialize (Hnp l). specialize (Hfail l).
  destruct (require_all urls l) as [[]|e|why]; cbn [mbind go_bind]; [|by split; [|intros _; apply Hfail]|by destruct (Hnp why)].
  specialize (Hl eq_refl). destruct (blank (cm_Subject _)) eqn:Hs; [by split|].
  destruct (cm_RejectUnverifiedEmail _ && blank _) eqn:Hr; [by split|]. split; [|by intros H; destruct (H _ eq_refl)].
  intros p [= <-]. cbn. split_and!; try done.
  - inversion_clear Hl as [|?? H1 Hl2]. inversion_clear Hl2 as [|?? H2 Hl3]. inversion_clear Hl3 as [|?? H3 _].
    repeat constructor; by apply requireHTTPSURL_Ret.
  - intros H. by rewrite H in Hs.
  - intros Hrej H. by rewrite Hrej, H in Hr.
Qed.

(** The identity read off a document, when it is one; else the first of the
    three requirements that is not met. *)
Lemma claimsFromUserinfo_exact p raw :
  let cm := cf_ClaimMap (p_Config p) in
  let sub := stringField lib raw (cm_Subject cm) in
  let email := trim_space (stringField lib raw (cm_Email cm)) in
  let verified := boolField raw (cm_EmailVerified cm) in
  (forall c, claimsFromUserinfo lib p raw = Ret c <->
     sub <> "" /\ (cm_RequireEmail cm = true -> email <> "") /\
     (email <> "" -> cm_RejectUnverifiedEmail cm = true -> verified = true) /\
     c = MkClaims sub email verified (stringField lib raw (cm_Name cm)) (stringField lib raw (cm_Username cm)) raw) /\
  (forall e, claimsFromUserinfo lib p raw = Fail e ->
     (errors_is e oauth2social_ErrNoSubject = true <-> sub = "") /\
     (errors_is e oauth2social_ErrEmailRequired = true <-> sub <> "" /\ email = "" /\ cm_RequireEmail cm = true) /\
     (errors_is e oauth2social_ErrEmailUnverified = true <->
        sub <> "" /\ email <> "" /\ cm_RejectUnverifiedEmail cm = true /\ verified = false)) /\
  (forall why, claimsFromUserinfo lib p raw <> Panic why).
Proof.
  cbn zeta. unfold claimsFromUserinfo. destruct (cf_ClaimMap (p_Config p)) as [fs fe fv fn fu req rej].
  cbn [cm_Subject cm_Email cm_EmailVerified cm_Name cm_Username cm_RequireEmail cm_RejectUnverifiedEmail].
  destruct (String.eqb_spec (stringField lib raw fs) "") as [Hs|Hs]; cbn [andb negb].
  { split_and!; [|intros e [= <-]; cbn [errors_is]; rewrite !bool_decide_eq_true|done]; intuition congruence. }
  destruct (String.eqb_spec (trim_space (stringField lib raw fe)) "") as [He|He];
    destruct req, rej, (boolField raw fv); cbn [andb negb];
    (split_and!; [|intros e H; first [discriminate H|injection H as <-]; cbn [errors_is];
       rewrite !bool_decide_eq_true|done]; intuition congruence).
Qed.

Lemma claimsFromUserinfo_fails p raw e : claimsFromUserinfo lib p raw = Fail e -> existsb (errors_is e)
  [oauth2social_ErrUserinfo; oauth2social_ErrNoSubject; oauth2social_ErrEmailRequired;
   oauth2social_ErrEmailUnverified] = true.
Proof. unfold claimsFromUserinfo. by repeat case_match; try intros [= <-]. Qed.

(** The verification flag is set only by a genuine true. *)
Lemma boolField_true raw field : boolField raw field = true <->
  field <> "" /\ (raw !! field = Some (ABool true) \/
    exists s, raw !! field = Some (AString s) /\ ParseBool (trim_space s) = Some true).
Proof.
  unfold boolField. destruct (String.eqb_spec field "") as [->|Hf]; [by split; [|intros []]|].
  destruct (raw !! field) as [[s| | | | | | |b|]|]; try (split; [done|]; intros (_ & [H|(? & H & _)]); congruence).
  - split; [|intros (_ & [H|(s' & [= <-] & H)]); [done|by rewrite H]].
    intros H. split; [done|right]. exists s. split; [done|]. by destruct (ParseBool _) as [[]|].
  - split; [intros ->; auto|]. intros (_ & [H|(? & H & _)]); congruence.
Qed.

(** What [FetchIdentity] answers came out of one userinfo request with a
    non-empty access token that the endpoint answered 200, read up to the limit.
    It names a subject; it has an address where the provider requires one, and
    where the provider rejects unverified addresses, an address in it has been
    said to be verified. No other error is answered than the package's own, and
    nothing is stored. *)
Theorem FetchIdentity_sound p token w r w' :
  (forall why, NewRequest lib (cf_UserinfoURL (p_Config p)) <> Panic why) ->
  (forall tok tr why, Do lib (p_OAuth2 p) tok tr (cf_UserinfoURL (p_Config p)) <> Panic why) ->
  (forall b why, Decode lib b <> Panic why) ->
  FetchIdentity lib (Some p) token w = (r, w') ->
  let cm := cf_ClaimMap (p_Config p) in
  w_store w' = w_store w /\
  (forall c, r = Ret c -> exists tok body,
     token = Some tok /\ AccessToken lib tok <> "" /\
     (exists tr, Do lib (p_OAuth2 p) tok tr (cf_UserinfoURL (p_Config p)) = Ret (200, body)) /\
     Decode lib (limited maxUserinfoBytes body) = Ret (c_Raw c) /\
     c_Sub c = stringField lib (c_Raw c) (cm_Subject cm) /\ c_Sub c <> "" /\
     (cm_RequireEmail cm = true -> c_Email c <> "") /\
     c_EmailVerified c = boolField (c_Raw c) (cm_EmailVerified cm) /\
     (c_Email c <> "" -> cm_RejectUnverifiedEmail cm = true -> c_EmailVerified c = true)) /\
  (forall e, r = Fail e -> existsb (errors_is e)
     [oauth2social_ErrUserinfo; oauth2social_ErrNoSubject; oauth2social_ErrEmailRequired;
      oauth2social_ErrEmailUnverified] = true) /\
  (forall why, r <> Panic why).
Proof.
  intros Hnr Hdo Hdec H. cbn zeta. unfold FetchIdentity in H.
  destruct token as [tok|]; [|injection H as <- <-; split_and!; [done|done|by intros e [= <-]|done]].
  destruct (String.eqb_spec (AccessToken lib tok) "") as [_|Htok];
    [injection H as <- <-; split_and!; [done|done|by intros e [= <-]|done]|].
  unfold decodeUserinfo in H. run_step H.
  all: try (exfalso; by eapply Hnr, eq_sym); try (exfalso; by eapply Hdo, eq_sym).
  all: try (split_and!; [done|done|by intros ? [= <-]|done]).
  - split_and!; [done| | |apply claimsFromUserinfo_exact].
    + intros c Hc. apply (claimsFromUserinfo_exact p a) in Hc as (Hsub & Hreq & Hver & ->). exists tok, a1.2.
      cbn [c_Sub c_Email c_EmailVerified c_Raw]. split_and!; try done.
      * exists (w_trace w). rewrite <- Hr0. apply negb_false_iff, Z.eqb_eq in Hb. destruct a1 as [st body]. cbn in *. by subst.
      * symmetry in Hr1. by apply wrap_err_Ret_inv in Hr1.
    + apply claimsFromUserinfo_fails.
  - symmetry in Hr1. apply wrap_err_Fail_inv in Hr1 as (e' & _ & ->). split_and!; [done|done|by intros ? [= <-]|done].
  - exfalso. destruct (Decode lib _) eqn:Hd; [done|done|by eapply Hdec].
Qed.
End Theorems.
End Social.

(** ** At concrete inputs *)

Module ToySocial.
Import Social.
Definition urls : URLs string := {| url_Parse := Ret; url_Scheme _ := "https"; url_Host u := u |}.
Definition user (verified : bool) : gmap string any :=
  list_to_map [("id", AString "80351110224678912"); ("email", AString " nelly@discord.com ");
               ("verified", ABool verified); ("username", AString "nelly")].
(** The endpoint answers this body; the decoder knows two documents. *)
Definition lib (body : string) : Userinfo string := {|
  AccessToken t := t; NewRequest _ := Ret tt; Do _ _ _ _ := Ret (200, to_bytes body);
  Decode b := if decide (b = to_bytes "verified") then Ret (user true)
              else if decide (b = to_bytes "unverified") then Ret (user false) else Fail (AppError "json");
  FormatFloat _ _ := ""
|}.
Definition provider : Provider :=
  match New urls (Discord "client" "secret" "https://app/callback") with
  | Ret p => p
  | _ => MkProvider (Discord "" "" "") (MkOAuth2 "" "" (MkEndpoint "" "" 0) "" [])
  end.
Definition fetch (body : string) : go IDClaims * world unit :=
  FetchIdentity (lib body) (Some provider) (Some "token") (World tt []).
Definition nelly : IDClaims :=
  MkClaims "80351110224678912" "nelly@discord.com" true "" "nelly" (user true).
End ToySocial.

Lemma nelly_fetched : ToySocial.fetch "verified" = (Ret ToySocial.nelly, World tt [EvHook "userinfo"]).
Proof. vm_compute. reflexivity. Qed.

Lemma FetchIdentity_sound_witness :
  c_Email ToySocial.nelly <> "" -> c_EmailVerified ToySocial.nelly = true.
Proof.
  assert (ToySocial.fetch "verified" = (Ret ToySocial.nelly, World tt [EvHook "userinfo"])) as Hrun
    by exact nelly_fetched.
  destruct (Social.FetchIdentity_sound (ToySocial.lib "verified") ToySocial.provider (Some "token") (World tt [])
    (Ret ToySocial.nelly) (World tt [EvHook "userinfo"]) ltac:(discriminate) ltac:(discriminate)
    ltac:(intros b why; cbn; repeat case_decide; discriminate) Hrun) as (_ & H & _).
  destruct (H ToySocial.nelly eq_refl) as (_ & _ & _ & _ & _ & _ & _ & _ & _ & _ & Hv).
  intros He. exact (Hv He eq_refl).
Defined.

(** An address Discord has not confirmed is refused. *)
Example unverified_address : match (ToySocial.fetch "unverified").1 with
  | Fail e => errors_is e oauth2social_ErrEmailUnverified | _ => false end = true.
Proof. vm_compute. reflexivity. Qed.

(** A subject of JSON type boolean is taken as text: everyone a provider answers
    [true] for is one account. *)
Example boolean_subject (raw : gmap string any) : raw !! "id" = Some (ABool true) ->
  Social.stringField (ToySocial.lib "") raw "id" = "true".
Proof. unfold Social.stringField. by intros ->. Qed.
