(* ===== verification/WebFlows.v ===== *)
(** * The redirect flows

    [src/espresso/oidcflow.go] and [oauth2flow.go]: starting a sign-in (flow
    randomness, the signed state cookie, the authorize URL) and validating the
    callback (the state cookie against the provider and the [state] parameter,
    the code exchange, the ID token or the userinfo document).
    golang.org/x/oauth2 is the record [OAuth2]. *)

From stdpp Require Import pretty.
From S2P Require Import Prelude Bytes World IdpRegistry Oidc OidcClaims StateCookie OAuth2Social Http.

#[local] Open Scope string_scope.
#[local] Open Scope list_scope.
#[local] Open Scope Z_scope.

Definition ModeLogin : string := "login".
Definition ModeLink : string := "link".

(** The options a call passes, as the calls that made them. *)
Inductive AuthCodeOption :=
  | AccessTypeOnline
  | SetAuthURLParam (key value : string)
  | S256ChallengeOption (verifier : string)
  | VerifierOption (verifier : string).
#[export] Instance AuthCodeOption_eq_dec : EqDecision AuthCodeOption.
Proof. solve_decision. Defined.

(** The token endpoint is asked over the network: its answer may differ from
    one moment to the next. [tok_id_token] is [token.Extra("id_token").(string)]. *)
Record OAuth2 (Endpoints Tok : Type) := {
  AuthCodeURL : oauth2_Config Endpoints -> string -> list AuthCodeOption -> string;
  ExchangeCode : oauth2_Config Endpoints -> trace -> string -> list AuthCodeOption -> go Tok;
  tok_id_token : Tok -> option string
}.
Arguments AuthCodeURL {_ _} _ _ _ _.
Arguments ExchangeCode {_ _} _ _ _ _ _.
Arguments tok_id_token {_ _} _ _.

Record StartOptions := MkStartOptions {
  so_Redirect : string;
  so_MaxAge : Z;
  so_ACRValues : list string;
  so_Mode : string;
  so_UserID : string;
  so_CallingUserID : string
}.

Definition no_registered : RegisteredClaims := MkRegistered "" "" [] None None None "".
Definition start_mode (o : StartOptions) : string := if String.eqb (so_Mode o) "" then ModeLogin else so_Mode o.
Definition start_max_age (o : StartOptions) : Z := if so_MaxAge o <? 0 then 0 else so_MaxAge o.

Section Flows.
Context (E : Env) (jwt : JWT) (GenerateVerifier : trace -> string) (S256Challenge : string -> string) {S : Type}.
Local Abbreviation M := (M S).

(** ** OpenID Connect (oidcflow.go) *)

Section OIDC.
Context {D Endpoints Verifier Token Info Tok : Type}.
Context (lib : IDTokens D Verifier Token Info) (oauth2 : OAuth2 Endpoints Tok).
Local Abbreviation Provider := (Provider D Endpoints Verifier).

Definition start_claims (p : Provider) (flow : Oidc.Flow) (o : StartOptions) : Oidc.StateCookieClaims :=
  Oidc.MkState (Oidc.fl_State flow) (Oidc.fl_Nonce flow) (Oidc.fl_CodeVerifier flow) (pc_ID (p_Config p))
    (so_Redirect o) (start_mode o) (so_UserID o) (start_max_age o) (so_ACRValues o) (so_CallingUserID o)
    "" no_registered.

Definition start_params (flow : Oidc.Flow) (o : StartOptions) : list AuthCodeOption :=
  [AccessTypeOnline; SetAuthURLParam "nonce" (Oidc.fl_Nonce flow); S256ChallengeOption (Oidc.fl_CodeVerifier flow)] ++
  (if 0 <? start_max_age o then [SetAuthURLParam "max_age" (pretty (start_max_age o))] else []) ++
  (if bool_decide (so_ACRValues o = []) then [] else [SetAuthURLParam "acr_values" (String.concat " " (so_ACRValues o))]) ++
  (if (0 <? start_max_age o) || negb (bool_decide (so_ACRValues o = [])) then [SetAuthURLParam "prompt" "login"] else []).

Definition StartOIDCFlow (p : option Provider) (secret : bytes) (issuer : string) (now : time)
    (cookie : StateCookieConfig) (o : StartOptions) : M (string * Cookie) :=
  match p with
  | None => fail (Errorf0 "nil provider")
  | Some p =>
      flow ← wrap (Errorf1 "flow randomness") (Oidc.NewFlow E GenerateVerifier S256Challenge);
      value ← wrap (Errorf1 "sign state")
        (lift (Oidc.SignOIDCStateWithSecret jwt secret (start_claims p flow o) issuer now Oidc.StateTTL));
      mret (AuthCodeURL oauth2 (p_OAuth2 p) (Oidc.fl_State flow) (start_params flow o),
            StateCookie_Set cookie value)
  end.

Record OIDCVerified := MkVerified {
  vf_ProviderID : string;
  vf_Claims : IDClaims;
  vf_State : Oidc.StateCookieClaims
}.

(** [now] is called while the cookie is parsed. *)
Definition read_state (sentinel : sentinel) (providerID state cookieVal : string) (secret : bytes)
    (issuer : string) (now : trace -> time) : M Oidc.StateCookieClaims :=
  t ← observe EvNow now;
  claims ← wrap (fun _ => Errorf1 "verify" (Sentinel sentinel))
    (lift (Oidc.VerifyOIDCStateWithSecret jwt secret cookieVal issuer t));
  if negb (String.eqb (Oidc.ProviderID claims) providerID) then
    fail (Errorf1 "provider mismatch" (Sentinel sentinel))
  else if negb (String.eqb (Oidc.State claims) state) then
    fail (Errorf1 "state mismatch" (Sentinel sentinel))
  else mret claims.

Definition VerifyOIDCCallback (p : option Provider) (code state cookieVal : string) (secret : bytes)
    (issuer : string) (now : trace -> time) : M OIDCVerified :=
  match p with
  | None => fail (Errorf0 "nil provider")
  | Some p =>
      claims ← read_state espresso_ErrOIDCState (pc_ID (p_Config p)) state cookieVal secret issuer now;
      token ← wrap (fun _ => Errorf1 "exchange" (Sentinel espresso_ErrOIDCExchange))
        (r ← observe (EvHook "exchange") (fun tr =>
           ExchangeCode oauth2 (p_OAuth2 p) tr code [VerifierOption (Oidc.CodeVerifier claims)]); lift r);
      match tok_id_token oauth2 token with
      | None => fail (Sentinel espresso_ErrOIDCNoIDToken)
      | Some rawIDToken =>
          if String.eqb rawIDToken "" then fail (Sentinel espresso_ErrOIDCNoIDToken)
          else
            verified ← VerifyIDToken lib (Some p) rawIDToken (Oidc.Nonce claims);
            mret (MkVerified (pc_ID (p_Config p)) verified claims)
      end
  end.
End OIDC.

(** ** Plain OAuth 2.0 (oauth2flow.go) *)

Section Social.
Context {Tok : Type} (userinfo : Social.Userinfo Tok) (oauth2 : OAuth2 Social.oauth2_Endpoint Tok).

Definition social_claims (p : Social.Provider) (flow : Oidc.Flow) (o : StartOptions) : Oidc.StateCookieClaims :=
  Oidc.MkState (Oidc.fl_State flow) "" (Oidc.fl_CodeVerifier flow) (Social.cf_ID (Social.p_Config p))
    (so_Redirect o) (start_mode o) (so_UserID o) 0 [] (so_CallingUserID o) "" no_registered.

Definition StartOAuth2Flow (p : option Social.Provider) (secret : bytes) (issuer : string) (now : time)
    (cookie : StateCookieConfig) (o : StartOptions) : M (string * Cookie) :=
  match p with
  | None => fail (Errorf0 "nil provider")
  | Some p =>
      flow ← wrap (Errorf1 "flow randomness") (Oidc.NewFlow E GenerateVerifier S256Challenge);
      signed ← wrap (Errorf1 "sign state")
        (lift (Oidc.SignOIDCStateWithSecret jwt secret (social_claims p flow o) issuer now (sc_TTL cookie)));
      mret (AuthCodeURL oauth2 (Social.p_OAuth2 p) (Oidc.fl_State flow)
              [S256ChallengeOption (Oidc.fl_CodeVerifier flow)],
            StateCookie_Set cookie signed)
  end.

(** [OAuth2Verified] has the fields of [OIDCVerified]. *)
Definition OAuth2Verified : Type := OIDCVerified.

Definition VerifyOAuth2Callback (p : option Social.Provider) (code state cookieVal : string) (secret : bytes)
    (issuer : string) (now : trace -> time) : M OAuth2Verified :=
  match p with
  | None => fail (Errorf0 "nil provider")
  | Some p =>
      let id := Social.cf_ID (Social.p_Config p) in
      claims ← read_state espresso_ErrOAuth2State id state cookieVal secret issuer now;
      token ← wrap (fun _ => Errorf1 "exchange" (Sentinel espresso_ErrOAuth2Exchange))
        (r ← observe (EvHook "exchange") (fun tr =>
           ExchangeCode oauth2 (Social.p_OAuth2 p) tr code [VerifierOption (Oidc.CodeVerifier claims)]); lift r);
      identity ← Social.FetchIdentity userinfo (Some p) (Some token);
      mret (MkVerified id identity claims)
  end.
End Social.
End Flows.

(** ** What a callback that is accepted establishes *)

Section Facts.
Context (E : Env) (jwt : JWT) (GenerateVerifier : trace -> string) (S256Challenge : string -> string) {S : Type}.
Implicit Type w : world S.

Lemma asked_inv {A} (f : error -> error) ev (g : trace -> go A) w r w' :
  wrap f (r ← observe ev g; lift r) w = (r, w') ->
  w' = World (w_store w) (w_trace w ++ [ev]) /\ r = wrap_err f (g (w_trace w)).
Proof. by intros (r1 & [= <- <-] & ->)%wrap_inv. Qed.

(** The state cookie: everything but one error, at the cost of reading the
    clock. *)
Lemma read_state_inv sent id state cookieVal secret issuer now w r w' :
  read_state jwt sent id state cookieVal secret issuer now w = (r, w') ->
  w' = World (w_store w) (w_trace w ++ [EvNow]) /\
  (forall c, r = Ret c -> Oidc.VerifyOIDCStateWithSecret jwt secret cookieVal issuer (now (w_trace w)) = Ret c /\
     Oidc.ProviderID c = id /\ Oidc.State c = state) /\
  (forall e, r = Fail e -> errors_is e sent = true) /\
  (JWTLaws jwt -> forall why, r <> Panic why).
Proof.
  assert (bool_decide (sent = sent) = true) as Hs by by apply bool_decide_eq_true.
  unfold read_state. intros H. run_step H; (split; [done|]).
  all: try (split_and!; [done|by intros ? [= <-]|done]).
  - split_and!; [|done..]. intros c [= <-]. apply negb_false_iff, String.eqb_eq in Hb, Hb0. by split_and!.
  - split_and!; [done|done|]. intros HL reason _. symmetry in Hr. revert Hr.
    unfold Oidc.VerifyOIDCStateWithSecret, verify_state. destruct secret as [|k secret]; [done|].
    destruct (ParseWithClaims jwt _ _ _ _) eqn:Hp; cbn; try (by repeat case_match). intros _.
    revert Hp. apply parse_no_panic. by intros [] ?.
Qed.

Section OIDC.
Context {D Endpoints Verifier Token Info Tok : Type}.
Context (lib : IDTokens D Verifier Token Info) (oauth2 : OAuth2 Endpoints Tok).
Local Abbreviation Provider := (Provider D Endpoints Verifier).
Implicit Type p : Provider.
Local Abbreviation callback := (VerifyOIDCCallback jwt lib oauth2).

(** [c] was verified from [cookieVal], at the clock's reading after [tr], for
    this provider and this [state]; its verifier then bought a token at the
    provider, and the ID token in it verified next and carries its nonce. *)
Record verified_by p (code state cookieVal : string) (secret : bytes) (issuer : string)
    (now : trace -> time) (tr : trace) (v : OIDCVerified) : Prop := {
  vb_cookie : Oidc.VerifyOIDCStateWithSecret jwt secret cookieVal issuer (now tr) = Ret (vf_State v);
  vb_provider : Oidc.ProviderID (vf_State v) = pc_ID (p_Config p) /\ vf_ProviderID v = pc_ID (p_Config p);
  vb_state : Oidc.State (vf_State v) = state;
  vb_token : exists tok raw idtok, ExchangeCode oauth2 (p_OAuth2 p) (tr ++ [EvNow]) code
      [VerifierOption (Oidc.CodeVerifier (vf_State v))] = Ret tok /\
    tok_id_token oauth2 tok = Some raw /\
    Verify lib (p_Verifier p) (tr ++ [EvNow; EvHook "exchange"]) raw = Ret idtok /\
    (Oidc.Nonce (vf_State v) <> "" -> tok_Nonce lib idtok = Oidc.Nonce (vf_State v)) /\
    raw_claims lib idtok = Ret (c_Raw (vf_Claims v)) /\ c_Sub (vf_Claims v) <> ""
}.

Lemma VerifyOIDCCallback_inv p code state cookieVal secret issuer now w r w' :
  callback (Some p) code state cookieVal secret issuer now w = (r, w') ->
  w_store w' = w_store w /\
  (forall v, r = Ret v -> verified_by p code state cookieVal secret issuer now (w_trace w) v) /\
  (forall e, r = Fail e -> existsb (errors_is e) [espresso_ErrOIDCState; espresso_ErrOIDCExchange;
     espresso_ErrOIDCNoIDToken; oidc_ErrNonceMismatch; oidc_ErrIDTokenInvalid] = true) /\
  (forall e, r = Fail e -> errors_is e espresso_ErrOIDCState = true -> w_trace w' = w_trace w ++ [EvNow]).
Proof.
  unfold VerifyOIDCCallback. intros H. apply bind_inv in H as [(c & w1 & Hst & H)|[(e & Hst & ->)|(why & Hst & ->)]].
  all: apply read_state_inv in Hst as (Hw & Hc & He & _).
  2: { subst w'. split_and!; try done. intros ? [= <-]. cbn. by rewrite (He _ eq_refl). }
  2: { subst w'. by split_and!. }
  destruct (Hc c eq_refl) as (Hcookie & Hp & Hs). subst w1. clear Hc He.
  apply bind_inv in H as [(tok & w2 & Ht & H)|[(e & Ht & ->)|(why & Ht & ->)]];
    apply asked_inv in Ht as [-> Ht]; symmetry in Ht.
  2: { apply wrap_err_Fail_inv in Ht as (e' & _ & ->). split_and!; [done|done|by intros ? [= <-]|by intros ? [= <-]]. }
  2: { by split_and!. }
  apply wrap_err_Ret_inv in Ht. destruct (tok_id_token oauth2 tok) as [raw|] eqn:Hraw;
    [|injection H as <- <-; split_and!; [done|done|by intros ? [= <-]|by intros ? [= <-]]].
  destruct (String.eqb raw ""); [injection H as <- <-; split_and!; [done|done|by intros ? [= <-]|by intros ? [= <-]]|].
  apply bind_inv in H as [(cl & w3 & Hv & H)|[(e & Hv & ->)|(why & Hv & ->)]].
  - pose proof (VerifyIDToken_sound lib p raw (Oidc.Nonce c) _ _ _ Hv) as (Hstore & Hok & _).
    injection H as <- <-. split_and!; [done| |done|done]. intros v [= <-].
    destruct (Hok cl eq_refl) as (idtok & typed & Hver & Hn & _ & Hrc & _ & Hsub). split; cbn; [done..|].
    exists tok, raw, idtok. cbn in Hver. rewrite <- app_assoc in Hver. by split_and!.
  - destruct (VerifyIDToken_sound lib p raw (Oidc.Nonce c) _ _ _ Hv) as (Hstore & _).
    apply VerifyIDToken_fails in Hv as (l & s & -> & Hsent). split_and!; [done|done|intros e [= <-]..].
    + by set_unfold; destruct Hsent as [->|[->|[]]].
    + by set_unfold; destruct Hsent as [->|[->|[]]].
  - destruct (VerifyIDToken_sound lib p raw (Oidc.Nonce c) _ _ _ Hv) as (Hstore & _). by split_and!.
Qed.

(** What a started flow is: the authorize URL carries the flow's state, nonce
    and challenge, and the cookie the signed rest. *)
Lemma StartOIDCFlow_inv p secret issuer t0 cookie o w url ck w' :
  StartOIDCFlow E jwt GenerateVerifier S256Challenge oauth2 (Some p) secret issuer t0 cookie o w = (Ret (url, ck), w') ->
  exists flow value, w_store w' = w_store w /\
    url = AuthCodeURL oauth2 (p_OAuth2 p) (Oidc.fl_State flow) (start_params flow o) /\
    ck = StateCookie_Set cookie value /\
    Oidc.SignOIDCStateWithSecret jwt secret (start_claims p flow o) issuer t0 Oidc.StateTTL = Ret value.
Proof.
  unfold StartOIDCFlow. intros (flow & w1 & Hf%wrap_Ret_inv & H)%bind_Ret_inv.
  apply bind_Ret_inv in H as (value & w2 & Hv%wrap_Ret_inv & H). apply lift_inv in Hv as [Hv ->].
  injection H as <- <- <-. exists flow, value. split_and!; try done.
  unfold Oidc.NewFlow in Hf. unfold Oidc.randomB64 in Hf. unfold rand_read in Hf. by run_step Hf.
Qed.

(** The cookie of a started flow is read back until it expires. *)
Lemma read_state_back {HL : JWTLaws jwt} sent secret (claims : Oidc.StateCookieClaims) issuer t0 value now w :
  Oidc.SignOIDCStateWithSecret jwt secret claims issuer t0 Oidc.StateTTL = Ret value ->
  rc_NotBefore (Oidc.Registered claims) = None ->
  now (w_trace w) < time_Unix (NewNumericDate jwt (t0 + Oidc.StateTTL)) ->
  read_state jwt sent (Oidc.ProviderID claims) (Oidc.State claims) value secret issuer now w =
    (Ret (stamped jwt Oidc.codec claims issuer t0 Oidc.StateTTL), World (w_store w) (w_trace w ++ [EvNow])).
Proof.
  intros Hsign Hnb Ht. unfold read_state, observe, wrap, lift, mbind, M_bind. cbn beta iota.
  unfold Oidc.VerifyOIDCStateWithSecret.
  rewrite (state_cookie_roundtrip jwt Oidc.codec secret claims issuer t0 Oidc.StateTTL value _ Hsign Hnb Ht).
  cbn. by rewrite !String.eqb_refl.
Qed.

(** A started flow completes: the provider answers a code and the ID token
    carries the flow's nonce. *)
Lemma VerifyOIDCCallback_completes {HL : JWTLaws jwt} p p2 flow o secret issuer t0 value now code w tok raw claims w' :
  Oidc.SignOIDCStateWithSecret jwt secret (start_claims p flow o) issuer t0 Oidc.StateTTL = Ret value ->
  pc_ID (p_Config p2) = pc_ID (p_Config p) ->
  now (w_trace w) < time_Unix (NewNumericDate jwt (t0 + Oidc.StateTTL)) ->
  ExchangeCode oauth2 (p_OAuth2 p2) (w_trace w ++ [EvNow]) code [VerifierOption (Oidc.fl_CodeVerifier flow)] = Ret tok ->
  tok_id_token oauth2 tok = Some raw -> raw <> "" ->
  VerifyIDToken lib (Some p2) raw (Oidc.fl_Nonce flow)
    (World (w_store w) ((w_trace w ++ [EvNow]) ++ [EvHook "exchange"])) = (Ret claims, w') ->
  callback (Some p2) code (Oidc.fl_State flow) value secret issuer now w =
    (Ret (MkVerified (pc_ID (p_Config p2)) claims
       (stamped jwt Oidc.codec (start_claims p flow o) issuer t0 Oidc.StateTTL)), w').
Proof.
  intros Hsign Hid Ht Hx Hraw Hne Hv. unfold VerifyOIDCCallback. rewrite Hid. unfold mbind at 1, M_bind at 1.
  pose proof (read_state_back espresso_ErrOIDCState secret (start_claims p flow o) issuer t0 value now w Hsign eq_refl Ht)
    as Hst. cbn [Oidc.ProviderID Oidc.State start_claims] in Hst. rewrite Hst.
  cbn beta iota. unfold observe, wrap, lift, mbind, M_bind. cbn beta iota delta [w_store w_trace].
  cbn [stamped Oidc.codec cd_stamp Oidc.stamp Oidc.CodeVerifier Oidc.Nonce start_claims].
  rewrite Hx. cbn [wrap_err]. rewrite Hraw. rewrite (proj2 (String.eqb_neq _ _) Hne). by rewrite Hv.
Qed.
End OIDC.

(** ** Social sign-in *)

Section Social.
Context {Tok : Type} (userinfo : Social.Userinfo Tok) (oauth2 : OAuth2 Social.oauth2_Endpoint Tok).

(** What a social callback that is accepted establishes: the browser holds the
    cookie of the flow that issued this [state] at this provider, the code was
    exchanged with that flow's verifier, and the identity was read with the
    token it bought. A callback without such a cookie reaches no provider. *)
Theorem VerifyOAuth2Callback_sound p code state cookieVal secret issuer now w r w' :
  VerifyOAuth2Callback jwt userinfo oauth2 (Some p) code state cookieVal secret issuer now w = (r, w') ->
  (forall v, r = Ret v ->
     Oidc.VerifyOIDCStateWithSecret jwt secret cookieVal issuer (now (w_trace w)) = Ret (vf_State v) /\
     Oidc.ProviderID (vf_State v) = Social.cf_ID (Social.p_Config p) /\ Oidc.State (vf_State v) = state /\
     exists tok w1, ExchangeCode oauth2 (Social.p_OAuth2 p) (w_trace w ++ [EvNow]) code
         [VerifierOption (Oidc.CodeVerifier (vf_State v))] = Ret tok /\
       Social.FetchIdentity userinfo (Some p) (Some tok) w1 = (Ret (vf_Claims v), w')) /\
  (forall e, r = Fail e -> errors_is e espresso_ErrOAuth2State = true ->
     (forall w1 tok w2, Social.FetchIdentity userinfo (Some p) (Some tok) w1 <> (Fail e, w2)) ->
     w' = World (w_store w) (w_trace w ++ [EvNow])).
Proof.
  unfold VerifyOAuth2Callback. intros H. apply bind_inv in H as [(c & w1 & Hst & H)|[(e & Hst & ->)|(why & Hst & ->)]].
  all: apply read_state_inv in Hst as (Hw & Hc & He & _).
  2: by split. 2: by split.
  destruct (Hc c eq_refl) as (Hcookie & Hp & Hs). clear Hc He.
  apply bind_inv in H as [(tok & w2 & Ht & H)|[(e & Ht & ->)|(why & Ht & ->)]];
    apply asked_inv in Ht as [-> Ht]; symmetry in Ht.
  2: { apply wrap_err_Fail_inv in Ht as (e' & _ & ->). by split; [|intros ? [= <-]]. }
  2: by split.
  apply wrap_err_Ret_inv in Ht. apply bind_inv in H as [(cl & w3 & Hf & H)|[(e & Hf & ->)|(why & Hf & ->)]].
  - injection H as <- <-. split; [|done]. intros v [= <-]. cbn. rewrite Hw in Ht. split_and!; [done..|]. by eexists _, _.
  - split; [done|]. intros ? [= <-] _ Hn. by destruct (Hn _ _ _ Hf).
  - by split.
Qed.
End Social.
End Facts.
