(* ===== verification/WebFederation.v ===== *)
(** * The OIDC federation routes

    [src/espresso/federation.go]: start, link-start, callback and exchange over
    the flows of [WebFlows], the application's post-verify policy behind one
    hook. What the theorems show: an exchange that answers went through every
    check of the flow it belongs to, a link never hands out a session, and a
    flow that was started completes as it was started. *)

From S2P Require Import Prelude Tenant Bytes World Secrets Identity IdpRegistry Oidc OidcClaims StateCookie Http WebWire WebFlows.

#[local] Open Scope string_scope.
#[local] Open Scope list_scope.
#[local] Open Scope Z_scope.

(** ** What the two federation surfaces share *)

(** [LinkStartRes] (wire.go). *)
Record LinkStartRes := MkLinkStartRes { ls_AuthURL : string }.

Definition denyAllRedirect (_ : string) : string := "/".
Definition default_caller (x : Context) : string := default "" (GetUserID x).

(** The wiring checks on the state cookie. *)
Definition check_state_cookie (c : StateCookieConfig) (secret : bytes) (issuer : string) : option string :=
  if String.eqb (sc_BaseName c) "" then Some "state cookie base name is required"
  else if sc_Secure c && negb (String.eqb (sc_Path c) "/") then Some "a Secure state cookie requires Path=/"
  else if sc_SameSite c =? 0 then Some "StateCookie.SameSite must be set explicitly"
  else if (sc_SameSite c =? SameSiteNoneMode) && negb (sc_Secure c) then Some "SameSite=None requires Secure"
  else if bool_decide (secret = []) then Some "state cookie signing secret is required"
  else if String.eqb issuer "" then Some "state cookie issuer is required"
  else None.

(** [strings.Fields]: each turn drops at least a byte, so the length is fuel
    enough. *)
Definition flush (acc : string) : list string := if String.eqb acc "" then [] else [acc].
Fixpoint fields_from (fuel : nat) (acc s : string) : list string :=
  match fuel with
  | O => flush acc
  | S fuel =>
      match List.find (has_prefix s) space_runes with
      | Some p => flush acc ++ fields_from fuel "" (string_drop (String.length p) s)
      | None =>
          match s with
          | EmptyString => flush acc
          | String c s => fields_from fuel (acc +:+ String c "") s
          end
      end
  end.
Definition Fields (s : string) : list string := fields_from (String.length s) "" s.

Definition SplitACRValues (raw : string) : list string :=
  let raw := trim_space raw in
  if String.eqb raw "" then [] else Fields (ReplaceAll raw "," " ").

(** The refresh cookie at the mount as it was configured. *)
Definition mount_cookies (cfg : CookieConfig) (mount : string) (tokens : Tokens) : list Cookie :=
  if String.eqb (tk_Refresh tokens) "" then []
  else [refresh_cookie cfg (tk_Refresh tokens) mount (cc_MaxAgeSeconds cfg)].

(** ** The landing fragment *)

Definition fragment_char (c : ascii) : bool := negb (existsb (Ascii.eqb c) (to_bytes "#&%")).
Definition FragmentValue (s : string) : string :=
  if negb (contains_any s "#&%") then s
  else String.string_of_list_ascii (List.filter fragment_char (to_bytes s)).
Definition idpErrorFragment (errVal providerID : string) : string :=
  "#error=" +:+ FragmentValue errVal +:+ "&provider=" +:+ FragmentValue providerID.
Definition BuildLandingFragment (code state providerID : string) : string :=
  "#code=" +:+ FragmentValue code +:+ "&state=" +:+ FragmentValue state +:+
  "&provider=" +:+ FragmentValue providerID.

(** ** The surface *)

Record FederationOutcome := MkOutcome {
  fo_Tokens : Tokens;
  fo_User : jv;
  fo_Redirect : string;
  fo_Linked : bool
}.
Definition oidcStateCookieSlotName : string := "tamper_oidc_state".

Record FederationConfig := {
  fc_LandingPath : string;
  fc_StateCookie : StateCookieConfig;
  fc_StateSecret : bytes;
  fc_StateIssuer : string;
  fc_Cookies : CookieConfig;
  fc_MountPrefix : string;
  fc_Now : option (trace -> time)
}.

Record StartParams := MkStartParams { sp_Redirect : string; sp_MaxAge : Z; sp_ACRValues : string }.
Record CallbackParams := MkCallbackParams { cb_Code : string; cb_State : string; cb_Error : string }.

Section Federation.
Context {D Endpoints Verifier Token Info Tok S : Type}.
Context (E : Env) (jwt : JWT) (GenerateVerifier : trace -> string) (S256Challenge : string -> string).
Context (lib : IDTokens D Verifier Token Info) (oauth2 : OAuth2 Endpoints Tok).
Local Abbreviation Provider := (Provider D Endpoints Verifier).
Local Abbreviation Registry := (ProviderRegistry Provider).
Local Abbreviation reply A := (M (Web S) (http_error + A)).
Implicit Types (x : Context) (p : Provider).

(** The errors of the hooks may be the framework's. *)
Record FederationHooks := {
  fh_Registry : option (Context -> ID -> reply (option Registry));
  fh_OnFederatedExchange : option (Context -> Provider -> OIDCVerified -> reply FederationOutcome);
  fh_SanitizeRedirect : option (string -> string);
  fh_OnStepUpInitiated : option (Context -> string -> Z -> list string -> M (Web S) unit);
  fh_CallingUserID : option (Context -> string)
}.

Record FederationRoutes := {
  fr_cfg : FederationConfig;
  fr_Now : trace -> time;
  fr_Registry : Context -> ID -> reply (option Registry);
  fr_OnFederatedExchange : Context -> Provider -> OIDCVerified -> reply FederationOutcome;
  fr_SanitizeRedirect : string -> string;
  fr_OnStepUpInitiated : option (Context -> string -> Z -> list string -> M (Web S) unit);
  fr_CallingUserID : Context -> string
}.

Definition NewFederationRoutes (cfg : FederationConfig) (hooks : FederationHooks) : go FederationRoutes :=
  match fh_Registry hooks, fh_OnFederatedExchange hooks with
  | None, _ => Fail (Errorf0 "federation routes require a Registry hook")
  | _, None => Fail (Errorf0 "federation routes require an OnFederatedExchange hook")
  | Some registry, Some exchange =>
      if negb (has_prefix (fc_LandingPath cfg) "/") then Fail (Errorf0 "LandingPath")
      else if negb (valid_mount (fc_MountPrefix cfg)) then Fail (Errorf0 "MountPrefix")
      else match check_state_cookie (fc_StateCookie cfg) (fc_StateSecret cfg) (fc_StateIssuer cfg) with
      | Some why => Fail (Errorf0 why)
      | None =>
          if String.eqb (cc_Name (fc_Cookies cfg)) "" then Fail (Errorf0 "refresh cookie name is required")
          else Ret {|
            fr_cfg := cfg;
            fr_Now := default (env_now E) (fc_Now cfg);
            fr_Registry := registry;
            fr_OnFederatedExchange := exchange;
            fr_SanitizeRedirect := default denyAllRedirect (fh_SanitizeRedirect hooks);
            fr_OnStepUpInitiated := fh_OnStepUpInitiated hooks;
            fr_CallingUserID := default default_caller (fh_CallingUserID hooks)
          |}
      end
  end.

Section Routes.
Context (f : FederationRoutes).

Definition ReadStateCookie : Middleware S :=
  ReadNamedCookie oidcStateCookieSlotName (StateCookie_Name (fc_StateCookie (fr_cfg f))).
Definition StateCookieName : string := StateCookie_Name (fc_StateCookie (fr_cfg f)).

Definition provider x (id : string) : reply Provider :=
  match TenantFromContext x with
  | None => refuse (coded ErrNotFound "provider not found" "OIDC_PROVIDER_NOT_FOUND")
  | Some tid =>
      registry ⇐ fr_Registry f x tid;
      match registry with
      | None => refuse (coded ErrNotFound "oidc is not configured" "OIDC_NOT_CONFIGURED")
      | Some _ =>
          match oidc_Get registry id with
          | Ret p => answer p
          | Fail _ => refuse (coded ErrNotFound "unknown oidc provider" "UNKNOWN_OIDC_PROVIDER")
          | Panic why => lift (Panic why)
          end
      end
  end.

(** The flow of a start leg on this surface. *)
Definition start_flow p (o : StartOptions) : M (Web S) (string * Cookie) :=
  t ← observe EvNow (fr_Now f);
  StartOIDCFlow E jwt GenerateVerifier S256Challenge oauth2 (Some p) (fc_StateSecret (fr_cfg f))
    (fc_StateIssuer (fr_cfg f)) t (fc_StateCookie (fr_cfg f)) o.
Definition start_failed (err : error) : fw_error := FwError ErrInternal "oidc start" None (Some err).

(** The options of [Start]. *)
Definition login_options x (p : StartParams) : StartOptions :=
  MkStartOptions (fr_SanitizeRedirect f (sp_Redirect p)) (if sp_MaxAge p <? 0 then 0 else sp_MaxAge p)
    (SplitACRValues (sp_ACRValues p)) ModeLogin "" (fr_CallingUserID f x).

Definition Start x (providerID : string) (p : StartParams) : reply Redirect :=
  prov ⇐ provider x providerID;
  let o := login_options x p in
  let isStepUp := (0 <? so_MaxAge o) || negb (bool_decide (so_ACRValues o = [])) in
  try_catch (start_flow prov o) (fun err => refuse (start_failed err))
    (fun '(authURL, cookie) =>
       match isStepUp, fr_OnStepUpInitiated f with
       | true, Some hook => hook x (so_CallingUserID o) (so_MaxAge o) (so_ACRValues o)
       | _, _ => mret tt
       end;;
       answer (MkRedirect authURL [Some cookie])).

Definition LinkStart x (providerID userID : string) : reply (JSON LinkStartRes) :=
  prov ⇐ provider x providerID;
  try_catch (start_flow prov (MkStartOptions "" 0 [] ModeLink userID "")) (fun err => refuse (start_failed err))
    (fun '(authURL, cookie) => answer (MkJSON 200 (MkLinkStartRes authURL) [cookie])).

Definition Callback x (providerID : string) (p : CallbackParams) : reply Redirect :=
  _ ⇐ provider x providerID;
  let landing := fc_LandingPath (fr_cfg f) in
  if negb (String.eqb (cb_Error p) "") then
    answer (MkRedirect (landing +:+ idpErrorFragment (cb_Error p) providerID) [])
  else if String.eqb (cb_Code p) "" || String.eqb (cb_State p) "" then
    answer (MkRedirect (landing +:+ idpErrorFragment "missing_params" providerID) [])
  else answer (MkRedirect (landing +:+ BuildLandingFragment (cb_Code p) (cb_State p) providerID) []).

(** An empty mode reads as login. *)
Definition set_Mode (m : string) (c : Oidc.StateCookieClaims) : Oidc.StateCookieClaims :=
  Oidc.MkState (Oidc.State c) (Oidc.Nonce c) (Oidc.CodeVerifier c) (Oidc.ProviderID c) (Oidc.RedirectAfterLogin c) m
    (Oidc.UserID c) (Oidc.RequestedMaxAgeSeconds c) (Oidc.RequestedACRValues c) (Oidc.CallingUserID c)
    (Oidc.Purpose c) (Oidc.Registered c).
Definition normal_mode (v : OIDCVerified) : OIDCVerified :=
  if String.eqb (Oidc.Mode (vf_State v)) "" then
    MkVerified (vf_ProviderID v) (vf_Claims v) (set_Mode ModeLogin (vf_State v))
  else v.
Definition mode_error (c : Oidc.StateCookieClaims) : option fw_error :=
  if String.eqb (Oidc.Mode c) ModeLink then
    if String.eqb (Oidc.UserID c) "" then Some (coded ErrBadRequest "link cookie missing user id" "INVALID_STATE")
    else None
  else if String.eqb (Oidc.Mode c) ModeLogin then None
  else Some (coded ErrBadRequest "unknown oidc state mode" "INVALID_STATE").

Definition refreshCookies (tokens : Tokens) : list Cookie :=
  mount_cookies (fc_Cookies (fr_cfg f)) (fc_MountPrefix (fr_cfg f)) tokens.

(** From the outcome of the hook on. *)
Definition finish_exchange (out : FederationOutcome) : reply (JSON ExchangeRes) :=
  if fo_Linked out && (negb (String.eqb (tk_Access (fo_Tokens out)) "") || negb (String.eqb (tk_Refresh (fo_Tokens out)) ""))
  then refuse (FwError ErrInternal "link leg minted tokens" None None)
  else
    let cookies := if fo_Linked out then [] else refreshCookies (fo_Tokens out) in
    answer (MkJSON 200
      (MkExchangeRes (if fo_Linked out then "" else tk_Access (fo_Tokens out)) (fo_User out) (fo_Redirect out))
      (cookies ++ [StateCookie_Clear (fc_StateCookie (fr_cfg f))])).

(** From the verified callback on. *)
Definition dispatch x p (v : OIDCVerified) : reply (JSON ExchangeRes) :=
  let v := normal_mode v in
  match mode_error (vf_State v) with
  | Some e => refuse e
  | None => out ⇐ fr_OnFederatedExchange f x p v; finish_exchange out
  end.

Definition Exchange x (req : ExchangeReq) : reply (JSON ExchangeRes) :=
  prov ⇐ provider x (xq_ProviderID req);
  match NamedCookieValue x oidcStateCookieSlotName with
  | None => refuse (coded ErrUnauthorized "oidc state missing" "INVALID_STATE")
  | Some cookieVal =>
      try_catch
        (VerifyOIDCCallback jwt lib oauth2 (Some prov) (xq_Code req) (xq_State req) cookieVal
           (fc_StateSecret (fr_cfg f)) (fc_StateIssuer (fr_cfg f)) (fr_Now f))
        (fun err => refuse (mapFederationVerifyError err))
        (dispatch x prov)
  end.
End Routes.
End Federation.

(** ** What reaches the landing page *)

Lemma FragmentValue_bytes s : Forall (fun c => fragment_char c = true) (to_bytes (FragmentValue s)) /\
  (contains_any s "#&%" = false -> FragmentValue s = s).
Proof.
  unfold FragmentValue, contains_any, fragment_char. fold (to_bytes s). fold (to_bytes "#&%"). split.
  - destruct (existsb _ (to_bytes s)) eqn:H; cbn [negb].
    + unfold to_bytes at 1. rewrite String.list_ascii_of_string_of_list_ascii.
      apply Forall_forall. intros c [_ Hc]%list_elem_of_In%List.filter_In. exact Hc.
    + apply Forall_forall. intros c Hc%list_elem_of_In. apply negb_true_iff, not_true_iff_false. intros Hb.
      apply not_true_iff_false in H. apply H, existsb_exists. eauto.
  - by intros ->.
Qed.

Lemma fragment_no_amp s : Forall (fun c => c <> "&"%char) (to_bytes (FragmentValue s)).
Proof.
  destruct (FragmentValue_bytes s) as [H _]. eapply Forall_impl; [exact H|]. intros c Hc ->. discriminate Hc.
Qed.

(** Whatever the identity provider sends back, the landing page finds exactly
    the parameters this surface names, each once and in this order: no value can
    add one; and a code and state of base64url bytes arrive unchanged. *)
Theorem landing_fragment_exact code state id err :
  (exists rest, BuildLandingFragment code state id = "#" +:+ rest /\
     split_on "&"%char (to_bytes rest) =
       [to_bytes ("code=" +:+ FragmentValue code); to_bytes ("state=" +:+ FragmentValue state);
        to_bytes ("provider=" +:+ FragmentValue id)]) /\
  (exists rest, idpErrorFragment err id = "#" +:+ rest /\
     split_on "&"%char (to_bytes rest) =
       [to_bytes ("error=" +:+ FragmentValue err); to_bytes ("provider=" +:+ FragmentValue id)]) /\
  (forall s, contains_any s "#&%" = false -> FragmentValue s = s).
Proof.
  assert (forall key s, Forall (fun c => c <> "&"%char) (to_bytes key) ->
    Forall (fun c => c <> "&"%char) (to_bytes key ++ to_bytes (FragmentValue s))) as Hpart
    by (intros; apply Forall_app; split; [done|apply fragment_no_amp]).
  assert (forall key : string, forallb (fun c => negb (Ascii.eqb c "&")) (to_bytes key) = true ->
    Forall (fun c => c <> "&"%char) (to_bytes key)) as Hkey.
  { intros key H. apply Forall_forall. intros c Hc ->. rewrite forallb_forall in H.
    by specialize (H _ (proj1 (list_elem_of_In _ _) Hc)). }
  split_and!; [| |intros s; apply FragmentValue_bytes].
  - exists ("code=" +:+ FragmentValue code +:+ "&state=" +:+ FragmentValue state +:+ "&provider=" +:+ FragmentValue id).
    split; [reflexivity|]. rewrite !to_bytes_app. change (to_bytes "&state=") with ("&"%char :: to_bytes "state=").
    change (to_bytes "&provider=") with ("&"%char :: to_bytes "provider="). cbn [app]. rewrite app_assoc.
    rewrite split_on_app by by apply Hpart, Hkey. f_equal. rewrite app_assoc.
    rewrite split_on_app by by apply Hpart, Hkey. f_equal. rewrite split_on_part by by apply Hpart, Hkey. done.
  - exists ("error=" +:+ FragmentValue err +:+ "&provider=" +:+ FragmentValue id). split; [reflexivity|].
    rewrite !to_bytes_app. change (to_bytes "&provider=") with ("&"%char :: to_bytes "provider="). cbn [app].
    rewrite app_assoc. rewrite split_on_app by by apply Hpart, Hkey. f_equal.
    rewrite split_on_part by by apply Hpart, Hkey. done.
Qed.

(** ** The exchange *)

Section Theorems.
Context {D Endpoints Verifier Token Info Tok S : Type}.
Context (E : Env) (jwt : JWT) (GenerateVerifier : trace -> string) (S256Challenge : string -> string).
Context (lib : IDTokens D Verifier Token Info) (oauth2 : OAuth2 Endpoints Tok).
Local Abbreviation Provider := (Provider D Endpoints Verifier).
Implicit Types (f : FederationRoutes (D := D) (Endpoints := Endpoints) (Verifier := Verifier) (S := S))
  (x : Context) (p : Provider) (w : world (Web S)).
Local Abbreviation exchange f := (Exchange jwt lib oauth2 f).

(** The answer of an outcome: a link answers no token and sets no cookie but the
    clearing of the state cookie. *)
Lemma finish_exchange_answer f out w j w' : finish_exchange f out w = (Ret (inr j), w') ->
  w' = w /\ js_StatusCode j = 200 /\ xr_Redirect (js_Data j) = fo_Redirect out /\ xr_User (js_Data j) = fo_User out /\
  (fo_Linked out = true -> xr_Token (js_Data j) = "" /\ js_Cookies j = [StateCookie_Clear (fc_StateCookie (fr_cfg f))] /\
     tk_Access (fo_Tokens out) = "" /\ tk_Refresh (fo_Tokens out) = "") /\
  (fo_Linked out = false -> xr_Token (js_Data j) = tk_Access (fo_Tokens out) /\
     js_Cookies j = mount_cookies (fc_Cookies (fr_cfg f)) (fc_MountPrefix (fr_cfg f)) (fo_Tokens out) ++
       [StateCookie_Clear (fc_StateCookie (fr_cfg f))]).
Proof.
  unfold finish_exchange. destruct (fo_Linked out); cbn [andb].
  - destruct (String.eqb_spec (tk_Access (fo_Tokens out)) ""), (String.eqb_spec (tk_Refresh (fo_Tokens out)) "");
      cbn [negb orb]; try (by intros [=]). intros [= <- <-]. by split_and!.
  - intros [= <- <-]. by split_and!.
Qed.

(** Every outcome of [Exchange] after the provider was found: the application
    was not reached, or the callback was verified and the hook was called on it. *)
Lemma Exchange_reaches f x req w p w1 r w' :
  provider f x (xq_ProviderID req) w = (Ret (inr p), w1) -> exchange f x req w = (r, w') ->
  (w_store w' = w_store w1 /\ forall j, r <> Ret (inr j)) \/
  exists cookieVal v w2 ro,
    NamedCookieValue x oidcStateCookieSlotName = Some cookieVal /\ w_store w2 = w_store w1 /\
    verified_by jwt lib oauth2 p (xq_Code req) (xq_State req) cookieVal
      (fc_StateSecret (fr_cfg f)) (fc_StateIssuer (fr_cfg f)) (fr_Now f) (w_trace w1) v /\
    mode_error (vf_State (normal_mode v)) = None /\
    fr_OnFederatedExchange f x p (normal_mode v) w2 = (ro, w') /\
    (forall j, r = Ret (inr j) -> exists out, ro = Ret (inr out) /\ finish_exchange f out w' = (Ret (inr j), w')).
Proof.
  intros Hp H. unfold Exchange in H. rewrite (reply_bind_answer _ _ _ _ _ Hp) in H.
  destruct (NamedCookieValue x _) as [cookieVal|] eqn:Hc; [|injection H as <- <-; by left].
  apply try_catch_inv in H as [(v & w2 & Hv & H)|[(e & w2 & Hv & H)|(why & Hv & ->)]];
    apply VerifyOIDCCallback_inv in Hv as (Hstore & Hok & _ & _).
  - unfold dispatch in H. destruct (mode_error _) eqn:Hm; [injection H as <- <-; by left|].
    right. apply reply_bind_inv in H as [(out & w3 & Ho & H)|(ro & Ho & _ & Hr)].
    + exists cookieVal, v, w2, (Ret (inr out)).
      assert (w' = w3) as -> by (revert H; unfold finish_exchange; case_match; by intros [= _ <-]).
      split_and!; [done|done|by apply Hok|done|done|]. intros j ->. by exists out.
    + exists cookieVal, v, w2, ro. split_and!; [done|done|by apply Hok|done|done|]. intros j ->. by destruct (Hr j).
  - injection H as <- <-. by left.
  - by left.
Qed.

Lemma mode_error_None c : mode_error c = None -> Oidc.Mode c = ModeLogin \/ Oidc.Mode c = ModeLink /\ Oidc.UserID c <> "".
Proof.
  unfold mode_error. destruct (String.eqb_spec (Oidc.Mode c) ModeLink);
    [destruct (String.eqb_spec (Oidc.UserID c) "")|destruct (String.eqb_spec (Oidc.Mode c) ModeLogin)]; auto; done.
Qed.

(** C25: The post-verify hook runs only for a callback of a flow this surface
    started in the same browser. After the provider was found for the routed
    tenant, an exchange either leaves the application's state as it was and
    answers no session, or: the browser presented a state cookie that verifies
    under the configured secret and issuer at the clock's reading of this very
    call, naming this provider and this [state]; the code was exchanged with that
    flow's PKCE verifier and the ID token carries that flow's nonce; the flow is
    a login, or a link for a named user. A cookie a start leg signed is then the cookie that was signed, its
    mode and user included. An answer is the hook's: one that the hook itself
    reports as a link has no token in it and sets no cookie but the one that
    clears the state. (The mode of the flow does not force that report: see
    [link_flow_mints].) *)
Theorem Exchange_sound {HL : JWTLaws jwt} f x req w p w1 r w' :
  provider f x (xq_ProviderID req) w = (Ret (inr p), w1) -> exchange f x req w = (r, w') ->
  (w_store w' = w_store w1 /\ forall j, r <> Ret (inr j)) \/
  exists cookieVal v w2 ro,
    NamedCookieValue x oidcStateCookieSlotName = Some cookieVal /\
    verified_by jwt lib oauth2 p (xq_Code req) (xq_State req) cookieVal
      (fc_StateSecret (fr_cfg f)) (fc_StateIssuer (fr_cfg f)) (fr_Now f) (w_trace w1) v /\
    (Oidc.Mode (vf_State (normal_mode v)) = ModeLogin \/
     Oidc.Mode (vf_State v) = ModeLink /\ Oidc.UserID (vf_State v) <> "") /\
    (forall secret claims issuer t0 ttl,
       Oidc.SignOIDCStateWithSecret jwt secret claims issuer t0 ttl = Ret cookieVal ->
       Oidc.State claims = xq_State req /\ Oidc.ProviderID claims = pc_ID (p_Config p) /\
       Oidc.Mode (vf_State v) = Oidc.Mode claims /\ Oidc.UserID (vf_State v) = Oidc.UserID claims /\
       Oidc.RedirectAfterLogin (vf_State v) = Oidc.RedirectAfterLogin claims) /\
    w_store w2 = w_store w1 /\ fr_OnFederatedExchange f x p (normal_mode v) w2 = (ro, w') /\
    (forall j, r = Ret (inr j) -> exists out, ro = Ret (inr out) /\
       xr_Redirect (js_Data j) = fo_Redirect out /\ xr_User (js_Data j) = fo_User out /\
       (fo_Linked out = true -> xr_Token (js_Data j) = "" /\
          js_Cookies j = [StateCookie_Clear (fc_StateCookie (fr_cfg f))]) /\
       (fo_Linked out = false -> xr_Token (js_Data j) = tk_Access (fo_Tokens out))).
Proof.
  intros Hp H. destruct (Exchange_reaches f x req w p w1 r w' Hp H)
    as [Hn|(cookieVal & v & w2 & ro & Hc & Hw & Hv & Hm & Ho & Hj)]; [by left|right].
  exists cookieVal, v, w2, ro. split_and!; try done.
  - apply mode_error_None in Hm as [Hm|Hm]; [by left|right]. revert Hm. unfold normal_mode.
    by destruct (String.eqb _ ""); cbn; [intros [[=] _]|].
  - intros secret claims issuer t0 ttl Hsign. pose proof (vb_cookie _ _ _ _ _ _ _ _ _ _ _ _ Hv) as Ht.
    apply (verify_signed jwt Oidc.codec _ _ _ _ _ _ _ _ _ _ Hsign) in Ht. rewrite Ht.
    destruct (vb_provider _ _ _ _ _ _ _ _ _ _ _ _ Hv) as [Hpid _]. pose proof (vb_state _ _ _ _ _ _ _ _ _ _ _ _ Hv) as Hst.
    rewrite Ht in Hpid, Hst. by split_and!.
  - intros j ->. destruct (Hj j eq_refl) as (out & -> & Hf). exists out.
    destruct (finish_exchange_answer f out _ _ _ Hf) as (_ & _ & Hr & Hu & Hl & Hn). split_and!; try done.
    + intros Hl'. by destruct (Hl Hl') as (? & ? & _).
    + intros Hl'. by destruct (Hn Hl') as (? & _).
Qed.

(** ** Round trips *)

(** What the identity provider and the clock have to do for a flow with this
    [state] and cookie to reach the hook, and what the hook is then given. *)
Definition completes f p (o : StartOptions) (url : string) (ck : Cookie) : Prop :=
  exists flow t0, url = AuthCodeURL oauth2 (p_OAuth2 p) (Oidc.fl_State flow) (start_params flow o) /\
    forall x id p2 code w w1 tok raw claims w2,
      NamedCookieValue x oidcStateCookieSlotName = Some (ck_Value ck) ->
      provider f x id w = (Ret (inr p2), w1) -> pc_ID (p_Config p2) = pc_ID (p_Config p) ->
      fr_Now f (w_trace w1) < time_Unix (NewNumericDate jwt (t0 + Oidc.StateTTL)) ->
      ExchangeCode oauth2 (p_OAuth2 p2) (w_trace w1 ++ [EvNow]) code
        [VerifierOption (Oidc.fl_CodeVerifier flow)] = Ret tok ->
      tok_id_token oauth2 tok = Some raw -> raw <> "" ->
      VerifyIDToken lib (Some p2) raw (Oidc.fl_Nonce flow)
        (World (w_store w1) ((w_trace w1 ++ [EvNow]) ++ [EvHook "exchange"])) = (Ret claims, w2) ->
      exists v, exchange f x (MkExchangeReq id code (Oidc.fl_State flow)) w =
          (out ⇐ fr_OnFederatedExchange f x p2 v; finish_exchange f out) w2 /\
        vf_Claims v = claims /\ vf_ProviderID v = pc_ID (p_Config p) /\
        Oidc.Mode (vf_State v) = so_Mode o /\ Oidc.UserID (vf_State v) = so_UserID o /\
        Oidc.RedirectAfterLogin (vf_State v) = so_Redirect o /\
        Oidc.RequestedMaxAgeSeconds (vf_State v) = start_max_age o /\
        Oidc.RequestedACRValues (vf_State v) = so_ACRValues o /\
        Oidc.CallingUserID (vf_State v) = so_CallingUserID o.

Lemma start_flow_completes {HL : JWTLaws jwt} f p o w url ck w' :
  so_Mode o = ModeLogin \/ so_Mode o = ModeLink /\ so_UserID o <> "" ->
  start_flow E jwt GenerateVerifier S256Challenge oauth2 f p o w = (Ret (url, ck), w') ->
  completes f p o url ck /\ exists value, ck = StateCookie_Set (fc_StateCookie (fr_cfg f)) value.
Proof.
  unfold start_flow. intros Hmode (t0 & w1 & _ & H)%bind_Ret_inv.
  apply StartOIDCFlow_inv in H as (flow & value & _ & -> & -> & Hsign). split; [|by exists value].
  exists flow, t0. split; [done|]. intros x id p2 code w2 w3 tok raw claims w4 Hc Hp Hid Ht Hx Hraw Hne Hv.
  pose proof (VerifyOIDCCallback_completes jwt lib oauth2 p p2 flow o _ _ t0 value (fr_Now f) code w3 tok raw claims w4
    Hsign Hid Ht Hx Hraw Hne Hv) as Hcb.
  set (v := MkVerified _ _ _) in Hcb. exists v.
  assert (Oidc.Mode (vf_State v) = so_Mode o) as Hm by (cbn; unfold start_mode; destruct Hmode as [->|[-> _]]; done).
  assert (mode_error (vf_State (normal_mode v)) = None /\ normal_mode v = v) as [Herr Hnorm].
  { unfold normal_mode, mode_error. rewrite Hm.
    assert (String.eqb (so_Mode o) "" = false) as -> by (by destruct Hmode as [->|[-> _]]). rewrite Hm.
    destruct Hmode as [->|[-> Hu]]; [done|]. split; [|done]. change (Oidc.UserID (vf_State v)) with (so_UserID o).
    by rewrite (proj2 (String.eqb_neq _ _) Hu). }
  split_and!; try done.
  unfold Exchange. rewrite (reply_bind_answer _ _ _ _ _ Hp), Hc. unfold try_catch. cbn [xq_Code xq_State ck_Value StateCookie_Set].
  rewrite Hcb. unfold dispatch. cbn zeta. by rewrite Herr, Hnorm.
Qed.

(** C26: A flow that was started completes as it was started. Whoever follows the
    redirect of a start leg (or opens the URL of a link-start) and comes back
    within the life of the cookie, with the cookie, the [state] of that URL and
    a code the provider takes, reaches the post-verify hook, at the same provider
    and with exactly what the start leg recorded: login for no one yet, with the
    sanitised redirect and the requested step-up, or a link for the caller. The
    only cookie of a start leg is the state cookie, under its configured name
    and attributes. *)
Theorem started_flow_completes {HL : JWTLaws jwt} f x id w w' :
  (forall params rd,
     Start E jwt GenerateVerifier S256Challenge oauth2 f x id params w = (Ret (inr rd), w') ->
     exists p w1 ck value, provider f x id w = (Ret (inr p), w1) /\ rd_Cookies rd = [Some ck] /\
       ck = StateCookie_Set (fc_StateCookie (fr_cfg f)) value /\
       completes f p (login_options f x params) (rd_URL rd) ck) /\
  (forall userID j, userID <> "" ->
     LinkStart E jwt GenerateVerifier S256Challenge oauth2 f x id userID w = (Ret (inr j), w') ->
     exists p w1 ck value, provider f x id w = (Ret (inr p), w1) /\ js_Cookies j = [ck] /\
       ck = StateCookie_Set (fc_StateCookie (fr_cfg f)) value /\
       completes f p (MkStartOptions "" 0 [] ModeLink userID "") (ls_AuthURL (js_Data j)) ck).
Proof.
  split.
  - intros params rd H. unfold Start in H. apply reply_bind_inv in H as [(p & w1 & Hp & H)|(? & _ & _ & Hn)];
      [|by destruct (Hn rd)].
    cbn zeta in H. apply try_catch_inv in H as [([url ck] & w2 & Hf & H)|[(e & w2 & _ & [=])|(why & _ & [=])]].
    apply start_flow_completes in Hf as [Hc (value & Hck)]; [|by left].
    apply bind_Ret_inv in H as (u & w3 & _ & H). injection H as <- <-. exists p, w1, ck, value. by split_and!.
  - intros userID j Hu H. unfold LinkStart in H. apply reply_bind_inv in H as [(p & w1 & Hp & H)|(? & _ & _ & Hn)];
      [|by destruct (Hn j)].
    apply try_catch_inv in H as [([url ck] & w2 & Hf & H)|[(e & w2 & _ & [=])|(why & _ & [=])]].
    apply start_flow_completes in Hf as [Hc (value & Hck)]; [|by right].
    injection H as <- <-. exists p, w1, ck, value. by split_and!.
Qed.
End Theorems.

(** ** At concrete inputs *)

Module ToyFed.
Definition nonce : string := String.string_of_list_ascii (base64url (repeat "r"%char 32)).
Definition flow : Oidc.Flow := Oidc.MkFlow nonce nonce "ver1fier" "chall".
Definition p : Provider string string string :=
  MkProvider (MkConfig "kc" "https://kc" "app" "s3cret" "https://app/cb" "" ["openid"] "") "https://kc"
    (MkOAuth2 "app" "s3cret" "https://kc" "https://app/cb" ["openid"]) "app" "" "".
Definition claims : IDClaims := MkClaims "alice" "alice@acme.com" true "" "" ∅.
Definition lib : IDTokens string string string unit := {|
  Verify _ _ raw := Ret raw; tok_Nonce tok := tok; typed_claims _ := Ret claims; raw_claims _ := Ret ∅;
  UserInfo _ _ _ := Ret tt; userinfo_claims _ := Ret ∅; json_Marshal _ := Ret []
|}.
(** The provider takes one code, with the flow's verifier, for a token with its
    nonce. *)
Definition oauth2 : OAuth2 string string := {|
  AuthCodeURL _ state _ := "https://kc/auth?state=" +:+ state;
  ExchangeCode _ _ code opts :=
    if decide (code = "c0de" /\ opts = [VerifierOption "ver1fier"]) then Ret nonce else Fail (AppError "invalid_grant");
  tok_id_token tok := Some tok
|}.
Definition login : StartOptions := MkStartOptions "/" 0 [] ModeLogin "" "".
Definition link : StartOptions := MkStartOptions "" 0 [] ModeLink "alice" "".
(** The one object the library signs. *)
Definition signed (o : StartOptions) : obj :=
  obj_of (cd_fields Oidc.codec (stamped (one_token []) Oidc.codec (start_claims p flow o) "tamper" 0 Oidc.StateTTL)).
Definition jwt (o : StartOptions) : JWT := one_token (signed o).
(** The application counts the exchanges, and always mints. *)
Definition minting (x : Context) (p : Provider string string string) (v : OIDCVerified)
    : M (Web nat) (http_error + FederationOutcome) := fun w =>
  (Ret (inr (MkOutcome (MkTokens "access" "refresh" 0) VNull "/home" false)),
   World (MkWeb (Datatypes.S (web_app (w_store w))) (web_actors (w_store w)) (web_clusters (w_store w)) (web_writer (w_store w)))
     (w_trace w)).
Definition hooks : FederationHooks (D := string) (Endpoints := string) (Verifier := string) (S := nat) := {|
  fh_Registry := Some (fun _ tid => answer (if decide (tid = Demo.acme) then Some (MkRegistry {["kc" := p]} ["kc"]) else None));
  fh_OnFederatedExchange := Some minting;
  fh_SanitizeRedirect := None; fh_OnStepUpInitiated := None; fh_CallingUserID := None |}.
Definition cfg (mount : string) : FederationConfig := {|
  fc_LandingPath := "/landing"; fc_StateCookie := MkStateCookieConfig "oidc" true "/" (600 * 10 ^ 9) SameSiteLaxMode;
  fc_StateSecret := Toy.key; fc_StateIssuer := "tamper";
  fc_Cookies := {| cc_Name := "refresh"; cc_Secure := true; cc_MaxAgeSeconds := 3600 |};
  fc_MountPrefix := mount; fc_Now := None |}.
Definition routes (mount : string) : FederationRoutes (D := string) (Endpoints := string) (Verifier := string) (S := nat) := {|
  fr_cfg := cfg mount; fr_Now := env_now demo_rand;
  fr_Registry _ tid := answer (if decide (tid = Demo.acme) then Some (MkRegistry {["kc" := p]} ["kc"]) else None);
  fr_OnFederatedExchange := minting;
  fr_SanitizeRedirect := denyAllRedirect; fr_OnStepUpInitiated := None; fr_CallingUserID := default_caller |}.
Definition at_acme : Context := with_tenant Demo.acme Background.
Definition web : world (Web nat) := World (MkWeb 0%nat [] [] fresh_writer) [].
Definition with_state (x : Context) : Context := with_cookie oidcStateCookieSlotName "token" x.
Definition request : ExchangeReq := MkExchangeReq "kc" "c0de" nonce.

Definition started := Start demo_rand (jwt login) (fun _ => "ver1fier") (fun _ => "chall") oauth2 (routes "/auth")
  at_acme "kc" (MkStartParams "https://evil" 0 "") web.
Definition link_started := LinkStart demo_rand (jwt link) (fun _ => "ver1fier") (fun _ => "chall") oauth2 (routes "/auth")
  at_acme "kc" "alice" web.
Definition exchanged := Exchange (jwt login) lib oauth2 (routes "/auth") (with_state at_acme) request web.
Definition no_redirect : Redirect := MkRedirect "" [].
Definition no_session : JSON ExchangeRes := MkJSON 0 (MkExchangeRes "" VNull "") [].
End ToyFed.

Lemma toy_routes mount : NewFederationRoutes demo_rand (ToyFed.cfg mount) ToyFed.hooks =
  if valid_mount mount then Ret (ToyFed.routes mount) else Fail (Errorf0 "MountPrefix").
Proof. unfold NewFederationRoutes. cbn. by destruct (valid_mount mount). Qed.

Lemma toy_started : ToyFed.started = (Ret (inr (answer_of ToyFed.no_redirect ToyFed.started)), ToyFed.started.2).
Proof. apply answer_run. vm_compute. reflexivity. Qed.
Lemma toy_exchanged : ToyFed.exchanged = (Ret (inr (answer_of ToyFed.no_session ToyFed.exchanged)), ToyFed.exchanged.2).
Proof. apply answer_run. vm_compute. reflexivity. Qed.
Lemma toy_provider_found : provider (ToyFed.routes "/auth") (ToyFed.with_state ToyFed.at_acme) "kc" ToyFed.web =
  (Ret (inr ToyFed.p), ToyFed.web).
Proof. vm_compute. reflexivity. Qed.

Lemma Exchange_sound_witness : exists v,
  verified_by (ToyFed.jwt ToyFed.login) ToyFed.lib ToyFed.oauth2 ToyFed.p "c0de" ToyFed.nonce "token" Toy.key "tamper"
    (fr_Now (ToyFed.routes "/auth")) (w_trace ToyFed.web) v.
Proof.
  assert (ToyFed.exchanged = (Ret (inr (answer_of ToyFed.no_session ToyFed.exchanged)), ToyFed.exchanged.2)) as Hrun
    by exact toy_exchanged.
  destruct (Exchange_sound (ToyFed.jwt ToyFed.login) ToyFed.lib ToyFed.oauth2
    (HL := one_token_laws (ToyFed.signed ToyFed.login)) (ToyFed.routes "/auth") (ToyFed.with_state ToyFed.at_acme)
    ToyFed.request ToyFed.web ToyFed.p ToyFed.web (Ret (inr (answer_of ToyFed.no_session ToyFed.exchanged)))
    ToyFed.exchanged.2 toy_provider_found Hrun) as [[_ Hn]|(cookie & v & w2 & ro & Hc & Hv & _)].
  - destruct (Hn _ eq_refl).
  - exists v. cbn in Hc. injection Hc as <-. exact Hv.
Defined.

Lemma started_flow_completes_witness : exists ck,
  rd_Cookies (answer_of ToyFed.no_redirect ToyFed.started) = [Some ck] /\ ck_Name ck = "__Host-oidc" /\
  completes (ToyFed.jwt ToyFed.login) ToyFed.lib ToyFed.oauth2 (ToyFed.routes "/auth") ToyFed.p ToyFed.login
    (rd_URL (answer_of ToyFed.no_redirect ToyFed.started)) ck.
Proof.
  destruct (started_flow_completes demo_rand (ToyFed.jwt ToyFed.login) (fun _ => "ver1fier") (fun _ => "chall")
    ToyFed.lib ToyFed.oauth2 (HL := one_token_laws (ToyFed.signed ToyFed.login)) (ToyFed.routes "/auth")
    ToyFed.at_acme "kc" ToyFed.web ToyFed.started.2) as [Hs _].
  destruct (Hs (MkStartParams "https://evil" 0 "") (answer_of ToyFed.no_redirect ToyFed.started) toy_started)
    as (p & w1 & ck & value & Hp & Hck & Hval & Hc).
  exists ck. split; [exact Hck|]. split; [rewrite Hval; reflexivity|].
  assert (provider (ToyFed.routes "/auth") ToyFed.at_acme "kc" ToyFed.web = (Ret (inr ToyFed.p), ToyFed.web)) as Hp'
    by (vm_compute; reflexivity).
  rewrite Hp' in Hp. injection Hp as <- <-. exact Hc.
Defined.

(** An evil redirect of the start leg is not followed, and the flow comes back
    with a session whose refresh cookie is fenced to the mount. *)
Example toy_session :
  (let j := answer_of ToyFed.no_session ToyFed.exchanged in
   (xr_Token (js_Data j), map (fun c => (ck_Name c, ck_Path c)) (js_Cookies j))) =
  ("access", [("refresh", "/auth"); ("__Host-oidc", "/")]).
Proof. vm_compute. reflexivity. Qed.

(** The guard of the link leg asks the hook whether the leg was a link, not the
    signed cookie: a hook that mints on a link flow without saying so hands out a
    session to whoever holds the link cookie. *)
Example link_flow_mints :
  let run := Exchange (ToyFed.jwt ToyFed.link) ToyFed.lib ToyFed.oauth2 (ToyFed.routes "/auth")
    (ToyFed.with_state ToyFed.at_acme) ToyFed.request ToyFed.web in
  xr_Token (js_Data (answer_of ToyFed.no_session run)) = "access".
Proof. vm_compute. reflexivity. Qed.

(** A templated mount is accepted, and the refresh cookie is then written at the
    placeholder itself, which no request of any tenant matches. *)
Example templated_mount_cookie :
  let run := Exchange (ToyFed.jwt ToyFed.login) ToyFed.lib ToyFed.oauth2 (ToyFed.routes "/t/{tenant}/auth")
    (ToyFed.with_state ToyFed.at_acme) ToyFed.request ToyFed.web in
  NewFederationRoutes demo_rand (ToyFed.cfg "/t/{tenant}/auth") ToyFed.hooks = Ret (ToyFed.routes "/t/{tenant}/auth") /\
  map ck_Path (js_Cookies (answer_of ToyFed.no_session run)) = ["/t/{tenant}/auth"; "/"] /\
  authPrefixFor "/t/{tenant}/auth" Demo.acme = Some "/t/acme/auth".
Proof. split; [rewrite toy_routes; reflexivity|]. vm_compute. by split. Qed.
