(* ===== verification/WebSaml.v ===== *)
(** * The SAML routes

    [src/espresso/samlroutes.go]: login, link-start, the assertion consumer
    service and the metadata document, over the provider registry, the
    correlated single-use parse of [SamlReplay] and the signed state cookie. What
    the theorems show: the application sees an assertion once, correlated with
    the flow of the browser that posts it, and a link only for the user who
    started it. *)

From S2P Require Import Prelude Tenant Bytes World Identity IdpRegistry StateCookie SamlReplay Http WebWire WebFlows WebFederation.
From S2P Require SamlProvider SamlAssertion.

#[local] Open Scope string_scope.
#[local] Open Scope list_scope.
#[local] Open Scope Z_scope.

Definition samlStateCookieSlotName : string := "tamper_saml_state".

Record SAMLOutcome := MkSAMLOutcome { so_Tokens : Tokens; so_RedirectTo : string; so_Linked : bool }.

(** [State] with [HasState]: [None] without. *)
Record SAMLVerified := MkSAMLVerified {
  sv_Assertion : Assertion;
  sv_State : option Saml.StateCookieClaims;
  sv_RelayState : string
}.
Record SAMLConfig := {
  sm_StateCookie : StateCookieConfig;
  sm_StateSecret : bytes;
  sm_StateIssuer : string;
  sm_StateTTL : Z;
  sm_Cookies : CookieConfig;
  sm_MountPrefix : string;
  sm_Now : option (trace -> time)
}.
Record SAMLStartParams := MkSAMLStartParams { ss_Redirect : string; ss_MaxAge : Z; ss_ACRValues : string }.
Record SAMLAssertionForm := MkForm { sf_SAMLResponse : string; sf_RelayState : string }.

Section Saml.
Context {Entity URL Cert AnyKey Signer Replay S : Type} `{!AssertionReplayStore S}.
Context (E : Env) (jwt : JWT) (crewjam : SamlProvider.Crewjam Entity URL Cert AnyKey Signer).
Local Abbreviation Provider := (SamlProvider.Provider (Entity := Entity) (URL := URL) (Cert := Cert) (Signer := Signer) (Replay := Replay)).
Local Abbreviation Registry := (ProviderRegistry Provider).
Local Abbreviation reply A := (M (Web S) (http_error + A)).
Implicit Types (x : Context) (p : Provider).

(** crewjam: an authentication request of a provider (its ID is random), the
    signed redirect to it, the text of an address and the metadata document; and
    the parse of a response with the timing globals, the scan for a foreign
    NameID and the clock readings of one call. *)
Record SPCalls := {
  MakeAuthenticationRequest : Provider -> trace -> go SamlAssertion.AuthnRequest;
  RedirectURL : Provider -> SamlAssertion.AuthnRequest -> string -> go URL;
  URL_String : URL -> string;
  GenerateSPMetadata : Provider -> go bytes;
  ParseResponse : SamlReplay.Provider -> instant -> string -> list string -> go Assertion;
  rejectForeignNameID : string -> go unit;
  timing : Timing;
  clocks : trace -> Clock
}.
Context (sp : SPCalls).

(** What [ParseAssertion] reads of a provider. *)
Definition parsing_view p : SamlReplay.Provider := {|
  pr_ID := SamlProvider.pc_ID (SamlProvider.p_Config p);
  pr_AllowIDPInitiated := SamlProvider.pc_AllowIDPInitiated (SamlProvider.p_Config p);
  pr_maxResponseBytes := SamlProvider.p_maxResponseBytes p;
  pr_acsAbsolute := SamlProvider.url_IsAbs crewjam (SamlProvider.sp_AcsURL (SamlProvider.p_SP p)) &&
    negb (String.eqb (SamlProvider.url_Host crewjam (SamlProvider.sp_AcsURL (SamlProvider.p_SP p))) "")
|}.

(** [p.ParseAssertion] against the ledger in the application's store, which all
    providers share. *)
Definition parse_assertion p (samlResponse expectedRequestID : string) : M S Assertion := fun w =>
  let '(r, st) := ParseAssertion (ParseResponse sp) (rejectForeignNameID sp) (timing sp) (Some (parsing_view p))
    (Some (w_store w)) (clocks sp (w_trace w)) samlResponse expectedRequestID in
  (r, World (default (w_store w) st) (w_trace w ++ [EvHook "ParseAssertion"])).

Record SAMLHooks := {
  sh_Registry : option (Context -> ID -> reply (option Registry));
  sh_OnFederatedAssertion : option (Context -> Provider -> SAMLVerified -> reply SAMLOutcome);
  sh_SanitizeRedirect : option (string -> string);
  sh_LinkRedirect : option (string -> string);
  sh_OnStepUpInitiated : option (Context -> string -> Z -> list string -> M (Web S) unit);
  sh_CallingUserID : option (Context -> string)
}.
Record SAMLRoutes := {
  sr_cfg : SAMLConfig;
  sr_Now : trace -> time;
  sr_Registry : Context -> ID -> reply (option Registry);
  sr_OnFederatedAssertion : Context -> Provider -> SAMLVerified -> reply SAMLOutcome;
  sr_SanitizeRedirect : string -> string;
  sr_LinkRedirect : option (string -> string);
  sr_OnStepUpInitiated : option (Context -> string -> Z -> list string -> M (Web S) unit);
  sr_CallingUserID : Context -> string
}.

Definition NewSAMLRoutes (cfg : SAMLConfig) (hooks : SAMLHooks) : go SAMLRoutes :=
  match sh_Registry hooks, sh_OnFederatedAssertion hooks with
  | None, _ => Fail (Errorf0 "saml routes require a Registry hook")
  | _, None => Fail (Errorf0 "saml routes require an OnFederatedAssertion hook")
  | Some registry, Some on_assertion =>
      if negb (valid_mount (sm_MountPrefix cfg)) then Fail (Errorf0 "MountPrefix")
      else match check_state_cookie (sm_StateCookie cfg) (sm_StateSecret cfg) (sm_StateIssuer cfg) with
      | Some why => Fail (Errorf0 why)
      | None =>
          if sm_StateTTL cfg <=? 0 then Fail (Errorf0 "state cookie TTL must be positive")
          else if String.eqb (cc_Name (sm_Cookies cfg)) "" then Fail (Errorf0 "refresh cookie name is required")
          else Ret {|
            sr_cfg := cfg;
            sr_Now := default (env_now E) (sm_Now cfg);
            sr_Registry := registry;
            sr_OnFederatedAssertion := on_assertion;
            sr_SanitizeRedirect := default denyAllRedirect (sh_SanitizeRedirect hooks);
            sr_LinkRedirect := sh_LinkRedirect hooks;
            sr_OnStepUpInitiated := sh_OnStepUpInitiated hooks;
            sr_CallingUserID := default default_caller (sh_CallingUserID hooks)
          |}
      end
  end.

Section Routes.
Context (s : SAMLRoutes).

Definition ReadStateCookie : Middleware S :=
  ReadNamedCookie samlStateCookieSlotName (StateCookie_Name (sm_StateCookie (sr_cfg s))).
Definition StateCookieName : string := StateCookie_Name (sm_StateCookie (sr_cfg s)).

Definition provider x (id : string) : reply Provider :=
  match TenantFromContext x with
  | None => refuse (coded ErrNotFound "provider not found" "SAML_PROVIDER_NOT_FOUND")
  | Some tid =>
      reg ← sr_Registry s x tid;
      match reg with
      | inl (Fw e) => refuse (FwError ErrInternal "saml registry" None (Some (Errorf0 (fe_msg e))))
      | inl (Raw err) => refuse (FwError ErrInternal "saml registry" None (Some err))
      | inr None => refuse (coded ErrNotFound "saml is not configured" "SAML_NOT_CONFIGURED")
      | inr (Some reg) =>
          match SamlProvider.saml_Get (Some reg) id with
          | Ret p => answer p
          | Fail _ => refuse (coded ErrNotFound "saml provider not found" "SAML_PROVIDER_NOT_FOUND")
          | Panic why => lift (Panic why)
          end
      end
  end.

(** [saml.BuildAuthnRequestURL]. *)
Definition authn_request p (relayState : string) (opts : SamlAssertion.AuthnRequestOptions) : M (Web S) (URL * string) :=
  made ← observe EvRand (MakeAuthenticationRequest sp p);
  lift (SamlAssertion.BuildAuthnRequestURL made (RedirectURL sp p) true relayState opts).
Definition request_failed (err : error) : fw_error := FwError ErrInternal "build saml authn request" None (Some err).

Definition saml_claims p (redirect : string) (maxAge : Z) (acr : list string) (caller requestID mode userID : string)
    : Saml.StateCookieClaims :=
  Saml.MkState (SamlProvider.pc_ID (SamlProvider.p_Config p)) redirect maxAge acr caller requestID mode userID ""
    no_registered.

Definition signState (claims : Saml.StateCookieClaims) : reply Cookie :=
  t ← observe EvNow (sr_Now s);
  try_catch (lift (Saml.SignStateCookieWithSecret jwt (sm_StateSecret (sr_cfg s)) claims (sm_StateIssuer (sr_cfg s)) t
                     (sm_StateTTL (sr_cfg s))))
    (fun err => refuse (FwError ErrInternal "sign saml state cookie" None (Some err)))
    (fun value => answer (StateCookie_Set (sm_StateCookie (sr_cfg s)) value)).

Definition Login x (providerID : string) (q : SAMLStartParams) : reply Redirect :=
  prov ⇐ provider x providerID;
  let relayState := sr_SanitizeRedirect s (ss_Redirect q) in
  let maxAge := if ss_MaxAge q <? 0 then 0 else ss_MaxAge q in
  let acrValues := SplitACRValues (ss_ACRValues q) in
  let isStepUp := (0 <? maxAge) || negb (bool_decide (acrValues = [])) in
  let caller := sr_CallingUserID s x in
  let opts := SamlAssertion.MkRequestOptions isStepUp (match acrValues with [] => "" | v :: _ => v end) "" in
  try_catch (authn_request prov relayState opts) (fun err => refuse (request_failed err))
    (fun '(idpURL, requestID) =>
       cookie ⇐ signState (saml_claims prov relayState maxAge acrValues caller requestID "" "");
       match isStepUp, sr_OnStepUpInitiated s with
       | true, Some hook => hook x caller maxAge acrValues
       | _, _ => mret tt
       end;;
       answer (MkRedirect (URL_String sp idpURL) [Some cookie])).

Definition LinkStart x (providerID userID : string) : reply (JSON LinkStartRes) :=
  prov ⇐ provider x providerID;
  match sr_LinkRedirect s with
  | None => refuse (FwError ErrInternal "LinkRedirect hook is required for LinkStart" None None)
  | Some link =>
      let target := link (SamlProvider.pc_ID (SamlProvider.p_Config prov)) in
      try_catch (authn_request prov target (SamlAssertion.MkRequestOptions false "" ""))
        (fun err => refuse (request_failed err))
        (fun '(idpURL, requestID) =>
           cookie ⇐ signState (saml_claims prov target 0 [] userID requestID ModeLink userID);
           answer (MkJSON 200 (MkLinkStartRes (URL_String sp idpURL)) [cookie]))
  end.

Definition readState x (providerID : string) : M (Web S) (option Saml.StateCookieClaims) :=
  match NamedCookieValue x samlStateCookieSlotName with
  | None => mret None
  | Some raw =>
      t ← observe EvNow (sr_Now s);
      try_catch (lift (Saml.VerifyStateCookieWithSecret jwt (sm_StateSecret (sr_cfg s)) raw (sm_StateIssuer (sr_cfg s)) t))
        (fun _ => mret None)
        (fun claims => mret (if negb (String.eqb (Saml.ProviderID claims) providerID) then None else Some claims))
  end.

Definition acs_error (err : error) : fw_error :=
  if errors_is err saml_ErrReplayStoreUnavailable then
    FwError ErrServiceUnavailable "saml replay store unavailable" (Some "SAML_REPLAY_STORE_UNAVAILABLE") (Some err)
  else if errors_is err saml_ErrAssertionReplayed then
    coded ErrBadRequest "saml assertion already consumed" "SAML_ASSERTION_REPLAYED"
  else if errors_is err saml_ErrUncorrelated || errors_is err saml_ErrNoSubjectConfirmation then
    coded ErrBadRequest "saml assertion does not answer this flow's request" "SAML_ASSERTION_UNCORRELATED"
  else if errors_is err saml_ErrIdPInitiatedDisabled then
    coded ErrBadRequest "idp-initiated saml sso is disabled" "SAML_IDP_INITIATED_DISABLED"
  else coded ErrBadRequest "saml assertion invalid" "SAML_ASSERTION_INVALID".

Definition saml_mode (st : option Saml.StateCookieClaims) : string :=
  match st with
  | Some c => if String.eqb (Saml.Mode c) "" then ModeLogin else Saml.Mode c
  | None => ModeLogin
  end.
(** [!hasState || claims.UserID == ""]. *)
Definition no_link_user (st : option Saml.StateCookieClaims) : bool :=
  match st with Some c => String.eqb (Saml.UserID c) "" | None => true end.

Definition refreshCookies (tokens : Tokens) : list Cookie :=
  mount_cookies (sm_Cookies (sr_cfg s)) (sm_MountPrefix (sr_cfg s)) tokens.

(** From the outcome of the hook on. *)
Definition finish_assertion (out : SAMLOutcome) : reply Redirect :=
  if so_Linked out && (negb (String.eqb (tk_Access (so_Tokens out)) "") || negb (String.eqb (tk_Refresh (so_Tokens out)) ""))
  then refuse (FwError ErrInternal "saml link leg minted tokens" None None)
  else
    let cookies := if so_Linked out then [] else refreshCookies (so_Tokens out) in
    answer (MkRedirect (so_RedirectTo out) (map Some (cookies ++ [StateCookie_Clear (sm_StateCookie (sr_cfg s))]))).

Definition ACS x (providerID : string) (form : SAMLAssertionForm) : reply Redirect :=
  prov ⇐ provider x providerID;
  st ← readState x (SamlProvider.pc_ID (SamlProvider.p_Config prov));
  let expectedRequestID := match st with Some c => Saml.RequestID c | None => "" end in
  calling (parse_assertion prov (sf_SAMLResponse form) expectedRequestID) (fun err => refuse (acs_error err))
    (fun assertion =>
       if String.eqb (saml_mode st) ModeLink && no_link_user st
       then refuse (coded ErrBadRequest "saml link cookie missing user id" "INVALID_STATE")
       else
         out ⇐ sr_OnFederatedAssertion s x prov (MkSAMLVerified assertion st (sf_RelayState form));
         finish_assertion out).

Definition Metadata x (providerID : string) : reply XML :=
  prov ⇐ provider x providerID;
  match GenerateSPMetadata sp prov with
  | Ret body => answer (MkXML body "")
  | Fail err => refuse (FwError ErrInternal "generate saml metadata" None (Some err))
  | Panic why => lift (Panic why)
  end.
End Routes.
End Saml.

(** ** What reaches the application *)

Section Theorems.
Context {Entity URL Cert AnyKey Signer Replay S : Type} `{!AssertionReplayStore S}.
Context (jwt : JWT) (crewjam : SamlProvider.Crewjam Entity URL Cert AnyKey Signer).
Local Abbreviation Provider := (SamlProvider.Provider (Entity := Entity) (URL := URL) (Cert := Cert) (Signer := Signer) (Replay := Replay)).
Local Abbreviation SAMLRoutes := (SAMLRoutes (Entity := Entity) (URL := URL) (Cert := Cert) (Signer := Signer) (Replay := Replay) (S := S)).
Context (sp : SPCalls (Entity := Entity) (URL := URL) (Cert := Cert) (Signer := Signer) (Replay := Replay)).
Implicit Types (s : SAMLRoutes) (x : Context) (p : Provider) (w : world (Web S)).

(** The request a flow issued. *)
Definition expected_request (st : option Saml.StateCookieClaims) : string :=
  match st with Some c => Saml.RequestID c | None => "" end.

(** The state is that of a cookie of this browser, for this provider, valid at
    the clock's reading after [tr]. *)
Definition state_of s x p (tr : trace) (st : option Saml.StateCookieClaims) : Prop :=
  match st with
  | None => True
  | Some c => exists raw, NamedCookieValue x samlStateCookieSlotName = Some raw /\
      Saml.VerifyStateCookieWithSecret jwt (sm_StateSecret (sr_cfg s)) raw (sm_StateIssuer (sr_cfg s)) (sr_Now s tr) = Ret c /\
      Saml.ProviderID c = SamlProvider.pc_ID (SamlProvider.p_Config p)
  end.

(** Reading the state reads the clock when there is a cookie. *)
Definition state_events x : trace :=
  match NamedCookieValue x samlStateCookieSlotName with Some _ => [EvNow] | None => [] end.

Lemma readState_inv s x p w r w' :
  readState jwt s x (SamlProvider.pc_ID (SamlProvider.p_Config p)) w = (r, w') ->
  w_store w' = w_store w /\ w_trace w' = w_trace w ++ state_events x /\
  forall st, r = Ret st -> state_of s x p (w_trace w) st.
Proof.
  unfold readState, state_events. destruct (NamedCookieValue x _) as [raw|] eqn:Hc;
    [|intros [= <- <-]; rewrite app_nil_r; by split_and!; [| |intros ? [= <-]]].
  intros H.
  apply bind_inv in H as [(t & w1 & [Ht ->]%observe_inv & H)|[(e & [[=] _]%observe_inv & _)|(why & [[=] _]%observe_inv & _)]].
  apply try_catch_inv in H as [(c & w2 & [Hv ->]%lift_inv & H)|[(e & w2 & [_ ->]%lift_inv & H)|(why & [_ ->]%lift_inv & ->)]].
  - apply mret_inv in H as [-> ->]. split_and!; [done..|]. intros st [= <-].
    destruct (String.eqb_spec (Saml.ProviderID c) (SamlProvider.pc_ID (SamlProvider.p_Config p))); cbn; [|done].
    match goal with Ht : Ret t = _ |- _ => injection Ht as -> end. by exists raw.
  - apply mret_inv in H as [-> ->]. split_and!; [done..|]. by intros st [= <-].
  - done.
Qed.

(** What an accepted assertion is, at the clock readings of the call: the library
    accepted the response, for the request of this flow or for none; every one
    of the assertion's confirmations, and it has one, answers that request, or
    none at a provider that allows that; and its key was fresh in the ledger [l],
    which is asked to keep it until the library would no longer accept the
    assertion (and at least for the skew allowance), and becomes [l']. *)
Definition accepted_assertion p (resp expected : string) (clk : Clock) (a : Assertion) (l l' : S) : Prop :=
  ParseResponse sp (parsing_view crewjam p) (at_parse clk) resp
    (if String.eqb expected "" then [] else [expected]) = Ret a /\
  (exists cs, as_Subject a = Some cs /\ cs <> [] /\ Forall (fun c => confirmation_value c = expected) cs /\
     (expected = "" -> SamlProvider.pc_AllowIDPInitiated (SamlProvider.p_Config p) = true)) /\
  (exists key, assertionReplayKey (SamlProvider.pc_ID (SamlProvider.p_Config p)) a = Ret key /\
     ConsumeAssertion (at_store clk) key
       (Z.max (Z.max (at_expiry clk) (as_IssueInstant a) + MaxIssueDelay (timing sp) + MaxClockSkew (timing sp))
          (at_expiry clk + MaxClockSkew (timing sp))) l = (Ret true, l')).

(** A parse that accepts: correlated, and the key was consumed. *)
Lemma parse_assertion_Ret p resp expected (w : world S) a (w' : world S) :
  parse_assertion crewjam sp p resp expected w = (Ret a, w') ->
  accepted_assertion p resp expected (clocks sp (w_trace w)) a (w_store w) (w_store w').
Proof.
  unfold parse_assertion, accepted_assertion. destruct (ParseAssertion _ _ _ _ _ _ _ _) as [r st] eqn:H. intros [= -> <-].
  apply ParseAssertion_Ret in H as (pr & s0 & s' & key & [= <-] & [= <-] & -> & Hp & Hc & Hk & Hcons).
  apply (proj1 (correlate_correct a expected _)) in Hc as (cs & v & Hs & Hne & Hall & -> & Hidp).
  rewrite replayExpiry_window in Hcons. split_and!; [done|by exists cs|by exists key].
Qed.

(** What any parse does to the store. *)
Definition ledger_only (s s' : S) : Prop :=
  s' = s \/ exists now key exp r, ConsumeAssertion now key exp s = (r, s').
Lemma parse_assertion_ledger p resp expected (w : world S) r (w' : world S) :
  parse_assertion crewjam sp p resp expected w = (r, w') -> ledger_only (w_store w) (w_store w').
Proof.
  unfold parse_assertion. destruct (ParseAssertion _ _ _ _ _ _ _ _) as [r0 st] eqn:H. intros [= <- <-].
  apply ParseAssertion_ledger in H as [->|(pr & s0 & s' & a & key & r & _ & [= <-] & -> & _ & _ & _ & Hc & _)];
    [by left|right]. eauto.
Qed.

Lemma no_link_user_named st : String.eqb (saml_mode st) ModeLink && no_link_user st = false ->
  saml_mode st = ModeLink -> exists c, st = Some c /\ Saml.UserID c <> "".
Proof.
  intros H Hm. rewrite Hm in H. cbn in H. destruct st as [c|]; [|done]. exists c. split; [done|]. by apply String.eqb_neq.
Qed.
Lemma finish_assertion_answer s out w rd w' : finish_assertion s out w = (Ret (inr rd), w') ->
  rd_URL rd = so_RedirectTo out /\
  (so_Linked out = true -> rd_Cookies rd = [Some (StateCookie_Clear (sm_StateCookie (sr_cfg s)))]).
Proof.
  unfold finish_assertion. destruct (_ && _); [by intros [=]|]. intros [= <- _]. split; [done|]. by intros ->.
Qed.

End Theorems.

(** ** At concrete inputs *)

Module ToySaml.
Definition crewjam : SamlProvider.Crewjam string string string string string := {|
  SamlProvider.url_Parse := Ret; SamlProvider.url_IsAbs _ := true; SamlProvider.url_Host u := u;
  SamlProvider.pem_Decode _ := None; SamlProvider.x509_ParseCertificate _ := Fail (AppError "x509");
  SamlProvider.ParsePKCS1PrivateKey _ := Fail (AppError "key"); SamlProvider.ParseECPrivateKey _ := Fail (AppError "key");
  SamlProvider.ParsePKCS8PrivateKey _ := Fail (AppError "key"); SamlProvider.as_Signer _ := None |}.
Abbreviation P := (SamlProvider.Provider (Entity := string) (URL := string) (Cert := string) (Signer := string) (Replay := unit)).
Definition p : P := SamlProvider.MkProvider
  (SamlProvider.MkConfig "okta" "https://idp/meta" "sp" "https://app/acs" "https://app/meta" (Some "cert") (Some "key")
     "Okta" "" "" "" true 0)
  (SamlProvider.MkSP "sp" "key" "cert" "https://app/meta" "https://app/acs" "idp" true SamlProvider.ValidateRequestID "")
  0 tt.
(** The identity provider's answer to request "id-1", and the calls of the
    library. *)
Definition assertion : Assertion :=
  {| as_ID := "_a1"; as_Issuer := "https://idp"; as_IssueInstant := 100; as_Subject := Some [Some "id-1"] |}.
Definition sp : SPCalls (Entity := string) (URL := string) (Cert := string) (Signer := string) (Replay := unit) := {|
  MakeAuthenticationRequest _ _ := Ret (SamlAssertion.MkRequest "id-1" None None);
  RedirectURL _ r relay := Ret ("https://idp/sso?rid=" +:+ SamlAssertion.rq_ID r);
  URL_String u := u; GenerateSPMetadata _ := Ret []; ParseResponse _ _ _ _ := Ret assertion;
  rejectForeignNameID _ := Ret tt; timing := demo_timing;
  clocks _ := {| at_parse := 110; at_expiry := 110; at_store := 110 |} |}.
Definition claims : Saml.StateCookieClaims :=
  Saml.MkState "okta" "/linked" 0 [] "alice" "id-1" ModeLink "alice" "" no_registered.
Definition signed : obj :=
  obj_of (cd_fields Saml.codec (stamped (one_token []) Saml.codec claims "tamper" 0 (600 * 10 ^ 9))).
Definition jwt : JWT := one_token signed.
Definition cfg : SAMLConfig := {|
  sm_StateCookie := MkStateCookieConfig "saml" true "/" (600 * 10 ^ 9) SameSiteNoneMode;
  sm_StateSecret := Toy.key; sm_StateIssuer := "tamper"; sm_StateTTL := 600 * 10 ^ 9;
  sm_Cookies := {| cc_Name := "refresh"; cc_Secure := true; cc_MaxAgeSeconds := 3600 |};
  sm_MountPrefix := "/auth"; sm_Now := None |}.
Definition hook (x : Context) (p : P) (v : SAMLVerified) : M (Web MemAssertionReplayStore) (http_error + SAMLOutcome) :=
  answer (if decide (saml_mode (sv_State v) = ModeLink) then MkSAMLOutcome (MkTokens "" "" 0) "/linked" true
          else MkSAMLOutcome (MkTokens "access" "refresh" 0) "/" false).
Definition routes : SAMLRoutes (Entity := string) (URL := string) (Cert := string) (Signer := string) (Replay := unit)
    (S := MemAssertionReplayStore) := {|
  sr_cfg := cfg; sr_Now _ := 0;
  sr_Registry _ tid := answer (if decide (tid = Demo.acme) then Some (MkRegistry {["okta" := p]} ["okta"]) else None);
  sr_OnFederatedAssertion := hook; sr_SanitizeRedirect := denyAllRedirect; sr_LinkRedirect := Some (fun _ => "/linked");
  sr_OnStepUpInitiated := None; sr_CallingUserID := default_caller |}.
Definition at_acme : Context := with_tenant Demo.acme Background.
Definition with_state (x : Context) : Context := with_cookie samlStateCookieSlotName "token" x.
Definition web : world (Web MemAssertionReplayStore) := World (MkWeb {| seen := ∅ |} [] [] fresh_writer) [].
Definition form : SAMLAssertionForm := MkForm "PHhtbC8+" "https://evil".
Definition link_started := LinkStart jwt sp routes at_acme "okta" "alice" web.
Definition linked := ACS jwt crewjam sp routes (with_state at_acme) "okta" form web.
Definition no_redirect : Redirect := MkRedirect "" [].
End ToySaml.

Lemma toy_linked : ToySaml.linked = (Ret (inr (answer_of ToySaml.no_redirect ToySaml.linked)), ToySaml.linked.2).
Proof. apply answer_run. vm_compute. reflexivity. Qed.
Lemma toy_saml_provider : provider ToySaml.routes (ToySaml.with_state ToySaml.at_acme) "okta" ToySaml.web =
  (Ret (inr ToySaml.p), ToySaml.web).
Proof. reflexivity. Qed.


(** The link-start's cookie comes back as the state of the link; the same
    response posted again is refused. *)
Example toy_link :
  map ck_Value (js_Cookies (answer_of (MkJSON 0 (MkLinkStartRes "") []) ToySaml.link_started)) = ["token"] /\
  rd_URL (answer_of ToySaml.no_redirect ToySaml.linked) = "/linked" /\
  refusal (ACS ToySaml.jwt ToySaml.crewjam ToySaml.sp ToySaml.routes (ToySaml.with_state ToySaml.at_acme) "okta"
    ToySaml.form ToySaml.linked.2).1 = Some (ErrBadRequest, Some "SAML_ASSERTION_REPLAYED").
Proof. vm_compute. by split_and!. Qed.

(** A browser that lost the state cookie is refused; it does not fall back to a
    login. *)
Example lost_cookie_is_refused :
  refusal (ACS ToySaml.jwt ToySaml.crewjam ToySaml.sp ToySaml.routes ToySaml.at_acme "okta" ToySaml.form ToySaml.web).1 =
    Some (ErrBadRequest, Some "SAML_ASSERTION_UNCORRELATED").
Proof. vm_compute. reflexivity. Qed.
