(* ===== verification/ScimStore.v ===== *)
(** * The directory ports of SCIM

    [src/scim/store.go]: the neutral records the SCIM transport trades in and
    the two ports an application implements over its own schema, as records
    of operations. A store lives in the application's state [S]; a method gets
    the request context and the tenant the directory belongs to. *)

From S2P Require Import Prelude Tenant World Http ScimPath ScimPatch.

#[local] Open Scope string_scope.
#[local] Open Scope list_scope.

(** ** Users *)

Record Email := MkEmail { em_Value : string; em_Primary : bool; em_Type : string }.

Record UserRecord := MkUserRecord {
  ur_ID : string;
  ur_UserName : string;
  ur_FamilyName : string;
  ur_GivenName : string;
  ur_Emails : list Email;
  ur_Active : bool;
  ur_ExternalID : string;
  ur_Created : time;
  ur_Updated : time
}.

Record UserWrite := MkUserWrite {
  uw_UserName : string;
  uw_FamilyName : string;
  uw_GivenName : string;
  uw_Active : bool;
  uw_ExternalID : string
}.

Record UserPage := MkUserPage { up_Users : list UserRecord; up_Total : Z }.

(** [Before] is nil on a create. *)
Record WriteMeta := MkWriteMeta { wm_IfMatchPresent : bool; wm_Before : option UserRecord }.

Record UserStore (S : Type) := {
  us_Create : Context -> ID -> UserWrite -> WriteMeta -> M S UserRecord;
  us_Get : Context -> ID -> string -> M S UserRecord;
  us_Replace : Context -> ID -> string -> UserWrite -> WriteMeta -> M S UserRecord;
  us_Delete : Context -> ID -> string -> WriteMeta -> M S unit;
  us_SavePatch : Context -> ID -> string -> UserWrite -> list Operation -> M S UserRecord;
  us_ListFiltered : Context -> ID -> Z -> Z -> string -> M S UserPage
}.
Arguments us_Create {_} _ _ _ _ _.
Arguments us_Get {_} _ _ _ _.
Arguments us_Replace {_} _ _ _ _ _ _.
Arguments us_Delete {_} _ _ _ _ _.
Arguments us_SavePatch {_} _ _ _ _ _ _.
Arguments us_ListFiltered {_} _ _ _ _ _ _.

(** ** Groups *)

Record MemberRef := MkMemberRef { mr_Value : string; mr_Type : string }.

Record GroupRecord := MkGroupRecord {
  gr_ID : string;
  gr_DisplayName : string;
  gr_ExternalID : string;
  gr_Members : list MemberRef;
  gr_Created : time;
  gr_Updated : time
}.

Record GroupWrite := MkGroupWrite {
  gw_DisplayName : string;
  gw_ExternalID : string;
  gw_Members : list MemberRef;
  gw_ActorServiceAccountID : string
}.

Record GroupPage := MkGroupPage { gp_Groups : list GroupRecord; gp_Total : Z }.

Record GroupWriteMeta := MkGroupWriteMeta { gm_IfMatchPresent : bool; gm_Before : option GroupRecord }.

Record GroupStore (S : Type) := {
  gs_Create : Context -> ID -> GroupWrite -> GroupWriteMeta -> M S GroupRecord;
  gs_Get : Context -> ID -> string -> M S GroupRecord;
  gs_Replace : Context -> ID -> string -> GroupWrite -> GroupWriteMeta -> M S GroupRecord;
  gs_Delete : Context -> ID -> string -> GroupWriteMeta -> M S unit;
  gs_SavePatch : Context -> ID -> string -> GroupWrite -> list Operation -> M S GroupRecord;
  gs_ValidateMembers : Context -> ID -> list MemberRef -> M S unit;
  gs_ListFiltered : Context -> ID -> Z -> Z -> string -> M S GroupPage
}.
Arguments gs_Create {_} _ _ _ _ _.
Arguments gs_Get {_} _ _ _ _.
Arguments gs_Replace {_} _ _ _ _ _ _.
Arguments gs_Delete {_} _ _ _ _ _.
Arguments gs_SavePatch {_} _ _ _ _ _ _.
Arguments gs_ValidateMembers {_} _ _ _ _.
Arguments gs_ListFiltered {_} _ _ _ _ _ _.

#[export] Instance Email_eq_dec : EqDecision Email.
Proof. solve_decision. Defined.
#[export] Instance UserRecord_eq_dec : EqDecision UserRecord.
Proof. solve_decision. Defined.
#[export] Instance MemberRef_eq_dec : EqDecision MemberRef.
Proof. solve_decision. Defined.
#[export] Instance GroupRecord_eq_dec : EqDecision GroupRecord.
Proof. solve_decision. Defined.

(** ** The view of one tenant

    What a caller bound to one tenant can reach of a store. *)

(** Two stores that show a tenant the same directory. *)
Record same_users {S} (t : ID) (U U' : UserStore S) : Prop := {
  su_Create x wr meta w : us_Create U x t wr meta w = us_Create U' x t wr meta w;
  su_Get x id w : us_Get U x t id w = us_Get U' x t id w;
  su_Replace x id wr meta w : us_Replace U x t id wr meta w = us_Replace U' x t id wr meta w;
  su_Delete x id meta w : us_Delete U x t id meta w = us_Delete U' x t id meta w;
  su_SavePatch x id wr ops w : us_SavePatch U x t id wr ops w = us_SavePatch U' x t id wr ops w;
  su_ListFiltered x start count f w :
    us_ListFiltered U x t start count f w = us_ListFiltered U' x t start count f w
}.
Record same_groups {S} (t : ID) (G G' : GroupStore S) : Prop := {
  sg_Create x wr meta w : gs_Create G x t wr meta w = gs_Create G' x t wr meta w;
  sg_Get x id w : gs_Get G x t id w = gs_Get G' x t id w;
  sg_Replace x id wr meta w : gs_Replace G x t id wr meta w = gs_Replace G' x t id wr meta w;
  sg_Delete x id meta w : gs_Delete G x t id meta w = gs_Delete G' x t id meta w;
  sg_SavePatch x id wr ops w : gs_SavePatch G x t id wr ops w = gs_SavePatch G' x t id wr ops w;
  sg_ValidateMembers x ms w : gs_ValidateMembers G x t ms w = gs_ValidateMembers G' x t ms w;
  sg_ListFiltered x start count f w :
    gs_ListFiltered G x t start count f w = gs_ListFiltered G' x t start count f w
}.
