(* ===== verification/ScimWire.v ===== *)
(** * The wire shapes of the SCIM transport

    [src/espresso/scimdto.go], the body readers and renderers of
    [scimusers.go] and [scimgroups.go], and the two conversions of
    [scimpatch.go] between a typed resource and a map. Decoding a JSON document
    into a struct is written out as [encoding/json] does it; reading the bytes
    of a body into a document is the scanner [Scanner]. *)

From stdpp Require Import pretty.
From S2P Require Import Prelude Bytes Http ScimPath ScimPatch ScimStore.

Set Warnings "-register-all".
#[local] Open Scope string_scope.
#[local] Open Scope list_scope.

(** ** Documents *)

(** A JSON document as it is written: the members of an object in their order,
    repeated names included, each with the text of its value. *)
Inductive doc :=
  | DNull
  | DBool (b : bool)
  | DNumber (text : string)
  | DString (s : string)
  | DArray (l : list doc)
  | DObject (l : list (string * string * doc)).

(** What reading one value from a limited body ends in. *)
Inductive scanned := TooLarge | BadSyntax (e : error) | Scanned (d : doc).

(** [json.NewDecoder(http.MaxBytesReader(w, r.Body, max))] up to the point
    where a value is complete: whether the reader was asked for more than [max]
    bytes, which it may be also when the value was complete before, and the
    outcome. *)
Definition Scanner : Type := Z -> Request -> bool * scanned.

(** [time.Time.Format(time.RFC3339)] in UTC: the civil date of a day count, and
    the time of day. *)
Definition civil (days : Z) : Z * Z * Z :=
  let z := (days + 719468)%Z in
  let era := (z / 146097)%Z in
  let doe := (z mod 146097)%Z in
  let yoe := ((doe - doe / 1460 + doe / 36524 - doe / 146096) / 365)%Z in
  let doy := (doe - (365 * yoe + yoe / 4 - yoe / 100))%Z in
  let mp := ((5 * doy + 2) / 153)%Z in
  let d := (doy - (153 * mp + 2) / 5 + 1)%Z in
  let m := if (mp <? 10)%Z then (mp + 3)%Z else (mp - 9)%Z in
  ((yoe + era * 400 + (if (m <=? 2)%Z then 1 else 0))%Z, m, d).
(** [appendInt(b, n, width)]. *)
Fixpoint zeros (n : nat) : string := match n with O => "" | S n => String "0"%char (zeros n) end.
Definition pad (width : nat) (n : Z) : string :=
  let digits := pretty (Z.abs n) in
  (if (n <? 0)%Z then "-" else "") +:+ zeros (width - String.length digits) +:+ digits.
Definition RFC3339 (t : time) : string :=
  let secs := (t / 10 ^ 9)%Z in
  let '(y, m, d) := civil (secs / 86400)%Z in
  let s := (secs mod 86400)%Z in
  pad 4 y +:+ "-" +:+ pad 2 m +:+ "-" +:+ pad 2 d +:+ "T" +:+
  pad 2 (s / 3600)%Z +:+ ":" +:+ pad 2 (s mod 3600 / 60)%Z +:+ ":" +:+ pad 2 (s mod 60)%Z +:+ "Z".

Example RFC3339_leap : RFC3339 (1709210096 * 10 ^ 9 + 5)%Z = "2024-02-29T12:34:56Z".
Proof. vm_compute. reflexivity. Qed.
Example RFC3339_zero : RFC3339 time_zero = "0001-01-01T00:00:00Z".
Proof. vm_compute. reflexivity. Qed.

(** ** Structs *)

Definition SchemaUser : string := "urn:ietf:params:scim:schemas:core:2.0:User".
Definition SchemaGroup : string := "urn:ietf:params:scim:schemas:core:2.0:Group".
Definition SchemaListResponse : string := "urn:ietf:params:scim:api:messages:2.0:ListResponse".
Definition SchemaServiceProviderConfig : string := "urn:ietf:params:scim:schemas:core:2.0:ServiceProviderConfig".
Definition SchemaResourceType : string := "urn:ietf:params:scim:schemas:core:2.0:ResourceType".

Record UserName := MkUserName { un_Formatted : string; un_FamilyName : string; un_GivenName : string }.
Record ResourceMeta := MkResourceMeta {
  mt_ResourceType : string;
  mt_Created : string;
  mt_LastModified : string;
  mt_Location : string;
  mt_Version : string
}.
(** The fields of an inbound [emails] element are those of the port's. *)
Record UserResource := MkUserResource {
  rs_Schemas : list string;
  rs_ID : string;
  rs_ExternalID : string;
  rs_UserName : string;
  rs_Name : option UserName;
  rs_Emails : list Email;
  rs_Active : bool;
  rs_Meta : ResourceMeta
}.
Record UserCreateOrReplace := MkUserBody {
  ub_Schemas : list string;
  ub_ExternalID : string;
  ub_UserName : string;
  ub_Name : option UserName;
  ub_Emails : list Email;
  ub_Active : option bool
}.
Record GroupMember := MkGroupMember {
  mb_Value : string;
  mb_Ref : string;
  mb_Type : string;
  mb_Display : string
}.
Record GroupResource := MkGroupResource {
  rg_Schemas : list string;
  rg_ID : string;
  rg_ExternalID : string;
  rg_DisplayName : string;
  rg_Members : list GroupMember;
  rg_Meta : ResourceMeta
}.
Record GroupCreateOrReplace := MkGroupBody {
  gb_Schemas : list string;
  gb_ExternalID : string;
  gb_DisplayName : string;
  gb_Members : list GroupMember
}.
(** [scim.Request]. *)
Record PatchRequest := MkPatchRequest { pq_Schemas : list string; pq_Operations : list Operation }.

Definition UserName_zero : UserName := MkUserName "" "" "".
Definition Email_zero : Email := MkEmail "" false "".
Definition ResourceMeta_zero : ResourceMeta := MkResourceMeta "" "" "" "" "".
Definition UserResource_zero : UserResource := MkUserResource [] "" "" "" None [] false ResourceMeta_zero.
Definition UserBody_zero : UserCreateOrReplace := MkUserBody [] "" "" None [] None.
Definition GroupMember_zero : GroupMember := MkGroupMember "" "" "" "".
Definition GroupResource_zero : GroupResource := MkGroupResource [] "" "" "" [] ResourceMeta_zero.
Definition GroupBody_zero : GroupCreateOrReplace := MkGroupBody [] "" "" [].
Definition PatchRequest_zero : PatchRequest := MkPatchRequest [] [].
Definition Operation_zero : Operation := MkOperation (OtherOp "") "" "".

(** ** Writing JSON *)

(** [omitempty] on a slice, a pointer and a bool. *)
Definition omit_list (tag : string) (l : list jv) : list (string * jv) :=
  match l with [] => [] | _ => [(tag, VList l)] end.
Definition omit_opt {A} (tag : string) (f : A -> jv) (x : option A) : list (string * jv) :=
  match x with None => [] | Some x => [(tag, f x)] end.
Definition omit_bool (tag : string) (b : bool) : list (string * jv) := if b then [(tag, VBool b)] else [].

Definition name_json (n : UserName) : jv :=
  VObj (omit_str "formatted" (un_Formatted n) ++ omit_str "familyName" (un_FamilyName n) ++
        omit_str "givenName" (un_GivenName n)).
Definition email_json (e : Email) : jv :=
  VObj (fld "value" (VStr (em_Value e)) ++ omit_bool "primary" (em_Primary e) ++ omit_str "type" (em_Type e)).
Definition meta_json (m : ResourceMeta) : jv :=
  VObj (fld "resourceType" (VStr (mt_ResourceType m)) ++ omit_str "created" (mt_Created m) ++
        omit_str "lastModified" (mt_LastModified m) ++ fld "location" (VStr (mt_Location m)) ++
        omit_str "version" (mt_Version m)).
Definition user_json (u : UserResource) : jv :=
  VObj (fld "schemas" (VList (map VStr (rs_Schemas u))) ++ fld "id" (VStr (rs_ID u)) ++
        omit_str "externalId" (rs_ExternalID u) ++ fld "userName" (VStr (rs_UserName u)) ++
        omit_opt "name" name_json (rs_Name u) ++ omit_list "emails" (map email_json (rs_Emails u)) ++
        fld "active" (VBool (rs_Active u)) ++ fld "meta" (meta_json (rs_Meta u))).
Definition member_json (m : GroupMember) : jv :=
  VObj (fld "value" (VStr (mb_Value m)) ++ omit_str "$ref" (mb_Ref m) ++ omit_str "type" (mb_Type m) ++
        omit_str "display" (mb_Display m)).
Definition group_json (g : GroupResource) : jv :=
  VObj (fld "schemas" (VList (map VStr (rg_Schemas g))) ++ fld "id" (VStr (rg_ID g)) ++
        omit_str "externalId" (rg_ExternalID g) ++ fld "displayName" (VStr (rg_DisplayName g)) ++
        omit_list "members" (map member_json (rg_Members g)) ++ fld "meta" (meta_json (rg_Meta g))).

(** ** Reading JSON

    [None] is a value of the wrong type: [Unmarshal] then returns an error,
    whatever else it has already written. *)

(** The leaves: null leaves a string or bool as it was, makes a pointer or a
    slice nil. Where a slice is decoded into one that is already there, element
    by element, the elements are decoded into the old ones. (A name repeated in
    one object, first with a long array and then a short one and then a long
    one, would bring back elements of the first: not modelled.) *)
Definition as_string (d : doc) (old : string) : option string :=
  match d with DNull => Some old | DString s => Some s | _ => None end.
Definition as_bool (d : doc) (old : bool) : option bool :=
  match d with DNull => Some old | DBool b => Some b | _ => None end.
Definition as_ptr {A} (f : doc -> A -> option A) (zero : A) (d : doc) (old : option A) : option (option A) :=
  match d with DNull => Some None | _ => Some <$> f d (default zero old) end.
Fixpoint decode_elems {A} (f : doc -> A -> option A) (zero : A) (l : list doc) (old : list A) : option (list A) :=
  match l with
  | [] => Some []
  | d :: l =>
      x ← f d (default zero (head old));
      xs ← decode_elems f zero l (tail old);
      Some (x :: xs)
  end.
Definition as_slice {A} (f : doc -> A -> option A) (zero : A) (d : doc) (old : list A) : option (list A) :=
  match d with DNull => Some [] | DArray l => decode_elems f zero l old | _ => None end.

Section Decode.
Context (L : Lib).

(** The field a member goes to: of that name, or else of a name that folds to
    it. *)
Definition field_of (names : list string) (key : string) : option string :=
  if existsb (String.eqb key) names then Some key else List.find (EqualFold L key) names.

Fixpoint decode_members {A} (names : list string) (set : string -> string -> doc -> A -> option A)
    (l : list (string * string * doc)) (a : A) : option A :=
  match l with
  | [] => Some a
  | (k, raw, d) :: l =>
      a ← match field_of names k with Some f => set f raw d a | None => Some a end;
      decode_members names set l a
  end.
Definition decode_struct {A} (names : list string) (set : string -> string -> doc -> A -> option A)
    (d : doc) (a : A) : option A :=
  match d with
  | DNull => Some a
  | DObject l => decode_members names set l a
  | _ => None
  end.

Definition set_name (f raw : string) (d : doc) (a : UserName) : option UserName :=
  if String.eqb f "formatted" then
    s ← as_string d (un_Formatted a); Some (MkUserName s (un_FamilyName a) (un_GivenName a))
  else if String.eqb f "familyName" then
    s ← as_string d (un_FamilyName a); Some (MkUserName (un_Formatted a) s (un_GivenName a))
  else
    s ← as_string d (un_GivenName a); Some (MkUserName (un_Formatted a) (un_FamilyName a) s).
Definition as_name : doc -> UserName -> option UserName :=
  decode_struct ["formatted"; "familyName"; "givenName"] set_name.

Definition set_email (f raw : string) (d : doc) (a : Email) : option Email :=
  if String.eqb f "value" then s ← as_string d (em_Value a); Some (MkEmail s (em_Primary a) (em_Type a))
  else if String.eqb f "primary" then b ← as_bool d (em_Primary a); Some (MkEmail (em_Value a) b (em_Type a))
  else s ← as_string d (em_Type a); Some (MkEmail (em_Value a) (em_Primary a) s).
Definition as_email : doc -> Email -> option Email := decode_struct ["value"; "primary"; "type"] set_email.

Definition set_meta (f raw : string) (d : doc) (a : ResourceMeta) : option ResourceMeta :=
  let '(MkResourceMeta ty cr lm lo ve) := a in
  if String.eqb f "resourceType" then s ← as_string d ty; Some (MkResourceMeta s cr lm lo ve)
  else if String.eqb f "created" then s ← as_string d cr; Some (MkResourceMeta ty s lm lo ve)
  else if String.eqb f "lastModified" then s ← as_string d lm; Some (MkResourceMeta ty cr s lo ve)
  else if String.eqb f "location" then s ← as_string d lo; Some (MkResourceMeta ty cr lm s ve)
  else s ← as_string d ve; Some (MkResourceMeta ty cr lm lo s).
Definition as_meta : doc -> ResourceMeta -> option ResourceMeta :=
  decode_struct ["resourceType"; "created"; "lastModified"; "location"; "version"] set_meta.

Definition as_strings : doc -> list string -> option (list string) := as_slice as_string "".
Definition as_emails : doc -> list Email -> option (list Email) := as_slice as_email Email_zero.

Definition set_user (f raw : string) (d : doc) (a : UserResource) : option UserResource :=
  let '(MkUserResource sc id ex un nm em ac mt) := a in
  if String.eqb f "schemas" then x ← as_strings d sc; Some (MkUserResource x id ex un nm em ac mt)
  else if String.eqb f "id" then x ← as_string d id; Some (MkUserResource sc x ex un nm em ac mt)
  else if String.eqb f "externalId" then x ← as_string d ex; Some (MkUserResource sc id x un nm em ac mt)
  else if String.eqb f "userName" then x ← as_string d un; Some (MkUserResource sc id ex x nm em ac mt)
  else if String.eqb f "name" then x ← as_ptr as_name UserName_zero d nm; Some (MkUserResource sc id ex un x em ac mt)
  else if String.eqb f "emails" then x ← as_emails d em; Some (MkUserResource sc id ex un nm x ac mt)
  else if String.eqb f "active" then x ← as_bool d ac; Some (MkUserResource sc id ex un nm em x mt)
  else x ← as_meta d mt; Some (MkUserResource sc id ex un nm em ac x).
Definition user_fields : list string :=
  ["schemas"; "id"; "externalId"; "userName"; "name"; "emails"; "active"; "meta"].
Definition as_user : doc -> UserResource -> option UserResource := decode_struct user_fields set_user.

Definition set_user_body (f raw : string) (d : doc) (a : UserCreateOrReplace) : option UserCreateOrReplace :=
  let '(MkUserBody sc ex un nm em ac) := a in
  if String.eqb f "schemas" then x ← as_strings d sc; Some (MkUserBody x ex un nm em ac)
  else if String.eqb f "externalId" then x ← as_string d ex; Some (MkUserBody sc x un nm em ac)
  else if String.eqb f "userName" then x ← as_string d un; Some (MkUserBody sc ex x nm em ac)
  else if String.eqb f "name" then x ← as_ptr as_name UserName_zero d nm; Some (MkUserBody sc ex un x em ac)
  else if String.eqb f "emails" then x ← as_emails d em; Some (MkUserBody sc ex un nm x ac)
  else x ← as_ptr as_bool false d ac; Some (MkUserBody sc ex un nm em x).
Definition as_user_body : doc -> UserCreateOrReplace -> option UserCreateOrReplace :=
  decode_struct ["schemas"; "externalId"; "userName"; "name"; "emails"; "active"] set_user_body.

Definition set_member (f raw : string) (d : doc) (a : GroupMember) : option GroupMember :=
  let '(MkGroupMember va re ty di) := a in
  if String.eqb f "value" then s ← as_string d va; Some (MkGroupMember s re ty di)
  else if String.eqb f "$ref" then s ← as_string d re; Some (MkGroupMember va s ty di)
  else if String.eqb f "type" then s ← as_string d ty; Some (MkGroupMember va re s di)
  else s ← as_string d di; Some (MkGroupMember va re ty s).
Definition as_member : doc -> GroupMember -> option GroupMember :=
  decode_struct ["value"; "$ref"; "type"; "display"] set_member.
Definition as_members : doc -> list GroupMember -> option (list GroupMember) := as_slice as_member GroupMember_zero.

Definition set_group (f raw : string) (d : doc) (a : GroupResource) : option GroupResource :=
  let '(MkGroupResource sc id ex dn ms mt) := a in
  if String.eqb f "schemas" then x ← as_strings d sc; Some (MkGroupResource x id ex dn ms mt)
  else if String.eqb f "id" then x ← as_string d id; Some (MkGroupResource sc x ex dn ms mt)
  else if String.eqb f "externalId" then x ← as_string d ex; Some (MkGroupResource sc id x dn ms mt)
  else if String.eqb f "displayName" then x ← as_string d dn; Some (MkGroupResource sc id ex x ms mt)
  else if String.eqb f "members" then x ← as_members d ms; Some (MkGroupResource sc id ex dn x mt)
  else x ← as_meta d mt; Some (MkGroupResource sc id ex dn ms x).
Definition group_fields : list string := ["schemas"; "id"; "externalId"; "displayName"; "members"; "meta"].
Definition as_group : doc -> GroupResource -> option GroupResource := decode_struct group_fields set_group.

Definition set_group_body (f raw : string) (d : doc) (a : GroupCreateOrReplace) : option GroupCreateOrReplace :=
  let '(MkGroupBody sc ex dn ms) := a in
  if String.eqb f "schemas" then x ← as_strings d sc; Some (MkGroupBody x ex dn ms)
  else if String.eqb f "externalId" then x ← as_string d ex; Some (MkGroupBody sc x dn ms)
  else if String.eqb f "displayName" then x ← as_string d dn; Some (MkGroupBody sc ex x ms)
  else x ← as_members d ms; Some (MkGroupBody sc ex dn x).
Definition as_group_body : doc -> GroupCreateOrReplace -> option GroupCreateOrReplace :=
  decode_struct ["schemas"; "externalId"; "displayName"; "members"] set_group_body.

(** [Operation.UnmarshalJSON]: decodes into a fresh [rawOp], lowercases [op]
    and overwrites the receiver. [Value] is a [json.RawMessage], the text of the
    member. *)
Definition rawOp : Type := string * string * string.
Definition set_op (f raw : string) (d : doc) (a : rawOp) : option rawOp :=
  let '(op, path, value) := a in
  if String.eqb f "op" then s ← as_string d op; Some (s, path, value)
  else if String.eqb f "path" then s ← as_string d path; Some (op, s, value)
  else Some (op, path, raw).
Definition UnmarshalJSON (d : doc) (o : Operation) : option Operation :=
  raw ← decode_struct ["op"; "path"; "value"] set_op d ("", "", "");
  let '(op, path, value) := raw in Some (MkOperation (UnmarshalOp L op) path value).

Definition set_request (f raw : string) (d : doc) (a : PatchRequest) : option PatchRequest :=
  if String.eqb f "schemas" then x ← as_strings d (pq_Schemas a); Some (MkPatchRequest x (pq_Operations a))
  else x ← as_slice UnmarshalJSON Operation_zero d (pq_Operations a); Some (MkPatchRequest (pq_Schemas a) x).
Definition as_request : doc -> PatchRequest -> option PatchRequest :=
  decode_struct ["schemas"; "Operations"] set_request.
End Decode.

(** ** Between a resource and a map (scimpatch.go) *)

Section Convert.
Context (L : Lib).
(** What [encoding/json] makes of a string: the string, each byte that is not
    UTF-8 replaced. *)
Context (utf8 : string -> string).

(** [json.Unmarshal] into [any] of what [json.Marshal] wrote. (No resource holds
    an integer.) *)
Fixpoint decode_any (v : jv) : json :=
  match v with
  | VNull => JNull
  | VBool b => JBool b
  | VInt n => JNumber (pretty n)
  | VStr s => JString (utf8 s)
  | VList l => JArray (map decode_any l)
  | VObj fields => JObject (fold_left (fun m kv => <[kv.1 := decode_any kv.2]> m) fields ∅)
  | VRaw raw => default JNull (lib_Unmarshal L (String.string_of_list_ascii raw))
  end.

(** [json.Marshal] of a decoded value, as the document it writes: the members
    of a map in the order of their names. No member of a resource is a
    [json.RawMessage], so the texts do not matter. (A resource nested beyond
    [encoding/json]'s 10000 levels is not modelled.) *)
Definition member_key (f : string * string * doc) : list string := [f.1.1].
Fixpoint of_json (v : json) : doc :=
  match v with
  | JNull => DNull
  | JBool b => DBool b
  | JNumber t | JInteger t => DNumber t
  | JString s => DString s
  | JArray l => DArray (map of_json l)
  | JObject m => DObject (sort_by member_key (map_fold (fun k v acc => (k, "", of_json v) :: acc) [] m))
  end.

Definition json_error : error := AppError "encoding/json".
Definition resourceToMap (v : jv) : go object :=
  match decode_any v with JObject m => Ret m | _ => Fail json_error end.
Definition mapToResource {A} (as_ : doc -> A -> option A) (m : object) (out : A) : go A :=
  match as_ (of_json (JObject m)) out with Some a => Ret a | None => Fail json_error end.

Definition patched (m : object) (ops : list Operation) : go object :=
  match Apply L (Some m) ops with
  | (Ret tt, m') => Ret (default ∅ m')
  | (Fail e, _) => Fail e
  | (Panic why, _) => Panic why
  end.
Definition applyToUserResource (current : UserResource) (ops : list Operation) : go UserResource :=
  m ← resourceToMap (user_json current);
  m ← patched m ops;
  mapToResource (as_user L) m UserResource_zero.
Definition applyToGroupResource (current : GroupResource) (ops : list Operation) : go GroupResource :=
  m ← resourceToMap (group_json current);
  m ← patched m ops;
  mapToResource (as_group L) m GroupResource_zero.
End Convert.

(** ** Records and bodies (scimusers.go, scimgroups.go) *)

Definition version_of (updated : time) (created : string) : string :=
  let version := ResourceETag updated in
  if String.eqb version "" then "W/" +:+ String "034"%char (created +:+ String "034"%char "") else version.

Definition userRecordToResource (rec : UserRecord) (baseURL prefix : string) : UserResource :=
  let created := RFC3339 (ur_Created rec) in
  let lastModified := if IsZero_time (ur_Updated rec) then created else RFC3339 (ur_Updated rec) in
  let name :=
    if negb (String.eqb (ur_FamilyName rec) "") || negb (String.eqb (ur_GivenName rec) "") then
      Some (MkUserName
        (if negb (String.eqb (ur_FamilyName rec) "") && negb (String.eqb (ur_GivenName rec) "")
         then ur_GivenName rec +:+ " " +:+ ur_FamilyName rec else "")
        (ur_FamilyName rec) (ur_GivenName rec))
    else None in
  MkUserResource [SchemaUser] (ur_ID rec) (ur_ExternalID rec) (ur_UserName rec) name (ur_Emails rec)
    (ur_Active rec)
    (MkResourceMeta "User" created lastModified (baseURL +:+ prefix +:+ "/Users/" +:+ ur_ID rec)
       (version_of (ur_Updated rec) created)).

Definition member_ref (baseURL prefix : string) (m : MemberRef) : GroupMember :=
  MkGroupMember (mr_Value m)
    (if String.eqb (mr_Type m) "Group" then baseURL +:+ prefix +:+ "/Groups/" +:+ mr_Value m
     else baseURL +:+ prefix +:+ "/Users/" +:+ mr_Value m)
    (mr_Type m) "".
Definition groupRecordToResource (rec : GroupRecord) (baseURL prefix : string) : GroupResource :=
  let created := RFC3339 (gr_Created rec) in
  let lastModified := if IsZero_time (gr_Updated rec) then created else RFC3339 (gr_Updated rec) in
  MkGroupResource [SchemaGroup] (gr_ID rec) (gr_ExternalID rec) (gr_DisplayName rec)
    (map (member_ref baseURL prefix) (gr_Members rec))
    (MkResourceMeta "Group" created lastModified (baseURL +:+ prefix +:+ "/Groups/" +:+ gr_ID rec)
       (version_of (gr_Updated rec) created)).

Fixpoint first_email (l : list Email) : string :=
  match l with
  | [] => ""
  | e :: l => let v := trim_space (em_Value e) in if negb (String.eqb v "") then v else first_email l
  end.
Definition pickSCIMUserName (body : UserCreateOrReplace) : string :=
  let v := trim_space (ub_UserName body) in
  if negb (String.eqb v "") then v else first_email (ub_Emails body).
Definition pickSCIMNameParts (body : UserCreateOrReplace) : string * string :=
  match ub_Name body with
  | None => ("", "")
  | Some n => (trim_space (un_FamilyName n), trim_space (un_GivenName n))
  end.
Definition groupMemberRefs (members : list GroupMember) : list MemberRef :=
  map (fun m => MkMemberRef (mb_Value m) (mb_Type m)) members.

Definition scimTrailingSegment (p : string) : string :=
  match last_index_byte "/"%char p with Some i => string_drop (i + 1) p | None => p end.
