(* ===== verification/WebScim.v ===== *)
(** * The SCIM transport

    [src/espresso/scimroutes.go], [scimusers.go], [scimgroups.go],
    [scimpatch.go], [scimlist.go] and the decode error of [scimerror.go]: the
    thirteen handlers over the ports of [ScimStore], every one a [Handler].
    The tenant a handler hands to a port is [scimTenant], read off the
    validated principal. *)

From stdpp Require Import pretty.
From S2P Require Import Prelude Tenant Bytes World Http WebAuth WebGates ScimPath ScimPatch ScimStore ScimWire.

#[local] Open Scope string_scope.
#[local] Open Scope list_scope.
#[local] Open Scope Z_scope.

(** ** Configuration *)

Record SCIMConfig := MkSCIMConfig {
  cf_Prefix : string;
  cf_BaseURL : string;
  cf_BaseURLForTenant : option (string -> string);
  cf_BulkMaxOperations : Z;
  cf_MaxResults : Z;
  cf_MaxPayloadBytes : Z;
  cf_DocumentationURI : string;
  cf_AuthSchemeDescription : string
}.
Record SCIMRoutes (S : Type) := MkSCIMRoutes {
  rt_cfg : SCIMConfig;
  rt_users : UserStore S;
  rt_groups : GroupStore S
}.
Arguments MkSCIMRoutes {_} _ _ _.
Arguments rt_cfg {_} _.
Arguments rt_users {_} _.
Arguments rt_groups {_} _.

Definition defaultSCIMMaxPayloadBytes : Z := 2 ^ 20.
Definition with_max_payload (n : Z) (c : SCIMConfig) : SCIMConfig :=
  MkSCIMConfig (cf_Prefix c) (cf_BaseURL c) (cf_BaseURLForTenant c) (cf_BulkMaxOperations c) (cf_MaxResults c)
    n (cf_DocumentationURI c) (cf_AuthSchemeDescription c).
Definition NewSCIMRoutes {S} (cfg : SCIMConfig) (users : option (UserStore S)) (groups : option (GroupStore S))
    : go (SCIMRoutes S) :=
  if String.eqb (cf_Prefix cfg) "" then Fail (Errorf0 "SCIMConfig.Prefix is required")
  else if cf_MaxResults cfg <=? 0 then Fail (Errorf0 "SCIMConfig.MaxResults must be positive")
  else match users, groups with
  | None, _ => Fail (Errorf0 "SCIMConfig requires a UserStore")
  | _, None => Fail (Errorf0 "SCIMConfig requires a GroupStore")
  | Some users, Some groups =>
      let cfg := if cf_MaxPayloadBytes cfg <=? 0 then with_max_payload defaultSCIMMaxPayloadBytes cfg else cfg in
      Ret (MkSCIMRoutes cfg users groups)
  end.

Definition scimTenant (x : Context) : go ID :=
  _ ← MustGetPrincipal x; Ret (default ID_zero (tenantOfPrincipal x)).

Definition ResolveBaseURL (r : Request) (override : string) : string :=
  if negb (String.eqb override "") then override
  else
    let proto := Header_Get (r_Header r) "X-Forwarded-Proto" in
    let scheme := if negb (String.eqb proto "") then proto else if r_TLS r then "https" else "http" in
    let hf := Header_Get (r_Header r) "X-Forwarded-Host" in
    let host := if negb (String.eqb hf "") then hf else r_Host r in
    scheme +:+ "://" +:+ host.
Definition baseURL (cfg : SCIMConfig) (r : Request) : string :=
  let fallback := ResolveBaseURL r (cf_BaseURL cfg) in
  match cf_BaseURLForTenant cfg, GetPrincipal (r_ctx r) with
  | Some f, Some p => let u := f (pp_TenantID p) in if negb (String.eqb u "") then u else fallback
  | _, _ => fallback
  end.

(** ** Pages (scimlist.go) *)

(** [strconv.Atoi]: an optional sign and decimal digits, within int64. *)
Fixpoint digits_value (acc : Z) (s : bytes) : option Z :=
  match s with
  | [] => Some acc
  | c :: s =>
      if (48 <=? byte_of c)%N && (byte_of c <=? 57)%N then digits_value (acc * 10 + Z.of_N (byte_of c - 48)) s
      else None
  end.
Definition Atoi (s : string) : option Z :=
  let '(sign, ds) :=
    match to_bytes s with
    | c :: ds => if Ascii.eqb c "-" then (-1, ds) else if Ascii.eqb c "+" then (1, ds) else (1, c :: ds)
    | [] => (1, [])
    end in
  match ds with
  | [] => None
  | _ =>
      n ← digits_value 0 ds;
      let n := sign * n in
      if (- 2 ^ 63 <=? n) && (n <? 2 ^ 63) then Some n else None
  end.

Definition firstQueryValue (q : gmap string (list string)) (key : string) : string :=
  match q !! key with Some (v :: _) => v | _ => "" end.
Definition parsePagination (cfg : SCIMConfig) (q : gmap string (list string)) : Z * Z :=
  let startIndex :=
    let v := firstQueryValue q "startIndex" in
    if negb (String.eqb v "") then
      match Atoi v with Some n => if 1 <=? n then n else 1 | None => 1 end
    else 1 in
  let count :=
    let v := firstQueryValue q "count" in
    if negb (String.eqb v "") then
      match Atoi v with
      | Some n =>
          let n := if n <? 0 then 0 else n in
          if cf_MaxResults cfg <? n then cf_MaxResults cfg else n
      | None => 20
      end
    else 20 in
  (startIndex, count).

Definition list_response (total startIndex : Z) (resources : list jv) : jv :=
  VObj (fld "schemas" (VList [VStr SchemaListResponse]) ++ fld "totalResults" (VInt total) ++
        fld "startIndex" (VInt startIndex) ++ fld "itemsPerPage" (VInt (Z.of_nat (length resources))) ++
        fld "Resources" (VList resources)).

(** ** Discovery *)

Definition supported (b : bool) : jv := VObj (fld "supported" (VBool b)).
Definition ServiceProviderConfig_json (cfg : SCIMConfig) (base : string) : jv :=
  VObj (fld "schemas" (VList [VStr SchemaServiceProviderConfig]) ++
        fld "documentationUri" (VStr (cf_DocumentationURI cfg)) ++
        fld "patch" (supported true) ++
        fld "bulk" (VObj (fld "supported" (VBool true) ++ fld "maxOperations" (VInt (cf_BulkMaxOperations cfg)) ++
                          fld "maxPayloadSize" (VInt (cf_MaxPayloadBytes cfg)))) ++
        fld "filter" (VObj (fld "supported" (VBool true) ++ fld "maxResults" (VInt (cf_MaxResults cfg)))) ++
        fld "changePassword" (supported false) ++ fld "sort" (supported false) ++ fld "etag" (supported true) ++
        fld "authenticationSchemes"
          (VList [VObj (fld "type" (VStr "oauthbearertoken") ++ fld "name" (VStr "OAuth Bearer Token") ++
                        fld "description" (VStr (cf_AuthSchemeDescription cfg)) ++ fld "primary" (VBool true))]) ++
        fld "meta" (meta_json (MkResourceMeta "ServiceProviderConfig" "" ""
          (base +:+ cf_Prefix cfg +:+ "/ServiceProviderConfig") ""))).

Definition resource_type (id endpoint schema : string) : jv :=
  VObj (fld "schemas" (VList [VStr SchemaResourceType]) ++ fld "id" (VStr id) ++ fld "name" (VStr id) ++
        fld "endpoint" (VStr endpoint) ++ fld "schema" (VStr schema)).
Definition resource_types : list jv :=
  [resource_type "User" "/Users" SchemaUser; resource_type "Group" "/Groups" SchemaGroup].

(** A [map[string]any] is written in the order of its keys. *)
Definition map_json (l : list (string * jv)) : jv := VObj (sort_by (fun kv => [kv.1]) l).
Definition schema_attr (name type : string) (multiValued required : bool) (more : list (string * jv))
    (mutability : string) : list (string * jv) :=
  [("name", VStr name); ("type", VStr type); ("multiValued", VBool multiValued); ("required", VBool required);
   ("mutability", VStr mutability); ("returned", VStr "default")] ++ more.
Definition attribute (name type : string) (multiValued required : bool) (more : list (string * jv)) : jv :=
  map_json (schema_attr name type multiValued required more "readWrite").
Definition sub_attribute (name type : string) (required : bool) (mutability : string) (more : list (string * jv)) : jv :=
  map_json ([("name", VStr name); ("type", VStr type); ("required", VBool required);
    ("mutability", VStr mutability); ("returned", VStr "default")] ++ more).
Definition schema_meta (schema : string) : jv :=
  map_json [("resourceType", VStr "Schema"); ("location", VStr ("/scim/v2/Schemas/" +:+ schema))].

Definition userSchemaResource : jv :=
  map_json
    [("id", VStr SchemaUser); ("name", VStr "User");
     ("description", VStr "Barista SCIM 2.0 User resource (minimal).");
     ("attributes", VList
       [attribute "userName" "string" false true [("caseExact", VBool false); ("uniqueness", VStr "server")];
        attribute "externalId" "string" false false [("caseExact", VBool true); ("uniqueness", VStr "none")];
        attribute "active" "boolean" false false [];
        attribute "emails" "complex" true false []]);
     ("meta", schema_meta SchemaUser)].
Definition groupSchemaResource : jv :=
  map_json
    [("id", VStr SchemaGroup); ("name", VStr "Group");
     ("description", VStr "Barista SCIM 2.0 Group resource (minimal).");
     ("attributes", VList
       [attribute "displayName" "string" false true [("uniqueness", VStr "server")];
        attribute "externalId" "string" false false [("caseExact", VBool true); ("uniqueness", VStr "none")];
        attribute "members" "complex" true false
          [("subAttributes", VList
             [sub_attribute "type" "string" false "readWrite"
                [("caseExact", VBool false); ("canonicalValues", VList [VStr "User"; VStr "Group"])];
              sub_attribute "value" "string" true "readWrite" [];
              sub_attribute "$ref" "reference" false "readOnly" []])]]);
     ("meta", schema_meta SchemaGroup)].

(** ** Errors *)

Inductive decode_error := MaxBytesError (limit : Z) | OtherDecodeError (e : error).

Definition SCIMTypeUniqueness : string := "uniqueness".
Definition SCIMTypeInvalidValue : string := "invalidValue".
Definition SCIMTypeInvalidFilter : string := "invalidFilter".
Definition SCIMTypeInvalidPath : string := "invalidPath".
Definition SCIMTypeInvalidSyntax : string := "invalidSyntax".

Section Routes.
(** The PATCH library, [encoding/json]'s strings, an error's text, the body
    scanner. *)
Context (L : Lib) (utf8 : string -> string) (text : error -> string) (scan : Scanner).
Context {S : Type}.
Local Abbreviation MW := (M (Web S)).
Local Abbreviation Handler := (Handler S).

Definition WriteSCIMJSON (status : Z) (body : jv) : MW unit :=
  header_Set "Content-Type" ContentTypeSCIM;;
  WriteHeader status;;
  encode_body body.

Definition internal_error : MW unit := WriteSCIMErrorTyped 500 "internal error" "".
Definition writeSCIMDecodeError (err : decode_error) : MW unit :=
  match err with
  | MaxBytesError limit =>
      WriteSCIMErrorTyped 413 ("request body exceeds the " +:+ pretty limit +:+ "-byte limit") ""
  | OtherDecodeError e => WriteSCIMErrorTyped 400 (text e) SCIMTypeInvalidSyntax
  end.

(** An error with an [Unwrap() []error] wraps several: the last is the
    application's own. *)
Definition scimStoreDetail (err : error) : string :=
  match err with
  | Errorf2 _ _ orig => text orig
  | _ => text err
  end.
Definition writeUserStoreErr (err : error) : MW unit :=
  if errors_is err scim_ErrNotFound then WriteSCIMErrorTyped 404 "user not found" ""
  else if errors_is err scim_ErrConflict then WriteSCIMErrorTyped 409 (scimStoreDetail err) SCIMTypeUniqueness
  else if errors_is err scim_ErrInvalidInput then WriteSCIMErrorTyped 400 (scimStoreDetail err) SCIMTypeInvalidValue
  else internal_error.
Definition writeGroupStoreErr (err : error) : MW unit :=
  if errors_is err scim_ErrCyclicGroup then
    WriteSCIMErrorTyped 400 ("CIRCULAR_GROUP_REFERENCE: " +:+ text err) SCIMTypeInvalidValue
  else if errors_is err scim_ErrNotFound then WriteSCIMErrorTyped 404 "group not found" ""
  else if errors_is err scim_ErrConflict then WriteSCIMErrorTyped 409 (scimStoreDetail err) SCIMTypeUniqueness
  else if errors_is err scim_ErrInvalidInput then WriteSCIMErrorTyped 400 (scimStoreDetail err) SCIMTypeInvalidValue
  else internal_error.
Definition writeListErr (err : error) : MW unit :=
  if errors_is err scim_ErrInvalidFilter then WriteSCIMErrorTyped 400 (scimStoreDetail err) SCIMTypeInvalidFilter
  else internal_error.
Definition writePatchApplyError (err : error) : MW unit :=
  if errors_is err scim_ErrInvalidPath then WriteSCIMErrorTyped 400 (text err) SCIMTypeInvalidPath
  else if errors_is err scim_ErrInvalidValue then WriteSCIMErrorTyped 400 (text err) SCIMTypeInvalidValue
  else internal_error.
Definition precondition_failed : MW unit := WriteSCIMErrorTyped 412 "If-Match precondition failed" "".
Definition user_not_found : MW unit := WriteSCIMErrorTyped 404 "user not found" "".
Definition group_not_found : MW unit := WriteSCIMErrorTyped 404 "group not found" "".

(** ** Bodies *)

(** [requestTooLarge]: net/http's own writer will close the connection and
    says so while the header can still be changed; a wrapped writer does not
    hear of it. *)
Definition limit_hit : MW unit := on_writer (fun wr =>
  match wr_captures wr, wr_sent wr with
  | [], None => wr_set_header (fun h => Header_Set h "Connection" "close") wr
  | _, _ => wr
  end).
Definition read_body {A} (as_ : doc -> A -> option A) (zero : A) (maxBytes : Z) (r : Request)
    : MW (decode_error + A) :=
  let '(hit, res) := scan maxBytes r in
  (if (hit : bool) then limit_hit else mret tt);;
  mret match res with
  | TooLarge => inl (MaxBytesError maxBytes)
  | BadSyntax e => inl (OtherDecodeError e)
  | Scanned d => match as_ d zero with Some a => inr a | None => inl (OtherDecodeError json_error) end
  end.
Definition readSCIMUserBody : Z -> Request -> MW (decode_error + UserCreateOrReplace) :=
  read_body (as_user_body L) UserBody_zero.
Definition readSCIMGroupBody : Z -> Request -> MW (decode_error + GroupCreateOrReplace) :=
  read_body (as_group_body L) GroupBody_zero.
Definition decodeSCIMPatch : Z -> Request -> MW (decode_error + PatchRequest) :=
  read_body (as_request L) PatchRequest_zero.

(** A body that was read, or the answer to one that was not. *)
Definition with_body {A} (m : MW (decode_error + A)) (k : A -> MW unit) : MW unit :=
  res ← m; match res with inl err => writeSCIMDecodeError err | inr body => k body end.
(** A call of the store, its error handled by [on_err]. *)
Definition asking {A} (m : M S A) (on_err : error -> MW unit) (k : A -> MW unit) : MW unit :=
  try_catch (call_app m) on_err k.

(** ** The tenant a port is called with

    One helper per method of a port the transport calls. *)

Context (rt : SCIMRoutes S).
Local Abbreviation cfg := (rt_cfg rt).

Definition userCreate (x : Context) (wr : UserWrite) (meta : WriteMeta) : M S UserRecord :=
  t ← lift (scimTenant x); us_Create (rt_users rt) x t wr meta.
Definition userGet (x : Context) (id : string) : M S UserRecord :=
  t ← lift (scimTenant x); us_Get (rt_users rt) x t id.
Definition userReplace (x : Context) (id : string) (wr : UserWrite) (meta : WriteMeta) : M S UserRecord :=
  t ← lift (scimTenant x); us_Replace (rt_users rt) x t id wr meta.
Definition userDelete (x : Context) (id : string) (meta : WriteMeta) : M S unit :=
  t ← lift (scimTenant x); us_Delete (rt_users rt) x t id meta.
Definition userSavePatch (x : Context) (id : string) (wr : UserWrite) (ops : list Operation) : M S UserRecord :=
  t ← lift (scimTenant x); us_SavePatch (rt_users rt) x t id wr ops.
Definition userListFiltered (x : Context) (startIndex count : Z) (filter : string) : M S UserPage :=
  t ← lift (scimTenant x); us_ListFiltered (rt_users rt) x t startIndex count filter.
Definition groupCreate (x : Context) (wr : GroupWrite) (meta : GroupWriteMeta) : M S GroupRecord :=
  t ← lift (scimTenant x); gs_Create (rt_groups rt) x t wr meta.
Definition groupGet (x : Context) (id : string) : M S GroupRecord :=
  t ← lift (scimTenant x); gs_Get (rt_groups rt) x t id.
Definition groupReplace (x : Context) (id : string) (wr : GroupWrite) (meta : GroupWriteMeta) : M S GroupRecord :=
  t ← lift (scimTenant x); gs_Replace (rt_groups rt) x t id wr meta.
Definition groupDelete (x : Context) (id : string) (meta : GroupWriteMeta) : M S unit :=
  t ← lift (scimTenant x); gs_Delete (rt_groups rt) x t id meta.
Definition groupSavePatch (x : Context) (id : string) (wr : GroupWrite) (ops : list Operation) : M S GroupRecord :=
  t ← lift (scimTenant x); gs_SavePatch (rt_groups rt) x t id wr ops.
Definition groupValidateMembers (x : Context) (members : list MemberRef) : M S unit :=
  t ← lift (scimTenant x); gs_ValidateMembers (rt_groups rt) x t members.
Definition groupListFiltered (x : Context) (startIndex count : Z) (filter : string) : M S GroupPage :=
  t ← lift (scimTenant x); gs_ListFiltered (rt_groups rt) x t startIndex count filter.

(** ** Discovery endpoints *)

Definition ServiceProviderConfig : Handler := fun r =>
  WriteSCIMJSON 200 (ServiceProviderConfig_json cfg (baseURL cfg r)).
Definition ResourceTypes : Handler := fun _ =>
  WriteSCIMJSON 200 (list_response 2 1 resource_types).
Definition Schemas : Handler := fun _ =>
  WriteSCIMJSON 200 (list_response 2 1 [userSchemaResource; groupSchemaResource]).

(** ** Users *)

Definition user_body_of (rec : UserRecord) (r : Request) : jv :=
  user_json (userRecordToResource rec (baseURL cfg r) (cf_Prefix cfg)).
Definition user_write (body : UserCreateOrReplace) (userName : string) (default_active : bool) : UserWrite :=
  let '(familyName, givenName) := pickSCIMNameParts body in
  MkUserWrite userName familyName givenName (default default_active (ub_Active body)) (ub_ExternalID body).
Definition if_match_present (r : Request) : bool := negb (String.eqb (Header_Get (r_Header r) "If-Match") "").

Definition UsersCreate : Handler := fun r =>
  with_body (readSCIMUserBody (cf_MaxPayloadBytes cfg) r) (fun body =>
    let userName := pickSCIMUserName body in
    if String.eqb userName "" then WriteSCIMErrorTyped 400 "userName is required" SCIMTypeInvalidValue
    else
      asking (userCreate (r_ctx r) (user_write body userName true) (MkWriteMeta false None)) writeUserStoreErr (fun rec =>
        header_Set "Location" (baseURL cfg r +:+ cf_Prefix cfg +:+ "/Users/" +:+ ur_ID rec);;
        WriteETagHeader (ResourceETag (ur_Updated rec));;
        WriteSCIMJSON 201 (user_body_of rec r))).

Definition UsersGet : Handler := fun r =>
  let id := scimTrailingSegment (r_Path r) in
  if String.eqb id "" then user_not_found
  else
    asking (userGet (r_ctx r) id) writeUserStoreErr (fun rec =>
      WriteETagHeader (ResourceETag (ur_Updated rec));;
      WriteSCIMJSON 200 (user_body_of rec r)).

Definition UsersReplace : Handler := fun r =>
  let id := scimTrailingSegment (r_Path r) in
  if String.eqb id "" then user_not_found
  else
    with_body (readSCIMUserBody (cf_MaxPayloadBytes cfg) r) (fun body =>
      let userName := pickSCIMUserName body in
      if String.eqb userName "" then WriteSCIMErrorTyped 400 "userName is required" SCIMTypeInvalidValue
      else
        asking (userGet (r_ctx r) id) writeUserStoreErr (fun before =>
          if negb (CheckIfMatch r (ResourceETag (ur_Updated before))) then precondition_failed
          else
            asking (userReplace (r_ctx r) id (user_write body userName false)
                      (MkWriteMeta (if_match_present r) (Some before))) writeUserStoreErr (fun rec =>
              WriteETagHeader (ResourceETag (ur_Updated rec));;
              WriteSCIMJSON 200 (user_body_of rec r)))).

Definition UsersDelete : Handler := fun r =>
  let id := scimTrailingSegment (r_Path r) in
  if String.eqb id "" then user_not_found
  else
    asking (userGet (r_ctx r) id) writeUserStoreErr (fun before =>
      if negb (CheckIfMatch r (ResourceETag (ur_Updated before))) then precondition_failed
      else
        asking (userDelete (r_ctx r) id (MkWriteMeta (if_match_present r) (Some before))) writeUserStoreErr (fun _ =>
          WriteHeader 204)).

Definition operations_required : MW unit :=
  WriteSCIMErrorTyped 400 "Operations is required and must be non-empty" SCIMTypeInvalidValue.

Definition UsersPatch : Handler := fun r =>
  let id := scimTrailingSegment (r_Path r) in
  if String.eqb id "" then user_not_found
  else
    asking (userGet (r_ctx r) id) writeUserStoreErr (fun rec =>
      let current := userRecordToResource rec (baseURL cfg r) (cf_Prefix cfg) in
      if negb (CheckIfMatch r (ResourceETag (ur_Updated rec))) then precondition_failed
      else
        with_body (decodeSCIMPatch (cf_MaxPayloadBytes cfg) r) (fun req =>
          if bool_decide (pq_Operations req = []) then operations_required
          else
            try_catch (lift (applyToUserResource L utf8 current (pq_Operations req))) writePatchApplyError (fun patched =>
              asking (userSavePatch (r_ctx r) id
                        (MkUserWrite (rs_UserName patched) "" "" (rs_Active patched) (rs_ExternalID patched))
                        (pq_Operations req)) writeUserStoreErr (fun saved =>
                WriteETagHeader (ResourceETag (ur_Updated saved));;
                WriteSCIMJSON 200 (user_body_of saved r))))).

Definition UsersList : Handler := fun r =>
  let '(startIndex, count) := parsePagination cfg (r_Query r) in
  asking (userListFiltered (r_ctx r) startIndex count (firstQueryValue (r_Query r) "filter")) writeListErr (fun page =>
    WriteSCIMJSON 200 (list_response (up_Total page) startIndex (map (fun rec => user_body_of rec r) (up_Users page)))).

(** ** Groups *)

Definition group_body_of (rec : GroupRecord) (r : Request) : jv :=
  group_json (groupRecordToResource rec (baseURL cfg r) (cf_Prefix cfg)).
Definition principal_id (x : Context) : go string := p ← MustGetPrincipal x; Ret (pp_ID p).
Definition group_write (body : GroupCreateOrReplace) (displayName actor : string) : GroupWrite :=
  MkGroupWrite displayName (gb_ExternalID body) (groupMemberRefs (gb_Members body)) actor.

Definition GroupsCreate : Handler := fun r =>
  with_body (readSCIMGroupBody (cf_MaxPayloadBytes cfg) r) (fun body =>
    let displayName := trim_space (gb_DisplayName body) in
    if String.eqb displayName "" then WriteSCIMErrorTyped 400 "displayName is required" SCIMTypeInvalidValue
    else
      actor ← lift (principal_id (r_ctx r));
      asking (groupCreate (r_ctx r) (group_write body displayName actor) (MkGroupWriteMeta false None))
        writeGroupStoreErr (fun rec =>
        header_Set "Location" (baseURL cfg r +:+ cf_Prefix cfg +:+ "/Groups/" +:+ gr_ID rec);;
        WriteETagHeader (ResourceETag (gr_Updated rec));;
        WriteSCIMJSON 201 (group_body_of rec r))).

Definition GroupsGet : Handler := fun r =>
  let id := scimTrailingSegment (r_Path r) in
  if String.eqb id "" then group_not_found
  else
    asking (groupGet (r_ctx r) id) writeGroupStoreErr (fun rec =>
      WriteETagHeader (ResourceETag (gr_Updated rec));;
      WriteSCIMJSON 200 (group_body_of rec r)).

Definition GroupsReplace : Handler := fun r =>
  let id := scimTrailingSegment (r_Path r) in
  if String.eqb id "" then group_not_found
  else
    with_body (readSCIMGroupBody (cf_MaxPayloadBytes cfg) r) (fun body =>
      let displayName := trim_space (gb_DisplayName body) in
      if String.eqb displayName "" then WriteSCIMErrorTyped 400 "displayName is required" SCIMTypeInvalidValue
      else
        asking (groupValidateMembers (r_ctx r) (groupMemberRefs (gb_Members body))) writeGroupStoreErr (fun _ =>
          asking (groupGet (r_ctx r) id) writeGroupStoreErr (fun before =>
            if negb (CheckIfMatch r (ResourceETag (gr_Updated before))) then precondition_failed
            else
              actor ← lift (principal_id (r_ctx r));
              asking (groupReplace (r_ctx r) id (group_write body displayName actor)
                        (MkGroupWriteMeta (if_match_present r) (Some before))) writeGroupStoreErr (fun rec =>
                WriteETagHeader (ResourceETag (gr_Updated rec));;
                WriteSCIMJSON 200 (group_body_of rec r))))).

Definition GroupsDelete : Handler := fun r =>
  let id := scimTrailingSegment (r_Path r) in
  if String.eqb id "" then group_not_found
  else
    asking (groupGet (r_ctx r) id) writeGroupStoreErr (fun before =>
      if negb (CheckIfMatch r (ResourceETag (gr_Updated before))) then precondition_failed
      else
        asking (groupDelete (r_ctx r) id (MkGroupWriteMeta (if_match_present r) (Some before))) writeGroupStoreErr
          (fun _ => WriteHeader 204)).

Definition GroupsPatch : Handler := fun r =>
  let id := scimTrailingSegment (r_Path r) in
  if String.eqb id "" then group_not_found
  else
    asking (groupGet (r_ctx r) id) writeGroupStoreErr (fun rec =>
      let current := groupRecordToResource rec (baseURL cfg r) (cf_Prefix cfg) in
      if negb (CheckIfMatch r (ResourceETag (gr_Updated rec))) then precondition_failed
      else
        with_body (decodeSCIMPatch (cf_MaxPayloadBytes cfg) r) (fun req =>
          if bool_decide (pq_Operations req = []) then operations_required
          else
            try_catch (lift (applyToGroupResource L utf8 current (pq_Operations req))) writePatchApplyError (fun patched =>
              actor ← lift (principal_id (r_ctx r));
              asking (groupSavePatch (r_ctx r) id
                        (MkGroupWrite (rg_DisplayName patched) (rg_ExternalID patched)
                           (groupMemberRefs (rg_Members patched)) actor)
                        (pq_Operations req)) writeGroupStoreErr (fun saved =>
                WriteETagHeader (ResourceETag (gr_Updated saved));;
                WriteSCIMJSON 200 (group_body_of saved r))))).

Definition GroupsList : Handler := fun r =>
  let '(startIndex, count) := parsePagination cfg (r_Query r) in
  asking (groupListFiltered (r_ctx r) startIndex count (firstQueryValue (r_Query r) "filter")) writeListErr (fun page =>
    WriteSCIMJSON 200 (list_response (gp_Total page) startIndex (map (fun rec => group_body_of rec r) (gp_Groups page)))).
End Routes.
