(* ===== verification/ScimMemStore.v ===== *)
(** * A directory in memory

    [src/examples/scim/store.go]: the two SCIM ports over maps, for one tenant,
    with the audit rows the application owes ([userStore], [groupStore]). The
    mutexes are not modelled: a method is one step. The logger is a port; its
    state is the second half of the application's. *)

From S2P Require Import Prelude Tenant Bytes World Crypto AuditEvent ScimFilter ScimPath ScimPatch ScimNesting Http WebGates WebAudit ScimStore ScimWire WebScim.

#[local] Open Scope string_scope.
#[local] Open Scope list_scope.
#[local] Open Scope Z_scope.

(** The two maps, and what the logger keeps. *)
Record Mem (DB : Type) := MkMem {
  mm_users : gmap string UserRecord;
  mm_groups : gmap string GroupRecord;
  mm_db : DB
}.
Arguments MkMem {_} _ _ _.
Arguments mm_users {_} _.
Arguments mm_groups {_} _.
Arguments mm_db {_} _.

Definition put_users {DB} (us : gmap string UserRecord) (m : Mem DB) : Mem DB := MkMem us (mm_groups m) (mm_db m).
Definition put_groups {DB} (gs : gmap string GroupRecord) (m : Mem DB) : Mem DB := MkMem (mm_users m) gs (mm_db m).

Definition actionUserCreate : string := "scim.user.create".
Definition actionUserReplace : string := "scim.user.replace".
Definition actionUserDelete : string := "scim.user.delete".
Definition actionUserPatch : string := "scim.user.patch".
Definition actionUserList : string := "scim.user.list".
Definition actionGroupCreate : string := "scim.group.create".
Definition actionGroupReplace : string := "scim.group.replace".
Definition actionGroupDelete : string := "scim.group.delete".
Definition actionGroupPatch : string := "scim.group.patch".
Definition actionGroupList : string := "scim.group.list".
Definition resourceUser : string := "user".
Definition resourceGroup : string := "group".

(** ** The tenant *)

Definition holdsTenant (t : ID) : bool := IsSingle t.
Definition inSingleTenant (t : ID) : go unit :=
  if holdsTenant t then Ret tt else Fail (Errorf1 "tenant" (Sentinel scim_ErrNotFound)).

(** ** Pure parts *)

Definition userFromWrite (id : string) (wr : UserWrite) (created updated : time) : UserRecord :=
  MkUserRecord id (uw_UserName wr) (uw_FamilyName wr) (uw_GivenName wr) [MkEmail (uw_UserName wr) true "work"]
    (uw_Active wr) (uw_ExternalID wr) created updated.

Definition sortedUsers (m : gmap string UserRecord) : list UserRecord :=
  sort_by (fun r => [ur_ID r]) (map snd (map_to_list m)).
Definition sortedGroups (m : gmap string GroupRecord) : list GroupRecord :=
  sort_by (fun r => [gr_ID r]) (map snd (map_to_list m)).

(** [pageUsers] and [pageGroups]; a slice whose bounds cross panics. *)
Definition page_of {A} (all : list A) (startIndex count : Z) : go (list A) :=
  let n := Z.of_nat (length all) in
  let lo := int64 (startIndex - 1) in
  let lo := if lo <? 0 then 0 else lo in
  if n <=? lo then Ret []
  else
    let hi := int64 (lo + count) in
    let hi := if (count <=? 0) || (n <? hi) then n else hi in
    if hi <? lo then Panic "slice bounds out of range"
    else Ret (take (Z.to_nat (hi - lo)) (drop (Z.to_nat lo) all)).

(** A name in use by some row but [except]. *)
Definition name_taken (us : gmap string UserRecord) (except : option string) (name : string) : bool :=
  existsb (fun kv => negb (bool_decide (Some kv.1 = except)) && String.eqb (ur_UserName kv.2) name) (map_to_list us).

Definition is_group (type : string) : bool := String.eqb (to_lower (trim_space type)) "group".
(** [resolveMembersLocked]. *)
Fixpoint resolve_members (us : gmap string UserRecord) (gs : gmap string GroupRecord) (members : list MemberRef)
    : go (list string * list string) :=
  match members with
  | [] => Ret ([], [])
  | m :: members =>
      let id := trim_space (mr_Value m) in
      if is_group (mr_Type m) then
        match gs !! id with
        | None => Fail (Errorf1 "member references unknown group" (Sentinel scim_ErrInvalidInput))
        | Some _ => '(u, g) ← resolve_members us gs members; Ret (u, id :: g)
        end
      else
        match us !! id with
        | None => Fail (Errorf1 "member references unknown user" (Sentinel scim_ErrInvalidInput))
        | Some _ => '(u, g) ← resolve_members us gs members; Ret (id :: u, g)
        end
  end.

(** [parentEdgesLocked] and [ListParentGroupsOf]; the order in which a Go map
    is visited is left to [map_to_list]. *)
Definition holds_member (c : string) (g : GroupRecord) : list string :=
  omap (fun m => if String.eqb (to_lower (mr_Type m)) "group" && String.eqb (mr_Value m) c then Some (gr_ID g) else None)
    (gr_Members g).
Definition parent_query (gs : gmap string GroupRecord) : GroupMemberQueries := fun c =>
  Ret (concat (map (fun kv => holds_member c kv.2) (map_to_list gs))).
(** As many turns as there are groups, and one. *)
Definition cycle_fuel (gs : gmap string GroupRecord) : nat := Datatypes.S (size gs).

Fixpoint check_cycles (gs : gmap string GroupRecord) (id : string) (children : list string) : go unit :=
  match children with
  | [] => Ret tt
  | child :: children =>
      _ ← DetectCycle (cycle_fuel gs) (Some (parent_query gs)) id child;
      check_cycles gs id children
  end.

(** [parseEqFilter]: the value asked for, or [None] for every row. *)
Definition parseEqFilter (ParseFilter : string -> go expr) (filter attr : string) : go (option string) :=
  e ← wrap_err (fun cause => Errorf2 "filter" (Sentinel scim_ErrInvalidFilter) cause) (Parse ParseFilter filter);
  match e with
  | None => Ret None
  | Some (AttributeExpression path EQ v) =>
      if String.eqb (AttributeName path) attr then Ret (Some (match v with VString s => s | _ => "" end))
      else Fail (Errorf1 "this example supports only eq" (Sentinel scim_ErrInvalidFilter))
  | Some _ => Fail (Errorf1 "this example supports only eq" (Sentinel scim_ErrInvalidFilter))
  end.
Definition wanted (want : option string) (name : string) : bool :=
  match want with None => true | Some v => String.eqb name v end.

(** ** The methods *)

Section Store.
Context (E : Env) (ParseFilter : string -> go expr) (L : Lib) (Marshal : jv -> bytes).
Context {DB : Type} (audit : option (Logger DB)).
Local Abbreviation MS := (M (Mem DB)).

Definition get_mem {A} (f : Mem DB -> A) : MS A := fun w => (Ret (f (w_store w)), w).
Definition upd_mem (f : Mem DB -> Mem DB) : MS unit := fun w => (Ret tt, World (f (w_store w)) (w_trace w)).
(** A call of the logger, its error dropped. *)
Definition call_log (log : Logger DB) (ev : Event) : MS unit := ignore_err (fun w =>
  let '(r, w') := log ev (World (mm_db (w_store w)) (w_trace w)) in
  (r, World (MkMem (mm_users (w_store w)) (mm_groups (w_store w)) (w_store w')) (w_trace w'))).

Definition dir_event (id : string) (at_ : time) (x : Context) (action resourceType resourceID : string)
    (before after : bytes) : Event :=
  {| ev_ID := id; ev_At := at_; ev_Actor := ActorFromContext x; ev_Action := action;
     ev_ResourceType := resourceType; ev_ResourceID := resourceID; ev_RequestID := ""; ev_ClusterID := "";
     ev_Before := before; ev_After := after; ev_PrevHash := []; ev_Hash := []; ev_CanonicalVersion := 0;
     ev_TenantID := ""; ev_RowSalt := []; ev_Commitments := no_commitments |}.
Definition emit_row (x : Context) (action resourceType resourceID : string) (before after : bytes) : MS unit :=
  match audit with
  | None => mret tt
  | Some log =>
      id ← newID E;
      at_ ← now E;
      call_log log (dir_event id at_ x action resourceType resourceID before after)
  end.

Definition marshal_opt {A} (payload : A -> list (string * jv)) (x : option A) : bytes :=
  match x with None => [] | Some x => Marshal (map_json (payload x)) end.
(** The [after] payload and the id of a row about a write. *)
Definition row_after {A} (payload : A -> list (string * jv)) (after : option A) (ifMatch marked : bool) : bytes :=
  match after with
  | Some a => Marshal (map_json (payload a ++ (if marked then [("if_match_present", VBool ifMatch)] else [])))
  | None => if marked then Marshal (map_json [("if_match_present", VBool ifMatch)]) else []
  end.
Definition row_id {A} (id : A -> string) (after before : option A) : string :=
  match after, before with Some a, _ => id a | None, Some b => id b | None, None => "" end.

Definition userPayload (r : UserRecord) : list (string * jv) :=
  [("id", VStr (ur_ID r)); ("email", VStr (ur_UserName r)); ("external_id", VStr (ur_ExternalID r));
   ("active", VBool (ur_Active r))].
Definition groupPayload (r : GroupRecord) : list (string * jv) :=
  [("id", VStr (gr_ID r)); ("display_name", VStr (gr_DisplayName r)); ("external_id", VStr (gr_ExternalID r));
   ("member_count", VInt (Z.of_nat (length (gr_Members r))))].
Definition marks (action replace delete : string) (has_after : bool) : bool :=
  if has_after then String.eqb action replace else String.eqb action delete.
Definition emitUser (x : Context) (action : string) (after before : option UserRecord) (ifMatch : bool) : MS unit :=
  emit_row x action resourceUser (row_id ur_ID after before) (marshal_opt userPayload before)
    (row_after userPayload after ifMatch
       (marks action actionUserReplace actionUserDelete (bool_decide (is_Some after)))).
Definition emitGroup (x : Context) (action : string) (after before : option GroupRecord) (ifMatch : bool) : MS unit :=
  emit_row x action resourceGroup (row_id gr_ID after before) (marshal_opt groupPayload before)
    (row_after groupPayload after ifMatch
       (marks action actionGroupReplace actionGroupDelete (bool_decide (is_Some after)))).

Definition op_text (o : Op) : string :=
  match o with OpAdd => "add" | OpRemove => "remove" | OpReplace => "replace" | OtherOp s => s end.
Definition operation_json (o : Operation) : jv :=
  VObj (fld "op" (VStr (op_text (op_Op o))) ++ omit_str "path" (op_Path o) ++
        (if String.eqb (op_Value o) "" then [] else [("value", VRaw (to_bytes (op_Value o)))])).
Definition patch_after (ops : list Operation) : bytes :=
  Marshal (map_json [("operations", VList (map operation_json (RedactedOps L ops)));
                     ("operation_count", VInt (Z.of_nat (length ops)))]).
Definition list_after (filter : string) (total : Z) : bytes :=
  Marshal (map_json [("filter", VStr filter); ("total_results", VInt total)]).

(** *** Users *)

Definition user_conflict : error := Errorf1 "userName already exists" (Sentinel scim_ErrConflict).

Definition mem_user_Create (x : Context) (t : ID) (wr : UserWrite) (meta : WriteMeta) : MS UserRecord :=
  lift (inSingleTenant t);;
  us ← get_mem mm_users;
  if name_taken us None (uw_UserName wr) then fail user_conflict
  else
    id ← newID E;
    created ← now E;
    updated ← now E;
    let rec := userFromWrite id wr created updated in
    upd_mem (put_users (<[id := rec]> us));;
    emitUser x actionUserCreate (Some rec) None false;;
    mret rec.

Definition mem_user_Get (x : Context) (t : ID) (id : string) : MS UserRecord :=
  lift (inSingleTenant t);;
  us ← get_mem mm_users;
  match us !! id with Some rec => mret rec | None => fail (Sentinel scim_ErrNotFound) end.

Definition mem_user_Replace (x : Context) (t : ID) (id : string) (wr : UserWrite) (meta : WriteMeta) : MS UserRecord :=
  lift (inSingleTenant t);;
  us ← get_mem mm_users;
  match us !! id with
  | None => fail (Sentinel scim_ErrNotFound)
  | Some existing =>
      if negb (String.eqb (uw_UserName wr) (ur_UserName existing)) && name_taken us (Some id) (uw_UserName wr)
      then fail user_conflict
      else
        updated ← now E;
        let rec := userFromWrite id wr (ur_Created existing) updated in
        upd_mem (put_users (<[id := rec]> us));;
        emitUser x actionUserReplace (Some rec) (wm_Before meta) (wm_IfMatchPresent meta);;
        mret rec
  end.

Definition mem_user_Delete (x : Context) (t : ID) (id : string) (meta : WriteMeta) : MS unit :=
  lift (inSingleTenant t);;
  us ← get_mem mm_users;
  match us !! id with
  | None => fail (Sentinel scim_ErrNotFound)
  | Some _ =>
      upd_mem (put_users (delete id us));;
      emitUser x actionUserDelete None (wm_Before meta) (wm_IfMatchPresent meta)
  end.

Definition patched_user (existing : UserRecord) (wr : UserWrite) (updated : time) : UserRecord :=
  MkUserRecord (ur_ID existing) (uw_UserName wr) (ur_FamilyName existing) (ur_GivenName existing)
    [MkEmail (uw_UserName wr) true "work"] (uw_Active wr) (uw_ExternalID wr) (ur_Created existing) updated.
Definition mem_user_SavePatch (x : Context) (t : ID) (id : string) (wr : UserWrite) (ops : list Operation)
    : MS UserRecord :=
  lift (inSingleTenant t);;
  us ← get_mem mm_users;
  match us !! id with
  | None => fail (Sentinel scim_ErrNotFound)
  | Some existing =>
      updated ← now E;
      let rec := patched_user existing wr updated in
      upd_mem (put_users (<[id := rec]> us));;
      emit_row x actionUserPatch resourceUser id [] (patch_after ops);;
      mret rec
  end.

Definition mem_user_ListFiltered (x : Context) (t : ID) (startIndex count : Z) (filter : string) : MS UserPage :=
  if negb (holdsTenant t) then mret (MkUserPage [] 0)
  else
    want ← lift (parseEqFilter ParseFilter filter "userName");
    us ← get_mem mm_users;
    let matched := List.filter (fun r => wanted want (ur_UserName r)) (sortedUsers us) in
    let total := Z.of_nat (length matched) in
    page ← lift (page_of matched startIndex count);
    emit_row x actionUserList resourceUser "" [] (list_after filter total);;
    mret (MkUserPage page total).

Definition userStore : UserStore (Mem DB) := {|
  us_Create := mem_user_Create;
  us_Get := mem_user_Get;
  us_Replace := mem_user_Replace;
  us_Delete := mem_user_Delete;
  us_SavePatch := mem_user_SavePatch;
  us_ListFiltered := mem_user_ListFiltered
|}.

(** *** Groups *)

Definition buildGroup (m : Mem DB) (id : string) (wr : GroupWrite) (created : time) : MS GroupRecord :=
  '(userIDs, groupIDs) ← lift (resolve_members (mm_users m) (mm_groups m) (gw_Members wr));
  lift (check_cycles (mm_groups m) id groupIDs);;
  updated ← now E;
  mret (MkGroupRecord id (gw_DisplayName wr) (gw_ExternalID wr)
    (map (fun u => MkMemberRef u "User") userIDs ++ map (fun g => MkMemberRef g "Group") groupIDs) created updated).
Definition store_group (m : Mem DB) (rec : GroupRecord) : MS unit :=
  upd_mem (put_groups (<[gr_ID rec := rec]> (mm_groups m))).

Definition mem_group_ValidateMembers (x : Context) (t : ID) (members : list MemberRef) : MS unit :=
  lift (inSingleTenant t);;
  m ← get_mem id;
  _ ← lift (resolve_members (mm_users m) (mm_groups m) members);
  mret tt.

Definition mem_group_Create (x : Context) (t : ID) (wr : GroupWrite) (meta : GroupWriteMeta) : MS GroupRecord :=
  lift (inSingleTenant t);;
  m ← get_mem id;
  id ← newID E;
  created ← now E;
  rec ← buildGroup m id wr created;
  store_group m rec;;
  emitGroup x actionGroupCreate (Some rec) None false;;
  mret rec.

Definition mem_group_Get (x : Context) (t : ID) (id : string) : MS GroupRecord :=
  lift (inSingleTenant t);;
  gs ← get_mem mm_groups;
  match gs !! id with Some rec => mret rec | None => fail (Sentinel scim_ErrNotFound) end.

Definition mem_group_Replace (x : Context) (t : ID) (id_ : string) (wr : GroupWrite) (meta : GroupWriteMeta)
    : MS GroupRecord :=
  lift (inSingleTenant t);;
  if String.eqb (gw_ActorServiceAccountID wr) "" then
    fail (Errorf1 "missing service-account actor" (Sentinel scim_ErrInvalidInput))
  else
    m ← get_mem id;
    match mm_groups m !! id_ with
    | None => fail (Sentinel scim_ErrNotFound)
    | Some existing =>
        rec ← buildGroup m id_ wr (gr_Created existing);
        store_group m rec;;
        emitGroup x actionGroupReplace (Some rec) (gm_Before meta) (gm_IfMatchPresent meta);;
        mret rec
    end.

Definition mem_group_Delete (x : Context) (t : ID) (id : string) (meta : GroupWriteMeta) : MS unit :=
  lift (inSingleTenant t);;
  gs ← get_mem mm_groups;
  match gs !! id with
  | None => fail (Sentinel scim_ErrNotFound)
  | Some _ =>
      upd_mem (put_groups (delete id gs));;
      emitGroup x actionGroupDelete None (gm_Before meta) (gm_IfMatchPresent meta)
  end.

Definition mem_group_SavePatch (x : Context) (t : ID) (id_ : string) (wr : GroupWrite) (ops : list Operation)
    : MS GroupRecord :=
  lift (inSingleTenant t);;
  m ← get_mem id;
  match mm_groups m !! id_ with
  | None => fail (Sentinel scim_ErrNotFound)
  | Some existing =>
      rec ← buildGroup m id_ wr (gr_Created existing);
      store_group m rec;;
      emit_row x actionGroupPatch resourceGroup id_ [] (patch_after ops);;
      mret rec
  end.

Definition mem_group_ListFiltered (x : Context) (t : ID) (startIndex count : Z) (filter : string) : MS GroupPage :=
  if negb (holdsTenant t) then mret (MkGroupPage [] 0)
  else
    want ← lift (parseEqFilter ParseFilter filter "displayName");
    gs ← get_mem mm_groups;
    let matched := List.filter (fun g => wanted want (gr_DisplayName g)) (sortedGroups gs) in
    let total := Z.of_nat (length matched) in
    emit_row x actionGroupList resourceGroup "" [] (list_after filter total);;
    page ← lift (page_of matched startIndex count);
    mret (MkGroupPage page total).

Definition groupStore : GroupStore (Mem DB) := {|
  gs_Create := mem_group_Create;
  gs_Get := mem_group_Get;
  gs_Replace := mem_group_Replace;
  gs_Delete := mem_group_Delete;
  gs_SavePatch := mem_group_SavePatch;
  gs_ValidateMembers := mem_group_ValidateMembers;
  gs_ListFiltered := mem_group_ListFiltered
|}.
End Store.
