(* ===== verification/ScimMemLaws.v ===== *)
(** * What the directory in memory keeps

    Every sequence of calls to the ports of [ScimMemStore] keeps the rows filed
    under their own ids and the group nesting free of cycles; the pages of a
    listing partition it; user names stay unique as long as nobody patches. *)

From S2P Require Import Prelude Tenant Bytes World Crypto AuditEvent ScimFilter ScimPath ScimPatch ScimNesting Http WebGates WebAudit ScimStore ScimWire WebScim ScimMemStore.
From stdpp Require Import relations pretty.

#[local] Open Scope string_scope.
#[local] Open Scope list_scope.
#[local] Open Scope Z_scope.

(** ** Acyclic relations *)

(** New edges out of one point that no target of them can reach close no
    cycle. *)
Lemma acyclic_extend {A} (R R' : relation A) (p : A) (cs : list A) :
  (forall g, ~ tc R g g) ->
  (forall a b, R' a b -> R a b \/ (a = p /\ b ∈ cs)) ->
  (forall c, c ∈ cs -> c <> p /\ ~ tc R c p) ->
  forall g, ~ tc R' g g.
Proof.
  intros Hacy Hsub Hcs.
  assert (forall a b, tc R' a b -> tc R a b \/ (rtc R a p /\ exists c, c ∈ cs /\ rtc R c b)) as Hsplit.
  { intros a b. induction 1 as [a b Hab|a b c Hab _ IH].
    - apply Hsub in Hab as [Hab|[-> Hb]]; [left; by apply tc_once|right; split; [done|by exists b]].
    - apply Hsub in Hab as [Hab|[-> Hb]].
      + destruct IH as [IH|[IH1 IH2]]; [left; by eapply tc_l|right; split; [by eapply rtc_l|done]].
      + right. split; [done|]. destruct IH as [IH|[_ IH]]; [exists b; split; [done|by apply tc_rtc]|done]. }
  intros g [Hg|[Hg1 (c & Hc & Hg2)]]%Hsplit; [by apply (Hacy g)|].
  assert (rtc R c p) as Hcp by (by etrans). destruct (Hcs c Hc) as [Hne Hn].
  apply rtc_tc in Hcp as [->|Hcp]; done.
Qed.

(** ** The nesting of the stored groups *)

Section Nesting.
Implicit Types (gs : gmap string GroupRecord).

(** Rows are filed under their ids. *)
Definition filed {A} (id : A -> string) (m : gmap string A) : Prop := forall k r, m !! k = Some r -> id r = k.

(** The group members of a record. *)
Definition nests (g : GroupRecord) (c : string) : Prop :=
  exists m, m ∈ gr_Members g /\ to_lower (mr_Type m) = "group" /\ mr_Value m = c.

Lemma elem_holds_member p c g : p ∈ holds_member c g <-> nests g c /\ gr_ID g = p.
Proof.
  unfold holds_member, nests. rewrite list_elem_of_omap. split.
  - intros (m & Hm & Hif). destruct (String.eqb_spec (to_lower (mr_Type m)) "group"); cbn in Hif; [|done].
    destruct (String.eqb_spec (mr_Value m) c); [|done]. injection Hif as <-. split; [|done]. eauto.
  - intros ((m & Hm & Ht & Hv) & Hid). exists m. split; [done|].
    by rewrite (proj2 (String.eqb_eq _ _) Ht), (proj2 (String.eqb_eq _ _) Hv), Hid.
Qed.

Lemma parent_query_contains gs p c : filed gr_ID gs ->
  contains_ (parent_query gs) p c <-> exists g, gs !! p = Some g /\ nests g c.
Proof.
  intros Hf. unfold contains_, parent_query. split.
  - intros (ps & [= <-] & Hp). apply list_elem_of_In, in_concat in Hp as (l & Hl & Hp).
    apply list_elem_of_In, list_elem_of_fmap in Hl as ([k g] & -> & Hkg). apply list_elem_of_In, elem_holds_member in Hp as [Hn Hid].
    apply elem_of_map_to_list in Hkg. pose proof (Hf _ _ Hkg) as Hk. cbn in *. subst. by exists g.
  - intros (g & Hg & Hn). eexists. split; [done|]. apply list_elem_of_In, in_concat. exists (holds_member c g).
    split; apply list_elem_of_In.
    + apply list_elem_of_fmap. exists (p, g). split; [done|]. by apply elem_of_map_to_list.
    + apply elem_holds_member. split; [done|]. by apply Hf.
Qed.

Lemma parent_query_ok gs : filed gr_ID gs -> table_ok (parent_query gs) (dom gs).
Proof.
  intros Hf. split; [by eexists|]. intros p c (g & Hg & _)%parent_query_contains; [|done].
  by apply elem_of_dom.
Qed.

Lemma check_cycles_sound gs id cs : filed gr_ID gs -> check_cycles gs id cs = Ret tt ->
  forall c, c ∈ cs -> c <> id /\ ~ above (parent_query gs) c id.
Proof.
  intros Hf. induction cs as [|c cs IH]; cbn [check_cycles]; intros H; [by intros ? ?%not_elem_of_nil|].
  destruct (DetectCycle (cycle_fuel gs) (Some (parent_query gs)) id c) as [[]|e|why] eqn:HD; [|done..].
  intros c' [->|Hc']%elem_of_cons; [|by apply IH].
  assert (id <> "" /\ c <> "") as [Hp Hc].
  { unfold DetectCycle in HD. destruct (String.eqb_spec id ""), (String.eqb_spec c ""); done. }
  eapply DetectCycle_correct; [by apply parent_query_ok|done..| |exact HD].
  unfold cycle_fuel. by rewrite size_dom.
Qed.

(** Storing a record whose group members passed the check. *)
Lemma insert_keeps_acyclic gs rec cs : filed gr_ID gs -> acyclic (parent_query gs) ->
  (forall c, nests rec c -> c ∈ cs) -> check_cycles gs (gr_ID rec) cs = Ret tt ->
  filed gr_ID (<[gr_ID rec := rec]> gs) /\ acyclic (parent_query (<[gr_ID rec := rec]> gs)).
Proof.
  intros Hf Hacy Hn Hc. assert (filed gr_ID (<[gr_ID rec := rec]> gs)) as Hf'.
  { intros k r [[<- <-]|[_ Hk]]%lookup_insert_Some; [done|by apply Hf]. }
  split; [done|]. unfold acyclic, above. apply (acyclic_extend (contains_ (parent_query gs)) _ (gr_ID rec) cs Hacy).
  - intros a b (g & Hg & Hb)%parent_query_contains; [|done].
    apply lookup_insert_Some in Hg as [[<- <-]|[_ Hg]]; [right; by auto|left].
    apply parent_query_contains; eauto.
  - by apply check_cycles_sound.
Qed.

Lemma delete_keeps_acyclic gs id : filed gr_ID gs -> acyclic (parent_query gs) ->
  filed gr_ID (delete id gs) /\ acyclic (parent_query (delete id gs)).
Proof.
  intros Hf Hacy. assert (filed gr_ID (delete id gs)) as Hf'.
  { intros k r [_ Hk]%lookup_delete_Some. by apply Hf. }
  split; [done|]. unfold acyclic, above. apply (acyclic_extend (contains_ (parent_query gs)) _ id [] Hacy); [|by intros ? ?%not_elem_of_nil].
  intros a b (g & Hg & Hb)%parent_query_contains; [|done]. left.
  apply lookup_delete_Some in Hg as [_ Hg]. apply parent_query_contains; eauto.
Qed.
End Nesting.

(** ** One call *)

(** The ports as data: every method with its arguments. *)
Inductive call :=
  | UserCreate (x : Context) (t : ID) (wr : UserWrite) (meta : WriteMeta)
  | UserGet (x : Context) (t : ID) (id : string)
  | UserReplace (x : Context) (t : ID) (id : string) (wr : UserWrite) (meta : WriteMeta)
  | UserDelete (x : Context) (t : ID) (id : string) (meta : WriteMeta)
  | UserSavePatch (x : Context) (t : ID) (id : string) (wr : UserWrite) (ops : list Operation)
  | UserList (x : Context) (t : ID) (startIndex count : Z) (filter : string)
  | GroupCreate (x : Context) (t : ID) (wr : GroupWrite) (meta : GroupWriteMeta)
  | GroupGet (x : Context) (t : ID) (id : string)
  | GroupReplace (x : Context) (t : ID) (id : string) (wr : GroupWrite) (meta : GroupWriteMeta)
  | GroupDelete (x : Context) (t : ID) (id : string) (meta : GroupWriteMeta)
  | GroupSavePatch (x : Context) (t : ID) (id : string) (wr : GroupWrite) (ops : list Operation)
  | GroupValidate (x : Context) (t : ID) (members : list MemberRef)
  | GroupList (x : Context) (t : ID) (startIndex count : Z) (filter : string).

Section Calls.
Context (E : Env) (ParseFilter : string -> go expr) (L : Lib) (Marshal : jv -> bytes).
Context {DB : Type} (audit : option (Logger DB)).
Local Abbreviation MS := (M (Mem DB)).
Implicit Types (w : world (Mem DB)) (m : Mem DB).

Definition run_call (c : call) : MS unit :=
  match c with
  | UserCreate x t wr meta => _ ← mem_user_Create E Marshal audit x t wr meta; mret tt
  | UserGet x t id => _ ← mem_user_Get x t id; mret tt
  | UserReplace x t id wr meta => _ ← mem_user_Replace E Marshal audit x t id wr meta; mret tt
  | UserDelete x t id meta => mem_user_Delete E Marshal audit x t id meta
  | UserSavePatch x t id wr ops => _ ← mem_user_SavePatch E L Marshal audit x t id wr ops; mret tt
  | UserList x t s n f => _ ← mem_user_ListFiltered E ParseFilter Marshal audit x t s n f; mret tt
  | GroupCreate x t wr meta => _ ← mem_group_Create E Marshal audit x t wr meta; mret tt
  | GroupGet x t id => _ ← mem_group_Get x t id; mret tt
  | GroupReplace x t id wr meta => _ ← mem_group_Replace E Marshal audit x t id wr meta; mret tt
  | GroupDelete x t id meta => mem_group_Delete E Marshal audit x t id meta
  | GroupSavePatch x t id wr ops => _ ← mem_group_SavePatch E L Marshal audit x t id wr ops; mret tt
  | GroupValidate x t ms => mem_group_ValidateMembers x t ms
  | GroupList x t s n f => _ ← mem_group_ListFiltered E ParseFilter Marshal audit x t s n f; mret tt
  end.

Lemma get_mem_inv {A} (f : Mem DB -> A) w r w' : get_mem f w = (r, w') -> r = Ret (f (w_store w)) /\ w' = w.
Proof. by intros [= <- <-]. Qed.
Lemma upd_mem_inv f w r w' : upd_mem f w = (r, w') -> r = Ret tt /\ w' = World (f (w_store w)) (w_trace w).
Proof. by intros [= <- <-]. Qed.

(** A row leaves the directory alone. *)
Lemma emit_row_keeps x action type id before after w r w' :
  emit_row E audit x action type id before after w = (r, w') ->
  mm_users (w_store w') = mm_users (w_store w) /\ mm_groups (w_store w') = mm_groups (w_store w).
Proof.
  unfold emit_row. destruct audit as [log|]; intros H; [|by apply mret_inv in H as [-> ->]].
  unfold newID, now in H. run_step H; try done. unfold call_log, ignore_err in H.
  apply try_catch_inv in H as [(a & w1 & H1 & [-> ->]%mret_inv)|[(e & w1 & H1 & [-> ->]%mret_inv)|(why & H1 & ->)]];
    destruct (log _ _) as [r1 w2] in H1; injection H1 as _ H1; by subst.
Qed.

(** What a call may do to the users and to the groups. A patch is the only
    one that names a user without asking who has the name. *)
Definition is_patch (c : call) : bool := match c with UserSavePatch _ _ _ _ _ => true | _ => false end.
Definition one_mail (rec : UserRecord) : Prop := ur_Emails rec = [MkEmail (ur_UserName rec) true "work"].
Inductive users_change (patch : bool) (us : gmap string UserRecord) : gmap string UserRecord -> Prop :=
  | users_same : users_change patch us us
  | users_named rec : one_mail rec ->
      (forall k r, us !! k = Some r -> k <> ur_ID rec -> ur_UserName r <> ur_UserName rec) ->
      users_change patch us (<[ur_ID rec := rec]> us)
  | users_renewed rec old : one_mail rec -> us !! ur_ID rec = Some old -> ur_UserName old = ur_UserName rec ->
      users_change patch us (<[ur_ID rec := rec]> us)
  | users_patched rec : patch = true -> one_mail rec -> is_Some (us !! ur_ID rec) ->
      users_change patch us (<[ur_ID rec := rec]> us)
  | users_removed id : users_change patch us (delete id us).
Inductive groups_change (us : gmap string UserRecord) (gs : gmap string GroupRecord) : gmap string GroupRecord -> Prop :=
  | groups_same : groups_change us gs gs
  | groups_written rec u g : check_cycles gs (gr_ID rec) g = Ret tt ->
      (forall c, c ∈ u -> is_Some (us !! c)) -> (forall c, c ∈ g -> is_Some (gs !! c)) ->
      gr_Members rec = map (fun u => MkMemberRef u "User") u ++ map (fun g => MkMemberRef g "Group") g ->
      groups_change us gs (<[gr_ID rec := rec]> gs)
  | groups_removed id : groups_change us gs (delete id gs).

Lemma name_taken_false us except name : name_taken us except name = false ->
  forall k r, us !! k = Some r -> Some k <> except -> ur_UserName r <> name.
Proof.
  intros Hn k r Hk Hne Heq. enough (name_taken us except name = true) by congruence.
  apply existsb_exists. exists (k, r). split; [by apply list_elem_of_In, elem_of_map_to_list|].
  cbn. by rewrite bool_decide_false, (proj2 (String.eqb_eq _ _) Heq).
Qed.

Lemma resolve_members_known us gs ms u g : resolve_members us gs ms = Ret (u, g) ->
  (forall c, c ∈ u -> is_Some (us !! c)) /\ (forall c, c ∈ g -> is_Some (gs !! c)).
Proof.
  revert u g. induction ms as [|m ms IH]; intros u g; cbn [resolve_members].
  { intros [= <- <-]. split; by intros ? ?%not_elem_of_nil. }
  destruct (is_group (mr_Type m)).
  - destruct (gs !! trim_space (mr_Value m)) eqn:Hg; [|done].
    intros ([u1 g1] & H1 & [= <- <-])%go_bind_Ret_inv. destruct (IH _ _ H1) as [Hu Hgs]. split; [done|].
    intros c [->|Hc]%elem_of_cons; [by eexists|by apply Hgs].
  - destruct (us !! trim_space (mr_Value m)) eqn:Hu; [|done].
    intros ([u1 g1] & H1 & [= <- <-])%go_bind_Ret_inv. destruct (IH _ _ H1) as [Hus Hg]. split; [|done].
    intros c [->|Hc]%elem_of_cons; [by eexists|by apply Hus].
Qed.

Lemma buildGroup_inv m id wr created w r w' : buildGroup E m id wr created w = (r, w') ->
  w_store w' = w_store w /\ (forall rec, r = Ret rec -> exists u g,
    gr_ID rec = id /\ check_cycles (mm_groups m) id g = Ret tt /\
    (forall c, c ∈ u -> is_Some (mm_users m !! c)) /\ (forall c, c ∈ g -> is_Some (mm_groups m !! c)) /\
    gr_Members rec = map (fun u => MkMemberRef u "User") u ++ map (fun g => MkMemberRef g "Group") g).
Proof.
  unfold buildGroup, now. intros H. run_step H; subst; cbn [w_store]; (split; [done|]); intros rec [= <-].
  symmetry in Hr. apply resolve_members_known in Hr as [Hu Hg]. destruct a0. eexists _, _. split_and!; eauto.
Qed.

(** Drops the reads and writes of a run, and the rows it left. *)
Ltac mem_step := repeat match goal with
  | H : get_mem _ _ = (_, _) |- _ => apply get_mem_inv in H as [H ->]; go_inj H
  | H : upd_mem _ _ = (_, _) |- _ => apply upd_mem_inv in H as [H ->]; go_inj H
  | H : emit_row _ _ _ _ _ _ _ _ _ = (_, _) |- _ => apply emit_row_keeps in H as [? ?]
  | H : newID _ _ = (_, _) |- _ => apply observe_inv in H as [H ->]; go_inj H
  | H : now _ _ = (_, _) |- _ => apply observe_inv in H as [H ->]; go_inj H
  end; cbn [w_store w_trace mm_users mm_groups put_users put_groups] in *; subst.

(** [changes]: what a call did, from what its run wrote. *)
Definition changes (patch : bool) (w w' : world (Mem DB)) : Prop :=
  users_change patch (mm_users (w_store w)) (mm_users (w_store w')) /\
  groups_change (mm_users (w_store w)) (mm_groups (w_store w)) (mm_groups (w_store w')).
Lemma changes_users patch w w' us : mm_users (w_store w') = us -> mm_groups (w_store w') = mm_groups (w_store w) ->
  users_change patch (mm_users (w_store w)) us -> changes patch w w'.
Proof. intros <- Hg Hu. split; [done|]. rewrite Hg. constructor. Qed.
Lemma changes_groups patch w w' gs : mm_groups (w_store w') = gs -> mm_users (w_store w') = mm_users (w_store w) ->
  groups_change (mm_users (w_store w)) (mm_groups (w_store w)) gs -> changes patch w w'.
Proof. intros <- Hu Hg. split; [|done]. rewrite Hu. constructor. Qed.
Lemma changes_nothing patch w w' : mm_users (w_store w') = mm_users (w_store w) ->
  mm_groups (w_store w') = mm_groups (w_store w) -> changes patch w w'.
Proof. intros Hu Hg. eapply changes_users; [exact Hu|exact Hg|constructor]. Qed.

Ltac quiet_call := try solve [apply changes_nothing; cbn [w_store]; congruence].

Lemma user_Create_changes x t wr meta w r w' : mem_user_Create E Marshal audit x t wr meta w = (r, w') ->
  changes false w w'.
Proof.
  unfold mem_user_Create, emitUser. intros H. run_step H; mem_step; quiet_call.
  all: eapply changes_users; [eassumption..|]; apply (users_named false _ (userFromWrite _ wr _ _)); [done|].
  all: intros k r' Hk _; by eapply name_taken_false.
Qed.

Lemma user_Replace_changes x t id wr meta w r w' : mem_user_Replace E Marshal audit x t id wr meta w = (r, w') ->
  changes false w w'.
Proof.
  unfold mem_user_Replace, emitUser. intros H. run_step H; mem_step; quiet_call.
  all: eapply changes_users; [eassumption..|].
  all: match goal with H : _ && _ = false |- _ => apply andb_false_iff in H as [Hn%negb_false_iff%String.eqb_eq|Hn] end.
  all: first [eapply (users_renewed false _ (userFromWrite id wr _ _)); [done|eassumption|symmetry; exact Hn]
    | apply (users_named false _ (userFromWrite id wr _ _)); [done|]; intros k r' Hk Hne;
      eapply name_taken_false; [exact Hn|exact Hk|by intros [= ->]]].
Qed.

Lemma user_Delete_changes x t id meta w r w' : mem_user_Delete E Marshal audit x t id meta w = (r, w') ->
  changes false w w'.
Proof.
  unfold mem_user_Delete, emitUser. intros H. run_step H; mem_step; quiet_call.
  all: eapply changes_users; [eassumption..|constructor].
Qed.

Lemma user_SavePatch_changes x t id wr ops w r w' : filed ur_ID (mm_users (w_store w)) ->
  mem_user_SavePatch E L Marshal audit x t id wr ops w = (r, w') -> changes true w w'.
Proof.
  unfold mem_user_SavePatch. intros Hf H. run_step H; mem_step; quiet_call.
  all: pose proof (Hf _ _ Hb) as Hid; subst id.
  all: eapply changes_users; [eassumption..|]; apply (users_patched true _ (patched_user _ wr _)); by eauto.
Qed.

Lemma user_List_changes x t s n f w r w' : mem_user_ListFiltered E ParseFilter Marshal audit x t s n f w = (r, w') ->
  changes false w w'.
Proof. unfold mem_user_ListFiltered. intros H. run_step H; mem_step; quiet_call. Qed.

(** A group that was built and stored. *)
Lemma built_group_changes patch w w0 w' wr created w1 id rec :
  w_store w0 = w_store w -> buildGroup E (w_store w) id wr created w0 = (Ret rec, w1) ->
  mm_groups (w_store w') = <[gr_ID rec := rec]> (mm_groups (w_store w)) ->
  mm_users (w_store w') = mm_users (w_store w1) -> changes patch w w'.
Proof.
  intros Hw0 Hb Hg Hu. apply buildGroup_inv in Hb as (Hw1 & Hb).
  destruct (Hb _ eq_refl) as (us & gs & <- & Hc & Hus & Hgs & Hms).
  eapply changes_groups; [exact Hg|congruence|]. by eapply groups_written.
Qed.
Lemma unbuilt_group_changes patch w w0 wr created w1 id r :
  w_store w0 = w_store w -> buildGroup E (w_store w) id wr created w0 = (r, w1) -> changes patch w w1.
Proof. intros Hw0 (Hw1 & _)%buildGroup_inv. apply changes_nothing; congruence. Qed.
Ltac group_call := quiet_call;
  first [eapply built_group_changes; [|eassumption..]; done | eapply unbuilt_group_changes; [|eassumption]; done].

Lemma group_Create_changes x t wr meta w r w' : mem_group_Create E Marshal audit x t wr meta w = (r, w') ->
  changes false w w'.
Proof. unfold mem_group_Create, emitGroup, store_group. intros H. run_step H; mem_step; group_call. Qed.
Lemma group_Replace_changes x t id wr meta w r w' : mem_group_Replace E Marshal audit x t id wr meta w = (r, w') ->
  changes false w w'.
Proof. unfold mem_group_Replace, emitGroup, store_group. intros H. run_step H; mem_step; group_call. Qed.
Lemma group_SavePatch_changes x t id wr ops w r w' : mem_group_SavePatch E L Marshal audit x t id wr ops w = (r, w') ->
  changes false w w'.
Proof. unfold mem_group_SavePatch, store_group. intros H. run_step H; mem_step; group_call. Qed.
Lemma group_Delete_changes x t id meta w r w' : mem_group_Delete E Marshal audit x t id meta w = (r, w') ->
  changes false w w'.
Proof.
  unfold mem_group_Delete, emitGroup. intros H. run_step H; mem_step; quiet_call.
  all: eapply changes_groups; [eassumption..|constructor].
Qed.
Lemma group_List_changes x t s n f w r w' : mem_group_ListFiltered E ParseFilter Marshal audit x t s n f w = (r, w') ->
  changes false w w'.
Proof. unfold mem_group_ListFiltered. intros H. run_step H; mem_step; quiet_call. Qed.

Lemma drop_result {A} (m : MS A) w r w' : (_ ← m; mret tt) w = (r, w') -> exists r1, m w = (r1, w').
Proof. unfold mbind, M_bind. destruct (m w) as [[] ?]; intros [= <- <-]; eauto. Qed.

Lemma call_changes c w r w' : filed ur_ID (mm_users (w_store w)) -> run_call c w = (r, w') ->
  changes (is_patch c) w w'.
Proof.
  intros Hf H. destruct c; cbn [run_call is_patch] in *; try apply drop_result in H as [r1 H].
  - by eapply user_Create_changes.
  - unfold mem_user_Get in H. run_step H; mem_step; quiet_call.
  - by eapply user_Replace_changes.
  - by eapply user_Delete_changes.
  - by eapply user_SavePatch_changes.
  - by eapply user_List_changes.
  - by eapply group_Create_changes.
  - unfold mem_group_Get in H. run_step H; mem_step; quiet_call.
  - by eapply group_Replace_changes.
  - by eapply group_Delete_changes.
  - by eapply group_SavePatch_changes.
  - unfold mem_group_ValidateMembers in H. run_step H; mem_step; quiet_call.
  - by eapply group_List_changes.
Qed.

(** ** Any sequence of calls *)

(** The directory a sequence of calls leaves, whatever they answer. *)
Fixpoint run_calls (cs : list call) w : world (Mem DB) :=
  match cs with [] => w | c :: cs => run_calls cs (run_call c w).2 end.

Record dir_ok m : Prop := {
  ok_users : filed ur_ID (mm_users m);
  ok_groups : filed gr_ID (mm_groups m);
  ok_mail : forall k r, mm_users m !! k = Some r -> one_mail r;
  ok_nesting : acyclic (parent_query (mm_groups m))
}.
Definition names_unique m : Prop := forall k k' r r',
  mm_users m !! k = Some r -> mm_users m !! k' = Some r' -> ur_UserName r = ur_UserName r' -> k = k'.

Lemma nests_built rec u g c : gr_Members rec = map (fun u => MkMemberRef u "User") u ++ map (fun g => MkMemberRef g "Group") g ->
  nests rec c -> c ∈ g.
Proof.
  intros Hm (m & Hin & Ht & <-). rewrite Hm in Hin.
  apply elem_of_app in Hin as [(x & -> & _)%list_elem_of_fmap|(x & -> & Hx)%list_elem_of_fmap]; done.
Qed.

Lemma changes_keep patch w w' : changes patch w w' -> dir_ok (w_store w) -> dir_ok (w_store w').
Proof.
  intros [Hu Hg] [H1 H2 H3 H4].
  assert (filed gr_ID (mm_groups (w_store w')) /\ acyclic (parent_query (mm_groups (w_store w')))) as [? ?].
  { destruct Hg as [|rec u g Hc _ _ Hm|id]; [done| |by apply delete_keeps_acyclic].
    eapply insert_keeps_acyclic; [done|done| |exact Hc]. intros c. by eapply nests_built. }
  assert (filed ur_ID (mm_users (w_store w')) /\ forall k r, mm_users (w_store w') !! k = Some r -> one_mail r) as [? ?].
  { destruct Hu as [|rec Hm _|rec old Hm _ _|rec _ Hm _|id]; split; try done; intros k r;
      rewrite ?lookup_insert_Some, ?lookup_delete_Some.
    all: try (intros [[<- <-]|[_ Hk]]; [done|by eauto]).
    all: intros [_ Hk]; by eauto. }
  by constructor.
Qed.

Lemma changes_unique w w' : changes false w w' -> names_unique (w_store w) -> names_unique (w_store w').
Proof.
  intros [Hu _] Hn. unfold names_unique in *.
  destruct Hu as [|rec Hm Hfree|rec old Hm Hold Hname|rec [=]|id]; [done|..]; intros k k' r r'.
  - rewrite !lookup_insert_Some. intros [[<- <-]|[Hk1 Hk]] [[<- <-]|[Hk1' Hk']] He; [done|..|by eauto];
      exfalso; [eapply (Hfree k' r'); [done|congruence|congruence]|eapply (Hfree k r); [done|congruence|congruence]].
  - rewrite !lookup_insert_Some. intros [[<- <-]|[Hk1 Hk]] [[<- <-]|[Hk1' Hk']] He; [done| | |by eauto].
    + eapply (Hn _ _ old r'); congruence.
    + eapply (Hn _ _ r old); congruence.
  - rewrite !lookup_delete_Some. intros [_ Hk] [_ Hk'] He. by eauto.
Qed.

(** C29: However the ports of the in-memory directory are called (any methods
    with any arguments, in any order, whatever each of them answers), the
    records stay filed under their own ids, every user has exactly the one work
    address that is the user name, and no group contains itself, directly or
    through others. And as long as none of the calls patches a user, two users
    never share a name. *)
Theorem directory_invariant cs w :
  dir_ok (w_store w) -> dir_ok (w_store (run_calls cs w)) /\
  (names_unique (w_store w) -> forallb (fun c => negb (is_patch c)) cs = true ->
   names_unique (w_store (run_calls cs w))).
Proof.
  revert w. induction cs as [|c cs IH]; intros w Hok; cbn [run_calls forallb]; [done|].
  destruct (run_call c w) as [r w1] eqn:Hc. cbn [snd].
  apply call_changes in Hc; [|by apply Hok]. destruct (IH w1 (changes_keep _ _ _ Hc Hok)) as [IH1 IH2].
  split; [done|]. intros Hn [Hp%negb_true_iff Hcs]%andb_true_iff. rewrite Hp in Hc.
  apply IH2; [|done]. by eapply changes_unique.
Qed.
End Calls.

(** ** Pages *)

Section Pages.

Lemma page_of_window {A} (all : list A) s n : 1 <= s -> 1 <= n -> s + n < 2 ^ 63 ->
  Z.of_nat (length all) < 2 ^ 63 ->
  page_of all s n = Ret (take (Z.to_nat n) (drop (Z.to_nat (s - 1)) all)).
Proof.
  intros Hs Hn Hb Hl. unfold page_of, int64.
  rewrite (Z.mod_small (s - 1 + 2 ^ 63)) by lia. replace (s - 1 + 2 ^ 63 - 2 ^ 63) with (s - 1) by lia.
  rewrite (proj2 (Z.ltb_ge (s - 1) 0)) by lia.
  destruct (Z.leb_spec (Z.of_nat (length all)) (s - 1)) as [Hle|Hlt].
  { rewrite drop_ge by lia. by rewrite take_nil. }
  rewrite (Z.mod_small (s - 1 + n + 2 ^ 63)) by lia.
  replace (s - 1 + n + 2 ^ 63 - 2 ^ 63) with (s - 1 + n) by lia.
  rewrite (proj2 (Z.leb_gt n 0)) by lia. cbn [orb].
  destruct (Z.ltb_spec (Z.of_nat (length all)) (s - 1 + n)) as [Hgt|Hle].
  - rewrite (proj2 (Z.ltb_ge _ _)) by lia. rewrite !take_ge; [done|rewrite length_drop; lia..].
  - rewrite (proj2 (Z.ltb_ge _ _)) by lia. do 2 f_equal. lia.
Qed.

(** A count of nothing asks for everything. *)
Lemma page_of_zero {A} (all : list A) : page_of all 1 0 = Ret all.
Proof.
  unfold page_of. change (int64 (1 - 1)) with 0. cbn [Z.ltb Z.compare].
  destruct (Z.leb_spec (Z.of_nat (length all)) 0) as [Hle|Hlt].
  - destruct all; [done|cbn in Hle; lia].
  - cbn [Z.leb Z.compare orb]. rewrite (proj2 (Z.ltb_ge _ _)) by lia.
    change (Z.to_nat 0) with O. rewrite drop_0, take_ge by lia. done.
Qed.

Lemma windows_partition {A} (all : list A) n k :
  concat (map (fun i => take n (drop (i * n) all)) (seq 0 k)) = take (k * n) all.
Proof.
  induction k as [|k IH]; [by rewrite take_0|].
  rewrite seq_S, map_app, concat_app, IH. cbn [map concat]. rewrite app_nil_r. cbn [Nat.mul Nat.add].
  rewrite Nat.add_comm, <- take_take_drop. done.
Qed.

Lemma NoDup_map_filter {A B} (f : A -> B) p l : NoDup (map f l) -> NoDup (map f (List.filter p l)).
Proof.
  induction l as [|x l IH]; cbn [map List.filter]; [done|]. intros [Hx Hl]%NoDup_cons. destruct (p x); [|by apply IH].
  cbn [map]. apply NoDup_cons. split; [|by apply IH]. intros (y & Hy & Hin)%list_elem_of_fmap. apply Hx.
  apply list_elem_of_fmap. exists y. split; [done|]. by apply list_elem_of_In, filter_In, proj1, list_elem_of_In in Hin.
Qed.
Lemma sortedUsers_elem us r : r ∈ sortedUsers us <-> exists k, us !! k = Some r.
Proof.
  unfold sortedUsers. rewrite elem_of_sort_by, list_elem_of_fmap. split.
  - intros ([k r'] & -> & Hk%elem_of_map_to_list). by exists k.
  - intros [k Hk]. exists (k, r). split; [done|]. by apply elem_of_map_to_list.
Qed.
Lemma sortedUsers_ids us : filed ur_ID us -> NoDup (map ur_ID (sortedUsers us)).
Proof.
  intros Hf. unfold sortedUsers. rewrite (fmap_Permutation ur_ID _ _ (sort_by_Permutation _ _)).
  change (NoDup (ur_ID <$> (snd <$> map_to_list us))). rewrite <- list_fmap_compose.
  rewrite (list_fmap_ext (ur_ID ∘ snd) fst (map_to_list us)); [apply NoDup_fst_map_to_list|].
  intros i [k r] Hi%list_elem_of_lookup_2%elem_of_map_to_list. cbn. by apply Hf.
Qed.
End Pages.

Section Listing.
Context (E : Env) (ParseFilter : string -> go expr) (L : Lib) (Marshal : jv -> bytes).
Context {DB : Type} (audit : option (Logger DB)).
Implicit Types (w : world (Mem DB)) (m : Mem DB).

(** A logger that may fail but does not panic. *)
Definition calm : Prop := forall log, audit = Some log -> forall ev (w : world DB) why, (log ev w).1 <> Panic why.

Lemma emit_row_calm x action type id before after w : calm -> exists w',
  emit_row E audit x action type id before after w = (Ret tt, w') /\ mm_users (w_store w') = mm_users (w_store w) /\
  mm_groups (w_store w') = mm_groups (w_store w).
Proof.
  intros Hc. destruct (emit_row E audit x action type id before after w) as [r w'] eqn:He.
  pose proof (emit_row_keeps _ _ _ _ _ _ _ _ _ _ _ He) as [Hu Hg]. exists w'. split; [|done].
  unfold emit_row in He. unfold calm in Hc. destruct audit as [log|]; [|injection He as <- <-; done].
  unfold newID, now in He. run_step He.
  unfold call_log, ignore_err in He. specialize (Hc log eq_refl).
  apply try_catch_inv in He as [(a & w1 & H1 & [-> _]%mret_inv)|[(e & w1 & H1 & [-> _]%mret_inv)|(why & H1 & ->)]]; [done..|].
  exfalso. match type of H1 with context [log ?ev ?w0] => apply (Hc ev w0 why); destruct (log ev w0) end.
  by injection H1 as ->.
Qed.

(** The users a filter asks for, in the order of their ids. *)
Definition matching (want : option string) (us : gmap string UserRecord) : list UserRecord :=
  List.filter (fun r => wanted want (ur_UserName r)) (sortedUsers us).

Lemma matching_elem want us r : r ∈ matching want us <->
  (exists k, us !! k = Some r) /\ wanted want (ur_UserName r) = true.
Proof.
  unfold matching. rewrite <- sortedUsers_elem, !list_elem_of_In, filter_In. tauto.
Qed.

Lemma list_page x t s n f want w : IsSingle t = true -> calm -> parseEqFilter ParseFilter f "userName" = Ret want ->
  1 <= s -> 1 <= n -> s + n < 2 ^ 63 -> Z.of_nat (length (matching want (mm_users (w_store w)))) < 2 ^ 63 ->
  let all := matching want (mm_users (w_store w)) in
  exists w', mem_user_ListFiltered E ParseFilter Marshal audit x t s n f w =
    (Ret (MkUserPage (take (Z.to_nat n) (drop (Z.to_nat (s - 1)) all)) (Z.of_nat (length all))), w') /\
    mm_users (w_store w') = mm_users (w_store w).
Proof.
  intros Ht Hc Hf Hs Hn Hb Hl all. unfold mem_user_ListFiltered, holdsTenant. rewrite Ht. cbn [negb].
  rewrite Hf. fold (matching want (mm_users (w_store w))).
  unfold mbind at 1, M_bind at 1. cbn [lift]. unfold mbind at 1, M_bind at 1. cbn [get_mem].
  fold (matching want (mm_users (w_store w))). fold all. rewrite page_of_window by done.
  unfold mbind at 1, M_bind at 1. cbn [lift].
  destruct (emit_row_calm x actionUserList resourceUser "" [] (list_after Marshal f (Z.of_nat (length all))) w Hc)
    as (w' & He & Hu & _).
  exists w'. split; [|done]. unfold mbind, M_bind. by rewrite He.
Qed.

(** A client that asks for [k] pages, from page [i] on. *)
Fixpoint walk_pages (x : Context) (t : ID) (f : string) (n : Z) (k i : nat) w : list (go UserPage) :=
  match k with
  | O => []
  | Datatypes.S k =>
      let '(r, w') := mem_user_ListFiltered E ParseFilter Marshal audit x t (1 + Z.of_nat i * n) n f w in
      r :: walk_pages x t f n k (Datatypes.S i) w'
  end.

Lemma walk_pages_run x t f want n all : IsSingle t = true -> calm ->
  parseEqFilter ParseFilter f "userName" = Ret want -> 1 <= n -> Z.of_nat (length all) < 2 ^ 63 ->
  forall k i w, matching want (mm_users (w_store w)) = all -> (Z.of_nat i + Z.of_nat k) * n < 2 ^ 63 - 1 ->
  walk_pages x t f n k i w =
    map (fun j => Ret (MkUserPage (take (Z.to_nat n) (drop (j * Z.to_nat n) all)) (Z.of_nat (length all)))) (seq i k).
Proof.
  intros Ht Hc Hf Hn Hl. induction k as [|k IH]; intros i w Hw Hb; cbn [walk_pages seq map]; [done|].
  destruct (list_page x t (1 + Z.of_nat i * n) n f want w) as (w' & -> & Hu); try done; try nia; [by rewrite Hw|].
  rewrite IH; [|by rewrite Hu|nia]. rewrite Hw.
  replace (Z.to_nat (1 + Z.of_nat i * n - 1)) with (i * Z.to_nat n)%nat by nia. done.
Qed.

(** A client that walks a listing page by page ([startIndex] 1, 1+n, 1+2n
    and so on, with [count] n at least 1) over a directory nobody else changes
    gets an answer every time, never more than n records in it, and each time
    the number of all matches; and once it has asked for enough pages, these one
    after the other are the records that match the filter, each exactly once, in
    the order of their ids. *)
Theorem pages_partition x t f want n k w :
  filed ur_ID (mm_users (w_store w)) -> IsSingle t = true -> calm ->
  parseEqFilter ParseFilter f "userName" = Ret want -> 1 <= n ->
  let all := matching want (mm_users (w_store w)) in
  Z.of_nat (length all) <= Z.of_nat k * n < 2 ^ 63 - 1 ->
  exists pages, walk_pages x t f n k 0 w = map Ret pages /\
    concat (map up_Users pages) = all /\
    (forall p, p ∈ pages -> Z.of_nat (length (up_Users p)) <= n /\ up_Total p = Z.of_nat (length all)) /\
    NoDup (map ur_ID all) /\ StronglySorted (key_le (fun r => [ur_ID r])) all /\
    (forall r, r ∈ all <-> (exists k, mm_users (w_store w) !! k = Some r) /\ wanted want (ur_UserName r) = true).
Proof.
  intros Hfd Ht Hc Hf Hn all [Hk Hb].
  exists (map (fun j => MkUserPage (take (Z.to_nat n) (drop (j * Z.to_nat n) all)) (Z.of_nat (length all))) (seq 0 k)).
  split_and!.
  - rewrite (walk_pages_run x t f want n all) by (done || nia). by rewrite map_map.
  - rewrite map_map. cbn [up_Users]. rewrite windows_partition, take_ge; [done|nia].
  - intros p (j & -> & _)%list_elem_of_fmap. cbn [up_Users up_Total]. split; [|done]. rewrite length_take. lia.
  - by apply NoDup_map_filter, sortedUsers_ids.
  - apply StronglySorted_filter, sort_by_Sorted.
  - intros r. apply matching_elem.
Qed.
End Listing.

(** ** At concrete inputs *)

Module ToyMem.
(** One second per effect, and ids numbered by what happened before. *)
Definition env : Env := {|
  env_now tr := (1000 + Z.of_nat (length tr)) * 10 ^ 9;
  env_newID tr := "id" +:+ pretty (length tr);
  env_rand _ _ := Ret [];
  env_bcrypt_hash _ _ := Ret "";
  env_bcrypt_ok _ _ := false;
  env_stub := Ret "";
  env_totp _ _ _ := Ret false;
  env_unicode_lower s := s;
  env_numeric_date t := t / 10 ^ 9
|}.
Definition parse : string -> go expr := fun _ => Fail (AppError "filter-parser").
Definition marshal : jv -> bytes := fun _ => [].
Definition log : Logger (list Event) := fun ev w => (Ret ev, World (w_store w ++ [ev]) (w_trace w)).
Definition start : world (Mem (list Event)) := World (MkMem ∅ ∅ []) [].
Definition run := run_calls env parse ScimPatch.Toy.lib marshal (Some log).
Definition named (n : string) : UserWrite := MkUserWrite n "" "" true "".
Definition group (n : string) (ms : list MemberRef) : GroupWrite := MkGroupWrite n "" ms "sa".
Definition new_user (n : string) : call := UserCreate Background Single (named n) (MkWriteMeta false None).
Definition new_group (n : string) (ms : list MemberRef) : call :=
  GroupCreate Background Single (group n ms) (MkGroupWriteMeta false None).

(** Ann and Bob, a group with Ann, a group with that group. *)
Definition setup : list call :=
  [new_user "ann"; new_user "bob"; new_group "eng" [MkMemberRef "id0" ""];
   new_group "all" [MkMemberRef " id10 " "GROUP"]].
(** Then the outer group is put into the inner one, which is refused; Bob
    takes Ann's name, which is refused; Ann is deleted. *)
Definition tries : list call :=
  [GroupSavePatch Background Single "id10" (group "eng" [MkMemberRef "id15" "group"]) [];
   UserReplace Background Single "id5" (named "ann") (MkWriteMeta false None);
   UserDelete Background Single "id0" (MkWriteMeta false None)].
Definition after := run (setup ++ tries) start.

Lemma mem_start_ok : dir_ok (w_store start) /\ names_unique (w_store start).
Proof.
  split; [constructor; try (intros k r Hk; cbn in Hk; by rewrite lookup_empty in Hk)|].
  2: intros k k' r r' Hk; cbn in Hk; by rewrite lookup_empty in Hk.
  intros g Hg. unfold above in Hg. assert (forall a b, ~ contains_ (parent_query (∅ : gmap string GroupRecord)) a b) as Hno.
  { intros a b (ps & [= <-] & Hp). by apply elem_of_nil in Hp. }
  inversion Hg; by eapply Hno.
Qed.

Example setup_runs :
  (gr_Members <$> mm_groups (w_store after) !! "id10") = Some [MkMemberRef "id0" "User"] /\
  (gr_Members <$> mm_groups (w_store after) !! "id15") = Some [MkMemberRef "id10" "Group"] /\
  (ur_UserName <$> mm_users (w_store after) !! "id5") = Some "bob" /\
  mm_users (w_store after) !! "id0" = None /\ length (mm_db (w_store after)) = 5%nat.
Proof. vm_compute. split_and!; reflexivity. Qed.

Lemma directory_invariant_witness : dir_ok (w_store after) /\ names_unique (w_store after).
Proof.
  destruct (directory_invariant env parse ScimPatch.Toy.lib marshal (Some log) (setup ++ tries) start (proj1 mem_start_ok))
    as [Hok Hn].
  split; [exact Hok|]. apply Hn; [exact (proj2 mem_start_ok)|vm_compute; reflexivity].
Defined.

(** A patch asks nobody: Bob renamed Ann is accepted. *)
Definition rename : call := UserSavePatch Background Single "id5" (named "ann") [].
Example patch_duplicates : ~ names_unique (w_store (run (setup ++ [rename]) start)).
Proof.
  intros H. specialize (H "id0" "id5"
    (MkUserRecord "id0" "ann" "" "" [MkEmail "ann" true "work"] true "" (1001 * 10 ^ 9) (1002 * 10 ^ 9))
    (MkUserRecord "id5" "ann" "" "" [MkEmail "ann" true "work"] true "" (1006 * 10 ^ 9) (1020 * 10 ^ 9))).
  discriminate H; vm_compute; reflexivity.
Qed.

(** A deleted user stays a member. *)
Example deleted_user_is_a_member :
  (mm_users (w_store after) !! "id0", gr_Members <$> mm_groups (w_store after) !! "id10") =
  (None, Some [MkMemberRef "id0" "User"]).
Proof. vm_compute. reflexivity. Qed.

(** A page of no records is the whole directory. *)
Definition page_names (count : Z) : go (list string * Z) :=
  page ← (mem_user_ListFiltered env parse marshal (Some log) Background Single 1 count "" (run setup start)).1;
  Ret (map ur_UserName (up_Users page), up_Total page).
Example count_zero_is_everything :
  page_names 0 = Ret (["ann"; "bob"], 2) /\ page_names 1 = Ret (["ann"], 2).
Proof. vm_compute. split; reflexivity. Qed.

Lemma pages_partition_witness : exists pages,
  walk_pages env parse marshal (Some log) Background Single "" 1 2 0 (run setup start) = map Ret pages /\
  map ur_UserName (concat (map up_Users pages)) = ["ann"; "bob"].
Proof.
  destruct (pages_partition env parse marshal (Some log) Background Single "" None 1 2 (run setup start))
    as (pages & Hw & Hc & _).
  - apply (directory_invariant env parse ScimPatch.Toy.lib marshal (Some log) setup start (proj1 mem_start_ok)).
  - reflexivity.
  - intros log' [= <-] ev w why. discriminate.
  - reflexivity.
  - lia.
  - vm_compute. split; [discriminate|reflexivity].
  - exists pages. split; [exact Hw|]. rewrite Hc. vm_compute. reflexivity.
Defined.
End ToyMem.
