(* ===== verification/WebScimLaws.v ===== *)
(** * What the SCIM transport guarantees

    Which tenant's directory a request can see, which writes a validator
    ([If-Match]) stops, and what a page request comes to. *)

From stdpp Require Import pretty.
From S2P Require Import Prelude Tenant Bytes World Crypto AuditEvent ScimPath ScimPatch Http WebAuth WebGates ScimStore ScimWire WebScim.

#[local] Open Scope string_scope.
#[local] Open Scope list_scope.
#[local] Open Scope Z_scope.

(** ** Entity tags *)

Section Tags.

Definition quote : string := String "034"%char "".
Definition tag_of (n : Z) : string := "W/" +:+ quote +:+ pretty n +:+ quote.
Lemma ResourceETag_tag t : IsZero_time t = false -> ResourceETag t = tag_of (UnixNano t).
Proof. unfold ResourceETag. by intros ->. Qed.

Lemma pretty_N_go_bytes (P : ascii -> Prop) : (forall x, (x < 10)%N -> P (pretty_N_char x)) ->
  forall x s, Forall P (to_bytes s) -> Forall P (to_bytes (pretty_N_go x s)).
Proof.
  intros HP x. induction (N.lt_wf_0 x) as [x _ IH]. intros s Hs.
  destruct (decide (x = 0)%N) as [->|Hx]; [by rewrite pretty_N_go_0|].
  rewrite pretty_N_go_step by lia. apply IH; [apply N.div_lt; lia|].
  cbn. constructor; [|done]. apply HP, N.mod_lt. lia.
Qed.
Lemma pretty_bytes (P : ascii -> Prop) (n : Z) : (forall x, (x < 10)%N -> P (pretty_N_char x)) -> P "-"%char ->
  Forall P (to_bytes (pretty n)).
Proof.
  intros HP Hd. assert (forall n, Forall P (to_bytes (pretty_N (N.pos n)))) as Hpos.
  { intros k. unfold pretty_N. rewrite decide_False by lia. apply pretty_N_go_bytes; [done|constructor]. }
  destruct n as [|n|n]; [|apply Hpos|].
  - constructor; [by apply (HP 0%N)|constructor].
  - change (Forall P ("-"%char :: to_bytes (pretty_N (N.pos n)))). by constructor.
Qed.
Lemma digit_not (c : ascii) : existsb (Ascii.eqb c) (to_bytes "0123456789") = false ->
  forall x, (x < 10)%N -> pretty_N_char x <> c.
Proof.
  intros Hc x Hx <-. enough (existsb (Ascii.eqb (pretty_N_char x)) (to_bytes "0123456789") = true) by congruence.
  assert (x = 0 \/ x = 1 \/ x = 2 \/ x = 3 \/ x = 4 \/ x = 5 \/ x = 6 \/ x = 7 \/ x = 8 \/ x = 9)%N as Hd by lia.
  destruct_or! Hd; subst x; vm_compute; reflexivity.
Qed.

(** A tag survives the parsing of [If-Match]. *)
Lemma tag_bytes n : to_bytes (tag_of n) = ["W"%char; "/"%char; "034"%char] ++ to_bytes (pretty n) ++ ["034"%char].
Proof. unfold tag_of. by rewrite !to_bytes_app. Qed.
Lemma trim_tag n : trim_space (tag_of n) = tag_of n.
Proof.
  unfold trim_space, trim. assert (trim_left (String.length (tag_of n)) space_runes (tag_of n) = tag_of n) as ->.
  { unfold tag_of. generalize (pretty n +:+ quote). intros s. reflexivity. }
  assert (List.find (has_suffix (tag_of n)) space_runes = None) as Hf.
  { destruct (List.find _ _) as [p|] eqn:Hp; [exfalso|done].
    apply find_some in Hp as [Hin%list_elem_of_In [t Ht]%has_suffix_spec].
    assert (Forall (fun p => exists c, last (to_bytes p) = Some c /\ c <> "034"%char) space_runes) as Hr.
    { repeat constructor; eexists; (split; [reflexivity|discriminate]). }
    rewrite Forall_forall in Hr. destruct (Hr p Hin) as (c & Hc & Hne).
    apply (f_equal to_bytes) in Ht. rewrite tag_bytes, to_bytes_app in Ht. apply (f_equal last) in Ht.
    rewrite app_assoc, last_snoc, last_app, Hc in Ht. congruence. }
  destruct (String.length (tag_of n)); cbn [trim_right]; [done|by rewrite Hf].
Qed.
Lemma Normalize_tag n : NormalizeETag (tag_of n) = quote +:+ pretty n +:+ quote.
Proof.
  unfold NormalizeETag. rewrite trim_tag. unfold tag_of, trim_prefix at 2.
  rewrite (proj2 (has_prefix_spec _ "W/")) by eauto. 
  unfold string_drop. rewrite string_length_append.
  replace (String.length "W/" + String.length (quote +:+ pretty n +:+ quote) - String.length "W/")%nat
    with (String.length (quote +:+ pretty n +:+ quote)) by lia.
  rewrite append_substring_suffix. generalize (pretty n +:+ quote). intros s. reflexivity.
Qed.
Lemma quoted_inj (m n : Z) : quote +:+ pretty m +:+ quote = quote +:+ pretty n +:+ quote -> m = n.
Proof.
  intros H. apply (f_equal to_bytes) in H. rewrite !to_bytes_app in H.
  apply app_inv_head in H. apply app_inv_tail in H. apply to_bytes_inj in H. by apply (inj pretty).
Qed.

(** The tag of one version, sent back, matches exactly the versions of the
    same nanosecond (modulo 2^64). *)
Lemma CheckIfMatch_tag (r : Request) (t u : time) :
  Header_Get (r_Header r) "If-Match" = ResourceETag t -> IsZero_time t = false -> IsZero_time u = false ->
  CheckIfMatch r (ResourceETag u) = bool_decide (UnixNano t = UnixNano u).
Proof.
  intros Hh Ht Hu. unfold CheckIfMatch. rewrite Hh, !ResourceETag_tag, trim_tag by done.
  set (m := UnixNano t). set (n := UnixNano u).
  destruct (String.eqb_spec (tag_of m) "") as [Hx|_]; [by apply (f_equal to_bytes) in Hx; rewrite tag_bytes in Hx|].
  destruct (String.eqb_spec (tag_of m) "*") as [Hx|_]; [by apply (f_equal to_bytes) in Hx; rewrite tag_bytes in Hx|].
  rewrite split_on_part; cycle 1.
  { rewrite tag_bytes. repeat (constructor; [discriminate|]). apply Forall_app. split.
    - apply pretty_bytes; [by apply digit_not|discriminate].
    - repeat constructor. discriminate. }
  cbn [existsb]. rewrite orb_false_r. unfold to_bytes at 1. rewrite String.string_of_list_ascii_of_string, !Normalize_tag.
  case_bool_decide as He; [rewrite He; apply String.eqb_refl|].
  apply String.eqb_neq. by intros ?%quoted_inj.
Qed.
End Tags.

(** ** Equal runs *)

Lemma bind_ext {S A B} (m m' : M S A) (k k' : A -> M S B) w :
  m w = m' w -> (forall a w, k a w = k' a w) -> (m ≫= k) w = (m' ≫= k') w.
Proof. unfold mbind, M_bind. intros -> Hk. destruct (m' w) as [[] ?]; [apply Hk|done..]. Qed.
Lemma try_catch_ext {S A B} (m m' : M S A) on_err (k k' : A -> M S B) w :
  m w = m' w -> (forall a w, k a w = k' a w) -> try_catch m on_err k w = try_catch m' on_err k' w.
Proof. unfold try_catch. intros -> Hk. destruct (m' w) as [[] ?]; [apply Hk|done..]. Qed.
Lemma asking_ext {S A} (m m' : M S A) on_err (k k' : A -> M (Web S) unit) w :
  (forall w, m w = m' w) -> (forall a w, k a w = k' a w) -> asking m on_err k w = asking m' on_err k' w.
Proof. intros Hm Hk. unfold asking. apply try_catch_ext; [|done]. unfold call_app. by rewrite Hm. Qed.
Lemma with_body_ext {S A} text (m : M (Web S) (decode_error + A)) (k k' : A -> M (Web S) unit) w :
  (forall a w, k a w = k' a w) -> with_body text m k w = with_body text m k' w.
Proof. intros Hk. unfold with_body. apply bind_ext; [done|]. by intros [] w'. Qed.

Section Laws.
Context (L : Lib) (utf8 : string -> string) (text : error -> string) (scan : Scanner).
Context {S : Type}.
Implicit Types (rt : SCIMRoutes S) (r : Request) (w : world (Web S)).

(** ** One tenant *)

Definition read_handlers rt : list (Handler S) :=
  [UsersGet text rt; UsersList text rt; GroupsGet text rt; GroupsList text rt].
Definition write_handlers rt : list (Handler S) :=
  [UsersCreate L text scan rt; UsersReplace L text scan rt; UsersDelete text rt; UsersPatch L utf8 text scan rt;
   GroupsCreate L text scan rt; GroupsReplace L text scan rt; GroupsDelete text rt; GroupsPatch L utf8 text scan rt].
Definition resource_handlers rt : list (Handler S) := read_handlers rt ++ write_handlers rt.

(** The tenant of the validated principal. *)
Definition acts_in r (t : ID) : Prop := exists p, GetPrincipal (r_ctx r) = Some p /\ t = FromStored (pp_TenantID p).

Lemma scimTenant_acts r t : acts_in r t -> scimTenant (r_ctx r) = Ret t.
Proof. intros (p & Hp & ->). unfold scimTenant, MustGetPrincipal, tenantOfPrincipal. by rewrite Hp. Qed.
Lemma scimTenant_none x : GetPrincipal x = None -> scimTenant x = Panic "principal not in context".
Proof. intros Hp. unfold scimTenant, MustGetPrincipal. by rewrite Hp. Qed.

(** The stores differ, the tenant asked for or its answers do not. *)
Definition alike rt rt' r : Prop :=
  rt_cfg rt = rt_cfg rt' /\
  match scimTenant (r_ctx r) with
  | Ret t => same_users t (rt_users rt) (rt_users rt') /\ same_groups t (rt_groups rt) (rt_groups rt')
  | _ => True
  end.

Ltac same_call := let H := fresh in let Hu := fresh in let Hg := fresh in
  intros [_ H]; revert H; cbv beta delta
    [userCreate userGet userReplace userDelete userSavePatch userListFiltered groupCreate groupGet groupReplace
     groupDelete groupSavePatch groupValidateMembers groupListFiltered];
  unfold mbind, M_bind, lift; destruct (scimTenant _) as [?|?|?]; [intros [Hu Hg]|done..];
  first [apply Hu | apply Hg].

Section Alike.
Context rt rt' r (H : alike rt rt' r).
Local Abbreviation x := (r_ctx r).

Lemma userCreate_same wr meta (w : world S) : userCreate rt x wr meta w = userCreate rt' x wr meta w.
Proof. revert H. same_call. Qed.
Lemma userGet_same id (w : world S) : userGet rt x id w = userGet rt' x id w.
Proof. revert H. same_call. Qed.
Lemma userReplace_same id wr meta (w : world S) : userReplace rt x id wr meta w = userReplace rt' x id wr meta w.
Proof. revert H. same_call. Qed.
Lemma userDelete_same id meta (w : world S) : userDelete rt x id meta w = userDelete rt' x id meta w.
Proof. revert H. same_call. Qed.
Lemma userSavePatch_same id wr ops (w : world S) : userSavePatch rt x id wr ops w = userSavePatch rt' x id wr ops w.
Proof. revert H. same_call. Qed.
Lemma userListFiltered_same s n f (w : world S) : userListFiltered rt x s n f w = userListFiltered rt' x s n f w.
Proof. revert H. same_call. Qed.
Lemma groupCreate_same wr meta (w : world S) : groupCreate rt x wr meta w = groupCreate rt' x wr meta w.
Proof. revert H. same_call. Qed.
Lemma groupGet_same id (w : world S) : groupGet rt x id w = groupGet rt' x id w.
Proof. revert H. same_call. Qed.
Lemma groupReplace_same id wr meta (w : world S) : groupReplace rt x id wr meta w = groupReplace rt' x id wr meta w.
Proof. revert H. same_call. Qed.
Lemma groupDelete_same id meta (w : world S) : groupDelete rt x id meta w = groupDelete rt' x id meta w.
Proof. revert H. same_call. Qed.
Lemma groupSavePatch_same id wr ops (w : world S) : groupSavePatch rt x id wr ops w = groupSavePatch rt' x id wr ops w.
Proof. revert H. same_call. Qed.
Lemma groupValidateMembers_same ms (w : world S) : groupValidateMembers rt x ms w = groupValidateMembers rt' x ms w.
Proof. revert H. same_call. Qed.
Lemma groupListFiltered_same s n f (w : world S) : groupListFiltered rt x s n f w = groupListFiltered rt' x s n f w.
Proof. revert H. same_call. Qed.
End Alike.
Create HintDb scim_same.
#[local] Hint Resolve userCreate_same userGet_same userReplace_same userDelete_same userSavePatch_same
  userListFiltered_same groupCreate_same groupGet_same groupReplace_same groupDelete_same groupSavePatch_same
  groupValidateMembers_same groupListFiltered_same : scim_same.

Ltac same_run := repeat first
  [ done
  | apply asking_ext; [intros ?; solve [auto with scim_same]|intros ? ?]
  | apply with_body_ext; intros ? ?
  | apply try_catch_ext; [done|intros ? ?]
  | apply bind_ext; [done|intros ? ?]
  | case_match ].

Lemma handlers_alike cfg U U' G G' r w : alike (MkSCIMRoutes cfg U G) (MkSCIMRoutes cfg U' G') r ->
  map (fun h => h r w) (resource_handlers (MkSCIMRoutes cfg U G)) =
  map (fun h => h r w) (resource_handlers (MkSCIMRoutes cfg U' G')).
Proof.
  intros H. unfold resource_handlers, read_handlers, write_handlers. cbn [app map].
  repeat (apply (f_equal2 (@cons _)); [|]); [..|done];
    [ unfold UsersGet | unfold UsersList | unfold GroupsGet | unfold GroupsList | unfold UsersCreate
    | unfold UsersReplace | unfold UsersDelete | unfold UsersPatch | unfold GroupsCreate | unfold GroupsReplace
    | unfold GroupsDelete | unfold GroupsPatch ]; same_run.
Qed.
Lemma agree_alike cfg U U' G G' r : (forall t, acts_in r t -> same_users t U U' /\ same_groups t G G') ->
  alike (MkSCIMRoutes cfg U G) (MkSCIMRoutes cfg U' G') r.
Proof.
  intros Hsame. split; [done|]. cbn [rt_users rt_groups]. destruct (GetPrincipal (r_ctx r)) as [p|] eqn:Hp.
  - rewrite (scimTenant_acts r (FromStored (pp_TenantID p))) by (by exists p). apply Hsame. by exists p.
  - by rewrite scimTenant_none.
Qed.

(** C28: Whatever a resource request says about itself (path, query, headers,
    host, body), the directory it reads and writes is that of the tenant on its
    validated principal: two deployments whose stores agree on this tenant give
    the same answer and leave the same state, on every one of the twelve routes.
    And a request without a principal reaches no store at all. *)
Theorem scim_tenant_only cfg U U' G G' r w :
  (forall t, acts_in r t -> same_users t U U' /\ same_groups t G G') ->
  map (fun h => h r w) (resource_handlers (MkSCIMRoutes cfg U G)) =
  map (fun h => h r w) (resource_handlers (MkSCIMRoutes cfg U' G')).
Proof. intros Hsame. by apply handlers_alike, agree_alike. Qed.

(** ** Conditional writes *)

(** In the state [s] a tenant's directory has the record, and reading it
    changes nothing. *)
Definition holds_user (U : UserStore S) (t : ID) (s : S) (id : string) (rec : UserRecord) : Prop :=
  forall x tr, exists tr', us_Get U x t id (World s tr) = (Ret rec, World s tr').
Definition holds_group (G : GroupStore S) (t : ID) (s : S) (id : string) (rec : GroupRecord) : Prop :=
  forall x tr, exists tr', gs_Get G x t id (World s tr) = (Ret rec, World s tr').
(** Validating members changes nothing. *)
Definition validates (G : GroupStore S) (t : ID) : Prop :=
  forall x ms (w : world S) res (w' : world S), gs_ValidateMembers G x t ms w = (res, w') -> w_store w' = w_store w.

Definition app_of w : S := web_app (w_store w).
(** The request is answered with an error of the client's or the server's, or
    the handler panics; either way the application's state is what it was. *)
Definition away w (out : go unit * world (Web S)) : Prop :=
  (exists status detail ty w1, out = WriteSCIMErrorTyped status detail ty w1 /\ 400 <= status /\ app_of w1 = app_of w) \/
  (exists why w1, out = (Panic why, w1) /\ app_of w1 = app_of w).
Definition turned_away r w (h : Handler S) : Prop := away w (h r w).

Lemma turned status detail ty w w1 : 400 <= status -> app_of w1 = app_of w ->
  away w (WriteSCIMErrorTyped status detail ty w1).
Proof. intros. left. by exists status, detail, ty, w1. Qed.

(** What reading the body leaves. *)
Lemma read_body_app {A} as_ (zero : A) max r w : exists res w1,
  read_body scan as_ zero max r w = (Ret res, w1) /\ app_of w1 = app_of w.
Proof.
  unfold read_body. destruct (scan max r) as [hit res]. unfold mbind, M_bind.
  destruct hit; cbn; eexists _, _; (split; [reflexivity|done]).
Qed.

Lemma userGet_run rt r t id rec w : acts_in r t -> holds_user (rt_users rt) t (app_of w) id rec -> exists w1,
  call_app (userGet rt (r_ctx r) id) w = (Ret rec, w1) /\ app_of w1 = app_of w.
Proof.
  intros Ht Hu. unfold call_app, userGet, mbind, M_bind, lift. rewrite (scimTenant_acts r t Ht).
  destruct (Hu (r_ctx r) (w_trace w)) as (tr' & Hg). unfold app_of in Hg. rewrite Hg. by eexists.
Qed.
Lemma groupGet_run rt r t id rec w : acts_in r t -> holds_group (rt_groups rt) t (app_of w) id rec -> exists w1,
  call_app (groupGet rt (r_ctx r) id) w = (Ret rec, w1) /\ app_of w1 = app_of w.
Proof.
  intros Ht Hu. unfold call_app, groupGet, mbind, M_bind, lift. rewrite (scimTenant_acts r t Ht).
  destruct (Hu (r_ctx r) (w_trace w)) as (tr' & Hg). unfold app_of in Hg. rewrite Hg. by eexists.
Qed.
Lemma asking_run {A} (m : M S A) on_err (k : A -> M (Web S) unit) w a w1 :
  call_app m w = (Ret a, w1) -> asking m on_err k w = k a w1.
Proof. unfold asking, try_catch. by intros ->. Qed.
Lemma asking_outcome {A} (m : M S A) on_err (k : A -> M (Web S) unit) w res w1 :
  call_app m w = (res, w1) -> asking m on_err k w =
  match res with Ret a => k a w1 | Fail e => on_err e w1 | Panic why => (Panic why, w1) end.
Proof. unfold asking, try_catch. intros ->. by destruct res. Qed.
Lemma with_body_run {A} (m : M (Web S) (decode_error + A)) (k : A -> M (Web S) unit) w res w1 :
  m w = (Ret res, w1) -> with_body text m k w = match res with inl e => writeSCIMDecodeError text e w1 | inr b => k b w1 end.
Proof. unfold with_body, mbind, M_bind. intros ->. by destruct res. Qed.

Lemma groupValidate_app rt r t ms w : acts_in r t -> validates (rt_groups rt) t -> exists res w1,
  call_app (groupValidateMembers rt (r_ctx r) ms) w = (res, w1) /\ app_of w1 = app_of w.
Proof.
  intros Ht Hv. unfold call_app, groupValidateMembers, mbind, M_bind, lift. rewrite (scimTenant_acts r t Ht).
  destruct (gs_ValidateMembers _ _ _ _ _) as [res w1] eqn:Hg. apply Hv in Hg. eexists _, _. split; [done|]. exact Hg.
Qed.

(** Every answer to an error of a store, a body or a patch. *)
Lemma decode_error_turned e w w1 : app_of w1 = app_of w -> exists status detail ty,
  writeSCIMDecodeError text e w1 = WriteSCIMErrorTyped status detail ty w1 /\ 400 <= status.
Proof. destruct e; intros _; eexists _, _, _; (split; [reflexivity|lia]). Qed.
Lemma group_error_turned e w1 : exists status detail ty,
  writeGroupStoreErr text e (w1 : world (Web S)) = WriteSCIMErrorTyped status detail ty w1 /\ 400 <= status.
Proof. unfold writeGroupStoreErr. repeat case_match; eexists _, _, _; (split; [reflexivity|lia]). Qed.

Definition if_match r (tag : string) : Prop := Header_Get (r_Header r) "If-Match" = tag.
Definition target r : string := scimTrailingSegment (r_Path r).

Lemma stale_check r seen now : if_match r (ResourceETag seen) -> IsZero_time seen = false ->
  IsZero_time now = false -> UnixNano now <> UnixNano seen -> CheckIfMatch r (ResourceETag now) = false.
Proof. intros Hm Hs Hn Hne. rewrite (CheckIfMatch_tag r seen now Hm Hs Hn). apply bool_decide_false. congruence. Qed.

Ltac answered := apply turned; [lia|congruence].
Ltac body_read := match goal with
  |- context [with_body _ (read_body _ ?as_ ?zero ?max ?r) ?k ?w] =>
     let Hb := fresh "Hb" in let Ha := fresh "Ha" in
     destruct (read_body_app as_ zero max r w) as ([e|body] & w1 & Hb & Ha);
     rewrite (with_body_run _ k w _ w1 Hb);
     [destruct (decode_error_turned e w w1 Ha) as (? & ? & ? & -> & ?); by apply turned|]
  end.

Section Stale.
Context rt r t seen (Ht : acts_in r t) (Hm : if_match r (ResourceETag seen)) (Hs : IsZero_time seen = false)
  (Hid : target r <> "").

Section User.
Context rec (Hn : IsZero_time (ur_Updated rec) = false) (Hne : UnixNano (ur_Updated rec) <> UnixNano seen).
Implicit Types (k : UserRecord -> M (Web S) unit).

(** Reading the record and finding it changed. *)
Lemma stale_user w0 w k : holds_user (rt_users rt) t (app_of w0) (target r) rec -> app_of w = app_of w0 ->
  (forall w1, app_of w1 = app_of w0 -> k rec w1 = precondition_failed w1) -> exists w1,
  asking (userGet rt (r_ctx r) (target r)) (writeUserStoreErr text) k w = precondition_failed w1 /\
  app_of w1 = app_of w0.
Proof.
  intros Hu Hw Hk. rewrite <- Hw in Hu. destruct (userGet_run rt r t _ rec w Ht Hu) as (w1 & Hg & Ha).
  exists w1. rewrite (asking_run _ _ _ _ _ _ Hg), Hk; [|congruence]. split; [done|congruence].
Qed.

Lemma user_delete_stale w : holds_user (rt_users rt) t (app_of w) (target r) rec -> turned_away r w (UsersDelete text rt).
Proof.
  intros Hu. unfold turned_away, UsersDelete. fold (target r). rewrite (proj2 (String.eqb_neq _ _) Hid).
  match goal with |- context [asking _ _ ?k _] => destruct (stale_user w w k Hu eq_refl) as (w1 & -> & Ha) end.
  - intros w1 _. by rewrite (stale_check r seen).
  - answered.
Qed.
Lemma user_patch_stale w : holds_user (rt_users rt) t (app_of w) (target r) rec ->
  turned_away r w (UsersPatch L utf8 text scan rt).
Proof.
  intros Hu. unfold turned_away, UsersPatch. fold (target r). rewrite (proj2 (String.eqb_neq _ _) Hid).
  match goal with |- context [asking _ _ ?k _] => destruct (stale_user w w k Hu eq_refl) as (w1 & -> & Ha) end.
  - intros w1 _. by rewrite (stale_check r seen).
  - answered.
Qed.
Lemma user_replace_stale w : holds_user (rt_users rt) t (app_of w) (target r) rec ->
  turned_away r w (UsersReplace L text scan rt).
Proof.
  intros Hu. unfold turned_away, UsersReplace, readSCIMUserBody. fold (target r). rewrite (proj2 (String.eqb_neq _ _) Hid).
  body_read. cbv zeta. destruct (String.eqb _ ""); [answered|].
  match goal with |- context [asking _ _ ?k _] => destruct (stale_user w w1 k Hu Ha) as (w2 & -> & Ha2) end.
  - intros w2 _. by rewrite (stale_check r seen).
  - answered.
Qed.
End User.

Section Group.
Context rec (Hn : IsZero_time (gr_Updated rec) = false) (Hne : UnixNano (gr_Updated rec) <> UnixNano seen).
Implicit Types (k : GroupRecord -> M (Web S) unit).

Lemma stale_group w0 w k : holds_group (rt_groups rt) t (app_of w0) (target r) rec -> app_of w = app_of w0 ->
  (forall w1, app_of w1 = app_of w0 -> k rec w1 = precondition_failed w1) -> exists w1,
  asking (groupGet rt (r_ctx r) (target r)) (writeGroupStoreErr text) k w = precondition_failed w1 /\
  app_of w1 = app_of w0.
Proof.
  intros Hu Hw Hk. rewrite <- Hw in Hu. destruct (groupGet_run rt r t _ rec w Ht Hu) as (w1 & Hg & Ha).
  exists w1. rewrite (asking_run _ _ _ _ _ _ Hg), Hk; [|congruence]. split; [done|congruence].
Qed.

Lemma group_delete_stale w : holds_group (rt_groups rt) t (app_of w) (target r) rec -> turned_away r w (GroupsDelete text rt).
Proof.
  intros Hu. unfold turned_away, GroupsDelete. fold (target r). rewrite (proj2 (String.eqb_neq _ _) Hid).
  match goal with |- context [asking _ _ ?k _] => destruct (stale_group w w k Hu eq_refl) as (w1 & -> & Ha) end.
  - intros w1 _. by rewrite (stale_check r seen).
  - answered.
Qed.
Lemma group_patch_stale w : holds_group (rt_groups rt) t (app_of w) (target r) rec ->
  turned_away r w (GroupsPatch L utf8 text scan rt).
Proof.
  intros Hu. unfold turned_away, GroupsPatch. fold (target r). rewrite (proj2 (String.eqb_neq _ _) Hid).
  match goal with |- context [asking _ _ ?k _] => destruct (stale_group w w k Hu eq_refl) as (w1 & -> & Ha) end.
  - intros w1 _. by rewrite (stale_check r seen).
  - answered.
Qed.
Lemma group_replace_stale w : holds_group (rt_groups rt) t (app_of w) (target r) rec -> validates (rt_groups rt) t ->
  turned_away r w (GroupsReplace L text scan rt).
Proof.
  intros Hu Hv. unfold turned_away, GroupsReplace, readSCIMGroupBody. fold (target r).
  rewrite (proj2 (String.eqb_neq _ _) Hid). body_read. cbv zeta. destruct (String.eqb _ ""); [answered|].
  destruct (groupValidate_app rt r t (groupMemberRefs (gb_Members body)) w1 Ht Hv) as (res & w2 & Hval & Ha2).
  rewrite (asking_outcome _ _ _ _ _ _ Hval). destruct res as [[]|e|why].
  - match goal with |- context [asking _ _ ?k _] => destruct (stale_group w w2 k Hu) as (w3 & -> & Ha3) end;
      [congruence| |answered]. intros w3 _. by rewrite (stale_check r seen).
  - destruct (group_error_turned e w2) as (? & ? & ? & -> & ?). apply turned; [done|congruence].
  - right. exists why, w2. split; [done|congruence].
Qed.
End Group.
End Stale.

(** A write conditional on a version that is no longer the current one
    never happens. Let [If-Match] carry the entity tag of the version of time
    [seen], and let the record the path names be at another version now: then
    each of PUT, PATCH and DELETE, on users and on groups, is turned away with
    an error status (or panics) and leaves the application's state as it was,
    whatever the body is. *)
Theorem stale_write_refused rt r t seen w :
  acts_in r t -> if_match r (ResourceETag seen) -> IsZero_time seen = false -> target r <> "" ->
  (forall rec, holds_user (rt_users rt) t (app_of w) (target r) rec ->
     IsZero_time (ur_Updated rec) = false -> UnixNano (ur_Updated rec) <> UnixNano seen ->
     Forall (turned_away r w) [UsersReplace L text scan rt; UsersPatch L utf8 text scan rt; UsersDelete text rt]) /\
  (forall rec, holds_group (rt_groups rt) t (app_of w) (target r) rec -> validates (rt_groups rt) t ->
     IsZero_time (gr_Updated rec) = false -> UnixNano (gr_Updated rec) <> UnixNano seen ->
     Forall (turned_away r w) [GroupsReplace L text scan rt; GroupsPatch L utf8 text scan rt; GroupsDelete text rt]).
Proof.
  intros Ht Hm Hs Hid. split.
  - intros rec Hu Hn Hne. repeat apply Forall_cons_2; [..|apply Forall_nil_2];
      [eapply user_replace_stale|eapply user_patch_stale|eapply user_delete_stale]; eassumption.
  - intros rec Hu Hv Hn Hne. repeat apply Forall_cons_2; [..|apply Forall_nil_2];
      [eapply group_replace_stale|eapply group_patch_stale|eapply group_delete_stale]; eassumption.
Qed.
End Laws.

(** ** Page requests *)

Lemma Atoi_range s n : Atoi s = Some n -> - 2 ^ 63 <= n < 2 ^ 63.
Proof.
  unfold Atoi. destruct (match to_bytes s with [] => (1, []) | c :: ds => _ end) as [sign ds].
  destruct ds; [done|]. destruct (digits_value _ _) as [m|]; [|done]. cbn.
  destruct (Z.leb_spec (- 2 ^ 63) (sign * m)), (Z.ltb_spec (sign * m) (2 ^ 63)); cbn [andb]; try done.
  intros [= <-]. lia.
Qed.

(** Whatever the query of a listing says, the store is asked for a page
    that starts at 1 or later and has a count from 0 up to the larger of the
    configured cap and 20; a count above the cap occurs only as the default of
    20, when no number was given and the cap is below 20. Both are 64-bit
    integers. *)
Theorem page_request_bounds cfg q start count : 0 < cf_MaxResults cfg < 2 ^ 63 ->
  parsePagination cfg q = (start, count) ->
  1 <= start < 2 ^ 63 /\ 0 <= count < 2 ^ 63 /\ count <= Z.max 20 (cf_MaxResults cfg) /\
  (cf_MaxResults cfg < count -> count = 20 /\ Atoi (firstQueryValue q "count") = None) /\
  (forall n, Atoi (firstQueryValue q "count") = Some n -> 0 <= n <= cf_MaxResults cfg -> count = n).
Proof.
  intros Hmax H. unfold parsePagination in H. injection H as <- <-.
  assert (forall v, (if negb (String.eqb v "") then
      match Atoi v with
      | Some n => let n := if n <? 0 then 0 else n in if cf_MaxResults cfg <? n then cf_MaxResults cfg else n
      | None => 20 end else 20) =
    match Atoi v with
    | Some n => let n := if n <? 0 then 0 else n in if cf_MaxResults cfg <? n then cf_MaxResults cfg else n
    | None => 20 end) as -> by (intros [|? ?]; done).
  split.
  - destruct (negb _); [|lia]. destruct (Atoi _) as [n|] eqn:Hn; [|lia]. apply Atoi_range in Hn.
    destruct (Z.leb_spec 1 n); lia.
  - destruct (Atoi (firstQueryValue q "count")) as [n|] eqn:Hn; [|split_and!; try lia; try done].
    apply Atoi_range in Hn. cbv zeta.
    destruct (Z.ltb_spec n 0), (Z.ltb_spec (cf_MaxResults cfg) n), (Z.ltb_spec (cf_MaxResults cfg) 0); try lia;
      split_and!; try lia; intros ? [= <-]; lia.
Qed.
