(* ===== verification/WebScimPatch.v ===== *)
(** * What PATCH reads and persists

    The two conversions of [scimpatch.go] between a resource and a map: what a
    struct is after decoding a map, attribute by attribute whatever their
    spelling; that a resource survives the round trip; and what [UsersPatch]
    hands to the store. *)

From S2P Require Import Prelude Tenant Bytes World Crypto AuditEvent ScimFilter ScimPath ScimPatch Http WebAuth WebGates ScimStore ScimWire WebScim ScimMemStore ScimMemLaws WebScimLaws.

Set Warnings "-register-all".
#[local] Open Scope string_scope.
#[local] Open Scope list_scope.
#[local] Open Scope Z_scope.

(** ** Members of an object and fields of a struct *)

Lemma NoDup_omap_inj {A B} (g : A -> option B) l : NoDup l ->
  (forall x y z, x ∈ l -> y ∈ l -> g x = Some z -> g y = Some z -> x = y) -> NoDup (omap g l).
Proof.
  induction 1 as [|x l Hx Hl IH]; intros Hinj; cbn; [constructor|].
  assert (NoDup (omap g l)) as IH' by (apply IH; intros; eapply Hinj; [by right|by right|done..]).
  destruct (g x) as [z|] eqn:Hg; [|done]. apply NoDup_cons. split; [|done].
  intros (y & Hy & Hgy)%list_elem_of_omap. apply Hx. rewrite (Hinj x y z); [done|by left|by right|done..].
Qed.

Definition member : Type := string * string * doc.
Definition members_of (m : object) : list member :=
  sort_by member_key (map_fold (fun k v acc => (k, "", of_json v) :: acc) [] m).

Lemma of_json_object m : of_json (JObject m) = DObject (members_of m).
Proof. reflexivity. Qed.

Lemma members_perm m : members_of m ≡ₚ map (fun kv => (kv.1, "", of_json kv.2)) (map_to_list m).
Proof.
  unfold members_of. rewrite sort_by_Permutation, map_fold_foldr.
  induction (map_to_list m) as [|[k v] l IH]; cbn; [done|]. by constructor.
Qed.
Lemma elem_of_members m x : x ∈ members_of m <-> exists k v, m !! k = Some v /\ x = (k, "", of_json v).
Proof.
  rewrite members_perm, list_elem_of_fmap. split.
  - intros ([k v] & -> & Hkv%elem_of_map_to_list). by exists k, v.
  - intros (k & v & Hkv & ->). exists (k, v). split; [done|]. by apply elem_of_map_to_list.
Qed.
Lemma members_NoDup m : NoDup (members_of m).
Proof.
  rewrite members_perm. apply (NoDup_fmap_2_strong (fun kv => (kv.1, "", of_json kv.2))); [|apply NoDup_map_to_list].
  intros [k v] [k' v'] Hk%elem_of_map_to_list Hk'%elem_of_map_to_list [= <- _]. congruence.
Qed.

Section Fields.
Context (L : Lib) (HL : lib_laws L).
Implicit Types (m : object) (l : list member).

(** Names no two of which fold together. *)
Definition apart (names : list string) : Prop :=
  forall f f', f ∈ names -> f' ∈ names -> EqualFold L f f' = true -> f = f'.

Lemma field_of_Some names k f : field_of L names k = Some f -> f ∈ names /\ EqualFold L k f = true.
Proof.
  unfold field_of. destruct (existsb _ _) eqn:He.
  - intros [= <-]. apply existsb_exists in He as (x & Hx & ->%String.eqb_eq). split; [by apply list_elem_of_In|apply (fold_refl L HL)].
  - intros [Hin Hf]%find_some. split; [by apply list_elem_of_In|done].
Qed.
Lemma field_of_fold names k f : apart names -> f ∈ names -> EqualFold L k f = true -> field_of L names k = Some f.
Proof.
  intros Ha Hf Hk. unfold field_of. destruct (existsb _ _) eqn:He.
  - apply existsb_exists in He as (x & Hx & ->%String.eqb_eq). f_equal. apply Ha; [by apply list_elem_of_In|done|done].
  - destruct (List.find (EqualFold L k) names) as [f'|] eqn:Hfind.
    + apply find_some in Hfind as [Hin Hk']. f_equal. apply Ha; [by apply list_elem_of_In|done|].
      eapply (fold_trans L HL); [|exact Hk]. by rewrite (fold_sym L HL).
    + rewrite (find_none _ _ Hfind f) in Hk; [done|by apply list_elem_of_In].
Qed.

(** The value a field gets: of the member that goes to it. *)
Definition goes_to (names : list string) (f : string) (x : member) : bool :=
  bool_decide (field_of L names x.1.1 = Some f).
Definition entry (names : list string) l (f : string) : option doc :=
  snd <$> List.find (goes_to names f) l.

(** The value an attribute has in a map, whatever the spelling of its name. *)
Definition attr m (name : string) : option json := m !! resolveKey L m name.

Lemma entry_attr names m f : apart names -> tidy L m -> f ∈ names -> entry names (members_of m) f = of_json <$> attr m f.
Proof.
  intros Ha Ht Hf. unfold entry, attr. destruct (List.find (goes_to names f) (members_of m)) as [x|] eqn:Hx.
  - apply find_some in Hx as [(k & v & Hk & ->)%list_elem_of_In%elem_of_members Hg%bool_decide_eq_true].
    cbn in Hg. apply field_of_Some in Hg as [_ Hg]. cbn.
    assert (resolveKey L m f = k) as ->; [|by rewrite Hk].
    destruct (m !! resolveKey L m f) as [v'|] eqn:Hr.
    + eapply Ht; [by eexists|by eexists|]. eapply (fold_trans L HL); [apply (resolveKey_fold L HL)|].
      by rewrite (fold_sym L HL).
    + apply (resolveKey_None L HL) in Hr as [_ Hr]. rewrite (Hr k) in Hg; [done|by eexists].
  - cbn. destruct (m !! resolveKey L m f) as [v|] eqn:Hr; [exfalso|done].
    assert ((resolveKey L m f, "", of_json v) ∈ members_of m) as Hin by (apply elem_of_members; eauto).
    apply list_elem_of_In, (find_none _ _ Hx) in Hin. apply bool_decide_eq_false in Hin. cbn in Hin.
    apply Hin. apply field_of_fold; [done|done|apply (resolveKey_fold L HL)].
Qed.

Lemma fields_once names m : tidy L m -> NoDup (omap (fun x : member => field_of L names x.1.1) (members_of m)).
Proof.
  intros Ht. apply NoDup_omap_inj; [apply members_NoDup|].
  intros x y f (k & v & Hk & ->)%elem_of_members (k' & v' & Hk' & ->)%elem_of_members Hx%field_of_Some Hy%field_of_Some.
  cbn in *. assert (k = k') as <-; [|congruence].
  eapply Ht; [by eexists|by eexists|]. eapply (fold_trans L HL); [apply Hx|]. rewrite (fold_sym L HL). apply Hy.
Qed.

(** One more member in front. *)
Lemma entry_cons names x l f f' : NoDup (omap (fun x : member => field_of L names x.1.1) (x :: l)) ->
  field_of L names x.1.1 = Some f ->
  entry names (x :: l) f' = (if String.eqb f' f then Some x.2 else entry names l f') /\ entry names l f = None.
Proof.
  intros Hn Hf. assert (entry names l f = None) as Hnone.
  { unfold entry. destruct (List.find _ l) as [y|] eqn:Hy; [exfalso|done].
    apply find_some in Hy as [Hy%list_elem_of_In Hg%bool_decide_eq_true].
    cbn in Hn. rewrite Hf in Hn. apply NoDup_cons in Hn as [Hn _]. apply Hn.
    apply list_elem_of_omap. by exists y. }
  split; [|done]. unfold entry, goes_to. cbn [List.find]. rewrite Hf.
  destruct (String.eqb_spec f' f) as [->|Hne]; [by rewrite bool_decide_true|].
  rewrite bool_decide_false; [done|congruence].
Qed.
Lemma entry_skip names x l f' : field_of L names x.1.1 = None -> entry names (x :: l) f' = entry names l f'.
Proof. intros Hf. unfold entry, goes_to. cbn [List.find]. by rewrite Hf. Qed.

(** ** Users *)

Definition slot {A} (dec : doc -> A -> option A) (old : A) (e : option doc) : option A :=
  match e with None => Some old | Some d => dec d old end.
Definition user_slots (a : UserResource) (e : string -> option doc) : option UserResource :=
  sc ← slot as_strings (rs_Schemas a) (e "schemas");
  id ← slot as_string (rs_ID a) (e "id");
  ex ← slot as_string (rs_ExternalID a) (e "externalId");
  un ← slot as_string (rs_UserName a) (e "userName");
  nm ← slot (as_ptr (as_name L) UserName_zero) (rs_Name a) (e "name");
  em ← slot (as_emails L) (rs_Emails a) (e "emails");
  ac ← slot as_bool (rs_Active a) (e "active");
  mt ← slot (as_meta L) (rs_Meta a) (e "meta");
  Some (MkUserResource sc id ex un nm em ac mt).

(** [slots_by struct slots]: a decoder field by field is the one that looks
    every field up. *)
Ltac slots_by names slots setter := intros l; induction l as [|[[k raw] d] l IH]; intros a Hn;
  cbn [decode_members]; [by destruct a|];
  assert (NoDup (omap (fun x : member => field_of L names x.1.1) l)) as Hn' by
    (cbn in Hn; destruct (field_of L names k); [by apply NoDup_cons in Hn as [_ Hn]|done]);
  destruct (field_of L names k) as [f|] eqn:Hf;
  [ pose proof (fun f' => proj1 (entry_cons names (k, raw, d) l f f' Hn Hf)) as Hcons;
    pose proof (proj2 (entry_cons names (k, raw, d) l f f Hn Hf)) as Hnone;
    unfold slots at 1; rewrite !Hcons; clear Hcons; apply field_of_Some in Hf as [Hin _];
    destruct a; unfold names in Hin;
    repeat (apply elem_of_cons in Hin as [->|Hin]); [..|by apply not_elem_of_nil in Hin]; unfold setter; simpl;
    (match goal with |- (?o ≫= _) ≫= _ = _ => destruct o as [y|] end;
    [ cbn [mbind option_bind]; rewrite IH by done; unfold slots; rewrite Hnone; reflexivity
    | simpl; repeat match goal with |- _ = ?o ≫= _ => destruct o; simpl end; done ])
  | cbn; rewrite IH by done; unfold slots; rewrite !(entry_skip names) by done; reflexivity ].

Lemma decode_members_user : forall l a, NoDup (omap (fun x : member => field_of L user_fields x.1.1) l) ->
  decode_members L user_fields (set_user L) l a = user_slots a (entry user_fields l).
Proof. slots_by user_fields user_slots set_user. Qed.

(** The same for the structs inside a user. *)
Definition name_fields : list string := ["formatted"; "familyName"; "givenName"].
Definition name_slots (a : UserName) (e : string -> option doc) : option UserName :=
  fo ← slot as_string (un_Formatted a) (e "formatted");
  fa ← slot as_string (un_FamilyName a) (e "familyName");
  gi ← slot as_string (un_GivenName a) (e "givenName");
  Some (MkUserName fo fa gi).
Lemma decode_members_name : forall l a, NoDup (omap (fun x : member => field_of L name_fields x.1.1) l) ->
  decode_members L name_fields set_name l a = name_slots a (entry name_fields l).
Proof. slots_by name_fields name_slots set_name. Qed.

Definition email_fields : list string := ["value"; "primary"; "type"].
Definition email_slots (a : Email) (e : string -> option doc) : option Email :=
  va ← slot as_string (em_Value a) (e "value");
  pr ← slot as_bool (em_Primary a) (e "primary");
  ty ← slot as_string (em_Type a) (e "type");
  Some (MkEmail va pr ty).
Lemma decode_members_email : forall l a, NoDup (omap (fun x : member => field_of L email_fields x.1.1) l) ->
  decode_members L email_fields set_email l a = email_slots a (entry email_fields l).
Proof. slots_by email_fields email_slots set_email. Qed.

Definition meta_fields : list string := ["resourceType"; "created"; "lastModified"; "location"; "version"].
Definition meta_slots (a : ResourceMeta) (e : string -> option doc) : option ResourceMeta :=
  ty ← slot as_string (mt_ResourceType a) (e "resourceType");
  cr ← slot as_string (mt_Created a) (e "created");
  lm ← slot as_string (mt_LastModified a) (e "lastModified");
  lo ← slot as_string (mt_Location a) (e "location");
  ve ← slot as_string (mt_Version a) (e "version");
  Some (MkResourceMeta ty cr lm lo ve).
Lemma decode_members_meta : forall l a, NoDup (omap (fun x : member => field_of L meta_fields x.1.1) l) ->
  decode_members L meta_fields set_meta l a = meta_slots a (entry meta_fields l).
Proof. slots_by meta_fields meta_slots set_meta. Qed.

(** Decoding a map: each field gets the attribute of its name. *)
Ltac all_apart fields := intros f f' Hf Hf'; unfold fields in *;
  repeat (apply elem_of_cons in Hf as [->|Hf]); [..|by apply not_elem_of_nil in Hf];
    repeat (apply elem_of_cons in Hf' as [->|Hf']); try (by apply not_elem_of_nil in Hf'); intros H; done.
Lemma user_fields_apart : apart user_fields.
Proof. all_apart user_fields. Qed.
Lemma name_fields_apart : apart name_fields.
Proof. all_apart name_fields. Qed.
Lemma email_fields_apart : apart email_fields.
Proof. all_apart email_fields. Qed.
Lemma meta_fields_apart : apart meta_fields.
Proof. all_apart meta_fields. Qed.
Lemma as_user_attr m a : tidy L m -> as_user L (of_json (JObject m)) a = user_slots a (fun f => of_json <$> attr m f).
Proof.
  intros Ht. rewrite of_json_object. unfold as_user, decode_struct.
  rewrite decode_members_user by by apply fields_once. unfold user_slots.
  rewrite !(entry_attr user_fields) by (done || apply user_fields_apart || (unfold user_fields; set_solver)). done.
Qed.
Lemma as_name_attr m a : tidy L m -> as_name L (of_json (JObject m)) a = name_slots a (fun f => of_json <$> attr m f).
Proof.
  intros Ht. rewrite of_json_object. unfold as_name, decode_struct.
  rewrite (decode_members_name (members_of m)) by by apply (fields_once name_fields). unfold name_slots.
  rewrite !(entry_attr name_fields) by (done || apply name_fields_apart || (unfold name_fields; set_solver)). done.
Qed.
Lemma as_email_attr m a : tidy L m -> as_email L (of_json (JObject m)) a = email_slots a (fun f => of_json <$> attr m f).
Proof.
  intros Ht. rewrite of_json_object. unfold as_email, decode_struct.
  rewrite (decode_members_email (members_of m)) by by apply (fields_once email_fields). unfold email_slots.
  rewrite !(entry_attr email_fields) by (done || apply email_fields_apart || (unfold email_fields; set_solver)). done.
Qed.
Lemma as_meta_attr m a : tidy L m -> as_meta L (of_json (JObject m)) a = meta_slots a (fun f => of_json <$> attr m f).
Proof.
  intros Ht. rewrite of_json_object. unfold as_meta, decode_struct.
  rewrite (decode_members_meta (members_of m)) by by apply (fields_once meta_fields). unfold meta_slots.
  rewrite !(entry_attr meta_fields) by (done || apply meta_fields_apart || (unfold meta_fields; set_solver)). done.
Qed.

(** ** What a struct is as a map *)

Section Written.
Context (utf8 : string -> string).

Definition object_of (fields : list (string * jv)) : object :=
  fold_left (fun m kv => <[kv.1 := decode_any L utf8 kv.2]> m) fields ∅.
Definition field_in (fields : list (string * jv)) (f : string) : option json :=
  (fun kv : string * jv => decode_any L utf8 kv.2) <$> List.find (fun kv => String.eqb kv.1 f) fields.

Lemma object_of_lookup fields f : NoDup (map fst fields) -> object_of fields !! f = field_in fields f.
Proof.
  intros Hn. unfold object_of, field_in.
  assert (forall m, fold_left (fun m kv => <[kv.1 := decode_any L utf8 kv.2]> m) fields m !! f =
    match List.find (fun kv : string * jv => String.eqb kv.1 f) fields with
    | Some kv => Some (decode_any L utf8 kv.2) | None => m !! f end) as ->.
  { induction fields as [|[k v] l IH]; intros m; cbn [fold_left List.find]; [done|].
    cbn in Hn. apply NoDup_cons in Hn as [Hk Hn]. rewrite IH by done. cbn [fst snd].
    destruct (String.eqb_spec k f) as [->|Hne].
    - destruct (List.find _ l) as [[k' v']|] eqn:Hf; [exfalso|by rewrite lookup_insert_eq].
      apply find_some in Hf as [Hin Hkf%String.eqb_eq]. cbn in Hkf. subst k'. apply Hk, list_elem_of_fmap.
      exists (f, v'). split; [done|]. by apply list_elem_of_In.
    - destruct (List.find _ l); [done|]. by rewrite lookup_insert_ne. }
  by destruct (List.find _ _).
Qed.

Lemma object_of_keys fields k v : NoDup (map fst fields) -> object_of fields !! k = Some v -> k ∈ map fst fields.
Proof.
  intros Hn. rewrite object_of_lookup by done. unfold field_in.
  destruct (List.find _ _) as [[k' v']|] eqn:Hf; [|done]. intros _. apply find_some in Hf as [Hin Hk%String.eqb_eq].
  cbn in Hk. subst k'. apply list_elem_of_fmap. exists (k, v'). split; [done|]. by apply list_elem_of_In.
Qed.

(** Of a struct, whose tags are among names that lie apart. *)
Lemma object_of_tidy names fields : apart names -> NoDup (map fst fields) ->
  (forall k, k ∈ map fst fields -> k ∈ names) -> tidy L (object_of fields).
Proof.
  intros Ha Hn Hsub k k' [v Hk%object_of_keys] [v' Hk'%object_of_keys] Hf; [|done..]. by apply Ha; auto.
Qed.
Lemma object_of_attr names fields f : apart names -> NoDup (map fst fields) ->
  (forall k, k ∈ map fst fields -> k ∈ names) -> f ∈ names -> attr (object_of fields) f = field_in fields f.
Proof.
  intros Ha Hn Hsub Hf. unfold attr. rewrite <- object_of_lookup by done.
  destruct (object_of fields !! f) as [v|] eqn:Hv; [unfold resolveKey; by rewrite Hv|].
  destruct (object_of fields !! resolveKey L (object_of fields) f) as [v|] eqn:Hr; [|done].
  pose proof (object_of_keys _ _ _ Hn Hr) as Hk. assert (resolveKey L (object_of fields) f = f) as He.
  { apply Ha; [by apply Hsub|done|apply (resolveKey_fold L HL)]. }
  rewrite He in Hr. congruence.
Qed.

(** A struct writes some of its tags, in their order. *)
Lemma struct_attrs names fields : apart names -> NoDup names -> map fst fields `sublist_of` names ->
  tidy L (object_of fields) /\ forall f, f ∈ names -> attr (object_of fields) f = field_in fields f.
Proof.
  intros Ha Hn Hsub. assert (NoDup (map fst fields)) as Hf by by eapply sublist_NoDup.
  assert (forall k, k ∈ map fst fields -> k ∈ names) as Hin by (intros k Hk; eapply sublist_subseteq; [exact Hsub|exact Hk]).
  split; [by eapply object_of_tidy|]. intros f Hf'. by eapply object_of_attr.
Qed.
Lemma decode_struct_json fields : decode_any L utf8 (VObj fields) = JObject (object_of fields).
Proof. reflexivity. Qed.

Ltac no_dup := apply (bool_decide_unpack _); vm_compute; exact I.
Ltac in_names := first [by apply (bool_decide_unpack _) | unfold user_fields, name_fields, email_fields, meta_fields; set_solver].

(** Strings [encoding/json] leaves alone. *)
Definition keeps (s : string) : Prop := utf8 s = s.
Definition clean_name (n : UserName) : Prop :=
  keeps (un_Formatted n) /\ keeps (un_FamilyName n) /\ keeps (un_GivenName n).
Definition clean_email (e : Email) : Prop := keeps (em_Value e) /\ keeps (em_Type e).
Definition clean_meta (mt : ResourceMeta) : Prop :=
  keeps (mt_ResourceType mt) /\ keeps (mt_Created mt) /\ keeps (mt_LastModified mt) /\ keeps (mt_Location mt) /\
  keeps (mt_Version mt).
Definition clean_user (u : UserResource) : Prop :=
  Forall keeps (rs_Schemas u) /\ keeps (rs_ID u) /\ keeps (rs_ExternalID u) /\ keeps (rs_UserName u) /\
  (forall n, rs_Name u = Some n -> clean_name n) /\ Forall clean_email (rs_Emails u) /\ clean_meta (rs_Meta u).

(** Reads back the struct whose fields the goal shows, once every omitted
    field is known. *)
Ltac reads_back names slots apart_names as_attr :=
  match goal with |- context [object_of ?l] =>
    let Ht := fresh "Ht" in let Ha := fresh "Ha" in
    destruct (struct_attrs names l apart_names ltac:(no_dup) ltac:(repeat constructor)) as [Ht Ha];
    rewrite as_attr by exact Ht; unfold slots; rewrite !Ha by in_names
  end.

Lemma name_roundtrip n : clean_name n -> as_name L (of_json (decode_any L utf8 (name_json n))) UserName_zero = Some n.
Proof.
  destruct n as [fo fa gi]. intros (H1 & H2 & H3). unfold keeps in *. cbn in H1, H2, H3.
  unfold name_json. rewrite decode_struct_json. cbn [un_Formatted un_FamilyName un_GivenName]. unfold omit_str.
  destruct (String.eqb_spec fo "") as [->|_], (String.eqb_spec fa "") as [->|_], (String.eqb_spec gi "") as [->|_];
    cbn [app]; reads_back name_fields name_slots name_fields_apart as_name_attr; cbn; by rewrite ?H1, ?H2, ?H3.
Qed.
Lemma email_roundtrip e : clean_email e -> as_email L (of_json (decode_any L utf8 (email_json e))) Email_zero = Some e.
Proof.
  destruct e as [va pr ty]. intros (H1 & H2). unfold keeps in *. cbn in H1, H2.
  unfold email_json. rewrite decode_struct_json. cbn [em_Value em_Primary em_Type]. unfold omit_str, omit_bool, fld.
  destruct pr, (String.eqb_spec ty "") as [->|_];
    cbn [app]; reads_back email_fields email_slots email_fields_apart as_email_attr; cbn; by rewrite ?H1, ?H2.
Qed.
Lemma meta_roundtrip (mt : ResourceMeta) : clean_meta mt -> as_meta L (of_json (decode_any L utf8 (meta_json mt))) ResourceMeta_zero = Some mt.
Proof.
  destruct mt as [ty cr lm lo ve]. intros (H1 & H2 & H3 & H4 & H5). unfold keeps in *. cbn in H1, H2, H3, H4, H5.
  unfold meta_json. rewrite decode_struct_json.
  cbn [mt_ResourceType mt_Created mt_LastModified mt_Location mt_Version]. unfold omit_str, fld.
  destruct (String.eqb_spec cr "") as [->|_], (String.eqb_spec lm "") as [->|_], (String.eqb_spec ve "") as [->|_];
    cbn [app]; reads_back meta_fields meta_slots meta_fields_apart as_meta_attr; cbn;
    by rewrite ?H1, ?H2, ?H3, ?H4, ?H5.
Qed.

Lemma list_roundtrip {A} (f : doc -> A -> option A) zero (g : A -> jv) (P : A -> Prop) (l : list A) :
  (forall x, P x -> f (of_json (decode_any L utf8 (g x))) zero = Some x) -> Forall P l ->
  as_slice f zero (of_json (decode_any L utf8 (VList (map g l)))) [] = Some l.
Proof.
  intros Hf Hl. cbn [decode_any of_json as_slice].
  assert (forall xs, Forall P xs -> decode_elems f zero (map of_json (map (decode_any L utf8) (map g xs))) [] = Some xs)
    as Hgo; [|by apply Hgo].
  induction 1 as [|x xs Hx _ IH]; cbn [map decode_elems]; [done|]. cbn [head default tail]. by rewrite Hf, IH.
Qed.

(** Everything a user's map says, as a list of tagged values. *)
Definition user_tags (u : UserResource) : list (string * jv) :=
  match user_json u with VObj fields => fields | _ => [] end.

Lemma user_attrs u : tidy L (object_of (user_tags u)) /\
  forall f, f ∈ user_fields -> attr (object_of (user_tags u)) f = field_in (user_tags u) f.
Proof.
  apply struct_attrs; [apply user_fields_apart|no_dup|].
  unfold user_tags, user_json, omit_str, omit_opt, omit_list, fld. destruct u as [sc id ex un nm em ac mt].
  cbn [rs_Schemas rs_ID rs_ExternalID rs_UserName rs_Name rs_Emails rs_Active rs_Meta].
  destruct (String.eqb ex ""), nm, em; cbn [app map fst]; repeat constructor.
Qed.

(** What the map of a user says of each field: the fields that are left out
    are the ones whose zero value stands for them. *)
Definition tag_of (u : UserResource) (f : string) : option json := field_in (user_tags u) f.
Lemma user_tags_of u :
  tag_of u "schemas" = Some (decode_any L utf8 (VList (map VStr (rs_Schemas u)))) /\
  tag_of u "id" = Some (JString (utf8 (rs_ID u))) /\
  tag_of u "externalId" = (if String.eqb (rs_ExternalID u) "" then None else Some (JString (utf8 (rs_ExternalID u)))) /\
  tag_of u "userName" = Some (JString (utf8 (rs_UserName u))) /\
  tag_of u "name" = (fun n => decode_any L utf8 (name_json n)) <$> rs_Name u /\
  tag_of u "emails" = match rs_Emails u with [] => None | l => Some (decode_any L utf8 (VList (map email_json l))) end /\
  tag_of u "active" = Some (JBool (rs_Active u)) /\
  tag_of u "meta" = Some (decode_any L utf8 (meta_json (rs_Meta u))).
Proof.
  destruct u as [sc id ex un nm em ac mt]. unfold tag_of, user_tags, user_json, omit_str, omit_opt, omit_list, fld, field_in.
  cbn [rs_Schemas rs_ID rs_ExternalID rs_UserName rs_Name rs_Emails rs_Active rs_Meta].
  destruct (String.eqb ex ""), nm, em; split_and!; reflexivity.
Qed.

Lemma name_is_object n : exists m, decode_any L utf8 (name_json n) = JObject m.
Proof. unfold name_json. by eexists. Qed.

Lemma user_reads_back u : clean_user u ->
  as_user L (of_json (JObject (object_of (user_tags u)))) UserResource_zero = Some u.
Proof.
  intros (H1 & H2 & H3 & H4 & H5 & H6 & H7). destruct (user_attrs u) as [Ht Ha].
  rewrite as_user_attr by exact Ht. unfold user_slots. rewrite !Ha by in_names. clear Ht Ha.
  change (field_in (user_tags u)) with (tag_of u). destruct (user_tags_of u) as (-> & -> & -> & -> & -> & -> & -> & ->).
  destruct u as [sc id ex un nm em ac mt].
  cbn [rs_Schemas rs_ID rs_ExternalID rs_UserName rs_Name rs_Emails rs_Active rs_Meta UserResource_zero] in *.
  assert (slot as_strings [] (of_json <$> Some (decode_any L utf8 (VList (map VStr sc)))) = Some sc) as ->.
  { apply (list_roundtrip as_string "" VStr keeps sc); [|done]. intros x Hx. cbn. by rewrite Hx. }
  assert (slot as_string "" (of_json <$> (if String.eqb ex "" then None else Some (JString (utf8 ex)))) = Some ex) as ->.
  { destruct (String.eqb_spec ex "") as [->|]; cbn; [done|by rewrite H3]. }
  assert (slot (as_emails L) [] (of_json <$> (match em with [] => None
    | e :: l => Some (decode_any L utf8 (VList (map email_json (e :: l)))) end)) = Some em) as ->.
  { destruct em; [done|]. by apply (list_roundtrip _ _ _ clean_email); [apply email_roundtrip|]. }
  cbn [mbind option_bind fmap option_fmap option_map slot of_json as_string as_bool]. rewrite H2, H4, meta_roundtrip by done.
  destruct nm as [n|]; [|reflexivity].
  assert (as_ptr (as_name L) UserName_zero (of_json (decode_any L utf8 (name_json n))) None = Some (Some n)) as Hn.
  { pose proof (name_roundtrip n (H5 n eq_refl)) as Hn. destruct (name_is_object n) as [m Hm]. rewrite Hm in *.
    rewrite of_json_object in *. unfold as_ptr. cbn [default]. by rewrite Hn. }
  cbn [fmap option_fmap option_map slot]. by rewrite Hn.
Qed.

(** a user resource survives the round trip through a JSON map that PATCH
    makes when nothing is patched: whatever is omitted from the map comes back
    as the zero value it was. *)
Theorem user_roundtrip u : clean_user u ->
  (m ← resourceToMap L utf8 (user_json u); mapToResource (as_user L) m UserResource_zero) = Ret u /\
  applyToUserResource L utf8 u [] = Ret u.
Proof.
  intros Hu. pose proof (user_reads_back u Hu) as Hr.
  assert (resourceToMap L utf8 (user_json u) = Ret (object_of (user_tags u))) as Hm by reflexivity.
  unfold applyToUserResource, patched. rewrite Hm. cbn [mbind go_bind]. clear Hm.
  revert Hr. generalize (object_of (user_tags u)). intros m Hr. cbn [Apply apply_ops default].
  unfold mapToResource. split; [by rewrite Hr|]. cbn -[as_user of_json]. by rewrite Hr.
Qed.

(** ** What a PATCH of a user hands to the store *)

(** What a map says of an attribute of type string, of type bool. *)
Definition says_string m (name s : string) : Prop :=
  match attr m name with None | Some JNull => s = "" | Some (JString s') => s = s' | _ => False end.
Definition says_bool m (name : string) (b : bool) : Prop :=
  match attr m name with None | Some JNull => b = false | Some (JBool b') => b = b' | _ => False end.
(** The user in a map, when every attribute of a user is of its type. *)
Definition user_in m : option UserResource := user_slots UserResource_zero (fun f => of_json <$> attr m f).

Lemma slot_string m f s : slot as_string "" (of_json <$> attr m f) = Some s -> says_string m f s.
Proof. unfold says_string. destruct (attr m f) as [[]|]; cbn; congruence. Qed.
Lemma slot_bool m f b : slot as_bool false (of_json <$> attr m f) = Some b -> says_bool m f b.
Proof. unfold says_bool. destruct (attr m f) as [[]|]; cbn; congruence. Qed.

Lemma user_in_says m u : user_in m = Some u ->
  says_string m "userName" (rs_UserName u) /\ says_string m "externalId" (rs_ExternalID u) /\
  says_bool m "active" (rs_Active u).
Proof.
  unfold user_in, user_slots. cbn [UserResource_zero rs_ExternalID rs_UserName rs_Active].
  intros (sc & _ & (id & _ & (ex & Hex & (un & Hun & (nm & _ & (em & _ & (ac & Hac & (mt & _ & [= <-])%bind_Some)%bind_Some
    )%bind_Some)%bind_Some)%bind_Some)%bind_Some)%bind_Some)%bind_Some.
  cbn [rs_ExternalID rs_UserName rs_Active]. auto using slot_string, slot_bool.
Qed.

Section Patch.
Context (text : error -> string) (scan : Scanner) {S : Type} (rt : SCIMRoutes S).
Implicit Types (r : Request) (w : world (Web S)).
Local Abbreviation cfg := (rt_cfg rt).

Definition resource_of (rec : UserRecord) r : UserResource :=
  userRecordToResource rec (baseURL cfg r) (cf_Prefix cfg).
(** The write, and the answer with the record as it was saved. *)
Definition save_user r t (write : UserWrite) ops : M (Web S) unit :=
  asking (us_SavePatch (rt_users rt) (r_ctx r) t (target r) write ops) (writeUserStoreErr text) (fun saved =>
    WriteETagHeader (ResourceETag (ur_Updated saved));; WriteSCIMJSON 200 (user_body_of rt saved r)).

Lemma save_user_asks r t write ops w : acts_in r t ->
  asking (userSavePatch rt (r_ctx r) (target r) write ops) (writeUserStoreErr text) (fun saved =>
    WriteETagHeader (ResourceETag (ur_Updated saved));; WriteSCIMJSON 200 (user_body_of rt saved r)) w =
  save_user r t write ops w.
Proof.
  intros Ht. apply asking_ext; [|done]. intros w'. unfold userSavePatch, lift, mbind, M_bind.
  by rewrite (scimTenant_acts r t Ht).
Qed.
Lemma decode_read (r : Request) d req w : (scan (cf_MaxPayloadBytes cfg) r).2 = Scanned d ->
  as_request L d PatchRequest_zero = Some req -> exists w1,
  decodeSCIMPatch L scan (cf_MaxPayloadBytes cfg) r w = (Ret (inr req), w1) /\ app_of w1 = app_of w.
Proof.
  intros Hd Hq. destruct (read_body_app scan (as_request L) PatchRequest_zero (cf_MaxPayloadBytes cfg) r w)
    as (res & w1 & Hr & Ha). exists w1. split; [|done]. unfold decodeSCIMPatch. rewrite Hr. f_equal. f_equal.
  revert Hr. unfold read_body. destruct (scan _ r) as [hit out]. cbn in Hd. subst out.
  rewrite Hq. destruct hit; unfold mbind, M_bind, mret, M_ret; cbn; intros H; by injection H as <- <-.
Qed.

(** what [UsersPatch] makes of a request it has read: the operations are
    applied to the resource of the record as it is, and (1) if they fail the
    error is answered and nothing is written; (2) if an attribute of the result
    is not of its type the answer is 500 and nothing is written; (3) otherwise
    the store is handed the result's userName, externalId and active, each
    looked up whatever the spelling of its name, and the operations, and nothing
    else of the resource. *)
Theorem patch_persists r t w rec d req :
  acts_in r t -> target r <> "" -> holds_user (rt_users rt) t (app_of w) (target r) rec ->
  CheckIfMatch r (ResourceETag (ur_Updated rec)) = true ->
  (scan (cf_MaxPayloadBytes cfg) r).2 = Scanned d -> as_request L d PatchRequest_zero = Some req ->
  pq_Operations req <> [] ->
  exists w1 m, app_of w1 = app_of w /\ m = object_of (user_tags (resource_of rec r)) /\
    (forall e left, Apply L (Some m) (pq_Operations req) = (Fail e, left) ->
       UsersPatch L utf8 text scan rt r w = writePatchApplyError text e w1) /\
    (forall m', Apply L (Some m) (pq_Operations req) = (Ret tt, Some m') -> tidy L m' ->
       match user_in m' with
       | None => UsersPatch L utf8 text scan rt r w = WriteSCIMErrorTyped 500 "internal error" "" w1
       | Some u =>
           UsersPatch L utf8 text scan rt r w =
             save_user r t (MkUserWrite (rs_UserName u) "" "" (rs_Active u) (rs_ExternalID u)) (pq_Operations req) w1 /\
           says_string m' "userName" (rs_UserName u) /\ says_string m' "externalId" (rs_ExternalID u) /\
           says_bool m' "active" (rs_Active u)
       end).
Proof.
  intros Ht Hid Hu Hm Hd Hq Hops. destruct (userGet_run rt r t _ rec w Ht Hu) as (w0 & Hg & Ha0).
  destruct (decode_read r d req w0 Hd Hq) as (w1 & Hr & Ha1).
  exists w1, (object_of (user_tags (resource_of rec r))). split; [congruence|]. split; [done|].
  unfold UsersPatch. fold (target r). rewrite (proj2 (String.eqb_neq _ _) Hid).
  rewrite (asking_run _ _ _ _ _ _ Hg), Hm. cbn [negb]. rewrite (with_body_run _ _ _ _ _ _ Hr).
  rewrite bool_decide_false by done. unfold applyToUserResource, patched.
  change (resourceToMap L utf8 (user_json (userRecordToResource rec (baseURL cfg r) (cf_Prefix cfg))))
    with (@Ret object (object_of (user_tags (resource_of rec r)))).
  generalize (object_of (user_tags (resource_of rec r))) as m. intros m. split.
  - intros e left Hf. cbn [mbind go_bind]. by rewrite Hf.
  - intros m' Hs Ht'. cbn [mbind go_bind]. rewrite Hs. change (default ∅ (Some m')) with m'. cbn [mbind go_bind]. unfold mapToResource.
    rewrite as_user_attr by done. fold (user_in m'). destruct (user_in m') as [u|] eqn:Hu'; [|reflexivity].
    split; [|by apply user_in_says]. by apply save_user_asks.
Qed.
End Patch.
End Written.
End Fields.

(** ** The example directory behind the transport *)

Module ToyScim.
Definition E := ToyMem.env.
Definition lib := ScimPatch.Toy.lib.
Definition users := userStore E ToyMem.parse lib ToyMem.marshal (Some ToyMem.log).
Definition groups := groupStore E ToyMem.parse lib ToyMem.marshal (Some ToyMem.log).
Definition cfg : SCIMConfig := MkSCIMConfig "/scim/v2" "https://app.example" None 100 200 1024 "" "".
Definition routes : SCIMRoutes (Mem (list Event)) := MkSCIMRoutes cfg users groups.
Definition sa : Principal := MkPrincipal "sa" "" "scim" "" 0.
Definition by_sa : Context := MkContext None None None (Some sa) None None None None ∅ "".
Definition request (path : string) (h : Header) : Request :=
  MkRequest "PATCH" path h "192.0.2.1:4242" "app.example" true (fun _ => None) (fun _ => "") ∅ ∅ by_sa.

(** [{"Operations":[{"op":"replace","path":"ACTIVE","value":false}]}] *)
Definition body : doc :=
  DObject [("Operations", "", DArray [DObject [("op", "", DString "replace"); ("path", "", DString "ACTIVE");
    ("value", "false", DBool false)]])].
Definition scan : Scanner := fun _ _ => (false, Scanned body).
Definition text (e : error) : string := "error".
Definition world0 : world (Web (Mem (list Event))) :=
  World (MkWeb (w_store (ToyMem.run ToyMem.setup ToyMem.start)) [] [] fresh_writer) [].

Definition bob : UserRecord :=
  MkUserRecord "id5" "bob" "" "" [MkEmail "bob" true "work"] true "" (1006 * 10 ^ 9) (1007 * 10 ^ 9).
Definition to_bob : Request := request "/scim/v2/Users/id5" ∅.
Definition of_version (t : time) : Request :=
  request "/scim/v2/Users/id5" {["If-Match" := [ResourceETag t]]}.

Lemma acts r : r_ctx r = by_sa -> acts_in r Single.
Proof. intros Hr. exists sa. rewrite Hr. split; reflexivity. Qed.
(** The store holds what its map holds. *)
Lemma mem_holds (s : Mem (list Event)) id rec : mm_users s !! id = Some rec -> holds_user users Single s id rec.
Proof.
  intros Hs x tr. exists tr. cbn. unfold mem_user_Get, get_mem, lift, mbind, M_bind. cbn. by rewrite Hs.
Qed.
Lemma bob_held : holds_user users Single (app_of world0) "id5" bob.
Proof. apply mem_holds. vm_compute. reflexivity. Qed.

Lemma stale_write_refused_witness :
  turned_away (of_version (1 * 10 ^ 9)) world0 (UsersPatch lib (fun s => s) text scan routes).
Proof.
  destruct (stale_write_refused lib (fun s => s) text scan routes (of_version (1 * 10 ^ 9)) Single (1 * 10 ^ 9) world0)
    as [Hu _].
  - exact (acts (of_version (1 * 10 ^ 9)) eq_refl).
  - vm_compute. reflexivity.
  - vm_compute. reflexivity.
  - vm_compute. discriminate.
  - pose proof (Hu bob bob_held eq_refl ltac:(vm_compute; discriminate)) as Hall.
    inversion Hall as [|? ? _ Hrest]. inversion Hrest as [|? ? Hp _]. exact Hp.
Defined.

(** A store that shows other tenants something else altogether. *)
Definition leaky : UserStore (Mem (list Event)) := {|
  us_Create x t wr meta := if holdsTenant t then us_Create users x t wr meta else fail (AppError "other");
  us_Get x t id := if holdsTenant t then us_Get users x t id else mret bob;
  us_Replace x t id wr meta := if holdsTenant t then us_Replace users x t id wr meta else mret bob;
  us_Delete x t id meta := if holdsTenant t then us_Delete users x t id meta else mret tt;
  us_SavePatch x t id wr ops := if holdsTenant t then us_SavePatch users x t id wr ops else mret bob;
  us_ListFiltered x t start count f :=
    if holdsTenant t then us_ListFiltered users x t start count f else mret (MkUserPage [bob] 1)
|}.
Lemma scim_tenant_only_witness : UsersGet text routes to_bob world0 = UsersGet text (MkSCIMRoutes cfg leaky groups) to_bob world0.
Proof.
  pose proof (scim_tenant_only lib (fun s => s) text scan cfg users leaky groups groups to_bob world0) as H.
  unshelve epose proof (H _) as H'.
  - intros t (p & [= <-] & ->). split; constructor; reflexivity.
  - exact (f_equal (hd (UsersGet text routes to_bob world0)) H').
Defined.

Lemma page_request_bounds_witness : exists start count,
  parsePagination cfg {["count" := ["1000"]]} = (start, count) /\ count <= 200.
Proof.
  destruct (parsePagination cfg {["count" := ["1000"]]}) as [start count] eqn:H.
  pose proof (page_request_bounds cfg {["count" := ["1000"]]} start count ltac:(vm_compute; split; reflexivity) H) as Hb.
  exists start, count. split; [reflexivity|exact (proj1 (proj2 (proj2 Hb)))].
Defined.

Definition resource : UserResource := userRecordToResource bob "https://app.example" "/scim/v2".
Lemma user_roundtrip_witness : applyToUserResource lib (fun s => s) resource [] = Ret resource.
Proof.
  apply (user_roundtrip lib ScimPatch.Toy.laws (fun s => s) resource).
  unfold clean_user, keeps. repeat split; try (apply list.Forall_true; done); try discriminate.
Defined.

Definition tidyb (m : object) : bool :=
  let names := map fst (map_to_list m) in
  forallb (fun k => forallb (fun k' => implb (EqualFold lib k k') (String.eqb k k')) names) names.
Lemma tidyb_tidy m : tidyb m = true -> tidy lib m.
Proof.
  intros Hb k k' [v Hv%elem_of_map_to_list] [v' Hv'%elem_of_map_to_list] Hf. unfold tidyb in Hb.
  rewrite forallb_forall in Hb. specialize (Hb k). rewrite forallb_forall in Hb.
  assert (forall k v, (k, v) ∈ map_to_list m -> In k (map fst (map_to_list m))) as Hin.
  { intros q x Hq. apply list_elem_of_In, list_elem_of_fmap. by exists (q, x). }
  specialize (Hb (Hin _ _ Hv) k' (Hin _ _ Hv')). rewrite Hf in Hb. by apply String.eqb_eq.
Qed.
Definition ops : list Operation := [{| op_Op := OpReplace; op_Path := "ACTIVE"; op_Value := "false" |}].
(** The patch is applied, its result has no attribute twice and is a user. *)
Definition outcome : go unit * option object :=
  Apply lib (Some (object_of lib (fun s => s) (user_tags (resource_of routes bob to_bob)))) ops.
Definition outcome_ok : bool :=
  match outcome with
  | (Ret tt, Some m') => tidyb m' && match user_in lib m' with
      | Some u => String.eqb (rs_UserName u) "bob" && String.eqb (rs_ExternalID u) "" && negb (rs_Active u)
      | None => false end
  | _ => false
  end.
Lemma outcome_checked : outcome_ok = true.
Proof. vm_compute. reflexivity. Qed.
Lemma outcome_inv : exists m' u, outcome = (Ret tt, Some m') /\ tidy lib m' /\ user_in lib m' = Some u /\
  MkUserWrite (rs_UserName u) "" "" (rs_Active u) (rs_ExternalID u) = MkUserWrite "bob" "" "" false "".
Proof.
  pose proof outcome_checked as H. unfold outcome_ok in H. destruct outcome as [[[]| |] [m'|]]; try discriminate H.
  destruct (user_in lib m') as [u|] eqn:Hu; [|by rewrite andb_false_r in H].
  apply andb_prop in H as [Ht [[Hn%String.eqb_eq He%String.eqb_eq]%andb_prop Ha%negb_true_iff]%andb_prop].
  exists m', u. rewrite Hn, He, Ha. by split_and!; [|apply tidyb_tidy|..].
Qed.

(** Bob deactivated, under an odd spelling of the attribute's name. *)
Lemma patch_persists_witness : exists w1, app_of w1 = app_of world0 /\
  UsersPatch lib (fun s => s) text scan routes to_bob world0 =
  save_user text routes to_bob Single (MkUserWrite "bob" "" "" false "") ops w1.
Proof.
  destruct (patch_persists lib ScimPatch.Toy.laws (fun s => s) text scan routes to_bob Single world0 bob body
    (MkPatchRequest [] ops)) as (w1 & m & Ha & -> & _ & Hok).
  - exact (acts to_bob eq_refl).
  - vm_compute. discriminate.
  - exact bob_held.
  - vm_compute. reflexivity.
  - reflexivity.
  - vm_compute. reflexivity.
  - discriminate.
  - exists w1. split; [exact Ha|]. destruct outcome_inv as (m' & u & Happ & Ht & Hu & <-).
    specialize (Hok m' Happ Ht). rewrite Hu in Hok. exact (proj1 Hok).
Defined.
End ToyScim.
