(* ===== verification/SamlManager.v ===== *)
(** * The SAML manager

    [src/saml/manager.go] method by method: the shared manager of [IdpManager]
    over SAML records, built by [NewManager] of [SamlProvider]; its metadata
    probe; and [metadata.go], the fetcher every registry is built with. What a
    rebuild makes of a provider that is set up wrong. *)

From S2P Require Import Prelude Tenant Bytes World Crypto Secrets IdpManager IdpRegistry SamlReplay IdpCache IdpSecrets SamlProvider.

#[local] Open Scope string_scope.
#[local] Open Scope list_scope.
#[local] Open Scope Z_scope.

(** ** Identity-provider metadata

    The fields of crewjam's [EntityDescriptor] the code reads. *)

Record Endpoint := MkEndpoint { ep_Binding : string; ep_Location : string }.
Record KeyDescriptor := MkKeyDescriptor { kd_Use : string; kd_Certificates : list string }.
Record IDPSSODescriptor := MkIDPSSO {
  ds_SingleSignOnServices : list Endpoint;
  ds_KeyDescriptors : list KeyDescriptor
}.
Record EntityDescriptor := MkEntity { ed_EntityID : string; ed_IDPSSODescriptors : list IDPSSODescriptor }.

Definition HTTPRedirectBinding : string := "urn:oasis:names:tc:SAML:2.0:bindings:HTTP-Redirect".

Record MetadataTestResult := MkTestResult {
  tr_EntityID : string;
  tr_SSOServiceURL : string;
  tr_SSOServiceBinding : string;
  tr_SigningCertCount : Z
}.

(** The first service with the redirect binding; when its location is empty,
    or there is none, the first service of all. *)
Definition sso_service (services : list Endpoint) : Endpoint :=
  let redirect := List.find (fun svc => String.eqb (ep_Binding svc) HTTPRedirectBinding) services in
  let found := default (MkEndpoint "" "") redirect in
  if String.eqb (ep_Location found) "" then match services with svc :: _ => svc | [] => found end else found.
Definition signing_certs (kds : list KeyDescriptor) : Z :=
  fold_left (fun n kd =>
    if String.eqb (kd_Use kd) "" || String.eqb (kd_Use kd) "signing"
    then n + Z.of_nat (length (kd_Certificates kd)) else n) kds 0.
Definition test_result (entity : EntityDescriptor) : MetadataTestResult :=
  match ed_IDPSSODescriptors entity with
  | [] => MkTestResult (ed_EntityID entity) "" "" 0
  | desc :: _ =>
      let svc := sso_service (ds_SingleSignOnServices desc) in
      MkTestResult (ed_EntityID entity) (ep_Location svc) (ep_Binding svc) (signing_certs (ds_KeyDescriptors desc))
  end.

(** The network: [samlsp.FetchMetadata] under the timeout of the client; [None]
    is a nil descriptor. *)
Definition DefaultMetadataFetcher {URL : Type} (url_Parse : string -> go URL)
    (FetchMetadata : trace -> URL -> go (option EntityDescriptor)) (tr : trace) (metadataURL : string)
    : go EntityDescriptor :=
  match url_Parse metadataURL with
  | Panic why => Panic why
  | Fail err => Fail (Errorf1 "parse url" (Sentinel saml_ErrMetadataInvalid))
  | Ret u =>
      match FetchMetadata tr u with
      | Panic why => Panic why
      | Fail err => Fail (Errorf1 "fetch" (Sentinel saml_ErrMetadataFetchFailed))
      | Ret None => Fail (Errorf1 "empty entity descriptor" (Sentinel saml_ErrMetadataInvalid))
      | Ret (Some entity) =>
          match ed_IDPSSODescriptors entity with
          | [] => Fail (Errorf1 "no IDPSSODescriptor in metadata" (Sentinel saml_ErrMetadataInvalid))
          | _ => Ret entity
          end
      end
  end.

(** [have_sp] is false for a nil provider or service provider; the library
    describes the service provider and [encoding/xml] writes it. *)
Definition GenerateSPMetadata {Descriptor} (xml_Header : bytes) (have_sp : bool) (Metadata : option Descriptor)
    (MarshalIndent : Descriptor -> go bytes) : go bytes :=
  if negb have_sp then Fail (Errorf0 "provider service provider is nil")
  else match Metadata with
  | None => Fail (Errorf0 "empty SP metadata descriptor")
  | Some descriptor =>
      body ← wrap_err (Errorf1 "marshal SP metadata") (MarshalIndent descriptor);
      Ret (xml_Header ++ body)
  end.

(** Whether nothing answers a request. *)
Definition IdPInitiated (a : SamlReplay.Assertion) : bool :=
  match signedInResponseTo a with Ret got => String.eqb got "" | _ => true end.

(** ** The methods *)

Module SamlManager.
Section Methods.
Context (E : Env) {URL Cert AnyKey Signer Replay S : Type} (lib : Crewjam EntityDescriptor URL Cert AnyKey Signer).
Local Abbreviation Reg := (ProviderRegistry (Provider (Entity := EntityDescriptor) (URL := URL) (Cert := Cert)
  (Signer := Signer) (Replay := Replay))).
Local Abbreviation M := (M (mstate S Reg)).
(** [default_fetcher] is [DefaultMetadataFetcher], [fetcher] the one in use;
    [m] is what [NewManager] made. *)
Context (default_fetcher : trace -> string -> go EntityDescriptor)
  (range_order : gmap ID (cachedRegistry Reg) -> list (ID * cachedRegistry Reg))
  (store : ProviderStore S ProviderRecord) (keys : option KeySet) (o : options (Entity := EntityDescriptor) (Replay := Replay)).

Definition manager : Manager (Rec := ProviderRecord) (Reg := Reg) (S := S) :=
  {| mg_store := store; mg_keys := keys; mg_ttl := o_ttl o; mg_inherit := o_inherit o;
     mg_build := saml_build lib default_fetcher o keys; mg_range := range_order |}.

Definition Create : ProviderDefinition -> M unit := IdpManager.Create E manager.
Definition Get : string -> M ProviderDefinition := IdpManager.Get manager.
Definition List : M (list ProviderDefinition) := IdpManager.List manager.
Definition Update : ProviderDefinition -> M unit := IdpManager.Update E manager.
Definition Delete : string -> M unit := IdpManager.Delete manager.
Definition PinRegistry : ID -> option Reg -> M unit := IdpManager.PinRegistry.
Definition InvalidateTenant : ID -> M unit := IdpManager.InvalidateTenant manager.
Definition invalidateCache : M unit := IdpManager.invalidateCache manager.
Definition cacheFresh : time -> M bool := IdpManager.cacheFresh E manager.
Definition storeLocked : ID -> option Reg -> M unit := IdpManager.storeLocked E manager.
Definition listEnabled : ID -> M (list ProviderRecord) := IdpManager.listEnabled manager.
Definition recordsFor : ID -> M (list ProviderRecord) := IdpManager.recordsFor manager.
Definition buildAndStoreLocked : ID -> list ProviderRecord -> M (option Reg) :=
  IdpManager.buildAndStoreLocked E manager.
Definition rebuildLocked : ID -> M (option Reg) := IdpManager.rebuildLocked E manager.
Definition GetRegistry : ID -> M (option Reg) := IdpManager.GetRegistry E manager.
Definition Reload : ID -> M unit := IdpManager.Reload E manager.
Definition RotateSealedKeys : M (RotateResult * option error) := IdpManager.RotateSealedSecrets E manager.
Definition definitionFromRecord : ProviderRecord -> go ProviderDefinition := IdpManager.definitionFromRecord keys.

Definition TestMetadata (idpMetadataURL : string) : M MetadataTestResult :=
  r ← observe (EvHook "metadata") (fun tr => default default_fetcher (o_fetcher o) tr idpMetadataURL);
  entity ← lift r;
  mret (test_result entity).
End Methods.
End SamlManager.

(** ** One badly provisioned provider *)

Section Omission.
Context {Entity URL Cert AnyKey Signer Replay : Type} (lib : Crewjam Entity URL Cert AnyKey Signer).
Context (o : options (Entity := Entity) (Replay := Replay)) (keys : option KeySet) (t : ID).

(** The certificate and the key of a definition parse, and the key signs. *)
Definition pem_usable (d : ProviderDefinition) : bool :=
  match ParseCertPEM lib (pd_SPSigningCertPEM d), ParsePrivateKeyPEM lib (pd_SPSigningKey d) with
  | Ret _, Ret key => bool_decide (is_Some (as_Signer lib key))
  | _, _ => false
  end.

(** A rebuild that gets through its records leaves out exactly the providers
    whose PEM material is unusable and keeps the others in order; but it gets
    through only if the sealed key of every record opens, so one key that does
    not open takes the whole tenant's registry down. *)
Theorem rebuild_omits recs configs : configs_of lib o keys t recs = Ret configs ->
  exists ds, Forall2 (fun rec d => IdpManager.definitionFromRecord keys rec = Ret d) recs ds /\
    map pc_ID configs = map pd_ID (List.filter pem_usable ds).
Proof.
  revert configs. induction recs as [|rec recs IH]; intros configs; cbn [configs_of].
  - intros [= <-]. exists []. split; [constructor|done].
  - intros (d & Hd & Hrun)%go_bind_Ret_inv. unfold pem_usable in *.
    destruct (ParseCertPEM lib (pd_SPSigningCertPEM d)) as [cert|e|why] eqn:Hc; [|..|done].
    + destruct (ParsePrivateKeyPEM lib (pd_SPSigningKey d)) as [key|e|why] eqn:Hk; [| |done].
      * destruct (as_Signer lib key) as [signer|] eqn:Hs.
        -- apply go_bind_Ret_inv in Hrun as (metadata & _ & (rest & Hrest & [= <-])%go_bind_Ret_inv).
           destruct (IH _ Hrest) as (ds & HF & Hm). exists (d :: ds). split; [by constructor|].
           cbn [List.filter map]. rewrite Hc, Hk, Hs, bool_decide_true by eauto. cbn. by rewrite Hm.
        -- destruct (IH _ Hrun) as (ds & HF & Hm). exists (d :: ds). split; [by constructor|].
           cbn [List.filter]. rewrite Hc, Hk, Hs, bool_decide_false by (by intros [? ?]). done.
      * destruct (IH _ Hrun) as (ds & HF & Hm). exists (d :: ds). split; [by constructor|].
        cbn [List.filter]. by rewrite Hc, Hk.
    + destruct (IH _ Hrun) as (ds & HF & Hm). exists (d :: ds). split; [by constructor|].
      cbn [List.filter]. by rewrite Hc.
Qed.
End Omission.
