(* ===== verification/HierStore.v ===== *)
(** * The binding store of a tenant hierarchy

    [src/examples/tenanthierarchy/store.go]: bindings counted by what justifies
    them. A row is kept as long as some origin names it. The ports
    ([Tx], [BindingSource]), the store in memory, and the contract both it and
    the SQL store of [HierSql] fulfil: they hold a set of pairs of a key and an
    origin. *)

From S2P Require Import Prelude Tenant World Authz.

#[local] Open Scope string_scope.
#[local] Open Scope list_scope.

(** ** Keys and origins *)

Record BindingKey := MkKey { bk_Scope : ID; bk_Subject : Subject; bk_Res : Resource; bk_Role : Role }.
#[export] Instance BindingKey_eq_dec : EqDecision BindingKey.
Proof. solve_decision. Defined.
#[export] Instance BindingKey_countable : Countable BindingKey.
Proof.
  apply (inj_countable' (fun k => (bk_Scope k, bk_Subject k, bk_Res k, bk_Role k))
    (fun p => MkKey p.1.1.1 p.1.1.2 p.1.2 p.2)). by intros [].
Defined.

Definition keyOf (b : Binding) : BindingKey := MkKey (b_Tenant b) (b_Subject b) (b_Resource b) (b_Role b).
(** A binding is its key. *)
Definition of_key (k : BindingKey) : Binding := MkBinding (bk_Scope k) (bk_Subject k) (bk_Res k) (bk_Role k).
Lemma keyOf_of_key k : keyOf (of_key k) = k.
Proof. by destruct k. Qed.
Lemma of_key_keyOf b : of_key (keyOf b) = b.
Proof. by destruct b. Qed.
#[export] Instance keyOf_inj : Inj eq eq keyOf.
Proof. intros b b' H. by rewrite <- (of_key_keyOf b), H, of_key_keyOf. Qed.

Definition Origin := string.
Definition OriginDirect : Origin := "direct".
Definition groupOriginPrefix : string := "group:".
Definition GroupOrigin (group : ID) : Origin := groupOriginPrefix +:+ ID_String group.
Definition groupOfOrigin (o : Origin) : option ID :=
  if negb (has_prefix o groupOriginPrefix) then None else Some (New (string_drop (String.length groupOriginPrefix) o)).

Definition ResourceTenantGroup : string := "tenant_group".
Definition ResourceOrganization : string := "organization".
Definition ResourceSystem : string := "system".

(** ** The store in memory *)

Record HierStore := MkHierStore {
  hs_rows : gmap BindingKey Binding;
  hs_origins : gmap BindingKey (gset Origin)
}.
Definition NewHierStore : HierStore := MkHierStore ∅ ∅.

(** The package's own [gate] and [scopeGate]. *)
Definition scopeGate (scope : ID) : go unit :=
  if negb (Valid scope) then Fail (Errorf1 "the scope is unset" (Sentinel authz_ErrTenantRequired)) else Ret tt.
Definition gate (scope : ID) (sub : Subject) : go unit :=
  _ ← scopeGate scope;
  if negb (Valid (sub_Tenant sub)) then Fail (Errorf1 "subject has no home tenant" (Sentinel authz_ErrTenantRequired))
  else Ret tt.

Definition put (b : Binding) (origin : Origin) (s : HierStore) : go unit * HierStore :=
  match gate (b_Tenant b) (b_Subject b) with
  | Ret _ =>
      let k := keyOf b in
      (Ret tt, MkHierStore (<[k := b]> (hs_rows s)) (<[k := {[origin]} ∪ default ∅ (hs_origins s !! k)]> (hs_origins s)))
  | Fail e => (Fail e, s)
  | Panic why => (Panic why, s)
  end.
Definition drop (key : BindingKey) (origin : Origin) (s : HierStore) : go unit * HierStore :=
  match gate (bk_Scope key) (bk_Subject key) with
  | Ret _ =>
      match hs_origins s !! key with
      | None => (Ret tt, s)
      | Some set =>
          let set := set ∖ {[origin]} in
          if decide (set = ∅) then (Ret tt, MkHierStore (delete key (hs_rows s)) (delete key (hs_origins s)))
          else (Ret tt, MkHierStore (hs_rows s) (<[key := set]> (hs_origins s)))
      end
  | Fail e => (Fail e, s)
  | Panic why => (Panic why, s)
  end.

(** The order in which a Go map is visited is left to [map_to_list]. *)
Definition scan (s : HierStore) (keep : BindingKey -> bool) : list Binding :=
  map snd (List.filter (fun kb => keep kb.1) (map_to_list (hs_rows s))).
Definition has_origin (s : HierStore) (k : BindingKey) (o : Origin) : bool :=
  bool_decide (o ∈ default ∅ (hs_origins s !! k)).
Definition scanFor (s : HierStore) (scope : ID) (sub : Subject) (res : Resource) : list Binding :=
  scan s (fun k => bool_decide (bk_Scope k = scope) && bool_decide (bk_Subject k = sub) && bool_decide (bk_Res k = res)).
Definition scanForSubject (s : HierStore) (scope : ID) (sub : Subject) (resourceType : string) : list Binding :=
  scan s (fun k => bool_decide (bk_Scope k = scope) && bool_decide (bk_Subject k = sub)
                   && String.eqb (res_Type (bk_Res k)) resourceType && negb (String.eqb (res_ID (bk_Res k)) "")).
Definition scanOnResource (s : HierStore) (scope : ID) (res : Resource) : list Binding :=
  scan s (fun k => bool_decide (bk_Scope k = scope) && bool_decide (bk_Res k = res)).
Definition scanFrom (s : HierStore) (scope : ID) (origin : Origin) : list Binding :=
  scan s (fun k => bool_decide (bk_Scope k = scope) && has_origin s k origin).

Definition BindingsFor (s : HierStore) (scope : ID) (sub : Subject) (res : Resource) : go (list Binding) :=
  _ ← gate scope sub; Ret (scanFor s scope sub res).
Definition BindingsForSubject (s : HierStore) (scope : ID) (sub : Subject) (resourceType : string) : go (list Binding) :=
  _ ← gate scope sub; Ret (scanForSubject s scope sub resourceType).
Definition BindingsOnResource (s : HierStore) (scope : ID) (res : Resource) : go (list Binding) :=
  _ ← scopeGate scope; Ret (scanOnResource s scope res).
Definition BindingsFrom (s : HierStore) (scope : ID) (origin : Origin) : go (list Binding) :=
  _ ← scopeGate scope; Ret (scanFrom s scope origin).
Definition GroupAdmins (s : HierStore) (group : ID) : go (list Binding) := BindingsFrom s group (GroupOrigin group).

(** Each group once, in the order of their names. *)
Definition by_name (l : list ID) : list ID := sort_by (fun g => [ID_String g]) (remove_dups l).
Definition usable (g : ID) : bool := Valid g && negb (IsSingle g).
Definition GroupOrigins (s : HierStore) : list ID :=
  by_name (List.filter usable (omap groupOfOrigin (concat (map (fun kv => elements kv.2) (map_to_list (hs_origins s)))))).
(** A row that justifies itself as a group's intent. *)
Definition is_intent (s : HierStore) (k : BindingKey) : bool :=
  String.eqb (res_Type (bk_Res k)) ResourceTenantGroup && has_origin s k (GroupOrigin (bk_Scope k)).
Definition IntentGroups (s : HierStore) : list ID := by_name (map b_Tenant (scan s (is_intent s))).
Definition IntentGroupsForSubject (s : HierStore) (subjectType userID : string) : list ID :=
  by_name (map b_Tenant (scan s (fun k => String.eqb (sub_Type (bk_Subject k)) subjectType
    && String.eqb (sub_ID (bk_Subject k)) userID && is_intent s k))).

(** What the rank engine of [Authz] reads. *)
Definition hier_store (s : HierStore) : BindingStore := {|
  Authz.BindingsFor := BindingsFor s;
  Authz.BindingsForSubject := BindingsForSubject s;
  Authz.BindingsOnResource := BindingsOnResource s
|}.

(** ** The ports *)

Record Tx (S : Type) := {
  tx_GrantFrom : Binding -> Origin -> M S unit;
  tx_RevokeFrom : BindingKey -> Origin -> M S unit;
  tx_BindingsFor : ID -> Subject -> Resource -> M S (list Binding);
  tx_BindingsForSubject : ID -> Subject -> string -> M S (list Binding);
  tx_BindingsOnResource : ID -> Resource -> M S (list Binding);
  tx_BindingsFrom : ID -> Origin -> M S (list Binding)
}.
Arguments tx_GrantFrom {_} _ _ _.
Arguments tx_RevokeFrom {_} _ _ _.
Arguments tx_BindingsFor {_} _ _ _ _.
Arguments tx_BindingsForSubject {_} _ _ _ _.
Arguments tx_BindingsOnResource {_} _ _ _.
Arguments tx_BindingsFrom {_} _ _ _.
Definition tx_Grant {S} (t : Tx S) (b : Binding) : M S unit := tx_GrantFrom t b OriginDirect.
Definition tx_Revoke {S} (t : Tx S) (key : BindingKey) : M S unit := tx_RevokeFrom t key OriginDirect.

Record BindingSource (S : Type) := {
  src_GrantFrom : Binding -> Origin -> M S unit;
  src_RevokeFrom : BindingKey -> Origin -> M S unit;
  src_Apply : (Tx S -> M S unit) -> M S unit;
  src_BindingsFrom : ID -> Origin -> M S (list Binding);
  src_IntentGroups : M S (list ID);
  src_GroupOrigins : M S (list ID);
  src_IntentGroupsForSubject : string -> string -> M S (list ID)
}.
Arguments src_GrantFrom {_} _ _ _.
Arguments src_RevokeFrom {_} _ _ _.
Arguments src_Apply {_} _ _.
Arguments src_BindingsFrom {_} _ _ _.
Arguments src_IntentGroups {_} _.
Arguments src_GroupOrigins {_} _.
Arguments src_IntentGroupsForSubject {_} _ _ _.
Definition Grant {S} (src : BindingSource S) (b : Binding) : M S unit := src_GrantFrom src b OriginDirect.
Definition Revoke {S} (src : BindingSource S) (key : BindingKey) : M S unit := src_RevokeFrom src key OriginDirect.

(** The application's state: the store, and what its audit logger keeps. *)
Record HierApp (St DB : Type) := MkApp { ha_store : St; ha_db : DB }.
Arguments MkApp {_ _} _ _.
Arguments ha_store {_ _} _.
Arguments ha_db {_ _} _.

Section Memory.
Context {DB : Type}.
Local Abbreviation MS := (M (HierApp HierStore DB)).

Definition on_store {A} (op : HierStore -> go A * HierStore) : MS A := fun w =>
  let '(r, s) := op (ha_store (w_store w)) in (r, World (MkApp s (ha_db (w_store w))) (w_trace w)).
Definition of_store {A} (f : HierStore -> go A) : MS A := fun w => (f (ha_store (w_store w)), w).

Definition mem_tx : Tx (HierApp HierStore DB) := {|
  tx_GrantFrom b o := on_store (put b o);
  tx_RevokeFrom k o := on_store (drop k o);
  tx_BindingsFor scope sub res := of_store (fun s => BindingsFor s scope sub res);
  tx_BindingsForSubject scope sub ty := of_store (fun s => BindingsForSubject s scope sub ty);
  tx_BindingsOnResource scope res := of_store (fun s => BindingsOnResource s scope res);
  tx_BindingsFrom scope o := of_store (fun s => BindingsFrom s scope o)
|}.
(** The callback works on copies; the store becomes them when it returns nil. *)
Definition Apply (fn : Tx (HierApp HierStore DB) -> MS unit) : MS unit := fun w =>
  match fn mem_tx w with
  | (Ret tt, w') => (Ret tt, w')
  | (r, w') => (r, World (MkApp (ha_store (w_store w)) (ha_db (w_store w'))) (w_trace w'))
  end.
Definition mem_source : BindingSource (HierApp HierStore DB) := {|
  src_GrantFrom b o := on_store (put b o);
  src_RevokeFrom k o := on_store (drop k o);
  src_Apply := Apply;
  src_BindingsFrom scope o := of_store (fun s => BindingsFrom s scope o);
  src_IntentGroups := of_store (fun s => Ret (IntentGroups s));
  src_GroupOrigins := of_store (fun s => Ret (GroupOrigins s));
  src_IntentGroupsForSubject ty u := of_store (fun s => Ret (IntentGroupsForSubject s ty u))
|}.
End Memory.

(** ** The contract

    A store holds a set of pairs: this origin justifies this key. [ok] is what
    the store keeps of its own representation. *)

Definition Justified : Type := gset (BindingKey * Origin).

Class View (S : Type) := { view : S -> Justified; ok : S -> Prop }.

Section Contract.
Context {S : Type} {VS : View S}.
Implicit Types (v : Justified) (w : world S).

Definition seen w : Justified := view (w_store w).

(** When [m] returns from a good state, it leaves a good state, and [P] relates
    what was seen, the result and what is seen. What a failure leaves is for
    whoever runs the transaction to undo. *)
Definition effects {A} (m : M S A) (P : Justified -> A -> Justified -> Prop) : Prop :=
  forall w a w', ok (w_store w) -> m w = (Ret a, w') -> ok (w_store w') /\ P (seen w) a (seen w').
(** A read changes nothing, whatever it answers. *)
Definition reads {A} (m : M S A) (P : Justified -> A -> Prop) : Prop :=
  forall w r w', ok (w_store w) -> m w = (r, w') ->
    ok (w_store w') /\ seen w' = seen w /\ forall a, r = Ret a -> P (seen w) a.

Definition valid_key (k : BindingKey) : Prop := Valid (bk_Scope k) = true /\ Valid (sub_Tenant (bk_Subject k)) = true.
(** The bindings of a scope that an origin justifies, and those that any does. *)
Definition lists_from v (scope : ID) (o : Origin) (l : list Binding) : Prop :=
  forall b, b ∈ l <-> b_Tenant b = scope /\ (keyOf b, o) ∈ v.
Definition lists v (P : BindingKey -> Prop) (l : list Binding) : Prop :=
  forall b, b ∈ l <-> P (keyOf b) /\ exists o, (keyOf b, o) ∈ v.

Class TxLaws (t : Tx S) := {
  tx_grant b o : effects (tx_GrantFrom t b o) (fun v _ v' => valid_key (keyOf b) /\ v' = {[(keyOf b, o)]} ∪ v);
  tx_revoke k o : effects (tx_RevokeFrom t k o) (fun v _ v' => v' = v ∖ {[(k, o)]});
  tx_from scope o : reads (tx_BindingsFrom t scope o) (fun v l => lists_from v scope o l);
  tx_on scope res : reads (tx_BindingsOnResource t scope res)
    (fun v l => lists v (fun k => bk_Scope k = scope /\ bk_Res k = res) l);
  tx_for scope sub ty : reads (tx_BindingsForSubject t scope sub ty)
    (fun v l => lists v (fun k => bk_Scope k = scope /\ bk_Subject k = sub /\ res_Type (bk_Res k) = ty /\
                                  res_ID (bk_Res k) <> "") l)
}.

(** All or nothing: a callback that returns takes effect, one that does not
    leaves what is seen as it was. *)
Definition atomic (apply : (Tx S -> M S unit) -> M S unit) : Prop := forall fn P,
  (forall t, TxLaws t -> effects (fn t) (fun v _ v' => P v v')) -> forall w r w', ok (w_store w) -> apply fn w = (r, w') ->
  ok (w_store w') /\ (r = Ret tt -> P (seen w) (seen w')) /\ (is_ret r = false -> seen w' = seen w).

(** A row of the group's own scope that the group's origin justifies. *)
Definition intent_key v (g : ID) (k : BindingKey) : Prop := bk_Scope k = g /\ (k, GroupOrigin g) ∈ v.
Definition group_row (k : BindingKey) : Prop := res_Type (bk_Res k) = ResourceTenantGroup.

Class SourceLaws (src : BindingSource S) := {
  src_atomic : atomic (src_Apply src);
  src_from scope o : reads (src_BindingsFrom src scope o) (fun v l => lists_from v scope o l);
  src_intents : reads (src_IntentGroups src) (fun v l => forall g, usable g = true ->
    (g ∈ l <-> exists k, intent_key v g k /\ group_row k));
  src_origins : reads (src_GroupOrigins src) (fun v l => forall g,
    g ∈ l <-> usable g = true /\ exists k, (k, GroupOrigin g) ∈ v);
  src_subject ty u : reads (src_IntentGroupsForSubject src ty u) (fun v l => u <> "" -> (forall g, g ∈ l -> Valid g = true) /\ forall g, usable g = true ->
    (g ∈ l <-> exists k, intent_key v g k /\ group_row k /\ sub_Type (bk_Subject k) = ty /\ sub_ID (bk_Subject k) = u))
}.

(** Nothing is justified without a scope and a home tenant. *)
Class ViewLaws := { seen_valid w k o : ok (w_store w) -> (k, o) ∈ seen w -> valid_key k }.

(** *** Composing *)

Lemma effects_mret {A} (a : A) (P : Justified -> A -> Justified -> Prop) : (forall v, P v a v) -> effects (mret a) P.
Proof. intros HP w a' w' Hok [[= ->] ->]%mret_inv. by split. Qed.
Lemma effects_fail {A} (e : error) (P : Justified -> A -> Justified -> Prop) : effects (fail e) P.
Proof. by intros w a w' Hok [? _]%fail_inv. Qed.
Lemma effects_weaken {A} (m : M S A) (P Q : Justified -> A -> Justified -> Prop) : effects m P ->
  (forall v a v', P v a v' -> Q v a v') -> effects m Q.
Proof. intros Hm HPQ w a w' Hok H. destruct (Hm w a w' Hok H) as [Hok' HP]. eauto. Qed.
Lemma effects_read {A} (m : M S A) (P : Justified -> A -> Prop) : reads m P ->
  effects m (fun v a v' => v' = v /\ P v a).
Proof. intros Hm w a w' Hok H. destruct (Hm w _ w' Hok H) as (? & ? & ?). eauto. Qed.
Lemma effects_bind {A B} (m : M S A) (k : A -> M S B) P (Q : Justified -> B -> Justified -> Prop) :
  effects m P -> (forall v0 v1 a, P v0 a v1 -> effects (k a) (fun v b v' => v = v1 -> Q v0 b v')) ->
  effects (m ≫= k) Q.
Proof.
  intros Hm Hk w b w' Hok [(a & w1 & H1 & H2)|[(e & _ & [=])|(why & _ & [=])]]%bind_inv.
  destruct (Hm _ _ _ Hok H1) as [Hok1 HP]. destruct (Hk (seen w) (seen w1) a HP _ _ _ Hok1 H2) as [Hok2 HQ]. split; [done|].
  by apply HQ.
Qed.
Lemma reads_wrap {A} f (m : M S A) P : reads m P -> reads (wrap f m) P.
Proof.
  intros Hm w r w' Hok (r1 & H1 & ->)%wrap_inv. destruct (Hm _ _ _ Hok H1) as (Hok' & Hs & HP). split_and!; [done..|].
  intros a Ha%wrap_err_Ret_inv. auto.
Qed.

Lemma reads_bind {A B} (m : M S A) (k : A -> M S B) P (Q : Justified -> B -> Prop) :
  reads m P -> (forall v a, P v a -> reads (k a) (fun v' b => v' = v -> Q v b)) -> reads (m ≫= k) Q.
Proof.
  intros Hm Hk w r w' Hok [(a & w1 & H1 & H2)|[(e & H1 & ->)|(why & H1 & ->)]]%bind_inv;
    destruct (Hm _ _ _ Hok H1) as (Hok1 & Hs1 & HP); [|by split_and!..].
  destruct (Hk (seen w) a (HP a eq_refl) _ _ _ Hok1 H2) as (Hok2 & Hs2 & HQ). split_and!; [done|congruence|].
  intros b Hb. by apply HQ.
Qed.
Lemma reads_mret {A} (a : A) (P : Justified -> A -> Prop) : (forall v, P v a) -> reads (mret a) P.
Proof. intros HP w r w' Hok [-> ->]%mret_inv. split_and!; [done..|]. by intros ? [= <-]. Qed.
Lemma reads_weaken {A} (m : M S A) (P Q : Justified -> A -> Prop) : reads m P -> (forall v a, P v a -> Q v a) -> reads m Q.
Proof. intros Hm HPQ w r w' Hok H. destruct (Hm _ _ _ Hok H) as (? & ? & ?). eauto 6. Qed.
Lemma reads_lift {A} (m : go A) : reads (lift m) (fun _ a => m = Ret a).
Proof. intros w r w' Hok [= <- <-]. done. Qed.

(** [for _, x := range l { if err := f(x); err != nil { return err } }]. *)
Fixpoint each {A} (l : list A) (f : A -> M S unit) : M S unit :=
  match l with [] => mret tt | x :: l => f x;; each l f end.
Lemma effects_each {A} (l : list A) f (Q : A -> Prop) (F : A -> Justified -> Justified) :
  (forall x, x ∈ l -> effects (f x) (fun v _ v' => Q x /\ v' = F x v)) ->
  effects (each l f) (fun v _ v' => (forall x, x ∈ l -> Q x) /\ v' = fold_left (fun v x => F x v) l v).
Proof.
  induction l as [|x l IH]; intros Hf; cbn [each fold_left].
  - apply effects_mret. intros v. split; [by intros x Hx%not_elem_of_nil|done].
  - eapply effects_bind; [apply Hf; by left|]. intros v0 v1 [] [HQ ->].
    eapply effects_weaken; [apply IH; intros y Hy; apply Hf; by right|].
    intros v [] v' [HQs ->] ->. split; [|done]. intros y [->|Hy]%elem_of_cons; auto.
Qed.
Lemma fold_union {A} (g : A -> BindingKey * Origin) l v :
  fold_left (fun v x => {[g x]} ∪ v) l v = list_to_set (map g l) ∪ v.
Proof. revert v. induction l as [|x l IH]; intros v; cbn; [set_solver|]. rewrite IH. set_solver. Qed.
Lemma fold_difference {A} (g : A -> BindingKey * Origin) l v :
  fold_left (fun v x => v ∖ {[g x]}) l v = v ∖ list_to_set (map g l).
Proof. revert v. induction l as [|x l IH]; intros v; cbn; [set_solver|]. rewrite IH. set_solver. Qed.

End Contract.

(** ** The store in memory fulfils it *)

Section MemoryLaws.
Context {DB : Type}.
Implicit Types (s : HierStore) (w : world (HierApp HierStore DB)).

Definition pairs s : Justified :=
  list_to_set (concat (map (fun kv => map (pair kv.1) (elements kv.2)) (map_to_list (hs_origins s)))).
Lemma elem_of_pairs s k o : (k, o) ∈ pairs s <-> o ∈ default ∅ (hs_origins s !! k).
Proof.
  unfold pairs. rewrite elem_of_list_to_set, list_elem_of_In, in_concat. split.
  - intros (l & Hl & Hin). apply list_elem_of_In, list_elem_of_fmap in Hl as ([k' set] & -> & Hk%elem_of_map_to_list).
    apply list_elem_of_In, list_elem_of_fmap in Hin as (o' & [= -> ->] & Ho%elem_of_elements). cbn in *. by rewrite Hk.
  - destruct (hs_origins s !! k) as [set|] eqn:Hk; cbn; [|set_solver]. intros Ho.
    exists (map (pair k) (elements set)). split.
    + apply list_elem_of_In, list_elem_of_fmap. exists (k, set). split; [done|]. by apply elem_of_map_to_list.
    + apply list_elem_of_In, list_elem_of_fmap. exists o. split; [done|]. by apply elem_of_elements.
Qed.

(** Rows and origins have the same keys, each row is filed under its own key,
    no row is without an origin. *)
Record hier_ok s : Prop := {
  ho_dom k : is_Some (hs_rows s !! k) <-> is_Some (hs_origins s !! k);
  ho_key k b : hs_rows s !! k = Some b -> keyOf b = k /\ valid_key k;
  ho_last k set : hs_origins s !! k = Some set -> set <> ∅
}.
#[export] Instance mem_view : View (HierApp HierStore DB) := {
  view a := pairs (ha_store a);
  ok a := hier_ok (ha_store a)
}.

Lemma hier_ok_new : hier_ok NewHierStore.
Proof. split; cbn; intros *; rewrite ?lookup_empty; done. Qed.

Lemma hier_gate_Ret scope sub : gate scope sub = Ret tt <-> Valid scope = true /\ Valid (sub_Tenant sub) = true.
Proof. unfold gate, scopeGate. destruct (Valid scope), (Valid (sub_Tenant sub)); cbn; intuition done. Qed.
Lemma hier_gate_fails scope sub : gate scope sub <> Ret tt -> exists e, gate scope sub = Fail e.
Proof. unfold gate, scopeGate. destruct (Valid scope), (Valid (sub_Tenant sub)); cbn; eauto. done. Qed.

Lemma put_run b o s r s' : hier_ok s -> put b o s = (r, s') ->
  hier_ok s' /\ (r = Ret tt -> valid_key (keyOf b) /\ pairs s' = {[(keyOf b, o)]} ∪ pairs s) /\ (is_ret r = false -> s' = s).
Proof.
  intros Hok. unfold put. destruct (gate (b_Tenant b) (b_Subject b)) as [[]|e|why] eqn:Hg; intros [= <- <-]; [|by split_and!..].
  apply hier_gate_Ret in Hg. split_and!; [|intros _; split; [done|]|done].
  - split; cbn.
    + intros k. rewrite !lookup_insert_is_Some. destruct (ho_dom s Hok k). tauto.
    + intros k b'. rewrite lookup_insert_Some. intros [[<- <-]|[_ Hk]]; [done|]. by apply (ho_key s Hok).
    + intros k set. rewrite lookup_insert_Some. intros [[_ <-]|[_ Hk]]; [set_solver|]. by apply (ho_last s Hok k).
  - apply set_eq. intros [k o']. rewrite elem_of_union, elem_of_singleton, !elem_of_pairs. cbn.
    destruct (decide (k = keyOf b)) as [->|Hne].
    + rewrite lookup_insert_eq. cbn. rewrite elem_of_union, elem_of_singleton. naive_solver.
    + rewrite lookup_insert_ne by done. naive_solver.
Qed.

Lemma drop_run k o s r s' : hier_ok s -> drop k o s = (r, s') ->
  hier_ok s' /\ (r = Ret tt -> pairs s' = pairs s ∖ {[(k, o)]}) /\ (is_ret r = false -> s' = s).
Proof.
  intros Hok. unfold drop. destruct (gate (bk_Scope k) (bk_Subject k)) as [[]|e|why]; [|intros [= <- <-]; by split_and!..].
  assert (forall f : gset Origin -> option (gset Origin), (forall set, f set = None -> set ∖ {[o]} = ∅) ->
    (forall set set', f set = Some set' -> set' = set ∖ {[o]}) -> forall s',
    hs_origins s' = partial_alter (fun x => x ≫= f) k (hs_origins s) -> pairs s' = pairs s ∖ {[(k, o)]}) as Hpairs.
  { intros f HN HS s1 Ho. apply set_eq. intros [k' o']. rewrite elem_of_difference, elem_of_singleton, !elem_of_pairs, Ho.
    destruct (decide (k' = k)) as [->|Hne].
    - rewrite lookup_partial_alter_eq. destruct (hs_origins s !! k) as [set|]; cbn; [|set_solver].
      destruct (f set) as [set'|] eqn:Hf; cbn; [apply HS in Hf as ->; set_solver|]. apply HN in Hf. set_solver.
    - rewrite lookup_partial_alter_ne by done. naive_solver. }
  destruct (hs_origins s !! k) as [set|] eqn:Hk; [destruct (decide (set ∖ {[o]} = ∅)) as [He|He]|]; intros [= <- <-].
  - split_and!; [|intros _; apply (Hpairs (fun set => if decide (set ∖ {[o]} = ∅) then None else Some (set ∖ {[o]})))|done].
    + split; cbn.
      * intros k'. rewrite !lookup_delete_is_Some. destruct (ho_dom s Hok k'). tauto.
      * intros k' b'. rewrite lookup_delete_Some. intros [_ Hk']. by apply (ho_key s Hok).
      * intros k' set'. rewrite lookup_delete_Some. intros [_ Hk']. by apply (ho_last s Hok k').
    + intros set'. by case_decide.
    + intros set' set''. by case_decide; intros [= <-].
    + cbn. apply map_eq. intros k'. destruct (decide (k' = k)) as [->|Hne].
      * rewrite lookup_delete_eq, lookup_partial_alter_eq, Hk. cbn. by rewrite decide_True.
      * by rewrite lookup_delete_ne, lookup_partial_alter_ne.
  - split_and!; [|intros _; apply (Hpairs (fun set => Some (set ∖ {[o]})))|done]; [|done|congruence|].
    + split; cbn.
      * intros k'. rewrite lookup_insert_is_Some. destruct (ho_dom s Hok k').
        destruct (decide (k' = k)) as [->|]; [|naive_solver]. assert (is_Some (hs_origins s !! k)) by eauto. naive_solver.
      * intros k' b'. by apply (ho_key s Hok).
      * intros k' set'. rewrite lookup_insert_Some. intros [[_ <-]|[_ Hk']]; [done|]. by apply (ho_last s Hok k').
    + cbn. apply map_eq. intros k'. destruct (decide (k' = k)) as [->|Hne].
      * by rewrite lookup_insert_eq, lookup_partial_alter_eq, Hk.
      * by rewrite lookup_insert_ne, lookup_partial_alter_ne.
  - split_and!; [done| |done]. intros _. apply set_eq. intros [k' o'].
    rewrite elem_of_difference, elem_of_singleton, elem_of_pairs.
    split; [|tauto]. intros Ho. split; [done|]. intros [= -> ->]. rewrite Hk in Ho. cbn in Ho. set_solver.
Qed.

Lemma pairs_valid s k o : hier_ok s -> (k, o) ∈ pairs s -> valid_key k.
Proof.
  intros Hok Ho%elem_of_pairs. destruct (hs_origins s !! k) as [set|] eqn:Hset; [|cbn in Ho; set_solver].
  destruct (proj2 (ho_dom s Hok k)) as [b Hb]; [by eauto|]. by apply (ho_key s Hok k b).
Qed.

Lemma elem_of_scan s keep b : hier_ok s -> b ∈ scan s keep <-> (exists o, (keyOf b, o) ∈ pairs s) /\ keep (keyOf b) = true.
Proof.
  intros Hok. unfold scan. rewrite list_elem_of_fmap. split.
  - intros ([k b'] & -> & Hin). apply list_elem_of_In, filter_In in Hin as [Hin Hkeep].
    apply list_elem_of_In, elem_of_map_to_list in Hin. destruct (ho_key s Hok k b' Hin) as [<- _]. cbn in *. split; [|done].
    destruct (proj1 (ho_dom s Hok (keyOf b'))) as [set Hset]; [by eauto|].
    destruct (set_choose_L set (ho_last s Hok _ _ Hset)) as [o Ho]. exists o. apply elem_of_pairs. by rewrite Hset.
  - intros [[o Ho%elem_of_pairs] Hkeep]. destruct (hs_origins s !! keyOf b) as [set|] eqn:Hset; [|cbn in Ho; set_solver].
    destruct (proj2 (ho_dom s Hok (keyOf b))) as [b' Hb]; [by eauto|].
    destruct (ho_key s Hok _ _ Hb) as [Hk%(inj keyOf) _]. subst b'.
    exists (keyOf b, b). split; [done|]. apply list_elem_of_In, filter_In. split; [|done].
    apply list_elem_of_In. by apply elem_of_map_to_list.
Qed.
Lemma has_origin_pairs s k o : has_origin s k o = true <-> (k, o) ∈ pairs s.
Proof. unfold has_origin. rewrite bool_decide_eq_true. symmetry. apply elem_of_pairs. Qed.

Ltac flags := rewrite ?andb_true_iff, ?bool_decide_eq_true, ?negb_true_iff, ?String.eqb_eq, ?String.eqb_neq, ?has_origin_pairs.

Lemma scanFrom_lists s scope o : hier_ok s -> lists_from (pairs s) scope o (scanFrom s scope o).
Proof.
  intros Hok b. unfold scanFrom. rewrite elem_of_scan by done. flags. cbn. split; [tauto|]. intros [-> Ho]. eauto.
Qed.

Lemma reads_of_store {A} (f : HierStore -> go A) (P : Justified -> A -> Prop) :
  (forall s a, hier_ok s -> f s = Ret a -> P (pairs s) a) -> reads (of_store (DB := DB) f) P.
Proof. intros Hf w r w' Hok [= <- <-]. split_and!; [done..|]. intros a Ha. by apply (Hf _ a). Qed.
Lemma effects_on_store {A} op (P : Justified -> A -> Justified -> Prop) :
  (forall s a s', hier_ok s -> op s = (Ret a, s') -> hier_ok s' /\ P (pairs s) a (pairs s')) ->
  effects (on_store (DB := DB) op) P.
Proof.
  intros Hop w a w' Hok. unfold on_store. destruct (op (ha_store (w_store w))) as [r1 s1] eqn:H. intros [= -> <-].
  exact (Hop _ _ _ Hok H).
Qed.

#[export] Instance mem_tx_laws : TxLaws (mem_tx (DB := DB)).
Proof.
  split; cbn.
  - intros b o. apply effects_on_store. intros s [] s' Hok H. destruct (put_run b o s _ s' Hok H) as (? & Hr & _). auto.
  - intros k o. apply effects_on_store. intros s [] s' Hok H. destruct (drop_run k o s _ s' Hok H) as (? & Hr & _). auto.
  - intros scope o. apply reads_of_store. intros s l Hok [[] [_ [= <-]]]%go_bind_Ret_inv. by apply scanFrom_lists.
  - intros scope res. apply reads_of_store. intros s l Hok [[] [_ [= <-]]]%go_bind_Ret_inv b.
    unfold scanOnResource. rewrite elem_of_scan by done. flags. tauto.
  - intros scope sub ty. apply reads_of_store. intros s l Hok [[] [_ [= <-]]]%go_bind_Ret_inv b.
    unfold scanForSubject. rewrite elem_of_scan by done. flags. tauto.
Qed.

Lemma elem_of_by_name l g : g ∈ by_name l <-> g ∈ l.
Proof. unfold by_name. rewrite sort_by_Permutation. apply elem_of_remove_dups. Qed.

Lemma string_drop_append (p t : string) : string_drop (String.length p) (p +:+ t) = t.
Proof.
  unfold string_drop. rewrite string_length_append.
  replace (String.length p + String.length t - String.length p)%nat with (String.length t) by lia.
  apply append_substring_suffix.
Qed.
Lemma usable_New (t : string) : t <> "" -> usable (New t) = true.
Proof. intros Hs. unfold usable, New. rewrite (proj2 (String.eqb_neq _ _) Hs). unfold IsSingle. cbn. by rewrite (proj2 (String.eqb_neq _ _) Hs). Qed.
Lemma usable_inv g : usable g = true -> ID_String g <> "" /\ g = New (ID_String g).
Proof.
  unfold usable, IsSingle, Valid. destruct g as [v []]; cbn; [|done]. intros H. destruct (String.eqb_spec v ""); [done|].
  split; [done|]. unfold New. by rewrite (proj2 (String.eqb_neq _ _)).
Qed.
Lemma groupOfOrigin_usable o g : usable g = true -> groupOfOrigin o = Some g <-> o = GroupOrigin g.
Proof.
  intros Hg. destruct (usable_inv g Hg) as [Hne Hnew]. unfold groupOfOrigin, GroupOrigin. split.
  - destruct (has_prefix o groupOriginPrefix) eqn:Hp; [|done]. apply has_prefix_spec in Hp as [t ->].
    cbn [negb]. rewrite string_drop_append. intros [= <-]. f_equal. unfold New. by destruct (String.eqb_spec t "") as [->|].
  - intros ->. rewrite (proj2 (has_prefix_spec _ _)) by eauto. cbn [negb]. rewrite string_drop_append. by rewrite <- Hnew.
Qed.

Lemma intent_pairs s g k : is_intent s k = true /\ bk_Scope k = g <-> intent_key (pairs s) g k /\ group_row k.
Proof. unfold is_intent, intent_key, group_row. flags. naive_solver. Qed.

#[export] Instance mem_source_laws : SourceLaws (mem_source (DB := DB)).
Proof.
  split; cbn.
  - intros fn P Hfn w r w' Hok. unfold Apply. destruct (fn mem_tx w) as [r1 w1] eqn:H.
    destruct r1 as [[]|e|why]; intros [= <- <-]; [|by split_and!..].
    destruct (Hfn _ mem_tx_laws w tt w1 Hok H) as [Hok1 HP]. by split_and!.
  - intros scope o. apply reads_of_store. intros s l Hok [[] [_ [= <-]]]%go_bind_Ret_inv. by apply scanFrom_lists.
  - apply reads_of_store. intros s l Hok [= <-] g _. unfold IntentGroups. rewrite elem_of_by_name, list_elem_of_fmap. split.
    + intros (b & -> & [Ho Hi]%elem_of_scan); [|done]. exists (keyOf b). by apply intent_pairs.
    + intros (k & Hk). apply intent_pairs in Hk as [Hi <-]. exists (of_key k). split; [done|].
      apply elem_of_scan; [done|]. rewrite keyOf_of_key. split; [|done]. exists (GroupOrigin (bk_Scope k)).
      apply has_origin_pairs. unfold is_intent in Hi. by apply andb_prop in Hi as [_ ?].
  - apply reads_of_store. intros s l Hok [= <-] g. unfold GroupOrigins.
    rewrite elem_of_by_name, list_elem_of_In, filter_In, <- list_elem_of_In, list_elem_of_omap.
    assert (forall o, o ∈ concat (map (fun kv => elements kv.2) (map_to_list (hs_origins s))) <-> exists k, (k, o) ∈ pairs s) as Hall.
    { intros o. unfold pairs. setoid_rewrite elem_of_list_to_set. setoid_rewrite list_elem_of_In. setoid_rewrite in_concat.
      setoid_rewrite <- list_elem_of_In. setoid_rewrite list_elem_of_fmap. split.
      - intros (l & (kv & -> & Hkv) & Ho). exists kv.1. eexists. split; [by exists kv|]. apply list_elem_of_fmap. by exists o.
      - intros (k & l & (kv & -> & Hkv) & Ho). apply list_elem_of_fmap in Ho as (o' & [= -> ->] & Ho). eauto. }
    split.
    + intros [(o & [k Ho]%Hall & Hg) Hu]. split; [done|]. exists k. by apply groupOfOrigin_usable in Hg as ->.
    + intros [Hu [k Hk]]. split; [|done]. exists (GroupOrigin g). split; [apply Hall; eauto|]. by apply groupOfOrigin_usable.
  - intros ty u. apply reads_of_store. intros s l Hok [= <-] _. unfold IntentGroupsForSubject. split.
    { intros g. rewrite elem_of_by_name, list_elem_of_fmap. intros (b & -> & [[o Ho] _]%elem_of_scan); [|done].
      by apply (pairs_valid s (keyOf b) o). }
    intros g _. rewrite elem_of_by_name, list_elem_of_fmap. split.
    + intros (b & -> & [Ho Hi]%elem_of_scan); [|done]. rewrite !andb_true_iff, !String.eqb_eq in Hi. destruct Hi as [[Ht Hs] Hi].
      exists (keyOf b). destruct (proj1 (intent_pairs s (b_Tenant b) (keyOf b))); done.
    + intros (k & Hk & Hr & <- & <-). destruct (proj2 (intent_pairs s g k)) as [Hi <-]; [done|]. exists (of_key k). split; [done|].
      apply elem_of_scan; [done|]. rewrite keyOf_of_key, !String.eqb_refl, Hi. split; [|done]. exists (GroupOrigin (bk_Scope k)).
      apply has_origin_pairs. unfold is_intent in Hi. by apply andb_prop in Hi as [_ ?].
Qed.
#[export] Instance mem_view_laws : ViewLaws (S := HierApp HierStore DB).
Proof. split. intros w k o Hok. by apply pairs_valid. Qed.

(** The rank engine reads the justified bindings. *)
Definition table s : list Binding := map snd (map_to_list (hs_rows s)).
Lemma elem_of_table s b : hier_ok s -> b ∈ table s <-> exists o, (keyOf b, o) ∈ pairs s.
Proof.
  intros Hok. assert (table s = scan s (fun _ => true)) as ->.
  { unfold table, scan. f_equal. symmetry. apply List.forallb_filter_id, forallb_forall. done. }
  rewrite elem_of_scan by done. tauto.
Qed.
#[export] Instance hier_represents s : hier_ok s -> Represents (table s) (hier_store s).
Proof.
  intros Hok. assert (forall t sub, Authz.gate t sub = gate t sub) as Hgate by reflexivity.
  assert (forall t, Authz.scopeGate t = scopeGate t) as Hscope by reflexivity.
  split; cbn [hier_store Authz.BindingsFor Authz.BindingsForSubject Authz.BindingsOnResource].
  - intros t sub res Hg. unfold BindingsFor. rewrite <- Hgate, Hg. eexists. split; [reflexivity|]. intros b.
    unfold scanFor. rewrite elem_of_scan, elem_of_table by done. flags. cbn. tauto.
  - intros t sub ty Hg. unfold BindingsForSubject. rewrite <- Hgate, Hg. eexists. split; [reflexivity|]. intros b.
    unfold scanForSubject. rewrite elem_of_scan, elem_of_table by done. flags. cbn. tauto.
  - intros t res Hg. unfold BindingsOnResource. rewrite <- Hscope, Hg. eexists. split; [reflexivity|]. intros b.
    unfold scanOnResource. rewrite elem_of_scan, elem_of_table by done. flags. cbn. tauto.
  - intros b [o Ho]%elem_of_table; [|done]. apply elem_of_pairs in Ho.
    destruct (hs_origins s !! keyOf b) as [set|] eqn:Hset; [|cbn in Ho; set_solver].
    destruct (proj2 (ho_dom s Hok (keyOf b))) as [b' Hb]; [by eauto|]. by apply (ho_key s Hok) in Hb as [_ [_ ?]].
Qed.
End MemoryLaws.
