(* ===== verification/HierProvision.v ===== *)
(** * Provisioning a tenant hierarchy

    [src/examples/tenanthierarchy/provisioner.go] with [hierarchy.go],
    [rolemap.go] and [audit.go]: an administrator of a tenant group holds one
    intent row in the group's scope and one materialized row in the scope of
    each organization of the group. [Provisioner] over any [BindingSource]. *)

From S2P Require Import Prelude Tenant World AuditEvent Http WebAudit Authz HierStore.

#[local] Open Scope string_scope.
#[local] Open Scope list_scope.
#[local] Open Scope Z_scope.

(** ** Parentage and roles *)

(** The application's tenant table, at one moment. *)
Record OrgHierarchy := MkHierarchy {
  ParentOf : string -> go (string * bool);
  ChildrenOf : string -> go (list string)
}.
Abbreviation RoleMap := (gmap Role Role).
Definition translate (m : RoleMap) (r : Role) : option Role := m !! r.

Definition ActionGrantGroupAdmin : string := "tenanthierarchy.group_admin.grant".
Definition ActionRevokeGroupAdmin : string := "tenanthierarchy.group_admin.revoke".
Definition ActionAddOrg : string := "tenanthierarchy.org.add".
Definition ActionMoveOrg : string := "tenanthierarchy.org.move".
Definition ActionRemoveOrg : string := "tenanthierarchy.org.remove".
Definition auditResourceType : string := "tenant_group".

Definition DefaultMaxProvisionRows : Z := 100000.

(** ** The rows *)

Definition intentBinding (sub : Subject) (group : ID) (role : Role) : Binding :=
  MkBinding group sub (MkResource ResourceTenantGroup (ID_String group)) role.
Definition materializedBinding (sub : Subject) (orgID : string) (role : Role) : Binding :=
  MkBinding (New orgID) sub (MkResource ResourceOrganization orgID) role.

(** ** Gates *)

Definition too_many : error := Errorf1 "rows" (Sentinel hierarchy_ErrTooManyRows).
Definition unmapped : error := Errorf1 "role held on group" (Sentinel hierarchy_ErrUnmappedRole).
Definition bad_membership (why : string) : error := Errorf1 why (Sentinel hierarchy_ErrBadMembership).

Definition pv_gate (sub : Subject) (group : ID) : go unit :=
  if negb (Valid group) then Fail (Errorf1 "the group is unset" (Sentinel authz_ErrTenantRequired))
  else if negb (Valid (sub_Tenant sub)) then Fail (Errorf1 "subject has no home tenant" (Sentinel authz_ErrTenantRequired))
  else if negb (bool_decide (sub_Tenant sub = group)) then
    Fail (Errorf1 "subject home tenant is not the group" (Sentinel hierarchy_ErrSubjectNotInGroup))
  else Ret tt.

Fixpoint groups_gate (org : ID) (groups : list ID) : go unit :=
  match groups with
  | [] => Ret tt
  | g :: groups =>
      if negb (Valid g) then Fail (bad_membership "a group is unset")
      else if IsSingle g then Fail (bad_membership "a group cannot be the single tenant")
      else if bool_decide (g = org) then Fail (bad_membership "cannot be its own group")
      else groups_gate org groups
  end.
Definition membershipGate (org : ID) (groups : list ID) : go unit :=
  if negb (Valid org) then Fail (bad_membership "the org is unset")
  else if IsSingle org then Fail (bad_membership "the org cannot be the single tenant")
  else groups_gate org groups.

(** ** The operations *)

Section Provisioner.
Context (E : Env) {S : Type}.
Local Abbreviation MS := (M S).

Record Provisioner := MkProvisioner {
  pv_src : BindingSource S;
  pv_hier : OrgHierarchy;
  pv_roles : RoleMap;
  pv_maxRows : Z;
  pv_audit : option (Event -> MS Event)
}.
Definition WithMaxProvisionRows (n : Z) (p : Provisioner) : Provisioner :=
  MkProvisioner (pv_src p) (pv_hier p) (pv_roles p) n (pv_audit p).
Definition WithAudit (logger : option (Event -> MS Event)) (p : Provisioner) : Provisioner :=
  MkProvisioner (pv_src p) (pv_hier p) (pv_roles p) (pv_maxRows p) logger.
Definition NewProvisioner (w : option (BindingSource S)) (h : option OrgHierarchy) (roles : RoleMap)
    (opts : list (Provisioner -> Provisioner)) : go Provisioner :=
  match w, h with
  | None, _ => Fail (Errorf0 "NewProvisioner requires a BindingSource")
  | _, None => Fail (Errorf0 "NewProvisioner requires an OrgHierarchy")
  | Some w, Some h =>
      if decide (roles = ∅) then Fail (Errorf0 "NewProvisioner requires a non-empty RoleMap")
      else
        let p := fold_left (fun p opt => opt p) opts (MkProvisioner w h roles DefaultMaxProvisionRows None) in
        if pv_maxRows p <=? 0 then Fail (Errorf0 "NewProvisioner requires MaxProvisionRows > 0") else Ret p
  end.

Context (p : Provisioner).

(** A failure of the logger is reported and changes nothing. *)
Definition recordProvisioning (x : Context) (action : string) (group : ID) (resourceID : string) : MS unit :=
  match pv_audit p with
  | None => mret tt
  | Some log =>
      id ← newID E;
      at_ ← now E;
      ignore_err (log {| ev_ID := id; ev_At := at_; ev_Actor := ActorFromContext x; ev_Action := action;
        ev_ResourceType := auditResourceType; ev_ResourceID := resourceID; ev_RequestID := ""; ev_ClusterID := "";
        ev_Before := []; ev_After := []; ev_PrevHash := []; ev_Hash := []; ev_CanonicalVersion := 0;
        ev_TenantID := ID_String group; ev_RowSalt := []; ev_Commitments := no_commitments |})
  end.

Definition children_of (group : ID) : MS (list string) :=
  wrap (Errorf1 "children of") (lift (ChildrenOf (pv_hier p) (ID_String group))).

Definition GrantGroupAdmin (x : Context) (sub : Subject) (group : ID) (role : Role) : MS unit :=
  lift (pv_gate sub group);;
  match translate (pv_roles p) role with
  | None => fail unmapped
  | Some mapped =>
      children ← children_of group;
      if pv_maxRows p <? 1 + Z.of_nat (length children) then fail too_many
      else
        let origin := GroupOrigin group in
        src_Apply (pv_src p) (fun tx =>
          tx_GrantFrom tx (intentBinding sub group role) origin;;
          each children (fun orgID => tx_GrantFrom tx (materializedBinding sub orgID mapped) origin));;
        recordProvisioning x ActionGrantGroupAdmin group (sub_ID sub)
  end.

(** The keys of the subject's rows in each child. *)
Fixpoint child_keys (tx : Tx S) (sub : Subject) (children : list string) (keys : list BindingKey)
    : MS (list BindingKey) :=
  match children with
  | [] => mret keys
  | orgID :: children =>
      bs ← wrap (Errorf1 "read bindings") (tx_BindingsForSubject tx (New orgID) sub ResourceOrganization);
      child_keys tx sub children (keys ++ map keyOf bs)
  end.
Definition RevokeGroupAdmin (x : Context) (sub : Subject) (group : ID) : MS unit :=
  lift (pv_gate sub group);;
  children ← children_of group;
  let origin := GroupOrigin group in
  src_Apply (pv_src p) (fun tx =>
    intents ← wrap (Errorf1 "read intent rows")
      (tx_BindingsOnResource tx group (MkResource ResourceTenantGroup (ID_String group)));
    keys ← child_keys tx sub children
      (map keyOf (List.filter (fun b => bool_decide (b_Subject b = sub)) intents));
    if pv_maxRows p <? Z.of_nat (length keys) then fail too_many
    else each keys (fun k => tx_RevokeFrom tx k origin));;
  recordProvisioning x ActionRevokeGroupAdmin group (sub_ID sub).

Definition requireParent (org group : ID) : MS unit :=
  '(got, ok) ← wrap (Errorf1 "resolve parent") (lift (ParentOf (pv_hier p) (ID_String org)));
  if negb (ok : bool) || negb (String.eqb got (ID_String group)) then
    fail (Errorf1 "requires org to be a child of group" (Sentinel hierarchy_ErrParentMismatch))
  else mret tt.

Definition extendOnto (tx : Tx S) (group org : ID) (admins : list Binding) : MS unit :=
  each admins (fun b =>
    match translate (pv_roles p) (b_Role b) with
    | None => fail unmapped
    | Some mapped => tx_GrantFrom tx (materializedBinding (b_Subject b) (ID_String org) mapped) (GroupOrigin group)
    end).

Definition AddOrg (x : Context) (group org : ID) : MS unit :=
  lift (membershipGate org [group]);;
  requireParent org group;;
  src_Apply (pv_src p) (fun tx =>
    admins ← wrap (Errorf1 "read intent rows") (tx_BindingsFrom tx group (GroupOrigin group));
    if pv_maxRows p <? Z.of_nat (length admins) then fail too_many else extendOnto tx group org admins);;
  recordProvisioning x ActionAddOrg group (ID_String org).

Definition revoke_rows (tx : Tx S) (rows : list Binding) (origin : Origin) : MS unit :=
  each rows (fun b => tx_RevokeFrom tx (keyOf b) origin).

Definition MoveOrg (x : Context) (org from to : ID) : MS unit :=
  lift (membershipGate org [from; to]);;
  if bool_decide (from = to) then fail (bad_membership "MoveOrg needs distinct from/to groups")
  else
    requireParent org to;;
    src_Apply (pv_src p) (fun tx =>
      fromRows ← wrap (Errorf1 "read bindings") (tx_BindingsFrom tx org (GroupOrigin from));
      toAdmins ← wrap (Errorf1 "read intent rows") (tx_BindingsFrom tx to (GroupOrigin to));
      if pv_maxRows p <? Z.of_nat (length fromRows + length toAdmins) then fail too_many
      else
        revoke_rows tx fromRows (GroupOrigin from);;
        extendOnto tx to org toAdmins);;
    recordProvisioning x ActionMoveOrg to (ID_String org).

Definition RemoveOrg (x : Context) (org group : ID) : MS unit :=
  lift (membershipGate org [group]);;
  requireParent org group;;
  src_Apply (pv_src p) (fun tx =>
    rows ← wrap (Errorf1 "read bindings") (tx_BindingsFrom tx org (GroupOrigin group));
    if pv_maxRows p <? Z.of_nat (length rows) then fail too_many else revoke_rows tx rows (GroupOrigin group));;
  recordProvisioning x ActionRemoveOrg group (ID_String org).
End Provisioner.
