(* ===== verification/HierLaws.v ===== *)
(** * What provisioning keeps

    Over any store that fulfils [SourceLaws] and whatever the tenant table is:
    the materialized rows of a group are exactly what its intent rows and its
    organizations call for, and each operation of the [Provisioner] keeps it
    so, touching nothing that another origin justifies. *)

From S2P Require Import Prelude Tenant World AuditEvent Http WebAudit Authz HierStore HierProvision.

#[local] Open Scope string_scope.
#[local] Open Scope list_scope.
#[local] Open Scope Z_scope.

(** ** Parentage *)

Abbreviation Parents := (gmap string string).
(** The port answers from the table. *)
Record shows (h : OrgHierarchy) (H : Parents) : Prop := {
  sh_parent org g found : ParentOf h org = Ret (g, found) -> H !! org = if (found : bool) then Some g else None;
  sh_children g l : ChildrenOf h g = Ret l -> forall c, c ∈ l <-> H !! c = Some g
}.
(** Organizations have names, and none is its own group. *)
Definition sane (H : Parents) : Prop := forall c g, H !! c = Some g -> c <> "" /\ c <> g.

Lemma ID_String_New t : ID_String (New t) = t.
Proof. unfold New. by destruct (String.eqb_spec t "") as [->|]. Qed.
Lemma New_ID_String g : usable g = true -> New (ID_String g) = g.
Proof. intros Hg. symmetry. by apply usable_inv. Qed.
Lemma child_scope H c g : sane H -> H !! c = Some (ID_String g) -> New c <> g.
Proof. intros HS Hc <-. rewrite ID_String_New in Hc. by apply HS in Hc as [_ ?]. Qed.

(** ** Converged groups *)

Section Converged.
Context (roles : RoleMap).
Implicit Types (v : Justified) (H : Parents) (k i : BindingKey).

(** An intent row of [g], translated, on an organization of [g]. *)
Definition projected H v (g : ID) k : Prop := exists i c r, intent_key v g i /\
  H !! c = Some (ID_String g) /\ roles !! bk_Role i = Some r /\ k = keyOf (materializedBinding (bk_Subject i) c r).
Record converged H v (g : ID) : Prop := {
  cv_intent k : intent_key v g k -> exists sub role, k = keyOf (intentBinding sub g role) /\ sub_Tenant sub = g /\
    is_Some (roles !! role);
  cv_rows k : bk_Scope k <> g -> (k, GroupOrigin g) ∈ v <-> projected H v g k
}.
Definition all_converged H v : Prop := forall g, Valid g = true -> converged H v g.

(** Only what these origins justify differs. *)
Definition only_origins (os : list Origin) v v' : Prop := forall k o, o ∉ os -> (k, o) ∈ v' <-> (k, o) ∈ v.

Lemma GroupOrigin_inj g g' : Valid g = true -> Valid g' = true -> GroupOrigin g = GroupOrigin g' -> g = g'.
Proof.
  intros Hg Hg' Ho. apply (f_equal (string_drop (String.length groupOriginPrefix))) in Ho.
  unfold GroupOrigin in Ho. rewrite !string_drop_append in Ho.
  destruct g, g'. unfold Valid in *. cbn in *. congruence.
Qed.

Lemma converged_same H H' v v' g : (forall k, (k, GroupOrigin g) ∈ v' <-> (k, GroupOrigin g) ∈ v) ->
  (forall c, H' !! c = Some (ID_String g) <-> H !! c = Some (ID_String g)) -> converged H v g -> converged H' v' g.
Proof.
  intros Hv Hc [Hi Hr]. split.
  - intros k [Hs Hk]. apply Hi. split; [done|]. by apply Hv.
  - intros k Hs. rewrite Hv, (Hr k Hs). unfold projected, intent_key. setoid_rewrite Hv. setoid_rewrite Hc. done.
Qed.
Lemma converged_others H H' v v' os g : only_origins os v v' -> GroupOrigin g ∉ os ->
  (forall c, H' !! c = Some (ID_String g) <-> H !! c = Some (ID_String g)) -> converged H v g -> converged H' v' g.
Proof. intros Ho Hg. apply converged_same. intros k. by apply Ho. Qed.

(** *** The effect of each operation on what is seen *)

Lemma materialized_inv sub c r sub' c' r' : keyOf (materializedBinding sub c r) = keyOf (materializedBinding sub' c' r') ->
  sub = sub' /\ c = c' /\ r = r'.
Proof. intros [= _ -> -> ->]. done. Qed.

(** The rows a grant writes. *)
Definition granted_rows (sub : Subject) (g : ID) (role mapped : Role) (children : list string) : Justified :=
  {[(keyOf (intentBinding sub g role), GroupOrigin g)]} ∪
  list_to_set (map (fun c => (keyOf (materializedBinding sub c mapped), GroupOrigin g)) children).
Lemma grant_converges H v sub g role mapped children : sane H -> sub_Tenant sub = g -> roles !! role = Some mapped ->
  (forall c, c ∈ children <-> H !! c = Some (ID_String g)) ->
  converged H v g -> converged H (granted_rows sub g role mapped children ∪ v) g.
Proof.
  intros HS Hsub Hrole Hch [Hi Hr]. set (v' := _ ∪ v).
  assert (forall k o, (k, o) ∈ v' <-> (k = keyOf (intentBinding sub g role) /\ o = GroupOrigin g) \/
    (exists c, k = keyOf (materializedBinding sub c mapped) /\ o = GroupOrigin g /\ c ∈ children) \/ (k, o) ∈ v) as Hv'.
  { intros k o. unfold v', granted_rows. rewrite !elem_of_union, elem_of_singleton, elem_of_list_to_set, list_elem_of_fmap.
    naive_solver. }
  assert (forall k, intent_key v' g k <-> k = keyOf (intentBinding sub g role) \/ intent_key v g k) as Hint.
  { intros k. unfold intent_key. rewrite Hv'. split.
    - intros [Hs [[-> _]|[(c & -> & _ & Hc)|Hk]]]; [by left| |by right].
      exfalso. cbn in Hs. apply Hch in Hc. by eapply child_scope.
    - intros [->|[Hs Hk]]; [|by auto]. split; [done|]. by left. }
  split.
  - intros k [->|Hk]%Hint; [|by apply Hi]. exists sub, role. eauto.
  - intros k Hs. rewrite Hv'. unfold projected. setoid_rewrite Hint. split.
    + intros [[-> _]|[(c & -> & _ & Hc)|Hk]]; [done| |].
      * exists (keyOf (intentBinding sub g role)), c, mapped. split; [by left|]. apply Hch in Hc. done.
      * apply (Hr k Hs) in Hk as (i & c & r & Hk). exists i, c, r. naive_solver.
    + intros (i & c & r & [->|Hi'] & Hc & Hmap & ->).
      * right. left. exists c. cbn in Hmap. rewrite Hrole in Hmap. injection Hmap as <-. split_and!; [done..|]. by apply Hch.
      * right. right. apply (Hr _ Hs). by exists i, c, r.
Qed.

(** What a revoke takes away: the subject's intent rows, and its rows on
    organizations of the group. *)
Definition revoked H (sub : Subject) (g : ID) k : Prop := bk_Subject k = sub /\
  ((bk_Scope k = g /\ bk_Res k = MkResource ResourceTenantGroup (ID_String g)) \/
   (exists c, H !! c = Some (ID_String g) /\ bk_Scope k = New c /\ res_Type (bk_Res k) = ResourceOrganization /\
      res_ID (bk_Res k) <> "")).
Lemma revoke_converges H v v' sub g : sane H -> converged H v g ->
  (forall k, (k, GroupOrigin g) ∈ v' <-> (k, GroupOrigin g) ∈ v /\ ~ revoked H sub g k) -> converged H v' g.
Proof.
  intros HS [Hi Hr] Hv'.
  assert (forall k, intent_key v' g k <-> intent_key v g k /\ bk_Subject k <> sub) as Hint.
  { intros k. unfold intent_key. rewrite Hv'. split.
    - intros (Hs & Hk & Hn). split; [done|]. intros Hsub. apply Hn. destruct (Hi k) as (s & r & -> & _); [done|].
      split; [done|]. by left.
    - intros [[Hs Hk] Hn]. split_and!; [done..|]. intros [Hsub _]. done. }
  split.
  - intros k [Hk _]%Hint. by apply Hi.
  - intros k Hs. rewrite Hv', (Hr k Hs). unfold projected. setoid_rewrite Hint. split.
    + intros [(i & c & r & Hi' & Hc & Hmap & ->) Hn]. exists i, c, r. split_and!; [done| |done..].
      intros Hsub. apply Hn. split; [done|]. right. exists c. split_and!; [done..|]. by apply HS in Hc as [? _].
    + intros (i & c & r & [Hi' Hne] & Hc & Hmap & ->). split; [by exists i, c, r|]. intros [Hsub _]. done.
Qed.

(** An organization joins a group. *)
Definition extension (g : ID) (org : string) (admins : list Binding) : Justified :=
  list_to_set (map (fun b => (keyOf (materializedBinding (b_Subject b) org (default ("" : Role) (roles !! b_Role b))), GroupOrigin g)) admins).
Lemma extend_converges H v g org admins : sane (<[org := ID_String g]> H) -> H !! org = None ->
  lists_from v g (GroupOrigin g) admins -> (forall b, b ∈ admins -> is_Some (roles !! b_Role b)) ->
  converged H v g -> converged (<[org := ID_String g]> H) (extension g org admins ∪ v) g.
Proof.
  intros HS Hnone Hadm Hmapped [Hi Hr]. set (v' := _ ∪ v).
  assert (forall k, (k, GroupOrigin g) ∈ v' <-> (k, GroupOrigin g) ∈ v \/ exists i r, intent_key v g i /\
    roles !! bk_Role i = Some r /\ k = keyOf (materializedBinding (bk_Subject i) org r)) as Hv'.
  { intros k. unfold v', extension. rewrite elem_of_union, elem_of_list_to_set, list_elem_of_fmap. split.
    - intros [(b & [= ->] & Hb)|?]; [right|by left]. destruct (Hmapped b Hb) as [r Hr'].
      exists (keyOf b), r. split; [by apply Hadm|]. split; [exact Hr'|]. by rewrite Hr'.
    - intros [?|(i & r & Hi' & Hr' & ->)]; [by right|left]. exists (of_key i).
      split; [|apply Hadm; by rewrite keyOf_of_key]. change (b_Role (of_key i)) with (bk_Role i). by rewrite Hr'. }
  assert (New org <> g) as Hng by (eapply child_scope; [exact HS|by rewrite lookup_insert_eq]).
  assert (forall k, intent_key v' g k <-> intent_key v g k) as Hint.
  { intros k. unfold intent_key at 1. rewrite Hv'. split; [|by intros [? ?]; auto].
    intros [Hs [?|(i & r & _ & _ & ->)]]; [done|]. by cbn in Hs. }
  split.
  - intros k Hk%Hint. by apply Hi.
  - intros k Hs. rewrite Hv', (Hr k Hs). unfold projected. setoid_rewrite Hint. split.
    + intros [(i & c & r & Hi' & Hc & Hrest)|(i & r & Hi' & Hmap & ->)].
      * exists i, c, r. split_and!; [done| |by apply Hrest..]. rewrite lookup_insert_ne; [done|]. by intros ->; rewrite Hnone in Hc.
      * exists i, org, r. split_and!; [done| |done..]. by rewrite lookup_insert_eq.
    + intros (i & c & r & Hi' & Hc & Hmap & ->). destruct (decide (c = org)) as [->|Hne]; [right; by exists i, r|left].
      rewrite lookup_insert_ne in Hc by done. by exists i, c, r.
Qed.

(** An organization leaves a group. *)
Lemma detach_converges H H' v v' g org : org <> "" -> org <> ID_String g -> converged H v g ->
  (forall c, H' !! c = Some (ID_String g) <-> c <> org /\ H !! c = Some (ID_String g)) ->
  (forall k, (k, GroupOrigin g) ∈ v' <-> (k, GroupOrigin g) ∈ v /\ bk_Scope k <> New org) -> converged H' v' g.
Proof.
  intros Hne Hng [Hi Hr] Hc Hv'.
  assert (forall k, intent_key v' g k <-> intent_key v g k) as Hint.
  { intros k. unfold intent_key. rewrite Hv'. split; [tauto|]. intros [Hs Hk]. split_and!; [done..|].
    rewrite Hs. intros ->. by rewrite ID_String_New in Hng. }
  split.
  - intros k Hk%Hint. by apply Hi.
  - intros k Hs. rewrite Hv', (Hr k Hs). unfold projected. setoid_rewrite Hint. setoid_rewrite Hc. split.
    + intros [(i & c & r & Hi' & Hcc & Hmap & ->) Hn]. exists i, c, r. split_and!; [done| |done..].
      intros ->. by apply Hn.
    + intros (i & c & r & Hi' & [Hco Hcc] & Hmap & ->). split; [by exists i, c, r|]. cbn. intros Heq.
      apply (f_equal ID_String) in Heq. by rewrite !ID_String_New in Heq.
Qed.
End Converged.

(** ** The operations *)

Inductive op :=
  | OGrant (sub : Subject) (group : ID) (role : Role)
  | ORevoke (sub : Subject) (group : ID)
  | OAdd (group org : ID)
  | OMove (org from to : ID)
  | ORemove (org group : ID).

(** What the caller does to the tenant table around an operation: it attaches
    an organization before [AddOrg], reparents it before [MoveOrg], and detaches
    it after [RemoveOrg]. *)
Definition during (H : Parents) (o : op) : Parents :=
  match o with
  | OAdd group org => <[ID_String org := ID_String group]> H
  | OMove org _ to => <[ID_String org := ID_String to]> H
  | _ => H
  end.
Definition after (H : Parents) (o : op) : Parents :=
  match o with ORemove org _ => delete (ID_String org) H | _ => during H o end.
Definition called_for (H : Parents) (o : op) : Prop :=
  match o with
  | OAdd _ org => H !! ID_String org = None
  | OMove org from _ => H !! ID_String org = Some (ID_String from)
  | _ => True
  end.
Definition op_origins (o : op) : list Origin :=
  match o with
  | OGrant _ g _ | ORevoke _ g | OAdd g _ | ORemove _ g => [GroupOrigin g]
  | OMove _ from to => [GroupOrigin from; GroupOrigin to]
  end.

Section Operations.
Context (E : Env) {S : Type} {VS : View S} (p : Provisioner (S := S)).
Context {HS : SourceLaws (pv_src p)}.
(** The logger does not touch the bindings, and does not panic. *)
Context (log_quiet : forall log ev, pv_audit p = Some log -> reads (log ev) (fun _ _ => True)).
Context (log_calm : forall log ev w why w', pv_audit p = Some log -> log ev w <> (Panic why, w')).
Implicit Types (v : Justified) (H : Parents) (w : world S) (x : Context).

Definition run_op x (o : op) : M S unit :=
  match o with
  | OGrant sub g role => GrantGroupAdmin E p x sub g role
  | ORevoke sub g => RevokeGroupAdmin E p x sub g
  | OAdd g org => AddOrg E p x g org
  | OMove org from to => MoveOrg E p x org from to
  | ORemove org g => RemoveOrg E p x org g
  end.

Lemma record_run x action g id w r w' : ok (w_store w) -> recordProvisioning E p x action g id w = (r, w') ->
  r = Ret tt /\ ok (w_store w') /\ seen w' = seen w.
Proof.
  intros Hok. unfold recordProvisioning. destruct (pv_audit p) as [log|] eqn:Hlog; [|by intros [-> ->]%mret_inv].
  unfold newID, now, ignore_err. intros H. apply bind_inv in H as [(i & w1 & H1 & H)|[(e & H1 & _)|(why & H1 & _)]];
    apply observe_inv in H1 as [Hr ->]; try done. injection Hr as ->.
  apply bind_inv in H as [(t & w2 & H2 & H)|[(e & H2 & _)|(why & H2 & _)]];
    apply observe_inv in H2 as [Hr ->]; try done. injection Hr as ->.
  unfold try_catch in H. destruct (log _ _) as [r1 w3] eqn:Hl.
  pose proof Hl as Hq. apply (log_quiet log _ eq_refl) in Hq as (Hok3 & Hs & _); [|exact Hok].
  destruct r1 as [a|e|why]; [injection H as <- <-; done..|]. by apply (log_calm log _ _ _ _ eq_refl) in Hl.
Qed.

(** A run that returns relates what is seen, one that does not changes nothing
    of it. *)
Definition outcome w (r : go unit) (w' : world S) (P : Justified -> Justified -> Prop) : Prop :=
  ok (w_store w') /\ (r = Ret tt -> P (seen w) (seen w')) /\ (is_ret r = false -> seen w' = seen w).

(** An operation: the atomic part, then the row of the audit log. *)
Lemma applied fn P k w r w' : (forall t, TxLaws t -> effects (fn t) (fun v _ v' => P v v')) ->
  (forall w r w', ok (w_store w) -> k w = (r, w') -> r = Ret tt /\ ok (w_store w') /\ seen w' = seen w) ->
  ok (w_store w) -> (src_Apply (pv_src p) fn ≫= fun _ => k) w = (r, w') ->
  outcome w r w' P.
Proof.
  intros Hfn Hk Hok [([] & w1 & H1 & H2)|[(e & H1 & ->)|(why & H1 & ->)]]%bind_inv;
    destruct (src_atomic fn P Hfn _ _ _ Hok H1) as (Hok1 & HP & Hn); [|by split_and!; [done|done|intros _; apply Hn]..].
  destruct (Hk _ _ _ Hok1 H2) as (-> & Hok2 & Hs2). split_and!; [done| |done]. intros _. rewrite Hs2. by apply HP.
Qed.

(** *** The atomic parts *)

Lemma grant_effects t sub g role mapped children : TxLaws t ->
  effects (tx_GrantFrom t (intentBinding sub g role) (GroupOrigin g);;
           each children (fun c => tx_GrantFrom t (materializedBinding sub c mapped) (GroupOrigin g)))
    (fun v _ v' => v' = granted_rows sub g role mapped children ∪ v).
Proof.
  intros Ht. eapply effects_bind; [apply tx_grant|]. intros v0 v1 [] [_ ->].
  eapply effects_weaken; [apply (effects_each children _ (fun _ => True)
    (fun c v => {[(keyOf (materializedBinding sub c mapped), GroupOrigin g)]} ∪ v))|].
  - intros c _. eapply effects_weaken; [apply tx_grant|]. by intros v [] v' [_ ->].
  - intros v [] v' [_ ->] ->. rewrite fold_union. unfold granted_rows. set_solver.
Qed.

Lemma revoke_each_effects t {A} (l : list A) (key : A -> BindingKey) o : TxLaws t ->
  effects (each l (fun y => tx_RevokeFrom t (key y) o)) (fun v _ v' => v' = v ∖ list_to_set (map (fun y => (key y, o)) l)).
Proof.
  intros Ht. eapply effects_weaken; [apply (effects_each l _ (fun _ => True) (fun y v => v ∖ {[(key y, o)]}))|].
  - intros y _. eapply effects_weaken; [apply tx_revoke|]. by intros v [] v' ->.
  - intros v [] v' [_ ->]. by rewrite fold_difference.
Qed.

Lemma extend_effects t g org admins : TxLaws t ->
  effects (extendOnto p t g org admins) (fun v _ v' => (forall b, b ∈ admins -> is_Some (pv_roles p !! b_Role b)) /\
    v' = extension (pv_roles p) g (ID_String org) admins ∪ v).
Proof.
  intros Ht. unfold extendOnto, translate.
  eapply effects_weaken; [apply (effects_each admins _ (fun b => is_Some (pv_roles p !! b_Role b))
    (fun b v => {[(keyOf (materializedBinding (b_Subject b) (ID_String org) (default ("" : Role) (pv_roles p !! b_Role b))),
                   GroupOrigin g)]} ∪ v))|].
  - intros b _. destruct (pv_roles p !! b_Role b) as [r|]; [|apply effects_fail].
    eapply effects_weaken; [apply tx_grant|]. intros v [] v' [_ ->]. split; [by eexists|done].
  - intros v [] v' [Hm ->]. split; [done|]. by rewrite fold_union.
Qed.

(** The keys a revoke collects. *)
Lemma child_keys_effects t sub children keys : TxLaws t ->
  effects (child_keys t sub children keys) (fun v l v' => v' = v /\ forall k, k ∈ l <-> k ∈ keys \/
    (bk_Subject k = sub /\ (exists c, c ∈ children /\ bk_Scope k = New c) /\ res_Type (bk_Res k) = ResourceOrganization /\
     res_ID (bk_Res k) <> "" /\ exists o, (k, o) ∈ v)).
Proof.
  intros Ht. revert keys. induction children as [|c children IH]; intros keys; cbn [child_keys].
  - apply effects_mret. intros v. split; [done|]. intros k. split; [by left|].
    intros [?|(_ & (c & Hc%not_elem_of_nil & _) & _)]; done.
  - eapply effects_bind; [apply effects_read, reads_wrap, tx_for|]. intros v0 v1 bs [-> Hbs].
    eapply effects_weaken; [apply IH|]. intros v l v' [-> Hl] ->. split; [done|]. intros k. rewrite Hl, elem_of_app, list_elem_of_fmap.
    split.
    + intros [[?|(b & -> & Hb)]|(? & (c' & ? & ?) & ?)]; [by left|right|right].
      * apply Hbs in Hb as [(Hs & Hsub & Hty & Hid) Ho]. split_and!; [done| |done..]. exists c. split; [left|done].
      * split; [done|]. split; [|done]. exists c'. split; [by right|done].
    + intros [?|(Hsub & (c' & [->|Hc']%elem_of_cons & Hs) & Hty & Hid & Ho)]; [by left; left| |].
      * left. right. exists (of_key k). rewrite keyOf_of_key. split; [done|]. apply Hbs. by rewrite keyOf_of_key.
      * right. split_and!; [done| |done..]. by exists c'.
Qed.

(** *** Each operation *)

Lemma outcome_refused w r P : ok (w_store w) -> is_ret r = false -> outcome w r w P.
Proof. intros Hok Hr. split_and!; [done| |done]. by intros ->. Qed.
Lemma outcome_weaken w r w' (P Q : Justified -> Justified -> Prop) : outcome w r w' P ->
  (forall v v', P v v' -> Q v v') -> outcome w r w' Q.
Proof. intros (? & HP & ?) HPQ. split_and!; [done| |done]. intros Hr. auto. Qed.

Lemma lift_then {A B} (m : go A) (k : A -> M S B) w r w' : (lift m ≫= k) w = (r, w') ->
  (exists a, m = Ret a /\ k a w = (r, w')) \/ (is_ret r = false /\ w' = w).
Proof. unfold mbind, M_bind, lift. destruct m as [a|e|why]; [by eauto|by intros [= <- <-]; right..]. Qed.
Lemma wrap_lift {A} f (m : go A) w : wrap f (lift m : M S A) w = (wrap_err f m, w).
Proof. reflexivity. Qed.
Lemma children_then {B} g (k : list string -> M S B) w r w' : (children_of p g ≫= k) w = (r, w') ->
  (exists l, ChildrenOf (pv_hier p) (ID_String g) = Ret l /\ k l w = (r, w')) \/ (is_ret r = false /\ w' = w).
Proof.
  unfold children_of, mbind, M_bind. rewrite wrap_lift.
  destruct (ChildrenOf _ _) as [l|e|why]; [by eauto|by intros [= <- <-]; right..].
Qed.
Lemma parent_then H org g (k : unit -> M S unit) w r w' : shows (pv_hier p) H -> (requireParent p org g ≫= k) w = (r, w') ->
  (H !! ID_String org = Some (ID_String g) /\ k tt w = (r, w')) \/ (is_ret r = false /\ w' = w).
Proof.
  intros Hsh. unfold requireParent, mbind at 1 2, M_bind at 1 2. rewrite wrap_lift.
  destruct (ParentOf _ _) as [[got []]|e|why] eqn:Hp; cbn; [|by intros [= <- <-]; right..].
  apply (sh_parent _ _ Hsh) in Hp. destruct (String.eqb_spec got (ID_String g)) as [->|]; cbn; [by left|].
  intros [= <- <-]. by right.
Qed.

Lemma pv_gate_Ret sub g : pv_gate sub g = Ret tt <-> Valid g = true /\ sub_Tenant sub = g.
Proof.
  unfold pv_gate. destruct (Valid g) eqn:Hg, (Valid (sub_Tenant sub)) eqn:Hs; cbn; try (split; [done|intros [? <-]; congruence]).
  - case_bool_decide; split; intuition done.
Qed.
Lemma groups_gate_Ret org gs : groups_gate org gs = Ret tt <-> Forall (fun g => usable g = true /\ g <> org) gs.
Proof.
  induction gs as [|g gs IH]; cbn; [split; [constructor|done]|]. rewrite Forall_cons, <- IH. unfold usable.
  destruct (Valid g), (IsSingle g); cbn; try (split; [done|by intros [[? ?] ?]]). case_bool_decide; split; intuition done.
Qed.
Lemma membershipGate_Ret org gs : membershipGate org gs = Ret tt <->
  usable org = true /\ Forall (fun g => usable g = true /\ g <> org) gs.
Proof.
  unfold membershipGate, usable at 1. rewrite <- groups_gate_Ret.
  destruct (Valid org), (IsSingle org); cbn; split; intuition done.
Qed.
Lemma usable_Valid g : usable g = true -> Valid g = true.
Proof. unfold usable. by intros [? _]%andb_prop. Qed.

Lemma record_ok x action g id : forall w r w', ok (w_store w) -> recordProvisioning E p x action g id w = (r, w') ->
  r = Ret tt /\ ok (w_store w') /\ seen w' = seen w.
Proof. intros *. apply record_run. Qed.

Lemma GrantGroupAdmin_run H x sub g role w r w' : shows (pv_hier p) H -> ok (w_store w) ->
  GrantGroupAdmin E p x sub g role w = (r, w') ->
  outcome w r w' (fun v v' => Valid g = true /\ sub_Tenant sub = g /\ exists mapped children,
    pv_roles p !! role = Some mapped /\ (forall c, c ∈ children <-> H !! c = Some (ID_String g)) /\
    v' = granted_rows sub g role mapped children ∪ v).
Proof.
  intros Hsh Hok [([] & Hg%pv_gate_Ret & Hrun)|[Hr ->]]%lift_then; [|by apply outcome_refused].
  unfold translate in Hrun. destruct (pv_roles p !! role) as [mapped|] eqn:Hm;
    [|apply fail_inv in Hrun as [-> ->]; by apply outcome_refused].
  apply children_then in Hrun as [(l & Hl & Hrun)|[Hr ->]]; [|by apply outcome_refused].
  destruct (_ <? _); [apply fail_inv in Hrun as [-> ->]; by apply outcome_refused|].
  eapply outcome_weaken; [eapply applied; [|apply record_ok|exact Hok|exact Hrun]|].
  - intros t Ht. by apply grant_effects.
  - intros v v' ->. split_and!; [apply Hg..|]. exists mapped, l. split_and!; [done| |done]. by apply (sh_children _ _ Hsh).
Qed.

Lemma RevokeGroupAdmin_run H x sub g w r w' : shows (pv_hier p) H -> ok (w_store w) ->
  RevokeGroupAdmin E p x sub g w = (r, w') ->
  outcome w r w' (fun v v' => Valid g = true /\
    forall k o, (k, o) ∈ v' <-> (k, o) ∈ v /\ ~ (o = GroupOrigin g /\ revoked H sub g k)).
Proof.
  intros Hsh Hok [([] & [Hg _]%pv_gate_Ret & Hrun)|[Hr ->]]%lift_then; [|by apply outcome_refused].
  apply children_then in Hrun as [(l & Hl & Hrun)|[Hr ->]]; [|by apply outcome_refused].
  eapply outcome_weaken; [eapply (applied _ (fun v v' => forall k o, (k, o) ∈ v' <-> (k, o) ∈ v /\
    ~ (o = GroupOrigin g /\ revoked H sub g k))); [|apply record_ok|exact Hok|exact Hrun]|by auto].
  intros t Ht. eapply effects_bind; [apply effects_read, reads_wrap, tx_on|]. intros v0 v1 intents [-> Hint].
  eapply effects_bind; [apply child_keys_effects, Ht|]. intros v2 v3 keys [-> Hkeys].
  destruct (_ <? _); [apply effects_fail|]. eapply effects_weaken; [apply (revoke_each_effects t keys id), Ht|].
  intros v [] v' -> -> -> k o. rewrite elem_of_difference, elem_of_list_to_set, list_elem_of_fmap. cbn [id].
  split; intros [Hk Hn]; (split; [done|]).
  - intros [-> Hrev]. apply Hn. exists k. split; [done|]. apply Hkeys. destruct Hrev as [Hsub [[Hs Hres]|(c & Hc & Hs & Hty & Hid)]].
    + left. apply list_elem_of_fmap. exists (of_key k). rewrite keyOf_of_key. split; [done|].
      apply list_elem_of_In, filter_In. split; [|by apply bool_decide_true]. apply list_elem_of_In, Hint. rewrite keyOf_of_key. eauto.
    + right. split_and!; [done| |done..|by eauto]. exists c. split; [|done]. by apply (sh_children _ _ Hsh _ _ Hl).
  - intros (k' & [= <- ->] & Hin). apply Hn. split; [done|]. apply Hkeys in Hin as [Hin|(Hsub & (c & Hc & Hs) & Hty & Hid & _)].
    + apply list_elem_of_fmap in Hin as (b & -> & Hb). apply list_elem_of_In, filter_In in Hb as [Hb Hsub%bool_decide_eq_true].
      apply list_elem_of_In, Hint in Hb as [[Hs Hres] _]. split; [done|]. by left.
    + split; [done|]. right. exists c. split_and!; try done. by apply (sh_children _ _ Hsh _ _ Hl).
Qed.

Lemma AddOrg_run H x g org w r w' : shows (pv_hier p) H -> ok (w_store w) -> AddOrg E p x g org w = (r, w') ->
  outcome w r w' (fun v v' => usable g = true /\ usable org = true /\ g <> org /\
    exists admins, lists_from v g (GroupOrigin g) admins /\ (forall b, b ∈ admins -> is_Some (pv_roles p !! b_Role b)) /\
      v' = extension (pv_roles p) g (ID_String org) admins ∪ v).
Proof.
  intros Hsh Hok [([] & [Ho Hg]%membershipGate_Ret & Hrun)|[Hr ->]]%lift_then; [|by apply outcome_refused].
  apply Forall_cons in Hg as [[Hg Hne] _].
  apply (parent_then H) in Hrun as [[_ Hrun]|[Hr ->]]; [|by apply outcome_refused|done].
  eapply outcome_weaken; [eapply (applied _ (fun v v' => exists admins, lists_from v g (GroupOrigin g) admins /\
    (forall b, b ∈ admins -> is_Some (pv_roles p !! b_Role b)) /\ v' = extension (pv_roles p) g (ID_String org) admins ∪ v));
    [|apply record_ok|exact Hok|exact Hrun]|by auto].
  intros t Ht. eapply effects_bind; [apply effects_read, reads_wrap, tx_from|]. intros v0 v1 admins [-> Hadm].
  destruct (_ <? _); [apply effects_fail|]. eapply effects_weaken; [apply extend_effects, Ht|].
  intros v [] v' [Hmap ->] ->. by exists admins.
Qed.

(** What taking an origin out of a scope leaves. *)
Definition without (v : Justified) (scope : ID) (o : Origin) (v' : Justified) : Prop :=
  forall k o', (k, o') ∈ v' <-> (k, o') ∈ v /\ ~ (o' = o /\ bk_Scope k = scope).
Lemma difference_without v scope o rows : lists_from v scope o rows ->
  without v scope o (v ∖ list_to_set (map (fun b => (keyOf b, o)) rows)).
Proof.
  intros Hrows k o'. rewrite elem_of_difference, elem_of_list_to_set, list_elem_of_fmap.
  split; intros [Hk Hn]; (split; [done|]).
  - intros [-> Hs]. apply Hn. exists (of_key k). rewrite keyOf_of_key. split; [done|]. apply Hrows. rewrite keyOf_of_key. done.
  - intros (b & [= -> ->] & Hb). apply Hn. apply Hrows in Hb as [<- _]. done.
Qed.
Lemma revoke_rows_effects t rows o : TxLaws t ->
  effects (revoke_rows t rows o) (fun v _ v' => v' = v ∖ list_to_set (map (fun b => (keyOf b, o)) rows)).
Proof. intros Ht. by apply revoke_each_effects. Qed.

Lemma RemoveOrg_run H x org g w r w' : shows (pv_hier p) H -> ok (w_store w) -> RemoveOrg E p x org g w = (r, w') ->
  outcome w r w' (fun v v' => usable g = true /\ usable org = true /\ g <> org /\
    H !! ID_String org = Some (ID_String g) /\ without v org (GroupOrigin g) v').
Proof.
  intros Hsh Hok [([] & [Ho Hg]%membershipGate_Ret & Hrun)|[Hr ->]]%lift_then; [|by apply outcome_refused].
  apply Forall_cons in Hg as [[Hg Hne] _].
  apply (parent_then H) in Hrun as [[Hp Hrun]|[Hr ->]]; [|by apply outcome_refused|done].
  eapply outcome_weaken; [eapply (applied _ (fun v v' => without v org (GroupOrigin g) v'));
    [|apply record_ok|exact Hok|exact Hrun]|by auto].
  intros t Ht. eapply effects_bind; [apply effects_read, reads_wrap, tx_from|]. intros v0 v1 rows [-> Hrows].
  destruct (_ <? _); [apply effects_fail|]. eapply effects_weaken; [apply revoke_rows_effects, Ht|].
  intros v [] v' -> ->. by apply difference_without.
Qed.

Lemma MoveOrg_run H x org from to w r w' : shows (pv_hier p) H -> ok (w_store w) -> MoveOrg E p x org from to w = (r, w') ->
  outcome w r w' (fun v v' => usable from = true /\ usable to = true /\ usable org = true /\ from <> org /\ to <> org /\
    from <> to /\ exists v1 admins, without v org (GroupOrigin from) v1 /\ lists_from v to (GroupOrigin to) admins /\
      (forall b, b ∈ admins -> is_Some (pv_roles p !! b_Role b)) /\
      v' = extension (pv_roles p) to (ID_String org) admins ∪ v1).
Proof.
  intros Hsh Hok [([] & [Ho Hg]%membershipGate_Ret & Hrun)|[Hr ->]]%lift_then; [|by apply outcome_refused].
  apply Forall_cons in Hg as [[Hf Hfo] [[Ht Hto] _]%Forall_cons].
  case_bool_decide as Heq; [apply fail_inv in Hrun as [-> ->]; by apply outcome_refused|].
  apply (parent_then H) in Hrun as [[_ Hrun]|[Hr ->]]; [|by apply outcome_refused|done].
  eapply outcome_weaken; [eapply (applied _ (fun v v' => exists v1 admins, without v org (GroupOrigin from) v1 /\
      lists_from v to (GroupOrigin to) admins /\ (forall b, b ∈ admins -> is_Some (pv_roles p !! b_Role b)) /\
      v' = extension (pv_roles p) to (ID_String org) admins ∪ v1)); [|apply record_ok|exact Hok|exact Hrun]|by auto 8].
  intros t Htx. eapply effects_bind; [apply effects_read, reads_wrap, tx_from|]. intros v0 v1 rows [-> Hrows].
  eapply effects_bind; [apply effects_read, reads_wrap, tx_from|]. intros v2 v3 admins [-> Hadm].
  destruct (_ <? _); [apply effects_fail|].
  eapply effects_bind; [apply revoke_rows_effects, Htx|]. intros v4 v5 [] ->.
  eapply effects_weaken; [apply extend_effects, Htx|]. intros v [] v' [Hmap ->] -> -> ->.
  eexists _, admins. split_and!; [by apply difference_without|done..].
Qed.

(** *** Convergence is kept *)

Lemma origin_other g g' : Valid g = true -> Valid g' = true -> g <> g' -> GroupOrigin g' <> GroupOrigin g.
Proof. intros Hg Hg' Hne Ho. apply Hne. symmetry. by apply GroupOrigin_inj. Qed.
Lemma extension_only g org admins v : only_origins [GroupOrigin g] v (extension (pv_roles p) g org admins ∪ v).
Proof.
  intros k o Ho. unfold extension. rewrite elem_of_union, elem_of_list_to_set, list_elem_of_fmap.
  split; [|by right]. intros [(b & [= _ ->] & _)|?]; [|done]. exfalso. apply Ho. by left.
Qed.
Lemma without_only v org g v' : without v org (GroupOrigin g) v' -> only_origins [GroupOrigin g] v v'.
Proof. intros Hw k o Ho. rewrite (Hw k o). split; [tauto|]. intros Hk. split; [done|]. intros [-> _]. apply Ho. by left. Qed.
Lemma only_one g g' : Valid g = true -> Valid g' = true -> g <> g' -> GroupOrigin g' ∉ [GroupOrigin g].
Proof. intros Hg Hg' Hne Hin%list_elem_of_singleton. by apply (origin_other g g'). Qed.

(** A change of one group's rows and children leaves the other groups
    converged. *)
Lemma others_converge H H' g v v' : Valid g = true -> only_origins [GroupOrigin g] v v' ->
  (forall g' c, g' <> g -> Valid g' = true -> H' !! c = Some (ID_String g') <-> H !! c = Some (ID_String g')) ->
  all_converged (pv_roles p) H v -> (converged (pv_roles p) H v g -> converged (pv_roles p) H' v' g) ->
  all_converged (pv_roles p) H' v'.
Proof.
  intros Hg Ho Hch Hall Hown g' Hg'. destruct (decide (g' = g)) as [->|Hne]; [by apply Hown, Hall|].
  eapply converged_others; [exact Ho|by apply only_one|intros c; by apply Hch|by apply Hall].
Qed.

Lemma grant_all H v sub g role mapped children : sane H -> Valid g = true -> sub_Tenant sub = g ->
  pv_roles p !! role = Some mapped -> (forall c, c ∈ children <-> H !! c = Some (ID_String g)) ->
  all_converged (pv_roles p) H v -> all_converged (pv_roles p) H (granted_rows sub g role mapped children ∪ v) /\
  only_origins [GroupOrigin g] v (granted_rows sub g role mapped children ∪ v).
Proof.
  intros HSn Hg Hsub Hm Hch Hall.
  assert (only_origins [GroupOrigin g] v (granted_rows sub g role mapped children ∪ v)) as Ho.
  { intros k o Hne. unfold granted_rows. rewrite !elem_of_union, elem_of_singleton, elem_of_list_to_set, list_elem_of_fmap.
    split; [|by right]. intros [[[= _ ->]|(c & [= _ ->] & _)]|?]; [|..|done]; exfalso; apply Hne; by left. }
  split; [|done]. eapply others_converge; [exact Hg|exact Ho|done|exact Hall|]. by apply grant_converges.
Qed.
Lemma revoke_all H v v' sub g : sane H -> Valid g = true ->
  (forall k o, (k, o) ∈ v' <-> (k, o) ∈ v /\ ~ (o = GroupOrigin g /\ revoked H sub g k)) ->
  all_converged (pv_roles p) H v -> all_converged (pv_roles p) H v' /\ only_origins [GroupOrigin g] v v'.
Proof.
  intros HSn Hg Hv Hall. assert (only_origins [GroupOrigin g] v v') as Ho.
  { intros k o Hne. rewrite Hv. split; [tauto|]. intros Hk. split; [done|]. intros [-> _]. apply Hne. by left. }
  split; [|done]. eapply others_converge; [exact Hg|exact Ho|done|exact Hall|]. intros Hc.
  eapply revoke_converges; [exact HSn|exact Hc|]. intros k. rewrite Hv. naive_solver.
Qed.
Lemma extend_all H v g org admins : sane (<[org := ID_String g]> H) -> H !! org = None -> Valid g = true ->
  lists_from v g (GroupOrigin g) admins -> (forall b, b ∈ admins -> is_Some (pv_roles p !! b_Role b)) ->
  all_converged (pv_roles p) H v ->
  all_converged (pv_roles p) (<[org := ID_String g]> H) (extension (pv_roles p) g org admins ∪ v).
Proof.
  intros HSn Hnone Hg Hadm Hm Hall. eapply others_converge; [exact Hg|apply extension_only| |exact Hall|by apply extend_converges].
  intros g' c Hne Hg'. destruct (decide (c = org)) as [->|Hco]; [|by rewrite lookup_insert_ne].
  rewrite lookup_insert_eq, Hnone. split; [|done]. intros [= Heq]. exfalso. apply Hne. destruct g, g'. unfold Valid in *.
  cbn in *. congruence.
Qed.
Lemma detach_all H v v' g org : sane H -> Valid g = true -> H !! org = Some (ID_String g) ->
  without v (New org) (GroupOrigin g) v' -> all_converged (pv_roles p) H v -> all_converged (pv_roles p) (delete org H) v'.
Proof.
  intros HSn Hg Hp Hv Hall. eapply others_converge; [exact Hg|by eapply without_only| |exact Hall|].
  - intros g' c Hne Hg'. destruct (decide (c = org)) as [->|Hco]; [|by rewrite lookup_delete_ne].
    rewrite lookup_delete_eq, Hp. split; [done|]. intros [= Heq]. exfalso. apply Hne. destruct g, g'. unfold Valid in *.
    cbn in *. congruence.
  - intros Hc. destruct (HSn _ _ Hp) as [Hne Hng]. eapply detach_converges; [exact Hne|exact Hng|exact Hc| |].
    + intros c. rewrite lookup_delete_Some. split; intros [? ?]; split; congruence.
    + intros k. rewrite (Hv k _). naive_solver.
Qed.

(** C30: Provisioning keeps every group converged. Over any store that fulfils
    [SourceLaws] and a tenant table the caller keeps in the documented order
    (attach before [AddOrg], reparent before [MoveOrg], detach after
    [RemoveOrg]): after an operation that returns, the rows of every group are
    exactly what its intent rows and its organizations call for, and no row
    another origin justifies has changed; an operation that fails has changed
    no row at all. *)
Theorem provisioning_converges H x o w r w' : shows (pv_hier p) (during H o) -> sane H -> sane (during H o) ->
  called_for H o -> ok (w_store w) -> all_converged (pv_roles p) H (seen w) -> run_op x o w = (r, w') ->
  ok (w_store w') /\
  (r = Ret tt -> all_converged (pv_roles p) (after H o) (seen w') /\ only_origins (op_origins o) (seen w) (seen w')) /\
  (is_ret r = false -> seen w' = seen w).
Proof.
  intros Hsh HSn HSd Hcf Hok Hall Hrun.
  change (outcome w r w' (fun v v' => all_converged (pv_roles p) (after H o) v' /\ only_origins (op_origins o) v v')).
  assert (forall P, outcome w r w' P -> (P (seen w) (seen w') -> all_converged (pv_roles p) (after H o) (seen w') /\
    only_origins (op_origins o) (seen w) (seen w')) -> outcome w r w' (fun v v' => all_converged (pv_roles p) (after H o) v' /\
    only_origins (op_origins o) v v')) as Hfrom.
  { intros P (? & HP & ?) HQ. split_and!; [done| |done]. intros Hr. auto. }
  destruct o as [sub g role|sub g|g org|org from to|org g]; cbn in *.
  - apply (Hfrom _ (GrantGroupAdmin_run H x sub g role w r w' Hsh Hok Hrun)).
    intros (Hg & Hsub & mapped & children & Hm & Hch & ->). by apply grant_all.
  - apply (Hfrom _ (RevokeGroupAdmin_run H x sub g w r w' Hsh Hok Hrun)). intros [Hg Hv]. by eapply revoke_all.
  - apply (Hfrom _ (AddOrg_run _ x g org w r w' Hsh Hok Hrun)). intros (Hg & _ & _ & admins & Hadm & Hm & ->).
    split; [|apply extension_only]. apply extend_all; try done. by apply usable_Valid.
  - apply (Hfrom _ (MoveOrg_run _ x org from to w r w' Hsh Hok Hrun)).
    intros (Hf%usable_Valid & Ht%usable_Valid & Ho%usable_inv & _ & _ & Hne & v1 & admins & Hv1 & Hadm & Hm & ->).
    pose proof (without_only _ _ _ _ Hv1) as Ho1. split.
    + rewrite <- (insert_delete_eq H). apply extend_all; [by rewrite insert_delete_eq|apply lookup_delete_eq|done| |done|].
      * intros b. rewrite (Hadm b). split; intros [? ?]; (split; [done|]); (apply Ho1; [by apply only_one|done]).
      * eapply detach_all; [exact HSn|exact Hf|exact Hcf| |exact Hall]. destruct Ho as [_ <-]. exact Hv1.
    + intros k o Hin. rewrite (extension_only to (ID_String org) admins v1 k o), (Ho1 k o); [done|set_solver..].
  - apply (Hfrom _ (RemoveOrg_run H x org g w r w' Hsh Hok Hrun)). intros (Hg%usable_Valid & Ho%usable_inv & _ & Hp & Hv).
    split; [|by eapply without_only]. eapply detach_all; [exact HSn|exact Hg|exact Hp| |exact Hall]. destruct Ho as [_ <-]. exact Hv.
Qed.
End Operations.

(** ** A hierarchy read from a table *)

Definition table_hier (H : Parents) : OrgHierarchy := {|
  ParentOf org := Ret (default "" (H !! org), bool_decide (is_Some (H !! org)));
  ChildrenOf g := Ret (map fst (List.filter (fun cg => String.eqb cg.2 g) (map_to_list H)))
|}.
Lemma table_shows H : shows (table_hier H) H.
Proof.
  split.
  - intros org g found [= <- <-]. destruct (H !! org); [by rewrite bool_decide_true by eauto|].
    by rewrite bool_decide_false by (intros [? ?]; done).
  - intros g l [= <-] c. rewrite list_elem_of_fmap. split.
    + intros ([c' g'] & -> & Hin). apply list_elem_of_In, filter_In in Hin as [Hin Hg%String.eqb_eq]. cbn in *. subst g'.
      by apply list_elem_of_In, elem_of_map_to_list in Hin.
    + intros Hc. exists (c, g). split; [done|]. apply list_elem_of_In, filter_In. cbn. rewrite String.eqb_refl. split; [|done].
      by apply list_elem_of_In, elem_of_map_to_list.
Qed.
Lemma nothing_converges roles H : all_converged roles H ∅.
Proof.
  intros g _. split; [by intros k [_ ?%not_elem_of_empty]|].
  intros k _. split; [by intros ?%not_elem_of_empty|]. by intros (i & c & r & [_ ?%not_elem_of_empty] & _).
Qed.

Module ToyHier.
Definition env : Env := {|
  env_now := fun tr => Z.of_nat (length tr);
  env_newID := fun tr => "event";
  env_rand := fun _ n => Ret (replicate n "7"%char);
  env_bcrypt_hash := fun _ pw => Ret pw;
  env_bcrypt_ok := String.eqb;
  env_stub := Ret "stub";
  env_totp := fun _ _ _ => Ret false;
  env_unicode_lower := fun x => x;
  env_numeric_date := fun t => t
|}.
Definition log (ev : Event) : M (HierApp HierStore (list Event)) Event := fun w =>
  (Ret ev, World (MkApp (ha_store (w_store w)) (ev :: ha_db (w_store w))) (w_trace w)).
Definition roles : RoleMap := {["group_admin" := "org_admin"]}.
Definition by_platform : Context := MkContext None None None None None None None None ∅ "".
Definition prov (H : Parents) : Provisioner (S := HierApp HierStore (list Event)) :=
  MkProvisioner mem_source (table_hier H) roles 100 (Some log).

Definition before : Parents := <["shop" := "north"]> (<["depot" := "north"]> ∅).
Definition ada : Subject := MkSubject (New "north") "user" "ada".
Definition sue : Subject := MkSubject (New "south") "user" "sue".
Definition move : op := OMove (New "shop") (New "north") (New "south").
Definition start : world (HierApp HierStore (list Event)) := World (MkApp NewHierStore []) [].
Definition granted := (run_op env (prov before) by_platform (OGrant ada (New "north") "group_admin") start).2.
Definition both := (run_op env (prov before) by_platform (OGrant sue (New "south") "group_admin") granted).2.

Lemma log_reads l ev : Some log = Some l -> reads (l ev) (fun _ _ => True).
Proof. intros [= <-] w r w' Hok [= <- <-]. done. Qed.
Lemma log_returns l ev (w : world (HierApp HierStore (list Event))) why w' : Some log = Some l -> l ev w <> (Panic why, w').
Proof. intros [= <-] [=]. Qed.
Lemma before_sane : sane before.
Proof.
  intros c g Hc. unfold before in Hc. apply lookup_insert_Some in Hc as [[<- <-]|[_ Hc]]; [done|].
  apply lookup_insert_Some in Hc as [[<- <-]|[_ Hc]]; [done|].
  by rewrite lookup_empty in Hc.
Qed.
Lemma moved_sane : sane (during before move).
Proof.
  intros c g Hc. unfold during, move in Hc. apply lookup_insert_Some in Hc as [[<- <-]|[_ Hc]]; [done|]. by apply before_sane.
Qed.
Lemma ran {S A} (m : M S A) w a : (m w).1 = Ret a -> m w = (Ret a, (m w).2).
Proof. intros <-. apply surjective_pairing. Qed.
Lemma granted_ran : run_op env (prov before) by_platform (OGrant ada (New "north") "group_admin") start = (Ret tt, granted).
Proof. refine (ran (run_op env _ by_platform _) start tt _). vm_compute. reflexivity. Qed.
Lemma both_ran : run_op env (prov before) by_platform (OGrant sue (New "south") "group_admin") granted = (Ret tt, both).
Proof. refine (ran (run_op env _ by_platform _) granted tt _). vm_compute. reflexivity. Qed.
Definition moved := (run_op env (prov (during before move)) by_platform move both).2.
Lemma moved_ran : run_op env (prov (during before move)) by_platform move both = (Ret tt, moved).
Proof. refine (ran (run_op env _ by_platform _) both tt _). vm_compute. reflexivity. Qed.
Lemma before_named c g : before !! c = Some g -> g <> "".
Proof.
  intros Hc. unfold before in Hc. apply lookup_insert_Some in Hc as [[_ <-]|[_ Hc]]; [done|].
  apply lookup_insert_Some in Hc as [[_ <-]|[_ Hc]]; [done|]. by rewrite lookup_empty in Hc.
Qed.
Lemma granted_ok : ok (w_store granted).
Proof.
  by destruct (GrantGroupAdmin_run env (prov before) log_reads log_returns before by_platform ada (New "north") "group_admin"
    start (Ret tt) granted (table_shows _) hier_ok_new granted_ran) as [Hok _].
Qed.
Lemma start_converged : all_converged roles before (seen start).
Proof.
  replace (seen start) with (∅ : Justified); [apply nothing_converges|]. vm_compute. reflexivity.
Qed.
Lemma granted_converged : all_converged roles before (seen granted).
Proof.
  destruct (GrantGroupAdmin_run env (prov before) log_reads log_returns before by_platform ada (New "north") "group_admin"
    start (Ret tt) granted (table_shows _) hier_ok_new granted_ran) as (_ & HP & _).
  destruct (HP eq_refl) as (Hg & Hsub & mapped & children & Hm & Hch & ->).
  by destruct (grant_all (prov before) before (seen start) ada (New "north") "group_admin" mapped children before_sane Hg Hsub Hm
    Hch start_converged) as [Hall _].
Qed.
End ToyHier.

Lemma provisioning_converges_witness :
  all_converged ToyHier.roles (during ToyHier.before ToyHier.move) (seen ToyHier.moved).
Proof.
  destruct (provisioning_converges ToyHier.env (ToyHier.prov ToyHier.before) ToyHier.log_reads ToyHier.log_returns
    ToyHier.before ToyHier.by_platform (OGrant ToyHier.ada (New "north") "group_admin") ToyHier.start (Ret tt) ToyHier.granted
    (table_shows _) ToyHier.before_sane ToyHier.before_sane I hier_ok_new
    (nothing_converges _ _) ToyHier.granted_ran) as (Hok1 & Hall1 & _).
  destruct (Hall1 eq_refl) as [Hc1 _].
  destruct (provisioning_converges ToyHier.env (ToyHier.prov ToyHier.before) ToyHier.log_reads ToyHier.log_returns
    ToyHier.before ToyHier.by_platform (OGrant ToyHier.sue (New "south") "group_admin") ToyHier.granted (Ret tt) ToyHier.both
    (table_shows _) ToyHier.before_sane ToyHier.before_sane I Hok1 Hc1 ToyHier.both_ran) as (Hok2 & Hall2 & _).
  destruct (Hall2 eq_refl) as [Hc2 _].
  destruct (provisioning_converges ToyHier.env (ToyHier.prov (during ToyHier.before ToyHier.move)) ToyHier.log_reads
    ToyHier.log_returns ToyHier.before ToyHier.by_platform ToyHier.move ToyHier.both (Ret tt) ToyHier.moved
    (table_shows _) ToyHier.before_sane ToyHier.moved_sane eq_refl Hok2 Hc2 ToyHier.moved_ran) as (_ & Hall3 & _).
  by apply Hall3.
Defined.
