(* ===== verification/HierReconcile.v ===== *)
(** * Drift of a tenant hierarchy, and its repair

    [src/examples/tenanthierarchy/reconcile.go]: what intent and parentage call
    for, compared with the rows the store holds. The guard reports the
    difference; [SyncGroup] repairs one group inside one [Apply]. *)

From S2P Require Import Prelude Tenant World AuditEvent Http WebAudit Authz HierStore HierProvision HierLaws.

#[local] Open Scope string_scope.
#[local] Open Scope list_scope.
#[local] Open Scope Z_scope.

Record Drift := MkDrift { Missing : list Binding; Orphan : list Binding }.
Definition Empty (d : Drift) : bool := bool_decide (Missing d = []) && bool_decide (Orphan d = []).

Definition usableOrg (id : string) : bool := Valid (New id) && negb (IsSingle (New id)).

(** [keyLess] compares these strings in this order. *)
Definition keyLess (k : BindingKey) : list string :=
  [ID_String (bk_Scope k); sub_Type (bk_Subject k); sub_ID (bk_Subject k); ID_String (sub_Tenant (bk_Subject k));
   res_Type (bk_Res k); res_ID (bk_Res k); bk_Role k].
Definition sortBindings (bs : list Binding) : list Binding := sort_by (fun b => keyLess (keyOf b)) bs.

(** Bindings by their key. *)
Abbreviation Table := (gmap BindingKey Binding).
(** The rows of [a] that [b] has not. *)
Definition only_in (a b : Table) : list Binding :=
  sortBindings (map snd (List.filter (fun kb => bool_decide (b !! kb.1 = None)) (map_to_list a))).

Definition materialize (sub : Subject) (mapped : Role) (children : list string) (m : Table) : Table :=
  fold_left (fun m id => if usableOrg id then
      let b := materializedBinding sub id mapped in <[keyOf b := b]> m
    else m) children m.
Fixpoint expected (roles : RoleMap) (intents : list Binding) (children : list string) (m : Table) : go Table :=
  match intents with
  | [] => Ret m
  | b :: intents =>
      match translate roles (b_Role b) with
      | None => Fail unmapped
      | Some mapped => expected roles intents children (materialize (b_Subject b) mapped children m)
      end
  end.

Section Reconcile.
Context {S : Type} (p : Provisioner (S := S)).
Local Abbreviation MS := (M S).

(** [originReader]: the store, or the view inside an [Apply]. *)
Context (BindingsFrom : ID -> Origin -> MS (list Binding)).
Fixpoint actual (origin : Origin) (children : list string) (m : Table) : MS Table :=
  match children with
  | [] => mret m
  | id :: children =>
      if negb (usableOrg id) then actual origin children m
      else
        rows ← wrap (Errorf1 "bindings") (BindingsFrom (New id) origin);
        actual origin children (fold_left (fun m b => <[keyOf b := b]> m) rows m)
  end.
Definition reconcileGroup (group : ID) (children : list string) : MS Drift :=
  let origin := GroupOrigin group in
  intents ← wrap (Errorf1 "intent rows") (BindingsFrom group origin);
  want ← lift (expected (pv_roles p) intents children ∅);
  have ← actual origin children ∅;
  mret (MkDrift (only_in want have) (only_in have want)).
End Reconcile.

Section Guard.
Context {S : Type} (p : Provisioner (S := S)).
Local Abbreviation MS := (M S).

(** Once each, in the order of their names. *)
Definition groups : MS (list ID) :=
  intents ← wrap (Errorf1 "list intent groups") (src_IntentGroups (pv_src p));
  origins ← wrap (Errorf1 "list group origins") (src_GroupOrigins (pv_src p));
  mret (by_name (intents ++ origins)).

Fixpoint reconcile_all (gs : list ID) (out : Drift) : MS Drift :=
  match gs with
  | [] => mret out
  | group :: gs =>
      children ← children_of p group;
      d ← reconcileGroup p (src_BindingsFrom (pv_src p)) group children;
      reconcile_all gs (MkDrift (Missing out ++ Missing d) (Orphan out ++ Orphan d))
  end.
Definition Reconcile : MS Drift :=
  gs ← groups;
  out ← reconcile_all gs (MkDrift [] []);
  mret (MkDrift (sortBindings (Missing out)) (sortBindings (Orphan out))).

Definition drifted : error := Errorf1 "missing, orphan; run SyncGroup" (Sentinel hierarchy_ErrDrift).
Definition Guard : MS unit :=
  d ← Reconcile;
  if Empty d then mret tt else fail drifted.

Definition SyncGroup (group : ID) : MS unit :=
  if negb (Valid group) || IsSingle group then
    fail (bad_membership "the group is unset or the single tenant")
  else
    children ← children_of p group;
    let origin := GroupOrigin group in
    src_Apply (pv_src p) (fun tx =>
      d ← reconcileGroup p (tx_BindingsFrom tx) group children;
      if Empty d then mret tt
      else if pv_maxRows p <? Z.of_nat (length (Missing d) + length (Orphan d)) then fail too_many
      else
        each (Orphan d) (fun b => tx_RevokeFrom tx (keyOf b) origin);;
        each (Missing d) (fun b => tx_GrantFrom tx b origin)).
End Guard.

(** ** What is called for and what is held *)

(** The rows of a group on its organizations are the ones called for. *)
Definition in_step (roles : RoleMap) (H : Parents) (v : Justified) (g : ID) : Prop := forall c k,
  H !! c = Some (ID_String g) -> bk_Scope k = New c -> (k, GroupOrigin g) ∈ v <-> projected roles H v g k.
Lemma converged_in_step roles H v g : sane H -> converged roles H v g -> in_step roles H v g.
Proof. intros HS [_ Hr] c k Hc Hk. apply Hr. rewrite Hk. by eapply child_scope. Qed.

Lemma usableOrg_New c : c <> "" -> usableOrg c = true.
Proof. apply usable_New. Qed.

(** *** Tables *)

(** A table keyed by the keys of its rows. *)
Definition filed (m : Table) : Prop := forall k b, m !! k = Some b -> keyOf b = k.
Lemma filed_insert m b : filed m -> filed (<[keyOf b := b]> m).
Proof. intros Hm k b'. rewrite lookup_insert_Some. intros [[<- <-]|[_ Hk]]; [done|]. by apply Hm. Qed.
Definition holds (m : Table) (k : BindingKey) : Prop := is_Some (m !! k).
Lemma holds_insert m b k : holds (<[keyOf b := b]> m) k <-> k = keyOf b \/ holds m k.
Proof. unfold holds. rewrite lookup_insert_is_Some. destruct (decide (keyOf b = k)); naive_solver. Qed.

Lemma elem_of_only_in a b r : filed a -> r ∈ only_in a b <-> holds a (keyOf r) /\ ~ holds b (keyOf r).
Proof.
  intros Ha. unfold only_in, sortBindings. rewrite elem_of_sort_by, list_elem_of_fmap. unfold holds. split.
  - intros ([k r'] & -> & Hin). apply list_elem_of_In, filter_In in Hin as [Hin Hn%bool_decide_eq_true].
    apply list_elem_of_In, elem_of_map_to_list in Hin. cbn in *. rewrite (Ha _ _ Hin), Hin, Hn. split; [by eexists|].
    by intros [? ?].
  - intros [[r' Hr] Hn]. pose proof (Ha _ _ Hr) as ->%(inj keyOf). exists (keyOf r, r). split; [done|].
    apply list_elem_of_In, filter_In. split; [by apply list_elem_of_In, elem_of_map_to_list|].
    cbn. apply bool_decide_true. by apply eq_None_not_Some.
Qed.

Lemma materialize_spec sub mapped children m : filed m -> filed (materialize sub mapped children m) /\
  forall k, holds (materialize sub mapped children m) k <-> holds m k \/
    exists c, c ∈ children /\ usableOrg c = true /\ k = keyOf (materializedBinding sub c mapped).
Proof.
  unfold materialize. revert m. induction children as [|c children IH]; intros m Hm; cbn [fold_left].
  - split; [done|]. intros k. split; [by left|]. by intros [?|(c & ?%not_elem_of_nil & _)].
  - destruct (usableOrg c) eqn:Hc.
    + destruct (IH _ (filed_insert m (materializedBinding sub c mapped) Hm)) as [Hf Hh]. split; [done|]. intros k.
      rewrite Hh, holds_insert. setoid_rewrite elem_of_cons. naive_solver.
    + destruct (IH m Hm) as [Hf Hh]. split; [done|]. intros k. rewrite Hh. setoid_rewrite elem_of_cons. split.
      * intros [?|(c' & ? & ?)]; [by left|right; eauto].
      * intros [?|(c' & [->|?] & Hu & ?)]; [by left|congruence|right; eauto].
Qed.
Lemma expected_spec roles intents children m m' : filed m -> expected roles intents children m = Ret m' ->
  filed m' /\ forall k, holds m' k <-> holds m k \/ exists b c r, b ∈ intents /\ c ∈ children /\ usableOrg c = true /\
    roles !! b_Role b = Some r /\ k = keyOf (materializedBinding (b_Subject b) c r).
Proof.
  revert m. induction intents as [|b intents IH]; intros m Hm; cbn [expected].
  - intros [= <-]. split; [done|]. intros k. split; [by left|]. by intros [?|(b & c & r & ?%not_elem_of_nil & _)].
  - unfold translate. destruct (roles !! b_Role b) as [r|] eqn:Hr; [|done]. intros Hrun.
    destruct (materialize_spec (b_Subject b) r children m Hm) as [Hf Hh]. destruct (IH _ Hf Hrun) as [Hf' Hh'].
    split; [done|]. intros k. rewrite Hh', Hh. setoid_rewrite elem_of_cons. split.
    + intros [[?|(c & ? & ? & ?)]|(b' & c & r' & ? & ?)]; [by left|right; exists b, c, r; auto|right; exists b', c, r'; tauto].
    + intros [?|(b' & c & r' & [->|?] & ? & ? & ? & ?)]; [by left; left| |right; by exists b', c, r'].
      left; right. exists c. simplify_eq. done.
Qed.
Lemma rows_spec rows m : filed m -> filed (fold_left (fun m b => <[keyOf b := b]> m) rows m) /\
  forall k, holds (fold_left (fun m b => <[keyOf b := b]> m) rows m) k <-> holds m k \/ exists b, b ∈ rows /\ k = keyOf b.
Proof.
  revert m. induction rows as [|b rows IH]; intros m Hm; cbn [fold_left].
  - split; [done|]. intros k. split; [by left|]. by intros [?|(c & ?%not_elem_of_nil & _)].
  - destruct (IH _ (filed_insert m b Hm)) as [Hf Hh]. split; [done|]. intros k. rewrite Hh, holds_insert.
    setoid_rewrite elem_of_cons. naive_solver.
Qed.

(** ** What it reports *)

Section Laws.
Context {S : Type} {VS : View S} (p : Provisioner (S := S)).
Implicit Types (v : Justified) (H : Parents) (w : world S).

(** Both readers answer with the rows an origin justifies. *)
Definition from_laws (rd : ID -> Origin -> M S (list Binding)) : Prop :=
  forall scope o, reads (rd scope o) (fun v l => lists_from v scope o l).

Lemma actual_spec rd o children m : from_laws rd -> filed m ->
  reads (actual rd o children m) (fun v m' => filed m' /\ forall k, holds m' k <-> holds m k \/
    exists c, c ∈ children /\ usableOrg c = true /\ bk_Scope k = New c /\ (k, o) ∈ v).
Proof.
  intros Hrd. revert m. induction children as [|c children IH]; intros m Hm; cbn [actual].
  - apply reads_mret. intros v. split; [done|]. intros k. split; [by left|]. by intros [?|(c & ?%not_elem_of_nil & _)].
  - destruct (usableOrg c) eqn:Hc; cbn [negb].
    + eapply reads_bind; [apply reads_wrap, Hrd|]. intros v0 rows Hrows.
      destruct (rows_spec rows m Hm) as [Hf Hh]. eapply reads_weaken; [apply (IH _ Hf)|].
      intros v m' [Hf' Hh'] ->. split; [done|]. intros k. rewrite Hh', Hh. setoid_rewrite elem_of_cons. split.
      * intros [[?|(b & Hb & ->)]|(c' & ? & ?)]; [by left|right|right; exists c'; tauto].
        apply Hrows in Hb as [Hs Ho]. exists c. split_and!; [by left|done..].
      * intros [?|(c' & [->|?] & Hu & Hs & Ho)]; [by left; left| |right; by exists c'].
        left; right. exists (of_key k). rewrite keyOf_of_key. split; [|done]. apply Hrows. rewrite keyOf_of_key. done.
    + eapply reads_weaken; [apply (IH _ Hm)|]. intros v m' [Hf Hh]. split; [done|]. intros k. rewrite Hh.
      setoid_rewrite elem_of_cons. split.
      * intros [?|(c' & ? & ?)]; [by left|right; exists c'; tauto].
      * intros [?|(c' & [->|?] & Hu & ?)]; [by left|congruence|right; by exists c'].
Qed.

(** The difference, both ways. *)
Record drift_of H v (g : ID) (d : Drift) : Prop := {
  d_missing b : b ∈ Missing d <-> projected (pv_roles p) H v g (keyOf b) /\ (keyOf b, GroupOrigin g) ∉ v;
  d_orphan b : b ∈ Orphan d <-> (exists c, H !! c = Some (ID_String g) /\ b_Tenant b = New c) /\
    (keyOf b, GroupOrigin g) ∈ v /\ ~ projected (pv_roles p) H v g (keyOf b)
}.
Lemma projected_scope H v g k : projected (pv_roles p) H v g k -> exists c, H !! c = Some (ID_String g) /\ bk_Scope k = New c.
Proof. intros (i & c & r & _ & Hc & _ & ->). by exists c. Qed.

#[local] Instance projected_dec H v g k : base.Decision (projected (pv_roles p) H v g k).
Proof.
  refine (cast_if (decide (set_Exists (fun io : BindingKey * Origin => io.2 = GroupOrigin g /\ bk_Scope io.1 = g /\
    H !! ID_String (bk_Scope k) = Some (ID_String g) /\ pv_roles p !! bk_Role io.1 = Some (bk_Role k) /\
    k = keyOf (materializedBinding (bk_Subject io.1) (ID_String (bk_Scope k)) (bk_Role k))) v))).
  - abstract (destruct s as ([i o] & Hv & Ho & Hs & Hc & Hr & Hk); cbn in *; subst o; exists i, (ID_String (bk_Scope k)), (bk_Role k);
      by split_and!).
  - abstract (intros (i & c & r & [Hs Hi] & Hc & Hr & ->); apply n; exists (i, GroupOrigin g); cbn; rewrite ID_String_New;
      by split_and!).
Defined.

Lemma reconcileGroup_spec H rd g children : sane H -> from_laws rd -> (forall c, c ∈ children <-> H !! c = Some (ID_String g)) ->
  reads (reconcileGroup p rd g children) (fun v => drift_of H v g).
Proof.
  intros HS Hrd Hch. unfold reconcileGroup.
  assert (forall c, c ∈ children -> usableOrg c = true) as Hu.
  { intros c Hc%Hch. apply usableOrg_New. by apply HS in Hc as [? _]. }
  eapply reads_bind; [apply reads_wrap, Hrd|]. intros v intents Hint.
  eapply reads_bind; [apply reads_lift|]. intros v1 want Hwant. assert (filed ∅) as H0 by (intros k b; by rewrite lookup_empty).
  destruct (expected_spec _ _ _ _ _ H0 Hwant) as [Hfw Hw].
  eapply reads_bind; [by apply actual_spec|]. intros v2 have [Hfh Hh]. apply reads_mret. intros v3 -> -> ->. clear H0.
  assert (forall k, holds want k <-> projected (pv_roles p) H v g k) as HW.
  { intros k. rewrite Hw. unfold projected. split.
    - intros [[? ?]|(b & c & r & Hb & Hc & _ & Hr & ->)]; [by rewrite lookup_empty in *|].
      exists (keyOf b), c, r. split_and!; [by apply Hint|by apply Hch|done..].
    - intros (i & c & r & Hi & Hc%Hch & Hr & ->). right. exists (of_key i), c, r.
      split_and!; [apply Hint; by rewrite keyOf_of_key|done|by apply Hu|done..]. }
  assert (forall k, holds have k <-> (exists c, H !! c = Some (ID_String g) /\ bk_Scope k = New c) /\ (k, GroupOrigin g) ∈ v) as HH.
  { intros k. rewrite Hh. split.
    - intros [[? ?]|(c & Hc%Hch & _ & Hs & Ho)]; [by rewrite lookup_empty in *|]. eauto.
    - intros [(c & Hc%Hch & Hs) Ho]. right. exists c. auto. }
  split; cbn [Missing Orphan]; intros b; rewrite elem_of_only_in, HW, HH by done; [|tauto].
  split; [|tauto]. intros [Hp Hn]. split; [done|]. intros Ho. apply Hn. split; [|done]. by eapply projected_scope.
Qed.

Lemma Empty_spec H v g d : drift_of H v g d -> Empty d = true <-> in_step (pv_roles p) H v g.
Proof.
  intros [Hm Ho]. unfold Empty. rewrite andb_true_iff, !bool_decide_eq_true. split.
  - intros [HM HO] c k Hc Hk. rewrite HM in Hm. rewrite HO in Ho. split; intros Hp.
    + destruct (decide (projected (pv_roles p) H v g k)) as [|Hn]; [done|]. exfalso.
      apply (not_elem_of_nil (of_key k)), Ho. rewrite keyOf_of_key. eauto.
    + destruct (decide ((k, GroupOrigin g) ∈ v)) as [|Hn]; [done|]. exfalso.
      apply (not_elem_of_nil (of_key k)), Hm. rewrite keyOf_of_key. eauto.
  - intros Hin. split; apply elem_of_nil_inv; intros b Hb.
    + apply Hm in Hb as [Hp Hn]. destruct (projected_scope _ _ _ _ Hp) as (c & Hc & Hs). apply Hn. by apply (Hin c).
    + apply Ho in Hb as [(c & Hc & Hs) [Hv Hn]]. apply Hn. by apply (Hin c).
Qed.

(** *** The guard *)

Context {HS : SourceLaws (pv_src p)}.

Lemma children_read H g : shows (pv_hier p) H ->
  reads (children_of p g) (fun _ l => forall c, c ∈ l <-> H !! c = Some (ID_String g)).
Proof.
  intros Hsh w r w' Hok Hrun. unfold children_of in Hrun. rewrite wrap_lift in Hrun. injection Hrun as <- <-.
  split_and!; [done..|]. intros l Hl%wrap_err_Ret_inv. by apply (sh_children _ _ Hsh).
Qed.

Definition together (out d : Drift) : Drift := MkDrift (Missing out ++ Missing d) (Orphan out ++ Orphan d).
Lemma Empty_together out d : Empty (together out d) = Empty out && Empty d.
Proof.
  apply Bool.eq_iff_eq_true. unfold Empty. cbn. rewrite !andb_true_iff, !bool_decide_eq_true, !app_nil. tauto.
Qed.
Lemma reconcile_all_spec H gs out : sane H -> shows (pv_hier p) H ->
  reads (reconcile_all p gs out) (fun v d =>
    (Empty d = true -> Empty out = true /\ forall g, g ∈ gs -> in_step (pv_roles p) H v g) /\
    (Empty d = false -> Empty out = false \/ exists g, g ∈ gs /\ ~ in_step (pv_roles p) H v g)).
Proof.
  intros HSn Hsh. revert out. induction gs as [|g gs IH]; intros out; cbn [reconcile_all].
  - apply reads_mret. intros v. split; [|by left]. intros ?. split; [done|]. by intros g ?%not_elem_of_nil.
  - eapply reads_bind; [by apply children_read|]. intros v children Hch.
    eapply reads_bind; [apply (reconcileGroup_spec H); [done|intros scope o; apply src_from|done]|].
    intros v1 d Hd%Empty_spec. eapply reads_weaken; [apply IH|]. intros v2 d2 [HE HN] -> ->.
    fold (together out d) in *. rewrite Empty_together in HE, HN. split.
    + intros [[Ho He]%andb_prop Hgs]%HE. split; [done|]. intros g' [->|Hg']%elem_of_cons; [by apply Hd|by apply Hgs].
    + intros [[?|He]%andb_false_iff|(g' & ? & ?)]%HN; [by left|right|right; exists g'; split; [by right|done]].
      exists g. split; [by left|]. intros Hin%Hd. congruence.
Qed.

(** Whatever the store holds of a group, [groups] names it. *)
Lemma groups_read : reads (groups p) (fun v l => forall g k, usable g = true -> (k, GroupOrigin g) ∈ v -> g ∈ l).
Proof.
  unfold groups. eapply reads_bind; [apply reads_wrap, src_intents|]. intros v intents _.
  eapply reads_bind; [apply reads_wrap, src_origins|]. intros v1 origins Ho. apply reads_mret. intros v2 -> -> g k Hg Hk.
  apply elem_of_by_name, elem_of_app. right. apply Ho. eauto.
Qed.
Lemma nothing_in_step H v g : (forall k, (k, GroupOrigin g) ∉ v) -> in_step (pv_roles p) H v g.
Proof.
  intros Hn c k _ _. split; [by intros ?%Hn|]. by intros (i & c' & r & [_ ?%Hn] & _).
Qed.
Lemma Empty_sorted d : Empty (MkDrift (sortBindings (Missing d)) (sortBindings (Orphan d))) = Empty d.
Proof.
  assert (forall l, sortBindings l = [] <-> l = []) as Hs.
  { intros l. split; [|by intros ->]. intros Hl. apply Permutation_nil. rewrite <- Hl. apply sort_by_Permutation. }
  unfold Empty. cbn. f_equal; apply bool_decide_ext, Hs.
Qed.
Lemma Reconcile_spec H : sane H -> shows (pv_hier p) H ->
  reads (Reconcile p) (fun v d => (Empty d = true -> forall g, usable g = true -> in_step (pv_roles p) H v g) /\
    (Empty d = false -> exists g, ~ in_step (pv_roles p) H v g)).
Proof.
  intros HSn Hsh. unfold Reconcile. eapply reads_bind; [apply groups_read|]. intros v gs Hgs.
  eapply reads_bind; [by apply (reconcile_all_spec H)|]. intros v1 d [HE HN]. apply reads_mret. intros v2 -> ->.
  rewrite Empty_sorted. split.
  - intros [_ Hall]%HE g Hg.
    destruct (decide (set_Exists (fun ko : BindingKey * Origin => ko.2 = GroupOrigin g) v)) as [([k o] & Hk & Ho)|Hn].
    + cbn in Ho. subst o. apply Hall. by eapply Hgs.
    + apply nothing_in_step. intros k Hk. apply Hn. by exists (k, GroupOrigin g).
  - intros [[=]|(g & _ & Hg)]%HN. by exists g.
Qed.

(** C31: [Guard] only reads. It passes only when, for every group, the
    organizations the group has now carry what its intent rows call for, and it
    fails whenever [Reconcile] finds any drift, which then is one. The rows of an
    organization that left its group are outside: see [guard_misses_leavers]. *)
Theorem guard_exact H w r w' : sane H -> shows (pv_hier p) H -> ok (w_store w) -> Guard p w = (r, w') ->
  seen w' = seen w /\
  (r = Ret tt -> forall g, usable g = true -> in_step (pv_roles p) H (seen w) g) /\
  (forall d, (Reconcile p w).1 = Ret d -> Empty d = false ->
    r = Fail drifted /\ exists g, ~ in_step (pv_roles p) H (seen w) g).
Proof.
  intros HSn Hsh Hok. unfold Guard, mbind, M_bind. destruct (Reconcile p w) as [r1 w1] eqn:HR. cbn [fst].
  destruct (Reconcile_spec H HSn Hsh w r1 w1 Hok HR) as (_ & Hs & HP).
  destruct r1 as [d|e|why]; [|by intros [= <- <-]..]. destruct (HP d eq_refl) as [HE HN].
  destruct (Empty d) eqn:Hd; intros [= <- <-]; (split_and!; [done| |]); try done.
  - intros _. by apply HE.
  - intros d' [= <-]. congruence.
  - intros d' [= <-] _. split; [done|]. by apply HN.
Qed.

(** *** The repair *)

(** The rows of the group outside its organizations stay, those inside become
    what is called for. *)
Definition synced H v (g : ID) v' : Prop := only_origins [GroupOrigin g] v v' /\
  forall k, (k, GroupOrigin g) ∈ v' <-> projected (pv_roles p) H v g k \/
    ((k, GroupOrigin g) ∈ v /\ ~ exists c, H !! c = Some (ID_String g) /\ bk_Scope k = New c).
Definition repaired v (o : Origin) (d : Drift) : Justified :=
  list_to_set (map (fun b => (keyOf b, o)) (Missing d)) ∪ (v ∖ list_to_set (map (fun b => (keyOf b, o)) (Orphan d))).
Lemma elem_of_repaired v o d k o' : (k, o') ∈ repaired v o d <->
  (o' = o /\ of_key k ∈ Missing d) \/ ((k, o') ∈ v /\ ~ (o' = o /\ of_key k ∈ Orphan d)).
Proof.
  assert (forall l, (k, o') ∈ map (fun b => (keyOf b, o)) l <-> o' = o /\ of_key k ∈ l) as Hl.
  { intros l. rewrite list_elem_of_fmap. split.
    - intros (b & [= -> ->] & Hb). by rewrite of_key_keyOf.
    - intros [-> Hb]. exists (of_key k). by rewrite keyOf_of_key. }
  unfold repaired. rewrite elem_of_union, elem_of_difference, !elem_of_list_to_set, !Hl. done.
Qed.
Lemma repaired_synced H v g d : drift_of H v g d -> synced H v g (repaired v (GroupOrigin g) d).
Proof.
  intros [Hm Ho]. split.
  - intros k o Hne. rewrite elem_of_repaired. rewrite list_elem_of_singleton in Hne. tauto.
  - intros k. rewrite elem_of_repaired, Hm, Ho, keyOf_of_key. change (b_Tenant (of_key k)) with (bk_Scope k). split.
    + intros [[_ [Hp _]]|[Hv Hn]]; [by left|].
      destruct (decide (projected (pv_roles p) H v g k)); [by left|right]. split; [done|]. tauto.
    + intros [Hp|[Hv Hn]]; [|tauto]. destruct (decide ((k, GroupOrigin g) ∈ v)); tauto.
Qed.
Lemma sync_effects H t g children : TxLaws t -> sane H -> (forall c, c ∈ children <-> H !! c = Some (ID_String g)) ->
  effects (d ← reconcileGroup p (tx_BindingsFrom t) g children;
    if Empty d then mret tt
    else if pv_maxRows p <? Z.of_nat (length (Missing d) + length (Orphan d)) then fail too_many
    else
      each (Orphan d) (fun b => tx_RevokeFrom t (keyOf b) (GroupOrigin g));;
      each (Missing d) (fun b => tx_GrantFrom t b (GroupOrigin g)))
    (fun v _ v' => synced H v g v' /\ (in_step (pv_roles p) H v g -> v' = v)).
Proof.
  intros Ht HSn Hch. eapply effects_bind; [apply effects_read, (reconcileGroup_spec H); [done|intros scope o; apply tx_from|done]|].
  intros v v1 d [-> Hd]. pose proof (Empty_spec H v g d Hd) as HE. pose proof (repaired_synced H v g d Hd) as Hsync.
  destruct (Empty d) eqn:He.
  { apply effects_mret. intros v2 ->. split; [|done]. unfold Empty in He. apply andb_prop in He as [Hm%bool_decide_eq_true Ho%bool_decide_eq_true].
    replace v with (repaired v (GroupOrigin g) d) at 2; [done|]. unfold repaired. rewrite Hm, Ho. cbn. set_solver. }
  destruct (_ <? _); [apply effects_fail|].
  eapply effects_bind; [apply (revoke_each_effects t (Orphan d) keyOf), Ht|]. intros v2 v3 [] ->.
  eapply effects_weaken; [apply (effects_each (Missing d) _ (fun _ => True) (fun b v => {[(keyOf b, GroupOrigin g)]} ∪ v))|].
  - intros b _. eapply effects_weaken; [apply tx_grant|]. by intros v4 [] v' [_ ->].
  - intros v4 [] v' [_ ->] -> ->. rewrite fold_union. split; [exact Hsync|]. intros Hin%HE. congruence.
Qed.

Lemma synced_in_step H v g v' : sane H -> synced H v g v' -> in_step (pv_roles p) H v' g.
Proof.
  intros HSn [_ Hk] c k Hc Hs. rewrite Hk.
  assert (forall i, intent_key v' g i <-> intent_key v g i) as Hi.
  { intros i. unfold intent_key. rewrite Hk. split; intros [Hg Hi]; (split; [done|]).
    - destruct Hi as [(c' & Hc' & Hs')%projected_scope|[? _]]; [|done]. exfalso.
      apply (child_scope H c' g HSn Hc'). congruence.
    - right. split; [done|]. intros (c' & Hc' & Hs'). apply (child_scope H c' g HSn Hc'). congruence. }
  unfold projected at 2. setoid_rewrite Hi. fold (projected (pv_roles p) H v g k). split; [|by left].
  intros [?|[_ Hn]]; [done|]. exfalso. apply Hn. eauto.
Qed.

(** [SyncGroup] brings the group in step, touches no row of another origin, and
    changes nothing of a group that is in step already. *)
Theorem sync_repairs H g w r w' : sane H -> shows (pv_hier p) H -> ok (w_store w) -> SyncGroup p g w = (r, w') ->
  ok (w_store w') /\
  (r = Ret tt -> in_step (pv_roles p) H (seen w') g /\ only_origins [GroupOrigin g] (seen w) (seen w') /\
    (in_step (pv_roles p) H (seen w) g -> seen w' = seen w)) /\
  (is_ret r = false -> seen w' = seen w).
Proof.
  intros HSn Hsh Hok. unfold SyncGroup. destruct (_ || _); [intros [-> ->]%fail_inv; by split_and!|].
  intros [(l & Hl & Hrun)|[Hr ->]]%children_then; [|split_and!; [done| |done]; by intros ->].
  destruct (src_atomic _ _ (fun t Ht => sync_effects H t g l Ht HSn (sh_children _ _ Hsh _ _ Hl)) _ _ _ Hok Hrun) as (Hok' & HP & Hn).
  split_and!; [done| |done]. intros Hr. destruct (HP Hr) as [Hs Hi]. split_and!; [by eapply synced_in_step|apply Hs|done].
Qed.
End Laws.

(** ** Witnesses *)

Module ToyDrift.
Import ToyHier.
(** The table has moved the shop and [MoveOrg] was not called. *)
Definition reparented : Parents := during before move.
Definition south : ID := New "south".
Definition north : ID := New "north".
Definition guard_run := Guard (prov reparented) both.
Definition synced_south := (SyncGroup (prov reparented) south both).2.
Lemma south_ran : SyncGroup (prov reparented) south both = (Ret tt, synced_south).
Proof. refine (ran (SyncGroup _ south) both tt _); vm_compute; reflexivity. Qed.
Lemma guard_ran : Guard (prov reparented) both = (Fail drifted, guard_run.2).
Proof.
  rewrite (surjective_pairing (Guard _ _)). unfold guard_run. f_equal.
Qed.
Lemma both_ok : ok (w_store both).
Proof.
  by destruct (GrantGroupAdmin_run env (prov before) log_reads log_returns before by_platform sue (New "south") "group_admin"
    granted (Ret tt) both (table_shows _) granted_ok both_ran) as [Hok2 _].
Qed.
Definition stale : BindingKey := keyOf (materializedBinding ada "shop" "org_admin").
Definition stale_seen (w : world (HierApp HierStore (list Event))) : bool :=
  bool_decide ((stale, GroupOrigin north) ∈ seen w).
End ToyDrift.

Lemma guard_exact_witness : exists g, ~ in_step ToyHier.roles ToyDrift.reparented (seen ToyHier.both) g.
Proof.
  destruct (guard_exact (ToyHier.prov ToyDrift.reparented) ToyDrift.reparented ToyHier.both (Fail drifted) ToyDrift.guard_run.2
    ToyHier.moved_sane (table_shows _) ToyDrift.both_ok ToyDrift.guard_ran) as (_ & _ & Hd).
  destruct (Hd (match (Reconcile (ToyHier.prov ToyDrift.reparented) ToyHier.both).1 with Ret d => d | _ => MkDrift [] [] end))
    as [_ Hg]; [vm_compute; reflexivity|vm_compute; reflexivity|exact Hg].
Defined.
Lemma sync_repairs_witness : in_step ToyHier.roles ToyDrift.reparented (seen ToyDrift.synced_south) ToyDrift.south.
Proof.
  destruct (sync_repairs (ToyHier.prov ToyDrift.reparented) ToyDrift.reparented ToyDrift.south ToyHier.both (Ret tt)
    ToyDrift.synced_south ToyHier.moved_sane (table_shows _) ToyDrift.both_ok ToyDrift.south_ran) as (_ & Hs & _).
  by apply Hs.
Defined.

(** The guard reads the organizations a group has now. Reparented without
    [MoveOrg], the shop keeps what its former group granted there: once the new
    group is synced the guard passes, and the former administrator's row is
    still in the store. *)
Example guard_misses_leavers :
  (Guard (ToyHier.prov ToyDrift.reparented) ToyDrift.synced_south).1 = Ret tt /\
  ToyDrift.stale_seen ToyDrift.synced_south = true.
Proof. split; vm_compute; reflexivity. Qed.
