(* ===== verification/HierMembership.v ===== *)
(** * Membership derived from intent

    [src/examples/tenanthierarchy/membership.go]: an [identity.MembershipStore]
    read from the intent rows and the parentage, with no table of its own. *)

From S2P Require Import Prelude Tenant World AuditEvent Crypto Http WebAudit Authz Identity IdentityAcross HierStore HierProvision HierLaws HierReconcile.

#[local] Open Scope string_scope.
#[local] Open Scope list_scope.

Definition DefaultUserSubjectType : string := "user".

Record IntentReader (S : Type) := MkReader {
  ir_BindingsFrom : ID -> Origin -> M S (list Binding);
  ir_IntentGroupsForSubject : string -> string -> M S (list ID)
}.
Arguments MkReader {_} _ _.
Arguments ir_BindingsFrom {_} _ _ _.
Arguments ir_IntentGroupsForSubject {_} _ _ _.
Definition source_reader {S} (src : BindingSource S) : IntentReader S :=
  MkReader (src_BindingsFrom src) (src_IntentGroupsForSubject src).

Record Membership (S : Type) := MkMembership {
  mb_store : IntentReader S;
  mb_hier : OrgHierarchy;
  mb_userType : string
}.
Arguments MkMembership {_} _ _ _.
Arguments mb_store {_} _.
Arguments mb_hier {_} _.
Arguments mb_userType {_} _.

Section Membership.
Context {S : Type}.
Local Abbreviation MS := (M S).

Definition WithUserSubjectType (subjectType : string) (m : Membership S) : Membership S :=
  MkMembership (mb_store m) (mb_hier m) subjectType.
Definition NewMembership (store : option (IntentReader S)) (hier : option OrgHierarchy)
    (opts : list (Membership S -> Membership S)) : go (Membership S) :=
  match store, hier with
  | None, _ => Panic "NewMembership requires an IntentReader"
  | _, None => Panic "NewMembership requires an OrgHierarchy"
  | Some store, Some hier =>
      let m := fold_left (fun m opt => opt m) opts (MkMembership store hier DefaultUserSubjectType) in
      if String.eqb (mb_userType m) "" then Panic "NewMembership requires a non-empty user subject type" else Ret m
  end.

Context (m : Membership S).

Definition IsMember (userID : string) (target : ID) : MS bool :=
  if String.eqb userID "" || negb (Valid target) || IsSingle target then mret false
  else
    '(groupID, ok) ← wrap (Errorf1 "resolve parent") (lift (ParentOf (mb_hier m) (ID_String target)));
    if negb (ok : bool) then mret false
    else
      let group := New groupID in
      if negb (Valid group) || IsSingle group then mret false
      else
        intents ← wrap (Errorf1 "intent rows") (ir_BindingsFrom (mb_store m) group (GroupOrigin group));
        mret (existsb (fun b => String.eqb (sub_Type (b_Subject b)) (mb_userType m) &&
                                String.eqb (sub_ID (b_Subject b)) userID) intents).

(** The usable organizations of [children] not yet in [out]. *)
Definition add_orgs (children : list string) (out : list ID) : list ID :=
  fold_left (fun out id =>
    let org := New id in
    if negb (Valid org) || IsSingle org || bool_decide (org ∈ out) then out else out ++ [org]) children out.
Fixpoint orgs_of (groups : list ID) (out : list ID) : MS (list ID) :=
  match groups with
  | [] => mret out
  | group :: groups =>
      children ← wrap (Errorf1 "children of") (lift (ChildrenOf (mb_hier m) (ID_String group)));
      orgs_of groups (add_orgs children out)
  end.
Definition MembershipsFor (userID : string) : MS (list ID) :=
  if String.eqb userID "" then mret []
  else
    groups ← wrap (Errorf1 "groups for") (ir_IntentGroupsForSubject (mb_store m) (mb_userType m) userID);
    out ← orgs_of groups [];
    mret (sort_by (fun org => [ID_String org]) out).

(** What the identity core is given. Neither method reads the trace. *)
Definition at_store {A} (op : MS A) (s : S) : go A * S := let '(r, w) := op (World s []) in (r, w_store w).
Definition membership_store : MembershipStore S := {|
  Identity.IsMember userID target := at_store (IsMember userID target);
  Identity.MembershipsFor userID := at_store (MembershipsFor userID)
|}.
End Membership.

(** ** What it answers *)

Section Laws.
Context {S : Type} {VS : View S} (src : BindingSource S) {HS : SourceLaws src} (h : OrgHierarchy) (ty : string).
Context (H : Parents) (shown : shows h H) (Hsane : sane H) (Hnamed : forall c g, H !! c = Some g -> g <> "").
Implicit Types (v : Justified) (w : world S) (t g : ID).
Local Abbreviation mb := (MkMembership (source_reader src) h ty).

(** A user of this id holds an intent row of the organization's group. *)
Definition covers v (u : string) t : Prop := exists g i, H !! ID_String t = Some (ID_String g) /\ usable g = true /\
  intent_key v g i /\ sub_Type (bk_Subject i) = ty /\ sub_ID (bk_Subject i) = u.

Lemma wrap_lift_reads {A} f (op : go A) : reads (wrap f (lift op) : M S A) (fun _ a => op = Ret a).
Proof. apply reads_wrap, reads_lift. Qed.

Lemma IsMember_reads u t : usable t = true -> u <> "" -> reads (IsMember mb u t) (fun v b => b = true <-> covers v u t).
Proof.
  intros Ht Hu. unfold IsMember. unfold usable in Ht. apply andb_prop in Ht as [Hv Hs%negb_true_iff].
  rewrite (proj2 (String.eqb_neq _ _) Hu), Hv, Hs. cbn [orb negb].
  eapply reads_bind; [apply wrap_lift_reads|]. intros v [groupID found] Hp. apply (sh_parent _ _ shown) in Hp.
  destruct found; cbn [negb]; [|apply reads_mret; intros v1 ->; split; [done|]; intros (g & i & Hg & _); congruence].
  destruct (negb (Valid (New groupID)) || IsSingle (New groupID)) eqn:Hg.
  { apply reads_mret. intros v1 ->. split; [done|]. intros (g & i & Hg' & Hug & _). rewrite Hp in Hg'. injection Hg' as ->.
    rewrite New_ID_String in Hg by done. unfold usable in Hug. apply andb_prop in Hug as [HV HI%negb_true_iff]. by rewrite HV, HI in Hg. }
  assert (usable (New groupID) = true) as Hug.
  { unfold usable. apply orb_false_iff in Hg as [HV%negb_false_iff HI]. by rewrite HV, HI. }
  eapply reads_bind; [apply reads_wrap, src_from|]. intros v1 intents Hi. apply reads_mret. intros v2 -> ->.
  rewrite existsb_exists. split.
  - intros (b & Hb & [Hty%String.eqb_eq Hid%String.eqb_eq]%andb_prop). apply list_elem_of_In, Hi in Hb.
    exists (New groupID), (keyOf b). rewrite ID_String_New. done.
  - intros (g & i & Hg' & Hug' & Hint & Hty & Hid). rewrite Hp in Hg'. injection Hg' as ->. rewrite New_ID_String in Hi by done.
    exists (of_key i). split; [apply list_elem_of_In, Hi; by rewrite keyOf_of_key|].
    change (b_Subject (of_key i)) with (bk_Subject i). by rewrite Hty, Hid, !String.eqb_refl.
Qed.

Lemma elem_of_add_orgs children out t : t ∈ add_orgs children out <-> t ∈ out \/ exists c, c ∈ children /\ usable (New c) = true /\ t = New c.
Proof.
  unfold add_orgs. revert out. induction children as [|c children IH]; intros out; cbn [fold_left].
  - split; [by left|]. by intros [?|(c & ?%not_elem_of_nil & _)].
  - rewrite IH. setoid_rewrite elem_of_cons. clear IH.
    assert (negb (Valid (New c)) || IsSingle (New c) = negb (usable (New c))) as ->
      by (unfold usable; by destruct (Valid (New c)), (IsSingle (New c))).
    destruct (usable (New c)) eqn:Hu; cbn [negb orb]; [case_bool_decide|].
    + split; [intros [?|(c' & ? & ?)]; eauto 6|]. intros [?|(c' & [->|?] & ? & ->)]; eauto 6.
    + rewrite elem_of_app, list_elem_of_singleton. split.
      * intros [[?| ->]|(c' & ? & ?)]; eauto 6.
      * intros [?|(c' & [->|?] & ? & ->)]; eauto 6.
    + split; [intros [?|(c' & ? & ?)]; eauto 6|]. intros [?|(c' & [->|?] & ? & ->)]; [eauto|congruence|eauto 6].
Qed.
Lemma orgs_of_reads groups out : reads (orgs_of mb groups out)
  (fun _ l => forall t, t ∈ l <-> t ∈ out \/ exists g, g ∈ groups /\ usable t = true /\ H !! ID_String t = Some (ID_String g)).
Proof.
  revert out. induction groups as [|g groups IH]; intros out; cbn [orgs_of].
  - apply reads_mret. intros v t. split; [by left|]. by intros [?|(g & ?%not_elem_of_nil & _)].
  - eapply reads_bind; [apply wrap_lift_reads|]. intros v children Hch. eapply reads_weaken; [apply IH|].
    intros v1 l Hl _ t. rewrite (Hl t), elem_of_add_orgs. setoid_rewrite elem_of_cons. split.
    + intros [[?|(c & Hc & Hu & ->)]|(g' & ? & ?)]; [by left|right|right; eauto].
      exists g. rewrite ID_String_New. split_and!; [by left|done|]. by apply (sh_children _ _ shown _ _ Hch).
    + intros [?|(g' & [->|?] & Hu & Hc)]; [by left; left| |right; eauto]. left; right. exists (ID_String t).
      rewrite New_ID_String by done. split_and!; [|done..]. by apply (sh_children _ _ shown _ _ Hch).
Qed.
Lemma MembershipsFor_reads roles u t : usable t = true -> u <> "" -> reads (MembershipsFor mb u)
  (fun v l => all_converged roles H v -> (t ∈ l <-> covers v u t)).
Proof.
  intros Ht Hu. unfold MembershipsFor. rewrite (proj2 (String.eqb_neq _ _) Hu).
  eapply reads_bind; [apply reads_wrap, src_subject|]. intros v groups Hg. eapply reads_bind; [apply orgs_of_reads|].
  intros v1 l Hl. apply reads_mret. intros v2 -> -> Hall. rewrite elem_of_sort_by, Hl. specialize (Hg Hu) as [Hval Hg]. split.
  - intros [?%not_elem_of_nil|(g & Hin & _ & Hc)]; [done|].
    assert (usable g = true) as Hug.
    { unfold usable, IsSingle. pose proof (Hval g Hin) as HV. rewrite HV. unfold Valid in HV. rewrite HV. cbn.
      apply negb_true_iff, String.eqb_neq. by apply Hnamed in Hc. }
    apply Hg in Hin as (i & Hi & _ & Hty & Hid); [|done]. by exists g, i.
  - intros (g & i & Hc & Hug & Hi & Hty & Hid). right. exists g. split_and!; [|done..]. apply Hg; [done|].
    exists i. split_and!; [done| |done..]. destruct (cv_intent _ _ _ _ (Hall g (usable_Valid g Hug)) i Hi) as (sub & role & -> & _).
    done.
Qed.

(** Who an intent row covers has a row in the organization. *)
Lemma covered_row roles v u t : all_converged roles H v -> usable t = true -> covers v u t ->
  exists g k, H !! ID_String t = Some (ID_String g) /\ (k, GroupOrigin g) ∈ v /\ bk_Scope k = t /\
    sub_Type (bk_Subject k) = ty /\ sub_ID (bk_Subject k) = u /\ sub_Tenant (bk_Subject k) = g.
Proof.
  intros Hall Ht (g & i & Hc & Hug & Hi & Hty & Hid).
  destruct (cv_intent _ _ _ _ (Hall g (usable_Valid g Hug)) i Hi) as (sub & role & -> & Hsub & [mapped Hm]).
  exists g, (keyOf (materializedBinding sub (ID_String t) mapped)).
  assert (New (ID_String t) = t) as HN by by apply New_ID_String. split_and!; try done.
  apply (cv_rows _ _ _ _ (Hall g (usable_Valid g Hug))).
  - cbn. by eapply child_scope.
  - by exists (keyOf (intentBinding sub g role)), (ID_String t), mapped.
Qed.

(** Derived membership is one set: [IsMember] answers yes on exactly the
    organizations [MembershipsFor] lists, both read only, and who may enter an
    organization has a row there, in the name of the group. *)
Theorem membership_agrees roles u t w r1 w1 r2 w2 : ok (w_store w) -> all_converged roles H (seen w) ->
  usable t = true -> u <> "" -> IsMember mb u t w = (r1, w1) -> MembershipsFor mb u w = (r2, w2) ->
  seen w1 = seen w /\ seen w2 = seen w /\
  forall b l, r1 = Ret b -> r2 = Ret l -> (b = true <-> t ∈ l) /\
    (b = true -> exists g k, H !! ID_String t = Some (ID_String g) /\ (k, GroupOrigin g) ∈ seen w /\ bk_Scope k = t /\
      sub_Type (bk_Subject k) = ty /\ sub_ID (bk_Subject k) = u /\ sub_Tenant (bk_Subject k) = g).
Proof.
  intros Hok Hall Ht Hu H1 H2. destruct (IsMember_reads u t Ht Hu w r1 w1 Hok H1) as (_ & Hs1 & HP1).
  destruct (MembershipsFor_reads roles u t Ht Hu w r2 w2 Hok H2) as (_ & Hs2 & HP2). split_and!; [done..|].
  intros b l Hb Hl. rewrite (HP1 b Hb), (HP2 l Hl Hall). split; [done|]. by apply (covered_row roles).
Qed.

(** Entering an organization through the identity core rests on an intent row
    of its group and on a row in the organization itself. *)
Theorem entry_follows_intent E (c : Core S) roles session target w tok w' :
  c_memberships c = Some (membership_store mb) ->
  (forall u s r s', UserByID (c_store c) u s = (r, s') -> ok s -> ok s' /\ view s' = view s) ->
  ok (w_store w) -> all_converged roles H (seen w) -> EnterTenant E c (Some session) target w = (Ret tok, w') ->
  covers (seen w) (cl_Subject session) target /\ exists g k, H !! ID_String target = Some (ID_String g) /\
    (k, GroupOrigin g) ∈ seen w /\ bk_Scope k = target /\ sub_ID (bk_Subject k) = cl_Subject session.
Proof.
  intros Hms Hquiet Hok Hall Hrun. destruct (EnterTenant_correct E c session target w _ w' Hrun) as [Ht _].
  destruct (Ht tok eq_refl) as (user & j & ttl & (ms & s1 & s2 & Hms' & Hu & Hm & _ & _ & _ & HV & HI & _) & _).
  rewrite Hms in Hms'. injection Hms' as <-. destruct (Hquiet _ _ _ _ Hu Hok) as [Hok1 Hv1]. cbn in Hm. unfold at_store in Hm.
  destruct (IsMember mb (cl_Subject session) target (World s1 [])) as [r1 w1] eqn:Hi. injection Hm as -> _.
  assert (usable target = true) as Hu1 by (unfold usable; by rewrite HV, HI).
  assert (cl_Subject session <> "") as Hn.
  { intros Hz. unfold IsMember in Hi. rewrite Hz in Hi. by apply mret_inv in Hi as [? _]. }
  destruct (IsMember_reads _ _ Hu1 Hn (World s1 []) _ _ Hok1 Hi) as (_ & _ & HP).
  pose proof (proj1 (HP true eq_refl) eq_refl) as Hc. unfold seen in Hc. cbn in Hc. rewrite Hv1 in Hc.
  split; [exact Hc|]. destruct (covered_row roles _ _ _ Hall Hu1 Hc) as (g & k & H1 & H2 & H3 & _ & H4 & _). exists g, k. auto.
Qed.
End Laws.

Module ToyMember.
Import ToyHier.
Definition mb := MkMembership (source_reader (mem_source (DB := list Event))) (table_hier before) "user".
Definition asked := IsMember mb "ada" (New "shop").
Definition listed := MembershipsFor mb "ada".
Lemma asked_ran : asked granted = (Ret true, (asked granted).2).
Proof. refine (ran asked granted true _); vm_compute; reflexivity. Qed.
Lemma listed_ran : listed granted = (Ret [New "depot"; New "shop"], (listed granted).2).
Proof. refine (ran listed granted [New "depot"; New "shop"] _); vm_compute; reflexivity. Qed.
End ToyMember.

Lemma membership_agrees_witness : exists g k, ToyHier.before !! "shop" = Some (ID_String g) /\
  (k, GroupOrigin g) ∈ seen ToyHier.granted /\ bk_Scope k = New "shop" /\ sub_ID (bk_Subject k) = "ada".
Proof.
  destruct (membership_agrees mem_source (table_hier ToyHier.before) "user" ToyHier.before (table_shows _) ToyHier.before_sane
    ToyHier.before_named ToyHier.roles "ada" (New "shop") ToyHier.granted
    (Ret true) (ToyMember.asked ToyHier.granted).2 (Ret [New "depot"; New "shop"]) (ToyMember.listed ToyHier.granted).2
    ToyHier.granted_ok ToyHier.granted_converged eq_refl ltac:(done) ToyMember.asked_ran ToyMember.listed_ran) as (_ & _ & Hag).
  destruct (Hag true [New "depot"; New "shop"] eq_refl eq_refl) as [_ Hrow].
  destruct (Hrow eq_refl) as (g & k & Hc & Hk & Hs & _ & Hid & _). exact (ex_intro _ g (ex_intro _ k (conj Hc (conj Hk (conj Hs Hid))))).
Defined.
