(* ===== verification/HierSql.v ===== *)
(** * The binding store over SQLite

    [src/examples/tenanthierarchy/sqlstore.go]: one table of bindings and one of
    the origins that justify them. Every column belongs to its table's primary
    key, so a table is a set of rows; a statement is the function of the tables
    its SQL text denotes. [driver] is what the database answers before it runs
    a statement, in any state: an error of it is an error of the statement. A
    transaction that is not committed, or whose commit fails, leaves the tables
    as they were. *)

From S2P Require Import Prelude Tenant World Authz AuthzStore HierStore.

#[local] Open Scope string_scope.
#[local] Open Scope list_scope.

(** ** The tables *)

Record SqlRow := MkRow {
  tenant_scope : string; subject_tenant : string; subject_type : string; subject_id : string;
  resource_type : string; resource_id : string; role : string
}.
#[export] Instance SqlRow_eq_dec : EqDecision SqlRow.
Proof. solve_decision. Defined.
#[export] Instance SqlRow_countable : Countable SqlRow.
Proof.
  apply (inj_countable' (fun r => (tenant_scope r, subject_tenant r, subject_type r, subject_id r, resource_type r, resource_id r, role r))
    (fun '(a, b, c, d, e, f, g) => MkRow a b c d e f g)). by intros [].
Defined.

Record SqlStore := MkSql {
  authz_binding : gset SqlRow;
  authz_binding_origin : gset (SqlRow * Origin)
}.

(** The parameters of a write, and the scan of a row. *)
Definition params (k : BindingKey) : SqlRow :=
  MkRow (ID_String (bk_Scope k)) (ID_String (sub_Tenant (bk_Subject k))) (sub_Type (bk_Subject k)) (sub_ID (bk_Subject k))
    (res_Type (bk_Res k)) (res_ID (bk_Res k)) (bk_Role k).
Definition scan_row (r : SqlRow) : Binding :=
  MkBinding (FromStored (tenant_scope r)) (MkSubject (FromStored (subject_tenant r)) (subject_type r) (subject_id r))
    (MkResource (resource_type r) (resource_id r)) (role r).

(** ** Statements *)

Definition insert_binding (r : SqlRow) (s : SqlStore) : SqlStore :=
  MkSql ({[r]} ∪ authz_binding s) (authz_binding_origin s).
Definition insert_origin (r : SqlRow) (o : Origin) (s : SqlStore) : SqlStore :=
  MkSql (authz_binding s) ({[(r, o)]} ∪ authz_binding_origin s).
Definition delete_origin (r : SqlRow) (o : Origin) (s : SqlStore) : SqlStore :=
  MkSql (authz_binding s) (authz_binding_origin s ∖ {[(r, o)]}).
(** [EXISTS (SELECT 1 FROM authz_binding_origin o WHERE o = r)] *)
Definition any_origin (s : SqlStore) (r : SqlRow) : bool :=
  existsb (fun ro => bool_decide (ro.1 = r)) (elements (authz_binding_origin s)).
Definition delete_binding (r : SqlRow) (s : SqlStore) : SqlStore :=
  MkSql (if any_origin s r then authz_binding s else authz_binding s ∖ {[r]}) (authz_binding_origin s).
Definition carries (s : SqlStore) (o : Origin) (r : SqlRow) : bool := bool_decide ((r, o) ∈ authz_binding_origin s).

(** [SELECT ... FROM authz_binding WHERE ... ORDER BY ...] *)
Definition select (s : SqlStore) (where_ : SqlRow -> bool) (order : SqlRow -> list string) : list Binding :=
  map scan_row (sort_by order (List.filter where_ (elements (authz_binding s)))).
Definition subject_is (sub : Subject) (r : SqlRow) : bool :=
  String.eqb (subject_tenant r) (ID_String (sub_Tenant sub)) && String.eqb (subject_type r) (sub_Type sub)
  && String.eqb (subject_id r) (sub_ID sub).
Definition by_subject (r : SqlRow) : list string := [subject_type r; subject_id r; role r].
Definition select_for (scope : ID) (sub : Subject) (res : Resource) (s : SqlStore) : list Binding :=
  select s (fun r => String.eqb (tenant_scope r) (ID_String scope) && subject_is sub r
    && String.eqb (resource_type r) (res_Type res) && String.eqb (resource_id r) (res_ID res)) (fun r => [role r]).
Definition select_subject (scope : ID) (sub : Subject) (ty : string) (s : SqlStore) : list Binding :=
  select s (fun r => String.eqb (tenant_scope r) (ID_String scope) && subject_is sub r
    && String.eqb (resource_type r) ty && negb (String.eqb (resource_id r) "")) (fun r => [resource_id r; role r]).
Definition select_resource (scope : ID) (res : Resource) (s : SqlStore) : list Binding :=
  select s (fun r => String.eqb (tenant_scope r) (ID_String scope)
    && String.eqb (resource_type r) (res_Type res) && String.eqb (resource_id r) (res_ID res)) by_subject.
Definition select_from (scope : ID) (o : Origin) (s : SqlStore) : list Binding :=
  select s (fun r => String.eqb (tenant_scope r) (ID_String scope) && carries s o r) by_subject.

(** [SELECT DISTINCT b.tenant_scope ... ORDER BY b.tenant_scope], the malformed
    ids dropped. *)
Definition select_scopes (where_ : SqlRow -> bool) (s : SqlStore) : list ID :=
  List.filter usable (map FromStored (sort_by (fun t => [t])
    (remove_dups (map tenant_scope (List.filter where_ (elements (authz_binding s))))))).
Definition intent_row (s : SqlStore) (r : SqlRow) : bool :=
  String.eqb (resource_type r) ResourceTenantGroup && carries s (groupOriginPrefix +:+ tenant_scope r) r.
Definition select_intents (s : SqlStore) : list ID := select_scopes (intent_row s) s.
Definition select_intents_of (ty u : string) (s : SqlStore) : list ID :=
  select_scopes (fun r => String.eqb (subject_type r) ty && String.eqb (subject_id r) u && intent_row s r) s.
(** [LIKE 'group:%'] does not tell upper from lower case. *)
Definition select_origins (s : SqlStore) : list ID :=
  remove_dups (List.filter usable (omap groupOfOrigin (sort_by (fun o : Origin => [o])
    (remove_dups (List.filter (fun o => has_prefix (to_lower o) groupOriginPrefix)
      (map snd (elements (authz_binding_origin s)))))))).

Definition sqlitePragmas : string := "_pragma=busy_timeout(10000)&_pragma=journal_mode(WAL)".
Definition withPragmas (dsn : string) : string :=
  dsn +:+ (if contains_any dsn "?" then "&" else "?") +:+ sqlitePragmas.

(** [sql.Open] answers with the tables of that name, empty where there are
    none; the schema statement creates what is missing. *)
Definition OpenSQLStore (open : string -> go SqlStore) (create_schema : SqlStore -> go unit) (dsn : string) : go SqlStore :=
  if String.eqb dsn "" then Fail (Errorf0 "OpenSQLStore requires a dsn")
  else
    s ← wrap_err (Errorf1 "open") (open (withPragmas dsn));
    _ ← wrap_err (Errorf1 "create schema") (create_schema s);
    Ret s.

(** ** The adapter *)

Section Sql.
Context {DB : Type}.
Local Abbreviation MS := (M (HierApp SqlStore DB)).
Context (driver : HierApp SqlStore DB -> string -> go unit).

Definition query {A} (what : string) (f : SqlStore -> A) : MS A := fun w =>
  (wrap_err (Errorf1 what) (_ ← driver (w_store w) what; Ret (f (ha_store (w_store w)))), w).
Definition exec (what : string) (f : SqlStore -> SqlStore) : MS unit := fun w =>
  match driver (w_store w) what with
  | Ret _ => (Ret tt, World (MkApp (f (ha_store (w_store w))) (ha_db (w_store w))) (w_trace w))
  | Fail e => (Fail (Errorf1 what e), w)
  | Panic why => (Panic why, w)
  end.

Definition sql_GrantFrom (b : Binding) (o : Origin) : MS unit :=
  lift (gate (b_Tenant b) (b_Subject b));;
  exec "insert binding" (insert_binding (params (keyOf b)));;
  exec "insert origin" (insert_origin (params (keyOf b)) o).
Definition sql_RevokeFrom (k : BindingKey) (o : Origin) : MS unit :=
  lift (gate (bk_Scope k) (bk_Subject k));;
  exec "delete origin" (delete_origin (params k) o);;
  exec "delete binding" (delete_binding (params k)).
Definition sql_BindingsFor (scope : ID) (sub : Subject) (res : Resource) : MS (list Binding) :=
  lift (gate scope sub);; query "query bindings" (select_for scope sub res).
Definition sql_BindingsForSubject (scope : ID) (sub : Subject) (ty : string) : MS (list Binding) :=
  lift (gate scope sub);; query "query bindings" (select_subject scope sub ty).
Definition sql_BindingsOnResource (scope : ID) (res : Resource) : MS (list Binding) :=
  lift (scopeGate scope);; query "query bindings" (select_resource scope res).
Definition sql_BindingsFrom (scope : ID) (o : Origin) : MS (list Binding) :=
  lift (scopeGate scope);; query "query bindings" (select_from scope o).

Definition sqlTx : Tx (HierApp SqlStore DB) := {|
  tx_GrantFrom := sql_GrantFrom;
  tx_RevokeFrom := sql_RevokeFrom;
  tx_BindingsFor := sql_BindingsFor;
  tx_BindingsForSubject := sql_BindingsForSubject;
  tx_BindingsOnResource := sql_BindingsOnResource;
  tx_BindingsFrom := sql_BindingsFrom
|}.

(** The tables of before, whatever else happened. *)
Definition rolled_back (w w' : world (HierApp SqlStore DB)) : world (HierApp SqlStore DB) :=
  World (MkApp (ha_store (w_store w)) (ha_db (w_store w'))) (w_trace w').
Definition sql_Apply (fn : Tx (HierApp SqlStore DB) -> MS unit) : MS unit := fun w =>
  match driver (w_store w) "begin" with
  | Ret _ =>
      match fn sqlTx w with
      | (Ret tt, w') =>
          match driver (w_store w') "commit" with
          | Ret _ => (Ret tt, w')
          | Fail e => (Fail (Errorf1 "commit" e), rolled_back w w')
          | Panic why => (Panic why, rolled_back w w')
          end
      | (r, w') => (r, rolled_back w w')
      end
  | Fail e => (Fail (Errorf1 "begin" e), w)
  | Panic why => (Panic why, w)
  end.

Definition SQLStore_GrantFrom (b : Binding) (o : Origin) : MS unit :=
  lift (gate (b_Tenant b) (b_Subject b));; sql_Apply (fun tx => tx_GrantFrom tx b o).
Definition SQLStore_RevokeFrom (k : BindingKey) (o : Origin) : MS unit :=
  lift (gate (bk_Scope k) (bk_Subject k));; sql_Apply (fun tx => tx_RevokeFrom tx k o).
Definition SQLStore_IntentGroups : MS (list ID) := query "query groups" select_intents.
Definition SQLStore_GroupOrigins : MS (list ID) := query "query origins" select_origins.
Definition SQLStore_IntentGroupsForSubject (ty u : string) : MS (list ID) :=
  if String.eqb u "" then mret [] else query "query groups" (select_intents_of ty u).

Definition SQLStore : BindingSource (HierApp SqlStore DB) := {|
  src_GrantFrom := SQLStore_GrantFrom;
  src_RevokeFrom := SQLStore_RevokeFrom;
  src_Apply := sql_Apply;
  src_BindingsFrom := sql_BindingsFrom;
  src_IntentGroups := SQLStore_IntentGroups;
  src_GroupOrigins := SQLStore_GroupOrigins;
  src_IntentGroupsForSubject := SQLStore_IntentGroupsForSubject
|}.

(** What the rank engine reads, in one state of the store. *)
Definition answered {A} (op : MS A) (a : HierApp SqlStore DB) : go A := (op (World a [])).1.
Definition sql_bindings (a : HierApp SqlStore DB) : BindingStore := {|
  Authz.BindingsFor scope sub res := answered (sql_BindingsFor scope sub res) a;
  Authz.BindingsForSubject scope sub ty := answered (sql_BindingsForSubject scope sub ty) a;
  Authz.BindingsOnResource scope res := answered (sql_BindingsOnResource scope res) a
|}.
End Sql.

(** ** It fulfils the contract *)

Section SqlLaws.
Context {DB : Type}.
Context (driver : HierApp SqlStore DB -> string -> go unit).
Implicit Types (s : SqlStore) (w : world (HierApp SqlStore DB)) (r : SqlRow) (k : BindingKey).

Definition row_key r : BindingKey := keyOf (scan_row r).
Definition sql_pairs s : Justified := set_map (fun ro : SqlRow * Origin => (row_key ro.1, ro.2)) (authz_binding_origin s).
(** A row is there as long as something justifies it. *)
Definition sql_ok s : Prop := forall r, r ∈ authz_binding s <-> exists o, (r, o) ∈ authz_binding_origin s.
#[export] Instance sql_view : View (HierApp SqlStore DB) := {
  view a := sql_pairs (ha_store a);
  ok a := sql_ok (ha_store a)
}.

Lemma FromStored_Valid i : Valid i = true -> FromStored (ID_String i) = i.
Proof.
  unfold Valid, FromStored. destruct i as [v set]; cbn. intros ->. by destruct (String.eqb_spec v "") as [->|Hv];
    [|unfold New; rewrite (proj2 (String.eqb_neq _ _) Hv)].
Qed.
Lemma Valid_String i j : Valid i = true -> Valid j = true -> ID_String i = ID_String j <-> i = j.
Proof. intros Hi Hj. split; [|by intros ->]. intros H. by rewrite <- (FromStored_Valid i Hi), H, FromStored_Valid. Qed.

(** *** Rows and keys *)

Lemma params_row_key r : params (row_key r) = r.
Proof. destruct r. unfold params, row_key. cbn. by rewrite !FromStored_String. Qed.
Lemma row_key_params k : valid_key k -> row_key (params k) = k.
Proof.
  intros [Hs Ht]. unfold row_key, params, scan_row, keyOf. cbn. rewrite !FromStored_Valid by done. by destruct k as [? [] [] ?].
Qed.
Lemma row_key_valid r : valid_key (row_key r).
Proof. split; apply FromStored_valid. Qed.
Lemma elem_of_sql_pairs s k o : (k, o) ∈ sql_pairs s <-> valid_key k /\ (params k, o) ∈ authz_binding_origin s.
Proof.
  unfold sql_pairs. rewrite elem_of_map. split.
  - intros ([r o'] & [= -> ->] & Hr). split; [apply row_key_valid|]. by rewrite params_row_key.
  - intros [Hv Ho]. exists (params k, o). split; [|done]. cbn. by rewrite row_key_params.
Qed.
Lemma row_justified s r o : (row_key r, o) ∈ sql_pairs s <-> (r, o) ∈ authz_binding_origin s.
Proof. rewrite elem_of_sql_pairs, params_row_key. split; [by intros [_ ?]|]. intros ?. split; [apply row_key_valid|done]. Qed.

(** *** Queries *)

Lemma elem_of_select s where_ order b : sql_ok s -> b ∈ select s where_ order <->
  exists r, b = scan_row r /\ where_ r = true /\ exists o, (keyOf b, o) ∈ sql_pairs s.
Proof.
  intros Hok. unfold select. rewrite list_elem_of_fmap. setoid_rewrite elem_of_sort_by. split.
  - intros (r & -> & Hr). apply list_elem_of_In, filter_In in Hr as [Hr Hw]. apply list_elem_of_In, elem_of_elements, Hok in Hr as [o Ho].
    exists r. split_and!; [done..|]. exists o. by apply row_justified.
  - intros (r & -> & Hw & o & Ho). exists r. split; [done|]. apply list_elem_of_In, filter_In. split; [|done].
    apply list_elem_of_In, elem_of_elements, Hok. exists o. by apply row_justified.
Qed.

Lemma gate_then {A} (m : M (HierApp SqlStore DB) A) g w (r : go A) w' : (lift g ≫= fun _ : unit => m) w = (r, w') ->
  (g = Ret tt /\ m w = (r, w')) \/ (is_ret r = false /\ w' = w).
Proof. unfold mbind, M_bind, lift. destruct g as [[]|e|why]; [by left|by intros [= <- <-]; right..]. Qed.
Lemma reads_query {A} what (f : SqlStore -> A) (P : Justified -> A -> Prop) :
  (forall s, sql_ok s -> P (sql_pairs s) (f s)) -> reads (query driver what f) P.
Proof.
  intros Hf w r w' Hok. unfold query. intros [= <- <-]. split_and!; [done..|]. intros a Ha%wrap_err_Ret_inv.
  apply go_bind_Ret_inv in Ha as ([] & _ & [= <-]). by apply Hf.
Qed.
Lemma reads_gated {A} g (m : M (HierApp SqlStore DB) A) (P : Justified -> A -> Prop) :
  (g = Ret tt -> reads m P) -> reads (lift g ≫= fun _ : unit => m) P.
Proof.
  intros Hm w r w' Hok [[Hg Hrun]|[Hr ->]]%gate_then; [by apply (Hm Hg w)|]. split_and!; [done..|]. by intros a ->.
Qed.

(** A condition on the columns of a row is one on its key. *)
Lemma scope_is r scope : Valid scope = true -> String.eqb (tenant_scope r) (ID_String scope) = true <-> bk_Scope (row_key r) = scope.
Proof.
  intros Hv. rewrite String.eqb_eq. cbn. split; [intros ->; by apply FromStored_Valid|]. intros <-. by rewrite FromStored_String.
Qed.
Lemma subject_is_key r sub : Valid (sub_Tenant sub) = true -> subject_is sub r = true <-> bk_Subject (row_key r) = sub.
Proof.
  intros Hv. unfold subject_is. rewrite !andb_true_iff, !String.eqb_eq. cbn. split.
  - intros [[-> ->] ->]. rewrite FromStored_Valid by done. by destruct sub.
  - intros <-. cbn. by rewrite FromStored_String.
Qed.
Lemma resource_is r res : String.eqb (resource_type r) (res_Type res) && String.eqb (resource_id r) (res_ID res) = true <->
  bk_Res (row_key r) = res.
Proof. rewrite andb_true_iff, !String.eqb_eq. cbn. split; [intros [-> ->]; by destruct res|by intros <-]. Qed.
Lemma carries_key s o r : carries s o r = true <-> (row_key r, o) ∈ sql_pairs s.
Proof. unfold carries. by rewrite bool_decide_eq_true, row_justified. Qed.

Lemma scan_row_params b : valid_key (keyOf b) -> b = scan_row (params (keyOf b)).
Proof. intros Hv. apply (inj keyOf). symmetry. by apply row_key_params. Qed.
Lemma select_lists s where_ order (P : BindingKey -> Prop) : sql_ok s -> (forall r, where_ r = true <-> P (row_key r)) ->
  lists (sql_pairs s) P (select s where_ order).
Proof.
  intros Hok Hw b. rewrite elem_of_select by done. split.
  - intros (r & -> & Hr%Hw & Ho). done.
  - intros [HP [o Ho]]. pose proof Ho as [Hv _]%elem_of_sql_pairs. exists (params (keyOf b)). split; [by apply scan_row_params|].
    split; [|by exists o]. apply Hw. by rewrite row_key_params.
Qed.
Lemma select_from_lists s scope o : sql_ok s -> Valid scope = true -> lists_from (sql_pairs s) scope o (select_from scope o s).
Proof.
  intros Hok Hv b. unfold select_from.
  assert (lists (sql_pairs s) (fun k => bk_Scope k = scope /\ (k, o) ∈ sql_pairs s)
    (select s (fun r => String.eqb (tenant_scope r) (ID_String scope) && carries s o r) by_subject)) as Hl.
  { apply select_lists; [done|]. intros r. by rewrite andb_true_iff, scope_is, carries_key. }
  rewrite (Hl b). cbn. split; [tauto|]. intros [Hs Ho]. split; [done|]. by exists o.
Qed.

(** *** Writes *)

Lemma exec_Ret what f w a w' : exec driver what f w = (Ret a, w') ->
  w' = World (MkApp (f (ha_store (w_store w))) (ha_db (w_store w))) (w_trace w).
Proof. unfold exec. destruct (driver _ _); [by intros [= _ <-]|done..]. Qed.
Lemma any_origin_spec s r : any_origin s r = true <-> exists o, (r, o) ∈ authz_binding_origin s.
Proof.
  unfold any_origin. rewrite existsb_exists. setoid_rewrite <- list_elem_of_In. setoid_rewrite elem_of_elements. split.
  - intros ([r' o] & Hr & He). apply bool_decide_eq_true in He. cbn in He. subst r'. by exists o.
  - intros [o Ho]. exists (r, o). split; [done|]. by apply bool_decide_true.
Qed.

Lemma insert_ok s r o : sql_ok s -> sql_ok (insert_origin r o (insert_binding r s)) /\
  sql_pairs (insert_origin r o (insert_binding r s)) = {[(row_key r, o)]} ∪ sql_pairs s.
Proof.
  intros Hok. split.
  - intros r'. cbn. rewrite elem_of_union, elem_of_singleton, (Hok r'). setoid_rewrite elem_of_union. setoid_rewrite elem_of_singleton.
    split; [intros [->|[o' ?]]; eauto|]. intros (o' & [Heq|?]); [|by eauto]. left. congruence.
  - unfold sql_pairs. cbn. rewrite set_map_union_L, set_map_singleton_L. done.
Qed.
Lemma delete_ok s r o : sql_ok s -> sql_ok (delete_binding r (delete_origin r o s)) /\
  sql_pairs (delete_binding r (delete_origin r o s)) = sql_pairs s ∖ {[(row_key r, o)]}.
Proof.
  intros Hok. split.
  - intros r'. unfold delete_binding. cbn [authz_binding authz_binding_origin delete_origin].
    destruct (any_origin _ r) eqn:Ha.
    + apply any_origin_spec in Ha as [o1 Ho1]. cbn in Ho1. rewrite (Hok r'). cbn. split; [|intros [o' ?]; exists o'; set_solver].
      intros [o' Ho']. destruct (decide (r' = r)) as [->|Hne]; [by exists o1|]. exists o'. set_solver.
    + assert (forall o', (r, o') ∉ authz_binding_origin s ∖ {[(r, o)]}) as Hn.
      { intros o' Ho'. assert (any_origin (delete_origin r o s) r = true) by (apply any_origin_spec; by exists o'). congruence. }
      cbn. rewrite elem_of_difference, elem_of_singleton, (Hok r'). split.
      * intros [[o' Ho'] Hne]. exists o'. set_solver.
      * intros [o' Ho']. split; [exists o'; set_solver|]. intros ->. by apply (Hn o').
  - apply set_eq. intros [k o']. rewrite elem_of_difference, elem_of_singleton, !elem_of_sql_pairs. unfold delete_binding. cbn.
    rewrite elem_of_difference, elem_of_singleton. split.
    + intros (Hv & Ho & Hn). split; [done|]. intros [= -> ->]. apply Hn. by rewrite params_row_key.
    + intros [[Hv Ho] Hn]. split_and!; [done..|]. intros [= <- ->]. apply Hn. by rewrite row_key_params.
Qed.

Lemma hier_scopeGate_Ret scope : scopeGate scope = Ret tt <-> Valid scope = true.
Proof. unfold scopeGate. by destruct (Valid scope). Qed.

#[export] Instance sqlTx_laws : TxLaws (sqlTx driver).
Proof.
  split; cbn.
  - intros b o w [] w' Hok [[Hg Hrun]|[? _]]%gate_then; [|done]. apply hier_gate_Ret in Hg. unfold mbind, M_bind in Hrun.
    destruct (exec driver "insert binding" _ w) as [[[]|e|why] w1] eqn:H1; [|done..]. apply exec_Ret in H1 as ->.
    apply exec_Ret in Hrun as ->. cbn. destruct (insert_ok (ha_store (w_store w)) (params (keyOf b)) o Hok) as [Hok' Hp].
    split; [exact Hok'|]. split; [exact Hg|]. etrans; [exact Hp|]. by rewrite row_key_params.
  - intros k o w [] w' Hok [[Hg Hrun]|[? _]]%gate_then; [|done]. apply hier_gate_Ret in Hg. unfold mbind, M_bind in Hrun.
    destruct (exec driver "delete origin" _ w) as [[[]|e|why] w1] eqn:H1; [|done..]. apply exec_Ret in H1 as ->.
    apply exec_Ret in Hrun as ->. cbn. destruct (delete_ok (ha_store (w_store w)) (params k) o Hok) as [Hok' Hp].
    split; [exact Hok'|]. etrans; [exact Hp|]. by rewrite row_key_params.
  - intros scope o. apply reads_gated. intros Hv%hier_scopeGate_Ret. apply reads_query. intros s Hok. by apply select_from_lists.
  - intros scope res. apply reads_gated. intros Hv%hier_scopeGate_Ret. apply reads_query. intros s Hok.
    apply select_lists; [done|]. intros r. by rewrite <- andb_assoc, andb_true_iff, scope_is, resource_is.
  - intros scope sub ty. apply reads_gated. intros [Hv Ht]%hier_gate_Ret. apply reads_query. intros s Hok.
    apply select_lists; [done|]. intros r. rewrite !andb_true_iff, scope_is, subject_is_key, negb_true_iff, String.eqb_eq, String.eqb_neq by done.
    cbn. tauto.
Qed.

Lemma elem_of_select_scopes where_ s g : sql_ok s -> g ∈ select_scopes where_ s <->
  usable g = true /\ exists r o, (r, o) ∈ authz_binding_origin s /\ where_ r = true /\ bk_Scope (row_key r) = g.
Proof.
  intros Hok. unfold select_scopes. rewrite list_elem_of_In, filter_In, <- list_elem_of_In, list_elem_of_fmap.
  setoid_rewrite elem_of_sort_by. setoid_rewrite elem_of_remove_dups. setoid_rewrite list_elem_of_fmap. split.
  - intros [(t & -> & r & -> & Hr) Hu]. apply list_elem_of_In, filter_In in Hr as [Hr Hw].
    apply list_elem_of_In, elem_of_elements, Hok in Hr as [o Ho]. split; [done|]. by exists r, o.
  - intros [Hu (r & o & Ho & Hw & <-)]. split; [|done]. exists (tenant_scope r). split; [done|]. exists r. split; [done|].
    apply list_elem_of_In, filter_In. split; [|done]. apply list_elem_of_In, elem_of_elements, Hok. by exists o.
Qed.
Lemma intent_row_key s r : intent_row s r = true <-> intent_key (sql_pairs s) (bk_Scope (row_key r)) (row_key r) /\ group_row (row_key r).
Proof.
  unfold intent_row, intent_key, group_row. rewrite andb_true_iff, String.eqb_eq, carries_key. unfold GroupOrigin. cbn.
  rewrite FromStored_String. tauto.
Qed.
(** The groups of the intent rows that satisfy a condition. *)
Lemma select_intents_where where_ (P : BindingKey -> Prop) s g : sql_ok s -> usable g = true ->
  (forall r, where_ r = true <-> intent_row s r = true /\ P (row_key r)) ->
  g ∈ select_scopes where_ s <-> exists k, intent_key (sql_pairs s) g k /\ group_row k /\ P k.
Proof.
  intros Hok Hu Hw. rewrite elem_of_select_scopes by done. split.
  - intros [_ (r & o & Ho & [[Hi Hg]%intent_row_key HP]%Hw & <-)]. by exists (row_key r).
  - intros (k & [Hs Hi] & Hg & HP). split; [done|]. pose proof Hi as [Hv Ho]%elem_of_sql_pairs.
    exists (params k), (GroupOrigin g). rewrite row_key_params by done. split_and!; [done| |done]. apply Hw.
    rewrite intent_row_key, row_key_params by done. subst g. done.
Qed.
Lemma origins_spec s g : g ∈ select_origins s <-> usable g = true /\ exists k, (k, GroupOrigin g) ∈ sql_pairs s.
Proof.
  unfold select_origins. rewrite elem_of_remove_dups, list_elem_of_In, filter_In, <- list_elem_of_In, list_elem_of_omap.
  setoid_rewrite elem_of_sort_by. setoid_rewrite elem_of_remove_dups.
  assert (forall o, o ∈ List.filter (fun o => has_prefix (to_lower o) groupOriginPrefix) (map snd (elements (authz_binding_origin s)))
    <-> has_prefix (to_lower o) groupOriginPrefix = true /\ exists k, (k, o) ∈ sql_pairs s) as Hall.
  { intros o. rewrite list_elem_of_In, filter_In, <- list_elem_of_In, list_elem_of_fmap. split.
    - intros [([r o'] & -> & Hr%elem_of_elements) Hp]. split; [done|]. exists (row_key r). by apply row_justified.
    - intros [Hp [k [Hv Ho]%elem_of_sql_pairs]]. split; [|done]. exists (params k, o). split; [done|]. by apply elem_of_elements. }
  setoid_rewrite Hall. split.
  - intros [(o & [_ Hk] & Ho) Hu]. split; [done|]. by apply groupOfOrigin_usable in Ho as ->.
  - intros [Hu Hk]. split; [|done]. exists (GroupOrigin g). split; [|by apply groupOfOrigin_usable]. split; [|done].
    apply has_prefix_spec. exists (to_lower (ID_String g)). reflexivity.
Qed.

#[export] Instance SQLStore_laws : SourceLaws (SQLStore driver).
Proof.
  split; cbn.
  - intros fn P Hfn w r w' Hok. unfold sql_Apply. destruct (driver (w_store w) "begin"); [|by intros [= <- <-]; split_and!..].
    destruct (fn (sqlTx driver) w) as [r1 w1] eqn:H. destruct r1 as [[]|e|why]; [|by intros [= <- <-]; split_and!..].
    destruct (driver (w_store w1) "commit"); intros [= <- <-]; [|by split_and!..].
    destruct (Hfn _ sqlTx_laws w tt w1 Hok H) as [Hok1 HP]. by split_and!.
  - intros scope o. apply (tx_from (TxLaws := sqlTx_laws)).
  - apply reads_query. intros s Hok g Hu. unfold select_intents.
    rewrite (select_intents_where _ (fun _ => True) s g Hok Hu) by (intros r; tauto). naive_solver.
  - apply reads_query. intros s Hok g. apply origins_spec.
  - intros ty u. unfold SQLStore_IntentGroupsForSubject. destruct (String.eqb_spec u "") as [->|Hne]; [by apply reads_mret|].
    apply reads_query. intros s Hok _. split.
    + intros g [Hu _]%elem_of_select_scopes; [|done]. unfold usable in Hu. by apply andb_prop in Hu as [? _].
    + intros g Hu. apply select_intents_where; [done..|]. intros r. rewrite !andb_true_iff, !String.eqb_eq. cbn. tauto.
Qed.
#[export] Instance sql_view_laws : ViewLaws (S := HierApp SqlStore DB).
Proof. split. by intros w k o Hok [Hv _]%elem_of_sql_pairs. Qed.

(** *** What the rank engine reads *)

Definition sql_table s : list Binding := map scan_row (elements (authz_binding s)).
Lemma elem_of_sql_table s b : sql_ok s -> b ∈ sql_table s <-> exists o, (keyOf b, o) ∈ sql_pairs s.
Proof.
  intros Hok. assert (forall r, r ∈ elements (authz_binding s) <-> exists o, (row_key r, o) ∈ sql_pairs s) as Hr.
  { intros r. rewrite elem_of_elements, (Hok r). by setoid_rewrite row_justified. }
  unfold sql_table. rewrite list_elem_of_fmap. split; [by intros (r & -> & ?%Hr)|].
  intros [o Ho]. pose proof Ho as [Hv _]%elem_of_sql_pairs. exists (params (keyOf b)). split; [by apply scan_row_params|].
  apply Hr. rewrite row_key_params by done. by exists o.
Qed.
(** The database answers. *)
Definition up : Prop := forall a what, driver a what = Ret tt.
Lemma answered_query {A} g what (f : SqlStore -> A) a : up -> g = Ret tt ->
  answered (lift g ≫= fun _ : unit => query driver what f) a = Ret (f (ha_store a)).
Proof. intros Hup ->. unfold answered, mbind, M_bind, lift, query. cbn. by rewrite Hup. Qed.
#[export] Instance sql_represents (a : HierApp SqlStore DB) : up -> sql_ok (ha_store a) ->
  Represents (sql_table (ha_store a)) (sql_bindings driver a).
Proof.
  intros Hup Hok. split; cbn.
  - intros t sub res Hg. eexists. split; [by apply answered_query|]. intros b.
    assert (lists (sql_pairs (ha_store a)) (fun k => bk_Scope k = t /\ bk_Subject k = sub /\ bk_Res k = res)
      (select_for t sub res (ha_store a))) as Hl.
    { apply select_lists; [done|]. apply hier_gate_Ret in Hg as [Hv Ht]. intros r.
      rewrite <- andb_assoc, andb_true_iff, resource_is, andb_true_iff, scope_is, subject_is_key by done. tauto. }
    rewrite (Hl b), elem_of_sql_table by done. cbn. tauto.
  - intros t sub ty Hg. eexists. split; [by apply answered_query|]. intros b.
    assert (lists (sql_pairs (ha_store a)) (fun k => bk_Scope k = t /\ bk_Subject k = sub /\ res_Type (bk_Res k) = ty /\
      res_ID (bk_Res k) <> "") (select_subject t sub ty (ha_store a))) as Hl.
    { apply select_lists; [done|]. apply hier_gate_Ret in Hg as [Hv Ht]. intros r.
      rewrite !andb_true_iff, scope_is, subject_is_key, negb_true_iff, String.eqb_eq, String.eqb_neq by done. cbn. tauto. }
    rewrite (Hl b), elem_of_sql_table by done. cbn. tauto.
  - intros t res Hg. eexists. split; [by apply answered_query|]. intros b.
    assert (lists (sql_pairs (ha_store a)) (fun k => bk_Scope k = t /\ bk_Res k = res) (select_resource t res (ha_store a))) as Hl.
    { apply select_lists; [done|]. apply hier_scopeGate_Ret in Hg. intros r.
      by rewrite <- andb_assoc, andb_true_iff, scope_is, resource_is. }
    rewrite (Hl b), elem_of_sql_table by done. cbn. tauto.
  - intros b [o Ho]%elem_of_sql_table; [|done]. apply elem_of_sql_pairs in Ho as [[_ Ht] _]. exact Ht.
Qed.
End SqlLaws.

(** ** The two stores, side by side *)

Inductive cmd := CGrant (b : Binding) (o : Origin) | CRevoke (k : BindingKey) (o : Origin).
Definition issue {S} (src : BindingSource S) (c : cmd) : M S unit :=
  match c with CGrant b o => src_GrantFrom src b o | CRevoke k o => src_RevokeFrom src k o end.
(** Which commands returned nil, and the state after them all. *)
Fixpoint issue_all {S} (src : BindingSource S) (cs : list cmd) (w : world S) : list bool * world S :=
  match cs with
  | [] => ([], w)
  | c :: cs => let '(r, w1) := issue src c w in let '(rs, w2) := issue_all src cs w1 in (is_ret r :: rs, w2)
  end.

Section SideBySide.
Context {DB DB' : Type}.
Context (driver : HierApp SqlStore DB -> string -> go unit).
Implicit Types (wm : world (HierApp HierStore DB')) (ws : world (HierApp SqlStore DB)) (c : cmd).

Definition same_rows wm ws : Prop := hier_ok (ha_store (w_store wm)) /\ sql_ok (ha_store (w_store ws)) /\
  pairs (ha_store (w_store wm)) = sql_pairs (ha_store (w_store ws)).

Definition cmd_gate c : go unit :=
  match c with CGrant b _ => gate (b_Tenant b) (b_Subject b) | CRevoke k _ => gate (bk_Scope k) (bk_Subject k) end.
Definition cmd_effect c (v : Justified) : Justified :=
  match c with CGrant b o => {[(keyOf b, o)]} ∪ v | CRevoke k o => v ∖ {[(k, o)]} end.
Lemma mem_issue c wm : hier_ok (ha_store (w_store wm)) -> forall r wm', issue mem_source c wm = (r, wm') ->
  hier_ok (ha_store (w_store wm')) /\ is_ret r = is_ret (cmd_gate c) /\
  pairs (ha_store (w_store wm')) = if is_ret (cmd_gate c) then cmd_effect c (pairs (ha_store (w_store wm)))
    else pairs (ha_store (w_store wm)).
Proof.
  intros Hok r wm'. destruct c as [b o|k o]; cbn; unfold on_store.
  - destruct (put b o (ha_store (w_store wm))) as [r1 s1] eqn:Hp. intros [= <- <-]. cbn.
    destruct (put_run b o _ _ _ Hok Hp) as (Hok' & Hr & Hf). unfold put in Hp.
    destruct (gate (b_Tenant b) (b_Subject b)) as [[]|e|why]; injection Hp as <- <-; split_and!; try done. by apply Hr.
  - destruct (drop k o (ha_store (w_store wm))) as [r1 s1] eqn:Hp. intros [= <- <-]. cbn.
    destruct (drop_run k o _ _ _ Hok Hp) as (Hok' & Hr & Hf). unfold drop in Hp.
    destruct (gate (bk_Scope k) (bk_Subject k)) as [[]|e|why]; [|injection Hp as <- <-; by split_and!..].
    destruct (hs_origins _ !! k); [case_decide|]; injection Hp as <- <-; split_and!; try done; by apply Hr.
Qed.
Lemma exec_up what f ws : up driver -> exec driver what f ws =
  (Ret tt, World (MkApp (f (ha_store (w_store ws))) (ha_db (w_store ws))) (w_trace ws)).
Proof. intros Hup. unfold exec. by rewrite Hup. Qed.
Lemma sql_issue c ws : up driver -> sql_ok (ha_store (w_store ws)) -> forall r ws', issue (SQLStore driver) c ws = (r, ws') ->
  sql_ok (ha_store (w_store ws')) /\ is_ret r = is_ret (cmd_gate c) /\
  sql_pairs (ha_store (w_store ws')) = if is_ret (cmd_gate c) then cmd_effect c (sql_pairs (ha_store (w_store ws)))
    else sql_pairs (ha_store (w_store ws)).
Proof.
  intros Hup Hok r ws'. destruct c as [b o|k o]; cbn; unfold SQLStore_GrantFrom, SQLStore_RevokeFrom, sql_Apply; cbn;
    unfold sql_GrantFrom, sql_RevokeFrom.
  - destruct (gate (b_Tenant b) (b_Subject b)) as [[]|e|why] eqn:Hg; unfold mbind, M_bind, lift; [|by intros [= <- <-]..].
    rewrite !Hup, !exec_up, Hup by done. intros [= <- <-]. cbn.
    destruct (insert_ok (ha_store (w_store ws)) (params (keyOf b)) o Hok) as [Hok' Hp]. split_and!; [exact Hok'|done|].
    etrans; [exact Hp|]. apply hier_gate_Ret in Hg. by rewrite row_key_params.
  - destruct (gate (bk_Scope k) (bk_Subject k)) as [[]|e|why] eqn:Hg; unfold mbind, M_bind, lift; [|by intros [= <- <-]..].
    rewrite !Hup, !exec_up, Hup by done. intros [= <- <-]. cbn.
    destruct (delete_ok (ha_store (w_store ws)) (params k) o Hok) as [Hok' Hp]. split_and!; [exact Hok'|done|].
    etrans; [exact Hp|]. apply hier_gate_Ret in Hg. by rewrite row_key_params.
Qed.

Lemma issue_all_same cs : up driver -> forall wm ws, same_rows wm ws ->
  (issue_all mem_source cs wm).1 = (issue_all (SQLStore driver) cs ws).1 /\
  same_rows (issue_all mem_source cs wm).2 (issue_all (SQLStore driver) cs ws).2.
Proof.
  intros Hup. induction cs as [|c cs IH]; intros wm ws (Hm & Hs & Hp); cbn [issue_all]; [by split_and!|].
  destruct (issue mem_source c wm) as [rm wm1] eqn:H1. destruct (issue (SQLStore driver) c ws) as [rs ws1] eqn:H2.
  destruct (mem_issue c wm Hm rm wm1 H1) as (Hm1 & Hrm & Hpm). destruct (sql_issue c ws Hup Hs rs ws1 H2) as (Hs1 & Hrs & Hps).
  destruct (IH wm1 ws1) as [Hr Hw]; [split_and!; [done..|]; rewrite Hpm, Hps, Hp; done|].
  destruct (issue_all mem_source cs wm1) as [bm wm2]. destruct (issue_all (SQLStore driver) cs ws1) as [bs ws2].
  cbn in *. split; [congruence|done].
Qed.

Lemma same_decisions wm ws h p t sub act res : up driver -> same_rows wm ws -> policy_ok h p ->
  (exists d, RBAC_Check (MkRBAC (hier_store (ha_store (w_store wm))) h p) t sub act res = Ret d /\ Allowed d = true) <->
  (exists d, RBAC_Check (MkRBAC (sql_bindings driver (w_store ws)) h p) t sub act res = Ret d /\ Allowed d = true).
Proof.
  intros Hup (Hm & Hs & Hp) Hpol. destruct (Authz.gate t sub) as [[]|e|why] eqn:Hg.
  - pose proof (hier_represents _ Hm) as Rm. pose proof (sql_represents driver _ Hup Hs) as Rs.
    destruct (RBAC_Check_table (MkRBAC (hier_store _) h p) _ t sub act res Hpol Hg (Represents0 := Rm)) as (dm & Hdm & Him).
    destruct (RBAC_Check_table (MkRBAC (sql_bindings driver _) h p) _ t sub act res Hpol Hg (Represents0 := Rs)) as (ds & Hds & His).
    assert (granted h p (table (ha_store (w_store wm))) t sub act res <-> granted h p (sql_table (ha_store (w_store ws))) t sub act res) as Hgr.
    { unfold granted. by setoid_rewrite (elem_of_table _ _ Hm); setoid_rewrite (elem_of_sql_table _ _ Hs); rewrite Hp. }
    cbn in *. rewrite Hdm, Hds. split; intros (d & [= <-] & Ha); eexists; (split; [done|]); tauto.
  - unfold RBAC_Check. rewrite Hg. by split; intros (d & ? & _).
  - unfold RBAC_Check. rewrite Hg. by split; intros (d & ? & _).
Qed.

(** C32: The SQL adapter and the store in memory are the same store: from states
    with the same rows, as long as the database answers, the same grants and
    revokes succeed, the origins of every row end up the same, and the rank
    engine decides every question alike over both. *)
Theorem sql_refines_memory (cs : list cmd) wm ws : up driver -> same_rows wm ws ->
  (issue_all mem_source cs wm).1 = (issue_all (SQLStore driver) cs ws).1 /\
  same_rows (issue_all mem_source cs wm).2 (issue_all (SQLStore driver) cs ws).2 /\
  forall h p t sub act res, policy_ok h p ->
    (exists d, RBAC_Check (MkRBAC (hier_store (ha_store (w_store (issue_all mem_source cs wm).2))) h p) t sub act res = Ret d /\
      Allowed d = true) <->
    (exists d, RBAC_Check (MkRBAC (sql_bindings driver (w_store (issue_all (SQLStore driver) cs ws).2)) h p) t sub act res = Ret d /\
      Allowed d = true).
Proof.
  intros Hup Hsame. destruct (issue_all_same cs Hup wm ws Hsame) as [Hr Hw]. split; [done|]. split; [done|].
  intros h p t sub act res Hpol. by apply same_decisions.
Qed.
End SideBySide.

Module ToySql.
Definition driver : HierApp SqlStore unit -> string -> go unit := fun _ _ => Ret tt.
Definition wm : world (HierApp HierStore unit) := World (MkApp NewHierStore tt) [].
Definition ws : world (HierApp SqlStore unit) := World (MkApp (MkSql ∅ ∅) tt) [].
Definition ada : Subject := MkSubject (New "north") "user" "ada".
Definition row : Binding := MkBinding (New "shop") ada (MkResource ResourceOrganization "shop") "org_admin".
(** A direct grant outlives the revoke of the group's; a binding without a
    scope is refused. *)
Definition cmds : list cmd :=
  [CGrant row OriginDirect; CGrant row (GroupOrigin (New "north")); CRevoke (keyOf row) (GroupOrigin (New "north"));
   CGrant (MkBinding (MkID "" false) ada (MkResource ResourceOrganization "shop") "org_admin") OriginDirect].
Lemma start : same_rows wm ws.
Proof.
  split_and!; [apply hier_ok_new| |vm_compute; reflexivity].
  intros r. cbn. split; [intros Hr; by apply not_elem_of_empty in Hr|]. intros [o Ho]. by apply not_elem_of_empty in Ho.
Qed.
End ToySql.

Lemma sql_refines_memory_witness :
  (issue_all (SQLStore ToySql.driver) ToySql.cmds ToySql.ws).1 = [true; true; true; false] /\
  same_rows (issue_all mem_source ToySql.cmds ToySql.wm).2 (issue_all (SQLStore ToySql.driver) ToySql.cmds ToySql.ws).2.
Proof.
  destruct (sql_refines_memory ToySql.driver ToySql.cmds ToySql.wm ToySql.ws (fun _ _ => eq_refl) ToySql.start) as (Hr & Hw & _).
  split; [|exact Hw]. vm_compute. reflexivity.
Defined.
