(* ===== verification/HierHttp.v ===== *)
(** * The gates of a tenant hierarchy

    [src/examples/tenanthierarchy/http.go]: the organization routes, which a
    tenant-group administrator reaches with an entered token, and the platform
    routes. The last theorem composes the gate with what provisioning keeps. *)

From S2P Require Import Prelude Tenant Authz AuthzStore Bytes World Crypto Jwt AuditEvent Http WebAuth WebGates WebAccess HierStore HierProvision HierLaws.

#[local] Open Scope string_scope.
#[local] Open Scope list_scope.
#[local] Open Scope Z_scope.

Definition OrgParam : string := "org_id".
Definition RouteTenant : Resolver := fun r =>
  let org := New (r_PathValue r OrgParam) in if Valid org then Some org else None.

Record orgGateConfig := MkOrgGateConfig { subjectType : string }.
Definition WithOrgSubjectType (subjectType : string) (c : orgGateConfig) : orgGateConfig := MkOrgGateConfig subjectType.
Definition org_config (opts : list (orgGateConfig -> orgGateConfig)) : orgGateConfig :=
  fold_left (fun c opt => opt c) opts (MkOrgGateConfig "user").

Section Gates.
Context (fw : Framework) {S : Type} (lib : JWTLibrary) (E : Env) (j : JWTService) (ks : Keys).
Local Abbreviation Engine := (ID -> Subject -> Action -> Resource -> M S Decision).
Local Abbreviation DenyWriter := (M (Web S) unit).

Definition org_decision (engine : option Engine) (action visibility : Action) (notVisible denied : option DenyWriter)
    (cfg : orgGateConfig) : DecisionGate S := {|
  dg_Authorizer := engine; dg_Label := "organization role"; dg_Tenant := Some TenantFromRoutedContext;
  dg_AllowEntered := true; dg_AllowImpersonated := false; dg_SubjectType := subjectType cfg;
  dg_ResourceType := ResourceOrganization; dg_ResourceIDFrom := OrgParam; dg_Action := action;
  dg_VisibilityAction := visibility; dg_WriteNotVisible := notVisible; dg_WriteDenied := denied;
  dg_WriteProbeError := None; dg_UserExists := None; dg_WriteGhost := None
|}.
Definition OrgGate (engine : option Engine) (action visibility : Action) (notVisible denied : option DenyWriter)
    (opts : list (orgGateConfig -> orgGateConfig)) : go (Middleware S) :=
  let cfg := org_config opts in
  if String.eqb (subjectType cfg) "" then Panic "OrgGate requires a non-empty subject type"
  else
    gate ← RequireDecision fw (org_decision engine action visibility notVisible denied cfg);
    tenant ← RequireTenantAllowEntered fw (Some RouteTenant);
    Ret (compose (RequireAuth fw lib E j ks) (compose tenant gate)).

Definition platform_decision (engine : option Engine) (resolve : Resolver) (action : Action) (denied : option DenyWriter)
    (cfg : orgGateConfig) : DecisionGate S := {|
  dg_Authorizer := engine; dg_Label := "platform role"; dg_Tenant := Some resolve;
  dg_AllowEntered := false; dg_AllowImpersonated := false; dg_SubjectType := subjectType cfg;
  dg_ResourceType := ResourceSystem; dg_ResourceIDFrom := ""; dg_Action := action;
  dg_VisibilityAction := ""; dg_WriteNotVisible := None; dg_WriteDenied := denied;
  dg_WriteProbeError := None; dg_UserExists := None; dg_WriteGhost := None
|}.
Definition PlatformGate (engine : option Engine) (platform : ID) (action : Action) (denied : option DenyWriter)
    (opts : list (orgGateConfig -> orgGateConfig)) : go (Middleware S) :=
  let cfg := org_config opts in
  if String.eqb (subjectType cfg) "" then Panic "PlatformGate requires a non-empty subject type"
  else if negb (Valid platform) || IsSingle platform then Panic "PlatformGate requires a real platform tenant"
  else
    resolve ← FixedRequestTenant platform;
    gate ← RequireDecision fw (platform_decision engine resolve action denied cfg);
    Ret (compose (RequireAuth fw lib E j ks) gate).

(** ** Who gets through *)

Context (e : RBAC) (B : list Binding) (Hpolicy : policy_ok (rb_h e) (rb_p e)) {HB : Represents B (rb_store e)}.
Local Abbreviation engine := (Some (fun t sub act res => lift (RBAC_Check e t sub act res) : M S Decision)).
Implicit Types (r : Request) (w : world (Web S)).

(** The question an organization route asks of the binding table. *)
Definition org_grants ty r (c : AccessClaims) (org : ID) (act : Action) : Prop :=
  granted (rb_h e) (rb_p e) B org (MkSubject (home_of c org) ty (cl_Subject c)) act
    (MkResource ResourceOrganization (r_PathValue r OrgParam)).
Definition org_route r w c org w1 : Prop :=
  presents lib E j ks r w c w1 /\ RouteTenant r = Some org /\ invited true false c org.

Lemma org_gate_behind action visibility nv denied cfg gate r c org w1 :
  gate_configured (org_decision engine action visibility nv denied cfg) = true ->
  RequireDecision fw (org_decision engine action visibility nv denied cfg) = Ret gate ->
  cl_Subject c <> "" -> RouteTenant r = Some org -> invited true false c org -> forall next,
  gate next (pin org (authed r c)) w1 =
    tiers fw (org_decision engine action visibility nv denied cfg) e r c org next (pin org (pin org (authed r c))) w1.
Proof.
  intros Hconf Hgate Hsub Hroute Hinv next. unfold RequireDecision in Hgate. cbn [dg_Tenant org_decision] in Hgate.
  injection Hgate as <-.
  assert (GetUserID (r_ctx (pin org (authed r c))) = Some (cl_Subject c)) as -> by (cbn; by rewrite (proj2 (String.eqb_neq _ _) Hsub)).
  cbn [dg_Authorizer org_decision]. fold (org_decision engine action visibility nv denied cfg). rewrite Hconf.
  unfold RouteTenant in Hroute. destruct (Valid (New (r_PathValue r OrgParam))) eqn:Hv; [|done]. injection Hroute as <-.
  change (TenantFromRoutedContext (pin (New (r_PathValue r OrgParam)) (authed r c))) with (Some (New (r_PathValue r OrgParam))).
  change (AccessClaimsFromContext (r_ctx (pin (New (r_PathValue r OrgParam)) (authed r c)))) with (Some c).
  cbn [dg_AllowEntered dg_AllowImpersonated org_decision]. rewrite Hv, (proj2 (tokenFitsTenant_spec c _ true false) Hinv). cbn [negb orb].
  cbn [dg_ResourceIDFrom org_decision]. change (String.eqb OrgParam "") with false. cbn iota.
  change (r_PathValue (pin (New (r_PathValue r OrgParam)) (authed r c)) OrgParam)
    with (r_PathValue r OrgParam).
  destruct (String.eqb_spec (r_PathValue r OrgParam) "") as [He|He]; [rewrite He in Hv; discriminate Hv|].
  unfold tiers. f_equal. unfold EnteredFromContext, home_of. cbn. by destruct (Entered c).
Qed.

Section OrgRoute.
Context (action visibility : Action) (nv denied : option DenyWriter) (opts : list (orgGateConfig -> orgGateConfig)).
Local Abbreviation cfg := (org_config opts).
Local Abbreviation dg := (org_decision engine action visibility nv denied cfg).
Context (Hconf : gate_configured dg = true).
Context (mw : Middleware S) (Hmw : OrgGate engine action visibility nv denied opts = Ret mw).

Lemma org_gate_runs r w c org w1 : org_route r w c org w1 -> forall next,
  mw next r w = tiers fw dg e r c org next (pin org (pin org (authed r c))) w1.
Proof.
  intros (Hp & Hroute & Hinv) next. unfold OrgGate in Hmw. destruct (String.eqb _ ""); [done|].
  destruct (RequireDecision fw dg) as [gate|err|why] eqn:Hgate; [|done..].
  destruct (RequireTenantAllowEntered fw (Some RouteTenant)) as [tenant|err|why] eqn:Ht; [|done..]. injection Hmw as <-.
  destruct (auth_outcome fw lib E j ks r w) as [(c' & w1' & Hp' & Ha)|(Hno & _)]; [|by destruct (Hno c w1)].
  destruct (presents_det _ _ _ _ _ _ _ _ _ _ Hp Hp') as [<- <-].
  unfold compose. rewrite Ha.
  destruct (requireTenant_outcome fw RouteTenant true false tenant (authed r c) w c w1 Ht eq_refl)
    as [(org' & Hres & _ & _ & Hadm)|(Hno & _)].
  - assert (org' = org) as -> by (change (RouteTenant (authed r c)) with (RouteTenant r) in Hres; congruence).
    rewrite Hadm. apply (org_gate_behind action visibility nv denied cfg); try done.
    by apply presents_facts in Hp as (_ & (_ & ? & _) & _).
  - exfalso. apply (Hno org); [exact Hroute| |done]. unfold RouteTenant in Hroute. destruct (Valid _) eqn:Hv; [|done]. congruence.
Qed.
(** Any other request is refused. *)
Lemma org_gate_stops r w : (exists c org w1, org_route r w c org w1) \/ exists out, refuses mw r w out.
Proof.
  unfold OrgGate in Hmw. destruct (String.eqb _ ""); [done|].
  destruct (RequireDecision fw dg) as [gate|err|why] eqn:Hgate; [|done..].
  destruct (RequireTenantAllowEntered fw (Some RouteTenant)) as [tenant|err|why] eqn:Ht; [|done..]. injection Hmw as <-.
  destruct (auth_outcome fw lib E j ks r w) as [(c & w1 & Hp & Ha)|(_ & [(msg & w1 & Hr & _)|(why & w1 & Hr)])].
  - destruct (requireTenant_outcome fw RouteTenant true false tenant (authed r c) w c w1 Ht eq_refl)
      as [(org & Hres & Hv & Hi & _)|(_ & Hr)]; [left; by exists c, org, w1|].
    right. eexists. eapply compose_admits_refuses; [exact Ha|]. by apply compose_refuses.
  - right. eexists. by apply compose_refuses.
  - right. eexists. by apply compose_refuses.
Qed.

(** Behind [OrgGate] a handler runs exactly when the bearer token is authentic,
    is for the organization the route names, as a home or an entered session,
    and the table grants the action (and the visibility action) on that
    organization, in its own scope, to the token's subject with the token's
    home tenant. *)
Theorem org_gate_exact r w : (exists r' w', admits mw r w r' w') <->
  exists c org w1, org_route r w c org w1 /\
    (visibility = "" \/ org_grants (subjectType cfg) r c org visibility) /\ org_grants (subjectType cfg) r c org action.
Proof.
  assert (forall org, RouteTenant r = Some org -> Valid org = true) as Hv.
  { intros org Hr. unfold RouteTenant in Hr. destruct (Valid (New (r_PathValue r OrgParam))) eqn:Hv; [|done]. congruence. }
  split.
  - intros (r' & w' & Ha).
    destruct (org_gate_stops r w) as [(c & org & w1 & Hroute)|[out Hr]]; [|by destruct (not_both _ _ _ _ _ _ Ha Hr)].
    exists c, org, w1. split; [done|]. pose proof (org_gate_runs r w c org w1 Hroute) as Hrun.
    destruct (tiers_outcome fw dg e B Hpolicy r c org (pin org (pin org (authed r c))) w1) as [(Hsee & Hg & _)|[(_ & Hr)|(_ & _ & Hr)]].
    + by apply Hv, Hroute.
    + split; [|exact Hg]. exact Hsee.
    + exfalso. eapply not_both; [exact Ha|]. intros next. rewrite Hrun. apply Hr.
    + exfalso. eapply not_both; [exact Ha|]. intros next. rewrite Hrun. apply Hr.
  - intros (c & org & w1 & Hroute & Hsee & Hg). pose proof (org_gate_runs r w c org w1 Hroute) as Hrun.
    destruct (tiers_outcome fw dg e B Hpolicy r c org (pin org (pin org (authed r c))) w1) as [(_ & _ & Ha)|[(Hn & _)|(_ & Hn & _)]].
    + by apply Hv, Hroute.
    + eexists _, _. intros next. rewrite Hrun. apply Ha.
    + destruct (Hn Hsee).
    + destruct (Hn Hg).
Qed.
End OrgRoute.
End Gates.

(** ** From the grant to the route *)

Section Reach.
Context (fw : Framework) {S : Type} (lib : JWTLibrary) (E : Env) (j : JWTService) (ks : Keys).
Context (s : HierStore) (Hok : hier_ok s) (h : Hierarchy) (p : Policy) (Hpolicy : policy_ok h p).
Context (roles : RoleMap) (H : Parents) (Hsane : sane H) (Hall : all_converged roles H (pairs s)).
Local Abbreviation eng := (MkRBAC (hier_store s) h p).
Local Abbreviation engine := (Some (fun t sub act res => lift (RBAC_Check eng t sub act res) : M S Decision)).

(** A mapped role that is enough for an action on an organization. *)
Definition suffices (act : Action) (r : Role) : Prop := exists reqs req, p !! act = Some reqs /\ req ∈ reqs /\
  req_Type req = ResourceOrganization /\ (rank h ResourceOrganization (req_Min req) <= rank h ResourceOrganization r)%nat.
Lemma admin_granted sub g org role mapped act : usable g = true -> H !! org = Some (ID_String g) ->
  (keyOf (intentBinding sub g role), GroupOrigin g) ∈ pairs s -> roles !! role = Some mapped -> suffices act mapped ->
  granted h p (table s) (New org) sub act (MkResource ResourceOrganization org).
Proof.
  intros Hg Hc Hi Hm (reqs & req & Hreqs & Hreq & Hty & Hrank).
  exists reqs, req, (materializedBinding sub org mapped). split_and!; [done..| |].
  - apply elem_of_table; [done|]. exists (GroupOrigin g). apply (cv_rows _ _ _ _ (Hall g (usable_Valid g Hg))).
    + cbn. by eapply child_scope.
    + by exists (keyOf (intentBinding sub g role)), org, mapped.
  - split_and!; [done..| |by rewrite Hty]. unfold target_of. by rewrite Hty.
Qed.

(** C33: A tenant-group administrator reaches every organization of the group. When
    the store is converged and holds an intent row of the group for the
    subject, an authentic token of that subject, entered from the group into
    one of its organizations, passes [OrgGate] on that organization, as long as
    the policy grants the mapped role the action and, when one is configured,
    the visibility action. *)
Theorem group_admin_admitted action visibility nv denied opts mw r w c w1 g org role mapped :
  gate_configured (org_decision engine action visibility nv denied (org_config opts)) = true ->
  OrgGate fw lib E j ks engine action visibility nv denied opts = Ret mw ->
  usable g = true -> H !! org = Some (ID_String g) -> roles !! role = Some mapped ->
  (keyOf (intentBinding (MkSubject g (subjectType (org_config opts)) (cl_Subject c)) g role), GroupOrigin g) ∈ pairs s ->
  suffices action mapped -> (visibility = "" \/ suffices visibility mapped) ->
  presents lib E j ks r w c w1 -> Entered c = true -> cl_HomeTenantID c = ID_String g -> cl_TenantID c = org ->
  r_PathValue r OrgParam = org ->
  exists r' w', admits mw r w r' w'.
Proof.
  intros Hconf Hmw Hg Hc Hm Hi Hact Hvis Hp He Hhome Htid Hpath.
  assert (usable (New org) = true) as Hu by (apply usable_New; by apply Hsane in Hc as [? _]).
  assert (forall act, suffices act mapped -> org_grants eng (table s) (subjectType (org_config opts)) r c (New org) act) as Hgr.
  { intros act Hs. unfold org_grants. rewrite Hpath. unfold home_of. rewrite He, Hhome, New_ID_String by done.
    by apply (admin_granted _ g org role mapped). }
  apply (org_gate_exact fw lib E j ks eng (table s) Hpolicy (HB := hier_represents s Hok) action visibility nv denied opts Hconf mw Hmw).
  exists c, (New org), w1. split; [|split; [destruct Hvis; auto|by apply Hgr]]. split_and!; [done| |].
  - unfold RouteTenant. rewrite Hpath. by rewrite (usable_Valid _ Hu).
  - unfold invited. rewrite ID_String_New. split_and!; [done| |done]. intros Himp. rewrite (Entered_not_Impersonated c He) in Himp. done.
Qed.
End Reach.

(** ** A witness: bob of acme, who entered globex *)

Module ToyOrg.
Definition env : Env := ToyHier.env.
Definition parents : Parents := {["globex" := "acme"]}.
Definition roles : RoleMap := {["group_admin" := "admin"]}.
Definition prov : Provisioner (S := HierApp HierStore unit) := MkProvisioner mem_source (table_hier parents) roles 100 None.
Definition bob : Subject := MkSubject (New "acme") "user" "bob".
Definition start : world (HierApp HierStore unit) := World (MkApp NewHierStore tt) [].
Definition granted_run := GrantGroupAdmin env prov ToyHier.by_platform bob (New "acme") "group_admin".
Definition s : HierStore := ha_store (w_store (granted_run start).2).
Lemma org_ran : granted_run start = (Ret tt, (granted_run start).2).
Proof. refine (ToyHier.ran granted_run start tt _); vm_compute; reflexivity. Qed.
Lemma parents_sane : sane parents.
Proof. intros c g Hc. unfold parents in Hc. by apply lookup_singleton_Some in Hc as [<- <-]. Qed.
Lemma unlogged (log : Event -> M (HierApp HierStore unit) Event) ev : None = Some log -> reads (log ev) (fun _ _ => True).
Proof. done. Qed.
Lemma uncalled (log : Event -> M (HierApp HierStore unit) Event) ev w why w' : None = Some log -> log ev w <> (Panic why, w').
Proof. done. Qed.
Definition granted_outcome := GrantGroupAdmin_run env prov unlogged uncalled parents ToyHier.by_platform bob (New "acme") "group_admin"
  start (Ret tt) (granted_run start).2 (table_shows _) hier_ok_new org_ran.
Lemma s_ok : hier_ok s.
Proof. destruct granted_outcome as [Hok _]. exact Hok. Qed.
Lemma s_converged : all_converged roles parents (pairs s).
Proof.
  destruct granted_outcome as (_ & HP & _). destruct (HP eq_refl) as (Hg & Hsub & mapped & children & Hm & Hch & Heq).
  unfold seen in Heq. cbn in Heq. unfold s. rewrite Heq.
  assert (all_converged roles parents (pairs (ha_store (w_store start)))) as Hstart.
  { replace (pairs (ha_store (w_store start))) with (∅ : Justified); [apply nothing_converges|vm_compute; reflexivity]. }
  by destruct (grant_all prov parents (pairs (ha_store (w_store start))) bob (New "acme") "group_admin" mapped children
    parents_sane Hg Hsub Hm Hch Hstart).
Qed.
Lemma intent_held : (keyOf (intentBinding bob (New "acme") "group_admin"), GroupOrigin (New "acme")) ∈ pairs s.
Proof. apply (bool_decide_unpack _). vm_compute. exact I. Qed.

Definition ladder : Hierarchy := {[ "organization" := ["viewer"; "admin"] ]}.
Definition policy : Policy := {[ "org.update" := [MkRequirement "organization" "admin"] ]}.
Lemma policy_fine : policy_ok ladder policy.
Proof. by destruct (NewRBAC_ok (hier_store s) ladder policy _ eq_refl). Qed.
Lemma admin_suffices : suffices ladder policy "org.update" "admin".
Proof.
  exists [MkRequirement "organization" "admin"], (MkRequirement "organization" "admin").
  split_and!; [reflexivity|by left|done|vm_compute; lia].
Qed.

Definition engine : option (ID -> Subject -> Action -> Resource -> M unit Decision) :=
  Some (fun t sub act res => lift (RBAC_Check (MkRBAC (hier_store s) ladder policy) t sub act res)).
Definition denied : M (Web unit) unit := write_fw ToyWeb.fw (FwError ErrForbidden "denied" None None).
Definition gate : Middleware unit :=
  ToyWeb.handler_of (OrgGate ToyWeb.fw Toy.lib toy_env Toy.service Toy.keys engine "org.update" "" None (Some denied) []).
Definition request : Request :=
  let r := ToyWeb.bearer (minted_token bob_minted) in
  MkRequest (r_Method r) (r_Path r) (r_Header r) (r_RemoteAddr r) (r_Host r) (r_TLS r) (r_Cookie r)
    (fun k => if String.eqb k OrgParam then "globex" else "") (r_PathParams r) (r_Query r) (r_ctx r).
Lemma shown : presents Toy.lib toy_env Toy.service Toy.keys request ToyWeb.world ToyWeb.guest ToyWeb.parsed.2.
Proof. exists (minted_token bob_minted). split; [vm_compute; reflexivity|]. exact ToyWeb.parsed_run. Qed.
Lemma entered : Entered ToyWeb.guest = true.
Proof. unfold Entered. by rewrite ToyWeb.guest_home, ToyWeb.guest_act. Qed.
End ToyOrg.

Lemma group_admin_admitted_witness : exists r' w', admits ToyOrg.gate ToyOrg.request ToyWeb.world r' w'.
Proof.
  refine (group_admin_admitted ToyWeb.fw Toy.lib toy_env Toy.service Toy.keys ToyOrg.s ToyOrg.s_ok ToyOrg.ladder ToyOrg.policy
    ToyOrg.policy_fine ToyOrg.roles ToyOrg.parents ToyOrg.parents_sane ToyOrg.s_converged "org.update" "" None (Some ToyOrg.denied) []
    ToyOrg.gate ToyOrg.request ToyWeb.world ToyWeb.guest ToyWeb.parsed.2 (New "acme") "globex" "group_admin" "admin"
    eq_refl eq_refl eq_refl eq_refl eq_refl _ ToyOrg.admin_suffices (or_introl eq_refl) ToyOrg.shown ToyOrg.entered
    ToyWeb.guest_home ToyWeb.guest_tid eq_refl).
  rewrite ToyWeb.guest_sub. exact ToyOrg.intent_held.
Defined.
