(* ===== verification/TamperAdmin.v ===== *)
(** * Suspending a tenant

    [src/admin.go]: the one operation that spans the tenant table, the accounts
    and the audit log. Over any three ports, what happened when it answers;
    over the reference stores of [TenantStore] and [Identity], composed into one
    application state, that a suspended tenant is locked out. *)

From S2P Require Import Prelude Tenant TenantStore World Crypto AuditEvent Http WebAudit Identity.

#[local] Open Scope string_scope.
#[local] Open Scope list_scope.
#[local] Open Scope Z_scope.

Definition ActionSuspendTenant : string := "tenant.suspend".
Definition ResourceTypeTenant : string := "tenant".

(** The port [tenant.AdminStore]. *)
Record AdminStore (S : Type) := {
  as_List : S -> go (list Descriptor) * S;
  as_Create : Descriptor -> S -> go unit * S;
  as_SetStatus : ID -> Status -> S -> go unit * S
}.
Arguments as_List {_} _ _.
Arguments as_Create {_} _ _ _.
Arguments as_SetStatus {_} _ _ _ _.

Record Admin (S : Type) := MkAdmin {
  ad_admin : AdminStore S;
  ad_core : Core S;
  ad_log : Event -> S -> go Event * S
}.
Arguments MkAdmin {_} _ _ _.
Arguments ad_admin {_} _.
Arguments ad_core {_} _.
Arguments ad_log {_} _ _ _.

Section Admin.
Context (E : Env) {S : Type}.
Local Abbreviation M := (M S).

Definition NewAdmin (admin : option (AdminStore S)) (core : option (Core S)) (log : option (Event -> S -> go Event * S))
    : go (Admin S) :=
  match admin, core, log with
  | None, _, _ => Panic "NewAdmin requires a tenant.AdminStore"
  | _, None, _ => Panic "NewAdmin requires an *identity.Core"
  | _, _, None => Panic "NewAdmin requires an audit.Logger"
  | Some admin, Some core, Some log => Ret (MkAdmin admin core log)
  end.

Context (a : Admin S).

Definition suspend_event (x : Context) (id : ID) (eventID : string) (at_ : time) : Event :=
  {| ev_ID := eventID; ev_At := at_; ev_Actor := ActorFromContext x; ev_Action := ActionSuspendTenant;
     ev_ResourceType := ResourceTypeTenant; ev_ResourceID := ID_String id; ev_RequestID := ""; ev_ClusterID := "";
     ev_Before := []; ev_After := []; ev_PrevHash := []; ev_Hash := []; ev_CanonicalVersion := 0;
     ev_TenantID := ID_String id; ev_RowSalt := []; ev_Commitments := no_commitments |}.
Definition emitSuspend (x : Context) (id : ID) : M unit :=
  i ← newID E;
  t ← now E;
  store_call "Log" (ad_log a (suspend_event x id i t));;
  mret tt.

(** [err := m]. *)
Definition err_of (m : M unit) : M (option error) :=
  try_catch m (fun e => mret (Some e)) (fun _ => mret None).
Definition half_done (revokeErr auditErr : option error) : option error :=
  let remain := Errorf1 "refresh sessions may remain" <$> revokeErr in
  let missing := Errorf1 "the audit row is missing" <$> auditErr in
  match remain, missing with
  | None, None => None
  | Some e, None | None, Some e => Some (Errorf1 "tenant IS suspended, but" e)
  | Some e1, Some e2 => Some (Errorf1 "tenant IS suspended, but" (Errorf2 "join" e1 e2))
  end.
Definition Suspend (x : Context) (id : ID) : M unit :=
  wrap (Errorf1 "suspend") (store_call "SetStatus" (as_SetStatus (ad_admin a) id StatusSuspended));;
  revokeErr ← err_of (RevokeAllSessionsForTenant E (ad_core a) id);
  auditErr ← err_of (emitSuspend x id);
  match half_done revokeErr auditErr with
  | None => mret tt
  | Some e => fail e
  end.

(** ** What happened *)

Implicit Types (w : world S).
(** The row an operator's suspension leaves, in the suspended tenant's scope. *)
Definition suspension_row (x : Context) (id : ID) (ev : Event) : Prop :=
  ev_Action ev = "tenant.suspend" /\ ev_ResourceType ev = "tenant" /\ ev_TenantID ev = ID_String id /\
  ev_ResourceID ev = ID_String id /\ ev_Actor ev = ActorFromContext x.

(** The audit step: one row, identified and dated then, is offered to the log. *)
Definition logged (x : Context) (id : ID) w (rl : go Event) w' : Prop :=
  exists ev, suspension_row x id ev /\ ev_ID ev = env_newID E (w_trace w) /\
    ev_At ev = env_now E (w_trace w ++ [EvNewID]) /\ ad_log a ev (w_store w) = (rl, w_store w').

(** What a suspension answers after the status write, of what the revocation and
    the log answered: nil when both succeeded; otherwise that the tenant IS
    suspended, but that sessions may remain, that the row is missing, or both,
    with the reason of each. *)
Definition reported {A} (rr : go unit) (rl : go A) (r : go unit) : Prop :=
  let but e := r = Fail (Errorf1 "tenant IS suspended, but" e) in
  let remain e := Errorf1 "refresh sessions may remain" e in
  let missing e := Errorf1 "the audit row is missing" e in
  match rr, rl with
  | Ret _, Ret _ => r = Ret tt
  | Fail e, Ret _ => but (remain e)
  | Ret _, Fail e => but (missing e)
  | Fail e1, Fail e2 => but (Errorf2 "join" (remain e1) (missing e2))
  | Panic why, _ => r = Panic why
  | _, Panic why => r = Panic why
  end.

Lemma err_of_run m w r w' : err_of m w = (r, w') ->
  (m w = (Ret tt, w') /\ r = Ret None) \/ (exists e, m w = (Fail e, w') /\ r = Ret (Some e)) \/
  (exists why, m w = (Panic why, w') /\ r = Panic why).
Proof. unfold err_of, try_catch, mret, M_ret. destruct (m w) as [[[]|e|why] w1]; intros [= <- <-]; eauto 6. Qed.

Lemma emit_run x id w r w' : emitSuspend x id w = (r, w') ->
  exists rl, logged x id w rl w' /\ match rl with Ret _ => r = Ret tt | Fail e => r = Fail e | Panic why => r = Panic why end.
Proof.
  unfold emitSuspend, newID, now. intros [(i & w1 & H1 & H)|[(e & H1 & _)|(why & H1 & _)]]%bind_inv;
    [|by apply observe_inv in H1 as [? _]..]. apply observe_inv in H1 as [[= ->] ->].
  apply bind_inv in H as [(t & w2 & H2 & H)|[(e & H2 & _)|(why & H2 & _)]]; [|by apply observe_inv in H2 as [? _]..].
  apply observe_inv in H2 as [[= ->] ->]. cbn [w_trace w_store] in *.
  unfold mbind, M_bind, store_call in H. cbn [w_store] in H. destruct (ad_log a _ _) as [r3 s3] eqn:Hl.
  exists r3. split; [|destruct r3; by injection H as <- _].
  exists (suspend_event x id (env_newID E (w_trace w)) (env_now E (w_trace w ++ [EvNewID]))).
  split; [by split_and!|]. split_and!; [done..|]. destruct r3; by injection H as _ <-.
Qed.

(** What a suspension does over any three ports. *)
Definition attempts (x : Context) (id : ID) w (r : go unit) w' : Prop :=
  exists rs s1, as_SetStatus (ad_admin a) id StatusSuspended (w_store w) = (rs, s1) /\
    let w1 := World s1 (w_trace w ++ [EvStore "SetStatus"]) in
    match rs with
    | Fail e => r = Fail (Errorf1 "suspend" e) /\ w' = w1
    | Panic why => r = Panic why /\ w' = w1
    | Ret _ => exists rr w2, RevokeAllSessionsForTenant E (ad_core a) id w1 = (rr, w2) /\
        match rr with
        | Panic why => r = Panic why /\ w' = w2
        | _ => exists rl, logged x id w2 rl w' /\ reported rr rl r
        end
    end.

Lemma Suspend_attempts x id w r w' : Suspend x id w = (r, w') -> attempts x id w r w'.
Proof.
  unfold Suspend, attempts, mbind at 1, M_bind at 1, wrap, store_call.
  destruct (as_SetStatus _ _ _ _) as [rs s1] eqn:Hs. intros H. exists rs, s1. split; [done|]. cbv zeta.
  destruct rs as [[]|e|why]; cbn in H; [|injection H as <- <-; done..].
  apply bind_inv in H as [(re & w2 & H1 & H)|[(e & H1 & _)|(why & H1 & ->)]].
  2: { by apply err_of_run in H1 as [[_ [=]]|[(? & _ & [=])|(? & _ & [=])]]. }
  2: { apply err_of_run in H1 as [[_ [=]]|[(? & _ & [=])|(? & H1 & [= <-])]]. by eexists _, w'. }
  apply err_of_run in H1 as [[H1 [= ->]]|[(e & H1 & [= ->])|(why & _ & [=])]]; eexists _, w2; (split; [exact H1|]).
  all: apply bind_inv in H as [(ae & w3 & H2 & H)|[(e' & H2 & _)|(why & H2 & ->)]];
    [|by apply err_of_run in H2 as [[_ [=]]|[(? & _ & [=])|(? & _ & [=])]]|];
    (apply err_of_run in H2 as [[H2 Hae]|[(e2 & H2 & Hae)|(why2 & H2 & Hae)]];
     try discriminate Hae; injection Hae as Hae; subst);
    apply emit_run in H2 as (rl & Hl & Hr); destruct rl; try discriminate Hr; first [injection Hr as <-|clear Hr];
    try cbn in H; first [apply mret_inv in H as [-> ->]|apply fail_inv in H as [-> ->]|idtac]; eexists; (split; [exact Hl|done]).
Qed.
End Admin.

(** ** Over the reference stores

    The application's state is the tenant table, the accounts and the log. *)

Record App (L : Type) := MkApp { ap_tenants : TenantStore.MemStore; ap_accounts : Identity.MemStore; ap_log : L }.
Arguments MkApp {_} _ _ _.
Arguments ap_tenants {_} _.
Arguments ap_accounts {_} _.
Arguments ap_log {_} _.

Section Reference.
Context {L : Type}.

Definition on_tenants {A} (op : TenantStore.MemStore -> go A * TenantStore.MemStore) (s : App L) : go A * App L :=
  let '(r, m) := op (ap_tenants s) in (r, MkApp m (ap_accounts s) (ap_log s)).
Definition on_accounts {A} (op : Identity.MemStore -> go A * Identity.MemStore) (s : App L) : go A * App L :=
  let '(r, m) := op (ap_accounts s) in (r, MkApp (ap_tenants s) m (ap_log s)).
Definition on_log {A} (op : L -> go A * L) (s : App L) : go A * App L :=
  let '(r, l) := op (ap_log s) in (r, MkApp (ap_tenants s) (ap_accounts s) l).

Definition tenant_admin : AdminStore (App L) := {|
  as_List s := (Ret (TenantStore.List (ap_tenants s)), s);
  as_Create d := on_tenants (TenantStore.Create d);
  as_SetStatus id st := on_tenants (TenantStore.SetStatus id st)
|}.
(** [identity.MemStore] as a part of the application. *)
Definition accounts : Store (App L) := {|
  CreateUser u first := on_accounts (Mem_CreateUser u first);
  UserByID id := on_accounts (Mem_UserByID id);
  UserByEmail t e := on_accounts (Mem_UserByEmail t e);
  CountUsers t := on_accounts (Mem_CountUsers t);
  CreateRefreshSession s := on_accounts (Mem_CreateRefreshSession s);
  RefreshSessionByHash h := on_accounts (Mem_RefreshSessionByHash h);
  RevokeRefreshSession id t := on_accounts (Mem_RevokeRefreshSession id t);
  RevokeAllRefreshSessionsForUser u t := on_accounts (Mem_RevokeAllRefreshSessionsForUser u t);
  RevokeAllRefreshSessionsForTenant i t := on_accounts (Mem_RevokeAllRefreshSessionsForTenant i t);
  GetTOTPState u := on_accounts (Mem_TOTPState u);
  SetTOTPPending u e h := on_accounts (Mem_SetTOTPPending u e h);
  EnableTOTP u e h t := on_accounts (Mem_EnableTOTP u e h t);
  SetRecoveryCodeHashes u h := on_accounts (Mem_SetRecoveryCodeHashes u h);
  ClearTOTP u := on_accounts (Mem_ClearTOTP u);
  IdentityByProviderSubject t p s := on_accounts (Mem_IdentityByProviderSubject t p s);
  IdentityByID i := on_accounts (Mem_IdentityByID i);
  IdentitiesByUserID u := on_accounts (Mem_IdentitiesByUserID u);
  InsertIdentity i := on_accounts (Mem_InsertIdentity i);
  TouchIdentityLastLogin i t := on_accounts (Mem_TouchIdentityLastLogin i t);
  DeleteIdentity i := on_accounts (Mem_DeleteIdentity i);
  CountIdentitiesByUserID u := on_accounts (Mem_CountIdentitiesByUserID u);
  ProvisionUser u i first := on_accounts (Mem_ProvisionUserWithIdentity u i first)
|}.

Context (E : Env) (a : Admin (App L)) (log : Event -> L -> go Event * L).
Context (Hadmin : ad_admin a = tenant_admin) (Hstore : c_store (ad_core a) = accounts)
  (Hlog : forall ev, ad_log a ev = on_log (log ev)).
(** The clock is past year 1. *)
Context (clock : forall tr, IsZero_time (env_now E tr) = false).
Implicit Types (w : world (App L)) (id : ID).

(** Where a tenant stands. *)
Definition suspended (m : TenantStore.MemStore) id : Prop :=
  exists d, TenantStore.byID m !! ID_String id = Some d /\ d_Status d = StatusSuspended.
Definition sessions_dead (m : Identity.MemStore) id : Prop :=
  forall k s, sessions m !! k = Some s -> se_TenantID s = ID_String id -> Revoked s = true.
(** Only the sessions of the tenant differ, and only in being revoked. *)
Definition others_kept id (m m' : Identity.MemStore) : Prop :=
  (exists t, m' = revoke_all (fun s => String.eqb (se_TenantID s) (ID_String id)) t m) /\
  forall k s, sessions m !! k = Some s -> se_TenantID s <> ID_String id -> sessions m' !! k = Some s.
Definition only_status (m m' : TenantStore.MemStore) id : Prop :=
  forall k, k <> ID_String id -> TenantStore.byID m' !! k = TenantStore.byID m !! k.

Lemma revoke_all_dead t (m : Identity.MemStore) id : IsZero_time t = false ->
  sessions_dead (revoke_all (fun s => String.eqb (se_TenantID s) (ID_String id)) t m) id /\
  others_kept id m (revoke_all (fun s => String.eqb (se_TenantID s) (ID_String id)) t m).
Proof.
  intros Ht. split; [|split; [by exists t|]].
  - intros k s Hk Hs. cbn in Hk. apply lookup_fmap_Some in Hk as (s0 & <- & _).
    destruct (String.eqb_spec (se_TenantID s0) (ID_String id)) as [He|He]; cbn in *.
    + destruct (Revoked s0) eqn:Hr; cbn in *; [done|]. unfold Revoked. cbn. by rewrite Ht.
    + exfalso. by apply He.
  - intros k s Hk Hs. cbn. rewrite lookup_fmap, Hk. cbn. by rewrite (proj2 (String.eqb_neq _ _) Hs).
Qed.
Lemma SetStatus_suspends id (m m' : TenantStore.MemStore) : TenantStore.SetStatus id StatusSuspended m = (Ret tt, m') ->
  Valid id = true /\ suspended m' id /\ only_status m m' id.
Proof.
  unfold TenantStore.SetStatus. destruct (checkWritableID id) as [[]|e|why] eqn:Hid; [|done..].
  destruct (checkStatus StatusSuspended) as [[]|e|why]; [|done..].
  destruct (TenantStore.byID m !! ID_String id) as [d|] eqn:Hd; [|done]. intros [= <-].
  split_and!.
  - unfold checkWritableID in Hid. by destruct (Valid id).
  - exists (with_status StatusSuspended d). cbn. by rewrite lookup_insert_eq.
  - intros k Hk. cbn. by rewrite lookup_insert_ne.
Qed.
Lemma SetStatus_refused id st (m m' : TenantStore.MemStore) r : TenantStore.SetStatus id st m = (r, m') -> is_ret r = false -> m' = m.
Proof.
  unfold TenantStore.SetStatus. destruct (checkWritableID id); [|by intros [= <- <-]..].
  destruct (checkStatus st); [|by intros [= <- <-]..].
  destruct (TenantStore.byID m !! ID_String id); by intros [= <- <-].
Qed.
Lemma on_tenants_same (s s' : App L) {A} (op : TenantStore.MemStore -> go A * TenantStore.MemStore) r :
  on_tenants op s = (r, s') -> exists m', op (ap_tenants s) = (r, m') /\ s' = MkApp m' (ap_accounts s) (ap_log s).
Proof. unfold on_tenants. destruct (op (ap_tenants s)) as [r1 m1]. intros [= <- <-]. eauto. Qed.

(** The revocation of the reference store, of a tenant that is one. *)
Lemma revoke_reference id w r w' : RevokeAllSessionsForTenant E (ad_core a) id w = (r, w') -> Valid id = true ->
  r = Ret tt /\ exists t, IsZero_time t = false /\ w_store w' = MkApp (ap_tenants (w_store w))
    (revoke_all (fun s => String.eqb (se_TenantID s) (ID_String id)) t (ap_accounts (w_store w))) (ap_log (w_store w)).
Proof.
  unfold RevokeAllSessionsForTenant, tenantGate, now. rewrite Hstore. intros H HV. rewrite HV in H. cbn [negb] in H.
  run_step H; match goal with Hs : RevokeAllRefreshSessionsForTenant _ _ _ _ = _ |- _ =>
    cbn in Hs; unfold on_accounts in Hs; cbn in Hs; injection Hs as Hs; try discriminate Hs end.
  destruct a0. split; [done|]. by eexists.
Qed.

(** What has become of the tenant. *)
Definition locked id w w' : Prop :=
  suspended (ap_tenants (w_store w')) id /\ sessions_dead (ap_accounts (w_store w')) id /\
  others_kept id (ap_accounts (w_store w)) (ap_accounts (w_store w')) /\
  only_status (ap_tenants (w_store w)) (ap_tenants (w_store w')) id.
(** The row went to the log as it was. *)
Definition row_offered x id w (rl : go Event) w' : Prop :=
  exists ev, suspension_row x id ev /\ log ev (ap_log (w_store w)) = (rl, ap_log (w_store w')).

Lemma Suspend_reference x id w r w' : Suspend E a x id w = (r, w') ->
  (r = Ret tt -> locked id w w' /\ exists row, row_offered x id w (Ret row) w') /\
  (is_ret r = false -> w_store w' = w_store w \/
     (locked id w w' /\ exists rl, is_ret rl = false /\ row_offered x id w rl w')).
Proof.
  intros Hrun. destruct (Suspend_attempts E a x id w r w' Hrun) as (rs & s1 & Hset & Hrest). rewrite Hadmin in Hset.
  apply on_tenants_same in Hset as (m1 & Hset & ->).
  assert (is_ret rs = false -> MkApp m1 (ap_accounts (w_store w)) (ap_log (w_store w)) = w_store w) as Hsame.
  { intros Hr. rewrite (SetStatus_refused _ _ _ _ _ Hset Hr). by destruct (w_store w). }
  destruct rs as [[]|e|why]; [|destruct Hrest as [-> ->]; (split; [done|]); left; by apply Hsame..].
  apply SetStatus_suspends in Hset as (HV & Hsus & Honly).
  destruct Hrest as (rr & w2 & Hrev & Hrest).
  apply revoke_reference in Hrev as (-> & t & Ht & Hw2); [|done]. cbn [w_store ap_tenants ap_accounts ap_log] in Hw2.
  destruct Hrest as (rl & (ev & Hev & _ & _ & Hl) & Hr). rewrite Hlog, Hw2 in Hl. unfold on_log in Hl. cbn [ap_log ap_tenants ap_accounts] in Hl.
  destruct (log ev _) as [r3 l3] eqn:Hlg. injection Hl as <- Hw.
  assert (locked id w w') as Hlocked.
  { unfold locked. rewrite <- Hw. cbn [ap_tenants ap_accounts].
    destruct (revoke_all_dead t (ap_accounts (w_store w)) id Ht) as [Hdead Hkept]. by split_and!. }
  assert (row_offered x id w r3 w') as Hrow by (exists ev; by rewrite <- Hw).
  split.
  - intros ->. split; [done|]. destruct r3; [by eexists|done..].
  - intros Hn. right. split; [done|]. exists r3. split; [|done]. by destruct r3; [rewrite Hr in Hn|..].
Qed.
End Reference.

(** C34: Suspending a tenant locks it out. Over any tenant table, accounts store
    and log: a refused status write is all that happened; after it succeeded the
    revocation and then the audit row are both attempted, whatever the first of
    them answered, and the answer is nil exactly when both succeeded, and
    otherwise says that the tenant IS suspended but that sessions may remain,
    that the row is missing, or both, with the reasons. Over the reference table
    and accounts store, where a revocation does not fail, and any log: when
    [Suspend] returns nil the tenant is suspended, every refresh session of it is
    revoked, nothing of any other tenant has changed, and the log accepted one
    row in the suspended tenant's scope, in the name of the operator; when it
    fails, either nothing at all has happened, or the tenant is locked in the
    same way and it is the log that did not accept the row. *)
Theorem Suspend_locks_out (E : Env) :
  (forall S (a : Admin S) x id w r w', Suspend E a x id w = (r, w') -> attempts E a x id w r w') /\
  (forall L (a : Admin (App L)) (log : Event -> L -> go Event * L),
     ad_admin a = tenant_admin -> c_store (ad_core a) = accounts -> (forall ev, ad_log a ev = on_log (log ev)) ->
     (forall tr, IsZero_time (env_now E tr) = false) ->
     forall x id w r w', Suspend E a x id w = (r, w') ->
       (r = Ret tt -> locked id w w' /\ exists row, row_offered log x id w (Ret row) w') /\
       (is_ret r = false -> w_store w' = w_store w \/
          (locked id w w' /\ exists rl, is_ret rl = false /\ row_offered log x id w rl w'))).
Proof.
  split; [intros; by apply Suspend_attempts|].
  intros L a log Ha Hs Hl Hc x id w r w'. by apply (Suspend_reference E a log Ha Hs Hl Hc).
Qed.

(** ** A suspension *)

Module ToySuspend.
Definition log (ev : Event) (l : list Event) : go Event * list Event := (Ret ev, l ++ [ev]).
Definition core : Core (App (list Event)) := {|
  c_store := accounts;
  c_jwt := c_jwt Demo.core;
  c_refreshTTL := c_refreshTTL Demo.core;
  c_totpRequired := false;
  c_defaultACR := ACRLocalPassword;
  c_OnRegistered := false;
  c_throttling := None;
  c_secondFactor := None;
  c_invitations := None;
  c_memberships := None;
  c_enterTTL := 0;
  c_OnTenantEntered := false;
  c_impersonation := None;
  c_impersonationTTL := 0;
  c_keys := None;
  c_OnProvisioned := false
|}.
Definition admin : Admin (App (list Event)) := MkAdmin tenant_admin core (fun ev => on_log (log ev)).
Definition tenants : TenantStore.MemStore :=
  (TenantStore.Create (MkDescriptor "acme" "acme" "" StatusActive) TenantStore.NewMemStore).2.
(** The tenant serves, and Bob, who has registered there, holds a session. *)
Definition before : world (App (list Event)) :=
  World (MkApp tenants (w_store Demo.registered) []) (w_trace Demo.registered).
Definition operator : Context := MkContext None None None None None None None None ∅ "".
Definition after : world (App (list Event)) := (Suspend Demo.env admin operator Demo.acme before).2.

Lemma clock tr : IsZero_time (env_now Demo.env tr) = false.
Proof. unfold IsZero_time. apply Z.eqb_neq. pose proof (Nat2Z.is_nonneg (length tr)). change ((1000 + Z.of_nat (length tr)) * 10 ^ 9 <> time_zero). unfold time_zero. lia. Qed.
Lemma admin_ran : Suspend Demo.env admin operator Demo.acme before = (Ret tt, after).
Proof.
  unfold after. rewrite (surjective_pairing (Suspend Demo.env admin operator Demo.acme before)) at 1.
  f_equal.
Qed.
Definition alive (m : Identity.MemStore) : bool := existsb (fun p : string * RefreshSession => negb (Revoked p.2)) (map_to_list (sessions m)).

Example bob_had_a_session : alive (ap_accounts (w_store before)) = true.
Proof. vm_compute. reflexivity. Qed.
(** The single tenant cannot be suspended, and nothing happens. *)
Example single_tenant_refused :
  let '(r, w) := Suspend Demo.env admin operator Single before in is_ret r = false /\ w_store w = w_store before.
Proof. vm_compute. by split. Qed.
End ToySuspend.

(** A store whose revocation fails: the tenant is suspended, the row is written
    all the same, and the operator is told that sessions may remain. *)
Module ToyHalfDone.
Definition disk_full : error := AppError "disk full".
Definition broken : Store (App (list Event)) := {|
  CreateUser := CreateUser accounts; UserByID := UserByID accounts; UserByEmail := UserByEmail accounts;
  CountUsers := CountUsers accounts; CreateRefreshSession := CreateRefreshSession accounts;
  RefreshSessionByHash := RefreshSessionByHash accounts; RevokeRefreshSession := RevokeRefreshSession accounts;
  RevokeAllRefreshSessionsForUser := RevokeAllRefreshSessionsForUser accounts;
  RevokeAllRefreshSessionsForTenant _ _ s := (Fail disk_full, s);
  GetTOTPState := GetTOTPState accounts; SetTOTPPending := SetTOTPPending accounts; EnableTOTP := EnableTOTP accounts;
  SetRecoveryCodeHashes := SetRecoveryCodeHashes accounts; ClearTOTP := ClearTOTP accounts;
  IdentityByProviderSubject := IdentityByProviderSubject accounts; IdentityByID := IdentityByID accounts;
  IdentitiesByUserID := IdentitiesByUserID accounts; InsertIdentity := InsertIdentity accounts;
  TouchIdentityLastLogin := TouchIdentityLastLogin accounts; DeleteIdentity := DeleteIdentity accounts;
  CountIdentitiesByUserID := CountIdentitiesByUserID accounts; ProvisionUser := ProvisionUser accounts |}.
Definition core : Core (App (list Event)) :=
  Build_Core _ broken None 0 false ACRLocalPassword false None None None None 0 false None 0 None false.
Definition admin : Admin (App (list Event)) := MkAdmin tenant_admin core (fun ev => on_log (ToySuspend.log ev)).
Definition run := Suspend Demo.env admin ToySuspend.operator Demo.acme ToySuspend.before.
Definition told : error := Errorf1 "tenant IS suspended, but" (Errorf1 "refresh sessions may remain"
  (Errorf1 "identity: revoke all sessions for tenant" disk_full)).
End ToyHalfDone.

Lemma Suspend_locks_out_witness :
  (suspended (ap_tenants (w_store ToySuspend.after)) Demo.acme /\ sessions_dead (ap_accounts (w_store ToySuspend.after)) Demo.acme) /\
  ToyHalfDone.run.1 = Fail ToyHalfDone.told.
Proof.
  destruct (Suspend_locks_out Demo.env) as [Hany Href]. split.
  - destruct (Href _ ToySuspend.admin ToySuspend.log eq_refl eq_refl (fun ev => eq_refl) ToySuspend.clock
      ToySuspend.operator Demo.acme ToySuspend.before (Ret tt) ToySuspend.after ToySuspend.admin_ran) as [Hok _].
    destruct (Hok eq_refl) as [(Hsus & Hdead & _) _]. exact (conj Hsus Hdead).
  - destruct (Hany _ ToyHalfDone.admin ToySuspend.operator Demo.acme ToySuspend.before ToyHalfDone.run.1 ToyHalfDone.run.2
      (surjective_pairing _)) as (rs & s1 & Hs & H).
    assert (rs = Ret tt) as -> by (apply (f_equal fst) in Hs; cbn [fst] in Hs; rewrite <- Hs; vm_compute; reflexivity).
    destruct H as (rr & w2 & Hr & H).
    assert (rr = Fail (Errorf1 "identity: revoke all sessions for tenant" ToyHalfDone.disk_full)) as ->
      by (apply (f_equal fst) in Hr; cbn [fst] in Hr; rewrite <- Hr; reflexivity).
    destruct H as (rl & (ev & _ & _ & _ & Hl) & H). apply (f_equal fst) in Hl.
    change (Ret ev = rl) in Hl. rewrite <- Hl in H. exact H.
Defined.
