(* ===== verification/Throttle.v ===== *)
(** * The in-process rate limiter

    [src/crypto/throttle.go]: the token bucket over float64 arithmetic, which
    the module [Float64] makes exact. What the
    language leaves to the implementation is a parameter: the order in which a
    map is ranged over, whether [x + y*z] is fused into one rounding, and the
    conversion to an integer of a number that does not fit. *)

From Stdlib Require Import SpecFloat.
From S2P Require Import Prelude.

(** ** float64

    Go's float64 as [SpecFloat]'s binary64, operation by operation, rounded to
    nearest even. The lemmas say when an operation is exact and that the
    operations on non-negative numbers stay among the canonical ones, where
    comparing is comparing values. *)

Module Float64.
#[local] Open Scope Z_scope.

Definition float64 := spec_float.
Definition f_add : float64 -> float64 -> float64 := SFadd 53 1024.
Definition f_sub : float64 -> float64 -> float64 := SFsub 53 1024.
Definition f_mul : float64 -> float64 -> float64 := SFmul 53 1024.
Definition f_div : float64 -> float64 -> float64 := SFdiv 53 1024.
(** [float64(n)]. *)
Definition of_int (n : Z) : float64 := binary_normalize 53 1024 n 0 false.
(** [x < y], [x <= y]: false when one is a NaN. *)
Definition f_lt (x y : float64) : bool := SFltb x y.
Definition f_le (x y : float64) : bool := SFleb x y.
(** [math.Min]. *)
Definition math_Min (x y : float64) : float64 :=
  match x, y with
  | S754_infinity true, _ | _, S754_infinity true => S754_infinity true
  | S754_nan, _ | _, S754_nan => S754_nan
  | S754_zero sx, S754_zero sy => S754_zero (sx || sy)
  | _, _ => if f_lt x y then x else y
  end.
(** [int64(x)] rounds toward zero; of a NaN, an infinity or a number that does
    not fit the language leaves it to the implementation. *)
Definition f_trunc (x : float64) : option Z :=
  match x with
  | S754_zero _ => Some 0
  | S754_finite s m e =>
      let n := cond_Zopp s (if 0 <=? e then Zpos m * 2 ^ e else Zpos m / 2 ^ (- e)) in
      if (- 2 ^ 63 <=? n) && (n <? 2 ^ 63) then Some n else None
  | _ => None
  end.

(** ** Digits and exponents *)

Abbreviation fexp64 := (fexp 53 1024).
Lemma fexp64_eq e : fexp64 e = Z.max (e - 53) (-1074).
Proof. reflexivity. Qed.

Lemma digits_pos p : Zpos (digits2_pos p) = Z.log2 (Zpos p) + 1.
Proof.
  induction p as [p IH|p IH|]; cbn [digits2_pos]; [| |done].
  - rewrite Pos2Z.inj_succ, IH. rewrite (Pos2Z.inj_xI p). rewrite Z.log2_succ_double by lia. lia.
  - rewrite Pos2Z.inj_succ, IH. rewrite (Pos2Z.inj_xO p). rewrite Z.log2_double by lia. lia.
Qed.
Lemma digits_spec m : 0 <= m -> Zdigits2 m = if m =? 0 then 0 else Z.log2 m + 1.
Proof. destruct m; [done| |lia]. intros _. apply digits_pos. Qed.
Lemma digits_bounds m : 0 < m -> 2 ^ (Zdigits2 m - 1) <= m < 2 ^ Zdigits2 m /\ 1 <= Zdigits2 m.
Proof.
  intros Hm. rewrite digits_spec by lia. rewrite (proj2 (Z.eqb_neq m 0)) by lia.
  pose proof (Z.log2_spec m Hm). pose proof (Z.log2_nonneg m). replace (Z.log2 m + 1 - 1) with (Z.log2 m) by lia.
  replace (Z.log2 m + 1) with (Z.succ (Z.log2 m)) by lia. lia.
Qed.
Lemma digits_unique m d : 0 <= d -> 2 ^ d <= m < 2 ^ (d + 1) -> Zdigits2 m = d + 1.
Proof.
  intros Hd [H1 H2]. assert (0 < m) by (pose proof (Z.pow_pos_nonneg 2 d); lia). rewrite digits_spec by lia.
  rewrite (proj2 (Z.eqb_neq m 0)) by lia. f_equal. by apply Z.log2_unique.
Qed.
Lemma digits_le m d : 0 <= d -> 0 <= m < 2 ^ d -> Zdigits2 m <= d.
Proof.
  intros Hd [H0 H]. rewrite digits_spec by done. destruct (Z.eqb_spec m 0); [done|].
  assert (Z.log2 m < d) by (apply Z.log2_lt_pow2; lia). lia.
Qed.
Lemma digits_ge m d : 0 <= d -> 2 ^ d <= m -> d + 1 <= Zdigits2 m.
Proof.
  intros Hd H. assert (0 < m) by (pose proof (Z.pow_pos_nonneg 2 d); lia). rewrite digits_spec by lia.
  rewrite (proj2 (Z.eqb_neq m 0)) by lia. pose proof (Z.log2_le_pow2 m d ltac:(lia)) as [Hl _]. lia.
Qed.
Lemma digits_half m k : 0 <= k -> 0 < m / 2 ^ k -> 0 <= m -> Zdigits2 (m / 2 ^ k) = Zdigits2 m - k.
Proof.
  intros Hk Hq Hm. assert (0 < m) by (destruct (Z.eq_dec m 0) as [->|]; [rewrite Z.div_0_l in Hq; lia|lia]).
  destruct (digits_bounds m ltac:(done)) as [[H1 H2] H3]. set (d := Zdigits2 m) in *.
  assert (k < d) as Hkd.
  { apply Z.nle_gt. intros Hle. rewrite Z.div_small in Hq; [lia|]. split; [done|].
    apply Z.lt_le_trans with (2 ^ d); [done|]. apply Z.pow_le_mono_r; lia. }
  replace (d - k) with (d - k - 1 + 1) by lia. apply digits_unique; [lia|]. split.
  - apply Z.div_le_lower_bound; [lia|]. rewrite <- Z.pow_add_r by lia. replace (k + (d - k - 1)) with (d - 1) by lia. done.
  - apply Z.div_lt_upper_bound; [lia|]. rewrite <- Z.pow_add_r by lia. by replace (k + (d - k - 1 + 1)) with d by lia.
Qed.

(** ** Shifting right *)

Lemma iter_pos_nat {A} (f : A -> A) p x : SpecFloat.iter_pos f p x = Nat.iter (Pos.to_nat p) f x.
Proof.
  revert x. induction p as [p IH|p IH|]; intros x; cbn [SpecFloat.iter_pos]; [| |done].
  - rewrite !IH, Pos2Nat.inj_xI. rewrite <- Nat.iter_add. rewrite <- Nat.iter_succ_r. f_equal. lia.
  - rewrite !IH, Pos2Nat.inj_xO. rewrite <- Nat.iter_add. f_equal. lia.
Qed.
Lemma shr_1_m m r s : 0 <= m -> shr_m (shr_1 (Build_shr_record m r s)) = m / 2.
Proof. rewrite <- Z.div2_div. destruct m as [|[]|]; by try lia. Qed.
Lemma shr_1_exact m : 0 <= m -> shr_1 (Build_shr_record (2 * m) false false) = Build_shr_record m false false.
Proof. destruct m; [done|done|lia]. Qed.
Lemma iter_shr_m n mrs : 0 <= shr_m mrs -> shr_m (Nat.iter n shr_1 mrs) = shr_m mrs / 2 ^ Z.of_nat n.
Proof.
  intros Hm. induction n as [|n IH]; [by rewrite Z.div_1_r|]. rewrite Nat.iter_succ.
  destruct (Nat.iter n shr_1 mrs) as [m r s]. cbn [shr_m] in IH. rewrite shr_1_m.
  - rewrite IH, Z.div_div by lia. f_equal. rewrite Nat2Z.inj_succ, Z.pow_succ_r by lia. lia.
  - rewrite IH. apply Z.div_pos; lia.
Qed.
Lemma iter_shr_exact n m : 0 <= m ->
  Nat.iter n shr_1 (Build_shr_record (m * 2 ^ Z.of_nat n) false false) = Build_shr_record m false false.
Proof.
  revert m. induction n as [|n IH]; intros m Hm; [cbn; by rewrite Z.mul_1_r|].
  rewrite Nat.iter_succ, Nat2Z.inj_succ, Z.pow_succ_r by lia.
  replace (m * (2 * 2 ^ Z.of_nat n)) with (2 * m * 2 ^ Z.of_nat n) by lia. rewrite IH by lia. by apply shr_1_exact.
Qed.
Lemma shr_m_shift mrs e k : 0 <= shr_m mrs -> 0 <= k -> exists mrs', shr mrs e k = (mrs', e + k) /\ shr_m mrs' = shr_m mrs / 2 ^ k.
Proof.
  intros Hm Hk. unfold shr. destruct k as [|p|]; [|clear Hk|lia].
  - exists mrs. by rewrite Z.add_0_r, Z.div_1_r.
  - eexists. split; [done|]. rewrite iter_pos_nat, iter_shr_m by done. by rewrite positive_nat_Z.
Qed.
Lemma shr_exact m e k : 0 <= m -> 0 <= k ->
  shr (Build_shr_record (m * 2 ^ k) false false) e k = (Build_shr_record m false false, e + k).
Proof.
  intros Hm Hk. unfold shr. destruct k as [|p|]; [|clear Hk|lia].
  - by rewrite Z.add_0_r, Z.mul_1_r.
  - f_equal. rewrite iter_pos_nat. rewrite <- (positive_nat_Z p). by apply iter_shr_exact.
Qed.
Lemma shr_none mrs e k : k <= 0 -> shr mrs e k = (mrs, e).
Proof. by destruct k. Qed.

(** ** The canonical non-negative numbers *)

Definition nn (x : float64) : bool :=
  match x with
  | S754_zero _ | S754_infinity false => true
  | S754_finite false m e => bounded 53 1024 m e
  | _ => false
  end.
Definition finite (x : float64) : bool := match x with S754_zero _ | S754_finite _ _ _ => true | _ => false end.

Lemma bounded_eq m e : bounded 53 1024 m e = true <-> fexp64 (Zdigits2 (Zpos m) + e) = e /\ e <= 971.
Proof. unfold bounded, canonical_mantissa. rewrite andb_true_iff, Z.eqb_eq, Z.leb_le. done. Qed.
Lemma bounded_spec m e : bounded 53 1024 m e = true ->
  -1074 <= e <= 971 /\ 0 < Zpos m < 2 ^ 53 /\ (-1074 < e -> 2 ^ 52 <= Zpos m).
Proof.
  rewrite bounded_eq, fexp64_eq. intros [He ?]. destruct (digits_bounds (Zpos m) ltac:(lia)) as [[H1 H2] H3].
  set (d := Zdigits2 (Zpos m)) in *. split; [lia|]. split.
  - split; [lia|]. apply Z.lt_le_trans with (2 ^ d); [done|]. apply Z.pow_le_mono_r; lia.
  - intros. replace 52 with (d - 1) by lia. done.
Qed.

(** The second half of [binary_round_aux]: renormalising the rounded mantissa. *)
Definition renorm (r E : Z) : float64 :=
  let '(mrs, e) := shr_fexp 53 1024 r E loc_Exact in
  match shr_m mrs with
  | Z0 => S754_zero false
  | Zpos m => if e <=? 971 then S754_finite false m e else S754_infinity false
  | Zneg _ => S754_nan
  end.
Definition rounded_at (E r : Z) (x : float64) : Prop :=
  nn x = true /\ (0 < r -> E < 971 -> exists m e, x = S754_finite false m e /\ E <= e <= E + 1).

Lemma renorm_same r E : 0 <= r -> fexp64 (Zdigits2 r + E) = E -> rounded_at E r (renorm r E).
Proof.
  intros Hr Hc. unfold renorm, shr_fexp. rewrite shr_none by lia. cbn [shr_m shr_record_of_loc].
  destruct r as [|p|]; [by split| |lia]. destruct (Z.leb_spec E 971); (split; [|intros; first [lia|do 2 eexists; split; [done|lia]]]); [by apply bounded_eq|done].
Qed.
Lemma renorm_carry d E : 1 <= d -> fexp64 (d + 1 + E) = E + 1 -> rounded_at E (2 ^ d) (renorm (2 ^ d) E).
Proof.
  intros Hd Hc. assert (Zdigits2 (2 ^ d) = d + 1) as Hdr.
  { apply digits_unique; [lia|]. rewrite Z.pow_add_r by lia. lia. }
  unfold renorm, shr_fexp. rewrite Hdr, Hc. replace (E + 1 - E) with 1 by lia. cbn [shr_record_of_loc].
  replace (2 ^ d) with (2 ^ (d - 1) * 2 ^ 1) by (rewrite <- Z.pow_add_r by lia; f_equal; lia).
  rewrite shr_exact by lia. cbn [shr_m]. pose proof (Z.pow_pos_nonneg 2 (d - 1) ltac:(lia) ltac:(lia)) as Hpos.
  unfold rounded_at. assert (Zdigits2 (2 ^ (d - 1)) = d) as Hdd.
  { replace d with (d - 1 + 1) at 2 by lia. apply digits_unique; [lia|]. rewrite Z.pow_add_r by lia. lia. }
  destruct (2 ^ (d - 1)) as [|p|]; [lia| |lia]. destruct (Z.leb_spec (E + 1) 971); (split; [|intros; first [lia|do 2 eexists; split; [done|lia]]]); [|done].
  apply bounded_eq. rewrite Hdd. split; [rewrite !fexp64_eq in *; lia|lia].
Qed.

(** The first half: the mantissa is cut where the format wants its digits. *)
Lemma cut_canonical m e : 0 <= m -> e <= fexp64 (Zdigits2 m + e) ->
  let E := fexp64 (Zdigits2 m + e) in fexp64 (Zdigits2 (m / 2 ^ (E - e)) + E) = E.
Proof.
  intros Hm He E. set (k := E - e). set (q := m / 2 ^ k). assert (0 <= q) as Hq by (apply Z.div_pos; lia).
  destruct (Z.eq_dec q 0) as [Hq0|Hq0]; [|unfold q; rewrite digits_half by lia; unfold k, E; f_equal; unfold E; lia].
  rewrite Hq0. cbn [Zdigits2]. destruct (Z.eq_dec m 0) as [->|].
  - unfold E in *. cbn [Zdigits2] in *. rewrite !fexp64_eq in *. lia.
  - destruct (digits_bounds m ltac:(lia)) as [[H1 H2] H3].
    assert (Zdigits2 m <= k); [|unfold k, E in *; rewrite !fexp64_eq in *; lia].
    apply Z.nlt_ge. intros Hlt. assert (0 < q); [|lia]. apply Z.div_str_pos. split; [lia|].
    apply Z.le_trans with (2 ^ (Zdigits2 m - 1)); [|lia]. apply Z.pow_le_mono_r; lia.
Qed.
Lemma round_aux_eq m e l : 0 <= m -> e <= fexp64 (Zdigits2 m + e) ->
  let E := fexp64 (Zdigits2 m + e) in
  exists r, (r = m / 2 ^ (E - e) \/ r = m / 2 ^ (E - e) + 1) /\ binary_round_aux 53 1024 false m e l = renorm r E.
Proof.
  intros Hm He E. assert (0 <= shr_m (shr_record_of_loc m l)) as Hl by (by destruct l as [|[]]).
  destruct (shr_m_shift (shr_record_of_loc m l) e (E - e) Hl ltac:(lia)) as (mrs & Hs & Hmrs).
  replace (shr_m (shr_record_of_loc m l)) with m in Hmrs by (by destruct l as [|[]]).
  replace (e + (E - e)) with E in Hs by lia. rewrite <- Hmrs.
  exists (round_nearest_even (shr_m mrs) (loc_of_shr_record mrs)). split.
  - unfold round_nearest_even. destruct (loc_of_shr_record mrs) as [|[]]; [by left| |by left|by right].
    destruct (Z.even _); [by left|by right].
  - unfold binary_round_aux, shr_fexp at 1. fold E. rewrite Hs. done.
Qed.
(** Rounding gives a canonical number, finite and not zero where the cut
    mantissa is not zero and the exponent small enough. *)
Lemma round_aux_at m e l : 0 <= m -> e <= fexp64 (Zdigits2 m + e) ->
  let E := fexp64 (Zdigits2 m + e) in rounded_at E (m / 2 ^ (E - e)) (binary_round_aux 53 1024 false m e l).
Proof.
  intros Hm He. destruct (round_aux_eq m e l Hm He) as (r & Hr & ->). pose proof (cut_canonical m e Hm He) as Hcan.
  cbv zeta in Hr, Hcan |- *. set (E := fexp64 (Zdigits2 m + e)) in *. set (q := m / 2 ^ (E - e)) in *.
  assert (0 <= q) as Hq by (apply Z.div_pos; lia).
  destruct (Z.eq_dec (fexp64 (Zdigits2 r + E)) E) as [Hc|Hc].
  { destruct (renorm_same r E ltac:(lia) Hc) as [H1 H2]. split; [done|]. intros. apply H2; lia. }
  destruct Hr as [->|Hr]; [done|]. assert (0 < q) as Hq1.
  { destruct (Z.eq_dec q 0) as [H0|]; [|lia]. exfalso. apply Hc. rewrite Hr, H0. change (Zdigits2 (0 + 1)) with 1.
    rewrite H0 in Hcan. change (Zdigits2 0) with 0 in Hcan. rewrite fexp64_eq in Hcan |- *. lia. }
  destruct (digits_bounds q Hq1) as [[H1 H2] H3]. set (d := Zdigits2 q) in *.
  assert (q + 1 = 2 ^ d) as Hpow.
  { destruct (Z.eq_dec (q + 1) (2 ^ d)); [done|]. exfalso. apply Hc. rewrite Hr. rewrite <- Hcan at 2. do 2 f_equal.
    replace d with (d - 1 + 1) by lia. apply digits_unique; [lia|]. replace (d - 1 + 1) with d by lia. lia. }
  rewrite Hr, Hpow in Hc |- *. assert (fexp64 (d + 1 + E) = E + 1) as Hcarry.
  { replace (Zdigits2 (2 ^ d)) with (d + 1) in Hc; [rewrite fexp64_eq in Hc, Hcan |- *; lia|].
    symmetry. apply digits_unique; [lia|]. rewrite Z.pow_add_r by lia. lia. }
  destruct (renorm_carry d E H3 Hcarry) as [H4 H5]. split; [done|]. intros. apply H5; lia.
Qed.
Lemma round_aux_nn m e l : 0 <= m -> e <= fexp64 (Zdigits2 m + e) -> nn (binary_round_aux 53 1024 false m e l) = true.
Proof. intros Hm He. by destruct (round_aux_at m e l Hm He). Qed.

Lemma round_nn p e : nn (binary_round 53 1024 false p e) = true.
Proof.
  unfold binary_round, shl_align. set (E := fexp64 (Zpos (digits2_pos p) + e)).
  destruct (E - e) as [|d|d] eqn:Hd; [apply round_aux_nn; [lia|]; change (e <= E); lia..|].
  apply round_aux_nn; [lia|]. set (p' := Pos.iter xO p d). assert (Zpos p' = Zpos p * 2 ^ Zpos d) as Hp'.
  { change p' with (Zpower.shift_pos d p). rewrite Zpower.shift_pos_correct. change (Z.pow_pos 2 d) with (2 ^ Zpos d). lia. }
  enough (Zdigits2 (Zpos p') = Zdigits2 (Zpos p) + Zpos d) as ->.
  - cbn [Zdigits2]. unfold E in *. rewrite !fexp64_eq in *. lia.
  - destruct (digits_bounds (Zpos p) ltac:(lia)) as [[H1 H2] H3].
    replace (Zdigits2 (Zpos p) + Zpos d) with (Zdigits2 (Zpos p) + Zpos d - 1 + 1) by lia. apply digits_unique; [lia|].
    rewrite Hp'. replace (Zdigits2 (Zpos p) + Zpos d - 1 + 1) with (Zdigits2 (Zpos p) + Zpos d) by lia.
    replace (Zdigits2 (Zpos p) + Zpos d - 1) with (Zdigits2 (Zpos p) - 1 + Zpos d) by lia.
    rewrite !Z.pow_add_r by lia. split; [apply Z.mul_le_mono_nonneg_r; lia|apply Z.mul_lt_mono_pos_r; lia].
Qed.
Lemma normalize_nn z e : 0 <= z -> nn (binary_normalize 53 1024 z e false) = true.
Proof. destruct z; [done| |lia]. intros _. apply round_nn. Qed.
Lemma of_int_nn n : 0 <= n -> nn (of_int n) = true.
Proof. apply normalize_nn. Qed.
Lemma f_add_nn x y : nn x = true -> nn y = true -> nn (f_add x y) = true.
Proof.
  unfold f_add. destruct x as [sx|[]| |[] mx ex], y as [sy|[]| |[] my ey]; try done.
  - by destruct sx, sy.
  - intros _ _. cbn [SFadd cond_Zopp]. by apply normalize_nn.
Qed.
Lemma digits_mul p q : Zdigits2 (Zpos p) + Zdigits2 (Zpos q) - 1 <= Zdigits2 (Zpos (p * q)).
Proof.
  destruct (digits_bounds (Zpos p) ltac:(lia)) as [[Hp _] ?]. destruct (digits_bounds (Zpos q) ltac:(lia)) as [[Hq _] ?].
  replace (Zdigits2 (Zpos p) + Zdigits2 (Zpos q) - 1) with (Zdigits2 (Zpos p) + Zdigits2 (Zpos q) - 2 + 1) by lia.
  apply digits_ge; [lia|]. replace (Zdigits2 (Zpos p) + Zdigits2 (Zpos q) - 2) with (Zdigits2 (Zpos p) - 1 + (Zdigits2 (Zpos q) - 1)) by lia.
  rewrite Z.pow_add_r, Pos2Z.inj_mul by lia. apply Z.mul_le_mono_nonneg; lia.
Qed.
(** Multiplying by a finite positive number. *)
Lemma f_mul_nn m e y : bounded 53 1024 m e = true -> nn y = true -> nn (f_mul (S754_finite false m e) y) = true.
Proof.
  unfold f_mul. intros Hx. destruct y as [sy|[]| |[] my ey]; try done. intros Hy. cbn [SFmul xorb nn] in *.
  apply round_aux_nn; [lia|]. apply bounded_eq in Hx as [Hx _]. apply bounded_eq in Hy as [Hy _].
  pose proof (digits_mul m my). destruct (digits_bounds (Zpos m) ltac:(lia)) as [_ ?].
  destruct (digits_bounds (Zpos my) ltac:(lia)) as [_ ?]. rewrite !fexp64_eq in *. lia.
Qed.
(** The quotient before rounding. *)
Lemma f_div_eq m1 e1 m2 e2 :
  let d1 := Zdigits2 (Zpos m1) in let d2 := Zdigits2 (Zpos m2) in
  let F := fexp64 (d1 + e1 - (d2 + e2)) in let e' := Z.min F (e1 - e2) in let s := e1 - e2 - e' in
  exists q l, f_div (S754_finite false m1 e1) (S754_finite false m2 e2) = binary_round_aux 53 1024 false q e' l /\
    0 <= q /\ q * Zpos m2 <= Zpos m1 * 2 ^ s < (q + 1) * Zpos m2.
Proof.
  unfold f_div. cbn [SFdiv xorb]. unfold SFdiv_core_binary. cbv zeta.
  set (e' := Z.min _ (e1 - e2)). set (s := e1 - e2 - e'). assert (0 <= s) as Hs by lia.
  assert (match s with Z0 => Zpos m1 | Zpos _ => Z.shiftl (Zpos m1) s | Zneg _ => 0 end = Zpos m1 * 2 ^ s) as ->.
  { rewrite <- Z.shiftl_mul_pow2 by done. destruct s; [by rewrite Z.shiftl_0_r|done|lia]. }
  pose proof (Z_div_mod (Zpos m1 * 2 ^ s) (Zpos m2) ltac:(lia)) as Hdm.
  destruct (Z.div_eucl _ _) as [q r]. destruct Hdm as [Hq Hr]. exists q, (new_location (Zpos m2) r).
  split; [done|]. pose proof (Z.pow_pos_nonneg 2 s ltac:(lia) Hs). nia.
Qed.
(** Its digits. *)
Lemma quotient_digits m1 m2 s q : 0 <= s -> q * Zpos m2 <= Zpos m1 * 2 ^ s < (q + 1) * Zpos m2 -> 0 <= q ->
  let d1 := Zdigits2 (Zpos m1) in let d2 := Zdigits2 (Zpos m2) in
  (q = 0 -> d1 + s <= d2) /\ (0 < q -> d1 + s - d2 <= Zdigits2 q <= d1 + s - d2 + 1).
Proof.
  intros Hs [Hq1 Hq2] Hq d1 d2. destruct (digits_bounds (Zpos m1) ltac:(lia)) as [[H1 H2] H3].
  destruct (digits_bounds (Zpos m2) ltac:(lia)) as [[H4 H5] H6]. fold d1 in H1, H2, H3. fold d2 in H4, H5, H6.
  assert (2 ^ (d1 - 1 + s) < (q + 1) * 2 ^ d2) as Hlow.
  { rewrite Z.pow_add_r by lia. apply Z.le_lt_trans with (Zpos m1 * 2 ^ s); [apply Z.mul_le_mono_nonneg_r; lia|]. nia. }
  split.
  - intros ->. apply Z.nlt_ge. intros Hlt. pose proof (Z.pow_le_mono_r 2 d2 (d1 - 1 + s) ltac:(lia) ltac:(lia)). lia.
  - intros Hpos. destruct (digits_bounds q Hpos) as [[H7 H8] H9]. split; apply Z.nlt_ge; intros Hlt.
    + assert (2 ^ Zdigits2 q * 2 ^ d2 <= 2 ^ (d1 - 1 + s)); [|nia].
      rewrite <- Z.pow_add_r by lia. apply Z.pow_le_mono_r; lia.
    + assert (2 ^ (Zdigits2 q - 1) * 2 ^ (d2 - 1) <= q * Zpos m2) by (apply Z.mul_le_mono_nonneg; lia).
      assert (Zpos m1 * 2 ^ s < 2 ^ d1 * 2 ^ s) by (apply Z.mul_lt_mono_pos_r; [apply Z.pow_pos_nonneg|]; lia).
      assert (2 ^ d1 * 2 ^ s <= 2 ^ (Zdigits2 q - 1) * 2 ^ (d2 - 1)); [|lia].
      rewrite <- !Z.pow_add_r by lia. apply Z.pow_le_mono_r; lia.
Qed.
Lemma f_div_nn m1 e1 m2 e2 : nn (f_div (S754_finite false m1 e1) (S754_finite false m2 e2)) = true.
Proof.
  destruct (f_div_eq m1 e1 m2 e2) as (q & l & -> & Hq & Hb). apply round_aux_nn; [done|].
  apply quotient_digits in Hb as [Hz Hp]; [|lia|done]. destruct (Z.eq_dec q 0) as [Hq0|].
  - specialize (Hz Hq0). rewrite Hq0. change (Zdigits2 0) with 0. rewrite !fexp64_eq in *. lia.
  - specialize (Hp ltac:(lia)). rewrite !fexp64_eq in *. lia.
Qed.
(** A quotient well inside the normal range is finite and not zero. *)
Lemma f_div_normal m1 e1 m2 e2 : bounded 53 1024 m1 e1 = true -> bounded 53 1024 m2 e2 = true ->
  -52 <= e1 <= 11 -> -52 <= e2 <= 11 ->
  exists m e, f_div (S754_finite false m1 e1) (S754_finite false m2 e2) = S754_finite false m e.
Proof.
  intros H1%bounded_eq H2%bounded_eq He1 He2. destruct H1 as [H1 _]. destruct H2 as [H2 _].
  assert (Zdigits2 (Zpos m1) = 53) as Hd1 by (rewrite fexp64_eq in H1; lia).
  assert (Zdigits2 (Zpos m2) = 53) as Hd2 by (rewrite fexp64_eq in H2; lia).
  destruct (f_div_eq m1 e1 m2 e2) as (q & l & -> & Hq & Hb). cbv zeta in *. rewrite Hd1, Hd2 in *.
  apply quotient_digits in Hb as [Hz Hp]; [|lia|done]. rewrite Hd1, Hd2 in *.
  assert (fexp64 (53 + e1 - (53 + e2)) = e1 - e2 - 53) as HF by (rewrite fexp64_eq; lia). rewrite HF in *.
  replace (Z.min (e1 - e2 - 53) (e1 - e2)) with (e1 - e2 - 53) in * by lia.
  assert (0 < q) as Hq1 by (destruct (Z.eq_dec q 0) as [Hq0|]; [specialize (Hz Hq0)|]; lia). specialize (Hp Hq1).
  destruct (digits_bounds q Hq1) as [[H7 H8] H9].
  destruct (round_aux_at q (e1 - e2 - 53) l Hq) as [_ H]; [rewrite fexp64_eq; lia|].
  destruct H as (m & e & H & _); [|rewrite fexp64_eq; lia|eauto].
  apply Z.div_str_pos. split; [apply Z.pow_pos_nonneg; [lia|rewrite fexp64_eq; lia]|].
  apply Z.le_trans with (2 ^ (Zdigits2 q - 1)); [|done]. apply Z.pow_le_mono_r; [lia|rewrite fexp64_eq; lia].
Qed.

(** ** Values

    A finite number is an integer multiple of [2^-1074], the least positive
    float64. *)

Definition unit_val : Z := 2 ^ 1074.
Definition val (x : float64) : Z :=
  match x with S754_finite s m e => cond_Zopp s (Zpos m * 2 ^ (e + 1074)) | _ => 0 end.

Lemma val_scale m e : -1074 <= e -> Zpos m * 2 ^ (e + 1074) > 0.
Proof. intros. pose proof (Z.pow_pos_nonneg 2 (e + 1074)). nia. Qed.
Lemma val_nn x : nn x = true -> 0 <= val x.
Proof.
  destruct x as [| | |[] m e]; try done. cbn [nn val cond_Zopp]. intros Hb%bounded_spec.
  pose proof (val_scale m e ltac:(lia)). lia.
Qed.
(** A larger exponent is a larger number. *)
Lemma val_exponent m1 e1 m2 e2 : bounded 53 1024 m1 e1 = true -> bounded 53 1024 m2 e2 = true -> e1 < e2 ->
  Zpos m1 * 2 ^ (e1 + 1074) < Zpos m2 * 2 ^ (e2 + 1074).
Proof.
  intros (H1 & H2 & _)%bounded_spec (H3 & _ & H4)%bounded_spec He. specialize (H4 ltac:(lia)).
  apply Z.lt_le_trans with (2 ^ 53 * 2 ^ (e1 + 1074)).
  - apply Z.mul_lt_mono_pos_r; [apply Z.pow_pos_nonneg|]; lia.
  - apply Z.le_trans with (2 ^ 52 * 2 ^ (e2 + 1074)); [|apply Z.mul_le_mono_nonneg_r; lia].
    rewrite <- !Z.pow_add_r by lia. apply Z.pow_le_mono_r; lia.
Qed.
Lemma compare_val x y : nn x = true -> nn y = true -> finite x = true -> finite y = true ->
  SFcompare x y = Some (Z.compare (val x) (val y)).
Proof.
  destruct x as [| | |[] m1 e1], y as [| | |[] m2 e2]; try done; cbn [nn val cond_Zopp SFcompare]; intros Hx Hy _ _.
  - apply bounded_spec in Hy. pose proof (val_scale m2 e2 ltac:(lia)). f_equal. symmetry. apply Z.compare_lt_iff. lia.
  - apply bounded_spec in Hx. pose proof (val_scale m1 e1 ltac:(lia)). f_equal. symmetry. apply Z.compare_gt_iff. lia.
  - f_equal. destruct (Z.compare_spec e1 e2) as [->|H|H].
    + apply bounded_spec in Hx. pose proof (Z.pow_pos_nonneg 2 (e2 + 1074) ltac:(lia) ltac:(lia)).
      change (Pos.compare_cont Eq m1 m2) with (Zpos m1 ?= Zpos m2). rewrite (Z.mul_comm (Zpos m1)), (Z.mul_comm (Zpos m2)).
      by apply Zmult_compare_compat_l; apply Z.lt_gt.
    + symmetry. apply Z.compare_lt_iff. by apply val_exponent.
    + symmetry. apply Z.compare_gt_iff. by apply val_exponent.
Qed.
Lemma f_le_val x y : nn x = true -> nn y = true -> finite x = true -> finite y = true -> f_le x y = (val x <=? val y).
Proof. intros. unfold f_le, SFleb. rewrite compare_val by done. unfold Z.leb. by destruct (val x ?= val y). Qed.
Lemma f_lt_val x y : nn x = true -> nn y = true -> finite x = true -> finite y = true -> f_lt x y = (val x <? val y).
Proof. intros. unfold f_lt, SFltb. rewrite compare_val by done. unfold Z.ltb. by destruct (val x ?= val y). Qed.

(** The smaller of a finite number and any. *)
Lemma math_Min_nn x y : nn x = true -> nn y = true -> finite x = true ->
  nn (math_Min x y) = true /\ finite (math_Min x y) = true /\ val (math_Min x y) <= val x.
Proof.
  intros Hx Hy Hfx. destruct (finite y) eqn:Hfy.
  - assert (math_Min x y = (if f_lt x y then x else y) \/ exists s, math_Min x y = S754_zero s) as [->|[s ->]].
    { destruct x as [| | |[] m1 e1], y as [| | |[] m2 e2]; try done; try (by left). right. by eexists. }
    + rewrite f_lt_val by done. destruct (Z.ltb_spec (val x) (val y)); split_and!; by try lia.
    + split_and!; [done..|]. by apply val_nn.
  - destruct y as [|[]| |]; try done. assert (math_Min x (S754_infinity false) = x) as -> by (by destruct x as [| | |[] m1 e1]).
    split_and!; by try lia.
Qed.

(** ** Exact operations *)

Lemma round_aux_exact m e k : 0 < m -> 0 <= k -> fexp64 (Zdigits2 (m * 2 ^ k) + e) = e + k -> e + k <= 971 ->
  binary_round_aux 53 1024 false (m * 2 ^ k) e loc_Exact = S754_finite false (Z.to_pos m) (e + k).
Proof.
  intros Hm Hk He Hmax. assert (Zdigits2 (m * 2 ^ k) = Zdigits2 m + k) as Hd.
  { pose proof (digits_half (m * 2 ^ k) k) as H. rewrite Z.div_mul in H by lia. rewrite H by nia. lia. }
  unfold binary_round_aux, shr_fexp. cbn [shr_record_of_loc]. rewrite He. replace (e + k - e) with k by lia.
  rewrite shr_exact by lia. cbn [shr_m shr_r shr_s loc_of_shr_record round_nearest_even shr_record_of_loc].
  rewrite shr_none by (rewrite Hd in He; replace (Zdigits2 m + (e + k)) with (Zdigits2 m + k + e) by lia; lia).
  cbn [shr_m]. destruct m as [|p|]; [lia| |lia]. by rewrite (proj2 (Z.leb_le (e + k) (1024 - 53))) by lia.
Qed.
Lemma normalize_exact a j e : 0 < a < 2 ^ 53 -> 0 <= j -> -1074 <= e -> j + e <= 971 ->
  exists m' e', binary_normalize 53 1024 (a * 2 ^ j) e false = S754_finite false m' e' /\
    Zpos m' * 2 ^ (e' + 1074) = a * 2 ^ j * 2 ^ (e + 1074).
Proof.
  intros Ha Hj He Hje. assert (0 < a * 2 ^ j) as Hz by (pose proof (Z.pow_pos_nonneg 2 j); nia).
  assert (Zdigits2 (a * 2 ^ j) = Zdigits2 a + j) as Hd.
  { pose proof (digits_half (a * 2 ^ j) j) as H. rewrite Z.div_mul in H by lia. rewrite H by nia. lia. }
  pose proof (digits_le a 53 ltac:(lia) ltac:(lia)) as Ha53.
  destruct (a * 2 ^ j) as [|z|] eqn:Heq; [lia| |lia]. cbn [binary_normalize]. unfold binary_round, shl_align.
  set (E := fexp64 (Zpos (digits2_pos z) + e)). assert (E = Z.max (Zdigits2 a + j + e - 53) (-1074)) as HE.
  { unfold E. change (Zpos (digits2_pos z)) with (Zdigits2 (Zpos z)). rewrite Hd, fexp64_eq. lia. }
  destruct (Z.le_gt_cases e E) as [Hle|Hlt].
  - assert (match E - e with Zneg d => (Pos.iter xO z d, E) | _ => (z, e) end = (z, e)) as -> by (destruct (E - e) eqn:?; [done|done|lia]).
    assert (Zpos z = a * 2 ^ (j - (E - e)) * 2 ^ (E - e)) as Hz'.
    { rewrite <- Heq, <- Z.mul_assoc, <- Z.pow_add_r by lia. do 2 f_equal. lia. }
    pose proof (Z.pow_pos_nonneg 2 (j - (E - e)) ltac:(lia) ltac:(lia)) as Hpos.
    rewrite Hz', round_aux_exact; [|nia|lia|rewrite <- Hz'; change (E = e + (E - e)); lia|lia].
    do 2 eexists. split; [done|]. rewrite Z2Pos.id by nia. rewrite <- !Z.mul_assoc, <- !Z.pow_add_r by lia.
    do 2 f_equal. lia.
  - destruct (E - e) as [|d|d] eqn:HEe; [lia..|]. assert (Zpos (Pos.iter xO z d) = Zpos z * 2 ^ Zpos d) as Hsh.
    { change (Pos.iter xO z d) with (Zpower.shift_pos d z). rewrite Zpower.shift_pos_correct. change (Z.pow_pos 2 d) with (2 ^ Zpos d). lia. }
    rewrite Hsh. pose proof (round_aux_exact (Zpos z * 2 ^ Zpos d) E 0) as H. rewrite Z.mul_1_r, !Z.add_0_r in H.
    pose proof (digits_half (Zpos z * 2 ^ Zpos d) (Zpos d)) as Hd2. rewrite Z.div_mul in Hd2 by lia.
    rewrite H; [|nia|lia| |lia].
    + do 2 eexists. split; [done|]. rewrite Z2Pos.id by nia. rewrite <- !Z.mul_assoc, <- !Z.pow_add_r by lia. do 2 f_equal. lia.
    + specialize (Hd2 ltac:(lia) ltac:(lia) ltac:(nia)). rewrite fexp64_eq. lia.
Qed.

(** An integer below 2^53 is a float64. *)
Lemma of_int_exact n : 0 < n < 2 ^ 53 -> nn (of_int n) = true /\ finite (of_int n) = true /\ val (of_int n) = n * unit_val.
Proof.
  intros Hn. split; [apply of_int_nn; lia|]. destruct (normalize_exact n 0 0 Hn) as (m & e & Hm & Hv); [lia..|].
  rewrite Z.mul_1_r in Hm, Hv. unfold of_int. rewrite Hm. split; [done|]. cbn [val cond_Zopp]. by rewrite Hv.
Qed.
(** An int64 is finite and normal. *)
Lemma of_int_finite n : 0 < n < 2 ^ 63 -> exists m e, of_int n = S754_finite false m e /\ -52 <= e <= 11.
Proof.
  intros Hn. destruct (Z.lt_ge_cases n (2 ^ 53)) as [Hlt|Hge].
  - destruct (normalize_exact n 0 0 ltac:(lia)) as (m & e & H & Hv); [lia..|]. rewrite Z.mul_1_r in H, Hv.
    pose proof (of_int_nn n ltac:(lia)) as Hnn. unfold of_int in *. rewrite H in *. exists m, e. split; [done|].
    apply bounded_spec in Hnn as (H1 & H2 & H3). change (0 + 1074) with 1074 in Hv. split.
    + apply Z.nlt_ge. intros He. assert (Zpos m * 2 ^ (e + 1074) < 2 ^ 53 * 2 ^ (e + 1074)).
      { apply Z.mul_lt_mono_pos_r; [apply Z.pow_pos_nonneg|]; lia. }
      assert (2 ^ 53 * 2 ^ (e + 1074) <= 1 * 2 ^ 1074); [|nia].
      rewrite Z.mul_1_l, <- Z.pow_add_r by lia. apply Z.pow_le_mono_r; lia.
    + apply Z.nlt_ge. intros He. specialize (H3 ltac:(lia)).
      assert (2 ^ 52 * 2 ^ (e + 1074) <= Zpos m * 2 ^ (e + 1074)) by (apply Z.mul_le_mono_nonneg_r; lia).
      assert (2 ^ 53 * 2 ^ 1074 <= 2 ^ 52 * 2 ^ (e + 1074)); [|nia].
      rewrite <- !Z.pow_add_r by lia. apply Z.pow_le_mono_r; lia.
  - destruct n as [|p|]; [lia| |lia]. unfold of_int, binary_normalize, binary_round, shl_align. rewrite Z.add_0_r.
    change (Zpos (digits2_pos p)) with (Zdigits2 (Zpos p)). pose proof (digits_ge (Zpos p) 53 ltac:(lia) ltac:(lia)) as Hd.
    pose proof (digits_le (Zpos p) 63 ltac:(lia) ltac:(lia)) as Hd'. destruct (digits_bounds (Zpos p) ltac:(lia)) as [[H1 _] _].
    assert (fexp64 (Zdigits2 (Zpos p)) = Zdigits2 (Zpos p) - 53) as HE by (rewrite fexp64_eq; lia).
    rewrite HE. destruct (Zdigits2 (Zpos p) - 53 - 0) as [|q|q] eqn:Hq; [lia| |lia].
    destruct (round_aux_at (Zpos p) 0 loc_Exact) as [_ H]; [lia|rewrite Z.add_0_r, HE; lia|].
    rewrite Z.add_0_r, HE in H. destruct H as (m & e & H & He); [|lia|exists m, e; split; [done|lia]].
    apply Z.div_str_pos. split; [lia|].
    apply Z.le_trans with (2 ^ (Zdigits2 (Zpos p) - 1)); [|done]. apply Z.pow_le_mono_r; lia.
Qed.
Lemma of_int_one : of_int 1 = S754_finite false (2 ^ 52)%positive (-52).
Proof. reflexivity. Qed.

Lemma shl_align_eq m e e' : e' <= e -> Zpos (shl_align m e e').1 = Zpos m * 2 ^ (e - e').
Proof.
  intros H. unfold shl_align. destruct (e' - e) as [|d|d] eqn:Hd; [|lia|].
  - replace (e - e') with 0 by lia. cbn [fst]. lia.
  - cbn [fst]. change (Pos.iter xO m d) with (Zpower.shift_pos d m). rewrite Zpower.shift_pos_correct.
    change (Z.pow_pos 2 d) with (2 ^ Zpos d). replace (e - e') with (Zpos d) by lia. lia.
Qed.
(** Taking one from a number of at least one is exact. *)
Lemma f_sub_one x : nn x = true -> finite x = true -> unit_val <= val x < 2 ^ 53 * unit_val ->
  let y := f_sub x (of_int 1) in nn y = true /\ finite y = true /\ val y = val x - unit_val.
Proof.
  intros Hx Hf [Hlo Hhi]. assert (0 < unit_val) as Hu by (apply Z.pow_pos_nonneg; lia).
  destruct x as [| | |[] m e]; try done. cbn [nn val cond_Zopp] in *.
  destruct (bounded_spec _ _ Hx) as (Hrange & Hm & Hnorm).
  assert (e <= 0) as He0.
  { apply Z.nlt_ge. intros Hlt. specialize (Hnorm ltac:(lia)). unfold unit_val in Hhi.
    assert (2 ^ 52 * 2 ^ (e + 1074) <= Zpos m * 2 ^ (e + 1074)) by (apply Z.mul_le_mono_nonneg_r; lia).
    assert (2 ^ 53 * 2 ^ 1074 <= 2 ^ 52 * 2 ^ (e + 1074)); [|lia].
    rewrite <- !Z.pow_add_r by lia. apply Z.pow_le_mono_r; lia. }
  assert (-52 <= e) as He1.
  { apply Z.nlt_ge. intros Hlt. unfold unit_val in Hlo.
    assert (Zpos m * 2 ^ (e + 1074) < 2 ^ 53 * 2 ^ (e + 1074)) by (apply Z.mul_lt_mono_pos_r; [apply Z.pow_pos_nonneg|]; lia).
    assert (2 ^ 53 * 2 ^ (e + 1074) <= 2 ^ 1074); [|lia]. rewrite <- Z.pow_add_r by lia. apply Z.pow_le_mono_r; lia. }
  cbv zeta. rewrite of_int_one. unfold f_sub. cbn [SFsub cond_Zopp]. replace (Z.min e (-52)) with (-52) by lia.
  rewrite !shl_align_eq by lia. change (Zpos (2 ^ 52) * 2 ^ (-52 - -52)) with (2 ^ 52).
  replace (e - -52) with (e + 52) by lia. set (a := Zpos m - 2 ^ (- e)).
  assert (2 ^ 52 = 2 ^ (- e) * 2 ^ (e + 52)) as H52 by (rewrite <- Z.pow_add_r by lia; f_equal; lia).
  assert (Zpos m * 2 ^ (e + 52) - 2 ^ 52 = a * 2 ^ (e + 52)) as -> by (unfold a; rewrite H52 at 1; lia).
  assert (unit_val = 2 ^ (- e) * 2 ^ (e + 1074)) as Hunit by (unfold unit_val; rewrite <- Z.pow_add_r by lia; f_equal; lia).
  assert (a * 2 ^ (e + 1074) = Zpos m * 2 ^ (e + 1074) - unit_val) as <- by (rewrite Hunit; unfold a; lia).
  assert (0 <= a) as Ha by (pose proof (Z.pow_pos_nonneg 2 (e + 1074)); nia).
  destruct (Z.eq_dec a 0) as [->|Hne]; [done|].
  assert (0 < a < 2 ^ 53) as Hab by (pose proof (Z.pow_pos_nonneg 2 (- e)); lia).
  pose proof (normalize_nn (a * 2 ^ (e + 52)) (-52)) as Hnn.
  destruct (normalize_exact a (e + 52) (-52) Hab) as (m' & e' & Heq & Hv); [lia..|]. rewrite Heq in Hnn |- *.
  split; [apply Hnn; nia|]. split; [done|]. cbn [val cond_Zopp]. rewrite Hv, <- Z.mul_assoc, <- Z.pow_add_r by lia.
  do 2 f_equal. lia.
Qed.

(** ** Examples *)

Example third : f_div (of_int 1) (of_int 3) = S754_finite false 6004799503160661 (-54).
Proof. reflexivity. Qed.
Example tenths : f_add (f_div (of_int 1) (of_int 10)) (f_div (of_int 2) (of_int 10)) <> f_div (of_int 3) (of_int 10).
Proof. by vm_compute. Qed.
Example trunc_third : f_trunc (f_div (of_int 10) (of_int 3)) = Some 3.
Proof. reflexivity. Qed.
End Float64.
Import Float64.

(** ** The bucket *)

#[local] Open Scope string_scope.
#[local] Open Scope list_scope.
#[local] Open Scope Z_scope.

Definition maxThrottleKeys : Z := 65536.

Record bucketState := MkBucket { tokens : float64; lastSeen : time }.
Record tokenBucket := MkTokenBucket { buckets : gmap string bucketState; refillPerNano : float64; burst : float64 }.

Record Platform := MkPlatform {
  pf_range : gmap string bucketState -> list (string * bucketState);
  pf_madd : float64 -> float64 -> float64 -> float64;
  pf_convert : float64 -> Z
}.
Class Lawful (P : Platform) := {
  range_all m : pf_range P m ≡ₚ map_to_list m;
  madd_nn t m e r : nn t = true -> bounded 53 1024 m e = true -> nn r = true -> nn (pf_madd P t (S754_finite false m e) r) = true
}.
(** Two roundings, as on amd64, where a conversion that does not fit gives the
    least int64. *)
Definition amd64 : Platform :=
  MkPlatform map_to_list (fun t n r => f_add t (f_mul n r)) (fun x => - 2 ^ 63).
#[export] Instance amd64_lawful : Lawful amd64.
Proof. split; [done|]. intros. apply f_add_nn; [done|]. by apply f_mul_nn. Qed.

(** [now.Sub(t)]: a Duration, which saturates. *)
Definition Sub (t u : time) : Z := Z.max (- 2 ^ 63) (Z.min (2 ^ 63 - 1) (t - u)).

(** [NewTokenBucket]. The parameters are a Go int, a Duration and an int. *)
Definition NewTokenBucket (rate per burst : Z) : tokenBucket :=
  {| buckets := ∅;
     refillPerNano := if (0 <? rate) && (0 <? per) then f_div (of_int rate) (of_int per) else S754_zero false;
     burst := of_int burst |}.

Section Bucket.
Context (P : Platform).

Definition oldest_key (entries : list (string * bucketState)) : string :=
  (fold_left (fun '(oldestKey, oldest) '(k, b) =>
    if IsZero_time oldest || Before_time (lastSeen b) oldest then (k, lastSeen b) else (oldestKey, oldest))
    entries ("", time_zero)).1.
Definition evictIfFullLocked (m : gmap string bucketState) : gmap string bucketState :=
  if Z.of_nat (size m) <? maxThrottleKeys then m else delete (oldest_key (pf_range P m)) m.

Definition to_Duration (x : float64) : Z := match f_trunc x with Some n => n | None => pf_convert P x end.

(** The tokens of a bucket at [now]. *)
Definition refilled (t : tokenBucket) (now : time) (b : bucketState) : float64 :=
  let elapsed := Sub now (lastSeen b) in
  if 0 <? elapsed then math_Min (burst t) (pf_madd P (tokens b) (of_int elapsed) (refillPerNano t)) else tokens b.
Definition Allow (now : time) (key : string) (t : tokenBucket) : (bool * Z) * tokenBucket :=
  if f_le (refillPerNano t) (of_int 0) || f_le (burst t) (of_int 0) then ((true, 0), t)
  else
    let '(m, held) :=
      match buckets t !! key with
      | None => (evictIfFullLocked (buckets t), burst t)
      | Some b => (buckets t, refilled t now b)
      end in
    let put left := MkTokenBucket (<[key := MkBucket left now]> m) (refillPerNano t) (burst t) in
    if f_le (of_int 1) held then ((true, 0), put (f_sub held (of_int 1)))
    else ((false, to_Duration (f_div (f_sub (of_int 1) held) (refillPerNano t))), put held).

(** Calls in the order the mutex admits them. *)
Fixpoint run (calls : list (time * string)) (t : tokenBucket) : list bool * tokenBucket :=
  match calls with
  | [] => ([], t)
  | (now, key) :: calls =>
      let '((ok, _), t) := Allow now key t in
      let '(oks, t) := run calls t in (ok :: oks, t)
  end.

(** ** The invariant *)

Record ok (t : tokenBucket) : Prop := {
  ok_size : Z.of_nat (size (buckets t)) <= maxThrottleKeys;
  ok_refill : nn (refillPerNano t) = true;
  ok_burst : nn (burst t) = true /\ finite (burst t) = true /\ val (burst t) < 2 ^ 53 * unit_val;
  ok_tokens k b : buckets t !! k = Some b -> nn (tokens b) = true /\ finite (tokens b) = true /\ val (tokens b) <= val (burst t)
}.

Context `{!Lawful P}.

Lemma refilled_ok t now b : ok t -> nn (tokens b) = true -> finite (tokens b) = true -> val (tokens b) <= val (burst t) ->
  nn (refilled t now b) = true /\ finite (refilled t now b) = true /\ val (refilled t now b) <= val (burst t).
Proof.
  intros Hok Hnn Hf Hle. unfold refilled. destruct (Z.ltb_spec 0 (Sub now (lastSeen b))) as [Hpos|]; [|done].
  destruct (ok_burst t Hok) as (Hb1 & Hb2 & _). apply math_Min_nn; [done| |done].
  assert (nn (of_int (Sub now (lastSeen b))) = true) as Hn by (apply of_int_nn; lia).
  assert (exists m e, of_int (Sub now (lastSeen b)) = S754_finite false m e /\ -52 <= e <= 11) as (m & e & Hfin & _).
  { assert (Sub now (lastSeen b) < 2 ^ 63) as Hlt by (unfold Sub; lia). revert Hpos Hlt. generalize (Sub now (lastSeen b)).
    intros n Hpos Hlt. by apply of_int_finite. }
  rewrite Hfin in Hn |- *. apply madd_nn; [done|done|]. apply (ok_refill t Hok).
Qed.

(** A key the platform ranges over is the one dropped: the one least recently
    touched. *)
Lemma oldest_in entries : entries <> [] -> oldest_key entries ∈ entries.*1.
Proof.
  unfold oldest_key. destruct entries as [|[k b] entries]; [done|]. intros _. cbn [fold_left].
  change (IsZero_time time_zero) with true. cbn [orb].
  assert (forall es acc, acc.1 ∈ (k :: entries.*1) -> es ⊆ entries ->
    (fold_left (fun '(oldestKey, oldest) '(k, b) =>
      if IsZero_time oldest || Before_time (lastSeen b) oldest then (k, lastSeen b) else (oldestKey, oldest)) es acc).1
    ∈ k :: entries.*1) as H; [|by apply H; [left|]].
  induction es as [|[k' b'] es IH]; intros [k0 t0] Hacc Hsub; [done|]. cbn [fold_left]. apply IH; [|set_solver].
  destruct (_ || _); [|done]. right. apply list_elem_of_fmap. exists (k', b'). split; [done|]. apply Hsub. by left.
Qed.
Lemma evict_room m : Z.of_nat (size m) <= maxThrottleKeys -> Z.of_nat (size (evictIfFullLocked m)) < maxThrottleKeys.
Proof.
  intros Hm. unfold evictIfFullLocked. destruct (Z.ltb_spec (Z.of_nat (size m)) maxThrottleKeys); [done|].
  assert (oldest_key (pf_range P m) ∈ (pf_range P m).*1) as Hin.
  { apply oldest_in. intros He. pose proof (range_all (P := P) m) as Hp. rewrite He in Hp. apply Permutation_nil in Hp.
    apply map_to_list_empty_iff in Hp. subst m. rewrite map_size_empty in *. unfold maxThrottleKeys in *. lia. }
  apply list_elem_of_fmap in Hin as ([k b] & -> & Hk). rewrite (range_all m) in Hk. apply elem_of_map_to_list in Hk.
  cbn [fst]. rewrite map_size_delete_Some by (by eexists). unfold maxThrottleKeys in *. lia.
Qed.
Lemma evict_subseteq m : evictIfFullLocked m ⊆ m.
Proof. unfold evictIfFullLocked. case_match; [done|]. apply delete_subseteq. Qed.

Lemma Sub_same now : Sub now now = 0.
Proof. unfold Sub. lia. Qed.

(** The tokens a call of [key] at [now] finds. *)
Definition level (t : tokenBucket) (now : time) (key : string) : float64 :=
  match buckets t !! key with None => burst t | Some b => refilled t now b end.
Definition limits (t : tokenBucket) : Prop := f_le (refillPerNano t) (of_int 0) || f_le (burst t) (of_int 0) = false.

Lemma level_ok t now key : ok t ->
  nn (level t now key) = true /\ finite (level t now key) = true /\ val (level t now key) <= val (burst t).
Proof.
  intros Hok. unfold level. destruct (buckets t !! key) as [b|] eqn:Hb.
  - destruct (ok_tokens t Hok key b Hb) as (H1 & H2 & H3). by apply refilled_ok.
  - destruct (ok_burst t Hok) as (H1 & H2 & _). by split_and!.
Qed.

(** One call: it is allowed exactly when the bucket holds a whole token, and
    takes one token, exactly, when it is. *)
Lemma Allow_step t now key : ok t -> limits t ->
  let '((allowed, _), t') := Allow now key t in
  allowed = (unit_val <=? val (level t now key)) /\ ok t' /\ limits t' /\ (burst t' = burst t /\ refillPerNano t' = refillPerNano t) /\
  val (level t' now key) = (if allowed then val (level t now key) - unit_val else val (level t now key)) /\
  (size (buckets t') <= S (size (buckets t)))%nat /\
  forall k, k <> key -> match buckets t' !! k with
    | Some b => buckets t !! k = Some b
    | None => Z.of_nat (size (buckets t)) < maxThrottleKeys -> buckets t !! k = None end.
Proof.
  intros Hok Hlim. unfold Allow. unfold limits in Hlim. rewrite Hlim.
  destruct (level_ok t now key Hok) as (Hn & Hf & Hle). destruct (ok_burst t Hok) as (Hb1 & Hb2 & Hb3).
  destruct (of_int_exact 1 ltac:(lia)) as (H1 & H2 & H3).
  set (m := match buckets t !! key with None => evictIfFullLocked (buckets t) | Some _ => buckets t end).
  assert (m ⊆ buckets t) as Hm by (unfold m; destruct (buckets t !! key); [done|apply evict_subseteq]).
  assert (Z.of_nat (size m) < maxThrottleKeys \/ exists b, m !! key = Some b) as Hroom.
  { unfold m. destruct (buckets t !! key) eqn:He; [right; eauto|]. left. apply evict_room, (ok_size t Hok). }
  assert (forall left, nn left = true -> finite left = true -> val left <= val (burst t) ->
    let t' := MkTokenBucket (<[key := MkBucket left now]> m) (refillPerNano t) (burst t) in
    ok t' /\ val (level t' now key) = val left /\ (size (buckets t') <= S (size (buckets t)))%nat /\
    forall k, k <> key -> match buckets t' !! k with
      | Some b => buckets t !! k = Some b
      | None => Z.of_nat (size (buckets t)) < maxThrottleKeys -> buckets t !! k = None end) as Hput.
  { intros held Hn' Hf' Hle' t'. split_and!.
    - split; unfold t'; cbn [buckets refillPerNano burst].
      + rewrite map_size_insert. pose proof (ok_size t Hok) as Hsz. apply map_subseteq_size in Hm.
        destruct (m !! key) eqn:He; cbn; [lia|]. destruct Hroom as [Hroom|[b Hb]]; [lia|congruence].
      + apply (ok_refill t Hok).
      + apply (ok_burst t Hok).
      + intros k b [[<- <-]|[_ Hb]]%lookup_insert_Some; [by split_and!|]. apply (ok_tokens t Hok k). by eapply lookup_weaken.
    - unfold level, t'. cbn [buckets]. rewrite lookup_insert_eq. unfold refilled. cbn [lastSeen]. by rewrite Sub_same.
    - unfold t'. cbn [buckets]. rewrite map_size_insert. apply map_subseteq_size in Hm. destruct (m !! key); cbn; lia.
    - intros k Hk. unfold t'. cbn [buckets]. rewrite lookup_insert_ne by done.
      destruct (m !! k) as [b|] eqn:He; [by eapply lookup_weaken|]. intros Hsz. unfold m in He.
      destruct (buckets t !! key); [done|]. unfold evictIfFullLocked in He. by rewrite (proj2 (Z.ltb_lt _ _) Hsz) in He. }
  replace (match buckets t !! key with None => (evictIfFullLocked (buckets t), burst t) | Some b => (buckets t, refilled t now b) end)
    with (m, level t now key) by (unfold m, level; by destruct (buckets t !! key)).
  rewrite f_le_val, H3, Z.mul_1_l by done. destruct (Z.leb_spec unit_val (val (level t now key))) as [Hone|Hone].
  - destruct (f_sub_one (level t now key) Hn Hf ltac:(lia)) as (Hs1 & Hs2 & Hs3).
    assert (0 < unit_val) by (apply Z.pow_pos_nonneg; lia).
    destruct (Hput _ Hs1 Hs2 ltac:(lia)) as (Ho & Hv & Hsz & Hk). cbv zeta in *. by rewrite Hv, Hs3.
  - destruct (Hput _ Hn Hf Hle) as (Ho & Hv & Hsz & Hk). cbv zeta in *. by rewrite Hv.
Qed.

Lemma Allow_idle t now key : ~ limits t -> Allow now key t = ((true, 0), t).
Proof. unfold limits, Allow. by intros ->%not_false_is_true. Qed.
Lemma run_keeps calls t : ok t -> ok (run calls t).2 /\ (limits t -> limits (run calls t).2) /\ burst (run calls t).2 = burst t.
Proof.
  revert t. induction calls as [|[now key] calls IH]; intros t Hok; [done|]. cbn [run].
  destruct (f_le (refillPerNano t) (of_int 0) || f_le (burst t) (of_int 0)) eqn:Hlim.
  - rewrite Allow_idle by (unfold limits; congruence). specialize (IH t Hok). by destruct (run calls t).
  - pose proof (Allow_step t now key Hok Hlim) as Hstep. destruct (Allow now key t) as [[a r] t'].
    destruct Hstep as (_ & Hok' & Hlim' & [Hb _] & _). destruct (IH t' Hok') as (H1 & H2 & H3).
    destruct (run calls t') as [oks t2]. cbn [snd] in *. rewrite H3. auto.
Qed.

(** ** What a new bucket is *)

Lemma positive_gt x : nn x = true -> finite x = true -> 0 < val x -> f_le x (of_int 0) = false.
Proof. intros. rewrite f_le_val by done. apply Z.leb_gt. by change (val (of_int 0)) with 0. Qed.
Lemma new_ok rate per n : 0 < rate < 2 ^ 63 -> 0 < per < 2 ^ 63 -> 0 < n < 2 ^ 53 ->
  ok (NewTokenBucket rate per n) /\ limits (NewTokenBucket rate per n).
Proof.
  intros Hr Hp Hn. destruct (of_int_exact n Hn) as (Hb1 & Hb2 & Hb3). assert (0 < unit_val) as Hu by (apply Z.pow_pos_nonneg; lia).
  destruct (of_int_finite rate Hr) as (m1 & e1 & H1 & He1). destruct (of_int_finite per Hp) as (m2 & e2 & H2 & He2).
  pose proof (of_int_nn rate ltac:(lia)) as Hc1. pose proof (of_int_nn per ltac:(lia)) as Hc2. rewrite H1 in Hc1. rewrite H2 in Hc2.
  destruct (f_div_normal m1 e1 m2 e2 Hc1 Hc2 He1 He2) as (m & e & Hdiv). pose proof (f_div_nn m1 e1 m2 e2) as Hnn. rewrite Hdiv in Hnn.
  assert (refillPerNano (NewTokenBucket rate per n) = S754_finite false m e) as Hrefill.
  { unfold NewTokenBucket. cbn [refillPerNano]. rewrite !(proj2 (Z.ltb_lt _ _)) by lia. cbn [andb]. by rewrite H1, H2. }
  split.
  - split; [done|by rewrite Hrefill|split_and!; [done..|change (val (of_int n) < 2 ^ 53 * unit_val); nia]|done].
  - unfold limits. rewrite Hrefill, !positive_gt; [done|done|done|change (0 < val (of_int n)); nia|done|done|].
    cbn [val cond_Zopp]. apply bounded_spec in Hnn. pose proof (val_scale m e ltac:(lia)). lia.
Qed.

(** ** At one instant *)

Definition asked (k : string) (keys : list string) : Z := Z.of_nat (length (filter (fun key => key = k) keys)).
Definition allowed (k : string) (keys : list string) (oks : list bool) : Z :=
  Z.of_nat (length (filter (fun p : string * bool => p.1 = k /\ p.2 = true) (zip keys oks))).

Lemma level_kept t t' now k : burst t' = burst t -> refillPerNano t' = refillPerNano t -> buckets t' !! k = buckets t !! k ->
  level t' now k = level t now k.
Proof. intros Hb Hr He. unfold level, refilled. by rewrite He, Hb, Hr. Qed.

(** The key that makes room is one least recently touched. *)
Lemma oldest_min entries : entries <> [] -> Forall (fun p : string * bucketState => lastSeen p.2 <> time_zero) entries ->
  exists b, (oldest_key entries, b) ∈ entries /\ forall p, p ∈ entries -> lastSeen b <= lastSeen p.2.
Proof.
  unfold oldest_key. destruct entries as [|[k0 b0] entries]; [done|]. intros _ [Hz0 Hz]%Forall_cons. cbn [fold_left].
  change (IsZero_time time_zero) with true. cbn [orb].
  assert (forall es pre k t, Forall (fun p : string * bucketState => lastSeen p.2 <> time_zero) es -> t <> time_zero ->
    (exists b, (k, b) ∈ pre /\ lastSeen b = t /\ forall p, p ∈ pre -> t <= lastSeen p.2) ->
    exists b, ((fold_left (fun '(oldestKey, oldest) '(k, b) =>
      if IsZero_time oldest || Before_time (lastSeen b) oldest then (k, lastSeen b) else (oldestKey, oldest)) es (k, t)).1, b)
      ∈ pre ++ es /\ forall p, p ∈ pre ++ es -> lastSeen b <= lastSeen p.2) as H.
  2: { apply (H entries [(k0, b0)] k0 (lastSeen b0) Hz Hz0). exists b0. split; [by left|]. split; [done|].
       by intros p ->%list_elem_of_singleton. }
  induction es as [|[k' b'] es IH]; intros pre k t Hes Ht (b & Hin & Hb & Hmin).
  { rewrite app_nil_r. exists b. cbn. split; [done|]. intros p Hp. rewrite Hb. auto. }
  apply Forall_cons in Hes as [Hz' Hes]. cbn [fold_left]. rewrite (cons_middle (k', b') pre es), app_assoc.
  unfold IsZero_time, Before_time in *. rewrite (proj2 (Z.eqb_neq t time_zero) Ht). cbn [orb].
  destruct (Z.ltb_spec (lastSeen b') t) as [Hlt|Hge]; (apply IH; [done|done|]).
  - exists b'. split; [set_solver|]. split; [done|]. intros p [Hp|Hp%list_elem_of_singleton]%elem_of_app; [|by subst p].
    specialize (Hmin p Hp). lia.
  - exists b. split; [set_solver|]. split; [done|]. intros p [Hp|Hp%list_elem_of_singleton]%elem_of_app; [auto|by subst p].
Qed.

(** What one call does to the table: the caller's bucket is touched now; another
    one is as it was, unless the table was full for a new key and it is the one
    that made room. *)
Lemma Allow_table t now key : limits t ->
  let t' := (Allow now key t).2 in
  (exists b, buckets t' !! key = Some b /\ lastSeen b = now) /\
  forall k, k <> key -> buckets t' !! k = buckets t !! k \/
    (buckets t' !! k = None /\ buckets t !! key = None /\ maxThrottleKeys <= Z.of_nat (size (buckets t)) /\
     k = oldest_key (pf_range P (buckets t))).
Proof.
  unfold limits, Allow. intros ->.
  set (m := match buckets t !! key with None => evictIfFullLocked (buckets t) | Some _ => buckets t end).
  assert (forall k, m !! k = buckets t !! k \/ (m !! k = None /\ buckets t !! key = None /\
    maxThrottleKeys <= Z.of_nat (size (buckets t)) /\ k = oldest_key (pf_range P (buckets t)))) as Hm.
  { intros k. unfold m. destruct (buckets t !! key); [by left|]. unfold evictIfFullLocked.
    destruct (Z.ltb_spec (Z.of_nat (size (buckets t))) maxThrottleKeys) as [|Hfull]; [by left|].
    destruct (decide (k = oldest_key (pf_range P (buckets t)))) as [->|Hne].
    - right. by rewrite lookup_delete_eq.
    - left. by rewrite lookup_delete_ne. }
  replace (match buckets t !! key with None => (evictIfFullLocked (buckets t), burst t) | Some b => (buckets t, refilled t now b) end)
    with (m, level t now key) by (unfold m, level; by destruct (buckets t !! key)).
  case_match; cbn [snd buckets]; (split; [eexists; by rewrite lookup_insert_eq|]);
    intros k Hk; rewrite lookup_insert_ne by done; apply Hm.
Qed.

(** Every bucket was touched by a call. *)
Lemma run_touched (Q : time -> Prop) calls t : limits t -> ok t -> Forall (fun c => Q c.1) calls ->
  (forall k b, buckets t !! k = Some b -> Q (lastSeen b)) ->
  forall k b, buckets (run calls t).2 !! k = Some b -> Q (lastSeen b).
Proof.
  revert t. induction calls as [|[now key] calls IH]; intros t Hlim Hok Hc Ht; [done|].
  apply Forall_cons in Hc as [Hnow Hc]. cbn [run fst] in *.
  pose proof (Allow_step t now key Hok Hlim) as Hstep. pose proof (Allow_table t now key Hlim) as Htab.
  destruct (Allow now key t) as [[a r] t']. destruct Hstep as (_ & Hok' & Hlim' & _). cbn [snd] in Htab.
  specialize (IH t' Hlim' Hok' Hc). destruct (run calls t') as [oks t2]. cbn [snd] in *. apply IH.
  destruct Htab as [(b0 & Hb0 & Hs0) Hrest]. intros k b Hb. destruct (decide (k = key)) as [->|Hne].
  - assert (b = b0) as -> by congruence. by rewrite Hs0.
  - destruct (Hrest k Hne) as [He|(He & _)]; [|congruence]. rewrite He in Hb. by eapply Ht.
Qed.

(** The table in the middle of an instant: the keys that have called at [now]
    have their buckets, touched now; every other bucket was touched before. *)
Definition during (now : time) (called : gset string) (t : tokenBucket) : Prop :=
  (forall k, k ∈ called -> exists b, buckets t !! k = Some b /\ lastSeen b = now) /\
  (forall k b, buckets t !! k = Some b -> lastSeen b <> time_zero /\ (k ∈ called \/ lastSeen b < now)).

(** Making room never costs a key that has called at this instant its bucket. *)
Lemma during_step now called key t : limits t -> now <> time_zero -> during now called t ->
  Z.of_nat (size (called ∪ {[key]})) <= maxThrottleKeys -> during now (called ∪ {[key]}) (Allow now key t).2.
Proof.
  intros Hlim Hnow [Hc Hb] Hsize. destruct (Allow_table t now key Hlim) as [(b0 & Hb0 & Hs0) Hrest].
  assert (forall k, k ∈ called -> k <> key -> buckets (Allow now key t).2 !! k = buckets t !! k) as Hkept.
  { intros k Hk Hne. destruct (Hrest k Hne) as [|(_ & Hnew & Hfull & Hold)]; [done|]. exfalso.
    assert (key ∉ called) as Hkey by (intros Hin; destruct (Hc key Hin) as (b & Hb' & _); congruence).
    rewrite size_union, size_singleton in Hsize by set_solver.
    assert (exists k' b', buckets t !! k' = Some b' /\ k' ∉ called) as (k' & b' & Hk' & Hout).
    { destruct (decide (dom (buckets t) ⊆ called)) as [Hsub|Hsub].
      - apply subseteq_size in Hsub. rewrite size_dom in Hsub. lia.
      - destruct (decide (set_Exists (fun k => k ∉ called) (dom (buckets t)))) as [(k' & [b' Hk']%elem_of_dom & Hout)|Hall];
          [by exists k', b'|]. exfalso. apply Hsub. intros k' Hin. destruct (decide (k' ∈ called)); [done|].
        destruct Hall. by exists k'. }
    assert (pf_range P (buckets t) <> []) as Hne'.
    { intros He. pose proof (range_all (P := P) (buckets t)) as Hp. rewrite He in Hp. apply Permutation_nil in Hp.
      apply map_to_list_empty_iff in Hp. by rewrite Hp, lookup_empty in Hk'. }
    destruct (oldest_min (pf_range P (buckets t)) Hne') as (b & Hin & Hmin).
    { rewrite Forall_forall. intros [k1 b1]. rewrite range_all, elem_of_map_to_list. cbn. intros H1. by apply (Hb k1 b1 H1). }
    rewrite <- Hold, range_all, elem_of_map_to_list in Hin.
    assert (lastSeen b <= lastSeen b') as Hle.
    { apply (Hmin (k', b')). rewrite range_all. by apply elem_of_map_to_list. }
    destruct (Hb k' b' Hk') as [_ [?|Hlt]]; [done|]. destruct (Hc k Hk) as (b1 & Hb1 & Hs1).
    assert (b1 = b) as -> by congruence. lia. }
  split.
  - intros k Hk. destruct (decide (k = key)) as [->|Hne]; [by exists b0|].
    rewrite Hkept by set_solver. apply Hc. set_solver.
  - intros k b Hkb. destruct (decide (k = key)) as [->|Hne].
    + assert (b = b0) as -> by congruence. split; [congruence|]. left. set_solver.
    + destruct (Hrest k Hne) as [He|(He & _)]; [|congruence]. rewrite He in Hkb. destruct (Hb k b Hkb) as [? [?|?]].
      * split; [done|]. left. set_solver.
      * by split; [|right].
Qed.

Lemma instant_count now k keys : forall t called, ok t -> limits t -> now <> time_zero -> during now called t ->
  Z.of_nat (size (called ∪ list_to_set keys)) <= maxThrottleKeys ->
  exists L, 0 <= L <= val (burst t) /\
    allowed k keys (run (map (pair now) keys) t).1 = Z.min (asked k keys) (L / unit_val) /\
    (k ∈ called \/ buckets t !! k = None -> L = val (level t now k)).
Proof.
  assert (0 < unit_val) as Hu by (apply Z.pow_pos_nonneg; lia).
  induction keys as [|key keys IH]; intros t called Hok Hlim Hnow Hduring Hroom.
  - destruct (level_ok t now k Hok) as (Hn & _ & Hle). apply val_nn in Hn. exists (val (level t now k)).
    split; [done|]. split; [|done]. unfold allowed, asked. cbn.
    pose proof (Z.div_pos (val (level t now k)) unit_val Hn Hu). lia.
  - cbn [map run]. pose proof (Allow_step t now key Hok Hlim) as Hstep. pose proof (Allow_table t now key Hlim) as Htab.
    cbn [list_to_set] in Hroom.
    assert (called ∪ ({[key]} ∪ list_to_set keys) = called ∪ {[key]} ∪ list_to_set keys) as Hset by set_solver.
    rewrite Hset in Hroom.
    assert (Z.of_nat (size (called ∪ {[key]})) <= maxThrottleKeys) as Hroom1.
    { assert (size (called ∪ {[key]}) <= size (called ∪ {[key]} ∪ list_to_set keys))%nat; [|lia]. apply subseteq_size. set_solver. }
    pose proof (during_step now called key t Hlim Hnow Hduring Hroom1) as Hduring'.
    destruct (Allow now key t) as [[a r] t']. cbn [snd] in Htab, Hduring'.
    destruct Hstep as (Ha & Hok' & Hlim' & [Hb Hr] & Hv & _).
    destruct (IH t' (called ∪ {[key]}) Hok' Hlim' Hnow Hduring' Hroom) as (L & HL & Hcount & Hlev).
    destruct (run (map (pair now) keys) t') as [oks t2]. cbn [fst] in Hcount |- *.
    unfold allowed, asked in *. cbn [zip zip_with]. rewrite !filter_cons. cbn [fst snd].
    destruct (decide (key = k)) as [->|Hne].
    + destruct (level_ok t now k Hok) as (Hn & _ & Hle). apply val_nn in Hn. rewrite (Hlev ltac:(left; set_solver)), Hv in Hcount.
      exists (val (level t now k)). split; [done|]. split; [|done]. destruct a.
      * rewrite decide_True by done. cbn [length]. rewrite !Nat2Z.inj_succ, Hcount. symmetry in Ha. apply Z.leb_le in Ha.
        replace (val (level t now k) - unit_val) with (val (level t now k) + (-1) * unit_val) by lia.
        rewrite Z.div_add by lia. lia.
      * rewrite decide_False by (by intros [_ ?]). cbn [length]. symmetry in Ha. apply Z.leb_gt in Ha.
        rewrite Hcount, Z.div_small by lia. lia.
    + rewrite decide_False by (by intros [? _]). rewrite <- Hb. exists L. split; [done|]. split; [done|].
      destruct Htab as [_ Hrest]. intros Hk.
      assert (buckets t' !! k = buckets t !! k) as Hsame.
      { destruct (Hrest k ltac:(congruence)) as [|(He & _)]; [done|]. destruct Hk as [Hk|Hk]; [|congruence].
        destruct Hduring' as [Hc' _]. destruct (Hc' k ltac:(set_solver)) as (b & Hb' & _). congruence. }
      rewrite <- (level_kept t t') by done. apply Hlev. destruct Hk as [Hk|Hk]; [left; set_solver|right; congruence].
Qed.
End Bucket.

(** C36: However a limiter of [rate] per [per] was used before, and however full its
    table is, of the calls one key makes at one instant no more than [burst] are
    allowed, whatever other keys call in between; for a key the limiter does not
    hold a bucket of, the first [burst] of them are, and no other. Making room
    for new keys drops buckets of earlier instants only, as long as no more than
    [maxThrottleKeys] keys call at this one, the earlier calls were before it,
    and the clock is past year 1. The arithmetic is float64: a bucket never
    holds more than [burst], and taking a token is exact. *)
Theorem burst_bound P `{!Lawful P} rate per n history now k keys : 0 < rate < 2 ^ 63 -> 0 < per < 2 ^ 63 -> 0 < n < 2 ^ 53 ->
  now <> time_zero -> Forall (fun call : time * string => call.1 <> time_zero /\ call.1 < now) history ->
  Z.of_nat (size (list_to_set keys : gset string)) <= maxThrottleKeys ->
  let t := (run P history (NewTokenBucket rate per n)).2 in
  let taken := allowed k keys (run P (map (pair now) keys) t).1 in
  taken <= n /\ (buckets t !! k = None -> taken = Z.min (asked k keys) n).
Proof.
  intros Hr Hp Hn Hnow Hpast Hkeys t taken. destruct (new_ok rate per n Hr Hp Hn) as [Hok Hlim].
  destruct (run_keeps P history _ Hok) as (Hok' & Hlim' & Hb). fold t in Hok', Hlim', Hb.
  destruct (of_int_exact n Hn) as (_ & _ & Hv). assert (0 < unit_val) as Hu by (apply Z.pow_pos_nonneg; lia).
  assert (during now ∅ t) as Hduring.
  { split; [set_solver|]. intros k0 b Hb0.
    destruct (run_touched P (fun x => x <> time_zero /\ x < now) history _ Hlim Hok Hpast
      ltac:(intros k1 b1 H1; by rewrite (lookup_empty k1 : buckets (NewTokenBucket rate per n) !! k1 = None) in H1) k0 b Hb0). auto. }
  destruct (instant_count P now k keys t ∅ Hok' (Hlim' Hlim) Hnow Hduring) as (L & HL & Hcount & Hlev).
  { by rewrite (left_id_L ∅ (∪)). }
  rewrite Hb in HL. change (burst (NewTokenBucket rate per n)) with (of_int n) in *. unfold taken. rewrite Hcount. split.
  - assert (L / unit_val <= n); [|lia]. apply Z.div_le_upper_bound; lia.
  - intros Hk. rewrite (Hlev (or_intror Hk)). unfold level. rewrite Hk, Hb, Hv, Z.div_mul by lia. done.
Qed.

(** The map never outgrows its bound, and making room drops a bucket least
    recently touched. *)
Lemma run_bounded P `{!Lawful P} rate per n calls : 0 < rate < 2 ^ 63 -> 0 < per < 2 ^ 63 -> 0 < n < 2 ^ 53 ->
  Z.of_nat (size (buckets (run P calls (NewTokenBucket rate per n)).2)) <= maxThrottleKeys.
Proof. intros Hr Hp Hn. destruct (new_ok rate per n Hr Hp Hn) as [Hok _]. destruct (run_keeps P calls _ Hok) as [Hok' _]. apply Hok'. Qed.

(** ** Examples *)

(** The delay is rounded down: a caller who waits exactly as long as it was told
    is refused again, and told to wait no time at all. *)
Example obedient_caller_refused :
  let t0 := NewTokenBucket 1 (10 ^ 9) 1 in
  let t1 := (Allow amd64 0 "k" t0).2 in
  let '((ok1, wait), t2) := Allow amd64 0 "k" t1 in
  ok1 = false /\ wait = 999999999 /\ (Allow amd64 wait "k" t2).1 = (false, 0).
Proof. vm_compute. by split_and!. Qed.
(** A limiter that is misconfigured limits nothing. *)
Example no_rate : (run amd64 (replicate 3 (0, "k")) (NewTokenBucket 0 (10 ^ 9) 1)).1 = [true; true; true].
Proof. vm_compute. reflexivity. Qed.

Lemma burst_bound_witness :
  let t := (run amd64 [(0, "ada"); (5, "bob")] (NewTokenBucket 10 (60 * 10 ^ 9) 3)).2 in
  allowed "cyd" ["cyd"; "ada"; "cyd"; "cyd"; "cyd"] (run amd64 (map (pair 7) ["cyd"; "ada"; "cyd"; "cyd"; "cyd"]) t).1 = 3.
Proof.
  refine (proj2 (burst_bound amd64 10 (60 * 10 ^ 9) 3 [(0, "ada"); (5, "bob")] 7 "cyd" ["cyd"; "ada"; "cyd"; "cyd"; "cyd"]
    _ _ _ _ _ _) _); [lia|lia|lia|vm_compute; discriminate| |vm_compute; discriminate|vm_compute; reflexivity].
  repeat (apply List.Forall_cons; [split; [vm_compute; discriminate|reflexivity]|]). apply List.Forall_nil.
Defined.
