(* ===== verification/TamperProvider.v ===== *)
(** * Building the engines

    [src/provider.go]: [New], the one constructor that validates a configuration
    and wires the token service, the keys, the audit log, the accounts and the
    two identity-provider managers; [Close]. The state is the audit databases
    that are open. What opens one (the SQLite driver and its migrations),
    AES-GCM, golang-jwt, go-oidc and crewjam are parameters, as they are in the
    files of the engines. *)

From stdpp Require Import gmultiset.
From S2P Require Import Prelude Tenant Bytes World Crypto Secrets Jwt AuditStore Identity IdpManager IdpRegistry Oidc SamlProvider.

#[local] Open Scope string_scope.
#[local] Open Scope list_scope.
#[local] Open Scope Z_scope.

Record AuditConfig := MkAuditConfig { ac_DBPath : string; ac_EmailLookup : option (string -> option string) }.
Record InheritanceConfig := MkInheritanceConfig { ic_Store : option Tenant.Store; ic_Allow : option Inheritance }.
(** [audit.Logger]: the one that keeps nothing, or the one of an open file. *)
Inductive Logger := NoopLogger | OnFile (path : string) (l : SQLiteLogger).

Section Provider.
Context {SI SO SS A D Endpoints Verifier Entity URL Cert AnyKey SSigner Replay : Type}.
Context (jwtlib : JWTLibrary) (newAEAD : bytes -> go AEAD) (oidclib : GoOIDC D Endpoints Verifier)
  (samllib : Crewjam Entity URL Cert AnyKey SSigner) (default_fetcher : trace -> string -> go Entity)
  (open_db : string -> go Table).
Local Abbreviation OidcRegistry := (ProviderRegistry (Oidc.Provider D Endpoints Verifier)).
Local Abbreviation SamlRegistry := (ProviderRegistry (@SamlProvider.Provider Entity URL Cert SSigner Replay)).
Context (oidc_range : gmap ID (cachedRegistry OidcRegistry) -> list (ID * cachedRegistry OidcRegistry))
  (saml_range : gmap ID (cachedRegistry SamlRegistry) -> list (ID * cachedRegistry SamlRegistry)).

Record IdentityConfig := MkIdentityConfig { idc_Store : option (Identity.Store SI); idc_Options : list (Core SI -> Core SI) }.
Record OIDCConfig := MkOIDCConfig {
  oc_Store : option (ProviderStore SO Oidc.ProviderRecord);
  oc_RedirectURL : option (string -> string);
  oc_TTL : Z;
  oc_Inheritance : option InheritanceConfig
}.
Record SAMLConfig := MkSAMLConfig {
  sc_Store : option (ProviderStore SS SamlProvider.ProviderRecord);
  sc_SPMetadataURL : option (string -> string -> string);
  sc_TTL : Z;
  sc_Inheritance : option InheritanceConfig;
  sc_AllowIDPInitiated : bool;
  sc_SkewTolerance : Z
}.
Record Config := MkConfig {
  cg_JWT : JWTConfig;
  cg_KEKs : list KEKEntry;
  cg_WriteKeyID : uint8;
  cg_Audit : AuditConfig;
  cg_Authz : option A;
  cg_Identity : option IdentityConfig;
  cg_OIDC : option OIDCConfig;
  cg_SAML : option SAMLConfig
}.
Record Provider := MkProvider {
  p_JWT : JWTService * Keys;
  p_KeySet : option KeySet;
  p_Audit : Logger;
  p_Authz : option A;
  p_Identity : option (Core SI);
  p_OIDC : option (@Manager SO Oidc.ProviderRecord OidcRegistry);
  p_SAML : option (@Manager SS SamlProvider.ProviderRecord SamlRegistry)
}.

(** ** The guards, in order *)

Definition guard (bad : bool) (what : string) (rest : option error) : option error :=
  if bad then Some (Errorf0 what) else rest.
Definition is_nil {B} (o : option B) : bool := match o with None => true | Some _ => false end.
(** [set != nil && set.field == nil]. *)
Definition lacks {C B} (set : option C) (field : C -> option B) : bool :=
  match set with Some c => is_nil (field c) | None => false end.
Definition half (inh : option InheritanceConfig) (engine : string) (rest : option error) : option error :=
  guard (lacks inh ic_Store) (engine +:+ ".Inheritance.Store is required")
    (guard (lacks inh ic_Allow) (engine +:+ ".Inheritance.Allow is required") rest).
Definition invalid (cfg : Config) : option error :=
  guard (String.eqb (cfg_Secret (cg_JWT cfg)) "") "Config.JWT.Secret is required"
  (guard (lacks (cg_Identity cfg) idc_Store) "Config.Identity.Store is required when Identity is set"
  (guard (lacks (cg_OIDC cfg) oc_Store) "Config.OIDC.Store is required when OIDC is set"
  (guard (lacks (cg_OIDC cfg) oc_RedirectURL) "Config.OIDC.RedirectURL is required when OIDC is set"
  (guard (lacks (cg_SAML cfg) sc_Store) "Config.SAML.Store is required when SAML is set"
  (guard (lacks (cg_SAML cfg) sc_SPMetadataURL) "Config.SAML.SPMetadataURL is required when SAML is set"
  (half (c ← cg_OIDC cfg; oc_Inheritance c) "Config.OIDC"
  (half (c ← cg_SAML cfg; sc_Inheritance c) "Config.SAML" None))))))).

(** ** The engines *)

(** [identity.New]. *)
Definition identity_New (store : option (Identity.Store SI)) (jwt : JWTService) (opts : list (Core SI -> Core SI)) : go (Core SI) :=
  match store with
  | None => Fail (Errorf0 "identity: New requires a Store")
  | Some store =>
      NewCore (fold_left (fun c opt => opt c) opts
        {| c_store := store; c_jwt := Some jwt; c_refreshTTL := 0; c_totpRequired := false; c_defaultACR := ACRLocalPassword;
           c_OnRegistered := false; c_throttling := None; c_secondFactor := None; c_invitations := None; c_memberships := None;
           c_enterTTL := 0; c_OnTenantEntered := false; c_impersonation := None; c_impersonationTTL := 0; c_keys := None;
           c_OnProvisioned := false |})
  end.
(** [identity.WithKeySet]. *)
Definition identity_WithKeySet (ks : KeySet) (c : Core SI) : Core SI :=
  {| c_store := c_store c; c_jwt := c_jwt c; c_refreshTTL := c_refreshTTL c; c_totpRequired := c_totpRequired c;
     c_defaultACR := c_defaultACR c; c_OnRegistered := c_OnRegistered c; c_throttling := c_throttling c;
     c_secondFactor := c_secondFactor c; c_invitations := c_invitations c; c_memberships := c_memberships c;
     c_enterTTL := c_enterTTL c; c_OnTenantEntered := c_OnTenantEntered c; c_impersonation := c_impersonation c;
     c_impersonationTTL := c_impersonationTTL c; c_keys := Some ks; c_OnProvisioned := c_OnProvisioned c |}.
Definition core_of (cfg : Config) (jwt : JWTService) (ks : option KeySet) : go (option (Core SI)) :=
  match cg_Identity cfg with
  | None => Ret None
  | Some ic =>
      let opts := match ks with Some ks => identity_WithKeySet ks :: idc_Options ic | None => idc_Options ic end in
      core ← wrap_err (Errorf1 "tamper: identity") (identity_New (idc_Store ic) jwt opts);
      Ret (Some core)
  end.

Definition opt_if {B} (c : bool) (o : B) : list B := if c then [o] else [].
Definition oidc_options (c : OIDCConfig) : list (Oidc.options -> Oidc.options) :=
  [Oidc.WithRedirectURL (oc_RedirectURL c)] ++ opt_if (0 <? oc_TTL c) (Oidc.WithTTL (oc_TTL c)) ++
  match oc_Inheritance c with Some inh => [Oidc.WithInheritance (ic_Store inh) (ic_Allow inh)] | None => [] end.
Definition oidc_of (cfg : Config) (ks : option KeySet) : option (@Manager SO Oidc.ProviderRecord OidcRegistry) :=
  c ← cg_OIDC cfg; store ← oc_Store c; Some (Oidc.NewManager oidclib oidc_range store ks (oidc_options c)).
Definition saml_options (c : SAMLConfig) : list (@SamlProvider.options Entity Replay -> @SamlProvider.options Entity Replay) :=
  [SamlProvider.WithSPMetadataURL (sc_SPMetadataURL c)] ++ opt_if (0 <? sc_TTL c) (SamlProvider.WithTTL (sc_TTL c)) ++
  match sc_Inheritance c with Some inh => [SamlProvider.WithInheritance (ic_Store inh) (ic_Allow inh)] | None => [] end ++
  opt_if (sc_AllowIDPInitiated c) (SamlProvider.WithAllowIDPInitiated true) ++
  opt_if (0 <? sc_SkewTolerance c) (SamlProvider.WithSkewTolerance (sc_SkewTolerance c)).
Definition saml_of (cfg : Config) (ks : option KeySet) : option (@Manager SS SamlProvider.ProviderRecord SamlRegistry) :=
  c ← cg_SAML cfg; store ← sc_Store c; Some (SamlProvider.NewManager samllib default_fetcher saml_range store ks (saml_options c)).

(** ** The constructor *)

(** The databases that are open. *)
Abbreviation handles := (gmultiset string).

(** [audit.NewSQLiteLogger]: the file is open when it answers a logger, and
    closed again when it refuses the rows in it. *)
Definition open_logger (path : string) (lookup : option (string -> option string)) (h : handles) : go Logger * handles :=
  match open_db path with
  | Fail e => (Fail (Errorf1 "audit" e), h)
  | Panic why => (Panic why, h)
  | Ret table =>
      match NewSQLiteLogger path lookup table with
      | Ret l => (Ret (OnFile path l), {[+ path +]} ⊎ h)
      | Fail e => (Fail e, h)
      | Panic why => (Panic why, h)
      end
  end.
Definition Logger_Close (l : Logger) (h : handles) : handles :=
  match l with NoopLogger => h | OnFile path _ => h ∖ {[+ path +]} end.

Definition audit_of (cfg : AuditConfig) (h : handles) : go Logger * handles :=
  if String.eqb (ac_DBPath cfg) "" then (Ret NoopLogger, h)
  else let '(r, h) := open_logger (ac_DBPath cfg) (ac_EmailLookup cfg) h in (wrap_err (Errorf1 "tamper: audit") r, h).

Definition New (cfg : Config) (h : handles) : go Provider * handles :=
  match invalid cfg with
  | Some e => (Fail e, h)
  | None =>
      match wrap_err (Errorf1 "tamper: keyset") (NewKeySet newAEAD (cg_KEKs cfg) (cg_WriteKeyID cfg)) with
      | Fail e => (Fail e, h)
      | Panic why => (Panic why, h)
      | Ret ks =>
          match NewJWTService jwtlib (cg_JWT cfg) None ∅ with
          | Fail e => (Fail e, h)
          | Panic why => (Panic why, h)
          | Ret jwt =>
              match audit_of (cg_Audit cfg) h with
              | (Fail e, h) => (Fail e, h)
              | (Panic why, h) => (Panic why, h)
              | (Ret logger, h) =>
                  match core_of cfg jwt.1 ks with
                  | Ret core => (Ret (MkProvider jwt ks logger (cg_Authz cfg) core (oidc_of cfg ks) (saml_of cfg ks)), h)
                  | Fail e => (Fail e, Logger_Close logger h)
                  | Panic why => (Panic why, h)
                  end
              end
          end
      end
  end.
(** [Close], on a nil provider too. *)
Definition Close (p : option Provider) (h : handles) : handles :=
  match p with None => h | Some p => Logger_Close (p_Audit p) h end.

(** ** Booting *)

Context (aead_returns : forall raw why, newAEAD raw <> Panic why) (db_returns : forall path why, open_db path <> Panic why).

Lemma add_keys_returns entries keys maxID why : add_keys newAEAD entries keys maxID <> Panic why.
Proof.
  revert keys maxID. induction entries as [|e entries IH]; intros keys maxID; [done|]. cbn [add_keys].
  destruct (Ascii.eqb _ _); [done|]. destruct (keys !! kek_ID e); [done|]. destruct (negb _); [done|].
  destruct (hex_decode _); [|done]. destruct (newAEAD _) as [aead|e'|why'] eqn:Hn; [apply IH|done|by apply aead_returns in Hn].
Qed.
Lemma NewKeySet_returns entries w why : NewKeySet newAEAD entries w <> Panic why.
Proof.
  unfold NewKeySet. destruct entries as [|e entries]; [done|].
  destruct (add_keys newAEAD (e :: entries) ∅ uint8_zero) as [km|e'|why'] eqn:Hk; [|done|by apply add_keys_returns in Hk].
  cbn. destruct (km.1 !! _); done.
Qed.
Lemma NewKeySet_nil entries w ks : NewKeySet newAEAD entries w = Ret ks -> (ks = None <-> entries = []).
Proof.
  unfold NewKeySet. destruct entries as [|e entries]; [by intros [= <-]|]. destruct (add_keys _ _ _ _) as [km|e'|why']; [|done..].
  cbn. destruct (km.1 !! _); [|done]. by intros [= <-].
Qed.
Lemma wrap_Ret {B} f (m : go B) b : wrap_err f m = Ret b <-> m = Ret b.
Proof. destruct m; cbn; split; congruence. Qed.
Lemma wrap_returns {B} f (m : go B) why : wrap_err f m = Panic why <-> m = Panic why.
Proof. destruct m; cbn; split; congruence. Qed.

Definition path_handle (cfg : Config) : handles :=
  if String.eqb (ac_DBPath (cg_Audit cfg)) "" then ∅ else {[+ ac_DBPath (cg_Audit cfg) +]}.
Lemma closes_what_it_opened path (h : handles) : ({[+ path +]} ⊎ h) ∖ {[+ path +]} = h.
Proof.
  assert (path ∈ {[+ path +]} ⊎ h) as Hin by (rewrite gmultiset_elem_of_disj_union, gmultiset_elem_of_singleton; by left).
  apply (inj ({[+ path +]} ⊎.)). symmetry. exact (gmultiset_disj_union_difference' _ _ Hin).
Qed.
(** A logger comes with its open file, an error with nothing. *)
Lemma audit_of_handles cfg h r h' : audit_of (cg_Audit cfg) h = (r, h') ->
  match r with
  | Ret l => h' = path_handle cfg ⊎ h /\ Logger_Close l h' = h
  | Fail _ => h' = h
  | Panic _ => False
  end.
Proof.
  unfold audit_of, path_handle, open_logger. destruct (String.eqb _ ""); [intros [= <- <-]; split; [by rewrite (left_id_L ∅ (⊎))|done]|].
  destruct (open_db _) as [table|e|why] eqn:Hd; [|by intros [= <- <-]|by apply db_returns in Hd].
  unfold NewSQLiteLogger. destruct (String.eqb _ ""); [by intros [= <- <-]|].
  destruct (_ <? _)%nat; [by intros [= <- <-]|]. intros [= <- <-]. split; [done|]. cbn.
  apply closes_what_it_opened.
Qed.
Lemma core_of_returns cfg jwt ks why : core_of cfg jwt ks <> Panic why.
Proof.
  unfold core_of. destruct (cg_Identity cfg) as [ic|]; [|done]. unfold identity_New. destruct (idc_Store ic); [|done].
  unfold NewCore. destruct (String.eqb _ ""); [done|]. destruct (c_jwt _); [|done]. by repeat destruct (_ <? _).
Qed.

Lemma New_audit cfg h p h' : New cfg h = (Ret p, h') -> (p_Audit p = NoopLogger <-> ac_DBPath (cg_Audit cfg) = "").
Proof.
  unfold New. destruct (invalid cfg); [done|]. destruct (wrap_err _ (NewKeySet _ _ _)); [|done..].
  destruct (NewJWTService _ _ _ _) as [jwt|e|why]; [|done..]. destruct (audit_of _ _) as [[l|e|why] ha] eqn:Ha; [|done..].
  destruct (core_of _ _ _); [|done..]. intros [= <- <-]. cbn [p_Audit]. unfold audit_of, open_logger in Ha.
  destruct (String.eqb_spec (ac_DBPath (cg_Audit cfg)) "") as [He|He]; [by injection Ha as <- <-|].
  destruct (open_db _); [|done..]. unfold NewSQLiteLogger in Ha. destruct (String.eqb _ ""); [done|].
  destruct (_ <? _)%nat; [done|]. injection Ha as <- <-. by split.
Qed.
(** What [New] returned. *)
Lemma New_cases cfg h r h' : New cfg h = (r, h') ->
  match r with
  | Ret p => invalid cfg = None /\ h' = path_handle cfg ⊎ h /\ Close (Some p) h' = h /\
      exists ks jwt core, p = MkProvider jwt ks (p_Audit p) (cg_Authz cfg) core (oidc_of cfg ks) (saml_of cfg ks) /\
        NewKeySet newAEAD (cg_KEKs cfg) (cg_WriteKeyID cfg) = Ret ks /\ NewJWTService jwtlib (cg_JWT cfg) None ∅ = Ret jwt /\
        core_of cfg jwt.1 ks = Ret core
  | Fail _ => h' = h
  | Panic _ => False
  end.
Proof.
  unfold New. destruct (invalid cfg) as [e|] eqn:Hinv; [by intros [= <- <-]|].
  destruct (wrap_err _ (NewKeySet _ _ _)) as [ks|e|why] eqn:Hks; [|by intros [= <- <-]|].
  2: { apply wrap_returns in Hks. by apply NewKeySet_returns in Hks. }
  apply wrap_Ret in Hks. unfold NewJWTService. destruct (String.eqb (cfg_Secret _) "") eqn:Hsec.
  { unfold invalid in Hinv. by rewrite Hsec in Hinv. }
  set (jwt := (_, _)). destruct (audit_of (cg_Audit cfg) h) as [ra ha] eqn:Ha. apply audit_of_handles in Ha.
  destruct ra as [logger|e|why]; [|by intros [= <- <-]|done]. destruct Ha as [-> Hclose].
  destruct (core_of cfg jwt.1 ks) as [core|e|why] eqn:Hc; [| |by apply core_of_returns in Hc].
  - intros [= <- <-]. split_and!; [done..|]. by exists ks, jwt, core.
  - intros [= <- <-]. done.
Qed.

Lemma guard_None bad what rest : guard bad what rest = None <-> bad = false /\ rest = None.
Proof. unfold guard. destruct bad; split; [done|by intros [? _]|done|by intros [_ ?]]. Qed.
Lemma lacks_Some {C B} (set : option C) (field : C -> option B) c : lacks set field = false -> set = Some c -> exists b, field c = Some b.
Proof. intros H ->. cbn in H. destruct (field c); [eauto|done]. Qed.
Lemma oidc_wired cfg ks c : invalid cfg = None -> cg_OIDC cfg = Some c ->
  exists m, oidc_of cfg ks = Some m /\ mg_keys m = ks /\ mg_ttl m = Z.max 0 (oc_TTL c) /\ Some (mg_store m) = oc_Store c /\
    match oc_Inheritance c with
    | None => mg_inherit m = None
    | Some inh => exists s al, ic_Store inh = Some s /\ ic_Allow inh = Some al /\ mg_inherit m = Some (s, al)
    end.
Proof.
  unfold invalid, half. rewrite !guard_None. intros (_ & _ & H1 & H2 & _ & _ & H3 & H4 & _) Hc. unfold oidc_of. rewrite Hc in *.
  destruct (lacks_Some _ _ c H1 eq_refl) as [store Hs]. destruct (lacks_Some _ _ c H2 eq_refl) as [url Hu].
  cbn in *. rewrite Hs. eexists. split; [done|]. unfold Oidc.NewManager, oidc_options. rewrite Hu.
  destruct (oc_Inheritance c) as [[[s|] [al|]]|]; try done; destruct (Z.ltb_spec 0 (oc_TTL c)); cbn; split_and!; try done; eauto; lia.
Qed.
Lemma saml_wired cfg ks c : invalid cfg = None -> cg_SAML cfg = Some c ->
  exists m, saml_of cfg ks = Some m /\ mg_keys m = ks /\ mg_ttl m = Z.max 0 (sc_TTL c) /\ Some (mg_store m) = sc_Store c /\
    match sc_Inheritance c with
    | None => mg_inherit m = None
    | Some inh => exists s al, ic_Store inh = Some s /\ ic_Allow inh = Some al /\ mg_inherit m = Some (s, al)
    end.
Proof.
  unfold invalid, half. rewrite !guard_None. intros (_ & _ & _ & _ & H1 & H2 & _ & _ & H3 & H4 & _) Hc. unfold saml_of. rewrite Hc in *.
  destruct (lacks_Some _ _ c H1 eq_refl) as [store Hs]. destruct (lacks_Some _ _ c H2 eq_refl) as [url Hu].
  cbn in *. rewrite Hs. eexists. split; [done|]. unfold SamlProvider.NewManager, saml_options. rewrite Hu.
  destruct (sc_Inheritance c) as [[[s|] [al|]]|]; try done; destruct (Z.ltb_spec 0 (sc_TTL c)), (sc_AllowIDPInitiated c),
    (Z.ltb_spec 0 (sc_SkewTolerance c)); cbn; split_and!; try done; eauto; lia.
Qed.
Lemma core_wired cfg jwt ks core ic : core_of cfg jwt ks = Ret core -> cg_Identity cfg = Some ic -> idc_Options ic = [] ->
  exists c, core = Some c /\ Some (c_store c) = idc_Store ic /\ c_jwt c = Some jwt /\ c_keys c = ks.
Proof.
  unfold core_of. intros H Hic Ho. rewrite Hic, Ho in H. unfold identity_New in H. destruct (idc_Store ic) as [store|]; [|done].
  unfold NewCore in H. destruct ks as [ks|]; cbn [fold_left identity_WithKeySet c_defaultACR c_jwt c_enterTTL c_impersonationTTL] in H;
    (destruct (String.eqb ACRLocalPassword ""); [done|]; repeat destruct (_ <? _); try done; injection H as <-;
     eexists; split; [done|]; by split_and!).
Qed.

(** *** What it takes to boot *)

(** Every part that is set has what it needs. *)
Definition whole (inh : option InheritanceConfig) : Prop :=
  forall i, inh = Some i -> (exists s, ic_Store i = Some s) /\ (exists al, ic_Allow i = Some al).
Definition complete (cfg : Config) : Prop :=
  cfg_Secret (cg_JWT cfg) <> "" /\
  (forall ic, cg_Identity cfg = Some ic -> exists s, idc_Store ic = Some s) /\
  (forall c, cg_OIDC cfg = Some c -> (exists s, oc_Store c = Some s) /\ (exists u, oc_RedirectURL c = Some u) /\
     whole (oc_Inheritance c)) /\
  (forall c, cg_SAML cfg = Some c -> (exists s, sc_Store c = Some s) /\ (exists u, sc_SPMetadataURL c = Some u) /\
     whole (sc_Inheritance c)).

Lemma lacks_false {C B} (set : option C) (field : C -> option B) :
  lacks set field = false <-> forall c, set = Some c -> exists b, field c = Some b.
Proof.
  unfold lacks. destruct set as [c|]; [|by split; [intros _ ? [=]|]].
  destruct (field c) as [b|] eqn:Hb; cbn; split; try done.
  - intros _ ? [= <-]. by exists b.
  - intros H. destruct (H c eq_refl) as [b Hb']. congruence.
Qed.
Lemma half_None inh engine rest : half inh engine rest = None <-> whole inh /\ rest = None.
Proof.
  unfold half, whole. rewrite !guard_None, !lacks_false. split.
  - intros (H1 & H2 & Hr). split; [|done]. eauto.
  - intros [H Hr]. split_and!; [|..]; [by intros c Hc; destruct (H c Hc)|by intros c Hc; destruct (H c Hc)|done].
Qed.
Lemma invalid_None cfg : invalid cfg = None <-> complete cfg.
Proof.
  unfold invalid, complete. rewrite !guard_None, !half_None, !lacks_false, String.eqb_neq. split.
  - intros (H1 & H2 & H3 & H4 & H5 & H6 & H7 & H8 & _). split_and!; [done|done|..].
    + intros c Hc. rewrite Hc in H7. eauto.
    + intros c Hc. rewrite Hc in H8. eauto.
  - intros (H1 & H2 & H3 & H4). split_and!; [done|done| | | | | | |done].
    1,2: by intros c Hc; destruct (H3 c Hc) as (? & ? & _). 1,2: by intros c Hc; destruct (H4 c Hc) as (? & ? & _).
    + destruct (cg_OIDC cfg) as [c|]; [by destruct (H3 c eq_refl) as (_ & _ & ?)|by intros i [=]].
    + destruct (cg_SAML cfg) as [c|]; [by destruct (H4 c eq_refl) as (_ & _ & ?)|by intros i [=]].
Qed.

(** The file of the log opens and what is in it is accepted, when there is one;
    the core takes the options of the accounts, when there are accounts. *)
Definition log_builds (cfg : Config) : Prop :=
  ac_DBPath (cg_Audit cfg) = "" \/
  exists table l, open_db (ac_DBPath (cg_Audit cfg)) = Ret table /\
    NewSQLiteLogger (ac_DBPath (cg_Audit cfg)) (ac_EmailLookup (cg_Audit cfg)) table = Ret l.
Definition accounts_build (cfg : Config) (ks : option KeySet) : Prop :=
  forall ic, cg_Identity cfg = Some ic -> exists j k core, NewJWTService jwtlib (cg_JWT cfg) None ∅ = Ret (j, k) /\
    identity_New (idc_Store ic) j (match ks with Some ks => [identity_WithKeySet ks] | None => [] end ++ idc_Options ic) = Ret core.

Lemma audit_of_Ret cfg h : is_ret (audit_of (cg_Audit cfg) h).1 = true <-> log_builds cfg.
Proof.
  unfold audit_of, log_builds, open_logger. destruct (String.eqb_spec (ac_DBPath (cg_Audit cfg)) "") as [He|He].
  { cbn. split; [by left|done]. }
  destruct (open_db _) as [table|e|why] eqn:Hd; cbn.
  - destruct (NewSQLiteLogger _ _ _) as [l|e|why] eqn:Hl; cbn; split; try done.
    + intros _. right. by exists table, l.
    + intros [?|(t & l & [= <-] & Hl')]; congruence.
    + intros [?|(t & l & [= <-] & Hl')]; congruence.
  - split; [done|]. intros [?|(t & l & [=] & _)]; done.
  - split; [done|]. intros [?|(t & l & [=] & _)]; done.
Qed.
Lemma core_of_Ret cfg jwt ks : NewJWTService jwtlib (cg_JWT cfg) None ∅ = Ret jwt ->
  is_ret (core_of cfg jwt.1 ks) = true <-> accounts_build cfg ks.
Proof.
  intros Hj. unfold core_of, accounts_build. destruct jwt as [j0 k0]. rewrite Hj. cbn [fst].
  destruct (cg_Identity cfg) as [ic|]; [|by split; [intros _ ? [=]|]].
  replace (match ks with Some k => _ | None => idc_Options ic end)
    with (match ks with Some ks => [identity_WithKeySet ks] | None => [] end ++ idc_Options ic) by (by destruct ks).
  destruct (identity_New _ _ _) as [core|e|why] eqn:Hc; cbn [wrap_err mbind go_bind is_ret]; split; try done.
  - intros _ ? [= <-]. by exists j0, k0, core.
  - intros H. destruct (H ic eq_refl) as (j & k & core & Hjk & Hc'). injection Hjk as <- <-. congruence.
  - intros H. destruct (H ic eq_refl) as (j & k & core & Hjk & Hc'). injection Hjk as <- <-. congruence.
Qed.
Lemma jwt_builds cfg : cfg_Secret (cg_JWT cfg) <> "" -> exists jwt, NewJWTService jwtlib (cg_JWT cfg) None ∅ = Ret jwt.
Proof. intros H. unfold NewJWTService. apply String.eqb_neq in H. rewrite H. eauto. Qed.

(** [New] succeeds exactly when it should. *)
Lemma New_succeeds cfg h : is_ret (New cfg h).1 = true <->
  complete cfg /\ exists ks, NewKeySet newAEAD (cg_KEKs cfg) (cg_WriteKeyID cfg) = Ret ks /\ log_builds cfg /\ accounts_build cfg ks.
Proof.
  unfold New. rewrite <- invalid_None. destruct (invalid cfg) as [e|] eqn:Hinv; [by split; [|intros [? _]]|].
  apply invalid_None in Hinv. destruct Hinv as (Hsec & _). destruct (jwt_builds cfg Hsec) as [jwt Hj]. rewrite Hj.
  destruct (NewKeySet _ _ _) as [ks|e|why]; cbn [wrap_err]; [|by split; [|intros (_ & ? & ? & _)]..].
  pose proof (audit_of_Ret cfg h) as Hl. destruct (audit_of _ _) as [[l|e|why] ha]; cbn in Hl |- *;
    [|by split; [|intros (_ & ? & _ & ?%Hl & _)]..].
  pose proof (core_of_Ret cfg jwt ks Hj) as Hc. destruct (core_of cfg jwt.1 ks) as [core|e|why]; cbn in Hc |- *.
  - split; [|done]. intros _. split; [done|]. exists ks. split_and!; [done|by apply Hl|by apply Hc].
  - split; [done|]. intros (_ & ks' & [= <-] & _ & Ha). by apply Hc in Ha.
  - split; [done|]. intros (_ & ks' & [= <-] & _ & Ha). by apply Hc in Ha.
Qed.

(** Accounts without options build over any store, when the lifetime of a token
    is not negative. *)
Lemma plain_accounts_build cfg ks : complete cfg -> 0 <= cfg_TTL (cg_JWT cfg) ->
  (forall ic, cg_Identity cfg = Some ic -> idc_Options ic = []) -> accounts_build cfg ks.
Proof.
  intros (Hsec & Hid & _) Httl Ho ic Hic. destruct (Hid ic Hic) as [store Hs].
  unfold NewJWTService. rewrite (proj2 (String.eqb_neq _ _) Hsec), (Ho ic Hic), Hs, app_nil_r.
  eexists _, _. assert ((cfg_TTL (cg_JWT cfg) <? 0) = false) as Hneg by (by apply Z.ltb_ge).
  destruct ks; eexists; (split; [reflexivity|]); unfold identity_New, NewCore;
    cbn [fold_left identity_WithKeySet c_defaultACR c_jwt c_enterTTL c_impersonationTTL AccessTTL jwt_ttl];
    unfold AccessTTL; cbn [jwt_ttl]; rewrite Hneg; reflexivity.
Qed.

(** C35: [New] wires everything or does nothing. It never panics; when it fails, no
    database it opened stays open. It returns a provider exactly when every part
    that is set has what it needs (a secret; a store for the accounts; a store
    and a URL for each protocol; both halves of an inheritance), the key set
    builds, the log file (if any) opens and is accepted, and the accounts take
    their options, which they do when there are none and the lifetime of a token
    is not negative. Then each engine is there exactly when it was configured,
    over the store and the lifetime it was given and sealing with the one key
    set, a manager that was told to inherit does, and closing the provider closes
    what it opened. *)
Theorem New_all_or_nothing cfg h r h' : New cfg h = (r, h') ->
  (is_ret r = false -> h' = h /\ exists e, r = Fail e) /\
  (is_ret r = true <-> complete cfg /\ exists ks, NewKeySet newAEAD (cg_KEKs cfg) (cg_WriteKeyID cfg) = Ret ks /\
     log_builds cfg /\ accounts_build cfg ks) /\
  (forall ks, complete cfg -> 0 <= cfg_TTL (cg_JWT cfg) -> (forall ic, cg_Identity cfg = Some ic -> idc_Options ic = []) -> accounts_build cfg ks) /\
  (forall e, invalid cfg = Some e -> r = Fail e) /\
  (forall p, r = Ret p ->
    (p_KeySet p = None <-> cg_KEKs cfg = []) /\ p_Authz p = cg_Authz cfg /\
    (p_Audit p = NoopLogger <-> ac_DBPath (cg_Audit cfg) = "") /\ Close (Some p) h' = h /\
    (p_Identity p = None <-> cg_Identity cfg = None) /\
    (forall ic, cg_Identity cfg = Some ic -> idc_Options ic = [] -> exists c, p_Identity p = Some c /\
      Some (c_store c) = idc_Store ic /\ c_jwt c = Some (p_JWT p).1 /\ c_keys c = p_KeySet p) /\
    match cg_OIDC cfg with
    | None => p_OIDC p = None
    | Some c => exists m, p_OIDC p = Some m /\ mg_keys m = p_KeySet p /\ mg_ttl m = Z.max 0 (oc_TTL c) /\
        Some (mg_store m) = oc_Store c /\ (mg_inherit m = None <-> oc_Inheritance c = None)
    end /\
    match cg_SAML cfg with
    | None => p_SAML p = None
    | Some c => exists m, p_SAML p = Some m /\ mg_keys m = p_KeySet p /\ mg_ttl m = Z.max 0 (sc_TTL c) /\
        Some (mg_store m) = sc_Store c /\ (mg_inherit m = None <-> sc_Inheritance c = None)
    end).
Proof.
  intros Hrun. pose proof (New_cases cfg h r h' Hrun) as Hc. split_and!.
  - intros Hr. destruct r as [p|e|why]; [done|eauto|done].
  - rewrite <- (New_succeeds cfg h). by rewrite Hrun.
  - intros ks. by apply plain_accounts_build.
  - intros e He. unfold New in Hrun. rewrite He in Hrun. by injection Hrun as <- _.
  - intros p ->. destruct Hc as (Hinv & Hh & Hclose & ks & jwt & core & Hp & Hks & Hjwt & Hcore).
    assert (p_Audit p = NoopLogger <-> ac_DBPath (cg_Audit cfg) = "") as Haudit by (eapply New_audit; eauto).
    rewrite Hp in Hclose, Haudit |- *. cbn [p_KeySet p_Authz p_Audit p_Identity p_JWT p_OIDC p_SAML] in *.
    split_and!; [by eapply NewKeySet_nil|done|done|done| | | |].
    + unfold core_of in Hcore. destruct (cg_Identity cfg); [|by injection Hcore as <-].
      cbn in Hcore. destruct (identity_New _ _ _); [|done..]. by injection Hcore as <-.
    + intros ic Hic Ho. by eapply core_wired.
    + destruct (cg_OIDC cfg) as [c|] eqn:Ho; [|unfold oidc_of; by rewrite Ho].
      destruct (oidc_wired cfg ks c Hinv Ho) as (m & H1 & H2 & H3 & H4 & H5). exists m. split_and!; [done..|].
      destruct (oc_Inheritance c); [destruct H5 as (? & ? & _ & _ & ->); done|by rewrite H5].
    + destruct (cg_SAML cfg) as [c|] eqn:Ho; [|unfold saml_of; by rewrite Ho].
      destruct (saml_wired cfg ks c Hinv Ho) as (m & H1 & H2 & H3 & H4 & H5). exists m. split_and!; [done..|].
      destruct (sc_Inheritance c); [destruct H5 as (? & ? & _ & _ & ->); done|by rewrite H5].
Qed.

(** The SAML manager [New] builds serves nobody: no field of the configuration
    carries an assertion replay store, and a manager without one refuses to build
    the registry of any tenant that has a provider. *)
Theorem New_saml_serves_nobody cfg h p h' m t rec recs w : New cfg h = (Ret p, h') -> p_SAML p = Some m ->
  mg_build m t (rec :: recs) w = (Fail (Errorf0 "manager has no assertion replay store"), w).
Proof.
  intros Hrun Hm. destruct (New_cases cfg h (Ret p) h' Hrun) as (Hinv & _ & _ & ks & jwt & core & Hp & _).
  rewrite Hp in Hm. cbn [p_SAML] in Hm. unfold saml_of in Hm. unfold invalid in Hinv. rewrite !guard_None in Hinv.
  destruct Hinv as (_ & _ & _ & _ & Hs & Hu & _). destruct (cg_SAML cfg) as [c|]; [|done].
  destruct (lacks_Some _ _ c Hs eq_refl) as [store Hst]. destruct (lacks_Some _ _ c Hu eq_refl) as [url Hurl].
  cbn in Hm. rewrite Hst in Hm. injection Hm as <-. unfold SamlProvider.NewManager, saml_options. rewrite Hurl.
  destruct (sc_Inheritance c) as [[[s|] [al|]]|], (0 <? sc_TTL c), (sc_AllowIDPInitiated c), (0 <? sc_SkewTolerance c); reflexivity.
Qed.
End Provider.

(** ** A deployment *)

Module ToyBoot.
Definition aead (raw : bytes) : go AEAD := Ret (toy_aead raw).
Definition files (path : string) : go Table := if String.eqb path "audit.db" then Ret [] else Fail (AppError "no such directory").
Definition jwt : JWTConfig := {| cfg_Secret := "s3cret"; cfg_TTL := 900 * 10 ^ 9; cfg_Issuer := "tamper" |}.
Definition fetcher (tr : trace) (url : string) : go string := Ret url.
Definition accounts : IdentityConfig := MkIdentityConfig (Some Mem_store) [].
(** [WithDefaultACR] of an empty string. *)
Definition no_acr (c : Core Identity.MemStore) : Core Identity.MemStore :=
  {| c_store := c_store c; c_jwt := c_jwt c; c_refreshTTL := c_refreshTTL c; c_totpRequired := c_totpRequired c;
     c_defaultACR := ""; c_OnRegistered := c_OnRegistered c; c_throttling := c_throttling c;
     c_secondFactor := c_secondFactor c; c_invitations := c_invitations c; c_memberships := c_memberships c;
     c_enterTTL := c_enterTTL c; c_OnTenantEntered := c_OnTenantEntered c; c_impersonation := c_impersonation c;
     c_impersonationTTL := c_impersonationTTL c; c_keys := c_keys c; c_OnProvisioned := c_OnProvisioned c |}.
Definition saml : SAMLConfig := MkSAMLConfig (Some SamlProvider.MemProviderStore.port) (Some (fun id acs => acs)) 0 None false 0.
Definition config (opts : list (Core Identity.MemStore -> Core Identity.MemStore)) : Config (SO := unit) (A := unit) :=
  MkConfig jwt [] uint8_zero (MkAuditConfig "audit.db" None) None (Some (MkIdentityConfig (Some Mem_store) opts)) None (Some saml).
Definition boot opts := New (Replay := string) Jwt.Toy.lib aead toy_oidc toy_crewjam fetcher files map_to_list map_to_list (config opts) ∅.

Example boots : is_ret (boot []).1 = true.
Proof. vm_compute. reflexivity. Qed.
(** The database that was opened is closed when the accounts do not build. *)
Example failed_boot : boot [no_acr] = (Fail (Errorf1 "tamper: identity" (Errorf0 "identity: default ACR must not be empty")), ∅).
Proof. vm_compute. reflexivity. Qed.
Lemma aead_returns raw why : aead raw <> Panic why.
Proof. done. Qed.
Lemma files_return path why : files path <> Panic why.
Proof. unfold files. by destruct (String.eqb path "audit.db"). Qed.
Definition running := boot [].
Lemma booted : exists p, running.1 = Ret p /\ exists m, p_SAML p = Some m.
Proof. eexists. split; [reflexivity|]. eexists. reflexivity. Qed.
End ToyBoot.

(** A deployment with OIDC: no keys, no log, plain accounts. *)
Module ToyOidcBoot.
Definition oidc : OIDCConfig := MkOIDCConfig (Some Oidc.MemProviderStore.port) (Some (fun id => "https://app/" +:+ id)) 60 None.
Definition config : Config (A := unit) :=
  MkConfig ToyBoot.jwt [] uint8_zero (MkAuditConfig "" None) None (Some ToyBoot.accounts) (Some oidc) (Some ToyBoot.saml).
Definition boot := New (Replay := string) Jwt.Toy.lib ToyBoot.aead toy_oidc toy_crewjam ToyBoot.fetcher ToyBoot.files map_to_list map_to_list config ∅.
Lemma config_complete : complete config.
Proof.
  split_and!; [done| | |].
  - intros ic [= <-]. by eexists.
  - intros c [= <-]. split_and!; [by eexists|by eexists|by intros i [=]].
  - intros c [= <-]. split_and!; [by eexists|by eexists|by intros i [=]].
Qed.
End ToyOidcBoot.

(** The provider boots with the audit log open, no open file is left by the
    configuration whose accounts do not build, and the deployment with OIDC
    boots. *)
Lemma New_all_or_nothing_witness :
  is_ret ToyOidcBoot.boot.1 = true /\
  (exists p, ToyBoot.running.1 = Ret p /\ p_Audit p <> NoopLogger /\ Close (Some p) ToyBoot.running.2 = ∅) /\
  (ToyBoot.boot [ToyBoot.no_acr]).2 = ∅.
Proof.
  split; [|split].
  - destruct (New_all_or_nothing (Replay := string) Jwt.Toy.lib ToyBoot.aead toy_oidc toy_crewjam ToyBoot.fetcher ToyBoot.files map_to_list
      map_to_list ToyBoot.aead_returns ToyBoot.files_return ToyOidcBoot.config ∅ ToyOidcBoot.boot.1 ToyOidcBoot.boot.2
      (surjective_pairing ToyOidcBoot.boot)) as (_ & Hok & Hplain & _).
    apply Hok. split; [exact ToyOidcBoot.config_complete|]. exists None. split; [reflexivity|]. split; [left; reflexivity|].
    apply Hplain; [exact ToyOidcBoot.config_complete|discriminate|]. intros ic Hic. injection Hic as <-. reflexivity.
  - destruct ToyBoot.booted as (p & Hp & _).
    destruct (New_all_or_nothing Jwt.Toy.lib ToyBoot.aead toy_oidc toy_crewjam ToyBoot.fetcher ToyBoot.files map_to_list map_to_list
      ToyBoot.aead_returns ToyBoot.files_return (ToyBoot.config []) ∅ (ToyBoot.running.1) (ToyBoot.running.2)
      (surjective_pairing ToyBoot.running)) as (_ & _ & _ & _ & Hok).
    destruct (Hok p Hp) as (_ & _ & Ha & Hclose & _). exists p. split; [exact Hp|]. split; [|exact Hclose].
    intros Hn. apply Ha in Hn. discriminate Hn.
  - destruct (New_all_or_nothing (Replay := string) Jwt.Toy.lib ToyBoot.aead toy_oidc toy_crewjam ToyBoot.fetcher ToyBoot.files map_to_list
      map_to_list ToyBoot.aead_returns ToyBoot.files_return (ToyBoot.config [ToyBoot.no_acr]) ∅
      (Fail (Errorf1 "tamper: identity" (Errorf0 "identity: default ACR must not be empty"))) ∅ ToyBoot.failed_boot) as (Hfail & _).
    destruct (Hfail eq_refl) as [Hh _]. rewrite ToyBoot.failed_boot. exact Hh.
Defined.
(** A tenant with a provider that is in order. *)
Lemma New_saml_serves_nobody_witness : exists p m, ToyBoot.running.1 = Ret p /\ p_SAML p = Some m /\
  mg_build m (Tenant.New "acme") [MkRecord "okta" "https://okta" "sp" "https://app/acs" "cert" [] "" "" "" "Okta" true 0 0]
    (World (MState SamlProvider.MemProviderStore.NewMemProviderStore ∅) []) =
  (Fail (Errorf0 "manager has no assertion replay store"), World (MState SamlProvider.MemProviderStore.NewMemProviderStore ∅) []).
Proof.
  destruct ToyBoot.booted as (p & Hp & m & Hm). exists p, m. split; [exact Hp|]. split; [exact Hm|].
  refine (New_saml_serves_nobody Jwt.Toy.lib ToyBoot.aead toy_oidc toy_crewjam ToyBoot.fetcher ToyBoot.files map_to_list map_to_list
    ToyBoot.aead_returns ToyBoot.files_return (ToyBoot.config []) ∅ p ToyBoot.running.2 m (Tenant.New "acme") _ [] _ _ Hm).
  rewrite <- Hp. apply surjective_pairing.
Defined.
