(* ===== verification/PooledStore.v ===== *)
(** * The pooled example store

    [src/examples/multitenant/store.go]: an application's own [identity.Store],
    one table for every tenant. The theorem compares it, operation by operation,
    with the reference store of [Identity]; it keeps no second factor. *)

From Stdlib Require Import Sorting.Permutation.
From S2P Require Import Prelude Tenant Bytes World Crypto Identity.

#[local] Open Scope string_scope.
#[local] Open Scope list_scope.
#[local] Open Scope Z_scope.

Record tenantStore := MkTenantStore {
  users : gmap string User;
  psessions : gmap string RefreshSession;
  byHash : gmap string string;
  idents : gmap string Identity;
  bootstrapped : gmap string bool;
  pmemberships : gmap string (gmap ID bool);
  sessionReadErr : option error
}.
Definition newTenantStore : tenantStore := MkTenantStore ∅ ∅ ∅ ∅ ∅ ∅ None.

Definition key (tenantID value : string) : string := tenantID +:+ NUL +:+ value.
Definition wasBootstrapped (s : tenantStore) (userID : string) : bool := default false (bootstrapped s !! userID).

Definition with_pusers (s : tenantStore) us bs : tenantStore :=
  MkTenantStore us (psessions s) (byHash s) (idents s) bs (pmemberships s) (sessionReadErr s).
Definition with_psessions (s : tenantStore) ss hs : tenantStore :=
  MkTenantStore (users s) ss hs (idents s) (bootstrapped s) (pmemberships s) (sessionReadErr s).
Definition with_idents (s : tenantStore) ids : tenantStore :=
  MkTenantStore (users s) (psessions s) (byHash s) ids (bootstrapped s) (pmemberships s) (sessionReadErr s).
Definition with_pmemberships (s : tenantStore) ms : tenantStore :=
  MkTenantStore (users s) (psessions s) (byHash s) (idents s) (bootstrapped s) ms (sessionReadErr s).

(** The rows a range visits; Go leaves their order open. *)
Definition user_rows (s : tenantStore) : list User := (map_to_list (users s)).*2.
Definition ident_rows (s : tenantStore) : list Identity := (map_to_list (idents s)).*2.

(** ** The tenant-scoped surface *)

Definition Pool_UserByEmail (tenantID : ID) (email : string) (s : tenantStore) : go User * tenantStore :=
  (match List.find (fun u => String.eqb (us_TenantID u) (ID_String tenantID) && String.eqb (us_Email u) email) (user_rows s) with
   | Some u => Ret u
   | None => Fail (not_found "email")
   end, s).
Definition Pool_IdentityByProviderSubject (tenantID : ID) (provider subject : string) (s : tenantStore) : go Identity * tenantStore :=
  (match List.find (same_subject (ID_String tenantID) provider subject) (ident_rows s) with
   | Some i => Ret i
   | None => Fail (not_found "identity")
   end, s).
Definition Pool_CountUsers (tenantID : ID) (s : tenantStore) : go Z * tenantStore :=
  (Ret (Z.of_nat (length (List.filter (fun u => String.eqb (us_TenantID u) (ID_String tenantID)) (user_rows s)))), s).
(** The loops over the sessions. *)
Definition revoke_where (sel : RefreshSession -> bool) (at_ : time) (s : tenantStore) : tenantStore :=
  with_psessions s ((fun x => if sel x && negb (Revoked x) then set_RevokedAt x at_ else x) <$> psessions s) (byHash s).
Definition Pool_RevokeAllRefreshSessionsForTenant (tenantID : ID) (at_ : time) (s : tenantStore) : go unit * tenantStore :=
  (Ret tt, revoke_where (fun x => String.eqb (se_TenantID x) (ID_String tenantID)) at_ s).

(** ** The base surface *)

(** The later rows of a range overwrite the earlier. *)
Definition emailIndexLocked (s : tenantStore) : gmap string string :=
  fold_left (fun idx u => <[key (us_TenantID u) (us_Email u) := us_ID u]> idx) (user_rows s) ∅.
Definition user_of_new (u : NewUser) : User :=
  MkUser (nu_ID u) (nu_TenantID u) (nu_Email u) (nu_PasswordHash u) true false (nu_CreatedAt u).
Definition email_taken (email : string) : error := Errorf1 email (Sentinel identity_ErrEmailTaken).
Definition Pool_CreateUser (u : NewUser) (firstUser : bool) (s : tenantStore) : go unit * tenantStore :=
  match emailIndexLocked s !! key (nu_TenantID u) (nu_Email u) with
  | Some _ => (Fail (email_taken (nu_Email u)), s)
  | None => (Ret tt, with_pusers s (<[nu_ID u := user_of_new u]> (users s)) (<[nu_ID u := firstUser]> (bootstrapped s)))
  end.
Definition Pool_UserByID (id : string) (s : tenantStore) : go User * tenantStore :=
  (match users s !! id with Some u => Ret u | None => Fail (not_found "user") end, s).
Definition Pool_CreateRefreshSession (x : RefreshSession) (s : tenantStore) : go unit * tenantStore :=
  (Ret tt, with_psessions s (<[se_ID x := x]> (psessions s)) (<[se_TokenHash x := se_ID x]> (byHash s))).
Definition Pool_RefreshSessionByHash (h : string) (s : tenantStore) : go RefreshSession * tenantStore :=
  (match sessionReadErr s with
   | Some e => Fail e
   | None =>
       match byHash s !! h with
       | None => Fail (not_found "session")
       | Some id => Ret (default RefreshSession_zero (psessions s !! id))
       end
   end, s).
Definition Pool_RevokeRefreshSession (id : string) (at_ : time) (s : tenantStore) : go unit * tenantStore :=
  match psessions s !! id with
  | Some x => if negb (Revoked x) then (Ret tt, with_psessions s (<[id := set_RevokedAt x at_]> (psessions s)) (byHash s))
              else (Ret tt, s)
  | None => (Ret tt, s)
  end.
Definition Pool_RevokeAllRefreshSessionsForUser (uid : string) (at_ : time) (s : tenantStore) : go unit * tenantStore :=
  (Ret tt, revoke_where (fun x => String.eqb (se_UserID x) uid) at_ s).
Definition Pool_IdentityByID (id : string) (s : tenantStore) : go Identity * tenantStore :=
  (match idents s !! id with Some i => Ret i | None => Fail (not_found "identity") end, s).
Definition owned (uid : string) (s : tenantStore) : list Identity :=
  List.filter (fun i => String.eqb (id_UserID i) uid) (ident_rows s).
Definition Pool_IdentitiesByUserID (uid : string) (s : tenantStore) : go (list Identity) * tenantStore := (Ret (owned uid s), s).
Definition insertIdentityLocked (ni : NewIdentity) (s : tenantStore) : go unit * tenantStore :=
  if existsb (same_subject (id_TenantID ni) (id_Provider ni) (id_Subject ni)) (ident_rows s) then (Fail identity_taken, s)
  else (Ret tt, with_idents s (<[id_ID ni := ni]> (idents s))).
Definition Pool_InsertIdentity (ni : NewIdentity) (s : tenantStore) : go unit * tenantStore := insertIdentityLocked ni s.
Definition Pool_TouchIdentityLastLogin (id : string) (at_ : time) (s : tenantStore) : go unit * tenantStore :=
  match idents s !! id with
  | None => (Fail (not_found "identity"), s)
  | Some i => (Ret tt, with_idents s (<[id := set_LastLoginAt i at_]> (idents s)))
  end.
Definition Pool_DeleteIdentity (id : string) (s : tenantStore) : go unit * tenantStore :=
  (Ret tt, with_idents s (delete id (idents s))).
Definition Pool_CountIdentitiesByUserID (uid : string) (s : tenantStore) : go Z * tenantStore :=
  (Ret (Z.of_nat (length (owned uid s))), s).
Definition Pool_ProvisionUserWithIdentity (u : NewUser) (ni : NewIdentity) (firstUser : bool) (s : tenantStore)
    : go (User * Identity) * tenantStore :=
  match emailIndexLocked s !! key (nu_TenantID u) (nu_Email u) with
  | Some _ => (Fail (email_taken (nu_Email u)), s)
  | None =>
      if existsb (same_subject (id_TenantID ni) (id_Provider ni) (id_Subject ni)) (ident_rows s) then (Fail identity_taken, s)
      else (Ret (user_of_new u, ni), with_idents
        (with_pusers s (<[nu_ID u := user_of_new u]> (users s)) (<[nu_ID u := firstUser]> (bootstrapped s)))
        (<[id_ID ni := ni]> (idents s)))
  end.

(** The second factor is not exercised: its writes do nothing. *)
Definition Pool_TOTPState (uid : string) (s : tenantStore) : go TOTPState * tenantStore :=
  (match users s !! uid with None => Fail (not_found "user") | Some _ => Ret TOTPState_zero end, s).
Definition Pool_SetTOTPPending (uid : string) (envelope : bytes) (hashes : list string) (s : tenantStore) : go unit * tenantStore := (Ret tt, s).
Definition Pool_EnableTOTP (uid : string) (envelope : bytes) (hashes : list string) (at_ : time) (s : tenantStore)
    : go unit * tenantStore := (Ret tt, s).
Definition Pool_SetRecoveryCodeHashes (uid : string) (hashes : list string) (s : tenantStore) : go unit * tenantStore := (Ret tt, s).
Definition Pool_ClearTOTP (uid : string) (s : tenantStore) : go unit * tenantStore := (Ret tt, s).

Definition Pool_store : Store tenantStore := {|
  CreateUser := Pool_CreateUser;
  UserByID := Pool_UserByID;
  UserByEmail := Pool_UserByEmail;
  CountUsers := Pool_CountUsers;
  CreateRefreshSession := Pool_CreateRefreshSession;
  RefreshSessionByHash := Pool_RefreshSessionByHash;
  RevokeRefreshSession := Pool_RevokeRefreshSession;
  RevokeAllRefreshSessionsForUser := Pool_RevokeAllRefreshSessionsForUser;
  RevokeAllRefreshSessionsForTenant := Pool_RevokeAllRefreshSessionsForTenant;
  GetTOTPState := Pool_TOTPState;
  SetTOTPPending := Pool_SetTOTPPending;
  EnableTOTP := Pool_EnableTOTP;
  SetRecoveryCodeHashes := Pool_SetRecoveryCodeHashes;
  ClearTOTP := Pool_ClearTOTP;
  IdentityByProviderSubject := Pool_IdentityByProviderSubject;
  IdentityByID := Pool_IdentityByID;
  IdentitiesByUserID := Pool_IdentitiesByUserID;
  InsertIdentity := Pool_InsertIdentity;
  TouchIdentityLastLogin := Pool_TouchIdentityLastLogin;
  DeleteIdentity := Pool_DeleteIdentity;
  CountIdentitiesByUserID := Pool_CountIdentitiesByUserID;
  ProvisionUser := Pool_ProvisionUserWithIdentity
|}.

(** *** identity.MembershipStore *)

Definition grantMembership (userID : string) (tenantID : ID) (s : tenantStore) : tenantStore :=
  with_pmemberships s (<[userID := <[tenantID := true]> (default ∅ (pmemberships s !! userID))]> (pmemberships s)).
(** Deleting from a nil map does nothing. *)
Definition revokeMembership (userID : string) (tenantID : ID) (s : tenantStore) : tenantStore :=
  with_pmemberships s (alter (delete tenantID) userID (pmemberships s)).
Definition Pool_IsMember (userID : string) (tenantID : ID) (s : tenantStore) : go bool * tenantStore :=
  (Ret (default false (default ∅ (pmemberships s !! userID) !! tenantID)), s).
Definition Pool_MembershipsFor (userID : string) (s : tenantStore) : go (list ID) * tenantStore :=
  (Ret (map_to_list (default ∅ (pmemberships s !! userID))).*1, s).
Definition Pool_memberships : MembershipStore tenantStore := {| IsMember := Pool_IsMember; MembershipsFor := Pool_MembershipsFor |}.
Definition failSessionReads (err : option error) (s : tenantStore) : tenantStore :=
  MkTenantStore (users s) (psessions s) (byHash s) (idents s) (bootstrapped s) (pmemberships s) err.

(** ** Operations and answers *)

Inductive op :=
  | OCreateUser (u : NewUser) (firstUser : bool)
  | OUserByID (id : string)
  | OUserByEmail (t : ID) (email : string)
  | OCountUsers (t : ID)
  | OCreateRefreshSession (x : RefreshSession)
  | ORefreshSessionByHash (h : string)
  | ORevokeRefreshSession (id : string) (at_ : time)
  | ORevokeAllForUser (uid : string) (at_ : time)
  | ORevokeAllForTenant (t : ID) (at_ : time)
  | OIdentityByProviderSubject (t : ID) (provider subject : string)
  | OIdentityByID (id : string)
  | OIdentitiesByUserID (uid : string)
  | OInsertIdentity (ni : NewIdentity)
  | OTouchIdentityLastLogin (id : string) (at_ : time)
  | ODeleteIdentity (id : string)
  | OCountIdentitiesByUserID (uid : string)
  | OProvision (u : NewUser) (ni : NewIdentity) (firstUser : bool)
  | OGrantMembership (uid : string) (t : ID)
  | ORevokeMembership (uid : string) (t : ID)
  | OIsMember (uid : string) (t : ID)
  | OMembershipsFor (uid : string).
Inductive answer :=
  | ADone (r : go unit) | AUser (r : go User) | ASession (r : go RefreshSession) | AIdentity (r : go Identity)
  | AIdentities (r : go (list Identity)) | ACount (r : go Z) | AProvisioned (r : go (User * Identity))
  | AMember (r : go bool) | AMembers (r : go (list ID)) | AFactor (r : go TOTPState).

(** A store with its memberships and the writes of those. *)
Record Deployment (S : Type) := MkDeployment {
  dp_store : Store S;
  dp_members : MembershipStore S;
  dp_grant : string -> ID -> S -> S;
  dp_revoke : string -> ID -> S -> S
}.
Arguments dp_store {_} _.
Arguments dp_members {_} _.
Arguments dp_grant {_} _ _ _ _.
Arguments dp_revoke {_} _ _ _ _.
Definition pooled : Deployment tenantStore := MkDeployment _ Pool_store Pool_memberships grantMembership revokeMembership.
Definition reference : Deployment MemStore := MkDeployment _ Mem_store Mem_memberships AddMembership RemoveMembership.

Definition told {S A} (f : go A -> answer) (r : go A * S) : answer * S := (f r.1, r.2).
Definition exec {S} (d : Deployment S) (o : op) (s : S) : answer * S :=
  match o with
  | OCreateUser u first => told ADone (CreateUser (dp_store d) u first s)
  | OUserByID id => told AUser (UserByID (dp_store d) id s)
  | OUserByEmail t e => told AUser (UserByEmail (dp_store d) t e s)
  | OCountUsers t => told ACount (CountUsers (dp_store d) t s)
  | OCreateRefreshSession x => told ADone (CreateRefreshSession (dp_store d) x s)
  | ORefreshSessionByHash h => told ASession (RefreshSessionByHash (dp_store d) h s)
  | ORevokeRefreshSession id t => told ADone (RevokeRefreshSession (dp_store d) id t s)
  | ORevokeAllForUser u t => told ADone (RevokeAllRefreshSessionsForUser (dp_store d) u t s)
  | ORevokeAllForTenant i t => told ADone (RevokeAllRefreshSessionsForTenant (dp_store d) i t s)
  | OIdentityByProviderSubject t p x => told AIdentity (IdentityByProviderSubject (dp_store d) t p x s)
  | OIdentityByID id => told AIdentity (IdentityByID (dp_store d) id s)
  | OIdentitiesByUserID u => told AIdentities (IdentitiesByUserID (dp_store d) u s)
  | OInsertIdentity ni => told ADone (InsertIdentity (dp_store d) ni s)
  | OTouchIdentityLastLogin id t => told ADone (TouchIdentityLastLogin (dp_store d) id t s)
  | ODeleteIdentity id => told ADone (DeleteIdentity (dp_store d) id s)
  | OCountIdentitiesByUserID u => told ACount (CountIdentitiesByUserID (dp_store d) u s)
  | OProvision u ni first => told AProvisioned (ProvisionUser (dp_store d) u ni first s)
  | OGrantMembership u t => (ADone (Ret tt), dp_grant d u t s)
  | ORevokeMembership u t => (ADone (Ret tt), dp_revoke d u t s)
  | OIsMember u t => told AMember (IsMember (dp_members d) u t s)
  | OMembershipsFor u => told AMembers (MembershipsFor (dp_members d) u s)
  end.
Fixpoint run {S} (d : Deployment S) (ops : list op) (s : S) : list answer * S :=
  match ops with
  | [] => ([], s)
  | o :: ops => let '(a, s) := exec d o s in let '(rest, s) := run d ops s in (a :: rest, s)
  end.

(** The second factor's part of the port, and the whole port. *)
Inductive factor_op :=
  | OTOTPState (uid : string)
  | OSetTOTPPending (uid : string) (envelope : bytes) (hashes : list string)
  | OEnableTOTP (uid : string) (envelope : bytes) (hashes : list string) (at_ : time)
  | OSetRecoveryCodeHashes (uid : string) (hashes : list string)
  | OClearTOTP (uid : string).
Inductive port_op := Core (o : op) | Factor (f : factor_op).
Definition exec_factor {S} (d : Deployment S) (f : factor_op) (s : S) : answer * S :=
  match f with
  | OTOTPState u => told AFactor (GetTOTPState (dp_store d) u s)
  | OSetTOTPPending u e hs => told ADone (SetTOTPPending (dp_store d) u e hs s)
  | OEnableTOTP u e hs t => told ADone (EnableTOTP (dp_store d) u e hs t s)
  | OSetRecoveryCodeHashes u hs => told ADone (SetRecoveryCodeHashes (dp_store d) u hs s)
  | OClearTOTP u => told ADone (ClearTOTP (dp_store d) u s)
  end.
Definition exec_port {S} (d : Deployment S) (o : port_op) : S -> answer * S :=
  match o with Core o => exec d o | Factor f => exec_factor d f end.
Fixpoint run_port {S} (d : Deployment S) (ops : list port_op) (s : S) : list answer * S :=
  match ops with
  | [] => ([], s)
  | o :: ops => let '(a, s) := exec_port d o s in let '(rest, s) := run_port d ops s in (a :: rest, s)
  end.
Definition writes_factor (o : port_op) : bool :=
  match o with Core _ | Factor (OTOTPState _) => false | Factor _ => true end.

(** The reference store without its second factor: the four writes of it are
    acknowledged and change nothing. *)
Definition acknowledged {S} (s : S) : go unit * S := (Ret tt, s).
Definition deaf_store : Store MemStore := {|
  CreateUser := Mem_CreateUser; UserByID := Mem_UserByID; UserByEmail := Mem_UserByEmail; CountUsers := Mem_CountUsers;
  CreateRefreshSession := Mem_CreateRefreshSession; RefreshSessionByHash := Mem_RefreshSessionByHash;
  RevokeRefreshSession := Mem_RevokeRefreshSession; RevokeAllRefreshSessionsForUser := Mem_RevokeAllRefreshSessionsForUser;
  RevokeAllRefreshSessionsForTenant := Mem_RevokeAllRefreshSessionsForTenant;
  GetTOTPState := Mem_TOTPState;
  SetTOTPPending _ _ _ := acknowledged; EnableTOTP _ _ _ _ := acknowledged; SetRecoveryCodeHashes _ _ := acknowledged; ClearTOTP _ := acknowledged;
  IdentityByProviderSubject := Mem_IdentityByProviderSubject; IdentityByID := Mem_IdentityByID;
  IdentitiesByUserID := Mem_IdentitiesByUserID; InsertIdentity := Mem_InsertIdentity;
  TouchIdentityLastLogin := Mem_TouchIdentityLastLogin; DeleteIdentity := Mem_DeleteIdentity;
  CountIdentitiesByUserID := Mem_CountIdentitiesByUserID; ProvisionUser := Mem_ProvisionUserWithIdentity
|}.
Definition deaf : Deployment MemStore := MkDeployment _ deaf_store Mem_memberships AddMembership RemoveMembership.
Lemma exec_deaf o m : exec deaf o m = exec reference o m.
Proof. by destruct o. Qed.
Lemma run_port_deaf ops : forall m, Forall (fun o => writes_factor o = false) ops -> run_port deaf ops m = run_port reference ops m.
Proof.
  induction ops as [|o ops IH]; intros m; [done|]. intros [Ho Hops]%Forall_cons. cbn [run_port].
  assert (exec_port deaf o m = exec_port reference o m) as -> by (destruct o as [o|[]]; first [apply exec_deaf|done]).
  destruct (exec_port reference o m) as [a m']. by rewrite IH.
Qed.

(** The same answer; lists in any order. *)
Definition same_answer (a b : answer) : Prop :=
  match a, b with
  | AIdentities (Ret xs), AIdentities (Ret ys) => xs ≡ₚ ys
  | AMembers (Ret xs), AMembers (Ret ys) => xs ≡ₚ ys
  | _, _ => a = b
  end.
Lemma same_refl a : same_answer a a.
Proof. destruct a as [| | | |[]| | | |[]|]; cbn; reflexivity. Qed.

(** ** The email index *)

Definition nul_free (s : string) : Prop := "000"%char ∉ String.list_ascii_of_string s.
Lemma app_key_inj (l1 l2 r1 r2 : list ascii) : "000"%char ∉ r1 -> "000"%char ∉ r2 ->
  l1 ++ "000"%char :: r1 = l2 ++ "000"%char :: r2 -> l1 = l2 /\ r1 = r2.
Proof.
  intros H1 H2. revert l2. induction l1 as [|c l1 IH]; intros [|c' l2]; cbn; intros H.
  - by injection H as ->.
  - injection H as <- ->. exfalso. apply H1. apply elem_of_app. right. by left.
  - injection H as -> <-. exfalso. apply H2. apply elem_of_app. right. by left.
  - injection H as <- H. by destruct (IH l2 H) as [-> ->].
Qed.
Lemma list_of_append s1 s2 : String.list_ascii_of_string (s1 +:+ s2) = String.list_ascii_of_string s1 ++ String.list_ascii_of_string s2.
Proof. induction s1 as [|c s1 IH]; [done|]. cbn. by rewrite <- IH. Qed.
Lemma list_of_inj s1 s2 : String.list_ascii_of_string s1 = String.list_ascii_of_string s2 -> s1 = s2.
Proof. intros H. rewrite <- (String.string_of_list_ascii_of_string s1), H. apply String.string_of_list_ascii_of_string. Qed.
Lemma key_inj t1 t2 e1 e2 : nul_free e1 -> nul_free e2 -> key t1 e1 = key t2 e2 -> t1 = t2 /\ e1 = e2.
Proof.
  unfold key, nul_free. intros H1 H2 H. apply (f_equal String.list_ascii_of_string) in H. rewrite !list_of_append in H.
  apply app_key_inj in H as [E1 E2]; [|done..]. split; by apply list_of_inj.
Qed.

Definition user_key (u : User) : string := key (us_TenantID u) (us_Email u).
Lemma emailIndex_None s k : emailIndexLocked s !! k = None <-> forall u, u ∈ user_rows s -> user_key u <> k.
Proof.
  unfold emailIndexLocked. assert (forall l (acc : gmap string string),
    fold_left (fun idx u => <[key (us_TenantID u) (us_Email u) := us_ID u]> idx) l acc !! k = None <->
    acc !! k = None /\ forall u, u ∈ l -> user_key u <> k) as H; [|rewrite H; split; [by intros [_ ?]|done]].
  induction l as [|u l IH]; intros acc; cbn [fold_left]; [split; [intros ?; split; [done|]; by intros u ?%not_elem_of_nil|by intros [? _]]|].
  rewrite IH, lookup_insert_None. fold (user_key u). split.
  - intros [[H1 H2] H3]. split; [done|]. intros v [->|Hv]%elem_of_cons; [done|by apply H3].
  - intros [H1 H2]. split; [split; [done|]; apply H2; by left|]. intros v Hv. apply H2. by right.
Qed.
Lemma elem_of_user_rows s u : u ∈ user_rows s <-> exists id, users s !! id = Some u.
Proof.
  unfold user_rows. rewrite list_elem_of_fmap. split.
  - intros ([id v] & -> & H%elem_of_map_to_list). eauto.
  - intros [id H]. exists (id, u). split; [done|]. by apply elem_of_map_to_list.
Qed.

(** ** The simulation *)

Record sim (p : tenantStore) (m : MemStore) : Prop := {
  sim_users : usersByID m = users p;
  sim_sessions : sessions m = psessions p;
  sim_hash : hashToID m = byHash p;
  sim_idents : identities m = idents p;
  sim_reads : sessionReadErr p = None;
  sim_index k id : emailToID m !! k = Some id <-> exists u, users p !! id = Some u /\ user_key u = k;
  sim_clean id u : users p !! id = Some u -> us_ID u = id /\ nul_free (us_Email u);
  sim_totp : totp m = ∅;
  sim_members uid t : default ∅ (pmemberships p !! uid) !! t = if decide (t ∈ member_set m uid) then Some true else None
}.

(** What the service promises: it draws fresh identifiers, and an email holds no
    NUL. *)
Definition creates (o : op) : option NewUser :=
  match o with OCreateUser u _ | OProvision u _ _ => Some u | _ => None end.
Definition clean_op (o : op) : Prop :=
  match o with OUserByEmail _ e => nul_free e | _ => match creates o with Some u => nul_free (nu_Email u) | None => True end end.

#[export] Instance clean_op_dec o : Decision (clean_op o).
Proof. unfold clean_op, nul_free. destruct o; cbn; apply _. Defined.

Lemma sim_start : sim newTenantStore NewMemStore.
Proof.
  split; cbn; try done. intros k id. rewrite lookup_empty. split; [done|]. intros (u & Hu & _). by rewrite lookup_empty in Hu.
Qed.

Lemma index_agrees p m k : sim p m -> emailIndexLocked p !! k = None <-> emailToID m !! k = None.
Proof.
  intros H. rewrite emailIndex_None. split.
  - intros Hn. destruct (emailToID m !! k) as [id|] eqn:Hk; [|done]. apply (sim_index _ _ H) in Hk as (u & Hu & Hku).
    exfalso. apply (Hn u); [|done]. apply elem_of_user_rows. eauto.
  - intros Hn u (id & Hu)%elem_of_user_rows Hk. assert (emailToID m !! k = Some id) by (apply (sim_index _ _ H); eauto). congruence.
Qed.
Lemma tenantKey_key t e : tenantKey t e = key t e.
Proof. done. Qed.

(** The scan finds the user the index names. *)
Lemma UserByEmail_agrees p m t e : sim p m -> nul_free e -> (Pool_UserByEmail t e p).1 = (Mem_UserByEmail t e m).1.
Proof.
  intros H He. unfold Pool_UserByEmail, Mem_UserByEmail. cbn [fst]. rewrite tenantKey_key.
  destruct (List.find _ (user_rows p)) as [u|] eqn:Hf.
  - apply find_some in Hf as [Hin Hb]. apply andb_true_iff in Hb as [Ht Hm]. apply String.eqb_eq in Ht, Hm.
    apply list_elem_of_In, elem_of_user_rows in Hin as [id Hu].
    assert (emailToID m !! key (ID_String t) e = Some id) as ->.
    { apply (sim_index _ _ H). exists u. split; [done|]. unfold user_key. by rewrite Ht, Hm. }
    unfold user_at. by rewrite (sim_users _ _ H), Hu.
  - destruct (emailToID m !! key (ID_String t) e) as [id|] eqn:Hk; [|done].
    apply (sim_index _ _ H) in Hk as (u & Hu & Hk). destruct (sim_clean _ _ H id u Hu) as [_ Hc].
    apply key_inj in Hk as [Ht Hm]; [|done..].
    assert (In u (user_rows p)) as Hin by (apply list_elem_of_In, elem_of_user_rows; eauto).
    eapply find_none in Hf; [|exact Hin]. by rewrite Ht, Hm, !String.eqb_refl in Hf.
Qed.
Lemma count_agrees p m t : sim p m -> (Pool_CountUsers t p).1 = (Mem_CountUsers t m).1.
Proof.
  intros H. unfold Pool_CountUsers, Mem_CountUsers, user_rows. cbn [fst]. rewrite (sim_users _ _ H). do 2 f_equal.
  induction (map_to_list (users p)) as [|[id u] l IH]; [done|]. cbn. destruct (String.eqb _ _); cbn; by rewrite IH.
Qed.
Lemma rows_agree p m : sim p m -> identity_rows m = ident_rows p.
Proof. intros H. unfold identity_rows, ident_rows. by rewrite (sim_idents _ _ H). Qed.

Lemma sim_create p m u first ms : sim p m -> nul_free (nu_Email u) -> users p !! nu_ID u = None ->
  emailToID m !! key (nu_TenantID u) (nu_Email u) = None -> ms = with_users m (<[nu_ID u := user_of_new u]> (usersByID m))
    (<[key (nu_TenantID u) (nu_Email u) := nu_ID u]> (emailToID m)) ->
  sim (with_pusers p (<[nu_ID u := user_of_new u]> (users p)) (<[nu_ID u := first]> (bootstrapped p))) ms.
Proof.
  intros H He Hfresh Hk ->. destruct H as [H1 H2 H3 H4 H5 H6 H7 H8 H9]. split; cbn; try done; [by rewrite H1| |].
  - intros k id. rewrite lookup_insert_Some. split.
    + intros [[<- <-]|[Hne Hi]].
      * exists (user_of_new u). by rewrite lookup_insert_eq.
      * apply H6 in Hi as (v & Hv & Hkv). exists v. split; [|done]. rewrite lookup_insert_ne; [done|]. intros Heq. congruence.
    + intros (v & [[<- <-]|[Hne Hv]]%lookup_insert_Some & Hkv); [by left|]. right. split; [|apply H6; eauto].
      intros Heq. assert (emailToID m !! key (nu_TenantID u) (nu_Email u) = Some id) by (apply H6; exists v; split; [done|by rewrite Hkv]). congruence.
  - intros id v [[<- <-]|[_ Hv]]%lookup_insert_Some; [done|by apply H7].
Qed.
Lemma sim_with_sessions p m ss hs : sim p m -> sim (with_psessions p ss hs) (with_sessions m ss hs).
Proof. intros []. by split. Qed.
Lemma sim_with_idents p m ids : sim p m -> sim (with_idents p ids) (with_identities m ids).
Proof. intros []. by split. Qed.
Lemma sim_revoke p m sel t : sim p m -> sim (revoke_where sel t p) (revoke_all sel t m).
Proof.
  intros H. unfold revoke_where, revoke_all. rewrite (sim_sessions _ _ H), (sim_hash _ _ H). by apply sim_with_sessions.
Qed.
Lemma sim_grant p m uid t : sim p m -> sim (grantMembership uid t p) (AddMembership uid t m).
Proof.
  intros []. split; cbn; try done. intros uid' t'. unfold member_set in *. cbn [memberships with_memberships AddMembership].
  destruct (decide (uid = uid')) as [<-|Hne]; [|by rewrite !lookup_insert_ne].
  rewrite !lookup_insert_eq. cbn. rewrite lookup_insert. destruct (decide (t = t')) as [->|]; [by rewrite decide_True by set_solver|].
  rewrite sim_members0. destruct (decide (t' ∈ default ∅ (memberships m !! uid))); [rewrite decide_True by set_solver|rewrite decide_False by set_solver]; done.
Qed.
Lemma sim_revoke_membership p m uid t : sim p m -> sim (revokeMembership uid t p) (RemoveMembership uid t m).
Proof.
  intros []. split; cbn; try done. intros uid' t'. unfold member_set in *. cbn [memberships with_memberships RemoveMembership].
  specialize (sim_members0 uid' t'). destruct (decide (uid = uid')) as [<-|Hne]; [|by rewrite !lookup_alter_ne].
  rewrite !lookup_alter_eq. destruct (pmemberships p !! uid) as [mp|], (memberships m !! uid) as [ts|]; cbn in *; try done.
  - rewrite lookup_delete. destruct (decide (t = t')) as [->|]; [by rewrite decide_False by set_solver|].
    rewrite sim_members0. destruct (decide (t' ∈ ts)); [rewrite decide_True by set_solver|rewrite decide_False by set_solver]; done.
  - rewrite lookup_delete. destruct (decide (t = t')); [by rewrite decide_False by set_solver|].
    rewrite sim_members0. by rewrite !decide_False by set_solver.
  - destruct (decide (t' ∈ ts)); [done|]. by rewrite decide_False by set_solver.
Qed.
Lemma members_agree p m uid : sim p m -> (map_to_list (default ∅ (pmemberships p !! uid))).*1 ≡ₚ elements (member_set m uid).
Proof.
  intros H. apply NoDup_Permutation; [apply NoDup_fst_map_to_list|apply NoDup_elements|]. intros t.
  rewrite elem_of_elements. pose proof (sim_members _ _ H uid t) as Hm. split.
  - intros ([t' b] & -> & Ht%elem_of_map_to_list)%list_elem_of_fmap. cbn in Hm |- *. rewrite Hm in Ht. by destruct (decide (_ ∈ _)).
  - intros Ht. rewrite decide_True in Hm by done. apply list_elem_of_fmap. exists (t, true). split; [done|].
    by apply elem_of_map_to_list.
Qed.

(** One operation. *)
Lemma exec_sim p m o : sim p m -> clean_op o -> (forall u, creates o = Some u -> users p !! nu_ID u = None) ->
  same_answer (exec pooled o p).1 (exec reference o m).1 /\ sim (exec pooled o p).2 (exec reference o m).2.
Proof.
  intros H Hc Hfresh. destruct o as [u first|id|t e|t|x|h|id t|uid t|i t|t pr x|id|uid|ni|id t|id|uid|u ni first|uid t|uid t|uid t|uid];
    cbn [exec pooled reference dp_store dp_members dp_grant dp_revoke Pool_store Mem_store Pool_memberships Mem_memberships
      CreateUser UserByID UserByEmail CountUsers CreateRefreshSession RefreshSessionByHash RevokeRefreshSession
      RevokeAllRefreshSessionsForUser RevokeAllRefreshSessionsForTenant IdentityByProviderSubject IdentityByID IdentitiesByUserID
      InsertIdentity TouchIdentityLastLogin DeleteIdentity CountIdentitiesByUserID ProvisionUser IsMember MembershipsFor told fst snd];
    unfold same_answer.
  - unfold Pool_CreateUser, Mem_CreateUser. change tenantKey with key. pose proof (index_agrees p m (key (nu_TenantID u) (nu_Email u)) H) as Hi.
    destruct (emailIndexLocked p !! _) eqn:Hp, (emailToID m !! _) eqn:Hm; [done|discriminate (proj2 Hi eq_refl)|discriminate (proj1 Hi eq_refl)|].
    split; [done|]. apply (sim_create p m u first); by try apply Hfresh.
  - unfold Pool_UserByID, Mem_UserByID. by rewrite (sim_users _ _ H).
  - rewrite (UserByEmail_agrees p m t e H Hc). done.
  - rewrite (count_agrees p m t H). done.
  - split; [done|]. cbn. rewrite (sim_sessions _ _ H), (sim_hash _ _ H). by apply sim_with_sessions.
  - unfold Pool_RefreshSessionByHash, Mem_RefreshSessionByHash, session_at. rewrite (sim_reads _ _ H), (sim_sessions _ _ H), (sim_hash _ _ H).
    cbn. by destruct (byHash p !! h).
  - unfold Pool_RevokeRefreshSession, Mem_RevokeRefreshSession. rewrite (sim_sessions _ _ H), (sim_hash _ _ H).
    destruct (psessions p !! id) as [x|]; [|done]. destruct (Revoked x); [done|]. split; [done|]. by apply sim_with_sessions.
  - split; [done|]. by apply sim_revoke.
  - split; [done|]. by apply sim_revoke.
  - unfold Pool_IdentityByProviderSubject, Mem_IdentityByProviderSubject. by rewrite (rows_agree p m H).
  - unfold Pool_IdentityByID, Mem_IdentityByID. by rewrite (sim_idents _ _ H).
  - unfold Pool_IdentitiesByUserID, Mem_IdentitiesByUserID, owned_by, owned. rewrite (rows_agree p m H). split; [|done].
    cbn. symmetry. apply merge_sort_Permutation.
  - unfold Pool_InsertIdentity, insertIdentityLocked, Mem_InsertIdentity. rewrite (rows_agree p m H), (sim_idents _ _ H).
    destruct (existsb _ _); [done|]. split; [done|]. by apply sim_with_idents.
  - unfold Pool_TouchIdentityLastLogin, Mem_TouchIdentityLastLogin. rewrite (sim_idents _ _ H).
    destruct (idents p !! id); [|done]. split; [done|]. by apply sim_with_idents.
  - split; [done|]. cbn. rewrite (sim_idents _ _ H). by apply sim_with_idents.
  - unfold Pool_CountIdentitiesByUserID, Mem_CountIdentitiesByUserID, owned_by, owned. by rewrite (rows_agree p m H).
  - unfold Pool_ProvisionUserWithIdentity, Mem_ProvisionUserWithIdentity. change tenantKey with key. rewrite (rows_agree p m H), (sim_idents _ _ H).
    pose proof (index_agrees p m (key (nu_TenantID u) (nu_Email u)) H) as Hi.
    destruct (emailIndexLocked p !! _) eqn:Hp, (emailToID m !! _) eqn:Hm; [done|discriminate (proj2 Hi eq_refl)|discriminate (proj1 Hi eq_refl)|].
    destruct (existsb _ _); [done|]. split; [done|]. apply sim_with_idents. apply (sim_create p m u first); by try apply Hfresh.
  - split; [done|]. by apply sim_grant.
  - split; [done|]. by apply sim_revoke_membership.
  - split; [|done]. unfold Pool_IsMember, Mem_IsMember. cbn. rewrite (sim_members _ _ H uid t). case_decide; by case_bool_decide.
  - split; [|done]. cbn. by apply members_agree.
Qed.

(** Users come only from the operations that create them. *)
Lemma users_from o p id : users (exec pooled o p).2 !! id = None \/ users (exec pooled o p).2 !! id = users p !! id \/
  exists u, creates o = Some u /\ nu_ID u = id.
Proof.
  destruct o as [u first|id'|t e|t|x|h|id' t|uid t|i t|t pr x|id'|uid|ni|id' t|id'|uid|u ni first|uid t|uid t|uid t|uid]; try (right; left; reflexivity); cbn.
  - unfold Pool_CreateUser. destruct (emailIndexLocked p !! _); [by right; left|]. destruct (decide (nu_ID u = id)) as [<-|]; [right; right; by exists u|].
    right. left. cbn. by rewrite lookup_insert_ne.
  - right. left. unfold Pool_RevokeRefreshSession. destruct (psessions p !! id'); [|done]. by destruct (negb _).
  - right. left. unfold Pool_InsertIdentity, insertIdentityLocked. by destruct (existsb _ _).
  - right. left. unfold Pool_TouchIdentityLastLogin. by destruct (idents p !! id').
  - unfold Pool_ProvisionUserWithIdentity. destruct (emailIndexLocked p !! _); [by right; left|]. destruct (existsb _ _); [by right; left|].
    destruct (decide (nu_ID u = id)) as [<-|]; [right; right; by exists u|]. right. left. cbn. by rewrite lookup_insert_ne.
Qed.

(** The whole port. *)
Definition port_creates (o : port_op) : option NewUser := match o with Core o => creates o | Factor _ => None end.
Definition clean_port_op (o : port_op) : Prop := match o with Core o => clean_op o | Factor _ => True end.
#[export] Instance clean_port_op_dec o : Decision (clean_port_op o).
Proof. destruct o; cbn; apply _. Defined.

Lemma exec_port_sim p m o : sim p m -> clean_port_op o -> (forall u, port_creates o = Some u -> users p !! nu_ID u = None) ->
  same_answer (exec_port pooled o p).1 (exec_port deaf o m).1 /\ sim (exec_port pooled o p).2 (exec_port deaf o m).2.
Proof.
  intros H Hc Hfresh. destruct o as [o|f]; cbn [exec_port].
  - rewrite exec_deaf. by apply exec_sim.
  - destruct f; cbn; [|by split..]. split; [|done]. unfold Mem_TOTPState, totp_at. rewrite (sim_totp _ _ H), lookup_empty, (sim_users _ _ H).
    done.
Qed.
Lemma port_users_from o p id : users (exec_port pooled o p).2 !! id = None \/ users (exec_port pooled o p).2 !! id = users p !! id \/
  exists u, port_creates o = Some u /\ nu_ID u = id.
Proof. destruct o as [o|[]]; [apply users_from|by right; left..]. Qed.

Lemma run_sim ops : forall p m, sim p m -> Forall clean_port_op ops -> NoDup (nu_ID <$> omap port_creates ops) ->
  (forall u, u ∈ omap port_creates ops -> users p !! nu_ID u = None) ->
  Forall2 same_answer (run_port pooled ops p).1 (run_port deaf ops m).1.
Proof.
  induction ops as [|o ops IH]; intros p m H Hc Hnd Hfresh; [constructor|]. cbn [run_port].
  apply Forall_cons in Hc as [Hc1 Hc2].
  assert (forall u, port_creates o = Some u -> users p !! nu_ID u = None) as Hf.
  { intros u Hu. apply Hfresh. apply list_elem_of_omap. exists o. split; [left|done]. }
  destruct (exec_port_sim p m o H Hc1 Hf) as [Hans Hsim]. pose proof (port_users_from o p) as Huf.
  assert (NoDup (nu_ID <$> omap port_creates ops) /\
    forall u v, port_creates o = Some u -> v ∈ omap port_creates ops -> nu_ID u <> nu_ID v) as [Hnd' Hdiff].
  { cbn in Hnd. destruct (port_creates o) as [u|]; [|done]. cbn in Hnd. apply NoDup_cons in Hnd as [Hnin Hnd]. split; [done|].
    intros ? v [= <-] Hv Heq. apply Hnin. rewrite Heq. by apply list_elem_of_fmap_2. }
  destruct (exec_port pooled o p) as [a1 p'], (exec_port deaf o m) as [a2 m']. cbn [fst snd] in *.
  assert (forall u, u ∈ omap port_creates ops -> users p' !! nu_ID u = None) as Hfresh'.
  { intros u Hu. destruct (Huf (nu_ID u)) as [?|[->|(v & Hv & Heq)]]; [done| |by destruct (Hdiff v u Hv Hu)].
    apply Hfresh. cbn. destruct (port_creates o); [by right|done]. }
  specialize (IH p' m' Hsim Hc2 Hnd' Hfresh'). destruct (run_port pooled ops p') as [as1 p2], (run_port deaf ops m') as [as2 m2].
  by constructor.
Qed.

(** On the operations without the second factor, the two stores. *)
Lemma run_core {S} (d : Deployment S) ops : forall s, run_port d (map Core ops) s = run d ops s.
Proof. induction ops as [|o ops IH]; intros s; [done|]. cbn. destruct (exec d o s) as [a s']. by rewrite IH. Qed.
Lemma core_sim ops : Forall clean_op ops -> NoDup (nu_ID <$> omap creates ops) ->
  Forall2 same_answer (run pooled ops newTenantStore).1 (run reference ops NewMemStore).1.
Proof.
  intros Hc Hnd. rewrite <- !run_core, <- run_port_deaf.
  - assert (omap port_creates (map Core ops) = omap creates ops) as Ho.
    { clear. induction ops as [|o ops IH]; [done|]. cbn. by rewrite IH. }
    apply run_sim; [apply sim_start|by apply List.Forall_map|by rewrite Ho|]. intros u _. apply lookup_empty.
  - apply List.Forall_map, List.Forall_forall. done.
Qed.

(** C37: What the application's own pooled store keeps of the port. On every sequence
    of the port's operations, with identifiers drawn fresh and no NUL in an
    email, it answers each as the reference store with no second factor does,
    errors included, up to the order of a list: that store acknowledges the four
    writes of the second factor and drops them. On a sequence without such a
    write that is the reference store itself. Reads of one tenant by another are
    misses in both, and an address is unique within a tenant and free across
    tenants. *)
Theorem pooled_refines_reference ops : Forall clean_port_op ops -> NoDup (nu_ID <$> omap port_creates ops) ->
  Forall2 same_answer (run_port pooled ops newTenantStore).1 (run_port deaf ops NewMemStore).1 /\
  (Forall (fun o => writes_factor o = false) ops ->
   Forall2 same_answer (run_port pooled ops newTenantStore).1 (run_port reference ops NewMemStore).1).
Proof.
  intros Hc Hnd. assert (Forall2 same_answer (run_port pooled ops newTenantStore).1 (run_port deaf ops NewMemStore).1) as H.
  { apply run_sim; [apply sim_start|done|done|]. intros u _. apply lookup_empty. }
  split; [done|]. intros Hw. by rewrite run_port_deaf in H.
Qed.

(** ** An example *)

Module ToyPool.
Definition anna (t : string) (id : string) : NewUser := MkNewUser id t "anna@example.com" "h" 5.
Definition google (t id uid : string) (at_ : time) : NewIdentity := MkIdentity id uid t "google" id at_ None.
Definition ops : list port_op := map Core [
  OCreateUser (anna "north" "u1") true; OCreateUser (anna "south" "u2") true; OCreateUser (anna "north" "u3") false;
  OUserByEmail (New "north") "anna@example.com"; OUserByEmail (New "east") "anna@example.com"; OCountUsers (New "south");
  OInsertIdentity (google "north" "g1" "u1" 9); OInsertIdentity (google "south" "g1" "u2" 9); OGrantMembership "u1" (New "south");
  OIsMember "u1" (New "south"); ORevokeMembership "u1" (New "south"); OMembershipsFor "u1"] ++ [Factor (OTOTPState "u1")].
Lemma ops_clean : Forall clean_port_op ops.
Proof. apply (bool_decide_unpack _). vm_compute. exact I. Qed.
Lemma ops_fresh : NoDup (nu_ID <$> omap port_creates ops).
Proof. apply (bool_decide_unpack _). vm_compute. exact I. Qed.
Lemma ops_read : Forall (fun o => writes_factor o = false) ops.
Proof. apply (bool_decide_unpack _). vm_compute. exact I. Qed.
(** An enrollment is acknowledged and lost. *)
Definition enroll : list port_op :=
  [Core (OCreateUser (anna "north" "u1") true); Factor (OEnableTOTP "u1" [] ["h"] 9); Factor (OTOTPState "u1")].
Example enrollment_lost :
  (run_port pooled enroll newTenantStore).1 = [ADone (Ret tt); ADone (Ret tt); AFactor (Ret TOTPState_zero)] /\
  last (run_port reference enroll NewMemStore).1 = Some (AFactor (Ret (MkTOTPState true [] ["h"]))).
Proof. by vm_compute. Qed.
(** The port promises the identities of a user oldest first; this store returns
    them as the map yields them. *)
Definition linked_out_of_order : list op :=
  [OInsertIdentity (google "north" "a" "u1" 9); OInsertIdentity (google "north" "b" "u1" 1); OIdentitiesByUserID "u1"].
Example identities_unsorted :
  last (run pooled linked_out_of_order newTenantStore).1 <> last (run reference linked_out_of_order NewMemStore).1.
Proof. vm_compute. discriminate. Qed.
End ToyPool.

(** The address is found in its tenant and missed in another, in both stores. *)
Lemma pooled_refines_reference_witness :
  Forall2 same_answer (run_port pooled ToyPool.ops newTenantStore).1 (run_port reference ToyPool.ops NewMemStore).1.
Proof. exact (proj2 (pooled_refines_reference ToyPool.ops ToyPool.ops_clean ToyPool.ops_fresh) ToyPool.ops_read). Defined.
