(* ===== verification/LeakSuite.v ===== *)
(** * The conformance suite of identity stores

    [src/identity/tenanttest/tenanttest.go], executable: the program an adapter's
    author runs against an [identity.Store] to see whether it leaks. A run
    collects the failures it reports. The theorems say what a verdict is worth:
    no store that answers as the reference store is failed, and a store of each
    kind of leak the suite names is. *)

From S2P Require Import Prelude Tenant Bytes World Crypto Identity PooledStore.

#[local] Open Scope string_scope.
#[local] Open Scope list_scope.
#[local] Open Scope Z_scope.

Definition tenantA : string := "tenanttest-a".
Definition tenantB : string := "tenanttest-b".
Definition fixedTime : time := time_Unix 1767225600.
Definition Minute : Z := 60 * 10 ^ 9.
Definition Hour : Z := 3600 * 10 ^ 9.

(** A test: the failures so far, and [None] once [Fatalf] has ended it. *)
Section Harness.
Context {S : Type}.

Definition T (A : Type) : Type := S -> option A * list string * S.
#[local] Instance T_ret : MRet T := fun _ a s => (Some a, [], s).
#[local] Instance T_bind : MBind T := fun _ _ f m s =>
  match m s with
  | (Some a, errs, s) => let '(r, more, s) := f a s in (r, errs ++ more, s)
  | (None, errs, s) => (None, errs, s)
  end.
Definition Errorf (what : string) : T unit := fun s => (Some tt, [what], s).
Definition Fatalf {A} (what : string) : T A := fun s => (None, [what], s).
Definition check (ok : bool) (what : string) : T unit := if ok then mret tt else Errorf what.
(** A call of the store: what it answered; its panic ends the test. *)
Definition call {A} (method : S -> go A * S) : T (go A) := fun s =>
  let '(r, s) := method s in
  match r with Panic why => (None, [why], s) | _ => (Some r, [], s) end.
(** [if err != nil { t.Fatalf }]. *)
Definition must {A} (method : S -> go A * S) (what : string) : T A :=
  r ← call method;
  match r with Ret a => mret a | _ => Fatalf what end.
(** [t.Run] of one case on a fresh store: the failures, under its name. *)
Definition Run (name : string) (f : T unit) (fresh : S) : list string :=
  map (fun what => name +:+ ": " +:+ what) (f fresh).1.2.

Context (st : Store S).

Definition requireNotFound {A} (what : string) (found : A -> bool) (r : go A) : T unit :=
  match r with
  | Ret a => if found a then Errorf (what +:+ ": returned another tenant's row") else Errorf (what +:+ ": returned a zero value with a nil error")
  | Fail e => check (errors_is e identity_ErrNotFound) (what +:+ ": want identity.ErrNotFound")
  | Panic why => Fatalf why
  end.
Definition seedUser (id tenantID email : string) : T unit :=
  r ← call (CreateUser st (MkNewUser id tenantID email "x" fixedTime) false);
  match r with
  | Ret _ => mret tt
  | Fail e => if errors_is e identity_ErrEmailTaken then Fatalf "email is unique globally, not per tenant" else Fatalf "seeding user"
  | Panic why => Fatalf why
  end.
(** The store's own row must come back: [if err != nil { Errorf } else if bad { Errorf }]. *)
Definition own {A} (r : go A) (good : A -> bool) (unseen crossed : string) : T unit :=
  match r with Ret a => check (good a) crossed | _ => Errorf unseen end.

Definition userByEmailInTenant : T unit :=
  seedUser "a-bob" tenantA "bob@example.com";;
  seedUser "b-bob" tenantB "bob@example.com";;
  seedUser "b-only" tenantB "onlyinb@example.com";;
  got ← call (UserByEmail st (New tenantA) "bob@example.com");
  own got (fun u => String.eqb (us_ID u) "a-bob") "tenant A cannot see its own user by email" "the shared email crossed tenants";;
  got ← call (UserByEmail st (New tenantB) "bob@example.com");
  own got (fun u => String.eqb (us_ID u) "b-bob") "tenant B cannot see its own user by email" "the shared email crossed tenants";;
  leaked ← call (UserByEmail st (New tenantA) "onlyinb@example.com");
  requireNotFound "UserByEmail(A, an email only tenant B has)" (fun u => negb (String.eqb (us_ID u) "")) leaked.

Definition seed_identity (ni : NewIdentity) : T unit :=
  r ← call (InsertIdentity st ni);
  match r with
  | Ret _ => mret tt
  | Fail e => if errors_is e identity_ErrIdentityTaken then Fatalf "(provider, subject) is unique globally, not per tenant" else Fatalf "seeding identity"
  | Panic why => Fatalf why
  end.
Definition identityByProviderSubjectInTenant : T unit :=
  seedUser "a-user" tenantA "a@example.com";;
  seedUser "b-user" tenantB "b@example.com";;
  seed_identity (MkIdentity "a-ident" "a-user" tenantA "google" "sub-shared" fixedTime None);;
  seed_identity (MkIdentity "b-ident" "b-user" tenantB "google" "sub-shared" fixedTime None);;
  seed_identity (MkIdentity "b-only-ident" "b-user" tenantB "google" "sub-only-b" fixedTime None);;
  got ← call (IdentityByProviderSubject st (New tenantA) "google" "sub-shared");
  own got (fun i => String.eqb (id_ID i) "a-ident") "tenant A cannot see its own identity" "the shared (provider, subject) crossed tenants";;
  leaked ← call (IdentityByProviderSubject st (New tenantA) "google" "sub-only-b");
  requireNotFound "IdentityByProviderSubject(A, a subject only tenant B has)" (fun i => negb (String.eqb (id_ID i) "")) leaked.

Definition want_count (t : string) (want : Z) : T unit :=
  r ← call (CountUsers st (New t));
  own r (Z.eqb want) "CountUsers" "the count includes another tenant's users".
Definition countUsersInTenant : T unit :=
  seedUser "a-1" tenantA "a1@example.com";;
  seedUser "a-2" tenantA "a2@example.com";;
  seedUser "b-1" tenantB "b1@example.com";;
  seedUser "b-2" tenantB "b2@example.com";;
  seedUser "b-3" tenantB "b3@example.com";;
  want_count tenantA 2;;
  want_count tenantB 3;;
  want_count "tenanttest-nonexistent" 0.

Definition userByIDKeepsTenant : T unit :=
  seedUser "b-user" tenantB "b@example.com";;
  got ← must (UserByID st "b-user") "UserByID";
  check (String.eqb (us_TenantID got) tenantB) "the store dropped the tenant of the user".

Definition session_of (id user t hash : string) : RefreshSession :=
  MkSession id user t hash fixedTime (fixedTime + Hour) time_zero time_zero "".
Definition refreshSessionByHash : T unit :=
  seedUser "b-user" tenantB "b@example.com";;
  must (CreateRefreshSession st (session_of "b-sess" "b-user" tenantB "hash-b")) "seeding tenant B session";;
  got ← must (RefreshSessionByHash st "hash-b") "RefreshSessionByHash";
  check (String.eqb (se_TenantID got) tenantB) "the store dropped the tenant of the session".

Definition revokeAllRefreshSessionsForTenant : T unit :=
  seedUser "a-user" tenantA "a@example.com";;
  seedUser "b-user" tenantB "b@example.com";;
  must (CreateRefreshSession st (session_of "a-sess" "a-user" tenantA "hash-a")) "seeding session";;
  must (CreateRefreshSession st (session_of "b-sess" "b-user" tenantB "hash-b")) "seeding session";;
  must (RevokeAllRefreshSessionsForTenant st (New tenantA) (fixedTime + Minute)) "RevokeAllRefreshSessionsForTenant(A)";;
  a ← must (RefreshSessionByHash st "hash-a") "re-reading tenant A's session";
  check (Revoked a) "tenant A's session survived";;
  b ← must (RefreshSessionByHash st "hash-b") "re-reading tenant B's session";
  check (negb (Revoked b)) "the revoke crossed the tenant boundary".

(** [runLeakSuite]: every case on a store of its own. *)
Definition runLeakSuite (fresh : S) : list string :=
  Run "UserByEmail" userByEmailInTenant fresh ++
  Run "UserByID" userByIDKeepsTenant fresh ++
  Run "IdentityByProviderSubject" identityByProviderSubjectInTenant fresh ++
  Run "CountUsers" countUsersInTenant fresh ++
  Run "RefreshSessionByHash" refreshSessionByHash fresh ++
  Run "RevokeAllRefreshSessionsForTenant" revokeAllRefreshSessionsForTenant fresh.
End Harness.

Example reference_passes : runLeakSuite Mem_store NewMemStore = [].
Proof. vm_compute. reflexivity. Qed.

(** ** No correct store is failed *)

(** A store that answers, from [s0] on, as the reference store does from empty. *)
Definition faithful {S} (d : Deployment S) (s0 : S) : Prop :=
  forall ops, Forall clean_op ops -> NoDup (nu_ID <$> omap creates ops) ->
  Forall2 same_answer (run d ops s0).1 (run reference ops NewMemStore).1.
Lemma pooled_faithful : faithful pooled newTenantStore.
Proof. intros ops. apply core_sim. Qed.

Lemma run_cons {S} (d : Deployment S) o ops s b l : Forall2 same_answer (run d (o :: ops) s).1 (b :: l) ->
  exists a s', exec d o s = (a, s') /\ same_answer a b /\ Forall2 same_answer (run d ops s').1 l.
Proof.
  cbn [run]. destruct (exec d o s) as [a s']. destruct (run d ops s') as [rest s2] eqn:Hr. cbn [fst].
  intros [H1 H2]%Forall2_cons. exists a, s'. split; [done|]. by rewrite Hr.
Qed.
Lemma told_inv {S A} (f : go A -> answer) (m : go A * S) a r s' : Inj (=) (=) f -> told f m = (a, s') -> a = f r -> m = (r, s').
Proof. intros Hf. unfold told. destruct m as [r0 s0]. intros [= <- <-] H. by apply Hf in H as ->. Qed.
#[local] Instance ADone_inj : Inj (=) (=) ADone. Proof. by intros ?? [=]. Qed.
#[local] Instance AUser_inj : Inj (=) (=) AUser. Proof. by intros ?? [=]. Qed.
#[local] Instance ASession_inj : Inj (=) (=) ASession. Proof. by intros ?? [=]. Qed.
#[local] Instance AIdentity_inj : Inj (=) (=) AIdentity. Proof. by intros ?? [=]. Qed.
#[local] Instance ACount_inj : Inj (=) (=) ACount. Proof. by intros ?? [=]. Qed.

Lemma same_eq a b : same_answer a b -> match b with AIdentities _ | AMembers _ => False | _ => True end -> a = b.
Proof. destruct a, b; cbn; try done; by destruct r. Qed.
Ltac calls H := repeat (let a := fresh "a" in let s := fresh "s" in let He := fresh "He" in let Ha := fresh "Ha" in
  apply run_cons in H as (a & s & He & Ha & H); cbn [exec] in He;
  eapply told_inv in He; [|apply _|exact (same_eq _ _ Ha I)]; clear a Ha).
Ltac compute_reference H := match type of H with
  Forall2 _ _ ?l => let l' := eval vm_compute in l in change l with l' in H end.

(** A step that reports nothing. *)
Definition quiet {S A} (m : T A) (s : S) (a : A) (s' : S) : Prop := m s = (Some a, [], s').
Section Quiet.
Context {S : Type} (st : Store S).
Implicit Types (s : S).
Lemma quiet_next {A B} (m : T A) (f : A -> T B) s a s1 b s2 : quiet m s a s1 -> quiet (f a) s1 b s2 -> quiet (T_bind _ _ f m) s b s2.
Proof. unfold quiet, T_bind. intros -> ->. done. Qed.
Lemma quiet_call {A} (method : S -> go A * S) s r s' : method s = (r, s') -> (forall why, r <> Panic why) -> quiet (call method) s r s'.
Proof. unfold quiet, call. intros -> Hr. destruct r; [done|done|by destruct (Hr why)]. Qed.
Lemma quiet_must {A} (method : S -> go A * S) what s a s' : method s = (Ret a, s') -> quiet (must method what) s a s'.
Proof. intros H. by eapply quiet_next; [apply quiet_call; [exact H|]|]. Qed.
Lemma quiet_seed id t e s s' : CreateUser st (MkNewUser id t e "x" fixedTime) false s = (Ret tt, s') -> quiet (seedUser st id t e) s tt s'.
Proof. intros H. by eapply quiet_next; [apply quiet_call; [exact H|]|]. Qed.
Lemma quiet_seed_identity ni s s' : InsertIdentity st ni s = (Ret tt, s') -> quiet (seed_identity st ni) s tt s'.
Proof. intros H. by eapply quiet_next; [apply quiet_call; [exact H|]|]. Qed.
Lemma quiet_check ok what s : ok = true -> quiet (check ok what) s tt s.
Proof. by intros ->. Qed.
Lemma quiet_own {A} (a : A) good e1 e2 s : good a = true -> quiet (own (Ret a) good e1 e2) s tt s.
Proof. unfold own. apply quiet_check. Qed.
Lemma quiet_miss {A} what (found : A -> bool) e s : errors_is e identity_ErrNotFound = true -> quiet (requireNotFound what found (Fail e)) s tt s.
Proof. apply quiet_check. Qed.
Lemma quiet_count t n s s' : CountUsers st (New t) s = (Ret n, s') -> quiet (want_count st t n) s tt s'.
Proof. intros H. eapply quiet_next; [by apply quiet_call; [exact H|]|]. apply quiet_own. apply Z.eqb_refl. Qed.
Lemma quiet_Run name f s s' : quiet f s tt s' -> Run name f s = [].
Proof. unfold quiet, Run. by intros ->. Qed.
End Quiet.

Ltac quiet_step := first
  [ eapply quiet_seed; eassumption | eapply quiet_seed_identity; eassumption | eapply quiet_count; eassumption
  | eapply quiet_must; eassumption | eapply quiet_call; [eassumption|discriminate]
  | apply quiet_check; vm_compute; reflexivity | apply quiet_own; vm_compute; reflexivity | apply quiet_miss; vm_compute; reflexivity ].
(** [ops] are the calls of the case. *)
Ltac suite_case Hf ops :=
  let H := fresh "H" in pose proof (Hf ops) as H;
  specialize (H ltac:(apply (bool_decide_unpack _); vm_compute; exact I) ltac:(apply (bool_decide_unpack _); vm_compute; exact I));
  compute_reference H; calls H; clear H; eapply quiet_Run; repeat (eapply quiet_next; [quiet_step|]); quiet_step.

Section Accepts.
Context {S : Type} (d : Deployment S) (s0 : S) (Hf : faithful d s0).

Definition seed (id t e : string) : op := OCreateUser (MkNewUser id t e "x" fixedTime) false.
Lemma accepts_UserByEmail : Run "UserByEmail" (userByEmailInTenant (dp_store d)) s0 = [].
Proof.
  suite_case Hf [seed "a-bob" tenantA "bob@example.com"; seed "b-bob" tenantB "bob@example.com"; seed "b-only" tenantB "onlyinb@example.com";
    OUserByEmail (New tenantA) "bob@example.com"; OUserByEmail (New tenantB) "bob@example.com"; OUserByEmail (New tenantA) "onlyinb@example.com"].
Qed.
Lemma accepts_UserByID : Run "UserByID" (userByIDKeepsTenant (dp_store d)) s0 = [].
Proof. suite_case Hf [seed "b-user" tenantB "b@example.com"; OUserByID "b-user"]. Qed.
Lemma accepts_Identity : Run "IdentityByProviderSubject" (identityByProviderSubjectInTenant (dp_store d)) s0 = [].
Proof.
  suite_case Hf [seed "a-user" tenantA "a@example.com"; seed "b-user" tenantB "b@example.com";
    OInsertIdentity (MkIdentity "a-ident" "a-user" tenantA "google" "sub-shared" fixedTime None);
    OInsertIdentity (MkIdentity "b-ident" "b-user" tenantB "google" "sub-shared" fixedTime None);
    OInsertIdentity (MkIdentity "b-only-ident" "b-user" tenantB "google" "sub-only-b" fixedTime None);
    OIdentityByProviderSubject (New tenantA) "google" "sub-shared"; OIdentityByProviderSubject (New tenantA) "google" "sub-only-b"].
Qed.
Lemma accepts_CountUsers : Run "CountUsers" (countUsersInTenant (dp_store d)) s0 = [].
Proof.
  suite_case Hf [seed "a-1" tenantA "a1@example.com"; seed "a-2" tenantA "a2@example.com"; seed "b-1" tenantB "b1@example.com";
    seed "b-2" tenantB "b2@example.com"; seed "b-3" tenantB "b3@example.com";
    OCountUsers (New tenantA); OCountUsers (New tenantB); OCountUsers (New "tenanttest-nonexistent")].
Qed.
Lemma accepts_Session : Run "RefreshSessionByHash" (refreshSessionByHash (dp_store d)) s0 = [].
Proof.
  suite_case Hf [seed "b-user" tenantB "b@example.com"; OCreateRefreshSession (session_of "b-sess" "b-user" tenantB "hash-b");
    ORefreshSessionByHash "hash-b"].
Qed.
Lemma accepts_Revoke : Run "RevokeAllRefreshSessionsForTenant" (revokeAllRefreshSessionsForTenant (dp_store d)) s0 = [].
Proof.
  suite_case Hf [seed "a-user" tenantA "a@example.com"; seed "b-user" tenantB "b@example.com";
    OCreateRefreshSession (session_of "a-sess" "a-user" tenantA "hash-a"); OCreateRefreshSession (session_of "b-sess" "b-user" tenantB "hash-b");
    ORevokeAllForTenant (New tenantA) (fixedTime + Minute); ORefreshSessionByHash "hash-a"; ORefreshSessionByHash "hash-b"].
Qed.
End Accepts.

(** ** Every leak is found *)

(** The test file's fixture: the reference store with one promise broken. *)
Module Leaky.
Definition row_of (ok : User -> bool) (m : MemStore) : option User := List.find ok (map_to_list (usersByID m)).*2.
Definition drop_tenant (u : User) : User :=
  MkUser (us_ID u) "" (us_Email u) (us_PasswordHash u) (us_Active u) (us_TOTPEnrolled u) (us_CreatedAt u).
Definition drop_scope (x : RefreshSession) : RefreshSession :=
  MkSession (se_ID x) (se_UserID x) "" (se_TokenHash x) (se_IssuedAt x) (se_ExpiresAt x) (se_RevokedAt x) (se_AuthTime x) (se_ACR x).
Definition mapped {A B} (f : A -> B) (r : go A * MemStore) : go B * MemStore :=
  (match r.1 with Ret a => Ret (f a) | Fail e => Fail e | Panic why => Panic why end, r.2).

Inductive leakMode := leakUserByEmail | leakIdentity | leakCount | leakSessionTenant | leakUserTenant | leakRevokeAll
  | leakPermissionError | leakZeroValueNilError | leakGlobalEmailUnique.
Definition user_by_email (mode : leakMode) (t : ID) (e : string) (m : MemStore) : go User * MemStore :=
  match mode with
  | leakUserByEmail => (match row_of (fun u => String.eqb (us_Email u) e) m with Some u => Ret u | None => Fail (not_found "email") end, m)
  | leakPermissionError => (match (Mem_UserByEmail t e m).1 with Ret u => Ret u | _ => Fail (AppError "permission denied") end, m)
  | leakZeroValueNilError => (match (Mem_UserByEmail t e m).1 with Ret u => Ret u | _ => Ret User_zero end, m)
  | _ => Mem_UserByEmail t e m
  end.
Definition create_user (mode : leakMode) (u : NewUser) (first : bool) (m : MemStore) : go unit * MemStore :=
  match mode, row_of (fun v => String.eqb (us_Email v) (nu_Email u)) m with
  | leakGlobalEmailUnique, Some _ => (Fail (Errorf1 (nu_Email u) (Sentinel identity_ErrEmailTaken)), m)
  | _, _ => Mem_CreateUser u first m
  end.
Definition store (mode : leakMode) : Store MemStore := {|
  CreateUser := create_user mode;
  UserByID id m := match mode with leakUserTenant => mapped drop_tenant (Mem_UserByID id m) | _ => Mem_UserByID id m end;
  UserByEmail := user_by_email mode;
  CountUsers t m := match mode with leakCount => (Ret (Z.of_nat (size (usersByID m))), m) | _ => Mem_CountUsers t m end;
  CreateRefreshSession := Mem_CreateRefreshSession;
  RefreshSessionByHash h m :=
    match mode with leakSessionTenant => mapped drop_scope (Mem_RefreshSessionByHash h m) | _ => Mem_RefreshSessionByHash h m end;
  RevokeRefreshSession := Mem_RevokeRefreshSession;
  RevokeAllRefreshSessionsForUser := Mem_RevokeAllRefreshSessionsForUser;
  RevokeAllRefreshSessionsForTenant t at_ m :=
    match mode with leakRevokeAll => (Ret tt, revoke_all (fun _ => true) at_ m) | _ => Mem_RevokeAllRefreshSessionsForTenant t at_ m end;
  GetTOTPState := Mem_TOTPState; SetTOTPPending := Mem_SetTOTPPending; EnableTOTP := Mem_EnableTOTP;
  SetRecoveryCodeHashes := Mem_SetRecoveryCodeHashes; ClearTOTP := Mem_ClearTOTP;
  IdentityByProviderSubject t p x m :=
    match mode with
    | leakIdentity => (match List.find (fun i => String.eqb (id_Provider i) p && String.eqb (id_Subject i) x) (identity_rows m) with
                       | Some i => Ret i | None => Fail (not_found "identity") end, m)
    | _ => Mem_IdentityByProviderSubject t p x m
    end;
  IdentityByID := Mem_IdentityByID; IdentitiesByUserID := Mem_IdentitiesByUserID; InsertIdentity := Mem_InsertIdentity;
  TouchIdentityLastLogin := Mem_TouchIdentityLastLogin; DeleteIdentity := Mem_DeleteIdentity;
  CountIdentitiesByUserID := Mem_CountIdentitiesByUserID; ProvisionUser := Mem_ProvisionUserWithIdentity
|}.

(** A store that reads the single tenant as "no filter", [WHERE ? = '' OR
    tenant_id = ?]. *)
Definition any_if_single (t : ID) (e : string) (m : MemStore) : go User * MemStore :=
  if String.eqb (ID_String t) "" then user_by_email leakUserByEmail t e m else Mem_UserByEmail t e m.
Definition wildcard : Store MemStore := {|
  CreateUser := Mem_CreateUser; UserByID := Mem_UserByID; UserByEmail := any_if_single; CountUsers := Mem_CountUsers;
  CreateRefreshSession := Mem_CreateRefreshSession; RefreshSessionByHash := Mem_RefreshSessionByHash;
  RevokeRefreshSession := Mem_RevokeRefreshSession; RevokeAllRefreshSessionsForUser := Mem_RevokeAllRefreshSessionsForUser;
  RevokeAllRefreshSessionsForTenant := Mem_RevokeAllRefreshSessionsForTenant;
  GetTOTPState := Mem_TOTPState; SetTOTPPending := Mem_SetTOTPPending; EnableTOTP := Mem_EnableTOTP;
  SetRecoveryCodeHashes := Mem_SetRecoveryCodeHashes; ClearTOTP := Mem_ClearTOTP;
  IdentityByProviderSubject := Mem_IdentityByProviderSubject;
  IdentityByID := Mem_IdentityByID; IdentitiesByUserID := Mem_IdentitiesByUserID; InsertIdentity := Mem_InsertIdentity;
  TouchIdentityLastLogin := Mem_TouchIdentityLastLogin; DeleteIdentity := Mem_DeleteIdentity;
  CountIdentitiesByUserID := Mem_CountIdentitiesByUserID; ProvisionUser := Mem_ProvisionUserWithIdentity
|}.
(** The suite has no case for the single tenant, so this leak passes it. *)
Example single_wildcard_passes : runLeakSuite wildcard NewMemStore = [].
Proof. vm_compute. reflexivity. Qed.
Example single_wildcard_leaks :
  (UserByEmail wildcard Single "bob@example.com" (CreateUser wildcard (MkNewUser "b" tenantB "bob@example.com" "x" 0) false NewMemStore).2).1 =
  Ret (MkUser "b" tenantB "bob@example.com" "x" true false 0).
Proof. vm_compute. reflexivity. Qed.
End Leaky.

(** C38: The suite is a fair judge. It reports nothing about a store that answers
    every clean sequence of calls as the reference store does, whatever its
    schema; and of the nine ways the fixture breaks isolation (a row, an
    identity or a count of another tenant, a tenant dropped from a user or a
    session, a revocation across tenants, a permission error or a zero value in
    place of a miss, an address unique across tenants) it reports each. *)
Theorem leak_suite_fair {S} (d : Deployment S) s0 :
  (faithful d s0 -> runLeakSuite (dp_store d) s0 = []) /\
  forall mode, runLeakSuite (Leaky.store mode) NewMemStore <> [].
Proof.
  split.
  - intros Hf. unfold runLeakSuite. by rewrite (accepts_UserByEmail d s0 Hf), (accepts_UserByID d s0 Hf), (accepts_Identity d s0 Hf),
      (accepts_CountUsers d s0 Hf), (accepts_Session d s0 Hf), (accepts_Revoke d s0 Hf).
  - intros mode. destruct mode; vm_compute; discriminate.
Qed.

(** The application's pooled store passes. *)
Lemma leak_suite_fair_witness : runLeakSuite Pool_store newTenantStore = [].
Proof. exact (proj1 (leak_suite_fair pooled newTenantStore) pooled_faithful). Defined.
