(* ===== verification/AuthzLeak.v ===== *)
(** * The conformance suites of authorization stores

    [src/authz/tenanttest/tenanttest.go], executable: the programs an adapter's
    author runs against a [BindingStore] or a [PermissionStore]. The ports are
    read-only, so a harness carries the way to write: [view] is what the engine
    reads in a state. *)

From S2P Require Import Prelude Tenant World Crypto Authz AuthzStore AuthzPermission HierStore LeakSuite.

#[local] Open Scope string_scope.
#[local] Open Scope list_scope.

#[local] Existing Instances T_ret T_bind.

Definition tenantA : ID := New "tenanttest-a".
Definition tenantB : ID := New "tenanttest-b".
Definition tenantP : ID := New "tenanttest-p".
Definition userA : Subject := MkSubject tenantA "user" "same-id".
Definition userB : Subject := MkSubject tenantB "user" "same-id".
Definition guest : Subject := MkSubject tenantP "user" "guest-id".
Definition userS : Subject := MkSubject Single "user" "same-id".
Definition res : Resource := MkResource "thing" "t-1".
Definition global : Resource := MkResource "thing" "".
Definition resHome : Resource := MkResource "thing" "t-home".
Definition roleA : Role := "role-of-a".
Definition roleB : Role := "role-of-b".
Definition roleS : Role := "role-of-single".
Definition keyA : string := "thing.a".
Definition keyB : string := "thing.b".
Definition keyS : string := "thing.single".
Definition keyG : string := "thing.global".

(** *** sameSet *)

Section SameSet.
Context {A : Type} `{EqDecision A}.

(** [rest] without the first occurrence of [w], where there is one. *)
Fixpoint take_out (w : A) (rest : list A) : option (list A) :=
  match rest with
  | [] => None
  | g :: rest => if decide (g = w) then Some rest else cons g <$> take_out w rest
  end.
Fixpoint all_found (want rest : list A) : bool :=
  match want with
  | [] => true
  | w :: want => match take_out w rest with Some rest => all_found want rest | None => false end
  end.
Definition sameSet (got want : list A) : bool :=
  if negb (length got =? length want)%nat then false else all_found want got.

Lemma take_out_spec w rest rest' : take_out w rest = Some rest' -> rest ≡ₚ w :: rest'.
Proof.
  revert rest'. induction rest as [|g rest IH]; intros rest'; [done|]. cbn [take_out].
  destruct (decide (g = w)) as [->|]; [by intros [= <-]|]. destruct (take_out w rest) as [l|]; [|done].
  intros [= <-]. rewrite (IH l eq_refl). apply Permutation_swap.
Qed.
Lemma take_out_in w rest : w ∈ rest -> is_Some (take_out w rest).
Proof.
  induction rest as [|g rest IH]; [by intros ?%not_elem_of_nil|]. cbn [take_out].
  destruct (decide (g = w)) as [|Hne]; [eauto|]. intros [->|Hin]%elem_of_cons; [done|].
  destruct (IH Hin) as [l ->]. eauto.
Qed.
(** It is equality of multisets: a duplicate does not stand in for a missing
    element. *)
Lemma sameSet_spec got want : sameSet got want = true <-> got ≡ₚ want.
Proof.
  unfold sameSet. assert (forall want rest, length rest = length want -> all_found want rest = true <-> rest ≡ₚ want) as H.
  { clear got want. induction want as [|w want IH]; intros rest Hlen; cbn [all_found].
    - destruct rest; [done|discriminate Hlen].
    - destruct (take_out w rest) as [rest'|] eqn:Ht.
      + apply take_out_spec in Ht. rewrite IH.
        * rewrite Ht. split; [by intros ->|intros Hp; by apply Permutation_cons_inv in Hp].
        * apply Permutation_length in Ht. rewrite Hlen in Ht. by injection Ht.
      + split; [done|]. intros Hp. destruct (take_out_in w rest) as [l Hl]; [|congruence]. rewrite Hp. by left. }
  destruct (Nat.eqb_spec (length got) (length want)) as [He|Hne]; cbn; [by apply H|].
  split; [done|]. intros Hp. by apply Permutation_length in Hp.
Qed.
End SameSet.

(** ** BindingStore *)

Record BindingHarness (S : Type) := MkBindingHarness {
  bh_view : S -> BindingStore;
  bh_Grant : Binding -> S -> go unit * S
}.
Arguments bh_view {_} _ _.
Arguments bh_Grant {_} _ _ _.

Definition seeds : list Binding := [
  MkBinding tenantA userA res roleA; MkBinding tenantA userA global roleA; MkBinding tenantA guest res roleA;
  MkBinding tenantB userB res roleB; MkBinding tenantB userB global roleB;
  MkBinding tenantP guest res roleB; MkBinding tenantP guest resHome roleA; MkBinding Single userS res roleS].

Section Bindings.
Context {S : Type} (h : BindingHarness S).
Local Abbreviation TS := (T (S := S)).

Fixpoint seedBindings (bs : list Binding) : TS unit :=
  match bs with [] => mret tt | b :: bs => must (bh_Grant h b) "seed";; seedBindings bs end.
(** A read of the store under test. *)
Definition read {A} (f : BindingStore -> go A) : TS (go A) := call (fun s => (f (bh_view h s), s)).
Definition wantBindings (what : string) (scope : ID) (got : go (list Binding)) (want : list Binding) : TS unit :=
  match got with
  | Ret got =>
      check (forallb (fun b => bool_decide (b_Tenant b = scope)) got) (what +:+ " returned a binding of another scope");;
      check (sameSet got want) (what +:+ " returned other bindings")
  | _ => Fatalf what
  end.
Definition want_for (what : string) (scope : ID) (sub : Subject) (r : Resource) (want : list Binding) : TS unit :=
  got ← read (fun st => Authz.BindingsFor st scope sub r); wantBindings what scope got want.
Definition want_subject (what : string) (scope : ID) (sub : Subject) (want : list Binding) : TS unit :=
  got ← read (fun st => Authz.BindingsForSubject st scope sub (res_Type res)); wantBindings what scope got want.
Definition want_resource (what : string) (scope : ID) (r : Resource) (want : list Binding) : TS unit :=
  got ← read (fun st => Authz.BindingsOnResource st scope r); wantBindings what scope got want.

Definition bindingsFor : TS unit :=
  want_for "BindingsFor(A, userA)" tenantA userA res [MkBinding tenantA userA res roleA];;
  want_for "BindingsFor(B, userA)" tenantB userA res [];;
  want_for "BindingsFor(A, userB)" tenantA userB res [];;
  want_for "BindingsFor(A, guest)" tenantA guest res [MkBinding tenantA guest res roleA];;
  want_for "BindingsFor(B, guest)" tenantB guest res [];;
  want_for "BindingsFor(B, userA, global)" tenantB userA global [].
Definition bindingsForSubject : TS unit :=
  want_subject "BindingsForSubject(A, userA)" tenantA userA [MkBinding tenantA userA res roleA];;
  want_subject "BindingsForSubject(B, userA)" tenantB userA [];;
  want_subject "BindingsForSubject(A, userB)" tenantA userB [];;
  want_subject "BindingsForSubject(A, guest)" tenantA guest [MkBinding tenantA guest res roleA];;
  want_subject "BindingsForSubject(P, guest)" tenantP guest [MkBinding tenantP guest res roleB; MkBinding tenantP guest resHome roleA];;
  want_subject "BindingsForSubject(B, guest)" tenantB guest [].
Definition bindingsOnResource : TS unit :=
  want_resource "BindingsOnResource(A)" tenantA res [MkBinding tenantA userA res roleA; MkBinding tenantA guest res roleA];;
  want_resource "BindingsOnResource(B)" tenantB res [MkBinding tenantB userB res roleB];;
  want_resource "BindingsOnResource(B, global)" tenantB global [MkBinding tenantB userB global roleB].
Definition bindingsSingleScope : TS unit :=
  let single := [MkBinding Single userS res roleS] in
  want_for "BindingsFor(single, userS)" Single userS res single;;
  want_subject "BindingsForSubject(single, userS)" Single userS single;;
  want_resource "BindingsOnResource(single)" Single res single;;
  want_for "BindingsFor(single, userA)" Single userA res [];;
  want_for "BindingsFor(A, userS)" tenantA userS res [].

Definition runBindingSuite (fresh : S) : list string :=
  Run "BindingsFor" (seedBindings seeds;; bindingsFor) fresh ++
  Run "BindingsForSubject" (seedBindings seeds;; bindingsForSubject) fresh ++
  Run "BindingsOnResource" (seedBindings seeds;; bindingsOnResource) fresh ++
  Run "SingleScope" (seedBindings seeds;; bindingsSingleScope) fresh.
End Bindings.

Definition reference : BindingHarness BindingTable := MkBindingHarness _ AuthzStore.Mem_store AuthzStore.Grant.
Example reference_passes_bindings : runBindingSuite reference [] = [].
Proof. vm_compute. reflexivity. Qed.

(** *** No isolated store is failed *)

Definition for_scope (t : ID) (sub : Subject) (r : Resource) (b : Binding) : bool :=
  bool_decide (b_Tenant b = t) && bool_decide (b_Subject b = sub) && bool_decide (b_Resource b = r).
Definition for_subject (t : ID) (sub : Subject) (ty : string) (b : Binding) : bool :=
  bool_decide (b_Tenant b = t) && bool_decide (b_Subject b = sub) && String.eqb (res_Type (b_Resource b)) ty
  && negb (String.eqb (res_ID (b_Resource b)) "").
Definition on_resource (t : ID) (r : Resource) (b : Binding) : bool := bool_decide (b_Tenant b = t) && bool_decide (b_Resource b = r).

(** The isolation contract, over whatever keeps the rows: a grant adds a row, and
    each read answers exactly the rows of its question, in any order. *)
Class Isolated {S} (h : BindingHarness S) (ok : S -> Prop) (rows : S -> list Binding) := {
  iso_grant s b : ok s -> Authz.gate (b_Tenant b) (b_Subject b) = Ret tt -> b ∉ rows s ->
    exists s', bh_Grant h b s = (Ret tt, s') /\ ok s' /\ rows s' ≡ₚ rows s ++ [b];
  iso_for s t sub r : ok s -> Authz.gate t sub = Ret tt ->
    exists l, Authz.BindingsFor (bh_view h s) t sub r = Ret l /\ l ≡ₚ List.filter (for_scope t sub r) (rows s);
  iso_subject s t sub ty : ok s -> Authz.gate t sub = Ret tt ->
    exists l, Authz.BindingsForSubject (bh_view h s) t sub ty = Ret l /\ l ≡ₚ List.filter (for_subject t sub ty) (rows s);
  iso_resource s t r : ok s -> Authz.scopeGate t = Ret tt ->
    exists l, Authz.BindingsOnResource (bh_view h s) t r = Ret l /\ l ≡ₚ List.filter (on_resource t r) (rows s)
}.

Lemma filter_perm {A} (f : A -> bool) l k : l ≡ₚ k -> List.filter f l ≡ₚ List.filter f k.
Proof.
  induction 1 as [|x l k _ IH|x y l|l k j _ IH1 _ IH2]; cbn; [done|by destruct (f x); rewrite IH|destruct (f x), (f y); try done; apply Permutation_swap|by etrans].
Qed.

Section Isolated.
Context {S : Type} (h : BindingHarness S) (ok : S -> Prop) (rows : S -> list Binding) {HI : Isolated h ok rows}.
Implicit Types (s : S).

Lemma quiet_seeds bs s : ok s -> NoDup (rows s ++ bs) -> Forall (fun b => Authz.gate (b_Tenant b) (b_Subject b) = Ret tt) bs ->
  exists s', quiet (seedBindings h bs) s tt s' /\ ok s' /\ rows s' ≡ₚ rows s ++ bs.
Proof.
  revert s. induction bs as [|b bs IH]; intros s Hok Hnd Hg; [exists s; rewrite app_nil_r; done|].
  apply Forall_cons in Hg as [Hb Hg]. destruct (iso_grant s b Hok Hb) as (s1 & Hs1 & Hok1 & Hr1).
  { intros Hin. apply NoDup_app in Hnd as (_ & Hd & _). apply (Hd b Hin). by left. }
  destruct (IH s1 Hok1) as (s2 & Hq & Hok2 & Hr2); [by rewrite Hr1, <- app_assoc|done|].
  exists s2. split; [|split; [done|by rewrite Hr2, Hr1, <- app_assoc]].
  eapply quiet_next; [by apply quiet_must|done].
Qed.
Lemma quiet_want what scope l want s : l ≡ₚ want -> Forall (fun b => b_Tenant b = scope) want ->
  quiet (wantBindings what scope (Ret l) want) s tt s.
Proof.
  intros Hp Hw. eapply quiet_next; apply quiet_check; [|by apply sameSet_spec]. apply forallb_forall.
  intros b Hb. apply bool_decide_eq_true. rewrite <- Hp in Hw. rewrite Forall_forall in Hw. apply Hw. by apply list_elem_of_In.
Qed.
(** A read of the seeded store, where the filtered seeds are what is wanted. *)
Lemma quiet_viewed {A} (f : BindingStore -> go A) (a : A) s : f (bh_view h s) = Ret a -> quiet (read h f) s (Ret a) s.
Proof. intros H. unfold read. apply quiet_call; [by rewrite H|done]. Qed.
Lemma quiet_for what t sub r want s : ok s -> rows s ≡ₚ seeds -> Authz.gate t sub = Ret tt ->
  List.filter (for_scope t sub r) seeds = want -> quiet (want_for h what t sub r want) s tt s.
Proof.
  intros Hok Hr Hg <-. destruct (iso_for s t sub r Hok Hg) as (l & Hl & Hp). eapply quiet_next; [by apply quiet_viewed|].
  apply quiet_want; [by rewrite Hp, (filter_perm _ _ _ Hr)|]. apply Forall_forall. intros b [_ Hb]%elem_of_filter_bool.
  unfold for_scope in Hb. rewrite !andb_true_iff in Hb. destruct Hb as [[Hb _] _]. by apply bool_decide_eq_true in Hb.
Qed.
Lemma quiet_subject what t sub want s : ok s -> rows s ≡ₚ seeds -> Authz.gate t sub = Ret tt ->
  List.filter (for_subject t sub "thing") seeds = want -> quiet (want_subject h what t sub want) s tt s.
Proof.
  intros Hok Hr Hg <-. destruct (iso_subject s t sub "thing" Hok Hg) as (l & Hl & Hp). eapply quiet_next; [by apply quiet_viewed|].
  apply quiet_want; [by rewrite Hp, (filter_perm _ _ _ Hr)|]. apply Forall_forall. intros b [_ Hb]%elem_of_filter_bool.
  unfold for_subject in Hb. rewrite !andb_true_iff in Hb. destruct Hb as [[[Hb _] _] _]. by apply bool_decide_eq_true in Hb.
Qed.
Lemma quiet_resource what t r want s : ok s -> rows s ≡ₚ seeds -> Authz.scopeGate t = Ret tt ->
  List.filter (on_resource t r) seeds = want -> quiet (want_resource h what t r want) s tt s.
Proof.
  intros Hok Hr Hg <-. destruct (iso_resource s t r Hok Hg) as (l & Hl & Hp). eapply quiet_next; [by apply quiet_viewed|].
  apply quiet_want; [by rewrite Hp, (filter_perm _ _ _ Hr)|]. apply Forall_forall. intros b [_ Hb]%elem_of_filter_bool.
  unfold on_resource in Hb. rewrite !andb_true_iff in Hb. destruct Hb as [Hb _]. by apply bool_decide_eq_true in Hb.
Qed.

Lemma seeds_gated : Forall (fun b => Authz.gate (b_Tenant b) (b_Subject b) = Ret tt) seeds.
Proof. repeat constructor. Qed.
Lemma seeds_distinct : NoDup seeds.
Proof. apply (bool_decide_unpack _). vm_compute. exact I. Qed.

Ltac quiet_questions := repeat (first
  [ eapply quiet_next; [first [apply quiet_for | apply quiet_subject | apply quiet_resource]; [assumption|assumption|reflexivity|vm_compute; reflexivity]|]
  | first [apply quiet_for | apply quiet_subject | apply quiet_resource]; [assumption|assumption|reflexivity|vm_compute; reflexivity] ]).
Lemma isolated_passes s0 : ok s0 -> rows s0 ≡ₚ [] -> runBindingSuite h s0 = [].
Proof.
  intros Hok Hempty. assert (rows s0 = []) as He by (by apply Permutation_nil).
  destruct (quiet_seeds seeds s0 Hok) as (s & Hq & Hoks & Hrows); [rewrite He; apply seeds_distinct|apply seeds_gated|].
  rewrite He in Hrows. cbn [app] in Hrows.
  unfold runBindingSuite. erewrite !quiet_Run; [done|..]; (eapply quiet_next; [exact Hq|]);
    [unfold bindingsSingleScope|unfold bindingsOnResource|unfold bindingsForSubject|unfold bindingsFor]; quiet_questions.
Qed.
End Isolated.

(** *** The reference table and the hierarchy example's store *)

#[export] Instance reference_isolated : Isolated reference (fun _ => True) (fun m => m).
Proof.
  split; cbn.
  - intros m b _ Hg Hb. unfold AuthzStore.Grant. rewrite Hg. destruct (existsb _ m) eqn:He; [|by eexists].
    by apply existsb_elem in He.
  - intros m t sub r _ Hg. unfold Mem_BindingsFor. rewrite Hg. cbn. by eexists.
  - intros m t sub ty _ Hg. unfold Mem_BindingsForSubject. rewrite Hg. cbn. by eexists.
  - intros m t r _ Hg. unfold Mem_BindingsOnResource. rewrite Hg. cbn. by eexists.
Qed.

(** [func(b) error { return s.Grant(ctx, b) }]: a direct grant. *)
Definition hierarchy : BindingHarness HierStore := MkBindingHarness _ hier_store (fun b => put b OriginDirect).
Definition hier_rows (s : HierStore) : list Binding := map snd (map_to_list (hs_rows s)).

Lemma gates_agree t sub : Authz.gate t sub = Ret tt -> HierStore.gate t sub = Ret tt.
Proof. rewrite hier_gate_Ret. unfold Authz.gate, Authz.scopeGate. by destruct (Valid t), (Valid (sub_Tenant sub)). Qed.
Lemma scopeGates_agree t : Authz.scopeGate t = Ret tt -> HierStore.scopeGate t = Ret tt.
Proof. unfold Authz.scopeGate, HierStore.scopeGate. by destruct (Valid t). Qed.
Lemma scan_filter s keep f : hier_ok s -> (forall b, keep (keyOf b) = f b) -> scan s keep = List.filter f (hier_rows s).
Proof.
  intros Hok Hf. unfold scan, hier_rows. assert (Forall (fun kb => keyOf kb.2 = kb.1) (map_to_list (hs_rows s))) as Hkeys.
  { apply Forall_forall. intros [k b] Hb%elem_of_map_to_list. by destruct (ho_key s Hok k b Hb). }
  induction Hkeys as [|[k b] l Hk _ IH]; [done|]. cbn in *. subst k. rewrite <- Hf. destruct (keep (keyOf b)); cbn; by rewrite IH.
Qed.
#[export] Instance hierarchy_isolated : Isolated hierarchy hier_ok hier_rows.
Proof.
  split; cbn.
  - intros s b Hok Hg Hb. destruct (put b OriginDirect s) as [r s'] eqn:Hp. destruct (put_run b OriginDirect s r s' Hok Hp) as [Hok' _].
    unfold put in Hp. rewrite (gates_agree _ _ Hg) in Hp. injection Hp as <- <-. eexists. split; [done|]. split; [done|].
    unfold hier_rows. cbn [hs_rows]. assert (hs_rows s !! keyOf b = None) as Hn.
    { destruct (hs_rows s !! keyOf b) as [b'|] eqn:He; [|done]. exfalso. apply Hb. destruct (ho_key s Hok _ _ He) as [Hk _].
      apply (inj keyOf) in Hk as ->. apply list_elem_of_fmap. exists (keyOf b, b). split; [done|]. by apply elem_of_map_to_list. }
    rewrite map_to_list_insert by done. cbn. apply Permutation_cons_append.
  - intros s t sub r Hok Hg. unfold HierStore.BindingsFor. rewrite (gates_agree _ _ Hg). cbn. eexists. split; [done|].
    unfold scanFor. by rewrite (scan_filter s _ (for_scope t sub r) Hok).
  - intros s t sub ty Hok Hg. unfold HierStore.BindingsForSubject. rewrite (gates_agree _ _ Hg). cbn. eexists. split; [done|].
    unfold scanForSubject. by rewrite (scan_filter s _ (for_subject t sub ty) Hok).
  - intros s t r Hok Hg. unfold HierStore.BindingsOnResource. rewrite (scopeGates_agree _ Hg). cbn. eexists. split; [done|].
    unfold scanOnResource. by rewrite (scan_filter s _ (on_resource t r) Hok).
Qed.

(** *** Leaky stores (the package's own test fixtures) *)

Inductive leakMode := ignoresScope | ignoresSubjectTenant | stampsTheAskedScope | answersFromTheHomeTenant | emptyMeansAll.
Definition scopeOK (mode : leakMode) (stored scope : ID) : bool :=
  match mode with
  | emptyMeansAll => String.eqb (ID_String scope) "" || bool_decide (stored = scope)
  | ignoresSubjectTenant | answersFromTheHomeTenant => bool_decide (stored = scope)
  | _ => true
  end.
Definition eff (mode : leakMode) (scope : ID) (sub : Subject) : ID :=
  match mode with answersFromTheHomeTenant => sub_Tenant sub | _ => scope end.
Definition subjectOK (mode : leakMode) (stored sub : Subject) : bool :=
  match mode with
  | ignoresSubjectTenant => String.eqb (sub_Type stored) (sub_Type sub) && String.eqb (sub_ID stored) (sub_ID sub)
  | _ => bool_decide (stored = sub)
  end.
Definition stamp (mode : leakMode) (scope : ID) (b : Binding) : Binding :=
  match mode with
  | stampsTheAskedScope | answersFromTheHomeTenant => MkBinding scope (b_Subject b) (b_Resource b) (b_Role b)
  | _ => b
  end.
Definition leakyBindings (mode : leakMode) (all : list Binding) : BindingStore :=
  let sees scope sub b := scopeOK mode (b_Tenant b) (eff mode scope sub) && subjectOK mode (b_Subject b) sub in {|
  Authz.BindingsFor scope sub r := Ret (map (stamp mode scope)
    (List.filter (fun b => sees scope sub b && bool_decide (b_Resource b = r)) all));
  Authz.BindingsForSubject scope sub ty := Ret (map (stamp mode scope)
    (List.filter (fun b => sees scope sub b && String.eqb (res_Type (b_Resource b)) ty && negb (String.eqb (res_ID (b_Resource b)) "")) all));
  Authz.BindingsOnResource scope r := Ret (map (stamp mode scope)
    (List.filter (fun b => scopeOK mode (b_Tenant b) scope && bool_decide (b_Resource b = r)) all))
|}.
Definition leaky (mode : leakMode) : BindingHarness (list Binding) :=
  MkBindingHarness _ (leakyBindings mode) (fun b all => (Ret tt, all ++ [b])).

(** The suite of binding stores is a fair judge. It reports nothing about a store
    that keeps the isolation contract, whatever its rows live in and in whatever
    order it answers; and it reports each of the five leaks of the fixtures,
    the stamped one that the engine's own filter cannot see among them. *)
Theorem binding_suite_fair {S} (h : BindingHarness S) ok rows `{!Isolated h ok rows} s0 :
  (ok s0 -> rows s0 ≡ₚ [] -> runBindingSuite h s0 = []) /\
  forall mode, runBindingSuite (leaky mode) [] <> [].
Proof.
  split; [by apply isolated_passes|]. intros mode. destruct mode; vm_compute; discriminate.
Qed.

(** The hierarchy example's store passes. *)
Lemma binding_suite_fair_witness : runBindingSuite hierarchy NewHierStore = [].
Proof.
  destruct (binding_suite_fair hierarchy hier_ok hier_rows NewHierStore) as [Hpass _]. apply Hpass; [apply hier_ok_new|reflexivity].
Defined.

(** ** PermissionStore *)

Record PermissionHarness (S : Type) := MkPermissionHarness {
  ph_view : S -> PermissionStore;
  ph_Grant : ID -> Subject -> Resource -> list string -> S -> go unit * S;
  ph_GrantSuperuser : option (ID -> Subject -> S -> go unit * S)
}.
Arguments MkPermissionHarness {_} _ _ _.
Arguments ph_view {_} _ _.
Arguments ph_Grant {_} _ _ _ _ _ _.
Arguments ph_GrantSuperuser {_} _.

Definition permission_seeds : list (ID * Subject * Resource * string) := [
  (tenantA, userA, res, keyA); (tenantA, guest, res, keyA); (tenantB, userB, res, keyB); (tenantP, guest, res, keyB);
  (tenantP, guest, resHome, keyA); (Single, userS, res, keyS); (tenantA, userA, global, keyG)].

Section Permissions.
Context {S : Type} (h : PermissionHarness S).
Local Abbreviation TS := (T (S := S)).

Fixpoint seedPermissions (gs : list (ID * Subject * Resource * string)) : TS unit :=
  match gs with
  | [] => mret tt
  | (scope, sub, r, key) :: gs => must (ph_Grant h scope sub r [key]) "seed";; seedPermissions gs
  end.
(** [got, err := f(...); if err != nil { t.Fatalf }]. *)
Definition ask {A} (what : string) (f : PermissionStore -> go A) : TS A := must (fun s => (f (ph_view h s), s)) what.

Definition wantKeys (what : string) (got : PermissionSetResult) (want : list string) : TS unit :=
  check (negb (Superuser got)) (what +:+ " reported a superuser");;
  if negb (size (Keys got) =? length want)%nat then Errorf (what +:+ " returned other keys")
  else (fix each ks := match ks with
                       | [] => mret tt
                       | k :: ks => check (bool_decide (k ∈ Keys got)) (what +:+ " returned other keys");; each ks
                       end) want.
Definition want_keys (what : string) (scope : ID) (sub : Subject) (r : Resource) (want : list string) : TS unit :=
  got ← ask what (fun st => PermissionsFor st scope sub r); wantKeys what got want.
Definition permissionsFor : TS unit :=
  want_keys "PermissionsFor(A, userA)" tenantA userA res [keyA];;
  want_keys "PermissionsFor(B, userA)" tenantB userA res [];;
  want_keys "PermissionsFor(A, userB)" tenantA userB res [];;
  want_keys "PermissionsFor(A, guest)" tenantA guest res [keyA];;
  want_keys "PermissionsFor(P, guest)" tenantP guest res [keyB];;
  want_keys "PermissionsFor(B, guest)" tenantB guest res [];;
  want_keys "PermissionsFor(A, userA, global)" tenantA userA global [keyG];;
  want_keys "PermissionsFor(B, userA, global)" tenantB userA global [];;
  want_keys "PermissionsFor(B, userB, global)" tenantB userB global [];;
  want_keys "PermissionsFor(single, userS, global)" Single userS global [].

Definition want_resources (what : string) (scope : ID) (sub : Subject) (key : string) (want : list Resource) : TS unit :=
  got ← ask what (fun st => ResourcesWithPermission st scope sub key (res_Type res));
  check (negb got.2) (what +:+ " reported unbounded access");;
  check (sameSet got.1 want) (what +:+ " returned other resources").
(** Neither a resource nor all of them. *)
Definition want_none (what : string) (scope : ID) (sub : Subject) (key : string) : TS unit :=
  got ← ask what (fun st => ResourcesWithPermission st scope sub key (res_Type res));
  check (negb (got.2 || negb (length got.1 =? 0)%nat)) (what +:+ " belongs to another scope").
(** The order in which the questions about [keyG] are asked is a map's. *)
Definition resourcesWithPermission : TS unit :=
  want_resources "ResourcesWithPermission(A, userA, keyA)" tenantA userA keyA [res];;
  want_resources "ResourcesWithPermission(B, userA, keyA)" tenantB userA keyA [];;
  want_resources "ResourcesWithPermission(A, userB, keyA)" tenantA userB keyA [];;
  want_resources "ResourcesWithPermission(A, userA, keyB)" tenantA userA keyB [];;
  want_resources "ResourcesWithPermission(A, guest, keyB)" tenantA guest keyB [];;
  want_resources "ResourcesWithPermission(A, guest, keyA)" tenantA guest keyA [res];;
  want_resources "ResourcesWithPermission(P, guest, keyA)" tenantP guest keyA [resHome];;
  want_none "ResourcesWithPermission(B, userA, keyG)" tenantB userA keyG;;
  want_none "ResourcesWithPermission(B, userB, keyG)" tenantB userB keyG;;
  want_none "ResourcesWithPermission(A, userB, keyG)" tenantA userB keyG;;
  want_none "ResourcesWithPermission(single, userS, keyG)" Single userS keyG.

Definition want_subjects (what : string) (scope : ID) (key : string) (want : list Subject) : TS unit :=
  got ← ask what (fun st => SubjectsWithPermission st scope key res);
  check (sameSet got want) (what +:+ " returned other subjects").
Definition subjectsWithPermission : TS unit :=
  want_subjects "SubjectsWithPermission(A, keyA)" tenantA keyA [userA; guest];;
  want_subjects "SubjectsWithPermission(B, keyA)" tenantB keyA [];;
  want_subjects "SubjectsWithPermission(B, keyB)" tenantB keyB [userB];;
  want_subjects "SubjectsWithPermission(A, keyB)" tenantA keyB [].

(** One turn of the loop over [keyA, keyB]. *)
Definition not_in_single (key : string) : TS unit :=
  subs ← ask "SubjectsWithPermission(single)" (fun st => SubjectsWithPermission st Single key res);
  check (length subs =? 0)%nat "the single scope is not every tenant";;
  want_none "ResourcesWithPermission(single, userS)" Single userS key.
Definition permissionsSingleScope : TS unit :=
  want_keys "PermissionsFor(single, userS)" Single userS res [keyS];;
  want_keys "PermissionsFor(single, userA)" Single userA res [];;
  want_keys "PermissionsFor(A, userS)" tenantA userS res [];;
  not_in_single keyA;;
  not_in_single keyB;;
  subs ← ask "SubjectsWithPermission(single, keyS)" (fun st => SubjectsWithPermission st Single keyS res);
  check (bool_decide (subs = [userS])) "SubjectsWithPermission(single, keyS)".

(** Neither a superuser nor unbounded. *)
Definition want_ordinary (what : string) (scope : ID) (sub : Subject) : TS unit :=
  got ← ask what (fun st => PermissionsFor st scope sub res);
  check (negb (Superuser got)) (what +:+ " is a superuser");;
  rs ← ask what (fun st => ResourcesWithPermission st scope sub keyA (res_Type res));
  check (negb rs.2) (what +:+ " has unbounded access").
Definition lists_not (what : string) (who : Subject) (subs : list Subject) : TS unit :=
  check (negb (existsb (fun s => bool_decide (s = who)) subs)) what.
Definition superuser (grant : ID -> Subject -> S -> go unit * S) : TS unit :=
  must (grant tenantA userA) "seed superuser";;
  got ← ask "PermissionsFor(A, userA)" (fun st => PermissionsFor st tenantA userA res);
  (if Superuser got then mret tt else Fatalf "PermissionsFor(A, userA) is not a superuser");;
  want_ordinary "the superuser of A asked about B" tenantB userA;;
  want_ordinary "another tenant's subject with the same id in A" tenantA userB;;
  want_ordinary "that subject in its own scope" tenantB userB;;
  must (grant tenantP guest) "seed guest superuser";;
  want_ordinary "the guest in A" tenantA guest;;
  want_ordinary "the guest in B" tenantB guest;;
  want_ordinary "the guest in the single scope" Single guest;;
  subs ← ask "SubjectsWithPermission(B)" (fun st => SubjectsWithPermission st tenantB keyA res);
  lists_not "SubjectsWithPermission(B) lists A's superuser" userA subs;;
  lists_not "SubjectsWithPermission(B) lists the guest" guest subs;;
  inSingle ← ask "SubjectsWithPermission(single)" (fun st => SubjectsWithPermission st Single keyA res);
  check (length inSingle =? 0)%nat "SubjectsWithPermission(single)";;
  gotS ← ask "PermissionsFor(single, userA)" (fun st => PermissionsFor st Single userA res);
  check (negb (Superuser gotS)) "A's superuser is a superuser in the single scope";;
  subs ← ask "SubjectsWithPermission(A)" (fun st => SubjectsWithPermission st tenantA keyB res);
  lists_not "SubjectsWithPermission(A) lists the guest" guest subs.

Definition runPermissionSuite (fresh : S) : list string :=
  Run "PermissionsFor" (seedPermissions permission_seeds;; permissionsFor) fresh ++
  Run "ResourcesWithPermission" (seedPermissions permission_seeds;; resourcesWithPermission) fresh ++
  Run "SubjectsWithPermission" (seedPermissions permission_seeds;; subjectsWithPermission) fresh ++
  Run "SingleScope" (seedPermissions permission_seeds;; permissionsSingleScope) fresh ++
  Run "Superuser" (match ph_GrantSuperuser h with Some grant => superuser grant | None => mret tt end) fresh.
End Permissions.

Definition permission_reference : PermissionHarness MemPermissionStore := MkPermissionHarness MemPerm_store PermGrant (Some GrantSuperuser).

(** The fixture's store: its grants and its superusers. *)
Record leakyPermissions := MkLeaky { lp_grants : list (ID * Subject * Resource * string); lp_supers : list (ID * Subject) }.
Definition lp_sees (mode : leakMode) (scope : ID) (sub : Subject) (at_ : ID) (who : Subject) : bool :=
  scopeOK mode at_ (eff mode scope sub) && subjectOK mode who sub.
Definition lp_super (mode : leakMode) (l : leakyPermissions) (scope : ID) (sub : Subject) : bool :=
  existsb (fun '(at_, who) => lp_sees mode scope sub at_ who) (lp_supers l).
Definition lp_view (mode : leakMode) (l : leakyPermissions) : PermissionStore := {|
  PermissionsFor scope sub r :=
    if lp_super mode l scope sub then Ret (MkPSR ∅ true)
    else Ret (MkPSR (list_to_set (omap (fun '(at_, who, what, key) =>
      if lp_sees mode scope sub at_ who && bool_decide (what = r) then Some key else None) (lp_grants l))) false);
  ResourcesWithPermission scope sub key ty :=
    if lp_super mode l scope sub then Ret ([], true)
    else Ret (omap (fun '(at_, who, what, k) =>
      if lp_sees mode scope sub at_ who && String.eqb k key && String.eqb (res_Type what) ty && negb (String.eqb (res_ID what) "")
      then Some what else None) (lp_grants l), false);
  SubjectsWithPermission scope key r :=
    Ret (omap (fun '(at_, who, what, k) => if scopeOK mode at_ scope && String.eqb k key && bool_decide (what = r) then Some who else None)
           (lp_grants l) ++
         omap (fun '(at_, who) => if scopeOK mode at_ scope then Some who else None) (lp_supers l))
|}.
Definition leaky_permissions (mode : leakMode) : PermissionHarness leakyPermissions := MkPermissionHarness (lp_view mode)
  (fun scope sub r keys l => (Ret tt, MkLeaky (lp_grants l ++ map (fun k => (scope, sub, r, k)) keys) (lp_supers l)))
  (Some (fun scope sub l => (Ret tt, MkLeaky (lp_grants l) (lp_supers l ++ [(scope, sub)])))).

(** The suite of permission stores, the only guard there is of an engine whose
    answers carry no tenant: the reference store passes it, with its superusers
    and without, and each of the five leaks of the fixtures is reported. *)
Lemma permission_suite_bites :
  runPermissionSuite permission_reference NewMemPermissionStore = [] /\
  runPermissionSuite (MkPermissionHarness MemPerm_store PermGrant None) NewMemPermissionStore = [] /\
  forall mode, runPermissionSuite (leaky_permissions mode) (MkLeaky [] []) <> [].
Proof. split; [vm_compute; reflexivity|]. split; [vm_compute; reflexivity|]. intros mode. destruct mode; vm_compute; discriminate. Qed.
