(* ===== verification/AuditMigrations.v ===== *)
(** * Opening the audit database

    [src/audit/internal/sqlitestore]: [open.go], opening the file and applying
    the embedded migrations; [sqltypes/blob.go] and [errors.go], the columns
    that are never null and the reading of a constraint's error. SQLite is a
    parameter: [exec] is what running a migration's text inside a transaction
    makes of the tables, [driver] what the driver answers before it runs the next
    statement, whatever happened so far; a process that is killed is one whose
    next statement fails. Several processes may open one file at a time. *)

From S2P Require Import Prelude Bytes World.

#[local] Open Scope string_scope.
#[local] Open Scope list_scope.
#[local] Open Scope Z_scope.

(** The tables of the log, the rows of [schema_migrations] once that table
    exists, and the connections held. *)
Record Disk (D : Type) := MkDisk { dk_data : D; dk_applied : option (list string); dk_open : Z }.
Arguments MkDisk {_} _ _ _.
Arguments dk_data {_} _.
Arguments dk_applied {_} _.
Arguments dk_open {_} _.

Section Migrations.
Context {D : Type} (exec : string -> D -> go D) (driver : trace -> option error).
(** The embedded directory: its entries, and which of them are directories. *)
Context (readdir : go (list (string * bool))) (readfile : string -> go string).
Local Abbreviation M := (M (Disk D)).

Definition statement {A} (sql : string) (op : Disk D -> go A * Disk D) : M A :=
  refused ← observe (EvHook sql) driver;
  match refused with Some e => fail e | None => store_call sql op end.

Definition create_table (k : Disk D) : go unit * Disk D :=
  (Ret tt, MkDisk (dk_data k) (Some (default [] (dk_applied k))) (dk_open k)).
Definition no_table : error := AppError "no such table: schema_migrations".
Definition count_applied (name : string) (k : Disk D) : go Z * Disk D :=
  (match dk_applied k with
   | None => Fail no_table
   | Some rows => Ret (Z.of_nat (length (List.filter (String.eqb name) rows)))
   end, k).
(** The statements of a transaction, on the tables it sees; [name] is the
    primary key of [schema_migrations]. *)
Definition tx_exec (body : string) (tx : Disk D) : go (Disk D) :=
  d ← exec body (dk_data tx); Ret (MkDisk d (dk_applied tx) (dk_open tx)).
Definition tx_record (name : string) (tx : Disk D) : go (Disk D) :=
  match dk_applied tx with
  | None => Fail no_table
  | Some rows =>
      if existsb (String.eqb name) rows then Fail (AppError "UNIQUE constraint failed: schema_migrations.name")
      else Ret (MkDisk (dk_data tx) (Some (rows ++ [name])) (dk_open tx))
  end.
Definition Begin : M (Disk D) := statement "BEGIN" (fun k => (Ret k, k)).
Definition Exec (sql : string) (run : Disk D -> go (Disk D)) (tx : Disk D) : M (Disk D) :=
  statement sql (fun k => (run tx, k)).
Definition Commit (tx : Disk D) : M unit := statement "COMMIT" (fun _ => (Ret tt, tx)).

Definition applyOne (name body : string) : M unit :=
  tx ← wrap (Errorf1 "begin migration") Begin;
  tx ← wrap (Errorf1 "apply migration") (Exec body (tx_exec body) tx);
  tx ← wrap (Errorf1 "record migration") (Exec "INSERT INTO schema_migrations" (tx_record name) tx);
  wrap (Errorf1 "commit migration") (Commit tx).

(** The two halves of one turn of the loop. *)
Definition check (name : string) : M bool :=
  applied ← wrap (Errorf1 "check migration") (statement "SELECT COUNT(*)" (count_applied name));
  mret (0 <? applied).
Definition apply (name : string) : M unit :=
  body ← lift (wrap_err (Errorf1 "read migration") (readfile ("migrations/" +:+ name)));
  applyOne name body.
Fixpoint apply_all (names : list string) : M unit :=
  match names with
  | [] => mret tt
  | name :: names => applied ← check name; (if (applied : bool) then mret tt else apply name);; apply_all names
  end.
Definition create : M unit := wrap (Errorf1 "create schema_migrations") (statement "CREATE TABLE" create_table).
Definition sorted_names (entries : list (string * bool)) : list string :=
  sort_by (fun name => [name]) (map fst (List.filter (fun e => negb e.2) entries)).
Definition applyMigrationsFrom : M unit :=
  create;;
  entries ← lift (wrap_err (Errorf1 "read migrations") readdir);
  apply_all (sorted_names entries).

Definition connections (n : Z) (k : Disk D) : Disk D := MkDisk (dk_data k) (dk_applied k) (dk_open k + n).
Definition Close : M unit := store_call "close" (fun k => (Ret tt, connections (-1) k)).
Definition closing {A} (m : M A) (k : A -> M unit) : M unit := try_catch m (fun e => Close;; fail e) k.
Definition Open (dbPath : string) : M unit :=
  if String.eqb dbPath "" then fail (Errorf0 "sqlitestore: dbPath is empty")
  else
    wrap (Errorf1 "open") (statement "open" (fun k => (Ret tt, connections 1 k)));;
    closing (wrap (Errorf1 "ping") (statement "PING" (fun k => (Ret tt, k)))) (fun _ =>
    closing applyMigrationsFrom mret).

(** ** Any number of processes *)

(** Where a process that opens the file stands. *)
Inductive pc := Checking (todo : list string) | Applying (name : string) (todo : list string) | Booted | Died.
Definition next (todo : list string) : pc := match todo with [] => Booted | _ => Checking todo end.
Record state := MkState { st_world : world (Disk D); st_procs : gmap nat pc }.

(** A process starts, asks whether a migration is recorded, applies one, is
    killed. Transactions are serialised by the file's write lock, so applying is
    one step; between the question and the answer's use others may run. *)
Definition after {A} (r : go A) (k : A -> pc) : pc := match r with Ret a => k a | _ => Died end.
Inductive step (names : list string) : state -> state -> Prop :=
  | step_boot i w r w' procs : procs !! i = None -> create w = (r, w') ->
      step names (MkState w procs) (MkState w' (<[i := after r (fun _ => next names)]> procs))
  | step_check i name todo w r w' procs : procs !! i = Some (Checking (name :: todo)) -> check name w = (r, w') ->
      step names (MkState w procs)
        (MkState w' (<[i := after r (fun applied : bool => if applied then next todo else Applying name todo)]> procs))
  | step_apply i name todo w r w' procs : procs !! i = Some (Applying name todo) -> apply name w = (r, w') ->
      step names (MkState w procs) (MkState w' (<[i := after r (fun _ => next todo)]> procs))
  | step_kill i p w procs : procs !! i = Some p -> step names (MkState w procs) (MkState w (<[i := Died]> procs)).

(** A schedule, executable: who starts, whose turn it is, who is killed. *)
Inductive move := Boot (i : nat) | Turn (i : nat) | Kill (i : nat).
Definition play (names : list string) (m : move) (st : state) : state :=
  let put i p w := MkState w (<[i := p]> (st_procs st)) in
  match m with
  | Boot i =>
      match st_procs st !! i with
      | None => let '(r, w) := create (st_world st) in put i (after r (fun _ => next names)) w
      | Some _ => st
      end
  | Turn i =>
      match st_procs st !! i with
      | Some (Checking (name :: todo)) =>
          let '(r, w) := check name (st_world st) in
          put i (after r (fun applied : bool => if applied then next todo else Applying name todo)) w
      | Some (Applying name todo) => let '(r, w) := apply name (st_world st) in put i (after r (fun _ => next todo)) w
      | _ => st
      end
  | Kill i => match st_procs st !! i with Some _ => put i Died (st_world st) | None => st end
  end.
Definition schedule (names : list string) (ms : list move) (st : state) : state := fold_left (fun st m => play names m st) ms st.
Lemma play_steps names m st : rtc (step names) st (play names m st).
Proof.
  destruct st as [w procs], m as [i|i|i]; cbn [play st_world st_procs]; destruct (procs !! i) as [p|] eqn:Hi; try done.
  - destruct (create w) as [r w'] eqn:Hr. apply rtc_once. by eapply step_boot.
  - destruct p as [[|name todo]|name todo| |]; try done.
    + destruct (check name w) as [r w'] eqn:Hr. apply rtc_once. by eapply step_check.
    + destruct (apply name w) as [r w'] eqn:Hr. apply rtc_once. by eapply step_apply.
  - apply rtc_once. by eapply step_kill.
Qed.
Lemma schedule_steps names ms : forall st, rtc (step names) st (schedule names ms st).
Proof. induction ms as [|m ms IH]; intros st; [done|]. cbn. etrans; [apply play_steps|apply IH]. Qed.

(** ** What is on disk *)

(** Running the migrations of [names] one after the other. *)
Fixpoint replay (names : list string) (d : D) : go D :=
  match names with
  | [] => Ret d
  | name :: names => body ← readfile ("migrations/" +:+ name); d ← exec body d; replay names d
  end.
Lemma replay_app l1 l2 d : replay (l1 ++ l2) d = (d ← replay l1 d; replay l2 d).
Proof.
  revert d. induction l1 as [|n l1 IH]; intros d; [done|]. cbn. destruct (readfile _) as [b|e|e]; [|done..].
  cbn. destruct (exec b d); [|done..]. cbn. apply IH.
Qed.

(** The first [k] migrations took effect, in order, and are recorded. *)
Definition holds (names : list string) (d0 : D) (k : nat) (disk : Disk D) : Prop :=
  replay (take k names) d0 = Ret (dk_data disk) /\ (k <= length names)%nat /\
  match dk_applied disk with None => k = 0%nat | Some rows => rows = take k names end.
(** A process is past no migration that is not on disk. *)
Definition reached (names : list string) (k : nat) (disk : Disk D) (p : pc) : Prop :=
  match p with
  | Checking todo => is_Some (dk_applied disk) /\ exists done, names = done ++ todo /\ (length done <= k)%nat
  | Applying name todo => is_Some (dk_applied disk) /\ exists done, names = done ++ name :: todo /\ (length done <= k)%nat
  | Booted => is_Some (dk_applied disk) /\ k = length names
  | Died => True
  end.

(** ** One statement, one turn *)

Implicit Types (w : world (Disk D)).
Lemma statement_inv {A} sql (op : Disk D -> go A * Disk D) w r w' : statement sql op w = (r, w') ->
  (exists e, r = Fail e /\ w_store w' = w_store w) \/ op (w_store w) = (r, w_store w').
Proof.
  unfold statement. intros [(a & w1 & Ho & H)|[(e & Ho & ->)|(e & Ho & ->)]]%bind_inv; [|done..]. injection Ho as <- <-.
  destruct (driver _) as [e|].
  - injection H as <- <-. left. eauto.
  - right. unfold store_call in H. cbn [w_store] in H. destruct (op (w_store w)) as [r1 s1]. by injection H as <- <-.
Qed.
Lemma statement_wrap_inv {A} f sql (op : Disk D -> go A * Disk D) w r w' : wrap f (statement sql op) w = (r, w') ->
  (is_ret r = false /\ w_store w' = w_store w) \/ exists r0, op (w_store w) = (r0, w_store w') /\ r = wrap_err f r0.
Proof.
  unfold wrap. destruct (statement sql op w) as [r0 w1] eqn:Hs. intros [= <- <-].
  apply statement_inv in Hs as [(e & -> & Hst)|Hop]; [by left|]. right. eauto.
Qed.

Lemma create_inv w r w' : create w = (r, w') ->
  (is_ret r = false /\ w_store w' = w_store w) \/ (r = Ret tt /\ w_store w' = (create_table (w_store w)).2).
Proof.
  intros [H|(r0 & Hop & ->)]%statement_wrap_inv; [by left|]. right. unfold create_table in *. injection Hop as <- <-. done.
Qed.
Lemma check_inv name w r w' : check name w = (r, w') ->
  w_store w' = w_store w /\
  forall b, r = Ret b -> exists rows, dk_applied (w_store w) = Some rows /\ (b = true <-> name ∈ rows).
Proof.
  unfold check. intros [(n & w1 & H & Hr)|[(e & H & ->)|(e & H & ->)]]%bind_inv;
    apply statement_wrap_inv in H as [[H1 H2]|(r0 & Hop & Hw)]; try done;
    try (unfold count_applied in Hop; injection Hop as <- <-; done).
  injection Hr as <- <-. unfold count_applied in Hop. injection Hop as <- Hst. split; [done|]. intros b [= <-].
  destruct (dk_applied (w_store w)) as [rows|]; [|done]. injection Hw as ->. exists rows. split; [done|].
  rewrite Z.ltb_lt, list_elem_of_In. split.
  - intros Hn. destruct (List.filter (String.eqb name) rows) as [|x l] eqn:Hf; [cbn in Hn; lia|].
    assert (In x (List.filter (String.eqb name) rows)) as [Hin Heq]%filter_In by (rewrite Hf; by left).
    apply String.eqb_eq in Heq as ->. done.
  - intros Hin. assert (In name (List.filter (String.eqb name) rows)) as Hf by (apply filter_In; by rewrite String.eqb_refl).
    destruct (List.filter _ _); [done|cbn; lia].
Qed.

(** A transaction takes effect whole or not at all. *)
Lemma applyOne_inv name body w r w' : applyOne name body w = (r, w') ->
  (is_ret r = false /\ w_store w' = w_store w) \/
  (r = Ret tt /\ exists d rows, exec body (dk_data (w_store w)) = Ret d /\ dk_applied (w_store w) = Some rows /\
    (name ∉ rows) /\ w_store w' = MkDisk d (Some (rows ++ [name])) (dk_open (w_store w))).
Proof.
  unfold applyOne. intros [(tx & w1 & H & Hr)|[(e & H & ->)|(e & H & ->)]]%bind_inv;
    apply statement_wrap_inv in H as [[H1 H2]|(r0 & Hop & Hw)]; try done; try (injection Hop as <- <-; done); [|by left..].
  injection Hop as <- Hs1. injection Hw as ->.
  apply bind_inv in Hr as [(tx & w2 & H & Hr)|[(e & H & ->)|(e & H & ->)]];
    apply statement_wrap_inv in H as [[H1 H2]|(r0 & Hop & Hw)]; try done; try (left; by rewrite ?H2);
    injection Hop as Hx Hs2; [|left; by rewrite <- Hs2..].
  subst r0. unfold tx_exec in Hw. destruct (exec body (dk_data (w_store w))) as [d|e|e] eqn:Hd; [|done..].
  injection Hw as ->.
  apply bind_inv in Hr as [(tx & w3 & H & Hr)|[(e & H & ->)|(e & H & ->)]];
    apply statement_wrap_inv in H as [[H1 H2]|(r0 & Hop & Hw)]; try done; try (left; split; [done|]; congruence);
    injection Hop as Hx Hs3; [|left; split; [done|]; congruence..].
  subst r0. unfold tx_record in Hw. cbn [dk_applied dk_data dk_open] in Hw.
  destruct (dk_applied (w_store w)) as [rows|] eqn:Ha; [|done].
  destruct (existsb (String.eqb name) rows) eqn:He; [done|]. injection Hw as ->.
  apply statement_wrap_inv in Hr as [[H1 H2]|(r0 & Hop & ->)]; [left; split; [done|]; congruence|].
  injection Hop as <- Hs4. right. split; [done|]. exists d, rows. split_and!; [done..| |done].
  intros Hin. apply not_true_iff_false in He. apply He. apply existsb_exists. exists name.
  split; [by apply list_elem_of_In|by apply String.eqb_eq].
Qed.

Lemma apply_inv name w r w' : apply name w = (r, w') ->
  (is_ret r = false /\ w_store w' = w_store w) \/
  (r = Ret tt /\ exists body d rows, readfile ("migrations/" +:+ name) = Ret body /\
    exec body (dk_data (w_store w)) = Ret d /\ dk_applied (w_store w) = Some rows /\
    (name ∉ rows) /\ w_store w' = MkDisk d (Some (rows ++ [name])) (dk_open (w_store w))).
Proof.
  unfold apply. destruct (readfile _) as [body|e|e]; cbn; [|intros [= <- <-]; by left..].
  intros [?|(-> & d & rows & H)]%applyOne_inv; [by left|]. right. split; [done|]. exists body, d, rows. by split.
Qed.

(** ** The invariant *)

Section Invariant.
Context (names : list string) (d0 : D) (names_distinct : NoDup names).

Lemma holds_same k disk disk' : dk_data disk' = dk_data disk -> dk_applied disk' = dk_applied disk ->
  holds names d0 k disk -> holds names d0 k disk'.
Proof. unfold holds. by intros -> ->. Qed.
Lemma holds_create k disk : holds names d0 k disk -> holds names d0 k (create_table disk).2.
Proof. intros (H1 & H2 & H3). split_and!; [done..|]. cbn. destruct (dk_applied disk); [done|]. by subst. Qed.
(** What is not recorded is the next one. *)
Lemma holds_extend k disk before name after body d rows o : holds names d0 k disk ->
  names = before ++ name :: after -> (length before <= k)%nat -> dk_applied disk = Some rows -> name ∉ rows ->
  readfile ("migrations/" +:+ name) = Ret body -> exec body (dk_data disk) = Ret d ->
  k = length before /\ holds names d0 (S k) (MkDisk d (Some (rows ++ [name])) o).
Proof.
  intros (Hd & Hk & Hr) Hn Hb Ha Hnew Hf He. rewrite Ha in Hr. subst rows.
  assert (names !! length before = Some name) as Hl by (rewrite Hn; by apply list_lookup_middle).
  assert (k = length before) as ->.
  { destruct (decide (k = length before)); [done|]. exfalso. apply Hnew.
    apply (list_elem_of_lookup_2 _ (length before)). rewrite lookup_take_lt by lia. done. }
  split; [done|]. pose proof (lookup_lt_Some _ _ _ Hl). split_and!; [|lia|].
  - cbn [dk_data]. rewrite (take_S_r _ _ _ Hl), replay_app, Hd. cbn [replay mbind go_bind]. rewrite Hf. cbn [mbind go_bind]. by rewrite He.
  - cbn [dk_applied]. by rewrite (take_S_r _ _ _ Hl).
Qed.

Definition inv (st : state) : Prop :=
  exists k, holds names d0 k (w_store (st_world st)) /\
    forall i p, st_procs st !! i = Some p -> reached names k (w_store (st_world st)) p.

Lemma reached_same k (disk disk' : Disk D) p : (is_Some (dk_applied disk) -> is_Some (dk_applied disk')) ->
  reached names k disk p -> reached names k disk' p.
Proof. destruct p; cbn; naive_solver. Qed.
Lemma reached_more k (disk disk' : Disk D) p : is_Some (dk_applied disk') -> (S k <= length names)%nat ->
  reached names k disk p -> reached names (S k) disk' p.
Proof. destruct p as [todo|name todo| |]; cbn; [| |lia|done]; intros Hs _ (_ & before & -> & Hb); split; eauto. Qed.
Lemma reached_next k (disk : Disk D) before todo : is_Some (dk_applied disk) -> names = before ++ todo ->
  (length before <= k <= length names)%nat -> (todo = [] -> k = length names) -> reached names k disk (next todo).
Proof. intros Hs Hn Hb He. destruct todo; cbn; [by split; [|apply He]|]. split; [done|]. exists before. split; [done|lia]. Qed.

(** One process moves, the others stay where they are. *)
Lemma inv_update k w w' (procs : gmap nat pc) i p :
  (forall j q, procs !! j = Some q -> reached names k (w_store w) q) ->
  holds names d0 k (w_store w') -> (is_Some (dk_applied (w_store w)) -> is_Some (dk_applied (w_store w'))) ->
  reached names k (w_store w') p -> inv (MkState w' (<[i := p]> procs)).
Proof.
  intros Hp Hh Hs Hr. exists k. split; [done|]. cbn. intros j q. rewrite lookup_insert_Some. intros [[_ <-]|[_ Hq]]; [done|].
  by eapply reached_same, Hp.
Qed.

Lemma step_inv st st' : step names st st' -> inv st -> inv st'.
Proof.
  intros Hstep (k & Hh & Hp). destruct Hstep as [i w r w' procs Hi Hrun|i name todo w r w' procs Hi Hrun|i name todo w r w' procs Hi Hrun|i p w procs Hi];
    cbn [st_world st_procs] in *.
  - apply create_inv in Hrun as [[Hr Hs]|[-> Hs]].
    + eapply inv_update; [exact Hp|by rewrite Hs|by rewrite Hs|]. by destruct r.
    + eapply inv_update; [exact Hp|rewrite Hs; by apply holds_create|by rewrite Hs|]. rewrite Hs. cbn [after].
      destruct Hh as (_ & Hk & _). apply (reached_next k _ []); [done|done|cbn; lia|]. intros ->. cbn in *. lia.
  - apply check_inv in Hrun as [Hs Hb]. eapply inv_update; [exact Hp|by rewrite Hs|by rewrite Hs|]. rewrite Hs.
    destruct (Hp i _ Hi) as (Hsome & before & Hn & Hlen). destruct r as [b|e|e]; [|done..]. cbn [after].
    destruct (Hb b eq_refl) as (rows & Ha & Hiff). destruct b; [|split; [done|by exists before]].
    destruct Hh as (_ & Hk & Hr). rewrite Ha in Hr. subst rows.
    assert (S (length before) <= k)%nat as Hlt.
    { assert (name ∈ take k names) as Hin by by apply Hiff. apply list_elem_of_lookup in Hin as [j Hj].
      apply lookup_take_Some in Hj as [Hj Hjk].
      assert (names !! length before = Some name) as Hl by (rewrite Hn; by apply list_lookup_middle).
      rewrite (NoDup_lookup names _ _ name names_distinct Hl Hj). lia. }
    apply (reached_next k _ (before ++ [name])); [done|by rewrite <- app_assoc|rewrite length_app; cbn; lia|].
    intros ->. rewrite Hn, length_app in *. cbn in *. lia.
  - destruct (Hp i _ Hi) as (Hsome & before & Hn & Hlen). apply apply_inv in Hrun as [[Hr Hs]|(-> & body & d & rows & Hf & He & Ha & Hnew & Hs)].
    + eapply inv_update; [exact Hp|by rewrite Hs|by rewrite Hs|]. by destruct r.
    + destruct (holds_extend k _ before name todo body d rows (dk_open (w_store w)) Hh Hn Hlen Ha Hnew Hf He) as [-> Hh'].
      exists (S (length before)). cbn [st_world st_procs]. rewrite Hs. split; [done|]. destruct Hh' as (_ & Hk & _).
      intros j q. rewrite lookup_insert_Some. intros [[_ <-]|[_ Hq]].
      * cbn [after]. apply (reached_next _ _ (before ++ [name])); [done|by rewrite <- app_assoc|rewrite length_app; cbn; lia|].
        intros ->. rewrite Hn, length_app. cbn. lia.
      * eapply reached_more; [done|done|by eapply Hp].
  - eapply inv_update; [exact Hp|done|done|done].
Qed.
Lemma steps_inv st st' : rtc (step names) st st' -> inv st -> inv st'.
Proof. induction 1; eauto using step_inv. Qed.
End Invariant.

(** ** A boot that nothing interrupts *)

Section Completes.
Context (driver_works : forall tr, driver tr = None).

Lemma statement_runs {A} sql (op : Disk D -> go A * Disk D) w a s : op (w_store w) = (Ret a, s) ->
  exists w', statement sql op w = (Ret a, w') /\ w_store w' = s.
Proof.
  intros H. unfold statement, mbind, M_bind, observe. rewrite driver_works. unfold store_call. cbn [w_store]. rewrite H.
  eexists. split; [reflexivity|done].
Qed.
Lemma wrapped_runs {A} f sql (op : Disk D -> go A * Disk D) w a s : op (w_store w) = (Ret a, s) ->
  exists w', wrap f (statement sql op) w = (Ret a, w') /\ w_store w' = s.
Proof. intros (w' & H & Hs)%(statement_runs sql op). exists w'. split; [|done]. unfold wrap. by rewrite H. Qed.
Lemma apply_runs name body d rows w : readfile ("migrations/" +:+ name) = Ret body ->
  exec body (dk_data (w_store w)) = Ret d -> dk_applied (w_store w) = Some rows -> name ∉ rows ->
  exists w', apply name w = (Ret tt, w') /\ w_store w' = MkDisk d (Some (rows ++ [name])) (dk_open (w_store w)).
Proof.
  intros Hf He Ha Hn. unfold apply. rewrite Hf. unfold mbind, M_bind, lift. cbn [wrap_err]. unfold applyOne, mbind, M_bind.
  destruct (wrapped_runs (Errorf1 "begin migration") "BEGIN" (fun k => (Ret k, k)) w (w_store w) (w_store w) eq_refl) as (w1 & H1 & Hs1).
  unfold Begin. rewrite H1.
  destruct (wrapped_runs (Errorf1 "apply migration") body (fun k => (tx_exec body (w_store w), k)) w1 (MkDisk d (Some rows) (dk_open (w_store w))) (w_store w1))
    as (w2 & H2 & Hs2); [unfold tx_exec; by rewrite He, Ha|]. unfold Exec. rewrite H2.
  destruct (wrapped_runs (Errorf1 "record migration") "INSERT INTO schema_migrations"
    (fun k => (tx_record name (MkDisk d (Some rows) (dk_open (w_store w))), k)) w2 (MkDisk d (Some (rows ++ [name])) (dk_open (w_store w))) (w_store w2))
    as (w3 & H3 & Hs3).
  { unfold tx_record. cbn [dk_applied dk_data dk_open]. destruct (existsb _ rows) eqn:Hx; [|done]. exfalso.
    apply existsb_exists in Hx as (x & Hin & <-%String.eqb_eq). apply Hn. by apply list_elem_of_In. }
  rewrite H3. by apply wrapped_runs.
Qed.
Lemma check_runs name rows w : dk_applied (w_store w) = Some rows ->
  exists b w', check name w = (Ret b, w') /\ w_store w' = w_store w /\ (b = true <-> name ∈ rows).
Proof.
  intros Ha. destruct (check name w) as [r w'] eqn:Hc. pose proof (check_inv name w r w' Hc) as [Hs Hb].
  unfold check, mbind, M_bind in Hc.
  edestruct (wrapped_runs (Errorf1 "check migration") "SELECT COUNT(*)" (count_applied name) w) as (w1 & H1 & Hs1);
    [unfold count_applied; rewrite Ha; reflexivity|]. rewrite H1 in Hc. injection Hc as <- <-.
  eexists _, _. split; [reflexivity|]. split; [done|]. destruct (Hb _ eq_refl) as (rows' & Ha' & Hiff). rewrite Ha in Ha'. by injection Ha' as ->.
Qed.

Context (names : list string) (d0 d1 : D) (names_distinct : NoDup names) (all_run : replay names d0 = Ret d1).
Lemma apply_all_completes todo : forall before k w, names = before ++ todo -> (length before <= k)%nat ->
  holds names d0 k (w_store w) -> is_Some (dk_applied (w_store w)) ->
  exists w', apply_all todo w = (Ret tt, w') /\ dk_data (w_store w') = d1 /\ dk_applied (w_store w') = Some names.
Proof.
  induction todo as [|name todo IH]; intros before k w Hn Hb Hh [rows Ha].
  - exists w. split; [done|]. rewrite app_nil_r in Hn. subst before. destruct Hh as (Hd & Hk & Hr).
    rewrite Ha in Hr |- *. rewrite take_ge in Hd, Hr by lia. rewrite all_run in Hd. injection Hd as ->. by subst.
  - cbn [apply_all]. unfold mbind at 1, M_bind at 1. destruct (check_runs name rows w Ha) as (b & w1 & -> & Hs1 & Hiff).
    assert (names = (before ++ [name]) ++ todo) as Hn' by by rewrite <- app_assoc.
    pose proof Hh as (Hd & Hk & Hr). rewrite Ha in Hr. destruct b.
    + apply (IH (before ++ [name]) k w1 Hn'); [|by rewrite Hs1|rewrite Hs1; eauto].
      assert (name ∈ take k names) as Hin by (rewrite <- Hr; by apply Hiff). apply list_elem_of_lookup in Hin as [j Hj].
      apply lookup_take_Some in Hj as [Hj Hjk].
      assert (names !! length before = Some name) as Hl by (rewrite Hn; by apply list_lookup_middle).
      rewrite length_app. cbn. rewrite (NoDup_lookup names _ _ name names_distinct Hl Hj). lia.
    + assert (name ∉ rows) as Hnew by (intros H; by apply Hiff in H). subst rows.
      assert (k = length before) as ->.
      { destruct (decide (k = length before)); [done|]. exfalso. apply Hnew. apply (list_elem_of_lookup_2 _ (length before)).
        rewrite lookup_take_lt by lia. rewrite Hn. by apply list_lookup_middle. }
      assert (exists body d, readfile ("migrations/" +:+ name) = Ret body /\ exec body (dk_data (w_store w)) = Ret d) as (body & d & Hf & He).
      { assert (take (length before) names = before) as Ht by (rewrite Hn; by rewrite take_app_length). rewrite Ht in Hd.
        rewrite Hn, replay_app, Hd in all_run. cbn [replay mbind go_bind] in all_run. destruct (readfile _) as [body|e|e]; [|done..]. cbn [mbind go_bind] in all_run.
        exists body. destruct (exec body _) as [d|e|e]; [|done..]. by exists d. }
      rewrite <- Hs1 in He, Ha. destruct (apply_runs name body d _ w1 Hf He Ha Hnew) as (w2 & H2 & Hs2).
      unfold mbind, M_bind. rewrite H2.
      rewrite Hs1 in He, Ha. destruct (holds_extend names d0 _ _ before name todo body d _ (dk_open (w_store w1)) Hh Hn Hb Ha Hnew Hf He) as [_ Hh'].
      apply (IH (before ++ [name]) (S (length before)) w2 Hn'); [rewrite length_app; cbn; lia|by rewrite Hs2|by rewrite Hs2].
Qed.
End Completes.

(** ** Connections *)

Lemma create_open w r w' : create w = (r, w') -> dk_open (w_store w') = dk_open (w_store w).
Proof. by intros [[_ ->]|[_ ->]]%create_inv. Qed.
Lemma migrations_open w r w' : applyMigrationsFrom w = (r, w') -> dk_open (w_store w') = dk_open (w_store w).
Proof.
  assert (forall todo w r w', apply_all todo w = (r, w') -> dk_open (w_store w') = dk_open (w_store w)) as Hall.
  { induction todo as [|name todo IH]; intros v rv v'; cbn [apply_all]; [by intros [= _ <-]|].
    intros [(b & w1 & Hc & H)|[(e & Hc & ->)|(e & Hc & ->)]]%bind_inv; apply check_inv in Hc as [Hs _]; [|by rewrite Hs..].
    rewrite <- Hs. apply bind_inv in H as [([] & w2 & Ha & H)|[(e & Ha & ->)|(e & Ha & ->)]]; [rewrite (IH _ _ _ H)| |];
      (destruct b; [by inversion Ha|]; apply apply_inv in Ha as [[? Ha]|(_ & ? & ? & ? & _ & _ & _ & _ & Ha)]; by rewrite Ha). }
  unfold applyMigrationsFrom. intros [(u & w1 & Hc & H)|[(e & Hc & ->)|(e & Hc & ->)]]%bind_inv;
    apply create_open in Hc; [|done..]. rewrite <- Hc.
  apply bind_inv in H as [(es & w2 & Hl & H)|[(e & Hl & ->)|(e & Hl & ->)]]; injection Hl as _ <-; [by apply Hall in H|done..].
Qed.
Lemma closing_inv {A} (m : M A) k w r w' : closing m k w = (r, w') -> (forall why, r <> Panic why) ->
  (forall r1 w1, m w = (r1, w1) -> dk_open (w_store w1) = dk_open (w_store w)) ->
  (exists a w1, dk_open (w_store w1) = dk_open (w_store w) /\ k a w1 = (r, w')) \/
  (is_ret r = false /\ dk_open (w_store w') = dk_open (w_store w) - 1).
Proof.
  intros [(a & w1 & Hm & H)|[(e & w1 & Hm & H)|(e & Hm & ->)]]%try_catch_inv Hp Hopen; [left; eauto| |by destruct (Hp e)].
  right. injection H as <- <-. split; [done|]. cbn. apply Hopen in Hm. lia.
Qed.

(** [Open] leaves a connection open exactly when it returns one. *)
Lemma Open_connection dbPath w r w' : Open dbPath w = (r, w') -> (forall why, r <> Panic why) ->
  dk_open (w_store w') = dk_open (w_store w) + (if is_ret r then 1 else 0).
Proof.
  unfold Open. destruct (String.eqb dbPath ""); [intros [= <- <-] _; cbn; lia|].
  intros [(u & w1 & Ho & H)|[(e & Ho & ->)|(e & Ho & ->)]]%bind_inv Hp;
    (apply statement_wrap_inv in Ho as [[? Hs]|(r0 & Hs & Hr)]; [|injection Hs as <- Hs]); try done; [|rewrite Hs; cbn; lia..].
  assert (dk_open (w_store w1) = dk_open (w_store w) + 1) as H1 by by rewrite <- Hs.
  apply closing_inv in H as [(a & w2 & H2 & H)|[-> H2]]; [|lia|done|].
  - apply closing_inv in H as [(b & w3 & H3 & H)|[-> H3]]; [|lia|done|].
    + injection H as <- <-. cbn. lia.
    + intros r1 v. apply migrations_open.
  - intros r1 v [[? Hv]|(r2 & Hv & _)]%statement_wrap_inv; [by rewrite Hv|]. by injection Hv as _ <-.
Qed.

End Migrations.

(** C39: However many processes open one new file, in any order, with statements
    refused and processes killed at any point, what is on disk is the effect of
    the first [k] migrations, each run once, in order and whole, and exactly
    those are recorded. A process that got through left all of them; and from
    whatever was left behind, a boot that nothing interrupts completes, provided
    the migrations run one after the other. *)
Theorem migrations_exactly_once {D} (exec : string -> D -> go D) driver readdir readfile entries d0 w0 st :
  readdir = Ret entries -> NoDup entries.*1 -> dk_data (w_store w0) = d0 -> dk_applied (w_store w0) = None ->
  rtc (step exec driver readfile (sorted_names entries)) (MkState w0 ∅) st ->
  exists k, holds exec readfile (sorted_names entries) d0 k (w_store (st_world st)) /\
    (forall i, st_procs st !! i = Some Booted -> k = length (sorted_names entries)) /\
    forall driver' d1, (forall tr, driver' tr = None) -> replay exec readfile (sorted_names entries) d0 = Ret d1 ->
      exists w', applyMigrationsFrom exec driver' readdir readfile (st_world st) = (Ret tt, w') /\
        dk_data (w_store w') = d1 /\ dk_applied (w_store w') = Some (sorted_names entries).
Proof.
  intros Hdir Hnd Hd0 Ha0 Hsteps.
  assert (NoDup (sorted_names entries)) as Hnames.
  { unfold sorted_names. rewrite sort_by_Permutation. clear -Hnd. induction entries as [|[n b] l IH]; cbn; [constructor|].
    apply NoDup_cons in Hnd as [Hn Hnd]. destruct b; cbn; [by apply IH|]. apply NoDup_cons. split; [|by apply IH].
    intros Hin. apply Hn. apply list_elem_of_fmap in Hin as ([n' b'] & Heq & Hin). cbn in Heq. subst n'.
    apply list_elem_of_fmap. exists (n, b'). split; [done|]. apply list_elem_of_In. apply list_elem_of_In, filter_In in Hin. by destruct Hin. }
  destruct (steps_inv exec driver readfile _ d0 Hnames _ _ Hsteps) as (k & Hh & Hp).
  { exists 0%nat. split; [|cbn [st_procs]; intros i p Hi; by rewrite lookup_empty in Hi]. unfold holds. cbn [st_world]. rewrite Hd0, Ha0.
    split; [done|]. split; [lia|done]. }
  exists k. split; [done|]. split; [intros i Hi; by destruct (Hp i _ Hi)|]. intros driver' d1 Hworks Hall.
  unfold applyMigrationsFrom, create.
  destruct (wrapped_runs driver' Hworks (Errorf1 "create schema_migrations") "CREATE TABLE" create_table (st_world st) tt
    (create_table (w_store (st_world st))).2 eq_refl) as (w1 & H1 & Hs1).
  unfold mbind, M_bind. rewrite H1, Hdir. unfold lift. cbn [wrap_err].
  apply (apply_all_completes exec driver' readfile Hworks _ d0 d1 Hnames Hall _ [] k w1); [done|cbn; lia| |by rewrite Hs1].
  rewrite Hs1. by apply holds_create.
Qed.

(** ** Columns that are never null (sqltypes/blob.go, errors.go) *)

(** A nil slice is not an empty one. *)
Abbreviation Blob := (option bytes).
Inductive driver_value := DrvNull | DrvBytes (b : bytes) | DrvText (s : string) | DrvOther (kind : string).
Definition Value (b : Blob) : driver_value := DrvBytes (default [] b).
(** What a scan leaves in the receiver, which an error does not change. *)
Definition Scan (b : Blob) (src : driver_value) : go unit * Blob :=
  match src with
  | DrvNull => (Ret tt, Some [])
  | DrvBytes v => (Ret tt, Some v)
  | DrvText v => (Ret tt, Some (to_bytes v))
  | DrvOther kind => (Fail (Errorf0 ("sqltypes: cannot scan " +:+ kind +:+ " into Blob")), b)
  end.
Definition SQLITE_CONSTRAINT_PRIMARYKEY : Z := 1555.
Definition SQLITE_CONSTRAINT_UNIQUE : Z := 2067.
(** [code_of]: the code of the driver's error an error wraps. *)
Definition IsUniqueViolation (code_of : error -> option Z) (err : error) : bool :=
  match code_of err with
  | Some code => (code =? SQLITE_CONSTRAINT_UNIQUE) || (code =? SQLITE_CONSTRAINT_PRIMARYKEY)
  | None => false
  end.

(** What is written is never null and reads back as the same bytes; what was
    null before the type existed reads as empty; nothing scanned is nil, so
    writing it again changes nothing. *)
Theorem blob_columns (b b0 : Blob) src b' : Value b <> DrvNull /\ Scan b0 (Value b) = (Ret tt, Some (default [] b)) /\
  (Scan b0 src = (Ret tt, b') -> is_Some b' /\ Scan b' (Value b') = (Ret tt, b')).
Proof. split_and!; [done|done|]. destruct src; intros [= <-]; by split. Qed.

(** ** An example *)

(** Each file adds the column it is named after, and cannot be run twice. *)
Module ToyDisk.
Definition exec (body : string) (d : list string) : go (list string) :=
  if existsb (String.eqb body) d then Fail (AppError "duplicate column name") else Ret (d ++ [body]).
Definition readfile (path : string) : go string := Ret path.
Definition entries : list (string * bool) := [("002_b.sql", false); ("archive", true); ("001_a.sql", false)].
Definition names : list string := sorted_names entries.
(** The seventh statement is refused: the insert of the first process. *)
Definition driver (tr : trace) : option error := if (length tr =? 12)%nat then Some (AppError "disk I/O error") else None.
Definition start : world (Disk (list string)) := World (MkDisk [] None 0) [].
Definition boots : list move := [Boot 0; Boot 1; Turn 0; Turn 1; Turn 0; Turn 1; Boot 2; Turn 2; Turn 2; Kill 2].
Definition reached : state := schedule exec driver readfile names boots (MkState start ∅).

Example sorted : names = ["001_a.sql"; "002_b.sql"].
Proof. vm_compute. reflexivity. Qed.
(** The column the first process had added is rolled back, the second process
    adds it, the third is killed before the second file. *)
Example half_way : w_store (st_world reached) = MkDisk ["migrations/001_a.sql"] (Some ["001_a.sql"]) 0 /\
  st_procs reached !! 0%nat = Some Died /\ st_procs reached !! 1%nat = Some (Checking ["002_b.sql"]).
Proof. split_and!; vm_compute; reflexivity. Qed.
(** Whether a file was applied is asked outside the transaction that applies it:
    of two processes that start together the slower one fails to open. *)
Definition race : state :=
  schedule exec (fun _ => None) readfile names [Boot 0; Boot 1; Turn 0; Turn 1; Turn 0; Turn 1] (MkState start ∅).
Example slower_process_fails : st_procs race !! 0%nat = Some (Checking ["002_b.sql"]) /\ st_procs race !! 1%nat = Some Died.
Proof. split; vm_compute; reflexivity. Qed.
End ToyDisk.

Lemma migrations_exactly_once_witness : exists w',
  applyMigrationsFrom ToyDisk.exec (fun _ => None) (Ret ToyDisk.entries) ToyDisk.readfile (st_world ToyDisk.reached) = (Ret tt, w') /\
  dk_data (w_store w') = ["migrations/001_a.sql"; "migrations/002_b.sql"] /\ dk_applied (w_store w') = Some ToyDisk.names.
Proof.
  assert (NoDup ToyDisk.entries.*1) as Hnd by (apply (bool_decide_unpack _); vm_compute; exact I).
  destruct (migrations_exactly_once ToyDisk.exec ToyDisk.driver (Ret ToyDisk.entries) ToyDisk.readfile ToyDisk.entries [] ToyDisk.start
    ToyDisk.reached eq_refl Hnd eq_refl eq_refl (schedule_steps _ _ _ _ _ _)) as (k & _ & _ & Hdone).
  exact (Hdone (fun _ => None) ["migrations/001_a.sql"; "migrations/002_b.sql"] (fun _ => eq_refl) eq_refl).
Defined.
