(* ===== verification/ScimBulk.v ===== *)
(** * SCIM bulk requests

    [src/examples/scim/bulk.go]: the envelope whose operations are sent again,
    one by one, to a router of their own, under the context of the envelope, and
    the routes [main.go] registers for requests that come on their own, which
    the theorem compares it with; the gate in front of those is not modelled
    here. The router's matching ([mux]) and
    its answer to what matches nothing ([unmatched]) are the framework's;
    net/http's [ReadRequest] of a head, the body scanners and [json.Valid] are
    parameters. *)

From stdpp Require Import pretty.
From S2P Require Import Prelude Tenant Bytes World Crypto AuditEvent ScimPath ScimPatch Http WebAuth WebGates WebAudit ScimStore ScimWire WebScim ScimMemStore ScimMemLaws WebScimLaws.

#[local] Open Scope string_scope.
#[local] Open Scope list_scope.
#[local] Open Scope Z_scope.

Definition bulkPrefix : string := "/scim/v2".
Definition actionBulk : string := "scim.bulk".

Record bulkOperation := MkBulkOperation {
  bo_Method : string;
  bo_BulkID : string;
  bo_Path : string;
  bo_Data : bytes;
  bo_Version : string
}.
Record bulkRequest := MkBulkRequest {
  bq_Schemas : list string;
  bq_FailOnErrors : Z;
  bq_Operations : list bulkOperation
}.
Record bulkOperationResult := MkBulkResult {
  bt_Method : string;
  bt_BulkID : string;
  bt_Location : string;
  bt_Status : string;
  bt_Response : bytes
}.
Definition bulkResponse_json (results : list bulkOperationResult) : jv :=
  VObj (fld "schemas" (VList [VStr "urn:ietf:params:scim:api:messages:2.0:BulkResponse"]) ++
        fld "Operations" (VList (map (fun t => VObj (
          fld "method" (VStr (bt_Method t)) ++ omit_str "bulkId" (bt_BulkID t) ++ omit_str "location" (bt_Location t) ++
          fld "status" (VStr (bt_Status t)) ++
          match bt_Response t with [] => [] | raw => fld "response" (VRaw raw) end)) results))).

Definition CRLF : string := String "013" (String "010" "").

Section Bulk.
Context (E : Env) (L : Lib) (utf8 : string -> string) (text : error -> string) (Marshal : jv -> bytes) (valid : bytes -> bool).
(** Reading a body of these bytes up to a limit; reading the envelope. *)
Context (scan_data : bytes -> Z -> bool * scanned) (scan_bulk : Request -> go bulkRequest).
(** A request off the wire, from its first line and header; the pattern a
    request matches; the answer to one that matches none. *)
Context (ReadRequest : string -> go Request) (mux : list (string * string) -> Request -> option nat).
Context {S : Type}.
Context (unmatched : Handler S).
Local Abbreviation MW := (M (Web S)).

(** [httptest.NewRequest]: it panics where the line cannot be read. *)
Definition NewRequest (method target : string) : go Request :=
  let method := if String.eqb method "" then "GET" else method in
  match ReadRequest (method +:+ " " +:+ target +:+ " HTTP/1.0" +:+ CRLF +:+ CRLF) with
  | Ret r => Ret (MkRequest (r_Method r) (r_Path r) (r_Header r) "192.0.2.1:1234"
      (if String.eqb (r_Host r) "" then "example.com" else r_Host r) (has_prefix target "https://")
      (r_Cookie r) (r_PathValue r) (r_PathParams r) (r_Query r) (r_ctx r))
  | Fail _ => Panic "invalid NewRequest arguments"
  | Panic why => Panic why
  end.
Definition sub_request (x : Context) (op : bulkOperation) : go Request :=
  r ← NewRequest (bo_Method op) (bulkPrefix +:+ bo_Path op);
  let h := Header_Set (r_Header r) "Content-Type" "application/scim+json" in
  let h := if String.eqb (bo_Version op) "" then h else Header_Set h "If-Match" (bo_Version op) in
  Ret (with_header h (WithContext x r)).

(** [httptest.NewRecorder]: its status is 200 until one is written. *)
Definition NewRecorder : Writer := MkWriter [MkCapture 200 false] ∅ [] [] None [].
Definition rec_Code (rec : Writer) : Z := match wr_captures rec with c :: _ => sw_status c | [] => 200 end.
Definition rec_Body (rec : Writer) : bytes :=
  concat (map (fun b => match b with Encoded v => Marshal v ++ ["010"%char] | Written raw => raw end) (wr_body rec)).
Definition with_writer {A} (wr : Writer) (m : MW A) : MW (A * Writer) := fun w =>
  let v := w_store w in
  let '(r, w') := m (World (MkWeb (web_app v) (web_actors v) (web_clusters v) wr) (w_trace w)) in
  let v' := w_store w' in
  (match r with Ret a => Ret (a, web_writer v') | Fail e => Fail e | Panic why => Panic why end,
   World (MkWeb (web_app v') (web_actors v') (web_clusters v') (web_writer v)) (w_trace w')).

Definition result_of (op : bulkOperation) (rec : Writer) : bulkOperationResult :=
  MkBulkResult (bo_Method op) (bo_BulkID op) (Header_Get (wr_header rec) "Location") (pretty (rec_Code rec)) (rec_Body rec).

Section Router.
Context (rt : SCIMRoutes S).

(** [buildInnerSCIMRouter]; a body of [data]. *)
Definition inner_routes (data : bytes) : list (string * string * Handler S) :=
  let scan := fun limit (_ : Request) => scan_data data limit in
  [("POST", "/scim/v2/Users", UsersCreate L text scan rt);
   ("GET", "/scim/v2/Users/{id}", UsersGet text rt);
   ("PUT", "/scim/v2/Users/{id}", UsersReplace L text scan rt);
   ("PATCH", "/scim/v2/Users/{id}", UsersPatch L utf8 text scan rt);
   ("DELETE", "/scim/v2/Users/{id}", UsersDelete text rt);
   ("POST", "/scim/v2/Groups", GroupsCreate L text scan rt);
   ("GET", "/scim/v2/Groups/{id}", GroupsGet text rt);
   ("PUT", "/scim/v2/Groups/{id}", GroupsReplace L text scan rt);
   ("PATCH", "/scim/v2/Groups/{id}", GroupsPatch L utf8 text scan rt);
   ("DELETE", "/scim/v2/Groups/{id}", GroupsDelete text rt)].
Definition buildInnerSCIMRouter (data : bytes) : Handler S := fun r =>
  match (i ← mux (map fst (inner_routes data)) r; inner_routes data !! i) with
  | Some route => route.2 r
  | None => unmatched r
  end.

(** The routes [buildHandler] registers, each behind the gate of the
    application; a body is read by [scan]. *)
Definition app_routes (scan : Z -> Request -> bool * scanned) : list (string * string * Handler S) :=
  [("GET", "/scim/v2/ServiceProviderConfig", ServiceProviderConfig rt);
   ("GET", "/scim/v2/ResourceTypes", ResourceTypes); ("GET", "/scim/v2/Schemas", Schemas);
   ("GET", "/scim/v2/Users", UsersList text rt);
   ("POST", "/scim/v2/Users", UsersCreate L text scan rt);
   ("GET", "/scim/v2/Users/{id}", UsersGet text rt);
   ("PUT", "/scim/v2/Users/{id}", UsersReplace L text scan rt);
   ("PATCH", "/scim/v2/Users/{id}", UsersPatch L utf8 text scan rt);
   ("DELETE", "/scim/v2/Users/{id}", UsersDelete text rt);
   ("GET", "/scim/v2/Groups", GroupsList text rt);
   ("POST", "/scim/v2/Groups", GroupsCreate L text scan rt);
   ("GET", "/scim/v2/Groups/{id}", GroupsGet text rt);
   ("PUT", "/scim/v2/Groups/{id}", GroupsReplace L text scan rt);
   ("PATCH", "/scim/v2/Groups/{id}", GroupsPatch L utf8 text scan rt);
   ("DELETE", "/scim/v2/Groups/{id}", GroupsDelete text rt)].

Context (max : Z) (audit : option (Logger S)).

Definition dispatch (x : Context) (op : bulkOperation) : MW bulkOperationResult :=
  sub ← lift (sub_request x op);
  answered ← with_writer NewRecorder (buildInnerSCIMRouter (bo_Data op) sub);
  mret (result_of op answered.2).
Fixpoint dispatch_all (x : Context) (ops : list bulkOperation) : MW (list bulkOperationResult) :=
  match ops with
  | [] => mret []
  | op :: ops => t ← dispatch x op; ts ← dispatch_all x ops; mret (t :: ts)
  end.

Definition bulk_event (x : Context) (id : string) (at_ : time) (n : Z) : Event :=
  {| ev_ID := id; ev_At := at_; ev_Actor := ActorFromContext x; ev_Action := actionBulk;
     ev_ResourceType := "scim"; ev_ResourceID := ""; ev_RequestID := ""; ev_ClusterID := "";
     ev_Before := []; ev_After := Marshal (map_json [("operation_count", VInt n)]); ev_PrevHash := []; ev_Hash := [];
     ev_CanonicalVersion := 0; ev_TenantID := ""; ev_RowSalt := []; ev_Commitments := no_commitments |}.
Definition emitBulk (x : Context) (n : Z) : MW unit :=
  match audit with
  | None => mret tt
  | Some log =>
      id ← newID E;
      at_ ← now E;
      ignore_err (call_app (log (bulk_event x id at_ n)))
  end.

(** An encoder whose value holds a [json.RawMessage] that is no JSON writes
    nothing and returns an error, which is dropped. *)
Definition Encode_bulk (results : list bulkOperationResult) : MW unit :=
  if forallb (fun t => match bt_Response t with [] => true | raw => valid raw end) results
  then encode_body (bulkResponse_json results) else mret tt.

Definition handleBulk : Handler S := fun r =>
  match scan_bulk r with
  | Panic why => lift (Panic why)
  | Fail _ => WriteSCIMErrorTyped 400 "malformed bulk request" "invalidSyntax"
  | Ret req =>
      let n := Z.of_nat (length (bq_Operations req)) in
      if (0 <? max) && (max <? n) then WriteSCIMErrorTyped 413 "too many bulk operations" "tooMany"
      else
        results ← dispatch_all (r_ctx r) (bq_Operations req);
        emitBulk (r_ctx r) n;;
        header_Set "Content-Type" "application/scim+json";;
        WriteHeader 200;;
        Encode_bulk results
  end.
End Router.

(** ** What an envelope does *)

Implicit Types (r : Request) (w : world (Web S)).
(** The world of a request of its own: the state and the trace so far, and a
    response of its own. *)
Definition blank w : world (Web S) :=
  World (MkWeb (web_app (w_store w)) (web_actors (w_store w)) (web_clusters (w_store w)) NewRecorder) (w_trace w).
Definition writer w : Writer := web_writer (w_store w).
Definition app w : S := web_app (w_store w).

(** The request an operation stands for, fact by fact: what the server reads off
    its line under [/scim/v2], a GET when it names no method, with the type of
    a SCIM body, the version as a precondition when there is one, and under the
    context of the envelope, so of its principal. *)
Definition line_of (op : bulkOperation) : string :=
  (if String.eqb (bo_Method op) "" then "GET" else bo_Method op) +:+ " /scim/v2" +:+ bo_Path op +:+ " HTTP/1.0" +:+ CRLF +:+ CRLF.
Record stands_for (x : Context) (op : bulkOperation) (read sub : Request) : Prop := {
  sf_route : r_Method sub = r_Method read /\ r_Path sub = r_Path read /\ r_Query sub = r_Query read /\
    r_PathValue sub = r_PathValue read /\ r_PathParams sub = r_PathParams read /\ r_Cookie sub = r_Cookie read;
  sf_context : r_ctx sub = x;
  sf_type : Header_Values (r_Header sub) "Content-Type" = ["application/scim+json"];
  sf_version : Header_Values (r_Header sub) "If-Match" =
    if String.eqb (bo_Version op) "" then Header_Values (r_Header read) "If-Match" else [bo_Version op];
  sf_header k : k <> "Content-Type" -> k <> "If-Match" -> r_Header sub !! k = r_Header read !! k
}.

(** What an envelope may ask for: the application's routes, less those that list
    a collection or describe the service. What would answer: the route of the
    application the router finds, with the operation's data for a body. *)
Definition lists (mp : string * string) : bool := String.eqb mp.1 "GET" && negb (has_suffix mp.2 "/{id}").
Definition own_routes (rt : SCIMRoutes S) (op : bulkOperation) : list (string * string * Handler S) :=
  List.filter (fun route => negb (lists route.1)) (app_routes rt (fun limit _ => scan_data (bo_Data op) limit)).
Definition own_route (rt : SCIMRoutes S) (op : bulkOperation) (sub : Request) (h : Handler S) : Prop :=
  match i ← mux (map fst (own_routes rt op)) sub; own_routes rt op !! i with
  | Some route => h = route.2
  | None => h = unmatched
  end.

(** What the envelope's answer says of an operation: what a recorder took down. *)
Record reports (op : bulkOperation) (rec : Writer) (t : bulkOperationResult) : Prop := {
  rp_op : bt_Method t = bo_Method op /\ bt_BulkID t = bo_BulkID op;
  rp_status : bt_Status t = pretty (rec_Code rec);
  rp_location : bt_Location t = Header_Get (wr_header rec) "Location";
  rp_body : bt_Response t = rec_Body rec
}.

(** The operations sent as requests of their own, one after the other. *)
Inductive sent (rt : SCIMRoutes S) (x : Context) :
    list bulkOperation -> world (Web S) -> list bulkOperationResult -> world (Web S) -> Prop :=
  | sent_nil w : sent rt x [] w [] w
  | sent_cons op ops w read sub h w1 t outs w2 : ReadRequest (line_of op) = Ret read -> stands_for x op read sub ->
      own_route rt op sub h -> h sub w = (Ret tt, w1) -> reports op (writer w1) t ->
      sent rt x ops (blank w1) outs w2 -> sent rt x (op :: ops) w (t :: outs) w2.
(** One that cannot be sent, or whose handler panics. *)
Definition stuck (rt : SCIMRoutes S) (x : Context) (op : bulkOperation) w w' : Prop :=
  (is_ret (ReadRequest (line_of op)) = false /\ blank w' = w) \/
  exists read sub h w1 res, ReadRequest (line_of op) = Ret read /\ stands_for x op read sub /\
    own_route rt op sub h /\ h sub w = (res, w1) /\ is_ret res = false /\ blank w' = blank w1.

(** The code builds that request and asks that route. *)
Lemma sub_request_stands x op : match sub_request x op with
  | Ret sub => exists read, ReadRequest (line_of op) = Ret read /\ stands_for x op read sub
  | _ => is_ret (ReadRequest (line_of op)) = false
  end.
Proof.
  unfold sub_request, NewRequest, line_of, bulkPrefix.
  change (?m +:+ " " +:+ ("/scim/v2" +:+ ?p) +:+ ?q) with (m +:+ " /scim/v2" +:+ p +:+ q).
  destruct (ReadRequest _) as [q|e|why]; [|done..]. cbn [mbind M_bind go_bind]. exists q. split; [done|].
  assert (CanonicalHeaderKey "Content-Type" = "Content-Type" /\ CanonicalHeaderKey "If-Match" = "If-Match") as [Ht Hm] by by vm_compute.
  split; [by split_and!|done|..]; cbn [r_Header with_header WithContext]; unfold Header_Values, Header_Set; rewrite ?Ht, ?Hm.
  - destruct (String.eqb (bo_Version op) ""); [|rewrite lookup_insert_ne by done]; by rewrite lookup_insert_eq.
  - destruct (String.eqb (bo_Version op) ""); [by rewrite lookup_insert_ne|by rewrite lookup_insert_eq].
  - intros k H1 H2. destruct (String.eqb (bo_Version op) ""); [|rewrite lookup_insert_ne by done]; by rewrite lookup_insert_ne.
Qed.
Lemma inner_own rt op sub : exists h, own_route rt op sub h /\ forall w, buildInnerSCIMRouter rt (bo_Data op) sub w = h sub w.
Proof.
  assert (own_routes rt op = inner_routes rt (bo_Data op)) as Hsame by reflexivity.
  unfold own_route, buildInnerSCIMRouter. rewrite Hsame. destruct (mbind _ _) as [route|]; by eexists.
Qed.

Lemma with_writer_inv {A} wr (m : M (Web S) A) w res w' : with_writer wr m w = (res, w') ->
  exists (r1 : go A) w1, m (World (MkWeb (web_app (w_store w)) (web_actors (w_store w)) (web_clusters (w_store w)) wr) (w_trace w)) = (r1, w1) /\
    blank w' = blank w1 /\ writer w' = writer w /\
    match r1 with Ret a => res = Ret (a, writer w1) | _ => is_ret res = false end.
Proof.
  unfold with_writer. destruct (m _) as [r1 w1] eqn:Hm. intros [= <- <-]. exists r1, w1. split_and!; [done|done|done|by destruct r1].
Qed.
Lemma dispatch_inv rt x op w res w' : dispatch rt x op w = (res, w') ->
  writer w' = writer w /\
  match res with
  | Ret t => forall ops outs w2, sent rt x ops (blank w') outs w2 -> sent rt x (op :: ops) (blank w) (t :: outs) w2
  | _ => stuck rt x op (blank w) w'
  end.
Proof.
  pose proof (sub_request_stands x op) as Hsub. unfold dispatch.
  intros [(sub & w1 & Hs & H)|[(e & Hs & ->)|(e & Hs & ->)]]%bind_inv; apply lift_inv in Hs as [Hs%eq_sym ->]; rewrite Hs in Hsub;
    [|by split; [done|left]..].
  destruct Hsub as (read & Hread & Hstands), (inner_own rt op sub) as (h & Hh & Hinner).
  apply bind_inv in H as [([[] rec] & w2 & Hr & H)|[(e & Hr & ->)|(e & Hr & ->)]];
    apply with_writer_inv in Hr as (r1 & w3 & Hrun & Hb & Hw & Hm); fold (blank w) in Hrun; rewrite Hinner in Hrun.
  - apply mret_inv in H as [-> ->]. destruct r1 as [[]|e|e]; [|done..]. injection Hm as ->.
    split; [done|]. intros ops outs w4 Hops. rewrite Hb in Hops. eapply sent_cons; by try done.
  - split; [done|]. right. exists read, sub, h, w3, r1. destruct r1 as [[]|?|?]; [done|..]; by split_and!.
  - split; [done|]. right. exists read, sub, h, w3, r1. destruct r1 as [[]|?|?]; [done|..]; by split_and!.
Qed.
Lemma dispatch_all_inv rt x ops : forall w res w', dispatch_all rt x ops w = (res, w') ->
  writer w' = writer w /\
  match res with
  | Ret outs => sent rt x ops (blank w) outs (blank w')
  | _ => exists before op rest outs w1, ops = before ++ op :: rest /\ sent rt x before (blank w) outs w1 /\ stuck rt x op w1 w'
  end.
Proof.
  induction ops as [|op ops IH]; intros w res w'; cbn [dispatch_all].
  - intros [-> ->]%mret_inv. split; [done|constructor].
  - intros [(t & w1 & Hd & H)|[(e & Hd & ->)|(e & Hd & ->)]]%bind_inv; apply dispatch_inv in Hd as [Hw Hcons].
    + assert (forall w3, writer w3 = writer w1 -> (exists before o rest outs w4, ops = before ++ o :: rest /\
          sent rt x before (blank w1) outs w4 /\ stuck rt x o w4 w3) ->
        exists before o rest outs w4, op :: ops = before ++ o :: rest /\ sent rt x before (blank w) outs w4 /\ stuck rt x o w4 w3) as Hstuck.
      { intros w3 _ (before & o & rest & outs & w4 & -> & Ho & Hst). exists (op :: before), o, rest, (t :: outs), w4.
        split_and!; [done| |done]. by apply Hcons. }
      apply bind_inv in H as [(outs & w3 & Ha & H)|[(e & Ha & ->)|(e & Ha & ->)]]; apply IH in Ha as [Hw' Ha].
      * apply mret_inv in H as [-> ->]. split; [congruence|auto].
      * split; [congruence|by apply Hstuck].
      * split; [congruence|by apply Hstuck].
    + split; [done|]. exists [], op, ops, [], (blank w). split_and!; [done|constructor|done].
    + split; [done|]. exists [], op, ops, [], (blank w). split_and!; [done|constructor|done].
Qed.

Lemma sent_length rt x ops w outs w' : sent rt x ops w outs w' -> length outs = length ops.
Proof. induction 1; cbn; congruence. Qed.

(** The row of the envelope: what the log was handed, in which state, and what
    it left. *)
Definition bulk_row (x : Context) (n : Z) (ev : Event) : Prop :=
  ev_Actor ev = ActorFromContext x /\ ev_Action ev = "scim.bulk" /\ ev_ResourceType ev = "scim" /\ ev_ResourceID ev = "" /\
  ev_After ev = Marshal (map_json [("operation_count", VInt n)]).
Definition logged (audit : option (Logger S)) (x : Context) (n : Z) (before after : S) : Prop :=
  match audit with
  | None => after = before
  | Some log => exists ev v, bulk_row x n ev /\ w_store v = before /\ after = w_store (log ev v).2
  end.
Lemma emitBulk_inv audit x n w res w' : emitBulk audit x n w = (res, w') ->
  (forall log ev v why, audit = Some log -> (log ev v).1 <> Panic why) ->
  res = Ret tt /\ writer w' = writer w /\ logged audit x n (app w) (app w').
Proof.
  unfold emitBulk, logged. intros H Hno. destruct audit as [log|]; [|by apply mret_inv in H as [-> ->]].
  apply bind_inv in H as [(id & w1 & H1 & H)|[(e & H1 & ->)|(e & H1 & ->)]]; [|done..].
  apply bind_inv in H as [(at_ & w2 & H2 & H)|[(e & H2 & ->)|(e & H2 & ->)]]; [|done..].
  unfold newID, observe in H1. injection H1 as _ <-. unfold now, observe in H2. injection H2 as _ <-.
  unfold ignore_err, try_catch, call_app in H. cbn [w_store w_trace] in H.
  set (v := World _ _) in H. destruct (log (bulk_event x id at_ n) v) as [r1 v'] eqn:Hl.
  assert (forall why, r1 <> Panic why) as Hp by (intros why ->; by apply (Hno log (bulk_event x id at_ n) v why); rewrite ?Hl).
  assert (res = Ret tt /\ writer w' = writer w /\ app w' = w_store v') as (-> & -> & ->)
    by (destruct r1 as [a|e|why]; [injection H as <- <-; done|injection H as <- <-; done|by destruct (Hp why)]).
  split_and!; [done|done|]. exists (bulk_event x id at_ n), v. by rewrite Hl.
Qed.

Definition answered w (status : Z) : Prop := exists h, wr_sent (writer w) = Some (status, h, []).
Lemma error_answer status detail scimType w res w' : writer w = fresh_writer ->
  (400 <=? status) && (status <=? 599) = true -> WriteSCIMErrorTyped status detail scimType w = (res, w') ->
  res = Ret tt /\ app w' = app w /\ answered w' status.
Proof.
  intros Hw Hs [= <- <-]. split_and!; [done|done|]. unfold answered, writer in *. cbn. rewrite Hw. cbn.
  unfold base_WriteHeader. cbn. destruct (Z.leb_spec status 199); [bool_simpl; lia|]. rewrite andb_false_r. cbn. eauto.
Qed.

(** An envelope reaches the directory of the principal's tenant only. *)
Lemma sub_request_context x op sub : sub_request x op = Ret sub -> r_ctx sub = x.
Proof. unfold sub_request. destruct (NewRequest _ _) as [q|e|why]; [|done..]. cbn. by intros [= <-]. Qed.
Lemma inner_alike cfg U U' G G' data r w : alike (MkSCIMRoutes cfg U G) (MkSCIMRoutes cfg U' G') r ->
  buildInnerSCIMRouter (MkSCIMRoutes cfg U G) data r w = buildInnerSCIMRouter (MkSCIMRoutes cfg U' G') data r w.
Proof.
  intros Ha. pose proof (handlers_alike L utf8 text (fun limit _ => scan_data data limit) cfg U U' G G' r w Ha) as H.
  unfold resource_handlers, read_handlers, write_handlers in H. cbn [map app] in H.
  injection H as H1 H2 H3 H4 H5 H6 H7 H8 H9 H10 H11 H12. unfold buildInnerSCIMRouter, inner_routes. cbn [map fst].
  destruct (mux _ r) as [i|]; [|done]. cbn [mbind option_bind]. do 10 (destruct i as [|i]; [assumption|]). done.
Qed.
Lemma bulk_tenant_only cfg U U' G G' max audit r w :
  (forall t, acts_in r t -> same_users t U U' /\ same_groups t G G') ->
  handleBulk (MkSCIMRoutes cfg U G) max audit r w = handleBulk (MkSCIMRoutes cfg U' G') max audit r w.
Proof.
  intros Hsame. unfold handleBulk. destruct (scan_bulk r) as [req|e|why]; [|done..]. cbn zeta. destruct (_ && _); [done|].
  apply bind_ext; [|done]. generalize (bq_Operations req) w. clear req w. induction l as [|op ops IH]; intros w; [done|]. cbn [dispatch_all].
  apply bind_ext; [|intros t v; by apply bind_ext; [apply IH|]].
  unfold dispatch, mbind, M_bind, lift. destruct (sub_request (r_ctx r) op) as [sub|e|why] eqn:Hs; [|done..].
  apply sub_request_context in Hs. unfold with_writer. rewrite (inner_alike cfg U U' G G'); [done|].
  apply agree_alike. intros t (p & Hp & ->). apply Hsame. exists p. by rewrite <- Hs.
Qed.

End Bulk.

(** ** An example *)

Module ToyBulk.
(** A head whose first line has three words is read; the framework's router by
    segments; a body is the name of a group. *)
Definition words (s : string) : list string := map String.string_of_list_ascii (split_on " "%char (to_bytes s)).
Definition ReadRequest (head : string) : go Request :=
  match words head with
  | [method; target; _] => Ret (MkRequest method target ∅ "" "" false (fun _ => None) (fun _ => "") ∅ ∅ Background)
  | _ => Fail (AppError "malformed HTTP version")
  end.
Definition segments (s : string) : list string := map String.string_of_list_ascii (split_on "/"%char (to_bytes s)).
Fixpoint fits (pattern path : list string) : bool :=
  match pattern, path with
  | [], [] => true
  | p :: pattern, s :: path => (String.eqb p "{id}" || String.eqb p s) && fits pattern path
  | _, _ => false
  end.
Definition mux (routes : list (string * string)) (r : Request) : option nat :=
  fst <$> list_find (fun mp => String.eqb mp.1 (r_Method r) && fits (segments mp.2) (segments (r_Path r)) = true) routes.
Definition scan_data (data : bytes) (limit : Z) : bool * scanned :=
  (false, Scanned (DObject [("displayName", "", DString (String.string_of_list_ascii data))])).
Definition valid (raw : bytes) : bool := match raw with c :: _ => Ascii.eqb c "{" | [] => false end.
Definition braces (v : jv) : bytes := to_bytes "{}".

Section Run.
Import ToyMem.
Context (ops : list bulkOperation).
Local Abbreviation St := (Mem (list Event)).
Definition unmatched : Handler St := fun _ => WriteHeader 404;; Write (Written (to_bytes "404 page not found")).
Definition users : UserStore St := ScimMemStore.userStore env parse ScimPatch.Toy.lib braces (Some log).
Definition groups : GroupStore St := ScimMemStore.groupStore env parse ScimPatch.Toy.lib braces (Some log).
Definition rt : SCIMRoutes St := MkSCIMRoutes (MkSCIMConfig "/scim/v2" "https://idp.example" None 50 100 (2 ^ 20) "" "") users groups.
Definition bulk_log : Logger St := fun ev w =>
  (Ret ev, World (MkMem (mm_users (w_store w)) (mm_groups (w_store w)) (mm_db (w_store w) ++ [ev])) (w_trace w)).
Definition sa : Principal := MkPrincipal "sa" "" "" "" 0.
Definition outer : Request :=
  MkRequest "POST" "/scim/v2/Bulk" ∅ "" "" false (fun _ => None) (fun _ => "") ∅ ∅ (with_principal sa Background).
Definition w0 : world (Web St) := World (MkWeb (w_store start) [] [] fresh_writer) [].
Definition scan_bulk (_ : Request) : go bulkRequest := Ret (MkBulkRequest [] 1 ops).
End Run.
Abbreviation send ops :=
  (handleBulk ScimMemLaws.ToyMem.env ScimPatch.Toy.lib (fun s => s) (fun _ => "") braces valid scan_data (scan_bulk ops) ReadRequest mux
    unmatched rt 50 (Some bulk_log) outer w0).

Definition create (name : string) : bulkOperation := MkBulkOperation "POST" "" "/Groups" (to_bytes name) "".
Definition groups_of (w : world (Web (ScimMemStore.Mem (list Event)))) : list string :=
  map (fun g => gr_DisplayName g.2) (map_to_list (ScimMemStore.mm_groups (web_app (w_store w)))).
Definition three : list bulkOperation := [create "eng"; MkBulkOperation "DELETE" "" "/Groups/nobody" [] ""; create "ops"].
Definition log_length (w : world (Web (ScimMemStore.Mem (list Event)))) : nat := length (ScimMemStore.mm_db (web_app (w_store w))).

(** One failure does not end the envelope, though it asked for that
    ([failOnErrors] is 1). *)
Example fail_on_errors_ignored : (send three).1 = Ret tt /\ length (groups_of (send three).2) = 2%nat /\ log_length (send three).2 = 3%nat.
Proof. vm_compute. by split_and!. Qed.
(** An operation that matches no route costs the client the whole answer. *)
Example unknown_path_silences :
  let w := (send [create "eng"; MkBulkOperation "POST" "" "/Devices" [] ""]).2 in
  groups_of w = ["eng"] /\ wr_body (web_writer (w_store w)) = [].
Proof. vm_compute. by split. Qed.
(** A blank in a path panics the handler after the first operation was applied:
    its group stays, no row tells of the envelope, and nothing is answered. *)
Example blank_in_a_path :
  let '(res, w) := send [create "eng"; MkBulkOperation "GET" "" "/Users/a b" [] ""; create "ops"] in
  res = Panic "invalid NewRequest arguments" /\ groups_of w = ["eng"] /\ log_length w = 1%nat /\
  wr_sent (web_writer (w_store w)) = None.
Proof. vm_compute. by split_and!. Qed.

(** Without a configured base URL, the locations of an envelope's results are
    those of the host [httptest] makes up, whatever host the client asked. *)
Example locations_of_nowhere :
  match sub_request ReadRequest (r_ctx outer) (create "eng") with
  | Ret sub => baseURL (MkSCIMConfig "/scim/v2" "" None 50 100 (2 ^ 20) "" "") sub = "http://example.com"
  | _ => False
  end.
Proof. vm_compute. reflexivity. Qed.
End ToyBulk.
Import ToyBulk.

Lemma send_ran : exists w', send three = (Ret tt, w') /\ length (wr_body (writer w')) = 1%nat.
Proof.
  assert (is_ret (send three).1 = true /\ length (wr_body (writer (send three).2)) = 1%nat) as [Hr Hb] by (split; vm_compute; reflexivity).
  destruct (send three) as [res w']. cbn [fst snd] in *. exists w'. split; [|exact Hb]. destruct res as [[]|e|why]; [done|discriminate Hr..].
Qed.
