(* ===== verification/WebRoutes.v ===== *)
(** * Wiring the surfaces

    [Routes] of [src/espresso/routes.go]: the route surfaces and the middleware
    an application registers, built from the engines of [TamperProvider.New],
    which always holds a token service: the guard for one that does not has no
    case here.
    The application's state holds the state of the managers and of the log where
    [oidc_state], [saml_state] and [log_in] say. *)

From S2P Require Import Prelude Tenant World Crypto Jwt AuditEvent AuditStore IdpManager IdpRegistry Oidc OidcClaims StateCookie SamlReplay SamlProvider Identity TamperProvider Http WebAuth WebGates WebAudit WebWire WebAuthRoutes WebFlows WebFederation WebSaml ScimStore WebScim.

#[local] Open Scope string_scope.
#[local] Open Scope list_scope.
#[local] Open Scope Z_scope.

(** A part of the application's state. *)
Record Part (S St : Type) := MkPart { pt_get : S -> St; pt_put : St -> S -> S }.
Arguments MkPart {_ _} _ _.
Arguments pt_get {_ _} _ _.
Arguments pt_put {_ _} _ _ _.
(** A method over that part as a hook: its error is handed on as it is. *)
Definition hosted {S St A} (part : Part S St) (m : M St A) : M (Web S) (http_error + A) := fun w =>
  let v := w_store w in
  let '(r, w') := m (World (pt_get part (web_app v)) (w_trace w)) in
  (match r with Ret a => Ret (inr a) | Fail e => Ret (inl (Raw e)) | Panic why => Panic why end,
   World (MkWeb (pt_put part (w_store w') (web_app v)) (web_actors v) (web_clusters v) (web_writer v)) (w_trace w')).

Section Routes.
Context {SI SO SS A D Endpoints Verifier Entity URL Cert Signer Replay S : Type}.
Context (E : Env) (fw : Framework) (lib : JWTLibrary).
Local Abbreviation OidcRegistry := (ProviderRegistry (Oidc.Provider D Endpoints Verifier)).
Local Abbreviation SamlRegistry := (ProviderRegistry (@SamlProvider.Provider Entity URL Cert Signer Replay)).
Local Abbreviation Engines := (@TamperProvider.Provider SI SO SS A D Endpoints Verifier Entity URL Cert Signer Replay).
Context (oidc_state : Part S (mstate SO OidcRegistry)) (saml_state : Part S (mstate SS SamlRegistry))
  (log_in : TamperProvider.Logger -> Logger S).

Record FederationBundle := MkFederationBundle { fb_Config : FederationConfig; fb_Hooks : @FederationHooks D Endpoints Verifier S }.
Record SAMLBundle := MkSAMLBundle { mb_Config : WebSaml.SAMLConfig; mb_Hooks : @SAMLHooks Entity URL Cert Signer Replay S }.
Record SCIMBundle := MkSCIMBundle {
  cb_Config : SCIMConfig;
  cb_Users : option (UserStore S);
  cb_Groups : option (GroupStore S);
  cb_Validator : option (string -> M S credential)
}.
Record RouteConfig := MkRouteConfig {
  rc_Auth : AuthRoutesConfig S;
  rc_Identity : option (IdentityService S);
  rc_AuditEmailLookup : option (string -> M S (option string));
  rc_Federation : option FederationBundle;
  rc_SAML : option SAMLBundle;
  rc_SCIM : option SCIMBundle
}.
Record Surfaces := MkSurfaces {
  sf_Auth : AuthRoutes S;
  sf_Federation : option (@FederationRoutes D Endpoints Verifier S);
  sf_SAML : option (@SAMLRoutes Entity URL Cert Signer Replay S);
  sf_SCIM : option (SCIMRoutes S);
  sf_Auditor : Auditor S;
  sf_RequireAuth : Middleware S;
  sf_RequireAuthWS : string -> go (Middleware S);
  sf_RequireServiceAccount : option (Middleware S)
}.

(** [GetRegistry] of the managers, as the hooks the surfaces call. *)
Definition oidc_registry (m : @Manager SO Oidc.ProviderRecord OidcRegistry) (x : Context) (t : ID)
    : M (Web S) (http_error + option OidcRegistry) := hosted oidc_state (GetRegistry E m t).
Definition saml_registry (m : @Manager SS SamlProvider.ProviderRecord SamlRegistry) (x : Context) (t : ID)
    : M (Web S) (http_error + option SamlRegistry) := hosted saml_state (GetRegistry E m t).
Definition with_oidc_registry (registry : Context -> ID -> M (Web S) (http_error + option OidcRegistry)) (h : FederationHooks) : FederationHooks :=
  {| fh_Registry := Some registry; fh_OnFederatedExchange := fh_OnFederatedExchange h; fh_SanitizeRedirect := fh_SanitizeRedirect h;
     fh_OnStepUpInitiated := fh_OnStepUpInitiated h; fh_CallingUserID := fh_CallingUserID h |}.
Definition with_saml_registry (registry : Context -> ID -> M (Web S) (http_error + option SamlRegistry)) (h : SAMLHooks) : SAMLHooks :=
  {| sh_Registry := Some registry; sh_OnFederatedAssertion := sh_OnFederatedAssertion h; sh_SanitizeRedirect := sh_SanitizeRedirect h;
     sh_LinkRedirect := sh_LinkRedirect h; sh_OnStepUpInitiated := sh_OnStepUpInitiated h; sh_CallingUserID := sh_CallingUserID h |}.

(** One optional surface: nothing when it was not asked for. *)
Definition optional {B C} (asked : option B) (build : B -> go C) : go (option C) :=
  match asked with None => Ret None | Some b => c ← build b; Ret (Some c) end.
Definition federation_surface (tp : Engines) (b : FederationBundle) : go FederationRoutes :=
  match p_OIDC tp with
  | None => Fail (Errorf0 "RouteConfig.Federation is set but the Provider has no OIDC manager")
  | Some m => NewFederationRoutes E (fb_Config b) (with_oidc_registry (oidc_registry m) (fb_Hooks b))
  end.
Definition saml_surface (tp : Engines) (b : SAMLBundle) : go SAMLRoutes :=
  match p_SAML tp with
  | None => Fail (Errorf0 "RouteConfig.SAML is set but the Provider has no SAML manager")
  | Some m => NewSAMLRoutes E (mb_Config b) (with_saml_registry (saml_registry m) (mb_Hooks b))
  end.
Definition scim_surface (b : SCIMBundle) : go (SCIMRoutes S * Middleware S) :=
  match cb_Validator b with
  | None => Fail (Errorf0 "RouteConfig.SCIM requires a ServiceAccountValidator")
  | Some validate =>
      sc ← NewSCIMRoutes (cb_Config b) (cb_Users b) (cb_Groups b);
      Ret (sc, RequireServiceAccount validate)
  end.
Definition Routes (tp : option Engines) (cfg : RouteConfig) : go Surfaces :=
  match tp with
  | None => Fail (Errorf0 "Routes requires a non-nil Provider")
  | Some tp =>
      auth ← NewAuthRoutes (rc_Identity cfg) (rc_Auth cfg);
      fed ← optional (rc_Federation cfg) (federation_surface tp);
      sm ← optional (rc_SAML cfg) (saml_surface tp);
      sc ← optional (rc_SCIM cfg) scim_surface;
      Ret {|
        sf_Auth := auth;
        sf_Federation := fed;
        sf_SAML := sm;
        sf_SCIM := fst <$> sc;
        sf_Auditor := NewAuditor (Some (log_in (p_Audit tp))) (rc_AuditEmailLookup cfg);
        sf_RequireAuth := RequireAuth fw lib E (p_JWT tp).1 (p_JWT tp).2;
        sf_RequireAuthWS := RequireAuthWS fw lib E (p_JWT tp).1 (p_JWT tp).2;
        sf_RequireServiceAccount := snd <$> sc
      |}
  end.

(** ** What is wired to what *)

Lemma optional_Ret {B C} (asked : option B) (build : B -> go C) c : optional asked build = Ret c ->
  match asked with None => c = None | Some b => exists x, c = Some x /\ build b = Ret x end.
Proof.
  unfold optional. destruct asked as [b|]; [|by intros [= <-]]. destruct (build b) as [x|e|why]; [|done..]. intros [= <-]. eauto.
Qed.
Lemma bind_returns {B C} (m : go B) (k : B -> go C) why : m <> Panic why -> (forall b, k b <> Panic why) -> (m ≫= k) <> Panic why.
Proof. intros Hm Hk. destruct m; cbn; [apply Hk|done|congruence]. Qed.
Lemma optional_returns {B C} (asked : option B) (build : B -> go C) why : (forall b why, build b <> Panic why) -> optional asked build <> Panic why.
Proof. intros H. unfold optional. destruct asked as [b|]; [|done]. by apply bind_returns. Qed.
Lemma federation_returns tp b why : federation_surface tp b <> Panic why.
Proof. unfold federation_surface, NewFederationRoutes. by repeat case_match. Qed.
Lemma saml_returns tp b why : saml_surface tp b <> Panic why.
Proof. unfold saml_surface, NewSAMLRoutes. by repeat case_match. Qed.
Lemma scim_returns b why : scim_surface b <> Panic why.
Proof. unfold scim_surface, NewSCIMRoutes. repeat case_match; cbn; discriminate. Qed.
Lemma auth_returns (svc : option (IdentityService S)) cfg why : NewAuthRoutes svc cfg <> Panic why.
Proof. unfold NewAuthRoutes. destruct svc; [|done]. repeat (case_match; try done). Qed.

(** What the three constructors keep. *)
Lemma federation_wired cfg (h : FederationHooks) registry f : NewFederationRoutes E cfg (with_oidc_registry registry h) = Ret f ->
  fr_cfg f = cfg /\ fr_Registry f = registry /\ Some (fr_OnFederatedExchange f) = fh_OnFederatedExchange h.
Proof.
  unfold NewFederationRoutes. cbn [with_oidc_registry fh_Registry fh_OnFederatedExchange].
  destruct (fh_OnFederatedExchange h); [|done]. repeat (case_match; try done). by intros [= <-].
Qed.
Lemma saml_wired_routes cfg (h : SAMLHooks) registry f : NewSAMLRoutes E cfg (with_saml_registry registry h) = Ret f ->
  sr_cfg f = cfg /\ sr_Registry f = registry /\ Some (sr_OnFederatedAssertion f) = sh_OnFederatedAssertion h.
Proof.
  unfold NewSAMLRoutes. cbn [with_saml_registry sh_Registry sh_OnFederatedAssertion].
  destruct (sh_OnFederatedAssertion h); [|done]. repeat (case_match; try done). by intros [= <-].
Qed.
Lemma scim_wired cfg users groups (sc : SCIMRoutes S) : NewSCIMRoutes cfg users groups = Ret sc ->
  Some (rt_users sc) = users /\ Some (rt_groups sc) = groups.
Proof. unfold NewSCIMRoutes. destruct users, groups; repeat (case_match; try done); by intros [= <-]. Qed.

(** [Routes] wires everything or returns an error; it never panics. Of a
    result, every optional surface is there exactly when it was asked for, and
    only over the engine that serves it: the registries of the federation and
    SAML surfaces are those of the provider's own managers, whatever hook the
    application supplied; the gates check tokens with the provider's token
    service; mutations are logged to the provider's log; and the directory comes
    with the gate of its own validator, never without one. *)
Theorem Routes_wired tp cfg r : Routes (Some tp) cfg = r ->
  (forall why, r <> Panic why) /\
  forall s, r = Ret s ->
    NewAuthRoutes (rc_Identity cfg) (rc_Auth cfg) = Ret (sf_Auth s) /\
    match rc_Federation cfg with
    | None => sf_Federation s = None
    | Some b => exists m f, p_OIDC tp = Some m /\ sf_Federation s = Some f /\ fr_cfg f = fb_Config b /\
        fr_Registry f = oidc_registry m /\ Some (fr_OnFederatedExchange f) = fh_OnFederatedExchange (fb_Hooks b)
    end /\
    match rc_SAML cfg with
    | None => sf_SAML s = None
    | Some b => exists m f, p_SAML tp = Some m /\ sf_SAML s = Some f /\ sr_cfg f = mb_Config b /\
        sr_Registry f = saml_registry m /\ Some (sr_OnFederatedAssertion f) = sh_OnFederatedAssertion (mb_Hooks b)
    end /\
    match rc_SCIM cfg with
    | None => sf_SCIM s = None /\ sf_RequireServiceAccount s = None
    | Some b => exists validate sc, cb_Validator b = Some validate /\ sf_SCIM s = Some sc /\
        Some (rt_users sc) = cb_Users b /\ Some (rt_groups sc) = cb_Groups b /\
        sf_RequireServiceAccount s = Some (RequireServiceAccount validate)
    end /\
    au_Logger (sf_Auditor s) = log_in (p_Audit tp) /\
    sf_RequireAuth s = RequireAuth fw lib E (p_JWT tp).1 (p_JWT tp).2.
Proof.
  intros <-. split.
  - intros why. unfold Routes. apply bind_returns; [apply auth_returns|intros auth].
    apply bind_returns; [apply optional_returns, federation_returns|intros fed].
    apply bind_returns; [apply optional_returns, saml_returns|intros sm].
    apply bind_returns; [apply optional_returns, scim_returns|done].
  - intros s H. unfold Routes in H. inv_go. apply optional_Ret in Hm0, Hm1, Hm2.
    cbn [sf_Auth sf_Federation sf_SAML sf_SCIM sf_Auditor sf_RequireAuth sf_RequireServiceAccount NewAuditor au_Logger default].
    split_and!; [done| | | |done|done].
    + destruct (rc_Federation cfg) as [b|]; [|done]. destruct Hm0 as (f & -> & Hf). unfold federation_surface in Hf.
      destruct (p_OIDC tp) as [m|]; [|done]. apply federation_wired in Hf as (H1 & H2 & H3). exists m, f. by split_and!.
    + destruct (rc_SAML cfg) as [b|]; [|done]. destruct Hm1 as (f & -> & Hf). unfold saml_surface in Hf.
      destruct (p_SAML tp) as [m|]; [|done]. apply saml_wired_routes in Hf as (H1 & H2 & H3). exists m, f. by split_and!.
    + destruct (rc_SCIM cfg) as [b|]; [|by subst]. destruct Hm2 as ([sc gate] & -> & Hf). unfold scim_surface in Hf.
      destruct (cb_Validator b) as [validate|]; [|done]. destruct (NewSCIMRoutes _ _ _) as [sc'|e|why] eqn:Hn; [|done..]. injection Hf as <- <-. apply scim_wired in Hn as [H1 H2]. exists validate, sc'. by split_and!.
Qed.
End Routes.
